(* ===== verification/_CoqProject ===== *)
-Q . S2P
Prelude.v
Util.v
ByteOrder.v
Csum.v
Hash.v
Hmap.v
HmapThms.v
Shash.v
Text.v
Json.v
JsonThms.v
JsonParse.v
JsonNumbers.v
JsonRound.v
Flow.v
Classifier.v
ClassifierTable.v
ClassifierInv.v
ClassifierSpec.v
ClassifierThms.v
Reconnect.v
MatchFields.v
Bitwise.v
MetaFlow.v
OdpActions.v
NxActions.v
FlowLayout.v
Packets.v
PacketThms.v
PacketBytes.v
NxMatch.v
NxMatchThms.v
NxMatchRound.v
NxMatchSafe.v
PacketView.v
PacketExec.v
PacketFrame.v
PacketIp.v
PacketL3.v
PacketL4.v
PacketIp6.v
PacketMpls.v
PacketRefine.v
PacketCsum.v
PacketCompose.v
PacketDefects.v
TableCounters.v
Learn.v
Tunnel.v
Heap.v
Bitmap.v
MacLearning.v
Stp.v
StpThms.v
XlateConfig.v
XlateConfigThms.v
XlateCtx.v
Xlate.v
XlateThms.v
XlateTop.v
XlateTables.v
XlateGrows.v
MegaflowRel.v
Megaflow.v
MegaflowTop.v
XlateVlan.v
XlateDeviations.v
