(* ===== verification/Prelude.v ===== *)
(** * Open vSwitch: a verification development

    The program is a virtual switch.  A daemon keeps OpenFlow flow tables; for
    a packet that the kernel's flow cache does not know it looks the packet up
    in the tables, translates the actions it finds into datapath actions and
    installs a cache entry that covers all packets the translation does not
    tell apart.  This repository is a version of Open vSwitch with a pipeline
    of ingress, production and egress tables, counters of the tables in use,
    and actions that learn flows on the fly, at a flow's expiry too.

    ** Parts and files

    Foundations.
    - This file: machine words as integers with explicit wrap-around, lists,
      options and bits, tactics and hint databases.
    - [Util], [ByteOrder]: lib/util.h, lib/util.c (bit scans), lib/byte-order.h.
    - [Bitwise]: the bit copying routines on byte arrays of lib/util.c.
    - [Hash]: lib/hash.h, lib/hash.c, lib/jhash.c, lib/random.c.
    - [Hmap], [HmapThms]: the hash map of lib/hmap.h and lib/hmap.c.
    - [Heap]: lib/heap.c.  [Bitmap]: lib/bitmap.h, lib/vlan-bitmap.c.
    - [Shash]: the string hash map of lib/shash.c.
    - [Text]: characters, integers and doubles as text, UTF-8 (lib/util.c,
      lib/dynamic-string.c, lib/unicode.c and the C library).
    - [Json]: lib/json.c.  [JsonThms]: values and their meaning.
      [JsonParse]: what the parser builds.  [JsonNumbers]: the numbers that
      the text keeps.  [JsonRound]: the round trip.

    Flow tables.
    - [Flow]: miniflows and minimasks of lib/flow.c on the words of a flow.
    - [Classifier]: lib/classifier.c.  [ClassifierTable], [ClassifierInv]: its
      invariant.  [ClassifierSpec], [ClassifierThms]: the finite map that it
      implements, the refinement, and lookups.
    - [MatchFields]: match_set_*() of lib/match.c on the named fields.
    - [FlowLayout]: the layout of struct flow, which relates the two views of
      a flow, its words and its fields.
    - [MetaFlow]: the table of fields of lib/meta-flow.c, subfields, checks.
    - [NxMatch]: matches as bytes, NXM and OXM (lib/nx-match.c, and the index
      of headers of lib/meta-flow.c).  [NxMatchThms]: decoding an entry undoes
      encoding it, field by field.  [NxMatchRound]: whole matches.
      [NxMatchSafe]: decoding any bytes.

    Actions.
    - [OdpActions]: commit_odp_actions() of lib/odp-util.c.
    - [NxActions]: register, stack, multipath and bundle actions.
    - [TableCounters]: lib/increment_table_id.c and the ranges of lib/simon.h.
    - [Learn]: the actions of lib/ofp-actions.h, lib/learn.c, lib/learn_learn.c,
      lib/learn_delete.c, and the expiry of rules in ofproto/ofproto.c.

    Packets, as bytes.
    - [Csum]: lib/csum.c and lib/crc32c.c.
    - [Packets]: flow_extract() and flow_compose() of lib/flow.c, the changes
      of packets in lib/packets.c, and lib/odp-execute.c.
    - [PacketThms]: parsing is safe.  [PacketBytes], [PacketView]: reading and
      writing bytes, and parsing by layers.  [PacketExec], [PacketFrame],
      [PacketIp], [PacketL3], [PacketL4], [PacketIp6], [PacketMpls]: what each
      change of a packet does to the flow it parses to.  [PacketRefine]: the
      execution of actions, and with the translation.  [PacketCsum]: checksums.
      [PacketCompose]: composed packets.  [PacketDefects]: packets that the
      set actions break.

    Protocols and tables of the switch.
    - [MacLearning]: lib/mac-learning.c.  [Stp], [StpThms]: lib/stp.c.
    - [Reconnect]: lib/reconnect.c.  [Tunnel]: ofproto/tunnel.c.

    The translator, ofproto/ofproto-dpif-xlate.c.
    - [XlateConfig], [XlateConfigThms]: bridges, bundles and ports, as the
      xlate_*_set() and xlate_*_remove() calls build them.
    - [XlateCtx]: struct xlate_ctx, struct xlate_in and struct xlate_out as
      one record, a state and error monad for the code that changes it, and
      the class [xlate_services] of what the translator calls elsewhere.
    - [Xlate]: every function from process_special() to xlate_actions(), and
      the rule lookups of ofproto/ofproto-dpif.c.
    - [XlateThms]: one relation between the contexts before and after a step,
      kept by every function.  [XlateTop]: theorems about xlate_actions() and
      the table pipeline.  [XlateVlan]: VLAN tags and the egress registers.
    - [XlateTables]: the lookups of the translator with classifiers as the flow
      tables, in place of a parameter.
    - [XlateGrows]: every function only adds to the wildcards.
      [MegaflowRel], [Megaflow], [MegaflowTop]: two translations of packets
      that a cached flow does not tell apart, function by function.
    - [XlateDeviations]: runs that go wrong.

    ** Correspondence

    A definition has the name of the function it models.  State is passed
    explicitly: a structure is a record, memory shared by several structures
    is a finite map from addresses (the classifier's tables, MAC entries, heap
    nodes, bridges, bundles and ports), and [None] or [Abort] is a failed
    assertion or a null pointer.  Fields in network byte order are the numbers
    they stand for.  A flow is its list of 32-bit words in [Flow] and
    [Classifier], which treat it so, and a function from fields to values in
    the files that name fields.  The clock, allocated addresses and random
    numbers are arguments.  Locks, log messages, statistics for display and
    memory reclamation are left out.

    ** What the theorems show

    - Hash map, heap, bitmaps, bit copying: each refines its abstract meaning
      (a bag, a priority queue, a set, a number) on every operation.
    - JSON: equality, hashes and copies respect the meaning of a value; the
      parser returns on every input, whatever the pieces it comes in; it reads
      back what the serializer writes, for the values of
      [JsonRound.json_kept]: no string ends with a backslash, and a real number
      is the one nearest to its first 15 digits, which make no integer.
      [JsonRound.json_misread_texts] has texts that are misread.
    - Classifier: it implements a map from matches and priorities to rules;
      a lookup finds the best match, and its wildcards contain every bit that
      the result depends on; cursors visit every rule once.  The same holds
      of lookups by fields, as the translator makes them.
    - Matches and fields: setters keep matches well formed and select what
      they name; writing and reading a subfield round-trips.
    - Encoded matches: decoding any bytes is safe and gives a well-formed match
      or an error; decoding undoes encoding for the matches of
      [NxMatchThms.encodable], which are those whose constrained fields have
      their prerequisites and masks that the format has.
    - Datapath actions: the actions emitted turn the flow before them into the
      translated flow, where labels change by one action
      ([OdpActions.mpls_change_ok]).
    - Packets: parsing any bytes stays within them; executing the actions
      emitted on the bytes of a packet gives a packet that parses to the
      translated flow, for the changes of [PacketRefine.change_ok] (no label is
      pushed or popped, IPv6 addresses change in their first word); checksums
      of IPv4 packets stay valid; popping undoes pushing; a packet composed
      from a flow all of whose fields are composed ([PacketCompose.composable])
      parses to it.  [PacketDefects.set_actions_break_packets] has packets that
      the set actions break.
    - Learning: a learned flow matches exactly the packets that hold the
      values learned, where the destinations are members of the flow of their
      own; deferred values come from the level they name.
    - MAC table: bounded size, exact lookup, LRU eviction, aging.
    - Spanning tree: roles are consistent, only root and designated ports
      leave blocking, forwarding is reached from learning only, the root port
      is the best by 802.1D's order, BPDUs round-trip.
    - Reconnection: timers, exponential backoff, keep-alive, attempts.
    - Tunnels: the receiving port is the most specific match, and the ECN bits
      are carried over or the packet is dropped.
    - Multipath: the chosen link is in range and the one the algorithm names,
      and the loop of iterative hashing ends.
    - Translator: configuration calls keep all references valid as long as no
      port is left with a freed peer, which no calls do that never take
      another port's peer; translation
      always terminates; it outputs only to ports that may forward; the tables
      are run in the order of the pipeline; each kind of side effect is absent
      when its switch is off; a cached flow serves only packets whose own translation
      would give the same actions, where the features that break this are not
      in use; wildcards always fix the fields every cache entry needs;
      VLAN tags round-trip; the egress registers compare what they say.

    ** Bounds and fuel

    Loops bounded by data are structural recursions or have a fuel that a
    lemma shows to be enough: 32 bits of a word, the length of a chain, 32
    mirrors, 31 and 255 spanning tree ports.  The loop of iterative hashing in
    a multipath action has 2^32 rounds, by doubling, and the hash is 0 in one of
    them ([NxActions.iter_hash_ends], [Hash.hash_2words_reaches_zero]).
    Resubmission is limited by the source to 256 levels: [xlate_table_action]
    has fuel for 257 levels, and 256 tables for the automatic resubmissions of
    one level; [XlateTop.xlate_terminates] shows that this is always enough.
    The loops over extension headers, options and labels of a packet have its
    length as fuel, and each round takes bytes from it.
    [Json.feed_loop] tries each byte at most twice ([JsonParse.feed_loop_run]).

    ** Not modelled

    Text parsing and formatting other than JSON, the codecs of OpenFlow
    messages other than their matches and of netlink messages, the kernel
    datapath, network devices, sockets and threads, the database and the daemon that configures the switch, bonds, LACP, CFM
    and BFD beyond the packets they take, sFlow, IPFIX and NetFlow export.
    These are input and output, generated code, or large components of their
    own; what the translator needs of them is a parameter with the documented
    behaviour as laws ([xlate_services_ok]). *)
From stdpp Require Export base tactics numbers list gmap sorting relations.
From Stdlib Require Export ZArith Lia Btauto.

#[global] Open Scope Z_scope.

(** ** Notations and hint databases *)

Create HintDb ovs.
Create HintDb ovs_bits.

Declare Scope ovs_scope.
Delimit Scope ovs_scope with ovs.

(** ** Machine-width unsigned integers

    A C unsigned integer of [w] bits is a [Z] in [0, 2^w).  Every C
    operation that can leave that range is followed by [wrap w]. *)

Definition wrap (w x : Z) : Z := x mod 2 ^ w.
Notation u8 := (wrap 8).
Notation u16 := (wrap 16).
Notation u32 := (wrap 32).
Notation u64 := (wrap 64).

Definition in_width (w x : Z) : Prop := 0 ≤ x < 2 ^ w.
Notation is_u8 := (in_width 8).
Notation is_u16 := (in_width 16).
Notation is_u32 := (in_width 32).
Notation is_u64 := (in_width 64).

(** [a & b] as a condition *)
Definition any_bit (a b : Z) : bool := negb (Z.land a b =? 0).

#[global] Instance in_width_dec w x : Decision (in_width w x).
Proof. unfold in_width. apply _. Defined.

Lemma wrap_in_width w x : 0 ≤ w → in_width w (wrap w x).
Proof. intros. apply Z.mod_pos_bound. lia. Qed.

Lemma wrap_id w x : in_width w x → wrap w x = x.
Proof. intros. by apply Z.mod_small. Qed.

Lemma wrap_wrap w x : wrap w (wrap w x) = wrap w x.
Proof. unfold wrap. by rewrite Zmod_mod. Qed.

Lemma in_width_mono w w' x : 0 ≤ w ≤ w' → in_width w x → in_width w' x.
Proof.
  intros ? [? ?]. split; [done|].
  apply Z.lt_le_trans with (2 ^ w); [done|]. apply Z.pow_le_mono_r; lia.
Qed.

(** ** Bit-level automation *)

Lemma testbit_wrap w x i :
  0 ≤ w → Z.testbit (wrap w x) i = (i <? w) && Z.testbit x i.
Proof.
  intros Hw. unfold wrap. destruct (Z.ltb_spec i w).
  - by rewrite Z.mod_pow2_bits_low.
  - by rewrite Z.mod_pow2_bits_high by lia.
Qed.

Lemma testbit_high w x i : in_width w x → 0 ≤ w ≤ i → Z.testbit x i = false.
Proof.
  intros Hx Hi. rewrite <- (wrap_id w x Hx), testbit_wrap by lia.
  by rewrite (proj2 (Z.ltb_ge i w)) by lia.
Qed.

(** A non-negative number whose high bits are all zero fits the width. *)
Lemma in_width_bits w x :
  0 ≤ w → (∀ i, w ≤ i → Z.testbit x i = false) → in_width w x.
Proof.
  intros Hw Hb.
  assert (x = wrap w x) as ->; [|by apply wrap_in_width].
  apply Z.bits_inj'. intros i Hi. rewrite testbit_wrap by done.
  destruct (Z.ltb_spec i w); [done|]. rewrite Hb by lia. done.
Qed.

Lemma land_in_width w x y : 0 ≤ w → in_width w x → in_width w (Z.land x y).
Proof.
  intros Hw Hx. apply in_width_bits; [done|]. intros i Hi.
  by rewrite Z.land_spec, (testbit_high w x) by (done || lia).
Qed.

Lemma ldiff_in_width w x y : 0 ≤ w → in_width w x → in_width w (Z.ldiff x y).
Proof.
  intros Hw Hx. apply in_width_bits; [done|]. intros i Hi.
  by rewrite Z.ldiff_spec, (testbit_high w x i).
Qed.

Lemma lor_in_width w x y :
  0 ≤ w → in_width w x → in_width w y → in_width w (Z.lor x y).
Proof.
  intros Hw Hx Hy. apply in_width_bits; [done|]. intros i Hi.
  by rewrite Z.lor_spec, (testbit_high w x), (testbit_high w y) by (done || lia).
Qed.

Lemma lxor_in_width w x y :
  0 ≤ w → in_width w x → in_width w y → in_width w (Z.lxor x y).
Proof.
  intros Hw Hx Hy. apply in_width_bits; [done|]. intros i Hi.
  by rewrite Z.lxor_spec, (testbit_high w x), (testbit_high w y) by (done || lia).
Qed.

Lemma shiftr_in_width w x n :
  0 ≤ w → 0 ≤ n → in_width w x → in_width w (Z.shiftr x n).
Proof.
  intros Hw Hn Hx. apply in_width_bits; [done|]. intros i Hi.
  by rewrite Z.shiftr_spec, (testbit_high w x) by (done || lia).
Qed.

#[export] Hint Resolve wrap_in_width land_in_width lor_in_width lxor_in_width
  shiftr_in_width : ovs.

Lemma testbit_ones w i : 0 ≤ w → 0 ≤ i → Z.testbit (2 ^ w - 1) i = (i <? w).
Proof.
  intros Hw Hi. replace (2 ^ w - 1) with (Z.ones w) by (rewrite Z.ones_equiv; lia).
  destruct (Z.ltb_spec i w);
    [by rewrite Z.ones_spec_low by lia|by rewrite Z.ones_spec_high by lia].
Qed.

Lemma land_zero_bits x y :
  0 ≤ x → Z.land x y = 0 ↔ ∀ i, 0 ≤ i → Z.testbit x i && Z.testbit y i = false.
Proof.
  intros Hx. split.
  - intros H i Hi. rewrite <- Z.land_spec, H. apply Z.testbit_0_l.
  - intros H. apply Z.bits_inj'. intros i Hi.
    by rewrite Z.land_spec, H, Z.testbit_0_l.
Qed.

Lemma land_pow2 x n : 0 ≤ n → Z.land x (2 ^ n) = if Z.testbit x n then 2 ^ n else 0.
Proof.
  intros Hn. apply Z.bits_inj'. intros i Hi. rewrite Z.land_spec, Z.pow2_bits_eqb by done.
  destruct (Z.eqb_spec n i) as [->|Hne].
  - rewrite andb_true_r. destruct (Z.testbit x i) eqn:E; [|by rewrite Z.testbit_0_l].
    by rewrite Z.pow2_bits_eqb, Z.eqb_refl.
  - rewrite andb_false_r. destruct (Z.testbit x n); [|by rewrite Z.testbit_0_l].
    rewrite Z.pow2_bits_eqb by done. symmetry. by apply Z.eqb_neq.
Qed.

(** [bits] proves an equality of integers by comparing every bit. *)
Ltac bits_step :=
  repeat first [rewrite Z.land_spec | rewrite Z.lor_spec | rewrite Z.lxor_spec
               | rewrite Z.ldiff_spec | rewrite Z.testbit_0_l].
Ltac bits := apply Z.bits_inj'; intros ? ?; bits_step; try btauto.

(** ** Case analysis on boolean tests *)

Ltac destruct_ifs :=
  repeat match goal with
  | |- context [if ?b then _ else _] =>
      lazymatch b with context [if _ then _ else _] => fail | _ => idtac end;
      let E := fresh "Hif" in destruct b eqn:E
  end.

Ltac zbool :=
  repeat match goal with
  | H : (_ =? _) = true |- _ => apply Z.eqb_eq in H
  | H : (_ =? _) = false |- _ => apply Z.eqb_neq in H
  | H : (_ <? _) = true |- _ => apply Z.ltb_lt in H
  | H : (_ <? _) = false |- _ => apply Z.ltb_ge in H
  | H : (_ <=? _) = true |- _ => apply Z.leb_le in H
  | H : (_ <=? _) = false |- _ => apply Z.leb_gt in H
  | H : (_ >? _) = _ |- _ => rewrite Z.gtb_ltb in H
  | H : (_ >=? _) = _ |- _ => rewrite Z.geb_leb in H
  | H : negb _ = true |- _ => apply negb_true_iff in H
  | H : negb _ = false |- _ => apply negb_false_iff in H
  | H : _ && _ = true |- _ => apply andb_true_iff in H as [? ?]
  | H : _ || _ = false |- _ => apply orb_false_iff in H as [? ?]
  end.

(** ** Lists *)

Lemma find_Some_elem {A} (p : A → bool) l x : List.find p l = Some x → x ∈ l ∧ p x = true.
Proof. intros H%List.find_some. by rewrite list_elem_of_In. Qed.

Lemma find_None_elem {A} (p : A → bool) l x : List.find p l = None → x ∈ l → p x = false.
Proof. intros H Hx. eapply List.find_none; [done|]. by apply list_elem_of_In. Qed.

Lemma find_ext {A} (p q : A → bool) l : (∀ x, p x = q x) → List.find p l = List.find q l.
Proof. intros H. induction l as [|x l IH]; simpl; [done|]. by rewrite H, IH. Qed.

Lemma filter_ext_in {A} (P Q : A → Prop) `{∀ x, Decision (P x)} `{∀ x, Decision (Q x)}
    (l : list A) :
  (∀ x, x ∈ l → P x ↔ Q x) → filter P l = filter Q l.
Proof.
  induction l as [|x l IH]; intros Hl; [done|].
  assert (Hx : P x ↔ Q x) by (apply Hl; set_solver).
  rewrite !filter_cons, IH by set_solver.
  repeat case_decide; tauto || done.
Qed.

Lemma filter_none_in {A} (P : A → Prop) `{∀ x, Decision (P x)} (l : list A) :
  (∀ x, x ∈ l → ¬ P x) → filter P l = [].
Proof.
  induction l as [|x l IH]; intros Hl; [done|].
  rewrite filter_cons_False by (apply Hl; set_solver). apply IH. set_solver.
Qed.

Lemma filter_all_in {A} (P : A → Prop) `{∀ x, Decision (P x)} (l : list A) :
  (∀ x, x ∈ l → P x) → filter P l = l.
Proof.
  induction l as [|x l IH]; intros Hl; [done|].
  rewrite filter_cons_True by (apply Hl; set_solver). f_equal. apply IH. set_solver.
Qed.

Lemma filter_fmap {A B} (f : A → B) (P : B → Prop) `{∀ x, Decision (P x)} (l : list A) :
  filter P (f <$> l) = f <$> filter (λ x, P (f x)) l.
Proof.
  induction l as [|x l IH]; [done|]. rewrite fmap_cons, !filter_cons.
  case_decide; rewrite ?fmap_cons; by rewrite IH.
Qed.

Lemma length_filter_ext {A} (P Q : A → Prop) `{∀ x, Decision (P x)}
    `{∀ x, Decision (Q x)} (l : list A) :
  (∀ x, x ∈ l → P x ↔ Q x) → length (filter P l) = length (filter Q l).
Proof. intros. by rewrite (filter_ext_in P Q). Qed.

(** Position of an element in a filtered range. *)
Lemma filter_seqZ_split (P : Z → Prop) `{∀ x, Decision (P x)} n o :
  0 ≤ o < n → P o →
  filter P (seqZ 0 n) = filter P (seqZ 0 o) ++ o :: filter P (seqZ (o + 1) (n - o - 1)).
Proof.
  intros Ho HP. replace n with (o + (1 + (n - o - 1))) at 1 by lia.
  rewrite !seqZ_app by lia. rewrite !filter_app. f_equal.
  replace (0 + o) with o by lia. change (seqZ o 1) with [o].
  by rewrite filter_cons_True.
Qed.

Lemma filter_seqZ_rank (P : Z → Prop) `{∀ x, Decision (P x)} n i o :
  filter P (seqZ 0 n) !! i = Some o → length (filter P (seqZ 0 o)) = i.
Proof.
  intros Hi. pose proof (list_elem_of_lookup_2 _ _ _ Hi) as Hin.
  apply list_elem_of_filter in Hin as [HP Hr%elem_of_seqZ].
  eapply (NoDup_lookup (filter P (seqZ 0 n))); [apply NoDup_filter, NoDup_seqZ| |done].
  rewrite (filter_seqZ_split P n o) by (done || lia). by rewrite list_lookup_middle.
Qed.

Lemma alter_lookup_default {A} (f : A → A) (l : list A) i j d :
  (i < length l)%nat →
  default d (alter f i l !! j) = if decide (i = j) then f (default d (l !! j)) else default d (l !! j).
Proof.
  intros Hi. case_decide as E; [subst j|].
  - rewrite list_lookup_alter_eq. destruct (lookup_lt_is_Some_2 l i Hi) as [x ->]. done.
  - by rewrite list_lookup_alter_ne.
Qed.

(** Masked comparison of words. *)
Lemma land_lxor_zero a b w : (Z.land (Z.lxor a b) w =? 0) = true ↔ Z.land a w = Z.land b w.
Proof.
  rewrite Z.eqb_eq. split; intros H; apply Z.bits_inj'; intros i Hi;
    apply (f_equal (λ z, Z.testbit z i)) in H;
    rewrite ?Z.land_spec, ?Z.lxor_spec, ?Z.testbit_0_l in *;
    by destruct (Z.testbit a i), (Z.testbit b i), (Z.testbit w i).
Qed.
