(* ===== verification/Util.v ===== *)
(** * Bit utilities of lib/util.h and lib/util.c

    The word-level helpers that the flow, classifier and hash-map code is
    built on: [is_pow2], [raw_ctz], [popcount], [log_2_floor],
    [rightmost_1bit] and [zero_rightmost_1bit], and the loop over the 1-bits
    of a 32-bit map that every miniflow routine uses.  [raw_ctz] and
    [log_2_floor] are the portable bodies of util.c (the ones compiled when
    the compiler has no count-zeros builtin). *)
From S2P Require Import Prelude.

(** ** Definitions *)

Definition is_pow2 (x : Z) : bool :=
  negb (x =? 0) && (Z.land x (u64 (x - 1)) =? 0).

(** CTZ_STEP(X): [k = n << X; if (k) { count -= X; n = k; }] *)
Definition ctz_step (x : Z) (st : Z * Z) : Z * Z :=
  let '(n, count) := st in
  let k := u32 (Z.shiftl n x) in
  if k =? 0 then (n, count) else (k, count - x).

Definition raw_ctz (n : Z) : Z :=
  (ctz_step 1 (ctz_step 2 (ctz_step 4 (ctz_step 8 (ctz_step 16 (n, 31)))))).2.

Definition ctz (n : Z) : Z := if n =? 0 then 32 else raw_ctz n.

(** BIN_SEARCH_STEP(BITS): [if (n >= (1 << BITS)) { log += BITS; n >>= BITS; }] *)
Definition bin_search_step (b : Z) (st : Z * Z) : Z * Z :=
  let '(n, log) := st in
  if Z.shiftl 1 b <=? n then (Z.shiftr n b, log + b) else (n, log).

(** [None] is the failed assertion on [n == 0]. *)
Definition log_2_floor (n : Z) : option Z :=
  if n =? 0 then None
  else Some (bin_search_step 1 (bin_search_step 2 (bin_search_step 4
              (bin_search_step 8 (bin_search_step 16 (n, 0)))))).2.

Definition log_2_ceil (n : Z) : option Z :=
  match log_2_floor n with
  | Some l => Some (l + (if is_pow2 n then 0 else 1))
  | None => None
  end.

(** INIT1(X): the number of 1-bits among the low 8 bits of [x]. *)
Definition popcount_init1 (x : Z) : Z :=
  foldr (λ k n, (if Z.land x (Z.shiftl 1 k) =? 0 then 0 else 1) + n) 0 (seqZ 0 8).

Definition popcount8 : list Z := popcount_init1 <$> seqZ 0 256.

Definition popcount8_get (i : Z) : Z := default 0 (popcount8 !! Z.to_nat i).

Definition popcount (x : Z) : Z :=
  popcount8_get (Z.land x 255)
  + popcount8_get (Z.land (Z.shiftr x 8) 255)
  + popcount8_get (Z.land (Z.shiftr x 16) 255)
  + popcount8_get (Z.shiftr x 24).

Definition rightmost_1bit (x : Z) : Z := Z.land x (u64 (- x)).
Definition zero_rightmost_1bit (x : Z) : Z := Z.land x (u64 (x - 1)).
Definition rightmost_1bit_idx (x : Z) : Z := if x =? 0 then 32 else ctz x.
Definition leftmost_1bit_idx (x : Z) : option Z :=
  if x =? 0 then Some 32 else log_2_floor x.

Definition is_all_zeros (p : list Z) : bool := forallb (λ b, b =? 0) p.
Definition is_all_ones (p : list Z) : bool := forallb (λ b, b =? 255) p.

(** The positions visited by
    [for (map = m; map; map = zero_rightmost_1bit(map)) ... raw_ctz(map) ...]:
    the fuel is the number of iterations, at most the width of the map. *)
Fixpoint one_bits_loop (fuel : nat) (map : Z) : list Z :=
  match fuel with
  | O => []
  | S fuel =>
      if map =? 0 then []
      else raw_ctz map :: one_bits_loop fuel (zero_rightmost_1bit map)
  end.

Definition one_bits (map : Z) : list Z := one_bits_loop 32 map.

(** ** Lowest set bit *)

(** [lowest n l]: bit [l] is the lowest 1-bit of [n]. *)
Definition lowest (n l : Z) : Prop :=
  0 ≤ l ∧ Z.testbit n l = true ∧ ∀ i, 0 ≤ i < l → Z.testbit n i = false.

Lemma lowest_unique n l l' : lowest n l → lowest n l' → l = l'.
Proof.
  intros (? & Hl & Hb) (? & Hl' & Hb').
  destruct (Z.lt_trichotomy l l') as [Hlt|[?|Hlt]]; [|done|].
  - by rewrite Hb' in Hl by lia.
  - by rewrite Hb in Hl' by lia.
Qed.

Lemma lowest_exists w n : 0 ≤ w → in_width w n → n ≠ 0 → ∃ l, lowest n l ∧ l < w.
Proof.
  intros Hw Hn Hn0.
  assert (Hex : ∀ k : nat, Z.of_nat k ≤ w →
    (∃ l, lowest n l ∧ l < Z.of_nat k)
    ∨ (∀ i, 0 ≤ i < Z.of_nat k → Z.testbit n i = false)).
  { induction k as [|k IH]; intros Hk; [right; lia|].
    destruct IH as [(l & Hl & ?)|Hz]; [lia|left; exists l; split; [done|lia]|].
    destruct (Z.testbit n (Z.of_nat k)) eqn:E.
    - left. exists (Z.of_nat k). split; [|lia]. split_and!; [lia|done|done].
    - right. intros i Hi. destruct (decide (i = Z.of_nat k)) as [->|]; [done|].
      apply Hz. lia. }
  destruct (Hex (Z.to_nat w)) as [(l & ? & ?)|Hz]; [lia|exists l; split; [done|lia]|].
  destruct Hn0. apply Z.bits_inj'. intros i Hi. rewrite Z.testbit_0_l.
  destruct (Z.lt_ge_cases i w); [apply Hz; lia|by apply (testbit_high w)].
Qed.

Lemma lowest_nonzero n l : lowest n l → n ≠ 0.
Proof. intros (? & Hl & _) ->. by rewrite Z.testbit_0_l in Hl. Qed.

Lemma lowest_lt w n l : 0 ≤ w → in_width w n → lowest n l → l < w.
Proof.
  intros Hw Hn (? & Hl & _). destruct (Z.lt_ge_cases l w); [done|].
  by rewrite (testbit_high w n l) in Hl by (done || lia).
Qed.

(** [n] split at its lowest set bit. *)
Lemma lowest_split n l : lowest n l → n = 2 ^ l * (2 * (n / 2 ^ (l + 1)) + 1).
Proof.
  intros (Hl0 & Hl & Hlow).
  assert (Hmod : n mod 2 ^ l = 0).
  { apply Z.bits_inj'. intros i Hi. rewrite Z.testbit_0_l.
    destruct (Z.lt_ge_cases i l).
    - rewrite Z.mod_pow2_bits_low by done. apply Hlow. lia.
    - by rewrite Z.mod_pow2_bits_high by lia. }
  assert (Hdiv : n / 2 ^ l = 2 * (n / 2 ^ (l + 1)) + 1).
  { rewrite Z.pow_add_r, <- Zdiv.Zdiv_Zdiv by lia. change (2 ^ 1) with 2.
    rewrite Z.testbit_true in Hl by done.
    pose proof (Z.div_mod (n / 2 ^ l) 2). lia. }
  rewrite <- Hdiv. pose proof (Z.div_mod n (2 ^ l)). lia.
Qed.

Lemma testbit_split_high q l i :
  0 ≤ l < i → Z.testbit (2 ^ l * (2 * q + 1)) i = Z.testbit q (i - l - 1).
Proof.
  intros Hi. rewrite (Z.mul_comm (2 ^ l)), <- Z.shiftl_mul_pow2 by lia.
  rewrite Z.shiftl_spec by lia. rewrite <- (Z.testbit_odd_succ q (i - l - 1)) by lia.
  f_equal. lia.
Qed.

Lemma zero_rightmost_1bit_spec n l i :
  is_u64 n → lowest n l → 0 ≤ i →
  Z.testbit (zero_rightmost_1bit n) i = Z.testbit n i && negb (i =? l).
Proof.
  intros Hn Hlow Hi. pose proof (lowest_nonzero _ _ Hlow) as Hnz.
  pose proof (lowest_split n l Hlow) as Hs. destruct Hlow as (Hl0 & Hl & Hb).
  set (q := n / 2 ^ (l + 1)) in *.
  unfold zero_rightmost_1bit. rewrite wrap_id by (unfold in_width in *; lia).
  rewrite Z.land_spec.
  assert (Hn1 : n - 1 = 2 ^ (l + 1) * q + (2 ^ l - 1)).
  { rewrite Hs at 1. rewrite Z.pow_add_r by lia. change (2 ^ 1) with 2. ring. }
  destruct (Z.lt_trichotomy i l) as [Hlt|[->|Hgt]].
  - by rewrite Hb by lia.
  - rewrite Z.eqb_refl, andb_false_r, Hl, Hn1. simpl.
    replace (2 ^ (l + 1) * q + (2 ^ l - 1)) with (2 ^ l - 1 + q * 2 ^ (l + 1)) by ring.
    rewrite <- (Z.mod_pow2_bits_low _ (l + 1) l) by lia.
    rewrite Z_mod_plus_full, Z.mod_pow2_bits_low by lia.
    rewrite testbit_ones by lia. by rewrite (proj2 (Z.ltb_ge l l)) by lia.
  - rewrite (proj2 (Z.eqb_neq i l)) by lia. simpl. rewrite andb_true_r.
    assert (Z.testbit (n - 1) i = Z.testbit n i) as ->; [|btauto].
    rewrite (Hs) at 2. rewrite testbit_split_high by lia.
    replace (i - l - 1) with (i - (l + 1)) by lia.
    rewrite Hn1.
    replace (Z.testbit (2 ^ (l + 1) * q + (2 ^ l - 1)) i)
      with (Z.testbit ((2 ^ (l + 1) * q + (2 ^ l - 1)) / 2 ^ (l + 1)) (i - (l + 1))).
    2:{ rewrite <- Z.shiftr_div_pow2, Z.shiftr_spec by lia. f_equal. lia. }
    rewrite Z.add_comm, Z.mul_comm, Z_div_plus_full by lia.
    rewrite Z.div_small by (rewrite Z.pow_add_r by lia; lia).
    done.
Qed.

(** ** Counting trailing zeros *)

Lemma lowest_shiftl n l x :
  0 ≤ x → lowest n l → l + x < 32 → lowest (u32 (Z.shiftl n x)) (l + x).
Proof.
  intros Hx (Hl0 & Hl & Hb) Hlt. split; [lia|]. split.
  - rewrite testbit_wrap by lia. rewrite (proj2 (Z.ltb_lt _ _)) by lia.
    rewrite Z.shiftl_spec by lia. replace (l + x - x) with l by lia. done.
  - intros i Hi. rewrite testbit_wrap by lia. rewrite Z.shiftl_spec by lia.
    destruct (Z.lt_ge_cases i x).
    + rewrite Z.testbit_neg_r by lia. btauto.
    + rewrite Hb by lia. btauto.
Qed.

Lemma shiftl_u32_zero n l x :
  0 ≤ x → lowest n l → 32 ≤ l + x → u32 (Z.shiftl n x) = 0.
Proof.
  intros Hx (Hl0 & Hl & Hb) Hge. apply Z.bits_inj'. intros i Hi.
  rewrite testbit_wrap, Z.testbit_0_l by lia. destruct (Z.ltb_spec i 32); [|done].
  simpl. rewrite Z.shiftl_spec by lia.
  destruct (Z.lt_ge_cases i x); [by rewrite Z.testbit_neg_r by lia|apply Hb; lia].
Qed.

(** Each step halves the range of the lowest bit and keeps [l + count]. *)
Lemma ctz_step_spec x n count l :
  0 < x → lowest n l → 32 - 2 * x ≤ l < 32 →
  ∃ l', lowest (ctz_step x (n, count)).1 l' ∧ 32 - x ≤ l' < 32
        ∧ l' + (ctz_step x (n, count)).2 = l + count.
Proof.
  intros Hx Hlow Hr. simpl. destruct (Z.lt_ge_cases (l + x) 32) as [Hlt|Hge].
  - pose proof (lowest_shiftl n l x ltac:(lia) Hlow Hlt) as Hs.
    rewrite (proj2 (Z.eqb_neq _ _) (lowest_nonzero _ _ Hs)). simpl.
    exists (l + x). split; [done|lia].
  - rewrite (shiftl_u32_zero n l x) by (done || lia). simpl.
    exists l. split; [done|lia].
Qed.

Lemma raw_ctz_lowest n l : lowest n l → l < 32 → raw_ctz n = l.
Proof.
  intros Hlow Hlt. unfold raw_ctz.
  pose proof Hlow as (Hl0 & _ & _).
  assert (Hstep : ∀ x st l0, 0 < x → lowest st.1 l0 → 32 - 2 * x ≤ l0 < 32 →
    ∃ l', lowest (ctz_step x st).1 l' ∧ 32 - x ≤ l' < 32
          ∧ l' + (ctz_step x st).2 = l0 + st.2).
  { intros x [n' c] l0. apply ctz_step_spec. }
  destruct (Hstep 16 (n, 31) l) as (l1 & H1 & R1 & S1); [lia|done|lia|].
  destruct (Hstep 8 _ l1 ltac:(lia) H1) as (l2 & H2 & R2 & S2); [lia|].
  destruct (Hstep 4 _ l2 ltac:(lia) H2) as (l3 & H3 & R3 & S3); [lia|].
  destruct (Hstep 2 _ l3 ltac:(lia) H3) as (l4 & H4 & R4 & S4); [lia|].
  destruct (Hstep 1 _ l4 ltac:(lia) H4) as (l5 & H5 & R5 & S5); [lia|].
  change ((n, 31).2) with 31 in S1. lia.
Qed.

Lemma raw_ctz_spec n : is_u32 n → n ≠ 0 → lowest n (raw_ctz n) ∧ raw_ctz n < 32.
Proof.
  intros Hn Hnz. destruct (lowest_exists 32 n) as (l & Hl & ?); [lia|done|done|].
  by rewrite (raw_ctz_lowest n l).
Qed.

(** ** The loop over 1-bits *)

Lemma zero_rightmost_1bit_u32 n : is_u32 n → is_u32 (zero_rightmost_1bit n).
Proof. intros. apply land_in_width; [lia|done]. Qed.

Lemma filter_bits_ext m m' (l : list Z) :
  (∀ i, i ∈ l → Z.testbit m i = Z.testbit m' i) →
  filter (λ i, Z.testbit m i = true) l = filter (λ i, Z.testbit m' i = true) l.
Proof.
  intros H. apply filter_ext_in. intros i Hi. by rewrite H.
Qed.

Lemma filter_bits_none m (l : list Z) :
  (∀ i, i ∈ l → Z.testbit m i = false) →
  filter (λ i, Z.testbit m i = true) l = [].
Proof.
  intros H. apply filter_none_in. intros i Hi. by rewrite H.
Qed.

Lemma one_bits_loop_spec fuel k m :
  is_u32 m → 0 ≤ k ≤ 32 → 32 - k ≤ Z.of_nat fuel →
  (∀ i, 0 ≤ i < k → Z.testbit m i = false) →
  one_bits_loop fuel m = filter (λ i, Z.testbit m i = true) (seqZ k (32 - k)).
Proof.
  revert k m. induction fuel as [|fuel IH]; intros k m Hm Hk Hf Hz.
  { replace k with 32 by lia. done. }
  simpl. destruct (Z.eqb_spec m 0) as [->|Hnz].
  { rewrite filter_bits_none; [done|]. intros. apply Z.testbit_0_l. }
  destruct (raw_ctz_spec m Hm Hnz) as [Hlow Hlt]. set (l := raw_ctz m) in *.
  pose proof Hlow as (Hl0 & Hl & Hb).
  assert (is_u64 m) by (apply (in_width_mono 32); [lia|done]).
  assert (k ≤ l).
  { destruct (Z.lt_ge_cases l k); [|done]. by rewrite Hz in Hl by lia. }
  rewrite (IH (l + 1)); [|by apply zero_rightmost_1bit_u32|lia|lia|].
  - replace (32 - k) with ((l - k) + (32 - l)) by lia.
    rewrite seqZ_app by lia. rewrite filter_app, (filter_bits_none m (seqZ k _)).
    2:{ intros i Hi%elem_of_seqZ. apply Hb. lia. }
    replace (k + (l - k)) with l by lia.
    rewrite (seqZ_cons l) by lia. rewrite filter_cons_True by done. simpl. f_equal.
    replace (Z.succ l) with (l + 1) by lia.
    replace (Z.pred (32 - l)) with (32 - (l + 1)) by lia.
    apply filter_bits_ext. intros i Hi%elem_of_seqZ.
    rewrite (zero_rightmost_1bit_spec m l) by (done || lia).
    rewrite (proj2 (Z.eqb_neq i l)) by lia. btauto.
  - intros i Hi.
    rewrite (zero_rightmost_1bit_spec m l) by (done || lia).
    destruct (decide (i = l)) as [->|]; [rewrite Z.eqb_refl; btauto|].
    rewrite Hb by lia. done.
Qed.

Lemma one_bits_spec m :
  is_u32 m → one_bits m = filter (λ i, Z.testbit m i = true) (seqZ 0 32).
Proof. intros. apply one_bits_loop_spec; [done|lia|lia|lia]. Qed.

Lemma elem_of_one_bits m i :
  is_u32 m → i ∈ one_bits m ↔ 0 ≤ i < 32 ∧ Z.testbit m i = true.
Proof.
  intros. rewrite one_bits_spec, list_elem_of_filter, elem_of_seqZ by done.
  naive_solver lia.
Qed.

(** ** Population count *)

Definition sumbits (x lo n : Z) : Z := foldr (λ k a, Z.b2z (Z.testbit x k) + a) 0 (seqZ lo n).

#[global] Arguments sumbits : simpl never.

Lemma sumbits_app x lo n1 n2 :
  0 ≤ n1 → 0 ≤ n2 → sumbits x lo (n1 + n2) = sumbits x lo n1 + sumbits x (lo + n1) n2.
Proof.
  intros. unfold sumbits. rewrite seqZ_app by lia. rewrite foldr_app.
  generalize (foldr (λ k a, Z.b2z (Z.testbit x k) + a) 0 (seqZ (lo + n1) n2)).
  intros b. induction (seqZ lo n1) as [|y l IH]; simpl; [lia|]. rewrite IH. lia.
Qed.

Lemma foldr_b2z_ext (f g : Z → bool) (l : list Z) :
  (∀ k, k ∈ l → f k = g k) →
  foldr (λ k a, Z.b2z (f k) + a) 0 l = foldr (λ k a, Z.b2z (g k) + a) 0 l.
Proof.
  intros H. induction l as [|y l IH]; [done|]. simpl. rewrite H by set_solver.
  rewrite IH; [done|]. set_solver.
Qed.

Lemma sumbits_ext x y lo n :
  (∀ k, lo ≤ k < lo + n → Z.testbit x k = Z.testbit y k) →
  sumbits x lo n = sumbits y lo n.
Proof. intros H. apply foldr_b2z_ext. intros k Hk%elem_of_seqZ. by apply H. Qed.

Lemma sumbits_filter x lo n :
  sumbits x lo n = Z.of_nat (length (filter (λ i, Z.testbit x i = true) (seqZ lo n))).
Proof.
  unfold sumbits. induction (seqZ lo n) as [|y l IH]; [done|]. simpl. rewrite IH.
  destruct (Z.testbit x y) eqn:E.
  - rewrite filter_cons_True by done. simpl. lia.
  - rewrite filter_cons_False by congruence. simpl. lia.
Qed.

Lemma sumbits_shift x s lo n :
  0 ≤ lo → 0 ≤ s → sumbits (Z.shiftr x s) lo n = sumbits x (lo + s) n.
Proof.
  intros. unfold sumbits.
  assert (seqZ (lo + s) n = (λ k, s + k) <$> seqZ lo n) as ->.
  { rewrite fmap_add_seqZ. f_equal. lia. }
  assert (∀ l : list Z, Forall (λ k, 0 ≤ k) l →
    foldr (λ k a, Z.b2z (Z.testbit (Z.shiftr x s) k) + a) 0 l
    = foldr (λ k a, Z.b2z (Z.testbit x k) + a) 0 ((λ k, s + k) <$> l)) as Hl.
  { induction 1 as [|y l Hy _ IH]; [done|]. simpl. rewrite IH, Z.shiftr_spec by done.
    do 3 f_equal. lia. }
  apply Hl. apply Forall_forall. intros k Hk%elem_of_seqZ. lia.
Qed.

Lemma testbit_of_land_pow2 x k :
  0 ≤ k → (Z.land x (Z.shiftl 1 k) =? 0) = negb (Z.testbit x k).
Proof.
  intros Hk. rewrite Z.shiftl_1_l.
  destruct (Z.testbit x k) eqn:E; simpl.
  - apply Z.eqb_neq. intros H0. apply (f_equal (λ z, Z.testbit z k)) in H0.
    rewrite Z.land_spec, E, Z.pow2_bits_true, Z.testbit_0_l in H0 by done. done.
  - apply Z.eqb_eq. apply Z.bits_inj'. intros i Hi.
    rewrite Z.land_spec, Z.testbit_0_l, Z.pow2_bits_eqb by done.
    destruct (Z.eqb_spec k i) as [->|]; [rewrite E; done|btauto].
Qed.

Lemma popcount8_get_spec i : is_u8 i → popcount8_get i = sumbits i 0 8.
Proof.
  intros [Hi0 Hi]. unfold popcount8_get, popcount8. rewrite list_lookup_fmap.
  rewrite lookup_seqZ_lt by lia. simpl.
  replace (0 + Z.of_nat (Z.to_nat i)) with i by lia.
  unfold popcount_init1, sumbits.
  assert (∀ l, Forall (λ k, 0 ≤ k) l →
    foldr (λ k n, (if Z.land i (Z.shiftl 1 k) =? 0 then 0 else 1) + n) 0 l
    = foldr (λ k a, Z.b2z (Z.testbit i k) + a) 0 l) as Hl.
  { induction 1 as [|y l Hy _ IH]; [done|]. simpl foldr. rewrite IH.
    rewrite testbit_of_land_pow2 by done. by destruct (Z.testbit i y). }
  apply Hl. apply Forall_forall. intros k Hk%elem_of_seqZ. lia.
Qed.

Lemma popcount_sumbits x : is_u32 x → popcount x = sumbits x 0 32.
Proof.
  intros Hx. unfold popcount.
  assert (H255 : ∀ y, 0 ≤ y → Z.land y 255 = wrap 8 y).
  { intros y Hy. change 255 with (Z.ones 8). rewrite Z.land_ones by lia. done. }
  rewrite !H255 by (apply Z.shiftr_nonneg || idtac; unfold in_width in Hx; lia).
  assert (Hhi : is_u8 (Z.shiftr x 24)).
  { rewrite Z.shiftr_div_pow2 by lia. unfold in_width in *.
    split; [apply Z.div_pos; lia|]. apply Z.div_lt_upper_bound; lia. }
  rewrite !popcount8_get_spec by (done || apply wrap_in_width; lia).
  assert (Hw : ∀ y, sumbits (wrap 8 y) 0 8 = sumbits y 0 8).
  { intros y. apply sumbits_ext. intros k Hk. rewrite testbit_wrap by lia.
    by rewrite (proj2 (Z.ltb_lt k 8)) by lia. }
  rewrite !Hw, !sumbits_shift by lia.
  assert (sumbits x 0 32
    = sumbits x 0 8 + (sumbits x 8 8 + (sumbits x 16 8 + sumbits x 24 8))) as ->.
  { pose proof (sumbits_app x 0 8 24) as H1. pose proof (sumbits_app x 8 8 16) as H2.
    pose proof (sumbits_app x 16 8 8) as H3.
    change (8 + 24) with 32 in H1. change (8 + 16) with 24 in H2.
    change (8 + 8) with 16 in *. change (0 + 8) with 8 in H1.
    change (16 + 8) with 24 in H3. rewrite H1, H2, H3 by lia. lia. }
  change (0 + 8) with 8. change (0 + 16) with 16. change (0 + 24) with 24. lia.
Qed.

(** The number of 1-bits is the number of iterations of the loop. *)
Lemma popcount_one_bits x : is_u32 x → popcount x = Z.of_nat (length (one_bits x)).
Proof. intros. by rewrite popcount_sumbits, sumbits_filter, one_bits_spec by done. Qed.

(** The rank query of [miniflow_get__]: 1-bits strictly below [k]. *)
Lemma popcount_rank x k :
  is_u32 x → 0 ≤ k ≤ 32 →
  popcount (Z.land x (2 ^ k - 1)) = sumbits x 0 k.
Proof.
  intros Hx Hk. rewrite popcount_sumbits by (apply land_in_width; [lia|done]).
  replace 32 with (k + (32 - k)) by lia. rewrite sumbits_app by lia.
  rewrite (sumbits_ext _ x 0 k).
  - rewrite (sumbits_ext _ 0 (0 + k)).
    + assert (sumbits 0 (0 + k) (32 - k) = 0) as ->; [|lia].
      rewrite sumbits_filter, filter_bits_none; [done|]. intros. apply Z.testbit_0_l.
    + intros i Hi. rewrite Z.land_spec, testbit_ones by lia.
      rewrite (proj2 (Z.ltb_ge i k)) by lia. rewrite Z.testbit_0_l. btauto.
  - intros i Hi. rewrite Z.land_spec, testbit_ones by lia.
    rewrite (proj2 (Z.ltb_lt i k)) by lia. btauto.
Qed.

(** ** Remaining helpers *)

Lemma rightmost_1bit_spec n l : is_u64 n → lowest n l → rightmost_1bit n = 2 ^ l.
Proof.
  intros Hn Hlow. pose proof (lowest_lt 64 n l ltac:(lia) Hn Hlow) as Hlt.
  pose proof (λ i, zero_rightmost_1bit_spec n l i Hn Hlow) as Hz.
  pose proof (lowest_nonzero _ _ Hlow) as Hnz.
  destruct Hlow as (Hl0 & Hl & Hb). apply Z.bits_inj'. intros i Hi.
  specialize (Hz i Hi). unfold rightmost_1bit, zero_rightmost_1bit in *.
  rewrite (wrap_id 64 (n - 1)) in Hz by (unfold in_width in *; lia).
  rewrite Z.land_spec in *. rewrite testbit_wrap by lia.
  replace (- n) with (Z.lnot (n - 1)) by (unfold Z.lnot; lia).
  rewrite Z.lnot_spec by done. rewrite Z.pow2_bits_eqb by done.
  destruct (Z.eqb_spec l i) as [->|Hne].
  - rewrite Hl, Z.eqb_refl in *. simpl in *.
    rewrite Hz, (proj2 (Z.ltb_lt i 64)) by lia. done.
  - rewrite (proj2 (Z.eqb_neq i l)) in Hz by lia.
    destruct (Z.testbit n i), (Z.testbit (n - 1) i); simpl in *; try done; btauto.
Qed.

Lemma is_pow2_spec x : is_u64 x → is_pow2 x = true ↔ ∃ k, 0 ≤ k < 64 ∧ x = 2 ^ k.
Proof.
  intros Hx. unfold is_pow2. rewrite andb_true_iff, negb_true_iff, Z.eqb_neq, Z.eqb_eq.
  split.
  - intros [Hnz Hand].
    destruct (lowest_exists 64 x) as (l & Hlow & ?); [lia|done|done|].
    exists l. pose proof (λ i, zero_rightmost_1bit_spec x l i Hx Hlow) as Hz.
    destruct Hlow as (? & Hl & _). split; [lia|]. apply Z.bits_inj'. intros i Hi.
    specialize (Hz i Hi). unfold zero_rightmost_1bit in Hz. rewrite Hand in Hz.
    rewrite Z.testbit_0_l in Hz. rewrite Z.pow2_bits_eqb by done.
    destruct (Z.eqb_spec l i) as [->|]; [done|].
    rewrite (proj2 (Z.eqb_neq i l)) in Hz by lia. rewrite andb_true_r in Hz. done.
  - intros (k & Hk & ->). split; [lia|]. apply Z.bits_inj'. intros i Hi.
    assert (lowest (2 ^ k) k).
    { split; [lia|]. split; [apply Z.pow2_bits_true; lia|].
      intros. apply Z.pow2_bits_false. lia. }
    change (Z.land (2 ^ k) (u64 (2 ^ k - 1))) with (zero_rightmost_1bit (2 ^ k)).
    rewrite (zero_rightmost_1bit_spec _ k), Z.testbit_0_l, Z.pow2_bits_eqb by
      (done || lia).
    rewrite (Z.eqb_sym k i). btauto.
Qed.

Lemma bin_search_step_spec b n log :
  0 < b → 0 < n → Z.log2 n < 2 * b →
  let st := bin_search_step b (n, log) in
  0 < st.1 ∧ Z.log2 st.1 < b ∧ st.2 + Z.log2 st.1 = log + Z.log2 n.
Proof.
  intros Hb Hn Hlog. cbn. rewrite Z.shiftl_1_l.
  destruct (Z.leb_spec (2 ^ b) n) as [Hle|Hlt]; simpl.
  - assert (b ≤ Z.log2 n) by (apply Z.log2_le_pow2; lia).
    rewrite Z.log2_shiftr by done. split; [|lia].
    rewrite Z.shiftr_div_pow2 by lia. apply Z.div_str_pos. lia.
  - split; [done|]. split; [apply Z.log2_lt_pow2; lia|lia].
Qed.

Lemma log_2_floor_spec n :
  is_u32 n → log_2_floor n = if n =? 0 then None else Some (Z.log2 n).
Proof.
  intros [Hn0 Hn]. unfold log_2_floor. destruct (Z.eqb_spec n 0); [done|].
  assert (Hl : Z.log2 n < 32) by (apply Z.log2_lt_pow2; lia).
  assert (Hstep : ∀ b st, 0 < b → 0 < st.1 → Z.log2 st.1 < 2 * b →
    let st' := bin_search_step b st in
    0 < st'.1 ∧ Z.log2 st'.1 < b ∧ st'.2 + Z.log2 st'.1 = st.2 + Z.log2 st.1).
  { intros b [n' l']. apply bin_search_step_spec. }
  destruct (Hstep 16 (n, 0)) as (P1 & R1 & S1); [lia|simpl; lia|simpl; lia|].
  destruct (Hstep 8 _ ltac:(lia) P1) as (P2 & R2 & S2); [lia|].
  destruct (Hstep 4 _ ltac:(lia) P2) as (P3 & R3 & S3); [lia|].
  destruct (Hstep 2 _ ltac:(lia) P3) as (P4 & R4 & S4); [lia|].
  destruct (Hstep 1 _ ltac:(lia) P4) as (P5 & R5 & S5); [lia|].
  change ((n, 0).1) with n in S1. change ((n, 0).2) with 0 in S1.
  pose proof (Z.log2_nonneg (bin_search_step 1 (bin_search_step 2 (bin_search_step 4
    (bin_search_step 8 (bin_search_step 16 (n, 0)))))).1).
  f_equal. lia.
Qed.

Lemma log_2_ceil_spec n : is_u32 n → n ≠ 0 → log_2_ceil n = Some (Z.log2_up n).
Proof.
  intros Hn Hnz. unfold log_2_ceil. rewrite log_2_floor_spec by done.
  rewrite (proj2 (Z.eqb_neq _ _)) by done. f_equal. destruct Hn as [Hn0 Hn].
  assert (Hn64 : is_u64 n) by (split; lia).
  pose proof (Z.log2_log2_up_exact n ltac:(lia)) as Hex.
  pose proof (Z.le_log2_log2_up n). pose proof (Z.le_log2_up_succ_log2 n).
  destruct (is_pow2 n) eqn:Hp.
  - apply is_pow2_spec in Hp as (k & Hk & ->); [|done].
    rewrite (proj2 Hex) by (by exists k). lia.
  - assert (Z.log2 n ≠ Z.log2_up n); [|lia]. intros [k Hk]%Hex.
    assert (is_pow2 n = true); [|congruence]. apply is_pow2_spec; [done|].
    assert (0 ≤ k) by (destruct (Z.lt_ge_cases k 0); [rewrite Z.pow_neg_r in Hk by done; lia|done]).
    exists k. split; [|done]. split; [done|]. apply (Z.pow_lt_mono_r_iff 2); lia.
Qed.

(** The portable bit routines compute what their comments say for every
    32-bit argument: [raw_ctz] and [ctz] give the index of the lowest 1-bit
    (32 for 0), [log_2_floor] and [log_2_ceil] the rounded logarithms (and
    the assertion for 0), [popcount] the number of 1-bits, [is_pow2] the
    powers of two, [rightmost_1bit] the lowest 1-bit alone, and the
    [zero_rightmost_1bit] loop visits the 1-bits in increasing order. *)
Theorem bit_routines_correct n :
  is_u32 n →
  (n = 0 → ctz n = 32 ∧ log_2_floor n = None)
  ∧ (n ≠ 0 → ctz n = raw_ctz n ∧ lowest n (raw_ctz n) ∧ raw_ctz n < 32
             ∧ rightmost_1bit n = 2 ^ raw_ctz n
             ∧ log_2_floor n = Some (Z.log2 n) ∧ log_2_ceil n = Some (Z.log2_up n))
  ∧ one_bits n = filter (λ i, Z.testbit n i = true) (seqZ 0 32)
  ∧ popcount n = Z.of_nat (length (one_bits n))
  ∧ (is_pow2 n = true ↔ ∃ k, 0 ≤ k < 64 ∧ n = 2 ^ k).
Proof.
  intros Hn. pose proof Hn as [Hn0 Hn1]. assert (Hn64 : is_u64 n) by (split; lia).
  split_and!.
  - intros ->. done.
  - intros Hnz. destruct (raw_ctz_spec n Hn Hnz) as [Hl Hlt]. unfold ctz.
    rewrite (proj2 (Z.eqb_neq _ _)) by done. split_and!; [done|apply Hl..|done| | |].
    + by apply rightmost_1bit_spec.
    + rewrite log_2_floor_spec by done. by rewrite (proj2 (Z.eqb_neq _ _)).
    + by apply log_2_ceil_spec.
  - by apply one_bits_spec.
  - by apply popcount_one_bits.
  - by apply is_pow2_spec.
Qed.

Lemma bit_routines_correct_witness :
  one_bits 0x80000028 = [3; 5; 31] ∧ popcount 0x80000028 = Z.of_nat (length (one_bits 0x80000028))
  ∧ log_2_ceil 0x80000028 = Some 32.
Proof.
  destruct (bit_routines_correct 0x80000028) as (_ & Hnz & _ & Hp & _); [split; lia|].
  split; [vm_compute; done|]. split; [exact Hp|].
  destruct Hnz as (_ & _ & _ & _ & _ & Hc); [lia|]. exact Hc.
Defined.

#[global] Arguments raw_ctz : simpl never.
#[global] Arguments popcount : simpl never.
