(* ===== verification/ByteOrder.v ===== *)
(** * Network byte order and signed words

    Fields of packets are bytes in network byte order; [be_bytes] lays a host
    value out and [get_be] reads it back, as [htons], [htonl], [htonll] and
    their inverses do for 2, 4 and 8 bytes (lib/byte-order.h).  [i32] is the
    value of an [int] after wrap-around. *)
From S2P Require Import Prelude.

Definition i32 (x : Z) : Z := wrap 32 (x + 2 ^ 31) - 2 ^ 31.

Fixpoint be_bytes (n : nat) (x : Z) : list Z :=
  match n with
  | O => []
  | S n => wrap 8 (Z.shiftr x (8 * Z.of_nat n)) :: be_bytes n x
  end.

Definition get_be (bytes : list Z) : Z := foldl (λ acc b, Z.lor (Z.shiftl acc 8) b) 0 bytes.

(** The big-endian field of [len] bytes at offset [ofs]. *)
Definition field (bytes : list Z) (ofs len : nat) : Z := get_be (take len (drop ofs bytes)).

Lemma i32_id x : - 2 ^ 31 ≤ x < 2 ^ 31 → i32 x = x.
Proof. intros Hx. unfold i32. rewrite wrap_id; [lia|]. split; lia. Qed.

Lemma length_be_bytes n x : length (be_bytes n x) = n.
Proof. induction n as [|n IH]; simpl; [done|]. by rewrite IH. Qed.

Lemma be_bytes_u8 n x : Forall is_u8 (be_bytes n x).
Proof. induction n as [|n IH]; constructor; [|done]. apply wrap_in_width. lia. Qed.

Lemma foldl_be_bytes n x acc :
  foldl (λ acc b, Z.lor (Z.shiftl acc 8) b) acc (be_bytes n x)
  = Z.lor (Z.shiftl acc (8 * Z.of_nat n)) (wrap (8 * Z.of_nat n) x).
Proof.
  revert acc. induction n as [|n IH]; intros acc.
  - simpl. unfold wrap. rewrite Z.shiftl_0_r, Z.mod_1_r. by rewrite Z.lor_0_r.
  - cbn [be_bytes foldl]. rewrite IH. apply Z.bits_inj'. intros i Hi.
    rewrite !Z.lor_spec, !testbit_wrap by lia. rewrite !Z.shiftl_spec by done.
    destruct (Z.ltb_spec i (8 * Z.of_nat n)) as [Hlt|Hge].
    + rewrite (Z.testbit_neg_r _ (i - 8 * Z.of_nat n)), (Z.testbit_neg_r acc) by lia.
      by rewrite (proj2 (Z.ltb_lt i (8 * Z.of_nat (S n)))) by lia.
    + rewrite Z.lor_spec, Z.shiftl_spec, testbit_wrap, Z.shiftr_spec by lia.
      replace (i - 8 * Z.of_nat n + 8 * Z.of_nat n) with i by lia.
      replace (i - 8 * Z.of_nat (S n)) with (i - 8 * Z.of_nat n - 8) by lia.
      simpl (_ && _ || _). rewrite orb_false_r. f_equal. f_equal. apply Bool.eq_iff_eq_true.
      rewrite !Z.ltb_lt. lia.
Qed.

Lemma get_be_bytes n x : get_be (be_bytes n x) = wrap (8 * Z.of_nat n) x.
Proof. unfold get_be. rewrite foldl_be_bytes, Z.shiftl_0_l. by rewrite Z.lor_0_l. Qed.

Lemma get_be_id n w x : w = 8 * Z.of_nat n → in_width w x → get_be (be_bytes n x) = x.
Proof. intros -> Hx. by rewrite get_be_bytes, wrap_id. Qed.
