(* ===== verification/Csum.v ===== *)
(** * Checksums (lib/csum.c, lib/crc32c.c)

    The Internet checksum and its incremental update, and the CRC of SCTP.
    Values in network byte order are the numbers they stand for: one's
    complement sums commute with swapping the bytes of every word, so that the
    code, which adds the words as they lie in memory, computes the same. *)
From S2P Require Import Prelude ByteOrder.

(** ** The Internet checksum *)

Definition csum_add16 (partial new : Z) : Z := u32 (partial + new).
Definition csum_add32 (partial new : Z) : Z := u32 (partial + Z.shiftr new 16 + Z.land new 0xffff).

Fixpoint csum_continue (partial : Z) (data : list Z) : Z :=
  match data with
  | a :: b :: data => csum_continue (csum_add16 partial (get_be [a; b])) data
  | [a] => u32 (partial + get_be [a; 0])
  | [] => partial
  end.

(** [~] of a 16-bit word. *)
Definition not16 (x : Z) : Z := Z.lxor (u16 x) 0xffff.

(** Two rounds are enough for 32 bits. *)
Fixpoint csum_fold (fuel : nat) (partial : Z) : Z :=
  match fuel with
  | O => partial
  | S fuel =>
      if negb (Z.shiftr partial 16 =? 0) then csum_fold fuel (Z.land partial 0xffff + Z.shiftr partial 16) else partial
  end.

Definition csum_finish (partial : Z) : Z := not16 (csum_fold 2 partial).

Definition csum (data : list Z) : Z := csum_finish (csum_continue 0 data).

Definition recalc_csum16 (old_csum old_u16 new_u16 : Z) : Z :=
  let hc_complement := not16 old_csum in
  let m_complement := not16 old_u16 in
  let m_prime := u16 new_u16 in
  csum_finish (hc_complement + m_complement + m_prime).

(** The half that comes first in memory comes first. *)
Definition recalc_csum32 (old_csum old_u32 new_u32 : Z) : Z :=
  recalc_csum16 (recalc_csum16 old_csum (Z.shiftr old_u32 16) (Z.shiftr new_u32 16)) (u16 old_u32) (u16 new_u32).

(** The words of a 128-bit address, the first one first. *)
Definition word_of_128 (x : Z) (i : nat) : Z := u32 (Z.shiftr x (96 - 32 * Z.of_nat i)).

Definition recalc_csum128 (old_csum old_u128 new_u128 : Z) : Z :=
  foldl (λ new_csum i, recalc_csum32 new_csum (word_of_128 old_u128 i) (word_of_128 new_u128 i)) old_csum [0%nat; 1%nat; 2%nat; 3%nat].

(** ** CRC32c *)

Definition crc32Table : list Z :=
  [0x00000000; 0xf26b8303; 0xe13b70f7; 0x1350f3f4; 0xc79a971f; 0x35f1141c; 0x26a1e7e8; 0xd4ca64eb;
   0x8ad958cf; 0x78b2dbcc; 0x6be22838; 0x9989ab3b; 0x4d43cfd0; 0xbf284cd3; 0xac78bf27; 0x5e133c24;
   0x105ec76f; 0xe235446c; 0xf165b798; 0x030e349b; 0xd7c45070; 0x25afd373; 0x36ff2087; 0xc494a384;
   0x9a879fa0; 0x68ec1ca3; 0x7bbcef57; 0x89d76c54; 0x5d1d08bf; 0xaf768bbc; 0xbc267848; 0x4e4dfb4b;
   0x20bd8ede; 0xd2d60ddd; 0xc186fe29; 0x33ed7d2a; 0xe72719c1; 0x154c9ac2; 0x061c6936; 0xf477ea35;
   0xaa64d611; 0x580f5512; 0x4b5fa6e6; 0xb93425e5; 0x6dfe410e; 0x9f95c20d; 0x8cc531f9; 0x7eaeb2fa;
   0x30e349b1; 0xc288cab2; 0xd1d83946; 0x23b3ba45; 0xf779deae; 0x05125dad; 0x1642ae59; 0xe4292d5a;
   0xba3a117e; 0x4851927d; 0x5b016189; 0xa96ae28a; 0x7da08661; 0x8fcb0562; 0x9c9bf696; 0x6ef07595;
   0x417b1dbc; 0xb3109ebf; 0xa0406d4b; 0x522bee48; 0x86e18aa3; 0x748a09a0; 0x67dafa54; 0x95b17957;
   0xcba24573; 0x39c9c670; 0x2a993584; 0xd8f2b687; 0x0c38d26c; 0xfe53516f; 0xed03a29b; 0x1f682198;
   0x5125dad3; 0xa34e59d0; 0xb01eaa24; 0x42752927; 0x96bf4dcc; 0x64d4cecf; 0x77843d3b; 0x85efbe38;
   0xdbfc821c; 0x2997011f; 0x3ac7f2eb; 0xc8ac71e8; 0x1c661503; 0xee0d9600; 0xfd5d65f4; 0x0f36e6f7;
   0x61c69362; 0x93ad1061; 0x80fde395; 0x72966096; 0xa65c047d; 0x5437877e; 0x4767748a; 0xb50cf789;
   0xeb1fcbad; 0x197448ae; 0x0a24bb5a; 0xf84f3859; 0x2c855cb2; 0xdeeedfb1; 0xcdbe2c45; 0x3fd5af46;
   0x7198540d; 0x83f3d70e; 0x90a324fa; 0x62c8a7f9; 0xb602c312; 0x44694011; 0x5739b3e5; 0xa55230e6;
   0xfb410cc2; 0x092a8fc1; 0x1a7a7c35; 0xe811ff36; 0x3cdb9bdd; 0xceb018de; 0xdde0eb2a; 0x2f8b6829;
   0x82f63b78; 0x709db87b; 0x63cd4b8f; 0x91a6c88c; 0x456cac67; 0xb7072f64; 0xa457dc90; 0x563c5f93;
   0x082f63b7; 0xfa44e0b4; 0xe9141340; 0x1b7f9043; 0xcfb5f4a8; 0x3dde77ab; 0x2e8e845f; 0xdce5075c;
   0x92a8fc17; 0x60c37f14; 0x73938ce0; 0x81f80fe3; 0x55326b08; 0xa759e80b; 0xb4091bff; 0x466298fc;
   0x1871a4d8; 0xea1a27db; 0xf94ad42f; 0x0b21572c; 0xdfeb33c7; 0x2d80b0c4; 0x3ed04330; 0xccbbc033;
   0xa24bb5a6; 0x502036a5; 0x4370c551; 0xb11b4652; 0x65d122b9; 0x97baa1ba; 0x84ea524e; 0x7681d14d;
   0x2892ed69; 0xdaf96e6a; 0xc9a99d9e; 0x3bc21e9d; 0xef087a76; 0x1d63f975; 0x0e330a81; 0xfc588982;
   0xb21572c9; 0x407ef1ca; 0x532e023e; 0xa145813d; 0x758fe5d6; 0x87e466d5; 0x94b49521; 0x66df1622;
   0x38cc2a06; 0xcaa7a905; 0xd9f75af1; 0x2b9cd9f2; 0xff56bd19; 0x0d3d3e1a; 0x1e6dcdee; 0xec064eed;
   0xc38d26c4; 0x31e6a5c7; 0x22b65633; 0xd0ddd530; 0x0417b1db; 0xf67c32d8; 0xe52cc12c; 0x1747422f;
   0x49547e0b; 0xbb3ffd08; 0xa86f0efc; 0x5a048dff; 0x8ecee914; 0x7ca56a17; 0x6ff599e3; 0x9d9e1ae0;
   0xd3d3e1ab; 0x21b862a8; 0x32e8915c; 0xc083125f; 0x144976b4; 0xe622f5b7; 0xf5720643; 0x07198540;
   0x590ab964; 0xab613a67; 0xb831c993; 0x4a5a4a90; 0x9e902e7b; 0x6cfbad78; 0x7fab5e8c; 0x8dc0dd8f;
   0xe330a81a; 0x115b2b19; 0x020bd8ed; 0xf0605bee; 0x24aa3f05; 0xd6c1bc06; 0xc5914ff2; 0x37faccf1;
   0x69e9f0d5; 0x9b8273d6; 0x88d28022; 0x7ab90321; 0xae7367ca; 0x5c18e4c9; 0x4f48173d; 0xbd23943e;
   0xf36e6f75; 0x0105ec76; 0x12551f82; 0xe03e9c81; 0x34f4f86a; 0xc69f7b69; 0xd5cf889d; 0x27a40b9e;
   0x79b737ba; 0x8bdcb4b9; 0x988c474d; 0x6ae7c44e; 0xbe2da0a5; 0x4c4623a6; 0x5f16d052; 0xad7d5351].

Definition crc_step (crc byte : Z) : Z :=
  Z.lxor (default 0 (crc32Table !! Z.to_nat (Z.land (Z.lxor crc byte) 0xff))) (Z.shiftr crc 8).

(** The bytes of [~crc] as they lie in the memory of a little-endian host. *)
Definition crc32c (data : list Z) : Z :=
  let crc := foldl crc_step 0xffffffff data in
  get_be (reverse (be_bytes 4 (Z.lxor crc 0xffffffff))).

(** ** Sums of words *)

(** The sum of the 16-bit words of some bytes. *)
Fixpoint word_sum (data : list Z) : Z :=
  match data with
  | a :: b :: data => get_be [a; b] + word_sum data
  | [a] => get_be [a; 0]
  | [] => 0
  end.

(** Equal as one's complement numbers. *)
Inductive csum_eq (x y : Z) : Prop := csum_eq_mod : x mod 0xffff = y mod 0xffff → csum_eq x y.

#[global] Instance csum_eq_equiv : Equivalence csum_eq.
Proof. split; [done|by intros x y [H]|intros x y z [H1] [H2]; constructor; congruence]. Qed.

#[global] Instance csum_eq_add : Proper (csum_eq ==> csum_eq ==> csum_eq) Z.add.
Proof. intros x x' [Hx] y y' [Hy]. constructor. rewrite Z.add_mod, Hx, Hy, <- Z.add_mod by lia. done. Qed.

#[global] Instance csum_eq_opp : Proper (csum_eq ==> csum_eq) Z.opp.
Proof.
  intros x x' [Hx]. constructor. replace (- x) with (x * -1) by lia. replace (- x') with (x' * -1) by lia.
  rewrite Z.mul_mod, Hx, <- Z.mul_mod by lia. done.
Qed.

Lemma csum_eq_intro x y k : x = y + k * 0xffff → csum_eq x y.
Proof. intros ->. constructor. apply Z.mod_add. lia. Qed.

Lemma csum_eq_elim x y : csum_eq x y → ∃ k, x = y + k * 0xffff.
Proof.
  intros [H]. exists (x / 0xffff - y / 0xffff). pose proof (Z.div_mod x 0xffff ltac:(lia)). pose proof (Z.div_mod y 0xffff ltac:(lia)). lia.
Qed.

Lemma shift_land_split p : p = Z.shiftr p 16 * 65536 + Z.land p 0xffff.
Proof.
  change 0xffff with (Z.ones 16). rewrite Z.shiftr_div_pow2, Z.land_ones by lia. change (2 ^ 16) with 65536.
  rewrite Z.mul_comm. apply Z.div_mod. lia.
Qed.

Lemma land_ffff p : 0 ≤ Z.land p 0xffff < 65536.
Proof. change 0xffff with (Z.ones 16). rewrite Z.land_ones by lia. apply Z.mod_pos_bound. lia. Qed.

Lemma csum_fold_spec p : 0 ≤ p < 2 ^ 32 → is_u16 (csum_fold 2 p) ∧ csum_eq (csum_fold 2 p) p ∧ (csum_fold 2 p = 0 ↔ p = 0).
Proof.
  intros Hp. change (2 ^ 32) with (65536 * 65536) in Hp. unfold in_width. change (2 ^ 16) with 65536.
  assert (H : ∀ q, 0 ≤ q → Z.shiftr q 16 = 0 → q < 65536).
  { intros q Hq E. pose proof (shift_land_split q). pose proof (land_ffff q). lia. }
  cbn [csum_fold]. pose proof (shift_land_split p) as E1. pose proof (land_ffff p) as L1.
  destruct (Z.eqb_spec (Z.shiftr p 16) 0) as [Z1|Z1]; cbn [negb]; [split; [split; [lia|apply H; lia]|done]|].
  assert (0 ≤ Z.shiftr p 16 < 65536) by (rewrite Z.shiftr_div_pow2 by lia; split; [apply Z.div_pos; lia|apply Z.div_lt_upper_bound; lia]).
  set (q := Z.land p 0xffff + Z.shiftr p 16) in *.
  assert (Hq : csum_eq q p) by (symmetry; apply (csum_eq_intro _ _ (Z.shiftr p 16)); lia).
  pose proof (shift_land_split q) as E2. pose proof (land_ffff q) as L2.
  destruct (Z.eqb_spec (Z.shiftr q 16) 0) as [Z2|Z2]; cbn [negb]; [split; [split; [lia|apply H; lia]|split; [done|lia]]|].
  assert (0 ≤ Z.shiftr q 16 < 2) by (rewrite Z.shiftr_div_pow2 by lia; change (2 ^ 16) with 65536; split; [apply Z.div_pos; lia|apply Z.div_lt_upper_bound; lia]).
  split; [lia|]. split; [|lia]. rewrite <- Hq. symmetry. apply (csum_eq_intro _ _ (Z.shiftr q 16)). lia.
Qed.

Lemma not16_spec x : is_u16 x → not16 x = 0xffff - x.
Proof.
  intros Hx. unfold not16. rewrite wrap_id by done.
  assert (Hz : Z.land (Z.lxor x 0xffff) x = 0).
  { apply Z.bits_inj'. intros i Hi. rewrite Z.land_spec, Z.lxor_spec, Z.bits_0. change 0xffff with (Z.ones 16).
    destruct (Z.ltb_spec i 16); [rewrite Z.ones_spec_low by lia; by destruct (Z.testbit x i)|].
    rewrite (testbit_high 16 x) by (done || lia). apply andb_false_r. }
  apply Z.add_nocarry_lxor in Hz. rewrite (Z.lxor_comm (Z.lxor x 0xffff) x), <- Z.lxor_assoc, Z.lxor_nilpotent, Z.lxor_0_l in Hz. lia.
Qed.

Lemma csum_finish_spec p :
  0 ≤ p < 2 ^ 32 → is_u16 (csum_finish p) ∧ csum_eq (csum_finish p) (- p) ∧ (csum_finish p = 0xffff ↔ p = 0).
Proof.
  intros Hp. destruct (csum_fold_spec p Hp) as (Hf & He & Hz). unfold csum_finish. rewrite not16_spec by done.
  unfold in_width in *. change (2 ^ 16) with 65536 in *. split; [lia|]. split; [|lia].
  transitivity (- csum_fold 2 p); [apply (csum_eq_intro _ _ 1); lia|by rewrite He].
Qed.

Lemma not16_u16 x : is_u16 (not16 x) ∧ csum_eq (not16 x) (- u16 x).
Proof.
  assert (Hw : is_u16 (u16 x)) by (by apply wrap_in_width). replace (not16 x) with (not16 (u16 x)) by (unfold not16; by rewrite wrap_wrap).
  rewrite not16_spec by done. unfold in_width in *. change (2 ^ 16) with 65536 in *. split; [lia|]. apply (csum_eq_intro _ _ 1). lia.
Qed.

(** RFC 1624: replacing a word and its checksum keeps their sum. *)
Lemma recalc_csum16_spec c m m' :
  is_u16 c → is_u16 m → is_u16 m' → is_u16 (recalc_csum16 c m m') ∧ csum_eq (recalc_csum16 c m m' + m') (c + m).
Proof.
  intros Hc Hm Hm'. unfold recalc_csum16. destruct (not16_u16 c) as [N1 E1], (not16_u16 m) as [N2 E2].
  rewrite (wrap_id 16 c) in E1 by done. rewrite (wrap_id 16 m) in E2 by done. rewrite (wrap_id 16 m') by done.
  destruct (csum_finish_spec (not16 c + not16 m + m')) as (F1 & F2 & _).
  { unfold in_width in *. change (2 ^ 32) with (65536 * 65536). change (2 ^ 16) with 65536 in *. lia. }
  split; [done|]. rewrite F2, E1, E2. apply (csum_eq_intro _ _ 0). lia.
Qed.

Lemma shiftr_u16 x : is_u32 x → is_u16 (Z.shiftr x 16).
Proof.
  unfold in_width. intros Hx. rewrite Z.shiftr_div_pow2 by lia. split; [apply Z.div_pos; lia|apply Z.div_lt_upper_bound; lia].
Qed.

Lemma u32_halves x : x = Z.shiftr x 16 * 65536 + u16 x.
Proof. rewrite (shift_land_split x) at 1. change 0xffff with (Z.ones 16). by rewrite Z.land_ones. Qed.

Lemma recalc_csum32_spec c m m' :
  is_u16 c → is_u32 m → is_u32 m' → is_u16 (recalc_csum32 c m m') ∧ csum_eq (recalc_csum32 c m m' + m') (c + m).
Proof.
  intros Hc Hm Hm'. unfold recalc_csum32.
  assert (W : ∀ x, is_u16 (u16 x)) by (intros; by apply wrap_in_width).
  destruct (recalc_csum16_spec c (Z.shiftr m 16) (Z.shiftr m' 16)) as [U1 E1]; [done|by apply shiftr_u16..|].
  destruct (recalc_csum16_spec _ (u16 m) (u16 m') U1) as [U2 E2]; [done..|]. split; [done|].
  apply csum_eq_elim in E1 as [k1 E1], E2 as [k2 E2]. apply (csum_eq_intro _ _ (k1 + k2 + Z.shiftr m' 16 - Z.shiftr m 16)).
  pose proof (u32_halves m). pose proof (u32_halves m'). lia.
Qed.

Lemma word_of_128_u32 x i : is_u32 (word_of_128 x i).
Proof. by apply wrap_in_width. Qed.

(** ** Sums of bytes *)

(** The words of the bytes, the first of which is the high half of a word when
    [hi] holds. *)
Fixpoint byte_sum (hi : bool) (data : list Z) : Z :=
  match data with
  | [] => 0
  | x :: data => x * (if hi then 256 else 1) + byte_sum (negb hi) data
  end.

Lemma shift_lor a b : is_u8 b → Z.lor (Z.shiftl a 8) b = a * 256 + b.
Proof.
  intros Hb. assert (Hd : Z.land (Z.shiftl a 8) b = 0).
  { apply Z.bits_inj'. intros i Hi. rewrite Z.land_spec, Z.shiftl_spec, Z.bits_0 by done.
    destruct (Z.ltb_spec i 8); [rewrite Z.testbit_neg_r by lia; done|]. by rewrite (testbit_high 8 b), andb_false_r by (done || lia). }
  rewrite <- Z.lxor_lor, <- Z.add_nocarry_lxor by done. by rewrite Z.shiftl_mul_pow2 by lia.
Qed.

Lemma get_be_2 a b : is_u8 b → get_be [a; b] = a * 256 + b.
Proof. intros Hb. unfold get_be. cbn [foldl]. by rewrite Z.shiftl_0_l, Z.lor_0_l, shift_lor. Qed.

Lemma get_be_acc l acc : Forall is_u8 l → foldl (λ acc b, Z.lor (Z.shiftl acc 8) b) acc l = acc * 256 ^ Z.of_nat (length l) + get_be l.
Proof.
  intros Hl. revert acc. induction Hl as [|x l Hx Hl IH]; intros acc; [cbn; lia|]. unfold get_be in *. cbn [foldl length].
  rewrite (IH (Z.lor (Z.shiftl acc 8) x)), (IH (Z.lor _ x)), !shift_lor, Nat2Z.inj_succ, Z.pow_succ_r by (done || lia). lia.
Qed.

Lemma word_sum_bytes data : Forall is_u8 data → word_sum data = byte_sum true data.
Proof.
  revert data. fix IH 1. intros [|a [|b data]] H; [done| |].
  - inversion_clear H as [|? ? Ha _]. cbn [word_sum byte_sum]. rewrite get_be_2 by (by split). lia.
  - inversion_clear H as [|? ? Ha H0]. inversion_clear H0 as [|? ? Hb H1]. cbn [word_sum byte_sum negb].
    rewrite get_be_2, IH by done. lia.
Qed.

Lemma byte_sum_app hi a b : byte_sum hi (a ++ b) = byte_sum hi a + byte_sum (xorb hi (Nat.odd (length a))) b.
Proof.
  revert hi. induction a as [|x a IH]; intros hi; [cbn; by rewrite xorb_false_r|].
  cbn [app byte_sum length]. rewrite IH, Nat.odd_succ, <- Nat.negb_odd. rewrite <- Z.add_assoc. do 3 f_equal.
  by destruct hi, (Nat.odd (length a)).
Qed.

(** A number and the words that make it up are the same in one's complement. *)
Lemma word_sum_get_be l : Forall is_u8 l → Nat.even (length l) = true → csum_eq (word_sum l) (get_be l).
Proof.
  revert l. fix IH 1. intros [|a [|b l]] H He; [done|done|]. inversion_clear H as [|? ? Ha H0]. inversion_clear H0 as [|? ? Hb H1].
  change (Nat.even (length l) = true) in He. cbn [word_sum]. rewrite (IH l H1 He). rewrite (get_be_2 a b) by done.
  unfold get_be at 2. cbn [foldl]. rewrite Z.shiftl_0_l, Z.lor_0_l, shift_lor, get_be_acc by done.
  apply Nat.even_spec in He as [k ->]. replace (Z.of_nat (2 * k)) with (2 * Z.of_nat k) by lia.
  assert (P : csum_eq (256 ^ (2 * Z.of_nat k)) 1).
  { rewrite Z.pow_mul_r by lia. constructor. rewrite <- Z.mod_pow_l. change (256 ^ 2 mod 0xffff) with 1. by rewrite Z.pow_1_l by lia. }
  apply csum_eq_elim in P as [q ->]. symmetry. apply (csum_eq_intro _ _ ((a * 256 + b) * q)). lia.
Qed.

Lemma word_sum_bound l : Forall is_u8 l → 0 ≤ word_sum l ∧ 2 * word_sum l ≤ 65535 * (Z.of_nat (length l) + 1).
Proof.
  revert l. fix IH 1. intros [|a [|b l]] H; [cbn; lia| |]; inversion_clear H as [|? ? Ha H0].
  - cbn [word_sum length]. rewrite get_be_2 by (by split). unfold in_width in Ha. lia.
  - inversion_clear H0 as [|? ? Hb H1]. destruct (IH l H1). cbn [word_sum length]. rewrite get_be_2 by done.
    unfold in_width in Ha, Hb. change (2 ^ 8) with 256 in *. lia.
Qed.

Lemma csum_continue_sum l : ∀ p, Forall is_u8 l → 0 ≤ p → p + word_sum l < 2 ^ 32 → csum_continue p l = p + word_sum l.
Proof.
  revert l. fix IH 1. intros [|a [|b l]] p H Hp Hb; [cbn; lia| |]; cbn [csum_continue word_sum] in *.
  - apply wrap_id. split; [|done]. inversion_clear H as [|? ? Ha _]. rewrite get_be_2 by (by split). unfold in_width in Ha. lia.
  - inversion_clear H as [|? ? Ha H0]. inversion_clear H0 as [|? ? Hb' H1].
    pose proof (word_sum_bound l H1) as [Hw _]. rewrite get_be_2 in * by done. unfold in_width in Ha, Hb'.
    unfold csum_add16. rewrite wrap_id by (split; lia). rewrite IH; [lia|done|lia|lia].
Qed.

(** The checksum of data that holds its checksum is 0. *)
Lemma csum_valid l :
  Forall is_u8 l → Z.of_nat (length l) ≤ 131070 → csum l = 0 ↔ csum_eq (word_sum l) 0 ∧ word_sum l ≠ 0.
Proof.
  intros Hl Hn. pose proof (word_sum_bound l Hl) as [Hw1 Hw2]. assert (Hw : word_sum l < 2 ^ 32) by lia.
  unfold csum. rewrite csum_continue_sum by (done || lia). rewrite Z.add_0_l.
  destruct (csum_finish_spec (word_sum l)) as (Hu & He & Hz); [lia|]. unfold in_width in Hu. split.
  - intros E. rewrite E in *. split; [|intros E0; apply Hz in E0; lia].
    rewrite <- (Z.opp_involutive (word_sum l)), <- He. done.
  - intros [E Hne]. apply csum_eq_elim in E as [j Hj]. apply csum_eq_elim in He as [k Hk]. assert (csum_finish (word_sum l) ≠ 0xffff) by tauto. lia.
Qed.

Lemma words_of_128 x :
  in_width 128 x → x = word_of_128 x 0 * 2 ^ 96 + word_of_128 x 1 * 2 ^ 64 + word_of_128 x 2 * 2 ^ 32 + word_of_128 x 3.
Proof.
  intros [H0 H1]. unfold word_of_128, wrap. rewrite !Z.shiftr_div_pow2 by lia.
  change (96 - 32 * Z.of_nat 0) with 96. change (96 - 32 * Z.of_nat 1) with 64. change (96 - 32 * Z.of_nat 2) with 32. change (96 - 32 * Z.of_nat 3) with 0.
  rewrite Z.pow_0_r, Z.div_1_r.
  assert (D : ∀ a, 0 ≤ a → x / 2 ^ a = x / 2 ^ (a + 32) * 2 ^ 32 + (x / 2 ^ a) mod 2 ^ 32).
  { intros a Ha. rewrite Z.pow_add_r, <- Z.div_div by (lia || (apply Z.pow_pos_nonneg; lia)). rewrite Z.mul_comm. apply Z.div_mod. lia. }
  pose proof (D 0 ltac:(lia)) as D0. pose proof (D 32 ltac:(lia)) as D1. pose proof (D 64 ltac:(lia)) as D2.
  change (0 + 32) with 32 in D0. change (32 + 32) with 64 in D1. change (64 + 32) with 96 in D2. rewrite Z.pow_0_r, Z.div_1_r in D0.
  rewrite (Z.mod_small (x / 2 ^ 96)).
  2:{ split; [apply Z.div_pos; lia|]. apply Z.div_lt_upper_bound; [lia|]. change (2 ^ 96 * 2 ^ 32) with (2 ^ 128). done. }
  change (2 ^ 96) with (2 ^ 32 * 2 ^ 32 * 2 ^ 32) at 2. change (2 ^ 64) with (2 ^ 32 * 2 ^ 32) at 2. nia.
Qed.

(** The sum of the words of an address. *)
Lemma csum_eq_128 x :
  in_width 128 x → csum_eq x (word_of_128 x 0 + word_of_128 x 1 + word_of_128 x 2 + word_of_128 x 3).
Proof.
  intros H. rewrite (words_of_128 x H) at 1.
  apply (csum_eq_intro _ _ (word_of_128 x 0 * ((2 ^ 96 - 1) / 0xffff) + word_of_128 x 1 * ((2 ^ 64 - 1) / 0xffff) + word_of_128 x 2 * ((2 ^ 32 - 1) / 0xffff))).
  change ((2 ^ 96 - 1) / 0xffff) with 1208944266640182156001281. change ((2 ^ 64 - 1) / 0xffff) with 281479271743489. change ((2 ^ 32 - 1) / 0xffff) with 65537.
  lia.
Qed.

Lemma recalc_csum128_spec c m m' :
  is_u16 c → in_width 128 m → in_width 128 m' → is_u16 (recalc_csum128 c m m') ∧ csum_eq (recalc_csum128 c m m' + m') (c + m).
Proof.
  intros Hc Hm Hm'. unfold recalc_csum128. cbn [foldl]. pose proof (λ x i, word_of_128_u32 x i) as W.
  destruct (recalc_csum32_spec c (word_of_128 m 0) (word_of_128 m' 0)) as [U1 E1]; [done..|]. revert U1 E1. generalize (recalc_csum32 c (word_of_128 m 0) (word_of_128 m' 0)). intros c1 U1 E1.
  destruct (recalc_csum32_spec c1 (word_of_128 m 1) (word_of_128 m' 1)) as [U2 E2]; [done..|]. revert U2 E2. generalize (recalc_csum32 c1 (word_of_128 m 1) (word_of_128 m' 1)). intros c2 U2 E2.
  destruct (recalc_csum32_spec c2 (word_of_128 m 2) (word_of_128 m' 2)) as [U3 E3]; [done..|]. revert U3 E3. generalize (recalc_csum32 c2 (word_of_128 m 2) (word_of_128 m' 2)). intros c3 U3 E3.
  destruct (recalc_csum32_spec c3 (word_of_128 m 3) (word_of_128 m' 3)) as [U4 E4]; [done..|]. split; [done|].
  destruct (csum_eq_elim _ _ (csum_eq_128 m Hm)) as [j Ej], (csum_eq_elim _ _ (csum_eq_128 m' Hm')) as [j' Ej'].
  apply csum_eq_elim in E1 as [k1 E1], E2 as [k2 E2], E3 as [k3 E3], E4 as [k4 E4]. apply (csum_eq_intro _ _ (k1 + k2 + k3 + k4 + j' - j)). lia.
Qed.
