(* ===== verification/Hash.v ===== *)
(** * Hash functions and the pseudo-random generator

    lib/hash.h and lib/hash.c (MurmurHash3), lib/jhash.c (Jenkins lookup3) and
    lib/random.c (Marsaglia xorshift), as functions on 32-bit words.  Byte
    strings are lists of 8-bit integers; a native 32-bit load reads them least
    significant byte first (a little-endian host). *)
From S2P Require Import Prelude.

(** ** Definitions *)

Definition hash_rot (x k : Z) : Z :=
  Z.lor (u32 (Z.shiftl x k)) (Z.shiftr x (32 - k)).

Definition mhash_add__ (hash data : Z) : Z :=
  let data := u32 (data * 0xcc9e2d51) in
  let data := hash_rot data 15 in
  let data := u32 (data * 0x1b873593) in
  Z.lxor hash data.

Definition mhash_add (hash data : Z) : Z :=
  let hash := mhash_add__ hash data in
  let hash := hash_rot hash 13 in
  u32 (hash * 5 + 0xe6546b64).

Definition mhash_finish (hash n_bytes : Z) : Z :=
  let hash := u32 (Z.lxor hash n_bytes) in
  let hash := Z.lxor hash (Z.shiftr hash 16) in
  let hash := u32 (hash * 0x85ebca6b) in
  let hash := Z.lxor hash (Z.shiftr hash 13) in
  let hash := u32 (hash * 0xc2b2ae35) in
  Z.lxor hash (Z.shiftr hash 16).

Definition hash_2words (x y : Z) : Z := mhash_finish (mhash_add (mhash_add x 0) y) 4.

Definition hash_int (x basis : Z) : Z := hash_2words x basis.

Definition hash_3words (a b c : Z) : Z :=
  mhash_finish (mhash_add (mhash_add (mhash_add a 0) b) c) 12.

Definition hash_boolean (x : bool) (basis : Z) : Z :=
  Z.lxor (if x then 0xc2b73583 else 0xe90f1258) (hash_rot basis 1).

Definition hash_words (p : list Z) (basis : Z) : Z :=
  mhash_finish (foldl mhash_add basis p) (Z.of_nat (length p) * 4).

(** A native load of up to four bytes into a zeroed [uint32_t]. *)
Definition get_unaligned_u32 (p : list Z) : Z :=
  foldr (λ b acc, Z.lor b (Z.shiftl acc 8)) 0 (take 4 p).

Fixpoint hash_bytes_loop (hash : Z) (p : list Z) : Z :=
  match p with
  | b0 :: b1 :: b2 :: b3 :: p' =>
      hash_bytes_loop (mhash_add hash (get_unaligned_u32 [b0; b1; b2; b3])) p'
  | [] => hash
  | _ => mhash_add__ hash (get_unaligned_u32 p)
  end.

Definition hash_bytes (p : list Z) (basis : Z) : Z :=
  mhash_finish (hash_bytes_loop basis p) (Z.of_nat (length p)).

Definition jhash_rot (x k : Z) : Z :=
  Z.lor (u32 (Z.shiftl x k)) (Z.shiftr x (32 - k)).

(** The pair of statements that subtracts [y] from [x], then xors the
    rotation of [y] into it. *)
Definition jhash_sub_rot (x y k : Z) : Z := Z.lxor (u32 (x - y)) (jhash_rot y k).

Definition jhash_mix (s : Z * Z * Z) : Z * Z * Z :=
  let '(a, b, c) := s in
  let a := jhash_sub_rot a c 4 in let c := u32 (c + b) in
  let b := jhash_sub_rot b a 6 in let a := u32 (a + c) in
  let c := jhash_sub_rot c b 8 in let b := u32 (b + a) in
  let a := jhash_sub_rot a c 16 in let c := u32 (c + b) in
  let b := jhash_sub_rot b a 19 in let a := u32 (a + c) in
  let c := jhash_sub_rot c b 4 in let b := u32 (b + a) in
  (a, b, c).

(** The pair of statements that xors [y] into [x], then subtracts the
    rotation of [y]. *)
Definition jhash_xor_rot (x y k : Z) : Z := u32 (Z.lxor x y - jhash_rot y k).

Definition jhash_final (s : Z * Z * Z) : Z * Z * Z :=
  let '(a, b, c) := s in
  let c := jhash_xor_rot c b 14 in
  let a := jhash_xor_rot a c 11 in
  let b := jhash_xor_rot b a 25 in
  let c := jhash_xor_rot c b 16 in
  let a := jhash_xor_rot a c 4 in
  let b := jhash_xor_rot b a 14 in
  let c := jhash_xor_rot c b 24 in
  (a, b, c).

Fixpoint jhash_words_loop (s : Z * Z * Z) (p : list Z) : Z * Z * Z :=
  let '(a, b, c) := s in
  match p with
  | p0 :: p1 :: p2 :: ((_ :: _) as p') =>
      jhash_words_loop (jhash_mix (u32 (a + p0), u32 (b + p1), u32 (c + p2))) p'
  | [p0; p1; p2] => jhash_final (u32 (a + p0), u32 (b + p1), u32 (c + p2))
  | [p0; p1] => jhash_final (u32 (a + p0), u32 (b + p1), c)
  | [p0] => jhash_final (u32 (a + p0), b, c)
  | [] => s
  end.

Definition jhash_words (p : list Z) (basis : Z) : Z :=
  let n := Z.of_nat (length p) in
  let i := u32 (0xdeadbeef + u32 (Z.shiftl (u32 n) 2) + basis) in
  (jhash_words_loop (i, i, i) p).2.

(** One pass of the 12-byte loop per unit of fuel. *)
Fixpoint jhash_bytes_loop (fuel : nat) (s : Z * Z * Z) (p : list Z) : Z * Z * Z :=
  let '(a, b, c) := s in
  let t i := get_unaligned_u32 (take 4 (drop i p)) in
  match fuel with
  | S fuel =>
      if (12 <=? length p)%nat then
        jhash_bytes_loop fuel
          (jhash_mix (u32 (a + t 0%nat), u32 (b + t 4%nat), u32 (c + t 8%nat)))
          (drop 12 p)
      else if (length p =? 0)%nat then s
      else jhash_final (u32 (a + t 0%nat), u32 (b + t 4%nat), u32 (c + t 8%nat))
  | O => s
  end.

Definition jhash_bytes (p : list Z) (basis : Z) : Z :=
  let i := u32 (0xdeadbeef + Z.of_nat (length p) + basis) in
  (jhash_bytes_loop (S (length p)) (i, i, i) p).2.

(** The generator's state is the per-thread seed; [random_next] updates it
    and returns it. *)
Definition random_next (seed : Z) : Z :=
  let seed := Z.lxor seed (u32 (Z.shiftl seed 13)) in
  let seed := Z.lxor seed (Z.shiftr seed 17) in
  Z.lxor seed (u32 (Z.shiftl seed 5)).

Definition random_range (seed max : Z) : Z * Z :=
  let seed := random_next seed in (seed mod max, seed).

(** ** Range *)

Lemma hash_rot_u32 x k : 0 ≤ k ≤ 32 → is_u32 x → is_u32 (hash_rot x k).
Proof. intros. unfold hash_rot. apply lor_in_width; auto with ovs lia. Qed.

Lemma mhash_add_u32 h d : is_u32 (mhash_add h d).
Proof. apply wrap_in_width. lia. Qed.

Lemma mhash_finish_u32 h n : is_u32 (mhash_finish h n).
Proof.
  unfold mhash_finish. apply lxor_in_width; [lia| |apply shiftr_in_width; try lia];
    apply wrap_in_width; lia.
Qed.

Lemma hash_words_u32 p basis : is_u32 (hash_words p basis).
Proof. apply mhash_finish_u32. Qed.

Lemma hash_3words_u32 a b c : is_u32 (hash_3words a b c).
Proof. apply mhash_finish_u32. Qed.

#[export] Hint Resolve hash_rot_u32 mhash_add_u32 mhash_finish_u32 hash_words_u32
  hash_3words_u32 : ovs.

(** ** Reaching every round *)

Lemma testbit_hash_rot x k i :
  0 < k < 32 → is_u32 x → 0 ≤ i < 32 → Z.testbit (hash_rot x k) i = Z.testbit x ((i - k) mod 32).
Proof.
  intros Hk Hx Hi. unfold hash_rot. rewrite Z.lor_spec, testbit_wrap, Z.shiftl_spec, Z.shiftr_spec by lia.
  rewrite (proj2 (Z.ltb_lt i 32)) by lia. cbn [andb]. destruct (Z.lt_ge_cases i k).
  - rewrite (Z.testbit_neg_r _ (i - k)) by lia. cbn [orb]. f_equal.
    rewrite <- (Z.mod_small (i + (32 - k)) 32) by lia. replace (i + (32 - k)) with (i - k + 1 * 32) by lia. by rewrite Z.mod_add by lia.
  - rewrite (testbit_high 32 x (i + (32 - k))) by (done || lia). by rewrite orb_false_r, Z.mod_small by lia.
Qed.

Lemma hash_rot_inverse x k : 0 < k < 32 → is_u32 x → hash_rot (hash_rot x (32 - k)) k = x.
Proof.
  intros Hk Hx. assert (Hr : is_u32 (hash_rot x (32 - k))) by (apply hash_rot_u32; [lia|done]).
  apply Z.bits_inj'. intros i Hi. destruct (Z.lt_ge_cases i 32).
  - pose proof (Z.mod_pos_bound (i - k) 32). rewrite testbit_hash_rot, testbit_hash_rot by (done || lia). f_equal.
    rewrite Zminus_mod_idemp_l. replace (i - k - (32 - k)) with (i + (-1) * 32) by lia.
    rewrite Z.mod_add by lia. by apply Z.mod_small.
  - rewrite (testbit_high 32 x), (testbit_high 32 (hash_rot _ k)); [done|apply hash_rot_u32; [lia|done]|lia|done|lia].
Qed.

Lemma wrap_mul_inverse x a b : is_u32 x → u32 (a * b) = 1 → u32 (u32 (x * a) * b) = x.
Proof.
  intros Hx Hab. unfold wrap in *. rewrite Z.mul_mod_idemp_l by done. rewrite <- Z.mul_assoc, Z.mul_mod, Hab, Z.mul_1_r by done.
  rewrite Z.mod_mod by done. by apply (wrap_id 32).
Qed.

(** For every first word some second word makes [hash_2words] zero: the
    steps that mix the second word in can be undone one after the other (the
    constants are the inverses of the multipliers modulo 2^32, and the hash
    that the remaining steps take to zero). *)
Lemma hash_2words_reaches_zero x : ∃ y, is_u32 y ∧ hash_2words x y = 0.
Proof.
  set (h := mhash_add x 0). set (d := Z.lxor h 0x2101c2ac).
  assert (Hh : is_u32 h) by apply mhash_add_u32.
  assert (Hd : is_u32 d) by (apply lxor_in_width; [lia|done|split; lia]).
  set (e := hash_rot (u32 (d * 0x56ed309b)) (32 - 15)).
  assert (He : is_u32 e) by (apply hash_rot_u32; [lia|by apply wrap_in_width]).
  exists (u32 (e * 0xdee13bb1)). split; [by apply wrap_in_width|]. unfold hash_2words. fold h. unfold mhash_add at 1, mhash_add__.
  rewrite wrap_mul_inverse by done. unfold e. rewrite hash_rot_inverse by (lia || by apply wrap_in_width).
  rewrite wrap_mul_inverse by done. unfold d. rewrite <- Z.lxor_assoc, Z.lxor_nilpotent, Z.lxor_0_l. reflexivity.
Qed.

(** ** The xorshift generator *)

(** One xorshift stage with a left shift loses no information: the low [k]
    bits are unchanged, and they determine the next [k], and so on. *)
Lemma xorshift_left_inj k x y :
  0 < k → is_u32 x → is_u32 y →
  Z.lxor x (u32 (Z.shiftl x k)) = Z.lxor y (u32 (Z.shiftl y k)) → x = y.
Proof.
  intros Hk Hx Hy H. apply Z.bits_inj'.
  intros i Hi. induction i as [i IH] using (well_founded_induction (Z.lt_wf 0)).
  apply (f_equal (λ z, Z.testbit z i)) in H.
  rewrite !Z.lxor_spec, !testbit_wrap, !Z.shiftl_spec in H by lia.
  destruct (Z.ltb_spec i 32);
    [|by rewrite (testbit_high 32 x), (testbit_high 32 y) by (done || lia)].
  simpl in H. destruct (Z.lt_ge_cases i k).
  - rewrite !(Z.testbit_neg_r _ (i - k)), !xorb_false_r in H by lia. done.
  - rewrite (IH (i - k)) in H by lia.
    destruct (Z.testbit x i), (Z.testbit y i), (Z.testbit y (i - k)); done.
Qed.

Lemma xorshift_right_inj k x y :
  0 < k → is_u32 x → is_u32 y →
  Z.lxor x (Z.shiftr x k) = Z.lxor y (Z.shiftr y k) → x = y.
Proof.
  intros Hk Hx Hy H. apply Z.bits_inj'. intros i Hi.
  assert (∀ j, 0 ≤ j → j ≤ 32 → Z.testbit x (32 - j) = Z.testbit y (32 - j)) as Hj.
  { intros j Hj. induction j as [j IH] using (well_founded_induction (Z.lt_wf 0)).
    intros Hj32. apply (f_equal (λ z, Z.testbit z (32 - j))) in H.
    rewrite !Z.lxor_spec, !Z.shiftr_spec in H by lia.
    assert (Z.testbit x (32 - j + k) = Z.testbit y (32 - j + k)) as E.
    { destruct (Z.lt_ge_cases (32 - j + k) 32).
      - replace (32 - j + k) with (32 - (j - k)) by lia. apply IH; lia.
      - by rewrite (testbit_high 32 x), (testbit_high 32 y) by (done || lia). }
    rewrite E in H.
    by destruct (Z.testbit x (32 - j)), (Z.testbit y (32 - j)),
      (Z.testbit y (32 - j + k)). }
  destruct (Z.lt_ge_cases i 32).
  - replace i with (32 - (32 - i)) by lia. apply Hj; lia.
  - by rewrite (testbit_high 32 x), (testbit_high 32 y) by (done || lia).
Qed.

Lemma random_next_u32 s : is_u32 s → is_u32 (random_next s).
Proof.
  intros. unfold random_next.
  repeat first [apply lxor_in_width; [lia| |] | apply wrap_in_width; lia
               | apply shiftr_in_width; [lia|lia|] | done].
Qed.

Lemma random_next_inj s s' :
  is_u32 s → is_u32 s' → random_next s = random_next s' → s = s'.
Proof.
  intros Hs Hs' H. unfold random_next in H.
  assert (Hw : ∀ x k, is_u32 x → is_u32 (Z.lxor x (u32 (Z.shiftl x k)))).
  { intros. apply lxor_in_width; [lia|done|apply wrap_in_width; lia]. }
  assert (Hr : ∀ x k, 0 ≤ k → is_u32 x → is_u32 (Z.lxor x (Z.shiftr x k))).
  { intros. apply lxor_in_width; [lia|done|]. by apply shiftr_in_width. }
  apply xorshift_left_inj in H; [|lia|auto with lia..].
  apply xorshift_right_inj in H; [|lia|auto..].
  by apply xorshift_left_inj in H.
Qed.

(** A non-zero seed never becomes zero, so [random_init]'s [while (!*seedp)]
    never has to reseed a running generator. *)
Lemma random_next_nonzero s : is_u32 s → s ≠ 0 → random_next s ≠ 0.
Proof.
  intros Hs Hnz H0. apply Hnz. apply random_next_inj; [done|by split|]. by rewrite H0.
Qed.

(** The xorshift generator is a permutation of the nonzero 32-bit
    states: it is injective, and a nonzero seed stays a nonzero 32-bit word,
    so the sequence never collapses to 0 and every state is on a cycle. *)
Theorem random_next_permutes s s' :
  is_u32 s → s ≠ 0 → is_u32 s' →
  is_u32 (random_next s) ∧ random_next s ≠ 0 ∧ (random_next s = random_next s' → s = s').
Proof.
  intros Hs Hnz Hs'. split; [by apply random_next_u32|].
  split; [by apply random_next_nonzero|by apply random_next_inj].
Qed.

Lemma random_next_permutes_witness : random_next 1 = 270369 ∧ random_next 1 ≠ 0.
Proof.
  split; [vm_compute; done|]. apply (random_next_permutes 1 2); [split; lia|lia|split; lia].
Defined.
