(* ===== verification/Hmap.v ===== *)
(** * The chained hash map of lib/hmap.h and lib/hmap.c

    A node embedded in a client structure is a pair of its hash and the
    client's payload; a pointer to a node is the chain that starts there, so
    [node->next] is the tail of the chain and the empty chain is the null
    pointer.  [hmap_remove], [hmap_replace] and [hmap_contains] compare node
    addresses in C; here the caller passes the test that recognises the node.
    [n] counts nodes that are all in memory, so it is not wrapped at 64 bits.

    The file ends with the contract clients use: iteration visits exactly the
    nodes inserted, a search by hash visits exactly the nodes with that hash,
    and each update changes the multiset of nodes as its name says. *)
From S2P Require Import Prelude Util.

(** ** Data and operations *)

Record hnode (A : Type) := HNode { hn_hash : Z; hn_data : A }.
Arguments HNode {A} _ _.
Arguments hn_hash {A} _.
Arguments hn_data {A} _.

Record hmap (A : Type) := Hmap {
  hm_buckets : list (list (hnode A));
  hm_mask : Z;
  hm_n : Z
}.
Arguments Hmap {A} _ _ _.
Arguments hm_buckets {A} _.
Arguments hm_mask {A} _.
Arguments hm_n {A} _.

Definition hmap_init {A} : hmap A := Hmap [[]] 0 0.

Definition hmap_clear {A} (m : hmap A) : hmap A :=
  if 0 <? hm_n m then Hmap ((λ _, []) <$> hm_buckets m) (hm_mask m) 0 else m.

Definition hmap_count {A} (m : hmap A) : Z := hm_n m.
Definition hmap_capacity {A} (m : hmap A) : Z := hm_mask m * 2 + 1.
Definition hmap_is_empty {A} (m : hmap A) : bool := hm_n m =? 0.

(** Index of the bucket for a hash, and that bucket's chain. *)
Definition bucket_idx {A} (m : hmap A) (hash : Z) : nat := Z.to_nat (Z.land hash (hm_mask m)).

Definition hmap_first_in_bucket {A} (m : hmap A) (hash : Z) : list (hnode A) :=
  default [] (hm_buckets m !! bucket_idx m hash).

Definition hmap_insert_fast {A} (m : hmap A) (x : A) (hash : Z) : hmap A :=
  Hmap (<[bucket_idx m hash := HNode hash x :: hmap_first_in_bucket m hash]> (hm_buckets m))
    (hm_mask m) (hm_n m + 1).

(** Reinsert every node, bucket by bucket, into a fresh table.  The callers
    pass masks of calc_mask(), for which the assertion that [new_mask + 1] is a
    power of two holds ([calc_mask_pow2]); the log message about long chains is
    left out. *)
Definition resize {A} (m : hmap A) (new_mask : Z) : hmap A :=
  let tmp :=
    if new_mask =? 0 then hmap_init
    else Hmap (replicate (Z.to_nat (new_mask + 1)) []) new_mask 0 in
  foldl (λ tmp chain,
      foldl (λ tmp node, hmap_insert_fast tmp (hn_data node) (hn_hash node)) tmp chain)
    tmp (hm_buckets m).

Definition calc_mask (capacity : Z) : Z :=
  let mask := capacity / 2 in
  let mask := Z.lor mask (Z.shiftr mask 1) in
  let mask := Z.lor mask (Z.shiftr mask 2) in
  let mask := Z.lor mask (Z.shiftr mask 4) in
  let mask := Z.lor mask (Z.shiftr mask 8) in
  let mask := Z.lor mask (Z.shiftr mask 16) in
  let mask := Z.lor mask (Z.shiftr mask 32) in
  Z.lor mask (Z.shiftl (Z.land mask 1) 1).

Definition hmap_expand_at {A} (m : hmap A) : hmap A :=
  let new_mask := calc_mask (hm_n m) in
  if hm_mask m <? new_mask then resize m new_mask else m.

Definition hmap_shrink_at {A} (m : hmap A) : hmap A :=
  let new_mask := calc_mask (hm_n m) in
  if new_mask <? hm_mask m then resize m new_mask else m.

Definition hmap_reserve_at {A} (m : hmap A) (n : Z) : hmap A :=
  let new_mask := calc_mask n in
  if hm_mask m <? new_mask then resize m new_mask else m.

Definition hmap_insert_at {A} (m : hmap A) (x : A) (hash : Z) : hmap A :=
  let m := hmap_insert_fast m x hash in
  if hm_mask m <? hm_n m / 2 then hmap_expand_at m else m.

(** Walk a chain to the node that satisfies [p]; [None] is the walk off the
    end of the chain (a null dereference in C). *)
Fixpoint chain_update {A} (p : A → bool) (f : hnode A → list (hnode A))
    (chain : list (hnode A)) : option (list (hnode A)) :=
  match chain with
  | [] => None
  | node :: next =>
      if p (hn_data node) then Some (f node ++ next)
      else cons node <$> chain_update p f next
  end.

Definition hmap_remove {A} (m : hmap A) (p : A → bool) (hash : Z) : option (hmap A) :=
  chain ← chain_update p (λ _, []) (hmap_first_in_bucket m hash);
  Some (Hmap (<[bucket_idx m hash := chain]> (hm_buckets m)) (hm_mask m) (hm_n m - 1)).

Definition hmap_replace {A} (m : hmap A) (p : A → bool) (hash : Z) (new_node : A)
    : option (hmap A) :=
  chain ← chain_update p (λ old, [HNode (hn_hash old) new_node]) (hmap_first_in_bucket m hash);
  Some (Hmap (<[bucket_idx m hash := chain]> (hm_buckets m)) (hm_mask m) (hm_n m)).

Fixpoint hmap_next_with_hash__ {A} (node : list (hnode A)) (hash : Z) : list (hnode A) :=
  match node with
  | [] => []
  | n :: next => if hn_hash n =? hash then node else hmap_next_with_hash__ next hash
  end.

Definition hmap_first_with_hash {A} (m : hmap A) (hash : Z) : list (hnode A) :=
  hmap_next_with_hash__ (hmap_first_in_bucket m hash) hash.

Definition hmap_next_with_hash {A} (node : list (hnode A)) : list (hnode A) :=
  match node with
  | [] => []
  | n :: next => hmap_next_with_hash__ next (hn_hash n)
  end.

Definition hmap_next_in_bucket {A} (node : list (hnode A)) : list (hnode A) := tail node.

(** The scan for the first non-empty bucket from index [start] on. *)
Fixpoint first_chain {A} (buckets : list (list (hnode A))) : list (hnode A) :=
  match buckets with
  | [] => []
  | [] :: buckets => first_chain buckets
  | chain :: _ => chain
  end.

Definition hmap_next__ {A} (m : hmap A) (start : nat) : list (hnode A) :=
  first_chain (drop start (hm_buckets m)).

Definition hmap_first {A} (m : hmap A) : list (hnode A) := hmap_next__ m 0.

Definition hmap_next {A} (m : hmap A) (node : list (hnode A)) : list (hnode A) :=
  match node with
  | [] => []
  | n :: [] => hmap_next__ m (S (bucket_idx m (hn_hash n)))
  | _ :: next => next
  end.

(** HMAP_FOR_EACH, HMAP_FOR_EACH_CONTINUE and HMAP_FOR_EACH_WITH_HASH: the
    payloads visited.  The fuel bounds the number of nodes. *)
Fixpoint hmap_iter {A} (step : list (hnode A) → list (hnode A)) (fuel : nat)
    (node : list (hnode A)) : list A :=
  match fuel, node with
  | S fuel, n :: _ => hn_data n :: hmap_iter step fuel (step node)
  | _, _ => []
  end.

Definition hmap_fuel {A} (m : hmap A) : nat := length (concat (hm_buckets m)).

Definition hmap_for_each {A} (m : hmap A) : list A :=
  hmap_iter (hmap_next m) (hmap_fuel m) (hmap_first m).

Definition hmap_for_each_with_hash {A} (m : hmap A) (hash : Z) : list A :=
  hmap_iter hmap_next_with_hash (length (hmap_first_in_bucket m hash))
    (hmap_first_with_hash m hash).

Definition hmap_for_each_in_bucket {A} (m : hmap A) (hash : Z) : list A :=
  hmap_iter hmap_next_in_bucket (length (hmap_first_in_bucket m hash))
    (hmap_first_in_bucket m hash).

Definition hmap_contains {A} (m : hmap A) (p : A → bool) (hash : Z) : bool :=
  existsb (λ n, p (hn_data n)) (hmap_first_in_bucket m hash).

(** [hmap_at_position] returns the payload with the bucket and offset to pass
    next time; the scan is over the buckets from [bucket] on. *)
Fixpoint at_position_scan {A} (mask : Z) (buckets : list (list (hnode A)))
    (offset : nat) : option (A * nat * nat) :=
  match buckets with
  | [] => None
  | chain :: buckets =>
      match drop offset chain with
      | node :: next =>
          let b := Z.to_nat (Z.land (hn_hash node) mask) in
          Some (hn_data node,
                if decide (next = []) then S b else b,
                if decide (next = []) then O else S offset)
      | [] => at_position_scan mask buckets 0
      end
  end.

Definition hmap_at_position {A} (m : hmap A) (bucket offset : nat) : option (A * nat * nat) :=
  at_position_scan (hm_mask m) (drop bucket (hm_buckets m)) offset.

(** ** Well-formedness *)

Definition hnodes {A} (m : hmap A) : list (hnode A) := concat (hm_buckets m).

Record hmap_wf {A} (m : hmap A) : Prop := {
  wf_mask : 0 ≤ hm_mask m;
  wf_len : Z.of_nat (length (hm_buckets m)) = hm_mask m + 1;
  wf_pos : ∀ i chain node, hm_buckets m !! i = Some chain → node ∈ chain →
             bucket_idx m (hn_hash node) = i;
  wf_n : hm_n m = Z.of_nat (length (hnodes m))
}.

Section lemmas.
Context {A : Type}.
Implicit Types (m : hmap A) (chain : list (hnode A)) (buckets : list (list (hnode A))).

Lemma land_mask_bound h k : 0 ≤ k → 0 ≤ Z.land h k ≤ k.
Proof.
  intros Hk. split; [apply Z.land_nonneg; by right|].
  apply Z.ldiff_le; [done|]. apply Z.bits_inj'. intros i Hi.
  rewrite Z.ldiff_spec, Z.land_spec, Z.testbit_0_l. btauto.
Qed.

Lemma bucket_idx_lt m h : hmap_wf m → (bucket_idx m h < length (hm_buckets m))%nat.
Proof.
  intros [Hm Hl _ _]. pose proof (land_mask_bound h _ Hm). unfold bucket_idx. lia.
Qed.

Lemma bucket_lookup m h :
  hmap_wf m → hm_buckets m !! bucket_idx m h = Some (hmap_first_in_bucket m h).
Proof.
  intros Hwf. unfold hmap_first_in_bucket.
  destruct (lookup_lt_is_Some_2 _ _ (bucket_idx_lt m h Hwf)) as [c ->]. done.
Qed.

Lemma concat_insert_perm buckets i chain chain' :
  buckets !! i = Some chain →
  concat (<[i := chain']> buckets) ++ chain ≡ₚ chain' ++ concat buckets.
Proof.
  intros Hi. rewrite insert_take_drop by (by eapply lookup_lt_Some).
  rewrite <- (take_drop_middle buckets i chain Hi) at 3.
  rewrite !concat_app. simpl. solve_Permutation.
Qed.

Lemma elem_of_hnodes m node :
  node ∈ hnodes m ↔ ∃ i chain, hm_buckets m !! i = Some chain ∧ node ∈ chain.
Proof.
  unfold hnodes. rewrite list_elem_of_In, in_concat. split.
  - intros (c & Hc & Hn). apply list_elem_of_In, list_elem_of_lookup in Hc as [i Hi].
    exists i, c. by rewrite list_elem_of_In.
  - intros (i & c & Hi & Hn). exists c. rewrite <- !list_elem_of_In.
    split; [|done]. by apply list_elem_of_lookup_2 in Hi.
Qed.

Lemma hnodes_in_bucket m node :
  hmap_wf m → node ∈ hnodes m → node ∈ hmap_first_in_bucket m (hn_hash node).
Proof.
  intros Hwf (i & c & Hi & Hn)%elem_of_hnodes. unfold hmap_first_in_bucket.
  by rewrite (wf_pos m Hwf i c node Hi Hn), Hi.
Qed.

Lemma in_bucket_hnodes m h node :
  hmap_wf m → node ∈ hmap_first_in_bucket m h → node ∈ hnodes m.
Proof. intros Hwf Hn. apply elem_of_hnodes. eauto using bucket_lookup. Qed.

Lemma hmap_init_wf : hmap_wf (@hmap_init A).
Proof.
  split; simpl; try done. intros [|i] c n; simpl; [intros [= <-]; set_solver|done].
Qed.

(** Replacing one chain keeps the map well formed when the new chain's nodes
    belong there. *)
Lemma set_bucket_wf m h chain' n :
  hmap_wf m →
  (∀ node, node ∈ chain' → bucket_idx m (hn_hash node) = bucket_idx m h) →
  n = hm_n m + Z.of_nat (length chain') - Z.of_nat (length (hmap_first_in_bucket m h)) →
  hmap_wf (Hmap (<[bucket_idx m h := chain']> (hm_buckets m)) (hm_mask m) n).
Proof.
  intros Hwf Hc Hn. pose proof (bucket_lookup m h Hwf) as Hl. split; simpl.
  - apply Hwf.
  - rewrite length_insert. apply Hwf.
  - intros i c node Hi Hnode. apply list_lookup_insert_Some in Hi
      as [(<- & -> & _)|(Hne & Hi)].
    + unfold bucket_idx in *. simpl. by apply Hc.
    + by apply (wf_pos m Hwf i c node).
  - unfold hnodes. simpl.
    pose proof (concat_insert_perm _ _ _ chain' Hl) as Hp%Permutation_length.
    rewrite !length_app in Hp. pose proof (wf_n m Hwf). unfold hnodes in *. lia.
Qed.

Lemma hmap_insert_fast_wf m x h : hmap_wf m → hmap_wf (hmap_insert_fast m x h).
Proof.
  intros Hwf. apply set_bucket_wf; [done| |simpl; lia].
  intros node [->|Hn]%elem_of_cons; [done|].
  eapply wf_pos; [done|by apply bucket_lookup|done].
Qed.

Lemma hmap_insert_fast_nodes m x h :
  hmap_wf m → hnodes (hmap_insert_fast m x h) ≡ₚ HNode h x :: hnodes m.
Proof.
  intros Hwf. unfold hnodes, hmap_insert_fast; simpl.
  pose proof (concat_insert_perm _ _ _ (HNode h x :: hmap_first_in_bucket m h)
    (bucket_lookup m h Hwf)) as Hp.
  apply (Permutation_app_inv_r (hmap_first_in_bucket m h)).
  rewrite Hp. simpl. apply perm_skip. by rewrite Permutation_app_comm.
Qed.

Lemma foldl_insert_spec chain m :
  hmap_wf m →
  let m' := foldl (λ tmp node, hmap_insert_fast tmp (hn_data node) (hn_hash node)) m chain in
  hmap_wf m' ∧ hnodes m' ≡ₚ chain ++ hnodes m ∧ hm_mask m' = hm_mask m.
Proof.
  revert m. induction chain as [|node chain IH]; intros m Hwf; simpl; [done|].
  destruct (IH _ (hmap_insert_fast_wf m (hn_data node) (hn_hash node) Hwf)) as (? & Hp & ?).
  split; [done|]. split; [|done]. rewrite Hp, hmap_insert_fast_nodes by done.
  destruct node; simpl. by rewrite Permutation_middle.
Qed.

Lemma empty_table_wf mask : 0 ≤ mask →
  hmap_wf (Hmap (replicate (Z.to_nat (mask + 1)) (@nil (hnode A))) mask 0)
  ∧ hnodes (Hmap (replicate (Z.to_nat (mask + 1)) (@nil (hnode A))) mask 0) = [].
Proof.
  intros Hm.
  assert (Hc : ∀ k, concat (replicate k (@nil (hnode A))) = []) by (induction k; done).
  split; [split|]; unfold hnodes; simpl; [done| | |by rewrite Hc|by rewrite Hc].
  - rewrite length_replicate. lia.
  - intros i c node Hi. apply lookup_replicate in Hi as [-> _]. set_solver.
Qed.

Lemma resize_spec m new_mask :
  0 ≤ new_mask →
  hmap_wf (resize m new_mask) ∧ hnodes (resize m new_mask) ≡ₚ hnodes m
  ∧ hm_mask (resize m new_mask) = new_mask.
Proof.
  intros Hmask. unfold resize.
  set (tmp := if new_mask =? 0 then hmap_init else _).
  assert (Htmp : hmap_wf tmp ∧ hnodes tmp = [] ∧ hm_mask tmp = new_mask).
  { unfold tmp. destruct (Z.eqb_spec new_mask 0) as [->|].
    - split; [apply hmap_init_wf|done].
    - pose proof (empty_table_wf new_mask Hmask) as [? ?]. done. }
  clearbody tmp. destruct Htmp as (Hwf & Hnil & <-). unfold hnodes at 2.
  assert (Hgen : ∀ buckets t, hmap_wf t →
    let t' := foldl (λ tmp chain,
      foldl (λ tmp node, hmap_insert_fast tmp (hn_data node) (hn_hash node)) tmp chain)
      t buckets in
    hmap_wf t' ∧ hnodes t' ≡ₚ concat buckets ++ hnodes t ∧ hm_mask t' = hm_mask t).
  { induction buckets as [|c bs IH]; intros t Ht; simpl; [done|].
    destruct (foldl_insert_spec c t Ht) as (Ht' & Hp & Hm').
    destruct (IH _ Ht') as (? & Hp' & Hm''). split; [done|]. rewrite Hm''.
    split; [|done]. rewrite Hp', Hp, !(assoc (++)). f_equiv.
    apply Permutation_app_comm. }
  destruct (Hgen (hm_buckets m) tmp Hwf) as (? & Hp & ?).
  rewrite Hnil, app_nil_r in Hp. done.
Qed.

Lemma calc_mask_nonneg c : 0 ≤ c → 0 ≤ calc_mask c.
Proof.
  intros. unfold calc_mask. cbv zeta.
  repeat (apply Z.lor_nonneg; split); rewrite ?Z.shiftr_nonneg, ?Z.shiftl_nonneg;
    try (apply Z.land_nonneg; right; lia);
    repeat (apply Z.lor_nonneg; split); rewrite ?Z.shiftr_nonneg;
    repeat (apply Z.lor_nonneg; split; rewrite ?Z.shiftr_nonneg);
    apply Z.div_pos; lia.
Qed.

Lemma hmap_n_nonneg m : hmap_wf m → 0 ≤ hm_n m.
Proof. intros Hwf. rewrite (wf_n m Hwf). lia. Qed.

Lemma hmap_expand_spec m :
  hmap_wf m → hmap_wf (hmap_expand_at m) ∧ hnodes (hmap_expand_at m) ≡ₚ hnodes m.
Proof.
  intros Hwf. unfold hmap_expand_at. case_match; [|done].
  pose proof (resize_spec m (calc_mask (hm_n m))) as (? & ? & _); [|done].
  by apply calc_mask_nonneg, hmap_n_nonneg.
Qed.

Lemma hmap_shrink_spec m :
  hmap_wf m → hmap_wf (hmap_shrink_at m) ∧ hnodes (hmap_shrink_at m) ≡ₚ hnodes m.
Proof.
  intros Hwf. unfold hmap_shrink_at. case_match; [|done].
  pose proof (resize_spec m (calc_mask (hm_n m))) as (? & ? & _); [|done].
  by apply calc_mask_nonneg, hmap_n_nonneg.
Qed.

Lemma hmap_insert_spec m x h :
  hmap_wf m →
  hmap_wf (hmap_insert_at m x h) ∧ hnodes (hmap_insert_at m x h) ≡ₚ HNode h x :: hnodes m.
Proof.
  intros Hwf. unfold hmap_insert_at.
  pose proof (hmap_insert_fast_wf m x h Hwf) as Hwf'.
  pose proof (hmap_insert_fast_nodes m x h Hwf) as Hp.
  case_match; [|done].
  destruct (hmap_expand_spec _ Hwf') as [? Hp']. split; [done|]. by rewrite Hp'.
Qed.

(** ** Removal and replacement *)

Lemma chain_update_Some p f chain chain' :
  chain_update p f chain = Some chain' →
  ∃ pre node post, chain = pre ++ node :: post ∧ chain' = pre ++ f node ++ post
    ∧ p (hn_data node) = true ∧ Forall (λ n, p (hn_data n) = false) pre.
Proof.
  revert chain'. induction chain as [|node chain IH]; intros chain' H; simpl in H; [done|].
  destruct (p (hn_data node)) eqn:Hp.
  - injection H as <-. by exists [], node, chain.
  - apply fmap_Some in H as (c & Hc & ->). destruct (IH _ Hc) as (pre & n & post & -> & -> & ? & ?).
    exists (node :: pre), n, post. split_and!; try done. by constructor.
Qed.

Lemma chain_update_is_Some p f chain node :
  node ∈ chain → p (hn_data node) = true → is_Some (chain_update p f chain).
Proof.
  induction chain as [|n chain IH]; intros Hin Hp; [set_solver|]. simpl.
  destruct (p (hn_data n)) eqn:E; [done|].
  apply elem_of_cons in Hin as [->|Hin]; [congruence|].
  destruct (IH Hin Hp) as [c ->]. done.
Qed.

(** The shape of an update of one node, shared by removal and replacement. *)
Lemma chain_update_hmap m p f h chain' n :
  hmap_wf m →
  chain_update p f (hmap_first_in_bucket m h) = Some chain' →
  (∀ node node', node' ∈ f node → hn_hash node' = hn_hash node) →
  (∀ node, n = hm_n m + Z.of_nat (length (f node)) - 1) →
  let m' := Hmap (<[bucket_idx m h := chain']> (hm_buckets m)) (hm_mask m) n in
  hmap_wf m' ∧ ∃ node rest, p (hn_data node) = true ∧ node ∈ hmap_first_in_bucket m h
    ∧ hnodes m ≡ₚ node :: rest ∧ hnodes m' ≡ₚ f node ++ rest.
Proof.
  intros Hwf Hu Hf Hn m'. pose proof (bucket_lookup m h Hwf) as Hb.
  destruct (chain_update_Some _ _ _ _ Hu) as (pre & node & post & Hc & -> & Hp & _).
  split.
  - apply set_bucket_wf; [done| |].
    + assert (Hpos : ∀ n0, n0 ∈ pre ++ node :: post →
        bucket_idx m (hn_hash n0) = bucket_idx m h).
      { intros n0 Hn0. eapply wf_pos; [done|done|by rewrite Hc]. }
      intros n0. rewrite !elem_of_app. intros [?|[Hn0|?]].
      * apply Hpos. set_solver.
      * rewrite (Hf node n0 Hn0). apply Hpos. set_solver.
      * apply Hpos. set_solver.
    + rewrite (Hn node), Hc, !length_app. simpl. lia.
  - rewrite Hc in Hb. set (bs := hm_buckets m) in *.
    exists node, (concat (take (bucket_idx m h) bs) ++ pre ++ post
                  ++ concat (drop (S (bucket_idx m h)) bs)).
    split_and!; [done|rewrite Hc; set_solver| |].
    + unfold hnodes. fold bs. rewrite <- (take_drop_middle bs _ _ Hb) at 1.
      rewrite concat_app. simpl. solve_Permutation.
    + unfold hnodes, m'. simpl. fold bs.
      rewrite insert_take_drop by (by eapply lookup_lt_Some).
      rewrite concat_app. simpl. solve_Permutation.
Qed.

Lemma hmap_remove_spec m p h m' :
  hmap_wf m → hmap_remove m p h = Some m' →
  hmap_wf m' ∧ ∃ node, p (hn_data node) = true ∧ node ∈ hmap_first_in_bucket m h
    ∧ hnodes m ≡ₚ node :: hnodes m'.
Proof.
  intros Hwf H. unfold hmap_remove in H. apply bind_Some in H as (c & Hc & [= <-]).
  destruct (chain_update_hmap m p (λ _, []) h c (hm_n m - 1) Hwf Hc)
    as (? & node & rest & ? & ? & Hp & Hp'); [set_solver|simpl; lia|].
  split; [done|]. exists node. split_and!; try done. by rewrite Hp, Hp'.
Qed.

Lemma hmap_replace_spec m p h x m' :
  hmap_wf m → hmap_replace m p h x = Some m' →
  hmap_wf m' ∧ ∃ node rest, p (hn_data node) = true ∧ node ∈ hmap_first_in_bucket m h
    ∧ hnodes m ≡ₚ node :: rest ∧ hnodes m' ≡ₚ HNode (hn_hash node) x :: rest.
Proof.
  intros Hwf H. unfold hmap_replace in H. apply bind_Some in H as (c & Hc & [= <-]).
  destruct (chain_update_hmap m p (λ old, [HNode (hn_hash old) x]) h c (hm_n m) Hwf Hc)
    as (? & node & rest & ? & ? & Hp & Hp'); [set_solver|simpl; lia|].
  split; [done|]. by exists node, rest.
Qed.

Lemma hmap_remove_is_Some m p node :
  hmap_wf m → node ∈ hnodes m → p (hn_data node) = true →
  is_Some (hmap_remove m p (hn_hash node)).
Proof.
  intros Hwf Hn Hp. unfold hmap_remove.
  destruct (chain_update_is_Some p (λ _, []) _ _ (hnodes_in_bucket m node Hwf Hn) Hp)
    as [c ->]. done.
Qed.

Lemma hmap_remove_data m p h x :
  hmap_wf m → HNode h x ∈ hnodes m → p x = true → is_Some (hmap_remove m p h).
Proof. apply (hmap_remove_is_Some m p (HNode h x)). Qed.

Lemma hmap_replace_is_Some m p node x :
  hmap_wf m → node ∈ hnodes m → p (hn_data node) = true →
  is_Some (hmap_replace m p (hn_hash node) x).
Proof.
  intros Hwf Hn Hp. unfold hmap_replace.
  destruct (chain_update_is_Some p (λ old, [HNode (hn_hash old) x]) _ _
    (hnodes_in_bucket m node Hwf Hn) Hp) as [c ->]. done.
Qed.

(** ** Iteration *)

Lemma first_chain_split buckets :
  (first_chain buckets = [] ∧ concat buckets = [])
  ∨ ∃ pre chain post, buckets = pre ++ chain :: post ∧ first_chain buckets = chain
      ∧ chain ≠ [] ∧ concat pre = [].
Proof.
  induction buckets as [|[|n c] bs IH]; simpl; [by left| |].
  - destruct IH as [[? ?]|(pre & c & post & -> & ? & ? & ?)]; [by left|].
    right. by exists ([] :: pre), c, post.
  - right. by exists [], (n :: c), bs.
Qed.

(** [visits m node rest]: iterating from [node] on visits the nodes [rest]. *)
Definition visits (m : hmap A) (node rest : list (hnode A)) : Prop :=
  (node = [] ∧ rest = [])
  ∨ ∃ pre used post, hm_buckets m = pre ++ (used ++ node) :: post ∧ node ≠ []
      ∧ rest = node ++ concat post.

Lemma visits_nil m node : visits m node [] → node = [].
Proof. intros [[? _]|(? & ? & ? & _ & ? & H)]; [done|]. by destruct node. Qed.

Lemma visits_length m node rest : visits m node rest → (length rest ≤ hmap_fuel m)%nat.
Proof.
  intros [[_ ->]|(pre & used & post & Hb & _ & ->)]; [simpl; lia|].
  unfold hmap_fuel. rewrite Hb, concat_app. cbn [concat]. rewrite !length_app. lia.
Qed.

Lemma visits_chain m pre bs :
  hm_buckets m = pre ++ bs → visits m (first_chain bs) (concat bs).
Proof.
  intros Hb. destruct (first_chain_split bs) as [[-> ->]|(pre' & c & post & -> & -> & Hne & Hnil)].
  { by left. }
  right. exists (pre ++ pre'), [], post. rewrite Hb, concat_app, Hnil, <- (assoc (++)). done.
Qed.

Lemma visits_first m : visits m (hmap_first m) (hnodes m).
Proof. unfold hmap_first, hmap_next__. rewrite drop_0. by apply (visits_chain m []). Qed.

Lemma visits_next m node n rest :
  hmap_wf m → visits m node (n :: rest) →
  (∃ node', node = n :: node') ∧ visits m (hmap_next m node) rest.
Proof.
  intros Hwf [[_ ?]|(pre & used & post & Hb & Hne & He)]; [done|].
  destruct node as [|n0 node]; [done|]. simpl in He. injection He as <- ->.
  split; [by eexists|]. simpl. destruct node as [|n' node].
  - assert (Hidx : bucket_idx m (hn_hash n) = length pre).
    { eapply (wf_pos m Hwf _ (used ++ [n])); [|set_solver].
      rewrite Hb. by apply list_lookup_middle. }
    unfold hmap_next__. rewrite Hidx, Hb.
    assert (drop (S (length pre)) (pre ++ (used ++ [n]) :: post) = post) as ->.
    { rewrite (drop_app_ge) by lia. by replace (S (length pre) - length pre)%nat with 1%nat by lia. }
    apply (visits_chain m (pre ++ [used ++ [n]])). by rewrite Hb, <- (assoc (++)).
  - right. exists pre, (used ++ [n]), post. by rewrite Hb, <- (assoc (++)).
Qed.

Lemma hmap_iter_visits m fuel node rest :
  hmap_wf m → visits m node rest → (length rest ≤ fuel)%nat →
  hmap_iter (hmap_next m) fuel node = hn_data <$> rest.
Proof.
  intros Hwf. revert fuel node. induction rest as [|n rest IH]; intros fuel node Hv Hf.
  { rewrite (visits_nil _ _ Hv). by destruct fuel. }
  destruct (visits_next _ _ _ _ Hwf Hv) as [[node' ->] Hv']. simpl in Hf.
  destruct fuel as [|fuel]; [lia|]. cbn [hmap_iter]. rewrite IH by (done || lia). done.
Qed.

Lemma hmap_for_each_nodes m : hmap_wf m → hmap_for_each m = hn_data <$> hnodes m.
Proof. intros Hwf. by apply hmap_iter_visits; [|apply visits_first|]. Qed.

Lemma hmap_iter_with_hash fuel chain h :
  (length chain ≤ fuel)%nat →
  hmap_iter hmap_next_with_hash fuel (hmap_next_with_hash__ chain h)
  = hn_data <$> filter (λ n, hn_hash n = h) chain.
Proof.
  revert chain. induction fuel as [|fuel IH]; intros chain Hf.
  { destruct chain; [done|simpl in Hf; lia]. }
  induction chain as [|n chain IHc]; [done|]. simpl.
  destruct (Z.eqb_spec (hn_hash n) h) as [<-|].
  - rewrite filter_cons_True by done. simpl. f_equal. apply IH. simpl in Hf. lia.
  - rewrite filter_cons_False by done. apply IHc. simpl in Hf. lia.
Qed.

Lemma concat_filter_none (P : hnode A → Prop) `{∀ n, Decision (P n)} buckets :
  (∀ c n, c ∈ buckets → n ∈ c → ¬ P n) → filter P (concat buckets) = [].
Proof.
  intros H'. apply filter_none_in. intros n. rewrite list_elem_of_In, in_concat.
  intros (c & ?%list_elem_of_In & ?%list_elem_of_In). by eapply H'.
Qed.

(** All the nodes with a given hash sit in one bucket, in bucket order. *)
Lemma hnodes_filter_bucket m (P : hnode A → Prop) `{∀ n, Decision (P n)} h :
  hmap_wf m → (∀ n, P n → hn_hash n = h) →
  filter P (hnodes m) = filter P (hmap_first_in_bucket m h).
Proof.
  intros Hwf HP. pose proof (bucket_lookup m h Hwf) as Hb. unfold hnodes.
  rewrite <- (take_drop_middle _ _ _ Hb) at 1.
  rewrite concat_app, filter_app. simpl. rewrite filter_app.
  assert (Hout : ∀ i c n, hm_buckets m !! i = Some c → i ≠ bucket_idx m h → n ∈ c → ¬ P n).
  { intros i c n Hi Hne Hn HPn. apply Hne. rewrite <- (HP n HPn). symmetry.
    by eapply wf_pos. }
  rewrite !concat_filter_none; [by rewrite app_nil_r| |].
  - intros c n (i & Hi)%list_elem_of_lookup Hn. rewrite lookup_drop in Hi.
    eapply Hout; [done|lia|done].
  - intros c n (i & Hi)%list_elem_of_lookup Hn.
    apply lookup_take_Some in Hi as [Hi ?]. eapply Hout; [done|lia|done].
Qed.

Lemma hmap_for_each_with_hash_nodes m h :
  hmap_wf m →
  hmap_for_each_with_hash m h = hn_data <$> filter (λ n, hn_hash n = h) (hnodes m).
Proof.
  intros Hwf. unfold hmap_for_each_with_hash, hmap_first_with_hash.
  rewrite hmap_iter_with_hash by done. by rewrite (hnodes_filter_bucket m _ h).
Qed.

Lemma hmap_for_each_in_bucket_chain m h :
  hmap_for_each_in_bucket m h = hn_data <$> hmap_first_in_bucket m h.
Proof.
  unfold hmap_for_each_in_bucket. generalize (hmap_first_in_bucket m h) as c.
  induction c as [|n c IH]; [done|]. simpl. by rewrite IH.
Qed.

End lemmas.

(** ** Table sizes *)

(** [m] is [x] smeared right by [s] places. *)
Definition smeared (m x s : Z) : Prop :=
  ∀ i, 0 ≤ i → Z.testbit m i = true ↔ ∃ j, i ≤ j < i + s ∧ Z.testbit x j = true.

Lemma smeared_double m x s :
  0 ≤ s → smeared m x s → smeared (Z.lor m (Z.shiftr m s)) x (2 * s).
Proof.
  intros Hs Hm i Hi. rewrite Z.lor_spec, Z.shiftr_spec, orb_true_iff by done.
  rewrite (Hm i Hi), (Hm (i + s)) by lia. split.
  - intros [(j & ? & ?)|(j & ? & ?)]; exists j; split; (lia || done).
  - intros (j & ? & ?). destruct (Z.lt_ge_cases j (i + s)); [left|right]; exists j;
      split; (lia || done).
Qed.

Lemma smeared_ones m x s :
  0 < x < 2 ^ s → 0 ≤ m → smeared m x s → m = 2 ^ (Z.log2 x + 1) - 1.
Proof.
  intros Hx Hm H. apply Z.bits_inj'. intros i Hi.
  pose proof (Z.log2_nonneg x). rewrite testbit_ones by lia.
  apply eq_bool_prop_intro. rewrite !Is_true_true, (H i Hi), Z.ltb_lt. split.
  - intros (j & Hj & Hb).
    destruct (Z.lt_ge_cases (Z.log2 x) j); [|lia].
    by rewrite Z.bits_above_log2 in Hb by lia.
  - intros Hle. exists (Z.log2 x). rewrite Z.bit_log2 by lia.
    assert (Z.log2 x < s); [|split; [lia|done]].
    destruct (Z.lt_ge_cases s 0); [rewrite Z.pow_neg_r in Hx; lia|].
    apply Z.log2_lt_pow2; lia.
Qed.

Lemma calc_mask_spec c :
  is_u64 c → calc_mask c = if c <? 2 then 0 else Z.max 3 (2 ^ Z.log2 c - 1).
Proof.
  intros [Hc0 Hc]. destruct (Z.ltb_spec c 2) as [Hlt|Hge].
  { assert (c = 0 ∨ c = 1) as [-> | ->] by lia; reflexivity. }
  set (x := c / 2).
  assert (Hx : 0 < x < 2 ^ 64).
  { unfold x. split; [apply Z.div_str_pos; lia|]. apply Z.div_lt_upper_bound; lia. }
  assert (Hlog : Z.log2 x + 1 = Z.log2 c).
  { unfold x. change 2 with (2 ^ 1) at 1. rewrite <- Z.shiftr_div_pow2 by lia.
    rewrite Z.log2_shiftr by lia. assert (1 ≤ Z.log2 c); [|lia].
    change 1 with (Z.log2 2). apply Z.log2_le_mono. lia. }
  unfold calc_mask. fold x. cbv zeta.
  assert (H1 : smeared x x 1).
  { intros i Hi. split; [intros; exists i; split; (lia || done)|].
    intros (j & ? & ?). by replace i with j by lia. }
  do 6 (apply smeared_double in H1; [|lia]).
  change (2 * 1) with 2 in H1. change (2 * 2) with 4 in H1. change (2 * 4) with 8 in H1.
  change (2 * 8) with 16 in H1. change (2 * 16) with 32 in H1. change (2 * 32) with 64 in H1.
  apply (smeared_ones _ x 64 Hx) in H1.
  2:{ repeat (apply Z.lor_nonneg; split; rewrite ?Z.shiftr_nonneg); lia. }
  rewrite H1, Hlog. clear H1.
  assert (Hl1 : 1 ≤ Z.log2 c) by (pose proof (Z.log2_nonneg x); lia).
  assert (Z.land (2 ^ Z.log2 c - 1) 1 = 1) as ->.
  { apply Z.bits_inj'. intros i Hi. rewrite Z.land_spec, testbit_ones by lia.
    destruct (Z.eqb_spec i 0) as [->|].
    - by rewrite (proj2 (Z.ltb_lt 0 _)) by lia.
    - rewrite (Z.bits_above_log2 1 i) by (simpl; lia). btauto. }
  change (Z.shiftl 1 1) with 2.
  destruct (Z.eq_dec (Z.log2 c) 1) as [->|]; [reflexivity|].
  assert (2 ^ 2 ≤ 2 ^ Z.log2 c) by (apply Z.pow_le_mono_r; lia).
  rewrite Z.max_r by lia. apply Z.bits_inj'. intros i Hi.
  rewrite Z.lor_spec, !testbit_ones by lia. destruct (Z.eqb_spec i 1) as [->|].
  - by rewrite (proj2 (Z.ltb_lt 1 _)) by lia.
  - change 2 with (2 ^ 1) at 1. rewrite Z.pow2_bits_false by lia. btauto.
Qed.

(** The size assertion in [resize] never fires, and a computed table always
    has at least half as many buckets as nodes. *)
Lemma calc_mask_pow2 c : is_u64 c → is_pow2 (calc_mask c + 1) = true ∧ c / 2 ≤ calc_mask c.
Proof.
  intros Hc. pose proof Hc as [Hc0 Hc1]. rewrite calc_mask_spec by done.
  destruct (Z.ltb_spec c 2) as [Hlt|Hge].
  { split; [reflexivity|]. apply Z.lt_succ_r. apply Z.div_lt_upper_bound; lia. }
  assert (Hl : 1 ≤ Z.log2 c < 64).
  { split; [change 1 with (Z.log2 2); apply Z.log2_le_mono; lia|].
    apply Z.log2_lt_pow2; lia. }
  assert (2 ^ 1 ≤ 2 ^ Z.log2 c) by (apply Z.pow_le_mono_r; lia).
  pose proof (Z.log2_spec c ltac:(lia)) as [_ Hs].
  rewrite Z.pow_succ_r in Hs by lia. split.
  - destruct (Z.eq_dec (Z.log2 c) 1) as [->|]; [reflexivity|].
    assert (2 ^ 2 ≤ 2 ^ Z.log2 c) by (apply Z.pow_le_mono_r; lia).
    assert (2 ^ Z.log2 c < 2 ^ 64) by (apply Z.pow_lt_mono_r; lia).
    rewrite Z.max_r by lia. apply is_pow2_spec.
    + split; lia.
    + exists (Z.log2 c). split; lia.
  - assert (c / 2 < 2 ^ Z.log2 c); [|lia]. apply Z.div_lt_upper_bound; lia.
Qed.

(** ** Iteration by position *)

Section position.
Context {A : Type}.
Implicit Types (m : hmap A).

(** Repeated calls of [hmap_at_position], each starting where the previous
    one said to continue. *)
Fixpoint position_walk (m : hmap A) (fuel bucket offset : nat) : list A :=
  match fuel with
  | O => []
  | S fuel =>
      match hmap_at_position m bucket offset with
      | Some (x, bucket', offset') => x :: position_walk m fuel bucket' offset'
      | None => []
      end
  end.

Lemma at_position_scan_spec mask (buckets : list (list (hnode A))) offset :
  match buckets with [] => True | c :: _ => (offset ≤ length c)%nat end →
  match at_position_scan mask buckets offset with
  | None => drop offset (concat buckets) = []
  | Some (x, b, o) => ∃ pre used node next post,
      buckets = pre ++ (used ++ node :: next) :: post ∧ x = hn_data node
      ∧ drop offset (concat buckets) = node :: next ++ concat post
      ∧ (pre = [] → length used = offset) ∧ (pre ≠ [] → used = [])
      ∧ b = (if decide (next = []) then S (Z.to_nat (Z.land (hn_hash node) mask))
             else Z.to_nat (Z.land (hn_hash node) mask))
      ∧ o = (if decide (next = []) then O else S (length used))
  end.
Proof.
  revert offset. induction buckets as [|c bs IH]; intros offset Ho; simpl.
  { by rewrite drop_nil. }
  rewrite drop_app, (proj2 (Nat.sub_0_le offset (length c))) by done. rewrite drop_0.
  destruct (drop offset c) as [|node next] eqn:Hd.
  - specialize (IH 0%nat). rewrite drop_0 in IH. simpl.
    destruct (at_position_scan mask bs 0) as [[[x b] o]|];
      [|apply IH; destruct bs; simpl; lia || done].
    destruct IH as (pre & used & node & next & post & -> & ? & ? & Hu0 & Hu & ? & ?);
      [destruct bs; simpl; lia || done|].
    exists (c :: pre), used, node, next, post. split_and!; try done.
    intros _. destruct pre; [|by apply Hu]. by apply nil_length_inv, Hu0.
  - exists [], (take offset c), node, next, bs. rewrite length_take_le by done.
    split_and!; try done. by rewrite <- Hd, take_drop.
Qed.

Lemma position_walk_nodes m fuel pre used rest post :
  hmap_wf m → hm_buckets m = pre ++ (used ++ rest) :: post →
  (length (rest ++ concat post) ≤ fuel)%nat →
  position_walk m fuel (length pre) (length used) = hn_data <$> (rest ++ concat post).
Proof.
  intros Hwf. revert pre used rest post.
  induction fuel as [|fuel IH]; intros pre used rest post Hb Hf.
  { destruct (rest ++ concat post); [done|simpl in Hf; lia]. }
  simpl. unfold hmap_at_position. rewrite Hb, drop_app_length.
  pose proof (at_position_scan_spec (hm_mask m) ((used ++ rest) :: post) (length used)
    ltac:(simpl; rewrite length_app; lia)) as Hs.
  assert (Hdrop : drop (length used) (concat ((used ++ rest) :: post)) = rest ++ concat post).
  { simpl. by rewrite <- (assoc (++)), drop_app_length. }
  rewrite Hdrop in Hs.
  destruct (at_position_scan _ _ _) as [[[x b] o]|]; [|by rewrite Hs].
  destruct Hs as (pre' & used' & node & next & post' & Hsplit & -> & Hnodes & _ & _ & -> & ->).
  rewrite Hnodes in *. simpl. f_equal.
  assert (Hb' : hm_buckets m = (pre ++ pre') ++ (used' ++ node :: next) :: post')
    by (by rewrite Hb, Hsplit, (assoc (++))).
  assert (Hidx : Z.to_nat (Z.land (hn_hash node) (hm_mask m)) = length (pre ++ pre')).
  { change (bucket_idx m (hn_hash node) = length (pre ++ pre')).
    eapply (wf_pos m Hwf _ (used' ++ node :: next)); [|set_solver].
    rewrite Hb'. by apply list_lookup_middle. }
  rewrite Hidx. case_decide as Hn.
  - subst next. simpl in *. destruct post' as [|c post'].
    + simpl. destruct fuel as [|fuel]; [done|]. simpl. unfold hmap_at_position.
      rewrite Hb', drop_ge by (rewrite length_app; simpl; lia). done.
    + replace (S (length (pre ++ pre'))) with (length ((pre ++ pre') ++ [used' ++ [node]]))
        by (rewrite length_app; simpl; lia).
      apply (IH _ [] c post'); [rewrite Hb', <- !(assoc (++)); done|simpl in *; lia].
  - replace (S (length used')) with (length (used' ++ [node]))
      by (rewrite length_app; simpl; lia).
    apply IH; [rewrite Hb', <- !(assoc (++)); done|simpl in Hf; lia].
Qed.

Lemma position_walk_for_each m fuel :
  hmap_wf m → (length (hnodes m) ≤ fuel)%nat → position_walk m fuel 0 0 = hmap_for_each m.
Proof.
  intros Hwf Hf. rewrite hmap_for_each_nodes by done.
  pose proof (wf_len m Hwf). pose proof (wf_mask m Hwf). unfold hnodes in *.
  destruct (hm_buckets m) as [|c bs] eqn:Hb; [simpl in *; lia|].
  apply (position_walk_nodes m fuel [] [] c bs Hwf); [by rewrite Hb|done].
Qed.
End position.
