(* ===== verification/HmapThms.v ===== *)
(** * Correctness of the hash map

    The client's view of [struct hmap]: a bag of (hash, node) pairs.  A step
    relation runs the table and the bag side by side over any sequence of
    operations, and the theorems say that the table always represents the
    bag, that lookups and every way of iterating are exact, that unlinking a
    node of the map never walks off its chain, and that the table stays large
    enough for its contents. *)
From S2P Require Import Prelude Util Hmap.

Section refinement.
Context {A : Type} `{EqDecision A}.
Implicit Types (m : hmap A) (bag : list (hnode A)).

(** Nodes are embedded in client structures and compared by address. *)
Definition is_node (x : A) : A → bool := λ y, bool_decide (y = x).

Definition data (bag : list (hnode A)) : list A := hn_data <$> bag.

(** One operation on the table and its effect on the bag.  A client inserts
    a node that is not in the map, and removes or replaces one that is. *)
Inductive hmap_step : hmap A * list (hnode A) → hmap A * list (hnode A) → Prop :=
| hms_insert m bag x h :
    x ∉ data bag → hmap_step (m, bag) (hmap_insert_at m x h, HNode h x :: bag)
| hms_insert_fast m bag x h :
    x ∉ data bag → hmap_step (m, bag) (hmap_insert_fast m x h, HNode h x :: bag)
| hms_remove m bag x h bag' m' :
    bag ≡ₚ HNode h x :: bag' → hmap_remove m (is_node x) h = Some m' →
    hmap_step (m, bag) (m', bag')
| hms_replace m bag x y h bag' m' :
    bag ≡ₚ HNode h x :: bag' → y ∉ data bag' → hmap_replace m (is_node x) h y = Some m' →
    hmap_step (m, bag) (m', HNode h y :: bag')
| hms_expand m bag : hmap_step (m, bag) (hmap_expand_at m, bag)
| hms_shrink m bag : hmap_step (m, bag) (hmap_shrink_at m, bag)
| hms_reserve m bag n : 0 ≤ n → hmap_step (m, bag) (hmap_reserve_at m n, bag)
| hms_clear m bag : hmap_step (m, bag) (hmap_clear m, []).

Record represents m bag : Prop := {
  rep_wf : hmap_wf m;
  rep_nodes : hnodes m ≡ₚ bag;
  rep_nodup : NoDup (data bag)
}.

Lemma data_perm bag bag' : bag ≡ₚ bag' → data bag ≡ₚ data bag'.
Proof. apply fmap_Permutation. Qed.

(** Node addresses are distinct, so the address determines the node. *)
Lemma node_unique bag n n' :
  NoDup (data bag) → n ∈ bag → n' ∈ bag → hn_data n = hn_data n' → n = n'.
Proof.
  intros Hnd [i Hi]%list_elem_of_lookup [j Hj]%list_elem_of_lookup E.
  assert (i = j) as ->; [|congruence].
  eapply NoDup_lookup; [exact Hnd|apply list_lookup_fmap_Some_2, Hi|].
  rewrite E. apply list_lookup_fmap_Some_2, Hj.
Qed.

Lemma bucket_in_hnodes m h n : hmap_wf m → n ∈ hmap_first_in_bucket m h → n ∈ hnodes m.
Proof. intros Hwf Hn. by eapply in_bucket_hnodes. Qed.

Lemma represents_cons m bag bag' n n' :
  represents m bag → bag ≡ₚ n :: bag' → n' ∈ hnodes m → hn_data n' = hn_data n → n' = n.
Proof.
  intros [Hwf Hp Hnd] Hb Hn' E. eapply node_unique; [exact Hnd| | |done].
  - by rewrite <- Hp.
  - rewrite Hb. set_solver.
Qed.

Lemma hmap_clear_spec m : hmap_wf m → hmap_wf (hmap_clear m) ∧ hnodes (hmap_clear m) = [].
Proof.
  intros Hwf. unfold hmap_clear. destruct (Z.ltb_spec 0 (hm_n m)) as [Hn|Hn].
  - assert (Hnil : concat ((λ _, []) <$> hm_buckets m) = ([] : list (hnode A))).
    { induction (hm_buckets m) as [|c l IH]; [done|]. simpl. apply IH. }
    split; [|done]. split; simpl; [apply Hwf| | |unfold hnodes; simpl; by rewrite Hnil].
    + rewrite length_fmap. apply Hwf.
    + intros i c n. rewrite list_lookup_fmap. destruct (hm_buckets m !! i); [|done].
      intros [= <-]. set_solver.
  - split; [done|]. pose proof (wf_n m Hwf). destruct (hnodes m); [done|simpl in *; lia].
Qed.

Lemma hmap_step_represents m bag m' bag' :
  represents m bag → hmap_step (m, bag) (m', bag') → represents m' bag'.
Proof.
  intros Hrep Hstep. pose proof Hrep as [Hwf Hp Hnd].
  inversion Hstep as [? ? x h Hx|? ? x h Hx|? ? x h ? ? Hb Hr|? ? x y h ? ? Hb Hy Hr
    |? ?|? ?|? ? n Hn|? ?]; subst.
  - destruct (hmap_insert_spec m x h Hwf) as [? Hp']. split; [done|by rewrite Hp', Hp|].
    by apply NoDup_cons.
  - split; [by apply hmap_insert_fast_wf| |by apply NoDup_cons].
    by rewrite hmap_insert_fast_nodes, Hp.
  - destruct (hmap_remove_spec m _ h m' Hwf Hr) as (Hwf' & n & Hpn & Hin & Hq).
    apply bool_decide_eq_true in Hpn.
    assert (n = HNode h x) as -> by
      (eapply represents_cons; [done|done|by eapply bucket_in_hnodes|done]).
    assert (Hq' : HNode h x :: hnodes m' ≡ₚ HNode h x :: bag') by (by rewrite <- Hq, Hp, Hb).
    split; [done|by apply (Permutation_cons_inv Hq')|].
    rewrite (data_perm _ _ Hb) in Hnd. by apply NoDup_cons in Hnd as [_ ?].
  - destruct (hmap_replace_spec m _ h y m' Hwf Hr) as (Hwf' & n & rest & Hpn & Hin & Hq & Hq2).
    apply bool_decide_eq_true in Hpn.
    assert (n = HNode h x) as -> by
      (eapply represents_cons; [done|done|by eapply bucket_in_hnodes|done]).
    assert (Hq' : HNode h x :: rest ≡ₚ HNode h x :: bag'0) by (by rewrite <- Hq, Hp, Hb).
    split; [done|by rewrite Hq2, (Permutation_cons_inv Hq')|].
    rewrite (data_perm _ _ Hb) in Hnd. apply NoDup_cons in Hnd as [_ ?]. by apply NoDup_cons.
  - destruct (hmap_expand_spec m Hwf) as [? Hq]. split; [done|by rewrite Hq|done].
  - destruct (hmap_shrink_spec m Hwf) as [? Hq]. split; [done|by rewrite Hq|done].
  - unfold hmap_reserve_at. case_match; [|done].
    destruct (resize_spec m (calc_mask n)) as (? & Hq & _); [by apply calc_mask_nonneg|].
    split; [done|by rewrite Hq|done].
  - destruct (hmap_clear_spec m Hwf) as [? Hq]. split; [done|by rewrite Hq|apply NoDup_nil_2].
Qed.

Lemma hmap_steps_represents s s' :
  rtc hmap_step s s' → represents s.1 s.2 → represents s'.1 s'.2.
Proof.
  induction 1 as [|[m1 b1] [m2 b2] s3 Hs _ IH]; [done|]. intros Hr. apply IH.
  by eapply hmap_step_represents.
Qed.

Lemma hmap_init_represents : represents hmap_init [].
Proof. split; [apply hmap_init_wf|done|apply NoDup_nil_2]. Qed.

Lemma elem_of_data bag x : x ∈ data bag ↔ ∃ h, HNode h x ∈ bag.
Proof.
  unfold data. rewrite list_elem_of_fmap. split.
  - intros ([h y] & -> & Hn). by exists h.
  - intros [h Hn]. by exists (HNode h x).
Qed.

Lemma for_each_with_hash_exact m bag h x :
  represents m bag → x ∈ hmap_for_each_with_hash m h ↔ HNode h x ∈ bag.
Proof.
  intros [Hwf Hp _]. rewrite hmap_for_each_with_hash_nodes by done.
  rewrite list_elem_of_fmap. setoid_rewrite list_elem_of_filter. setoid_rewrite Hp. split.
  - intros ([h' y] & -> & <- & Hn). done.
  - intros Hn. by exists (HNode h x).
Qed.

Lemma hmap_contains_spec m bag h x :
  represents m bag → HNode h x ∈ bag → hmap_contains m (is_node x) h = true.
Proof.
  intros [Hwf Hp _] Hn. rewrite <- Hp in Hn. apply (hnodes_in_bucket m _ Hwf) in Hn.
  unfold hmap_contains. apply existsb_exists. exists (HNode h x).
  split; [by apply list_elem_of_In|]. by apply bool_decide_eq_true.
Qed.

(** C26: After any sequence of [hmap_insert], [hmap_insert_fast],
    [hmap_remove], [hmap_replace], [hmap_expand], [hmap_shrink],
    [hmap_reserve] and [hmap_clear] on an initially empty map, the map holds
    exactly the client's bag of nodes: [hmap_count] is its size,
    HMAP_FOR_EACH visits every node exactly once,
    HMAP_FOR_EACH_WITH_HASH visits exactly the nodes with that hash,
    [hmap_contains] finds every node of the map, and removing or replacing a
    node of the map never runs off the end of its chain. *)
Theorem hmap_refines_bag m bag :
  rtc hmap_step (hmap_init, []) (m, bag) →
  hmap_count m = Z.of_nat (length bag)
  ∧ hmap_for_each m ≡ₚ data bag ∧ NoDup (hmap_for_each m)
  ∧ (∀ h x, x ∈ hmap_for_each_with_hash m h ↔ HNode h x ∈ bag)
  ∧ ∀ h x y, HNode h x ∈ bag →
      hmap_contains m (is_node x) h = true
      ∧ is_Some (hmap_remove m (is_node x) h) ∧ is_Some (hmap_replace m (is_node x) h y).
Proof.
  intros Hs. pose proof (hmap_steps_represents _ _ Hs hmap_init_represents) as Hrep. simpl in Hrep.
  pose proof Hrep as [Hwf Hp Hnd].
  assert (Hfe : hmap_for_each m ≡ₚ data bag) by (rewrite hmap_for_each_nodes, Hp by done; done).
  split_and!.
  - unfold hmap_count. by rewrite (wf_n m Hwf), Hp.
  - done.
  - by rewrite Hfe.
  - intros h x. by apply for_each_with_hash_exact.
  - intros h x y Hn. split; [by eapply hmap_contains_spec|]. rewrite <- Hp in Hn. split.
    + by apply (hmap_remove_data m _ h x); [|done|apply bool_decide_eq_true].
    + by apply (hmap_replace_is_Some m _ (HNode h x)); [|done|apply bool_decide_eq_true].
Qed.

(** Iterating with [hmap_at_position], which keeps only a bucket and an
    offset between calls, visits the same nodes in the same order as
    HMAP_FOR_EACH and then stops. *)
Theorem hmap_at_position_correct m bag fuel :
  rtc hmap_step (hmap_init, []) (m, bag) → (length bag ≤ fuel)%nat →
  position_walk m fuel 0 0 = hmap_for_each m.
Proof.
  intros Hs Hf. destruct (hmap_steps_represents _ _ Hs hmap_init_represents) as [Hwf Hp _].
  apply position_walk_for_each; [done|]. simpl in *. by rewrite Hp.
Qed.
End refinement.

(** ** Table size *)

(** Buckets are a power of two, and there are at least half as many as nodes. *)
Definition loaded {A} (m : hmap A) : Prop :=
  is_pow2 (hm_mask m + 1) = true ∧ hm_n m / 2 ≤ hm_mask m.

Lemma resize_n {A} (m : hmap A) mask : hmap_wf m → 0 ≤ mask → hm_n (resize m mask) = hm_n m.
Proof.
  intros Hwf Hm. destruct (resize_spec m mask Hm) as (Hwf' & Hp & _).
  by rewrite (wf_n _ Hwf), (wf_n _ Hwf'), Hp.
Qed.

Lemma calc_mask_loaded {A} (m : hmap A) :
  hmap_wf m → is_u64 (hm_n m) → loaded (resize m (calc_mask (hm_n m))).
Proof.
  intros Hwf Hn. pose proof (calc_mask_nonneg (hm_n m) (hmap_n_nonneg m Hwf)) as Hnn.
  destruct (calc_mask_pow2 (hm_n m) Hn) as [Hpow Hle].
  destruct (resize_spec m (calc_mask (hm_n m)) Hnn) as (_ & _ & Hmask).
  unfold loaded. by rewrite Hmask, resize_n.
Qed.

(** The table grows with its contents: every insertion and every
    [hmap_shrink] leaves a power-of-two number of buckets with at least one
    bucket for every two nodes (so the size assertion of [resize] holds), as
    long as the node count fits a [size_t]. *)
Theorem hmap_load_bound {A} (m : hmap A) (x : A) (h : Z) :
  hmap_wf m → is_u64 (hm_n m + 1) → loaded m →
  loaded (hmap_insert_at m x h) ∧ loaded (hmap_shrink_at m) ∧ loaded (hmap_expand_at m).
Proof.
  intros Hwf Hn Hl. pose proof (hmap_n_nonneg m Hwf) as Hnn.
  assert (Hn' : is_u64 (hm_n m)) by (destruct Hn; split; lia).
  pose proof (calc_mask_loaded m Hwf Hn') as Hc.
  split_and!.
  - unfold hmap_insert_at. set (m' := hmap_insert_fast m x h).
    assert (Hwf' : hmap_wf m') by (by apply hmap_insert_fast_wf).
    destruct (Z.ltb_spec (hm_mask m') (hm_n m' / 2)) as [Hlt|Hge].
    + unfold hmap_expand_at. rewrite (proj2 (Z.ltb_lt _ _)); [by apply calc_mask_loaded|].
      destruct (calc_mask_pow2 (hm_n m') Hn) as [_ ?]. lia.
    + split; [apply Hl|done].
  - unfold hmap_shrink_at. by case_match.
  - unfold hmap_expand_at. by case_match.
Qed.

(** ** Examples *)

Definition ex_map : hmap Z := hmap_insert_at (hmap_insert_at (hmap_insert_at hmap_init 1 5) 2 9) 3 5.
Definition ex_bag : list (hnode Z) := [HNode 5 3; HNode 9 2; HNode 5 1].

Lemma ex_map_steps : rtc hmap_step (hmap_init, []) (ex_map, ex_bag).
Proof.
  unfold ex_map, ex_bag.
  eapply rtc_l; [apply (hms_insert _ _ 1 5), (bool_decide_unpack _); vm_compute; done|].
  eapply rtc_l; [apply (hms_insert _ _ 2 9), (bool_decide_unpack _); vm_compute; done|].
  eapply rtc_l; [apply (hms_insert _ _ 3 5), (bool_decide_unpack _); vm_compute; done|].
  apply rtc_refl.
Qed.

Lemma hmap_refines_bag_witness :
  hmap_for_each_with_hash ex_map 5 = [3; 1] ∧ hmap_for_each ex_map ≡ₚ [3; 2; 1]
  ∧ is_Some (hmap_remove ex_map (is_node 1) 5).
Proof.
  destruct (hmap_refines_bag ex_map ex_bag ex_map_steps) as (_ & Hf & _ & _ & Hr).
  split; [vm_compute; done|]. split; [apply Hf|].
  apply (Hr 5 1 0). by do 2 apply list_elem_of_further; apply list_elem_of_here.
Defined.

Lemma hmap_at_position_correct_witness : position_walk ex_map 3 0 0 = hmap_for_each ex_map.
Proof.
  by apply (hmap_at_position_correct ex_map ex_bag 3 ex_map_steps).
Defined.

Lemma hmap_load_bound_witness : loaded ex_map ∧ hm_mask ex_map = 3 ∧ loaded (hmap_insert_at ex_map 4 7).
Proof.
  assert (Hl : loaded ex_map) by (split; vm_compute; done).
  split; [done|]. split; [vm_compute; done|].
  apply (hmap_load_bound ex_map 4 7); [|split; vm_compute; done|done].
  apply (hmap_steps_represents _ _ ex_map_steps hmap_init_represents).
Defined.
