(* ===== verification/Shash.v ===== *)
(** * Hash maps with string keys (lib/shash.c, lib/shash.h)

    A shash is a hash map whose nodes carry a name and a datum.  A name is the
    bytes of a C string.  The operations that a client uses to keep names
    unique implement a finite map from names to data; the iteration visits
    every member once, in the order of the buckets, and [shash_sort] in the
    order of strcmp(). *)
From stdpp Require Import gmap sorting.
From S2P Require Import Prelude Hash Hmap.

(** hash_string() of lib/hash.h. *)
Definition hash_string (s : list Z) (basis : Z) : Z := hash_bytes s basis.

Record shash_node (A : Type) := ShashNode { sn_name : list Z; sn_data : A }.
Arguments ShashNode {A}.
Arguments sn_name {A}.
Arguments sn_data {A}.

Definition shash (A : Type) : Type := hmap (shash_node A).

(** The sign of strcmp(), which compares bytes as unsigned characters. *)
Fixpoint strcmp (a b : list Z) : Z :=
  match a, b with
  | [], [] => 0
  | [], _ => -1
  | _, [] => 1
  | x :: a, y :: b => if x <? y then -1 else if y <? x then 1 else strcmp a b
  end.

Lemma strcmp_refl a : strcmp a a = 0.
Proof. induction a as [|x a IH]; [done|]. simpl. by rewrite Z.ltb_irrefl. Qed.

Lemma strcmp_eq a b : strcmp a b = 0 → a = b.
Proof.
  revert b. induction a as [|x a IH]; intros [|y b]; simpl; try done.
  destruct (Z.ltb_spec x y); [done|]. destruct (Z.ltb_spec y x); [done|]. intros H'%IH. by assert (x = y) as -> by lia; subst.
Qed.

Lemma strcmp_opp a b : strcmp b a = - strcmp a b.
Proof.
  revert b. induction a as [|x a IH]; intros [|y b]; simpl; try done.
  destruct (Z.ltb_spec x y), (Z.ltb_spec y x); try done; lia.
Qed.

Lemma strcmp_trans a b c : strcmp a b ≤ 0 → strcmp b c ≤ 0 → strcmp a c ≤ 0.
Proof.
  revert b c. induction a as [|x a IH]; intros [|y b] [|z c]; simpl; try lia; try done.
  destruct (Z.ltb_spec x y), (Z.ltb_spec y z), (Z.ltb_spec x z); try lia;
    destruct (Z.ltb_spec y x), (Z.ltb_spec z y), (Z.ltb_spec z x); try lia. apply IH.
Qed.

Section shash.
Context {A : Type}.
Implicit Types (sh : shash A) (name : list Z) (data : A).

Definition hash_name name : Z := hash_string name 0.

Definition shash_init : shash A := hmap_init.
Definition shash_is_empty sh : bool := hmap_is_empty sh.
Definition shash_count sh : Z := hmap_count sh.

Definition has_name name (n : shash_node A) : bool := bool_decide (sn_name n = name).

Definition shash_add_nocopy__ sh name data (hash : Z) : shash A := hmap_insert_at sh (ShashNode name data) hash.
Definition shash_add sh name data : shash A := shash_add_nocopy__ sh name data (hash_name name).

Definition shash_find__ sh name (hash : Z) : option (shash_node A) := find (has_name name) (hmap_for_each_with_hash sh hash).
Definition shash_find sh name : option (shash_node A) := shash_find__ sh name (hash_name name).
Definition shash_find_data sh name : option A := sn_data <$> shash_find sh name.

Definition shash_add_once sh name data : shash A * bool :=
  match shash_find sh name with
  | None => (shash_add sh name data, true)
  | Some _ => (sh, false)
  end.

(** [None] when the assertion fails. *)
Definition shash_add_assert sh name data : option (shash A) :=
  let '(sh, added) := shash_add_once sh name data in if added then Some sh else None.

(** With the datum that the name had before. *)
Definition shash_replace sh name data : shash A * option A :=
  let hash := hash_name name in
  match shash_find__ sh name hash with
  | None => (shash_add_nocopy__ sh name data hash, None)
  | Some node =>
      (default sh (hmap_replace sh (has_name name) hash (ShashNode (sn_name node) data)), Some (sn_data node))
  end.

(** A node is known by its name. *)
Definition shash_steal sh (node : shash_node A) : option (list Z * shash A) :=
  sh ← hmap_remove sh (has_name (sn_name node)) (hash_name (sn_name node));
  Some (sn_name node, sh).
Definition shash_delete sh node : option (shash A) := snd <$> shash_steal sh node.

Definition shash_find_and_delete sh name : option (option A * shash A) :=
  match shash_find sh name with
  | Some node => sh ← shash_delete sh node; Some (Some (sn_data node), sh)
  | None => Some (None, sh)
  end.

(** The walk is safe against the removal of the node it is at. *)
Definition shash_clear sh : option (shash A) :=
  foldl (λ (s : option (shash A)) node, s' ← s; shash_delete s' node) (Some sh) (hmap_for_each sh).

Definition shash_first sh : option (shash_node A) := hn_data <$> head (hmap_first sh).

Definition node_le (a b : shash_node A) : Prop := strcmp (sn_name a) (sn_name b) ≤ 0.
#[global] Instance node_le_dec a b : Decision (node_le a b).
Proof. unfold node_le. apply _. Defined.

(** The nodes collected number [n] as the code asserts ([shash_sort_asserts]);
    the null pointer of an empty map is the empty list. *)
Definition shash_sort sh : list (shash_node A) := if shash_is_empty sh then [] else merge_sort node_le (hmap_for_each sh).

Definition shash_equal_keys (a b : shash A) : bool :=
  (hmap_count a =? hmap_count b)
  && forallb (λ node, bool_decide (is_Some (shash_find b (sn_name node)))) (hmap_for_each a).

(** ** The finite map *)

Definition members sh : list (list Z * A) := (λ n, (sn_name (hn_data n), sn_data (hn_data n))) <$> hnodes sh.
Definition shash_map sh : gmap (list Z) A := list_to_map (members sh).

Record shash_ok sh : Prop := {
  so_wf : hmap_wf sh;
  so_hash : Forall (λ n, hn_hash n = hash_name (sn_name (hn_data n))) (hnodes sh);
  so_names : NoDup (members sh).*1
}.

Lemma shash_init_ok : shash_ok shash_init ∧ shash_map shash_init = ∅.
Proof. split; [|done]. split; [apply hmap_init_wf|constructor|constructor]. Qed.

Lemma members_perm sh sh' : hnodes sh ≡ₚ hnodes sh' → members sh ≡ₚ members sh'.
Proof. intros H. by apply fmap_Permutation. Qed.

Lemma find_with_hash sh name :
  shash_ok sh → shash_find sh name = find (has_name name) (hn_data <$> hnodes sh).
Proof.
  intros [Hwf Hh _]. unfold shash_find, shash_find__. rewrite hmap_for_each_with_hash_nodes by done.
  induction (hnodes sh) as [|n ns IH]; [done|]. apply Forall_cons in Hh as [Hn Hh]. rewrite filter_cons.
  specialize (IH Hh). case_decide as Hd; rewrite ?fmap_cons; cbn [find]; [by rewrite <- IH|]. unfold has_name at 2. rewrite bool_decide_eq_false_2; [done|].
  intros Hname. apply Hd. by rewrite Hn, Hname.
Qed.

Lemma shash_find_map sh name :
  shash_ok sh → shash_find sh name = (ShashNode name <$> shash_map sh !! name).
Proof.
  intros Hok. rewrite find_with_hash by done. unfold shash_map, members. clear Hok.
  induction (hnodes sh) as [|[h [k d]] ns IH]; [done|]. simpl. unfold has_name at 1. simpl.
  destruct (decide (k = name)) as [->|Hne].
  - rewrite bool_decide_eq_true_2 by done. by rewrite lookup_insert_eq.
  - rewrite bool_decide_eq_false_2 by done. by rewrite lookup_insert_ne.
Qed.

Lemma map_members sh name d : shash_ok sh → shash_map sh !! name = Some d ↔ (name, d) ∈ members sh.
Proof. intros Hok. symmetry. apply elem_of_list_to_map, Hok. Qed.

Lemma shash_ok_cons sh sh' name d :
  shash_ok sh → hmap_wf sh' → shash_map sh !! name = None →
  hnodes sh' ≡ₚ HNode (hash_name name) (ShashNode name d) :: hnodes sh →
  shash_ok sh' ∧ shash_map sh' = <[name := d]> (shash_map sh).
Proof.
  intros Hok Hwf Hnone Hp. pose proof (fmap_Permutation (λ n, (sn_name (hn_data n), sn_data (hn_data n))) _ _ Hp) as Hm.
  fold (members sh') in Hm. simpl in Hm. fold (members sh) in Hm.
  assert (Hnd : NoDup (members sh').*1).
  { rewrite Hm. simpl. constructor; [|apply Hok]. unfold shash_map in Hnone. by apply not_elem_of_list_to_map_2 in Hnone. }
  split; [split; [done| |done]|].
  - rewrite Hp. constructor; [done|apply Hok].
  - unfold shash_map. by rewrite (list_to_map_proper (members sh') _ Hnd Hm).
Qed.

Lemma shash_add_spec sh name d :
  shash_ok sh → shash_map sh !! name = None →
  shash_ok (shash_add sh name d) ∧ shash_map (shash_add sh name d) = <[name := d]> (shash_map sh).
Proof. intros Hok Hn. destruct (hmap_insert_spec sh (ShashNode name d) (hash_name name) (so_wf _ Hok)). by apply shash_ok_cons. Qed.

Lemma shash_delete_spec sh name d :
  shash_ok sh → shash_map sh !! name = Some d →
  ∃ sh', shash_delete sh (ShashNode name d) = Some sh' ∧ shash_ok sh' ∧ shash_map sh' = delete name (shash_map sh)
         ∧ shash_map sh' !! name = None ∧ hnodes sh ≡ₚ HNode (hash_name name) (ShashNode name d) :: hnodes sh'.
Proof.
  intros Hok Hd. pose proof Hd as Hin. apply map_members, list_elem_of_fmap in Hin as ([h [k d']] & [= -> ->] & Hin); [|done].
  pose proof (so_hash _ Hok) as Hh. rewrite Forall_forall in Hh. pose proof (Hh _ Hin) as Hx. simpl in Hx. subst h.
  destruct (hmap_remove_data sh (has_name k) (hash_name k) (ShashNode k d') (so_wf _ Hok) Hin) as [sh' Hr].
  { by apply bool_decide_eq_true_2. }
  exists sh'. unfold shash_delete, shash_steal. simpl. rewrite Hr. split; [done|].
  destruct (hmap_remove_spec sh _ _ sh' (so_wf _ Hok) Hr) as (Hwf & [h' [k' d'']] & Hp & Hb & Hperm).
  apply bool_decide_eq_true_1 in Hp. simpl in Hp. subst k'.
  assert (Hin' : HNode h' (ShashNode k d'') ∈ hnodes sh) by (rewrite Hperm; by left).
  pose proof (Hh _ Hin') as Hx. simpl in Hx. subst h'.
  assert (d'' = d') as ->.
  { assert (Hm : (k, d'') ∈ members sh) by (apply list_elem_of_fmap; by exists (HNode (hash_name k) (ShashNode k d''))).
    apply map_members in Hm; [|done]. congruence. }
  assert (Hm : members sh ≡ₚ (k, d') :: members sh') by (unfold members; by rewrite Hperm).
  assert (Hnd : NoDup ((k, d') :: members sh').*1) by (rewrite <- Hm; apply Hok).
  assert (Hmap : shash_map sh = <[k := d']> (shash_map sh')).
  { unfold shash_map. by rewrite (list_to_map_proper (members sh) _ (so_names _ Hok) Hm). }
  simpl in Hnd. apply NoDup_cons in Hnd as [Hk Hnd].
  assert (Hn : shash_map sh' !! k = None) by (by apply not_elem_of_list_to_map_1).
  split_and!; [split; [done| |done]|by rewrite Hmap, delete_insert_id|done|done].
  apply Forall_forall. intros n Hn'. apply Hh. rewrite Hperm. by right.
Qed.

(** The only node with a given name. *)
Lemma node_of_name sh h name d :
  shash_ok sh → HNode h (ShashNode name d) ∈ hnodes sh → h = hash_name name ∧ shash_map sh !! name = Some d.
Proof.
  intros Hok Hin. pose proof (so_hash _ Hok) as Hh. rewrite Forall_forall in Hh. split; [by apply (Hh _ Hin)|].
  apply map_members; [done|]. apply list_elem_of_fmap. by exists (HNode h (ShashNode name d)).
Qed.

Lemma name_has_node sh name d :
  shash_ok sh → shash_map sh !! name = Some d → HNode (hash_name name) (ShashNode name d) ∈ hnodes sh.
Proof.
  intros Hok Hd. apply map_members, list_elem_of_fmap in Hd as ([h [k d']] & [= -> ->] & Hin); [|done].
  by destruct (node_of_name sh h k d' Hok Hin) as [-> _].
Qed.

Lemma shash_replace_spec sh name d :
  shash_ok sh →
  let '(sh', old) := shash_replace sh name d in
  shash_ok sh' ∧ shash_map sh' = <[name := d]> (shash_map sh) ∧ old = shash_map sh !! name.
Proof.
  intros Hok. unfold shash_replace. fold (shash_find sh name). rewrite shash_find_map by done.
  destruct (shash_map sh !! name) as [d0|] eqn:Hd; simpl; [|by destruct (shash_add_spec sh name d Hok Hd)].
  destruct (hmap_replace_is_Some sh (has_name name) _ (ShashNode name d) (so_wf _ Hok) (name_has_node sh name d0 Hok Hd))
    as [sh' Hr]; [by apply bool_decide_eq_true_2|]. simpl in Hr. rewrite Hr. simpl.
  destruct (hmap_replace_spec _ _ _ _ _ (so_wf _ Hok) Hr) as (Hwf & [h [k d1]] & rest & Hk & Hb & Hp & Hp').
  apply bool_decide_eq_true_1 in Hk. simpl in Hk, Hp'. subst k.
  destruct (node_of_name sh h name d1 Hok) as [-> Hd1]; [rewrite Hp; by left|]. rewrite Hd in Hd1. injection Hd1 as <-.
  assert (Hm : members sh ≡ₚ (name, d0) :: ((λ n, (sn_name (hn_data n), sn_data (hn_data n))) <$> rest)) by (unfold members; by rewrite Hp).
  assert (Hm' : members sh' ≡ₚ (name, d) :: ((λ n, (sn_name (hn_data n), sn_data (hn_data n))) <$> rest)) by (unfold members; by rewrite Hp').
  assert (Hnd : NoDup (members sh').*1) by (pose proof (so_names _ Hok) as H; rewrite Hm in H; by rewrite Hm').
  split_and!; [split; [done| |done]| |done].
  - rewrite Hp'. pose proof (so_hash _ Hok) as H. rewrite Hp in H. apply Forall_cons in H as [_ H]. by constructor.
  - unfold shash_map. rewrite (list_to_map_proper _ _ Hnd Hm'), (list_to_map_proper _ _ (so_names _ Hok) Hm). simpl.
    by rewrite insert_insert_eq.
Qed.

Lemma for_each_members sh :
  shash_ok sh → (λ n, (sn_name n, sn_data n)) <$> hmap_for_each sh = members sh.
Proof. intros Hok. rewrite hmap_for_each_nodes by apply Hok. unfold members. by rewrite <- list_fmap_compose. Qed.

Lemma shash_count_map sh : shash_ok sh → shash_count sh = Z.of_nat (size (shash_map sh)).
Proof.
  intros Hok. unfold shash_count, hmap_count. rewrite (wf_n sh (so_wf _ Hok)). f_equal.
  unfold shash_map. rewrite map_size_list_to_map by apply Hok. unfold members. by rewrite length_fmap.
Qed.

Lemma shash_is_empty_map sh : shash_ok sh → shash_is_empty sh = bool_decide (shash_map sh = ∅).
Proof.
  intros Hok. pose proof (shash_count_map sh Hok) as Hc. unfold shash_is_empty, hmap_is_empty, shash_count, hmap_count in *.
  rewrite Hc. apply Bool.eq_iff_eq_true. rewrite Z.eqb_eq, bool_decide_eq_true, <- map_size_empty_iff. lia.
Qed.

Lemma shash_clear_spec sh : shash_ok sh → ∃ sh', shash_clear sh = Some sh' ∧ shash_ok sh' ∧ shash_map sh' = ∅.
Proof.
  intros Hok. unfold shash_clear. rewrite hmap_for_each_nodes by apply Hok.
  assert (H : ∀ ns sh, shash_ok sh → hnodes sh ≡ₚ ns →
    ∃ sh', foldl (λ (s : option (shash A)) node, s' ← s; shash_delete s' node) (Some sh) (hn_data <$> ns) = Some sh'
           ∧ shash_ok sh' ∧ hnodes sh' = []).
  { induction ns as [|[h [k d]] ns IH]; intros s Hs Hp; simpl.
    { exists s. split_and!; [done..|]. by apply Permutation_nil_r. }
    destruct (node_of_name s h k d Hs) as [-> Hd]; [rewrite Hp; by left|].
    destruct (shash_delete_spec s k d Hs Hd) as (s' & -> & Hs' & _ & _ & Hp'). apply IH; [done|].
    rewrite Hp in Hp'. by apply Permutation_cons_inv in Hp'. }
  destruct (H (hnodes sh) sh Hok) as (sh' & Hf & Hs & Hn); [done|]. exists sh'. split_and!; [done..|].
  unfold shash_map, members. by rewrite Hn.
Qed.

Lemma shash_equal_keys_map (a b : shash A) :
  shash_ok a → shash_ok b → shash_equal_keys a b = bool_decide (dom (shash_map a) = dom (shash_map b)).
Proof.
  intros Ha Hb. unfold shash_equal_keys. fold (shash_count a) (shash_count b). rewrite !shash_count_map by done.
  apply Bool.eq_iff_eq_true. rewrite andb_true_iff, Z.eqb_eq, bool_decide_eq_true, List.forallb_forall.
  assert (Hsub : (∀ x, In x (hmap_for_each a) → bool_decide (is_Some (shash_find b (sn_name x))) = true) ↔
                 dom (shash_map a) ⊆ dom (shash_map b)).
  { split.
    - intros H k Hk. apply elem_of_dom in Hk as [d Hd]. rewrite elem_of_dom.
      assert (Hin : In (ShashNode k d) (hmap_for_each a)).
      { rewrite hmap_for_each_nodes by apply Ha. apply list_elem_of_In, list_elem_of_fmap. eexists. split; [|by apply name_has_node]. done. }
      specialize (H _ Hin). apply bool_decide_eq_true_1 in H. rewrite shash_find_map in H by done. simpl in H.
      by apply fmap_is_Some in H.
    - intros H [k d] Hin. rewrite hmap_for_each_nodes in Hin by apply Ha. apply list_elem_of_In, list_elem_of_fmap in Hin as ([h n] & Hn & Hin).
      simpl in Hn. subst n.
      destruct (node_of_name a h k d Ha Hin) as [_ Hd]. apply bool_decide_eq_true_2. rewrite shash_find_map by done. simpl.
      apply fmap_is_Some, elem_of_dom, H, elem_of_dom. by exists d. }
  rewrite Hsub. rewrite <- !size_dom. split.
  - intros [Hn Hs]. apply set_subseteq_size_eq; [done|lia].
  - intros ->. done.
Qed.

#[global] Instance node_le_trans : Transitive node_le.
Proof. intros a b c. apply strcmp_trans. Qed.
#[global] Instance node_le_total : Total node_le.
Proof. intros a b. unfold node_le. rewrite (strcmp_opp (sn_name a) (sn_name b)). lia. Qed.

Lemma shash_sort_spec sh :
  shash_ok sh → Sorted node_le (shash_sort sh) ∧ (λ n, (sn_name n, sn_data n)) <$> shash_sort sh ≡ₚ members sh.
Proof.
  intros Hok. unfold shash_sort. rewrite <- for_each_members by done. rewrite shash_is_empty_map by done.
  case_bool_decide as He.
  - split; [constructor|]. pose proof (shash_count_map sh Hok) as Hc. rewrite He in Hc. unfold shash_count, hmap_count in Hc.
    rewrite (wf_n sh (so_wf _ Hok)) in Hc. rewrite hmap_for_each_nodes by apply Hok. by destruct (hnodes sh).
  - split; [apply Sorted_merge_sort, _|]. by rewrite merge_sort_Permutation.
Qed.

(** The assertion of shash_sort(). *)
Lemma shash_sort_asserts sh : shash_ok sh → Z.of_nat (length (hmap_for_each sh)) = shash_count sh.
Proof.
  intros Hok. unfold shash_count, hmap_count. rewrite (wf_n sh (so_wf _ Hok)), hmap_for_each_nodes by apply Hok. by rewrite length_fmap.
Qed.

Lemma node_of_pairs (ns : list (shash_node A)) :
  ns = (λ p, ShashNode p.1 p.2) <$> ((λ n, (sn_name n, sn_data n)) <$> ns).
Proof. rewrite <- list_fmap_compose. induction ns as [|[] ns IH]; [done|]. simpl. by f_equal. Qed.

Lemma sort_nodes sh n : shash_ok sh → n ∈ shash_sort sh → shash_map sh !! sn_name n = Some (sn_data n).
Proof.
  intros Hok Hn. apply map_members; [done|]. destruct (shash_sort_spec sh Hok) as [_ <-]. apply list_elem_of_fmap. by exists n.
Qed.

(** The sorted order does not depend on the buckets. *)
Lemma shash_sort_unique (a b : shash A) : shash_ok a → shash_ok b → shash_map a = shash_map b → shash_sort a = shash_sort b.
Proof.
  intros Ha Hb Hab. destruct (shash_sort_spec a Ha) as [Sa Pa]. destruct (shash_sort_spec b Hb) as [Sb Pb].
  apply (Sorted_unique_strong node_le); [|done|done|].
  - intros [k d] [k' d'] H1%sort_nodes H2%sort_nodes L1 L2; [|done|done]. unfold node_le in *. simpl in *.
    rewrite strcmp_opp in L2. assert (k = k') as -> by (apply strcmp_eq; lia). congruence.
  - rewrite (node_of_pairs (shash_sort a)), (node_of_pairs (shash_sort b)). apply fmap_Permutation. rewrite Pa, Pb.
    apply list_to_map_inj; [apply Ha|apply Hb|done].
Qed.

(** ** Refinement *)

(** The calls of a client that keeps the names unique: shash_add() of a name
    that is there would make it a multimap, and clients call it only for new
    names, as shash_add_once() does. *)
Inductive shash_op :=
| Shash_add_once (name : list Z) (data : A)
| Shash_replace (name : list Z) (data : A)
| Shash_find_and_delete (name : list Z)
| Shash_clear.

Definition shash_exec sh (op : shash_op) : option (shash A) :=
  match op with
  | Shash_add_once name data => Some (shash_add_once sh name data).1
  | Shash_replace name data => Some (shash_replace sh name data).1
  | Shash_find_and_delete name => snd <$> shash_find_and_delete sh name
  | Shash_clear => shash_clear sh
  end.

Definition map_exec (m : gmap (list Z) A) (op : shash_op) : gmap (list Z) A :=
  match op with
  | Shash_add_once name data => match m !! name with None => <[name := data]> m | Some _ => m end
  | Shash_replace name data => <[name := data]> m
  | Shash_find_and_delete name => delete name m
  | Shash_clear => ∅
  end.

Definition shash_run (ops : list shash_op) : option (shash A) :=
  foldl (λ (s : option (shash A)) op, s' ← s; shash_exec s' op) (Some shash_init) ops.

Lemma shash_exec_spec sh op :
  shash_ok sh → ∃ sh', shash_exec sh op = Some sh' ∧ shash_ok sh' ∧ shash_map sh' = map_exec (shash_map sh) op.
Proof.
  intros Hok. destruct op as [k d|k d|k|]; simpl.
  - unfold shash_add_once. rewrite shash_find_map by done. destruct (shash_map sh !! k) eqn:Hk; simpl; [by eexists|].
    eexists. split; [done|]. by apply shash_add_spec.
  - pose proof (shash_replace_spec sh k d Hok) as H. destruct (shash_replace sh k d) as [sh' old]. exists sh'. by destruct H as (? & ? & _).
  - unfold shash_find_and_delete. rewrite shash_find_map by done. destruct (shash_map sh !! k) as [d|] eqn:Hk; simpl.
    + destruct (shash_delete_spec sh k d Hok Hk) as (sh' & -> & ? & ? & _). by exists sh'.
    + exists sh. by rewrite delete_id.
  - by apply shash_clear_spec.
Qed.

Lemma shash_run_ok ops :
  ∃ sh, shash_run ops = Some sh ∧ shash_ok sh ∧ shash_map sh = foldl map_exec ∅ ops.
Proof.
  destruct shash_init_ok as [Hok He]. unfold shash_run. rewrite <- He. revert Hok. generalize shash_init as sh.
  induction ops as [|op ops IH]; intros sh Hok; simpl; [by exists sh|].
  destruct (shash_exec_spec sh op Hok) as (sh' & -> & Hok' & <-). by apply IH.
Qed.

(** C25: used without duplicate names, a shash implements a finite map from
    names to data.  After any sequence of calls of shash_add_once(),
    shash_replace(), shash_find_and_delete() and shash_clear() it holds the map
    that the same updates of a map give; looking up, counting, deleting,
    comparing the names and the datum returned by a replacement agree with the
    map; shash_add_assert() fails exactly for a name that is there; the
    iteration visits every member once, and sorting lists the members in the
    order of strcmp(). *)
Theorem shash_refines_map ops ops' :
  ∃ sh sh', shash_run ops = Some sh ∧ shash_run ops' = Some sh'
  ∧ let m := foldl map_exec ∅ ops in
    (∀ k, shash_find_data sh k = m !! k)
    ∧ (∀ k d, (shash_replace sh k d).2 = m !! k ∧ (shash_add_once sh k d).2 = bool_decide (m !! k = None)
              ∧ fst <$> shash_find_and_delete sh k = Some (m !! k) ∧ (shash_add_assert sh k d = None ↔ is_Some (m !! k)))
    ∧ shash_count sh = Z.of_nat (size m) ∧ shash_is_empty sh = bool_decide (m = ∅)
    ∧ (λ n, (sn_name n, sn_data n)) <$> hmap_for_each sh ≡ₚ map_to_list m
    ∧ (λ n, (sn_name n, sn_data n)) <$> shash_sort sh ≡ₚ map_to_list m ∧ Sorted node_le (shash_sort sh)
    ∧ shash_equal_keys sh sh' = bool_decide (dom m = dom (foldl map_exec ∅ ops')).
Proof.
  destruct (shash_run_ok ops) as (sh & Hr & Hok & <-). destruct (shash_run_ok ops') as (sh2 & Hr2 & Hok2 & <-).
  exists sh, sh2. split_and!; [done..|]. cbv zeta.
  assert (Hl : members sh ≡ₚ map_to_list (shash_map sh)) by (symmetry; apply map_to_list_to_map, Hok).
  destruct (shash_sort_spec sh Hok) as [Hs Hp].
  split_and!.
  - intros k. unfold shash_find_data. rewrite shash_find_map by done. by destruct (shash_map sh !! k).
  - intros k d. split_and!.
    + pose proof (shash_replace_spec sh k d Hok) as H. destruct (shash_replace sh k d) as [sh' old]. by destruct H as (_ & _ & ->).
    + unfold shash_add_once. rewrite shash_find_map by done. by destruct (shash_map sh !! k).
    + unfold shash_find_and_delete. rewrite shash_find_map by done. destruct (shash_map sh !! k) as [d'|] eqn:Hk; [|done]. simpl.
      by destruct (shash_delete_spec sh k d' Hok Hk) as (sh' & -> & _).
    + unfold shash_add_assert, shash_add_once. rewrite shash_find_map by done. by destruct (shash_map sh !! k) eqn:Hk; simpl.
  - by apply shash_count_map.
  - by apply shash_is_empty_map.
  - by rewrite for_each_members.
  - by rewrite Hp.
  - done.
  - by apply shash_equal_keys_map.
Qed.

End shash.
