(* ===== verification/Text.v ===== *)
(** * Text (lib/util.c, lib/dynamic-string.c, lib/unicode.c and C's text conversions)

    A C string is the list of its bytes.  Characters and string literals,
    decimal and hexadecimal digits, the conversions of printf() that the
    program uses and strtod() on decimal numbers, UTF-8.  A double is the
    64-bit pattern of IEEE 754 binary64. *)
From stdpp Require Export strings.
From stdpp Require Import base list.
From S2P Require Import Prelude.


(** ** Characters and literals *)

Definition byte_of (a : Ascii.ascii) : Z := Z.of_N (Ascii.N_of_ascii a).

Fixpoint bytes (s : string) : list Z :=
  match s with
  | String.EmptyString => []
  | String.String a s => byte_of a :: bytes s
  end.

(** The character of a literal of length one. *)
Definition chr (s : string) : Z := match s with String.String a _ => byte_of a | String.EmptyString => 0 end.
Definition c_quote : Z := 34.

(** The C string in a buffer ends at the first null byte. *)
Fixpoint cstr (buf : list Z) : list Z :=
  match buf with
  | [] => []
  | c :: buf => if c =? 0 then [] else c :: cstr buf
  end.

(** The character at a pointer into a string. *)
Definition at_ptr (cp : list Z) : Z := match cp with c :: _ => c | [] => 0 end.

(** <ctype.h> in the C locale. *)
Definition isdigit (c : Z) : bool := (chr "0" <=? c) && (c <=? chr "9").
Definition islower (c : Z) : bool := (chr "a" <=? c) && (c <=? chr "z").
Definition isupper (c : Z) : bool := (chr "A" <=? c) && (c <=? chr "Z").
Definition isalpha (c : Z) : bool := islower c || isupper c.
Definition isprint (c : Z) : bool := (32 <=? c) && (c <=? 126).

(** ** Integers *)

(** The digits of a number, most significant first, before [acc]. *)
Fixpoint digits_loop (fuel : nat) (base n : Z) (acc : list Z) : list Z :=
  match fuel with
  | O => acc
  | S fuel =>
      let d := n mod base in
      let acc := (if d <? 10 then chr "0" + d else chr "a" + d - 10) :: acc in
      if n <? base then acc else digits_loop fuel base (n / base) acc
  end.

(** A number has at most as many digits as bits. *)
Definition put_digits (base n : Z) : list Z := digits_loop (S (Z.to_nat (Z.log2 n))) base n [].

(** "%d" and "%lld". *)
Definition put_int (n : Z) : list Z := if n <? 0 then chr "-" :: put_digits 10 (- n) else put_digits 10 n.

(** "%0wx". *)
Definition pad_zeros (w : nat) (s : list Z) : list Z := replicate (w - length s) (chr "0") ++ s.
Definition put_hex (w : nat) (n : Z) : list Z := pad_zeros w (put_digits 16 n).
(** "%0wX". *)
Definition toupper (c : Z) : Z := if islower c then c - 32 else c.
Definition put_HEX (w : nat) (n : Z) : list Z := toupper <$> put_hex w n.

(** hexit_value() and hexits_value(), with UINT_MAX for a bad digit. *)
Definition UINT_MAX : Z := 2 ^ 32 - 1.

Definition hexit_value (c : Z) : Z :=
  if isdigit c then c - chr "0"
  else if (chr "a" <=? c) && (c <=? chr "f") then c - chr "a" + 10
  else if (chr "A" <=? c) && (c <=? chr "F") then c - chr "A" + 10
  else -1.

Fixpoint hexits_loop (value : Z) (s : list Z) : Z :=
  match s with
  | [] => value
  | c :: s =>
      let hexit := hexit_value c in
      if hexit <? 0 then UINT_MAX else hexits_loop (u32 (Z.shiftl value 4 + hexit)) s
  end.
Definition hexits_value (s : list Z) : Z := hexits_loop 0 s.

(** ** Unicode *)

Definition uc_is_leading_surrogate (c : Z) : bool := (0xd800 <=? c) && (c <=? 0xdbff).
Definition uc_is_trailing_surrogate (c : Z) : bool := (0xdc00 <=? c) && (c <=? 0xdfff).

Definition utf16_decode_surrogate_pair (leading trailing : Z) : Z :=
  let w := Z.land (Z.shiftr leading 6) 0xf in
  let u := w + 1 in
  let x0 := Z.land leading 0x3f in
  let x1 := Z.land trailing 0x3ff in
  Z.lor (Z.lor (Z.shiftl u 16) (Z.shiftl x0 10)) x1.

(** The bytes that ds_put_utf8() appends. *)
Definition put_utf8 (uc : Z) : list Z :=
  if uc <=? 0x7f then [uc]
  else if uc <=? 0x7ff then [Z.lor 0xc0 (Z.shiftr uc 6); Z.lor 0x80 (Z.land uc 0x3f)]
  else if uc <=? 0xffff then
    [Z.lor 0xe0 (Z.shiftr uc 12); Z.lor 0x80 (Z.land (Z.shiftr uc 6) 0x3f); Z.lor 0x80 (Z.land uc 0x3f)]
  else if uc <=? 0x10ffff then
    [Z.lor 0xf0 (Z.shiftr uc 18); Z.lor 0x80 (Z.land (Z.shiftr uc 12) 0x3f);
     Z.lor 0x80 (Z.land (Z.shiftr uc 6) 0x3f); Z.lor 0x80 (Z.land uc 0x3f)]
  else [0xef; 0xbf; 0xbd].

(** The number of characters of a UTF-8 string: bytes that do not continue
    one. *)
Fixpoint utf8_length (s : list Z) : Z :=
  match s with
  | [] => 0
  | c :: s => (if negb (Z.land c 0xc0 =? 0x80) then 1 else 0) + utf8_length s
  end.

(** For each kind of sequence the ranges of its bytes. *)
Definition utf8_seqs : list (list (Z * Z)) :=
  [[(0x01, 0x7f)];
   [(0xc2, 0xdf); (0x80, 0xbf)];
   [(0xe0, 0xe0); (0xa0, 0xbf); (0x80, 0xbf)];
   [(0xe1, 0xec); (0x80, 0xbf); (0x80, 0xbf)];
   [(0xed, 0xed); (0x80, 0x9f); (0x80, 0xbf)];
   [(0xee, 0xef); (0x80, 0xbf); (0x80, 0xbf)];
   [(0xf0, 0xf0); (0x90, 0xbf); (0x80, 0xbf); (0x80, 0xbf)];
   [(0xf1, 0xf3); (0x80, 0xbf); (0x80, 0xbf); (0x80, 0xbf)];
   [(0xf4, 0xf4); (0x80, 0x8f); (0x80, 0xbf); (0x80, 0xbf)]].

Definition in_range (c : Z) (r : Z * Z) : bool := (r.1 <=? c) && (c <=? r.2).

Definition lookup_utf8_sequence (c : Z) : option (list (Z * Z)) :=
  find (λ seq, match seq with r :: _ => in_range c r | [] => false end) utf8_seqs.

(** The bytes after the first of a sequence; the string ends with a null
    byte, which is in no range. *)
Fixpoint match_octets (seq : list (Z * Z)) (s : list Z) : option (list Z) :=
  match seq, s with
  | [], _ => Some s
  | r :: seq, c :: s => if in_range c r then match_octets seq s else None
  | _ :: _, [] => None
  end.

(** The number of characters, or [None] for an invalid string.  Every round
    takes a byte at least. *)
Fixpoint utf8_validate_loop (fuel : nat) (s : list Z) (length : Z) : option Z :=
  match fuel, s with
  | _, [] => Some length
  | S fuel, c :: s' =>
      if c <? 0x80 then utf8_validate_loop fuel s' (length + 1)
      else
        seq ← lookup_utf8_sequence c;
        s'' ← match_octets (tail seq) s';
        utf8_validate_loop fuel s'' (length + 1)
  | O, _ => None
  end.
Definition utf8_validate (s : list Z) : option Z := utf8_validate_loop (List.length s) s 0.

(** ** Doubles *)

Inductive double_class := Double_nan | Double_inf (negative : bool) | Double_finite (negative : bool) (m e : Z).

(** A finite double is m * 2^e. *)
Definition double_classify (x : Z) : double_class :=
  let neg := Z.testbit x 63 in
  let be := Z.land (Z.shiftr x 52) 0x7ff in
  let frac := Z.land x (2 ^ 52 - 1) in
  if be =? 0x7ff then if frac =? 0 then Double_inf neg else Double_nan
  else if be =? 0 then Double_finite neg frac (-1074)
  else Double_finite neg (frac + 2 ^ 52) (be - 1075).

Definition double_is_zero (x : Z) : bool := Z.land x (2 ^ 63 - 1) =? 0.

(** == *)
Definition double_eq (x y : Z) : bool :=
  match double_classify x, double_classify y with
  | Double_nan, _ | _, Double_nan => false
  | _, _ => (x =? y) || (double_is_zero x && double_is_zero y)
  end.

(** n / d rounded to the nearest integer, ties to even. *)
Definition round_div (n d : Z) : Z :=
  let q := n / d in
  let r := n mod d in
  if 2 * r <? d then q
  else if d <? 2 * r then q + 1
  else if Z.even q then q else q + 1.

(** The fraction m * 2^e. *)
Definition fraction (m e : Z) : Z * Z := if 0 <=? e then (m * 2 ^ e, 1) else (m, 2 ^ (- e)).

(** n / d >= 10^k *)
Definition ge_pow10 (n d k : Z) : bool := if 0 <=? k then d * 10 ^ k <=? n else d <=? n * 10 ^ (- k).

(** The exponent X with 10^X <= n / d < 10^(X+1), from an estimate by the
    number of bits that is at most two too small. *)
Definition exponent10 (n d : Z) : Z :=
  let k := (Z.log2 n - Z.log2 d) * 30103 / 100000 - 1 in
  if ge_pow10 n d (k + 2) then k + 2 else if ge_pow10 n d (k + 1) then k + 1 else k.

Fixpoint strip_zeros (fuel : nat) (q : Z) (n : nat) : Z * nat :=
  match fuel with
  | O => (q, n)
  | S fuel => if (q mod 10 =? 0) then strip_zeros fuel (q / 10) (pred n) else (q, n)
  end.

(** The positive fraction n / d rounded to 15 significant digits: the digits
    without trailing zeros as a number, how many they are, and the exponent of
    the first. *)
Definition decimal15 (n d : Z) : Z * nat * Z :=
  let x := exponent10 n d in
  let q := if 0 <=? 14 - x then round_div (n * 10 ^ (14 - x)) d else round_div n (d * 10 ^ (x - 14)) in
  let '(q, x) := if q =? 10 ^ 15 then (10 ^ 14, x + 1) else (q, x) in
  (strip_zeros 14 q 15, x).

(** The layout of "%g". *)
Definition put_decimal (q : Z) (k : nat) (x : Z) : list Z :=
  let ds := put_digits 10 q in
  if (x <? -4) || (15 <=? x) then
    take 1 ds ++ (if (1 <? k)%nat then chr "." :: drop 1 ds else [])
    ++ chr "e" :: (if x <? 0 then chr "-" else chr "+") :: pad_zeros 2 (put_digits 10 (Z.abs x))
  else if x <? 0 then bytes "0." ++ replicate (Z.to_nat (- x - 1)) (chr "0") ++ ds
  else
    let ip := S (Z.to_nat x) in
    if (k <=? ip)%nat then ds ++ replicate (ip - k) (chr "0") else take ip ds ++ chr "." :: drop ip ds.

(** "%.15g" of a positive fraction. *)
Definition put_g (n d : Z) : list Z := let '(q, k, x) := decimal15 n d in put_decimal q k x.

(** "%.*g" with DBL_DIG digits. *)
Definition put_double (x : Z) : list Z :=
  match double_classify x with
  | Double_nan => (if Z.testbit x 63 then bytes "-nan" else bytes "nan")
  | Double_inf neg => (if neg then bytes "-inf" else bytes "inf")
  | Double_finite neg m e =>
      (if neg then [chr "-"] else []) ++ (if m =? 0 then [chr "0"] else let '(n, d) := fraction m e in put_g n d)
  end.

(** The double nearest to the positive fraction n / d, and whether strtod()
    reports that it is out of range. *)
Definition double_nearest (n d : Z) : Z * bool :=
  let l := Z.log2 n - Z.log2 d in
  let l := if (if 0 <=? l then n <? d * 2 ^ l else n * 2 ^ (- l) <? d) then l - 1 else l in
  let e := Z.max (-1074) (l - 52) in
  let '(n', d') := if 0 <=? e then (n, d * 2 ^ e) else (n * 2 ^ (- e), d) in
  let q := round_div n' d' in
  let '(q, e) := if q =? 2 ^ 53 then (2 ^ 52, e + 1) else (q, e) in
  if 971 <? e then (Z.shiftl 0x7ff 52, true)
  else if q <? 2 ^ 52 then (q, negb (n' mod d' =? 0))
  else (Z.lor (Z.shiftl (e + 1075) 52) (q - 2 ^ 52), false).

Fixpoint scan_digits (s : list Z) (v : Z) (n : nat) : Z * nat * list Z :=
  match s with
  | c :: s' => if isdigit c then scan_digits s' (v * 10 + (c - chr "0")) (S n) else (v, n, s)
  | [] => (v, n, s)
  end.

(** strtod() on a decimal number: the value, whether it is out of range, and
    the rest of the string.  Exponents far out of range are not expanded. *)
Definition strtod (s : list Z) : Z * bool * list Z :=
  let '(neg, s1) := if at_ptr s =? chr "-" then (true, tail s) else (false, s) in
  let '(v, n, s2) := scan_digits s1 0 0 in
  let '(v, nf, s3) := if at_ptr s2 =? chr "." then let '(v, n', s3) := scan_digits (tail s2) v 0 in (v, n', s3) else (v, 0%nat, s2) in
  if ((n + nf)%nat =? 0)%nat then (0, false, s)
  else
    let '(ex, rest) :=
      if (at_ptr s3 =? chr "e") || (at_ptr s3 =? chr "E") then
        let s4 := tail s3 in
        let '(en, s5) := if at_ptr s4 =? chr "+" then (false, tail s4) else if at_ptr s4 =? chr "-" then (true, tail s4) else (false, s4) in
        let '(ev, ne, s6) := scan_digits s5 0 0 in
        if (ne =? 0)%nat then (0, s3) else (if en : bool then - ev else ev, s6)
      else (0, s3) in
    let ex := ex - Z.of_nat nf in
    let '(x, range) :=
      if v =? 0 then (0, false)
      else if 310 <? ex + Z.log2 v * 30102 / 100000 then (Z.shiftl 0x7ff 52, true)
      else if ex + (Z.log2 v + 1) * 30103 / 100000 <? -330 then (0, true)
      else if 0 <=? ex then double_nearest (v * 10 ^ ex) 1 else double_nearest v (10 ^ (- ex)) in
    (if neg then Z.lor x (2 ^ 63) else x, range, rest).

Definition str_to_double (s : list Z) : option Z :=
  let '(d, erange, tail) := strtod s in
  if (erange && negb (double_is_zero d)) || bool_decide (tail = s) || negb (at_ptr tail =? 0) then None else Some d.

(** (double) of a 64-bit integer. *)
Definition double_of_integer (n : Z) : Z :=
  if n =? 0 then 0
  else let x := (double_nearest (Z.abs n) 1).1 in if n <? 0 then Z.lor x (2 ^ 63) else x.
