(* ===== verification/Json.v ===== *)
(** * JSON (lib/json.c, lib/json.h)

    Values, the incremental parser with its lexer, and the serializer.  The
    parser builds one tree: an entry of its stack points to a container inside
    the tree, which it goes on filling; here the entries are the paths to the
    containers.  [None] is a failed assertion or a null pointer. *)
From stdpp Require Import list.
From S2P Require Import Prelude ByteOrder Hash Hmap Shash Text.

Open Scope Z_scope.

(** ** Values *)

Inductive json :=
| JSON_NULL
| JSON_FALSE
| JSON_TRUE
| JSON_OBJECT (object : shash json)
| JSON_ARRAY (elems : list json)
| JSON_INTEGER (integer : Z)
| JSON_REAL (real : Z)
| JSON_STRING (str : list Z).

Definition json_null_create : json := JSON_NULL.
Definition json_boolean_create (b : bool) : json := if b then JSON_TRUE else JSON_FALSE.
Definition json_string_create (s : list Z) : json := JSON_STRING s.
Definition json_array_create_empty : json := JSON_ARRAY [].
Definition json_object_create : json := JSON_OBJECT shash_init.
Definition json_integer_create (integer : Z) : json := JSON_INTEGER integer.
Definition json_real_create (real : Z) : json := JSON_REAL real.

Definition json_array_add (array element : json) : option json :=
  match array with JSON_ARRAY elems => Some (JSON_ARRAY (elems ++ [element])) | _ => None end.

Definition json_object_put (j : json) (name : list Z) (value : json) : option json :=
  match j with JSON_OBJECT object => Some (JSON_OBJECT (shash_replace object name value).1) | _ => None end.

Definition json_string (j : json) : option (list Z) := match j with JSON_STRING s => Some s | _ => None end.
Definition json_array (j : json) : option (list json) := match j with JSON_ARRAY l => Some l | _ => None end.
Definition json_object (j : json) : option (shash json) := match j with JSON_OBJECT o => Some o | _ => None end.
Definition json_boolean (j : json) : option bool :=
  match j with JSON_TRUE => Some true | JSON_FALSE => Some false | _ => None end.
Definition json_real (j : json) : option Z :=
  match j with JSON_REAL r => Some r | JSON_INTEGER i => Some (double_of_integer i) | _ => None end.
Definition json_integer (j : json) : option Z := match j with JSON_INTEGER i => Some i | _ => None end.

(** The enumerators of enum json_type. *)
Definition json_type (j : json) : Z :=
  match j with
  | JSON_NULL => 0 | JSON_FALSE => 1 | JSON_TRUE => 2 | JSON_OBJECT _ => 3 | JSON_ARRAY _ => 4
  | JSON_INTEGER _ => 5 | JSON_REAL _ => 6 | JSON_STRING _ => 7
  end.

Definition json_type_to_string (j : json) : list Z :=
  match j with
  | JSON_NULL => bytes "null" | JSON_FALSE => bytes "false" | JSON_TRUE => bytes "true"
  | JSON_OBJECT _ => bytes "object" | JSON_ARRAY _ => bytes "array"
  | JSON_INTEGER _ | JSON_REAL _ => bytes "number" | JSON_STRING _ => bytes "string"
  end.

(** The functions below recur into an object through a map with the results
    for its data, which they then go through like the code. *)
Definition shash_data {A B} (f : A → B) (sh : shash A) : shash B :=
  Hmap (List.map (List.map (λ n, HNode (hn_hash n) (ShashNode (sn_name (hn_data n)) (f (sn_data (hn_data n))))))
          (hm_buckets sh)) (hm_mask sh) (hm_n sh).

Definition json_clone_object (object : shash json) : json :=
  JSON_OBJECT (foldl (λ o n, (shash_replace o (sn_name n) (sn_data n)).1) shash_init (hmap_for_each object)).

Fixpoint json_clone (j : json) : json :=
  match j with
  | JSON_OBJECT object => json_clone_object (shash_data json_clone object)
  | JSON_ARRAY elems => JSON_ARRAY (List.map json_clone elems)
  | _ => j
  end.

(** hash_double() of lib/hash.c: the words of the pattern, the low one first. *)
Definition hash_double (x basis : Z) : Z := hash_3words (u32 x) (u32 (Z.shiftr x 32)) basis.

(** [object] holds the hash of each datum as a function of the basis. *)
Definition json_hash_object (object : shash (Z → Z)) (basis : Z) : Z :=
  foldl (λ basis n, sn_data n (hash_string (sn_name n) basis)) basis (shash_sort object).

Definition json_hash_array (elems : list (Z → Z)) (basis : Z) : Z :=
  foldl (λ basis h, h basis) (hash_int (u32 (Z.of_nat (length elems))) basis) elems.

Fixpoint json_hash (j : json) (basis : Z) : Z :=
  match j with
  | JSON_OBJECT object => json_hash_object (shash_data json_hash object) basis
  | JSON_ARRAY elems => json_hash_array (List.map json_hash elems) basis
  | JSON_STRING s => hash_string s basis
  | JSON_NULL | JSON_FALSE | JSON_TRUE => hash_int (Z.shiftl (json_type j) 8) basis
  | JSON_INTEGER i => hash_int (u32 i) basis
  | JSON_REAL r => hash_double r basis
  end.

(** [a] holds the comparison with each datum. *)
Definition json_equal_object (a : shash (json → bool)) (b : shash json) : bool :=
  (shash_count a =? shash_count b)
  && forallb (λ a_node, match shash_find b (sn_name a_node) with
                        | Some b_node => sn_data a_node (sn_data b_node)
                        | None => false
                        end) (hmap_for_each a).

Fixpoint json_equal_array (a : list (json → bool)) (b : list json) : bool :=
  match a, b with
  | [], [] => true
  | eq :: a, y :: b => eq y && json_equal_array a b
  | _, _ => false
  end.

Fixpoint json_equal (a b : json) : bool :=
  match a, b with
  | JSON_OBJECT x, JSON_OBJECT y => json_equal_object (shash_data json_equal x) y
  | JSON_ARRAY x, JSON_ARRAY y => json_equal_array (List.map json_equal x) y
  | JSON_STRING x, JSON_STRING y => bool_decide (x = y)
  | JSON_NULL, JSON_NULL | JSON_FALSE, JSON_FALSE | JSON_TRUE, JSON_TRUE => true
  | JSON_INTEGER x, JSON_INTEGER y => x =? y
  | JSON_REAL x, JSON_REAL y => double_eq x y
  | _, _ => false
  end.

(** ** The parser *)

Inductive json_token :=
| T_EOF
| T_BEGIN_ARRAY
| T_END_ARRAY
| T_BEGIN_OBJECT
| T_END_OBJECT
| T_NAME_SEPARATOR
| T_VALUE_SEPARATOR
| T_FALSE
| T_NULL
| T_TRUE
| T_INTEGER (integer : Z)
| T_REAL (real : Z)
| T_STRING (str : list Z).

Inductive json_lex_state := JSON_LEX_START | JSON_LEX_NUMBER | JSON_LEX_KEYWORD | JSON_LEX_STRING | JSON_LEX_ESCAPE.

Inductive json_parse_state :=
| JSON_PARSE_START
| JSON_PARSE_END
| JSON_PARSE_OBJECT_INIT
| JSON_PARSE_OBJECT_NAME
| JSON_PARSE_OBJECT_COLON
| JSON_PARSE_OBJECT_VALUE
| JSON_PARSE_OBJECT_NEXT
| JSON_PARSE_ARRAY_INIT
| JSON_PARSE_ARRAY_VALUE
| JSON_PARSE_ARRAY_NEXT.

Definition JSON_MAX_HEIGHT : nat := 1000.
Definition JSPF_TRAILER : Z := 1.

(** From a container to one of its data. *)
Inductive json_step := In_array (i : nat) | In_object (name : list Z).

(** The tree that stack[0] points to, and the path from it to the node that
    the top of the stack points to; the entries between are its prefixes. *)
Definition json_stack : Type := option (json * list json_step).

(** The counters of lines, columns and bytes are unbounded here; the code's are
    int, which only input of 2 GB overflows, and appear in messages only. *)
Record json_parser := JsonParser {
  jp_flags : Z;
  jp_lex_state : json_lex_state;
  jp_buffer : list Z;
  jp_line_number : Z;
  jp_column_number : Z;
  jp_byte_number : Z;
  jp_parse_state : json_parse_state;
  jp_stack : json_stack;
  jp_member_name : option (list Z);
  jp_done : bool;
  jp_error : option (list Z)
}.

Definition set_lex_state v p :=
  JsonParser (jp_flags p) v (jp_buffer p) (jp_line_number p) (jp_column_number p) (jp_byte_number p) (jp_parse_state p)
    (jp_stack p) (jp_member_name p) (jp_done p) (jp_error p).
Definition set_buffer v p :=
  JsonParser (jp_flags p) (jp_lex_state p) v (jp_line_number p) (jp_column_number p) (jp_byte_number p) (jp_parse_state p)
    (jp_stack p) (jp_member_name p) (jp_done p) (jp_error p).
Definition set_position l c b p :=
  JsonParser (jp_flags p) (jp_lex_state p) (jp_buffer p) l c b (jp_parse_state p) (jp_stack p) (jp_member_name p)
    (jp_done p) (jp_error p).
Definition set_parse_state v p :=
  JsonParser (jp_flags p) (jp_lex_state p) (jp_buffer p) (jp_line_number p) (jp_column_number p) (jp_byte_number p) v
    (jp_stack p) (jp_member_name p) (jp_done p) (jp_error p).
Definition set_jstack v p :=
  JsonParser (jp_flags p) (jp_lex_state p) (jp_buffer p) (jp_line_number p) (jp_column_number p) (jp_byte_number p)
    (jp_parse_state p) v (jp_member_name p) (jp_done p) (jp_error p).
Definition set_member_name v p :=
  JsonParser (jp_flags p) (jp_lex_state p) (jp_buffer p) (jp_line_number p) (jp_column_number p) (jp_byte_number p)
    (jp_parse_state p) (jp_stack p) v (jp_done p) (jp_error p).
Definition set_done v p :=
  JsonParser (jp_flags p) (jp_lex_state p) (jp_buffer p) (jp_line_number p) (jp_column_number p) (jp_byte_number p)
    (jp_parse_state p) (jp_stack p) (jp_member_name p) v (jp_error p).
Definition set_error v p :=
  JsonParser (jp_flags p) (jp_lex_state p) (jp_buffer p) (jp_line_number p) (jp_column_number p) (jp_byte_number p)
    (jp_parse_state p) (jp_stack p) (jp_member_name p) (jp_done p) v.

Definition json_parser_create (flags : Z) : json_parser :=
  JsonParser flags JSON_LEX_START [] 0 0 0 JSON_PARSE_START None None false None.

Definition json_error (p : json_parser) (msg : list Z) : json_parser :=
  match jp_error p with
  | Some _ => p
  | None =>
      set_done true (set_error (Some (
        bytes "line " ++ put_int (jp_line_number p) ++ bytes ", column " ++ put_int (jp_column_number p)
        ++ bytes ", byte " ++ put_int (jp_byte_number p) ++ bytes ": " ++ msg)) p)
  end.

(** What a pointer into the tree points to, and changing it. *)
Definition json_child (s : json_step) (j : json) : option json :=
  match s, j with
  | In_array i, JSON_ARRAY elems => elems !! i
  | In_object name, JSON_OBJECT object => shash_find_data object name
  | _, _ => None
  end.

Fixpoint json_at (path : list json_step) (j : json) : option json :=
  match path with
  | [] => Some j
  | s :: path => c ← json_child s j; json_at path c
  end.

Definition json_set_child (s : json_step) (c : json) (j : json) : option json :=
  match s, j with
  | In_array i, JSON_ARRAY elems => Some (JSON_ARRAY (<[i := c]> elems))
  | In_object name, JSON_OBJECT object => Some (JSON_OBJECT (shash_replace object name c).1)
  | _, _ => None
  end.

Fixpoint json_modify (path : list json_step) (f : json → option json) (j : json) : option json :=
  match path with
  | [] => f j
  | s :: path => c ← json_child s j; c' ← json_modify path f c; json_set_child s c' j
  end.

Definition jp_height (p : json_parser) : nat := match jp_stack p with None => 0 | Some (_, path) => S (length path) end.

Definition json_parser_top (p : json_parser) : option json := '(root, path) ← jp_stack p; json_at path root.

Definition json_parser_put_value (p : json_parser) (value : json) : option json_parser :=
  '(root, path) ← jp_stack p;
  node ← json_at path root;
  match node with
  | JSON_OBJECT _ =>
      name ← jp_member_name p;
      root' ← json_modify path (λ j, json_object_put j name value) root;
      Some (set_member_name None (set_jstack (Some (root', path)) p))
  | JSON_ARRAY _ =>
      root' ← json_modify path (λ j, json_array_add j value) root;
      Some (set_jstack (Some (root', path)) p)
  | _ => None
  end.

(** The step to the datum that [json_parser_put_value] is about to add. *)
Definition next_step (p : json_parser) : option json_step :=
  node ← json_parser_top p;
  match node with
  | JSON_OBJECT _ => In_object <$> jp_member_name p
  | JSON_ARRAY elems => Some (In_array (length elems))
  | _ => None
  end.

Definition json_parser_push (p : json_parser) (new_json : json) (new_state : json_parse_state) : option json_parser :=
  if (jp_height p <? JSON_MAX_HEIGHT)%nat then
    p ← (if (0 <? jp_height p)%nat then
           s ← next_step p;
           p ← json_parser_put_value p new_json;
           '(root, path) ← jp_stack p;
           Some (set_jstack (Some (root, path ++ [s])) p)
         else Some (set_jstack (Some (new_json, [])) p));
    Some (set_parse_state new_state p)
  else Some (json_error p (bytes "input exceeds maximum nesting depth " ++ put_int (Z.of_nat JSON_MAX_HEIGHT))).

Definition json_parser_push_object (p : json_parser) : option json_parser :=
  json_parser_push p json_object_create JSON_PARSE_OBJECT_INIT.
Definition json_parser_push_array (p : json_parser) : option json_parser :=
  json_parser_push p json_array_create_empty JSON_PARSE_ARRAY_INIT.

Definition json_parse_value (p : json_parser) (token : json_token) (next_state : json_parse_state) : option json_parser :=
  let put value := p ← json_parser_put_value p value; Some (set_parse_state next_state p) in
  match token with
  | T_FALSE => put (json_boolean_create false)
  | T_NULL => put json_null_create
  | T_TRUE => put (json_boolean_create true)
  | T_BEGIN_OBJECT => json_parser_push_object p
  | T_BEGIN_ARRAY => json_parser_push_array p
  | T_INTEGER integer => put (json_integer_create integer)
  | T_REAL real => put (json_real_create real)
  | T_STRING s => put (json_string_create s)
  | T_EOF | T_END_OBJECT | T_END_ARRAY | T_NAME_SEPARATOR | T_VALUE_SEPARATOR =>
      Some (json_error p (bytes "syntax error expecting value"))
  end.

Definition json_parser_pop (p : json_parser) : option json_parser :=
  '(root, path) ← jp_stack p;
  _ ← json_at path root;
  if (jp_height p =? 1)%nat then
    let p := set_parse_state JSON_PARSE_END p in
    Some (if negb (any_bit (jp_flags p) JSPF_TRAILER) then set_done true p else p)
  else
    let path := removelast path in
    node ← json_at path root;
    let p := set_jstack (Some (root, path)) p in
    match node with
    | JSON_ARRAY _ => Some (set_parse_state JSON_PARSE_ARRAY_NEXT p)
    | JSON_OBJECT _ => Some (set_parse_state JSON_PARSE_OBJECT_NEXT p)
    | _ => None
    end.

Definition json_parser_input (p : json_parser) (token : json_token) : option json_parser :=
  let object_name p :=
    match token with
    | T_STRING s => Some (set_parse_state JSON_PARSE_OBJECT_COLON (set_member_name (Some s) p))
    | _ => Some (json_error p (bytes "syntax error parsing object expecting string"))
    end in
  p ← match jp_parse_state p with
      | JSON_PARSE_START =>
          match token with
          | T_BEGIN_OBJECT => json_parser_push_object p
          | T_BEGIN_ARRAY => json_parser_push_array p
          | _ => Some (json_error p (bytes "syntax error at beginning of input"))
          end
      | JSON_PARSE_END => Some (json_error p (bytes "trailing garbage at end of input"))
      | JSON_PARSE_OBJECT_INIT => match token with T_END_OBJECT => json_parser_pop p | _ => object_name p end
      | JSON_PARSE_OBJECT_NAME => object_name p
      | JSON_PARSE_OBJECT_COLON =>
          match token with
          | T_NAME_SEPARATOR => Some (set_parse_state JSON_PARSE_OBJECT_VALUE p)
          | _ => Some (json_error p (bytes "syntax error parsing object expecting ':'"))
          end
      | JSON_PARSE_OBJECT_VALUE => json_parse_value p token JSON_PARSE_OBJECT_NEXT
      | JSON_PARSE_OBJECT_NEXT =>
          match token with
          | T_VALUE_SEPARATOR => Some (set_parse_state JSON_PARSE_OBJECT_NAME p)
          | T_END_OBJECT => json_parser_pop p
          | _ => Some (json_error p (bytes "syntax error expecting '}' or ','"))
          end
      | JSON_PARSE_ARRAY_INIT =>
          match token with T_END_ARRAY => json_parser_pop p | _ => json_parse_value p token JSON_PARSE_ARRAY_NEXT end
      | JSON_PARSE_ARRAY_VALUE => json_parse_value p token JSON_PARSE_ARRAY_NEXT
      | JSON_PARSE_ARRAY_NEXT =>
          match token with
          | T_VALUE_SEPARATOR => Some (set_parse_state JSON_PARSE_ARRAY_VALUE p)
          | T_END_ARRAY => json_parser_pop p
          | _ => Some (json_error p (bytes "syntax error expecting ']' or ','"))
          end
      end;
  Some (set_buffer [] (set_lex_state JSON_LEX_START p)).

(** ** Lexical analysis *)

Definition json_lex_keyword (p : json_parser) : option json_parser :=
  let s := cstr (jp_buffer p) in
  if bool_decide (s = bytes "false") then json_parser_input p T_FALSE
  else if bool_decide (s = bytes "true") then json_parser_input p T_TRUE
  else if bool_decide (s = bytes "null") then json_parser_input p T_NULL
  else Some (json_error p (bytes "invalid keyword '" ++ s ++ bytes "'")).

Definition ULLONG_MAX : Z := 2 ^ 64 - 1.
Definition LLONG_MAX : Z := 2 ^ 63 - 1.
Definition INT_MAX : Z := 2 ^ 31 - 1.

(** The digits of the integer part: significand, power of ten, whether a digit
    was lost, and the rest. *)
Fixpoint lex_int (significand pow10 : Z) (imprecise : bool) (cp : list Z) : Z * Z * bool * list Z :=
  match cp with
  | c :: cp' =>
      if isdigit c then
        if significand <=? ULLONG_MAX / 10 then lex_int (u64 (significand * 10 + (c - chr "0"))) pow10 imprecise cp'
        else lex_int significand (i32 (pow10 + 1)) (imprecise || negb (c =? chr "0")) cp'
      else (significand, pow10, imprecise, cp)
  | [] => (significand, pow10, imprecise, cp)
  end.

Fixpoint lex_frac (significand pow10 : Z) (imprecise : bool) (cp : list Z) : Z * Z * bool * list Z :=
  match cp with
  | c :: cp' =>
      if isdigit c then
        if significand <=? ULLONG_MAX / 10 then
          lex_frac (u64 (significand * 10 + (c - chr "0"))) (i32 (pow10 - 1)) imprecise cp'
        else lex_frac significand pow10 (imprecise || negb (c =? chr "0")) cp'
      else (significand, pow10, imprecise, cp)
  | [] => (significand, pow10, imprecise, cp)
  end.

(** [None] when the exponent is out of range. *)
Fixpoint lex_exp (exponent : Z) (cp : list Z) : option (Z * list Z) :=
  match cp with
  | c :: cp' =>
      if isdigit c then
        if INT_MAX / 10 <=? exponent then None else lex_exp (exponent * 10 + (c - chr "0")) cp'
      else Some (exponent, cp)
  | [] => Some (exponent, cp)
  end.

(** The two loops that make the power of ten 0; a significand has at most 20
    digits. *)
Fixpoint scale_up (fuel : nat) (significand pow10 : Z) : Z * Z :=
  match fuel with
  | O => (significand, pow10)
  | S fuel =>
      if (0 <? pow10) && (significand <? ULLONG_MAX / 10) then scale_up fuel (significand * 10) (pow10 - 1)
      else (significand, pow10)
  end.
Fixpoint scale_down (fuel : nat) (significand pow10 : Z) : Z * Z :=
  match fuel with
  | O => (significand, pow10)
  | S fuel =>
      if (pow10 <? 0) && (significand mod 10 =? 0) then scale_down fuel (significand / 10) (pow10 + 1)
      else (significand, pow10)
  end.

(** A number, or an error message. *)
Definition lex_number (s : list Z) : list Z + json_token :=
  let '(negative, cp) := if at_ptr s =? chr "-" then (true, tail s) else (false, s) in
  let int_part :=
    if at_ptr cp =? chr "0" then
      if isdigit (at_ptr (tail cp)) then inl (bytes "leading zeros not allowed") else inr (0, 0, false, tail cp)
    else if isdigit (at_ptr cp) then inr (lex_int 0 0 false cp)
    else inl (bytes "'-' must be followed by digit") in
  match int_part with
  | inl msg => inl msg
  | inr (significand, pow10, imprecise, cp) =>
      let frac_part :=
        if at_ptr cp =? chr "." then
          if isdigit (at_ptr (tail cp)) then inr (lex_frac significand pow10 imprecise (tail cp))
          else inl (bytes "decimal point must be followed by digit")
        else inr (significand, pow10, imprecise, cp) in
      match frac_part with
      | inl msg => inl msg
      | inr (significand, pow10, imprecise, cp) =>
          let exp_part :=
            if (at_ptr cp =? chr "e") || (at_ptr cp =? chr "E") then
              let cp := tail cp in
              let '(negative_exponent, cp) :=
                if at_ptr cp =? chr "+" then (false, tail cp)
                else if at_ptr cp =? chr "-" then (true, tail cp)
                else (false, cp) in
              if isdigit (at_ptr cp) then
                match lex_exp 0 cp with
                | None => inl (bytes "exponent outside valid range")
                | Some (exponent, cp) =>
                    inr (i32 (if negative_exponent : bool then pow10 - exponent else pow10 + exponent), cp)
                end
              else inl (bytes "exponent must contain at least one digit")
            else inr (pow10, cp) in
          match exp_part with
          | inl msg => inl msg
          | inr (pow10, cp) =>
              if negb (at_ptr cp =? 0) then inl (bytes "syntax error in number")
              else if significand =? 0 then inr (T_INTEGER 0)
              else
                let real :=
                  match str_to_double s with
                  | None => inl (bytes "number outside valid range")
                  | Some r => inr (T_REAL (if double_is_zero r then 0 else r))
                  end in
                if imprecise then real
                else
                  let '(significand, pow10) := scale_up 20 significand pow10 in
                  let '(significand, pow10) := scale_down 20 significand pow10 in
                  if (pow10 =? 0) && (significand <=? (if negative : bool then LLONG_MAX + 1 else LLONG_MAX))
                  then inr (T_INTEGER (if negative : bool then - significand else significand))
                  else real
          end
      end
  end.

Definition json_lex_number (p : json_parser) : option json_parser :=
  match lex_number (cstr (jp_buffer p)) with
  | inl msg => Some (json_error p msg)
  | inr token => json_parser_input p token
  end.

Definition json_lex_4hex (cp : list Z) : list Z + Z :=
  if (length cp <? 4)%nat then inl (bytes "quoted string ends within \u escape")
  else
    let value := hexits_value (take 4 cp) in
    if value =? UINT_MAX then inl (bytes "malformed \u escape")
    else if value =? 0 then inl (bytes "null bytes not supported in quoted strings")
    else inr value.

(** The text of the escape and what follows it. *)
Definition json_lex_unicode (cp : list Z) : list Z + (list Z * list Z) :=
  match json_lex_4hex cp with
  | inl error => inl error
  | inr c0 =>
      let cp := drop 4 cp in
      if negb (uc_is_leading_surrogate c0) then inr (put_utf8 c0, cp)
      else if (length cp <? 2)%nat || negb (at_ptr cp =? chr "\") || negb (at_ptr (tail cp) =? chr "u") then
        inl (bytes "malformed escaped surrogate pair")
      else
        match json_lex_4hex (drop 2 cp) with
        | inl error => inl error
        | inr c1 =>
            if negb (uc_is_trailing_surrogate c1) then
              inl (bytes "second half of escaped surrogate pair is not trailing surrogate")
            else inr (put_utf8 (utf16_decode_surrogate_pair c0 c1), drop 6 cp)
        end
  end.

(** The characters of simple escapes. *)
Definition unescape_char (c : Z) : option Z :=
  if (c =? c_quote) || (c =? chr "\") || (c =? chr "/") then Some c
  else if c =? chr "b" then Some 8
  else if c =? chr "f" then Some 12
  else if c =? chr "n" then Some 10
  else if c =? chr "r" then Some 13
  else if c =? chr "t" then Some 9
  else None.

Fixpoint unescape_loop (fuel : nat) (s out : list Z) : list Z + list Z :=
  match fuel, s with
  | S fuel, c :: s =>
      if c =? c_quote then inl (bytes "quoted string may not include unescaped " ++ [c_quote])
      else if negb (c =? chr "\") then unescape_loop fuel s (out ++ [c])
      else
        let e := at_ptr s in
        let s := tail s in
        match unescape_char e with
        | Some c => unescape_loop fuel s (out ++ [c])
        | None =>
            if e =? chr "u" then
              match json_lex_unicode s with
              | inl error => inl error
              | inr (text, s) => unescape_loop fuel s (out ++ text)
              end
            else inl (bytes "bad escape \" ++ [e])
        end
  | _, _ => inr out
  end.

(** The result, or an error message. *)
Definition json_string_unescape (s : list Z) : list Z + list Z :=
  if bool_decide (last s = Some (chr "\")) then inl (bytes "quoted string may not end with backslash")
  else unescape_loop (length s) s [].

Definition json_lex_string (p : json_parser) : option json_parser :=
  let raw := cstr (jp_buffer p) in
  if negb (existsb (λ c, c =? chr "\") raw) then json_parser_input p (T_STRING raw)
  else
    match json_string_unescape raw with
    | inr cooked => json_parser_input p (T_STRING cooked)
    | inl msg => Some (json_error p msg)
    end.

Definition punctuation (c : Z) : option json_token :=
  if c =? chr "[" then Some T_BEGIN_ARRAY
  else if c =? chr "{" then Some T_BEGIN_OBJECT
  else if c =? chr "]" then Some T_END_ARRAY
  else if c =? chr "}" then Some T_END_OBJECT
  else if c =? chr ":" then Some T_NAME_SEPARATOR
  else if c =? chr "," then Some T_VALUE_SEPARATOR
  else None.

(** strchr() finds the null byte too. *)
Definition number_char (c : Z) : bool := (c =? 0) || existsb (λ d, c =? d) (bytes ".0123456789eE-+").

(** Whether the character was used. *)
Definition json_lex_input (p : json_parser) (c : Z) : option (json_parser * bool) :=
  let put p := Some (set_buffer (jp_buffer p ++ [c]) p, true) in
  let used p := p ← p; Some (p, true) in
  let unused p := p ← p; Some (p, false) in
  match jp_lex_state p with
  | JSON_LEX_START =>
      if (c =? 32) || (c =? 9) || (c =? 10) || (c =? 13) then Some (p, true)
      else if islower c then put (set_lex_state JSON_LEX_KEYWORD p)
      else
        match punctuation c with
        | Some token => used (json_parser_input p token)
        | None =>
            if (c =? chr "-") || isdigit c then put (set_lex_state JSON_LEX_NUMBER p)
            else if c =? c_quote then Some (set_lex_state JSON_LEX_STRING p, true)
            else if isprint c then Some (json_error p (bytes "invalid character '" ++ [c] ++ bytes "'"), true)
            else Some (json_error p (bytes "invalid character U+" ++ put_hex 4 c), true)
        end
  | JSON_LEX_KEYWORD => if negb (isalpha c) then unused (json_lex_keyword p) else put p
  | JSON_LEX_NUMBER => if negb (number_char c) then unused (json_lex_number p) else put p
  | JSON_LEX_STRING =>
      if c =? chr "\" then put (set_lex_state JSON_LEX_ESCAPE p)
      else if c =? c_quote then used (json_lex_string p)
      else if c <? 0x20 then
        Some (json_error p (bytes "U+" ++ put_HEX 4 c ++ bytes " must be escaped in quoted string"), true)
      else put p
  | JSON_LEX_ESCAPE => put (set_lex_state JSON_LEX_STRING p)
  end.

(** ** Feeding input *)

Definition advance (c : Z) (p : json_parser) : json_parser :=
  if c =? 10 then set_position (jp_line_number p + 1) 0 (jp_byte_number p + 1) p
  else set_position (jp_line_number p) (jp_column_number p + 1) (jp_byte_number p + 1) p.

(** The number of bytes used.  A byte that ends a token is tried twice. *)
Fixpoint feed_loop (fuel : nat) (p : json_parser) (input : list Z) (i : Z) : option (json_parser * Z) :=
  match fuel with
  | O => None
  | S fuel =>
      match input with
      | [] => Some (p, i)
      | c :: rest =>
          if jp_done p then Some (p, i)
          else
            '(p, used) ← json_lex_input p c;
            if used : bool then feed_loop fuel (advance c p) rest (i + 1) else feed_loop fuel p input i
      end
  end.

Definition json_parser_feed (p : json_parser) (input : list Z) : option (json_parser * Z) :=
  feed_loop (S (2 * length input)) p input 0.

Definition json_parser_is_done (p : json_parser) : bool := jp_done p.

Definition json_parser_finish (p : json_parser) : option json :=
  p ← match jp_lex_state p with
      | JSON_LEX_START => Some p
      | JSON_LEX_STRING | JSON_LEX_ESCAPE => Some (json_error p (bytes "unexpected end of input in quoted string"))
      | JSON_LEX_NUMBER | JSON_LEX_KEYWORD => fst <$> json_lex_input p 32
      end;
  let p := match jp_parse_state p with
           | JSON_PARSE_START => json_error p (bytes "empty input stream")
           | JSON_PARSE_END => p
           | _ => json_error p (bytes "unexpected end of input")
           end in
  match jp_error p with
  | None =>
      '(root, path) ← jp_stack p;
      match path with [] => Some root | _ :: _ => None end
  | Some error => Some (json_string_create error)
  end.

Definition json_from_string (string : list Z) : option json :=
  '(p, _) ← json_parser_feed (json_parser_create JSPF_TRAILER) string;
  json_parser_finish p.

(** The chunks that fread() returns, up to the first empty one. *)
Fixpoint stream_loop (p : json_parser) (chunks : list (list Z)) : option json_parser :=
  match chunks with
  | [] => Some p
  | buffer :: chunks =>
      if bool_decide (buffer = []) then Some p
      else
        '(p, n) ← json_parser_feed p buffer;
        if negb (n =? Z.of_nat (length buffer)) then Some p else stream_loop p chunks
  end.

(** [error]: the message of ferror(). *)
Definition json_from_stream (chunks : list (list Z)) (error : option (list Z)) : option json :=
  p ← stream_loop (json_parser_create JSPF_TRAILER) chunks;
  j ← json_parser_finish p;
  Some (match error with
        | Some e => json_string_create (bytes "error reading JSON stream: " ++ e)
        | None => j
        end).

(** ** Serialization *)

Definition JSSF_PRETTY : Z := 1.
Definition JSSF_SORT : Z := 2.
Definition SPACES_PER_LEVEL : nat := 2.

Definition indent_line (flags : Z) (depth : nat) : list Z :=
  if any_bit flags JSSF_PRETTY then 10 :: replicate (SPACES_PER_LEVEL * depth) 32 else [].

Definition serialize_char (c : Z) : list Z :=
  if c =? c_quote then [chr "\"; c_quote]
  else if c =? chr "\" then bytes "\\"
  else if c =? 8 then bytes "\b"
  else if c =? 12 then bytes "\f"
  else if c =? 10 then bytes "\n"
  else if c =? 13 then bytes "\r"
  else if c =? 9 then bytes "\t"
  else if 32 <=? c then [c]
  else bytes "\u" ++ put_hex 4 c.

Definition json_serialize_string (string : list Z) : list Z :=
  c_quote :: concat (serialize_char <$> string) ++ [c_quote].

(** [object] and [array] hold the text of each datum. *)
Definition json_serialize_object_member (flags : Z) (depth : nat) (i : nat) (node : shash_node (list Z)) : list Z :=
  (if (0 <? i)%nat then chr "," :: indent_line flags depth else [])
  ++ json_serialize_string (sn_name node) ++ chr ":" :: (if any_bit flags JSSF_PRETTY then [32] else []) ++ sn_data node.

Definition json_serialize_object (flags : Z) (depth : nat) (object : shash (list Z)) : list Z :=
  let nodes := if any_bit flags JSSF_SORT then shash_sort object else hmap_for_each object in
  chr "{" :: indent_line flags (S depth) ++ concat (imap (json_serialize_object_member flags (S depth)) nodes) ++ [chr "}"].

Definition json_serialize_array (flags : Z) (depth : nat) (array : list (list Z)) : list Z :=
  chr "[" ::
  (if (0 <? length array)%nat then
     indent_line flags (S depth)
     ++ concat (imap (λ i elem, (if (0 <? i)%nat then chr "," :: indent_line flags (S depth) else []) ++ elem) array)
   else [])
  ++ [chr "]"].

Fixpoint json_serialize (flags : Z) (depth : nat) (j : json) : list Z :=
  match j with
  | JSON_NULL => bytes "null"
  | JSON_FALSE => bytes "false"
  | JSON_TRUE => bytes "true"
  | JSON_OBJECT object => json_serialize_object flags depth (shash_data (json_serialize flags (S depth)) object)
  | JSON_ARRAY array => json_serialize_array flags depth (List.map (json_serialize flags (S depth)) array)
  | JSON_INTEGER integer => put_int integer
  | JSON_REAL real => put_double real
  | JSON_STRING string => json_serialize_string string
  end.

Definition json_to_string (j : json) (flags : Z) : list Z := json_serialize flags 0 j.

Definition json_string_serialized_length (string : list Z) : Z :=
  foldl (λ n c, n + (if existsb (λ d, c =? d) [c_quote; chr "\"; 8; 12; 10; 13; 9] then 2 else if 32 <=? c then 1 else 6)) 2 string.

(** [object] and [array] hold the length of each datum. *)
Definition json_object_serialized_length (object : shash Z) : Z :=
  if negb (shash_is_empty object) then
    foldl (λ n node, n + json_string_serialized_length (sn_name node) + sn_data node) (2 + (2 * shash_count object - 1))
      (hmap_for_each object)
  else 2.

Definition json_array_serialized_length (array : list Z) : Z :=
  if (0 <? length array)%nat then foldl Z.add (2 + (Z.of_nat (length array) - 1)) array else 2.

Fixpoint json_serialized_length (j : json) : Z :=
  match j with
  | JSON_NULL => 4
  | JSON_FALSE => 5
  | JSON_TRUE => 4
  | JSON_OBJECT object => json_object_serialized_length (shash_data json_serialized_length object)
  | JSON_ARRAY array => json_array_serialized_length (List.map json_serialized_length array)
  | JSON_INTEGER integer => Z.of_nat (length (put_int integer))
  | JSON_REAL real => Z.of_nat (length (put_double real))
  | JSON_STRING string => json_string_serialized_length string
  end.
