(* ===== verification/JsonThms.v ===== *)
(** * Theorems about JSON

    The meaning of a value is a tree in which an object is a finite map
    ([jval]).  Equality, hashes and copies respect it, and the parser reads
    back what the serializer writes. *)
From stdpp Require Import gmap sorting.
From S2P Require Import Prelude ByteOrder Hash Hmap Shash Text Json.

Open Scope Z_scope.

(** ** Meaning *)

Inductive jval :=
| V_null
| V_false
| V_true
| V_object (object : gmap (list Z) jval)
| V_array (elems : list jval)
| V_integer (integer : Z)
| V_real (real : Z)
| V_string (str : list Z).

Fixpoint json_abs (j : json) : jval :=
  match j with
  | JSON_NULL => V_null
  | JSON_FALSE => V_false
  | JSON_TRUE => V_true
  | JSON_OBJECT object => V_object (shash_map (shash_data json_abs object))
  | JSON_ARRAY elems => V_array (List.map json_abs elems)
  | JSON_INTEGER integer => V_integer integer
  | JSON_REAL real => V_real real
  | JSON_STRING str => V_string str
  end.

(** The text of a C string. *)
Definition str_ok (s : list Z) : Prop := Forall (λ c, 0 < c < 256) s.

(** A finite double that is not a negative zero. *)
Definition real_ok (r : Z) : Prop :=
  is_u64 r ∧ r ≠ 2 ^ 63 ∧ match double_classify r with Double_finite _ _ _ => True | _ => False end.

Inductive json_ok : json → Prop :=
| ok_null : json_ok JSON_NULL
| ok_false : json_ok JSON_FALSE
| ok_true : json_ok JSON_TRUE
| ok_object o :
    shash_ok o → (∀ n, n ∈ hnodes o → str_ok (sn_name (hn_data n))) → (∀ n, n ∈ hnodes o → json_ok (sn_data (hn_data n))) →
    json_ok (JSON_OBJECT o)
| ok_array l : (∀ j, j ∈ l → json_ok j) → json_ok (JSON_ARRAY l)
| ok_integer i : - 2 ^ 63 ≤ i < 2 ^ 63 → json_ok (JSON_INTEGER i)
| ok_real r : real_ok r → json_ok (JSON_REAL r)
| ok_string s : str_ok s → json_ok (JSON_STRING s).

(** ** Objects with other data *)

Section data.
Context {A B : Type} (f : A → B).

Definition node_data (n : shash_node A) : shash_node B := ShashNode (sn_name n) (f (sn_data n)).

Lemma hnodes_data sh : hnodes (shash_data f sh) = (λ n, HNode (hn_hash n) (node_data (hn_data n))) <$> hnodes sh.
Proof.
  unfold hnodes, shash_data, node_data. simpl. induction (hm_buckets sh) as [|b bs IH]; [done|]. simpl. by rewrite IH, fmap_app.
Qed.

Lemma data_wf (sh : shash A) : hmap_wf sh → hmap_wf (shash_data f sh).
Proof.
  intros [Hm Hl Hp Hn]. split.
  - done.
  - simpl. by rewrite List.length_map.
  - intros i chain node Hi Hin. simpl in Hi. change List.map with (@fmap list _) in Hi. rewrite list_lookup_fmap in Hi.
    destruct (hm_buckets sh !! i) as [c|] eqn:Hc; [|done]. injection Hi as <-.
    apply list_elem_of_fmap in Hin as (n & -> & Hin). simpl. by apply (Hp i c n).
  - rewrite hnodes_data, length_fmap. exact Hn.
Qed.

Lemma data_members sh : members (shash_data f sh) = prod_map id f <$> members sh.
Proof. unfold members. rewrite hnodes_data, <- !list_fmap_compose. done. Qed.

Lemma data_map sh : shash_map (shash_data f sh) = f <$> shash_map sh.
Proof. unfold shash_map. rewrite data_members. by rewrite list_to_map_fmap. Qed.

Lemma data_ok sh : shash_ok sh → shash_ok (shash_data f sh).
Proof.
  intros [Hwf Hh Hn]. split; [by apply data_wf| |].
  - rewrite hnodes_data. apply Forall_fmap. eapply Forall_impl; [exact Hh|]. done.
  - rewrite data_members, <- list_fmap_compose. done.
Qed.

Lemma for_each_data (sh : shash A) :
  hmap_wf sh → hmap_for_each (shash_data f sh) = node_data <$> hmap_for_each sh.
Proof. intros Hwf. rewrite !hmap_for_each_nodes, hnodes_data by (done || by apply data_wf). by rewrite <- !list_fmap_compose. Qed.

Lemma count_data (sh : shash A) : shash_count (shash_data f sh) = shash_count sh.
Proof. done. Qed.

Lemma sort_data (sh : shash A) : shash_ok sh → shash_sort (shash_data f sh) = node_data <$> shash_sort sh.
Proof.
  intros Hok. pose proof (data_ok sh Hok) as Hok'. destruct (shash_sort_spec sh Hok) as [S1 P1].
  destruct (shash_sort_spec _ Hok') as [S2 P2].
  apply (Sorted_unique_strong node_le).
  - intros [k d] n2 H1 H2 L1 L2. apply list_elem_of_fmap in H2 as ([k' d'] & -> & H2).
    apply sort_nodes in H1; [|done]. apply sort_nodes in H2; [|done]. unfold node_le, node_data in *. simpl in *.
    rewrite strcmp_opp in L2. assert (k = k') as -> by (apply strcmp_eq; lia). rewrite data_map, lookup_fmap, H2 in H1.
    by injection H1 as <-.
  - done.
  - clear -S1. induction S1 as [|n ns HS IH Hd]; simpl; constructor; [done|]. destruct Hd; simpl; constructor. done.
  - rewrite (node_of_pairs (shash_sort (shash_data f sh))), (node_of_pairs (node_data <$> shash_sort sh)).
    apply fmap_Permutation. rewrite P2, data_members, <- P1, <- !list_fmap_compose. done.
Qed.
End data.

(** ** Equality, hashes and copies *)

Lemma ok_member o k v : json_ok (JSON_OBJECT o) → shash_map o !! k = Some v → json_ok v ∧ str_ok k.
Proof.
  intros Ho Hk. inversion Ho as [| | |? Hok Hn Hd| | | |]; subst. pose proof (name_has_node o k v Hok Hk) as Hin.
  split; [apply (Hd _ Hin)|apply (Hn _ Hin)].
Qed.

Lemma ok_shash o : json_ok (JSON_OBJECT o) → shash_ok o.
Proof. by inversion 1. Qed.

Lemma ok_object_map o :
  shash_ok o → (∀ k v, shash_map o !! k = Some v → json_ok v ∧ str_ok k) → json_ok (JSON_OBJECT o).
Proof.
  intros Hok H. constructor; [done|..]; intros [h [k v]] Hin; destruct (node_of_name o h k v Hok Hin) as [_ Hk]; by apply (H k v).
Qed.

Lemma abs_object o : json_abs (JSON_OBJECT o) = V_object (json_abs <$> shash_map o).
Proof. simpl. by rewrite data_map. Qed.

(** Induction that goes through the members of objects. *)
Lemma json_ok_induction (P : json → Prop) :
  P JSON_NULL → P JSON_FALSE → P JSON_TRUE →
  (∀ o, json_ok (JSON_OBJECT o) → (∀ k v, shash_map o !! k = Some v → P v) → P (JSON_OBJECT o)) →
  (∀ l, (∀ j, j ∈ l → json_ok j) → (∀ j, j ∈ l → P j) → P (JSON_ARRAY l)) →
  (∀ i, - 2 ^ 63 ≤ i < 2 ^ 63 → P (JSON_INTEGER i)) → (∀ r, real_ok r → P (JSON_REAL r)) →
  (∀ s, str_ok s → P (JSON_STRING s)) → ∀ j, json_ok j → P j.
Proof.
  intros H1 H2 H3 Ho Ha Hi Hr Hs j. induction 1 as [| | |o Hok Hn Hd IH|l Hl IH|i ?|r ?|s ?]; auto.
  apply Ho; [by constructor|]. intros k v Hk. apply (IH _ (name_has_node o k v Hok Hk)).
Qed.

Lemma double_zero_ok z : is_u64 z → z ≠ 2 ^ 63 → double_is_zero z = (z =? 0).
Proof.
  intros [H0 H1] Hn. unfold double_is_zero. change (2 ^ 63 - 1) with (Z.ones 63). rewrite (Z.land_ones z 63) by lia.
  assert (H2 : 2 ^ 64 = 2 ^ 63 * 2) by reflexivity. assert (H3 : 0 < 2 ^ 63) by reflexivity. revert H1 H2 H3 Hn.
  generalize (2 ^ 64) (2 ^ 63). intros a b H1 H2 H3 Hn. pose proof (Z.div_mod z b ltac:(lia)) as Hd.
  assert (0 ≤ z / b < 2) by (split; [apply Z.div_pos; lia|apply Z.div_lt_upper_bound; lia]).
  apply Bool.eq_iff_eq_true. rewrite !Z.eqb_eq. split; [|by intros ->; apply Z.mod_0_l; lia]. intros E. rewrite E in Hd.
  assert (z / b = 0 ∨ z / b = 1) as [E'|E'] by lia; rewrite E' in Hd; lia.
Qed.

Lemma double_eq_ok x y : real_ok x → real_ok y → double_eq x y = (x =? y).
Proof.
  intros (Hx & Nx & Cx) (Hy & Ny & Cy). unfold double_eq.
  destruct (double_classify x); [destruct Cx..|]. destruct (double_classify y); [destruct Cy..|].
  rewrite (double_zero_ok x Hx Nx), (double_zero_ok y Hy Ny).
  destruct (Z.eqb_spec x y); [reflexivity|]. destruct (Z.eqb_spec x 0), (Z.eqb_spec y 0); try reflexivity. lia.
Qed.

Lemma equal_object_spec o o' :
  shash_ok o → shash_ok o' →
  json_equal_object (shash_data json_equal o) o' = true ↔
  size (shash_map o) = size (shash_map o')
  ∧ ∀ k v, shash_map o !! k = Some v → ∃ v', shash_map o' !! k = Some v' ∧ json_equal v v' = true.
Proof.
  intros H1 H2. unfold json_equal_object. rewrite count_data, !shash_count_map, for_each_data by (done || apply H1).
  rewrite andb_true_iff, Z.eqb_eq, List.forallb_forall. rewrite (inj_iff Z.of_nat).
  apply and_iff_compat_l. split.
  - intros H k v Hk. specialize (H (node_data json_equal (ShashNode k v))). simpl in H. rewrite shash_find_map in H by done.
    destruct (shash_map o' !! k) as [v'|]; simpl in H; [exists v'; split; [done|]; apply H|discriminate H];
      apply list_elem_of_In, list_elem_of_fmap_2; rewrite hmap_for_each_nodes by apply H1;
      apply list_elem_of_fmap; exists (HNode (hash_name k) (ShashNode k v)); split; [done|by apply name_has_node|done|by apply name_has_node].
  - intros H n Hn%list_elem_of_In. apply list_elem_of_fmap in Hn as ([k v] & -> & Hn). rewrite hmap_for_each_nodes in Hn by apply H1.
    apply list_elem_of_fmap in Hn as ([h n] & E & Hn). simpl in E. subst n.
    destruct (node_of_name o h k v H1 Hn) as [_ Hk]. destruct (H k v Hk) as (v' & Hv' & He). simpl.
    rewrite shash_find_map, Hv' by done. done.
Qed.

Lemma equal_maps (m m' : gmap (list Z) json) :
  (∀ k v v', m !! k = Some v → m' !! k = Some v' → json_equal v v' = true ↔ json_abs v = json_abs v') →
  (size m = size m' ∧ ∀ k v, m !! k = Some v → ∃ v', m' !! k = Some v' ∧ json_equal v v' = true)
  ↔ json_abs <$> m = json_abs <$> m'.
Proof.
  intros IH. split.
  - intros [Hs H]. assert (Hd : dom m = dom m').
    { apply set_subseteq_size_eq; [|rewrite !size_dom; lia]. intros k Hk. apply elem_of_dom in Hk as [v Hk].
      destruct (H k v Hk) as (v' & Hk' & _). apply elem_of_dom. by exists v'. }
    apply map_eq. intros k. rewrite !lookup_fmap. destruct (m !! k) as [v|] eqn:Hk.
    + destruct (H k v Hk) as (v' & Hk' & He). rewrite Hk'. simpl. f_equal. by apply (IH k).
    + apply not_elem_of_dom in Hk. rewrite Hd in Hk. apply not_elem_of_dom in Hk. by rewrite Hk.
  - intros H. split; [rewrite <- (map_size_fmap json_abs m), H; apply map_size_fmap|].
    intros k v Hk. apply (f_equal (lookup k)) in H. rewrite !lookup_fmap, Hk in H. simpl in H.
    destruct (m' !! k) as [v'|] eqn:Hk'; [|done]. exists v'. split; [done|]. apply (IH k v v' Hk Hk'). by injection H.
Qed.

Lemma equal_array_spec l l' :
  (∀ j j', j ∈ l → j' ∈ l' → json_equal j j' = true ↔ json_abs j = json_abs j') →
  json_equal_array (List.map json_equal l) l' = true ↔ json_abs <$> l = json_abs <$> l'.
Proof.
  revert l'. induction l as [|j l IH]; intros [|j' l'] H; [done..|]. rewrite !fmap_cons. simpl.
  rewrite andb_true_iff, IH by (intros; apply H; by right). rewrite (H j j') by (by left). split.
  - intros [-> ->]. done.
  - by intros [= -> ->].
Qed.

(** [json_equal] decides whether two values mean the same. *)
Lemma json_equal_abs a b : json_ok a → json_ok b → json_equal a b = true ↔ json_abs a = json_abs b.
Proof.
  intros Ha. revert a Ha b. refine (json_ok_induction _ _ _ _ _ _ _ _ _);
    [|  | |intros o Ho IH|intros l Hl IH|intros i Hi|intros r Hr|intros s Hs]; intros [| | |o'|l'|i'|r'|s'] Hb;
    try (split; [discriminate|discriminate]); try (split; reflexivity).
  - rewrite !abs_object. simpl. pose proof (ok_shash _ Ho). pose proof (ok_shash _ Hb). rewrite equal_object_spec, equal_maps; [|..|done|done].
    + split; [by intros ->|by intros [=]].
    + intros k v v' Hk Hk'. apply (IH k); [done|]. by apply (ok_member o' k).
  - simpl. rewrite equal_array_spec.
    + change List.map with (@fmap list _). split; [by intros ->|by intros [=]].
    + intros j j' Hj Hj'. apply IH; [done|]. inversion Hb; subst. auto.
  - simpl. rewrite Z.eqb_eq. split; [by intros ->|by intros [=]].
  - simpl. inversion Hb; subst. rewrite double_eq_ok, Z.eqb_eq by done. split; [by intros ->|by intros [=]].
  - simpl. rewrite bool_decide_eq_true. split; [by intros ->|by intros [=]].
Qed.

Lemma sort_abs o o' :
  shash_ok o → shash_ok o' → json_abs <$> shash_map o = json_abs <$> shash_map o' →
  node_data json_abs <$> shash_sort o = node_data json_abs <$> shash_sort o'.
Proof.
  intros H1 H2 H. rewrite <- !sort_data by done. apply shash_sort_unique; [by apply data_ok..|]. by rewrite !data_map.
Qed.

Lemma hash_nodes (ns ns' : list (shash_node json)) basis :
  node_data json_abs <$> ns = node_data json_abs <$> ns' →
  (∀ n n', n ∈ ns → n' ∈ ns' → json_abs (sn_data n) = json_abs (sn_data n') → ∀ basis, json_hash (sn_data n) basis = json_hash (sn_data n') basis) →
  foldl (λ basis n, sn_data n (hash_string (sn_name n) basis)) basis (node_data json_hash <$> ns)
  = foldl (λ basis n, sn_data n (hash_string (sn_name n) basis)) basis (node_data json_hash <$> ns').
Proof.
  revert ns' basis. induction ns as [|[k v] ns IH]; intros [|[k' v'] ns'] basis E H; [done..|].
  rewrite !fmap_cons in *. injection E as -> Ev E. simpl.
  rewrite (H (ShashNode k' v) (ShashNode k' v')) by (done || by left). apply IH; [done|]. intros. apply H; [by right..|done].
Qed.

Lemma hash_elems (l l' : list json) basis :
  json_abs <$> l = json_abs <$> l' →
  (∀ j j', j ∈ l → j' ∈ l' → json_abs j = json_abs j' → ∀ basis, json_hash j basis = json_hash j' basis) →
  foldl (λ basis h, h basis) basis (List.map json_hash l) = foldl (λ basis h, h basis) basis (List.map json_hash l').
Proof.
  revert l' basis. induction l as [|j l IH]; intros [|j' l'] basis E H; [done..|]. rewrite !fmap_cons in E. injection E as Ej E.
  simpl. rewrite (H j j') by (done || by left). apply IH; [done|]. intros. apply H; [by right..|done].
Qed.

(** Values that mean the same have the same hash. *)
Lemma json_hash_abs a b basis :
  json_ok a → json_ok b → json_abs a = json_abs b → json_hash a basis = json_hash b basis.
Proof.
  intros Ha. revert a Ha b basis. refine (json_ok_induction _ _ _ _ _ _ _ _ _);
    [|  | |intros o Ho IH|intros l Hl IH|intros i Hi|intros r Hr|intros s Hs]; intros [| | |o'|l'|i'|r'|s'] basis Hb;
    try discriminate; try reflexivity.
  - rewrite !abs_object. intros [= E]. pose proof (ok_shash _ Ho). pose proof (ok_shash _ Hb). simpl. unfold json_hash_object.
    rewrite !sort_data by done. apply hash_nodes; [by apply sort_abs|]. intros n n' Hn Hn' En basis'.
    apply (IH (sn_name n)); [by apply sort_nodes| |done]. apply (ok_member o' (sn_name n')); [done|by apply sort_nodes].
  - simpl. change List.map with (@fmap list _) at 1 2. intros [= E]. unfold json_hash_array.
    rewrite !List.length_map, <- (length_fmap json_abs l), <- (length_fmap json_abs l'), E.
    apply hash_elems; [done|]. intros j j' Hj Hj' Ej basis'. apply IH; [done| |done]. inversion Hb; subst. auto.
  - by intros [= ->].
  - by intros [= ->].
  - by intros [= ->].
Qed.

Lemma put_all_spec (ns : list (shash_node json)) o :
  json_ok (JSON_OBJECT o) → (∀ n, n ∈ ns → json_ok (sn_data n) ∧ str_ok (sn_name n)) → NoDup (sn_name <$> ns) →
  (∀ n, n ∈ ns → shash_map o !! sn_name n = None) →
  let o' := foldl (λ o n, (shash_replace o (sn_name n) (sn_data n)).1) o ns in
  json_ok (JSON_OBJECT o')
  ∧ shash_map o' = list_to_map ((λ n, (sn_name n, sn_data n)) <$> ns) ∪ shash_map o.
Proof.
  revert o. induction ns as [|[k v] ns IH]; intros o Ho Hn Hnd Hfree; simpl; [split; [done|by rewrite (left_id_L ∅ (∪))]|].
  rewrite fmap_cons in Hnd. apply NoDup_cons in Hnd as [Hk Hnd].
  pose proof (shash_replace_spec o k v (ok_shash _ Ho)) as Hr. destruct (shash_replace o k v) as [o1 old]. destruct Hr as (Hok & Hm & _). simpl.
  destruct (IH o1) as [H1 H2].
  - apply ok_object_map; [done|]. rewrite Hm. intros k' v' [[<- <-]|[_ Hk']]%lookup_insert_Some; [apply (Hn (ShashNode k v)); by left|].
    by apply (ok_member o).
  - intros n Hin. apply Hn. by right.
  - done.
  - intros n Hin. rewrite Hm. rewrite lookup_insert_ne; [apply Hfree; by right|]. intros E.
    apply Hk, list_elem_of_fmap. by exists n.
  - split; [done|]. rewrite H2, Hm. rewrite <- insert_union_l, <- insert_union_r; [done|].
    apply not_elem_of_list_to_map_1. rewrite <- list_fmap_compose. exact Hk.
Qed.

Lemma abs_array l : json_abs (JSON_ARRAY l) = V_array (json_abs <$> l).
Proof. done. Qed.

(** A copy is a value of its own with the same meaning. *)
Lemma json_clone_spec j : json_ok j → json_ok (json_clone j) ∧ json_abs (json_clone j) = json_abs j.
Proof.
  revert j. refine (json_ok_induction _ _ _ _ _ _ _ _ _);
    [|  | |intros o Ho IH|intros l Hl IH|intros i Hi|intros r Hr|intros s Hs];
    try (split; [by constructor|reflexivity]).
  - pose proof (ok_shash _ Ho) as Hok. pose proof (data_ok json_clone o Hok) as Hok'. cbn [json_clone]. unfold json_clone_object.
    destruct (put_all_spec (hmap_for_each (shash_data json_clone o)) shash_init) as [H1 H2].
    + apply ok_object_map; [apply shash_init_ok|done].
    + intros n Hn. rewrite for_each_data in Hn by apply Hok. apply list_elem_of_fmap in Hn as ([k v] & -> & Hn). simpl.
      rewrite hmap_for_each_nodes in Hn by apply Hok. apply list_elem_of_fmap in Hn as ([h n'] & E & Hn). simpl in E. subst n'.
      destruct (node_of_name o h k v Hok Hn) as [_ Hk]. split; [by apply (IH k)|by apply (ok_member o k v)].
    + pose proof (so_names _ Hok') as Hnd. rewrite <- for_each_members, <- list_fmap_compose in Hnd by done. exact Hnd.
    + done.
    + split; [done|]. rewrite !abs_object, H2. f_equal. rewrite for_each_members by done. fold (shash_map (shash_data json_clone o)).
      rewrite data_map, (proj2 shash_init_ok), (right_id_L ∅ (∪)), <- map_fmap_compose. apply map_fmap_ext. intros k v Hk. by apply (IH k).
  - split; [constructor; intros j (j' & -> & Hj)%list_elem_of_fmap; by apply IH|].
    cbn [json_clone]. rewrite !abs_array. f_equal. change List.map with (@fmap list _). rewrite <- list_fmap_compose.
    apply list_fmap_ext. intros i j Hj. apply IH. by eapply list_elem_of_lookup_2.
Qed.

(** ** The length of the text *)

Definition sumZ (l : list Z) : Z := foldr Z.add 0 l.

Lemma sumZ_cons x l : sumZ (x :: l) = x + sumZ l.
Proof. done. Qed.

Lemma foldl_sum {A} (g : A → Z) l z : foldl (λ n x, n + g x) z l = z + sumZ (g <$> l).
Proof. revert z. induction l as [|x l IH]; intros z; [symmetry; apply Z.add_0_r|]. simpl foldl. rewrite IH, fmap_cons, sumZ_cons. lia. Qed.

Lemma foldl_sum_ext {A} (f : Z → A → Z) (g : A → Z) l z : (∀ n x, f n x = n + g x) → foldl f z l = z + sumZ (g <$> l).
Proof. intros Hf. rewrite <- foldl_sum. revert z. induction l as [|x l IH]; intros z; [done|]. simpl. by rewrite Hf. Qed.

Lemma sumZ_perm l l' : l ≡ₚ l' → sumZ l = sumZ l'.
Proof. unfold sumZ. induction 1; simpl; lia. Qed.

(** Separators between the elements. *)
Lemma length_separated {A} (g : A → list Z) (h : nat → A → list Z) l :
  (∀ i x, length (h i x) = ((if (0 <? i)%nat then 1 else 0) + length (g x))%nat) →
  Z.of_nat (length (concat (imap h l))) = sumZ ((λ x, Z.of_nat (length (g x))) <$> l) + Z.max 0 (Z.of_nat (length l) - 1).
Proof.
  intros Hh. assert (H : ∀ l (h' : nat → A → list Z), (∀ i x, length (h' i x) = S (length (g x))) →
    Z.of_nat (length (concat (imap h' l))) = sumZ ((λ x, Z.of_nat (length (g x))) <$> l) + Z.of_nat (length l)).
  { clear l Hh h. induction l as [|x l IH]; intros h' Hh; [done|]. rewrite imap_cons, fmap_cons, sumZ_cons. cbn [concat].
    rewrite length_app, Hh, Nat2Z.inj_add, IH by (intros; apply Hh). simpl length. lia. }
  destruct l as [|x l]; [done|]. rewrite imap_cons, fmap_cons, sumZ_cons. cbn [concat].
  rewrite length_app, Hh, Nat2Z.inj_add, H by (intros; apply Hh). change (0 <? 0)%nat with false. cbn [length Nat.add].
  lia.
Qed.

Lemma serialize_char_length c :
  0 < c < 256 →
  Z.of_nat (length (serialize_char c))
  = if existsb (λ d, c =? d) [c_quote; chr "\"; 8; 12; 10; 13; 9] then 2 else if 32 <=? c then 1 else 6.
Proof.
  intros Hc. assert (H : Forall (λ c, Z.of_nat (length (serialize_char c))
    = if existsb (λ d, c =? d) [c_quote; chr "\"; 8; 12; 10; 13; 9] then 2 else if 32 <=? c then 1 else 6) (seqZ 1 255))
    by (apply (bool_decide_unpack _); by vm_compute).
  rewrite Forall_forall in H. apply H, elem_of_seqZ. lia.
Qed.

Lemma string_length_spec s : str_ok s → json_string_serialized_length s = Z.of_nat (length (json_serialize_string s)).
Proof.
  intros Hs. unfold json_string_serialized_length, json_serialize_string. rewrite foldl_sum. simpl length. rewrite length_app.
  assert (H : sumZ ((λ c, if existsb (λ d, c =? d) [c_quote; chr "\"; 8; 12; 10; 13; 9] then 2 else if 32 <=? c then 1 else 6) <$> s)
              = Z.of_nat (length (concat (serialize_char <$> s)))).
  { induction Hs as [|c s Hc Hs IH]; [done|]. rewrite !fmap_cons, sumZ_cons. cbn [concat]. rewrite length_app, IH, <- serialize_char_length by done. lia. }
  rewrite H. simpl. lia.
Qed.

Lemma indent_plain flags d : any_bit flags JSSF_PRETTY = false → indent_line flags d = [].
Proof. unfold indent_line. by intros ->. Qed.

Lemma length_bracketed (a b : Z) l : Z.of_nat (length (a :: l ++ [b])) = 2 + Z.of_nat (length l).
Proof. cbn [length]. rewrite length_app. simpl. lia. Qed.

Lemma object_length_spec flags d (o : shash (list Z)) :
  any_bit flags JSSF_PRETTY = false → shash_ok o → (∀ n, n ∈ hnodes o → str_ok (sn_name (hn_data n))) →
  json_object_serialized_length (shash_data (λ s, Z.of_nat (length s)) o) = Z.of_nat (length (json_serialize_object flags d o)).
Proof.
  intros Hf Hok Hn. set (w := λ n : shash_node (list Z), Z.of_nat (length (json_serialize_string (sn_name n))) + 1 + Z.of_nat (length (sn_data n))).
  assert (Hp : (if any_bit flags JSSF_SORT then shash_sort o else hmap_for_each o) ≡ₚ hmap_for_each o).
  { destruct (any_bit flags JSSF_SORT); [|done]. rewrite (node_of_pairs (shash_sort o)), (node_of_pairs (hmap_for_each o)).
    apply fmap_Permutation. rewrite for_each_members by done. by apply shash_sort_spec. }
  unfold json_serialize_object, json_object_serialized_length. rewrite !indent_plain by done.
  set (ns := if any_bit flags JSSF_SORT then _ else _) in *. rewrite (app_nil_l (concat _ ++ _)), length_bracketed.
  rewrite (length_separated (λ n, json_serialize_string (sn_name n) ++ [chr ":"] ++ sn_data n)).
  2: { intros i n. unfold json_serialize_object_member. rewrite indent_plain, Hf by done. rewrite !length_app. by destruct (0 <? i)%nat. }
  rewrite (sumZ_perm _ _ (fmap_Permutation _ _ _ Hp)), (Permutation_length Hp).
  rewrite for_each_data, hmap_for_each_nodes, length_fmap, <- (wf_n o (so_wf _ Hok)) by apply Hok.
  change (shash_is_empty (shash_data (λ s, Z.of_nat (length s)) o)) with (hm_n o =? 0).
  rewrite count_data. unfold shash_count, hmap_count.
  assert (Hs : sumZ ((λ n, json_string_serialized_length (sn_name n) + sn_data n) <$> (node_data (λ s, Z.of_nat (length s)) <$> (hn_data <$> hnodes o))) + hm_n o
             = sumZ ((λ x, Z.of_nat (length (json_serialize_string (sn_name x) ++ [chr ":"] ++ sn_data x))) <$> (hn_data <$> hnodes o))).
  { rewrite (wf_n o (so_wf _ Hok)). clear Hp ns. induction (hnodes o) as [|n ns IH]; [done|].
    rewrite !fmap_cons, !sumZ_cons, length_cons. rewrite <- IH by (intros; apply Hn; by right). 
    rewrite !length_app, !Nat2Z.inj_add, <- string_length_spec by (apply Hn; by left). simpl. lia. }
  pose proof (hmap_n_nonneg o (so_wf _ Hok)).
  destruct (Z.eqb_spec (hm_n o) 0) as [E|E]; cbn [negb].
  - pose proof (wf_n o (so_wf _ Hok)) as Hw. rewrite E in *. destruct (hnodes o); [done|]. rewrite length_cons in Hw. lia.
  - rewrite <- Hs, (foldl_sum_ext _ (λ n, json_string_serialized_length (sn_name n) + sn_data n)) by (intros; lia). lia.
Qed.

Lemma array_length_spec flags d (l : list (list Z)) :
  any_bit flags JSSF_PRETTY = false →
  json_array_serialized_length ((λ s, Z.of_nat (length s)) <$> l) = Z.of_nat (length (json_serialize_array flags d l)).
Proof.
  intros Hf. unfold json_serialize_array, json_array_serialized_length. rewrite length_fmap, !indent_plain, length_bracketed by done.
  destruct l as [|s l]; [done|]. change (0 <? length (s :: l))%nat with true. cbn [andb]. cbv iota.
  rewrite (foldl_sum_ext _ (λ x, x)) by done. rewrite list_fmap_id, app_nil_l, (length_separated (λ s, s)).
  2: { intros i x. rewrite length_app. by destruct (0 <? i)%nat. }
  cbn [length]. lia.
Qed.

Lemma data_ext {A B} (f g : A → B) (sh : shash A) :
  (∀ n, n ∈ hnodes sh → f (sn_data (hn_data n)) = g (sn_data (hn_data n))) → shash_data f sh = shash_data g sh.
Proof.
  intros H. unfold shash_data. f_equal. unfold hnodes in H. induction (hm_buckets sh) as [|b bs IH]; [done|]. simpl in *. f_equal.
  - apply List.map_ext_in. intros n Hn. rewrite H; [done|]. apply elem_of_app. left. by apply list_elem_of_In.
  - apply IH. intros n Hn. apply H, elem_of_app. by right.
Qed.

Lemma data_compose {A B C} (f : A → B) (g : B → C) sh : shash_data g (shash_data f sh) = shash_data (λ x, g (f x)) sh.
Proof.
  unfold shash_data. simpl. f_equal. rewrite List.map_map. apply List.map_ext. intros b. by rewrite List.map_map.
Qed.

Lemma length_plain_text j : json_ok j → ∀ flags d, any_bit flags JSSF_PRETTY = false →
  json_serialized_length j = Z.of_nat (length (json_serialize flags d j)).
Proof.
  revert j. refine (json_ok_induction _ _ _ _ _ _ _ _ _);
    [| | |intros o Ho IH|intros l Hl IH|intros i Hi|intros r Hr|intros s Hs]; intros flags d Hf; try done.
  - pose proof (ok_shash _ Ho) as Hok. cbn [json_serialized_length json_serialize].
    rewrite <- object_length_spec; [|done|by apply data_ok|].
    + rewrite data_compose. f_equal. apply data_ext. intros [h [k v]] Hn. destruct (node_of_name o h k v Hok Hn) as [_ Hk]. by apply (IH k).
    + intros n Hn. rewrite hnodes_data in Hn. apply list_elem_of_fmap in Hn as ([h [k v]] & -> & Hn).
      destruct (node_of_name o h k v Hok Hn) as [_ Hk]. by apply (ok_member o k v).
  - cbn [json_serialized_length json_serialize]. rewrite <- array_length_spec by done. f_equal.
    change List.map with (@fmap list _). rewrite <- list_fmap_compose. apply list_fmap_ext. intros i j Hj. apply IH; [|done].
    by eapply list_elem_of_lookup_2.
  - by apply string_length_spec.
Qed.

(** ** Theorems *)

(** Why the trees have finite reals other than a negative zero: the two zeros
    are equal and have different hashes, and a NaN is not equal to its
    clone. *)
Lemma json_reals_excluded :
  json_equal (JSON_REAL 0) (JSON_REAL (2 ^ 63)) = true ∧ json_hash (JSON_REAL 0) 0 ≠ json_hash (JSON_REAL (2 ^ 63)) 0
  ∧ json_equal (json_clone (JSON_REAL (0x7ff8 * 2 ^ 48))) (JSON_REAL (0x7ff8 * 2 ^ 48)) = false.
Proof. split; [vm_compute; reflexivity|]. split; [vm_compute; discriminate|vm_compute; reflexivity]. Qed.

(** C30: for trees with well-formed hash tables, C strings, 64-bit integers and
    finite reals other than a negative zero, json_equal() is equality of the
    values that two trees mean, in which an object is a finite map: it does
    not depend on the order of the members or on the hash tables' shapes.
    Equal values have equal hashes from every basis, and a clone is a tree of
    its own that is equal to the original. *)
Theorem json_equal_hash_clone a b :
  json_ok a → json_ok b →
  (json_equal a b = true ↔ json_abs a = json_abs b)
  ∧ (json_equal a b = true → ∀ basis, json_hash a basis = json_hash b basis)
  ∧ json_ok (json_clone a) ∧ json_equal (json_clone a) a = true ∧ json_equal a (json_clone a) = true.
Proof.
  intros Ha Hb. destruct (json_clone_spec a Ha) as [Hc Ec]. split; [by apply json_equal_abs|]. split.
  { intros E basis. apply json_hash_abs; [done..|]. by apply json_equal_abs. }
  split; [done|]. split; by apply json_equal_abs.
Qed.

Lemma json_equal_hash_clone_witness :
  (json_equal (JSON_ARRAY [JSON_TRUE]) (JSON_ARRAY []) = true ↔ json_abs (JSON_ARRAY [JSON_TRUE]) = json_abs (JSON_ARRAY []))
  ∧ (json_equal (JSON_ARRAY [JSON_TRUE]) (JSON_ARRAY []) = true →
     ∀ basis, json_hash (JSON_ARRAY [JSON_TRUE]) basis = json_hash (JSON_ARRAY []) basis)
  ∧ json_ok (json_clone (JSON_ARRAY [JSON_TRUE])) ∧ json_equal (json_clone (JSON_ARRAY [JSON_TRUE])) (JSON_ARRAY [JSON_TRUE]) = true
  ∧ json_equal (JSON_ARRAY [JSON_TRUE]) (json_clone (JSON_ARRAY [JSON_TRUE])) = true.
Proof.
  apply (json_equal_hash_clone (JSON_ARRAY [JSON_TRUE]) (JSON_ARRAY [])).
  - apply ok_array. intros j ->%list_elem_of_singleton. constructor.
  - apply ok_array. by intros j ?%elem_of_nil.
Defined.

(** json_serialized_length() is the length of the text that
    json_to_string() writes without JSSF_PRETTY, sorted or not. *)
Theorem json_serialized_length_exact j flags :
  json_ok j → any_bit flags JSSF_PRETTY = false → json_serialized_length j = Z.of_nat (length (json_to_string j flags)).
Proof. intros. by apply length_plain_text. Qed.

Lemma json_serialized_length_exact_witness :
  json_serialized_length (JSON_ARRAY [JSON_TRUE; JSON_STRING [10; 1]])
  = Z.of_nat (length (json_to_string (JSON_ARRAY [JSON_TRUE; JSON_STRING [10; 1]]) JSSF_SORT)).
Proof.
  apply (json_serialized_length_exact (JSON_ARRAY [JSON_TRUE; JSON_STRING [10; 1]]) JSSF_SORT); [|reflexivity].
  apply ok_array. intros j Hj. repeat (apply elem_of_cons in Hj as [->|Hj]); [constructor|constructor|by apply elem_of_nil in Hj].
  repeat constructor; lia.
Defined.
