(* ===== verification/JsonParse.v ===== *)
(** * What the JSON parser builds

    The tree under construction in terms of its meaning ([jval]): the value
    at a path and its replacement.  The parser never fails an assertion, its
    result does not depend on how the input is cut into pieces. *)
From stdpp Require Import gmap sorting.
From S2P Require Import Prelude ByteOrder Hash Hmap Shash Text Json JsonThms.

Open Scope Z_scope.

(** ** Trees whose objects are well-formed maps *)

Inductive json_wf : json → Prop :=
| wf_object o : shash_ok o → (∀ k v, shash_map o !! k = Some v → json_wf v) → json_wf (JSON_OBJECT o)
| wf_array l : (∀ j, j ∈ l → json_wf j) → json_wf (JSON_ARRAY l)
| wf_leaf j : match j with JSON_OBJECT _ | JSON_ARRAY _ => False | _ => True end → json_wf j.

Lemma wf_object_inv o : json_wf (JSON_OBJECT o) → shash_ok o ∧ ∀ k v, shash_map o !! k = Some v → json_wf v.
Proof. inversion 1; subst; [done|by destruct H0]. Qed.

Lemma wf_array_inv l : json_wf (JSON_ARRAY l) → ∀ j, j ∈ l → json_wf j.
Proof. inversion 1; subst; [done|by destruct H0]. Qed.

Lemma ok_wf j : json_ok j → json_wf j.
Proof.
  revert j. refine (json_ok_induction _ _ _ _ _ _ _ _ _); intros; try (by apply wf_leaf).
  - apply wf_object; [by apply ok_shash|done].
  - by apply wf_array.
Qed.

(** The other conditions of [json_ok] depend on the meaning alone. *)
Lemma ok_of_abs j : json_ok j → ∀ j', json_wf j' → json_abs j' = json_abs j → json_ok j'.
Proof.
  revert j. refine (json_ok_induction _ _ _ _ _ _ _ _ _);
    [| | |intros o Ho IH|intros l Hl IH|intros i Hi|intros r Hr|intros s Hs]; intros [] Hw E; try discriminate E;
    try first [exact ok_null|exact ok_false|exact ok_true].
  - rewrite !abs_object in E. injection E as E. apply wf_object_inv in Hw as [Hok Hm]. apply ok_object_map; [done|].
    intros k v Hk. assert (Hv : (json_abs <$> shash_map o) !! k = Some (json_abs v)) by (rewrite <- E, lookup_fmap, Hk; done).
    rewrite lookup_fmap in Hv. destruct (shash_map o !! k) as [v'|] eqn:Hk'; [|done]. injection Hv as Hv.
    split; [eapply IH; [done|by eapply Hm|done]|]. by apply (ok_member o k v').
  - rewrite !abs_array in E. injection E as E. constructor. intros j Hj. pose proof Hj as [i Hi]%list_elem_of_lookup.
    assert (Hv : (json_abs <$> l) !! i = Some (json_abs j)) by (rewrite <- E, list_lookup_fmap, Hi; done).
    rewrite list_lookup_fmap in Hv. destruct (l !! i) as [j'|] eqn:Hi'; [|done]. injection Hv as Hv.
    eapply IH; [by eapply list_elem_of_lookup_2|by eapply wf_array_inv|done].
  - injection E as ->. by apply ok_integer.
  - injection E as ->. by apply ok_real.
  - injection E as ->. by apply ok_string.
Qed.

(** ** Paths *)

Definition v_child (s : json_step) (v : jval) : option jval :=
  match s, v with
  | In_array i, V_array elems => elems !! i
  | In_object name, V_object object => object !! name
  | _, _ => None
  end.

Definition v_set_child (s : json_step) (c v : jval) : jval :=
  match s, v with
  | In_array i, V_array elems => V_array (<[i := c]> elems)
  | In_object name, V_object object => V_object (<[name := c]> object)
  | _, _ => v
  end.

Fixpoint v_at (path : list json_step) (v : jval) : option jval :=
  match path with
  | [] => Some v
  | s :: path => c ← v_child s v; v_at path c
  end.

Fixpoint v_set (path : list json_step) (x v : jval) : jval :=
  match path with
  | [] => x
  | s :: path => match v_child s v with Some c => v_set_child s (v_set path x c) v | None => v end
  end.

Lemma v_child_set s c c0 v : v_child s v = Some c0 → v_child s (v_set_child s c v) = Some c.
Proof.
  destruct s as [i|k], v; try done; simpl.
  - intros H%lookup_lt_Some. by rewrite list_lookup_insert_eq.
  - intros _. by rewrite lookup_insert_eq.
Qed.

Lemma v_set_child_twice s c c' v : v_set_child s c (v_set_child s c' v) = v_set_child s c v.
Proof. destruct s as [i|k], v; try done; simpl; f_equal; [apply list_insert_insert_eq|apply insert_insert_eq]. Qed.

Lemma v_at_set path x v y : v_at path v = Some y → v_at path (v_set path x v) = Some x.
Proof.
  revert v. induction path as [|s path IH]; intros v; [done|]. simpl. destruct (v_child s v) as [c|] eqn:Hc; [|done]. simpl. intros H.
  rewrite (v_child_set _ _ _ _ Hc). simpl. by apply IH.
Qed.

Lemma v_set_set path x y v : v_set path x (v_set path y v) = v_set path x v.
Proof.
  revert v. induction path as [|s path IH]; intros v; [done|]. simpl. destruct (v_child s v) as [c|] eqn:Hc; [|by rewrite Hc].
  by rewrite (v_child_set _ _ _ _ Hc), IH, v_set_child_twice.
Qed.

Lemma v_at_app path s v : v_at (path ++ [s]) v = v_at path v ≫= v_child s.
Proof.
  revert v. induction path as [|s' path IH]; intros v; simpl; [by destruct (v_child s v)|].
  destruct (v_child s' v); simpl; [apply IH|done].
Qed.

Lemma v_set_app path s x v node c :
  v_at path v = Some node → v_child s node = Some c → v_set (path ++ [s]) x v = v_set path (v_set_child s x node) v.
Proof.
  revert v. induction path as [|s' path IH]; intros v; simpl.
  - intros [= ->] Hc. by rewrite Hc.
  - destruct (v_child s' v) as [c'|]; simpl; [|done]. intros H1 H2. by rewrite IH.
Qed.

(** The tree follows its meaning. *)
Lemma child_abs s j c : json_wf j → v_child s (json_abs j) = Some c → ∃ j', json_child s j = Some j' ∧ json_wf j' ∧ json_abs j' = c.
Proof.
  intros Hw. destruct s as [i|k], j; try done.
  - rewrite abs_array. simpl. rewrite list_lookup_fmap. destruct (elems !! i) as [j'|] eqn:E; [|done]. intros [= <-]. exists j'.
    split; [done|]. split; [|done]. eapply wf_array_inv; [done|by eapply list_elem_of_lookup_2].
  - rewrite abs_object. simpl. apply wf_object_inv in Hw as [Hok Hm]. rewrite lookup_fmap. unfold shash_find_data.
    rewrite shash_find_map by done. destruct (shash_map object !! k) as [j'|] eqn:E; [|done]. intros [= <-]. exists j'.
    split; [done|]. split; [by apply (Hm k)|done].
Qed.

Lemma at_abs path j v :
  json_wf j → v_at path (json_abs j) = Some v → ∃ j', json_at path j = Some j' ∧ json_wf j' ∧ json_abs j' = v.
Proof.
  revert j. induction path as [|s path IH]; intros j Hw; simpl; [intros [= <-]; by exists j|].
  destruct (v_child s (json_abs j)) as [c|] eqn:E; [|done]. simpl. destruct (child_abs s j c Hw E) as (j' & -> & Hw' & <-). simpl.
  by apply IH.
Qed.

Lemma replace_wf o k v : json_wf (JSON_OBJECT o) → json_wf v →
  json_wf (JSON_OBJECT (shash_replace o k v).1)
  ∧ json_abs (JSON_OBJECT (shash_replace o k v).1) = V_object (<[k := json_abs v]> (json_abs <$> shash_map o)).
Proof.
  intros [Hok Hm]%wf_object_inv Hv. pose proof (shash_replace_spec o k v Hok) as H. destruct (shash_replace o k v) as [o' old].
  destruct H as (Hok' & E & _). cbn [fst]. split; [|by rewrite abs_object, E, fmap_insert]. apply wf_object; [done|].
  rewrite E. intros k' v' [[<- <-]|[_ Hk]]%lookup_insert_Some; [done|by apply (Hm k')].
Qed.

Lemma set_child_abs s j c c0 :
  json_wf j → json_wf c → v_child s (json_abs j) = Some c0 →
  ∃ j', json_set_child s c j = Some j' ∧ json_wf j' ∧ json_abs j' = v_set_child s (json_abs c) (json_abs j).
Proof.
  intros Hw Hc. destruct s as [i|k], j; try done; intros _; cbn [json_set_child]; eexists; (split; [done|]).
  - split; [|by rewrite !abs_array, list_fmap_insert]. apply wf_array. intros j' [i' Hj]%list_elem_of_lookup.
    apply list_lookup_insert_Some in Hj as [(_ & <- & _)|[_ Hj]]; [done|]. eapply wf_array_inv; [done|by eapply list_elem_of_lookup_2].
  - rewrite (abs_object object). by apply replace_wf.
Qed.

Lemma modify_abs path f j v v' :
  json_wf j → v_at path (json_abs j) = Some v →
  (∀ c, json_wf c → json_abs c = v → ∃ c', f c = Some c' ∧ json_wf c' ∧ json_abs c' = v') →
  ∃ j', json_modify path f j = Some j' ∧ json_wf j' ∧ json_abs j' = v_set path v' (json_abs j).
Proof.
  intros Hw Hv Hf. revert j Hw Hv. induction path as [|s path IH]; intros j Hw; simpl; [intros [= <-]; by apply Hf|].
  destruct (v_child s (json_abs j)) as [c|] eqn:E; [|done]. simpl. destruct (child_abs s j c Hw E) as (cj & -> & Hwc & <-). simpl.
  intros Hv. destruct (IH cj Hwc Hv) as (cj' & -> & Hwc' & <-). simpl. by eapply set_child_abs.
Qed.

(** ** Adding to the tree *)

(** Where the next value of a container goes, and the container with it. *)
Definition slot_of (node : jval) (name : option (list Z)) : option (json_step * (jval → jval)) :=
  match node, name with
  | V_array l, None => Some (In_array (length l), λ v, V_array (l ++ [v]))
  | V_object m, Some k => Some (In_object k, λ v, V_object (<[k := v]> m))
  | _, _ => None
  end.

Lemma slot_child node name s add v : slot_of node name = Some (s, add) → v_child s (add v) = Some v.
Proof.
  destruct node, name; try done; intros [= <- <-]; simpl; [apply lookup_insert_eq|].
  rewrite lookup_app_r, Nat.sub_diag by lia. done.
Qed.

Lemma slot_set_child node name s add v v' : slot_of node name = Some (s, add) → v_set_child s v' (add v) = add v'.
Proof.
  destruct node, name; try done; intros [= <- <-]; simpl; f_equal; [apply insert_insert_eq|].
  by rewrite insert_app_r_alt, Nat.sub_diag by lia.
Qed.

(** The stack of [p]: a tree with the meaning [v] and the path to its top. *)
Definition tree_at (p : json_parser) (v : jval) (path : list json_step) : Prop :=
  ∃ root, jp_stack p = Some (root, path) ∧ json_wf root ∧ json_abs root = v.

Definition put_tree (root : json) (path : list json_step) (p : json_parser) : json_parser :=
  set_member_name None (set_jstack (Some (root, path)) p).

Lemma put_value_spec p v path node s add value :
  tree_at p v path → v_at path v = Some node → slot_of node (jp_member_name p) = Some (s, add) → json_wf value →
  ∃ root, json_parser_put_value p value = Some (put_tree root path p) ∧ json_wf root
          ∧ json_abs root = v_set path (add (json_abs value)) v.
Proof.
  intros (root & Hs & Hw & <-) Hn Hslot Hv. unfold json_parser_put_value. rewrite Hs. simpl.
  destruct (at_abs path root node Hw Hn) as (j & -> & Hwj & Ej). cbn [mbind option_bind].
  destruct node, (jp_member_name p) as [k|] eqn:Hk; try done; injection Hslot as <- <-; destruct j; try discriminate Ej; cbn [mbind option_bind].
  - destruct (modify_abs path (λ j, json_object_put j k value) root _ (V_object (<[k := json_abs value]> object)) Hw Hn)
      as (root' & -> & Hw' & E); [|by exists root'].
    intros c Hwc Ec. destruct c; try discriminate Ec. rewrite abs_object in Ec. injection Ec as <-. eexists. split; [done|]. by apply replace_wf.
  - destruct (modify_abs path (λ j, json_array_add j value) root _ (V_array (elems ++ [json_abs value])) Hw Hn)
      as (root' & -> & Hw' & E).
    + intros c Hwc Ec. destruct c; try discriminate Ec. rewrite abs_array in Ec. injection Ec as <-. eexists. split; [done|].
      split; [|by rewrite abs_array, fmap_app]. apply wf_array. intros j [Hj| ->%list_elem_of_singleton]%elem_of_app; [|done].
      by eapply wf_array_inv.
    + exists root'. split; [|done]. simpl. unfold put_tree. destruct p. simpl in *. by rewrite Hk.
Qed.

Lemma next_step_spec p v path node s add :
  tree_at p v path → v_at path v = Some node → slot_of node (jp_member_name p) = Some (s, add) → next_step p = Some s.
Proof.
  intros (root & Hs & Hw & <-) Hn Hslot. unfold next_step, json_parser_top. rewrite Hs. simpl.
  destruct (at_abs path root node Hw Hn) as (j & -> & Hwj & Ej). cbn [mbind option_bind].
  destruct node, (jp_member_name p); try done; injection Hslot as <- <-; destruct j; try discriminate Ej; [done|].
  rewrite abs_array in Ej. injection Ej as <-. by rewrite length_fmap.
Qed.

Lemma push_spec p v path node s add new st :
  tree_at p v path → v_at path v = Some node → slot_of node (jp_member_name p) = Some (s, add) → json_wf new →
  (S (length path) < JSON_MAX_HEIGHT)%nat →
  ∃ root, json_parser_push p new st = Some (set_parse_state st (put_tree root (path ++ [s]) p)) ∧ json_wf root
          ∧ json_abs root = v_set path (add (json_abs new)) v.
Proof.
  intros Ht Hn Hslot Hw Hh. destruct (put_value_spec p v path node s add new) as (root & E & Hr); [done..|]. exists root.
  split; [|done]. pose proof Ht as (root0 & Hs & _). unfold json_parser_push, jp_height. rewrite Hs.
  rewrite (proj2 (Nat.ltb_lt _ _) Hh). change (0 <? S (length path))%nat with true. cbv iota.
  rewrite (next_step_spec p v path node s add Ht Hn Hslot). cbn [mbind option_bind]. rewrite E. done.
Qed.

Lemma push_first p new st :
  jp_stack p = None → json_parser_push p new st = Some (set_parse_state st (set_jstack (Some (new, [])) p)).
Proof. intros Hs. unfold json_parser_push, jp_height. by rewrite Hs. Qed.

Lemma push_too_deep p v path new st :
  tree_at p v path → (JSON_MAX_HEIGHT ≤ S (length path))%nat → ∃ msg, json_parser_push p new st = Some (json_error p msg).
Proof.
  intros (root & Hs & _) Hh. unfold json_parser_push, jp_height. rewrite Hs, (proj2 (Nat.ltb_ge _ _) Hh). by eexists.
Qed.

(** The state that goes on with a container, and the one that expects its
    next value. *)
Definition next_state (node : jval) : json_parse_state :=
  match node with V_array _ => JSON_PARSE_ARRAY_NEXT | _ => JSON_PARSE_OBJECT_NEXT end.

Definition is_container (v : jval) : Prop := match v with V_array _ | V_object _ => True | _ => False end.

Lemma child_container s v c : v_child s v = Some c → is_container v.
Proof. by destruct s, v. Qed.

Lemma pop_last p v node :
  tree_at p v [] → v_at [] v = Some node →
  json_parser_pop p = Some (if negb (any_bit (jp_flags p) JSPF_TRAILER) then set_done true (set_parse_state JSON_PARSE_END p)
                            else set_parse_state JSON_PARSE_END p).
Proof. intros (root & Hs & _ & _) _. unfold json_parser_pop, jp_height. by rewrite Hs. Qed.

Lemma pop_spec p v path s node :
  tree_at p v (path ++ [s]) → is_Some (v_at (path ++ [s]) v) → v_at path v = Some node →
  ∃ root, json_parser_pop p = Some (set_parse_state (next_state node) (set_jstack (Some (root, path)) p)) ∧ json_wf root ∧ json_abs root = v.
Proof.
  intros (root & Hs & Hw & <-) [c Hc] Hn. exists root. split; [|done]. unfold json_parser_pop, jp_height. rewrite Hs.
  cbn [mbind option_bind]. destruct (at_abs _ root c Hw Hc) as (j & -> & _ & _). cbn [mbind option_bind].
  rewrite List.removelast_last, length_app, Nat.add_comm. cbn [length Nat.add Nat.eqb].
  destruct (at_abs _ root node Hw Hn) as (j' & -> & _ & Ej). cbn [mbind option_bind].
  rewrite v_at_app, Hn in Hc. simpl in Hc. apply child_container in Hc. by destruct j'; subst node; try destruct Hc.
Qed.

(** ** The parser's invariant *)

(** The top of the stack and the name in each state between the first and the
    last. *)
Definition state_node (st : json_parse_state) (node : jval) (name : option (list Z)) : Prop :=
  match st, node, name with
  | (JSON_PARSE_OBJECT_INIT | JSON_PARSE_OBJECT_NAME | JSON_PARSE_OBJECT_NEXT), V_object _, None => True
  | (JSON_PARSE_OBJECT_COLON | JSON_PARSE_OBJECT_VALUE), V_object _, Some _ => True
  | (JSON_PARSE_ARRAY_INIT | JSON_PARSE_ARRAY_VALUE | JSON_PARSE_ARRAY_NEXT), V_array _, None => True
  | _, _, _ => False
  end.

Definition inside (p : json_parser) (st : json_parse_state) : Prop :=
  ∃ v path node, tree_at p v path ∧ v_at path v = Some node ∧ state_node st node (jp_member_name p).

Definition stack_inv (p : json_parser) : Prop :=
  match jp_parse_state p with
  | JSON_PARSE_START => jp_stack p = None ∧ jp_member_name p = None
  | JSON_PARSE_END => ∃ v, tree_at p v [] ∧ is_container v
  | st => inside p st
  end.

Lemma inside_inv p st : jp_parse_state p = st → inside p st → stack_inv p.
Proof. intros E H. unfold stack_inv. rewrite E. destruct st; try done; destruct H as (v & path & node & _ & _ & H); by destruct node, (jp_member_name p). Qed.

Lemma error_inv p msg : stack_inv p → stack_inv (json_error p msg).
Proof. unfold json_error. by destruct (jp_error p). Qed.

Lemma push_inv p v path node s add new st :
  tree_at p v path → v_at path v = Some node → slot_of node (jp_member_name p) = Some (s, add) → json_wf new →
  state_node st (json_abs new) None → stack_inv p → ∃ p', json_parser_push p new st = Some p' ∧ stack_inv p'.
Proof.
  intros Ht Hn Hs Hw Hst Hp. destruct (decide (S (length path) < JSON_MAX_HEIGHT)%nat) as [Hh|Hh].
  - destruct (push_spec p v path node s add new st) as (root & -> & Hr & E); [done..|]. eexists. split; [done|].
    apply (inside_inv _ st); [done|]. exists (json_abs root), (path ++ [s]), (json_abs new). split; [by exists root|]. split; [|done].
    rewrite E, v_at_app, (v_at_set _ _ _ _ Hn). simpl. by eapply slot_child.
  - destruct (push_too_deep p v path new st) as [msg ->]; [done|lia|]. eexists. split; [done|by apply error_inv].
Qed.

Lemma pop_inv p st : inside p st → jp_member_name p = None → ∃ p', json_parser_pop p = Some p' ∧ stack_inv p'.
Proof.
  intros (v & path & node & Ht & Hn & Hst) Hname. destruct path as [|s path _] using rev_ind.
  - rewrite (pop_last p v node) by done. eexists. split; [done|]. destruct Ht as (root & Hs & Hr & Ev).
    assert (is_container v) by (injection Hn as <-; destruct v, st; try done; by rewrite Hname in Hst).
    assert (H' : stack_inv (set_parse_state JSON_PARSE_END p)) by (exists v; split; [by exists root|done]).
    by destruct (negb _).
  - rewrite v_at_app in Hn. destruct (v_at path v) as [node'|] eqn:Hn'; [|done]. simpl in Hn.
    destruct (pop_spec p v path s node') as (root & -> & Hr & E); [done|by rewrite v_at_app, Hn'; exists node|done|].
    eexists. split; [done|]. apply (inside_inv _ (next_state node')); [done|]. exists v, path, node'. split; [by exists root|].
    split; [done|]. cbn. rewrite Hname. apply child_container in Hn. by destruct node'.
Qed.

Lemma put_inv p v path node s add value :
  tree_at p v path → v_at path v = Some node → slot_of node (jp_member_name p) = Some (s, add) → json_wf value →
  ∃ p', (p' ← json_parser_put_value p value; Some (set_parse_state (next_state node) p')) = Some p' ∧ stack_inv p'.
Proof.
  intros Ht Hn Hs Hw. destruct (put_value_spec p v path node s add value) as (root & -> & Hr & E); [done..|].
  eexists. split; [done|]. apply (inside_inv _ (next_state node)); [done|].
  exists (json_abs root), path, (add (json_abs value)). split; [by exists root|]. split; [rewrite E; by eapply v_at_set|].
  destruct node, (jp_member_name p); try done; by injection Hs as <- <-.
Qed.

Lemma parse_value_inv p tok v path node s add :
  tree_at p v path → v_at path v = Some node → slot_of node (jp_member_name p) = Some (s, add) → stack_inv p →
  ∃ p', json_parse_value p tok (next_state node) = Some p' ∧ stack_inv p'.
Proof.
  intros Ht Hn Hs Hp. assert (H0 : json_wf json_object_create) by (apply wf_object; [apply shash_init_ok|done]).
  assert (H1 : json_wf json_array_create_empty) by (apply wf_array; by intros j ?%elem_of_nil).
  destruct tok; simpl; eauto using put_inv, wf_leaf, error_inv;
    first [by eapply push_inv|by eapply put_inv; [..|apply wf_leaf]].
Qed.

Lemma set_buffer_inv p b : stack_inv (set_buffer b p) = stack_inv p.
Proof. done. Qed.
Lemma set_lex_inv p l : stack_inv (set_lex_state l p) = stack_inv p.
Proof. done. Qed.

Lemma start_push p new st :
  jp_stack p = None → jp_member_name p = None → json_wf new → state_node st (json_abs new) None →
  ∃ p', json_parser_push p new st = Some p' ∧ stack_inv p'.
Proof.
  intros Hs Hn Hw Hst. rewrite push_first by done. eexists. split; [done|]. apply (inside_inv _ st); [done|].
  exists (json_abs new), [], (json_abs new). split; [by exists new|]. split; [done|]. cbn. by rewrite Hn.
Qed.

(** A step within an object that changes only the state and the name. *)
Lemma object_step_inv p st st' name :
  inside p st → (∃ m, ∀ n, state_node st n (jp_member_name p) → n = V_object (m n)) → state_node st' (V_object ∅) name →
  stack_inv (set_parse_state st' (set_member_name name p)).
Proof.
  intros (v & path & node & (root & Hr) & Hn & Hst) [m Hm] Hst'. rewrite (Hm _ Hst) in Hn.
  apply (inside_inv _ st'); [done|]. exists v, path, (V_object (m node)). split; [by exists root|]. split; [done|]. cbn. by destruct st', name.
Qed.

Definition object_of (n : jval) : gmap (list Z) jval := match n with V_object m => m | _ => ∅ end.

Lemma inside_name p st :
  inside p st →
  match st with
  | JSON_PARSE_OBJECT_COLON | JSON_PARSE_OBJECT_VALUE => is_Some (jp_member_name p)
  | _ => jp_member_name p = None
  end.
Proof. intros (v & path & node & _ & _ & H). by destruct st, node, (jp_member_name p). Qed.

Lemma inside_slot p st :
  inside p st → st ∈ [JSON_PARSE_OBJECT_VALUE; JSON_PARSE_ARRAY_INIT; JSON_PARSE_ARRAY_VALUE] →
  ∃ v path node s add, tree_at p v path ∧ v_at path v = Some node ∧ slot_of node (jp_member_name p) = Some (s, add)
    ∧ next_state node = match st with JSON_PARSE_OBJECT_VALUE => JSON_PARSE_OBJECT_NEXT | _ => JSON_PARSE_ARRAY_NEXT end.
Proof.
  intros (v & path & node & Ht & Hn & H) Hst. exists v, path, node.
  destruct st; try (exfalso; set_solver); destruct node, (jp_member_name p); try done; eexists _, _; done.
Qed.

Lemma value_state_inv p st tok :
  stack_inv p → inside p st → st ∈ [JSON_PARSE_OBJECT_VALUE; JSON_PARSE_ARRAY_INIT; JSON_PARSE_ARRAY_VALUE] →
  ∃ p', json_parse_value p tok (match st with JSON_PARSE_OBJECT_VALUE => JSON_PARSE_OBJECT_NEXT | _ => JSON_PARSE_ARRAY_NEXT end) = Some p' ∧ stack_inv p'.
Proof.
  intros Hp Hi Hst. destruct (inside_slot p st Hi Hst) as (v & path & node & s & add & Ht & Hn & Hs & <-). by eapply parse_value_inv.
Qed.

Lemma object_name_inv p st s :
  inside p st → st = JSON_PARSE_OBJECT_INIT ∨ st = JSON_PARSE_OBJECT_NAME →
  stack_inv (set_parse_state JSON_PARSE_OBJECT_COLON (set_member_name (Some s) p)).
Proof.
  intros Hi Hst. apply (object_step_inv p st); [done| |done]. exists object_of. by destruct Hst as [-> | ->]; intros [].
Qed.

Lemma set_parse_state_same p st name : jp_member_name p = name → set_parse_state st (set_member_name name p) = set_parse_state st p.
Proof. intros <-. by destruct p. Qed.

(** No token makes the parser fail an assertion. *)
Lemma parser_input_inv p tok : stack_inv p → ∃ p', json_parser_input p tok = Some p' ∧ stack_inv p' ∧ jp_lex_state p' = JSON_LEX_START.
Proof.
  intros Hp. unfold json_parser_input.
  match goal with |- context [mbind _ ?m] => assert (H : ∃ p', m = Some p' ∧ stack_inv p') end.
  2: { destruct H as (p' & -> & Hp'). by eexists. }
  assert (H0 : json_wf json_object_create) by (apply wf_object; [apply shash_init_ok|done]).
  assert (H1 : json_wf json_array_create_empty) by (apply wf_array; by intros j ?%elem_of_nil).
  pose proof Hp as Hp'. unfold stack_inv in Hp'.
  assert (He : ∀ msg, ∃ p', Some (json_error p msg) = Some p' ∧ stack_inv p') by eauto using error_inv.
  destruct (jp_parse_state p) eqn:Est; try apply He; try (pose proof (inside_name _ _ Hp') as Hname; cbn iota in Hname).
  - destruct Hp' as [Hs Hn]. destruct tok; try apply He; by apply start_push.
  - destruct tok; try apply He; [by eapply pop_inv|]. eexists. split; [done|]. eapply object_name_inv; [done|auto].
  - destruct tok; try apply He. eexists. split; [done|]. eapply object_name_inv; [done|auto].
  - destruct tok; try apply He. eexists. split; [done|]. rewrite <- (set_parse_state_same p _ _ eq_refl).
    destruct Hname as [k Hk]. rewrite Hk.
    apply (object_step_inv p JSON_PARSE_OBJECT_COLON); [done| |done]. exists object_of. rewrite Hk. by intros [].
  - by apply (value_state_inv p JSON_PARSE_OBJECT_VALUE); [..|set_solver].
  - destruct tok; try apply He; [by eapply pop_inv|]. eexists. split; [done|]. rewrite <- (set_parse_state_same p _ _ eq_refl), Hname.
    apply (object_step_inv p JSON_PARSE_OBJECT_NEXT); [done| |done]. exists object_of. rewrite Hname. by intros [].
  - destruct tok; try (apply (value_state_inv p JSON_PARSE_ARRAY_INIT); [done|done|set_solver]). by eapply pop_inv.
  - by apply (value_state_inv p JSON_PARSE_ARRAY_VALUE); [..|set_solver].
  - destruct tok; try apply He; [by eapply pop_inv|]. eexists. split; [done|]. apply (inside_inv _ JSON_PARSE_ARRAY_VALUE); [done|].
    destruct Hp' as (v & path & node & (root & Hr) & Hn & Hst). exists v, path, node. split; [by exists root|].
    split; [done|]. cbn. by rewrite Hname in *; destruct node.
Qed.

(** ** Errors end the parse *)

Definition err_inv (p : json_parser) : Prop := jp_done p = false → jp_error p = None.

Lemma error_err p msg : err_inv p → err_inv (json_error p msg).
Proof. unfold json_error. by destruct (jp_error p). Qed.

Lemma put_value_err p v p' : json_parser_put_value p v = Some p' → err_inv p → err_inv p'.
Proof.
  unfold json_parser_put_value. destruct (jp_stack p) as [[root path]|]; [|done]. cbn [mbind option_bind].
  destruct (json_at path root) as [[]|]; try done; cbn [mbind option_bind].
  - destruct (jp_member_name p); [|done]. cbn [mbind option_bind]. destruct (json_modify _ _ _); [|done]. by intros [= <-].
  - destruct (json_modify _ _ _); [|done]. by intros [= <-].
Qed.

Lemma push_err p new st p' : json_parser_push p new st = Some p' → err_inv p → err_inv p'.
Proof.
  unfold json_parser_push. destruct (jp_height p <? JSON_MAX_HEIGHT)%nat; [|intros [= <-]; apply error_err].
  destruct (0 <? jp_height p)%nat; [|by intros [= <-]]. intros H Hp.
  destruct (next_step p); [|done]. cbn [mbind option_bind] in H. destruct (json_parser_put_value p new) as [q|] eqn:E; [|done].
  pose proof (put_value_err _ _ _ E Hp). cbn [mbind option_bind] in H. destruct (jp_stack q) as [[]|]; [|done]. by injection H as <-.
Qed.

Lemma pop_err p p' : json_parser_pop p = Some p' → err_inv p → err_inv p'.
Proof.
  unfold json_parser_pop. destruct (jp_stack p) as [[root path]|]; [|done]. cbn [mbind option_bind].
  destruct (json_at path root); [|done]. cbn [mbind option_bind]. destruct (jp_height p =? 1)%nat; [intros [= <-]; by destruct (negb _)|].
  destruct (json_at _ root) as [[]|]; try done; by intros [= <-].
Qed.

Lemma parse_value_err p tok st p' : json_parse_value p tok st = Some p' → err_inv p → err_inv p'.
Proof.
  unfold json_parse_value. intros H Hp.
  destruct tok; try (by injection H as <-; apply error_err); try (by eapply push_err);
    destruct (json_parser_put_value p _) as [q|] eqn:E in H; try done; injection H as <-; by apply (put_value_err _ _ _ E).
Qed.

Lemma parser_input_err p tok p' : json_parser_input p tok = Some p' → err_inv p → err_inv p'.
Proof.
  unfold json_parser_input. intros H Hp.
  match type of H with mbind _ ?m = _ => destruct m as [q|] eqn:E; [|done] end. injection H as <-.
  change (err_inv q). destruct (jp_parse_state p), tok;
    first [by injection E as <-; first [apply error_err|idtac]|by eapply pop_err|by eapply push_err|by eapply parse_value_err].
Qed.

(** What every byte keeps. *)
Definition parser_inv (p : json_parser) : Prop := stack_inv p ∧ err_inv p.

Lemma create_inv flags : parser_inv (json_parser_create flags).
Proof. done. Qed.

Lemma error_parser_inv p msg : parser_inv p → parser_inv (json_error p msg).
Proof. intros []. split; [by apply error_inv|by apply error_err]. Qed.

Lemma input_parser_inv p tok : parser_inv p → ∃ p', json_parser_input p tok = Some p' ∧ parser_inv p' ∧ jp_lex_state p' = JSON_LEX_START.
Proof.
  intros [H1 H2]. destruct (parser_input_inv p tok H1) as (p' & E & H3 & H4). exists p'. split; [done|]. split; [|done].
  split; [done|by eapply parser_input_err].
Qed.

Lemma error_done p msg : err_inv p → jp_done (json_error p msg) = true.
Proof. unfold json_error, err_inv. destruct (jp_error p), (jp_done p) eqn:E; try done. intros H. by specialize (H eq_refl). Qed.

(** ** Bytes *)

Lemma lex_number_inv p : parser_inv p → ∃ p', json_lex_number p = Some p' ∧ parser_inv p' ∧ (jp_lex_state p' = JSON_LEX_START ∨ jp_done p' = true).
Proof.
  intros Hp. unfold json_lex_number. destruct (lex_number _) as [msg|tok].
  - eexists. split; [done|]. split; [by apply error_parser_inv|]. right. by apply error_done, Hp.
  - destruct (input_parser_inv p tok Hp) as (p' & -> & Hp' & E). exists p'. eauto.
Qed.

Lemma lex_keyword_inv p : parser_inv p → ∃ p', json_lex_keyword p = Some p' ∧ parser_inv p' ∧ (jp_lex_state p' = JSON_LEX_START ∨ jp_done p' = true).
Proof.
  intros Hp. unfold json_lex_keyword.
  assert (H : ∀ tok, ∃ p', json_parser_input p tok = Some p' ∧ parser_inv p' ∧ (jp_lex_state p' = JSON_LEX_START ∨ jp_done p' = true)).
  { intros tok. destruct (input_parser_inv p tok Hp) as (p' & -> & Hp' & E). exists p'. eauto. }
  repeat (case_bool_decide; [apply H|]). eexists. split; [done|]. split; [by apply error_parser_inv|]. right. by apply error_done, Hp.
Qed.

Lemma lex_string_inv p : parser_inv p → ∃ p', json_lex_string p = Some p' ∧ parser_inv p'.
Proof.
  intros Hp. unfold json_lex_string.
  assert (H : ∀ tok, ∃ p', json_parser_input p tok = Some p' ∧ parser_inv p').
  { intros tok. destruct (input_parser_inv p tok Hp) as (p' & -> & Hp' & E). eauto. }
  destruct (negb _); [apply H|]. destruct (json_string_unescape _); [|apply H]. eexists. split; [done|]. by apply error_parser_inv.
Qed.

Lemma lex_input_inv p c :
  parser_inv p →
  ∃ p' used, json_lex_input p c = Some (p', used) ∧ parser_inv p' ∧ (jp_lex_state p = JSON_LEX_START → used = true)
             ∧ (used = false → jp_lex_state p' = JSON_LEX_START ∨ jp_done p' = true).
Proof.
  intros Hp. unfold json_lex_input.
  assert (He : ∀ msg, parser_inv (json_error p msg)) by (intros; by apply error_parser_inv).
  destruct (jp_lex_state p).
  - destruct (_ || _) in |- *; [by eexists _, _|]. destruct (islower c); [by eexists _, _|].
    destruct (punctuation c) as [tok|].
    + destruct (input_parser_inv p tok Hp) as (p' & -> & Hp' & E). by exists p', true.
    + destruct (_ || _) in |- *; [by eexists _, _|]. destruct (c =? c_quote); [by eexists _, _|].
      destruct (isprint c); eexists _, _; (split; [done|]); (split; [apply He|done]).
  - destruct (negb _); [|by eexists _, _]. destruct (lex_number_inv p Hp) as (p' & -> & Hp' & E). by exists p', false.
  - destruct (negb _); [|by eexists _, _]. destruct (lex_keyword_inv p Hp) as (p' & -> & Hp' & E). by exists p', false.
  - destruct (c =? _); [by eexists _, _|]. destruct (c =? _).
    { destruct (lex_string_inv p Hp) as (p' & -> & Hp'). by exists p', true. }
    destruct (c <? _); eexists _, _; (split; [done|]); (split; [|done]); [apply He|exact Hp].
  - by eexists _, _.
Qed.

(** One byte of input, with the second try of a byte that ends a token. *)
Definition feed1 (p : json_parser) (c : Z) : option json_parser :=
  if jp_done p then Some p
  else
    '(p1, used) ← json_lex_input p c;
    if used : bool then Some (advance c p1)
    else if jp_done p1 then Some p1
    else '(p2, _) ← json_lex_input p1 c; Some (advance c p2).

Fixpoint run (p : json_parser) (input : list Z) : option json_parser :=
  match input with
  | [] => Some p
  | c :: input => p ← feed1 p c; run p input
  end.

Lemma run_done p input : jp_done p = true → run p input = Some p.
Proof. intros Hd. induction input as [|c input IH]; [done|]. simpl. unfold feed1. by rewrite Hd. Qed.

Lemma run_app p a b : run p (a ++ b) = p' ← run p a; run p' b.
Proof.
  revert p. induction a as [|c a IH]; intros p; [done|]. simpl. destruct (feed1 p c); simpl; [apply IH|done].
Qed.

Lemma advance_inv c p : parser_inv p → parser_inv (advance c p).
Proof. unfold advance. by destruct (c =? 10). Qed.

(** The loop uses the bytes one by one, up to the end of the parse. *)
Lemma feed_loop_run input : ∀ fuel p i, parser_inv p → (2 * length input < fuel)%nat →
  ∃ p' n, feed_loop fuel p input i = Some (p', i + n) ∧ run p input = Some p' ∧ parser_inv p'
          ∧ (n = Z.of_nat (length input) ∨ 0 ≤ n < Z.of_nat (length input) ∧ jp_done p' = true).
Proof.
  induction input as [|c input IH]; intros [|fuel] p i Hp Hf; try (simpl in Hf; lia).
  { exists p, 0. rewrite Z.add_0_r. auto. }
  cbn [length] in *. cbn [feed_loop run]. unfold feed1. destruct (jp_done p) eqn:Hd.
  { exists p, 0. cbn [mbind option_bind]. rewrite Z.add_0_r, run_done by done. split; [done|]. split; [done|]. split; [done|]. right. split; [lia|done]. }
  assert (Hrest : ∀ q fuel, parser_inv q → (2 * length input < fuel)%nat →
    ∃ p' n, feed_loop fuel (advance c q) input (i + 1) = Some (p', i + n) ∧ run (advance c q) input = Some p' ∧ parser_inv p'
      ∧ (n = Z.of_nat (S (length input)) ∨ 0 ≤ n < Z.of_nat (S (length input)) ∧ jp_done p' = true)).
  { intros q f Hq Hf'. destruct (IH f (advance c q) (i + 1) (advance_inv c q Hq) Hf') as (p' & n & -> & -> & Hp' & Hn).
    exists p', (1 + n). rewrite <- Z.add_assoc. split; [done|]. split; [done|]. split; [done|]. destruct Hn as [-> |[Hn ?]]; [left; lia|right; split; [lia|done]]. }
  destruct (lex_input_inv p c Hp) as (p1 & used & -> & Hp1 & _ & Hu). cbn [mbind option_bind].
  destruct used; [apply Hrest; [done|lia]|]. destruct fuel as [|fuel]; [lia|]. cbn [feed_loop].
  destruct (jp_done p1) eqn:Hd1.
  { exists p1, 0. rewrite Z.add_0_r. cbn [mbind option_bind]. rewrite run_done by done. split; [done|]. split; [done|]. split; [done|]. right. split; [lia|done]. }
  destruct (Hu eq_refl) as [Hl|]; [|congruence].
  destruct (lex_input_inv p1 c Hp1) as (p2 & used & -> & Hp2 & Hu2 & _). rewrite (Hu2 Hl). cbn [mbind option_bind].
  apply Hrest; [done|lia].
Qed.

Lemma feed_run p input :
  parser_inv p →
  ∃ p' n, json_parser_feed p input = Some (p', n) ∧ run p input = Some p' ∧ parser_inv p'
          ∧ (n = Z.of_nat (length input) ∨ 0 ≤ n < Z.of_nat (length input) ∧ jp_done p' = true).
Proof.
  intros Hp. destruct (feed_loop_run input (S (2 * length input)) p 0 Hp ltac:(lia)) as (p' & n & H). exists p', n. by rewrite Z.add_0_l in H.
Qed.

Lemma error_is_set p msg : is_Some (jp_error (json_error p msg)).
Proof. unfold json_error. destruct (jp_error p) eqn:E; [by rewrite E|by eexists]. Qed.

Lemma finish_total p :
  parser_inv p → ∃ j, json_parser_finish p = Some j ∧ json_wf j ∧ (is_container (json_abs j) ∨ ∃ msg, j = JSON_STRING msg).
Proof.
  intros Hp. unfold json_parser_finish.
  match goal with |- context [mbind _ ?m] => assert (H : ∃ p', m = Some p' ∧ parser_inv p') end.
  { destruct (jp_lex_state p); [by eexists|..]; try (eexists; split; [done|by apply error_parser_inv]);
      destruct (lex_input_inv p 32 Hp) as (p' & used & -> & Hp' & _); by exists p'. }
  destruct H as (q & -> & [Hq _]). cbn [mbind option_bind].
  assert (He : ∀ r, is_Some (jp_error r) → ∃ j, match jp_error r with
    | Some error => Some (json_string_create error)
    | None => '(root, path) ← jp_stack r; match path with [] => Some root | _ :: _ => None end
    end = Some j ∧ json_wf j ∧ (is_container (json_abs j) ∨ ∃ msg, j = JSON_STRING msg)).
  { intros r [e ->]. eexists. split; [done|]. split; [by apply wf_leaf|right; by eexists]. }
  destruct (jp_parse_state q) eqn:Est; try (apply He, error_is_set).
  destruct (jp_error q) as [e|] eqn:Eq; [eexists; split; [done|split; [by apply wf_leaf|right; by eexists]]|].
  unfold stack_inv in Hq. rewrite Est in Hq. destruct Hq as (v & (root & -> & Hw & <-) & Hc). exists root. auto.
Qed.

Lemma stream_run chunks : [] ∉ chunks → ∀ p q, parser_inv p → run p (concat chunks) = Some q → stream_loop p chunks = Some q.
Proof.
  induction chunks as [|c chunks IH]; intros Hne p q Hp Hq; [exact Hq|]. apply not_elem_of_cons in Hne as [Hc Hne].
  simpl in Hq. rewrite run_app in Hq. simpl. rewrite bool_decide_eq_false_2 by congruence.
  destruct (feed_run p c Hp) as (p' & n & -> & Hr & Hp' & Hn). rewrite Hr in Hq. cbn [mbind option_bind] in *.
  destruct (Z.eqb_spec n (Z.of_nat (length c))) as [E|E]; simpl; [by apply IH|].
  destruct Hn as [Hn|[_ Hd]]; [done|]. by rewrite run_done in Hq.
Qed.

Lemma stream_string chunks : [] ∉ chunks → json_from_stream chunks None = json_from_string (concat chunks).
Proof.
  intros Hne. unfold json_from_stream, json_from_string. pose proof (create_inv JSPF_TRAILER) as Hc.
  destruct (feed_run _ (concat chunks) Hc) as (p' & n & -> & Hrun & Hp' & _). cbn [mbind option_bind].
  rewrite (stream_run chunks Hne _ p' Hc Hrun). cbn [mbind option_bind]. by destruct (json_parser_finish p').
Qed.

(** C12: On every sequence of bytes the parser returns: no assertion of the
    parser or of the code that builds the tree fails, and the result is an
    object or an array whose objects, at every depth, are well-formed hash
    maps with distinct names, or a string with the error message.  The result
    is the same however the bytes are cut into the non-empty pieces that
    json_from_stream() reads, also within a token, and when they are a C
    string that json_from_string() reads. *)
Theorem json_parse_total (chunks : list (list Z)) :
  [] ∉ chunks →
  ∃ j, json_from_stream chunks None = Some j
       ∧ json_wf j ∧ (is_container (json_abs j) ∨ ∃ msg, j = JSON_STRING msg)
       ∧ (∀ chunks', concat chunks' = concat chunks → [] ∉ chunks' → json_from_stream chunks' None = Some j)
       ∧ (0 ∉ concat chunks → json_from_string (concat chunks) = Some j).
Proof.
  intros Hne. rewrite stream_string by done. unfold json_from_string at 1.
  destruct (feed_run _ (concat chunks) (create_inv JSPF_TRAILER)) as (p' & n & E & _ & Hp' & _).
  rewrite E. cbn [mbind option_bind]. destruct (finish_total p' Hp') as (j & Ej & Hj & Hr).
  assert (Es : json_from_string (concat chunks) = Some j) by (unfold json_from_string; by rewrite E).
  exists j. split; [done|]. split; [done|]. split; [done|]. split; [|done]. intros chunks' Ec Hne'. by rewrite stream_string, Ec.
Qed.

Lemma json_parse_total_witness :
  ∃ j, json_from_stream [bytes "[1"; bytes "2]"] None = Some j
       ∧ json_wf j ∧ (is_container (json_abs j) ∨ ∃ msg, j = JSON_STRING msg)
       ∧ (∀ chunks', concat chunks' = concat [bytes "[1"; bytes "2]"] → [] ∉ chunks' → json_from_stream chunks' None = Some j)
       ∧ (0 ∉ concat [bytes "[1"; bytes "2]"] → json_from_string (concat [bytes "[1"; bytes "2]"]) = Some j).
Proof. apply (json_parse_total [bytes "[1"; bytes "2]"]). apply (bool_decide_unpack _). vm_compute. exact I. Defined.
