(* ===== verification/JsonNumbers.v ===== *)
(** * Numbers in JSON texts

    The lexer of lib/json.c on the numbers that the serializer writes: an
    integer is read back as it was, and so is a real number that its 15 digits
    identify and that is not a 64-bit integer. *)
From stdpp Require Import gmap.
From S2P Require Import Prelude ByteOrder Text Json JsonThms.

Open Scope Z_scope.

Lemma isdigit_range c : isdigit c = true ↔ 48 ≤ c < 58.
Proof. unfold isdigit. change (chr "0") with 48. change (chr "9") with 57. rewrite andb_true_iff. lia. Qed.

(** Finite checks on bytes. *)
Lemma byte_check (P : Z → bool) lo n : forallb P (seqZ lo n) = true → ∀ c, lo ≤ c < lo + n → P c = true.
Proof. intros H c Hc. rewrite List.forallb_forall in H. apply H, list_elem_of_In, elem_of_seqZ. lia. Qed.

Definition number_start (c : Z) : bool := (c =? chr "-") || isdigit c.

(** ** Integers *)

Definition add_digit (v c : Z) : Z := v * 10 + (c - chr "0").

Lemma digits_loop_spec fuel : ∀ n acc, 0 < n < 2 ^ Z.of_nat fuel →
  ∃ c ds, digits_loop fuel 10 n acc = c :: ds ++ acc ∧ 49 ≤ c < 58 ∧ forallb isdigit ds = true ∧ foldl add_digit 0 (c :: ds) = n.
Proof.
  induction fuel as [|fuel IH]; intros n acc Hn; [simpl in Hn; lia|]. cbn [digits_loop].
  pose proof (Z.mod_pos_bound n 10 ltac:(lia)) as Hm. destruct (Z.ltb_spec (n mod 10) 10); [|lia]. change (chr "0") with 48.
  destruct (Z.ltb_spec n 10).
  - rewrite Z.mod_small by lia. exists (48 + n), []. split; [done|]. split; [lia|]. split; [done|].
    cbn [foldl]. unfold add_digit. change (chr "0") with 48. lia.
  - destruct (IH (n / 10) (48 + n mod 10 :: acc)) as (c & ds & -> & Hc & Hds & Hv).
    { rewrite Nat2Z.inj_succ, Z.pow_succ_r in Hn by lia. split; [apply Z.div_str_pos; lia|]. apply Z.div_lt_upper_bound; lia. }
    exists c, (ds ++ [48 + n mod 10]). rewrite <- app_assoc. split; [done|]. split; [done|]. split.
    + rewrite forallb_app, Hds. simpl. rewrite andb_true_r. apply isdigit_range. lia.
    + change (c :: ds ++ [48 + n mod 10]) with ((c :: ds) ++ [48 + n mod 10]). rewrite foldl_app, Hv. cbn [foldl]. unfold add_digit.
      change (chr "0") with 48. pose proof (Z.div_mod n 10 ltac:(lia)). lia.
Qed.

Lemma put_digits_spec n : 0 < n →
  ∃ c ds, put_digits 10 n = c :: ds ∧ 49 ≤ c < 58 ∧ forallb isdigit ds = true ∧ foldl add_digit 0 (c :: ds) = n.
Proof.
  intros Hn. unfold put_digits. destruct (digits_loop_spec (S (Z.to_nat (Z.log2 n))) n []) as (c & ds & E & H).
  { split; [done|]. rewrite Nat2Z.inj_succ, Z2Nat.id by apply Z.log2_nonneg. by apply Z.log2_spec. }
  exists c, ds. by rewrite app_nil_r in E.
Qed.

Lemma add_digits_mono ds v : 0 ≤ v → forallb isdigit ds = true → v ≤ foldl add_digit v ds.
Proof.
  revert v. induction ds as [|c ds IH]; intros v Hv Hd; [reflexivity|]. apply andb_prop in Hd as [Hc%isdigit_range Hd]. cbn [foldl].
  assert (E : add_digit v c = v * 10 + (c - 48)) by done. etrans; [|apply IH; [lia|done]]. lia.
Qed.

Lemma lex_int_digits ds : ∀ v, 0 ≤ v → forallb isdigit ds = true → foldl add_digit v ds ≤ 2 ^ 63 →
  lex_int v 0 false ds = (foldl add_digit v ds, 0, false, []).
Proof.
  assert (Hmax : 2 ^ 63 ≤ 10 * (ULLONG_MAX / 10)) by (by vm_compute). assert (H64 : 2 ^ 63 < 2 ^ 64) by (by vm_compute).
  revert Hmax H64. generalize (2 ^ 63). intros m Hmax H64.
  induction ds as [|c ds IH]; intros v Hv Hd Hm; [done|]. apply andb_prop in Hd as [Hc Hd]. cbn [lex_int foldl] in *. rewrite Hc.
  assert (E : add_digit v c = v * 10 + (c - chr "0")) by done. apply isdigit_range in Hc. change (chr "0") with 48 in E.
  pose proof (add_digits_mono ds (add_digit v c) ltac:(lia) Hd) as Hle.
  destruct (Z.leb_spec v (ULLONG_MAX / 10)) as [_|]; [|lia].
  change (v * 10 + (c - chr "0")) with (add_digit v c). unfold u64. rewrite Z.mod_small by lia. apply IH; [lia|done|done].
Qed.

Lemma lex_number_digits (neg : bool) c ds m :
  49 ≤ c < 58 → lex_int 0 0 false (c :: ds) = (m, 0, false, []) → 0 < m → m ≤ (if neg then LLONG_MAX + 1 else LLONG_MAX) →
  lex_number ((if neg then [chr "-"] else []) ++ c :: ds) = inr (T_INTEGER (if neg then - m else m)).
Proof.
  intros Hc Hi Hm Hmax. unfold lex_number.
  replace (if at_ptr ((if neg then [chr "-"] else []) ++ c :: ds) =? chr "-" then _ else _) with (neg, c :: ds).
  2: { destruct neg; [done|]. cbn [app at_ptr]. change (chr "-") with 45. by destruct (Z.eqb_spec c 45); [lia|]. }
  cbn [at_ptr]. change (chr "0") with 48. destruct (Z.eqb_spec c 48); [lia|].
  rewrite (proj2 (isdigit_range c)) by lia. rewrite Hi. cbn [at_ptr].
  change (0 =? chr ".") with false. cbv beta iota. cbn [at_ptr]. change ((0 =? chr "e") || (0 =? chr "E")) with false. cbv beta iota. cbn [at_ptr].
  change (negb (0 =? 0)) with false. cbv beta iota.
  destruct (Z.eqb_spec m 0); [lia|]. change (scale_up 20 m 0) with (m, 0). cbv beta iota. change (scale_down 20 m 0) with (m, 0).
  cbv beta iota. change (0 =? 0) with true. cbn [andb]. by rewrite (proj2 (Z.leb_le _ _) Hmax).
Qed.

Lemma lex_number_int n : - 2 ^ 63 ≤ n < 2 ^ 63 → lex_number (put_int n) = inr (T_INTEGER n).
Proof.
  intros Hn. destruct (decide (n = 0)) as [->|Hz]; [by vm_compute|].
  destruct (put_digits_spec (Z.abs n)) as (c & ds & E & Hc & Hds & Hv); [lia|].
  assert (Hi : lex_int 0 0 false (c :: ds) = (Z.abs n, 0, false, [])).
  { rewrite <- Hv. apply lex_int_digits; [done| |rewrite Hv; lia]. cbn [forallb]. rewrite Hds, andb_true_r. apply isdigit_range. lia. }
  unfold put_int. unfold LLONG_MAX in *. destruct (Z.ltb_spec n 0).
  - rewrite Z.abs_neq in E, Hi by lia. rewrite E. 
    transitivity (inr (T_INTEGER (- - n)) : list Z + json_token); [|by rewrite Z.opp_involutive].
    apply (lex_number_digits true c ds (- n)); [done..|lia|]. unfold LLONG_MAX. lia.
  - rewrite Z.abs_eq in E, Hi by lia. rewrite E. apply (lex_number_digits false c ds n); [done..|lia|]. unfold LLONG_MAX. lia.
Qed.

Lemma digit_number c : isdigit c = true → number_char c = true ∧ c ≠ 0.
Proof.
  intros Hc%isdigit_range. split; [|lia]. by apply (byte_check number_char 48 10).
Qed.

(** The text of a number: the first character, and the others. *)
Definition number_text (s : list Z) : Prop :=
  ∃ c s', s = c :: s' ∧ number_start c = true ∧ forallb number_char s' = true ∧ forallb (λ c, negb (c =? 0)) s = true.

Lemma digits_text ds : forallb isdigit ds = true → forallb number_char ds = true ∧ forallb (λ c, negb (c =? 0)) ds = true.
Proof.
  induction ds as [|c ds IH]; [done|]. cbn [forallb]. intros [Hc Hds]%andb_prop. destruct (IH Hds) as [-> ->], (digit_number c Hc) as [-> Hz].
  by destruct (Z.eqb_spec c 0).
Qed.

Lemma put_int_text n : number_text (put_int n).
Proof.
  destruct (decide (n = 0)) as [->|Hz]; [by exists 48, []|].
  destruct (put_digits_spec (Z.abs n)) as (c & ds & E & Hc & Hds & _); [lia|].
  assert (Hd : forallb isdigit (c :: ds) = true) by (cbn [forallb]; rewrite Hds, andb_true_r; apply isdigit_range; lia).
  destruct (digits_text _ Hd) as [H1 H2]. unfold put_int. destruct (Z.ltb_spec n 0).
  - rewrite Z.abs_neq in E by lia. rewrite E. exists (chr "-"), (c :: ds). split; [done|]. split; [done|]. split; [done|exact H2].
  - rewrite Z.abs_eq in E by lia. rewrite E. exists c, ds. split; [done|]. split; [|split; [by apply andb_prop in H1 as [_ ?]|done]].
    unfold number_start. rewrite (proj2 (isdigit_range c)) by lia. apply orb_true_r.
Qed.

(** ** Numbers that are not integers *)

Lemma put_digits_digits n : ∃ c ds, put_digits 10 n = c :: ds ∧ forallb isdigit (c :: ds) = true.
Proof.
  destruct (decide (0 < n)) as [Hn|Hn].
  - destruct (put_digits_spec n Hn) as (c & ds & E & Hc & Hds & _). exists c, ds. split; [done|]. cbn [forallb].
    rewrite Hds, andb_true_r. apply isdigit_range. lia.
  - unfold put_digits. cbn [digits_loop]. pose proof (Z.mod_pos_bound n 10 ltac:(lia)). destruct (Z.ltb_spec n 10); [|lia].
    destruct (Z.ltb_spec (n mod 10) 10); [|lia]. eexists _, _. split; [done|]. cbn [forallb]. rewrite andb_true_r.
    apply isdigit_range. change (chr "0") with 48. lia.
Qed.

(** Characters of numbers other than the null character. *)
Definition number_byte (c : Z) : bool := number_char c && negb (c =? 0).

Lemma digits_bytes ds : forallb isdigit ds = true → forallb number_byte ds = true.
Proof.
  induction ds as [|c ds IH]; [done|]. cbn [forallb]. intros [Hc Hds]%andb_prop. rewrite (IH Hds), andb_true_r. unfold number_byte.
  destruct (digit_number c Hc) as [-> Hz]. by destruct (Z.eqb_spec c 0).
Qed.

Lemma number_bytes_text c s : number_start c = true → forallb number_byte (c :: s) = true → number_text (c :: s).
Proof.
  intros Hc Hs. exists c, s. split; [done|]. split; [done|]. rewrite List.forallb_forall in Hs.
  split; apply List.forallb_forall; intros x Hx; [specialize (Hs x (or_intror Hx))|specialize (Hs x Hx)]; by apply andb_prop in Hs as [??].
Qed.

Lemma forallb_repeated {A} (P : A → bool) n x : P x = true → forallb P (replicate n x) = true.
Proof. intros Hx. induction n; [done|]. simpl. by rewrite Hx. Qed.

Lemma forallb_sub {A} (P : A → bool) l n : forallb P l = true → forallb P (take n l) = true ∧ forallb P (drop n l) = true.
Proof. intros H. rewrite <- (take_drop n l), forallb_app in H. by apply andb_prop in H. Qed.

Lemma put_g_text n d : ∃ c s, put_g n d = c :: s ∧ isdigit c = true ∧ forallb number_byte s = true.
Proof.
  unfold put_g. destruct (decimal15 n d) as [[q' k] x]. unfold put_decimal.
  destruct (put_digits_digits q') as (c & ds & -> & Hds). pose proof (digits_bytes _ Hds) as Hb.
  cbn [forallb] in Hds, Hb. apply andb_prop in Hds as [Hc Hds]. apply andb_prop in Hb as [Hcb Hb].
  assert (Hz : ∀ n, forallb number_byte (replicate n (chr "0")) = true) by (intros; by apply forallb_repeated).
  destruct (put_digits_digits (Z.abs x)) as (ec & eds & Ex & Hed). apply digits_bytes in Hed.
  destruct (_ || _).
  - eexists c, _. split; [done|]. split; [done|]. cbn [take drop]. rewrite forallb_app. apply andb_true_intro. split.
    { by destruct (_ <? _)%nat; [|done]. }
    unfold pad_zeros. rewrite Ex. cbn [forallb]. rewrite forallb_app, Hz, Hed. by destruct (x <? 0).
  - destruct (x <? 0).
    + eexists _, _. split; [done|]. split; [done|]. cbn [forallb]. rewrite !forallb_app, Hz. cbn [forallb]. by rewrite Hcb, Hb.
    + destruct (_ <=? _)%nat; eexists c, _; (split; [done|]); (split; [done|]).
      * by rewrite forallb_app, Hb, Hz.
      * destruct (forallb_sub number_byte ds (Z.to_nat x) Hb) as [H1 H2]. rewrite forallb_app. apply andb_true_intro. split; [exact H1|exact H2].
Qed.

Lemma put_double_text r : real_ok r → number_text (put_double r).
Proof.
  intros (_ & _ & Hr). unfold put_double. destruct (double_classify r) as [| |neg m e]; [destruct Hr..|]. clear Hr.
  assert (H : ∃ c s, (if m =? 0 then [chr "0"] else let '(n, d) := fraction m e in put_g n d) = c :: s
    ∧ isdigit c = true ∧ forallb number_byte s = true).
  { destruct (m =? 0); [by eexists _, _|]. destruct (fraction m e). apply put_g_text. }
  destruct H as (c & s & -> & Hc & Hs).
  assert (Hcs : forallb number_byte (c :: s) = true).
  { cbn [forallb]. unfold number_byte at 1. destruct (digit_number c Hc) as [-> Hz]. rewrite Hs. by destruct (Z.eqb_spec c 0). }
  destruct neg; apply number_bytes_text; try done. unfold number_start. by rewrite Hc, orb_true_r.
Qed.

(** ** Fifteen digits *)

Lemma round_div_bounds n d a b : 0 < d → a * d ≤ n → n < b * d → a ≤ round_div n d ≤ b.
Proof.
  intros Hd Ha Hb. pose proof (Z.div_mod n d ltac:(lia)) as E. pose proof (Z.mod_pos_bound n d Hd) as Hr.
  assert (H1 : a ≤ n / d) by (apply Z.div_le_lower_bound; lia). assert (H2 : n / d < b) by (apply Z.div_lt_upper_bound; lia).
  unfold round_div. destruct (_ <? _); [lia|]. destruct (_ <? _); [lia|]. destruct (Z.even _); lia.
Qed.

(** The fractions are compared by cross-multiplication. *)
Lemma ge_pow10_mono n d n' d' k :
  0 < d → 0 < d' → 0 ≤ n' → n' * d ≤ n * d' → ge_pow10 n' d' k = true → ge_pow10 n d k = true.
Proof.
  intros Hd Hd' Hn' Hle. unfold ge_pow10. destruct (Z.leb_spec 0 k); rewrite !Z.leb_le.
  - assert (0 < 10 ^ k) by (apply Z.pow_pos_nonneg; lia). intros H10. nia.
  - assert (0 < 10 ^ (- k)) by (apply Z.pow_pos_nonneg; lia). intros H10. nia.
Qed.

(** n' / d' <= 10^k *)
Definition le_pow10 (n d k : Z) : bool := if 0 <=? k then n <=? d * 10 ^ k else n * 10 ^ (- k) <=? d.

Lemma le_pow10_mono n d n' d' k :
  0 < d → 0 < d' → 0 ≤ n → n * d' < n' * d → le_pow10 n' d' k = true → ge_pow10 n d k = false.
Proof.
  intros Hd Hd' Hn Hlt. unfold ge_pow10, le_pow10. destruct (Z.leb_spec 0 k); rewrite Z.leb_le, Z.leb_gt.
  - assert (0 < 10 ^ k) by (apply Z.pow_pos_nonneg; lia). intros H10. nia.
  - assert (0 < 10 ^ (- k)) by (apply Z.pow_pos_nonneg; lia). intros H10. nia.
Qed.

(** The estimate of the exponent from the number of bits, for the range of
    doubles: powers of two lie between the powers of ten that it gives. *)
Definition estimate_ok (l : Z) : bool :=
  let k := l * 30103 / 100000 - 1 in
  let '(n1, d1) := fraction 1 (l - 1) in let '(n2, d2) := fraction 1 (l + 1) in
  ge_pow10 n1 d1 k && le_pow10 n2 d2 (k + 3) && (-329 <=? k) && (k + 3 <=? 309).

Lemma estimates_ok l : -1074 ≤ l ≤ 1023 → estimate_ok l = true.
Proof. intros Hl. apply (byte_check estimate_ok (-1074) 2098); [vm_compute; reflexivity|lia]. Qed.

Lemma fraction_log2 n d l :
  0 < n → 0 < d → l = Z.log2 n - Z.log2 d →
  (let '(n1, d1) := fraction 1 (l - 1) in 0 < d1 ∧ 0 ≤ n1 ∧ n1 * d ≤ n * d1)
  ∧ (let '(n2, d2) := fraction 1 (l + 1) in 0 < d2 ∧ n * d2 < n2 * d).
Proof.
  intros Hn Hd ->. pose proof (Z.log2_spec n Hn) as [N1 N2]. pose proof (Z.log2_spec d Hd) as [D1 D2].
  pose proof (Z.log2_nonneg n). pose proof (Z.log2_nonneg d). revert N1 N2 D1 D2.
  rewrite !Z.pow_succ_r by lia. set (a := Z.log2 n) in *. set (b := Z.log2 d) in *. intros N1 N2 D1 D2.
  assert (Hp : ∀ e, 0 ≤ e → 0 < 2 ^ e) by (intros; apply Z.pow_pos_nonneg; lia).
  unfold fraction. split.
  - destruct (Z.leb_spec 0 (a - b - 1)) as [He|He].
    + assert (E : 2 ^ a = 2 * 2 ^ b * 2 ^ (a - b - 1)) by (rewrite <- Z.pow_succ_r, <- Z.pow_add_r by lia; f_equal; lia).
      pose proof (Hp _ He). split; [lia|]. split; [lia|]. nia.
    + assert (E : 2 * 2 ^ b = 2 ^ a * 2 ^ (- (a - b - 1))) by (rewrite <- Z.pow_succ_r, <- Z.pow_add_r by lia; f_equal; lia).
      pose proof (Hp (- (a - b - 1)) ltac:(lia)). split; [lia|]. split; [lia|]. nia.
  - destruct (Z.leb_spec 0 (a - b + 1)) as [He|He].
    + assert (E : 2 * 2 ^ a = 2 ^ b * 2 ^ (a - b + 1)) by (rewrite <- Z.pow_succ_r, <- Z.pow_add_r by lia; f_equal; lia).
      pose proof (Hp _ He). split; [lia|]. nia.
    + assert (E : 2 ^ b = 2 * 2 ^ a * 2 ^ (- (a - b + 1))) by (rewrite <- Z.pow_succ_r, <- Z.pow_add_r by lia; f_equal; lia).
      pose proof (Hp (- (a - b + 1)) ltac:(lia)). split; [lia|]. nia.
Qed.

(** The exponent is the right one. *)
Lemma exponent10_spec n d :
  0 < n → 0 < d → -1074 ≤ Z.log2 n - Z.log2 d ≤ 1023 →
  let x := exponent10 n d in
  ge_pow10 n d x = true ∧ ge_pow10 n d (x + 1) = false ∧ -329 ≤ x ≤ 308.
Proof.
  intros Hn Hd Hl. cbv zeta. pose proof (estimates_ok _ Hl) as He. unfold estimate_ok in He.
  pose proof (fraction_log2 n d _ Hn Hd eq_refl) as [H1 H2]. unfold exponent10.
  destruct (fraction 1 (_ - 1)) as [n1 d1], (fraction 1 (_ + 1)) as [n2 d2].
  apply andb_prop in He as [He E4%Z.leb_le]. apply andb_prop in He as [He E3%Z.leb_le]. apply andb_prop in He as [E1 E2].
  destruct H1 as (? & ? & ?), H2 as [? ?].
  apply (ge_pow10_mono n d) in E1; [|done..]. apply (le_pow10_mono n d) in E2; [|lia..].
  set (k := _ - 1) in *. destruct (ge_pow10 n d (k + 2)) eqn:G2; [replace (k + 2 + 1) with (k + 3) by lia; split_and!; [done..|lia|lia]|].
  destruct (ge_pow10 n d (k + 1)) eqn:G1; [replace (k + 1 + 1) with (k + 2) by lia; split_and!; [done..|lia|lia]|].
  split_and!; [done..|lia|lia].
Qed.

(** [q] has [k] digits, and the last is not zero. *)
Definition digits_ok (q : Z) (k : nat) : Prop :=
  (1 ≤ k ≤ 15)%nat ∧ 10 ^ (Z.of_nat k - 1) ≤ q < 10 ^ Z.of_nat k ∧ q mod 10 ≠ 0.

Lemma strip_zeros_spec fuel q n :
  n = S fuel → (n ≤ 15)%nat → 10 ^ (Z.of_nat n - 1) ≤ q < 10 ^ Z.of_nat n →
  let '(q', k) := strip_zeros fuel q n in digits_ok q' k.
Proof.
  revert q n. induction fuel as [|fuel IH]; intros q n -> Hn Hq; cbn [strip_zeros].
  - split; [lia|]. split; [done|]. change (10 ^ (Z.of_nat 1 - 1)) with 1 in Hq. change (10 ^ Z.of_nat 1) with 10 in Hq.
    rewrite Z.mod_small; lia.
  - destruct (Z.eqb_spec (q mod 10) 0) as [E|E]; [|split; [lia|done]]. cbn [pred]. apply IH; [done|lia|].
    rewrite Nat2Z.inj_succ, Z.pow_succ_r in Hq by lia. replace (Z.succ (Z.of_nat (S fuel)) - 1) with (Z.succ (Z.of_nat (S fuel) - 1)) in Hq by lia.
    rewrite Z.pow_succ_r in Hq by lia. pose proof (Z.div_mod q 10 ltac:(lia)). lia.
Qed.

Lemma decimal15_spec n d :
  0 < n → 0 < d → -1074 ≤ Z.log2 n - Z.log2 d ≤ 1023 →
  let '(q, k, x) := decimal15 n d in digits_ok q k ∧ -329 ≤ x ≤ 309.
Proof.
  intros Hn Hd Hl. destruct (exponent10_spec n d Hn Hd Hl) as (G1 & G2 & Hx). unfold decimal15. set (x := exponent10 n d) in *.
  set (q := if 0 <=? 14 - x then _ else _).
  assert (Hq : 10 ^ 14 ≤ q ≤ 10 ^ 15).
  { assert (Hp : ∀ e, 0 ≤ e → 0 < 10 ^ e) by (intros; apply Z.pow_pos_nonneg; lia). unfold q, ge_pow10 in *. clear q.
    destruct (Z.leb_spec 0 (14 - x)) as [Hx14|Hx14].
    - apply round_div_bounds; [done| |].
      + destruct (Z.leb_spec 0 x) as [H0|H0]; apply Z.leb_le in G1.
        * assert (E : 10 ^ 14 = 10 ^ x * 10 ^ (14 - x)) by (rewrite <- Z.pow_add_r by lia; f_equal; lia). pose proof (Hp _ Hx14). nia.
        * assert (E : 10 ^ (14 - x) = 10 ^ (- x) * 10 ^ 14) by (rewrite <- Z.pow_add_r by lia; f_equal; lia). pose proof (Hp 14 ltac:(lia)). nia.
      + destruct (Z.leb_spec 0 (x + 1)) as [H0|H0]; apply Z.leb_gt in G2.
        * assert (E : 10 ^ 15 = 10 ^ (x + 1) * 10 ^ (14 - x)) by (rewrite <- Z.pow_add_r by lia; f_equal; lia). pose proof (Hp _ Hx14). nia.
        * assert (E : 10 ^ (14 - x) = 10 ^ (- (x + 1)) * 10 ^ 15) by (rewrite <- Z.pow_add_r by lia; f_equal; lia). pose proof (Hp 15 ltac:(lia)). nia.
    - pose proof (Hp (x - 14) ltac:(lia)). apply round_div_bounds; [nia| |].
      + destruct (Z.leb_spec 0 x) as [H0|H0]; [|lia]. apply Z.leb_le in G1.
        assert (E : 10 ^ x = 10 ^ 14 * 10 ^ (x - 14)) by (rewrite <- Z.pow_add_r by lia; f_equal; lia). nia.
      + destruct (Z.leb_spec 0 (x + 1)) as [H0|H0]; [|lia]. apply Z.leb_gt in G2.
        assert (E : 10 ^ (x + 1) = 10 ^ 15 * 10 ^ (x - 14)) by (rewrite <- Z.pow_add_r by lia; f_equal; lia). nia. }
  destruct (Z.eqb_spec q (10 ^ 15)) as [E|E].
  - pose proof (strip_zeros_spec 14 (10 ^ 14) 15 eq_refl ltac:(lia)) as H. destruct (strip_zeros 14 (10 ^ 14) 15) as [q' k].
    split; [apply H; split; [done|by vm_compute]|lia].
  - pose proof (strip_zeros_spec 14 q 15 eq_refl ltac:(lia)) as H. destruct (strip_zeros 14 q 15) as [q' k].
    split; [apply H; change (Z.of_nat 15) with 15; change (15 - 1) with 14; lia|lia].
Qed.

(** ** Reading digits *)

Lemma add_digits_range ds : ∀ v, 0 ≤ v → forallb isdigit ds = true →
  v * 10 ^ Z.of_nat (length ds) ≤ foldl add_digit v ds < (v + 1) * 10 ^ Z.of_nat (length ds).
Proof.
  induction ds as [|c ds IH]; intros v Hv Hd; [simpl; lia|]. apply andb_prop in Hd as [Hc%isdigit_range Hd]. cbn [foldl length].
  assert (E : add_digit v c = v * 10 + (c - 48)) by done. specialize (IH (add_digit v c) ltac:(lia) Hd).
  rewrite Nat2Z.inj_succ, Z.pow_succ_r by lia. assert (0 < 10 ^ Z.of_nat (length ds)) by (apply Z.pow_pos_nonneg; lia). nia.
Qed.

Lemma put_digits_length q k : digits_ok q k →
  ∃ c ds, put_digits 10 q = c :: ds ∧ 49 ≤ c < 58 ∧ forallb isdigit ds = true ∧ foldl add_digit 0 (c :: ds) = q ∧ S (length ds) = k.
Proof.
  intros (Hk & Hq & _). assert (Hq0 : 0 < q). { assert (0 < 10 ^ (Z.of_nat k - 1)) by (apply Z.pow_pos_nonneg; lia). lia. }
  destruct (put_digits_spec q Hq0) as (c & ds & E & Hc & Hds & Hv). exists c, ds. split; [done|]. split; [done|]. split; [done|]. split; [done|].
  assert (Ec : foldl add_digit 0 (c :: ds) = foldl add_digit (c - 48) ds) by done.
  pose proof (add_digits_range ds (c - 48) ltac:(lia) Hds) as Hr. rewrite <- Ec, Hv in Hr.
  assert (Hlt : ∀ a b, 0 ≤ a → 0 ≤ b → 10 ^ a < 10 ^ b → a < b).
  { intros a b Ha Hb H. destruct (Z.lt_ge_cases a b) as [|Hge]; [done|]. pose proof (Z.pow_le_mono_r 10 b a ltac:(lia) Hge). lia. }
  assert (P : 0 < 10 ^ Z.of_nat (length ds)) by (apply Z.pow_pos_nonneg; lia).
  assert (H1 : Z.of_nat (length ds) < Z.of_nat k) by (apply Hlt; [lia|lia|nia]).
  assert (H2 : Z.of_nat k - 1 < Z.of_nat (length ds) + 1) by (apply Hlt; [lia|lia|rewrite Z.pow_add_r by lia; change (10 ^ 1) with 10; nia]).
  lia.
Qed.

(** Digits up to a character that is none. *)
Lemma scan_digits_app ds rest v n :
  forallb isdigit ds = true → isdigit (at_ptr rest) = false →
  scan_digits (ds ++ rest) v n = (foldl add_digit v ds, (n + length ds)%nat, rest).
Proof.
  revert v n. induction ds as [|c ds IH]; intros v n Hd Hr.
  - simpl. rewrite Nat.add_0_r. destruct rest as [|c rest]; [done|]. simpl in *. by rewrite Hr.
  - apply andb_prop in Hd as [Hc Hd]. cbn [app scan_digits]. rewrite Hc, IH by done. cbn [foldl length]. f_equal. f_equal. lia.
Qed.

Lemma lex_int_app ds rest : ∀ v, 0 ≤ v → forallb isdigit ds = true → isdigit (at_ptr rest) = false → foldl add_digit v ds ≤ 2 ^ 63 →
  lex_int v 0 false (ds ++ rest) = (foldl add_digit v ds, 0, false, rest).
Proof.
  assert (Hmax : 2 ^ 63 ≤ 10 * (ULLONG_MAX / 10)) by (by vm_compute). assert (H64 : 2 ^ 63 < 2 ^ 64) by (by vm_compute).
  revert Hmax H64. generalize (2 ^ 63). intros m Hmax H64.
  induction ds as [|c ds IH]; intros v Hv Hd Hr Hm.
  { destruct rest as [|c rest]; [done|]. cbn [at_ptr] in Hr. cbn [app lex_int]. by rewrite Hr. }
  apply andb_prop in Hd as [Hc Hd]. cbn [app lex_int foldl] in *. rewrite Hc.
  assert (E : add_digit v c = v * 10 + (c - chr "0")) by done. apply isdigit_range in Hc. change (chr "0") with 48 in E.
  pose proof (add_digits_mono ds (add_digit v c) ltac:(lia) Hd) as Hle.
  destruct (Z.leb_spec v (ULLONG_MAX / 10)) as [_|]; [|lia].
  change (v * 10 + (c - chr "0")) with (add_digit v c). unfold u64. rewrite Z.mod_small by lia. apply IH; [lia|done..].
Qed.

Lemma lex_frac_app ds rest : ∀ v p, 0 ≤ v → forallb isdigit ds = true → isdigit (at_ptr rest) = false → foldl add_digit v ds ≤ 2 ^ 63 →
  - 2 ^ 31 + Z.of_nat (length ds) ≤ p < 2 ^ 31 →
  lex_frac v p false (ds ++ rest) = (foldl add_digit v ds, p - Z.of_nat (length ds), false, rest).
Proof.
  assert (Hmax : 2 ^ 63 ≤ 10 * (ULLONG_MAX / 10)) by (by vm_compute). assert (H64 : 2 ^ 63 < 2 ^ 64) by (by vm_compute).
  revert Hmax H64. generalize (2 ^ 63). intros m Hmax H64.
  induction ds as [|c ds IH]; intros v p Hv Hd Hr Hm Hp.
  { cbn [length foldl app]. rewrite Z.sub_0_r. destruct rest as [|c rest]; [done|]. cbn [at_ptr] in Hr. cbn [lex_frac]. by rewrite Hr. }
  apply andb_prop in Hd as [Hc Hd]. cbn [app lex_frac foldl length] in *. rewrite Hc.
  assert (E : add_digit v c = v * 10 + (c - chr "0")) by done. apply isdigit_range in Hc. change (chr "0") with 48 in E.
  pose proof (add_digits_mono ds (add_digit v c) ltac:(lia) Hd) as Hle.
  destruct (Z.leb_spec v (ULLONG_MAX / 10)) as [_|]; [|lia].
  change (v * 10 + (c - chr "0")) with (add_digit v c). unfold u64. rewrite Z.mod_small by lia. rewrite i32_id by lia.
  rewrite IH by (lia || done). do 3 f_equal. lia.
Qed.

Lemma lex_exp_digits ds : ∀ v, 0 ≤ v → forallb isdigit ds = true → foldl add_digit v ds < INT_MAX / 10 →
  lex_exp v ds = Some (foldl add_digit v ds, []).
Proof.
  induction ds as [|c ds IH]; intros v Hv Hd Hm; [done|].
  apply andb_prop in Hd as [Hc Hd]. cbn [lex_exp foldl] in *. rewrite Hc. apply isdigit_range in Hc.
  assert (E : add_digit v c = v * 10 + (c - chr "0")) by done. change (chr "0") with 48 in E.
  pose proof (add_digits_mono ds (add_digit v c) ltac:(lia) Hd) as Hle.
  destruct (Z.leb_spec (INT_MAX / 10) v); [lia|]. change (v * 10 + (c - chr "0")) with (add_digit v c). apply IH; [lia|done..].
Qed.

Lemma zeros_digits n : forallb isdigit (replicate n (chr "0")) = true.
Proof. by apply forallb_repeated. Qed.

Lemma leading_zeros n ds : foldl add_digit 0 (replicate n (chr "0") ++ ds) = foldl add_digit 0 ds.
Proof. induction n as [|n IH]; [done|]. cbn [replicate app foldl]. exact IH. Qed.

(** Making the power of ten zero. *)
Lemma scale_up_spec fuel s p : 0 ≤ p → let '(s', p') := scale_up fuel s p in 0 ≤ p' ∧ (p' = 0 → s' = s * 10 ^ p).
Proof.
  revert s p. induction fuel as [|fuel IH]; intros s p Hp; cbn [scale_up].
  { split; [done|]. intros ->. by rewrite Z.mul_1_r. }
  destruct (Z.ltb_spec 0 p); cbn [andb]; [|split; [done|]; intros ->; by rewrite Z.mul_1_r].
  destruct (_ <? _); [|split; [done|lia]]. specialize (IH (s * 10) (p - 1) ltac:(lia)).
  destruct (scale_up fuel (s * 10) (p - 1)) as [s' p']. destruct IH as [H1 H2]. split; [done|]. intros E. rewrite (H2 E).
  replace p with (Z.succ (p - 1)) at 2 by lia. rewrite Z.pow_succ_r by lia. lia.
Qed.

Lemma scale_down_nonneg fuel s p : 0 ≤ p → scale_down fuel s p = (s, p).
Proof. intros Hp. destruct fuel; [done|]. cbn [scale_down]. by rewrite (proj2 (Z.ltb_ge p 0)). Qed.

Lemma scale_down_stays fuel s p : s mod 10 ≠ 0 → scale_down fuel s p = (s, p).
Proof. intros Hs. destruct fuel; [done|]. cbn [scale_down]. by rewrite (proj2 (Z.eqb_neq _ _) Hs), andb_false_r. Qed.

Lemma scale_up_neg fuel s p : p ≤ 0 → scale_up fuel s p = (s, p).
Proof. intros Hp. destruct fuel; [done|]. cbn [scale_up]. by rewrite (proj2 (Z.ltb_ge 0 p)). Qed.

(** ** Numerals *)

(** A number as the grammar has it: a sign, the digits before and after the
    decimal point, and an exponent with its sign. *)
Definition frac_text (fds : list Z) : list Z := match fds with [] => [] | _ => chr "." :: fds end.
Definition exp_text (e : option (bool * list Z)) : list Z :=
  match e with None => [] | Some (neg, eds) => chr "e" :: (if neg : bool then chr "-" else chr "+") :: eds end.
Definition exp_value (e : option (bool * list Z)) : Z :=
  match e with None => 0 | Some (neg, eds) => if neg : bool then - foldl add_digit 0 eds else foldl add_digit 0 eds end.
Definition sign_text (neg : bool) : list Z := if neg then [chr "-"] else [].

Record numeral (ip fds : list Z) (e : option (bool * list Z)) : Prop := {
  nm_first : ip = [chr "0"] ∨ ∃ c ds, ip = c :: ds ∧ 49 ≤ c < 58;
  nm_ip : forallb isdigit ip = true;
  nm_fds : forallb isdigit fds = true ∧ Z.of_nat (length fds) < 1000;
  nm_exp : match e with None => True | Some (_, eds) => eds ≠ [] ∧ forallb isdigit eds = true ∧ foldl add_digit 0 eds < 1000 end
}.

Lemma not_digit_after fds e : isdigit (at_ptr (frac_text fds ++ exp_text e)) = false ∧ isdigit (at_ptr (exp_text e)) = false.
Proof. destruct fds, e as [[[] eds]|]; done. Qed.

Lemma numeral_start ip fds e : numeral ip fds e → 48 ≤ at_ptr ip < 58 ∧ ip ≠ [].
Proof. intros [[->|(c & ds & -> & Hc)] _ _ _]; [done|]. split; [simpl; lia|done]. Qed.

Lemma sign_split (neg : bool) ip rest :
  48 ≤ at_ptr ip < 58 → ip ≠ [] →
  (if at_ptr (sign_text neg ++ ip ++ rest) =? chr "-" then (true, tail (sign_text neg ++ ip ++ rest)) else (false, sign_text neg ++ ip ++ rest))
  = (neg, ip ++ rest).
Proof.
  intros Hc Hn. destruct neg; [done|]. destruct ip as [|c ip]; [done|]. cbn [sign_text app at_ptr] in *.
  change (chr "-") with 45. by destruct (Z.eqb_spec c 45); [lia|].
Qed.

(** strtod() on a numeral. *)
Definition numeral_double (v ex : Z) : Z * bool :=
  if v =? 0 then (0, false)
  else if 310 <? ex + Z.log2 v * 30102 / 100000 then (Z.shiftl 0x7ff 52, true)
  else if ex + (Z.log2 v + 1) * 30103 / 100000 <? -330 then (0, true)
  else if 0 <=? ex then double_nearest (v * 10 ^ ex) 1 else double_nearest v (10 ^ (- ex)).

Lemma strtod_numeral (neg : bool) ip fds e :
  numeral ip fds e →
  let '(x, range) := numeral_double (foldl add_digit 0 (ip ++ fds)) (exp_value e - Z.of_nat (length fds)) in
  strtod (sign_text neg ++ ip ++ frac_text fds ++ exp_text e) = (if neg then Z.lor x (2 ^ 63) else x, range, []).
Proof.
  intros Hn. destruct (numeral_start _ _ _ Hn) as [Hs Hne]. destruct Hn as [_ Hip [Hfd _] He]. unfold strtod. rewrite sign_split by done.
  destruct (not_digit_after fds e) as [N1 N2]. rewrite (scan_digits_app ip) by done. cbn [Nat.add].
  assert (Hf : (if at_ptr (frac_text fds ++ exp_text e) =? chr "."
      then let '(v, n', s3) := scan_digits (tail (frac_text fds ++ exp_text e)) (foldl add_digit 0 ip) 0 in (v, n', s3)
      else (foldl add_digit 0 ip, 0%nat, frac_text fds ++ exp_text e))
    = (foldl add_digit 0 (ip ++ fds), length fds, exp_text e)).
  { destruct fds as [|f fds]; [rewrite app_nil_r; by destruct e as [[[] eds]|]|]. cbn [frac_text app at_ptr tail].
    change (chr "." =? chr ".") with true. cbv iota. change (f :: fds ++ exp_text e) with ((f :: fds) ++ exp_text e).
    rewrite (scan_digits_app (f :: fds)) by done. cbn [Nat.add]. by rewrite foldl_app. }
  rewrite Hf. assert (Hz : ((length ip + length fds)%nat =? 0)%nat = false) by (destruct ip; [done|done]). rewrite Hz.
  assert (Hx : (if (at_ptr (exp_text e) =? chr "e") || (at_ptr (exp_text e) =? chr "E") then
        let s4 := tail (exp_text e) in
        let '(en, s5) := if at_ptr s4 =? chr "+" then (false, tail s4) else if at_ptr s4 =? chr "-" then (true, tail s4) else (false, s4) in
        let '(ev, ne, s6) := scan_digits s5 0 0 in
        if (ne =? 0)%nat then (0, exp_text e) else (if en : bool then - ev else ev, s6)
      else (0, exp_text e)) = (exp_value e, [])).
  { destruct e as [[en eds]|]; [|done]. destruct He as (Hne' & Hed & _). pose proof (scan_digits_app eds [] 0 0 Hed eq_refl) as Hsc.
    rewrite app_nil_r in Hsc. destruct eds as [|c eds]; [done|]. destruct en; cbn [exp_text at_ptr tail]; cbv beta iota zeta;
      (change (chr "e" =? chr "e") with true); cbn [orb]; cbv iota; cbn [at_ptr tail];
      [change (chr "-" =? chr "+") with false; change (chr "-" =? chr "-") with true|change (chr "+" =? chr "+") with true];
      cbv iota; cbn [tail]; rewrite Hsc; done. }
  cbv zeta in Hx |- *. rewrite Hx. cbv beta iota. unfold numeral_double. destruct (if foldl add_digit 0 (ip ++ fds) =? 0 then _ else _) as [y range]. done.
Qed.

Lemma lex_numeral_parts ip fds e :
  numeral ip fds e → foldl add_digit 0 (ip ++ fds) ≤ 2 ^ 63 →
  (if at_ptr (ip ++ frac_text fds ++ exp_text e) =? chr "0" then
     if isdigit (at_ptr (tail (ip ++ frac_text fds ++ exp_text e))) then inl (bytes "leading zeros not allowed")
     else inr (0, 0, false, tail (ip ++ frac_text fds ++ exp_text e))
   else if isdigit (at_ptr (ip ++ frac_text fds ++ exp_text e)) then inr (lex_int 0 0 false (ip ++ frac_text fds ++ exp_text e))
   else inl (bytes "'-' must be followed by digit")) = inr (foldl add_digit 0 ip, 0, false, frac_text fds ++ exp_text e)
  ∧ (if at_ptr (frac_text fds ++ exp_text e) =? chr "." then
       if isdigit (at_ptr (tail (frac_text fds ++ exp_text e))) then inr (lex_frac (foldl add_digit 0 ip) 0 false (tail (frac_text fds ++ exp_text e)))
       else inl (bytes "decimal point must be followed by digit")
     else inr (foldl add_digit 0 ip, 0, false, frac_text fds ++ exp_text e))
    = inr (foldl add_digit 0 (ip ++ fds), - Z.of_nat (length fds), false, exp_text e).
Proof.
  intros [Hst Hip [Hfd Hlf] _] Hmax. destruct (not_digit_after fds e) as [N1 N2].
  pose proof (add_digits_mono ip 0 ltac:(lia) Hip) as H0. rewrite foldl_app in *.
  pose proof (add_digits_mono fds (foldl add_digit 0 ip) H0 Hfd) as H1. split.
  - destruct Hst as [->|(c & ds & -> & Hc)].
    + cbn [app at_ptr tail]. change (chr "0" =? chr "0") with true. cbv iota. by rewrite N1.
    + cbn [app at_ptr]. change (chr "0") with 48. destruct (Z.eqb_spec c 48); [lia|]. rewrite (proj2 (isdigit_range c)) by lia.
      change (c :: ds ++ frac_text fds ++ exp_text e) with ((c :: ds) ++ frac_text fds ++ exp_text e). rewrite lex_int_app by (done || lia). done.
  - destruct fds as [|f fds]; [by destruct e as [[[] eds]|]|]. cbn [frac_text app at_ptr tail]. change (chr "." =? chr ".") with true. cbv iota.
    change (f :: fds ++ exp_text e) with ((f :: fds) ++ exp_text e). pose proof (andb_prop _ _ Hfd) as [Hf _]. rewrite Hf.
    rewrite lex_frac_app by (done || lia). done.
Qed.

Lemma lex_numeral_exp e p :
  match e with None => True | Some (_, eds) => eds ≠ [] ∧ forallb isdigit eds = true ∧ foldl add_digit 0 eds < 1000 end → -1000 < p ≤ 0 →
  (if (at_ptr (exp_text e) =? chr "e") || (at_ptr (exp_text e) =? chr "E") then
     let cp := tail (exp_text e) in
     let '(negative_exponent, cp) :=
       if at_ptr cp =? chr "+" then (false, tail cp) else if at_ptr cp =? chr "-" then (true, tail cp) else (false, cp) in
     if isdigit (at_ptr cp) then
       match lex_exp 0 cp with
       | None => inl (bytes "exponent outside valid range")
       | Some (exponent, cp) => inr (i32 (if negative_exponent : bool then p - exponent else p + exponent), cp)
       end
     else inl (bytes "exponent must contain at least one digit")
   else inr (p, exp_text e)) = (inr (exp_value e + p, []) : list Z + (Z * list Z)).
Proof.
  intros He Hp. destruct e as [[en eds]|]; [|done]. destruct He as (Hne & Hed & Hlt).
  pose proof (add_digits_mono eds 0 ltac:(lia) Hed) as H0. assert (HM : INT_MAX / 10 = 214748364) by reflexivity.
  pose proof (lex_exp_digits eds 0 ltac:(lia) Hed ltac:(lia)) as Hl. destruct eds as [|c eds]; [done|]. pose proof (andb_prop _ _ Hed) as [Hc _].
  cbn [exp_text at_ptr]. change (chr "e" =? chr "e") with true. cbn [orb]. cbv iota zeta. cbn [tail].
  destruct en; cbn [at_ptr];
    [change (chr "-" =? chr "+") with false; change (chr "-" =? chr "-") with true|change (chr "+" =? chr "+") with true]; cbv iota; cbn [tail at_ptr];
    rewrite Hc, Hl; cbn [exp_value]; rewrite i32_id by lia; do 2 f_equal; lia.
Qed.

(** The lexer on a numeral: it is an integer if the power of ten can be made
    zero and the result has 64 bits, and otherwise what strtod() makes of it. *)
Lemma lex_numeral (neg : bool) ip fds e :
  numeral ip fds e → let v := foldl add_digit 0 (ip ++ fds) in let ex := exp_value e - Z.of_nat (length fds) in
  let text := sign_text neg ++ ip ++ frac_text fds ++ exp_text e in
  0 < v ≤ 2 ^ 63 →
  lex_number text =
  let '(s, p) := scale_up 20 v ex in
  let '(s, p) := scale_down 20 s p in
  if (p =? 0) && (s <=? (if neg then LLONG_MAX + 1 else LLONG_MAX)) then inr (T_INTEGER (if neg then - s else s))
  else match str_to_double text with
       | None => inl (bytes "number outside valid range")
       | Some r => inr (T_REAL (if double_is_zero r then 0 else r))
       end.
Proof.
  intros Hn v ex text Hv. destruct (numeral_start _ _ _ Hn) as [Hs Hne]. unfold lex_number. unfold text at 1 2 3. rewrite sign_split by done. cbv zeta.
  destruct (lex_numeral_parts ip fds e Hn ltac:(apply Hv)) as [E1 E2]. rewrite E1. cbv iota beta. rewrite E2. cbv iota beta.
  pose proof (lex_numeral_exp e (- Z.of_nat (length fds)) (nm_exp _ _ _ Hn) ltac:(pose proof (nm_fds _ _ _ Hn); lia)) as E3.
  cbv zeta in E3. rewrite E3.
  cbv iota beta. cbn [at_ptr]. change (negb (0 =? 0)) with false. cbv iota. fold v. destruct (Z.eqb_spec v 0); [lia|].
  replace (exp_value e + - Z.of_nat (length fds)) with ex by (unfold ex; lia). done.
Qed.

(** ** Real numbers *)

(** The text of 15 digits with a fraction or an exponent is a numeral. *)
Lemma put_decimal_numeral q k x :
  digits_ok q k → -329 ≤ x ≤ 309 → x - Z.of_nat k + 1 < 0 ∨ 15 ≤ x →
  ∃ ip fds e, numeral ip fds e ∧ put_decimal q k x = ip ++ frac_text fds ++ exp_text e
    ∧ foldl add_digit 0 (ip ++ fds) = q ∧ exp_value e - Z.of_nat (length fds) = x - Z.of_nat k + 1.
Proof.
  intros Hq Hx Hc. destruct (put_digits_length q k Hq) as (c & ds & E & Hcr & Hds & Hv & Hl). destruct Hq as [Hk _].
  assert (Hcd : forallb isdigit (c :: ds) = true) by (cbn [forallb]; rewrite Hds, andb_true_r; apply isdigit_range; lia).
  unfold put_decimal. rewrite E. destruct ((x <? -4) || (15 <=? x)) eqn:Ef.
  { assert (Hx0 : 0 < Z.abs x) by (apply orb_true_iff in Ef as [?%Z.ltb_lt|?%Z.leb_le]; lia). clear Ef.
    destruct (put_digits_spec (Z.abs x) Hx0) as (c' & ds' & E' & Hc' & Hds' & Hv'). rewrite E'.
    set (eds := pad_zeros 2 (c' :: ds')). assert (He : eds ≠ []) by (unfold eds, pad_zeros; by destruct (replicate _ _)).
    assert (Hed : forallb isdigit eds = true).
    { unfold eds, pad_zeros. rewrite forallb_app, zeros_digits. cbn [forallb]. rewrite Hds', andb_true_r. apply isdigit_range. lia. }
    assert (Hev : foldl add_digit 0 eds = Z.abs x) by (unfold eds, pad_zeros; rewrite leading_zeros; exact Hv').
    clearbody eds. exists [c], ds, (Some (x <? 0, eds)). split_and!.
    - split; [right; by exists c, []|cbn [forallb]; rewrite andb_true_r; apply isdigit_range; lia|split; [done|lia]|split_and!; [done..|lia]].
    - cbn [take drop app]. f_equal. destruct ds as [|f ds]; cbn [length] in Hl.
      + by rewrite (proj2 (Nat.ltb_ge 1 k)) by lia.
      + rewrite (proj2 (Nat.ltb_lt 1 k)) by lia. cbn [frac_text]. by destruct (x <? 0).
    - exact Hv.
    - cbn [exp_value]. rewrite Hev. destruct (Z.ltb_spec x 0); lia. }
  apply orb_false_iff in Ef as [H4%Z.ltb_ge H15%Z.leb_gt].
  destruct Hc as [Hc|Hc]; [|lia]. destruct (Z.ltb_spec x 0) as [H0|H0].
  - set (z := replicate (Z.to_nat (- x - 1)) (chr "0")). exists [chr "0"], (z ++ c :: ds), None. split_and!.
    + split; [by left|done| |done]. rewrite forallb_app, Hcd. unfold z. rewrite zeros_digits. split; [done|]. rewrite length_app, length_replicate. cbn [length]. lia.
    + cbn [exp_text]. rewrite app_nil_r. unfold frac_text. by destruct z.
    + cbn [app foldl]. unfold z. rewrite leading_zeros. exact Hv.
    + cbn [exp_value]. unfold z. rewrite length_app, length_replicate. cbn [length]. lia.
  - destruct (Nat.leb_spec k (S (Z.to_nat x))); [lia|]. set (n := S (Z.to_nat x)) in *.
    exists (take n (c :: ds)), (drop n (c :: ds)), None. destruct (forallb_sub isdigit (c :: ds) n Hcd) as [H1 H2]. split_and!.
    + split; [right; exists c, (take (Z.to_nat x) ds); done|done| |done]. split; [done|]. rewrite length_drop. cbn [length]. lia.
    + cbn [exp_text]. rewrite app_nil_r. f_equal. unfold frac_text. destruct (drop n (c :: ds)) eqn:Ed; [|done].
      apply (f_equal length) in Ed. rewrite length_drop in Ed. cbn [length] in Ed. lia.
    + rewrite take_drop. exact Hv.
    + cbn [exp_value]. rewrite length_drop. cbn [length]. lia.
Qed.

(** The text of the 15 digits identifies the real number, and is not that of an
    integer of 64 bits (which is read as an integer): the double nearest to the
    decimal fraction q * 10^p is the number. *)
Definition real_kept (r : Z) : bool :=
  match double_classify r with
  | Double_finite neg m e =>
      let '(q, k, x) := let '(n, d) := fraction m e in decimal15 n d in
      let p := x - Z.of_nat k + 1 in
      let '(n, d) := if 0 <=? p then (q * 10 ^ p, 1) else (q, 10 ^ (- p)) in
      negb (m =? 0) && bool_decide (double_nearest n d = (Z.land r (2 ^ 63 - 1), false))
      && negb ((0 <=? p) && (n <=? (if neg : bool then LLONG_MAX + 1 else LLONG_MAX)))
  | _ => false
  end.

(** The estimates by which strtod() finds numbers far out of range. *)
Lemma log10_estimates q k :
  digits_ok q k → Z.log2 q * 30102 / 100000 ≤ Z.of_nat k - 1 ∧ Z.of_nat k - 1 ≤ (Z.log2 q + 1) * 30103 / 100000.
Proof.
  intros (Hk & Hq & _).
  assert (H : ∀ k, (1 ≤ k ≤ 15)%nat → Z.log2 (10 ^ Z.of_nat k - 1) * 30102 / 100000 ≤ Z.of_nat k - 1
    ∧ Z.of_nat k - 1 ≤ (Z.log2 (10 ^ (Z.of_nat k - 1)) + 1) * 30103 / 100000).
  { intros j Hj. do 16 (destruct j as [|j]; [try lia; vm_compute; split; congruence|]). lia. }
  destruct (H k Hk) as [H1 H2]. pose proof (Z.log2_le_mono q (10 ^ Z.of_nat k - 1) ltac:(lia)) as L1.
  pose proof (Z.log2_le_mono (10 ^ (Z.of_nat k - 1)) q ltac:(lia)) as L2. split.
  - etrans; [|exact H1]. apply Z.div_le_mono; lia.
  - etrans; [exact H2|]. apply Z.div_le_mono; lia.
Qed.

(** The fraction of a double is in the range of the estimates. *)
Lemma fraction_range r neg m e :
  double_classify r = Double_finite neg m e → m ≠ 0 →
  let '(n, d) := fraction m e in 0 < n ∧ 0 < d ∧ -1074 ≤ Z.log2 n - Z.log2 d ≤ 1023.
Proof.
  intros H Hm. assert (Hr : 0 < m < 2 ^ 53 ∧ -1074 ≤ e ≤ 971).
  { unfold double_classify in H. set (be := Z.land (Z.shiftr r 52) 0x7ff) in *. set (f := Z.land r (2 ^ 52 - 1)) in *.
    assert (Hb : 0 ≤ be < 2 ^ 11) by (unfold be; change 0x7ff with (Z.ones 11); rewrite Z.land_ones by lia; apply Z.mod_pos_bound; lia).
    assert (Hf : 0 ≤ f < 2 ^ 52) by (unfold f; change (2 ^ 52 - 1) with (Z.ones 52); rewrite Z.land_ones by lia; apply Z.mod_pos_bound; lia).
    destruct (Z.eqb_spec be 0x7ff); [by destruct (f =? 0)|]. destruct (Z.eqb_spec be 0); injection H as <- <- <-; lia. }
  unfold fraction. assert (Hl : 0 ≤ Z.log2 m ≤ 52) by (split; [apply Z.log2_nonneg|]; apply Z.lt_succ_r, Z.log2_lt_pow2; lia).
  destruct (Z.leb_spec 0 e).
  - rewrite Z.log2_mul_pow2 by lia. change (Z.log2 1) with 0. assert (0 < 2 ^ e) by (apply Z.pow_pos_nonneg; lia). nia.
  - rewrite Z.log2_pow2 by lia. assert (0 < 2 ^ (- e)) by (apply Z.pow_pos_nonneg; lia). lia.
Qed.

Lemma sign_restored r neg : is_u64 r → Z.testbit r 63 = neg →
  (if neg then Z.lor (Z.land r (2 ^ 63 - 1)) (2 ^ 63) else Z.land r (2 ^ 63 - 1)) = r.
Proof.
  intros Hr Hb. apply Z.bits_inj'. intros i Hi.
  assert (H : Z.testbit (Z.land r (2 ^ 63 - 1)) i = Z.testbit r i && (i <? 63)) by (rewrite Z.land_spec, testbit_ones by lia; done).
  destruct (decide (i = 63)) as [->|].
  - destruct neg; rewrite ?Z.lor_spec, H, Hb; done.
  - assert (E : Z.testbit (Z.land r (2 ^ 63 - 1)) i = Z.testbit r i).
    { rewrite H. destruct (Z.ltb_spec i 63); [by rewrite andb_true_r|]. rewrite (testbit_high 64 r i) by (done || lia). done. }
    destruct neg; [|done]. rewrite Z.lor_spec, E, Z.pow2_bits_false by lia. by rewrite orb_false_r.
Qed.

Lemma classify_zero r neg m e : double_classify r = Double_finite neg m e → m ≠ 0 → double_is_zero r = false.
Proof.
  intros Ec Hm. destruct (double_is_zero r) eqn:Ez; [|done]. destruct Hm. apply Z.eqb_eq in Ez. unfold double_classify in Ec.
  assert (Hb : Z.land (Z.shiftr r 52) 0x7ff = 0).
  { transitivity (Z.shiftr (Z.land r (2 ^ 63 - 1)) 52); [|by rewrite Ez]. by rewrite Z.shiftr_land. }
  assert (Hf : Z.land r (2 ^ 52 - 1) = 0).
  { change (2 ^ 52 - 1) with (Z.land (2 ^ 63 - 1) (2 ^ 52 - 1)). by rewrite Z.land_assoc, Ez. }
  rewrite Hb, Hf in Ec. by injection Ec as _ <- _.
Qed.

(** What real_kept says of the decimal fraction q * 10^p. *)
Lemma kept_decimal r neg q k x :
  digits_ok q k → -329 ≤ x ≤ 309 → let p := x - Z.of_nat k + 1 in
  negb ((0 <=? p) && (q * 10 ^ p <=? (if neg : bool then LLONG_MAX + 1 else LLONG_MAX))) = true →
  (if 0 <=? p then double_nearest (q * 10 ^ p) 1 else double_nearest q (10 ^ (- p))) = (Z.land r (2 ^ 63 - 1), false) →
  is_u64 r → Z.testbit r 63 = neg → double_is_zero r = false →
  lex_number (sign_text neg ++ put_decimal q k x) = inr (T_REAL r).
Proof.
  intros Hq Hx p Hi Hnear Hu Hneg Hz. pose proof (log10_estimates q k Hq) as [L1 L2]. pose proof Hq as (Hkr & Hqr & Hq10).
  assert (Hq0 : 0 < q) by (assert (0 < 10 ^ (Z.of_nat k - 1)) by (apply Z.pow_pos_nonneg; lia); lia).
  assert (Hq63 : q ≤ 2 ^ 63).
  { pose proof (Z.pow_le_mono_r 10 (Z.of_nat k) 15 ltac:(lia) ltac:(lia)). assert (10 ^ 15 ≤ 2 ^ 63) by (by vm_compute). lia. }
  apply negb_true_iff, andb_false_iff in Hi.
  assert (Hc : p < 0 ∨ 15 ≤ x).
  { destruct Hi as [Hi%Z.leb_gt|Hi%Z.leb_gt]; [by left|]. destruct (Z.le_gt_cases 0 p) as [Hp|Hp]; [|by left]. right.
    destruct (Z.le_gt_cases 15 x) as [|H15]; [done|].
    assert (Hlt : q * 10 ^ p < 10 ^ Z.of_nat k * 10 ^ p) by (apply Z.mul_lt_mono_pos_r; [apply Z.pow_pos_nonneg|]; lia).
    rewrite <- Z.pow_add_r in Hlt by lia. pose proof (Z.pow_le_mono_r 10 (Z.of_nat k + p) 15 ltac:(lia) ltac:(lia)).
    assert (10 ^ 15 ≤ LLONG_MAX) by (by vm_compute). destruct neg; lia. }
  destruct (put_decimal_numeral q k x Hq Hx Hc) as (ip & fds & ex & Hnum & -> & Ev & Ee). fold p in Ee.
  pose proof (lex_numeral neg ip fds ex Hnum) as HL. cbv zeta in HL. rewrite Ev, Ee in HL. rewrite HL by lia. clear HL.
  assert (HR : str_to_double (sign_text neg ++ ip ++ frac_text fds ++ exp_text ex) = Some r).
  { pose proof (strtod_numeral neg ip fds ex Hnum) as HS. rewrite Ev, Ee in HS. unfold numeral_double in HS.
    rewrite (proj2 (Z.eqb_neq q 0)), (proj2 (Z.ltb_ge 310 _)), (proj2 (Z.ltb_ge _ (-330))), Hnear in HS by lia.
    rewrite sign_restored in HS by done. unfold str_to_double. rewrite HS. cbn [andb orb at_ptr].
    rewrite bool_decide_false; [done|]. destruct (numeral_start _ _ _ Hnum) as [_ Hne]. by destruct neg, ip. }
  rewrite HR, Hz. destruct (Z.lt_ge_cases p 0) as [Hp|Hp].
  - rewrite scale_up_neg, scale_down_stays by (done || lia). by rewrite (proj2 (Z.eqb_neq p 0)) by lia.
  - pose proof (scale_up_spec 20 q p Hp) as Hs. destruct (scale_up 20 q p) as [s' p']. destruct Hs as [Hp' Hs].
    rewrite scale_down_nonneg by done. destruct (Z.eqb_spec p' 0) as [E|E]; [|done]. rewrite (Hs E). cbn [andb].
    destruct Hi as [Hi%Z.leb_gt|Hi]; [lia|]. by rewrite Hi.
Qed.

(** A real number that is kept is read back. *)
Lemma lex_number_real r : is_u64 r → real_kept r = true → lex_number (put_double r) = inr (T_REAL r).
Proof.
  intros Hu Hk. unfold real_kept, put_double in *. destruct (double_classify r) as [| |neg m e] eqn:Ec; [done..|].
  assert (Hneg : Z.testbit r 63 = neg).
  { unfold double_classify in Ec. destruct (_ =? 0x7ff); [by destruct (_ =? 0)|]. destruct (_ =? 0); by injection Ec as <-. }
  pose proof (fraction_range r neg m e Ec) as Hfr. destruct (fraction m e) as [n d]. unfold put_g.
  destruct (Z.eqb_spec m 0) as [|Hm]; [destruct (decimal15 n d) as [[q k] x]; by destruct (if 0 <=? _ then _ else _)|].
  destruct (Hfr Hm) as (Hn & Hd & Hl). pose proof (decimal15_spec n d Hn Hd Hl) as Hdec. destruct (decimal15 n d) as [[q k] x].
  destruct Hdec as [Hq Hx]. apply (kept_decimal r neg q k x); try done; [| |by eapply classify_zero].
  all: destruct (Z.leb_spec 0 (x - Z.of_nat k + 1)); cbn [negb andb] in *; apply andb_prop in Hk as [Hk1 Hk2]; try done; by apply bool_decide_eq_true in Hk1.
Qed.

(** Numbers that are kept, and some that are not: 2.0 is read as an integer,
    and the least positive number is refused by the range check. *)
Lemma real_kept_examples :
  real_kept 0x3fb999999999999a = true ∧ real_kept 0xc05edd2f1a9fbe77 = true ∧ real_kept 0x7e37e43c8800759c = true
  ∧ real_kept 0x4000000000000000 = false ∧ real_kept 1 = false.
Proof. by vm_compute. Qed.
