(* ===== verification/JsonRound.v ===== *)
(** * Reading back what the JSON serializer writes

    The lexer on the text of each kind of value, the parser on the text of
    arrays and objects, and the round trip through json_to_string() and
    json_from_string(). *)
From stdpp Require Import gmap sorting.
From S2P Require Import Prelude ByteOrder Hash Hmap Shash Text Json JsonThms JsonParse JsonNumbers.

Open Scope Z_scope.

(** ** Tokens *)

(** What the lexer does not touch. *)
Definition core (p : json_parser) :=
  (jp_flags p, jp_parse_state p, jp_stack p, jp_member_name p, jp_done p, jp_error p).

Lemma core_advance c p : core (advance c p) = core p.
Proof. unfold advance. by destruct (c =? 10). Qed.
Lemma lex_advance c p : jp_lex_state (advance c p) = jp_lex_state p.
Proof. unfold advance. by destruct (c =? 10). Qed.
Lemma buffer_advance c p : jp_buffer (advance c p) = jp_buffer p.
Proof. unfold advance. by destruct (c =? 10). Qed.
Lemma core_done p q : core q = core p → jp_done q = jp_done p.
Proof. by intros [= _ _ _ _ H _]. Qed.

Lemma feed1_used p c q : jp_done p = false → json_lex_input p c = Some (q, true) → feed1 p c = Some (advance c q).
Proof. intros Hd H. unfold feed1. by rewrite Hd, H. Qed.

(** Bytes that only go to the buffer. *)
Lemma run_put l (P : Z → bool) :
  (∀ p c, jp_lex_state p = l → P c = true → json_lex_input p c = Some (set_buffer (jp_buffer p ++ [c]) p, true)) →
  ∀ s p, jp_lex_state p = l → jp_done p = false → forallb P s = true →
  ∃ q, run p s = Some q ∧ jp_lex_state q = l ∧ jp_buffer q = jp_buffer p ++ s ∧ core q = core p.
Proof.
  intros HP. induction s as [|c s IH]; intros p Hl Hd Hs; [exists p; by rewrite app_nil_r|].
  apply andb_prop in Hs as [Hc Hs]. cbn [run]. rewrite (feed1_used p c _ Hd (HP p c Hl Hc)). cbn [mbind option_bind].
  destruct (IH (advance c (set_buffer (jp_buffer p ++ [c]) p))) as (q & E1 & E2 & E3 & E4).
  - by rewrite lex_advance.
  - by rewrite (core_done p) by (rewrite core_advance; done).
  - done.
  - exists q. rewrite E3, E4, buffer_advance, core_advance. simpl. by rewrite <- app_assoc.
Qed.

Lemma run_number s p :
  jp_lex_state p = JSON_LEX_NUMBER → jp_done p = false → forallb number_char s = true →
  ∃ q, run p s = Some q ∧ jp_lex_state q = JSON_LEX_NUMBER ∧ jp_buffer q = jp_buffer p ++ s ∧ core q = core p.
Proof. apply run_put. intros p' c Hl Hc. unfold json_lex_input. by rewrite Hl, Hc. Qed.

Lemma run_keyword s p :
  jp_lex_state p = JSON_LEX_KEYWORD → jp_done p = false → forallb isalpha s = true →
  ∃ q, run p s = Some q ∧ jp_lex_state q = JSON_LEX_KEYWORD ∧ jp_buffer q = jp_buffer p ++ s ∧ core q = core p.
Proof. apply run_put. intros p' c Hl Hc. unfold json_lex_input. by rewrite Hl, Hc. Qed.

Definition plain_char (c : Z) : bool := negb (c =? chr "\") && negb (c =? c_quote) && (32 <=? c).

Lemma run_plain s p :
  jp_lex_state p = JSON_LEX_STRING → jp_done p = false → forallb plain_char s = true →
  ∃ q, run p s = Some q ∧ jp_lex_state q = JSON_LEX_STRING ∧ jp_buffer q = jp_buffer p ++ s ∧ core q = core p.
Proof.
  apply run_put. intros p' c Hl Hc. unfold json_lex_input. rewrite Hl. unfold plain_char in Hc.
  destruct (c =? chr "\"); [done|]. destruct (c =? c_quote); [done|]. destruct (Z.ltb_spec c 0x20); [|done]. simpl in Hc. lia.
Qed.

Lemma input_start p tok p' : json_parser_input p tok = Some p' → jp_lex_state p' = JSON_LEX_START ∧ jp_buffer p' = [].
Proof.
  unfold json_parser_input. match goal with |- mbind _ ?m = _ → _ => destruct m as [q|] end; [|done]. by intros [= <-].
Qed.

Lemma start_used p c q used : jp_lex_state p = JSON_LEX_START → json_lex_input p c = Some (q, used) → used = true.
Proof.
  intros Hl. unfold json_lex_input. rewrite Hl. destruct (_ || _); [by intros [= <- <-]|]. destruct (islower c); [by intros [= <- <-]|].
  destruct (punctuation c) as [tok|]; [destruct (json_parser_input p tok); [by intros [= <- <-]|done]|].
  destruct (_ || _); [by intros [= <- <-]|]. destruct (c =? c_quote); [by intros [= <- <-]|]. by destruct (isprint c); intros [= <- <-].
Qed.

(** A byte that ends a token goes on after it. *)
Lemma feed1_unused p c p' :
  jp_done p = false → json_lex_input p c = Some (p', false) → jp_lex_state p' = JSON_LEX_START → feed1 p c = feed1 p' c.
Proof.
  intros Hd H Hl. unfold feed1. rewrite Hd, H. cbn [mbind option_bind]. destruct (jp_done p'); [done|].
  destruct (json_lex_input p' c) as [[q used]|] eqn:E; [|done]. cbn [mbind option_bind]. by rewrite (start_used p' c q used Hl E).
Qed.

Definition blank (c : Z) : bool := (c =? 32) || (c =? 9) || (c =? 10) || (c =? 13).
Lemma number_start_lex p c :
  jp_lex_state p = JSON_LEX_START → number_start c = true →
  json_lex_input p c = Some (set_buffer (jp_buffer p ++ [c]) (set_lex_state JSON_LEX_NUMBER p), true).
Proof.
  intros Hl Hc. unfold json_lex_input. rewrite Hl. unfold number_start in Hc. rewrite Hc.
  assert (H : (negb (blank c) && negb (islower c) && match punctuation c with None => true | _ => false end) = true).
  { apply orb_prop in Hc as [->%Z.eqb_eq|Hc%isdigit_range]; [reflexivity|]. 
    by apply (byte_check (λ c, negb (blank c) && negb (islower c) && match punctuation c with None => true | _ => false end) 48 10). }
  fold (blank c). destruct (blank c); [done|]. destruct (islower c); [done|]. by destruct (punctuation c).
Qed.

Lemma islower_range c : islower c = true ↔ 97 ≤ c < 123.
Proof. unfold islower. change (chr "a") with 97. change (chr "z") with 122. rewrite andb_true_iff. lia. Qed.

Lemma lower_lex p c :
  jp_lex_state p = JSON_LEX_START → islower c = true →
  json_lex_input p c = Some (set_buffer (jp_buffer p ++ [c]) (set_lex_state JSON_LEX_KEYWORD p), true).
Proof.
  intros Hl Hc. unfold json_lex_input. rewrite Hl, Hc. apply islower_range in Hc.
  repeat match goal with |- context [c =? ?n] => destruct (Z.eqb_spec c n); [lia|] end. done.
Qed.

Lemma cstr_id s : forallb (λ c, negb (c =? 0)) s = true → cstr s = s.
Proof. induction s as [|c s IH]; [done|]. simpl. destruct (c =? 0); [done|]. intros H. by rewrite IH. Qed.

(** The byte after a number or a keyword. *)
Lemma token_end p text q tok d rest :
  run p text = Some q → jp_done q = false → json_lex_input q d = (p' ← json_parser_input q tok; Some (p', false)) →
  run p (text ++ d :: rest) = p' ← json_parser_input q tok; run p' (d :: rest).
Proof.
  intros E Hd Hin. rewrite run_app, E. cbn [mbind option_bind run].
  destruct (json_parser_input q tok) as [p'|] eqn:Ep; cbn [mbind option_bind] in *.
  - rewrite (feed1_unused q d p'); [done..|by eapply input_start].
  - unfold feed1. by rewrite Hin, Hd.
Qed.

Lemma number_token p c s tok :
  jp_lex_state p = JSON_LEX_START → jp_buffer p = [] → jp_done p = false →
  number_start c = true → forallb number_char s = true → forallb (λ c, negb (c =? 0)) (c :: s) = true → lex_number (c :: s) = inr tok →
  ∃ q, core q = core p ∧ ∀ d rest, number_char d = false →
    run p ((c :: s) ++ d :: rest) = p' ← json_parser_input q tok; run p' (d :: rest).
Proof.
  intros Hl Hb Hd Hc Hs Hz Htok.
  pose proof (feed1_used p c _ Hd (number_start_lex p c Hl Hc)) as H1.
  destruct (run_number s (advance c (set_buffer (jp_buffer p ++ [c]) (set_lex_state JSON_LEX_NUMBER p)))) as (q & E1 & E2 & E3 & E4).
  - by rewrite lex_advance.
  - by rewrite (core_done p) by (rewrite core_advance; done).
  - done.
  - rewrite core_advance in E4. rewrite buffer_advance in E3. cbn in E3. rewrite Hb in E3. cbn [app] in E3.
    exists q. split; [exact E4|]. intros d rest Hnd. apply token_end; [by cbn [run]; rewrite H1|by rewrite (core_done p)|].
    unfold json_lex_input. rewrite E2, Hnd. cbn [negb]. unfold json_lex_number. by rewrite E3, cstr_id, Htok.
Qed.

Lemma keyword_token p c s tok :
  jp_lex_state p = JSON_LEX_START → jp_buffer p = [] → jp_done p = false →
  islower c = true → forallb isalpha s = true →
  (∀ q, jp_buffer q = c :: s → json_lex_keyword q = json_parser_input q tok) →
  ∃ q, core q = core p ∧ ∀ d rest, isalpha d = false →
    run p ((c :: s) ++ d :: rest) = p' ← json_parser_input q tok; run p' (d :: rest).
Proof.
  intros Hl Hb Hd Hc Hs Htok.
  pose proof (feed1_used p c _ Hd (lower_lex p c Hl Hc)) as H1.
  destruct (run_keyword s (advance c (set_buffer (jp_buffer p ++ [c]) (set_lex_state JSON_LEX_KEYWORD p)))) as (q & E1 & E2 & E3 & E4).
  - by rewrite lex_advance.
  - by rewrite (core_done p) by (rewrite core_advance; done).
  - done.
  - rewrite core_advance in E4. rewrite buffer_advance in E3. cbn in E3. rewrite Hb in E3. cbn [app] in E3.
    exists q. split; [exact E4|]. intros d rest Hnd. apply token_end; [by cbn [run]; rewrite H1|by rewrite (core_done p)|].
    unfold json_lex_input. rewrite E2, Hnd. cbn [negb]. by rewrite (Htok q E3).
Qed.

(** ** Strings *)

(** The three forms of a character in the text. *)
Definition char_form (c : Z) (b : list Z) : bool :=
  match b with
  | [x] => (x =? c) && plain_char x
  | [a; e] => (a =? chr "\") && bool_decide (unescape_char e = Some c)
  | a :: e :: h => (a =? chr "\") && (e =? chr "u") && forallb plain_char h && bool_decide (unescape_char e = None)
                   && (length h =? 4)%nat && bool_decide (json_lex_4hex h = inr c) && (c <? 128)
  | [] => false
  end.

Lemma serialize_char_form c : 0 < c < 256 → char_form c (serialize_char c) = true.
Proof. intros Hc. by apply (byte_check (λ c, char_form c (serialize_char c)) 1 255); [vm_compute|lia]. Qed.

Lemma run_char p c b :
  char_form c b = true → jp_lex_state p = JSON_LEX_STRING → jp_done p = false →
  ∃ q, run p b = Some q ∧ jp_lex_state q = JSON_LEX_STRING ∧ jp_buffer q = jp_buffer p ++ b ∧ core q = core p.
Proof.
  intros Hb Hl Hd. destruct b as [|a [|e h]]; [done| |].
  { apply run_plain; [done|done|]. simpl in *. apply andb_prop in Hb as [_ ->]. done. }
  assert (a = chr "\" ∧ forallb plain_char h = true) as [-> Hh].
  { unfold char_form in Hb. destruct h; repeat (apply andb_prop in Hb as [Hb ?]); split; try (by apply Z.eqb_eq); done. }
  clear Hb. set (p1 := advance (chr "\") (set_buffer (jp_buffer p ++ [chr "\"]) (set_lex_state JSON_LEX_ESCAPE p))).
  assert (H1 : feed1 p (chr "\") = Some p1) by (apply feed1_used; [done|]; unfold json_lex_input; by rewrite Hl).
  assert (Hd1 : jp_done p1 = false) by (by rewrite (core_done p p1 (core_advance _ _))).
  set (p2 := advance e (set_buffer (jp_buffer p1 ++ [e]) (set_lex_state JSON_LEX_STRING p1))).
  assert (H2 : feed1 p1 e = Some p2).
  { apply feed1_used; [done|]. unfold json_lex_input. replace (jp_lex_state p1) with JSON_LEX_ESCAPE by (symmetry; apply lex_advance). done. }
  assert (Hc2 : core p2 = core p) by (unfold p2; rewrite core_advance; exact (core_advance _ _)).
  destruct (run_plain h p2) as (q & E1 & E2 & E3 & E4); [by unfold p2; rewrite lex_advance|by rewrite (core_done p)|done|].
  exists q. cbn [run]. rewrite H1. cbn [mbind option_bind]. rewrite H2. cbn [mbind option_bind]. split; [done|]. split; [done|].
  split; [|by rewrite E4]. rewrite E3.
  replace (jp_buffer p2) with (jp_buffer p1 ++ [e]) by (symmetry; apply buffer_advance).
  replace (jp_buffer p1) with (jp_buffer p ++ [chr "\"]) by (symmetry; apply buffer_advance). by rewrite <- !app_assoc.
Qed.

Lemma run_chars s p :
  str_ok s → jp_lex_state p = JSON_LEX_STRING → jp_done p = false →
  ∃ q, run p (concat (serialize_char <$> s)) = Some q ∧ jp_lex_state q = JSON_LEX_STRING
       ∧ jp_buffer q = jp_buffer p ++ concat (serialize_char <$> s) ∧ core q = core p.
Proof.
  intros Hs. revert p. induction Hs as [|c s Hc Hs IH]; intros p Hl Hd; [exists p; by rewrite app_nil_r|].
  rewrite fmap_cons. cbn [concat]. destruct (run_char p c _ (serialize_char_form c Hc) Hl Hd) as (q & E1 & E2 & E3 & E4).
  destruct (IH q E2 ltac:(by rewrite (core_done p))) as (q' & E1' & E2' & E3' & E4').
  exists q'. rewrite run_app, E1. cbn [mbind option_bind]. rewrite E3', E3, E4', E4, <- app_assoc. done.
Qed.

Lemma lex_unicode_char h c rest :
  length h = 4%nat → json_lex_4hex h = inr c → c < 128 → json_lex_unicode (h ++ rest) = inr ([c], rest).
Proof.
  intros Hh Hx Hc. assert (H4 : json_lex_4hex (h ++ rest) = inr c).
  { unfold json_lex_4hex in *. rewrite length_app, Hh in *. rewrite take_app_le, <- Hx by lia.
    by destruct (Nat.ltb_spec (4 + length rest) 4); [lia|]. }
  unfold json_lex_unicode. rewrite H4. rewrite drop_app_length' by done.
  unfold uc_is_leading_surrogate. destruct (Z.leb_spec 0xd800 c); [lia|]. simpl. unfold put_utf8.
  by destruct (Z.leb_spec c 0x7f); [|lia].
Qed.

Lemma unescape_chars s : str_ok s → ∀ fuel out, (length (concat (serialize_char <$> s)) ≤ fuel)%nat →
  unescape_loop fuel (concat (serialize_char <$> s)) out = inr (out ++ s).
Proof.
  induction 1 as [|c s Hc Hs IH]; intros fuel out Hf; [destruct fuel; simpl; by rewrite app_nil_r|].
  rewrite fmap_cons in *. cbn [concat] in *. rewrite length_app in Hf. pose proof (serialize_char_form c Hc) as Hform.
  replace (out ++ c :: s) with ((out ++ [c]) ++ s) by (by rewrite <- app_assoc).
  destruct (serialize_char c) as [|a [|e h]]; [done| |]; cbn [length] in Hf; (destruct fuel as [|fuel]; [lia|]).
  - apply andb_prop in Hform as [->%Z.eqb_eq Hp]. unfold plain_char in Hp. cbn [app unescape_loop].
    destruct (c =? chr "\"); [done|]. destruct (c =? c_quote); [done|]. simpl. apply IH. lia.
  - unfold char_form in Hform. cbn [app unescape_loop at_ptr tail].
    destruct h as [|x h]; repeat match goal with H : _ && _ = true |- _ => apply andb_prop in H as [H ?] end;
      repeat match goal with H : bool_decide _ = true |- _ => apply bool_decide_eq_true in H end;
      apply Z.eqb_eq in Hform as ->; change (chr "\" =? c_quote) with false; change (chr "\" =? chr "\") with true; cbn [negb].
    + rewrite H. apply IH. lia.
    + rewrite H2, H4. rewrite lex_unicode_char with (c := c); [|by apply Nat.eqb_eq|done|by apply Z.ltb_lt].
      apply IH. cbn [length] in Hf. lia.
Qed.

Lemma body_nonzero s : str_ok s → forallb (λ c, negb (c =? 0)) (concat (serialize_char <$> s)) = true.
Proof.
  induction 1 as [|c s Hc Hs IH]; [done|]. rewrite fmap_cons. cbn [concat]. rewrite forallb_app, IH, andb_true_r.
  by apply (byte_check (λ c, forallb (λ c, negb (c =? 0)) (serialize_char c)) 1 255); [vm_compute|lia].
Qed.

Lemma body_plain s : str_ok s → existsb (λ c, c =? chr "\") (concat (serialize_char <$> s)) = false → concat (serialize_char <$> s) = s.
Proof.
  induction 1 as [|c s Hc Hs IH]; [done|]. rewrite fmap_cons. cbn [concat]. rewrite existsb_app. intros [H1 H2]%orb_false_iff.
  rewrite (IH H2). pose proof (serialize_char_form c Hc) as Hf. destruct (serialize_char c) as [|a [|e h]]; [done| |].
  - by apply andb_prop in Hf as [->%Z.eqb_eq _].
  - unfold char_form in Hf. apply orb_false_iff in H1 as [H1 _]. rewrite H1 in Hf. by destruct h.
Qed.

Lemma body_last s : str_ok s → last (concat (serialize_char <$> s)) = Some (chr "\") → last s = Some (chr "\").
Proof.
  destruct s as [|c s _] using rev_ind; [done|]. intros [_ [Hc _]%Forall_cons]%Forall_app. rewrite fmap_app, concat_app, !last_app. cbn.
  rewrite app_nil_r.
  assert (H : match last (serialize_char c) with None => false | Some x => negb (x =? chr "\") || (c =? chr "\") end = true).
  { by apply (byte_check (λ c, match last (serialize_char c) with None => false | Some x => negb (x =? chr "\") || (c =? chr "\") end) 1 255);
      [vm_compute|lia]. }
  destruct (last (serialize_char c)) as [x|]; [|done]. intros [= ->]. rewrite Z.eqb_refl in H. simpl in H. by apply Z.eqb_eq in H as ->.
Qed.

Lemma lex_string_body q s :
  str_ok s → last s ≠ Some (chr "\") → jp_buffer q = concat (serialize_char <$> s) →
  json_lex_string q = json_parser_input q (T_STRING s).
Proof.
  intros Hs Hl Hb. unfold json_lex_string. rewrite Hb, cstr_id by by apply body_nonzero.
  destruct (existsb _ _) eqn:E; simpl; [|by rewrite body_plain].
  unfold json_string_unescape. rewrite bool_decide_eq_false_2 by (intros H; by apply Hl, body_last). by rewrite unescape_chars.
Qed.

Lemma string_token p s :
  jp_lex_state p = JSON_LEX_START → jp_buffer p = [] → jp_done p = false → str_ok s → last s ≠ Some (chr "\") →
  ∃ q, core q = core p ∧ ∀ rest,
    run p (json_serialize_string s ++ rest) = p' ← json_parser_input q (T_STRING s); run (advance c_quote p') rest.
Proof.
  intros Hl Hb Hd Hs Hlast. set (p1 := advance c_quote (set_lex_state JSON_LEX_STRING p)).
  assert (H1 : feed1 p c_quote = Some p1) by (apply feed1_used; [done|]; unfold json_lex_input; by rewrite Hl).
  assert (Hc1 : core p1 = core p) by apply (core_advance _ (set_lex_state JSON_LEX_STRING p)).
  destruct (run_chars s p1 Hs) as (q & E1 & E2 & E3 & E4); [apply lex_advance|by rewrite (core_done p)|].
  rewrite Hc1 in E4. replace (jp_buffer p1) with ([] : list Z) in E3 by (symmetry; etrans; [apply buffer_advance|exact Hb]).
  exists q. split; [done|]. intros rest. unfold json_serialize_string. rewrite <- app_comm_cons. cbn [run]. rewrite H1. cbn [mbind option_bind].
  rewrite <- app_assoc, run_app, E1. cbn [mbind option_bind app run]. unfold feed1. rewrite (core_done p q E4), Hd.
  replace (json_lex_input q c_quote) with (p' ← json_lex_string q; Some (p', true)) by (unfold json_lex_input; by rewrite E2).
  rewrite (lex_string_body q s) by done. by destruct (json_parser_input q (T_STRING s)).
Qed.

(** ** Values *)

(** Parsing goes on in a state with a tree, at a path. *)
Definition holds (p : json_parser) (st : json_parse_state) (v : jval) (path : list json_step) (name : option (list Z)) : Prop :=
  jp_parse_state p = st ∧ tree_at p v path ∧ jp_member_name p = name ∧ jp_done p = false ∧ jp_error p = None ∧ jp_flags p = JSPF_TRAILER.

Definition ready p st v path name : Prop := holds p st v path name ∧ jp_lex_state p = JSON_LEX_START ∧ jp_buffer p = [].

Lemma holds_core p q st v path name : core q = core p → holds p st v path name → holds q st v path name.
Proof.
  intros [= Hf Hs Ht Hn Hd He] (H1 & (root & H2) & H3 & H4 & H5 & H6). unfold holds, tree_at.
  rewrite Hf, Hs, Ht, Hn, Hd, He. split; [done|]. split; [by exists root|done].
Qed.

Lemma ready_advance c p st v path name : ready p st v path name → ready (advance c p) st v path name.
Proof.
  intros (H & Hl & Hb). split; [|by rewrite lex_advance, buffer_advance]. eapply holds_core; [apply core_advance|done].
Qed.

Lemma ready_done p st v path name : ready p st v path name → jp_done p = false.
Proof. by intros ((_ & _ & _ & ? & _) & _). Qed.

(** White space. *)
Lemma run_blank p st v path name ws rest :
  ready p st v path name → forallb blank ws = true → ∃ q, ready q st v path name ∧ run p (ws ++ rest) = run q rest.
Proof.
  revert p. induction ws as [|c ws IH]; intros p Hp Hw; [by exists p|]. apply andb_prop in Hw as [Hc Hw].
  destruct (IH (advance c p) (ready_advance c _ _ _ _ _ Hp) Hw) as (q & Hq & E). exists q. split; [done|]. rewrite <- E.
  rewrite <- app_comm_cons. cbn [run]. rewrite (feed1_used p c p); [done|by eapply ready_done|]. unfold json_lex_input.
  destruct Hp as (_ & -> & _). fold (blank c). by rewrite Hc.
Qed.

(** A token of one character. *)
Lemma run_punctuation p st v path name c tok p' rest :
  ready p st v path name → punctuation c = Some tok → blank c || islower c = false → json_parser_input p tok = Some p' →
  run p (c :: rest) = run (advance c p') rest.
Proof.
  intros Hp Hc Hb E. apply orb_false_iff in Hb as [Hb1 Hb2]. cbn [run]. rewrite (feed1_used p c p'); [done|by eapply ready_done|].
  unfold json_lex_input. destruct Hp as (_ & -> & _). fold (blank c). by rewrite Hb1, Hb2, Hc, E.
Qed.

(** The states that expect the next value of a container. *)
Definition expecting (st : json_parse_state) (node : jval) : Prop :=
  match node with
  | V_array _ => st = JSON_PARSE_ARRAY_INIT ∨ st = JSON_PARSE_ARRAY_VALUE
  | V_object _ => st = JSON_PARSE_OBJECT_VALUE
  | _ => False
  end.

(** The value of a token. *)
Definition token_json (tok : json_token) : option json :=
  match tok with
  | T_FALSE => Some JSON_FALSE
  | T_NULL => Some JSON_NULL
  | T_TRUE => Some JSON_TRUE
  | T_INTEGER i => Some (JSON_INTEGER i)
  | T_REAL r => Some (JSON_REAL r)
  | T_STRING s => Some (JSON_STRING s)
  | _ => None
  end.

Lemma input_parse_value p st v path name node tok p' :
  holds p st v path name → expecting st node → tok ≠ T_END_ARRAY →
  json_parse_value p tok (next_state node) = Some p' →
  json_parser_input p tok = Some (set_buffer [] (set_lex_state JSON_LEX_START p')).
Proof.
  intros (Hst & _) He Htok E. unfold json_parser_input. rewrite Hst.
  destruct node; try destruct He as [He|He]; simpl in He; rewrite ?He; cbn [next_state] in E; cbv beta zeta iota; try contradiction.
  - by rewrite E.
  - destruct tok; try congruence; by rewrite E.
  - by rewrite E.
Qed.

Lemma input_value p st v path name node s add tok x :
  holds p st v path name → v_at path v = Some node → slot_of node name = Some (s, add) → expecting st node →
  token_json tok = Some x →
  ∃ p', json_parser_input p tok = Some p' ∧ ready p' (next_state node) (v_set path (add (json_abs x)) v) path None.
Proof.
  intros Hp Hn Hs He Hx. pose proof Hp as (Hst & Ht & Hname & Hd & Herr & Hf). rewrite <- Hname in Hs.
  destruct (put_value_spec p v path node s add x) as (root & E & Hr & Ev); [done..| |].
  { apply wf_leaf. by destruct tok; try done; injection Hx as <-. }
  eexists. split.
  - eapply input_parse_value; [done..|by destruct tok|]. destruct tok; try discriminate Hx; injection Hx as <-;
      cbv beta iota zeta delta [json_parse_value json_boolean_create json_null_create json_integer_create json_real_create json_string_create];
      by rewrite E.
  - split; [|done]. split; [done|]. split; [by exists root|]. done.
Qed.

(** The text of a value is read wherever a value is expected, up to the
    character after it; [h] bounds the depth. *)
Definition delimiter (d : Z) : Prop := d = chr "," ∨ d = chr "]" ∨ d = chr "}".

Definition reads (h : nat) (text : list Z) (x : jval) : Prop :=
  ∀ p st v path name node s add d rest,
  ready p st v path name → v_at path v = Some node → slot_of node name = Some (s, add) → expecting st node →
  (S (length path) + h ≤ JSON_MAX_HEIGHT)%nat → delimiter d →
  ∃ q, ready q (next_state node) (v_set path (add x) v) path None ∧ run p (text ++ d :: rest) = run q (d :: rest).

Lemma delimiter_ends d : delimiter d → number_char d = false ∧ isalpha d = false.
Proof. by intros [-> | [-> | ->]]. Qed.

Lemma reads_number h text tok x :
  number_text text → lex_number text = inr tok → token_json tok = Some x → reads h text (json_abs x).
Proof.
  intros (c & t & -> & Hc & Ht & Hz) Htok Hx p st v path name node s add d rest (Hp & Hl & Hb) Hn Hs He _ Hd.
  destruct (number_token p c t tok) as (q & Hq & E); try done; [apply Hp|].
  destruct (input_value q st v path name node s add tok x) as (p' & Ep & Hp'); [by eapply holds_core|done..|].
  exists p'. split; [done|]. rewrite (E d rest (proj1 (delimiter_ends d Hd))), Ep. done.
Qed.

Lemma reads_keyword h c t tok x :
  islower c = true → forallb isalpha t = true →
  (∀ q, jp_buffer q = c :: t → json_lex_keyword q = json_parser_input q tok) → token_json tok = Some x → reads h (c :: t) (json_abs x).
Proof.
  intros Hc Ht Hk Hx p st v path name node s add d rest (Hp & Hl & Hb) Hn Hs He _ Hd.
  destruct (keyword_token p c t tok) as (q & Hq & E); try done; [apply Hp|].
  destruct (input_value q st v path name node s add tok x) as (p' & Ep & Hp'); [by eapply holds_core|done..|].
  exists p'. split; [done|]. rewrite (E d rest (proj2 (delimiter_ends d Hd))), Ep. done.
Qed.

Lemma reads_string h t : str_ok t → last t ≠ Some (chr "\") → reads h (json_serialize_string t) (V_string t).
Proof.
  intros Ht Hlast p st v path name node s add d rest (Hp & Hl & Hb) Hn Hs He _ Hd.
  destruct (string_token p t) as (q & Hq & E); try done; [apply Hp|].
  destruct (input_value q st v path name node s add (T_STRING t) (JSON_STRING t)) as (p' & Ep & Hp'); [by eapply holds_core|done..|].
  exists (advance c_quote p'). split; [by apply ready_advance|]. by rewrite E, Ep.
Qed.

(** ** Containers *)

Lemma v_set_same path x v : v_at path v = Some x → v_set path x v = v.
Proof.
  revert v. induction path as [|s path IH]; intros v; simpl; [by intros [= ->]|]. destruct (v_child s v) as [c|] eqn:Hc; [|done]. simpl.
  intros H. rewrite (IH c H). destruct s, v; try done; simpl in *; f_equal; [by apply list_insert_id|by apply insert_id].
Qed.

Section items.
Context (st_init st_item st_next : json_parse_state) (kind : jval → Prop) (h : nat) (ws : list Z).
Hypothesis (Hws : forallb blank ws = true).
Hypothesis (Hcomma : ∀ p v path, ready p st_next v path None →
  ∃ p', json_parser_input p T_VALUE_SEPARATOR = Some p' ∧ ready p' st_item v path None).

(** One element or member: its text, and the container with it. *)
Definition item (it : list Z * (jval → jval)) : Prop :=
  ∀ p st v path node d rest,
  ready p st v path None → v_at path v = Some node → kind node → st = st_init ∨ st = st_item →
  (S (length path) + h ≤ JSON_MAX_HEIGHT)%nat → delimiter d →
  kind (it.2 node) ∧ ∃ q, ready q st_next (v_set path (it.2 node) v) path None ∧ run p (it.1 ++ d :: rest) = run q (d :: rest).

Definition add_items (node : jval) (its : list (list Z * (jval → jval))) : jval := foldl (λ n it, it.2 n) node its.
Definition rest_text (its : list (list Z * (jval → jval))) : list Z := concat ((λ it, chr "," :: ws ++ it.1) <$> its).

Lemma rest_delimiter its d rest : delimiter d → ∃ d' rest', rest_text its ++ d :: rest = d' :: rest' ∧ delimiter d'.
Proof. intros Hd. destruct its as [|[t f] its]; [by exists d, rest|]. eexists _, _. split; [done|by left]. Qed.

Lemma items_rest its : Forall item its → ∀ p v path node d rest,
  ready p st_next v path None → v_at path v = Some node → kind node →
  (S (length path) + h ≤ JSON_MAX_HEIGHT)%nat → delimiter d →
  ∃ q, ready q st_next (v_set path (add_items node its) v) path None ∧ run p (rest_text its ++ d :: rest) = run q (d :: rest).
Proof.
  induction 1 as [|it its Hit _ IH]; intros p v path node d rest Hp Hn Hk Hh Hd; [exists p; unfold add_items; simpl; by rewrite (v_set_same _ _ _ Hn)|].
  destruct (Hcomma p v path Hp) as (p1 & E1 & Hp1). apply (ready_advance (chr ",")) in Hp1.
  destruct (run_blank _ _ _ _ _ ws (it.1 ++ rest_text its ++ d :: rest) Hp1 Hws) as (p2 & Hp2 & E2).
  destruct (rest_delimiter its d rest Hd) as (d' & rest' & E & Hd').
  destruct (Hit p2 st_item v path node d' rest' Hp2 Hn Hk (or_intror eq_refl) Hh Hd') as (Hk' & q & Hq & E3).
  destruct (IH q _ path (it.2 node) d rest Hq (v_at_set _ _ _ _ Hn) Hk' Hh Hd) as (q' & Hq' & E4).
  exists q'. rewrite v_set_set in Hq'. split; [exact Hq'|]. rewrite <- E4, E, <- E3, <- E, <- E2.
  rewrite <- (run_punctuation p _ _ _ _ (chr ",") T_VALUE_SEPARATOR p1 _ Hp) by done. f_equal.
  unfold rest_text. rewrite fmap_cons. cbn [concat app]. by rewrite <- !app_assoc.
Qed.

Lemma items_all it its p v path node d rest :
  Forall item (it :: its) → ready p st_init v path None → v_at path v = Some node → kind node →
  (S (length path) + h ≤ JSON_MAX_HEIGHT)%nat → delimiter d →
  ∃ q, ready q st_next (v_set path (add_items node (it :: its)) v) path None
       ∧ run p ((it.1 ++ rest_text its) ++ d :: rest) = run q (d :: rest).
Proof.
  intros [Hit Hits]%Forall_cons Hp Hn Hk Hh Hd. destruct (rest_delimiter its d rest Hd) as (d' & rest' & E & Hd').
  destruct (Hit p st_init v path node d' rest' Hp Hn Hk (or_introl eq_refl) Hh Hd') as (Hk' & q & Hq & E1).
  destruct (items_rest its Hits q _ path (it.2 node) d rest Hq (v_at_set _ _ _ _ Hn) Hk' Hh Hd) as (q' & Hq' & E2).
  exists q'. rewrite v_set_set in Hq'. split; [exact Hq'|]. by rewrite <- E2, E, <- E1, <- E, <- app_assoc.
Qed.
End items.

(** The text between the brackets. *)
Lemma imap_items {A} (ws : list Z) (g : A → list Z) (f : nat → A → list Z) (x : A) l :
  (∀ i y, f i y = (if (0 <? i)%nat then chr "," :: ws else []) ++ g y) →
  concat (imap f (x :: l)) = g x ++ concat ((λ y, chr "," :: ws ++ g y) <$> l).
Proof.
  intros Hf. rewrite imap_cons, Hf. cbn [concat app]. f_equal. f_equal.
  replace (imap (f ∘ S) l) with (imap (λ _ y, chr "," :: ws ++ g y) l) by (apply imap_ext; intros; simpl; by rewrite Hf).
  apply (imap_const (λ y, chr "," :: ws ++ g y)).
Qed.

Lemma fmap_zip_fst {A B C} (g : A → C) (l : list A) (l' : list B) : (length l ≤ length l')%nat → (λ p, g p.1) <$> zip l l' = g <$> l.
Proof. revert l'. induction l as [|x l IH]; intros [|y l'] H; simpl in *; [done|done|lia|]. f_equal. apply IH. lia. Qed.

(** A container from its opening to its closing bracket. *)
Section container.
Context (opening closing : Z) (tok_open tok_close : json_token) (new : json) (st_init st_next : json_parse_state).
Hypothesis (Hopen : punctuation opening = Some tok_open ∧ blank opening || islower opening = false).
Hypothesis (Hclose : punctuation closing = Some tok_close ∧ blank closing || islower closing = false ∧ delimiter closing).
Hypothesis (Hnew : json_wf new).
Hypothesis (Hpush : ∀ p st, json_parse_value p tok_open st = json_parser_push p new st_init).
Hypothesis (Htok : tok_open ≠ T_END_ARRAY).
Hypothesis (Hstart : ∀ p, jp_parse_state p = JSON_PARSE_START →
  json_parser_input p tok_open = p' ← json_parser_push p new st_init; Some (set_buffer [] (set_lex_state JSON_LEX_START p'))).
Hypothesis (Hpop : ∀ p, jp_parse_state p = st_init ∨ jp_parse_state p = st_next →
  json_parser_input p tok_close = p' ← json_parser_pop p; Some (set_buffer [] (set_lex_state JSON_LEX_START p'))).

(** The text between them makes the empty container [full]. *)
Definition body_reads (h : nat) (body : list Z) (full : jval) : Prop :=
  ∀ p v path rest, ready p st_init v path None → v_at path v = Some (json_abs new) → (S (length path) + h ≤ JSON_MAX_HEIGHT)%nat →
  ∃ q st, ready q st (v_set path full v) path None ∧ (st = st_init ∨ st = st_next) ∧ run p (body ++ closing :: rest) = run q (closing :: rest).

Lemma container_reads h body full : body_reads h body full → reads (S h) (opening :: body ++ [closing]) full.
Proof.
  intros Hbody p st v path name node s add d rest Hp Hn Hs He Hh Hd. pose proof Hp as [Hp' _]. destruct Hopen as [Ho1 Ho2], Hclose as (Hc1 & Hc2 & Hc3).
  pose proof Hp' as (_ & Ht & Hname & Hdone & Herr & Hf). rewrite <- Hname in Hs.
  destruct (push_spec p v path node s add new st_init) as (root & Ep & Hr & Ev); [done..|lia|].
  rewrite <- (Hpush p (next_state node)) in Ep. pose proof (input_parse_value _ _ _ _ _ _ _ _ Hp' He Htok Ep) as Ei.
  set (p1 := set_buffer [] _) in Ei.
  assert (Hp1 : ready p1 st_init (v_set path (add (json_abs new)) v) (path ++ [s]) None) by (repeat split; try done; by exists root).
  apply (ready_advance opening) in Hp1. set (w := v_set path (add (json_abs new)) v) in *.
  assert (Hat : v_at path w = Some (add (json_abs new))) by (by eapply v_at_set).
  pose proof (slot_child node _ s add (json_abs new) Hs) as Hchild.
  destruct (Hbody _ w (path ++ [s]) (d :: rest) Hp1) as (q & st' & Hq & Hst' & Eq).
  { by rewrite v_at_app, Hat. } { rewrite length_app. cbn [length]. lia. }
  rewrite (v_set_app path s full w _ _ Hat Hchild), (slot_set_child _ _ _ _ _ _ Hs) in Hq. unfold w in Hq. rewrite v_set_set in Hq.
  pose proof Hq as [(Hqs & Hqt & Hqn & Hqd & Hqe & Hqf) _].
  destruct (pop_spec q _ path s (add full) Hqt) as (root' & Epop & Hr' & Ev').
  { rewrite v_at_app, (v_at_set _ _ _ _ Hn). simpl. rewrite (slot_child _ _ _ _ _ Hs). done. } { by eapply v_at_set. }
  assert (Ec : json_parser_input q tok_close = Some (set_buffer [] (set_lex_state JSON_LEX_START
    (set_parse_state (next_state (add full)) (set_jstack (Some (root', path)) q))))) by (rewrite Hpop, Epop; [done|by rewrite Hqs]).
  set (q1 := set_buffer [] _) in Ec. exists (advance closing q1). split.
  - apply ready_advance. repeat split; try done; [|by exists root'].
    destruct node, (jp_member_name p); try done; by injection Hs as <- <-.
  - rewrite <- (run_punctuation q _ _ _ _ closing tok_close q1 _ Hq) by done. rewrite <- Eq.
    rewrite <- (run_punctuation p _ _ _ _ opening tok_open p1 _ Hp) by done. cbn [app]. by rewrite <- app_assoc.
Qed.

(** A text that is one container. *)
Lemma container_parse h body full :
  body_reads h body full → (S h ≤ JSON_MAX_HEIGHT)%nat →
  ∃ j, json_from_string (opening :: body ++ [closing]) = Some j ∧ json_wf j ∧ json_abs j = full.
Proof.
  intros Hbody Hh. destruct Hopen as [Ho1 Ho2], Hclose as (Hc1 & Hc2 & Hc3). set (p := json_parser_create JSPF_TRAILER).
  pose proof (Hstart p eq_refl) as Ei. rewrite push_first in Ei by done. cbn [mbind option_bind] in Ei. set (p1 := set_buffer [] _) in Ei.
  assert (Hp1 : ready (advance opening p1) st_init (json_abs new) [] None) by (apply ready_advance; repeat split; try done; by exists new).
  destruct (Hbody _ (json_abs new) [] [] Hp1 eq_refl) as (q & st & Hq & Hst & Eq); [cbn [length]; lia|]. cbn [v_set] in Hq.
  pose proof Hq as [(Hqs & Hqt & Hqn & Hqd & Hqe & Hqf) _].
  pose proof (pop_last q full full Hqt eq_refl) as Epop. rewrite Hqf in Epop. change (negb (any_bit JSPF_TRAILER JSPF_TRAILER)) with false in Epop.
  assert (Ec := Hpop q ltac:(by rewrite Hqs)). rewrite Epop in Ec. cbn [mbind option_bind] in Ec. set (q1 := set_buffer [] _) in Ec.
  assert (Hrun : run p (opening :: body ++ [closing]) = Some (advance closing q1)).
  { cbn [run]. rewrite (feed1_used p opening p1); [|done|].
    - cbn [mbind option_bind]. rewrite Eq. by rewrite (run_punctuation q _ _ _ _ closing tok_close q1 _ Hq).
    - unfold json_lex_input. cbn [jp_lex_state p json_parser_create]. fold (blank opening). apply orb_false_iff in Ho2 as [-> ->]. by rewrite Ho1, Ei. }
  destruct Hqt as (root & Hroot & Hw & Ea). exists root. split; [|done]. unfold json_from_string. fold p.
  destruct (feed_run p (opening :: body ++ [closing]) (create_inv _)) as (p' & n & -> & Erun & _). rewrite Hrun in Erun. injection Erun as <-.
  cbn [mbind option_bind]. unfold json_parser_finish.
  assert (Hcore : core (advance closing q1) = core q1) by apply core_advance. injection Hcore as _ E2 E3 _ _ E6.
  rewrite lex_advance. cbn [jp_lex_state q1 set_buffer set_lex_state]. cbn [mbind option_bind]. rewrite E2. cbn [q1 jp_parse_state set_buffer set_lex_state set_parse_state].
  rewrite E6, E3. cbn [q1 jp_error jp_stack set_buffer set_lex_state set_parse_state]. by rewrite Hqe, Hroot.
Qed.
End container.

(** ** Arrays *)

Definition push_elem (x n : jval) : jval := match n with V_array l => V_array (l ++ [x]) | _ => n end.
Definition is_array (n : jval) : Prop := match n with V_array _ => True | _ => False end.

Lemma array_comma p v path :
  ready p JSON_PARSE_ARRAY_NEXT v path None →
  ∃ p', json_parser_input p T_VALUE_SEPARATOR = Some p' ∧ ready p' JSON_PARSE_ARRAY_VALUE v path None.
Proof.
  intros ((Hs & (root & Hr) & Hn & Hd & He & Hf) & Hl & Hb). unfold json_parser_input. rewrite Hs. eexists. split; [done|].
  repeat split; try done. by exists root.
Qed.

Lemma array_item h text x :
  reads h text x → item JSON_PARSE_ARRAY_INIT JSON_PARSE_ARRAY_VALUE JSON_PARSE_ARRAY_NEXT is_array h (text, push_elem x).
Proof.
  intros Hx p st v path node d rest Hp Hn Hk Hst Hh Hd. destruct node as [| | | |l| | |]; try done. split; [done|].
  by apply (Hx p st v path None (V_array l) (In_array (length l)) (λ v, V_array (l ++ [v])) d rest).
Qed.

Lemma add_elems (its : list (list Z * (jval → jval))) xs l :
  its.*2 = push_elem <$> xs → add_items (V_array l) its = V_array (l ++ xs).
Proof.
  revert xs l. induction its as [|[t f] its IH]; intros [|x xs] l E; try done; [by rewrite app_nil_r|].
  rewrite !fmap_cons in E. injection E as -> E. unfold add_items in *. simpl. rewrite (IH xs) by done. by rewrite <- app_assoc.
Qed.

Lemma indent_blank flags d : forallb blank (indent_line flags d) = true.
Proof. unfold indent_line. destruct (any_bit flags JSSF_PRETTY); [|done]. cbn [forallb]. by induction (SPACES_PER_LEVEL * d)%nat. Qed.

Definition array_body (flags : Z) (depth : nat) (array : list (list Z)) : list Z :=
  if (0 <? length array)%nat then
    indent_line flags (S depth)
    ++ concat (imap (λ i elem, (if (0 <? i)%nat then chr "," :: indent_line flags (S depth) else []) ++ elem) array)
  else [].

Lemma array_body_reads h flags depth texts xs :
  Forall2 (reads h) texts xs →
  body_reads (chr "]") json_array_create_empty JSON_PARSE_ARRAY_INIT JSON_PARSE_ARRAY_NEXT h (array_body flags depth texts) (V_array xs).
Proof.
  intros Hall p v path rest Hp Hn Hh. change (json_abs json_array_create_empty) with (V_array []) in Hn. destruct Hall as [|t x texts xs Ht Hall].
  { exists p, JSON_PARSE_ARRAY_INIT. rewrite (v_set_same _ _ _ Hn). auto. }
  unfold array_body. cbn [length Nat.ltb Nat.leb].
  set (ws := indent_line flags (S depth)). assert (Hws : forallb blank ws = true) by apply indent_blank.
  rewrite (imap_items ws (λ e, e)) by done.
  destruct (run_blank _ _ _ _ _ ws ((t ++ concat ((λ y, chr "," :: ws ++ y) <$> texts)) ++ chr "]" :: rest) Hp Hws) as (p1 & Hp1 & E1).
  set (its := zip texts (push_elem <$> xs)).
  assert (Hlen : length texts = length (push_elem <$> xs)) by (rewrite length_fmap; by eapply Forall2_length).
  destruct (items_all JSON_PARSE_ARRAY_INIT _ _ is_array h ws Hws array_comma (t, push_elem x) its p1 v path (V_array []) (chr "]") rest) as (q & Hq & E2); try done.
  - constructor; [by apply array_item|]. unfold its. clear Hlen its E1 Hp Hp1. induction Hall; simpl; constructor; [by apply array_item|done].
  - right. by left.
  - exists q, JSON_PARSE_ARRAY_NEXT. rewrite (add_elems _ (x :: xs)) in Hq by (unfold its; rewrite !fmap_cons, snd_zip by lia; done).
    split; [exact Hq|]. split; [by right|]. rewrite <- app_assoc, E1. etrans; [|exact E2]. f_equal. f_equal. cbn [fst]. f_equal.
    unfold rest_text, its. by rewrite (fmap_zip_fst (λ t, chr "," :: ws ++ t)) by lia.
Qed.

(** ** Objects *)

Definition put_member (k : list Z) (x n : jval) : jval := match n with V_object m => V_object (<[k := x]> m) | _ => n end.
Definition is_object (n : jval) : Prop := match n with V_object _ => True | _ => False end.

Lemma object_comma p v path :
  ready p JSON_PARSE_OBJECT_NEXT v path None →
  ∃ p', json_parser_input p T_VALUE_SEPARATOR = Some p' ∧ ready p' JSON_PARSE_OBJECT_NAME v path None.
Proof.
  intros ((Hs & (root & Hr) & Hn & Hd & He & Hf) & Hl & Hb). unfold json_parser_input. rewrite Hs. eexists. split; [done|].
  repeat split; try done. by exists root.
Qed.

Lemma object_name p st v path k :
  holds p st v path None → st = JSON_PARSE_OBJECT_INIT ∨ st = JSON_PARSE_OBJECT_NAME →
  ∃ p', json_parser_input p (T_STRING k) = Some p' ∧ ready p' JSON_PARSE_OBJECT_COLON v path (Some k).
Proof.
  intros (Hs & (root & Hr) & Hn & Hd & He & Hf) Hst. unfold json_parser_input. rewrite Hs.
  destruct Hst as [-> | ->]; eexists; (split; [done|]); repeat split; try done; by exists root.
Qed.

Lemma object_colon p v path k :
  ready p JSON_PARSE_OBJECT_COLON v path (Some k) →
  ∃ p', json_parser_input p T_NAME_SEPARATOR = Some p' ∧ ready p' JSON_PARSE_OBJECT_VALUE v path (Some k).
Proof.
  intros ((Hs & (root & Hr) & Hn & Hd & He & Hf) & Hl & Hb). unfold json_parser_input. rewrite Hs. eexists. split; [done|].
  repeat split; try done. by exists root.
Qed.

Definition member_text (sp : list Z) (n : shash_node (list Z)) : list Z := json_serialize_string (sn_name n) ++ chr ":" :: sp ++ sn_data n.

Lemma object_item h sp n x :
  forallb blank sp = true → str_ok (sn_name n) → last (sn_name n) ≠ Some (chr "\") → reads h (sn_data n) x →
  item JSON_PARSE_OBJECT_INIT JSON_PARSE_OBJECT_NAME JSON_PARSE_OBJECT_NEXT is_object h (member_text sp n, put_member (sn_name n) x).
Proof.
  intros Hsp Hk Hlast Hx p st v path node d rest Hp Hn Hkind Hst Hh Hd. destruct node as [| | |m| | | |]; try done. split; [done|].
  set (k := sn_name n) in *. pose proof Hp as (Hh0 & Hl & Hb).
  destruct (string_token p k) as (q & Hq & E1); try done; [apply Hh0|].
  destruct (object_name q st v path k) as (p1 & Ep1 & Hp1); [by eapply holds_core|done|]. apply (ready_advance c_quote) in Hp1.
  destruct (object_colon _ v path k Hp1) as (p2 & Ep2 & Hp2). apply (ready_advance (chr ":")) in Hp2.
  destruct (run_blank _ _ _ _ _ sp (sn_data n ++ d :: rest) Hp2 Hsp) as (p3 & Hp3 & E3).
  destruct (Hx p3 _ v path (Some k) (V_object m) (In_object k) (λ v, V_object (<[k := v]> m)) d rest Hp3) as (q' & Hq' & E4); try done.
  exists q'. split; [exact Hq'|]. rewrite <- E4, <- E3. cbn [fst]. unfold member_text. fold k. rewrite <- app_assoc, E1, Ep1.
  cbn [mbind option_bind app]. rewrite (run_punctuation _ _ _ _ _ (chr ":") T_NAME_SEPARATOR p2 _ Hp1) by done. by rewrite <- app_assoc.
Qed.

Lemma add_members (its : list (list Z * (jval → jval))) ps m :
  its.*2 = (λ p : list Z * jval, put_member p.1 p.2) <$> ps → add_items (V_object m) its = V_object (foldl (λ m p, <[p.1 := p.2]> m) m ps).
Proof.
  revert ps m. induction its as [|[t f] its IH]; intros [|[k x] ps] m E; try done.
  rewrite !fmap_cons in E. injection E as -> E. unfold add_items in *. simpl. by rewrite (IH ps).
Qed.

Definition object_body (flags : Z) (depth : nat) (nodes : list (shash_node (list Z))) : list Z :=
  indent_line flags (S depth) ++ concat (imap (json_serialize_object_member flags (S depth)) nodes).

Definition node_reads (h : nat) (n : shash_node (list Z)) (p : list Z * jval) : Prop :=
  str_ok (sn_name n) ∧ last (sn_name n) ≠ Some (chr "\") ∧ p.1 = sn_name n ∧ reads h (sn_data n) p.2.

Lemma object_body_reads h flags depth ns ps :
  Forall2 (node_reads h) ns ps →
  body_reads (chr "}") json_object_create JSON_PARSE_OBJECT_INIT JSON_PARSE_OBJECT_NEXT h (object_body flags depth ns)
    (V_object (foldl (λ m p, <[p.1 := p.2]> m) ∅ ps)).
Proof.
  intros Hall p v path rest Hp Hn Hh. change (json_abs json_object_create) with (V_object ∅) in Hn.
  unfold object_body. set (ws := indent_line flags (S depth)). assert (Hws : forallb blank ws = true) by apply indent_blank.
  set (sp := if any_bit flags JSSF_PRETTY then [32] else []). assert (Hsp : forallb blank sp = true) by (unfold sp; by destruct (any_bit _ _)).
  destruct (run_blank _ _ _ _ _ ws (concat (imap (json_serialize_object_member flags (S depth)) ns) ++ chr "}" :: rest) Hp Hws) as (p1 & Hp1 & E1).
  rewrite <- app_assoc, E1. destruct Hall as [|n [k x] ns ps Hnx Hall].
  { exists p1, JSON_PARSE_OBJECT_INIT. cbn [foldl]. rewrite (v_set_same _ _ _ Hn). auto. }
  rewrite (imap_items ws (member_text sp)) by done.
  set (its := zip (member_text sp <$> ns) ((λ p, put_member p.1 p.2) <$> ps)).
  pose proof (Forall2_length _ _ _ Hall) as Hlen.
  destruct (items_all JSON_PARSE_OBJECT_INIT _ _ is_object h ws Hws object_comma (member_text sp n, put_member k x) its p1 v path (V_object ∅) (chr "}") rest)
    as (q & Hq & E2); try done.
  - constructor; [destruct Hnx as (?&?&Ek&?); cbn in Ek; subst k; by apply object_item|]. unfold its. clear -Hall Hsp.
    induction Hall as [|n' [k' x'] ns ps (?&?&Ek&?) Hall IH]; simpl; constructor; [|done]. cbn in Ek; subst k'; by apply object_item.
  - right. by right.
  - exists q, JSON_PARSE_OBJECT_NEXT.
    rewrite (add_members _ ((k, x) :: ps)) in Hq by (unfold its; rewrite !fmap_cons, snd_zip by (rewrite !length_fmap; lia); done).
    split; [exact Hq|]. split; [by right|]. etrans; [|exact E2]. f_equal. f_equal. cbn [fst]. f_equal.
    unfold rest_text, its. rewrite (fmap_zip_fst (λ t, chr "," :: ws ++ t)) by (rewrite !length_fmap; lia). by rewrite <- list_fmap_compose.
Qed.

(** ** The round trip *)

(** What the text keeps: strings that do not end with a backslash, real numbers
    that 15 digits identify and that are not 64-bit integers, and [h]
    levels. *)
Definition string_kept (s : list Z) : bool := negb (bool_decide (last s = Some (chr "\"))).

Fixpoint json_kept (j : json) (h : nat) : bool :=
  match j with
  | JSON_OBJECT o =>
      match h with
      | O => false
      | S h => forallb (λ n, string_kept (sn_name n) && sn_data n h) (hmap_for_each (shash_data json_kept o))
      end
  | JSON_ARRAY l => match h with O => false | S h => forallb (λ kept, kept h) (List.map json_kept l) end
  | JSON_REAL r => real_kept r
  | JSON_STRING s => string_kept s
  | _ => true
  end.

Lemma string_kept_last s : string_kept s = true → last s ≠ Some (chr "\").
Proof. unfold string_kept. by case_bool_decide. Qed.

(** The members in the order of the text. *)
Definition member_nodes (flags : Z) {A} (o : shash A) : list (shash_node A) :=
  if any_bit flags JSSF_SORT then shash_sort o else hmap_for_each o.

Lemma member_nodes_pairs {A} flags (o : shash A) : shash_ok o → (λ n, (sn_name n, sn_data n)) <$> member_nodes flags o ≡ₚ members o.
Proof.
  intros Hok. unfold member_nodes. destruct (any_bit flags JSSF_SORT); [by apply shash_sort_spec|]. by rewrite for_each_members.
Qed.

Lemma member_nodes_data {A B} (f : A → B) flags o :
  shash_ok o → member_nodes flags (shash_data f o) = node_data f <$> member_nodes flags o.
Proof. intros Hok. unfold member_nodes. destruct (any_bit flags JSSF_SORT); [by apply sort_data|by apply for_each_data, Hok]. Qed.

Lemma foldl_insert (ps : list (list Z * jval)) : NoDup ps.*1 → foldl (λ m p, <[p.1 := p.2]> m) ∅ ps = (list_to_map ps : gmap (list Z) jval).
Proof.
  induction ps as [|[k x] ps IH] using rev_ind; [done|]. rewrite fmap_app. intros (H1 & H2 & _)%NoDup_app.
  rewrite foldl_app, IH by done. simpl. symmetry. apply list_to_map_snoc. intros Hk. by apply (H2 k Hk), list_elem_of_singleton.
Qed.

(** The members as they are read make the object. *)
Lemma members_read flags o :
  shash_ok o →
  V_object (foldl (λ m p, <[p.1 := p.2]> m) ∅ ((λ n, (sn_name n, json_abs (sn_data n))) <$> member_nodes flags o)) = json_abs (JSON_OBJECT o).
Proof.
  intros Hok. pose proof (member_nodes_pairs flags o Hok) as Hp. rewrite abs_object. f_equal.
  set (f := λ p : list Z * json, (p.1, json_abs p.2)).
  assert (E : (λ n, (sn_name n, json_abs (sn_data n))) <$> member_nodes flags o = f <$> ((λ n, (sn_name n, sn_data n)) <$> member_nodes flags o))
    by (by rewrite <- list_fmap_compose).
  assert (Hnd : NoDup (f <$> ((λ n, (sn_name n, sn_data n)) <$> member_nodes flags o)).*1).
  { rewrite <- list_fmap_compose. eapply NoDup_Permutation_proper; [exact (fmap_Permutation fst _ _ Hp)|]. apply so_names, Hok. }
  rewrite E, foldl_insert by done. rewrite (list_to_map_proper _ (f <$> members o)); [|done|by apply fmap_Permutation].
  unfold shash_map. by rewrite <- list_to_map_fmap.
Qed.

Definition value_reads (j : json) : Prop :=
  ∀ h flags depth, json_kept j h = true → reads h (json_serialize flags depth j) (json_abs j).

Lemma array_reads l h flags depth :
  (∀ j, j ∈ l → value_reads j) → json_kept (JSON_ARRAY l) (S h) = true →
  body_reads (chr "]") json_array_create_empty JSON_PARSE_ARRAY_INIT JSON_PARSE_ARRAY_NEXT h
    (array_body flags depth (List.map (json_serialize flags (S depth)) l)) (json_abs (JSON_ARRAY l)).
Proof.
  intros IH Hk. rewrite abs_array. apply array_body_reads. cbn [json_kept] in Hk. change List.map with (@fmap list _) in *.
  apply Forall2_fmap, Forall_Forall2_diag, Forall_forall. intros j Hj. apply IH; [done|].
  rewrite List.forallb_forall in Hk. apply (Hk (json_kept j)), list_elem_of_In, list_elem_of_fmap. by exists j.
Qed.

Lemma object_reads o h flags depth :
  json_ok (JSON_OBJECT o) → (∀ k v, shash_map o !! k = Some v → value_reads v) → json_kept (JSON_OBJECT o) (S h) = true →
  body_reads (chr "}") json_object_create JSON_PARSE_OBJECT_INIT JSON_PARSE_OBJECT_NEXT h
    (object_body flags depth (member_nodes flags (shash_data (json_serialize flags (S depth)) o))) (json_abs (JSON_OBJECT o)).
Proof.
  intros Ho IH Hk. pose proof (ok_shash _ Ho) as Hok. rewrite member_nodes_data, <- (members_read flags) by done.
  apply object_body_reads, Forall2_fmap, Forall_Forall2_diag, Forall_forall. intros [k v] Hn.
  assert (Hm : shash_map o !! k = Some v).
  { apply map_members; [done|]. rewrite <- (member_nodes_pairs flags) by done. apply list_elem_of_fmap. by exists (ShashNode k v). }
  cbn [json_kept] in Hk. rewrite for_each_data, hmap_for_each_nodes, List.forallb_forall in Hk by apply Hok.
  assert (Hkv : string_kept k && json_kept v h = true).
  { apply (Hk (node_data json_kept (ShashNode k v))), list_elem_of_In, list_elem_of_fmap_2, list_elem_of_fmap.
    exists (HNode (hash_name k) (ShashNode k v)). split; [done|by apply name_has_node]. }
  apply andb_prop in Hkv as [Hs Hv]. destruct (ok_member o k v Ho Hm) as [_ Hstr].
  split; [done|]. split; [by apply string_kept_last|]. split; [done|]. by apply (IH k v Hm).
Qed.

(** The brackets of arrays and objects. *)
Ltac brackets := repeat split; try done;
  first [apply wf_array; by intros j ?%elem_of_nil | apply wf_object; [apply shash_init_ok|done]
        | by right; left | by right; right
        | let H := fresh in intros ? H; unfold json_parser_input; rewrite H; reflexivity
        | let H := fresh in intros ? [H|H]; unfold json_parser_input; rewrite H; reflexivity].

Lemma bracketed_array h body full :
  body_reads (chr "]") json_array_create_empty JSON_PARSE_ARRAY_INIT JSON_PARSE_ARRAY_NEXT h body full →
  reads (S h) (chr "[" :: body ++ [chr "]"]) full
  ∧ ((S h ≤ JSON_MAX_HEIGHT)%nat → ∃ j, json_from_string (chr "[" :: body ++ [chr "]"]) = Some j ∧ json_wf j ∧ json_abs j = full).
Proof.
  intros H. split.
  - apply (container_reads (chr "[") (chr "]") T_BEGIN_ARRAY T_END_ARRAY json_array_create_empty JSON_PARSE_ARRAY_INIT JSON_PARSE_ARRAY_NEXT); brackets.
  - apply (container_parse (chr "[") (chr "]") T_BEGIN_ARRAY T_END_ARRAY json_array_create_empty JSON_PARSE_ARRAY_INIT JSON_PARSE_ARRAY_NEXT); brackets.
Qed.

Lemma bracketed_object h body full :
  body_reads (chr "}") json_object_create JSON_PARSE_OBJECT_INIT JSON_PARSE_OBJECT_NEXT h body full →
  reads (S h) (chr "{" :: body ++ [chr "}"]) full
  ∧ ((S h ≤ JSON_MAX_HEIGHT)%nat → ∃ j, json_from_string (chr "{" :: body ++ [chr "}"]) = Some j ∧ json_wf j ∧ json_abs j = full).
Proof.
  intros H. split.
  - apply (container_reads (chr "{") (chr "}") T_BEGIN_OBJECT T_END_OBJECT json_object_create JSON_PARSE_OBJECT_INIT JSON_PARSE_OBJECT_NEXT); brackets.
  - apply (container_parse (chr "{") (chr "}") T_BEGIN_OBJECT T_END_OBJECT json_object_create JSON_PARSE_OBJECT_INIT JSON_PARSE_OBJECT_NEXT); brackets.
Qed.

Lemma serialize_object flags depth o :
  json_serialize flags depth (JSON_OBJECT o)
  = chr "{" :: object_body flags depth (member_nodes flags (shash_data (json_serialize flags (S depth)) o)) ++ [chr "}"].
Proof. cbn [json_serialize]. unfold json_serialize_object, object_body, member_nodes. by rewrite <- app_assoc. Qed.

Lemma serialize_array flags depth l :
  json_serialize flags depth (JSON_ARRAY l) = chr "[" :: array_body flags depth (List.map (json_serialize flags (S depth)) l) ++ [chr "]"].
Proof. done. Qed.

(** Every value that is kept is read wherever a value is expected. *)
Lemma json_reads j : json_ok j → value_reads j.
Proof.
  revert j. refine (json_ok_induction _ _ _ _ _ _ _ _ _);
    [| | |intros o Ho IH|intros l Hl IH|intros i Hi|intros r Hr|intros s Hs]; intros h flags depth Hk.
  - apply (reads_keyword h (chr "n") (bytes "ull") T_NULL JSON_NULL); [done..| |done].
    intros q Hq. unfold json_lex_keyword. by rewrite Hq.
  - apply (reads_keyword h (chr "f") (bytes "alse") T_FALSE JSON_FALSE); [done..| |done].
    intros q Hq. unfold json_lex_keyword. by rewrite Hq.
  - apply (reads_keyword h (chr "t") (bytes "rue") T_TRUE JSON_TRUE); [done..| |done].
    intros q Hq. unfold json_lex_keyword. by rewrite Hq.
  - rewrite serialize_object. destruct h as [|h]; [discriminate Hk|]. apply bracketed_object. by apply object_reads.
  - rewrite serialize_array. destruct h as [|h]; [discriminate Hk|]. apply bracketed_array. by apply array_reads.
  - apply (reads_number h (put_int i) (T_INTEGER i) (JSON_INTEGER i)); [apply put_int_text|by apply lex_number_int|reflexivity].
  - apply (reads_number h (put_double r) (T_REAL r) (JSON_REAL r)); [by apply put_double_text| |reflexivity].
    cbn [json_kept] in Hk. exact (lex_number_real r (proj1 Hr) Hk).
  - apply reads_string; [done|]. by apply string_kept_last.
Qed.


(** ** Examples *)

Definition ex_object : json :=
  JSON_OBJECT (shash_replace (shash_replace shash_init (bytes "id") (JSON_INTEGER (-9223372036854775808))).1
                 [c_quote; 10; 1; 255; 92; 120] (JSON_ARRAY [JSON_TRUE; JSON_STRING [92; 47]; JSON_REAL 0x3fb999999999999a; JSON_ARRAY []])).1.

Lemma put_ok o k v : json_ok (JSON_OBJECT o) → str_ok k → json_ok v → json_ok (JSON_OBJECT (shash_replace o k v).1).
Proof.
  intros Ho Hk Hv. pose proof (shash_replace_spec o k v (ok_shash _ Ho)) as H. destruct (shash_replace o k v) as [o' old].
  destruct H as (Hok & E & _). apply ok_object_map; [done|]. cbn [fst]. rewrite E. intros k' v' [[<- <-]|[_ H]]%lookup_insert_Some; [done|].
  by apply (ok_member o).
Qed.

Lemma str_ok_dec s : forallb (λ c, (0 <? c) && (c <? 256)) s = true → str_ok s.
Proof. rewrite List.forallb_forall. intros H. apply Forall_forall. intros c Hc%list_elem_of_In%H. lia. Qed.

Lemma ex_object_ok : json_ok ex_object.
Proof.
  unfold ex_object. apply put_ok; [apply put_ok|..]; try by apply str_ok_dec.
  - apply ok_object_map; [apply shash_init_ok|done].
  - apply ok_integer. lia.
  - apply ok_array. intros j Hj. repeat (apply elem_of_cons in Hj as [->|Hj]); [constructor|..].
    + by apply ok_string, str_ok_dec.
    + apply ok_real. repeat split; by vm_compute.
    + apply ok_array. by intros j ?%elem_of_nil.
    + by apply elem_of_nil in Hj.
Qed.


(** Three texts that the lexer does not read as their value: the serializer's
    own text of a string that ends with a backslash is refused, the integer
    2^64 + 1 is read as 1, and in a stream a null byte within a number ends it,
    with the digits after it lost. *)
Lemma json_misread_texts :
  (∃ msg, json_from_string (json_to_string (JSON_ARRAY [JSON_STRING (bytes "C:\")]) 0) = Some (JSON_STRING msg))
  ∧ json_from_string (bytes "[18446744073709551617]") = Some (JSON_ARRAY [JSON_INTEGER 1])
  ∧ json_from_stream [bytes "[1" ++ 0 :: bytes "234]"] None = Some (JSON_ARRAY [JSON_INTEGER 1]).
Proof. split; [eexists; vm_compute; reflexivity|split; vm_compute; reflexivity]. Qed.
