(* ===== verification/Flow.v ===== *)
(** * Flows, wildcards and their compressed forms (lib/flow.h, lib/flow.c)

    The classifier reads a [struct flow] as an array of [FLOW_U32S] 32-bit
    words, and so does this model: a flow is a list of words.  A [miniflow]
    keeps a bitmap of the non-zero words and the values of those words in
    order; a [minimask] is a miniflow over a [flow_wildcards].  Whether the
    values sit in the inline array or in allocated memory is not modelled.

    The theorems say that the compressed forms represent the full ones: the
    round trip, [miniflow_get], and each minimask routine against the routine
    on expanded flows it stands for. *)
From S2P Require Import Prelude Util Hash.

(** ** Flows and wildcards *)

(** [sizeof(struct flow) / 4]: a 24-byte tunnel and 160 + 32 bytes. *)
Definition FLOW_U32S : nat := 54.
Definition MINI_N_MAPS : nat := 2.

Notation flow := (list Z) (only parsing).

(** [((const uint32_t * ) flow)[ofs]] *)
Definition flow_u32 (f : flow) (ofs : Z) : Z := default 0 (f !! Z.to_nat ofs).

Definition flow_equal (a b : flow) : bool := bool_decide (a = b).

Definition flow_hash (f : flow) (basis : Z) : Z := hash_words f basis.

Definition flow_zero_wildcards (f wc : flow) : flow := zip_with Z.land f wc.

Definition flow_wildcards_init_catchall : flow := replicate FLOW_U32S 0.

(** All ones except the 4 bytes of [zeros], the last word. *)
Definition flow_wildcards_init_exact : flow :=
  replicate (FLOW_U32S - 1) 0xffffffff ++ [0].

(** [metadata] is words 6 and 7, [regs] words 21 to 36. *)
Definition flow_wildcards_clear_non_packet_fields (wc : flow) : flow :=
  imap (λ i w, if ((6 <=? i) && (i <=? 7) || (21 <=? i) && (i <=? 36))%nat then 0 else w) wc.

Definition flow_wildcards_is_catchall (wc : flow) : bool := forallb (λ w, w =? 0) wc.

Definition flow_wildcards_and (a b : flow) : flow := zip_with Z.land a b.
Definition flow_wildcards_or (a b : flow) : flow := zip_with Z.lor a b.

Definition flow_wildcards_hash (wc : flow) (basis : Z) : Z := flow_hash wc basis.
Definition flow_wildcards_equal (a b : flow) : bool := flow_equal a b.

Definition flow_wildcards_has_extra (a b : flow) : bool :=
  existsb (λ '(x, y), negb (Z.land x y =? y)) (zip a b).

Definition flow_equal_except (a b wc : flow) : bool :=
  forallb (λ '(x, y, w), Z.land (Z.lxor x y) w =? 0) (zip (zip a b) wc).

(** [regs] starts at word 21. *)
Definition flow_wildcards_set_reg_mask (wc : flow) (idx : nat) (mask : Z) : flow :=
  <[(21 + idx)%nat := mask]> wc.

Definition flow_hash_in_wildcards (f wc : flow) (basis : Z) : Z :=
  mhash_finish (foldl mhash_add basis (zip_with Z.land f wc)) (4 * Z.of_nat FLOW_U32S).

(** ** Miniflows *)

Record miniflow := Miniflow { mf_values : list Z; mf_map : list Z }.

#[global] Instance miniflow_eq_dec : EqDecision miniflow.
Proof. solve_decision. Defined.

#[global] Program Instance miniflow_countable : Countable miniflow :=
  inj_countable' (λ f, (mf_values f, mf_map f)) (λ p, Miniflow p.1 p.2) _.
Next Obligation. by intros []. Qed.


(** The word offsets [raw_ctz(map) + i * 32] visited by the nested loop over
    [map[0]], [map[1]] and their 1-bits. *)
Definition map_offsets (map : list Z) : list Z :=
  concat (imap (λ i m, (λ b, b + Z.of_nat i * 32) <$> one_bits m) map).

Definition miniflow_n_values (f : miniflow) : Z :=
  foldl (λ n m, n + popcount m) 0 (mf_map f).

(** First loop of [miniflow_init]: the bitmap of non-zero words. *)
Definition miniflow_init_map (src : flow) : list Z :=
  foldl (λ map i,
      if flow_u32 src i =? 0 then map
      else alter (λ m, Z.lor m (Z.shiftl 1 (i mod 32))) (Z.to_nat (i / 32)) map)
    (replicate MINI_N_MAPS 0) (seqZ 0 (Z.of_nat FLOW_U32S)).

Definition miniflow_init (src : flow) : miniflow :=
  let map := miniflow_init_map src in
  Miniflow (flow_u32 src <$> map_offsets map) map.

Definition miniflow_clone (src : miniflow) : miniflow :=
  Miniflow (take (Z.to_nat (miniflow_n_values src)) (mf_values src)) (mf_map src).

(** [dst_u32[raw_ctz(map) + i * 32] |= src->values[ofs++]] for every 1-bit. *)
Fixpoint union_loop (offsets values : list Z) (dst : flow) : flow :=
  match offsets, values with
  | o :: offsets, v :: values =>
      union_loop offsets values (alter (λ w, Z.lor w v) (Z.to_nat o) dst)
  | _, _ => dst
  end.

Definition flow_union_with_miniflow (dst : flow) (src : miniflow) : flow :=
  union_loop (map_offsets (mf_map src)) (mf_values src) dst.

Definition miniflow_expand (src : miniflow) : flow :=
  flow_union_with_miniflow (replicate FLOW_U32S 0) src.

Definition mf_map_get (f : miniflow) (i : Z) : Z := default 0 (mf_map f !! Z.to_nat i).

(** Index into [values] of the word at [u32_ofs], or [None] for the shared
    zero. *)
Definition miniflow_get__ (f : miniflow) (u32_ofs : Z) : option Z :=
  if Z.land (mf_map_get f (u32_ofs / 32)) (Z.shiftl 1 (u32_ofs mod 32)) =? 0 then None
  else if u32_ofs <? 32 then
    Some (popcount (Z.land (mf_map_get f 0) (Z.shiftl 1 u32_ofs - 1)))
  else
    Some (popcount (mf_map_get f 0)
          + popcount (Z.land (mf_map_get f 1) (Z.shiftl 1 (u32_ofs - 32) - 1))).

Definition miniflow_get (f : miniflow) (u32_ofs : Z) : Z :=
  match miniflow_get__ f u32_ofs with
  | None => 0
  | Some p => default 0 (mf_values f !! Z.to_nat p)
  end.

Definition miniflow_equal (a b : miniflow) : bool :=
  bool_decide (mf_map a = mf_map b)
  && (let n := Z.to_nat (miniflow_n_values a) in
      bool_decide (take n (mf_values a) = take n (mf_values b))).

Notation minimask := miniflow (only parsing).

(** Offsets of a mask with the mask word [*p] read at each. *)
Definition mask_words (mask : minimask) : list (Z * Z) :=
  zip (map_offsets (mf_map mask)) (mf_values mask).

Definition miniflow_equal_in_minimask (a b : miniflow) (mask : minimask) : bool :=
  forallb (λ '(ofs, p), Z.land (Z.lxor (miniflow_get a ofs) (miniflow_get b ofs)) p =? 0)
    (mask_words mask).

Definition miniflow_equal_flow_in_minimask (a : miniflow) (b : flow) (mask : minimask) : bool :=
  forallb (λ '(ofs, p), Z.land (Z.lxor (miniflow_get a ofs) (flow_u32 b ofs)) p =? 0)
    (mask_words mask).

Definition miniflow_hash (f : miniflow) (basis : Z) : Z :=
  hash_3words (mf_map_get f 0) (mf_map_get f 1)
    (hash_words (take (Z.to_nat (miniflow_n_values f)) (mf_values f)) basis).

Definition miniflow_hash_in_minimask (f : miniflow) (mask : minimask) (basis : Z) : Z :=
  mhash_finish
    (foldl (λ hash '(ofs, p), mhash_add hash (Z.land (miniflow_get f ofs) p))
       basis (mask_words mask))
    (Z.of_nat (length (mask_words mask)) * 4).

Definition flow_hash_in_minimask (f : flow) (mask : minimask) (basis : Z) : Z :=
  mhash_finish
    (foldl (λ hash '(ofs, p), mhash_add hash (Z.land (flow_u32 f ofs) p))
       basis (mask_words mask))
    (Z.of_nat (length (mask_words mask)) * 4).

(** ** Minimasks *)

Definition minimask_init (wc : flow) : minimask := miniflow_init wc.
Definition minimask_clone (src : minimask) : minimask := miniflow_clone src.
Definition minimask_expand (mask : minimask) : flow := miniflow_expand mask.
Definition minimask_get (mask : minimask) (ofs : Z) : Z := miniflow_get mask ofs.
Definition minimask_equal (a b : minimask) : bool := miniflow_equal a b.
Definition minimask_hash (mask : minimask) (basis : Z) : Z := miniflow_hash mask basis.

(** The inner loop of [minimask_combine] over one map word: [map] iterates
    over the common 1-bits; the result is [dst->map[i]] and the values
    appended. *)
Fixpoint combine_loop (fuel : nat) (a b : minimask) (i map : Z) (dst_map : Z)
    (values : list Z) : Z * list Z :=
  match fuel with
  | O => (dst_map, values)
  | S fuel =>
      if map =? 0 then (dst_map, values)
      else
        let ofs := raw_ctz map + i * 32 in
        let mask := Z.land (miniflow_get a ofs) (miniflow_get b ofs) in
        if mask =? 0 then combine_loop fuel a b i (zero_rightmost_1bit map) dst_map values
        else combine_loop fuel a b i (zero_rightmost_1bit map)
               (Z.lor dst_map (rightmost_1bit map)) (values ++ [mask])
  end.

Definition minimask_combine (a b : minimask) : minimask :=
  foldl (λ dst i,
      let '(m, vs) := combine_loop 32 a b i (Z.land (mf_map_get a i) (mf_map_get b i))
                        0 (mf_values dst) in
      Miniflow vs (mf_map dst ++ [m]))
    (Miniflow [] []) (seqZ 0 (Z.of_nat MINI_N_MAPS)).

Definition minimask_has_extra (a b : minimask) : bool :=
  existsb (λ ofs,
      negb (Z.land (miniflow_get a ofs) (miniflow_get b ofs) =? miniflow_get b ofs))
    (map_offsets (zip_with Z.lor (mf_map a) (mf_map b))).

Definition minimask_is_catchall (mask : minimask) : bool :=
  Z.lor (mf_map_get mask 0) (mf_map_get mask 1) =? 0.

Definition flow_wildcards_fold_minimask (wc : flow) (mask : minimask) : flow :=
  flow_union_with_miniflow wc mask.

#[global] Arguments miniflow_init_map : simpl never.
#[global] Arguments map_offsets : simpl never.
#[global] Arguments FLOW_U32S : simpl never.

(** ** Bitmaps *)

(** Bit [o] of the bitmap. *)
Definition tb (map : list Z) (o : Z) : bool :=
  Z.testbit (default 0 (map !! Z.to_nat (o / 32))) (o mod 32).

(** Bit [o] is set only for words of a flow. *)
Definition map_wf (map : list Z) : Prop :=
  ∃ m0 m1, map = [m0; m1] ∧ is_u32 m0 ∧ in_width 22 m1.

Record miniflow_wf (f : miniflow) : Prop := {
  mf_wf_map : map_wf (mf_map f);
  mf_wf_len : length (mf_values f) = length (map_offsets (mf_map f));
  mf_wf_values : Forall (λ v, is_u32 v ∧ v ≠ 0) (mf_values f)
}.

Definition flow_wf (f : flow) : Prop := length f = FLOW_U32S ∧ Forall is_u32 f.

Lemma flow_wf_decide f : bool_decide (length f = FLOW_U32S ∧ Forall is_u32 f) = true → flow_wf f.
Proof. by intros H%bool_decide_eq_true. Qed.

Lemma tb_low m0 m1 o : 0 ≤ o < 32 → tb [m0; m1] o = Z.testbit m0 o.
Proof.
  intros. unfold tb. rewrite Z.div_small, Z.mod_small by lia. done.
Qed.

Lemma tb_high m0 m1 o : 32 ≤ o < 64 → tb [m0; m1] o = Z.testbit m1 (o - 32).
Proof.
  intros. unfold tb.
  replace o with ((o - 32) + 1 * 32) by lia.
  rewrite Z.div_add, Z_mod_plus_full, Z.div_small, Z.mod_small by lia.
  simpl. f_equal; lia.
Qed.

Lemma map_offsets_2 m0 m1 :
  map_offsets [m0; m1] = one_bits m0 ++ ((λ b, b + 32) <$> one_bits m1).
Proof.
  unfold map_offsets. simpl. rewrite app_nil_r. f_equal.
  rewrite (list_fmap_ext _ id) by (intros; simpl; lia). apply list_fmap_id.
Qed.

Lemma map_offsets_spec m0 m1 :
  is_u32 m0 → is_u32 m1 →
  map_offsets [m0; m1] = filter (λ o, tb [m0; m1] o = true) (seqZ 0 64).
Proof.
  intros H0 H1. rewrite map_offsets_2, !one_bits_spec by done.
  change 64 with (32 + 32). rewrite seqZ_app, filter_app by lia. apply (f_equal2 app).
  - apply filter_ext_in. intros o Ho%elem_of_seqZ. by rewrite tb_low by lia.
  - change (0 + 32) with 32.
    assert (seqZ 32 32 = (λ b, b + 32) <$> seqZ 0 32) as ->.
    { change 32 with (32 + 0) at 1. rewrite <- fmap_add_seqZ. apply list_fmap_ext.
      intros; simpl; lia. }
    rewrite filter_fmap.
    assert (Hs : ∀ o, o ∈ seqZ 0 32 → 0 ≤ o < 32) by (intros o ?%elem_of_seqZ; lia).
    generalize (seqZ 0 32) Hs. clear Hs. intros s Hs. f_equal.
    apply filter_ext_in. intros o Ho%Hs. rewrite tb_high by lia.
    by replace (o + 32 - 32) with o by lia.
Qed.

Lemma in_width_22_32 m : in_width 22 m → is_u32 m.
Proof. apply in_width_mono. lia. Qed.
#[local] Hint Resolve in_width_22_32 : core.

Lemma map_wf_offsets map :
  map_wf map → map_offsets map = filter (λ o, tb map o = true) (seqZ 0 64).
Proof. intros (m0 & m1 & -> & ? & ?). apply map_offsets_spec; auto. Qed.

Lemma tb_range map o : map_wf map → 0 ≤ o < 64 → tb map o = true → o < 54.
Proof.
  intros (m0 & m1 & -> & H0 & H1) Ho Ht.
  destruct (Z.lt_ge_cases o 54); [done|]. rewrite tb_high in Ht by lia.
  rewrite (testbit_high 22 m1) in Ht by (done || lia). done.
Qed.

Lemma elem_of_map_offsets map o :
  map_wf map → o ∈ map_offsets map ↔ 0 ≤ o < 54 ∧ tb map o = true.
Proof.
  intros Hm. rewrite map_wf_offsets, list_elem_of_filter, elem_of_seqZ by done.
  pose proof (tb_range map o Hm). naive_solver lia.
Qed.

Lemma NoDup_map_offsets map : map_wf map → NoDup (map_offsets map).
Proof. intros. rewrite map_wf_offsets by done. apply NoDup_filter, NoDup_seqZ. Qed.

Lemma miniflow_n_values_length f :
  map_wf (mf_map f) → miniflow_n_values f = Z.of_nat (length (map_offsets (mf_map f))).
Proof.
  intros (m0 & m1 & Hm & ? & ?). unfold miniflow_n_values, map_offsets. rewrite Hm. simpl.
  rewrite !popcount_one_bits by auto. rewrite app_nil_r, length_app, !length_fmap. lia.
Qed.

(** ** Reading a word *)

Lemma miniflow_get__spec f o :
  map_wf (mf_map f) → 0 ≤ o < 64 →
  miniflow_get__ f o =
    if tb (mf_map f) o
    then Some (Z.of_nat (length (filter (λ i, tb (mf_map f) i = true) (seqZ 0 o))))
    else None.
Proof.
  intros (m0 & m1 & Hm & H0 & H1) Ho. unfold miniflow_get__, mf_map_get.
  rewrite testbit_of_land_pow2 by (apply Z.mod_pos_bound; lia).
  change (Z.testbit (default 0 (mf_map f !! Z.to_nat (o / 32))) (o mod 32))
    with (tb (mf_map f) o). rewrite Hm.
  destruct (tb [m0; m1] o) eqn:Ht; [|done]. simpl.
  destruct (Z.ltb_spec o 32); f_equal; rewrite !Z.shiftl_1_l.
  - rewrite popcount_rank by (done || lia). rewrite sumbits_filter.
    apply (f_equal Z.of_nat), length_filter_ext. intros i Hi%elem_of_seqZ. by rewrite tb_low by lia.
  - rewrite popcount_rank, popcount_sumbits by (auto || lia).
    rewrite !sumbits_filter.
    replace o with (32 + (o - 32)) at 2 by lia. rewrite seqZ_app, filter_app, length_app by lia.
    rewrite Nat2Z.inj_add. apply (f_equal2 Z.add); apply (f_equal Z.of_nat).
    + apply length_filter_ext. intros i Hi%elem_of_seqZ. by rewrite tb_low by lia.
    + change (0 + 32) with (32 + 0). rewrite <- (fmap_add_seqZ 32 0), filter_fmap, length_fmap.
      apply length_filter_ext. intros i Hi%elem_of_seqZ. rewrite tb_high by lia.
      by replace (32 + i - 32) with i by lia.
Qed.

Lemma mf_values_get f :
  miniflow_wf f → mf_values f = miniflow_get f <$> map_offsets (mf_map f).
Proof.
  intros [Hm Hl Hv]. apply list_eq_same_length with (length (mf_values f)).
  { by rewrite length_fmap. } { done. }
  intros i x y Hi Hx Hy. rewrite list_lookup_fmap in Hy.
  destruct (map_offsets (mf_map f) !! i) as [o|] eqn:Ho; [|done].
  injection Hy as <-. pose proof (list_elem_of_lookup_2 _ _ _ Ho) as Hin.
  apply elem_of_map_offsets in Hin as [Hr Ht]; [|done].
  unfold miniflow_get. rewrite miniflow_get__spec by (done || lia). rewrite Ht.
  rewrite map_wf_offsets in Ho by done. apply filter_seqZ_rank in Ho as ->.
  by rewrite Nat2Z.id, Hx.
Qed.

Lemma mask_words_get mask :
  miniflow_wf mask →
  mask_words mask = (λ o, (o, miniflow_get mask o)) <$> map_offsets (mf_map mask).
Proof.
  intros Hwf. unfold mask_words. rewrite mf_values_get at 1 by done.
  generalize (map_offsets (mf_map mask)). induction l; simpl; by f_equal.
Qed.

Lemma miniflow_get_unset f o :
  map_wf (mf_map f) → 0 ≤ o < 64 → tb (mf_map f) o = false → miniflow_get f o = 0.
Proof.
  intros Hm Ho Ht. unfold miniflow_get. by rewrite miniflow_get__spec, Ht by done.
Qed.

Lemma miniflow_get_set f o :
  miniflow_wf f → 0 ≤ o < 64 → tb (mf_map f) o = true →
  is_u32 (miniflow_get f o) ∧ miniflow_get f o ≠ 0.
Proof.
  intros Hwf Ho Ht. pose proof (mf_values_get f Hwf) as Hv.
  destruct Hwf as [Hm _ Hall]. rewrite Hv, Forall_fmap, Forall_forall in Hall.
  apply Hall. apply elem_of_map_offsets; [done|].
  pose proof (tb_range _ o Hm Ho Ht). split; [lia|done].
Qed.

Lemma miniflow_get_nonzero f o :
  miniflow_wf f → 0 ≤ o < 64 → miniflow_get f o ≠ 0 ↔ tb (mf_map f) o = true.
Proof.
  intros Hwf Ho. split.
  - intros Hg. destruct (tb _ o) eqn:Ht; [done|].
    destruct Hg. apply miniflow_get_unset; [apply Hwf|done|done].
  - intros Ht. by apply miniflow_get_set.
Qed.

Lemma miniflow_get_u32 f o : miniflow_wf f → 0 ≤ o < 64 → is_u32 (miniflow_get f o).
Proof.
  intros Hwf Ho. destruct (tb (mf_map f) o) eqn:Ht; [by apply miniflow_get_set|].
  rewrite miniflow_get_unset by (apply Hwf || done). by split.
Qed.

(** A compressed flow is determined by its words. *)
Lemma miniflow_ext f g :
  miniflow_wf f → miniflow_wf g →
  (∀ o, 0 ≤ o < 54 → miniflow_get f o = miniflow_get g o) → f = g.
Proof.
  intros Hf Hg H.
  assert (Hmap : mf_map f = mf_map g).
  { assert (Htb : ∀ o, 0 ≤ o < 64 → tb (mf_map f) o = tb (mf_map g) o).
    { intros o Ho. apply eq_bool_prop_intro. rewrite !Is_true_true.
      rewrite <- !miniflow_get_nonzero by done.
      destruct (Z.lt_ge_cases o 54) as [|Hge]; [by rewrite H by lia|].
      rewrite !miniflow_get_nonzero by done.
      pose proof (tb_range _ o (mf_wf_map f Hf) Ho).
      pose proof (tb_range _ o (mf_wf_map g Hg) Ho). naive_solver lia. }
    destruct (mf_wf_map f Hf) as (m0 & m1 & Ef & ? & ?).
    destruct (mf_wf_map g Hg) as (n0 & n1 & Eg & ? & ?). rewrite Ef, Eg in *.
    assert (∀ x y, is_u32 x → is_u32 y →
      (∀ i, 0 ≤ i < 32 → Z.testbit x i = Z.testbit y i) → x = y) as Hbits.
    { intros x y Hx Hy Hxy. apply Z.bits_inj'. intros i Hi.
      destruct (Z.lt_ge_cases i 32); [apply Hxy; lia|].
      by rewrite !(testbit_high 32) by (done || lia). }
    rewrite (Hbits m0 n0), (Hbits m1 n1); auto.
    - intros i Hi. specialize (Htb (i + 32) ltac:(lia)).
      rewrite !tb_high in Htb by lia. by replace (i + 32 - 32) with i in Htb by lia.
    - intros i Hi. specialize (Htb i ltac:(lia)). by rewrite !tb_low in Htb by lia. }
  pose proof (mf_values_get f Hf) as Vf. pose proof (mf_values_get g Hg) as Vg.
  destruct f as [vf mf], g as [vg mg]; simpl in *. subst mg. f_equal.
  rewrite Vf, Vg. apply list_fmap_ext. intros i o Ho%list_elem_of_lookup_2. apply H.
  apply elem_of_map_offsets in Ho; [tauto|apply (mf_wf_map _ Hf)].
Qed.

Lemma miniflow_equal_spec a b :
  miniflow_wf a → miniflow_wf b → miniflow_equal a b = bool_decide (a = b).
Proof.
  intros Ha Hb. unfold miniflow_equal. apply eq_bool_prop_intro.
  rewrite andb_True, !bool_decide_spec. split.
  - intros [Hm Hv]. rewrite miniflow_n_values_length in Hv by apply Ha.
    rewrite Nat2Z.id in Hv. rewrite (take_ge (mf_values a)) in Hv
      by (rewrite (mf_wf_len a Ha); lia).
    rewrite take_ge in Hv by (rewrite (mf_wf_len b Hb), Hm; lia).
    destruct a, b; simpl in *; congruence.
  - by intros ->.
Qed.

Lemma miniflow_clone_id f : miniflow_wf f → miniflow_clone f = f.
Proof.
  intros Hf. unfold miniflow_clone. rewrite miniflow_n_values_length by apply Hf.
  rewrite Nat2Z.id, take_ge by (rewrite (mf_wf_len f Hf); lia). by destruct f.
Qed.

(** ** Compression *)

Lemma tb_alter map i o :
  length map = 2%nat → 0 ≤ i < 64 → 0 ≤ o < 64 →
  tb (alter (λ m, Z.lor m (Z.shiftl 1 (i mod 32))) (Z.to_nat (i / 32)) map) o
  = tb map o || (i =? o).
Proof.
  intros Hlen Hi Ho. unfold tb.
  assert (0 ≤ i / 32 < 2) by (split; [apply Z.div_pos; lia|apply Z.div_lt_upper_bound; lia]).
  assert (0 ≤ o / 32 < 2) by (split; [apply Z.div_pos; lia|apply Z.div_lt_upper_bound; lia]).
  pose proof (Z.mod_pos_bound i 32). pose proof (Z.mod_pos_bound o 32).
  pose proof (Z.div_mod i 32). pose proof (Z.div_mod o 32).
  rewrite alter_lookup_default by lia. case_decide as E.
  - rewrite Z.lor_spec, Z.shiftl_1_l, Z.pow2_bits_eqb by lia. f_equal.
    apply eq_bool_prop_intro. rewrite !Is_true_true, !Z.eqb_eq. lia.
  - rewrite (proj2 (Z.eqb_neq i o)); [btauto|]. intros ->. done.
Qed.

Lemma miniflow_init_map_loop (src : flow) k :
  0 ≤ k ≤ 64 →
  let map := foldl (λ map i,
      if flow_u32 src i =? 0 then map
      else alter (λ m, Z.lor m (Z.shiftl 1 (i mod 32))) (Z.to_nat (i / 32)) map)
    (replicate MINI_N_MAPS 0) (seqZ 0 k) in
  length map = 2%nat ∧ Forall is_u32 map ∧
  ∀ o, 0 ≤ o < 64 → tb map o = (o <? k) && negb (flow_u32 src o =? 0).
Proof.
  intros Hk. rewrite <- (Z2Nat.id k) in * by lia.
  induction (Z.to_nat k) as [|n IH].
  - simpl. split; [done|]. split; [by apply (Forall_replicate is_u32 2 0)|].
    intros o Ho. assert (E : ∀ z, z = 0 → (o <? z) = false) by (intros; apply Z.ltb_ge; lia).
    rewrite E by done. simpl. unfold tb.
    destruct (Z.to_nat (o / 32)) as [|[|?]]; simpl; apply Z.testbit_0_l.
  - rewrite seqZ_S, foldl_app. destruct IH as (Hl & Hw & Ht); [lia|].
    set (map := foldl _ _ _) in *. cbn [foldl]. rewrite Z.add_0_l.
    destruct (Z.eqb_spec (flow_u32 src (Z.of_nat n)) 0) as [E|E].
    + split; [done|]. split; [done|]. intros o Ho. rewrite Ht by done.
      destruct (decide (o = Z.of_nat n)) as [->|].
      * rewrite E, Z.eqb_refl. btauto.
      * apply (f_equal2 andb); [|done]. apply eq_bool_prop_intro. rewrite !Is_true_true, !Z.ltb_lt. lia.
    + split; [by rewrite length_alter|]. split.
      * apply Forall_alter; [done|]. intros x _ Hx. apply lor_in_width; [lia|done|].
        rewrite Z.shiftl_1_l. pose proof (Z.mod_pos_bound (Z.of_nat n) 32).
        split; [lia|]. apply Z.pow_lt_mono_r; lia.
      * intros o Ho. rewrite tb_alter by (done || lia). rewrite Ht by done.
        destruct (Z.eqb_spec (Z.of_nat n) o) as [<-|].
        -- rewrite (proj2 (Z.ltb_lt (Z.of_nat n) (Z.of_nat (S n)))) by lia.
           rewrite (proj2 (Z.eqb_neq _ _) E). btauto.
        -- rewrite orb_false_r. apply (f_equal2 andb); [|done]. apply eq_bool_prop_intro.
           rewrite !Is_true_true, !Z.ltb_lt. lia.
Qed.

Lemma flow_u32_wf f o : flow_wf f → is_u32 (flow_u32 f o).
Proof.
  intros [_ Hf]. unfold flow_u32. destruct (f !! Z.to_nat o) eqn:E; simpl; [|by split].
  by eapply Forall_lookup_1.
Qed.

Lemma flow_ext a b :
  length a = FLOW_U32S → length b = FLOW_U32S →
  (∀ o, 0 ≤ o < 54 → flow_u32 a o = flow_u32 b o) → a = b.
Proof.
  intros Ha Hb H. apply list_eq_same_length with FLOW_U32S; [done|done|].
  intros i x y Hi Hx Hy. specialize (H (Z.of_nat i)). unfold flow_u32 in H.
  rewrite Nat2Z.id, Hx, Hy in H. apply H. unfold FLOW_U32S in Hi. lia.
Qed.

Lemma miniflow_init_map_spec src :
  length (miniflow_init_map src) = 2%nat ∧ Forall is_u32 (miniflow_init_map src) ∧
  ∀ o, 0 ≤ o < 64 →
    tb (miniflow_init_map src) o = (o <? 54) && negb (flow_u32 src o =? 0).
Proof. exact (miniflow_init_map_loop src (Z.of_nat FLOW_U32S) ltac:(unfold FLOW_U32S; lia)). Qed.

Lemma miniflow_init_tb src o :
  0 ≤ o < 64 → tb (miniflow_init_map src) o = (o <? 54) && negb (flow_u32 src o =? 0).
Proof. apply miniflow_init_map_spec. Qed.

Lemma miniflow_init_map_wf src : map_wf (miniflow_init_map src).
Proof.
  destruct (miniflow_init_map_spec src) as (Hl & Hw & Ht).
  destruct (miniflow_init_map src) as [|m0 [|m1 [|? ?]]]; try done.
  exists m0, m1. apply Forall_cons in Hw as [? Hw]. apply Forall_cons in Hw as [? _].
  split; [done|]. split; [done|]. apply in_width_bits; [lia|]. intros i Hi.
  destruct (Z.lt_ge_cases i 32); [|by apply (testbit_high 32); (done || lia)].
  specialize (Ht (i + 32) ltac:(lia)). rewrite tb_high in Ht by lia.
  replace (i + 32 - 32) with i in Ht by lia. rewrite Ht.
  by rewrite (proj2 (Z.ltb_ge (i + 32) 54)) by lia.
Qed.

(** A miniflow built from a bitmap and a word function. *)
Lemma miniflow_build_wf (g : Z → Z) map :
  map_wf map → (∀ o, 0 ≤ o < 54 → tb map o = true → is_u32 (g o) ∧ g o ≠ 0) →
  miniflow_wf (Miniflow (g <$> map_offsets map) map).
Proof.
  intros Hm Hg. constructor; simpl; [done|apply length_fmap|].
  apply Forall_fmap, Forall_forall. intros o Ho. simpl.
  apply elem_of_map_offsets in Ho as [? ?]; auto.
Qed.

Lemma miniflow_build_get (g : Z → Z) map o :
  map_wf map → (∀ o, 0 ≤ o < 54 → tb map o = true → is_u32 (g o) ∧ g o ≠ 0) → 0 ≤ o < 54 →
  miniflow_get (Miniflow (g <$> map_offsets map) map) o = if tb map o then g o else 0.
Proof.
  intros Hm Hg Ho. pose proof (miniflow_build_wf g map Hm Hg) as Hwf.
  destruct (tb map o) eqn:Ht.
  - pose proof (mf_values_get _ Hwf) as Hv. simpl in Hv.
    assert (Hin : o ∈ map_offsets map) by (by apply elem_of_map_offsets).
    apply list_elem_of_lookup in Hin as [i Hi].
    apply (f_equal (λ l, l !! i)) in Hv. rewrite !list_lookup_fmap, Hi in Hv.
    by injection Hv.
  - apply miniflow_get_unset; (done || lia).
Qed.

Lemma miniflow_init_words src o :
  flow_wf src → 0 ≤ o < 54 → tb (miniflow_init_map src) o = true →
  is_u32 (flow_u32 src o) ∧ flow_u32 src o ≠ 0.
Proof.
  intros Hsrc Ho Ht. split; [by apply flow_u32_wf|].
  rewrite miniflow_init_tb in Ht by lia. by zbool.
Qed.

Lemma miniflow_init_wf src : flow_wf src → miniflow_wf (miniflow_init src).
Proof.
  intros Hsrc. apply miniflow_build_wf; [apply miniflow_init_map_wf|].
  intros o. by apply miniflow_init_words.
Qed.

Lemma miniflow_get_init src o :
  flow_wf src → 0 ≤ o < 54 → miniflow_get (miniflow_init src) o = flow_u32 src o.
Proof.
  intros Hsrc Ho. unfold miniflow_init. cbv zeta. rewrite miniflow_build_get.
  - rewrite miniflow_init_tb by lia. rewrite (proj2 (Z.ltb_lt o 54)) by lia.
    by destruct (Z.eqb_spec (flow_u32 src o) 0).
  - apply miniflow_init_map_wf.
  - intros i. by apply miniflow_init_words.
  - done.
Qed.

(** ** Expansion *)

Lemma union_loop_spec (g : Z → Z) offs dst o :
  NoDup offs → (∀ i, i ∈ offs → 0 ≤ i < Z.of_nat (length dst)) → 0 ≤ o →
  length (union_loop offs (g <$> offs) dst) = length dst ∧
  flow_u32 (union_loop offs (g <$> offs) dst) o =
    if decide (o ∈ offs) then Z.lor (flow_u32 dst o) (g o) else flow_u32 dst o.
Proof.
  revert dst. induction offs as [|x offs IH]; intros dst Hnd Hin Ho; [done|].
  apply NoDup_cons in Hnd as [Hx Hnd]. cbn [union_loop fmap list_fmap].
  destruct (IH (alter (λ w, Z.lor w (g x)) (Z.to_nat x) dst)) as [Hl Hu]; [done| |done|].
  { intros i Hi. rewrite length_alter. apply Hin. set_solver. }
  rewrite length_alter in Hl. split; [done|]. change (list_fmap Z Z g offs) with (g <$> offs).
  rewrite Hu. unfold flow_u32.
  rewrite alter_lookup_default by (specialize (Hin x); set_solver by lia).
  assert (0 ≤ x) by (specialize (Hin x); set_solver by lia).
  destruct (decide (o = x)) as [->|Hne].
  - rewrite (decide_False (P := x ∈ offs)), !decide_True by set_solver. done.
  - rewrite (decide_False (P := Z.to_nat x = Z.to_nat o)) by lia.
    destruct (decide (o ∈ offs)); destruct (decide (o ∈ x :: offs)); set_solver.
Qed.

Lemma flow_union_lookup dst f o :
  miniflow_wf f → length dst = FLOW_U32S → 0 ≤ o < 54 →
  flow_u32 (flow_union_with_miniflow dst f) o = Z.lor (flow_u32 dst o) (miniflow_get f o).
Proof.
  intros Hf Hd Ho. unfold flow_union_with_miniflow. rewrite mf_values_get by done.
  rewrite (proj2 (union_loop_spec (miniflow_get f) _ dst o
    (NoDup_map_offsets _ (mf_wf_map f Hf)) ltac:(
      intros i Hi%elem_of_map_offsets; [rewrite Hd; unfold FLOW_U32S; lia|apply Hf])
    ltac:(lia))).
  case_decide as E; [done|].
  rewrite miniflow_get_unset; [by rewrite Z.lor_0_r|apply Hf|lia|].
  destruct (tb (mf_map f) o) eqn:Ht; [|done]. destruct E.
  apply elem_of_map_offsets; [apply Hf|done].
Qed.

Lemma flow_union_length dst f :
  miniflow_wf f → length dst = FLOW_U32S →
  length (flow_union_with_miniflow dst f) = FLOW_U32S.
Proof.
  intros Hf Hd. unfold flow_union_with_miniflow. rewrite mf_values_get by done.
  rewrite (proj1 (union_loop_spec (miniflow_get f) _ dst 0
    (NoDup_map_offsets _ (mf_wf_map f Hf)) ltac:(
      intros i Hi%elem_of_map_offsets; [rewrite Hd; unfold FLOW_U32S; lia|apply Hf])
    ltac:(lia))). done.
Qed.

Lemma flow_u32_zeros o : flow_u32 (replicate FLOW_U32S 0) o = 0.
Proof.
  unfold flow_u32. destruct (_ !! _) eqn:E; [|done]. by apply lookup_replicate in E as [-> _].
Qed.

Lemma miniflow_expand_lookup f o :
  miniflow_wf f → 0 ≤ o < 54 → flow_u32 (miniflow_expand f) o = miniflow_get f o.
Proof.
  intros. unfold miniflow_expand. by rewrite flow_union_lookup, flow_u32_zeros.
Qed.

Lemma miniflow_expand_wf f : miniflow_wf f → flow_wf (miniflow_expand f).
Proof.
  intros Hf. assert (Hl : length (miniflow_expand f) = FLOW_U32S) by (by apply flow_union_length).
  split; [done|]. apply Forall_lookup. intros i x Hx.
  pose proof (lookup_lt_Some _ _ _ Hx) as Hlt. rewrite Hl in Hlt. unfold FLOW_U32S in Hlt.
  pose proof (miniflow_expand_lookup f (Z.of_nat i) Hf ltac:(lia)) as E.
  unfold flow_u32 in E. rewrite Nat2Z.id, Hx in E. simpl in E. rewrite E.
  apply miniflow_get_u32; [done|lia].
Qed.

(** ** Comparison under a mask *)

(** Two word functions agree on the bits of a mask. *)
Definition agree (mask x y : Z → Z) : Prop :=
  ∀ o, 0 ≤ o < 54 → Z.land (x o) (mask o) = Z.land (y o) (mask o).

#[global] Instance agree_equivalence mask : Equivalence (agree mask).
Proof.
  split; unfold agree; [done|by intros x y H o Ho; rewrite H|].
  intros x y z H1 H2 o Ho. by rewrite H1, H2.
Qed.

(** A loop over a mask's words that tests each one is a test of every word,
    when words outside the mask pass. *)
Lemma forallb_mask_words (t : Z → Z → bool) mask :
  miniflow_wf mask → (∀ o, t o 0 = true) →
  forallb (λ '(ofs, p), t ofs p) (mask_words mask) = true ↔
  ∀ o, 0 ≤ o < 54 → t o (miniflow_get mask o) = true.
Proof.
  intros Hm Ht. rewrite mask_words_get by done. rewrite forallb_forall.
  setoid_rewrite <- list_elem_of_In. split.
  - intros H o Ho. destruct (tb (mf_map mask) o) eqn:Hb.
    + apply (H (o, miniflow_get mask o)). apply list_elem_of_fmap.
      exists o. split; [done|]. by apply elem_of_map_offsets; [apply Hm|].
    + by rewrite miniflow_get_unset by (apply Hm || done || lia).
  - intros H [o p] Ho. apply list_elem_of_fmap in Ho as (o' & [= -> ->] & Ho').
    apply H. apply elem_of_map_offsets in Ho'; [tauto|apply Hm].
Qed.

Lemma miniflow_equal_in_minimask_spec a b mask :
  miniflow_wf mask →
  miniflow_equal_in_minimask a b mask = true ↔
  agree (miniflow_get mask) (miniflow_get a) (miniflow_get b).
Proof.
  intros Hm. unfold miniflow_equal_in_minimask.
  rewrite (forallb_mask_words
    (λ ofs p, Z.land (Z.lxor (miniflow_get a ofs) (miniflow_get b ofs)) p =? 0)) by
    (done || intros; by rewrite Z.land_0_r).
  unfold agree. by setoid_rewrite land_lxor_zero.
Qed.

Lemma miniflow_equal_flow_in_minimask_spec a b mask :
  miniflow_wf mask →
  miniflow_equal_flow_in_minimask a b mask = true ↔
  agree (miniflow_get mask) (miniflow_get a) (flow_u32 b).
Proof.
  intros Hm. unfold miniflow_equal_flow_in_minimask.
  rewrite (forallb_mask_words
    (λ ofs p, Z.land (Z.lxor (miniflow_get a ofs) (flow_u32 b ofs)) p =? 0)) by
    (done || intros; by rewrite Z.land_0_r).
  unfold agree. by setoid_rewrite land_lxor_zero.
Qed.

(** A word-by-word test of two or three full flows. *)
Lemma forallb_zip3_spec (t : Z → Z → Z → bool) (a b c : flow) :
  length a = FLOW_U32S → length b = FLOW_U32S → length c = FLOW_U32S →
  forallb (λ '(x, y, w), t x y w) (zip (zip a b) c) = true ↔
  ∀ o, 0 ≤ o < 54 → t (flow_u32 a o) (flow_u32 b o) (flow_u32 c o) = true.
Proof.
  intros Ha Hb Hc. rewrite forallb_forall. setoid_rewrite <- list_elem_of_In. split.
  - intros H o Ho. unfold flow_u32.
    destruct (lookup_lt_is_Some_2 a (Z.to_nat o)) as [x Hx]; [unfold FLOW_U32S in *; lia|].
    destruct (lookup_lt_is_Some_2 b (Z.to_nat o)) as [y Hy]; [unfold FLOW_U32S in *; lia|].
    destruct (lookup_lt_is_Some_2 c (Z.to_nat o)) as [w Hw]; [unfold FLOW_U32S in *; lia|].
    rewrite Hx, Hy, Hw. apply (H (x, y, w)). apply list_elem_of_lookup.
    exists (Z.to_nat o). by rewrite !lookup_zip_with, Hx, Hy, Hw.
  - intros H [[x y] w] Hin. apply list_elem_of_lookup in Hin as [i Hi].
    rewrite !lookup_zip_with in Hi.
    destruct (a !! i) as [x'|] eqn:Hx; [|done]. destruct (b !! i) as [y'|] eqn:Hy; [|done].
    destruct (c !! i) as [w'|] eqn:Hw; [|done]. simpl in Hi. simplify_eq.
    specialize (H (Z.of_nat i)). unfold flow_u32 in H. rewrite Nat2Z.id, Hx, Hy, Hw in H.
    apply H. apply lookup_lt_Some in Hx. unfold FLOW_U32S in *. lia.
Qed.

Lemma flow_equal_except_spec a b wc :
  length a = FLOW_U32S → length b = FLOW_U32S → length wc = FLOW_U32S →
  flow_equal_except a b wc = true ↔ agree (flow_u32 wc) (flow_u32 a) (flow_u32 b).
Proof.
  intros. unfold flow_equal_except.
  rewrite (forallb_zip3_spec (λ x y w, Z.land (Z.lxor x y) w =? 0)) by done.
  unfold agree. by setoid_rewrite land_lxor_zero.
Qed.

(** ** Hashing under a mask *)

(** A hash under a mask depends only on the bits of the mask. *)
Lemma foldl_mask_hash (x y : Z → Z) mask basis :
  miniflow_wf mask → agree (miniflow_get mask) x y →
  foldl (λ hash '(ofs, p), mhash_add hash (Z.land (x ofs) p)) basis (mask_words mask)
  = foldl (λ hash '(ofs, p), mhash_add hash (Z.land (y ofs) p)) basis (mask_words mask).
Proof.
  intros Hm Ha. rewrite mask_words_get by done.
  assert (Hoff : ∀ o, o ∈ map_offsets (mf_map mask) → 0 ≤ o < 54).
  { intros o Ho. apply elem_of_map_offsets in Ho; [tauto|apply Hm]. }
  revert basis Hoff. generalize (map_offsets (mf_map mask)) as l.
  induction l as [|o l IH]; intros basis Hoff; [done|]. simpl.
  rewrite Ha by (apply Hoff; set_solver). apply IH. set_solver.
Qed.

Lemma hash_in_minimask_agree f g mask basis :
  miniflow_wf mask → agree (miniflow_get mask) (miniflow_get f) (flow_u32 g) →
  flow_hash_in_minimask g mask basis = miniflow_hash_in_minimask f mask basis.
Proof.
  intros Hm Ha. unfold flow_hash_in_minimask, miniflow_hash_in_minimask. f_equal.
  by apply foldl_mask_hash.
Qed.

Lemma flow_hash_in_minimask_agree f g mask basis :
  miniflow_wf mask → agree (miniflow_get mask) (flow_u32 f) (flow_u32 g) →
  flow_hash_in_minimask f mask basis = flow_hash_in_minimask g mask basis.
Proof.
  intros Hm Ha. unfold flow_hash_in_minimask. f_equal. by apply foldl_mask_hash.
Qed.

(** ** Set operations on masks *)

Lemma rightmost_1bit_ctz map : is_u32 map → map ≠ 0 → rightmost_1bit map = 2 ^ raw_ctz map.
Proof.
  intros Hm Hnz. apply rightmost_1bit_spec; [by apply (in_width_mono 32); [lia|]|].
  by apply raw_ctz_spec.
Qed.

(** [combine_loop] over the 1-bits as a list. *)
Lemma combine_loop_one_bits fuel a b i map dst vs :
  is_u32 map →
  let v o := Z.land (miniflow_get a (o + i * 32)) (miniflow_get b (o + i * 32)) in
  let bs := filter (λ o, v o ≠ 0) (one_bits_loop fuel map) in
  combine_loop fuel a b i map dst vs
  = (foldl (λ d o, Z.lor d (2 ^ o)) dst bs, vs ++ (v <$> bs)).
Proof.
  intros Hm. cbv zeta. revert map dst vs Hm.
  induction fuel as [|fuel IH]; intros map dst vs Hm; simpl; [by rewrite app_nil_r|].
  destruct (Z.eqb_spec map 0) as [|Hnz]; [simpl; by rewrite app_nil_r|].
  pose proof (zero_rightmost_1bit_u32 map Hm) as Hm'.
  destruct (Z.eqb_spec (Z.land (miniflow_get a (raw_ctz map + i * 32))
    (miniflow_get b (raw_ctz map + i * 32))) 0) as [E|E].
  - rewrite IH by done. rewrite filter_cons_False by (intros []; done). done.
  - rewrite IH by done. rewrite filter_cons_True by done. simpl.
    rewrite rightmost_1bit_ctz by done. by rewrite <- (assoc (++)).
Qed.

Lemma foldl_lor_pow2_testbit bs d o :
  0 ≤ o → (∀ b, b ∈ bs → 0 ≤ b) →
  Z.testbit (foldl (λ d o, Z.lor d (2 ^ o)) d bs) o = Z.testbit d o || bool_decide (o ∈ bs).
Proof.
  intros Ho. revert d. induction bs as [|b bs IH]; intros d Hb; cbn [foldl].
  { rewrite bool_decide_eq_false_2 by set_solver. btauto. }
  rewrite IH, Z.lor_spec, Z.pow2_bits_eqb by set_solver. destruct (Z.eqb_spec b o) as [->|].
  - rewrite (bool_decide_eq_true_2 (o ∈ o :: bs)) by set_solver. btauto.
  - rewrite orb_false_r. f_equal. apply bool_decide_ext. set_solver.
Qed.

(** One word of the combined bitmap. *)
Definition combine_word (g : Z → Z) (m : Z) : Z :=
  foldl (λ d o, Z.lor d (2 ^ o)) 0 (filter (λ o, g o ≠ 0) (one_bits m)).

Lemma combine_word_testbit g m o :
  is_u32 m → 0 ≤ o →
  Z.testbit (combine_word g m) o
  = (o <? 32) && Z.testbit m o && negb (g o =? 0).
Proof.
  intros Hm Ho. unfold combine_word. rewrite foldl_lor_pow2_testbit; [|done|].
  - rewrite Z.testbit_0_l. simpl. apply eq_bool_prop_intro.
    rewrite bool_decide_spec, !andb_True, !Is_true_true, negb_true_iff, Z.eqb_neq, Z.ltb_lt.
    rewrite list_elem_of_filter, elem_of_one_bits by done. naive_solver lia.
  - intros b. rewrite list_elem_of_filter, elem_of_one_bits by done. naive_solver lia.
Qed.

Lemma combine_word_u32 g m : is_u32 m → is_u32 (combine_word g m).
Proof.
  intros Hm. apply in_width_bits; [lia|]. intros i Hi.
  rewrite combine_word_testbit by (done || lia). by rewrite (proj2 (Z.ltb_ge i 32)) by lia.
Qed.

Lemma one_bits_combine_word g m :
  is_u32 m → one_bits (combine_word g m) = filter (λ o, g o ≠ 0) (one_bits m).
Proof.
  intros Hm. rewrite !one_bits_spec by (done || by apply combine_word_u32).
  rewrite list_filter_filter. apply filter_ext_in. intros o Ho%elem_of_seqZ.
  rewrite combine_word_testbit by (done || lia).
  rewrite !andb_true_iff, negb_true_iff, Z.eqb_neq, Z.ltb_lt. naive_solver lia.
Qed.

Lemma minimask_combine_build a b m0 m1 n0 n1 :
  mf_map a = [m0; m1] → mf_map b = [n0; n1] → is_u32 m0 → is_u32 m1 →
  let g o := Z.land (miniflow_get a o) (miniflow_get b o) in
  let map := [combine_word g (Z.land m0 n0);
              combine_word (λ o, g (o + 32)) (Z.land m1 n1)] in
  minimask_combine a b = Miniflow (g <$> map_offsets map) map.
Proof.
  intros Ea Eb H0 H1 g map. unfold minimask_combine.
  change (seqZ 0 (Z.of_nat MINI_N_MAPS)) with [0; 1]. unfold mf_map_get.
  rewrite Ea, Eb. cbn [foldl]. change (Z.to_nat 0) with 0%nat. change (Z.to_nat 1) with 1%nat.
  cbn [lookup list_lookup default mf_values mf_map].
  assert (is_u32 (Z.land m0 n0)) by (apply land_in_width; [lia|done]).
  assert (is_u32 (Z.land m1 n1)) by (apply land_in_width; [lia|done]).
  rewrite combine_loop_one_bits by done. cbn [mf_values mf_map].
  rewrite combine_loop_one_bits by done. cbn [id mf_values mf_map app].
  unfold map. rewrite map_offsets_2, !one_bits_combine_word by done.
  assert (Hf0 : filter (λ o, Z.land (miniflow_get a (o + 0 * 32)) (miniflow_get b (o + 0 * 32)) ≠ 0)
      (one_bits_loop 32 (Z.land m0 n0)) = filter (λ o, g o ≠ 0) (one_bits (Z.land m0 n0))).
  { apply filter_ext_in. intros o _. unfold g. by replace (o + 0 * 32) with o by lia. }
  assert (Hf1 : filter (λ o, Z.land (miniflow_get a (o + 1 * 32)) (miniflow_get b (o + 1 * 32)) ≠ 0)
      (one_bits_loop 32 (Z.land m1 n1)) = filter (λ o, g (o + 32) ≠ 0) (one_bits (Z.land m1 n1)))
    by done.
  rewrite Hf0, Hf1. f_equal.
  rewrite fmap_app, <- list_fmap_compose. f_equal.
  apply list_fmap_ext. intros i o _. unfold g. by replace (o + 0 * 32) with o by lia.
Qed.

Lemma minimask_combine_spec a b :
  miniflow_wf a → miniflow_wf b →
  miniflow_wf (minimask_combine a b)
  ∧ ∀ o, 0 ≤ o < 54 →
      miniflow_get (minimask_combine a b) o = Z.land (miniflow_get a o) (miniflow_get b o).
Proof.
  intros Ha Hb.
  destruct (mf_wf_map a Ha) as (m0 & m1 & Ea & H0 & H1).
  destruct (mf_wf_map b Hb) as (n0 & n1 & Eb & G0 & G1).
  rewrite (minimask_combine_build a b m0 m1 n0 n1 Ea Eb H0 (in_width_22_32 _ H1)).
  set (g := λ o, Z.land (miniflow_get a o) (miniflow_get b o)).
  set (map := [_; _]).
  assert (I0 : is_u32 (Z.land m0 n0)) by (apply land_in_width; [lia|done]).
  assert (I1 : in_width 22 (Z.land m1 n1)) by (apply land_in_width; [lia|done]).
  assert (Hmap : map_wf map).
  { eexists _, _. split; [done|]. split; [by apply combine_word_u32|].
    apply in_width_bits; [lia|]. intros i Hi.
    rewrite combine_word_testbit by (auto || lia).
    rewrite (testbit_high 22 _ i I1) by lia. btauto. }
  assert (Htb : ∀ o, 0 ≤ o < 54 → tb map o = negb (g o =? 0)).
  { intros o Ho. apply eq_bool_prop_intro. rewrite !Is_true_true, negb_true_iff, Z.eqb_neq.
    assert (Hg : g o ≠ 0 → tb (mf_map a) o = true ∧ tb (mf_map b) o = true).
    { intros Hg. rewrite <- !miniflow_get_nonzero by (done || lia). unfold g in Hg.
      split; intros E; rewrite E in Hg; [by rewrite Z.land_0_l in Hg|by rewrite Z.land_0_r in Hg]. }
    rewrite Ea, Eb in Hg. unfold map. destruct (Z.lt_ge_cases o 32).
    - rewrite tb_low, combine_word_testbit, Z.land_spec by (done || lia).
      rewrite !tb_low in Hg by lia.
      rewrite !andb_true_iff, negb_true_iff, Z.eqb_neq, Z.ltb_lt. naive_solver lia.
    - rewrite tb_high, combine_word_testbit, Z.land_spec by (auto || lia).
      rewrite !tb_high in Hg by lia. replace (o - 32 + 32) with o by lia.
      rewrite !andb_true_iff, negb_true_iff, Z.eqb_neq, Z.ltb_lt. naive_solver lia. }
  assert (Hg : ∀ o, 0 ≤ o < 54 → tb map o = true → is_u32 (g o) ∧ g o ≠ 0).
  { intros o Ho Ht. rewrite Htb in Ht by done. zbool. split; [|done].
    apply land_in_width; [lia|]. apply miniflow_get_u32; (done || lia). }
  split; [by apply miniflow_build_wf|]. intros o Ho.
  rewrite miniflow_build_get by done. rewrite Htb by done.
  fold (g o). by destruct (Z.eqb_spec (g o) 0).
Qed.

Lemma map_wf_lor m n : map_wf m → map_wf n → map_wf (zip_with Z.lor m n)
  ∧ ∀ o, 0 ≤ o < 64 → tb (zip_with Z.lor m n) o = tb m o || tb n o.
Proof.
  intros (m0 & m1 & -> & H0 & H1) (n0 & n1 & -> & G0 & G1). simpl. split.
  - eexists _, _. split; [done|]. split; apply lor_in_width; (done || lia).
  - intros o Ho. destruct (Z.lt_ge_cases o 32).
    + by rewrite !tb_low, Z.lor_spec by lia.
    + by rewrite !tb_high, Z.lor_spec by lia.
Qed.

(** The mask [x] leaves out a bit that [y] has. *)
Definition extra (x y : Z → Z) : Prop :=
  ∃ o, 0 ≤ o < 54 ∧ Z.land (x o) (y o) ≠ y o.

Lemma minimask_has_extra_spec a b :
  miniflow_wf a → miniflow_wf b →
  minimask_has_extra a b = true ↔ extra (miniflow_get a) (miniflow_get b).
Proof.
  intros Ha Hb. unfold minimask_has_extra, extra.
  destruct (map_wf_lor _ _ (mf_wf_map a Ha) (mf_wf_map b Hb)) as [Hm Ht].
  rewrite existsb_exists. setoid_rewrite <- list_elem_of_In.
  setoid_rewrite negb_true_iff. setoid_rewrite Z.eqb_neq.
  split; intros (o & Ho & Hne); exists o.
  - apply elem_of_map_offsets in Ho as [? _]; done.
  - split; [|done]. apply elem_of_map_offsets; [done|]. split; [done|].
    rewrite Ht by lia. apply orb_true_iff. right. apply miniflow_get_nonzero; [done|lia|].
    intros E. rewrite E, Z.land_0_r in Hne. done.
Qed.

Lemma flow_wildcards_has_extra_spec a b :
  length a = FLOW_U32S → length b = FLOW_U32S →
  flow_wildcards_has_extra a b = true ↔ extra (flow_u32 a) (flow_u32 b).
Proof.
  intros Ha Hb. unfold flow_wildcards_has_extra, extra.
  rewrite existsb_exists. setoid_rewrite <- list_elem_of_In. split.
  - intros ([x y] & Hin & Hne). apply list_elem_of_lookup in Hin as [i Hi].
    rewrite lookup_zip_with in Hi. destruct (a !! i) as [x'|] eqn:Hx; [|done].
    destruct (b !! i) as [y'|] eqn:Hy; [|done]. simpl in Hi. simplify_eq. zbool.
    exists (Z.of_nat i). apply lookup_lt_Some in Hx as Hlt. unfold FLOW_U32S in *.
    split; [lia|]. unfold flow_u32. by rewrite Nat2Z.id, Hx, Hy.
  - intros (o & Ho & Hne). unfold flow_u32 in Hne. unfold FLOW_U32S in *.
    destruct (lookup_lt_is_Some_2 a (Z.to_nat o)) as [x Hx]; [lia|].
    destruct (lookup_lt_is_Some_2 b (Z.to_nat o)) as [y Hy]; [lia|].
    rewrite Hx, Hy in Hne. exists (x, y). split.
    + apply list_elem_of_lookup. exists (Z.to_nat o). by rewrite lookup_zip_with, Hx, Hy.
    + apply negb_true_iff, Z.eqb_neq. done.
Qed.

Lemma extra_ext x x' y y' :
  (∀ o, 0 ≤ o < 54 → x o = x' o) → (∀ o, 0 ≤ o < 54 → y o = y' o) → extra x y ↔ extra x' y'.
Proof.
  intros Hx Hy. unfold extra.
  split; intros (o & Ho & Hne); exists o; (split; [done|]);
    [rewrite <- Hx, <- Hy by done|rewrite Hx, Hy by done]; done.
Qed.

Lemma agree_ext m m' x x' y y' :
  (∀ o, 0 ≤ o < 54 → m o = m' o) → (∀ o, 0 ≤ o < 54 → x o = x' o) →
  (∀ o, 0 ≤ o < 54 → y o = y' o) → agree m x y ↔ agree m' x' y'.
Proof.
  intros Hm Hx Hy. unfold agree.
  split; intros H o Ho; specialize (H o Ho);
    [rewrite <- Hm, <- Hx, <- Hy by done|rewrite Hm, Hx, Hy by done]; done.
Qed.

Lemma minimask_is_catchall_get mask :
  miniflow_wf mask →
  minimask_is_catchall mask = true ↔ ∀ o, 0 ≤ o < 54 → miniflow_get mask o = 0.
Proof.
  intros Hm. destruct (mf_wf_map mask Hm) as (m0 & m1 & E & H0 & H1).
  unfold minimask_is_catchall, mf_map_get. rewrite E. simpl. rewrite Z.eqb_eq, Z.lor_eq_0_iff.
  split.
  - intros [-> ->] o Ho. apply miniflow_get_unset; [apply Hm|lia|]. rewrite E.
    destruct (Z.lt_ge_cases o 32); [rewrite tb_low by lia|rewrite tb_high by lia];
      apply Z.testbit_0_l.
  - intros Hz.
    assert (Hb : ∀ o, 0 ≤ o < 64 → tb [m0; m1] o = false).
    { intros o Ho. destruct (tb [m0; m1] o) eqn:Ht; [|done]. rewrite <- E in Ht.
      pose proof (tb_range _ o (mf_wf_map mask Hm) Ho Ht).
      apply miniflow_get_nonzero in Ht; [|done|lia]. destruct Ht. apply Hz. lia. }
    split; apply Z.bits_inj'; intros i Hi; rewrite Z.testbit_0_l;
      (destruct (Z.lt_ge_cases i 32); [|apply (testbit_high 32); (auto || lia)]).
    + rewrite <- (tb_low m0 m1) by lia. apply Hb. lia.
    + rewrite <- (Hb (i + 32)) by lia. rewrite tb_high by lia. f_equal. lia.
Qed.

Lemma flow_u32_zip_with (h : Z → Z → Z) a b o :
  length a = FLOW_U32S → length b = FLOW_U32S → 0 ≤ o < 54 →
  flow_u32 (zip_with h a b) o = h (flow_u32 a o) (flow_u32 b o).
Proof.
  intros Ha Hb Ho. unfold flow_u32. rewrite lookup_zip_with. unfold FLOW_U32S in *.
  destruct (lookup_lt_is_Some_2 a (Z.to_nat o)) as [x ->]; [lia|].
  destruct (lookup_lt_is_Some_2 b (Z.to_nat o)) as [y ->]; [lia|]. done.
Qed.

(** ** The compressed forms represent the full ones *)

Lemma miniflow_init_expand (f : flow) :
  flow_wf f → miniflow_wf (miniflow_init f) ∧ miniflow_expand (miniflow_init f) = f.
Proof.
  intros Hf. pose proof (miniflow_init_wf f Hf) as Hwf. split; [done|].
  apply flow_ext; [by apply flow_union_length|apply Hf|].
  intros o Ho. by rewrite miniflow_expand_lookup, miniflow_get_init.
Qed.

Lemma miniflow_expand_init (m : miniflow) :
  miniflow_wf m → miniflow_init (miniflow_expand m) = m.
Proof.
  intros Hm. pose proof (miniflow_expand_wf m Hm) as Hf.
  apply miniflow_ext; [by apply miniflow_init_wf|done|].
  intros o Ho. by rewrite miniflow_get_init, miniflow_expand_lookup.
Qed.

(** C38: A flow survives compression to a miniflow and expansion, and a
    well-formed miniflow is the compression of the flow it expands to: the
    compressed form is canonical. *)
Theorem miniflow_roundtrip (f : flow) (m : miniflow) :
  flow_wf f → miniflow_wf m →
  miniflow_wf (miniflow_init f) ∧ miniflow_expand (miniflow_init f) = f
  ∧ flow_wf (miniflow_expand m) ∧ miniflow_init (miniflow_expand m) = m.
Proof.
  intros Hf Hm. destruct (miniflow_init_expand f Hf). split_and!; [done|done| |].
  - by apply miniflow_expand_wf.
  - by apply miniflow_expand_init.
Qed.

(** C31: The routines that work on the compressed forms compute what the routines
    on full flows compute. *)
Theorem minimask_ops_expand (a b mask : miniflow) (f : flow) :
  miniflow_wf a → miniflow_wf b → miniflow_wf mask → flow_wf f →
  miniflow_equal a b = flow_equal (miniflow_expand a) (miniflow_expand b)
  ∧ miniflow_equal_in_minimask a b mask
    = flow_equal_except (miniflow_expand a) (miniflow_expand b) (minimask_expand mask)
  ∧ miniflow_equal_flow_in_minimask a f mask
    = flow_equal_except (miniflow_expand a) f (minimask_expand mask)
  ∧ minimask_has_extra a b
    = flow_wildcards_has_extra (minimask_expand a) (minimask_expand b)
  ∧ minimask_expand (minimask_combine a b)
    = flow_wildcards_and (minimask_expand a) (minimask_expand b)
  ∧ minimask_is_catchall mask = flow_wildcards_is_catchall (minimask_expand mask)
  ∧ flow_wildcards_fold_minimask f mask = flow_wildcards_or f (minimask_expand mask).
Proof.
  intros Ha Hb Hm Hf. unfold minimask_expand.
  pose proof (miniflow_expand_wf a Ha) as [La _]. pose proof (miniflow_expand_wf b Hb) as [Lb _].
  pose proof (miniflow_expand_wf mask Hm) as [Lm _]. pose proof Hf as [Lf _].
  split_and!.
  - rewrite miniflow_equal_spec by done. unfold flow_equal. apply bool_decide_ext.
    split; [by intros ->|]. intros E. apply (f_equal miniflow_init) in E.
    by rewrite !miniflow_expand_init in E.
  - apply eq_bool_prop_intro. rewrite !Is_true_true, miniflow_equal_in_minimask_spec by done.
    rewrite flow_equal_except_spec by done.
    apply agree_ext; intros; by rewrite miniflow_expand_lookup.
  - apply eq_bool_prop_intro. rewrite !Is_true_true, miniflow_equal_flow_in_minimask_spec by done.
    rewrite flow_equal_except_spec by done.
    apply agree_ext; intros; by rewrite ?miniflow_expand_lookup.
  - apply eq_bool_prop_intro. rewrite !Is_true_true, minimask_has_extra_spec by done.
    rewrite flow_wildcards_has_extra_spec by done.
    apply extra_ext; intros; by rewrite miniflow_expand_lookup.
  - destruct (minimask_combine_spec a b Ha Hb) as [Hwf Hg].
    apply flow_ext; [by apply flow_union_length| |].
    { unfold flow_wildcards_and. rewrite length_zip_with, La, Lb. done. }
    intros o Ho. unfold flow_wildcards_and. rewrite flow_u32_zip_with by done.
    by rewrite !miniflow_expand_lookup, Hg.
  - apply eq_bool_prop_intro. rewrite !Is_true_true, minimask_is_catchall_get by done.
    unfold flow_wildcards_is_catchall. rewrite forallb_forall.
    setoid_rewrite <- list_elem_of_In. split.
    + intros Hz x [i Hx]%list_elem_of_lookup. apply Z.eqb_eq.
      pose proof (lookup_lt_Some _ _ _ Hx) as Hlt. rewrite Lm in Hlt. unfold FLOW_U32S in Hlt.
      rewrite <- (Hz (Z.of_nat i)), <- miniflow_expand_lookup by (done || lia).
      unfold flow_u32. by rewrite Nat2Z.id, Hx.
    + intros Hz o Ho. rewrite <- miniflow_expand_lookup by done. unfold flow_u32.
      destruct (_ !! _) as [x|] eqn:Hx; [|done]. apply Z.eqb_eq, Hz.
      by apply list_elem_of_lookup_2 in Hx.
  - unfold flow_wildcards_fold_minimask, flow_wildcards_or.
    apply flow_ext; [by apply flow_union_length|by rewrite length_zip_with, Lf, Lm|].
    intros o Ho. rewrite flow_u32_zip_with by done.
    by rewrite flow_union_lookup, miniflow_expand_lookup.
Qed.

(** "The hash values returned by this function are the same as those returned
    by miniflow_hash_in_minimask()", and they depend only on the masked bits. *)
Theorem hash_in_minimask_spec (f g : flow) (mask : minimask) (basis : Z) :
  flow_wf f → flow_wf g → miniflow_wf mask →
  miniflow_hash_in_minimask (miniflow_init f) mask basis = flow_hash_in_minimask f mask basis
  ∧ (flow_equal_except f g (minimask_expand mask) = true →
     flow_hash_in_minimask f mask basis = flow_hash_in_minimask g mask basis).
Proof.
  intros Hf Hg Hm. split.
  - symmetry. apply hash_in_minimask_agree; [done|]. intros o Ho. by rewrite miniflow_get_init.
  - intros He. apply flow_hash_in_minimask_agree; [done|].
    rewrite flow_equal_except_spec in He by (apply Hf || apply Hg || by apply miniflow_expand_wf).
    intros o Ho. specialize (He o Ho). unfold minimask_expand in He.
    by rewrite miniflow_expand_lookup in He.
Qed.

(** ** Examples *)

Definition ex_flow : flow := <[3%nat := 7]> (<[40%nat := 0xffffffff]> flow_wildcards_init_catchall).
Definition ex_wc : flow := <[40%nat := 0xff]> flow_wildcards_init_catchall.

Lemma ex_flow_wf : flow_wf ex_flow.
Proof. apply flow_wf_decide. vm_compute. done. Qed.
Lemma ex_wc_wf : flow_wf ex_wc.
Proof. apply flow_wf_decide. vm_compute. done. Qed.

Lemma miniflow_roundtrip_witness :
  miniflow_init ex_flow = Miniflow [7; 0xffffffff] [8; 256]
  ∧ miniflow_expand (miniflow_init ex_flow) = ex_flow
  ∧ miniflow_init (miniflow_expand (miniflow_init ex_wc)) = miniflow_init ex_wc.
Proof.
  split; [vm_compute; done|].
  pose proof (miniflow_roundtrip ex_flow (miniflow_init ex_wc) ex_flow_wf
    (miniflow_init_wf ex_wc ex_wc_wf)) as (_ & H1 & _ & H2). done.
Defined.

Lemma minimask_ops_expand_witness :
  minimask_has_extra (minimask_init ex_flow) (minimask_init ex_wc) = false
  ∧ minimask_expand (minimask_combine (minimask_init ex_flow) (minimask_init ex_wc))
    = flow_wildcards_and (minimask_expand (minimask_init ex_flow)) (minimask_expand (minimask_init ex_wc)).
Proof.
  split; [vm_compute; done|].
  apply (minimask_ops_expand (miniflow_init ex_flow) (miniflow_init ex_wc) (miniflow_init ex_wc) ex_flow);
    [apply miniflow_init_wf, ex_flow_wf|apply miniflow_init_wf, ex_wc_wf
    |apply miniflow_init_wf, ex_wc_wf|apply ex_flow_wf].
Defined.

Lemma hash_in_minimask_spec_witness :
  ex_flow ≠ ex_wc
  ∧ flow_hash_in_minimask ex_flow (minimask_init ex_wc) 0 = flow_hash_in_minimask ex_wc (minimask_init ex_wc) 0.
Proof.
  split; [vm_compute; done|].
  apply (hash_in_minimask_spec ex_flow ex_wc (minimask_init ex_wc) 0);
    [apply ex_flow_wf|apply ex_wc_wf|apply miniflow_init_wf, ex_wc_wf|vm_compute; done].
Defined.
