(* ===== verification/Classifier.v ===== *)
(** * The flow classifier (lib/classifier.h, lib/classifier.c)

    A classifier is a hash map from masks to tables; a table is a hash map
    from flows to lists of rules that differ only in priority, and the tables
    are also linked in order of decreasing maximum priority.  A table is
    reached both from the hash map and from the priority list, so tables live
    in a store indexed by address ([cl_heap]) and both structures hold
    addresses.  The rules with one flow form a ring through [struct
    cls_rule]'s list; the ring is a list that starts with the rule linked in
    the table's hash map.  [None] stands for a null dereference or a failed
    assertion.

    [lib/match.c]'s compressed matches are at the start of the file. *)
From S2P Require Import Prelude Util Hash Hmap Flow.

(** ** Matches *)

Record match_ := Match { m_flow : flow; m_wc : flow }.

Definition match_zero_wildcarded_fields (m : match_) : match_ :=
  Match (flow_zero_wildcards (m_flow m) (m_wc m)) (m_wc m).

Definition match_init (f wc : flow) : match_ := match_zero_wildcarded_fields (Match f wc).

Definition match_init_catchall : match_ :=
  Match (replicate FLOW_U32S 0) flow_wildcards_init_catchall.

Definition match_equal (a b : match_) : bool :=
  flow_wildcards_equal (m_wc a) (m_wc b) && flow_equal (m_flow a) (m_flow b).

Definition match_hash (m : match_) (basis : Z) : Z :=
  flow_wildcards_hash (m_wc m) (flow_hash (m_flow m) basis).

Record minimatch := Minimatch { mm_flow : miniflow; mm_mask : minimask }.

#[global] Instance minimatch_eq_dec : EqDecision minimatch.
Proof. solve_decision. Defined.

#[global] Program Instance minimatch_countable : Countable minimatch :=
  inj_countable' (λ m, (mm_flow m, mm_mask m)) (λ p, Minimatch p.1 p.2) _.
Next Obligation. by intros []. Qed.


Definition minimatch_init (src : match_) : minimatch :=
  Minimatch (miniflow_init (m_flow src)) (minimask_init (m_wc src)).

Definition minimatch_clone (src : minimatch) : minimatch :=
  Minimatch (miniflow_clone (mm_flow src)) (minimask_clone (mm_mask src)).

Definition minimatch_expand (src : minimatch) : match_ :=
  Match (miniflow_expand (mm_flow src)) (minimask_expand (mm_mask src)).

Definition minimatch_equal (a b : minimatch) : bool :=
  miniflow_equal (mm_flow a) (mm_flow b) && minimask_equal (mm_mask a) (mm_mask b).

Definition minimatch_hash (m : minimatch) (basis : Z) : Z :=
  miniflow_hash (mm_flow m) (minimask_hash (mm_mask m) basis).

(** ** Rules *)

(** [cr_id] is the address of the rule. *)
Record cls_rule := ClsRule { cr_id : Z; cr_match : minimatch; cr_priority : Z }.

#[global] Instance cls_rule_eq_dec : EqDecision cls_rule.
Proof. solve_decision. Defined.

Definition cls_rule_init (id : Z) (m : match_) (priority : Z) : cls_rule :=
  ClsRule id (minimatch_init m) priority.

Definition cls_rule_init_from_minimatch (id : Z) (m : minimatch) (priority : Z) : cls_rule :=
  ClsRule id (minimatch_clone m) priority.

Definition cls_rule_clone (id : Z) (src : cls_rule) : cls_rule :=
  ClsRule id (minimatch_clone (cr_match src)) (cr_priority src).

Definition cls_rule_equal (a b : cls_rule) : bool :=
  (cr_priority a =? cr_priority b) && minimatch_equal (cr_match a) (cr_match b).

Definition cls_rule_hash (r : cls_rule) (basis : Z) : Z :=
  minimatch_hash (cr_match r) (hash_int (cr_priority r) basis).

Definition cls_rule_is_catchall (r : cls_rule) : bool :=
  minimask_is_catchall (mm_mask (cr_match r)).

Definition cls_rule_is_loose_match (r : cls_rule) (criteria : minimatch) : bool :=
  negb (minimask_has_extra (mm_mask (cr_match r)) (mm_mask criteria))
  && miniflow_equal_in_minimask (mm_flow (cr_match r)) (mm_flow criteria) (mm_mask criteria).

(** The value [insert_rule] stores in [hmap_node.hash]; a rule's match does
    not change while the rule is in a classifier. *)
Definition rule_hash (r : cls_rule) : Z :=
  miniflow_hash_in_minimask (mm_flow (cr_match r)) (mm_mask (cr_match r)) 0.

(** ** Rings of rules with one flow *)

Notation ring := (list cls_rule).

Definition next_rule_in_list__ (l : ring) (i : nat) : nat :=
  if decide (S i < length l)%nat then S i else 0%nat.

Definition next_rule_in_list (l : ring) (i : nat) : option nat :=
  let n := next_rule_in_list__ l i in
  match l !! n, l !! i with
  | Some next, Some rule => if cr_priority next <? cr_priority rule then Some n else None
  | _, _ => None
  end.

(** FOR_EACH_RULE_IN_LIST: the rules visited from position [i] on, with their
    positions. *)
Fixpoint for_each_rule (fuel : nat) (l : ring) (i : nat) : list (nat * cls_rule) :=
  match fuel, l !! i with
  | S fuel, Some r =>
      (i, r) :: match next_rule_in_list l i with
                | Some n => for_each_rule fuel l n
                | None => []
                end
  | _, _ => []
  end.

Definition rules_in_list (l : ring) : list (nat * cls_rule) := for_each_rule (length l) l 0.

Definition ring_head_is (r : cls_rule) (l : ring) : bool :=
  match l with h :: _ => bool_decide (cr_id h = cr_id r) | [] => false end.

(** ** Tables and classifiers *)

Record cls_table := ClsTable {
  ct_rules : hmap ring;
  ct_mask : minimask;
  ct_n_table_rules : Z;
  ct_max_priority : Z;
  ct_max_count : Z
}.

Record classifier := Classifier {
  cl_n_rules : Z;
  cl_tables : hmap nat;
  cl_tables_priority : list nat;
  cl_heap : gmap nat cls_table;
  cl_next : nat
}.

Definition set_table (cls : classifier) (a : nat) (t : cls_table) : classifier :=
  Classifier (cl_n_rules cls) (cl_tables cls) (cl_tables_priority cls)
    (<[a := t]> (cl_heap cls)) (cl_next cls).

Definition set_tables_priority (cls : classifier) (l : list nat) : classifier :=
  Classifier (cl_n_rules cls) (cl_tables cls) l (cl_heap cls) (cl_next cls).

Definition table_max (cls : classifier) (a : nat) : Z :=
  match cl_heap cls !! a with Some t => ct_max_priority t | None => 0 end.

Definition classifier_init : classifier := Classifier 0 hmap_init [] ∅ 0.

Definition classifier_is_empty (cls : classifier) : bool := cl_n_rules cls =? 0.
Definition classifier_count (cls : classifier) : Z := cl_n_rules cls.

Definition find_table (cls : classifier) (mask : minimask) : option nat :=
  List.find (λ a, match cl_heap cls !! a with
                  | Some t => minimask_equal mask (ct_mask t)
                  | None => false
                  end)
    (hmap_for_each_in_bucket (cl_tables cls) (minimask_hash mask 0)).

Definition insert_table (cls : classifier) (mask : minimask) : classifier * nat :=
  let a := cl_next cls in
  let t := ClsTable hmap_init (minimask_clone mask) 0 0 0 in
  (Classifier (cl_n_rules cls)
     (hmap_insert_at (cl_tables cls) a (minimask_hash mask 0))
     (cl_tables_priority cls ++ [a])
     (<[a := t]> (cl_heap cls)) (S a), a).

Definition destroy_table (cls : classifier) (a : nat) : option classifier :=
  t ← cl_heap cls !! a;
  tables ← hmap_remove (cl_tables cls) (λ b, bool_decide (b = a)) (minimask_hash (ct_mask t) 0);
  Some (Classifier (cl_n_rules cls) tables
          (filter (λ b, b ≠ a) (cl_tables_priority cls))
          (delete a (cl_heap cls)) (cl_next cls)).

(** Destroying a classifier destroys each of its tables. *)
Definition classifier_destroy (cls : classifier) : option classifier :=
  foldl (λ c a, c ← c; destroy_table c a) (Some cls) (hmap_for_each (cl_tables cls)).

(** The elements before and after [a] in a list. *)
Fixpoint split_at (a : nat) (l : list nat) : option (list nat * list nat) :=
  match l with
  | [] => None
  | b :: l =>
      if decide (b = a) then Some ([], l)
      else '(pre, post) ← split_at a l; Some (b :: pre, post)
  end.

(** The longest prefix whose elements satisfy [p], and the rest. *)
Fixpoint span (p : nat → bool) (l : list nat) : list nat * list nat :=
  match l with
  | [] => ([], [])
  | b :: l' => if p b then let '(s, r) := span p l' in (b :: s, r) else ([], l)
  end.

(** Move [a] back past the tables with a smaller maximum priority: just after
    the nearest earlier table whose maximum is at least its own. *)
Definition move_earlier (cls : classifier) (a : nat) : option classifier :=
  '(pre, post) ← split_at a (cl_tables_priority cls);
  let '(skipped, rest) := span (λ b, table_max cls b <? table_max cls a) (reverse pre) in
  Some (set_tables_priority cls (reverse rest ++ a :: reverse skipped ++ post)).

(** Move [a] forward, just before the nearest later table whose maximum is at
    most its own. *)
Definition move_later (cls : classifier) (a : nat) : option classifier :=
  '(pre, post) ← split_at a (cl_tables_priority cls);
  let '(skipped, rest) := span (λ b, table_max cls a <? table_max cls b) post in
  Some (set_tables_priority cls (pre ++ skipped ++ a :: rest)).

Definition set_max (t : cls_table) (max_priority max_count : Z) : cls_table :=
  ClsTable (ct_rules t) (ct_mask t) (ct_n_table_rules t) max_priority max_count.

Definition update_tables_after_insertion (cls : classifier) (a : nat) (new_priority : Z)
    : option classifier :=
  t ← cl_heap cls !! a;
  if new_priority =? ct_max_priority t then
    Some (set_table cls a (set_max t (ct_max_priority t) (ct_max_count t + 1)))
  else if ct_max_priority t <? new_priority then
    move_earlier (set_table cls a (set_max t new_priority 1)) a
  else Some cls.

(** The loop over the heads that recomputes a table's maximum. *)
Definition recompute_max (rules : list ring) : Z * Z :=
  foldl (λ '(mp, mc) l,
      match l with
      | head :: _ =>
          if mp <? cr_priority head then (cr_priority head, 1)
          else if cr_priority head =? mp then (mp, mc + 1)
          else (mp, mc)
      | [] => (mp, mc)
      end) (0, 0) rules.

Definition update_tables_after_removal (cls : classifier) (a : nat) (del_priority : Z)
    : option classifier :=
  t ← cl_heap cls !! a;
  if del_priority =? ct_max_priority t then
    if ct_max_count t - 1 =? 0 then
      let '(mp, mc) := recompute_max (hmap_for_each (ct_rules t)) in
      move_later (set_table cls a (set_max t mp mc)) a
    else Some (set_table cls a (set_max t (ct_max_priority t) (ct_max_count t - 1)))
  else Some cls.

Definition find_match (t : cls_table) (f : flow) : option cls_rule :=
  let hash := flow_hash_in_minimask f (ct_mask t) 0 in
  l ← List.find (λ l, match l with
                      | head :: _ =>
                          miniflow_equal_flow_in_minimask (mm_flow (cr_match head)) f (ct_mask t)
                      | [] => false
                      end) (hmap_for_each_with_hash (ct_rules t) hash);
  head l.

(** The ring whose head has flow [f]. *)
Definition find_equal (t : cls_table) (f : miniflow) (hash : Z) : option ring :=
  List.find (λ l, match l with
                  | head :: _ => miniflow_equal (mm_flow (cr_match head)) f
                  | [] => false
                  end) (hmap_for_each_with_hash (ct_rules t) hash).

(** Place [new] in a ring: before the first rule visited whose priority it
    reaches, in place of it when the priorities are equal, else at the end. *)
Definition ring_insert (new : cls_rule) (l : ring) : ring * option cls_rule :=
  match List.find (λ '(_, r), cr_priority r <=? cr_priority new) (rules_in_list l) with
  | Some (i, r) =>
      if cr_priority new =? cr_priority r
      then (take i l ++ new :: drop (S i) l, Some r)
      else (take i l ++ new :: drop i l, None)
  | None => (l ++ [new], None)
  end.

(** [insert_rule] up to the label [out]: the rule goes into the table. *)
Definition table_insert_rule (t : cls_table) (new : cls_rule)
    : option (cls_table * option cls_rule) :=
  let with_rules m := ClsTable m (ct_mask t) (ct_n_table_rules t) (ct_max_priority t)
                        (ct_max_count t) in
  let hash := rule_hash new in
  match find_equal t (mm_flow (cr_match new)) hash with
  | None => Some (with_rules (hmap_insert_at (ct_rules t) [new] hash), None)
  | Some l =>
      let '(l', old) := ring_insert new l in
      rules ← hmap_replace (ct_rules t) (λ x, bool_decide (x = l)) hash l';
      Some (with_rules rules, old)
  end.

Definition insert_rule (cls : classifier) (a : nat) (new : cls_rule)
    : option (classifier * option cls_rule) :=
  t ← cl_heap cls !! a;
  '(t', old) ← table_insert_rule t new;
  let cls' := set_table cls a t' in
  match old with
  | Some _ => Some (cls', old)
  | None =>
      cls'' ← update_tables_after_insertion cls' a (cr_priority new);
      Some (cls'', None)
  end.

(** [table->n_table_rules += d; cls->n_rules += d] *)
Definition count_rules (cls : classifier) (a : nat) (d : Z) : option classifier :=
  t ← cl_heap cls !! a;
  let t' := ClsTable (ct_rules t) (ct_mask t) (ct_n_table_rules t + d)
              (ct_max_priority t) (ct_max_count t) in
  Some (Classifier (cl_n_rules cls + d) (cl_tables cls) (cl_tables_priority cls)
          (<[a := t']> (cl_heap cls)) (cl_next cls)).

Definition classifier_replace (cls : classifier) (rule : cls_rule)
    : option (classifier * option cls_rule) :=
  let '(cls, a) := match find_table cls (mm_mask (cr_match rule)) with
                   | Some a => (cls, a)
                   | None => insert_table cls (mm_mask (cr_match rule))
                   end in
  '(cls, old_rule) ← insert_rule cls a rule;
  match old_rule with
  | None => cls ← count_rules cls a 1; Some (cls, None)
  | Some _ => Some (cls, old_rule)
  end.

Definition classifier_insert (cls : classifier) (rule : cls_rule) : option classifier :=
  '(cls, displaced_rule) ← classifier_replace cls rule;
  match displaced_rule with None => Some cls | Some _ => None end.

(** The unlinking half of [classifier_remove]. *)
Definition table_remove_rule (t : cls_table) (rule : cls_rule) : option (hmap ring) :=
  l ← find_equal t (mm_flow (cr_match rule)) (rule_hash rule);
  if negb (ring_head_is rule l) then
    hmap_replace (ct_rules t) (λ x, bool_decide (x = l)) (rule_hash rule)
      (filter (λ r, cr_id r ≠ cr_id rule) l)
  else match l with
       | [_] => hmap_remove (ct_rules t) (λ x, bool_decide (x = l)) (rule_hash rule)
       | _ => hmap_replace (ct_rules t) (λ x, bool_decide (x = l)) (rule_hash rule) (tail l)
       end.

Definition classifier_remove (cls : classifier) (rule : cls_rule) : option classifier :=
  a ← find_table cls (mm_mask (cr_match rule));
  t ← cl_heap cls !! a;
  rules ← table_remove_rule t rule;
  let t' := ClsTable rules (ct_mask t) (ct_n_table_rules t - 1)
              (ct_max_priority t) (ct_max_count t) in
  let cls := set_table cls a t' in
  cls ← (if ct_n_table_rules t' =? 0 then destroy_table cls a
         else update_tables_after_removal cls a (cr_priority rule));
  Some (Classifier (cl_n_rules cls - 1) (cl_tables cls) (cl_tables_priority cls)
          (cl_heap cls) (cl_next cls)).

(** ** Lookup *)

(** [wc] is null when the caller does not want the wildcards. *)
Definition fold_wc (wc : option flow) (mask : minimask) : option flow :=
  match wc with Some wc => Some (flow_wildcards_fold_minimask wc mask) | None => None end.

(** The inner loop of [classifier_lookup], after a first match. *)
Fixpoint lookup_continue (heap : gmap nat cls_table) (f : flow) (best : cls_rule)
    (wc : option flow) (tables : list nat) : cls_rule * option flow :=
  match tables with
  | [] => (best, wc)
  | a :: tables =>
      match heap !! a with
      | None => (best, wc)
      | Some t =>
          if ct_max_priority t <=? cr_priority best then (best, wc)
          else
            let rule := find_match t f in
            let wc := fold_wc wc (ct_mask t) in
            let best := match rule with
                        | Some r => if cr_priority best <? cr_priority r then r else best
                        | None => best
                        end in
            lookup_continue heap f best wc tables
      end
  end.

Fixpoint lookup_first (heap : gmap nat cls_table) (f : flow) (wc : option flow)
    (tables : list nat) : option cls_rule * option flow :=
  match tables with
  | [] => (None, wc)
  | a :: tables =>
      match heap !! a with
      | None => (None, wc)
      | Some t =>
          let rule := find_match t f in
          let wc := fold_wc wc (ct_mask t) in
          match rule with
          | Some best =>
              let '(best, wc) := lookup_continue heap f best wc tables in (Some best, wc)
          | None => lookup_first heap f wc tables
          end
      end
  end.

(** The rule found and the wildcards after folding in every mask consulted. *)
Definition classifier_lookup (cls : classifier) (f : flow) (wc : option flow)
    : option cls_rule * option flow :=
  lookup_first (cl_heap cls) f wc (cl_tables_priority cls).

Definition classifier_find_rule_exactly (cls : classifier) (target : cls_rule)
    : option cls_rule :=
  a ← find_table cls (mm_mask (cr_match target));
  t ← cl_heap cls !! a;
  if ct_max_priority t <? cr_priority target then None
  else
    l ← find_equal t (mm_flow (cr_match target)) (rule_hash target);
    '(_, r) ← List.find (λ '(_, r), cr_priority r <=? cr_priority target) (rules_in_list l);
    if cr_priority target =? cr_priority r then Some r else None.

Definition classifier_find_match_exactly (cls : classifier) (target : match_) (priority : Z)
    : option cls_rule :=
  classifier_find_rule_exactly cls (cls_rule_init 0 target priority).

(** The walk over one ring: stop at a rule of lower priority. *)
Fixpoint ring_overlaps (target : cls_rule) (mask : minimask) (l : list (nat * cls_rule)) : bool :=
  match l with
  | [] => false
  | (_, r) :: l =>
      if cr_priority r <? cr_priority target then false
      else if (cr_priority r =? cr_priority target)
              && miniflow_equal_in_minimask (mm_flow (cr_match target))
                   (mm_flow (cr_match r)) mask
      then true
      else ring_overlaps target mask l
  end.

Fixpoint tables_overlap (heap : gmap nat cls_table) (target : cls_rule) (tables : list nat)
    : bool :=
  match tables with
  | [] => false
  | a :: tables =>
      match heap !! a with
      | None => false
      | Some t =>
          if ct_max_priority t <? cr_priority target then false
          else
            let mask := minimask_combine (mm_mask (cr_match target)) (ct_mask t) in
            existsb (λ l, ring_overlaps target mask (rules_in_list l)) (hmap_for_each (ct_rules t))
            || tables_overlap heap target tables
      end
  end.

Definition classifier_rule_overlaps (cls : classifier) (target : cls_rule) : bool :=
  tables_overlap (cl_heap cls) target (cl_tables_priority cls).

(** ** Iteration *)

Definition rule_matches (r : cls_rule) (target : option cls_rule) : bool :=
  match target with
  | None => true
  | Some tg => miniflow_equal_in_minimask (mm_flow (cr_match r)) (mm_flow (cr_match tg))
                 (mm_mask (cr_match tg))
  end.

(** A scan of a table's rings from a node on, for one whose head matches. *)
Fixpoint scan_rules (fuel : nat) (m : hmap ring) (target : option cls_rule)
    (node : list (hnode ring)) : list (hnode ring) :=
  match fuel, node with
  | S fuel, n :: _ =>
      match hn_data n with
      | head :: _ =>
          if rule_matches head target then node
          else scan_rules fuel m target (hmap_next m node)
      | [] => scan_rules fuel m target (hmap_next m node)
      end
  | _, _ => []
  end.

Definition search_table (t : cls_table) (target : option cls_rule) : list (hnode ring) :=
  if match target with
     | None => true
     | Some tg => negb (minimask_has_extra (ct_mask t) (mm_mask (cr_match tg)))
     end
  then scan_rules (hmap_fuel (ct_rules t)) (ct_rules t) target (hmap_first (ct_rules t))
  else [].

(** A position of the iteration: the node of the current table in the map of
    tables, the node of the current ring in that table, and the index of the
    current rule in the ring. *)
Record cursor_pos := CursorPos {
  cp_table : list (hnode nat); cp_node : list (hnode ring); cp_idx : nat
}.

Definition cls_cursor_init (target : option cls_rule) : option cls_rule :=
  match target with
  | Some tg => if cls_rule_is_catchall tg then None else Some tg
  | None => None
  end.

(** A scan of the tables from a node on, for one with a matching rule. *)
Fixpoint scan_tables (fuel : nat) (cls : classifier) (target : option cls_rule)
    (node : list (hnode nat)) : option cursor_pos :=
  match fuel, node with
  | S fuel, n :: _ =>
      match cl_heap cls !! hn_data n with
      | None => None
      | Some t =>
          match search_table t target with
          | [] => scan_tables fuel cls target (hmap_next (cl_tables cls) node)
          | rule => Some (CursorPos node rule 0)
          end
      end
  | _, _ => None
  end.

Definition cls_cursor_first (cls : classifier) (target : option cls_rule) : option cursor_pos :=
  scan_tables (hmap_fuel (cl_tables cls)) cls target (hmap_first (cl_tables cls)).

Definition cursor_rule (p : cursor_pos) : option cls_rule :=
  match cp_node p with n :: _ => hn_data n !! cp_idx p | [] => None end.

Definition cls_cursor_next (cls : classifier) (target : option cls_rule) (p : cursor_pos)
    : option cursor_pos :=
  match cp_table p, cp_node p with
  | tn :: _, n :: _ =>
      match next_rule_in_list (hn_data n) (cp_idx p) with
      | Some i => Some (CursorPos (cp_table p) (cp_node p) i)
      | None =>
          t ← cl_heap cls !! hn_data tn;
          let m := ct_rules t in
          match scan_rules (hmap_fuel m) m target (hmap_next m (cp_node p)) with
          | [] => scan_tables (hmap_fuel (cl_tables cls)) cls target
                    (hmap_next (cl_tables cls) (cp_table p))
          | rule => Some (CursorPos (cp_table p) rule 0)
          end
      end
  | _, _ => None
  end.
