(* ===== verification/ClassifierTable.v ===== *)
(** * Rings and tables of the classifier

    The invariant of one table (sorted rings, one ring per flow, hashes) and
    the effect of inserting, removing and looking up a rule in it. *)
From S2P Require Import Prelude Util Hash Hmap Flow Classifier.

(** ** Well-formed matches and rules *)

(** A 1-bit in the flow is a 1-bit in the mask (struct minimatch). *)
Record minimatch_ok (m : minimatch) : Prop := {
  mmo_flow : miniflow_wf (mm_flow m);
  mmo_mask : miniflow_wf (mm_mask m);
  mmo_zero : ∀ o, 0 ≤ o < 54 →
    Z.land (miniflow_get (mm_flow m) o) (miniflow_get (mm_mask m) o) = miniflow_get (mm_flow m) o
}.

Definition rule_ok (r : cls_rule) : Prop := minimatch_ok (cr_match r) ∧ is_u32 (cr_priority r).

(** What it means for a rule to match a packet's flow. *)
Definition rule_match (r : cls_rule) (f : flow) : Prop :=
  agree (miniflow_get (mm_mask (cr_match r))) (miniflow_get (mm_flow (cr_match r))) (flow_u32 f).

Definition same_key (a b : cls_rule) : Prop :=
  cr_match a = cr_match b ∧ cr_priority a = cr_priority b.

Lemma minimatch_eq a b : mm_flow a = mm_flow b → mm_mask a = mm_mask b → a = b.
Proof. destruct a, b; simpl. by intros -> ->. Qed.

Lemma minimatch_equal_spec a b :
  minimatch_ok a → minimatch_ok b → minimatch_equal a b = bool_decide (a = b).
Proof.
  intros [Ha Hma _] [Hb Hmb _]. unfold minimatch_equal, minimask_equal.
  rewrite !miniflow_equal_spec by done. destruct a, b; simpl in *.
  repeat case_bool_decide; naive_solver.
Qed.

Lemma cls_rule_equal_spec a b :
  rule_ok a → rule_ok b → cls_rule_equal a b = true ↔ same_key a b.
Proof.
  intros [Ha _] [Hb _]. unfold cls_rule_equal, same_key.
  rewrite andb_true_iff, Z.eqb_eq, minimatch_equal_spec, bool_decide_eq_true by done. tauto.
Qed.

(** Two rules with one mask whose flows agree under it are for one flow. *)
Lemma agree_same_flow a b :
  minimatch_ok a → minimatch_ok b → mm_mask a = mm_mask b →
  agree (miniflow_get (mm_mask a)) (miniflow_get (mm_flow a)) (miniflow_get (mm_flow b)) →
  mm_flow a = mm_flow b.
Proof.
  intros Ha Hb Hm Hag. apply miniflow_ext; [apply Ha|apply Hb|].
  intros o Ho. rewrite <- (mmo_zero a Ha o Ho), <- (mmo_zero b Hb o Ho), <- Hm. by apply Hag.
Qed.

(** ** Sorted rings *)

Lemma ssorted_sublist {A} (R : A → A → Prop) l k :
  sublist l k → StronglySorted R k → StronglySorted R l.
Proof.
  induction 1 as [|x l k Hs IH|x l k Hs IH]; [done| |]; rewrite StronglySorted_cons;
    intros [F H]; [|by apply IH].
  constructor; [by apply IH|]. rewrite Forall_forall in F |- *. intros y Hy.
  apply F. by apply (sublist_subseteq _ _ Hs).
Qed.

Notation higher := (λ a b : cls_rule, cr_priority b < cr_priority a).

Definition ring_sorted (l : ring) : Prop := StronglySorted higher l.

Lemma ring_sorted_lookup l i j a b :
  ring_sorted l → (i < j)%nat → l !! i = Some a → l !! j = Some b → cr_priority b < cr_priority a.
Proof.
  intros Hs Hij Ha Hb. rewrite <- (take_drop_middle _ _ _ Ha) in Hs.
  apply StronglySorted_app in Hs as (_ & _ & Hs). apply StronglySorted_inv in Hs as [_ Hf].
  apply (proj1 (Forall_forall _ _) Hf).
  apply (list_elem_of_lookup_2 _ (j - S i)). rewrite lookup_drop. rewrite <- Hb. f_equal. lia.
Qed.

Lemma for_each_rule_sorted fuel l i :
  ring_sorted l → (length l ≤ fuel + i)%nat →
  for_each_rule fuel l i = imap (λ k r, ((i + k)%nat, r)) (drop i l).
Proof.
  revert i. induction fuel as [|fuel IH]; intros i Hs Hf; simpl.
  { rewrite drop_ge by lia. done. }
  destruct (l !! i) as [r|] eqn:Hi.
  2:{ apply lookup_ge_None in Hi. by rewrite drop_ge. }
  rewrite (drop_S _ _ _ Hi). simpl. rewrite Nat.add_0_r. f_equal.
  assert (Hrest : imap ((λ k r0, ((i + k)%nat, r0)) ∘ S) (drop (S i) l) =
                  imap (λ k r0, ((S i + k)%nat, r0)) (drop (S i) l)).
  { apply imap_ext. intros k x _. simpl. by rewrite Nat.add_succ_r. }
  rewrite Hrest. unfold next_rule_in_list, next_rule_in_list__.
  destruct (decide (S i < length l)%nat) as [Hlt|Hge].
  - destruct (lookup_lt_is_Some_2 _ _ Hlt) as [n Hn]. rewrite Hn, Hi.
    rewrite (proj2 (Z.ltb_lt _ _)) by (by apply (ring_sorted_lookup l i (S i) r n); [|lia|..]).
    apply IH; [done|lia].
  - rewrite (drop_ge l (S i)) by lia. simpl. apply lookup_lt_Some in Hi as Hl.
    destruct (lookup_lt_is_Some_2 l 0) as [h Hh]; [lia|]. rewrite Hh, Hi.
    destruct (Z.ltb_spec (cr_priority h) (cr_priority r)); [|done].
    destruct (decide (i = 0%nat)) as [->|]; [simplify_eq; lia|].
    pose proof (ring_sorted_lookup l 0 i h r Hs ltac:(lia) Hh Hi). lia.
Qed.

(** On a sorted ring the walk visits each rule once, in order. *)
Lemma rules_in_list_sorted l : ring_sorted l → rules_in_list l = imap pair l.
Proof.
  intros Hs. unfold rules_in_list. rewrite for_each_rule_sorted by (done || lia). done.
Qed.

Lemma find_imap {A} (f : A → bool) (g : nat → nat) (l : list A) :
  match List.find (λ '(_, r), f r) (imap (λ k r, (g k, r)) l) with
  | Some (i, r) => ∃ k, i = g k ∧ l !! k = Some r ∧ f r = true
                        ∧ Forall (λ x, f x = false) (take k l)
  | None => Forall (λ x, f x = false) l
  end.
Proof.
  revert g. induction l as [|x l IH]; intros g; simpl; [done|].
  destruct (f x) eqn:Hx.
  - exists 0%nat. eauto.
  - specialize (IH (g ∘ S)).
    change (imap ((λ k r, (g k, r)) ∘ S) l) with (imap (λ k r, ((g ∘ S) k, r)) l).
    destruct (List.find _ _) as [[i r]|]; [|by constructor].
    destruct IH as (k & -> & Hk & Hr & Hf). exists (S k). simpl.
    split_and!; [done|done|done|by constructor].
Qed.

Lemma find_rule_sorted l (f : cls_rule → bool) :
  ring_sorted l →
  match List.find (λ '(_, r), f r) (rules_in_list l) with
  | Some (i, r) => l !! i = Some r ∧ f r = true ∧ Forall (λ x, f x = false) (take i l)
  | None => Forall (λ x, f x = false) l
  end.
Proof.
  intros Hs. rewrite rules_in_list_sorted by done.
  pose proof (find_imap f id l) as H. change (λ k r, (id k, r)) with (@pair nat cls_rule) in H.
  destruct (List.find _ _) as [[i r]|]; [|done]. naive_solver.
Qed.

(** [rest] is the ring without the displaced rule, if there is one. *)
Lemma ring_insert_spec new l l' old :
  ring_sorted l → ring_insert new l = (l', old) →
  ring_sorted l' ∧
  match old with
  | Some r => cr_priority r = cr_priority new ∧
              ∃ rest, l ≡ₚ r :: rest ∧ l' ≡ₚ new :: rest
  | None => l' ≡ₚ new :: l ∧ Forall (λ r, cr_priority r ≠ cr_priority new) l
  end.
Proof.
  intros Hs. unfold ring_insert.
  pose proof (find_rule_sorted l (λ r, cr_priority r <=? cr_priority new) Hs) as Hfind.
  destruct (List.find _ _) as [[i r]|]; [destruct Hfind as (Hi & Hr & Hpre)|].
  - apply Z.leb_le in Hr. rewrite Forall_forall in Hpre.
    pose proof (take_drop_middle _ _ _ Hi) as El. unfold ring_sorted in *.
    rewrite <- El in Hs. apply StronglySorted_app in Hs as (Hx & Ht & Hd).
    apply StronglySorted_cons in Hd as [Hrd Hd]. rewrite Forall_forall in Hrd.
    assert (Hhi : ∀ x, x ∈ take i l → cr_priority new < cr_priority x)
      by (intros x Hxi; apply Z.leb_gt, Hpre; done).
    case_match eqn:He; intros [= <- <-].
    + apply Z.eqb_eq in He. split; [|split; [done|]].
      * apply StronglySorted_app. split_and!; [|done|].
        -- intros x y Hxi [->|Hy]%elem_of_cons; [by apply Hhi|]. apply Hx; [done|by right].
        -- constructor; [done|]. apply Forall_forall. intros y Hy. specialize (Hrd y Hy). lia.
      * exists (take i l ++ drop (S i) l). rewrite <- El at 1.
        split; by rewrite Permutation_middle.
    + apply Z.eqb_neq in He. rewrite (drop_S _ _ _ Hi). split; [|split].
      * apply StronglySorted_app. split_and!; [|done|].
        -- intros x y Hxi [->|Hy]%elem_of_cons; [by apply Hhi|by apply Hx].
        -- constructor; [by constructor; [|apply Forall_forall]|].
           apply Forall_forall. intros y [->|Hy]%elem_of_cons; [lia|].
           specialize (Hrd y Hy). lia.
      * by rewrite <- Permutation_middle, El.
      * rewrite <- El. apply Forall_app. split; [|constructor]; try apply Forall_forall; try lia.
        -- intros x Hxi. specialize (Hhi x Hxi). lia.
        -- intros x Hxi. specialize (Hrd x Hxi). lia.
  - intros [= <- <-]. rewrite Forall_forall in Hfind.
    assert (Hlo : ∀ x, x ∈ l → cr_priority new < cr_priority x)
      by (intros x Hxi; apply Z.leb_gt, Hfind; done).
    split; [|split].
    + apply StronglySorted_app. split_and!; [|done|by repeat constructor].
      intros x y Hx ->%list_elem_of_singleton. by apply Hlo.
    + by rewrite Permutation_app_comm.
    + apply Forall_forall. intros x Hx. specialize (Hlo x Hx). lia.
Qed.

(** ** The invariant of a table *)

Definition rule_flow (r : cls_rule) : miniflow := mm_flow (cr_match r).
Definition ring_flow (l : ring) : option miniflow := rule_flow <$> head l.

(** A node: a nonempty sorted ring of rules with the table's mask, one flow
    and the node's hash. *)
Record node_ok (mask : minimask) (n : hnode ring) : Prop := {
  no_sorted : ring_sorted (hn_data n);
  no_nonempty : hn_data n ≠ [];
  no_rules : ∀ r, r ∈ hn_data n → rule_ok r ∧ mm_mask (cr_match r) = mask
                    ∧ rule_hash r = hn_hash n ∧ ring_flow (hn_data n) = Some (rule_flow r)
}.

Definition nodes_ok (mask : minimask) (ns : list (hnode ring)) : Prop :=
  Forall (node_ok mask) ns ∧ NoDup (ring_flow ∘ hn_data <$> ns).

#[global] Instance nodes_ok_proper mask : Proper (Permutation ==> iff) (nodes_ok mask).
Proof. intros ns ns' Hp. unfold nodes_ok. by rewrite Hp. Qed.

Definition nodes_rules (ns : list (hnode ring)) : list cls_rule := concat (hn_data <$> ns).

#[global] Instance nodes_rules_proper : Proper (Permutation ==> Permutation) nodes_rules.
Proof.
  intros ns ns' Hp. unfold nodes_rules. induction Hp; simpl; try done.
  - by f_equiv.
  - by rewrite !(assoc_L (++)), (Permutation_app_comm (hn_data y)).
  - by etransitivity.
Qed.

Lemma elem_of_nodes_rules ns r : r ∈ nodes_rules ns ↔ ∃ n, n ∈ ns ∧ r ∈ hn_data n.
Proof.
  unfold nodes_rules. rewrite list_elem_of_In, in_concat.
  setoid_rewrite <- list_elem_of_In. setoid_rewrite list_elem_of_fmap. naive_solver.
Qed.

Definition table_rules (t : cls_table) : list cls_rule := nodes_rules (hnodes (ct_rules t)).

Record table_links (t : cls_table) : Prop := {
  tl_map : hmap_wf (ct_rules t);
  tl_mask : miniflow_wf (ct_mask t);
  tl_nodes : nodes_ok (ct_mask t) (hnodes (ct_rules t))
}.

Lemma node_ring_flow mask n r :
  node_ok mask n → r ∈ hn_data n → ring_flow (hn_data n) = Some (rule_flow r).
Proof. intros Hn Hr. by apply (no_rules _ _ Hn). Qed.

Lemma table_rule_ok t r :
  table_links t → r ∈ table_rules t →
  rule_ok r ∧ mm_mask (cr_match r) = ct_mask t.
Proof.
  intros Ht (n & Hn & Hr)%elem_of_nodes_rules.
  destruct (tl_nodes t Ht) as [Hok _]. rewrite Forall_forall in Hok.
  destruct (no_rules _ _ (Hok n Hn) r Hr) as (? & ? & _). done.
Qed.

Lemma nodes_same_flow mask ns n n' :
  nodes_ok mask ns → n ∈ ns → n' ∈ ns → ring_flow (hn_data n) = ring_flow (hn_data n') → n = n'.
Proof.
  intros [_ Hnd] (i & Hi)%list_elem_of_lookup (j & Hj)%list_elem_of_lookup He.
  assert (i = j) as ->; [|naive_solver].
  eapply NoDup_lookup; [exact Hnd| |]; rewrite list_lookup_fmap.
  - by rewrite Hi.
  - rewrite Hj. simpl. by rewrite He.
Qed.

Lemma elem_of_with_hash t l h :
  table_links t →
  l ∈ hmap_for_each_with_hash (ct_rules t) h ↔
  ∃ n, n ∈ hnodes (ct_rules t) ∧ hn_hash n = h ∧ hn_data n = l.
Proof.
  intros Ht. rewrite hmap_for_each_with_hash_nodes by apply Ht.
  rewrite list_elem_of_fmap. setoid_rewrite list_elem_of_filter. naive_solver.
Qed.

(** [find_equal] finds the ring of the rules with a given flow. *)
Lemma find_equal_spec t r :
  table_links t → rule_ok r → mm_mask (cr_match r) = ct_mask t →
  match find_equal t (rule_flow r) (rule_hash r) with
  | Some l => ∃ n, n ∈ hnodes (ct_rules t) ∧ hn_data n = l ∧ hn_hash n = rule_hash r
                   ∧ ring_flow l = Some (rule_flow r)
  | None => ∀ n, n ∈ hnodes (ct_rules t) → ring_flow (hn_data n) ≠ Some (rule_flow r)
  end.
Proof.
  intros Ht Hr Hm. destruct (tl_nodes t Ht) as [Hok _]. rewrite Forall_forall in Hok.
  unfold find_equal. destruct (List.find _ _) as [l|] eqn:Hf.
  - apply find_Some_elem in Hf as [(n & Hn & Hh & <-)%elem_of_with_hash Hl]; [|done].
    exists n. split_and!; [done..|]. destruct (hn_data n) as [|h l] eqn:E; [done|].
    destruct (no_rules _ _ (Hok n Hn) h) as ((Hho & _) & _); [rewrite E; by left|].
    rewrite miniflow_equal_spec, bool_decide_eq_true in Hl by (apply Hho || apply Hr).
    change (Some (rule_flow h) = Some (rule_flow r)). by apply (f_equal Some).
  - intros n Hn He. specialize (Hok n Hn).
    destruct (hn_data n) as [|h l] eqn:E; [by apply (no_nonempty _ _ Hok)|].
    destruct (no_rules _ _ Hok h) as ((Hho & _) & Hmh & Hhash & _); [rewrite E; by left|].
    assert (Hfl : mm_flow (cr_match h) = mm_flow (cr_match r)) by (by injection He).
    apply find_None_elem with (x := h :: l) in Hf.
    + rewrite miniflow_equal_spec, bool_decide_eq_false in Hf by (apply Hho || apply Hr). done.
    + apply elem_of_with_hash; [done|]. exists n. split_and!; [done| |done].
      rewrite <- Hhash. unfold rule_hash. by rewrite Hfl, Hmh, Hm.
Qed.

(** ** Inserting and removing a rule *)

Definition with_rules (t : cls_table) (m : hmap ring) : cls_table :=
  ClsTable m (ct_mask t) (ct_n_table_rules t) (ct_max_priority t) (ct_max_count t).

Lemma node_ok_intro mask h (l : ring) f :
  ring_sorted l → l ≠ [] →
  (∀ r, r ∈ l → rule_ok r ∧ mm_mask (cr_match r) = mask ∧ rule_hash r = h ∧ rule_flow r = f) →
  node_ok mask (HNode h l) ∧ ring_flow l = Some f.
Proof.
  intros Hs Hne Hr.
  assert (Hf : ring_flow l = Some f).
  { destruct l as [|x l]; [done|]. destruct (Hr x) as (_ & _ & _ & <-); [by left|done]. }
  split; [|done]. split; [done..|]. simpl. intros r Hin.
  destruct (Hr r Hin) as (? & ? & ? & <-). done.
Qed.

Lemma replace_ring t n (l' : ring) :
  table_links t → n ∈ hnodes (ct_rules t) →
  node_ok (ct_mask t) (HNode (hn_hash n) l') → ring_flow l' = ring_flow (hn_data n) →
  ∃ m' rest,
    hmap_replace (ct_rules t) (λ x, bool_decide (x = hn_data n)) (hn_hash n) l' = Some m'
    ∧ table_links (with_rules t m')
    ∧ table_rules t ≡ₚ hn_data n ++ rest ∧ nodes_rules (hnodes m') ≡ₚ l' ++ rest.
Proof.
  intros Ht Hn Hok Hfl.
  destruct (hmap_replace_is_Some (ct_rules t) (λ x, bool_decide (x = hn_data n)) n l')
    as [m' Hm']; [apply Ht|done|by apply bool_decide_eq_true|].
  destruct (hmap_replace_spec _ _ _ _ _ (tl_map t Ht) Hm')
    as (Hwf & n2 & rest & H2%bool_decide_eq_true & Hb & Hp & Hp').
  assert (n2 = n) as ->.
  { eapply nodes_same_flow; [apply (tl_nodes t Ht)| |done|by rewrite H2].
    by eapply in_bucket_hnodes, Hb; apply Ht. }
  exists m', (nodes_rules rest). split_and!; [done| | |].
  - split; simpl; [done|apply Ht|].
    pose proof (tl_nodes t Ht) as Hns. rewrite Hp in Hns. rewrite Hp'.
    destruct Hns as [[_ HF]%Forall_cons Hnd]. split; [by constructor|].
    simpl in *. by rewrite Hfl.
  - unfold table_rules. by rewrite Hp.
  - by rewrite Hp'.
Qed.

(** The rules of a ring, as seen from a node that holds it. *)
Lemma node_rules t n f :
  table_links t → n ∈ hnodes (ct_rules t) → ring_flow (hn_data n) = Some f →
  ring_sorted (hn_data n) ∧
  ∀ r, r ∈ hn_data n → rule_ok r ∧ mm_mask (cr_match r) = ct_mask t
                       ∧ rule_hash r = hn_hash n ∧ rule_flow r = f.
Proof.
  intros Ht Hn Hf. destruct (tl_nodes t Ht) as [Hok _]. rewrite Forall_forall in Hok.
  specialize (Hok n Hn). split; [apply Hok|]. intros r Hr.
  destruct (no_rules _ _ Hok r Hr) as (? & ? & ? & He). rewrite Hf in He. by simplify_eq.
Qed.

Lemma ring_flow_elem t r f n :
  table_links t → n ∈ hnodes (ct_rules t) → r ∈ hn_data n → rule_flow r = f →
  ring_flow (hn_data n) = Some f.
Proof.
  intros Ht Hn Hr <-. destruct (tl_nodes t Ht) as [Hok _]. rewrite Forall_forall in Hok.
  by apply (node_ring_flow _ _ _ (Hok n Hn)).
Qed.

(** What an insertion does to the rules: [new] replaces the rule with its key,
    if there is one, and is added otherwise. *)
Definition inserted (new : cls_rule) (rs rs' : list cls_rule) (old : option cls_rule) : Prop :=
  match old with
  | Some r => same_key r new ∧ ∃ rest, rs ≡ₚ r :: rest ∧ rs' ≡ₚ new :: rest
  | None => (∀ r, r ∈ rs → ¬ same_key r new) ∧ rs' ≡ₚ new :: rs
  end.

Lemma table_insert_rule_spec t new :
  table_links t → rule_ok new → mm_mask (cr_match new) = ct_mask t →
  ∃ m' old, table_insert_rule t new = Some (with_rules t m', old)
    ∧ table_links (with_rules t m')
    ∧ inserted new (table_rules t) (nodes_rules (hnodes m')) old.
Proof.
  intros Ht Hnew Hmask. unfold table_insert_rule.
  pose proof (find_equal_spec t new Ht Hnew Hmask) as Hfe. unfold rule_flow in Hfe at 1.
  destruct (find_equal _ _ _) as [l|].
  - destruct Hfe as (n & Hn & <- & Hh & Hfl).
    destruct (node_rules t n _ Ht Hn Hfl) as [Hs Hrs].
    destruct (ring_insert new (hn_data n)) as [l' old] eqn:Hri.
    destruct (ring_insert_spec _ _ _ _ Hs Hri) as [Hs' Hold].
    assert (Hin : ∀ r, r ∈ l' → r = new ∨ r ∈ hn_data n).
    { intros r Hr. destruct old as [o|].
      - destruct Hold as (_ & rest & -> & Hl'). rewrite Hl' in Hr. set_solver.
      - destruct Hold as [Hl' _]. rewrite Hl' in Hr. set_solver. }
    assert (Hne : l' ≠ []).
    { intros ->. destruct old; [destruct Hold as (_ & rest & _ & H)|destruct Hold as [H _]];
        by apply Permutation_nil_cons in H. }
    destruct (node_ok_intro (ct_mask t) (hn_hash n) l' (rule_flow new) Hs' Hne) as [Hok' Hfl'].
    { intros r [->|Hr]%Hin; [done|by apply Hrs]. }
    destruct (replace_ring t n l' Ht Hn Hok') as (m' & rest & Hm' & Hlinks & Hp & Hp');
      [by rewrite Hfl, Hfl'|].
    exists m', old. rewrite <- Hh, Hm'. split_and!; [done|done|].
    destruct old as [o|]; simpl.
    + destruct Hold as (Hpr & rest' & Hl & Hl').
      destruct (Hrs o) as (_ & Hmo & _ & Hfo); [rewrite Hl; by left|].
      split; [|exists (rest' ++ rest); rewrite Hp, Hp', Hl, Hl'; done].
      split; [|done]. apply minimatch_eq; [done|congruence].
    + destruct Hold as [Hl' Hpr]. split; [|rewrite Hp, Hp', Hl'; done].
      intros r (n2 & Hn2 & Hr)%elem_of_nodes_rules [Hkm Hkp].
      assert (n2 = n) as ->.
      { eapply nodes_same_flow; [apply (tl_nodes t Ht)|done|done|]. rewrite Hfl.
        eapply ring_flow_elem; [exact Ht|eassumption..|]. unfold rule_flow. by rewrite Hkm. }
      rewrite Forall_forall in Hpr. by apply (Hpr r Hr).
  - destruct (hmap_insert_spec (ct_rules t) [new] (rule_hash new) (tl_map t Ht)) as [Hwf Hp].
    eexists _, None. split_and!; [done| |split].
    + split; simpl; [done|apply Ht|]. rewrite Hp. destruct (tl_nodes t Ht) as [Hok Hnd].
      destruct (node_ok_intro (ct_mask t) (rule_hash new) [new] (rule_flow new)) as [Hok' Hfl'];
        [by repeat constructor|done|by intros r ->%list_elem_of_singleton|].
      split; [by constructor|]. simpl. constructor; [|done].
      intros (n & He & Hn)%list_elem_of_fmap. apply (Hfe n Hn). simpl in He. by rewrite <- He.
    + intros r (n & Hn & Hr)%elem_of_nodes_rules [Hkm _]. apply (Hfe n Hn).
      eapply ring_flow_elem; [exact Ht|eassumption..|]. unfold rule_flow. by rewrite Hkm.
    + by rewrite Hp.
Qed.

Lemma remove_by_id (l : ring) r :
  r ∈ l → NoDup (cr_id <$> l) → l ≡ₚ r :: filter (λ x, cr_id x ≠ cr_id r) l.
Proof.
  intros (pre & post & ->)%list_elem_of_split Hnd.
  rewrite fmap_app, fmap_cons in Hnd. apply NoDup_app in Hnd as (_ & Hd & Hnd).
  apply NoDup_cons in Hnd as [Hd' _].
  rewrite filter_app, filter_cons_False by (intros H; by apply H).
  rewrite !filter_all_in; [by rewrite Permutation_middle| |].
  - intros x Hx He. apply Hd'. rewrite <- He. by apply list_elem_of_fmap_2.
  - intros x Hx He.
    apply (Hd (cr_id x)); [by apply list_elem_of_fmap_2|]. rewrite He. by left.
Qed.

Lemma table_remove_rule_spec t r :
  table_links t → r ∈ table_rules t → NoDup (cr_id <$> table_rules t) →
  ∃ m', table_remove_rule t r = Some m'
    ∧ table_links (with_rules t m')
    ∧ table_rules t ≡ₚ r :: nodes_rules (hnodes m').
Proof.
  intros Ht Hr Hnd. destruct (table_rule_ok t r Ht Hr) as [Hok Hmask].
  pose proof Hr as (n & Hn & Hrn)%elem_of_nodes_rules.
  assert (Hfl : ring_flow (hn_data n) = Some (rule_flow r)) by (by eapply ring_flow_elem).
  destruct (node_rules t n _ Ht Hn Hfl) as [Hs Hrs].
  unfold table_remove_rule. pose proof (find_equal_spec t r Ht Hok Hmask) as Hfe.
  unfold rule_flow in Hfe at 1. destruct (find_equal _ _ _) as [l|]; simpl.
  2:{ by destruct (Hfe n Hn). }
  destruct Hfe as (n2 & Hn2 & <- & Hh & Hfl2).
  assert (n2 = n) as ->.
  { eapply nodes_same_flow; [apply (tl_nodes t Ht)|done|done|by rewrite Hfl]. }
  assert (Hndn : NoDup (cr_id <$> hn_data n)).
  { pose proof Hn as (pre & post & Hpp)%list_elem_of_split. revert Hnd. unfold table_rules.
    rewrite Hpp, <- Permutation_middle. unfold nodes_rules. simpl.
    rewrite fmap_app. by intros (H & _ & _)%NoDup_app. }
  pose proof (remove_by_id _ _ Hrn Hndn) as Hrm. rewrite <- Hh.
  (* A ring without [r] that is not empty replaces the ring. *)
  assert (Hrep : ∀ l' : ring, l' ≠ [] → sublist l' (hn_data n) → hn_data n ≡ₚ r :: l' →
    ∃ m', hmap_replace (ct_rules t) (λ x, bool_decide (x = hn_data n)) (hn_hash n) l' = Some m'
      ∧ table_links (with_rules t m') ∧ table_rules t ≡ₚ r :: nodes_rules (hnodes m')).
  { intros l' Hne Hsub Hp.
    destruct (node_ok_intro (ct_mask t) (hn_hash n) l' (rule_flow r)) as [Hok' Hfl'];
      [by eapply ssorted_sublist|done| |].
    { intros x Hx. apply Hrs. by apply (sublist_subseteq _ _ Hsub). }
    destruct (replace_ring t n l' Ht Hn Hok') as (m' & rest & Hm' & Hl & Hq & Hq');
      [by rewrite Hfl, Hfl'|].
    exists m'. split_and!; [done..|]. by rewrite Hq, Hq', Hp. }
  destruct (hn_data n) as [|h l] eqn:E; [by apply not_elem_of_nil in Hrn|].
  unfold ring_head_is. case_bool_decide as Hid; simpl.
  - assert (h = r) as ->.
    { apply elem_of_cons in Hrn as [->|Hrl]; [done|]. exfalso.
      apply NoDup_cons in Hndn as [Hnin _]. apply Hnin. simpl. rewrite Hid.
      by apply list_elem_of_fmap_2. }
    destruct l as [|x l]; [|by apply Hrep; [|constructor|]].
    destruct (hmap_remove_is_Some (ct_rules t) (λ x, bool_decide (x = [r])) n)
      as [m' Hm']; [apply Ht|done|by apply bool_decide_eq_true|].
    destruct (hmap_remove_spec _ _ _ _ (tl_map t Ht) Hm')
      as (Hwf & n3 & H3%bool_decide_eq_true & Hb & Hp).
    exists m'. split_and!; [done| |].
    + split; simpl; [done|apply Ht|]. pose proof (tl_nodes t Ht) as Hns. rewrite Hp in Hns.
      destruct Hns as [[_ ?]%Forall_cons [_ ?]%NoDup_cons]. done.
    + unfold table_rules. rewrite Hp. unfold nodes_rules. simpl. by rewrite H3.
  - apply Hrep; [|apply sublist_filter|done].
    rewrite filter_cons_True by done. done.
Qed.

(** ** Lookup in a table *)

(** [find_match] returns the best rule of the one ring that matches. *)
Lemma find_match_spec t f :
  table_links t →
  match find_match t f with
  | Some r => r ∈ table_rules t ∧ rule_match r f ∧
              ∀ r', r' ∈ table_rules t → rule_match r' f → cr_priority r' ≤ cr_priority r
  | None => ∀ r', r' ∈ table_rules t → ¬ rule_match r' f
  end.
Proof.
  intros Ht. destruct (tl_nodes t Ht) as [Hok Hnd]. rewrite Forall_forall in Hok.
  pose proof (tl_mask t Ht) as Hmw.
  (* A matching rule's ring is visited, and its head matches. *)
  assert (Hvisit : ∀ n r, n ∈ hnodes (ct_rules t) → r ∈ hn_data n → rule_match r f →
    hn_data n ∈ hmap_for_each_with_hash (ct_rules t) (flow_hash_in_minimask f (ct_mask t) 0)).
  { intros n r Hn Hr Hm. destruct (no_rules _ _ (Hok n Hn) r Hr) as (? & Hmr & Hh & _).
    apply elem_of_with_hash; [done|]. exists n. split_and!; [done| |done].
    rewrite <- Hh. unfold rule_hash. unfold rule_match in Hm. rewrite Hmr in *.
    symmetry. by apply hash_in_minimask_agree. }
  unfold find_match. destruct (List.find _ _) as [l|] eqn:Hf; simpl.
  - apply find_Some_elem in Hf as [(n & Hn & Hh & <-)%elem_of_with_hash Hl]; [|done].
    destruct (hn_data n) as [|h l] eqn:E; [done|]. simpl.
    destruct (no_rules _ _ (Hok n Hn) h) as (Hho & Hmh & _ & Hfh); [rewrite E; by left|].
    rewrite E in Hfh.
    apply miniflow_equal_flow_in_minimask_spec in Hl; [|done].
    split_and!.
    + apply elem_of_nodes_rules. exists n. rewrite E. split; [done|by left].
    + unfold rule_match. by rewrite Hmh.
    + intros r (n2 & Hn2 & Hr)%elem_of_nodes_rules Hm.
      destruct (no_rules _ _ (Hok n2 Hn2) r Hr) as (Hro & Hmr & _ & Hfr).
      assert (Hsame : mm_flow (cr_match r) = mm_flow (cr_match h)).
      { apply agree_same_flow; [apply Hro|apply Hho|congruence|].
        unfold rule_match in Hm. rewrite Hmr in *. by rewrite Hl. }
      assert (n2 = n) as ->.
      { eapply nodes_same_flow; [by apply (tl_nodes t Ht)|done|done|].
        rewrite Hfr, E, Hfh. by f_equal. }
      pose proof (no_sorted _ _ (Hok n Hn)) as Hs. rewrite E in Hs, Hr.
      apply StronglySorted_cons in Hs as [HF _]. rewrite Forall_forall in HF.
      apply elem_of_cons in Hr as [->|Hr]; [done|]. specialize (HF r Hr). lia.
  - intros r (n & Hn & Hr)%elem_of_nodes_rules Hm.
    pose proof (Hvisit n r Hn Hr Hm) as Hv.
    destruct (hn_data n) as [|h l] eqn:E; [by apply not_elem_of_nil in Hr|].
    apply find_None_elem with (2 := Hv) in Hf. apply not_true_iff_false in Hf. apply Hf.
    apply miniflow_equal_flow_in_minimask_spec; [done|].
    destruct (no_rules _ _ (Hok n Hn) r) as (Hro & Hmr & _ & Hfr); [by rewrite E|].
    rewrite E in Hfr. injection Hfr as Hfr. unfold rule_flow in Hfr. rewrite Hfr.
    unfold rule_match in Hm. by rewrite Hmr in Hm.
Qed.

Lemma find_match_agree t f g :
  miniflow_wf (ct_mask t) → agree (miniflow_get (ct_mask t)) (flow_u32 f) (flow_u32 g) →
  find_match t f = find_match t g.
Proof.
  intros Hm Ha. unfold find_match. rewrite (flow_hash_in_minimask_agree f g) by done.
  f_equal. apply find_ext.
  intros [|h l]; [done|]. apply eq_bool_prop_intro. rewrite !Is_true_true.
  rewrite !miniflow_equal_flow_in_minimask_spec by done. split; intros H.
  - by rewrite H.
  - rewrite H. by symmetry.
Qed.

(** ** Maximum priorities *)

Definition prio_max (rs : list cls_rule) : Z := foldr (λ r m, Z.max (cr_priority r) m) 0 rs.
Definition prio_count (p : Z) (rs : list cls_rule) : Z :=
  Z.of_nat (length (filter (λ r, cr_priority r = p) rs)).

#[global] Instance prio_max_proper : Proper (Permutation ==> eq) prio_max.
Proof. intros l l'. unfold prio_max. induction 1; simpl; lia. Qed.

#[global] Instance prio_count_proper p : Proper (Permutation ==> eq) (prio_count p).
Proof. intros l l' Hp. unfold prio_count. by rewrite Hp. Qed.

Lemma prio_max_nonneg rs : 0 ≤ prio_max rs.
Proof. induction rs as [|r rs IH]; simpl; lia. Qed.

Lemma prio_max_ge rs r : r ∈ rs → cr_priority r ≤ prio_max rs.
Proof. induction 1 as [|? ? ? ? IH]; simpl; lia. Qed.

Lemma prio_max_attained rs :
  rs ≠ [] → (∀ r, r ∈ rs → rule_ok r) → ∃ r, r ∈ rs ∧ cr_priority r = prio_max rs.
Proof.
  induction rs as [|x rs IH]; intros Hne Hok; [done|]. simpl.
  destruct (Hok x) as [_ [Hx _]]; [by left|]. destruct rs as [|y rs].
  - exists x. split; [by left|]. simpl. lia.
  - destruct IH as (r & Hr & Hp); [done|intros r Hr; apply Hok; by right|].
    destruct (Z.max_spec (cr_priority x) (prio_max (y :: rs))) as [[_ ->]|[_ ->]];
      [exists r; split; [by right|done]|exists x; split; [by left|done]].
Qed.

Lemma prio_count_cons p r rs :
  prio_count p (r :: rs) = (if decide (cr_priority r = p) then 1 else 0) + prio_count p rs.
Proof. unfold prio_count. rewrite filter_cons. destruct (decide _); simpl; lia. Qed.

Lemma prio_count_app p l k : prio_count p (l ++ k) = prio_count p l + prio_count p k.
Proof. unfold prio_count. rewrite filter_app, length_app. lia. Qed.

Lemma prio_count_nonneg p rs : 0 ≤ prio_count p rs.
Proof. unfold prio_count. lia. Qed.

Lemma prio_count_none p rs : (∀ r, r ∈ rs → cr_priority r ≠ p) → prio_count p rs = 0.
Proof. intros H. unfold prio_count. by rewrite filter_none_in. Qed.

Lemma prio_count_above p rs : prio_max rs < p → prio_count p rs = 0.
Proof. intros Hp. apply prio_count_none. intros r Hr. apply prio_max_ge in Hr. lia. Qed.

Lemma prio_max_app l k : prio_max (l ++ k) = Z.max (prio_max l) (prio_max k).
Proof.
  induction l as [|r l IH]; simpl; [pose proof (prio_max_nonneg k); lia|]. rewrite IH. lia.
Qed.

(** On a sorted ring the head alone has the maximum. *)
Lemma ring_max h l :
  0 ≤ cr_priority h → ring_sorted (h :: l) →
  prio_max (h :: l) = cr_priority h ∧
  ∀ p, cr_priority h ≤ p → prio_count p (h :: l) = (if decide (cr_priority h = p) then 1 else 0).
Proof.
  intros Hp [HF Hs]%StronglySorted_cons. rewrite Forall_forall in HF. split.
  - simpl. assert (prio_max l ≤ cr_priority h); [|lia].
    clear Hs. induction l as [|x l IH]; simpl; [lia|].
    pose proof (HF x ltac:(by left)). pose proof (IH (λ y Hy, HF y ltac:(by right))). lia.
  - intros p Hle. rewrite prio_count_cons, prio_count_none; [lia|].
    intros r Hr. specialize (HF r Hr). lia.
Qed.

(** The loop over the heads computes the maximum and how many rules have it. *)
Lemma recompute_max_spec (ls : list ring) :
  Forall (λ l, l ≠ [] ∧ ring_sorted l ∧ Forall rule_ok l) ls →
  recompute_max ls = (prio_max (concat ls), prio_count (prio_max (concat ls)) (concat ls)).
Proof.
  unfold recompute_max. induction ls as [|l ls IH] using rev_ind; [done|].
  intros [HF Hl]%Forall_app. apply Forall_singleton in Hl as (Hne & Hs & Hok).
  rewrite foldl_app, IH by done. simpl. rewrite concat_app. simpl. rewrite app_nil_r.
  destruct l as [|h l]; [done|]. apply Forall_cons in Hok as [[_ [Hh _]] _].
  destruct (ring_max h l Hh Hs) as [Hmax Hcount].
  rewrite prio_max_app, Hmax. pose proof (prio_max_nonneg (concat ls)).
  destruct (Z.ltb_spec (prio_max (concat ls)) (cr_priority h)).
  - rewrite Z.max_r by lia. f_equal. rewrite prio_count_app, prio_count_above, Hcount by lia.
    by rewrite decide_True.
  - rewrite Z.max_l by lia. rewrite prio_count_app, Hcount by lia.
    destruct (Z.eqb_spec (cr_priority h) (prio_max (concat ls))).
    + by rewrite decide_True.
    + rewrite decide_False by done. f_equal. lia.
Qed.

Lemma recompute_max_table t :
  table_links t →
  recompute_max (hmap_for_each (ct_rules t)) =
  (prio_max (table_rules t), prio_count (prio_max (table_rules t)) (table_rules t)).
Proof.
  intros Ht. rewrite hmap_for_each_nodes by apply Ht. apply recompute_max_spec.
  destruct (tl_nodes t Ht) as [Hok _]. apply Forall_fmap.
  eapply Forall_impl; [done|]. intros n Hn. simpl.
  split_and!; [apply Hn|apply Hn|]. apply Forall_forall. intros r Hr. by apply Hn.
Qed.

(** The counters of a table describe its rules. *)
Record table_wf (t : cls_table) : Prop := {
  tw_links : table_links t;
  tw_n : ct_n_table_rules t = Z.of_nat (length (table_rules t));
  tw_max : ct_max_priority t = prio_max (table_rules t);
  tw_count : ct_max_count t = prio_count (ct_max_priority t) (table_rules t)
}.
