(* ===== verification/ClassifierInv.v ===== *)
(** * The classifier's invariant

    The directory of tables (hash map, priority list and store describe the
    same tables), the order of the priority list, and their preservation by
    the operations that change a classifier. *)
From S2P Require Import Prelude Util Hash Hmap Flow Classifier ClassifierTable.

(** ** The directory of tables *)

Record dir_wf (cls : classifier) : Prop := {
  dw_map : hmap_wf (cl_tables cls);
  dw_perm : hn_data <$> hnodes (cl_tables cls) ≡ₚ cl_tables_priority cls;
  dw_nodup : NoDup (cl_tables_priority cls);
  dw_heap : ∀ a, a ∈ cl_tables_priority cls ↔ is_Some (cl_heap cls !! a);
  dw_hash : ∀ n t, n ∈ hnodes (cl_tables cls) → cl_heap cls !! hn_data n = Some t →
              hn_hash n = minimask_hash (ct_mask t) 0;
  dw_masks : ∀ a b t u, cl_heap cls !! a = Some t → cl_heap cls !! b = Some u →
               ct_mask t = ct_mask u → a = b;
  dw_wf : ∀ a t, cl_heap cls !! a = Some t → miniflow_wf (ct_mask t);
  dw_next : ∀ a, a ∈ cl_tables_priority cls → (a < cl_next cls)%nat
}.

Lemma classifier_init_dir : dir_wf classifier_init.
Proof.
  split; simpl; [apply hmap_init_wf|done|by apply NoDup_nil|..];
    try setoid_rewrite lookup_empty; try done; try set_solver.
Qed.

Lemma set_table_dir cls a t t' :
  dir_wf cls → cl_heap cls !! a = Some t → ct_mask t' = ct_mask t → dir_wf (set_table cls a t').
Proof.
  intros Hd Ht Hm.
  (* Every table of the new store has the mask it had. *)
  assert (Hlk : ∀ b u, <[a := t']> (cl_heap cls) !! b = Some u →
    ∃ u0, cl_heap cls !! b = Some u0 ∧ ct_mask u0 = ct_mask u).
  { intros b u. destruct (decide (b = a)) as [->|Hne].
    - rewrite lookup_insert_eq. intros [= <-]. eauto.
    - rewrite lookup_insert_ne by done. eauto. }
  split; simpl; try apply Hd.
  - intros b. rewrite (dw_heap _ Hd). destruct (decide (b = a)) as [->|Hne].
    + rewrite lookup_insert_eq, Ht. done.
    + by rewrite lookup_insert_ne.
  - intros n u Hn (u0 & H0 & <-)%Hlk. by apply (dw_hash _ Hd).
  - intros b c u v (u0 & H0 & <-)%Hlk (v0 & H1 & <-)%Hlk. by apply (dw_masks _ Hd).
  - intros b u (u0 & H0 & <-)%Hlk. by apply (dw_wf _ Hd b).
Qed.

Lemma set_tables_priority_dir cls l :
  dir_wf cls → l ≡ₚ cl_tables_priority cls → dir_wf (set_tables_priority cls l).
Proof.
  intros Hd Hl. split; simpl; try apply Hd.
  - rewrite Hl. apply Hd.
  - rewrite Hl. apply Hd.
  - intros a. rewrite Hl. apply Hd.
  - intros a. rewrite Hl. apply Hd.
Qed.

Lemma count_rules_dir n cls a t t' :
  dir_wf cls → cl_heap cls !! a = Some t → ct_mask t' = ct_mask t →
  dir_wf (Classifier n (cl_tables cls) (cl_tables_priority cls)
            (<[a := t']> (cl_heap cls)) (cl_next cls)).
Proof. intros Hd Ht Hm. destruct (set_table_dir _ _ _ _ Hd Ht Hm). by split. Qed.

(** A table's node in the hash map. *)
Lemma table_node cls a t :
  dir_wf cls → cl_heap cls !! a = Some t →
  HNode (minimask_hash (ct_mask t) 0) a ∈ hnodes (cl_tables cls).
Proof.
  intros Hd Ht. assert (Ha : a ∈ cl_tables_priority cls) by (apply (dw_heap _ Hd); eauto).
  rewrite <- (dw_perm _ Hd) in Ha. apply list_elem_of_fmap in Ha as (n & -> & Hn).
  rewrite <- (dw_hash _ Hd n t Hn Ht). by destruct n.
Qed.

Lemma table_in_bucket cls a t :
  dir_wf cls → cl_heap cls !! a = Some t →
  a ∈ hn_data <$> hmap_first_in_bucket (cl_tables cls) (minimask_hash (ct_mask t) 0).
Proof.
  intros Hd Ht. generalize (table_node _ _ _ Hd Ht). generalize (minimask_hash (ct_mask t) 0).
  intros h Hn. apply list_elem_of_fmap. exists (HNode h a). split; [done|].
  by apply (hnodes_in_bucket (cl_tables cls) (HNode h a) (dw_map _ Hd)).
Qed.

(** [find_table] finds the table with the given mask, if there is one. *)
Lemma find_table_spec cls mask :
  dir_wf cls → miniflow_wf mask →
  match find_table cls mask with
  | Some a => ∃ t, cl_heap cls !! a = Some t ∧ ct_mask t = mask
  | None => ∀ a t, cl_heap cls !! a = Some t → ct_mask t ≠ mask
  end.
Proof.
  intros Hd Hm. unfold find_table. rewrite hmap_for_each_in_bucket_chain.
  destruct (List.find _ _) as [a|] eqn:Hf.
  - apply find_Some_elem in Hf as [_ Hp]. case_match eqn:Ht; [|done]. eexists; split; [done|].
    unfold minimask_equal in Hp. rewrite miniflow_equal_spec in Hp
      by (done || by eapply dw_wf).
    by apply bool_decide_eq_true in Hp.
  - intros a t Ht <-. pose proof (table_in_bucket _ _ _ Hd Ht) as Hn.
    apply find_None_elem with (2 := Hn) in Hf. rewrite Ht in Hf.
    unfold minimask_equal in Hf. rewrite miniflow_equal_spec in Hf by done.
    by apply bool_decide_eq_false in Hf.
Qed.

(** Tables are found by mask. *)
Lemma find_table_eq cls a t :
  dir_wf cls → cl_heap cls !! a = Some t → find_table cls (ct_mask t) = Some a.
Proof.
  intros Hd Ht. pose proof (find_table_spec cls (ct_mask t) Hd (dw_wf _ Hd _ _ Ht)) as H.
  destruct (find_table _ _) as [b|]; [|by destruct (H a t)].
  destruct H as (u & Hu & Hm). f_equal. by apply (dw_masks _ Hd b a u t).
Qed.

(** A fresh table. *)
Lemma insert_table_dir cls mask :
  dir_wf cls → miniflow_wf mask → (∀ a t, cl_heap cls !! a = Some t → ct_mask t ≠ mask) →
  dir_wf (insert_table cls mask).1 ∧ cl_heap cls !! cl_next cls = None.
Proof.
  intros Hd Hm Hnew. unfold insert_table, minimask_clone. rewrite miniflow_clone_id by done.
  assert (Hfresh : cl_next cls ∉ cl_tables_priority cls)
    by (intros H%(dw_next _ Hd); lia).
  assert (Hnone : cl_heap cls !! cl_next cls = None).
  { apply eq_None_not_Some. by rewrite <- (dw_heap _ Hd). }
  split; [|done].
  destruct (hmap_insert_spec (cl_tables cls) (cl_next cls) (minimask_hash mask 0) (dw_map _ Hd))
    as [Hwf Hp].
  split; simpl.
  - done.
  - rewrite Hp, fmap_cons, (dw_perm _ Hd). simpl. by rewrite Permutation_app_comm.
  - apply NoDup_app. split_and!; [apply Hd| |apply NoDup_singleton]. set_solver.
  - intros a. rewrite elem_of_app, list_elem_of_singleton, (dw_heap _ Hd).
    destruct (decide (a = cl_next cls)) as [->|Hne].
    + rewrite lookup_insert_eq. naive_solver.
    + rewrite lookup_insert_ne by done. naive_solver.
  - intros n t Hn. rewrite Hp in Hn. apply elem_of_cons in Hn as [->|Hn]; simpl.
    + rewrite lookup_insert_eq. by intros [= <-].
    + intros Ht. rewrite lookup_insert_ne in Ht; [by apply (dw_hash _ Hd)|].
      intros He. apply Hfresh. rewrite He, <- (dw_perm _ Hd). by apply list_elem_of_fmap_2.
  - intros a b t u. rewrite !lookup_insert. case_decide; case_decide; subst; try done.
    + intros [= <-] Hu He. by destruct (Hnew b u).
    + intros Ht [= <-] He. by destruct (Hnew a t).
    + intros. by eapply (dw_masks _ Hd).
  - intros a t. rewrite lookup_insert. case_decide; [by intros [= <-]|apply Hd].
  - intros a [Ha%(dw_next _ Hd)|Ha%list_elem_of_singleton]%elem_of_app; lia.
Qed.

Lemma destroy_table_dir cls a t :
  dir_wf cls → cl_heap cls !! a = Some t →
  ∃ tables, destroy_table cls a =
    Some (Classifier (cl_n_rules cls) tables (filter (λ b, b ≠ a) (cl_tables_priority cls))
            (delete a (cl_heap cls)) (cl_next cls))
  ∧ dir_wf (Classifier (cl_n_rules cls) tables (filter (λ b, b ≠ a) (cl_tables_priority cls))
              (delete a (cl_heap cls)) (cl_next cls)).
Proof.
  intros Hd Ht. unfold destroy_table. rewrite Ht. simpl.
  destruct (hmap_remove_data (cl_tables cls) (λ b, bool_decide (b = a)) _ a (dw_map _ Hd)
    (table_node _ _ _ Hd Ht)) as [m' Hm']; [by apply bool_decide_eq_true|].
  rewrite Hm'. simpl. exists m'. split; [done|].
  destruct (hmap_remove_spec _ _ _ _ (dw_map _ Hd) Hm')
    as (Hwf & n & Hn%bool_decide_eq_true & _ & Hp).
  assert (Hin : ∀ n', n' ∈ hnodes m' → n' ∈ hnodes (cl_tables cls))
    by (intros n' H'; rewrite Hp; by right).
  pose proof (dw_perm _ Hd) as Hpp. rewrite Hp, fmap_cons, Hn in Hpp.
  pose proof (dw_nodup _ Hd) as Hnd. rewrite <- Hpp in Hnd. apply NoDup_cons in Hnd as [Hni Hnd].
  split; simpl; try done.
  - rewrite <- Hpp, filter_cons_False by (intros H; by apply H).
    rewrite filter_all_in; [done|]. intros b Hb ->. done.
  - apply NoDup_filter, Hd.
  - intros b. rewrite list_elem_of_filter, (dw_heap _ Hd).
    destruct (decide (b = a)) as [->|Hne].
    + rewrite lookup_delete_eq. split; [naive_solver|]. by intros [].
    + rewrite lookup_delete_ne by done. naive_solver.
  - intros n' u Hn' [_ Hu]%lookup_delete_Some. by apply (dw_hash _ Hd); [apply Hin|].
  - intros b c u v [_ Hu]%lookup_delete_Some [_ Hv]%lookup_delete_Some.
    by apply (dw_masks _ Hd).
  - intros b u [_ Hu]%lookup_delete_Some. by eapply (dw_wf _ Hd).
  - intros b [_ Hb]%list_elem_of_filter. by apply (dw_next _ Hd).
Qed.

(** ** The order of the priority list *)

Definition desc (mx : nat → Z) (l : list nat) : Prop := StronglySorted (λ a b, mx b ≤ mx a) l.

Lemma desc_ext mx mx' l : (∀ b, b ∈ l → mx b = mx' b) → desc mx l → desc mx' l.
Proof.
  unfold desc. induction l as [|a l IH]; intros He; [constructor|]. rewrite !StronglySorted_cons.
  intros [HF Hs]. split; [|by apply IH; [intros b Hb; apply He; right|]].
  rewrite Forall_forall in HF |- *. intros b Hb.
  rewrite <- !He by (by left || by right). by apply HF.
Qed.

Lemma span_spec p l s r :
  span p l = (s, r) →
  l = s ++ r ∧ Forall (λ b, p b = true) s ∧ match r with b :: _ => p b = false | [] => True end.
Proof.
  revert s r. induction l as [|b l IH]; intros s r; simpl.
  - intros [= <- <-]. done.
  - destruct (p b) eqn:Hp.
    + destruct (span p l) as [s' r'] eqn:Hs. intros [= <- <-].
      destruct (IH s' r' eq_refl) as (-> & ? & ?). split_and!; [done|by constructor|done].
    + intros [= <- <-]. done.
Qed.

Lemma split_at_spec a l :
  a ∈ l → ∃ pre post, split_at a l = Some (pre, post) ∧ l = pre ++ a :: post.
Proof.
  induction l as [|b l IH]; intros Ha; [by apply not_elem_of_nil in Ha|]. simpl.
  destruct (decide (b = a)) as [->|Hne]; [by eexists [], l|].
  destruct IH as (pre & post & -> & ->); [set_solver|]. simpl. by eexists (b :: pre), post.
Qed.

Lemma desc_app mx l k :
  desc mx (l ++ k) ↔ (∀ x y, x ∈ l → y ∈ k → mx y ≤ mx x) ∧ desc mx l ∧ desc mx k.
Proof. apply StronglySorted_app. Qed.

Lemma desc_cons mx a l : desc mx (a :: l) ↔ (∀ y, y ∈ l → mx y ≤ mx a) ∧ desc mx l.
Proof. unfold desc. by rewrite StronglySorted_cons, Forall_forall. Qed.

Lemma move_earlier_desc mx a pre post s r :
  span (λ b, mx b <? mx a) (reverse pre) = (s, r) →
  desc mx (pre ++ post) → (∀ b, b ∈ post → mx b ≤ mx a) →
  desc mx (reverse r ++ a :: reverse s ++ post).
Proof.
  intros (Hp & Hs & Hr)%span_spec Hd Hpost. rewrite Forall_forall in Hs.
  assert (Epre : pre = reverse r ++ reverse s) by (by rewrite <- (reverse_involutive pre), Hp, reverse_app).
  rewrite Epre, <- (assoc_L (++)) in Hd. apply desc_app in Hd as (Hx & Hdr & Hds).
  assert (Hge : ∀ x, x ∈ r → mx a ≤ mx x).
  { destruct r as [|h r]; [set_solver|]. apply Z.ltb_ge in Hr. rewrite reverse_cons in Hdr.
    apply desc_app in Hdr as (Hh & _ & _).
    intros x [->|Hxr]%elem_of_cons; [done|].
    assert (mx h ≤ mx x) by (apply Hh; [by apply elem_of_reverse|by left]). lia. }
  apply desc_app. split_and!; [|done|apply desc_cons; split; [|done]].
  - intros x y Hxr [->|Hy]%elem_of_cons; [|by apply Hx].
    apply Hge. by rewrite elem_of_reverse in Hxr.
  - intros y [Hy|Hy]%elem_of_app; [|by apply Hpost]. rewrite elem_of_reverse in Hy.
    apply Hs, Z.ltb_lt in Hy. lia.
Qed.

Lemma move_later_desc mx a pre post s r :
  span (λ b, mx a <? mx b) post = (s, r) →
  desc mx (pre ++ post) → (∀ b, b ∈ pre → mx a ≤ mx b) →
  desc mx (pre ++ s ++ a :: r).
Proof.
  intros (-> & Hs & Hr)%span_spec Hd Hpre. rewrite Forall_forall in Hs.
  apply desc_app in Hd as (Hx & Hdp & Hd). apply desc_app in Hd as (Hsr & Hds & Hdr).
  assert (Hle : ∀ x, x ∈ r → mx x ≤ mx a).
  { destruct r as [|h r]; [set_solver|]. apply Z.ltb_ge in Hr.
    apply desc_cons in Hdr as [Hh _]. intros x [->|Hxr]%elem_of_cons; [done|].
    specialize (Hh x Hxr). lia. }
  apply desc_app. split_and!; [|done|apply desc_app; split_and!; [|done|apply desc_cons; done]].
  - intros x y Hxp [Hy|[->|Hy]%elem_of_cons]%elem_of_app.
    + apply Hx; [done|]. set_solver.
    + by apply Hpre.
    + apply Hx; [done|]. set_solver.
  - intros x y Hxs [->|Hy]%elem_of_cons; [|by apply Hsr].
    apply Hs, Z.ltb_lt in Hxs. lia.
Qed.

Definition prio_sorted (cls : classifier) : Prop := desc (table_max cls) (cl_tables_priority cls).

Lemma table_max_set cls a t b :
  table_max (set_table cls a t) b = if decide (b = a) then ct_max_priority t else table_max cls b.
Proof.
  unfold table_max, set_table. simpl. destruct (decide (b = a)) as [->|Hne].
  - by rewrite lookup_insert_eq.
  - by rewrite lookup_insert_ne.
Qed.

(** Changing a table without changing its maximum keeps the order. *)
Lemma set_table_sorted cls a t t' :
  cl_heap cls !! a = Some t → ct_max_priority t' = ct_max_priority t →
  prio_sorted cls → prio_sorted (set_table cls a t').
Proof.
  intros Ht Hm. apply desc_ext. intros b _. rewrite table_max_set.
  case_decide as Hb; [|done]. subst. unfold table_max. by rewrite Ht.
Qed.

(** The priority list around a table, without it. *)
Lemma desc_without mx a pre post :
  desc mx (pre ++ a :: post) →
  desc mx (pre ++ post) ∧ (∀ b, b ∈ pre → mx a ≤ mx b) ∧ (∀ b, b ∈ post → mx b ≤ mx a).
Proof.
  intros (Hx & Hp & [Ha Hq]%desc_cons)%desc_app. split_and!; [|set_solver|done].
  apply desc_app. set_solver.
Qed.

Lemma nodup_without (a : nat) pre post :
  NoDup (pre ++ a :: post) → (∀ b, b ∈ pre ++ post → b ≠ a).
Proof. rewrite <- Permutation_middle. intros [H _]%NoDup_cons b Hb ->. done. Qed.

Lemma move_earlier_spec cls a t t' :
  dir_wf cls → cl_heap cls !! a = Some t → ct_max_priority t ≤ ct_max_priority t' →
  prio_sorted cls →
  ∃ l, move_earlier (set_table cls a t') a = Some (set_tables_priority (set_table cls a t') l)
    ∧ l ≡ₚ cl_tables_priority cls
    ∧ prio_sorted (set_tables_priority (set_table cls a t') l).
Proof.
  intros Hd Ht Hle Hs. unfold move_earlier. simpl.
  destruct (split_at_spec a (cl_tables_priority cls)) as (pre & post & -> & El);
    [apply (dw_heap _ Hd); eauto|]. simpl.
  destruct (span _ (reverse pre)) as [s r] eqn:Hsp. exists (reverse r ++ a :: reverse s ++ post).
  split; [done|].
  pose proof (span_spec _ _ _ _ Hsp) as (Hp & _ & _). split.
  - rewrite El, <- !Permutation_middle, (assoc_L (++)), <- reverse_app, <- Hp.
    by rewrite reverse_involutive.
  - unfold prio_sorted in *. rewrite El in Hs. destruct (desc_without _ _ _ _ Hs) as (Hs' & _ & Hq).
    pose proof (dw_nodup _ Hd) as Hnd. rewrite El in Hnd.
    pose proof (nodup_without _ _ _ Hnd) as Hne.
    apply (move_earlier_desc (table_max (set_table cls a t')) a pre post s r); [done| |].
    + apply (desc_ext (table_max cls)); [|done]. intros b Hb%Hne.
      by rewrite table_max_set, decide_False.
    + intros b Hb. rewrite !table_max_set, decide_False, decide_True by set_solver.
      specialize (Hq b Hb). unfold table_max in Hq at 2. rewrite Ht in Hq. lia.
Qed.

Lemma move_later_spec cls a t t' :
  dir_wf cls → cl_heap cls !! a = Some t → ct_max_priority t' ≤ ct_max_priority t →
  prio_sorted cls →
  ∃ l, move_later (set_table cls a t') a = Some (set_tables_priority (set_table cls a t') l)
    ∧ l ≡ₚ cl_tables_priority cls
    ∧ prio_sorted (set_tables_priority (set_table cls a t') l).
Proof.
  intros Hd Ht Hle Hs. unfold move_later. simpl.
  destruct (split_at_spec a (cl_tables_priority cls)) as (pre & post & -> & El);
    [apply (dw_heap _ Hd); eauto|]. simpl.
  destruct (span _ post) as [s r] eqn:Hsp. exists (pre ++ s ++ a :: r).
  split; [done|].
  pose proof (span_spec _ _ _ _ Hsp) as (Hp & _ & _). split.
  - rewrite El, Hp. f_equiv. by rewrite Permutation_middle.
  - unfold prio_sorted in *. rewrite El in Hs. destruct (desc_without _ _ _ _ Hs) as (Hs' & Hq & _).
    pose proof (dw_nodup _ Hd) as Hnd. rewrite El in Hnd.
    pose proof (nodup_without _ _ _ Hnd) as Hne.
    apply (move_later_desc (table_max (set_table cls a t')) a pre post s r); [done| |].
    + apply (desc_ext (table_max cls)); [|done]. intros b Hb%Hne.
      by rewrite table_max_set, decide_False.
    + intros b Hb. rewrite !table_max_set, decide_True, decide_False by set_solver.
      specialize (Hq b Hb). unfold table_max in Hq at 1. rewrite Ht in Hq. lia.
Qed.

(** ** Operations *)

Record cls_base (cls : classifier) : Prop := {
  cb_dir : dir_wf cls;
  cb_tables : ∀ a t, cl_heap cls !! a = Some t → table_wf t;
  cb_sorted : prio_sorted cls
}.

Definition heap_rules (heap : gmap nat cls_table) (a : nat) : list cls_rule :=
  from_option table_rules [] (heap !! a).

(** The rules of a classifier. *)
Definition rules_of (cls : classifier) : list cls_rule :=
  concat (heap_rules (cl_heap cls) <$> cl_tables_priority cls).

(** What distinguishes the rules of a classifier. *)
Definition rule_key (r : cls_rule) : minimatch * Z := (cr_match r, cr_priority r).

Lemma same_key_spec a b : same_key a b ↔ rule_key a = rule_key b.
Proof. unfold same_key, rule_key. split; [by intros [-> ->]|by intros [= -> ->]]. Qed.

Record cls_wf (cls : classifier) : Prop := {
  cw_base : cls_base cls;
  cw_nonempty : ∀ a t, cl_heap cls !! a = Some t → table_rules t ≠ [];
  cw_n : cl_n_rules cls = Z.of_nat (length (rules_of cls));
  cw_ids : NoDup (cr_id <$> rules_of cls);
  cw_keys : NoDup (rule_key <$> rules_of cls)
}.

Lemma concat_perm {A} (ls ks : list (list A)) : ls ≡ₚ ks → concat ls ≡ₚ concat ks.
Proof.
  induction 1; simpl; [done|by f_equiv| |by etransitivity].
  by rewrite !(assoc_L (++)), (Permutation_app_comm x).
Qed.

(** The rules of the tables other than [a]. *)
Definition other_rules (heap : gmap nat cls_table) (l : list nat) (a : nat) : list cls_rule :=
  concat (heap_rules heap <$> filter (λ b, b ≠ a) l).

Lemma rules_split heap l k a t :
  NoDup l → a ∈ l → k ≡ₚ l →
  concat (heap_rules (<[a := t]> heap) <$> k) ≡ₚ table_rules t ++ other_rules heap l a.
Proof.
  intros Hnd Ha Hk. rewrite (concat_perm _ _ (fmap_Permutation _ _ _ Hk)). unfold other_rules.
  apply list_elem_of_split in Ha as (pre & post & ->).
  pose proof (nodup_without _ _ _ Hnd) as Hne.
  rewrite (concat_perm _ _ (fmap_Permutation _ _ _ (symmetry (Permutation_middle pre post a)))).
  rewrite filter_app, filter_cons_False by (intros H; by apply H).
  rewrite <- filter_app, filter_all_in, fmap_cons by done. cbn [concat].
  assert (heap_rules (<[a := t]> heap) <$> pre ++ post = heap_rules heap <$> pre ++ post) as ->.
  { apply list_fmap_ext. intros i b Hb%list_elem_of_lookup_2. unfold heap_rules.
    rewrite lookup_insert_ne; [done|]. intros ->. by apply (Hne b). }
  unfold heap_rules at 1. by rewrite lookup_insert_eq.
Qed.

Lemma rules_split_id heap l a t :
  NoDup l → a ∈ l → heap !! a = Some t →
  concat (heap_rules heap <$> l) ≡ₚ table_rules t ++ other_rules heap l a.
Proof. intros Hnd Ha Ht. rewrite <- (insert_id heap a t) at 1 by done. by apply rules_split. Qed.

(** What [insert_rule] and the two updates of the table order leave. *)
Record table_updated (cls cls' : classifier) (a : nat) (t' : cls_table) : Prop := {
  tu_dir : dir_wf cls';
  tu_sorted : prio_sorted cls';
  tu_heap : cl_heap cls' = <[a := t']> (cl_heap cls);
  tu_list : cl_tables_priority cls' ≡ₚ cl_tables_priority cls;
  tu_n : cl_n_rules cls' = cl_n_rules cls
}.

Lemma update_insertion_spec cls a t m' p :
  dir_wf cls → prio_sorted cls → cl_heap cls !! a = Some t →
  0 ≤ p →
  ct_max_priority t = prio_max (table_rules t) →
  ct_max_count t = prio_count (ct_max_priority t) (table_rules t) →
  (∃ r, cr_priority r = p ∧ nodes_rules (hnodes m') ≡ₚ r :: table_rules t) →
  ∃ cls' mp mc,
    update_tables_after_insertion (set_table cls a (with_rules t m')) a p = Some cls'
    ∧ table_updated cls cls' a (set_max (with_rules t m') mp mc)
    ∧ mp = prio_max (nodes_rules (hnodes m'))
    ∧ mc = prio_count mp (nodes_rules (hnodes m')).
Proof.
  intros Hd Hs Ht Hp Hmax Hcnt (r & <- & Hr).
  assert (Hpm : prio_max (nodes_rules (hnodes m')) = Z.max (cr_priority r) (prio_max (table_rules t)))
    by (by rewrite Hr).
  assert (Hpc : ∀ p, prio_count p (nodes_rules (hnodes m')) =
    (if decide (cr_priority r = p) then 1 else 0) + prio_count p (table_rules t))
    by (intros p; by rewrite Hr, prio_count_cons).
  unfold update_tables_after_insertion. simpl. rewrite lookup_insert_eq. simpl.
  pose proof (prio_max_nonneg (table_rules t)).
  destruct (Z.eqb_spec (cr_priority r) (ct_max_priority t)) as [He|Hne]; [|case_match eqn:Hlt].
  - unfold set_table at 1. simpl. rewrite insert_insert_eq.
    eexists _, _, _. split; [done|]. split_and!.
    + split; simpl; [|by apply (set_table_sorted cls a t)|done..].
      by apply (set_table_dir cls a t).
    + lia.
    + rewrite Hpc, decide_True by done. lia.
  - apply Z.ltb_lt in Hlt.
    assert (Hset : ∀ u, set_table (set_table cls a (with_rules t m')) a u = set_table cls a u)
      by (intros u; unfold set_table; simpl; by rewrite insert_insert_eq).
    rewrite Hset.
    destruct (move_earlier_spec cls a t (set_max (with_rules t m') (cr_priority r) 1))
      as (l & -> & Hl & Hls); [done|done|simpl; lia|done|].
    eexists _, _, _. split; [done|]. split_and!.
    + split; simpl; [|done..]. apply set_tables_priority_dir; [|done].
      by apply (set_table_dir cls a t).
    + lia.
    + rewrite Hpc, decide_True, prio_count_above by (done || lia). done.
  - apply Z.ltb_ge in Hlt. eexists _, (ct_max_priority t), (ct_max_count t). split; [done|].
    split_and!.
    + split; simpl; [|by apply (set_table_sorted cls a t)|done..].
      by apply (set_table_dir cls a t).
    + lia.
    + rewrite Hpc, decide_False by done. lia.
Qed.

Lemma update_removal_spec cls a t m' r :
  dir_wf cls → prio_sorted cls → cl_heap cls !! a = Some t →
  ct_max_priority t = prio_max (table_rules t) →
  ct_max_count t = prio_count (ct_max_priority t) (table_rules t) →
  table_links (with_rules t m') → table_rules t ≡ₚ r :: nodes_rules (hnodes m') →
  ∀ n, let t' := ClsTable m' (ct_mask t) n (ct_max_priority t) (ct_max_count t) in
  ∃ cls' mp mc,
    update_tables_after_removal (set_table cls a t') a (cr_priority r) = Some cls'
    ∧ table_updated cls cls' a (set_max t' mp mc)
    ∧ mp = prio_max (nodes_rules (hnodes m'))
    ∧ mc = prio_count mp (nodes_rules (hnodes m')).
Proof.
  intros Hd Hs Ht Hmax Hcnt Hlk Hr n t'. rewrite Hr in Hmax, Hcnt. simpl in Hmax.
  rewrite prio_count_cons in Hcnt.
  pose proof (prio_count_nonneg (ct_max_priority t) (nodes_rules (hnodes m'))).
  assert (Hset : ∀ u, set_table (set_table cls a t') a u = set_table cls a u)
    by (intros u; unfold set_table; simpl; by rewrite insert_insert_eq).
  unfold update_tables_after_removal. simpl. rewrite lookup_insert_eq. simpl.
  destruct (Z.eqb_spec (cr_priority r) (ct_max_priority t)) as [He|Hne].
  - rewrite decide_True in Hcnt by done. destruct (Z.eqb_spec (ct_max_count t - 1) 0) as [H0|H0].
    + pose proof (recompute_max_table (with_rules t m') Hlk) as Hrec. simpl in Hrec.
      rewrite Hrec. rewrite Hset.
      destruct (move_later_spec cls a t
        (set_max t' (prio_max (nodes_rules (hnodes m')))
           (prio_count (prio_max (nodes_rules (hnodes m'))) (nodes_rules (hnodes m')))))
        as (l & Hml & Hl & Hls); [done|done|simpl; lia|done|].
      eexists _, _, _. split; [exact Hml|]. split_and!; [|done..].
      split; simpl; [|done..]. apply set_tables_priority_dir; [|done].
      by apply (set_table_dir cls a t).
    + assert (Hin : ∃ x, x ∈ nodes_rules (hnodes m') ∧ cr_priority x = ct_max_priority t).
      { destruct (filter (λ x, cr_priority x = ct_max_priority t) (nodes_rules (hnodes m')))
          as [|x l] eqn:E.
        - exfalso. unfold prio_count in Hcnt. rewrite E in Hcnt. simpl in Hcnt. lia.
        - exists x. assert (Hx : x ∈ x :: l) by left. rewrite <- E in Hx.
          apply list_elem_of_filter in Hx. tauto. }
      destruct Hin as (x & Hx%prio_max_ge & Hxp).
      eexists _, (ct_max_priority t), (ct_max_count t - 1). split; [by rewrite Hset|].
      split_and!; [|lia|lia].
      split; simpl; [|by apply (set_table_sorted cls a t)|done..].
      by apply (set_table_dir cls a t).
  - rewrite decide_False in Hcnt by done.
    eexists _, (ct_max_priority t), (ct_max_count t). split; [done|]. split_and!; [|lia|lia].
    split; simpl; [|by apply (set_table_sorted cls a t)|done..].
    by apply (set_table_dir cls a t).
Qed.

(** ** Replacing and removing rules *)

Lemma elem_of_rules_of cls r :
  r ∈ rules_of cls ↔
  ∃ a t, a ∈ cl_tables_priority cls ∧ cl_heap cls !! a = Some t ∧ r ∈ table_rules t.
Proof.
  unfold rules_of. rewrite list_elem_of_In, in_concat.
  setoid_rewrite <- list_elem_of_In. setoid_rewrite list_elem_of_fmap. unfold heap_rules. split.
  - intros (x & (a & -> & Ha) & Hr). destruct (cl_heap cls !! a) as [t|] eqn:Ht; [|set_solver].
    eauto.
  - intros (a & t & Ha & Ht & Hr). exists (table_rules t). split; [|done]. exists a.
    by rewrite Ht.
Qed.

Lemma rule_in_table cls r :
  cls_base cls → r ∈ rules_of cls →
  ∃ a t, cl_heap cls !! a = Some t ∧ r ∈ table_rules t ∧ table_wf t
         ∧ rule_ok r ∧ mm_mask (cr_match r) = ct_mask t.
Proof.
  intros Hb (a & t & _ & Ht & Hr)%elem_of_rules_of. pose proof (cb_tables _ Hb _ _ Ht) as Hw.
  destruct (table_rule_ok t r (tw_links _ Hw) Hr). exists a, t. done.
Qed.

Lemma other_rules_mask cls a t r :
  cls_base cls → cl_heap cls !! a = Some t →
  r ∈ other_rules (cl_heap cls) (cl_tables_priority cls) a → mm_mask (cr_match r) ≠ ct_mask t.
Proof.
  intros Hb Ht. unfold other_rules. rewrite list_elem_of_In, in_concat.
  setoid_rewrite <- list_elem_of_In. setoid_rewrite list_elem_of_fmap. unfold heap_rules.
  intros (x & (b & -> & [Hne Hbl]%list_elem_of_filter) & Hr) He.
  destruct (cl_heap cls !! b) as [u|] eqn:Hu; [simpl in Hr|set_solver].
  destruct (table_rule_ok u r (tw_links _ (cb_tables _ Hb _ _ Hu)) Hr) as [_ Hm].
  apply Hne, (dw_masks _ (cb_dir _ Hb) b a u t); [done..|congruence].
Qed.

Lemma inserted_app new rs rs' old A B other :
  inserted new rs rs' old → (∀ r, r ∈ other → ¬ same_key r new) →
  A ≡ₚ rs ++ other → B ≡ₚ rs' ++ other → inserted new A B old.
Proof.
  intros Hi Ho HA HB. destruct old as [o|]; simpl in *.
  - destruct Hi as [Hk (rest & H1 & H2)]. split; [done|]. exists (rest ++ other).
    by rewrite HA, HB, H1, H2.
  - destruct Hi as [Hk H2]. split; [|by rewrite HA, HB, H2].
    intros r Hr. rewrite HA in Hr. apply elem_of_app in Hr as [Hr|Hr]; auto.
Qed.

Lemma inserted_length new rs rs' old :
  inserted new rs rs' old →
  length rs' = (length rs + if old then 0 else 1)%nat.
Proof.
  destruct old as [o|]; simpl.
  - intros [_ (rest & -> & ->)]. simpl. lia.
  - intros [_ ->]. simpl. lia.
Qed.

Lemma inserted_ids new rs rs' old :
  inserted new rs rs' old → NoDup (cr_id <$> rs) → cr_id new ∉ cr_id <$> rs →
  NoDup (cr_id <$> rs').
Proof.
  destruct old as [o|]; simpl.
  - intros [_ (rest & -> & ->)] [_ Hn]%NoDup_cons Hnin. apply NoDup_cons. set_solver.
  - intros [_ ->] Hn Hnin. by apply NoDup_cons.
Qed.

Lemma inserted_keys new rs rs' old :
  inserted new rs rs' old → NoDup (rule_key <$> rs) → NoDup (rule_key <$> rs').
Proof.
  destruct old as [o|]; simpl.
  - intros [Hk%same_key_spec (rest & -> & ->)]. simpl. by rewrite Hk.
  - intros [Hk ->] Hn. apply NoDup_cons. split; [|done].
    intros (r & He & Hr)%list_elem_of_fmap. apply (Hk r Hr). by apply same_key_spec.
Qed.

(** Replacing one table of a classifier. *)
Lemma table_updated_base cls cls' a t t' n :
  cls_base cls → cl_heap cls !! a = Some t → ct_mask t' = ct_mask t →
  table_updated cls cls' a t' →
  table_wf (ClsTable (ct_rules t') (ct_mask t') n (ct_max_priority t') (ct_max_count t')) →
  ∀ N, let c := Classifier N (cl_tables cls') (cl_tables_priority cls')
      (<[a := ClsTable (ct_rules t') (ct_mask t') n (ct_max_priority t') (ct_max_count t')]>
         (cl_heap cls')) (cl_next cls') in
  cls_base c ∧ rules_of cls ≡ₚ table_rules t ++ other_rules (cl_heap cls) (cl_tables_priority cls) a
  ∧ rules_of c ≡ₚ table_rules t' ++ other_rules (cl_heap cls) (cl_tables_priority cls) a
  ∧ (∀ b u, cl_heap c !! b = Some u →
       (b = a ∧ table_rules u = table_rules t') ∨ (b ≠ a ∧ cl_heap cls !! b = Some u)).
Proof.
  intros Hb Ht Hm [Hd' Hs' Hh' Hl' _] Hw N.
  assert (Ha : a ∈ cl_tables_priority cls) by (apply (dw_heap _ (cb_dir _ Hb)); eauto).
  pose proof (dw_nodup _ (cb_dir _ Hb)) as Hnd.
  set (u := ClsTable _ _ _ _ _) in *.
  assert (Hlk : ∀ b v, <[a := u]> (cl_heap cls') !! b = Some v →
                  (b = a ∧ v = u) ∨ (b ≠ a ∧ cl_heap cls !! b = Some v)).
  { intros b v. rewrite Hh', insert_insert_eq, lookup_insert. case_decide; naive_solver. }
  simpl. split_and!.
  - split; simpl.
    + apply (count_rules_dir N cls' a t' u); [done|by rewrite Hh', lookup_insert_eq|done].
    + intros b v [[-> ->]|[_ Hv]]%Hlk; [done|by eapply cb_tables].
    + apply (desc_ext (table_max cls')); [|done]. intros b _. unfold table_max. simpl.
      rewrite Hh', insert_insert_eq, !lookup_insert. case_decide; done.
  - by apply rules_split_id.
  - unfold rules_of. simpl. rewrite Hh', insert_insert_eq.
    by apply (rules_split (cl_heap cls) _ _ a u).
  - intros b v [[-> ->]|?]%Hlk; [by left|by right].
Qed.

Lemma same_key_mask r new : same_key r new → mm_mask (cr_match r) = mm_mask (cr_match new).
Proof. by intros [-> _]. Qed.

Lemma insert_in_table_spec cls a t new :
  cls_base cls → cl_heap cls !! a = Some t → rule_ok new → mm_mask (cr_match new) = ct_mask t →
  ∃ cls1 old cls',
    insert_rule cls a new = Some (cls1, old)
    ∧ match old with None => count_rules cls1 a 1 = Some cls' | Some _ => cls1 = cls' end
    ∧ cls_base cls' ∧ inserted new (rules_of cls) (rules_of cls') old
    ∧ cl_n_rules cls' = cl_n_rules cls + (if old then 0 else 1)
    ∧ (∀ b u, cl_heap cls' !! b = Some u →
         table_rules u ≠ [] ∨ (b ≠ a ∧ cl_heap cls !! b = Some u)).
Proof.
  intros Hb Ht Hok Hm. pose proof (cb_tables _ Hb _ _ Ht) as [Hlk Hn Hmax Hcnt].
  destruct (table_insert_rule_spec t new Hlk Hok Hm) as (m' & old & Hins & Hlk' & Hi).
  unfold insert_rule. rewrite Ht. simpl. rewrite Hins. simpl.
  pose proof (inserted_length _ _ _ _ Hi) as Hlen.
  assert (Hne : nodes_rules (hnodes m') ≠ []).
  { intros E. rewrite E in Hi. destruct old; simpl in Hi;
      [destruct Hi as (_ & rest & _ & H)|destruct Hi as [_ H]]; by apply Permutation_nil_cons in H. }
  (* In both cases the table ends up well formed, with one table replaced. *)
  assert (Hend : ∀ cls1 mp mc N n cls',
    table_updated cls cls1 a (set_max (with_rules t m') mp mc) →
    mp = prio_max (nodes_rules (hnodes m')) → mc = prio_count mp (nodes_rules (hnodes m')) →
    n = Z.of_nat (length (nodes_rules (hnodes m'))) →
    cls' = Classifier N (cl_tables cls1) (cl_tables_priority cls1)
      (<[a := ClsTable m' (ct_mask t) n mp mc]> (cl_heap cls1)) (cl_next cls1) →
    cls_base cls' ∧ inserted new (rules_of cls) (rules_of cls') old
    ∧ ∀ b u, cl_heap cls' !! b = Some u →
         table_rules u ≠ [] ∨ (b ≠ a ∧ cl_heap cls !! b = Some u)).
  { intros cls1 mp mc N n cls' Hu Hmp Hmc Hnn ->.
    destruct (table_updated_base cls cls1 a t (set_max (with_rules t m') mp mc) n
      Hb Ht eq_refl Hu) with (N := N) as (Hb' & Hr & Hr' & Hlook).
    { split; simpl; [|done..]. destruct Hlk'. by split. }
    split_and!; [done| |].
    - eapply inserted_app; [exact Hi| |exact Hr|exact Hr'].
      intros r Hr2 Hk. apply (other_rules_mask cls a t r Hb Ht Hr2). by rewrite (same_key_mask _ _ Hk).
    - intros b u [[_ E]|?]%Hlook; [left; rewrite E; done|by right]. }
  destruct old as [o|].
  - pose proof Hi as [[_ Hkp] (rest & H1 & H2)]. simpl in Hlen.
    assert (Hpm : prio_max (nodes_rules (hnodes m')) = ct_max_priority t)
      by (rewrite Hmax, H1, H2; simpl; lia).
    assert (Hpc : prio_count (ct_max_priority t) (nodes_rules (hnodes m')) = ct_max_count t)
      by (rewrite Hcnt, H1, H2, !prio_count_cons, Hkp; done).
    eexists _, _, _. split; [done|]. split; [done|].
    destruct (Hend (set_table cls a (with_rules t m')) (ct_max_priority t) (ct_max_count t)
      (cl_n_rules cls) (ct_n_table_rules t) (set_table cls a (with_rules t m')))
      as (? & ? & ?); [|done|done|lia| |].
    + split; [| |done..];
        [apply (set_table_dir cls a t)|apply (set_table_sorted cls a t)]; done || apply Hb.
    + unfold set_table. simpl. by rewrite insert_insert_eq.
    + split_and!; [done|done|simpl; lia|done].
  - pose proof Hi as [_ H2]. simpl in Hlen.
    destruct (update_insertion_spec cls a t m' (cr_priority new))
      as (cls1 & mp & mc & Hup & Hu & Hmp & Hmc);
      [apply Hb|apply Hb|done|apply Hok|done|done|by exists new|].
    rewrite Hup. simpl. eexists _, _, _. split; [done|].
    unfold count_rules. rewrite (tu_heap _ _ _ _ Hu), lookup_insert_eq. simpl. split; [done|].
    rewrite <- (tu_heap _ _ _ _ Hu).
    destruct (Hend cls1 mp mc (cl_n_rules cls1 + 1) (ct_n_table_rules t + 1) _ Hu Hmp Hmc
      ltac:(lia) eq_refl) as (HA & HB & HC).
    split; [exact HA|]. split; [exact HB|]. split; [|exact HC].
    simpl. by rewrite (tu_n _ _ _ _ Hu).
Qed.

(** A fresh, empty table changes no rule. *)
Lemma insert_table_base cls mask :
  cls_base cls → miniflow_wf mask → (∀ a t, cl_heap cls !! a = Some t → ct_mask t ≠ mask) →
  let c := (insert_table cls mask).1 in
  cls_base c ∧ rules_of c = rules_of cls ∧ cl_heap cls !! cl_next cls = None
  ∧ cl_heap c = <[cl_next cls := ClsTable hmap_init mask 0 0 0]> (cl_heap cls).
Proof.
  intros Hb Hm Hnew. destruct (insert_table_dir cls mask (cb_dir _ Hb) Hm Hnew) as [Hd Hnone].
  revert Hd. unfold insert_table, minimask_clone. rewrite miniflow_clone_id by done. simpl.
  intros Hd.
  assert (Hold : ∀ b, b ∈ cl_tables_priority cls → b ≠ cl_next cls)
    by (intros b Hbl%(dw_next _ (cb_dir _ Hb)); lia).
  split_and!; [|..|done|done].
  - split; simpl; [done| |].
    + intros a t. rewrite lookup_insert. case_decide; [|apply Hb].
      intros [= <-]. split; [|done..]. split; simpl; [apply hmap_init_wf|done|].
      split; [constructor|]. simpl. constructor.
    + apply desc_app. split_and!; [|apply (desc_ext (table_max cls)); [|apply Hb]|
        apply desc_cons; split; [set_solver|constructor]].
      * intros x y Hx ->%list_elem_of_singleton. unfold table_max. simpl.
        rewrite lookup_insert_eq, lookup_insert_ne by (by apply not_eq_sym, Hold).
        case_match eqn:Hx'; [|done]. rewrite (tw_max _ (cb_tables _ Hb _ _ Hx')).
        apply prio_max_nonneg.
      * intros b Hbl. unfold table_max. simpl. rewrite lookup_insert_ne; [done|].
        by apply not_eq_sym, Hold.
  - unfold rules_of. simpl. rewrite fmap_app, concat_app.
    assert (heap_rules (<[cl_next cls := ClsTable hmap_init mask 0 0 0]> (cl_heap cls)) <$>
              cl_tables_priority cls = heap_rules (cl_heap cls) <$> cl_tables_priority cls) as ->.
    { apply list_fmap_ext. intros i b Hbl%list_elem_of_lookup_2%Hold. unfold heap_rules.
      by rewrite lookup_insert_ne. }
    simpl. unfold heap_rules at 2. rewrite lookup_insert_eq. simpl.
    by rewrite app_nil_r.
Qed.

Lemma classifier_replace_spec cls new :
  cls_wf cls → rule_ok new → cr_id new ∉ cr_id <$> rules_of cls →
  ∃ cls' old, classifier_replace cls new = Some (cls', old)
    ∧ cls_wf cls' ∧ inserted new (rules_of cls) (rules_of cls') old.
Proof.
  intros [Hb Hne Hn Hids Hkeys] Hok Hid. unfold classifier_replace.
  destruct (match find_table _ _ with Some _ => _ | None => _ end) as [c a] eqn:Hc.
  assert (Hc' : ∃ t, cls_base c ∧ rules_of c = rules_of cls ∧ cl_n_rules c = cl_n_rules cls
    ∧ cl_heap c !! a = Some t ∧ mm_mask (cr_match new) = ct_mask t
    ∧ ∀ b u, b ≠ a → cl_heap c !! b = Some u → table_rules u ≠ []).
  { pose proof (mmo_mask _ (proj1 Hok)) as Hmw.
    pose proof (find_table_spec cls _ (cb_dir _ Hb) Hmw) as Hf.
    destruct (find_table _ _) as [a0|]; [injection Hc as <- <-|].
    - destruct Hf as (t & Ht & Hm). exists t. split_and!; [done..|]. intros b u _. apply Hne.
    - destruct (insert_table_base cls _ Hb Hmw Hf) as (Hb' & Hr & Hnone & Hh).
      rewrite Hc in Hb', Hr, Hh. simpl in Hb', Hr, Hh. injection Hc as <- <-.
      eexists. split_and!; [done|done|done|simpl; by rewrite lookup_insert_eq| |].
      + simpl. unfold minimask_clone. by rewrite miniflow_clone_id.
      + intros b u Hba. simpl. rewrite lookup_insert_ne by done. apply Hne. }
  destruct Hc' as (t & Hb' & Hr & Hn' & Ht & Hm & Hne').
  destruct (insert_in_table_spec c a t new Hb' Ht Hok Hm)
    as (c1 & old & c2 & Hins & Hcount & Hb2 & Hi & Hn2 & Hlook).
  rewrite Hr in Hi. exists c2, old. rewrite Hins. simpl. split; [|split].
  - destruct old; [by subst|]. by rewrite Hcount.
  - split; [done| | | |by eapply inserted_keys].
    + intros b u [?|[Hba Hu]]%Hlook; [done|]. by eapply Hne'.
    + rewrite Hn2, Hn', Hn, (inserted_length _ _ _ _ Hi). destruct old; lia.
    + by eapply inserted_ids.
  - done.
Qed.

Lemma classifier_remove_spec cls r :
  cls_wf cls → r ∈ rules_of cls →
  ∃ cls', classifier_remove cls r = Some cls' ∧ cls_wf cls' ∧ rules_of cls ≡ₚ r :: rules_of cls'.
Proof.
  intros [Hb Hne Hn Hids Hkeys] Hr.
  destruct (rule_in_table cls r Hb Hr) as (a & t & Ht & Hrt & [Hlk Htn Hmax Hcnt] & Hok & Hm).
  assert (Ha : a ∈ cl_tables_priority cls) by (apply (dw_heap _ (cb_dir _ Hb)); eauto).
  pose proof (dw_nodup _ (cb_dir _ Hb)) as Hnd.
  pose proof (rules_split_id _ _ _ _ Hnd Ha Ht) as Hsplit.
  assert (Hids' : NoDup (cr_id <$> table_rules t)).
  { unfold rules_of in Hids. rewrite Hsplit, fmap_app in Hids. by apply NoDup_app in Hids as [? _]. }
  destruct (table_remove_rule_spec t r Hlk Hrt Hids') as (m' & Hrm & Hlk' & Hp).
  unfold classifier_remove. rewrite Hm, (find_table_eq _ _ _ (cb_dir _ Hb) Ht). simpl.
  rewrite Ht. simpl. rewrite Hrm. simpl.
  pose proof (Permutation_length Hp) as Hlen. simpl in Hlen.
  set (t' := ClsTable m' (ct_mask t) (ct_n_table_rules t - 1) (ct_max_priority t) (ct_max_count t)).
  (* The rules that remain, in any of the two cases. *)
  assert (Hfin : ∀ c, cls_base c →
    rules_of c ≡ₚ nodes_rules (hnodes m') ++ other_rules (cl_heap cls) (cl_tables_priority cls) a →
    (∀ b u, cl_heap c !! b = Some u → table_rules u ≠ []) →
    cl_n_rules c = cl_n_rules cls - 1 →
    cls_wf c ∧ rules_of cls ≡ₚ r :: rules_of c).
  { intros c Hbc Hrc Hnec Hnc.
    assert (Hp' : rules_of cls ≡ₚ r :: rules_of c) by (unfold rules_of at 1; by rewrite Hsplit, Hp, Hrc).
    split; [|done]. rewrite Hp' in Hids, Hkeys. apply NoDup_cons in Hids as [_ ?].
    apply NoDup_cons in Hkeys as [_ ?]. split; [done|done| |done|done].
    rewrite Hnc, Hn, Hp'. simpl. lia. }
  destruct (Z.eqb_spec (ct_n_table_rules t - 1) 0) as [H0|H0].
  - assert (Hnil : nodes_rules (hnodes m') = []) by (apply nil_length_inv; lia).
    destruct (destroy_table_dir (set_table cls a t') a t') as (tables & Hde & Hd');
      [by apply (set_table_dir cls a t); [apply Hb|..]|simpl; by rewrite lookup_insert_eq|].
    rewrite Hde. simpl in *. rewrite delete_insert_eq in *. eexists. split; [done|].
    apply Hfin; simpl.
    + split; simpl.
      * destruct Hd'. by split.
      * intros b u [_ Hu]%lookup_delete_Some. by eapply cb_tables.
      * apply (desc_ext (table_max cls)).
        -- intros b [Hba _]%list_elem_of_filter. unfold table_max. simpl.
           by rewrite lookup_delete_ne.
        -- eapply ssorted_sublist; [apply sublist_filter|apply Hb].
    + rewrite Hnil. unfold rules_of, other_rules. simpl.
      assert (heap_rules (delete a (cl_heap cls)) <$> filter (λ b, b ≠ a) (cl_tables_priority cls)
        = heap_rules (cl_heap cls) <$> filter (λ b, b ≠ a) (cl_tables_priority cls)) as ->; [|done].
      apply list_fmap_ext. intros i b [Hba _]%list_elem_of_lookup_2%list_elem_of_filter.
      unfold heap_rules. by rewrite lookup_delete_ne.
    + intros b u [_ Hu]%lookup_delete_Some. by eapply Hne.
    + done.
  - destruct (update_removal_spec cls a t m' r (cb_dir _ Hb) (cb_sorted _ Hb) Ht Hmax Hcnt Hlk' Hp
      (ct_n_table_rules t - 1)) as (c & mp & mc & Hup & Hu & Hmp & Hmc).
    fold t' in Hup, Hu. rewrite Hup. simpl. eexists. split; [done|].
    destruct (table_updated_base cls c a t (set_max t' mp mc) (ct_n_table_rules t - 1) Hb Ht
      eq_refl Hu) with (N := cl_n_rules c - 1) as (Hb' & _ & Hr' & Hlook).
    { split; simpl; [|cbn; unfold table_rules; simpl; lia|done|done]. destruct Hlk'. by split. }
    assert (E : <[a := ClsTable m' (ct_mask t) (ct_n_table_rules t - 1) mp mc]> (cl_heap c)
                = cl_heap c) by (rewrite (tu_heap _ _ _ _ Hu); by rewrite insert_insert_eq).
    simpl in Hb', Hr', Hlook. rewrite E in Hb', Hr', Hlook.
    apply Hfin; [exact Hb'|exact Hr'| |simpl; by rewrite (tu_n _ _ _ _ Hu)].
    intros b u [[_ Eu]|[_ Hu']]%Hlook; [|by eapply Hne].
    rewrite Eu. unfold table_rules. simpl. intros Hnil. rewrite Hnil in Hlen. simpl in Hlen. lia.
Qed.

Lemma classifier_init_wf : cls_wf classifier_init ∧ rules_of classifier_init = [].
Proof.
  split; [|done]. split; [|by intros ? ? H|done|constructor|constructor].
  split; [apply classifier_init_dir|by intros ? ? H|constructor].
Qed.
