(* ===== verification/ClassifierSpec.v ===== *)
(** * What the classifier promises

    A classifier implements a finite map from keys (match and priority) to
    rules; a lookup finds the best rule of that map for a packet and reports
    every bit it depended on. *)
From S2P Require Import Prelude Util Hash Hmap Flow Classifier ClassifierTable ClassifierInv.

(** ** The abstract map *)

Definition rules_map (rs : list cls_rule) : gmap (minimatch * Z) cls_rule :=
  list_to_map ((λ r, (rule_key r, r)) <$> rs).

Definition cls_map (cls : classifier) : gmap (minimatch * Z) cls_rule := rules_map (rules_of cls).

Lemma rules_map_keys rs : ((λ r, (rule_key r, r)) <$> rs).*1 = rule_key <$> rs.
Proof. rewrite <- list_fmap_compose. by apply list_fmap_ext. Qed.

Lemma rules_map_perm rs rs' :
  NoDup (rule_key <$> rs) → rs ≡ₚ rs' → rules_map rs = rules_map rs'.
Proof.
  intros Hn Hp. apply list_to_map_proper; [by rewrite rules_map_keys|]. by rewrite Hp.
Qed.

Lemma rules_map_lookup rs k r :
  NoDup (rule_key <$> rs) → rules_map rs !! k = Some r ↔ r ∈ rs ∧ rule_key r = k.
Proof.
  intros Hn. unfold rules_map. rewrite <- elem_of_list_to_map by (by rewrite rules_map_keys).
  rewrite list_elem_of_fmap. naive_solver.
Qed.

Lemma rules_map_inserted new rs rs' old :
  NoDup (rule_key <$> rs) → inserted new rs rs' old →
  rules_map rs' = <[rule_key new := new]> (rules_map rs) ∧ old = rules_map rs !! rule_key new.
Proof.
  intros Hn Hi. pose proof (inserted_keys _ _ _ _ Hi Hn) as Hn'.
  destruct old as [o|]; simpl in Hi.
  - destruct Hi as [Hk%same_key_spec (rest & Hp & Hp')].
    rewrite (rules_map_perm _ _ Hn Hp), (rules_map_perm _ _ Hn' Hp').
    unfold rules_map. simpl. rewrite Hk, insert_insert_eq, lookup_insert_eq. done.
  - destruct Hi as [Hk Hp']. rewrite (rules_map_perm _ _ Hn' Hp'). split; [done|].
    symmetry. apply eq_None_not_Some. intros [r [Hr He]%rules_map_lookup]; [|done].
    apply (Hk r Hr). by apply same_key_spec.
Qed.

(** The walk that looks for a priority in a sorted ring. *)
Lemma ring_find_priority l p :
  ring_sorted l →
  match ('(_, r) ← List.find (λ '(_, r), cr_priority r <=? p) (rules_in_list l);
         if p =? cr_priority r then Some r else None) with
  | Some r => r ∈ l ∧ cr_priority r = p
  | None => ∀ x, x ∈ l → cr_priority x ≠ p
  end.
Proof.
  intros Hs. pose proof (find_rule_sorted l (λ r, cr_priority r <=? p) Hs) as Hf.
  destruct (List.find _ _) as [[i r]|]; simpl.
  - destruct Hf as (Hi & Hr%Z.leb_le & Hpre). rewrite Forall_forall in Hpre.
    destruct (Z.eqb_spec p (cr_priority r)) as [He|Hne].
    + eauto using list_elem_of_lookup_2.
    + intros x (j & Hj)%list_elem_of_lookup. destruct (lt_eq_lt_dec j i) as [[Hlt| ->]|Hgt].
      * assert (Hxt : x ∈ take i l).
        { apply (list_elem_of_lookup_2 _ j). by rewrite lookup_take_lt. }
        apply Hpre, Z.leb_gt in Hxt. lia.
      * naive_solver lia.
      * pose proof (ring_sorted_lookup _ i j r x Hs Hgt Hi Hj). lia.
  - rewrite Forall_forall in Hf. intros x Hx%Hf%Z.leb_gt. lia.
Qed.

Lemma find_rule_exactly_spec cls target :
  cls_wf cls → rule_ok target →
  classifier_find_rule_exactly cls target = cls_map cls !! rule_key target.
Proof.
  intros Hw Hok. pose proof (cw_base _ Hw) as Hb. pose proof (cw_keys _ Hw) as Hkeys.
  (* No rule has the key when the search fails. *)
  assert (Hnone : (∀ r, r ∈ rules_of cls → rule_key r = rule_key target → False) →
                  None = cls_map cls !! rule_key target).
  { intros H. symmetry. apply eq_None_not_Some. intros [r [Hr He]%rules_map_lookup]; [|done].
    by eapply H. }
  unfold classifier_find_rule_exactly.
  pose proof (find_table_spec cls _ (cb_dir _ Hb) (mmo_mask _ (proj1 Hok))) as Hft.
  destruct (find_table _ _) as [a|]; simpl.
  2:{ apply Hnone. intros r (b & t & Ht & _ & _ & _ & Hm)%rule_in_table [= Hkm _]; [|done].
      apply (Hft b t Ht). by rewrite <- Hm, Hkm. }
  destruct Hft as (t & Ht & Hm). rewrite Ht. simpl.
  destruct (cb_tables _ Hb _ _ Ht) as [Hlk _ Hmax _].
  (* A rule with the key is in this table. *)
  assert (Hin : ∀ r, r ∈ rules_of cls → rule_key r = rule_key target → r ∈ table_rules t).
  { intros r (b & u & Hu & Hr & _ & _ & Hmu)%rule_in_table [= Hkm _]; [|done].
    assert (b = a) as ->; [|naive_solver].
    apply (dw_masks _ (cb_dir _ Hb) b a u t); [done..|]. by rewrite <- Hmu, Hm, Hkm. }
  destruct (Z.ltb_spec (ct_max_priority t) (cr_priority target)) as [Hlt|_].
  { apply Hnone. intros r Hr Hk. pose proof (Hin r Hr Hk) as Hrt.
    apply prio_max_ge in Hrt. injection Hk as _ Hk. lia. }
  pose proof (find_equal_spec t target Hlk Hok (eq_sym Hm)) as Hfe. unfold rule_flow in Hfe at 1.
  destruct (find_equal _ _ _) as [l|]; simpl.
  2:{ apply Hnone. intros r Hr Hk.
      destruct (proj1 (elem_of_nodes_rules _ _) (Hin r Hr Hk)) as (n & Hn & Hrn).
      apply (Hfe n Hn). eapply ring_flow_elem; [exact Hlk|eassumption..|].
      unfold rule_flow. by injection Hk as -> _. }
  destruct Hfe as (n & Hn & <- & Hh & Hfl).
  destruct (node_rules t n _ Hlk Hn Hfl) as [Hs Hrs].
  assert (Hin' : ∀ r, r ∈ rules_of cls → rule_key r = rule_key target → r ∈ hn_data n).
  { intros r Hr Hk. destruct (proj1 (elem_of_nodes_rules _ _) (Hin r Hr Hk)) as (n2 & Hn2 & Hrn).
    assert (n2 = n) as ->; [|done].
    eapply nodes_same_flow; [apply (tl_nodes t Hlk)|done|done|]. rewrite Hfl.
    eapply ring_flow_elem; [exact Hlk|eassumption..|]. unfold rule_flow. by injection Hk as -> _. }
  pose proof (ring_find_priority (hn_data n) (cr_priority target) Hs) as Hf.
  destruct (_ ≫= _) as [r|].
  - destruct Hf as [Hr Hpr]. destruct (Hrs r Hr) as (_ & Hmr & _ & Hfr).
    symmetry. apply rules_map_lookup; [done|]. split.
    + apply elem_of_rules_of. exists a, t. split_and!; [|done|].
      * apply (dw_heap _ (cb_dir _ Hb)). eauto.
      * apply elem_of_nodes_rules. eauto.
    + unfold rule_key. rewrite Hpr. f_equal. by apply minimatch_eq; [|congruence].
  - apply Hnone. intros x Hx Hk. apply (Hf x (Hin' x Hx Hk)). by injection Hk as _ Hk.
Qed.

(** ** Lookup *)

(** A rule is at least as good a match for [f] as every rule of a list. *)
Definition best_match (rs : list cls_rule) (f : flow) (r : cls_rule) : Prop :=
  rule_match r f ∧ ∀ r', r' ∈ rs → rule_match r' f → cr_priority r' ≤ cr_priority r.

Section lookup.
Context (heap : gmap nat cls_table) (Hheap : ∀ a t, heap !! a = Some t → table_wf t).

Definition tables_rules (l : list nat) : list cls_rule := concat (heap_rules heap <$> l).

Lemma tables_rules_cons a t l :
  heap !! a = Some t → tables_rules (a :: l) = table_rules t ++ tables_rules l.
Proof.
  intros Ht. unfold tables_rules. rewrite fmap_cons. cbn [concat].
  unfold heap_rules at 1. by rewrite Ht.
Qed.

Lemma tables_rules_below mx l p :
  (∀ a t, heap !! a = Some t → ct_max_priority t = mx a) → desc mx l →
  (∀ a, a ∈ l → mx a ≤ p) → ∀ r, r ∈ tables_rules l → cr_priority r ≤ p.
Proof.
  intros Hmx Hd Hle r. unfold tables_rules. rewrite list_elem_of_In, in_concat.
  setoid_rewrite <- list_elem_of_In. setoid_rewrite list_elem_of_fmap. unfold heap_rules.
  intros (x & (a & -> & Ha) & Hr). destruct (heap !! a) as [t|] eqn:Ht; [simpl in Hr|set_solver].
  apply prio_max_ge in Hr. rewrite <- (tw_max _ (Hheap _ _ Ht)), (Hmx _ _ Ht) in Hr.
  specialize (Hle a Ha). lia.
Qed.

Lemma lookup_continue_spec mx f best wc l :
  (∀ a t, heap !! a = Some t → ct_max_priority t = mx a) → desc mx l →
  (∀ a, a ∈ l → is_Some (heap !! a)) → rule_match best f →
  let r := (lookup_continue heap f best wc l).1 in
  (r = best ∨ r ∈ tables_rules l) ∧ best_match (tables_rules l) f r
  ∧ cr_priority best ≤ cr_priority r.
Proof.
  intros Hmx. revert best wc. induction l as [|a l IH]; intros best wc Hd Hdom Hbest; simpl.
  { split_and!; [by left|split; [done|]|done]. intros r Hr. by apply not_elem_of_nil in Hr. }
  destruct (Hdom a) as [t Ht]; [by left|]. rewrite Ht, (tables_rules_cons a t) by done.
  destruct (Z.leb_spec (ct_max_priority t) (cr_priority best)) as [Hle|Hgt].
  - simpl. split_and!; [by left|split; [done|]|done]. intros r' Hr' _.
    rewrite <- (tables_rules_cons a t l Ht) in Hr'.
    eapply (tables_rules_below mx (a :: l)); [done|done| |done].
    apply desc_cons in Hd as [Ha _]. rewrite (Hmx _ _ Ht) in Hle.
    intros b [->|Hb]%elem_of_cons; [done|]. specialize (Ha b Hb). lia.
  - apply desc_cons in Hd as [_ Hd].
    pose proof (find_match_spec t f (tw_links _ (Hheap _ _ Ht))) as Hm.
    set (best' := match find_match t f with Some r => _ | None => best end).
    assert (Hb' : rule_match best' f ∧ (best' = best ∨ best' ∈ table_rules t)
      ∧ cr_priority best ≤ cr_priority best'
      ∧ ∀ r', r' ∈ table_rules t → rule_match r' f → cr_priority r' ≤ cr_priority best').
    { unfold best'. destruct (find_match t f) as [r|].
      - destruct Hm as (Hr & Hrm & Hmax). destruct (Z.ltb_spec (cr_priority best) (cr_priority r)).
        + split_and!; [done|by right|lia|done].
        + split_and!; [done|by left|lia|]. intros r' H1 H2. specialize (Hmax r' H1 H2). lia.
      - split_and!; [done|by left|lia|]. intros r' H1 H2. by destruct (Hm r' H1). }
    destruct Hb' as (Hbm & Hbin & Hble & Hbmax).
    destruct (IH best' (fold_wc wc (ct_mask t)) Hd) as (Hin & [Hrm Hrmax] & Hrle);
      [intros b Hb; apply Hdom; by right|done|].
    split_and!; [|split; [done|]|lia].
    + rewrite elem_of_app. destruct Hin as [->|Hin]; [|by right; right].
      destruct Hbin as [->|Hbin]; [by left|by right; left].
    + intros r' [Hr'|Hr']%elem_of_app Hm'; [|by apply Hrmax].
      specialize (Hbmax r' Hr' Hm'). lia.
Qed.

Lemma lookup_first_spec mx f wc l :
  (∀ a t, heap !! a = Some t → ct_max_priority t = mx a) → desc mx l →
  (∀ a, a ∈ l → is_Some (heap !! a)) →
  match (lookup_first heap f wc l).1 with
  | Some r => r ∈ tables_rules l ∧ best_match (tables_rules l) f r
  | None => ∀ r, r ∈ tables_rules l → ¬ rule_match r f
  end.
Proof.
  intros Hmx. revert wc. induction l as [|a l IH]; intros wc Hd Hdom; simpl.
  { intros r Hr. by apply not_elem_of_nil in Hr. }
  destruct (Hdom a) as [t Ht]; [by left|]. rewrite Ht, (tables_rules_cons a t) by done.
  apply desc_cons in Hd as [_ Hd].
  assert (Hdom' : ∀ b, b ∈ l → is_Some (heap !! b)) by (intros b Hb; apply Hdom; by right).
  pose proof (find_match_spec t f (tw_links _ (Hheap _ _ Ht))) as Hm.
  destruct (find_match t f) as [best|].
  - destruct Hm as (Hr & Hrm & Hmax).
    pose proof (lookup_continue_spec mx f best (fold_wc wc (ct_mask t)) l Hmx Hd Hdom' Hrm) as Hc.
    destruct (lookup_continue _ _ _ _ _) as [r wc']. simpl in Hc |- *.
    destruct Hc as (Hin & [Hrm' Hrmax] & Hle). split; [|split; [done|]].
    + apply elem_of_app. destruct Hin as [->|]; [by left|by right].
    + intros r' [Hr'|Hr']%elem_of_app Hm'; [|by apply Hrmax]. specialize (Hmax r' Hr' Hm'). lia.
  - specialize (IH (fold_wc wc (ct_mask t)) Hd Hdom').
    destruct (lookup_first _ _ _ _).1 as [r|].
    + destruct IH as (Hr & Hrm & Hrmax). split; [by apply elem_of_app; right|split; [done|]].
      intros r' [Hr'|Hr']%elem_of_app Hm'; [by destruct (Hm r' Hr')|by apply Hrmax].
    + intros r [Hr|Hr]%elem_of_app; [by apply Hm|by apply IH].
Qed.

(** *** The bits a lookup depends on *)

(** Every 1-bit of [m] is a 1-bit of [w]. *)
Definition submask (m w : Z → Z) : Prop := ∀ o, 0 ≤ o < 54 → Z.land (m o) (w o) = m o.

Lemma submask_trans m w v : submask m w → submask w v → submask m v.
Proof. intros H1 H2 o Ho. rewrite <- (H1 o Ho), <- Z.land_assoc, (H2 o Ho). done. Qed.

Lemma agree_submask m w x y : submask m w → agree w x y → agree m x y.
Proof.
  intros Hs Ha o Ho. rewrite <- (Hs o Ho), (Z.land_comm (m o)), !Z.land_assoc.
  by rewrite (Ha o Ho).
Qed.

Lemma fold_minimask_submask wc mask :
  length wc = FLOW_U32S → miniflow_wf mask →
  length (flow_wildcards_fold_minimask wc mask) = FLOW_U32S
  ∧ submask (flow_u32 wc) (flow_u32 (flow_wildcards_fold_minimask wc mask))
  ∧ submask (miniflow_get mask) (flow_u32 (flow_wildcards_fold_minimask wc mask)).
Proof.
  intros Hl Hm. split; [by apply flow_union_length|].
  split; intros o Ho; unfold flow_wildcards_fold_minimask; rewrite flow_union_lookup by done; bits.
Qed.

(** A result that is the same for every flow that agrees on its wildcards. *)
Definition settled {A} (wc : flow) (run : flow → A * option flow) (f : flow) : Prop :=
  ∃ wc', (run f).2 = Some wc' ∧ length wc' = FLOW_U32S ∧ submask (flow_u32 wc) (flow_u32 wc')
         ∧ ∀ g, agree (flow_u32 wc') (flow_u32 f) (flow_u32 g) → run g = run f.

Lemma lookup_continue_settled f best wc l :
  length wc = FLOW_U32S → settled wc (λ g, lookup_continue heap g best (Some wc) l) f.
Proof.
  revert best wc. induction l as [|a l IH]; intros best wc Hl; simpl.
  { exists wc. split_and!; [done..|intros o Ho; by rewrite Z.land_diag|done]. }
  destruct (heap !! a) as [t|] eqn:Ht.
  2:{ exists wc. simpl. split_and!; [done..|intros o Ho; by rewrite Z.land_diag|].
      done. }
  pose proof (tl_mask _ (tw_links _ (Hheap _ _ Ht))) as Hm.
  destruct (Z.leb_spec (ct_max_priority t) (cr_priority best)) as [Hle|Hgt].
  { exists wc. simpl. rewrite ?Ht, ?(proj2 (Z.leb_le _ _)) by done.
    split_and!; [done..|intros o Ho; by rewrite Z.land_diag|done]. }
  destruct (fold_minimask_submask wc (ct_mask t) Hl Hm) as (Hl1 & Hs1 & Hs2).
  set (best' := λ g, match find_match t g with
    | Some r => if cr_priority best <? cr_priority r then r else best | None => best end).
  destruct (IH (best' f) _ Hl1) as (wc' & Hr & Hl' & Hs & Hg).
  exists wc'. unfold settled in *. simpl. rewrite ?Ht, ?(proj2 (Z.leb_gt _ _)) by done.
  split_and!; [done|done|by eapply submask_trans|].
  intros g Ha. rewrite (find_match_agree t g f); [by apply Hg|done|].
  symmetry. eapply agree_submask; [|done]. by eapply submask_trans.
Qed.

Lemma lookup_first_settled f wc l :
  length wc = FLOW_U32S → settled wc (λ g, lookup_first heap g (Some wc) l) f.
Proof.
  revert wc. induction l as [|a l IH]; intros wc Hl; simpl.
  { exists wc. split_and!; [done..|intros o Ho; by rewrite Z.land_diag|done]. }
  destruct (heap !! a) as [t|] eqn:Ht.
  2:{ exists wc. simpl. split_and!; [done..|intros o Ho; by rewrite Z.land_diag|].
      done. }
  pose proof (tl_mask _ (tw_links _ (Hheap _ _ Ht))) as Hm.
  destruct (fold_minimask_submask wc (ct_mask t) Hl Hm) as (Hl1 & Hs1 & Hs2).
  unfold settled. simpl. rewrite ?Ht.
  (* The table is consulted in the same way by every agreeing flow. *)
  assert (Hsame : ∀ wc' g, submask (flow_u32 (flow_wildcards_fold_minimask wc (ct_mask t)))
      (flow_u32 wc') → agree (flow_u32 wc') (flow_u32 f) (flow_u32 g) →
      find_match t g = find_match t f).
  { intros wc' g Hs Ha. apply find_match_agree; [done|]. symmetry.
    eapply agree_submask; [|done]. by eapply submask_trans. }
  destruct (find_match t f) as [best|] eqn:Hfm.
  - destruct (lookup_continue_settled f best _ l Hl1) as (wc' & Hr & Hl' & Hs & Hg).
    simpl in Hr, Hg. exists wc'. destruct (lookup_continue _ f _ _ _) as [r w] eqn:Hc.
    simpl in Hr |- *. split_and!; [done|done|by eapply submask_trans|].
    intros g Ha. rewrite (Hsame wc' g) by done. by rewrite (Hg g Ha).
  - destruct (IH _ Hl1) as (wc' & Hr & Hl' & Hs & Hg). exists wc'.
    split_and!; [done|done|by eapply submask_trans|].
    intros g Ha. rewrite (Hsame wc' g) by done. by apply Hg.
Qed.

End lookup.

(** ** Rules as sets of packets *)

Definition flow_of (g : Z → Z) : flow := g <$> seqZ 0 (Z.of_nat FLOW_U32S).

Lemma flow_of_u32 g o : 0 ≤ o < 54 → flow_u32 (flow_of g) o = g o.
Proof.
  intros Ho. unfold flow_u32, flow_of. rewrite list_lookup_fmap.
  rewrite (proj2 (lookup_seqZ 0 (Z.of_nat FLOW_U32S) (Z.to_nat o) o)); [done|].
  unfold FLOW_U32S. lia.
Qed.

Lemma flow_of_wf g : (∀ o, 0 ≤ o < 54 → is_u32 (g o)) → flow_wf (flow_of g).
Proof.
  intros Hg. split; unfold flow_of.
  - rewrite length_fmap, length_seqZ. lia.
  - apply Forall_fmap, Forall_forall. intros o Ho%elem_of_seqZ. apply Hg.
    unfold FLOW_U32S in Ho. lia.
Qed.

Definition minimatch_match (m : minimatch) (f : flow) : Prop :=
  agree (miniflow_get (mm_mask m)) (miniflow_get (mm_flow m)) (flow_u32 f).

(** Two matches have a packet in common when their values agree wherever both
    look. *)
Lemma common_packet a b :
  minimatch_ok a → minimatch_ok b →
  agree (λ o, Z.land (miniflow_get (mm_mask a) o) (miniflow_get (mm_mask b) o))
    (miniflow_get (mm_flow a)) (miniflow_get (mm_flow b)) ↔
  ∃ f, flow_wf f ∧ minimatch_match a f ∧ minimatch_match b f.
Proof.
  intros Ha Hb. split.
  - intros Hag.
    exists (flow_of (λ o, Z.lor (miniflow_get (mm_flow a) o) (miniflow_get (mm_flow b) o))).
    assert (Hbits : ∀ o i, 0 ≤ o < 54 → 0 ≤ i →
      Z.testbit (miniflow_get (mm_mask a) o) i = true →
      Z.testbit (miniflow_get (mm_mask b) o) i = true →
      Z.testbit (miniflow_get (mm_flow a) o) i = Z.testbit (miniflow_get (mm_flow b) o) i).
    { intros o i Ho Hi H1 H2. pose proof (f_equal (λ z, Z.testbit z i) (Hag o Ho)) as E.
      simpl in E. rewrite !Z.land_spec, H1, H2, !andb_true_r in E. done. }
    assert (Hsub : ∀ m o i, minimatch_ok m → 0 ≤ o < 54 →
      Z.testbit (miniflow_get (mm_flow m) o) i = true →
      Z.testbit (miniflow_get (mm_mask m) o) i = true).
    { intros m o i Hm Ho H1. rewrite <- (mmo_zero m Hm o Ho), Z.land_spec in H1.
      by apply andb_true_iff in H1 as [_ ?]. }
    split_and!.
    + apply flow_of_wf. intros o Ho. apply lor_in_width; [done|..]; apply miniflow_get_u32;
        (apply Ha || apply Hb || lia).
    + intros o Ho. rewrite flow_of_u32 by done. apply Z.bits_inj'. intros i Hi.
      rewrite !Z.land_spec, Z.lor_spec. specialize (Hbits o i Ho Hi).
      pose proof (Hsub b o i Hb Ho).
      destruct (Z.testbit (miniflow_get (mm_mask a) o) i); [|by rewrite !andb_false_r].
      destruct (Z.testbit (miniflow_get (mm_flow b) o) i); [|by rewrite orb_false_r].
      rewrite Hbits by auto. done.
    + intros o Ho. rewrite flow_of_u32 by done. apply Z.bits_inj'. intros i Hi.
      rewrite !Z.land_spec, Z.lor_spec. specialize (Hbits o i Ho Hi).
      pose proof (Hsub a o i Ha Ho).
      destruct (Z.testbit (miniflow_get (mm_mask b) o) i); [|by rewrite !andb_false_r].
      destruct (Z.testbit (miniflow_get (mm_flow a) o) i); [|done].
      rewrite <- Hbits by auto. done.
  - intros (f & _ & H1 & H2) o Ho. specialize (H1 o Ho). specialize (H2 o Ho).
    rewrite Z.land_assoc, H1, <- Z.land_assoc, (Z.land_comm (miniflow_get (mm_mask a) o)).
    rewrite Z.land_assoc, <- H2, <- Z.land_assoc. f_equal.
Qed.

(** A match's own flow is one of its packets. *)
Lemma own_packet m : minimatch_ok m → minimatch_match m (miniflow_expand (mm_flow m)).
Proof. intros Hm o Ho. by rewrite miniflow_expand_lookup by apply Hm || done. Qed.

(** Where [r] ignores a bit that [c] looks at, flipping it leaves [c]'s
    packets but not [r]'s. *)
Lemma subset_no_extra r c :
  minimatch_ok r → minimatch_ok c →
  (∀ f, flow_wf f → minimatch_match r f → minimatch_match c f) →
  ¬ extra (miniflow_get (mm_mask r)) (miniflow_get (mm_mask c)).
Proof.
  intros Hr Hc Hall (o & Ho & Hne).
  set (d := Z.ldiff (miniflow_get (mm_mask c) o) (miniflow_get (mm_mask r) o)).
  assert (Hd : Z.land d (miniflow_get (mm_mask c) o) = d) by (unfold d; bits).
  assert (Hd0 : d ≠ 0).
  { intros H0. apply Hne. rewrite Z.land_comm. apply Z.bits_inj'. intros i Hi.
    pose proof (f_equal (λ z, Z.testbit z i) H0) as E. unfold d in E.
    rewrite Z.ldiff_spec, Z.testbit_0_l in E. rewrite Z.land_spec.
    destruct (Z.testbit (miniflow_get (mm_mask c) o) i); [|done].
    by destruct (Z.testbit (miniflow_get (mm_mask r) o) i). }
  set (g := λ i, if decide (i = o) then Z.lxor (miniflow_get (mm_flow r) i) d
                 else miniflow_get (mm_flow r) i).
  assert (H1 : minimatch_match c (miniflow_expand (mm_flow r)))
    by (apply Hall; [by apply miniflow_expand_wf, Hr|by apply own_packet]).
  assert (H2 : minimatch_match c (flow_of g)).
  { apply Hall.
    - apply flow_of_wf. intros i Hi. unfold g. case_decide as E.
      + apply lxor_in_width; [done|by apply miniflow_get_u32; [apply Hr|lia]|].
        rewrite <- Hd, Z.land_comm.
        apply land_in_width; [done|]. apply miniflow_get_u32; [apply Hc|lia].
      + apply miniflow_get_u32; [apply Hr|lia].
    - intros i Hi. rewrite flow_of_u32 by done. unfold g. case_decide as E; [subst i|done].
      unfold d. bits. }
  specialize (H1 o Ho). specialize (H2 o Ho). rewrite H1 in H2.
  rewrite flow_of_u32, miniflow_expand_lookup in H2 by (done || apply Hr). unfold g in H2.
  rewrite decide_True in H2 by done. apply Hd0. rewrite <- Hd.
  assert (E : d = Z.lxor (miniflow_get (mm_flow r) o) (Z.lxor (miniflow_get (mm_flow r) o) d))
    by (by rewrite <- Z.lxor_assoc, Z.lxor_nilpotent, Z.lxor_0_l).
  rewrite E. apply Z.eqb_eq. by apply land_lxor_zero.
Qed.

(** ** Overlap *)

Definition overlaps_with (target : cls_rule) (mask : minimask) (r : cls_rule) : Prop :=
  cr_priority r = cr_priority target
  ∧ miniflow_equal_in_minimask (mm_flow (cr_match target)) (mm_flow (cr_match r)) mask = true.

Lemma ring_overlaps_imap target mask (g : nat → nat) l :
  ring_sorted l →
  ring_overlaps target mask (imap (λ k r, (g k, r)) l) = true ↔
  ∃ r, r ∈ l ∧ overlaps_with target mask r.
Proof.
  revert g. induction l as [|x l IH]; intros g Hs; simpl.
  { split; [done|]. intros (r & Hr & _). by apply not_elem_of_nil in Hr. }
  apply StronglySorted_cons in Hs as [HF Hs]. rewrite Forall_forall in HF.
  destruct (Z.ltb_spec (cr_priority x) (cr_priority target)).
  { split; [done|]. intros (r & [->|Hr]%elem_of_cons & [Hp _]); [lia|].
    specialize (HF r Hr). lia. }
  destruct (_ && _) eqn:E.
  - apply andb_true_iff in E as [E1%Z.eqb_eq E2]. split; [|done]. intros _. exists x.
    split; [by left|]. done.
  - change (imap ((λ k r, (g k, r)) ∘ S) l) with (imap (λ k r, ((g ∘ S) k, r)) l).
    rewrite IH by done. split; intros (r & Hr & Ho).
    + exists r. split; [by right|done].
    + apply elem_of_cons in Hr as [->|Hr]; [|by exists r].
      destruct Ho as [Hp%Z.eqb_eq He]. by rewrite Hp, He in E.
Qed.

Lemma table_overlap_spec t target mask :
  table_links t →
  existsb (λ l, ring_overlaps target mask (rules_in_list l)) (hmap_for_each (ct_rules t)) = true ↔
  ∃ r, r ∈ table_rules t ∧ overlaps_with target mask r.
Proof.
  intros Ht. rewrite hmap_for_each_nodes by apply Ht. rewrite existsb_exists.
  setoid_rewrite <- list_elem_of_In. unfold table_rules. setoid_rewrite elem_of_nodes_rules.
  setoid_rewrite list_elem_of_fmap.
  destruct (tl_nodes t Ht) as [Hok _]. rewrite Forall_forall in Hok.
  assert (Hring : ∀ n, n ∈ hnodes (ct_rules t) →
    ring_overlaps target mask (rules_in_list (hn_data n)) = true ↔
    ∃ r, r ∈ hn_data n ∧ overlaps_with target mask r).
  { intros n Hn. pose proof (no_sorted _ _ (Hok n Hn)) as Hs.
    rewrite rules_in_list_sorted by done. by apply (ring_overlaps_imap target mask id). }
  split.
  - intros (l & (n & -> & Hn) & (r & Hr & Ho)%Hring); [|done]. eauto.
  - intros (r & (n & Hn & Hr) & Ho). exists (hn_data n). split; [eauto|]. apply Hring; eauto.
Qed.

(** Overlapping under the combined mask is sharing a packet. *)
Lemma overlaps_with_combine target r mask :
  rule_ok target → rule_ok r → mm_mask (cr_match r) = mask →
  overlaps_with target (minimask_combine (mm_mask (cr_match target)) mask) r ↔
  cr_priority r = cr_priority target ∧
  ∃ f, flow_wf f ∧ rule_match target f ∧ rule_match r f.
Proof.
  intros [Ht _] [Hr _] <-. unfold overlaps_with.
  destruct (minimask_combine_spec _ _ (mmo_mask _ Ht) (mmo_mask _ Hr)) as [Hcw Hcg].
  rewrite miniflow_equal_in_minimask_spec by done.
  rewrite (agree_ext _ _ _ _ _ _ Hcg (λ _ _, eq_refl) (λ _ _, eq_refl)).
  pose proof (common_packet _ _ Ht Hr) as Hc. unfold minimatch_match in Hc. unfold rule_match.
  by rewrite Hc.
Qed.

Lemma tables_overlap_spec heap mx target l :
  (∀ a t, heap !! a = Some t → table_wf t) → rule_ok target →
  (∀ a t, heap !! a = Some t → ct_max_priority t = mx a) → desc mx l →
  (∀ a, a ∈ l → is_Some (heap !! a)) →
  tables_overlap heap target l = true ↔
  ∃ r, r ∈ tables_rules heap l ∧ cr_priority r = cr_priority target
       ∧ ∃ f, flow_wf f ∧ rule_match target f ∧ rule_match r f.
Proof.
  intros Hheap Hok Hmx. induction l as [|a l IH]; intros Hd Hdom; simpl.
  { split; [done|]. intros (r & Hr & _). by apply not_elem_of_nil in Hr. }
  destruct (Hdom a) as [t Ht]; [by left|]. rewrite Ht.
  destruct (Z.ltb_spec (ct_max_priority t) (cr_priority target)) as [Hlt|Hge].
  - split; [done|]. intros (r & Hr & Hp & _). exfalso.
    assert (cr_priority r ≤ mx a); [|rewrite (Hmx _ _ Ht) in Hlt; lia].
    eapply (tables_rules_below heap Hheap mx (a :: l)); [done|done| |done].
    apply desc_cons in Hd as [Ha _]. intros b [->|Hb]%elem_of_cons; [done|by apply Ha].
  - pose proof (tw_links _ (Hheap _ _ Ht)) as Hlk.
    rewrite orb_true_iff, table_overlap_spec, IH by
      (done || (apply desc_cons in Hd; tauto) || (intros b Hb; apply Hdom; by right)).
    rewrite (tables_rules_cons heap a t) by done. setoid_rewrite elem_of_app.
    assert (Hrule : ∀ r, r ∈ table_rules t →
      overlaps_with target (minimask_combine (mm_mask (cr_match target)) (ct_mask t)) r ↔
      cr_priority r = cr_priority target ∧ ∃ f, flow_wf f ∧ rule_match target f ∧ rule_match r f).
    { intros r Hr. destruct (table_rule_ok t r Hlk Hr). by apply overlaps_with_combine. }
    split.
    + intros [(r & Hr & Ho)|(r & Hr & ?)]; [apply Hrule in Ho; [|done]|]; eauto.
    + intros (r & [Hr|Hr] & Ho); [left; exists r; rewrite Hrule by done; done|right; eauto].
Qed.

(** ** Iteration *)

(** The rules a cursor visits: first, then next until there is none. *)
Fixpoint cursor_iter (fuel : nat) (cls : classifier) (target : option cls_rule)
    (p : option cursor_pos) : list cls_rule :=
  match fuel, p with
  | S fuel, Some p =>
      match cursor_rule p with
      | Some r => r :: cursor_iter fuel cls target (cls_cursor_next cls target p)
      | None => []
      end
  | _, _ => []
  end.

Section cursor.
Context (cls : classifier) (Hb : cls_base cls) (target : option cls_rule).

(** The rings of a table, and the tables, that the cursor visits. *)
Definition node_sel (n : hnode ring) : list cls_rule :=
  match hn_data n with
  | h :: _ => if rule_matches h target then hn_data n else []
  | [] => []
  end.

Definition table_open (t : cls_table) : bool :=
  match target with
  | None => true
  | Some tg => negb (minimask_has_extra (ct_mask t) (mm_mask (cr_match tg)))
  end.

Definition table_sel (t : cls_table) : list cls_rule :=
  if table_open t then concat (node_sel <$> hnodes (ct_rules t)) else [].

Definition tables_sel (ns : list (hnode nat)) : list cls_rule :=
  concat ((λ n, from_option table_sel [] (cl_heap cls !! hn_data n)) <$> ns).

Lemma scan_rules_spec t fuel node rest :
  table_links t → visits (ct_rules t) node rest → (∀ n, n ∈ rest → n ∈ hnodes (ct_rules t)) →
  (length rest ≤ fuel)%nat →
  (scan_rules fuel (ct_rules t) target node = [] ∧ concat (node_sel <$> rest) = [])
  ∨ ∃ node' n rest', scan_rules fuel (ct_rules t) target node = node'
      ∧ visits (ct_rules t) node' (n :: rest') ∧ (∀ x, x ∈ n :: rest' → x ∈ rest)
      ∧ node_sel n = hn_data n ∧ hn_data n ≠ []
      ∧ concat (node_sel <$> rest) = hn_data n ++ concat (node_sel <$> rest').
Proof.
  intros Ht. revert node fuel. induction rest as [|n rest IH]; intros node fuel Hv Hin Hf.
  { left. rewrite (visits_nil _ _ Hv). by destruct fuel. }
  destruct fuel as [|fuel]; [simpl in Hf; lia|].
  destruct (visits_next _ _ _ _ (tl_map t Ht) Hv) as [[node0 ->] Hv'].
  destruct (tl_nodes t Ht) as [Hok _]. rewrite Forall_forall in Hok.
  pose proof (no_nonempty _ _ (Hok n (Hin n ltac:(by left)))) as Hne.
  rewrite fmap_cons. cbn [scan_rules concat]. unfold node_sel at 1 4.
  destruct (hn_data n) as [|h l] eqn:E; [done|].
  destruct (rule_matches h target) eqn:Hm.
  - right. exists (n :: node0), n, rest. split_and!; [done|done|done| |by rewrite E|by rewrite E].
    unfold node_sel. by rewrite E, Hm.
  - destruct (IH _ fuel Hv') as [[-> ->]|(node' & n' & rest' & -> & H1 & H2 & H3 & H4 & H5)];
      [intros x Hx; apply Hin; by right|simpl in Hf; lia|by left|].
    right. exists node', n', rest'. split_and!; [done|done| |done|done|done].
    intros x Hx. right. by apply H2.
Qed.

(** The cursor is at the first rule of [rest], the rules still to visit. *)
Definition pos_ok (p : cursor_pos) (rest : list cls_rule) : Prop :=
  ∃ tn trest n nrest t,
    visits (cl_tables cls) (cp_table p) (tn :: trest)
    ∧ (∀ x, x ∈ tn :: trest → x ∈ hnodes (cl_tables cls))
    ∧ cl_heap cls !! hn_data tn = Some t
    ∧ visits (ct_rules t) (cp_node p) (n :: nrest)
    ∧ (∀ x, x ∈ n :: nrest → x ∈ hnodes (ct_rules t))
    ∧ (cp_idx p < length (hn_data n))%nat
    ∧ rest = drop (cp_idx p) (hn_data n) ++ concat (node_sel <$> nrest) ++ tables_sel trest.

Lemma cursor_table a t : cl_heap cls !! a = Some t → table_links t.
Proof. intros H. by eapply tw_links, cb_tables. Qed.

Lemma scan_tables_spec fuel node trest :
  visits (cl_tables cls) node trest → (∀ x, x ∈ trest → x ∈ hnodes (cl_tables cls)) →
  (length trest ≤ fuel)%nat →
  (scan_tables fuel cls target node = None ∧ tables_sel trest = [])
  ∨ ∃ p, scan_tables fuel cls target node = Some p ∧ pos_ok p (tables_sel trest).
Proof.
  revert node fuel. induction trest as [|tn trest IH]; intros node fuel Hv Hin Hf.
  { left. rewrite (visits_nil _ _ Hv). by destruct fuel. }
  destruct fuel as [|fuel]; [simpl in Hf; lia|].
  destruct (visits_next _ _ _ _ (dw_map _ (cb_dir _ Hb)) Hv) as [[node0 ->] Hv'].
  assert (Hdom : is_Some (cl_heap cls !! hn_data tn)).
  { apply (dw_heap _ (cb_dir _ Hb)). rewrite <- (dw_perm _ (cb_dir _ Hb)).
    apply list_elem_of_fmap_2, Hin. by left. }
  destruct Hdom as [t Ht]. pose proof (cursor_table _ _ Ht) as Hlk.
  assert (Hnext : search_table t target = [] → tables_sel (tn :: trest) = tables_sel trest →
    (scan_tables (S fuel) cls target (tn :: node0) = None ∧ tables_sel (tn :: trest) = [])
    ∨ ∃ p, scan_tables (S fuel) cls target (tn :: node0) = Some p ∧ pos_ok p (tables_sel (tn :: trest))).
  { intros Hs He. rewrite He. cbn [scan_tables]. rewrite Ht, Hs.
    apply IH; [done| |simpl in Hf; lia]. intros x Hx. apply Hin. by right. }
  assert (Hsel : tables_sel (tn :: trest) = table_sel t ++ tables_sel trest).
  { unfold tables_sel. rewrite fmap_cons, Ht. done. }
  unfold search_table in Hnext. fold (table_open t) in Hnext.
  destruct (table_open t) eqn:Hopen.
  2:{ apply Hnext; [done|]. rewrite Hsel. unfold table_sel. by rewrite Hopen. }
  destruct (scan_rules_spec t (hmap_fuel (ct_rules t)) _ _ Hlk (visits_first (ct_rules t)))
    as [[Hs1 Hs2]|(node' & n & nrest & Hs1 & H1 & H2 & H3 & H4 & H5)]; [done|done| |].
  { apply Hnext; [done|]. rewrite Hsel. unfold table_sel. by rewrite Hopen, Hs2. }
  right. exists (CursorPos (tn :: node0) node' 0). split.
  - cbn [scan_tables]. rewrite Ht. unfold search_table. fold (table_open t).
    rewrite Hopen, Hs1. destruct (visits_next _ _ _ _ (tl_map t Hlk) H1) as [[? ->] _]. done.
  - exists tn, trest, n, nrest, t. simpl. split_and!; [done|done|done|done| | |].
    + by intros x Hx%H2.
    + destruct (hn_data n); [done|simpl; lia].
    + rewrite Hsel. unfold table_sel. by rewrite Hopen, H5, <- (assoc_L (++)).
Qed.

Lemma cursor_next_spec p rest :
  pos_ok p rest →
  ∃ r rest', rest = r :: rest' ∧ cursor_rule p = Some r
    ∧ ((cls_cursor_next cls target p = None ∧ rest' = [])
       ∨ ∃ p', cls_cursor_next cls target p = Some p' ∧ pos_ok p' rest').
Proof.
  intros (tn & trest & n & nrest & t & Hvt & Hint & Ht & Hvn & Hinn & Hidx & ->).
  pose proof (cursor_table _ _ Ht) as Hlk.
  destruct (visits_next _ _ _ _ (dw_map _ (cb_dir _ Hb)) Hvt) as [[node0 Et] Hvt'].
  destruct (visits_next _ _ _ _ (tl_map t Hlk) Hvn) as [[node1 En] Hvn'].
  destruct (tl_nodes t Hlk) as [Hok _]. rewrite Forall_forall in Hok.
  pose proof (no_sorted _ _ (Hok n (Hinn n ltac:(by left)))) as Hs.
  destruct (lookup_lt_is_Some_2 _ _ Hidx) as [r Hr].
  exists r. eexists. rewrite (drop_S _ _ _ Hr). cbn [app]. split; [done|].
  unfold cursor_rule. rewrite En, Hr. split; [done|].
  unfold cls_cursor_next. rewrite Et, En. rewrite Et in Hvt, Hvt'. rewrite En in Hvn, Hvn'.
  unfold next_rule_in_list, next_rule_in_list__.
  destruct (decide (S (cp_idx p) < length (hn_data n))%nat) as [Hlt|Hge].
  - destruct (lookup_lt_is_Some_2 _ _ Hlt) as [r' Hr']. rewrite Hr', Hr.
    rewrite (proj2 (Z.ltb_lt _ _)) by (by apply (ring_sorted_lookup _ _ _ _ _ Hs (Nat.lt_succ_diag_r (cp_idx p)))).
    right. eexists. split; [done|]. exists tn, trest, n, nrest, t. by split_and!.
  - rewrite (drop_ge (hn_data n) (S (cp_idx p))) by lia. cbn [app].
    destruct (lookup_lt_is_Some_2 (hn_data n) 0) as [h Hh]; [lia|]. rewrite Hh, Hr.
    assert (Hhr : cr_priority r ≤ cr_priority h).
    { destruct (decide (cp_idx p = 0%nat)) as [E0|E0]; [rewrite E0 in Hr; naive_solver|].
      pose proof (ring_sorted_lookup _ 0 (cp_idx p) h r Hs ltac:(lia) Hh Hr). lia. }
    rewrite (proj2 (Z.ltb_ge _ _)) by done. rewrite Ht. cbn [mbind option_bind].
    destruct (scan_rules_spec t (hmap_fuel (ct_rules t)) _ _ Hlk Hvn')
      as [[-> ->]|(node' & n' & nrest' & Hs1 & H1 & H2 & H3 & H4 & H5)].
    { intros x Hx. apply Hinn. by right. }
    { by eapply visits_length. }
    + simpl. apply scan_tables_spec; [done| |].
      * intros x Hx. apply Hint. by right.
      * by eapply visits_length.
    + rewrite Hs1. destruct (visits_next _ _ _ _ (tl_map t Hlk) H1) as [[? ->] _].
      right. eexists. split; [done|]. exists tn, trest, n', nrest', t. simpl.
      split_and!; [done|done|done|done| | |].
      * intros y Hy. apply Hinn. right. by apply H2.
      * destruct (hn_data n'); [done|simpl; lia].
      * by rewrite H5, <- (assoc_L (++)).
Qed.

Lemma cursor_iter_spec fuel p rest :
  pos_ok p rest → (length rest ≤ fuel)%nat → cursor_iter fuel cls target (Some p) = rest.
Proof.
  revert p rest. induction fuel as [|fuel IH]; intros p rest Hp Hf;
    destruct (cursor_next_spec p rest Hp) as (r & rest' & -> & Hr & Hn); simpl in Hf; [lia|].
  cbn [cursor_iter]. rewrite Hr. f_equal.
  destruct Hn as [[-> ->]|(p' & -> & Hp')]; [by destruct fuel|]. apply IH; [done|lia].
Qed.

(** Which rules the cursor is to visit. *)
Definition selected (r : cls_rule) : Prop :=
  match target with
  | None => True
  | Some tg => cls_rule_is_loose_match r (cr_match tg) = true
  end.

#[global] Instance selected_dec r : Decision (selected r).
Proof. unfold selected. destruct target; apply _. Defined.

Lemma table_sel_filter t : table_links t → table_sel t = filter selected (table_rules t).
Proof.
  intros Ht. destruct (tl_nodes t Ht) as [Hok _].
  assert (Hr : ∀ r, r ∈ table_rules t → selected r ↔ table_open t = true ∧ rule_matches r target = true).
  { intros r Hr. destruct (table_rule_ok t r Ht Hr) as [_ Hm].
    unfold selected, table_open, rule_matches, cls_rule_is_loose_match. rewrite <- Hm.
    destruct target; [by rewrite andb_true_iff|done]. }
  unfold table_sel. destruct (table_open t) eqn:Ho.
  2:{ symmetry. apply filter_none_in. intros r Hrt. rewrite (Hr r Hrt). naive_solver. }
  rewrite (filter_ext_in selected (λ r, rule_matches r target = true)).
  2:{ intros r Hrt. rewrite (Hr r Hrt). naive_solver. }
  clear Hr. unfold table_rules, nodes_rules. revert Hok.
  induction (hnodes (ct_rules t)) as [|n ns IH]; intros Hok; [done|].
  apply Forall_cons in Hok as [Hn Hok]. rewrite !fmap_cons. cbn [concat].
  rewrite filter_app, <- IH by done. apply (f_equal2 app); [|done].
  assert (Hall : ∀ r, r ∈ hn_data n → ∀ h, head (hn_data n) = Some h →
            rule_matches r target = rule_matches h target).
  { intros r Hr h Hh. pose proof (node_ring_flow _ _ _ Hn Hr) as E. unfold ring_flow in E.
    rewrite Hh in E. simpl in E. injection E as E. unfold rule_flow in E.
    unfold rule_matches. by rewrite E. }
  unfold node_sel. destruct (hn_data n) as [|h l]; [done|].
  destruct (rule_matches h target) eqn:Hm; symmetry.
  - apply filter_all_in. intros r Hr. by rewrite (Hall r Hr h eq_refl).
  - apply filter_none_in. intros r Hr. by rewrite (Hall r Hr h eq_refl), Hm.
Qed.

Lemma tables_sel_filter :
  tables_sel (hnodes (cl_tables cls)) ≡ₚ filter selected (rules_of cls).
Proof.
  unfold tables_sel, rules_of.
  assert (E : (λ n : hnode nat, from_option table_sel [] (cl_heap cls !! hn_data n)) <$>
    hnodes (cl_tables cls) = (λ a, from_option table_sel [] (cl_heap cls !! a)) <$>
    (hn_data <$> hnodes (cl_tables cls))) by (by rewrite <- list_fmap_compose).
  rewrite E, (concat_perm _ _ (fmap_Permutation _ _ _ (dw_perm _ (cb_dir _ Hb)))). clear E.
  induction (cl_tables_priority cls) as [|a l IH]; [done|].
  rewrite !fmap_cons. cbn [concat]. rewrite filter_app, IH. f_equiv.
  unfold heap_rules. destruct (cl_heap cls !! a) as [t|] eqn:Ht; [|done]. simpl.
  by rewrite table_sel_filter by (by eapply cursor_table).
Qed.

Lemma cursor_visits fuel :
  (length (rules_of cls) ≤ fuel)%nat →
  cursor_iter fuel cls target (cls_cursor_first cls target) ≡ₚ filter selected (rules_of cls).
Proof.
  intros Hf. rewrite <- tables_sel_filter. unfold cls_cursor_first.
  destruct (scan_tables_spec (hmap_fuel (cl_tables cls)) _ _ (visits_first (cl_tables cls)))
    as [[-> ->]|(p & -> & Hp)]; [done|done|by destruct fuel|].
  rewrite (cursor_iter_spec fuel p _ Hp); [done|].
  rewrite tables_sel_filter. etransitivity; [apply length_filter|done].
Qed.

End cursor.
