(* ===== verification/ClassifierThms.v ===== *)
(** * Correctness of the classifier

    The classifiers a client can build, and what every operation does to
    them. *)
From S2P Require Import Prelude Util Hash Hmap Flow.
From S2P Require Import Classifier ClassifierTable ClassifierInv ClassifierSpec.

(** ** Classifiers a client can build *)

(** One operation of a client that obeys the documented rules: it inserts a
    rule that is not already linked in the classifier, or removes one that
    is. *)
Inductive cls_step (cls : classifier) : classifier → Prop :=
| step_replace new cls' old :
    rule_ok new → cr_id new ∉ cr_id <$> rules_of cls →
    classifier_replace cls new = Some (cls', old) → cls_step cls cls'
| step_remove r cls' :
    r ∈ rules_of cls → classifier_remove cls r = Some cls' → cls_step cls cls'.

Definition reachable (cls : classifier) : Prop := rtc cls_step classifier_init cls.

Lemma cls_step_wf cls cls' : cls_wf cls → cls_step cls cls' → cls_wf cls'.
Proof.
  intros Hw [new c old Hok Hid Hr|r c Hin Hr].
  - destruct (classifier_replace_spec cls new Hw Hok Hid) as (c' & o & Hr' & Hw' & _).
    rewrite Hr in Hr'. by simplify_eq.
  - destruct (classifier_remove_spec cls r Hw Hin) as (c' & Hr' & Hw' & _).
    rewrite Hr in Hr'. by simplify_eq.
Qed.

Lemma reachable_wf cls : reachable cls → cls_wf cls.
Proof.
  unfold reachable. generalize (proj1 classifier_init_wf). generalize classifier_init.
  intros c Hw Hr. induction Hr as [|c c' c'' Hs _ IH]; [done|]. apply IH. by eapply cls_step_wf.
Qed.

Lemma reachable_step cls cls' : reachable cls → cls_step cls cls' → reachable cls'.
Proof. intros H1 H2. by eapply rtc_r. Qed.

Lemma minimatch_init_ok f wc :
  flow_wf f → flow_wf wc → minimatch_ok (minimatch_init (match_init f wc)).
Proof.
  intros Hf Hw. assert (Hz : flow_wf (flow_zero_wildcards f wc)).
  { destruct Hf as [Lf Ff], Hw as [Lw _]. split.
    - unfold flow_zero_wildcards. by rewrite length_zip_with, Lf, Lw.
    - unfold flow_zero_wildcards. apply Forall_lookup. intros i x Hx.
      apply lookup_zip_with_Some in Hx as (a & b & -> & Ha & Hb).
      apply land_in_width; [done|]. by eapply Forall_lookup_1. }
  split; simpl; [by apply miniflow_init_wf..|].
  intros o Ho. unfold minimask_init. rewrite !miniflow_get_init by done.
  unfold flow_zero_wildcards. rewrite flow_u32_zip_with by (apply Hf || apply Hw || done).
  by rewrite <- Z.land_assoc, Z.land_diag.
Qed.

Lemma cls_rule_init_ok id f wc p :
  flow_wf f → flow_wf wc → is_u32 p → rule_ok (cls_rule_init id (match_init f wc) p).
Proof. intros. by split; [apply minimatch_init_ok|]. Qed.

(** ** A small classifier

    Two rules for packets from port 1 that differ in priority, and a rule for
    every packet. *)

Definition port_flow (port : Z) : flow := <[40%nat := port]> (replicate FLOW_U32S 0).
Definition port_mask : flow := <[40%nat := 4294967295]> (replicate FLOW_U32S 0).

Definition ex_high : cls_rule := cls_rule_init 1 (match_init (port_flow 1) port_mask) 20.
Definition ex_low : cls_rule := cls_rule_init 2 (match_init (port_flow 1) port_mask) 10.
Definition ex_any : cls_rule := cls_rule_init 3 match_init_catchall 15.
Definition ex_new : cls_rule := cls_rule_init 4 (match_init (port_flow 1) port_mask) 10.

Definition replaced (cls : classifier) (r : cls_rule) : classifier :=
  match classifier_replace cls r with Some (cls', _) => cls' | None => cls end.

Definition ex_cls : classifier := replaced (replaced (replaced classifier_init ex_high) ex_low) ex_any.

Lemma replaced_reachable cls r :
  reachable cls → rule_ok r → cr_id r ∉ cr_id <$> rules_of cls → reachable (replaced cls r).
Proof.
  intros Hr Hok Hid.
  destruct (classifier_replace_spec cls r (reachable_wf _ Hr) Hok Hid) as (c & old & Hrep & _).
  unfold replaced. rewrite Hrep. eapply reachable_step; [done|by eapply step_replace].
Qed.

Lemma ex_high_ok : rule_ok ex_high.
Proof. apply cls_rule_init_ok; [by apply flow_wf_decide; vm_compute..|done]. Qed.
Lemma ex_low_ok : rule_ok ex_low.
Proof. apply cls_rule_init_ok; [by apply flow_wf_decide; vm_compute..|done]. Qed.
Lemma ex_new_ok : rule_ok ex_new.
Proof. apply cls_rule_init_ok; [by apply flow_wf_decide; vm_compute..|done]. Qed.
Lemma ex_any_ok : rule_ok ex_any.
Proof.
  apply (cls_rule_init_ok 3 (replicate FLOW_U32S 0) (replicate FLOW_U32S 0) 15);
    [by apply flow_wf_decide; vm_compute..|done].
Qed.

Lemma fresh_decide cls (r : cls_rule) :
  bool_decide (cr_id r ∉ cr_id <$> rules_of cls) = true → cr_id r ∉ cr_id <$> rules_of cls.
Proof. by intros H%bool_decide_eq_true. Qed.

Lemma ex_cls_reachable : reachable ex_cls.
Proof.
  repeat apply replaced_reachable; try (by apply fresh_decide; vm_compute);
    try apply ex_high_ok; try apply ex_low_ok; try apply ex_any_ok. constructor.
Qed.

(** ** Theorems *)

(** C27: in every classifier a client can build, the tables have distinct
    masks and are listed in order of decreasing maximum priority; each table is
    nonempty, and its [n_table_rules], [max_priority] and [max_count] are the
    number of its rules, their maximum priority and how many have it; [n_rules]
    is the number of rules. *)
Theorem classifier_invariant (cls : classifier) :
  reachable cls →
  (∀ a b t u, cl_heap cls !! a = Some t → cl_heap cls !! b = Some u →
     ct_mask t = ct_mask u → a = b)
  ∧ StronglySorted (λ a b, table_max cls b ≤ table_max cls a) (cl_tables_priority cls)
  ∧ (∀ a t, cl_heap cls !! a = Some t →
       a ∈ cl_tables_priority cls ∧ table_rules t ≠ []
       ∧ ct_n_table_rules t = Z.of_nat (length (table_rules t))
       ∧ (∀ r, r ∈ table_rules t → cr_priority r ≤ ct_max_priority t)
       ∧ (∃ r, r ∈ table_rules t ∧ cr_priority r = ct_max_priority t)
       ∧ ct_max_count t = prio_count (ct_max_priority t) (table_rules t))
  ∧ classifier_count cls = Z.of_nat (length (rules_of cls)).
Proof.
  intros Hw%reachable_wf. pose proof (cw_base _ Hw) as Hb.
  split_and!; [apply (dw_masks _ (cb_dir _ Hb))|apply (cb_sorted _ Hb)| |apply (cw_n _ Hw)].
  intros a t Ht. destruct (cb_tables _ Hb _ _ Ht) as [Hlk Hn Hmax Hcnt].
  split_and!; [|by apply (cw_nonempty _ Hw a)|done| | |done].
  - apply (dw_heap _ (cb_dir _ Hb)). eauto.
  - intros r Hr. rewrite Hmax. by apply prio_max_ge.
  - rewrite Hmax. apply prio_max_attained; [by apply (cw_nonempty _ Hw a)|].
    intros r Hr. by apply (table_rule_ok t r Hlk Hr).
Qed.

Lemma classifier_invariant_witness :
  reachable ex_cls ∧ classifier_count ex_cls = Z.of_nat (length (rules_of ex_cls)).
Proof.
  split; [apply ex_cls_reachable|].
  destruct (classifier_invariant ex_cls ex_cls_reachable) as (_ & _ & _ & H). exact H.
Defined.

Lemma reachable_lookup_best cls f wc :
  reachable cls →
  match (classifier_lookup cls f wc).1 with
  | Some r => r ∈ rules_of cls ∧ best_match (rules_of cls) f r
  | None => ∀ r, r ∈ rules_of cls → ¬ rule_match r f
  end.
Proof.
  intros [Hb _ _ _ _]%reachable_wf.
  apply (lookup_first_spec (cl_heap cls) (cb_tables _ Hb) (table_max cls) f wc (cl_tables_priority cls)); [|apply Hb|].
  - intros a t Ht. unfold table_max. by rewrite Ht.
  - intros a Ha. by apply (dw_heap _ (cb_dir _ Hb)).
Qed.

(** C1: [classifier_lookup] returns a rule of the classifier that matches the
    packet and that no matching rule exceeds in priority, and returns null
    exactly when no rule matches. *)
Theorem classifier_lookup_correct (cls : classifier) (f : flow) (wc : option flow) :
  reachable cls →
  match (classifier_lookup cls f wc).1 with
  | Some r => r ∈ rules_of cls ∧ rule_match r f
              ∧ ∀ r', r' ∈ rules_of cls → rule_match r' f → cr_priority r' ≤ cr_priority r
  | None => ∀ r, r ∈ rules_of cls → ¬ rule_match r f
  end.
Proof.
  intros Hr. pose proof (reachable_lookup_best cls f wc Hr) as H.
  destruct (classifier_lookup cls f wc).1 as [r|]; [|done]. destruct H as [? [? ?]]. by split_and!.
Qed.

Lemma classifier_lookup_correct_witness :
  (classifier_lookup ex_cls (port_flow 1) None).1 = Some ex_high
  ∧ rule_match ex_high (port_flow 1) ∧ ex_high ∈ rules_of ex_cls.
Proof.
  assert (E : (classifier_lookup ex_cls (port_flow 1) None).1 = Some ex_high)
    by (vm_compute; reflexivity).
  split; [exact E|].
  pose proof (classifier_lookup_correct ex_cls (port_flow 1) None ex_cls_reachable) as H.
  rewrite E in H. destruct H as (H1 & H2 & _). split; [exact H2|exact H1].
Defined.

(** C8: the wildcards a lookup reports cover everything it looked at: they
    include the bits the caller passed in, and every packet that agrees with
    this one on the reported bits gets the same rule and the same wildcards.
    This is what makes it sound to cache the result as one datapath flow. *)
Theorem classifier_lookup_wildcards (cls : classifier) (f wc : flow) :
  reachable cls → length wc = FLOW_U32S →
  ∃ wc', (classifier_lookup cls f (Some wc)).2 = Some wc' ∧ length wc' = FLOW_U32S
    ∧ flow_wildcards_has_extra wc' wc = false
    ∧ ∀ g, length f = FLOW_U32S → length g = FLOW_U32S → flow_equal_except f g wc' = true →
        classifier_lookup cls g (Some wc) = classifier_lookup cls f (Some wc).
Proof.
  intros [Hb _ _ _ _]%reachable_wf Hl.
  destruct (lookup_first_settled (cl_heap cls) (cb_tables _ Hb) f wc (cl_tables_priority cls) Hl)
    as (wc' & Hr & Hl' & Hs & Hg).
  exists wc'. split_and!; [done|done| |].
  - apply not_true_iff_false. rewrite flow_wildcards_has_extra_spec by done.
    intros (o & Ho & Hne). apply Hne. rewrite Z.land_comm. by apply Hs.
  - intros g Hf Hgl He. apply Hg. by apply flow_equal_except_spec.
Qed.

Lemma classifier_lookup_wildcards_witness :
  ∃ wc', (classifier_lookup ex_cls (port_flow 1) (Some flow_wildcards_init_catchall)).2 = Some wc'
    ∧ flow_wildcards_has_extra wc' flow_wildcards_init_catchall = false.
Proof.
  destruct (classifier_lookup_wildcards ex_cls (port_flow 1) flow_wildcards_init_catchall
    ex_cls_reachable eq_refl) as (wc' & H1 & _ & H2 & _).
  exists wc'. split; [exact H1|exact H2].
Defined.

(** C21: [classifier_replace] is insertion into a map from (match, priority)
    to rule: it always succeeds, returns the rule it displaced, and leaves
    every other rule. *)
Theorem classifier_replace_refines (cls : classifier) (new : cls_rule) :
  reachable cls → rule_ok new → cr_id new ∉ cr_id <$> rules_of cls →
  ∃ cls', classifier_replace cls new = Some (cls', cls_map cls !! rule_key new)
    ∧ reachable cls' ∧ cls_map cls' = <[rule_key new := new]> (cls_map cls).
Proof.
  intros Hr Hok Hid. pose proof (reachable_wf _ Hr) as Hw.
  destruct (classifier_replace_spec cls new Hw Hok Hid) as (c & old & Hrep & _ & Hi).
  destruct (rules_map_inserted _ _ _ _ (cw_keys _ Hw) Hi) as [Hmap ->].
  exists c. split_and!; [done| |done]. eapply reachable_step; [done|by eapply step_replace].
Qed.

Lemma classifier_replace_refines_witness :
  cls_map ex_cls !! rule_key ex_new = Some ex_low ∧
  ∃ cls', classifier_replace ex_cls ex_new = Some (cls', cls_map ex_cls !! rule_key ex_new)
    ∧ cls_map cls' = <[rule_key ex_new := ex_new]> (cls_map ex_cls).
Proof.
  split; [vm_compute; reflexivity|].
  destruct (classifier_replace_refines ex_cls ex_new ex_cls_reachable ex_new_ok
    (fresh_decide ex_cls ex_new ltac:(vm_compute; reflexivity))) as (c & H1 & _ & H2).
  exists c. split; [exact H1|exact H2].
Defined.

(** [classifier_insert] succeeds when no rule has the new rule's match
    and priority, and otherwise fails its assertion. *)
Theorem classifier_insert_asserts (cls : classifier) (new : cls_rule) :
  reachable cls → rule_ok new → cr_id new ∉ cr_id <$> rules_of cls →
  is_Some (classifier_insert cls new) ↔ classifier_find_rule_exactly cls new = None.
Proof.
  intros Hr Hok Hid. pose proof (reachable_wf _ Hr) as Hw.
  rewrite (find_rule_exactly_spec cls new Hw Hok).
  destruct (classifier_replace_spec cls new Hw Hok Hid) as (c & old & Hrep & _ & Hi).
  destruct (rules_map_inserted _ _ _ _ (cw_keys _ Hw) Hi) as [_ Hold].
  unfold classifier_insert. rewrite Hrep. simpl. unfold cls_map. rewrite <- Hold.
  destruct old; simpl; split; done.
Qed.

Lemma classifier_insert_asserts_witness :
  classifier_find_rule_exactly ex_cls ex_new = Some ex_low
  ∧ (is_Some (classifier_insert ex_cls ex_new) ↔ classifier_find_rule_exactly ex_cls ex_new = None).
Proof.
  split; [vm_compute; reflexivity|].
  exact (classifier_insert_asserts ex_cls ex_new ex_cls_reachable ex_new_ok
    (fresh_decide ex_cls ex_new ltac:(vm_compute; reflexivity))).
Defined.

(** C11: [classifier_remove] of a rule of the classifier succeeds and deletes
    that rule's key and nothing else. *)
Theorem classifier_remove_refines (cls : classifier) (r : cls_rule) :
  reachable cls → r ∈ rules_of cls →
  ∃ cls', classifier_remove cls r = Some cls' ∧ reachable cls'
    ∧ cls_map cls' = delete (rule_key r) (cls_map cls).
Proof.
  intros Hr Hin. pose proof (reachable_wf _ Hr) as Hw.
  destruct (classifier_remove_spec cls r Hw Hin) as (c & Hrem & Hw' & Hp).
  exists c. split_and!; [done|eapply reachable_step; [done|by eapply step_remove]|].
  unfold cls_map. pose proof (cw_keys _ Hw) as Hk. rewrite (rules_map_perm _ _ Hk Hp).
  rewrite Hp in Hk. apply NoDup_cons in Hk as [Hk _]. unfold rules_map. simpl.
  rewrite delete_insert_id; [done|]. apply not_elem_of_list_to_map. by rewrite rules_map_keys.
Qed.

Lemma classifier_remove_refines_witness :
  ∃ cls', classifier_remove ex_cls ex_high = Some cls'
    ∧ cls_map cls' = delete (rule_key ex_high) (cls_map ex_cls).
Proof.
  assert (Hin : ex_high ∈ rules_of ex_cls) by (apply (bool_decide_unpack _); vm_compute; exact I).
  destruct (classifier_remove_refines ex_cls ex_high ex_cls_reachable Hin) as (c & H1 & _ & H2).
  exists c. split; [exact H1|exact H2].
Defined.

(** [classifier_find_rule_exactly] is the lookup of that map, and
    [classifier_count] and [classifier_is_empty] give its size. *)
Theorem classifier_find_exactly_refines (cls : classifier) (target : cls_rule) :
  reachable cls → rule_ok target →
  classifier_find_rule_exactly cls target = cls_map cls !! rule_key target
  ∧ classifier_count cls = Z.of_nat (size (cls_map cls))
  ∧ classifier_is_empty cls = bool_decide (cls_map cls = ∅).
Proof.
  intros Hw%reachable_wf Hok. split; [by apply find_rule_exactly_spec|].
  assert (Hsize : size (cls_map cls) = length (rules_of cls)).
  { unfold cls_map, rules_map. rewrite <- length_map_to_list, map_to_list_to_map.
    - by rewrite length_fmap.
    - rewrite rules_map_keys. apply Hw. }
  assert (Hcount : classifier_count cls = Z.of_nat (size (cls_map cls)))
    by (rewrite Hsize; apply Hw).
  split; [done|]. unfold classifier_is_empty. fold (classifier_count cls). rewrite Hcount.
  rewrite <- (bool_decide_ext _ _ (map_size_empty_iff (cls_map cls))).
  case_bool_decide; [apply Z.eqb_eq|apply Z.eqb_neq]; lia.
Qed.

Lemma classifier_find_exactly_refines_witness :
  classifier_find_rule_exactly ex_cls ex_any = Some ex_any
  ∧ classifier_find_rule_exactly ex_cls ex_any = cls_map ex_cls !! rule_key ex_any.
Proof.
  split; [vm_compute; reflexivity|].
  apply (classifier_find_exactly_refines ex_cls ex_any ex_cls_reachable ex_any_ok).
Defined.

(** C37: In a classifier built by inserting and removing rules,
    [classifier_rule_overlaps] tells whether some rule has the target's
    priority and a packet in common with the target. *)
Theorem classifier_rule_overlaps_correct (cls : classifier) (target : cls_rule) :
  reachable cls → rule_ok target →
  classifier_rule_overlaps cls target = true ↔
  ∃ r f, r ∈ rules_of cls ∧ cr_priority r = cr_priority target
         ∧ flow_wf f ∧ rule_match target f ∧ rule_match r f.
Proof.
  intros [Hb _ _ _ _]%reachable_wf Hok. unfold classifier_rule_overlaps.
  rewrite (tables_overlap_spec (cl_heap cls) (table_max cls)); [|apply Hb|done|..|apply Hb|].
  - unfold tables_rules, rules_of. naive_solver.
  - intros a t Ht. unfold table_max. by rewrite Ht.
  - intros a Ha. by apply (dw_heap _ (cb_dir _ Hb)).
Qed.

Lemma classifier_rule_overlaps_correct_witness :
  classifier_rule_overlaps ex_cls ex_new = true
  ∧ ∃ r f, r ∈ rules_of ex_cls ∧ cr_priority r = cr_priority ex_new
           ∧ flow_wf f ∧ rule_match ex_new f ∧ rule_match r f.
Proof.
  assert (E : classifier_rule_overlaps ex_cls ex_new = true) by (vm_compute; reflexivity).
  split; [exact E|].
  apply (classifier_rule_overlaps_correct ex_cls ex_new ex_cls_reachable ex_new_ok). exact E.
Defined.

(** a rule matches criteria loosely exactly when every packet the rule
    matches satisfies the criteria. *)
Theorem cls_rule_is_loose_match_correct (r : cls_rule) (criteria : minimatch) :
  rule_ok r → minimatch_ok criteria →
  cls_rule_is_loose_match r criteria = true ↔
  ∀ f, flow_wf f → rule_match r f → minimatch_match criteria f.
Proof.
  intros [Hr _] Hc. unfold cls_rule_is_loose_match.
  rewrite andb_true_iff, negb_true_iff, <- not_true_iff_false.
  rewrite minimask_has_extra_spec by (apply Hr || apply Hc).
  rewrite miniflow_equal_in_minimask_spec by apply Hc. split.
  - intros [Hne Hag] f Hf Hm o Ho.
    assert (Hs : Z.land (miniflow_get (mm_mask (cr_match r)) o) (miniflow_get (mm_mask criteria) o)
                 = miniflow_get (mm_mask criteria) o).
    { destruct (decide (Z.land (miniflow_get (mm_mask (cr_match r)) o)
        (miniflow_get (mm_mask criteria) o) = miniflow_get (mm_mask criteria) o)) as [|Hx]; [done|].
      destruct Hne. by exists o. }
    rewrite <- (Hag o Ho), <- Hs, !Z.land_assoc. by rewrite (Hm o Ho).
  - intros Hall. split; [by apply (subset_no_extra (cr_match r) criteria)|].
    intros o Ho. pose proof (Hall (miniflow_expand (mm_flow (cr_match r)))
      (miniflow_expand_wf _ (mmo_flow _ Hr)) (own_packet _ Hr) o Ho) as E.
    by rewrite miniflow_expand_lookup in E by (apply Hr || done).
Qed.

Lemma cls_rule_is_loose_match_correct_witness :
  cls_rule_is_loose_match ex_high (cr_match ex_any) = true
  ∧ ∀ f, flow_wf f → rule_match ex_high f → minimatch_match (cr_match ex_any) f.
Proof.
  assert (E : cls_rule_is_loose_match ex_high (cr_match ex_any) = true)
    by (vm_compute; reflexivity).
  split; [exact E|].
  apply (cls_rule_is_loose_match_correct ex_high (cr_match ex_any) ex_high_ok (proj1 ex_any_ok)).
  exact E.
Defined.

(** a cursor visits each rule that matches its target loosely exactly
    once, and no other rule; without a target it visits every rule.  [n_rules]
    steps are enough. *)
Theorem cls_cursor_visits (cls : classifier) (target : option cls_rule) (fuel : nat) :
  reachable cls → (∀ tg, target = Some tg → rule_ok tg) → (Z.to_nat (cl_n_rules cls) ≤ fuel)%nat →
  let tg := cls_cursor_init target in
  cursor_iter fuel cls tg (cls_cursor_first cls tg) ≡ₚ
  filter (λ r, match target with
               | Some tg => cls_rule_is_loose_match r (cr_match tg) = true
               | None => True
               end) (rules_of cls).
Proof.
  intros Hw%reachable_wf Hok Hf tg. rewrite (cw_n _ Hw), Nat2Z.id in Hf.
  unfold tg. rewrite (cursor_visits cls (cw_base _ Hw) _ fuel Hf).
  match goal with |- ?a ≡ₚ ?b => assert (a = b) as ->; [|done] end.
  apply filter_ext_in. intros r Hr. unfold selected, cls_cursor_init.
  destruct target as [t|]; [|done]. destruct (cls_rule_is_catchall t) eqn:Hc; [|done].
  split; [intros _|done]. destruct (Hok t eq_refl) as [Ht _].
  destruct (rule_in_table cls r (cw_base _ Hw) Hr) as (_ & _ & _ & _ & _ & [Hro _] & _).
  assert (Hz : ∀ o, 0 ≤ o < 54 → miniflow_get (mm_mask (cr_match t)) o = 0)
    by (apply minimask_is_catchall_get; [apply Ht|done]).
  unfold cls_rule_is_loose_match. rewrite andb_true_iff, negb_true_iff, <- not_true_iff_false.
  rewrite minimask_has_extra_spec by (apply Hro || apply Ht).
  rewrite miniflow_equal_in_minimask_spec by apply Ht. split.
  - intros (o & Ho & Hne). apply Hne. by rewrite Hz, Z.land_0_r.
  - intros o Ho. by rewrite Hz, !Z.land_0_r.
Qed.

Lemma cls_cursor_visits_witness :
  cursor_iter 3 ex_cls None (cls_cursor_first ex_cls None) ≡ₚ filter (λ _, True) (rules_of ex_cls).
Proof.
  apply (cls_cursor_visits ex_cls None 3 ex_cls_reachable).
  - intros tg H. discriminate H.
  - apply (bool_decide_unpack _). vm_compute. exact I.
Defined.
