(* ===== verification/Reconnect.v ===== *)
(** * The reconnect state machine (lib/reconnect.h, lib/reconnect.c)

    The connection manager's state machine: when to connect, how long to back
    off after a failure, when to probe an idle connection and when to give it
    up.  Times are in milliseconds; [long long int] times are integers whose
    sums with the 32-bit intervals stay in range.  The [unsigned int] counters
    wrap at 32 bits.  Log messages are not modelled. *)
From stdpp Require Import strings.
From S2P Require Import Prelude.

Definition LLONG_MAX : Z := 9223372036854775807.
Definition UINT_MAX : Z := 4294967295.
Definition INT_MAX : Z := 2147483647.
Definition EOF : Z := -1.

Definition RECONNECT_DEFAULT_MIN_BACKOFF : Z := 1000.
Definition RECONNECT_DEFAULT_MAX_BACKOFF : Z := 8000.
Definition RECONNECT_DEFAULT_PROBE_INTERVAL : Z := 5000.

Inductive state := S_VOID | S_BACKOFF | S_CONNECTING | S_ACTIVE | S_IDLE | S_RECONNECT | S_LISTENING.

#[global] Instance state_eq_dec : EqDecision state.
Proof. solve_decision. Defined.

(** The bit of a state, and membership in a mask of states. *)
Definition state_bit (s : state) : Z :=
  match s with
  | S_VOID => 1 | S_BACKOFF => 2 | S_CONNECTING => 8 | S_ACTIVE => 16
  | S_IDLE => 32 | S_RECONNECT => 64 | S_LISTENING => 128
  end.

Definition state_in (s : state) (mask : list state) : bool :=
  negb (Z.land (state_bit s) (foldr (λ t m, Z.lor (state_bit t) m) 0 mask) =? 0).

Definition is_connected_state (s : state) : bool := state_in s [S_ACTIVE; S_IDLE].

Inductive vlog_level := VLL_INFO | VLL_DBG.

Record reconnect := Reconnect {
  (* Configuration. *)
  rc_name : string;
  min_backoff : Z;
  max_backoff : Z;
  probe_interval : Z;
  passive : bool;
  rc_info : vlog_level;
  (* State. *)
  rc_state : state;
  state_entered : Z;
  backoff : Z;
  last_activity : Z;
  last_connected : Z;
  last_disconnected : Z;
  max_tries : Z;
  (* Statistics. *)
  creation_time : Z;
  n_attempted_connections : Z;
  n_successful_connections : Z;
  total_connected_duration : Z;
  seqno : Z
}.

Definition reconnect_state_name__ (s : state) : string :=
  match s with
  | S_VOID => "VOID" | S_BACKOFF => "BACKOFF" | S_CONNECTING => "CONNECTING"
  | S_ACTIVE => "ACTIVE" | S_IDLE => "IDLE" | S_RECONNECT => "RECONNECT"
  | S_LISTENING => "LISTENING"
  end.

Definition reconnect_create (now : Z) : reconnect :=
  {| rc_name := "void";
     min_backoff := RECONNECT_DEFAULT_MIN_BACKOFF;
     max_backoff := RECONNECT_DEFAULT_MAX_BACKOFF;
     probe_interval := RECONNECT_DEFAULT_PROBE_INTERVAL;
     passive := false;
     rc_info := VLL_INFO;
     rc_state := S_VOID;
     state_entered := now;
     backoff := 0;
     last_activity := now;
     last_connected := LLONG_MAX;
     last_disconnected := LLONG_MAX;
     max_tries := UINT_MAX;
     creation_time := now;
     n_attempted_connections := 0;
     n_successful_connections := 0;
     total_connected_duration := 0;
     seqno := 0 |}.

(** ** Field updates *)

Definition set_config (fsm : reconnect) (name : string) (minb maxb probe : Z) (pas : bool)
    (info : vlog_level) : reconnect :=
  Reconnect name minb maxb probe pas info (rc_state fsm) (state_entered fsm) (backoff fsm)
    (last_activity fsm) (last_connected fsm) (last_disconnected fsm) (max_tries fsm)
    (creation_time fsm) (n_attempted_connections fsm) (n_successful_connections fsm)
    (total_connected_duration fsm) (seqno fsm).

Definition set_dynamic (fsm : reconnect) (s : state) (entered b act conn disc tries : Z)
    : reconnect :=
  Reconnect (rc_name fsm) (min_backoff fsm) (max_backoff fsm) (probe_interval fsm) (passive fsm)
    (rc_info fsm) s entered b act conn disc tries
    (creation_time fsm) (n_attempted_connections fsm) (n_successful_connections fsm)
    (total_connected_duration fsm) (seqno fsm).

Definition set_stats (fsm : reconnect) (att succ dur sq : Z) : reconnect :=
  Reconnect (rc_name fsm) (min_backoff fsm) (max_backoff fsm) (probe_interval fsm) (passive fsm)
    (rc_info fsm) (rc_state fsm) (state_entered fsm) (backoff fsm) (last_activity fsm)
    (last_connected fsm) (last_disconnected fsm) (max_tries fsm) (creation_time fsm)
    att succ dur sq.

Definition set_state (fsm : reconnect) (s : state) (entered : Z) : reconnect :=
  set_dynamic fsm s entered (backoff fsm) (last_activity fsm) (last_connected fsm)
    (last_disconnected fsm) (max_tries fsm).
Definition set_backoff_field (fsm : reconnect) (b : Z) : reconnect :=
  set_dynamic fsm (rc_state fsm) (state_entered fsm) b (last_activity fsm) (last_connected fsm)
    (last_disconnected fsm) (max_tries fsm).
Definition set_last_activity (fsm : reconnect) (t : Z) : reconnect :=
  set_dynamic fsm (rc_state fsm) (state_entered fsm) (backoff fsm) t (last_connected fsm)
    (last_disconnected fsm) (max_tries fsm).
Definition set_last_connected (fsm : reconnect) (t : Z) : reconnect :=
  set_dynamic fsm (rc_state fsm) (state_entered fsm) (backoff fsm) (last_activity fsm) t
    (last_disconnected fsm) (max_tries fsm).
Definition set_last_disconnected (fsm : reconnect) (t : Z) : reconnect :=
  set_dynamic fsm (rc_state fsm) (state_entered fsm) (backoff fsm) (last_activity fsm)
    (last_connected fsm) t (max_tries fsm).
Definition set_tries_field (fsm : reconnect) (n : Z) : reconnect :=
  set_dynamic fsm (rc_state fsm) (state_entered fsm) (backoff fsm) (last_activity fsm)
    (last_connected fsm) (last_disconnected fsm) n.

(** ** Operations *)

Definition reconnect_transition__ (fsm : reconnect) (now : Z) (s : state) : reconnect :=
  let fsm :=
    if decide (rc_state fsm = S_CONNECTING) then
      set_stats fsm (u32 (n_attempted_connections fsm + 1))
        (if decide (s = S_ACTIVE) then u32 (n_successful_connections fsm + 1)
         else n_successful_connections fsm)
        (total_connected_duration fsm) (seqno fsm)
    else fsm in
  let fsm :=
    if negb (Bool.eqb (is_connected_state (rc_state fsm)) (is_connected_state s)) then
      set_stats fsm (n_attempted_connections fsm) (n_successful_connections fsm)
        (if is_connected_state (rc_state fsm)
         then u32 (total_connected_duration fsm + (now - last_connected fsm))
         else total_connected_duration fsm)
        (u32 (seqno fsm + 1))
    else fsm in
  set_state fsm s now.

Definition reconnect_may_retry (fsm : reconnect) : reconnect * bool :=
  let may_retry := 0 <? max_tries fsm in
  (if may_retry && negb (max_tries fsm =? UINT_MAX)
   then set_tries_field fsm (max_tries fsm - 1) else fsm, may_retry).

Definition reconnect_set_quiet (fsm : reconnect) (quiet : bool) : reconnect :=
  set_config fsm (rc_name fsm) (min_backoff fsm) (max_backoff fsm) (probe_interval fsm)
    (passive fsm) (if quiet then VLL_DBG else VLL_INFO).

Definition reconnect_get_name (fsm : reconnect) : string := rc_name fsm.

Definition reconnect_set_name (fsm : reconnect) (name : option string) : reconnect :=
  set_config fsm (default "void"%string name) (min_backoff fsm) (max_backoff fsm)
    (probe_interval fsm) (passive fsm) (rc_info fsm).

Definition reconnect_get_min_backoff (fsm : reconnect) : Z := min_backoff fsm.
Definition reconnect_get_max_backoff (fsm : reconnect) : Z := max_backoff fsm.
Definition reconnect_get_probe_interval (fsm : reconnect) : Z := probe_interval fsm.
Definition reconnect_get_max_tries (fsm : reconnect) : Z := max_tries fsm.

Definition reconnect_set_max_tries (fsm : reconnect) (n : Z) : reconnect := set_tries_field fsm n.

Definition reconnect_set_backoff (fsm : reconnect) (minb maxb : Z) : reconnect :=
  let minb' := Z.max minb 1000 in
  let maxb' := if maxb =? 0 then RECONNECT_DEFAULT_MAX_BACKOFF else Z.max maxb 1000 in
  let maxb' := if maxb' <? minb' then minb' else maxb' in
  let fsm := set_config fsm (rc_name fsm) minb' maxb' (probe_interval fsm) (passive fsm)
               (rc_info fsm) in
  if bool_decide (rc_state fsm = S_BACKOFF) && (maxb <? backoff fsm)
  then set_backoff_field fsm maxb else fsm.

Definition reconnect_set_probe_interval (fsm : reconnect) (p : Z) : reconnect :=
  set_config fsm (rc_name fsm) (min_backoff fsm) (max_backoff fsm)
    (if p =? 0 then 0 else Z.max 1000 p) (passive fsm) (rc_info fsm).

Definition reconnect_is_passive (fsm : reconnect) : bool := passive fsm.

(** The transition to S_BACKOFF with no delay that three operations make. *)
Definition backoff_now (fsm : reconnect) (now : Z) : reconnect :=
  set_backoff_field (reconnect_transition__ fsm now S_BACKOFF) 0.

Definition reconnect_set_passive (fsm : reconnect) (pas : bool) (now : Z) : reconnect :=
  if Bool.eqb (passive fsm) pas then fsm
  else
    let fsm := set_config fsm (rc_name fsm) (min_backoff fsm) (max_backoff fsm)
                 (probe_interval fsm) pas (rc_info fsm) in
    if pas then
      if state_in (rc_state fsm) [S_CONNECTING; S_RECONNECT] then backoff_now fsm now else fsm
    else if decide (rc_state fsm = S_LISTENING) then
      let '(fsm, may_retry) := reconnect_may_retry fsm in
      if may_retry then backoff_now fsm now else fsm
    else fsm.

Definition reconnect_is_enabled (fsm : reconnect) : bool :=
  negb (bool_decide (rc_state fsm = S_VOID)).

Definition reconnect_enable (fsm : reconnect) (now : Z) : reconnect :=
  if decide (rc_state fsm = S_VOID) then
    let '(fsm, may_retry) := reconnect_may_retry fsm in
    if may_retry then backoff_now fsm now else fsm
  else fsm.

Definition reconnect_disable (fsm : reconnect) (now : Z) : reconnect :=
  if decide (rc_state fsm = S_VOID) then fsm else reconnect_transition__ fsm now S_VOID.

Definition reconnect_force_reconnect (fsm : reconnect) (now : Z) : reconnect :=
  if state_in (rc_state fsm) [S_CONNECTING; S_ACTIVE; S_IDLE]
  then reconnect_transition__ fsm now S_RECONNECT else fsm.

(** The backoff after a disconnection. *)
Definition disconnected_backoff (fsm : reconnect) : Z :=
  if state_in (rc_state fsm) [S_ACTIVE; S_IDLE]
     && ((backoff fsm <=? last_activity fsm - last_connected fsm) || passive fsm)
  then if passive fsm then 0 else min_backoff fsm
  else if backoff fsm <? min_backoff fsm then min_backoff fsm
  else if Z.quot (max_backoff fsm) 2 <=? backoff fsm then max_backoff fsm
  else backoff fsm * 2.

(** [error] only selects a log message. *)
Definition reconnect_disconnected (fsm : reconnect) (now : Z) (error : Z) : reconnect :=
  if state_in (rc_state fsm) [S_BACKOFF; S_VOID] then fsm
  else
    let fsm := if state_in (rc_state fsm) [S_ACTIVE; S_IDLE]
               then set_last_disconnected fsm now else fsm in
    let '(fsm, may_retry) := reconnect_may_retry (set_backoff_field fsm (disconnected_backoff fsm)) in
    reconnect_transition__ fsm now (if may_retry then S_BACKOFF else S_VOID).

Definition reconnect_connecting (fsm : reconnect) (now : Z) : reconnect :=
  if decide (rc_state fsm = S_CONNECTING) then fsm
  else reconnect_transition__ fsm now S_CONNECTING.

Definition reconnect_listening (fsm : reconnect) (now : Z) : reconnect :=
  if decide (rc_state fsm = S_LISTENING) then fsm
  else reconnect_transition__ fsm now S_LISTENING.

Definition reconnect_listen_error (fsm : reconnect) (now error : Z) : reconnect :=
  if decide (rc_state fsm = S_LISTENING) then reconnect_disconnected fsm now error else fsm.

Definition reconnect_connected (fsm : reconnect) (now : Z) : reconnect :=
  if is_connected_state (rc_state fsm) then fsm
  else set_last_connected
         (reconnect_transition__ (reconnect_connecting fsm now) now S_ACTIVE) now.

Definition reconnect_connect_failed (fsm : reconnect) (now error : Z) : reconnect :=
  reconnect_disconnected (reconnect_connecting fsm now) now error.

Definition reconnect_activity (fsm : reconnect) (now : Z) : reconnect :=
  set_last_activity
    (if decide (rc_state fsm = S_ACTIVE) then fsm else reconnect_transition__ fsm now S_ACTIVE)
    now.

(** Times are those of time_msec(), which stay away from the ends of long long
    int, so that the sums do not overflow; the assertion that [state_entered]
    is not LLONG_MIN holds as no call is made at that time
    ([state_entered_from_calls]). *)
Definition reconnect_deadline__ (fsm : reconnect) : Z :=
  match rc_state fsm with
  | S_VOID | S_LISTENING => LLONG_MAX
  | S_BACKOFF => state_entered fsm + backoff fsm
  | S_CONNECTING => state_entered fsm + Z.max 1000 (backoff fsm)
  | S_ACTIVE =>
      if probe_interval fsm =? 0 then LLONG_MAX
      else Z.max (last_activity fsm) (state_entered fsm) + probe_interval fsm
  | S_IDLE =>
      if probe_interval fsm =? 0 then LLONG_MAX
      else state_entered fsm + probe_interval fsm
  | S_RECONNECT => state_entered fsm
  end.

(** [None] is the action 0. *)
Inductive reconnect_action := RECONNECT_CONNECT | RECONNECT_DISCONNECT | RECONNECT_PROBE.

Definition reconnect_run (fsm : reconnect) (now : Z) : reconnect * option reconnect_action :=
  if reconnect_deadline__ fsm <=? now then
    match rc_state fsm with
    | S_VOID => (fsm, None)
    | S_BACKOFF => (fsm, Some RECONNECT_CONNECT)
    | S_CONNECTING => (fsm, Some RECONNECT_DISCONNECT)
    | S_ACTIVE => (reconnect_transition__ fsm now S_IDLE, Some RECONNECT_PROBE)
    | S_IDLE => (fsm, Some RECONNECT_DISCONNECT)
    | S_RECONNECT => (fsm, Some RECONNECT_DISCONNECT)
    | S_LISTENING => (fsm, None)
    end
  else (fsm, None).

Definition reconnect_timeout (fsm : reconnect) (now : Z) : Z :=
  let deadline := reconnect_deadline__ fsm in
  if deadline =? LLONG_MAX then -1 else Z.max 0 (Z.min INT_MAX (deadline - now)).

Definition reconnect_is_connected (fsm : reconnect) : bool := is_connected_state (rc_state fsm).

Definition reconnect_get_last_connect_elapsed (fsm : reconnect) (now : Z) : Z :=
  if last_connected fsm =? LLONG_MAX then UINT_MAX else u32 (now - last_connected fsm).

Definition reconnect_get_last_disconnect_elapsed (fsm : reconnect) (now : Z) : Z :=
  if last_disconnected fsm =? LLONG_MAX then UINT_MAX else u32 (now - last_disconnected fsm).

Record reconnect_stats := ReconnectStats {
  st_creation_time : Z; st_last_activity : Z; st_last_connected : Z; st_last_disconnected : Z;
  st_backoff : Z; st_seqno : Z; st_is_connected : bool; st_msec_since_connect : Z;
  st_msec_since_disconnect : Z; st_total_connected_duration : Z;
  st_n_attempted_connections : Z; st_n_successful_connections : Z;
  st_state : string; st_state_elapsed : Z
}.

Definition reconnect_get_stats (fsm : reconnect) (now : Z) : reconnect_stats :=
  {| st_creation_time := creation_time fsm;
     st_last_activity := last_activity fsm;
     st_last_connected := last_connected fsm;
     st_last_disconnected := last_disconnected fsm;
     st_backoff := backoff fsm;
     st_seqno := seqno fsm;
     st_is_connected := reconnect_is_connected fsm;
     st_msec_since_connect := reconnect_get_last_connect_elapsed fsm now;
     st_msec_since_disconnect := reconnect_get_last_disconnect_elapsed fsm now;
     st_total_connected_duration :=
       u32 (total_connected_duration fsm
            + if is_connected_state (rc_state fsm)
              then reconnect_get_last_connect_elapsed fsm now else 0);
     st_n_attempted_connections := n_attempted_connections fsm;
     st_n_successful_connections := n_successful_connections fsm;
     st_state := reconnect_state_name__ (rc_state fsm);
     st_state_elapsed := u32 (now - state_entered fsm) |}.

(** ** Event sequences *)

Inductive rc_event :=
| EvSetQuiet (quiet : bool) | EvSetName (name : option string)
| EvSetMaxTries (n : Z) | EvSetBackoff (minb maxb : Z) | EvSetProbeInterval (p : Z)
| EvSetPassive (pas : bool) | EvEnable | EvDisable | EvForceReconnect
| EvDisconnected (error : Z) | EvConnecting | EvListening | EvListenError (error : Z)
| EvConnected | EvConnectFailed (error : Z) | EvActivity | EvRun.

Definition rc_step (fsm : reconnect) (now : Z) (e : rc_event) : reconnect :=
  match e with
  | EvSetQuiet q => reconnect_set_quiet fsm q
  | EvSetName n => reconnect_set_name fsm n
  | EvSetMaxTries n => reconnect_set_max_tries fsm n
  | EvSetBackoff a b => reconnect_set_backoff fsm a b
  | EvSetProbeInterval p => reconnect_set_probe_interval fsm p
  | EvSetPassive b => reconnect_set_passive fsm b now
  | EvEnable => reconnect_enable fsm now
  | EvDisable => reconnect_disable fsm now
  | EvForceReconnect => reconnect_force_reconnect fsm now
  | EvDisconnected err => reconnect_disconnected fsm now err
  | EvConnecting => reconnect_connecting fsm now
  | EvListening => reconnect_listening fsm now
  | EvListenError err => reconnect_listen_error fsm now err
  | EvConnected => reconnect_connected fsm now
  | EvConnectFailed err => reconnect_connect_failed fsm now err
  | EvActivity => reconnect_activity fsm now
  | EvRun => (reconnect_run fsm now).1
  end.

(** The calls of a client, each with its time. *)
Definition rc_runs (fsm : reconnect) (evs : list (Z * rc_event)) : reconnect :=
  foldl (λ f '(now, e), rc_step f now e) fsm evs.

Ltac rc_cases :=
  repeat match goal with
  | |- context [decide ?P] => destruct (decide P); simpl; try done
  | |- context [if ?b then _ else _] => destruct b eqn:?; simpl; try done
  end.

(** *** Transitions *)

Lemma transition_config fsm now s :
  let f := reconnect_transition__ fsm now s in
  min_backoff f = min_backoff fsm ∧ max_backoff f = max_backoff fsm
  ∧ probe_interval f = probe_interval fsm ∧ passive f = passive fsm
  ∧ rc_state f = s ∧ state_entered f = now ∧ backoff f = backoff fsm
  ∧ last_activity f = last_activity fsm ∧ last_connected f = last_connected fsm
  ∧ last_disconnected f = last_disconnected fsm ∧ max_tries f = max_tries fsm.
Proof. unfold reconnect_transition__. by rc_cases. Qed.

Lemma transition_entered fsm now s : state_entered (reconnect_transition__ fsm now s) = now.
Proof. apply transition_config. Qed.

Lemma rc_step_entered fsm now e : state_entered (rc_step fsm now e) = state_entered fsm ∨ state_entered (rc_step fsm now e) = now.
Proof.
  destruct e; cbn [rc_step]; unfold reconnect_set_passive, reconnect_enable, reconnect_disable, reconnect_force_reconnect, reconnect_listen_error,
    reconnect_connect_failed, reconnect_listening, reconnect_connected, reconnect_activity, reconnect_run, reconnect_connecting, reconnect_disconnected,
    reconnect_set_backoff, reconnect_may_retry;
  repeat (case_match; simplify_eq/=); rewrite ?transition_entered; auto.
Qed.

(** The assertion of reconnect_deadline__(): the time a state was entered is
    the time of a call. *)
Lemma state_entered_from_calls start evs :
  state_entered (rc_runs (reconnect_create start) evs) ∈ start :: (fst <$> evs).
Proof.
  change start with (state_entered (reconnect_create start)) at 2. generalize (reconnect_create start). unfold rc_runs.
  induction evs as [|[now e] evs IH]; intros fsm; [apply list_elem_of_here|]. simpl.
  specialize (IH (rc_step fsm now e)). destruct (rc_step_entered fsm now e) as [E|E]; rewrite E in IH; set_solver.
Qed.

Lemma transition_seqno fsm now s :
  seqno (reconnect_transition__ fsm now s) =
  if Bool.eqb (is_connected_state (rc_state fsm)) (is_connected_state s)
  then seqno fsm else u32 (seqno fsm + 1).
Proof. unfold reconnect_transition__. by rc_cases. Qed.

Definition parity_ok (fsm : reconnect) : Prop :=
  Z.odd (seqno fsm) = reconnect_is_connected fsm.

Lemma odd_u32 x : Z.odd (u32 x) = Z.odd x.
Proof.
  unfold wrap. rewrite (Z.div_mod x (2 ^ 32)) at 2 by lia.
  rewrite Z.odd_add, Z.odd_mul. done.
Qed.

Lemma transition_parity fsm now s : parity_ok fsm → parity_ok (reconnect_transition__ fsm now s).
Proof.
  unfold parity_ok, reconnect_is_connected. intros H.
  destruct (transition_config fsm now s) as (_ & _ & _ & _ & -> & _).
  rewrite transition_seqno.
  destruct (is_connected_state (rc_state fsm)), (is_connected_state s); simpl;
    rewrite ?odd_u32, ?Z.odd_add, H; done.
Qed.

Definition config_ok (fsm : reconnect) : Prop :=
  1000 ≤ min_backoff fsm ∧ min_backoff fsm ≤ max_backoff fsm
  ∧ (probe_interval fsm = 0 ∨ 1000 ≤ probe_interval fsm).

Definition rc_ok (fsm : reconnect) : Prop := config_ok fsm ∧ parity_ok fsm.

Lemma transition_ok fsm now s : rc_ok fsm → rc_ok (reconnect_transition__ fsm now s).
Proof.
  intros [Hc Hp]. split; [|by apply transition_parity].
  destruct (transition_config fsm now s) as (H1 & H2 & H3 & _).
  unfold config_ok. by rewrite H1, H2, H3.
Qed.

Lemma may_retry_ok fsm : rc_ok fsm → rc_ok (reconnect_may_retry fsm).1.
Proof. unfold reconnect_may_retry. rc_cases. Qed.

Lemma backoff_now_ok fsm now : rc_ok fsm → rc_ok (backoff_now fsm now).
Proof. intros H%(transition_ok _ now S_BACKOFF). done. Qed.

Create HintDb rc.
#[local] Hint Resolve transition_ok may_retry_ok backoff_now_ok : rc.

Lemma disconnected_ok fsm now err : rc_ok fsm → rc_ok (reconnect_disconnected fsm now err).
Proof.
  intros H. unfold reconnect_disconnected. destruct (state_in _ _); [done|].
  destruct (reconnect_may_retry _) as [f b] eqn:E. apply transition_ok.
  change f with (f, b).1. rewrite <- E. apply may_retry_ok.
  by destruct (state_in (rc_state fsm) [S_ACTIVE; S_IDLE]).
Qed.

Lemma connecting_ok fsm now : rc_ok fsm → rc_ok (reconnect_connecting fsm now).
Proof. unfold reconnect_connecting. rc_cases; auto with rc. Qed.

Lemma enable_branch_ok fsm now :
  rc_ok fsm →
  rc_ok (let '(f, may_retry) := reconnect_may_retry fsm in if may_retry then backoff_now f now else f).
Proof.
  intros H%may_retry_ok. destruct (reconnect_may_retry fsm) as [f []]; simpl in *; auto with rc.
Qed.

#[local] Hint Resolve disconnected_ok connecting_ok enable_branch_ok : rc.

Lemma rc_step_ok fsm now e : rc_ok fsm → rc_ok (rc_step fsm now e).
Proof.
  intros H. destruct e; simpl; try done.
  - (* set_backoff *)
    unfold reconnect_set_backoff. destruct H as [[H1 [H2 H3]] Hp].
    assert (Hc : rc_ok (set_config fsm (rc_name fsm) (Z.max minb 1000)
      (if (if maxb =? 0 then RECONNECT_DEFAULT_MAX_BACKOFF else Z.max maxb 1000) <? Z.max minb 1000
       then Z.max minb 1000
       else if maxb =? 0 then RECONNECT_DEFAULT_MAX_BACKOFF else Z.max maxb 1000)
      (probe_interval fsm) (passive fsm) (rc_info fsm))).
    { split; [|done]. unfold config_ok. simpl.
      destruct (Z.ltb_spec (if maxb =? 0 then RECONNECT_DEFAULT_MAX_BACKOFF else Z.max maxb 1000)
        (Z.max minb 1000)); lia. }
    simpl in *. by destruct (_ && _).
  - (* set_probe_interval *)
    destruct H as [[H1 [H2 H3]] Hp]. split; [|done]. unfold config_ok. simpl.
    destruct (Z.eqb_spec p 0); lia.
  - (* set_passive *)
    unfold reconnect_set_passive.
    assert (Hc : rc_ok (set_config fsm (rc_name fsm) (min_backoff fsm) (max_backoff fsm)
                          (probe_interval fsm) pas (rc_info fsm))) by done.
    destruct (Bool.eqb _ _); [done|]. destruct pas; [|case_decide]; auto with rc.
    destruct (state_in _ _); auto with rc.
  - unfold reconnect_enable. case_decide; auto with rc.
  - unfold reconnect_disable. case_decide; auto with rc.
  - unfold reconnect_force_reconnect. destruct (state_in _ _); auto with rc.
  - auto with rc.
  - auto with rc.
  - unfold reconnect_listening. case_decide; auto with rc.
  - unfold reconnect_listen_error. case_decide; auto with rc.
  - unfold reconnect_connected. destruct (is_connected_state _); [done|].
    apply (transition_ok _ now S_ACTIVE), connecting_ok, H.
  - unfold reconnect_connect_failed. auto with rc.
  - unfold reconnect_activity. case_decide; [done|]. by apply (transition_ok _ now S_ACTIVE).
  - unfold reconnect_run. destruct (_ <=? _), (rc_state fsm); simpl; auto with rc.
Qed.

(** *** Backoff *)

(** The backoff after a failure that does not follow a stable connection. *)
Definition next_backoff (fsm : reconnect) (b : Z) : Z :=
  if b <? min_backoff fsm then min_backoff fsm
  else if Z.quot (max_backoff fsm) 2 <=? b then max_backoff fsm
  else b * 2.

Lemma backoff_now_config fsm now :
  rc_state (backoff_now fsm now) = S_BACKOFF ∧ max_tries (backoff_now fsm now) = max_tries fsm.
Proof. by destruct (transition_config fsm now S_BACKOFF) as (_&_&_&_&?&_&_&_&_&_&?). Qed.

Lemma may_retry_config fsm :
  let f := (reconnect_may_retry fsm).1 in
  min_backoff f = min_backoff fsm ∧ max_backoff f = max_backoff fsm ∧ backoff f = backoff fsm
  ∧ last_disconnected f = last_disconnected fsm ∧ rc_state f = rc_state fsm
  ∧ (reconnect_may_retry fsm).2 = (0 <? max_tries fsm)
  ∧ max_tries f = if (0 <? max_tries fsm) && negb (max_tries fsm =? UINT_MAX)
                  then max_tries fsm - 1 else max_tries fsm.
Proof. unfold reconnect_may_retry. by rc_cases. Qed.

#[local] Arguments reconnect_may_retry : simpl never.
#[local] Arguments reconnect_transition__ : simpl never.

Lemma disconnected_config fsm now err :
  state_in (rc_state fsm) [S_BACKOFF; S_VOID] = false →
  let f := reconnect_disconnected fsm now err in
  min_backoff f = min_backoff fsm ∧ max_backoff f = max_backoff fsm
  ∧ backoff f = disconnected_backoff fsm
  ∧ rc_state f = (if 0 <? max_tries fsm then S_BACKOFF else S_VOID)
  ∧ last_disconnected f = (if reconnect_is_connected fsm then now else last_disconnected fsm)
  ∧ max_tries f = if (0 <? max_tries fsm) && negb (max_tries fsm =? UINT_MAX)
                  then max_tries fsm - 1 else max_tries fsm.
Proof.
  intros Hs. unfold reconnect_disconnected. rewrite Hs.
  unfold reconnect_is_connected, is_connected_state.
  set (g := if state_in (rc_state fsm) [S_ACTIVE; S_IDLE] then set_last_disconnected fsm now else fsm).
  assert (Hg : disconnected_backoff g = disconnected_backoff fsm ∧ min_backoff g = min_backoff fsm
    ∧ max_backoff g = max_backoff fsm ∧ max_tries g = max_tries fsm
    ∧ last_disconnected g = if state_in (rc_state fsm) [S_ACTIVE; S_IDLE] then now
                            else last_disconnected fsm)
    by (unfold g; by destruct (state_in (rc_state fsm) [S_ACTIVE; S_IDLE])).
  destruct Hg as (-> & Hg2 & Hg3 & Hg4 & Hg5).
  pose proof (may_retry_config (set_backoff_field g (disconnected_backoff fsm))) as H.
  destruct (reconnect_may_retry _) as [h b]. simpl in H.
  destruct H as (G1 & G2 & G3 & G4 & _ & -> & G6). cbv zeta.
  destruct (transition_config h now (if 0 <? max_tries g then S_BACKOFF else S_VOID))
    as (-> & -> & _ & _ & -> & _ & -> & _ & _ & -> & ->).
  rewrite G1, G2, G3, G4, G6, Hg2, Hg3, Hg4, Hg5. done.
Qed.

Lemma connecting_config fsm now :
  let f := reconnect_connecting fsm now in
  min_backoff f = min_backoff fsm ∧ max_backoff f = max_backoff fsm ∧ backoff f = backoff fsm
  ∧ rc_state f = S_CONNECTING ∧ max_tries f = max_tries fsm.
Proof.
  unfold reconnect_connecting. case_decide as H; simpl; [done|].
  by destruct (transition_config fsm now S_CONNECTING) as (?&?&?&?&?&?&?&?&?&?&?).
Qed.

Lemma connect_failed_config fsm now err :
  let f := reconnect_connect_failed fsm now err in
  min_backoff f = min_backoff fsm ∧ max_backoff f = max_backoff fsm
  ∧ backoff f = next_backoff fsm (backoff fsm)
  ∧ rc_state f = (if 0 <? max_tries fsm then S_BACKOFF else S_VOID)
  ∧ max_tries f = if (0 <? max_tries fsm) && negb (max_tries fsm =? UINT_MAX)
                  then max_tries fsm - 1 else max_tries fsm.
Proof.
  destruct (connecting_config fsm now) as (H1 & H2 & H3 & H5 & H6). simpl.
  unfold reconnect_connect_failed.
  destruct (disconnected_config (reconnect_connecting fsm now) now err)
    as (-> & -> & -> & -> & _ & ->); [by rewrite H5|].
  unfold disconnected_backoff, next_backoff. rewrite H1, H2, H3, H5, H6. done.
Qed.

(** A run of failed connection attempts, at the given times. *)
Definition failures (fsm : reconnect) (ts : list (Z * Z)) : reconnect :=
  foldl (λ f '(now, err), reconnect_connect_failed f now err) fsm ts.

Lemma failures_snoc fsm ts now err :
  failures fsm (ts ++ [(now, err)]) = reconnect_connect_failed (failures fsm ts) now err.
Proof. unfold failures. by rewrite foldl_app. Qed.

Lemma failures_config fsm ts :
  min_backoff (failures fsm ts) = min_backoff fsm ∧ max_backoff (failures fsm ts) = max_backoff fsm.
Proof.
  induction ts as [|[now err] ts IH] using rev_ind; [done|]. rewrite failures_snoc.
  destruct (connect_failed_config (failures fsm ts) now err) as (-> & -> & _). done.
Qed.

Lemma failures_backoff fsm ts n :
  1000 ≤ min_backoff fsm ≤ max_backoff fsm → backoff fsm < min_backoff fsm →
  length ts = S n →
  let b := backoff (failures fsm ts) in
  (b = min_backoff fsm * 2 ^ Z.of_nat n ∧ b ≤ max_backoff fsm)
  ∨ (b = max_backoff fsm ∧ max_backoff fsm ≤ min_backoff fsm * 2 ^ Z.of_nat n + 1).
Proof.
  intros Hc Hb. revert n. induction ts as [|[now err] ts IH] using rev_ind; intros n Hl; [done|].
  rewrite length_app in Hl. simpl in Hl. rewrite failures_snoc.
  destruct (failures_config fsm ts) as [Hmin Hmax].
  destruct (connect_failed_config (failures fsm ts) now err) as (_ & _ & -> & _).
  unfold next_backoff. rewrite Hmin, Hmax.
  pose proof (Z.quot_div_nonneg (max_backoff fsm) 2 ltac:(lia) ltac:(lia)) as Hq. rewrite Hq.
  destruct n as [|n].
  - assert (ts = []) as -> by (apply nil_length_inv; lia). simpl.
    rewrite (proj2 (Z.ltb_lt _ _)) by done. left. lia.
  - assert (Hpow : min_backoff fsm * 2 ^ Z.of_nat (S n) = 2 * (min_backoff fsm * 2 ^ Z.of_nat n)).
    { rewrite Nat2Z.inj_succ, Z.pow_succ_r by lia. lia. }
    assert (0 < 2 ^ Z.of_nat n) by (apply Z.pow_pos_nonneg; lia).
    specialize (IH n ltac:(lia)). cbv zeta in IH. rewrite Hpow.
    set (P := min_backoff fsm * 2 ^ Z.of_nat n) in *.
    assert (min_backoff fsm ≤ P) by nia. clear Hpow. clearbody P.
    pose proof (Z.div_mod (max_backoff fsm) 2 ltac:(lia)).
    pose proof (Z.mod_pos_bound (max_backoff fsm) 2 ltac:(lia)).
    destruct (Z.ltb_spec (backoff (failures fsm ts)) (min_backoff fsm)); [lia|].
    destruct (Z.leb_spec (max_backoff fsm / 2) (backoff (failures fsm ts))); cbv zeta; lia.
Qed.

(** *** Keepalive *)

(** The events of a client that has a connection and only uses it. *)
Definition is_use (e : Z * rc_event) : bool :=
  match e.2 with EvRun | EvActivity => true | _ => false end.

Definition keepalive_inv (p : Z) (fsm : reconnect) : Prop :=
  probe_interval fsm = p ∧
  (rc_state fsm = S_ACTIVE
   ∨ rc_state fsm = S_IDLE ∧ last_activity fsm + p ≤ state_entered fsm).

Lemma keepalive_step p fsm now e :
  0 < p → keepalive_inv p fsm → is_use (now, e) = true → keepalive_inv p (rc_step fsm now e).
Proof.
  intros Hp [Hpi Hs] He. destruct e; try done; simpl.
  - unfold reconnect_activity. case_decide as Ha; [split; [done|by left]|].
    destruct (transition_config fsm now S_ACTIVE) as (_ & _ & H3 & _ & H5 & _).
    split; [by rewrite <- Hpi, <- H3|by left].
  - unfold reconnect_run, reconnect_deadline__. rewrite Hpi, (proj2 (Z.eqb_neq p 0)) by lia.
    destruct Hs as [Hs|[Hs Ht]]; rewrite Hs.
    + destruct (Z.leb_spec (Z.max (last_activity fsm) (state_entered fsm) + p) now); simpl.
      * destruct (transition_config fsm now S_IDLE) as (_&_&H3&_&H5&H6&_&H8&_).
        split; [congruence|]. right. rewrite H5, H6, H8. split; [done|lia].
      * split; [done|by left].
    + destruct (_ <=? _); (split; [done|right; done]).
Qed.

Lemma keepalive_runs p fsm evs :
  0 < p → keepalive_inv p fsm → forallb is_use evs = true → keepalive_inv p (rc_runs fsm evs).
Proof.
  intros Hp. revert fsm. induction evs as [|[now e] evs IH]; intros fsm Hi Hu; [done|].
  cbn [forallb] in Hu. apply andb_true_iff in Hu as [Hu1 Hu2].
  apply IH; [|done]. by apply keepalive_step.
Qed.

(** ** Theorems *)

(** C39: whatever the client calls, the configuration stays in range
    ([1000 <= min_backoff <= max_backoff], and the probe interval is off or at
    least a second), and the sequence number is odd exactly when the machine is
    connected, so a change of parity is a change of connection state. *)
Theorem reconnect_invariant (start : Z) (evs : list (Z * rc_event)) :
  let fsm := rc_runs (reconnect_create start) evs in
  1000 ≤ min_backoff fsm ≤ max_backoff fsm
  ∧ (probe_interval fsm = 0 ∨ 1000 ≤ probe_interval fsm)
  ∧ Z.odd (seqno fsm) = reconnect_is_connected fsm.
Proof.
  assert (H : ∀ f, rc_ok f → rc_ok (rc_runs f evs)).
  { induction evs as [|[now e] evs IH]; intros f Hf; [done|]. by apply IH, rc_step_ok. }
  destruct (H (reconnect_create start)) as [(H1 & H2 & H3) H4]; [|by split_and!].
  split; [|done]. split_and!; [by vm_compute|by vm_compute|right; by vm_compute].
Qed.

(** the backoff doubles: after [n + 1] failed attempts in a row it is
    [min_backoff * 2^n], cut off at [max_backoff]; the one deviation is that an
    odd [max_backoff] may be reached one millisecond early. *)
Theorem reconnect_backoff_exponential (fsm : reconnect) (ts : list (Z * Z)) (n : nat) :
  1000 ≤ min_backoff fsm ≤ max_backoff fsm → backoff fsm < min_backoff fsm → length ts = S n →
  Z.min (max_backoff fsm) (min_backoff fsm * 2 ^ Z.of_nat n) ≤ backoff (failures fsm ts)
  ≤ Z.min (max_backoff fsm) (min_backoff fsm * 2 ^ Z.of_nat n + 1).
Proof.
  intros Hc Hb Hl. destruct (failures_backoff fsm ts n Hc Hb Hl) as [[H1 H2]|[H1 H2]]; lia.
Qed.

Lemma reconnect_backoff_exponential_witness :
  4000 ≤ backoff (failures (reconnect_create 0) [(0, 5); (1000, 5); (2000, 5)]) ≤ 4001.
Proof.
  exact (reconnect_backoff_exponential (reconnect_create 0) [(0, 5); (1000, 5); (2000, 5)] 2
    ltac:(vm_compute; split; discriminate) ltac:(vm_compute; reflexivity) eq_refl).
Defined.

(** [reconnect_disconnected] leaves a backoff between [min_backoff] and
    [max_backoff] for an active client, and starts again from [min_backoff]
    after a connection that was in use for at least the previous backoff. *)
Theorem reconnect_disconnected_backoff (fsm : reconnect) (now err : Z) :
  1000 ≤ min_backoff fsm ≤ max_backoff fsm → passive fsm = false →
  state_in (rc_state fsm) [S_BACKOFF; S_VOID] = false →
  let f := reconnect_disconnected fsm now err in
  min_backoff fsm ≤ backoff f ≤ max_backoff fsm
  ∧ (reconnect_is_connected fsm = true → last_disconnected f = now)
  ∧ (reconnect_is_connected fsm = true → backoff fsm ≤ last_activity fsm - last_connected fsm →
     backoff f = min_backoff fsm)
  ∧ reconnect_is_connected f = false.
Proof.
  intros Hc Hpas Hs f. unfold f.
  destruct (disconnected_config fsm now err Hs) as (_ & _ & -> & Hst & -> & _).
  unfold reconnect_is_connected in *. rewrite Hst.
  pose proof (Z.quot_div_nonneg (max_backoff fsm) 2 ltac:(lia) ltac:(lia)) as Hq.
  pose proof (Z.div_mod (max_backoff fsm) 2 ltac:(lia)).
  pose proof (Z.mod_pos_bound (max_backoff fsm) 2 ltac:(lia)).
  unfold disconnected_backoff. rewrite Hpas, Hq, orb_false_r. fold (is_connected_state (rc_state fsm)).
  split_and!; [| |by intros ->|by intros -> Hle%Z.leb_le; rewrite Hle|by destruct (0 <? max_tries fsm)];
    destruct (is_connected_state (rc_state fsm)); simpl;
    repeat match goal with |- context [?x <=? ?y] => destruct (Z.leb_spec x y)
           | |- context [?x <? ?y] => destruct (Z.ltb_spec x y) end; lia.
Qed.

Lemma reconnect_disconnected_backoff_witness :
  let fsm := reconnect_activity (reconnect_connected (reconnect_create 0) 10) 20 in
  last_disconnected (reconnect_disconnected fsm 30 0) = 30
  ∧ backoff (reconnect_disconnected fsm 30 0) = 1000.
Proof.
  destruct (reconnect_disconnected_backoff
    (reconnect_activity (reconnect_connected (reconnect_create 0) 10) 20) 30 0
    ltac:(vm_compute; split; discriminate) eq_refl eq_refl) as (_ & H1 & H2 & _).
  split; [exact (H1 eq_refl)|]. apply H2; [reflexivity|vm_compute; discriminate].
Defined.

(** [reconnect_timeout] is right about [reconnect_run]: before it
    expires [reconnect_run] returns 0 and changes nothing, when it expires (if
    it was not cut off at [INT_MAX]) [reconnect_run] asks for an action, and
    when it is negative [reconnect_run] never does. *)
Theorem reconnect_timeout_correct (fsm : reconnect) (now : Z) :
  let t := reconnect_timeout fsm now in
  (∀ now', now ≤ now' < LLONG_MAX → t < 0 ∨ now' < now + t → reconnect_run fsm now' = (fsm, None))
  ∧ (0 ≤ t < INT_MAX → (reconnect_run fsm (now + t)).2 ≠ None).
Proof.
  unfold reconnect_timeout, reconnect_run.
  destruct (Z.eqb_spec (reconnect_deadline__ fsm) LLONG_MAX) as [He|Hne].
  - split; [|lia]. intros now' Hn _. rewrite (proj2 (Z.leb_gt _ _)) by lia. done.
  - split.
    + intros now' Hn Ht. rewrite (proj2 (Z.leb_gt _ _)) by lia. done.
    + intros Ht. rewrite (proj2 (Z.leb_le _ _)) by lia.
      unfold reconnect_deadline__ in Hne. destruct (rc_state fsm); done.
Qed.

(** C33: keepalive: on a connection with a probe interval [p] that the client
    only uses and polls, [reconnect_run] asks to drop the connection only when
    at least [2 p] milliseconds have passed since the last activity. *)
Theorem reconnect_keepalive (fsm : reconnect) (evs : list (Z * rc_event)) (now : Z) :
  rc_state fsm = S_ACTIVE → 0 < probe_interval fsm → forallb is_use evs = true →
  let f := rc_runs fsm evs in
  (reconnect_run f now).2 = Some RECONNECT_DISCONNECT →
  last_activity f + 2 * probe_interval fsm ≤ now.
Proof.
  intros Hs Hp Hu f. destruct (keepalive_runs (probe_interval fsm) fsm evs Hp) as [Hpi Hst];
    [split; [done|by left]|done|]. fold f in Hpi, Hst.
  unfold reconnect_run, reconnect_deadline__. rewrite Hpi, (proj2 (Z.eqb_neq _ 0)) by lia.
  destruct Hst as [->|[-> Ht]].
  - by destruct (_ <=? _).
  - destruct (Z.leb_spec (state_entered f + probe_interval fsm) now); [|done]. lia.
Qed.

Lemma reconnect_keepalive_witness :
  let fsm := reconnect_connected (reconnect_create 0) 10 in
  let f := rc_runs fsm [(20, EvActivity); (5020, EvRun)] in
  (reconnect_run f 10020).2 = Some RECONNECT_DISCONNECT
  ∧ last_activity f + 2 * probe_interval fsm ≤ 10020.
Proof.
  split; [vm_compute; reflexivity|].
  apply (reconnect_keepalive (reconnect_connected (reconnect_create 0) 10)
           [(20, EvActivity); (5020, EvRun)] 10020); vm_compute; reflexivity.
Defined.

(** a limit of [n] tries allows exactly [n] attempts: after enabling and
    [k] failed attempts the machine is still willing to connect if [k < n] and
    has disabled itself otherwise. *)
Theorem reconnect_max_tries_respected (fsm : reconnect) (n now : Z) (ts : list (Z * Z)) :
  rc_state fsm = S_VOID → 0 ≤ n < UINT_MAX →
  rc_state (failures (reconnect_enable (reconnect_set_max_tries fsm n) now) ts) =
  if Z.of_nat (length ts) <? n then S_BACKOFF else S_VOID.
Proof.
  intros Hv Hn. set (f0 := reconnect_enable _ now).
  assert (H0 : rc_state f0 = (if 0 <? n then S_BACKOFF else S_VOID) ∧ max_tries f0 = Z.max 0 (n - 1)).
  { unfold f0, reconnect_enable. rewrite decide_True by done.
    pose proof (may_retry_config (reconnect_set_max_tries fsm n)) as H.
    destruct (reconnect_may_retry _) as [g b]. simpl in H. destruct H as (_&_&_&_&Hst&->&Hmt).
    rewrite (proj2 (Z.eqb_neq n UINT_MAX)), andb_true_r in Hmt by lia.
    destruct (Z.ltb_spec 0 n); simpl in Hmt.
    - destruct (backoff_now_config g now) as [-> ->]. split; [done|lia].
    - split; [congruence|lia]. }
  assert (H : rc_state (failures f0 ts) = (if Z.of_nat (length ts) <? n then S_BACKOFF else S_VOID)
    ∧ max_tries (failures f0 ts) = Z.max 0 (n - 1 - Z.of_nat (length ts))).
  { induction ts as [|[t err] ts IH] using rev_ind.
    { simpl. destruct H0 as [-> ->]. split; [done|lia]. }
    destruct IH as [_ IH]. rewrite failures_snoc.
    destruct (connect_failed_config (failures f0 ts) t err) as (_ & _ & _ & -> & ->).
    rewrite IH, length_app. simpl. rewrite (proj2 (Z.eqb_neq _ UINT_MAX)) by lia.
    rewrite andb_true_r. split.
    - destruct (Z.ltb_spec 0 (Z.max 0 (n - 1 - Z.of_nat (length ts))));
        destruct (Z.ltb_spec (Z.of_nat (length ts + 1)) n); done || lia.
    - destruct (Z.ltb_spec 0 (Z.max 0 (n - 1 - Z.of_nat (length ts)))); lia. }
  apply H.
Qed.

Lemma reconnect_max_tries_respected_witness :
  rc_state (failures (reconnect_enable (reconnect_set_max_tries (reconnect_create 0) 2) 0)
              [(0, 5); (1000, 5)]) = S_VOID.
Proof.
  apply (reconnect_max_tries_respected (reconnect_create 0) 2 0 [(0, 5); (1000, 5)]).
  - reflexivity.
  - vm_compute. split; [discriminate|reflexivity].
Defined.

(** Passing 0 to [reconnect_set_backoff] is documented to select the defaults,
    but while backing off the raw argument also becomes the current backoff, so
    the wait ends at once, below [min_backoff]. *)
Lemma reconnect_set_backoff_zero (fsm : reconnect) :
  rc_state fsm = S_BACKOFF → 0 < backoff fsm →
  let f := reconnect_set_backoff fsm 0 0 in
  backoff f = 0 ∧ min_backoff f = RECONNECT_DEFAULT_MIN_BACKOFF
  ∧ max_backoff f = RECONNECT_DEFAULT_MAX_BACKOFF.
Proof.
  intros Hs Hb. unfold reconnect_set_backoff. simpl.
  rewrite bool_decide_true, (proj2 (Z.ltb_lt 0 _)) by done. done.
Qed.

(** A connection dropped on request is not recorded: the machine leaves the
    connected states in [reconnect_force_reconnect], so
    [reconnect_disconnected] does not update [last_disconnected]. *)
Lemma forced_disconnect_not_recorded (fsm : reconnect) (t1 t2 err : Z) :
  reconnect_is_connected fsm = true →
  last_disconnected (reconnect_disconnected (reconnect_force_reconnect fsm t1) t2 err)
  = last_disconnected fsm.
Proof.
  intros Hc. unfold reconnect_force_reconnect.
  assert (state_in (rc_state fsm) [S_CONNECTING; S_ACTIVE; S_IDLE] = true) as ->
    by (unfold reconnect_is_connected in Hc; by destruct (rc_state fsm)).
  destruct (transition_config fsm t1 S_RECONNECT) as (_&_&_&_&Hs&_&_&_&_&Hd&_).
  destruct (disconnected_config (reconnect_transition__ fsm t1 S_RECONNECT) t2 err)
    as (_ & _ & _ & _ & -> & _); [by rewrite Hs|].
  unfold reconnect_is_connected. by rewrite Hs.
Qed.
