(* ===== verification/MatchFields.v ===== *)
(** * Building matches field by field (lib/match.c, lib/flow.c, lib/packets.c)

    The [match_set_*()] functions, over the named fields of [struct flow].  A
    flow is a function from fields to values; the masks of a
    [struct flow_wildcards] are a flow too.  Fields in network byte order
    ([ovs_be16] and so on) are represented by the number they stand for, so
    [htons(C)] is [C]; byte arrays (Ethernet and IPv6 addresses) are the number
    with those bytes, on which byte-wise and bit-wise "and" agree.  The
    [in_port] union is used through its 16-bit OpenFlow member. *)
From S2P Require Import Prelude.

Definition FLOW_N_REGS : nat := 16.

Inductive field :=
| F_tun_id | F_tun_src | F_tun_dst | F_tun_flags | F_tun_tos | F_tun_ttl | F_metadata
| F_ipv6_src | F_ipv6_dst | F_nd_target | F_skb_priority | F_reg (i : nat) | F_nw_src | F_nw_dst
| F_ipv6_label | F_in_port | F_pkt_mark | F_mpls_lse | F_mpls_depth | F_vlan_tci | F_dl_type
| F_tp_src | F_tp_dst | F_tcp_flags | F_dl_src | F_dl_dst | F_nw_proto | F_nw_tos
| F_arp_sha | F_arp_tha | F_nw_ttl | F_nw_frag.

#[global] Instance field_eq_dec : EqDecision field.
Proof. solve_decision. Defined.

Definition field_width (f : field) : Z :=
  match f with
  | F_tun_id | F_metadata => 64
  | F_ipv6_src | F_ipv6_dst | F_nd_target => 128
  | F_tun_src | F_tun_dst | F_skb_priority | F_reg _ | F_nw_src | F_nw_dst | F_ipv6_label
  | F_pkt_mark | F_mpls_lse => 32
  | F_tun_flags | F_in_port | F_mpls_depth | F_vlan_tci | F_dl_type | F_tp_src | F_tp_dst
  | F_tcp_flags => 16
  | F_dl_src | F_dl_dst | F_arp_sha | F_arp_tha => 48
  | F_tun_tos | F_tun_ttl | F_nw_proto | F_nw_tos | F_nw_ttl | F_nw_frag => 8
  end.

Definition flowf := field → Z.

Definition upd (f : field) (v : Z) (fl : flowf) : flowf := λ g, if decide (g = f) then v else fl g.

Definition all_ones (f : field) : Z := 2 ^ field_width f - 1.

(** [~x] of a 16-bit or 32-bit operand only occurs under [&=]. *)
Definition and_not (x mask : Z) : Z := Z.ldiff x mask.

Record fmatch := FMatch { fm_flow : flowf; fm_wc : flowf }.

(** ** Constants *)

Definition VLAN_VID_MASK : Z := 0x0fff.
Definition VLAN_PCP_MASK : Z := 0xe000.
Definition VLAN_PCP_SHIFT : Z := 13.
Definition VLAN_CFI : Z := 0x1000.
Definition OFP10_VLAN_NONE : Z := 0xffff.
Definition MPLS_TTL_MASK : Z := 0xff.
Definition MPLS_TTL_SHIFT : Z := 0.
Definition MPLS_BOS_MASK : Z := 0x100.
Definition MPLS_BOS_SHIFT : Z := 8.
Definition MPLS_TC_MASK : Z := 0xe00.
Definition MPLS_TC_SHIFT : Z := 9.
Definition MPLS_LABEL_MASK : Z := 0xfffff000.
Definition MPLS_LABEL_SHIFT : Z := 12.
Definition IP_ECN_MASK : Z := 0x03.
Definition IP_DSCP_MASK : Z := 0xfc.
Definition FLOW_NW_FRAG_MASK : Z := 3.
Definition FLOW_TNL_F_KEY : Z := 4.
Definition ETH_TYPE_IP : Z := 0x0800.
Definition ETH_TYPE_ARP : Z := 0x0806.
Definition ETH_TYPE_RARP : Z := 0x8035.
Definition ETH_TYPE_IPV6 : Z := 0x86dd.
Definition ETH_TYPE_MPLS : Z := 0x8847.
Definition ETH_TYPE_MPLS_MCAST : Z := 0x8848.
Definition IPPROTO_ICMP : Z := 1.
Definition IPPROTO_TCP : Z := 6.
Definition IPPROTO_ICMPV6 : Z := 58.

(** ** VLAN and MPLS fields of a flow *)

Definition vlan_tci_to_vid (tci : Z) : Z := Z.land tci VLAN_VID_MASK.
Definition vlan_tci_to_pcp (tci : Z) : Z := Z.shiftr (Z.land tci VLAN_PCP_MASK) VLAN_PCP_SHIFT.
Definition vlan_tci_to_cfi (tci : Z) : bool := negb (Z.land tci VLAN_CFI =? 0).

Definition flow_set_dl_vlan (fl : flowf) (vid : Z) : flowf :=
  if vid =? OFP10_VLAN_NONE then upd F_vlan_tci 0 fl
  else
    let vid := Z.land vid VLAN_VID_MASK in
    upd F_vlan_tci (Z.lor (and_not (fl F_vlan_tci) VLAN_VID_MASK) (Z.lor VLAN_CFI vid)) fl.

Definition flow_set_vlan_vid (fl : flowf) (vid : Z) : flowf :=
  let mask := Z.lor VLAN_VID_MASK VLAN_CFI in
  upd F_vlan_tci (Z.lor (and_not (fl F_vlan_tci) mask) (Z.land vid mask)) fl.

Definition flow_set_vlan_pcp (fl : flowf) (pcp : Z) : flowf :=
  let pcp := Z.land pcp 7 in
  upd F_vlan_tci
    (Z.lor (and_not (fl F_vlan_tci) VLAN_PCP_MASK) (Z.lor (Z.shiftl pcp VLAN_PCP_SHIFT) VLAN_CFI)) fl.

Definition set_mpls_lse_ttl (lse ttl : Z) : Z :=
  Z.lor (and_not lse MPLS_TTL_MASK) (Z.land (Z.shiftl ttl MPLS_TTL_SHIFT) MPLS_TTL_MASK).
Definition set_mpls_lse_tc (lse tc : Z) : Z :=
  Z.lor (and_not lse MPLS_TC_MASK) (Z.land (Z.shiftl tc MPLS_TC_SHIFT) MPLS_TC_MASK).
Definition set_mpls_lse_label (lse label : Z) : Z :=
  Z.lor (and_not lse MPLS_LABEL_MASK)
        (Z.land (u32 (Z.shiftl label MPLS_LABEL_SHIFT)) MPLS_LABEL_MASK).
Definition set_mpls_lse_bos (lse bos : Z) : Z :=
  Z.lor (and_not lse MPLS_BOS_MASK) (Z.land (Z.shiftl bos MPLS_BOS_SHIFT) MPLS_BOS_MASK).

Definition set_mpls_lse_values (ttl tc bos label : Z) : Z :=
  set_mpls_lse_label (set_mpls_lse_bos (set_mpls_lse_tc (set_mpls_lse_ttl 0 ttl) tc) bos) label.

Definition mpls_lse_to_label (lse : Z) : Z := Z.shiftr (Z.land lse MPLS_LABEL_MASK) MPLS_LABEL_SHIFT.
Definition mpls_lse_to_tc (lse : Z) : Z := Z.shiftr (Z.land lse MPLS_TC_MASK) MPLS_TC_SHIFT.
Definition mpls_lse_to_ttl (lse : Z) : Z := Z.shiftr (Z.land lse MPLS_TTL_MASK) MPLS_TTL_SHIFT.
Definition mpls_lse_to_bos (lse : Z) : bool := negb (Z.land lse MPLS_BOS_MASK =? 0).

Definition flow_set_mpls_label (fl : flowf) (label : Z) : flowf :=
  upd F_mpls_lse (set_mpls_lse_label (fl F_mpls_lse) label) fl.
Definition flow_set_mpls_ttl (fl : flowf) (ttl : Z) : flowf :=
  upd F_mpls_lse (set_mpls_lse_ttl (fl F_mpls_lse) ttl) fl.
Definition flow_set_mpls_tc (fl : flowf) (tc : Z) : flowf :=
  upd F_mpls_lse (set_mpls_lse_tc (fl F_mpls_lse) tc) fl.
Definition flow_set_mpls_bos (fl : flowf) (bos : Z) : flowf :=
  upd F_mpls_lse (set_mpls_lse_bos (fl F_mpls_lse) bos) fl.

(** ** Initialisation *)

Definition fmatch_init_catchall : fmatch := FMatch (λ _, 0) (λ _, 0).

(** [flow_wildcards_init_exact] sets every named field's mask to all ones. *)
Definition match_init_exact (fl : flowf) : fmatch := FMatch (upd F_skb_priority 0 fl) all_ones.

Definition dl_type_is_ip_any (t : Z) : bool := (t =? ETH_TYPE_IP) || (t =? ETH_TYPE_IPV6).
Definition eth_type_mpls (t : Z) : bool := (t =? ETH_TYPE_MPLS) || (t =? ETH_TYPE_MPLS_MCAST).

(** Which fields [match_wc_init] makes exact, from the packet's contents. *)
Definition wc_init_exact (fl : flowf) (f : field) : bool :=
  let nz g := negb (fl g =? 0) in
  let ip := dl_type_is_ip_any (fl F_dl_type) in
  let arp := (fl F_dl_type =? ETH_TYPE_ARP) || (fl F_dl_type =? ETH_TYPE_RARP) in
  match f with
  | F_dl_type | F_metadata | F_in_port | F_vlan_tci | F_dl_src | F_dl_dst => true
  | F_nw_proto => nz F_nw_proto
  | F_skb_priority => nz F_skb_priority
  | F_pkt_mark => nz F_pkt_mark
  | F_reg i => bool_decide (i < FLOW_N_REGS)%nat && nz (F_reg i)
  | F_tun_id =>
      if nz F_tun_dst then negb (Z.land (fl F_tun_flags) FLOW_TNL_F_KEY =? 0) else nz F_tun_id
  | F_tun_src | F_tun_dst | F_tun_flags | F_tun_tos | F_tun_ttl => nz F_tun_dst
  | F_ipv6_src | F_ipv6_dst | F_ipv6_label => fl F_dl_type =? ETH_TYPE_IPV6
  | F_nw_src | F_nw_dst => (fl F_dl_type =? ETH_TYPE_IP) || arp
  | F_mpls_lse => eth_type_mpls (fl F_dl_type)
  | F_arp_sha | F_arp_tha => arp || (ip && (fl F_nw_proto =? IPPROTO_ICMPV6))
  | F_nw_tos | F_nw_ttl => ip
  | F_nw_frag => ip && nz F_nw_frag
  | F_tp_src | F_tp_dst =>
      ip && ((fl F_nw_proto =? IPPROTO_ICMP) || (fl F_nw_proto =? IPPROTO_ICMPV6)
             || (nz F_tp_src || nz F_tp_dst))
  | F_tcp_flags => ip && (fl F_nw_proto =? IPPROTO_TCP) && nz F_tcp_flags
  | F_nd_target | F_mpls_depth => false
  end.

Definition match_wc_init (fl : flowf) : fmatch :=
  FMatch fl (λ f, if wc_init_exact fl f then all_ones f else 0).

(** ** Setters *)

(** The two assignments most setters make: the masked value and the mask, or
    the value and an all-ones mask. *)
Definition set_masked (f : field) (v mask : Z) (m : fmatch) : fmatch :=
  FMatch (upd f (Z.land v mask) (fm_flow m)) (upd f mask (fm_wc m)).
Definition set_exact (f : field) (v : Z) (m : fmatch) : fmatch :=
  FMatch (upd f v (fm_flow m)) (upd f (all_ones f) (fm_wc m)).

Definition match_set_reg_masked (m : fmatch) (reg_idx : nat) (value mask : Z) : option fmatch :=
  if decide (reg_idx < FLOW_N_REGS)%nat then Some (set_masked (F_reg reg_idx) value mask m) else None.
Definition match_set_reg (m : fmatch) (reg_idx : nat) (value : Z) : option fmatch :=
  match_set_reg_masked m reg_idx value 0xffffffff.

Definition match_set_metadata_masked (m : fmatch) (v mask : Z) : fmatch := set_masked F_metadata v mask m.
Definition match_set_metadata (m : fmatch) (v : Z) : fmatch :=
  match_set_metadata_masked m v 0xffffffffffffffff.
Definition match_set_tun_id_masked (m : fmatch) (v mask : Z) : fmatch := set_masked F_tun_id v mask m.
Definition match_set_tun_id (m : fmatch) (v : Z) : fmatch :=
  match_set_tun_id_masked m v 0xffffffffffffffff.
Definition match_set_tun_src_masked (m : fmatch) (v mask : Z) : fmatch := set_masked F_tun_src v mask m.
Definition match_set_tun_src (m : fmatch) (v : Z) : fmatch := match_set_tun_src_masked m v 0xffffffff.
Definition match_set_tun_dst_masked (m : fmatch) (v mask : Z) : fmatch := set_masked F_tun_dst v mask m.
Definition match_set_tun_dst (m : fmatch) (v : Z) : fmatch := match_set_tun_dst_masked m v 0xffffffff.
Definition match_set_tun_ttl_masked (m : fmatch) (v mask : Z) : fmatch := set_masked F_tun_ttl v mask m.
Definition match_set_tun_ttl (m : fmatch) (v : Z) : fmatch := match_set_tun_ttl_masked m v 0xff.
Definition match_set_tun_tos_masked (m : fmatch) (v mask : Z) : fmatch := set_masked F_tun_tos v mask m.
Definition match_set_tun_tos (m : fmatch) (v : Z) : fmatch := match_set_tun_tos_masked m v 0xff.
Definition match_set_tun_flags_masked (m : fmatch) (v mask : Z) : fmatch :=
  set_masked F_tun_flags v mask m.
Definition match_set_tun_flags (m : fmatch) (v : Z) : fmatch := match_set_tun_flags_masked m v 0xffff.
Definition match_set_in_port (m : fmatch) (v : Z) : fmatch := set_exact F_in_port v m.
Definition match_set_skb_priority (m : fmatch) (v : Z) : fmatch := set_exact F_skb_priority v m.
Definition match_set_pkt_mark_masked (m : fmatch) (v mask : Z) : fmatch := set_masked F_pkt_mark v mask m.
Definition match_set_pkt_mark (m : fmatch) (v : Z) : fmatch := match_set_pkt_mark_masked m v 0xffffffff.
Definition match_set_dl_type (m : fmatch) (v : Z) : fmatch := set_exact F_dl_type v m.

Definition set_eth (f : field) (v : Z) (m : fmatch) : fmatch := set_exact f v m.
Definition set_eth_masked (f : field) (v mask : Z) (m : fmatch) : fmatch := set_masked f v mask m.

Definition match_set_dl_src (m : fmatch) (v : Z) : fmatch := set_eth F_dl_src v m.
Definition match_set_dl_src_masked (m : fmatch) (v mask : Z) : fmatch := set_eth_masked F_dl_src v mask m.
Definition match_set_dl_dst (m : fmatch) (v : Z) : fmatch := set_eth F_dl_dst v m.
Definition match_set_dl_dst_masked (m : fmatch) (v mask : Z) : fmatch := set_eth_masked F_dl_dst v mask m.

Definition match_set_dl_tci_masked (m : fmatch) (v mask : Z) : fmatch := set_masked F_vlan_tci v mask m.
Definition match_set_dl_tci (m : fmatch) (v : Z) : fmatch := match_set_dl_tci_masked m v 0xffff.

(** [wc.masks.f &= ~mask; flow.f &= ~mask] *)
Definition clear_bits (f : field) (mask : Z) (m : fmatch) : fmatch :=
  FMatch (upd f (and_not (fm_flow m f) mask) (fm_flow m))
         (upd f (and_not (fm_wc m f) mask) (fm_wc m)).

Definition match_set_any_vid (m : fmatch) : fmatch :=
  if Z.land (fm_wc m F_vlan_tci) VLAN_PCP_MASK =? 0 then match_set_dl_tci_masked m 0 0
  else clear_bits F_vlan_tci VLAN_VID_MASK m.

Definition match_set_dl_vlan (m : fmatch) (dl_vlan : Z) : fmatch :=
  FMatch (flow_set_dl_vlan (fm_flow m) dl_vlan)
    (upd F_vlan_tci
       (if dl_vlan =? OFP10_VLAN_NONE then 0xffff
        else Z.lor (fm_wc m F_vlan_tci) (Z.lor VLAN_VID_MASK VLAN_CFI)) (fm_wc m)).

Definition match_set_vlan_vid_masked (m : fmatch) (vid mask : Z) : fmatch :=
  let vid_mask := Z.lor VLAN_VID_MASK VLAN_CFI in
  let mask := Z.land mask vid_mask in
  FMatch (flow_set_vlan_vid (fm_flow m) (Z.land vid mask))
    (upd F_vlan_tci (Z.lor mask (Z.land (fm_wc m F_vlan_tci) VLAN_PCP_MASK)) (fm_wc m)).
Definition match_set_vlan_vid (m : fmatch) (vid : Z) : fmatch :=
  match_set_vlan_vid_masked m vid (Z.lor VLAN_VID_MASK VLAN_CFI).

Definition match_set_any_pcp (m : fmatch) : fmatch :=
  if Z.land (fm_wc m F_vlan_tci) VLAN_VID_MASK =? 0 then match_set_dl_tci_masked m 0 0
  else clear_bits F_vlan_tci VLAN_PCP_MASK m.

Definition match_set_dl_vlan_pcp (m : fmatch) (pcp : Z) : fmatch :=
  FMatch (flow_set_vlan_pcp (fm_flow m) pcp)
    (upd F_vlan_tci (Z.lor (fm_wc m F_vlan_tci) (Z.lor VLAN_CFI VLAN_PCP_MASK)) (fm_wc m)).

(** [wc.masks.mpls_lse &= ~mask] and [wc.masks.mpls_lse |= mask] *)
Definition lse_clear (mask : Z) (wc : flowf) : flowf :=
  upd F_mpls_lse (and_not (wc F_mpls_lse) mask) wc.
Definition lse_set (mask : Z) (wc : flowf) : flowf :=
  upd F_mpls_lse (Z.lor (wc F_mpls_lse) mask) wc.

Definition match_set_any_mpls_label (m : fmatch) : fmatch :=
  FMatch (flow_set_mpls_label (fm_flow m) 0) (lse_clear MPLS_LABEL_MASK (fm_wc m)).
Definition match_set_mpls_label (m : fmatch) (label : Z) : fmatch :=
  FMatch (flow_set_mpls_label (fm_flow m) label) (lse_set MPLS_LABEL_MASK (fm_wc m)).
Definition match_set_any_mpls_tc (m : fmatch) : fmatch :=
  FMatch (flow_set_mpls_tc (fm_flow m) 0) (lse_clear MPLS_TC_MASK (fm_wc m)).
Definition match_set_mpls_tc (m : fmatch) (tc : Z) : fmatch :=
  FMatch (flow_set_mpls_tc (fm_flow m) tc) (lse_set MPLS_TC_MASK (fm_wc m)).
Definition match_set_any_mpls_bos (m : fmatch) : fmatch :=
  FMatch (flow_set_mpls_bos (fm_flow m) 0) (lse_clear MPLS_BOS_MASK (fm_wc m)).
Definition match_set_mpls_bos (m : fmatch) (bos : Z) : fmatch :=
  FMatch (flow_set_mpls_bos (fm_flow m) bos) (lse_set MPLS_BOS_MASK (fm_wc m)).

Definition match_set_tp_src_masked (m : fmatch) (v mask : Z) : fmatch := set_masked F_tp_src v mask m.
Definition match_set_tp_src (m : fmatch) (v : Z) : fmatch := match_set_tp_src_masked m v 0xffff.
Definition match_set_tp_dst_masked (m : fmatch) (v mask : Z) : fmatch := set_masked F_tp_dst v mask m.
Definition match_set_tp_dst (m : fmatch) (v : Z) : fmatch := match_set_tp_dst_masked m v 0xffff.
Definition match_set_tcp_flags_masked (m : fmatch) (v mask : Z) : fmatch :=
  set_masked F_tcp_flags v (Z.land mask 0x0fff) m.
Definition match_set_tcp_flags (m : fmatch) (v : Z) : fmatch := match_set_tcp_flags_masked m v 0x0fff.
Definition match_set_nw_proto (m : fmatch) (v : Z) : fmatch := set_exact F_nw_proto v m.
Definition match_set_nw_src (m : fmatch) (v : Z) : fmatch := set_exact F_nw_src v m.
Definition match_set_nw_src_masked (m : fmatch) (v mask : Z) : fmatch := set_masked F_nw_src v mask m.
Definition match_set_nw_dst (m : fmatch) (v : Z) : fmatch := set_exact F_nw_dst v m.
Definition match_set_nw_dst_masked (m : fmatch) (v mask : Z) : fmatch := set_masked F_nw_dst v mask m.

(** [masks.nw_tos |= mask; flow.nw_tos &= ~mask; flow.nw_tos |= v & mask] *)
Definition set_tos_bits (mask v : Z) (m : fmatch) : fmatch :=
  FMatch (upd F_nw_tos (Z.lor (and_not (fm_flow m F_nw_tos) mask) (Z.land v mask)) (fm_flow m))
         (upd F_nw_tos (Z.lor (fm_wc m F_nw_tos) mask) (fm_wc m)).
Definition match_set_nw_dscp (m : fmatch) (v : Z) : fmatch := set_tos_bits IP_DSCP_MASK v m.
Definition match_set_nw_ecn (m : fmatch) (v : Z) : fmatch := set_tos_bits IP_ECN_MASK v m.

Definition match_set_nw_ttl (m : fmatch) (v : Z) : fmatch := set_exact F_nw_ttl v m.
Definition match_set_nw_frag (m : fmatch) (v : Z) : fmatch :=
  FMatch (upd F_nw_frag v (fm_flow m))
         (upd F_nw_frag (Z.lor (fm_wc m F_nw_frag) FLOW_NW_FRAG_MASK) (fm_wc m)).
Definition match_set_nw_frag_masked (m : fmatch) (v mask : Z) : fmatch := set_masked F_nw_frag v mask m.
Definition match_set_icmp_type (m : fmatch) (v : Z) : fmatch := match_set_tp_src m v.
Definition match_set_icmp_code (m : fmatch) (v : Z) : fmatch := match_set_tp_dst m v.
Definition match_set_arp_sha (m : fmatch) (v : Z) : fmatch := set_exact F_arp_sha v m.
Definition match_set_arp_sha_masked (m : fmatch) (v mask : Z) : fmatch := set_eth_masked F_arp_sha v mask m.
Definition match_set_arp_tha (m : fmatch) (v : Z) : fmatch := set_exact F_arp_tha v m.
Definition match_set_arp_tha_masked (m : fmatch) (v mask : Z) : fmatch := set_eth_masked F_arp_tha v mask m.

Definition ipv6_addr_bitand (a b : Z) : Z := Z.land a b.

Definition match_set_ipv6_src (m : fmatch) (v : Z) : fmatch := set_exact F_ipv6_src v m.
Definition match_set_ipv6_src_masked (m : fmatch) (v mask : Z) : fmatch :=
  FMatch (upd F_ipv6_src (ipv6_addr_bitand v mask) (fm_flow m)) (upd F_ipv6_src mask (fm_wc m)).
Definition match_set_ipv6_dst (m : fmatch) (v : Z) : fmatch := set_exact F_ipv6_dst v m.
Definition match_set_ipv6_dst_masked (m : fmatch) (v mask : Z) : fmatch :=
  FMatch (upd F_ipv6_dst (ipv6_addr_bitand v mask) (fm_flow m)) (upd F_ipv6_dst mask (fm_wc m)).
Definition match_set_ipv6_label (m : fmatch) (v : Z) : fmatch := set_exact F_ipv6_label v m.
Definition match_set_ipv6_label_masked (m : fmatch) (v mask : Z) : fmatch :=
  set_masked F_ipv6_label v mask m.
Definition match_set_nd_target (m : fmatch) (v : Z) : fmatch := set_exact F_nd_target v m.
Definition match_set_nd_target_masked (m : fmatch) (v mask : Z) : fmatch :=
  FMatch (upd F_nd_target (ipv6_addr_bitand v mask) (fm_flow m)) (upd F_nd_target mask (fm_wc m)).

(** ** Programs that build a match *)

Inductive match_op :=
| SetReg (i : nat) (v : Z) | SetRegMasked (i : nat) (v k : Z)
| SetMetadata (v : Z) | SetMetadataMasked (v k : Z) | SetTunId (v : Z) | SetTunIdMasked (v k : Z)
| SetTunSrc (v : Z) | SetTunSrcMasked (v k : Z) | SetTunDst (v : Z) | SetTunDstMasked (v k : Z)
| SetTunTtl (v : Z) | SetTunTtlMasked (v k : Z) | SetTunTos (v : Z) | SetTunTosMasked (v k : Z)
| SetTunFlags (v : Z) | SetTunFlagsMasked (v k : Z) | SetInPort (v : Z) | SetSkbPriority (v : Z)
| SetPktMark (v : Z) | SetPktMarkMasked (v k : Z) | SetDlType (v : Z)
| SetDlSrc (v : Z) | SetDlSrcMasked (v k : Z) | SetDlDst (v : Z) | SetDlDstMasked (v k : Z)
| SetDlTci (v : Z) | SetDlTciMasked (v k : Z) | SetAnyVid | SetDlVlan (v : Z)
| SetVlanVid (v : Z) | SetVlanVidMasked (v k : Z) | SetAnyPcp | SetDlVlanPcp (v : Z)
| SetAnyMplsLabel | SetMplsLabel (v : Z) | SetAnyMplsTc | SetMplsTc (v : Z)
| SetAnyMplsBos | SetMplsBos (v : Z)
| SetTpSrc (v : Z) | SetTpSrcMasked (v k : Z) | SetTpDst (v : Z) | SetTpDstMasked (v k : Z)
| SetTcpFlags (v : Z) | SetTcpFlagsMasked (v k : Z) | SetNwProto (v : Z)
| SetNwSrc (v : Z) | SetNwSrcMasked (v k : Z) | SetNwDst (v : Z) | SetNwDstMasked (v k : Z)
| SetNwDscp (v : Z) | SetNwEcn (v : Z) | SetNwTtl (v : Z) | SetNwFrag (v : Z)
| SetNwFragMasked (v k : Z) | SetIcmpType (v : Z) | SetIcmpCode (v : Z)
| SetArpSha (v : Z) | SetArpShaMasked (v k : Z) | SetArpTha (v : Z) | SetArpThaMasked (v k : Z)
| SetIpv6Src (v : Z) | SetIpv6SrcMasked (v k : Z) | SetIpv6Dst (v : Z) | SetIpv6DstMasked (v k : Z)
| SetIpv6Label (v : Z) | SetIpv6LabelMasked (v k : Z)
| SetNdTarget (v : Z) | SetNdTargetMasked (v k : Z).

Definition match_do (m : fmatch) (op : match_op) : option fmatch :=
  match op with
  | SetReg i v => match_set_reg m i v
  | SetRegMasked i v k => match_set_reg_masked m i v k
  | SetMetadata v => Some (match_set_metadata m v)
  | SetMetadataMasked v k => Some (match_set_metadata_masked m v k)
  | SetTunId v => Some (match_set_tun_id m v)
  | SetTunIdMasked v k => Some (match_set_tun_id_masked m v k)
  | SetTunSrc v => Some (match_set_tun_src m v)
  | SetTunSrcMasked v k => Some (match_set_tun_src_masked m v k)
  | SetTunDst v => Some (match_set_tun_dst m v)
  | SetTunDstMasked v k => Some (match_set_tun_dst_masked m v k)
  | SetTunTtl v => Some (match_set_tun_ttl m v)
  | SetTunTtlMasked v k => Some (match_set_tun_ttl_masked m v k)
  | SetTunTos v => Some (match_set_tun_tos m v)
  | SetTunTosMasked v k => Some (match_set_tun_tos_masked m v k)
  | SetTunFlags v => Some (match_set_tun_flags m v)
  | SetTunFlagsMasked v k => Some (match_set_tun_flags_masked m v k)
  | SetInPort v => Some (match_set_in_port m v)
  | SetSkbPriority v => Some (match_set_skb_priority m v)
  | SetPktMark v => Some (match_set_pkt_mark m v)
  | SetPktMarkMasked v k => Some (match_set_pkt_mark_masked m v k)
  | SetDlType v => Some (match_set_dl_type m v)
  | SetDlSrc v => Some (match_set_dl_src m v)
  | SetDlSrcMasked v k => Some (match_set_dl_src_masked m v k)
  | SetDlDst v => Some (match_set_dl_dst m v)
  | SetDlDstMasked v k => Some (match_set_dl_dst_masked m v k)
  | SetDlTci v => Some (match_set_dl_tci m v)
  | SetDlTciMasked v k => Some (match_set_dl_tci_masked m v k)
  | SetAnyVid => Some (match_set_any_vid m)
  | SetDlVlan v => Some (match_set_dl_vlan m v)
  | SetVlanVid v => Some (match_set_vlan_vid m v)
  | SetVlanVidMasked v k => Some (match_set_vlan_vid_masked m v k)
  | SetAnyPcp => Some (match_set_any_pcp m)
  | SetDlVlanPcp v => Some (match_set_dl_vlan_pcp m v)
  | SetAnyMplsLabel => Some (match_set_any_mpls_label m)
  | SetMplsLabel v => Some (match_set_mpls_label m v)
  | SetAnyMplsTc => Some (match_set_any_mpls_tc m)
  | SetMplsTc v => Some (match_set_mpls_tc m v)
  | SetAnyMplsBos => Some (match_set_any_mpls_bos m)
  | SetMplsBos v => Some (match_set_mpls_bos m v)
  | SetTpSrc v => Some (match_set_tp_src m v)
  | SetTpSrcMasked v k => Some (match_set_tp_src_masked m v k)
  | SetTpDst v => Some (match_set_tp_dst m v)
  | SetTpDstMasked v k => Some (match_set_tp_dst_masked m v k)
  | SetTcpFlags v => Some (match_set_tcp_flags m v)
  | SetTcpFlagsMasked v k => Some (match_set_tcp_flags_masked m v k)
  | SetNwProto v => Some (match_set_nw_proto m v)
  | SetNwSrc v => Some (match_set_nw_src m v)
  | SetNwSrcMasked v k => Some (match_set_nw_src_masked m v k)
  | SetNwDst v => Some (match_set_nw_dst m v)
  | SetNwDstMasked v k => Some (match_set_nw_dst_masked m v k)
  | SetNwDscp v => Some (match_set_nw_dscp m v)
  | SetNwEcn v => Some (match_set_nw_ecn m v)
  | SetNwTtl v => Some (match_set_nw_ttl m v)
  | SetNwFrag v => Some (match_set_nw_frag m v)
  | SetNwFragMasked v k => Some (match_set_nw_frag_masked m v k)
  | SetIcmpType v => Some (match_set_icmp_type m v)
  | SetIcmpCode v => Some (match_set_icmp_code m v)
  | SetArpSha v => Some (match_set_arp_sha m v)
  | SetArpShaMasked v k => Some (match_set_arp_sha_masked m v k)
  | SetArpTha v => Some (match_set_arp_tha m v)
  | SetArpThaMasked v k => Some (match_set_arp_tha_masked m v k)
  | SetIpv6Src v => Some (match_set_ipv6_src m v)
  | SetIpv6SrcMasked v k => Some (match_set_ipv6_src_masked m v k)
  | SetIpv6Dst v => Some (match_set_ipv6_dst m v)
  | SetIpv6DstMasked v k => Some (match_set_ipv6_dst_masked m v k)
  | SetIpv6Label v => Some (match_set_ipv6_label m v)
  | SetIpv6LabelMasked v k => Some (match_set_ipv6_label_masked m v k)
  | SetNdTarget v => Some (match_set_nd_target m v)
  | SetNdTargetMasked v k => Some (match_set_nd_target_masked m v k)
  end.

(** The arguments have the C types of the parameters they are stored from:
    masks always, values where they are stored unmasked; a fragment type is one
    of the FLOW_NW_FRAG_* combinations. *)
Definition op_arg_ok (op : match_op) : Prop :=
  match op with
  | SetInPort v | SetDlType v => in_width 16 v
  | SetSkbPriority v | SetNwSrc v | SetNwDst v | SetIpv6Label v => in_width 32 v
  | SetDlSrc v | SetDlDst v | SetArpSha v | SetArpTha v => in_width 48 v
  | SetNwProto v | SetNwTtl v => in_width 8 v
  | SetNwFrag v => in_width 2 v
  | SetIpv6Src v | SetIpv6Dst v | SetNdTarget v => in_width 128 v
  | SetMetadataMasked _ k | SetTunIdMasked _ k => in_width 64 k
  | SetRegMasked _ _ k | SetTunSrcMasked _ k | SetTunDstMasked _ k | SetPktMarkMasked _ k
  | SetNwSrcMasked _ k | SetNwDstMasked _ k | SetIpv6LabelMasked _ k => in_width 32 k
  | SetTunFlagsMasked _ k | SetDlTciMasked _ k | SetTpSrcMasked _ k
  | SetTpDstMasked _ k => in_width 16 k
  | SetTunTtlMasked _ k | SetTunTosMasked _ k | SetNwFragMasked _ k => in_width 8 k
  | SetDlSrcMasked _ k | SetDlDstMasked _ k | SetArpShaMasked _ k
  | SetArpThaMasked _ k => in_width 48 k
  | SetIpv6SrcMasked _ k | SetIpv6DstMasked _ k | SetNdTargetMasked _ k => in_width 128 k
  | _ => True
  end.

Definition match_run (m : fmatch) (ops : list match_op) : option fmatch :=
  foldl (λ m op, m ← m; match_do m op) (Some m) ops.

(** *** The invariant of struct match *)

(** Every mask has its field's width, and every 1-bit of the flow is a 1-bit of
    the mask. *)
Definition fmatch_ok (m : fmatch) : Prop :=
  ∀ f, in_width (field_width f) (fm_wc m f) ∧ Z.land (fm_flow m f) (fm_wc m f) = fm_flow m f.

Lemma field_width_pos f : 0 < field_width f.
Proof. by destruct f. Qed.

(** Setting both halves of one field consistently keeps the invariant. *)
Lemma upd_ok m f v w :
  fmatch_ok m → in_width (field_width f) w → Z.land v w = v →
  fmatch_ok (FMatch (upd f v (fm_flow m)) (upd f w (fm_wc m))).
Proof. intros Hm Hw Hv g. simpl. unfold upd. case_decide as E; [by subst|apply Hm]. Qed.

Lemma set_masked_ok m f v mask :
  fmatch_ok m → in_width (field_width f) mask → fmatch_ok (set_masked f v mask m).
Proof. intros Hm Hk. apply upd_ok; [done|done|]. by rewrite <- Z.land_assoc, Z.land_diag. Qed.

Lemma land_all_ones w v : in_width w v → 0 ≤ w → Z.land v (2 ^ w - 1) = v.
Proof.
  intros Hv Hw. replace (2 ^ w - 1) with (Z.ones w) by (rewrite Z.ones_equiv; lia).
  rewrite Z.land_ones by done. by apply Z.mod_small.
Qed.

Lemma all_ones_width f : in_width (field_width f) (all_ones f).
Proof. by destruct f. Qed.

Lemma set_exact_ok m f v : fmatch_ok m → in_width (field_width f) v → fmatch_ok (set_exact f v m).
Proof.
  intros Hm Hv. apply upd_ok; [done|apply all_ones_width|]. apply land_all_ones; [done|].
  pose proof (field_width_pos f). lia.
Qed.

(** Bitwise reasoning with one hypothesis [H] that is an equality of
    integers. *)
Ltac bits_with H :=
  apply Z.bits_inj';
  let i := fresh "i" in let E := fresh "E" in
  intros i ?; pose proof (f_equal (λ z, Z.testbit z i) H) as E; cbv beta in E;
  rewrite ?Z.land_spec, ?Z.testbit_0_l in E; bits_step; revert E;
  repeat match goal with |- context [Z.testbit ?a ?b] => destruct (Z.testbit a b) end;
  done.

(** Bits inside [k] are replaced and fixed, the others are left. *)
Lemma set_bits_ok x w y k :
  Z.land x w = x → Z.land (Z.lor (Z.ldiff x k) (Z.land y k)) (Z.lor w k) = Z.lor (Z.ldiff x k) (Z.land y k).
Proof. intros H. bits_with H. Qed.

(** Bits inside [k] are wildcarded, the others are left. *)
Lemma clear_bits_ok x w k : Z.land x w = x → Z.land (Z.ldiff x k) (Z.ldiff w k) = Z.ldiff x k.
Proof. intros H. bits_with H. Qed.

Lemma flow_set_dl_vlan_tci fl vid :
  vid ≠ OFP10_VLAN_NONE →
  flow_set_dl_vlan fl vid F_vlan_tci =
  Z.lor (Z.ldiff (fl F_vlan_tci) VLAN_VID_MASK) (Z.lor VLAN_CFI (Z.land vid VLAN_VID_MASK)).
Proof.
  intros Hv. unfold flow_set_dl_vlan. rewrite (proj2 (Z.eqb_neq _ _)) by done.
  unfold upd. by rewrite decide_True.
Qed.

Lemma dl_vlan_ok x w v :
  Z.land x w = x →
  let t := Z.lor (Z.ldiff x VLAN_VID_MASK) (Z.lor VLAN_CFI (Z.land v VLAN_VID_MASK)) in
  Z.land t (Z.lor w (Z.lor VLAN_VID_MASK VLAN_CFI)) = t.
Proof. intros H. cbv zeta. bits_with H. Qed.

Lemma vlan_vid_ok x w v mask :
  Z.land x w = x →
  let k := Z.lor VLAN_VID_MASK VLAN_CFI in
  let t := Z.lor (Z.ldiff x k) (Z.land (Z.land v (Z.land mask k)) k) in
  Z.land x 65535 = x →
  Z.land t (Z.lor (Z.land mask k) (Z.land w VLAN_PCP_MASK)) = t.
Proof.
  intros H k t H16. unfold t, k. change 65535 with (Z.lor VLAN_PCP_MASK (Z.lor VLAN_VID_MASK VLAN_CFI)) in H16.
  apply Z.bits_inj'. intros i Hi.
  pose proof (f_equal (λ z, Z.testbit z i) H) as E. pose proof (f_equal (λ z, Z.testbit z i) H16) as E'.
  cbv beta in E, E'. rewrite Z.land_spec in E. rewrite Z.land_spec, !Z.lor_spec in E'. bits_step. revert E E'.
  repeat match goal with |- context [Z.testbit ?a ?b] => destruct (Z.testbit a b) end; done.
Qed.

Lemma vlan_pcp_ok x w v :
  Z.land x w = x →
  let t := Z.lor (Z.ldiff x VLAN_PCP_MASK) (Z.lor (Z.shiftl (Z.land v 7) VLAN_PCP_SHIFT) VLAN_CFI) in
  Z.land t (Z.lor w (Z.lor VLAN_CFI VLAN_PCP_MASK)) = t.
Proof.
  intros H t. unfold t. rewrite Z.shiftl_land.
  change (Z.shiftl 7 VLAN_PCP_SHIFT) with VLAN_PCP_MASK. bits_with H.
Qed.

Lemma clear_bits_match_ok f k m : fmatch_ok m → fmatch_ok (clear_bits f k m).
Proof.
  intros Hm. destruct (Hm f). apply upd_ok; [done|apply ldiff_in_width|by apply clear_bits_ok].
  - pose proof (field_width_pos f). lia.
  - done.
Qed.

Lemma set_tos_bits_ok k v m : in_width 8 k → fmatch_ok m → fmatch_ok (set_tos_bits k v m).
Proof.
  intros Hk Hm. destruct (Hm F_nw_tos). apply upd_ok; [done|by apply lor_in_width|].
  by apply set_bits_ok.
Qed.

Lemma any_lse_ok k fl wc x :
  in_width 32 k → fmatch_ok (FMatch fl wc) →
  fmatch_ok (FMatch (upd F_mpls_lse (Z.lor (Z.ldiff (fl F_mpls_lse) k) (Z.land 0 x)) fl) (lse_clear k wc)).
Proof.
  intros Hk Hm. destruct (Hm F_mpls_lse). rewrite Z.land_0_l, Z.lor_0_r.
  apply (upd_ok (FMatch fl wc)); [done|by apply ldiff_in_width|by apply clear_bits_ok].
Qed.

Lemma set_lse_ok k fl wc x :
  in_width 32 k → fmatch_ok (FMatch fl wc) →
  fmatch_ok (FMatch (upd F_mpls_lse (Z.lor (Z.ldiff (fl F_mpls_lse) k) (Z.land x k)) fl) (lse_set k wc)).
Proof.
  intros Hk Hm. destruct (Hm F_mpls_lse).
  apply (upd_ok (FMatch fl wc)); [done|by apply lor_in_width|by apply set_bits_ok].
Qed.

Lemma vlan_setters_ok m v k :
  fmatch_ok m →
  fmatch_ok (match_set_any_vid m) ∧ fmatch_ok (match_set_any_pcp m)
  ∧ fmatch_ok (match_set_dl_vlan m v) ∧ fmatch_ok (match_set_vlan_vid_masked m v k)
  ∧ fmatch_ok (match_set_dl_vlan_pcp m v).
Proof.
  intros Hm. destruct (Hm F_vlan_tci) as [Hw Hx]. split_and!.
  - unfold match_set_any_vid. destruct (_ =? _); [by apply set_masked_ok|by apply clear_bits_match_ok].
  - unfold match_set_any_pcp. destruct (_ =? _); [by apply set_masked_ok|by apply clear_bits_match_ok].
  - unfold match_set_dl_vlan, flow_set_dl_vlan. destruct (_ =? _); [by apply upd_ok|].
    apply upd_ok; [done|by apply lor_in_width|by apply dl_vlan_ok].
  - apply upd_ok; [done|apply lor_in_width; [done|..]|].
    + rewrite Z.land_comm. by apply land_in_width.
    + by apply land_in_width.
    + apply vlan_vid_ok; [done|]. rewrite <- Hx, <- Z.land_assoc. f_equal.
      by apply (land_all_ones 16).
  - apply upd_ok; [done|by apply lor_in_width|by apply vlan_pcp_ok].
Qed.

Lemma set_nw_frag_ok m v : fmatch_ok m → in_width 2 v → fmatch_ok (match_set_nw_frag m v).
Proof.
  intros Hm Hv. destruct (Hm F_nw_frag). apply upd_ok; [done|by apply lor_in_width|].
  pose proof (land_all_ones 2 v Hv ltac:(lia)) as H2. change (2 ^ 2 - 1) with FLOW_NW_FRAG_MASK in H2.
  bits_with H2.
Qed.

Lemma set_tcp_flags_ok m v k : fmatch_ok m → fmatch_ok (match_set_tcp_flags_masked m v k).
Proof.
  intros Hm. apply set_masked_ok; [done|]. rewrite Z.land_comm. by apply land_in_width.
Qed.

Lemma match_do_ok m op m' :
  fmatch_ok m → op_arg_ok op → match_do m op = Some m' → fmatch_ok m'.
Proof.
  intros Hm Ha.
  assert (Hv : ∀ v k, _) by exact (λ v k, vlan_setters_ok m v k Hm).
  destruct op; simpl in *; unfold match_set_reg, match_set_reg_masked; try case_decide; try done;
    intros [= <-];
    solve [by apply set_masked_ok | by apply set_exact_ok
          | apply (Hv 0 0) | apply (Hv v 0) | apply (Hv v k) | apply (Hv v)
          | by apply any_lse_ok | by apply set_lse_ok | by apply set_tos_bits_ok
          | by apply set_nw_frag_ok | by apply set_tcp_flags_ok].
Qed.

Lemma fmatch_init_catchall_ok : fmatch_ok fmatch_init_catchall.
Proof. intros f. simpl. split; [|done]. pose proof (field_width_pos f). split; [lia|]. by apply Z.pow_pos_nonneg; lia. Qed.

Lemma match_run_snoc m ops op :
  match_run m (ops ++ [op]) = (m' ← match_run m ops; match_do m' op).
Proof. unfold match_run. by rewrite foldl_app. Qed.

(** ** What a match selects *)

(** A packet's value [x] of field [f] satisfies the match. *)
Definition field_matches (m : fmatch) (f : field) (x : Z) : Prop :=
  Z.land x (fm_wc m f) = fm_flow m f.

(** Equality of integers, inside and outside a mask. *)
Lemma split_mask k a b : a = b ↔ Z.land a k = Z.land b k ∧ Z.ldiff a k = Z.ldiff b k.
Proof.
  split; [by intros ->|]. intros [H1 H2]. apply Z.bits_inj'. intros i Hi.
  pose proof (f_equal (λ z, Z.testbit z i) H1) as E1. pose proof (f_equal (λ z, Z.testbit z i) H2) as E2.
  cbv beta in E1, E2. rewrite !Z.land_spec in E1. rewrite !Z.ldiff_spec in E2. revert E1 E2.
  by destruct (Z.testbit a i), (Z.testbit b i), (Z.testbit k i).
Qed.

Lemma cfi_spec x : vlan_tci_to_cfi x = true ↔ Z.land x VLAN_CFI = VLAN_CFI.
Proof.
  unfold vlan_tci_to_cfi. change VLAN_CFI with (2 ^ 12). rewrite land_pow2 by done.
  by destruct (Z.testbit x 12).
Qed.

Lemma pcp_spec x v :
  vlan_tci_to_pcp x = Z.land v 7 ↔ Z.land x VLAN_PCP_MASK = Z.shiftl (Z.land v 7) VLAN_PCP_SHIFT.
Proof.
  unfold vlan_tci_to_pcp. split.
  - intros <-. change VLAN_PCP_MASK with (Z.shiftl 7 VLAN_PCP_SHIFT).
    assert (H : Z.land x (Z.shiftl 7 VLAN_PCP_SHIFT) =
                Z.shiftl (Z.land (Z.shiftr x VLAN_PCP_SHIFT) 7) VLAN_PCP_SHIFT).
    { apply Z.bits_inj'. intros i Hi. rewrite Z.land_spec, !Z.shiftl_spec by done.
      rewrite Z.land_spec. destruct (Z.ltb_spec i VLAN_PCP_SHIFT).
      - rewrite !(Z.testbit_neg_r _ (i - VLAN_PCP_SHIFT)) by lia. by rewrite !andb_false_r.
      - rewrite Z.shiftr_spec by lia. f_equal. f_equal. lia. }
    rewrite H, Z.shiftr_shiftl_l by done. by rewrite Z.shiftl_0_r.
  - intros ->. rewrite Z.shiftr_shiftl_l by done. by rewrite Z.shiftl_0_r.
Qed.

(** *** The values a VLAN match accepts *)

(** A match that fixes the bits [k] to [y] and requires the bits [c]. *)
Lemma two_masks_match x w y k c tci :
  Z.land k c = 0 → Z.land x w = x →
  Z.land tci (Z.lor w (Z.lor k c)) = Z.lor (Z.ldiff x k) (Z.lor c (Z.land y k)) ↔
  Z.land tci k = Z.land y k ∧ Z.land tci c = c
  ∧ Z.land tci (Z.ldiff w (Z.lor k c)) = Z.ldiff x (Z.lor k c).
Proof.
  intros Hd Hx. rewrite (split_mask (Z.lor k c)).
  assert (D : ∀ z, Z.ldiff (Z.land z k) c = Z.land z k) by (intros z; bits_with Hd).
  assert (E1 : Z.land (Z.land tci (Z.lor w (Z.lor k c))) (Z.lor k c) = Z.land tci (Z.lor k c)) by bits.
  assert (E2 : Z.land (Z.lor (Z.ldiff x k) (Z.lor c (Z.land y k))) (Z.lor k c)
               = Z.lor c (Z.land y k)) by bits.
  assert (E3 : Z.ldiff (Z.land tci (Z.lor w (Z.lor k c))) (Z.lor k c)
               = Z.land tci (Z.ldiff w (Z.lor k c))) by bits.
  assert (E4 : Z.ldiff (Z.lor (Z.ldiff x k) (Z.lor c (Z.land y k))) (Z.lor k c)
               = Z.ldiff x (Z.lor k c)) by bits.
  rewrite E1, E2, E3, E4, (split_mask c (Z.land tci _)).
  assert (E5 : Z.land (Z.land tci (Z.lor k c)) c = Z.land tci c) by bits.
  assert (E6 : Z.land (Z.lor c (Z.land y k)) c = c) by bits.
  assert (E7 : Z.ldiff (Z.land tci (Z.lor k c)) c = Z.land tci k) by (rewrite <- (D tci); bits).
  assert (E8 : Z.ldiff (Z.lor c (Z.land y k)) c = Z.land y k) by (rewrite <- (D y) at 2; bits).
  rewrite E5, E6, E7, E8. tauto.
Qed.

(** ** Theorems *)

(** every match built from the catch-all match by the match_set_*()
    functions satisfies the invariant of struct match (a bit wildcarded in the
    mask is 0 in the flow), and building one fails only on a register number
    out of range. *)
Theorem match_set_invariant (ops : list match_op) :
  Forall op_arg_ok ops →
  match match_run fmatch_init_catchall ops with
  | Some m => ∀ f, in_width (field_width f) (fm_wc m f)
                   ∧ Z.land (fm_flow m f) (fm_wc m f) = fm_flow m f
  | None => ∃ i v mask, (FLOW_N_REGS ≤ i)%nat ∧ (SetReg i v ∈ ops ∨ SetRegMasked i v mask ∈ ops)
  end.
Proof.
  induction ops as [|op ops IH] using rev_ind; intros Ha; [apply fmatch_init_catchall_ok|].
  apply Forall_app in Ha as [Ha Hop]. rewrite Forall_singleton in Hop. specialize (IH Ha).
  rewrite match_run_snoc. destruct (match_run fmatch_init_catchall ops) as [m|]; simpl.
  - destruct (match_do m op) as [m'|] eqn:Hdo; [exact (match_do_ok m op m' IH Hop Hdo)|].
    destruct op; try done; simpl in Hdo; unfold match_set_reg, match_set_reg_masked in Hdo;
      case_decide; try done; [exists i, v, 0|exists i, v, k]; (split; [lia|set_solver]).
  - destruct IH as (i & v & k & Hi & Hin). exists i, v, k. split; [done|set_solver].
Qed.

Lemma match_set_invariant_witness :
  match match_run fmatch_init_catchall [SetDlVlan 5; SetDlVlanPcp 3; SetAnyVid] with
  | Some m => fm_wc m F_vlan_tci = 61440 ∧ fm_flow m F_vlan_tci = 28672
              ∧ Z.land (fm_flow m F_vlan_tci) (fm_wc m F_vlan_tci) = fm_flow m F_vlan_tci
  | None => False
  end.
Proof.
  pose proof (match_set_invariant [SetDlVlan 5; SetDlVlanPcp 3; SetAnyVid]
    ltac:(repeat constructor)) as H. simpl in H. destruct (H F_vlan_tci) as [_ H'].
  simpl. split; [reflexivity|]. split; [reflexivity|exact H'].
Defined.

(** [match_set_dl_vlan] selects by VLAN: with OFP_VLAN_NONE only packets
    whose TCI is zero (no 802.1Q header), otherwise exactly the packets that
    have a tag, whose VID is the low 12 bits of the argument, and that satisfied
    the match on the other bits of the TCI before. *)
Theorem match_set_dl_vlan_selects (m : fmatch) (vlan tci : Z) :
  fmatch_ok m → in_width 16 tci →
  field_matches (match_set_dl_vlan m vlan) F_vlan_tci tci ↔
  if vlan =? OFP10_VLAN_NONE then tci = 0
  else vlan_tci_to_vid tci = Z.land vlan VLAN_VID_MASK ∧ vlan_tci_to_cfi tci = true
       ∧ Z.land tci (Z.ldiff (fm_wc m F_vlan_tci) (Z.lor VLAN_VID_MASK VLAN_CFI))
         = Z.ldiff (fm_flow m F_vlan_tci) (Z.lor VLAN_VID_MASK VLAN_CFI).
Proof.
  intros Hm Ht. destruct (Hm F_vlan_tci) as [_ Hx].
  unfold field_matches, match_set_dl_vlan, flow_set_dl_vlan. simpl.
  destruct (vlan =? OFP10_VLAN_NONE); unfold upd; rewrite !decide_True by done.
  - change 65535 with (2 ^ 16 - 1). by rewrite land_all_ones.
  - rewrite cfi_spec. by apply two_masks_match.
Qed.

Lemma match_set_dl_vlan_selects_witness :
  field_matches (match_set_dl_vlan fmatch_init_catchall 5) F_vlan_tci (4096 + 5).
Proof.
  apply (match_set_dl_vlan_selects fmatch_init_catchall 5 (4096 + 5)).
  - exact fmatch_init_catchall_ok.
  - split; [discriminate|reflexivity].
  - vm_compute. repeat split; reflexivity.
Defined.

(** [match_set_dl_vlan_pcp] selects exactly the packets that have a tag
    with the given PCP and satisfied the match on the VID before. *)
Theorem match_set_dl_vlan_pcp_selects (m : fmatch) (pcp tci : Z) :
  fmatch_ok m →
  field_matches (match_set_dl_vlan_pcp m pcp) F_vlan_tci tci ↔
  vlan_tci_to_pcp tci = Z.land pcp 7 ∧ vlan_tci_to_cfi tci = true
  ∧ Z.land tci (Z.ldiff (fm_wc m F_vlan_tci) (Z.lor VLAN_PCP_MASK VLAN_CFI))
    = Z.ldiff (fm_flow m F_vlan_tci) (Z.lor VLAN_PCP_MASK VLAN_CFI).
Proof.
  intros Hm. destruct (Hm F_vlan_tci) as [_ Hx].
  unfold field_matches, match_set_dl_vlan_pcp, flow_set_vlan_pcp. simpl.
  unfold upd. rewrite !decide_True by done. rewrite pcp_spec, cfi_spec.
  rewrite Z.shiftl_land. change (Z.shiftl 7 VLAN_PCP_SHIFT) with VLAN_PCP_MASK.
  rewrite (Z.lor_comm VLAN_CFI VLAN_PCP_MASK), (Z.lor_comm (Z.land _ VLAN_PCP_MASK) VLAN_CFI).
  by apply two_masks_match.
Qed.

Lemma match_set_dl_vlan_pcp_selects_witness :
  field_matches (match_set_dl_vlan_pcp fmatch_init_catchall 3) F_vlan_tci (0x7000 + 5).
Proof.
  apply (match_set_dl_vlan_pcp_selects fmatch_init_catchall 3 (0x7000 + 5)).
  - exact fmatch_init_catchall_ok.
  - vm_compute. repeat split; reflexivity.
Defined.

(** Reading a group of bits after a group was set. *)
Lemma set_bits_same x y k : Z.land (Z.lor (Z.ldiff x k) (Z.land y k)) k = Z.land y k.
Proof. bits. Qed.

Lemma set_bits_other x y k k' :
  Z.land k k' = 0 → Z.land (Z.lor (Z.ldiff x k) (Z.land y k)) k' = Z.land x k'.
Proof. intros H. bits_with H. Qed.

Lemma read_shifted v n s :
  0 ≤ s → 0 ≤ n → in_width n v → Z.shiftr (Z.land (Z.shiftl v s) (Z.shiftl (2 ^ n - 1) s)) s = v.
Proof.
  intros Hs Hn Hv. rewrite <- Z.shiftl_land, land_all_ones by done.
  by rewrite Z.shiftr_shiftl_l, Z.sub_diag, Z.shiftl_0_r.
Qed.

(** the components of an MPLS label stack entry read back as they were
    set: the four fields do not overlap and none is truncated. *)
Theorem mpls_lse_roundtrip (ttl tc bos label : Z) :
  in_width 8 ttl → in_width 3 tc → in_width 1 bos → in_width 20 label →
  let lse := set_mpls_lse_values ttl tc bos label in
  mpls_lse_to_ttl lse = ttl ∧ mpls_lse_to_tc lse = tc
  ∧ mpls_lse_to_bos lse = (bos =? 1) ∧ mpls_lse_to_label lse = label.
Proof.
  intros Httl Htc Hbos Hlabel lse.
  unfold lse, set_mpls_lse_values, set_mpls_lse_label, set_mpls_lse_bos, set_mpls_lse_tc,
    set_mpls_lse_ttl, mpls_lse_to_ttl, mpls_lse_to_tc, mpls_lse_to_bos, mpls_lse_to_label, and_not.
  split_and!.
  - rewrite !set_bits_other, set_bits_same by done. by apply (read_shifted ttl 8).
  - rewrite !(set_bits_other _ _ _ MPLS_TC_MASK), set_bits_same by done. by apply (read_shifted tc 3).
  - rewrite !(set_bits_other _ _ _ MPLS_BOS_MASK), set_bits_same by done.
    assert (bos = 0 ∨ bos = 1) as [->| ->] by (unfold in_width in Hbos; lia); done.
  - rewrite set_bits_same, wrap_id; [by apply (read_shifted label 20)|].
    unfold in_width in *. rewrite Z.shiftl_mul_pow2 by done. unfold MPLS_LABEL_SHIFT. lia.
Qed.

Lemma mpls_lse_roundtrip_witness :
  mpls_lse_to_label (set_mpls_lse_values 64 5 1 1000) = 1000
  ∧ mpls_lse_to_ttl (set_mpls_lse_values 64 5 1 1000) = 64.
Proof.
  destruct (mpls_lse_roundtrip 64 5 1 1000) as (H1 & _ & _ & H4);
    try (split; [discriminate|reflexivity]).
  split; [exact H4|exact H1].
Defined.

(** [match_wc_init] does not keep the invariant: it copies the whole flow and
    never fixes [nd_target], so a neighbour discovery packet's target stays in
    the flow under a wildcard. *)
Definition nd_flow : flowf :=
  upd F_dl_type ETH_TYPE_IPV6 (upd F_nw_proto IPPROTO_ICMPV6 (upd F_nd_target 1 (λ _, 0))).

Lemma match_wc_init_breaks_invariant : ¬ fmatch_ok (match_wc_init nd_flow).
Proof. intros H. destruct (H F_nd_target) as [_ E]. vm_compute in E. discriminate E. Qed.

(** [match_set_nw_frag] stores its argument unmasked under a 2-bit mask. *)
Lemma match_set_nw_frag_unmasked : ¬ fmatch_ok (match_set_nw_frag fmatch_init_catchall 4).
Proof. intros H. destruct (H F_nw_frag) as [_ E]. vm_compute in E. discriminate E. Qed.
