(* ===== verification/Bitwise.v ===== *)
(** * Bit fields of byte arrays (lib/util.c)

    [bitwise_copy] and its relatives work on an array of bytes seen as one
    number in network byte order.  The source walks the array with a pointer
    that moves toward the start; here a position is the number of a byte
    counted from the end of the array, so [p--] in the source adds 1 to it.
    A read outside the array is 0 and a write there is lost; the theorems
    assume the documented invariants, under which neither happens. *)
From S2P Require Import Prelude Util ByteOrder.
From Stdlib Require Import ZifyNat.

(** Byte [k] from the end of the array. *)
Definition nth_byte (l : list Z) (k : nat) : Z := if decide (k < length l)%nat then l !!! (length l - 1 - k)%nat else 0.
Definition set_byte (l : list Z) (k : nat) (v : Z) : list Z :=
  if decide (k < length l)%nat then <[(length l - 1 - k)%nat := v]> l else l.

(** [((1 << n) - 1) << ofs] *)
Definition bit_mask (n ofs : nat) : Z := Z.shiftl (Z.ones (Z.of_nat n)) (Z.of_nat ofs).


(** The loop of [bitwise_copy] for offsets that are not both 0: [s] and [d]
    are the positions of the current bytes, [so] and [do] the offsets in
    them. *)
Fixpoint copy_loop (fuel : nat) (src dst : list Z) (s so d do n_bits : nat) : list Z :=
  match fuel with
  | O => dst
  | S fuel =>
      if decide (n_bits = 0)%nat then dst
      else
        let max_copy := (8 - so `max` do)%nat in
        let chunk := (n_bits `min` max_copy)%nat in
        let mask := bit_mask chunk do in
        let dst := set_byte dst d
          (Z.lor (Z.ldiff (nth_byte dst d) mask)
             (Z.land (Z.shiftl (Z.shiftr (nth_byte src s) (Z.of_nat so)) (Z.of_nat do)) mask)) in
        let '(s, so) := if decide (so + chunk = 8)%nat then (S s, 0%nat) else (s, (so + chunk)%nat) in
        let '(d, do) := if decide (do + chunk = 8)%nat then (S d, 0%nat) else (d, (do + chunk)%nat) in
        copy_loop fuel src dst s so d do (n_bits - chunk)
  end.

(** [memcpy] of [n] bytes that end at positions [s] and [d]. *)
Fixpoint copy_bytes (n : nat) (src dst : list Z) (s d : nat) : list Z :=
  match n with
  | O => dst
  | S n => copy_bytes n src (set_byte dst d (nth_byte src s)) (S s) (S d)
  end.

Definition bitwise_copy (src : list Z) (src_ofs : nat) (dst : list Z) (dst_ofs n_bits : nat) : list Z :=
  let s := (src_ofs / 8)%nat in
  let so := (src_ofs mod 8)%nat in
  let d := (dst_ofs / 8)%nat in
  let do := (dst_ofs mod 8)%nat in
  if decide (so = 0 ∧ do = 0)%nat then
    let n_bytes := (n_bits / 8)%nat in
    let dst := copy_bytes n_bytes src dst s d in
    let n_bits := (n_bits mod 8)%nat in
    if decide (n_bits = 0)%nat then dst
    else
      let mask := bit_mask n_bits 0 in
      set_byte dst (d + n_bytes)
        (Z.lor (Z.ldiff (nth_byte dst (d + n_bytes)) mask) (Z.land (nth_byte src (s + n_bytes)) mask))
  else copy_loop n_bits src dst s so d do n_bits.

(** The walk that [bitwise_zero], [bitwise_one] and [bitwise_is_all_zeros]
    share, as the pieces (byte, offset in it, number of bits) they visit: the
    rest of the first byte, whole bytes, and the start of the last one. *)
Definition bit_chunks (ofs n_bits : nat) : list (nat * nat * nat) :=
  let d := (ofs / 8)%nat in
  let o := (ofs mod 8)%nat in
  let '(first, d, n_bits) :=
    if decide (n_bits = 0 ∨ o = 0)%nat then ([], d, n_bits)
    else let chunk := (n_bits `min` (8 - o))%nat in ([(d, o, chunk)], S d, (n_bits - chunk)%nat) in
  first ++ ((λ j, ((d + j)%nat, 0%nat, 8%nat)) <$> seq 0 (n_bits / 8))
  ++ (if decide (n_bits mod 8 = 0)%nat then [] else [((d + n_bits / 8)%nat, 0%nat, (n_bits mod 8)%nat)]).

Definition bitwise_zero (dst : list Z) (dst_ofs n_bits : nat) : list Z :=
  foldl (λ dst '(d, o, n), set_byte dst d (Z.ldiff (nth_byte dst d) (bit_mask n o))) dst
    (bit_chunks dst_ofs n_bits).

Definition bitwise_one (dst : list Z) (dst_ofs n_bits : nat) : list Z :=
  foldl (λ dst '(d, o, n), set_byte dst d (Z.lor (nth_byte dst d) (bit_mask n o))) dst
    (bit_chunks dst_ofs n_bits).

Definition bitwise_is_all_zeros (p : list Z) (ofs n_bits : nat) : bool :=
  forallb (λ '(d, o, n), Z.land (nth_byte p d) (bit_mask n o) =? 0) (bit_chunks ofs n_bits).

Definition bitwise_put (value : Z) (dst : list Z) (dst_ofs n_bits : nat) : list Z :=
  bitwise_copy (be_bytes 8 value) 0 dst dst_ofs n_bits.

Definition bitwise_get (src : list Z) (src_ofs n_bits : nat) : Z :=
  get_be (bitwise_copy src src_ofs (be_bytes 8 0) 0 n_bits).

#[global] Arguments Nat.div : simpl never.
#[global] Arguments Nat.modulo : simpl never.
#[local] Arguments Nat.mul : simpl never.
#[local] Ltac Zify.zify_post_hook ::= Z.div_mod_to_equations.

(** ** Bytes and bits *)

Lemma length_set_byte l k v : length (set_byte l k v) = length l.
Proof. unfold set_byte. case_decide; [apply length_insert|done]. Qed.

Lemma nth_byte_set l k v j :
  nth_byte (set_byte l k v) j = if decide (j = k ∧ (k < length l)%nat) then v else nth_byte l j.
Proof.
  unfold nth_byte. rewrite length_set_byte. unfold set_byte. destruct (decide (k < length l)%nat) as [Hk|Hk].
  - destruct (decide (j < length l)%nat) as [Hj|Hj]; [|by rewrite decide_False by lia].
    destruct (decide (j = k)) as [->|Hne].
    + rewrite decide_True by done. by apply list_lookup_total_insert_eq; lia.
    + rewrite decide_False by naive_solver. apply list_lookup_total_insert_ne. lia.
  - by rewrite (decide_False (P := _ ∧ _)) by naive_solver.
Qed.

Lemma nth_byte_u8 l k : Forall is_u8 l → is_u8 (nth_byte l k).
Proof.
  intros Hl. unfold nth_byte. case_decide; [|split; [done|lia]].
  rewrite Forall_lookup in Hl. apply (Hl (length l - 1 - k)%nat). apply list_lookup_lookup_total_lt. lia.
Qed.

Lemma set_byte_u8 l k v : Forall is_u8 l → is_u8 v → Forall is_u8 (set_byte l k v).
Proof. intros. unfold set_byte. case_decide; [by apply Forall_insert|done]. Qed.

(** Bit [i] of the array. *)
Definition bit (l : list Z) (i : nat) : bool := Z.testbit (nth_byte l (i / 8)) (Z.of_nat (i mod 8)).

Lemma foldl_be_split acc l :
  foldl (λ acc b, Z.lor (Z.shiftl acc 8) b) acc l
  = Z.lor (Z.shiftl acc (8 * Z.of_nat (length l))) (get_be l).
Proof.
  unfold get_be. revert acc. induction l as [|b l IH] using rev_ind; intros acc.
  - simpl. by rewrite Z.shiftl_0_r, Z.lor_0_r.
  - rewrite !foldl_app, length_app. simpl. rewrite IH, Z.shiftl_lor, Z.shiftl_shiftl by lia.
    rewrite Z.lor_assoc. do 3 f_equal. lia.
Qed.

Lemma get_be_cons b l : get_be (b :: l) = Z.lor (Z.shiftl b (8 * Z.of_nat (length l))) (get_be l).
Proof. unfold get_be at 1. simpl. rewrite foldl_be_split. by rewrite Z.shiftl_0_l, Z.lor_0_l. Qed.

Lemma get_be_width l : Forall is_u8 l → in_width (8 * Z.of_nat (length l)) (get_be l).
Proof.
  induction 1 as [|b l Hb Hl IH]; [by split|]. rewrite get_be_cons. apply lor_in_width; [lia|..].
  - replace (8 * Z.of_nat (length (b :: l))) with (8 + 8 * Z.of_nat (length l)) by (simpl; lia).
    destruct Hb. split; [apply Z.shiftl_nonneg; lia|]. rewrite Z.shiftl_mul_pow2, Z.pow_add_r by lia. nia.
  - eapply in_width_mono; [|done]. simpl. lia.
Qed.

Lemma nth_byte_cons_last b l : nth_byte (b :: l) (length l) = b.
Proof.
  unfold nth_byte. simpl. rewrite decide_True by lia.
  replace (length l - 0 - length l)%nat with 0%nat by lia. done.
Qed.

Lemma nth_byte_cons b l k : (k < length l)%nat → nth_byte (b :: l) k = nth_byte l k.
Proof.
  intros Hk. unfold nth_byte. simpl. rewrite !decide_True by lia.
  replace (length l - 0 - k)%nat with (S (length l - 1 - k)) by lia. done.
Qed.

Lemma testbit_get_be l i : Forall is_u8 l → Z.testbit (get_be l) (Z.of_nat i) = bit l i.
Proof.
  induction 1 as [|b l Hb Hl IH].
  - unfold get_be, bit, nth_byte. simpl. by rewrite !Z.bits_0.
  - rewrite get_be_cons, Z.lor_spec, Z.shiftl_spec, IH by lia. unfold bit at 2.
    destruct (lt_eq_lt_dec (i / 8) (length l)) as [[Hlt|Heq]|Hgt].
    + rewrite nth_byte_cons by done. by rewrite Z.testbit_neg_r by lia.
    + rewrite Heq, nth_byte_cons_last. unfold bit, nth_byte. rewrite decide_False by lia.
      rewrite Z.bits_0, orb_false_r. f_equal. lia.
    + rewrite (testbit_high 8) by (done || lia). unfold bit, nth_byte. simpl.
      rewrite !decide_False by lia. by rewrite Z.bits_0.
Qed.

(** Two arrays of the same length with the same bits are the same number. *)
Lemma get_be_ext l w x :
  Forall is_u8 l → w = 8 * Z.of_nat (length l) → in_width w x →
  (∀ i, (i < 8 * length l)%nat → bit l i = Z.testbit x (Z.of_nat i)) → get_be l = x.
Proof.
  intros Hl -> Hx Hb. apply Z.bits_inj'. intros i Hi.
  destruct (decide (i < 8 * Z.of_nat (length l))) as [Hlt|Hge].
  - replace i with (Z.of_nat (Z.to_nat i)) by lia. rewrite testbit_get_be by done. apply Hb. lia.
  - rewrite !(testbit_high (8 * Z.of_nat (length l))); [done|done|lia|by apply get_be_width|lia].
Qed.

Lemma testbit_bit_mask n ofs i :
  Z.testbit (bit_mask n ofs) (Z.of_nat i) = bool_decide (ofs ≤ i < ofs + n)%nat.
Proof.
  unfold bit_mask. rewrite Z.shiftl_spec by lia. destruct (decide (ofs ≤ i)%nat).
  - rewrite Z.testbit_ones_nonneg by lia. apply Bool.eq_iff_eq_true.
    rewrite Z.ltb_lt, bool_decide_eq_true. lia.
  - rewrite Z.testbit_neg_r by lia. symmetry. rewrite bool_decide_eq_false. lia.
Qed.

Lemma bit_mask_u8 n ofs : (n + ofs ≤ 8)%nat → is_u8 (bit_mask n ofs).
Proof.
  intros. apply in_width_bits; [done|]. intros i Hi. replace i with (Z.of_nat (Z.to_nat i)) by lia.
  rewrite testbit_bit_mask, bool_decide_eq_false. lia.
Qed.

(** A change to some bits of one byte. *)
Lemma bit_set_byte l k v (p : nat → Prop) `{!∀ o, Decision (p o)} (f : nat → bool) i :
  (k < length l)%nat →
  (∀ o, (o < 8)%nat → Z.testbit v (Z.of_nat o) = if decide (p o) then f o else bit l (8 * k + o)) →
  bit (set_byte l k v) i
  = if decide (i / 8 = k ∧ p (i mod 8))%nat then f (i mod 8)%nat else bit l i.
Proof.
  intros Hk Hv. unfold bit at 1. rewrite nth_byte_set. destruct (decide (i / 8 = k)%nat) as [He|Hne].
  - rewrite decide_True by done. rewrite Hv by lia. destruct (decide (p (i mod 8)%nat)).
    + by rewrite decide_True.
    + rewrite decide_False by naive_solver. f_equal. lia.
  - by rewrite !decide_False by naive_solver.
Qed.

(** ** Copying *)

(** [r] is [dst] with [n] of its bits, from [do] on, taken from [src]. *)
Definition copied (src dst r : list Z) (so do n : nat) : Prop :=
  length r = length dst ∧ Forall is_u8 r
  ∧ ∀ i, bit r i = if decide (do ≤ i < do + n)%nat then bit src (i - do + so)%nat else bit dst i.

Lemma copied_refl src dst so do : Forall is_u8 dst → copied src dst dst so do 0.
Proof. intros. split_and!; [done..|]. intros i. by rewrite decide_False by lia. Qed.

Lemma copied_trans src dst r r' so do n so' do' n' m :
  copied src dst r so do n → copied src r r' so' do' n' →
  so' = (so + n)%nat → do' = (do + n)%nat → m = (n + n')%nat → copied src dst r' so do m.
Proof.
  intros (L & _ & B) (L' & U' & B') -> -> ->. split_and!; [congruence|done|]. intros i. rewrite B', B.
  repeat case_decide; try lia; try done. f_equal. lia.
Qed.

Lemma copy_chunk src dst s so d do n :
  (so + n ≤ 8)%nat → (do + n ≤ 8)%nat → (d < length dst)%nat → Forall is_u8 dst →
  copied src dst
    (set_byte dst d (Z.lor (Z.ldiff (nth_byte dst d) (bit_mask n do))
       (Z.land (Z.shiftl (Z.shiftr (nth_byte src s) (Z.of_nat so)) (Z.of_nat do)) (bit_mask n do))))
    (8 * s + so) (8 * d + do) n.
Proof.
  intros Hso Hdo Hd Hu. split_and!; [apply length_set_byte|..].
  - apply set_byte_u8; [done|]. apply lor_in_width; [done|..].
    + apply ldiff_in_width; [done|by apply nth_byte_u8].
    + rewrite Z.land_comm. apply land_in_width; [done|]. apply bit_mask_u8. lia.
  - intros i. rewrite (bit_set_byte _ _ _ (λ o, do ≤ o < do + n)%nat (λ o, bit src (8 * s + so + (o - do)))%nat).
    + destruct (decide (8 * d + do ≤ i < 8 * d + do + n)%nat).
      * rewrite decide_True by lia. f_equal. lia.
      * by rewrite decide_False by lia.
    + done.
    + intros o Ho. rewrite Z.lor_spec, Z.ldiff_spec, Z.land_spec, testbit_bit_mask.
      destruct (decide (do ≤ o < do + n)%nat) as [Hin|Hout].
      * rewrite bool_decide_eq_true_2 by done. rewrite andb_false_r, andb_true_r, orb_false_l.
        rewrite Z.shiftl_spec, Z.shiftr_spec by lia. unfold bit.
        replace ((8 * s + so + (o - do)) / 8)%nat with s by lia. f_equal. lia.
      * rewrite bool_decide_eq_false_2 by done. rewrite andb_true_r, andb_false_r, orb_false_r.
        unfold bit. replace ((8 * d + o) / 8)%nat with d by lia. f_equal. lia.
Qed.

Lemma copy_loop_spec fuel src dst s so d do n :
  (n ≤ fuel)%nat → (so < 8)%nat → (do < 8)%nat → Forall is_u8 dst → (8 * d + do + n ≤ 8 * length dst)%nat →
  copied src dst (copy_loop fuel src dst s so d do n) (8 * s + so) (8 * d + do) n.
Proof.
  revert dst s so d do n. induction fuel as [|fuel IH]; intros dst s so d do n Hf Hso Hdo Hu Hr; simpl.
  { replace n with 0%nat by lia. by apply copied_refl. }
  case_decide as Hn; [subst; by apply copied_refl|].
  set (chunk := (n `min` (8 - so `max` do))%nat). set (dst' := set_byte _ _ _).
  assert (Hc : copied src dst dst' (8 * s + so) (8 * d + do) chunk) by (apply copy_chunk; lia || done).
  pose proof Hc as (L & U & _).
  assert (Hadv : ∀ k o, (o + chunk ≤ 8)%nat →
    let '(k', o') := if decide (o + chunk = 8)%nat then (S k, 0%nat) else (k, (o + chunk)%nat) in
    (o' < 8)%nat ∧ (8 * k' + o' = 8 * k + o + chunk)%nat) by (intros; case_decide; lia).
  pose proof (Hadv s so) as Hs. pose proof (Hadv d do) as Hd.
  destruct (if decide (so + chunk = 8)%nat then _ else _) as [s' so'].
  destruct (if decide (do + chunk = 8)%nat then _ else _) as [d' do'].
  destruct Hs as [? Hs]; [lia|]. destruct Hd as [? Hd]; [lia|].
  eapply copied_trans; [exact Hc|apply IH; lia || done|lia..].
Qed.

Lemma copy_bytes_spec n src dst s d :
  Forall is_u8 src → Forall is_u8 dst → (d + n ≤ length dst)%nat →
  copied src dst (copy_bytes n src dst s d) (8 * s) (8 * d) (8 * n).
Proof.
  revert dst s d. induction n as [|n IH]; intros dst s d Hs Hd Hr; simpl; [by apply copied_refl|].
  assert (Hc : copied src dst (set_byte dst d (nth_byte src s)) (8 * s) (8 * d) 8).
  { pose proof (copy_chunk src dst s 0 d 0 8) as H. rewrite !Nat.add_0_r in H.
    replace (nth_byte src s) with (Z.lor (Z.ldiff (nth_byte dst d) (bit_mask 8 0))
       (Z.land (Z.shiftl (Z.shiftr (nth_byte src s) (Z.of_nat 0)) (Z.of_nat 0)) (bit_mask 8 0))); [apply H; lia || done|].
    rewrite Z.shiftr_0_r, Z.shiftl_0_r. unfold bit_mask. rewrite Z.shiftl_0_r, Z.land_ones by lia.
    rewrite Z.ldiff_ones_r, Z.shiftr_div_pow2 by lia.
    rewrite Z.div_small by (by apply (nth_byte_u8 dst d)). rewrite Z.shiftl_0_l.
    rewrite Z.lor_0_l. apply (wrap_id 8). by apply nth_byte_u8. }
  pose proof Hc as (L & U & _).
  eapply copied_trans; [exact Hc|apply IH; [done..|lia]|lia..].
Qed.

Lemma bitwise_copy_spec src src_ofs dst dst_ofs n :
  Forall is_u8 src → Forall is_u8 dst → (dst_ofs + n ≤ 8 * length dst)%nat →
  copied src dst (bitwise_copy src src_ofs dst dst_ofs n) src_ofs dst_ofs n.
Proof.
  intros Hs Hd Hr. unfold bitwise_copy. case_decide as Ho.
  - assert (Hc : copied src dst (copy_bytes (n / 8) src dst (src_ofs / 8) (dst_ofs / 8))
      src_ofs dst_ofs (8 * (n / 8))).
    { replace src_ofs with (8 * (src_ofs / 8))%nat at 2 by lia.
      replace dst_ofs with (8 * (dst_ofs / 8))%nat at 2 by lia. apply copy_bytes_spec; [done..|lia]. }
    pose proof Hc as (L & U & _).
    case_decide as Hm; [by replace n with (8 * (n / 8))%nat at 2 by lia|].
    eapply (copied_trans _ _ _ _ _ _ _ _ _ (n mod 8)); [exact Hc| |reflexivity..|lia].
    pose proof (copy_chunk src (copy_bytes (n / 8) src dst (src_ofs / 8) (dst_ofs / 8))
      (src_ofs / 8 + n / 8) 0 (dst_ofs / 8 + n / 8) 0 (n mod 8)) as H.
    rewrite Z.shiftr_0_r, Z.shiftl_0_r in H.
    replace (src_ofs + 8 * (n / 8))%nat with (8 * (src_ofs / 8 + n / 8) + 0)%nat by lia.
    replace (dst_ofs + 8 * (n / 8))%nat with (8 * (dst_ofs / 8 + n / 8) + 0)%nat by lia.
    apply H; [lia..|done].
  - replace src_ofs with (8 * (src_ofs / 8) + src_ofs mod 8)%nat at 3 by lia.
    replace dst_ofs with (8 * (dst_ofs / 8) + dst_ofs mod 8)%nat at 3 by lia.
    apply copy_loop_spec; [lia..|done|lia].
Qed.

(** ** Setting and testing bits *)

(** The pieces of a walk cover exactly the bits from [ofs] to [ofs + n - 1]. *)
Definition in_chunk (i : nat) (c : nat * nat * nat) : Prop :=
  let '(d, o, n) := c in (8 * d + o ≤ i < 8 * d + o + n)%nat.

Definition chunk_ok (len : nat) (c : nat * nat * nat) : Prop :=
  let '(d, o, n) := c in (o + n ≤ 8)%nat ∧ (d < len)%nat.

Lemma bit_chunks_ok ofs n len :
  (ofs + n ≤ 8 * len)%nat → Forall (chunk_ok len) (bit_chunks ofs n).
Proof.
  intros Hr. unfold bit_chunks.
  set (t := if decide (n = 0 ∨ ofs mod 8 = 0)%nat then _ else _).
  assert (Ht : Forall (chunk_ok len) t.1.1 ∧ (8 * t.1.2 + t.2 ≤ 8 * len)%nat).
  { unfold t. case_decide; simpl; [split; [constructor|lia]|]. rewrite Forall_singleton. simpl. lia. }
  destruct t as [[first d] m]. simpl in Ht. destruct Ht as [Hf Hd].
  rewrite !Forall_app. split; [done|]. split.
  - rewrite Forall_fmap, Forall_forall. intros j Hj%elem_of_seq. simpl. lia.
  - case_decide; [constructor|]. rewrite Forall_singleton. simpl. lia.
Qed.

Lemma bit_chunks_spec ofs n i :
  (∃ c, c ∈ bit_chunks ofs n ∧ in_chunk i c) ↔ (ofs ≤ i < ofs + n)%nat.
Proof.
  unfold bit_chunks. set (t := if decide (n = 0 ∨ ofs mod 8 = 0)%nat then _ else _).
  assert (Ht : ∀ i, (ofs ≤ i < ofs + n)%nat ↔
    (∃ c, c ∈ t.1.1 ∧ in_chunk i c) ∨ (8 * t.1.2 ≤ i < 8 * t.1.2 + t.2)%nat).
  { intros j. unfold t. case_decide as Hc; simpl.
    - split; [intros; right; lia|]. intros [(c & Hin & _)|?]; [by apply not_elem_of_nil in Hin|lia].
    - split.
      + intros Hj. destruct (decide (j < 8 * (ofs / 8) + 8)%nat); [|right; lia].
        left. eexists. split; [apply list_elem_of_here|simpl; lia].
      + intros [(c & ->%list_elem_of_singleton & Hin)|?]; [simpl in Hin|]; lia. }
  rewrite Ht. destruct t as [[first d] m]. simpl. split.
  - intros (c & Hin & Hc). rewrite !elem_of_app in Hin. destruct Hin as [Hin|[Hin|Hin]]; [left; by exists c|right..].
    + apply list_elem_of_fmap in Hin as (j & -> & Hj%elem_of_seq). simpl in Hc. lia.
    + case_decide; [by apply not_elem_of_nil in Hin|]. apply list_elem_of_singleton in Hin as ->. simpl in Hc. lia.
  - intros [(c & Hin & Hc)|Hr]; [exists c; split; [apply elem_of_app; by left|done]|].
    destruct (decide (i < 8 * d + 8 * (m / 8))%nat).
    + exists ((i / 8)%nat, 0%nat, 8%nat). split; [|simpl; lia].
      rewrite !elem_of_app. right; left. apply list_elem_of_fmap. exists (i / 8 - d)%nat.
      split; [do 2 f_equal; lia|apply elem_of_seq; lia].
    + exists ((d + m / 8)%nat, 0%nat, (m mod 8)%nat). split; [|simpl; lia].
      rewrite !elem_of_app. right; right. rewrite decide_False by lia. apply list_elem_of_here.
Qed.

(** An operation on every piece that sets the bits of a mask to [v]. *)
Lemma foldl_chunks (op : Z → Z → Z) (v : bool) cs dst :
  (∀ x m i, Z.testbit (op x m) (Z.of_nat i) = if Z.testbit m (Z.of_nat i) then v else Z.testbit x (Z.of_nat i)) →
  (∀ x m, is_u8 x → is_u8 m → is_u8 (op x m)) →
  Forall is_u8 dst → Forall (chunk_ok (length dst)) cs →
  let r := foldl (λ dst '(d, o, n), set_byte dst d (op (nth_byte dst d) (bit_mask n o))) dst cs in
  length r = length dst ∧ Forall is_u8 r
  ∧ ∀ i, ((∃ c, c ∈ cs ∧ in_chunk i c) → bit r i = v)
         ∧ ((¬ ∃ c, c ∈ cs ∧ in_chunk i c) → bit r i = bit dst i).
Proof.
  intros Hop Hw Hu Hcs. induction cs as [|[[d o] n] cs IH] using rev_ind; cbn zeta.
  - split_and!; [done..|]. intros i. split; [intros (c & []%not_elem_of_nil & _)|done].
  - rewrite foldl_app. simpl. apply Forall_app in Hcs as [Hcs [Hc _]%Forall_cons]. simpl in Hc.
    destruct (IH Hcs) as (L & U & B). cbn zeta in *. set (r := foldl _ _ cs) in *.
    assert (Hb : ∀ i, bit (set_byte r d (op (nth_byte r d) (bit_mask n o))) i
      = if decide (i / 8 = d ∧ (o ≤ i mod 8 < o + n))%nat then v else bit r i).
    { intros i. rewrite (bit_set_byte _ _ _ (λ j, o ≤ j < o + n)%nat (λ _, v)); [by repeat case_decide|lia|].
      intros j Hj. rewrite Hop, testbit_bit_mask. case_bool_decide; case_decide; try done.
      unfold bit. replace ((8 * d + j) / 8)%nat with d by lia. f_equal. lia. }
    split_and!.
    + by rewrite length_set_byte.
    + apply set_byte_u8; [done|]. apply Hw; [by apply nth_byte_u8|apply bit_mask_u8; lia].
    + intros i. rewrite Hb. split.
      * intros (c & Hin & Hci). case_decide as Hd; [done|]. apply B.
        apply elem_of_app in Hin as [Hin| ->%list_elem_of_singleton]; [by exists c|]. simpl in Hci. lia.
      * intros Hn. rewrite decide_False.
        -- apply B. intros (c & Hin & Hci). apply Hn. exists c. split; [apply elem_of_app; by left|done].
        -- intros Hd. apply Hn. exists (d, o, n). split; [apply elem_of_app; right; apply list_elem_of_here|].
           simpl. lia.
Qed.

(** ** Theorems *)

(** The number [dst] with [n] bits from bit [ofs] on replaced by the low bits
    of [v]. *)
Definition bits_put (dst v : Z) (ofs n : nat) : Z :=
  Z.lor (Z.ldiff dst (bit_mask n ofs)) (Z.shiftl (Z.land v (Z.ones (Z.of_nat n))) (Z.of_nat ofs)).

(** The [n] bits of [v] from bit [ofs] on. *)
Definition bits_get (v : Z) (ofs n : nat) : Z := Z.land (Z.shiftr v (Z.of_nat ofs)) (Z.ones (Z.of_nat n)).

Lemma testbit_bits_get v ofs n i :
  Z.testbit (bits_get v ofs n) (Z.of_nat i) = bool_decide (i < n)%nat && Z.testbit v (Z.of_nat (i + ofs)).
Proof.
  unfold bits_get. rewrite Z.land_spec, Z.shiftr_spec, Z.testbit_ones_nonneg by lia.
  rewrite andb_comm. f_equal; [|f_equal; lia]. apply Bool.eq_iff_eq_true. rewrite Z.ltb_lt, bool_decide_eq_true. lia.
Qed.

Lemma testbit_bits_put dst v ofs n i :
  Z.testbit (bits_put dst v ofs n) (Z.of_nat i)
  = if decide (ofs ≤ i < ofs + n)%nat then Z.testbit v (Z.of_nat (i - ofs)) else Z.testbit dst (Z.of_nat i).
Proof.
  unfold bits_put. rewrite Z.lor_spec, Z.ldiff_spec, testbit_bit_mask.
  destruct (decide (ofs ≤ i)%nat).
  - rewrite Z.shiftl_spec, Z.land_spec by lia. rewrite <- Nat2Z.inj_sub by done.
    rewrite Z.testbit_ones_nonneg by lia. case_decide.
    + rewrite bool_decide_eq_true_2, andb_false_r by lia. rewrite (proj2 (Z.ltb_lt _ _)) by lia. apply andb_true_r.
    + rewrite bool_decide_eq_false_2, andb_true_r by lia. rewrite (proj2 (Z.ltb_ge _ _)) by lia.
      by rewrite andb_false_r, orb_false_r.
  - rewrite decide_False by lia. rewrite bool_decide_eq_false_2, andb_true_r by lia.
    rewrite Z.shiftl_spec_low by lia. apply orb_false_r.
Qed.

Lemma bits_put_width w dst v ofs n :
  Z.of_nat (ofs + n) ≤ w → in_width w dst → in_width w (bits_put dst v ofs n).
Proof.
  intros Hw Hd. apply in_width_bits; [lia|]. intros i Hi. replace i with (Z.of_nat (Z.to_nat i)) by lia.
  rewrite testbit_bits_put, decide_False by lia. rewrite Z2Nat.id by lia. apply (testbit_high w); [done|lia].
Qed.

Lemma bitwise_copy_number src src_ofs dst dst_ofs n :
  Forall is_u8 src → Forall is_u8 dst → (dst_ofs + n ≤ 8 * length dst)%nat →
  get_be (bitwise_copy src src_ofs dst dst_ofs n)
  = bits_put (get_be dst) (Z.shiftr (get_be src) (Z.of_nat src_ofs)) dst_ofs n.
Proof.
  intros Hs Hd Hr. destruct (bitwise_copy_spec src src_ofs dst dst_ofs n) as (L & U & B); [done..|].
  eapply get_be_ext; [done|reflexivity|..].
  - rewrite L. apply bits_put_width; [lia|by apply get_be_width].
  - intros i _. rewrite B, testbit_bits_put. case_decide; [|symmetry; by apply testbit_get_be].
    rewrite Z.shiftr_spec by lia. rewrite <- Nat2Z.inj_add. symmetry. by apply testbit_get_be.
Qed.

Lemma chunks_number (op : Z → Z → Z) (v : bool) (x : Z) dst ofs n :
  (∀ x m i, Z.testbit (op x m) (Z.of_nat i) = if Z.testbit m (Z.of_nat i) then v else Z.testbit x (Z.of_nat i)) →
  (∀ x m, is_u8 x → is_u8 m → is_u8 (op x m)) →
  (∀ i, Z.testbit x (Z.of_nat i) = v) →
  Forall is_u8 dst → (ofs + n ≤ 8 * length dst)%nat →
  get_be (foldl (λ dst '(d, o, n), set_byte dst d (op (nth_byte dst d) (bit_mask n o))) dst (bit_chunks ofs n))
  = bits_put (get_be dst) x ofs n.
Proof.
  intros Hop Hw Hx Hu Hr.
  destruct (foldl_chunks op v (bit_chunks ofs n) dst Hop Hw Hu (bit_chunks_ok _ _ _ Hr)) as (L & U & B).
  cbn zeta in *. eapply get_be_ext; [done|reflexivity|..].
  - rewrite L. apply bits_put_width; [lia|by apply get_be_width].
  - intros i _. rewrite testbit_bits_put, Hx, testbit_get_be by done. specialize (B i).
    rewrite bit_chunks_spec in B. case_decide; by apply B.
Qed.

Lemma zero_iff x : x = 0 ↔ ∀ i : nat, Z.testbit x (Z.of_nat i) = false.
Proof.
  split; [intros -> i; apply Z.bits_0|]. intros H. apply Z.bits_inj_0. intros j.
  destruct (decide (0 ≤ j)); [|apply Z.testbit_neg_r; lia]. rewrite <- (Z2Nat.id j) by done. apply H.
Qed.

Lemma chunk_zero p d o m len :
  chunk_ok len (d, o, m) →
  Z.land (nth_byte p d) (bit_mask m o) = 0 ↔ ∀ i, in_chunk i (d, o, m) → bit p i = false.
Proof.
  intros [Ho _]. rewrite zero_iff. split; intros H i.
  - intros Hi. simpl in Hi. specialize (H (i - 8 * d)%nat).
    rewrite Z.land_spec, testbit_bit_mask, bool_decide_eq_true_2, andb_true_r in H by lia.
    unfold bit. replace (i / 8)%nat with d by lia. by replace (i mod 8)%nat with (i - 8 * d)%nat by lia.
  - rewrite Z.land_spec, testbit_bit_mask. case_bool_decide; [|apply andb_false_r]. rewrite andb_true_r.
    specialize (H (8 * d + i)%nat). unfold bit in H. replace ((8 * d + i) / 8)%nat with d in H by lia.
    replace ((8 * d + i) mod 8)%nat with i in H by lia. apply H. simpl. lia.
Qed.

Lemma bitwise_is_all_zeros_spec p ofs n :
  Forall is_u8 p → bitwise_is_all_zeros p ofs n = true ↔ bits_get (get_be p) ofs n = 0.
Proof.
  intros Hu. unfold bitwise_is_all_zeros. rewrite forallb_forall, zero_iff.
  pose proof (bit_chunks_ok ofs n (ofs + n) ltac:(lia)) as Hok. rewrite Forall_forall in Hok.
  trans (∀ i, (ofs ≤ i < ofs + n)%nat → bit p i = false).
  - split.
    + intros H i ([[d o] m] & Hc & Hi)%bit_chunks_spec. pose proof (Hok _ Hc) as Ho.
      apply list_elem_of_In, H, Z.eqb_eq in Hc. by eapply chunk_zero.
    + intros H [[d o] m] Hc%list_elem_of_In. apply Z.eqb_eq. eapply chunk_zero; [by apply Hok|].
      intros i Hi. apply H, bit_chunks_spec. by exists (d, o, m).
  - split; intros H i.
    + rewrite testbit_bits_get. case_bool_decide; [|done]. rewrite testbit_get_be by done. apply H. lia.
    + intros Hi. specialize (H (i - ofs)%nat). rewrite testbit_bits_get, bool_decide_eq_true_2 in H by lia.
      rewrite testbit_get_be in H by done. by replace (i - ofs + ofs)%nat with i in H by lia.
Qed.

Lemma bits_put_get dst v ofs ofs' n :
  bits_put dst (bits_get v ofs n) ofs' n = bits_put dst (Z.shiftr v (Z.of_nat ofs)) ofs' n.
Proof. unfold bits_put, bits_get. by rewrite <- Z.land_assoc, Z.land_diag. Qed.

Lemma bits_put_low dst v v' ofs n :
  bits_get v 0 n = bits_get v' 0 n → bits_put dst v ofs n = bits_put dst v' ofs n.
Proof. unfold bits_get, bits_put. rewrite !Z.shiftr_0_r. by intros ->. Qed.

Lemma bits_get_get v ofs n : bits_get (bits_get v ofs n) 0 n = bits_get v ofs n.
Proof. unfold bits_get. rewrite Z.shiftr_0_r, <- Z.land_assoc. by rewrite Z.land_diag. Qed.

Lemma bits_get_put dst v ofs n : bits_get (bits_put dst v ofs n) ofs n = bits_get v 0 n.
Proof.
  apply Z.bits_inj'. intros i Hi. rewrite <- (Z2Nat.id i) by done. rewrite !testbit_bits_get, testbit_bits_put.
  case_bool_decide; [|done]. rewrite decide_True by lia. do 2 f_equal. lia.
Qed.

Lemma bitwise_get_number src ofs n :
  Forall is_u8 src → (n ≤ 64)%nat → bitwise_get src ofs n = bits_get (get_be src) ofs n.
Proof.
  intros Hs Hn. unfold bitwise_get. rewrite bitwise_copy_number; [|done|apply be_bytes_u8|rewrite length_be_bytes; lia].
  rewrite get_be_bytes. unfold bits_put. rewrite Z.ldiff_0_l, Z.shiftl_0_r. apply Z.lor_0_l.
Qed.

Lemma bitwise_put_number v dst ofs n :
  is_u64 v → Forall is_u8 dst → (ofs + n ≤ 8 * length dst)%nat →
  get_be (bitwise_put v dst ofs n) = bits_put (get_be dst) v ofs n.
Proof.
  intros Hv Hd Hr. unfold bitwise_put. rewrite bitwise_copy_number by (done || apply be_bytes_u8).
  rewrite (get_be_id 8 64) by done. by rewrite Z.shiftr_0_r.
Qed.

Lemma bitwise_copy_u8 src src_ofs dst dst_ofs n :
  Forall is_u8 src → Forall is_u8 dst → (dst_ofs + n ≤ 8 * length dst)%nat →
  Forall is_u8 (bitwise_copy src src_ofs dst dst_ofs n).
Proof. intros Hs Hd Hr. by destruct (bitwise_copy_spec src src_ofs dst dst_ofs n Hs Hd Hr) as (_ & ? & _). Qed.

Lemma bitwise_zero_number dst ofs n :
  Forall is_u8 dst → (ofs + n ≤ 8 * length dst)%nat →
  get_be (bitwise_zero dst ofs n) = bits_put (get_be dst) 0 ofs n.
Proof.
  intros. apply (chunks_number Z.ldiff false); [..|done|done].
  - intros x m i. rewrite Z.ldiff_spec. destruct (Z.testbit m _); [apply andb_false_r|apply andb_true_r].
  - intros. by apply ldiff_in_width.
  - intros i. apply Z.bits_0.
Qed.

Lemma bitwise_one_number dst ofs n :
  Forall is_u8 dst → (ofs + n ≤ 8 * length dst)%nat →
  get_be (bitwise_one dst ofs n) = bits_put (get_be dst) (-1) ofs n.
Proof.
  intros. apply (chunks_number Z.lor true); [..|done|done].
  - intros x m i. rewrite Z.lor_spec. destruct (Z.testbit m _); [apply orb_true_r|apply orb_false_r].
  - intros. by apply lor_in_width.
  - intros i. apply Z.bits_m1. lia.
Qed.

(** Seeing an array as one number in network byte order, as the comments
    do: [bitwise_copy] replaces exactly the chosen bits of the destination by
    those of the source, [bitwise_zero] and [bitwise_one] clear and set them,
    [bitwise_is_all_zeros] tests them, [bitwise_put] and [bitwise_get] write
    and read a 64-bit value, and what was put is what is read back. *)
Theorem bitwise_routines_correct src dst (src_ofs dst_ofs n : nat) v :
  Forall is_u8 src → Forall is_u8 dst →
  (src_ofs + n ≤ 8 * length src)%nat → (dst_ofs + n ≤ 8 * length dst)%nat →
  get_be (bitwise_copy src src_ofs dst dst_ofs n)
    = bits_put (get_be dst) (bits_get (get_be src) src_ofs n) dst_ofs n
  ∧ get_be (bitwise_zero dst dst_ofs n) = bits_put (get_be dst) 0 dst_ofs n
  ∧ get_be (bitwise_one dst dst_ofs n) = bits_put (get_be dst) (-1) dst_ofs n
  ∧ (bitwise_is_all_zeros dst dst_ofs n = true ↔ bits_get (get_be dst) dst_ofs n = 0)
  ∧ (is_u64 v → (n ≤ 64)%nat →
       bitwise_get dst dst_ofs n = bits_get (get_be dst) dst_ofs n
       ∧ get_be (bitwise_put v dst dst_ofs n) = bits_put (get_be dst) v dst_ofs n
       ∧ bitwise_get (bitwise_put v dst dst_ofs n) dst_ofs n = bits_get v 0 n).
Proof.
  intros Hs Hd Hrs Hrd. split_and!.
  - by rewrite bitwise_copy_number, bits_put_get.
  - by apply bitwise_zero_number.
  - by apply bitwise_one_number.
  - by apply bitwise_is_all_zeros_spec.
  - intros Hv Hn. split; [by apply bitwise_get_number|]. split; [by apply bitwise_put_number|].
    rewrite bitwise_get_number, bitwise_put_number by (done || by apply bitwise_copy_u8; [apply be_bytes_u8|..]).
    apply bits_get_put.
Qed.

Lemma bitwise_routines_correct_witness :
  bitwise_copy [0x12; 0x34; 0x56] 4 [0xff; 0xff; 0xff] 7 9 = [0xff; 0xa2; 0xff]
  ∧ get_be [0xff; 0xa2; 0xff] = bits_put 0xffffff (bits_get 0x123456 4 9) 7 9.
Proof.
  split; [reflexivity|].
  pose proof (bitwise_routines_correct [0x12; 0x34; 0x56] [0xff; 0xff; 0xff] 4 7 9 0) as H.
  destruct H as [H _]; [repeat constructor; lia|repeat constructor; lia|simpl; lia|simpl; lia|].
  exact H.
Defined.
