(* ===== verification/MetaFlow.v ===== *)
(** * Fields by number (lib/meta-flow.h, lib/meta-flow.c)

    The table of match fields and the functions that read, write and mask a
    field of a flow or match chosen at run time.  A [union mf_value] is the
    number whose big-endian bytes are the first [n_bytes] bytes of the union,
    and a [union mf_subvalue] the number of its 16 bytes.  The sets of usable
    protocols and the names of fields are not modelled; the headers of fields in
    messages are in [NxMatch]. *)
From S2P Require Import Prelude Util ByteOrder Bitwise MatchFields.

(** ** OpenFlow port numbers *)

Definition OFPP_MAX : Z := 0xff00.
Definition OFPP_NONE : Z := 0xffff.
Definition OFPP11_MAX : Z := 0xffffff00.
Definition OFPP11_OFFSET : Z := 0xffff0000.

(** The port, and whether the conversion succeeded. *)
Definition ofputil_port_from_ofp11 (ofp11_port : Z) : Z * bool :=
  if ofp11_port <? OFPP_MAX then (u16 ofp11_port, true)
  else if OFPP11_MAX <=? ofp11_port then (u16 (ofp11_port - OFPP11_OFFSET), true)
  else (OFPP_NONE, false).

Definition ofputil_port_to_ofp11 (ofp10_port : Z) : Z :=
  if ofp10_port <? OFPP_MAX then ofp10_port else ofp10_port + OFPP11_OFFSET.

(** ** The table of fields *)

Inductive mf_field :=
| MFF_TUN_ID | MFF_TUN_SRC | MFF_TUN_DST | MFF_TUN_FLAGS | MFF_TUN_TTL | MFF_TUN_TOS
| MFF_METADATA | MFF_IN_PORT | MFF_IN_PORT_OXM | MFF_SKB_PRIORITY | MFF_PKT_MARK
| MFF_REG (i : nat)
| MFF_ETH_SRC | MFF_ETH_DST | MFF_ETH_TYPE
| MFF_VLAN_TCI | MFF_DL_VLAN | MFF_VLAN_VID | MFF_DL_VLAN_PCP | MFF_VLAN_PCP
| MFF_MPLS_LABEL | MFF_MPLS_TC | MFF_MPLS_BOS
| MFF_IPV4_SRC | MFF_IPV4_DST | MFF_IPV6_SRC | MFF_IPV6_DST | MFF_IPV6_LABEL
| MFF_IP_PROTO | MFF_IP_DSCP | MFF_IP_DSCP_SHIFTED | MFF_IP_ECN | MFF_IP_TTL | MFF_IP_FRAG
| MFF_ARP_OP | MFF_ARP_SPA | MFF_ARP_TPA | MFF_ARP_SHA | MFF_ARP_THA
| MFF_TCP_SRC | MFF_TCP_DST | MFF_TCP_FLAGS | MFF_UDP_SRC | MFF_UDP_DST
| MFF_SCTP_SRC | MFF_SCTP_DST
| MFF_ICMPV4_TYPE | MFF_ICMPV4_CODE | MFF_ICMPV6_TYPE | MFF_ICMPV6_CODE
| MFF_ND_TARGET | MFF_ND_SLL | MFF_ND_TLL.

#[global] Instance mf_field_eq_dec : EqDecision mf_field.
Proof. solve_decision. Defined.

Inductive mf_prereqs :=
| MFP_NONE | MFP_ARP | MFP_VLAN_VID | MFP_IPV4 | MFP_IPV6 | MFP_IP_ANY | MFP_MPLS
| MFP_TCP | MFP_UDP | MFP_SCTP | MFP_ICMPV4 | MFP_ICMPV6 | MFP_ND | MFP_ND_SOLICIT | MFP_ND_ADVERT.

Inductive mf_maskable := MFM_NONE | MFM_FULLY.

(** The entries of [mf_fields]: width in bytes and bits, maskable,
    prerequisites, writable. *)
Definition mf_fields (mf : mf_field) : nat * nat * mf_maskable * mf_prereqs * bool :=
  match mf with
  | MFF_TUN_ID => (8, 64, MFM_FULLY, MFP_NONE, true)
  | MFF_TUN_SRC => (4, 32, MFM_FULLY, MFP_NONE, true)
  | MFF_TUN_DST => (4, 32, MFM_FULLY, MFP_NONE, true)
  | MFF_TUN_FLAGS => (2, 16, MFM_NONE, MFP_NONE, false)
  | MFF_TUN_TTL => (1, 8, MFM_NONE, MFP_NONE, false)
  | MFF_TUN_TOS => (1, 8, MFM_NONE, MFP_NONE, false)
  | MFF_METADATA => (8, 64, MFM_FULLY, MFP_NONE, true)
  | MFF_IN_PORT => (2, 16, MFM_NONE, MFP_NONE, true)
  | MFF_IN_PORT_OXM => (4, 32, MFM_NONE, MFP_NONE, true)
  | MFF_SKB_PRIORITY => (4, 32, MFM_NONE, MFP_NONE, false)
  | MFF_PKT_MARK => (4, 32, MFM_FULLY, MFP_NONE, true)
  | MFF_REG _ => (4, 32, MFM_FULLY, MFP_NONE, true)
  | MFF_ETH_SRC => (6, 48, MFM_FULLY, MFP_NONE, true)
  | MFF_ETH_DST => (6, 48, MFM_FULLY, MFP_NONE, true)
  | MFF_ETH_TYPE => (2, 16, MFM_NONE, MFP_NONE, false)
  | MFF_VLAN_TCI => (2, 16, MFM_FULLY, MFP_NONE, true)
  | MFF_DL_VLAN => (2, 12, MFM_NONE, MFP_NONE, true)
  | MFF_VLAN_VID => (2, 12, MFM_FULLY, MFP_NONE, true)
  | MFF_DL_VLAN_PCP => (1, 3, MFM_NONE, MFP_NONE, true)
  | MFF_VLAN_PCP => (1, 3, MFM_NONE, MFP_VLAN_VID, true)
  | MFF_MPLS_LABEL => (4, 20, MFM_NONE, MFP_MPLS, true)
  | MFF_MPLS_TC => (1, 3, MFM_NONE, MFP_MPLS, true)
  | MFF_MPLS_BOS => (1, 1, MFM_NONE, MFP_MPLS, false)
  | MFF_IPV4_SRC => (4, 32, MFM_FULLY, MFP_IPV4, true)
  | MFF_IPV4_DST => (4, 32, MFM_FULLY, MFP_IPV4, true)
  | MFF_IPV6_SRC => (16, 128, MFM_FULLY, MFP_IPV6, true)
  | MFF_IPV6_DST => (16, 128, MFM_FULLY, MFP_IPV6, true)
  | MFF_IPV6_LABEL => (4, 20, MFM_FULLY, MFP_IPV6, false)
  | MFF_IP_PROTO => (1, 8, MFM_NONE, MFP_IP_ANY, false)
  | MFF_IP_DSCP => (1, 8, MFM_NONE, MFP_IP_ANY, true)
  | MFF_IP_DSCP_SHIFTED => (1, 8, MFM_NONE, MFP_IP_ANY, true)
  | MFF_IP_ECN => (1, 2, MFM_NONE, MFP_IP_ANY, true)
  | MFF_IP_TTL => (1, 8, MFM_NONE, MFP_IP_ANY, true)
  | MFF_IP_FRAG => (1, 2, MFM_FULLY, MFP_IP_ANY, false)
  | MFF_ARP_OP => (2, 16, MFM_NONE, MFP_ARP, false)
  | MFF_ARP_SPA => (4, 32, MFM_FULLY, MFP_ARP, false)
  | MFF_ARP_TPA => (4, 32, MFM_FULLY, MFP_ARP, false)
  | MFF_ARP_SHA => (6, 48, MFM_FULLY, MFP_ARP, false)
  | MFF_ARP_THA => (6, 48, MFM_FULLY, MFP_ARP, false)
  | MFF_TCP_SRC => (2, 16, MFM_FULLY, MFP_TCP, true)
  | MFF_TCP_DST => (2, 16, MFM_FULLY, MFP_TCP, true)
  | MFF_TCP_FLAGS => (2, 12, MFM_FULLY, MFP_TCP, false)
  | MFF_UDP_SRC => (2, 16, MFM_FULLY, MFP_UDP, true)
  | MFF_UDP_DST => (2, 16, MFM_FULLY, MFP_UDP, true)
  | MFF_SCTP_SRC => (2, 16, MFM_FULLY, MFP_SCTP, true)
  | MFF_SCTP_DST => (2, 16, MFM_FULLY, MFP_SCTP, true)
  | MFF_ICMPV4_TYPE => (1, 8, MFM_NONE, MFP_ICMPV4, false)
  | MFF_ICMPV4_CODE => (1, 8, MFM_NONE, MFP_ICMPV4, false)
  | MFF_ICMPV6_TYPE => (1, 8, MFM_NONE, MFP_ICMPV6, false)
  | MFF_ICMPV6_CODE => (1, 8, MFM_NONE, MFP_ICMPV6, false)
  | MFF_ND_TARGET => (16, 128, MFM_FULLY, MFP_ND, false)
  | MFF_ND_SLL => (6, 48, MFM_FULLY, MFP_ND_SOLICIT, false)
  | MFF_ND_TLL => (6, 48, MFM_FULLY, MFP_ND_ADVERT, false)
  end%nat.

Definition mf_n_bytes (mf : mf_field) : nat := (mf_fields mf).1.1.1.1.
Definition mf_n_bits (mf : mf_field) : nat := (mf_fields mf).1.1.1.2.
Definition mf_maskability (mf : mf_field) : mf_maskable := (mf_fields mf).1.1.2.
Definition mf_prerequisites (mf : mf_field) : mf_prereqs := (mf_fields mf).1.2.
Definition mf_writable (mf : mf_field) : bool := (mf_fields mf).2.

(** The bytes of a value. *)
Definition mf_bytes (mf : mf_field) (value : Z) : list Z := be_bytes (mf_n_bytes mf) value.

Definition IPV6_LABEL_MASK : Z := 0x000fffff.
Definition IPPROTO_UDP : Z := 17.
Definition IPPROTO_SCTP : Z := 132.
Definition ND_NEIGHBOR_SOLICIT : Z := 135.
Definition ND_NEIGHBOR_ADVERT : Z := 136.

(** ** Inspecting fields *)

Definition is_ip_any (fl : flowf) : bool := dl_type_is_ip_any (fl F_dl_type).
Definition is_icmpv4 (fl : flowf) : bool :=
  (fl F_dl_type =? ETH_TYPE_IP) && (fl F_nw_proto =? IPPROTO_ICMP).
Definition is_icmpv6 (fl : flowf) : bool :=
  (fl F_dl_type =? ETH_TYPE_IPV6) && (fl F_nw_proto =? IPPROTO_ICMPV6).

Definition mf_is_all_wild (mf : mf_field) (wc : flowf) : bool :=
  match mf with
  | MFF_TUN_SRC => wc F_tun_src =? 0
  | MFF_TUN_DST => wc F_tun_dst =? 0
  | MFF_TUN_ID | MFF_TUN_TOS | MFF_TUN_TTL | MFF_TUN_FLAGS => wc F_tun_id =? 0
  | MFF_METADATA => wc F_metadata =? 0
  | MFF_IN_PORT | MFF_IN_PORT_OXM => wc F_in_port =? 0
  | MFF_SKB_PRIORITY => wc F_skb_priority =? 0
  | MFF_PKT_MARK => wc F_pkt_mark =? 0
  | MFF_REG i => wc (F_reg i) =? 0
  | MFF_ETH_SRC => wc F_dl_src =? 0
  | MFF_ETH_DST => wc F_dl_dst =? 0
  | MFF_ETH_TYPE => wc F_dl_type =? 0
  | MFF_ARP_SHA | MFF_ND_SLL => wc F_arp_sha =? 0
  | MFF_ARP_THA | MFF_ND_TLL => wc F_arp_tha =? 0
  | MFF_VLAN_TCI => wc F_vlan_tci =? 0
  | MFF_DL_VLAN => Z.land (wc F_vlan_tci) VLAN_VID_MASK =? 0
  | MFF_VLAN_VID => Z.land (wc F_vlan_tci) (Z.lor VLAN_VID_MASK VLAN_CFI) =? 0
  | MFF_DL_VLAN_PCP | MFF_VLAN_PCP => Z.land (wc F_vlan_tci) VLAN_PCP_MASK =? 0
  | MFF_MPLS_LABEL => Z.land (wc F_mpls_lse) MPLS_LABEL_MASK =? 0
  | MFF_MPLS_TC => Z.land (wc F_mpls_lse) MPLS_TC_MASK =? 0
  | MFF_MPLS_BOS => Z.land (wc F_mpls_lse) MPLS_BOS_MASK =? 0
  | MFF_IPV4_SRC | MFF_ARP_SPA => wc F_nw_src =? 0
  | MFF_IPV4_DST | MFF_ARP_TPA => wc F_nw_dst =? 0
  | MFF_IPV6_SRC => wc F_ipv6_src =? 0
  | MFF_IPV6_DST => wc F_ipv6_dst =? 0
  | MFF_IPV6_LABEL => wc F_ipv6_label =? 0
  | MFF_IP_PROTO | MFF_ARP_OP => wc F_nw_proto =? 0
  | MFF_IP_DSCP | MFF_IP_DSCP_SHIFTED => Z.land (wc F_nw_tos) IP_DSCP_MASK =? 0
  | MFF_IP_ECN => Z.land (wc F_nw_tos) IP_ECN_MASK =? 0
  | MFF_IP_TTL => wc F_nw_ttl =? 0
  | MFF_ND_TARGET => wc F_nd_target =? 0
  | MFF_IP_FRAG => Z.land (wc F_nw_frag) FLOW_NW_FRAG_MASK =? 0
  | MFF_TCP_SRC | MFF_UDP_SRC | MFF_SCTP_SRC | MFF_ICMPV4_TYPE | MFF_ICMPV6_TYPE => wc F_tp_src =? 0
  | MFF_TCP_DST | MFF_UDP_DST | MFF_SCTP_DST | MFF_ICMPV4_CODE | MFF_ICMPV6_CODE => wc F_tp_dst =? 0
  | MFF_TCP_FLAGS => wc F_tcp_flags =? 0
  end.

Definition mf_is_mask_valid (mf : mf_field) (mask : Z) : bool :=
  match mf_maskability mf with
  | MFM_NONE => is_all_zeros (mf_bytes mf mask) || is_all_ones (mf_bytes mf mask)
  | MFM_FULLY => true
  end.

Definition mf_are_prereqs_ok (mf : mf_field) (fl : flowf) : bool :=
  let nd t := is_icmpv6 fl && (fl F_tp_dst =? 0) && (fl F_tp_src =? t) in
  match mf_prerequisites mf with
  | MFP_NONE => true
  | MFP_ARP => (fl F_dl_type =? ETH_TYPE_ARP) || (fl F_dl_type =? ETH_TYPE_RARP)
  | MFP_IPV4 => fl F_dl_type =? ETH_TYPE_IP
  | MFP_IPV6 => fl F_dl_type =? ETH_TYPE_IPV6
  | MFP_VLAN_VID => negb (Z.land (fl F_vlan_tci) VLAN_CFI =? 0)
  | MFP_MPLS => eth_type_mpls (fl F_dl_type)
  | MFP_IP_ANY => is_ip_any fl
  | MFP_TCP => is_ip_any fl && (fl F_nw_proto =? IPPROTO_TCP)
  | MFP_UDP => is_ip_any fl && (fl F_nw_proto =? IPPROTO_UDP)
  | MFP_SCTP => is_ip_any fl && (fl F_nw_proto =? IPPROTO_SCTP)
  | MFP_ICMPV4 => is_icmpv4 fl
  | MFP_ICMPV6 => is_icmpv6 fl
  | MFP_ND => nd ND_NEIGHBOR_SOLICIT || nd ND_NEIGHBOR_ADVERT
  | MFP_ND_SOLICIT => nd ND_NEIGHBOR_SOLICIT
  | MFP_ND_ADVERT => nd ND_NEIGHBOR_ADVERT
  end.

(** [!(value & ~mask)] *)
Definition no_bits_outside (value mask : Z) : bool := Z.ldiff value mask =? 0.

Definition mf_is_value_valid (mf : mf_field) (value : Z) : bool :=
  match mf with
  | MFF_IN_PORT_OXM => (ofputil_port_from_ofp11 value).2
  | MFF_IP_DSCP => no_bits_outside value IP_DSCP_MASK
  | MFF_IP_DSCP_SHIFTED => Z.land value (Z.shiftr (Z.lnot IP_DSCP_MASK) 2) =? 0
  | MFF_IP_ECN => no_bits_outside value IP_ECN_MASK
  | MFF_IP_FRAG => no_bits_outside value FLOW_NW_FRAG_MASK
  | MFF_TCP_FLAGS => no_bits_outside value 0x0fff
  | MFF_ARP_OP => Z.land value 0xff00 =? 0
  | MFF_DL_VLAN => Z.land value (Z.lor VLAN_CFI VLAN_PCP_MASK) =? 0
  | MFF_VLAN_VID => Z.land value VLAN_PCP_MASK =? 0
  | MFF_DL_VLAN_PCP | MFF_VLAN_PCP => no_bits_outside value (Z.shiftr VLAN_PCP_MASK VLAN_PCP_SHIFT)
  | MFF_IPV6_LABEL => no_bits_outside value IPV6_LABEL_MASK
  | MFF_MPLS_LABEL => no_bits_outside value (Z.shiftr MPLS_LABEL_MASK MPLS_LABEL_SHIFT)
  | MFF_MPLS_TC => no_bits_outside value (Z.shiftr MPLS_TC_MASK MPLS_TC_SHIFT)
  | MFF_MPLS_BOS => no_bits_outside value (Z.shiftr MPLS_BOS_MASK MPLS_BOS_SHIFT)
  | _ => true
  end.

(** ** Reading and writing a field *)

Definition mf_get_value (mf : mf_field) (fl : flowf) : Z :=
  match mf with
  | MFF_TUN_ID => fl F_tun_id
  | MFF_TUN_SRC => fl F_tun_src
  | MFF_TUN_DST => fl F_tun_dst
  | MFF_TUN_FLAGS => fl F_tun_flags
  | MFF_TUN_TTL => fl F_tun_ttl
  | MFF_TUN_TOS => fl F_tun_tos
  | MFF_METADATA => fl F_metadata
  | MFF_IN_PORT => fl F_in_port
  | MFF_IN_PORT_OXM => ofputil_port_to_ofp11 (fl F_in_port)
  | MFF_SKB_PRIORITY => fl F_skb_priority
  | MFF_PKT_MARK => fl F_pkt_mark
  | MFF_REG i => fl (F_reg i)
  | MFF_ETH_SRC => fl F_dl_src
  | MFF_ETH_DST => fl F_dl_dst
  | MFF_ETH_TYPE => fl F_dl_type
  | MFF_VLAN_TCI => fl F_vlan_tci
  | MFF_DL_VLAN => Z.land (fl F_vlan_tci) VLAN_VID_MASK
  | MFF_VLAN_VID => Z.land (fl F_vlan_tci) (Z.lor VLAN_VID_MASK VLAN_CFI)
  | MFF_DL_VLAN_PCP | MFF_VLAN_PCP => vlan_tci_to_pcp (fl F_vlan_tci)
  | MFF_MPLS_LABEL => mpls_lse_to_label (fl F_mpls_lse)
  | MFF_MPLS_TC => mpls_lse_to_tc (fl F_mpls_lse)
  | MFF_MPLS_BOS => if mpls_lse_to_bos (fl F_mpls_lse) then 1 else 0
  | MFF_IPV4_SRC => fl F_nw_src
  | MFF_IPV4_DST => fl F_nw_dst
  | MFF_IPV6_SRC => fl F_ipv6_src
  | MFF_IPV6_DST => fl F_ipv6_dst
  | MFF_IPV6_LABEL => fl F_ipv6_label
  | MFF_IP_PROTO => fl F_nw_proto
  | MFF_IP_DSCP => Z.land (fl F_nw_tos) IP_DSCP_MASK
  | MFF_IP_DSCP_SHIFTED => Z.shiftr (fl F_nw_tos) 2
  | MFF_IP_ECN => Z.land (fl F_nw_tos) IP_ECN_MASK
  | MFF_IP_TTL => fl F_nw_ttl
  | MFF_IP_FRAG => fl F_nw_frag
  | MFF_ARP_OP => fl F_nw_proto
  | MFF_ARP_SPA => fl F_nw_src
  | MFF_ARP_TPA => fl F_nw_dst
  | MFF_ARP_SHA | MFF_ND_SLL => fl F_arp_sha
  | MFF_ARP_THA | MFF_ND_TLL => fl F_arp_tha
  | MFF_TCP_SRC | MFF_UDP_SRC | MFF_SCTP_SRC => fl F_tp_src
  | MFF_TCP_DST | MFF_UDP_DST | MFF_SCTP_DST => fl F_tp_dst
  | MFF_TCP_FLAGS => fl F_tcp_flags
  | MFF_ICMPV4_TYPE | MFF_ICMPV6_TYPE => u8 (fl F_tp_src)
  | MFF_ICMPV4_CODE | MFF_ICMPV6_CODE => u8 (fl F_tp_dst)
  | MFF_ND_TARGET => fl F_nd_target
  end.

Definition mf_get_mask (mf : mf_field) (wc : flowf) : Z := mf_get_value mf wc.

Definition mf_is_zero (mf : mf_field) (fl : flowf) : bool := is_all_zeros (mf_bytes mf (mf_get_value mf fl)).

Definition mf_set_flow_value (mf : mf_field) (value : Z) (fl : flowf) : flowf :=
  match mf with
  | MFF_TUN_ID => upd F_tun_id value fl
  | MFF_TUN_SRC => upd F_tun_src value fl
  | MFF_TUN_DST => upd F_tun_dst value fl
  | MFF_TUN_FLAGS => upd F_tun_flags value fl
  | MFF_TUN_TOS => upd F_tun_tos value fl
  | MFF_TUN_TTL => upd F_tun_ttl value fl
  | MFF_METADATA => upd F_metadata value fl
  | MFF_IN_PORT => upd F_in_port value fl
  | MFF_IN_PORT_OXM => upd F_in_port (ofputil_port_from_ofp11 value).1 fl
  | MFF_SKB_PRIORITY => upd F_skb_priority value fl
  | MFF_PKT_MARK => upd F_pkt_mark value fl
  | MFF_REG i => upd (F_reg i) value fl
  | MFF_ETH_SRC => upd F_dl_src value fl
  | MFF_ETH_DST => upd F_dl_dst value fl
  | MFF_ETH_TYPE => upd F_dl_type value fl
  | MFF_VLAN_TCI => upd F_vlan_tci value fl
  | MFF_DL_VLAN => flow_set_dl_vlan fl value
  | MFF_VLAN_VID => flow_set_vlan_vid fl value
  | MFF_DL_VLAN_PCP | MFF_VLAN_PCP => flow_set_vlan_pcp fl value
  | MFF_MPLS_LABEL => flow_set_mpls_label fl value
  | MFF_MPLS_TC => flow_set_mpls_tc fl value
  | MFF_MPLS_BOS => flow_set_mpls_bos fl value
  | MFF_IPV4_SRC => upd F_nw_src value fl
  | MFF_IPV4_DST => upd F_nw_dst value fl
  | MFF_IPV6_SRC => upd F_ipv6_src value fl
  | MFF_IPV6_DST => upd F_ipv6_dst value fl
  | MFF_IPV6_LABEL => upd F_ipv6_label (Z.ldiff value IPV6_LABEL_MASK) fl
  | MFF_IP_PROTO => upd F_nw_proto value fl
  | MFF_IP_DSCP =>
      upd F_nw_tos (Z.lor (and_not (fl F_nw_tos) IP_DSCP_MASK) (Z.land value IP_DSCP_MASK)) fl
  | MFF_IP_DSCP_SHIFTED =>
      upd F_nw_tos (u8 (Z.lor (and_not (fl F_nw_tos) IP_DSCP_MASK) (Z.shiftl value 2))) fl
  | MFF_IP_ECN =>
      upd F_nw_tos (Z.lor (and_not (fl F_nw_tos) IP_ECN_MASK) (Z.land value IP_ECN_MASK)) fl
  | MFF_IP_TTL => upd F_nw_ttl value fl
  | MFF_IP_FRAG => upd F_nw_frag (Z.land (fl F_nw_frag) value) fl
  | MFF_ARP_OP => upd F_nw_proto (u8 value) fl
  | MFF_ARP_SPA => upd F_nw_src value fl
  | MFF_ARP_TPA => upd F_nw_dst value fl
  | MFF_ARP_SHA | MFF_ND_SLL => upd F_arp_sha value fl
  | MFF_ARP_THA | MFF_ND_TLL => upd F_arp_tha value fl
  | MFF_TCP_SRC | MFF_UDP_SRC | MFF_SCTP_SRC => upd F_tp_src value fl
  | MFF_TCP_DST | MFF_UDP_DST | MFF_SCTP_DST => upd F_tp_dst value fl
  | MFF_TCP_FLAGS => upd F_tcp_flags value fl
  | MFF_ICMPV4_TYPE | MFF_ICMPV6_TYPE => upd F_tp_src value fl
  | MFF_ICMPV4_CODE | MFF_ICMPV6_CODE => upd F_tp_dst value fl
  | MFF_ND_TARGET => upd F_nd_target value fl
  end.

(** ** Matching on a field; [None] is a failed assertion *)

Definition mf_set_value (mf : mf_field) (value : Z) (m : fmatch) : option fmatch :=
  match mf with
  | MFF_TUN_ID => Some (match_set_tun_id m value)
  | MFF_TUN_SRC => Some (match_set_tun_src m value)
  | MFF_TUN_DST => Some (match_set_tun_dst m value)
  | MFF_TUN_FLAGS => Some (match_set_tun_flags m value)
  | MFF_TUN_TOS => Some (match_set_tun_tos m value)
  | MFF_TUN_TTL => Some (match_set_tun_ttl m value)
  | MFF_METADATA => Some (match_set_metadata m value)
  | MFF_IN_PORT => Some (match_set_in_port m value)
  | MFF_IN_PORT_OXM => Some (match_set_in_port m (ofputil_port_from_ofp11 value).1)
  | MFF_SKB_PRIORITY => Some (match_set_skb_priority m value)
  | MFF_PKT_MARK => Some (match_set_pkt_mark m value)
  | MFF_REG i => match_set_reg m i value
  | MFF_ETH_SRC => Some (match_set_dl_src m value)
  | MFF_ETH_DST => Some (match_set_dl_dst m value)
  | MFF_ETH_TYPE => Some (match_set_dl_type m value)
  | MFF_VLAN_TCI => Some (match_set_dl_tci m value)
  | MFF_DL_VLAN => Some (match_set_dl_vlan m value)
  | MFF_VLAN_VID => Some (match_set_vlan_vid m value)
  | MFF_DL_VLAN_PCP | MFF_VLAN_PCP => Some (match_set_dl_vlan_pcp m value)
  | MFF_MPLS_LABEL => Some (match_set_mpls_label m value)
  | MFF_MPLS_TC => Some (match_set_mpls_tc m value)
  | MFF_MPLS_BOS => Some (match_set_mpls_bos m value)
  | MFF_IPV4_SRC | MFF_ARP_SPA => Some (match_set_nw_src m value)
  | MFF_IPV4_DST | MFF_ARP_TPA => Some (match_set_nw_dst m value)
  | MFF_IPV6_SRC => Some (match_set_ipv6_src m value)
  | MFF_IPV6_DST => Some (match_set_ipv6_dst m value)
  | MFF_IPV6_LABEL => Some (match_set_ipv6_label m value)
  | MFF_IP_PROTO => Some (match_set_nw_proto m value)
  | MFF_IP_DSCP => Some (match_set_nw_dscp m value)
  | MFF_IP_DSCP_SHIFTED => Some (match_set_nw_dscp m (u8 (Z.shiftl value 2)))
  | MFF_IP_ECN => Some (match_set_nw_ecn m value)
  | MFF_IP_TTL => Some (match_set_nw_ttl m value)
  | MFF_IP_FRAG => Some (match_set_nw_frag m value)
  | MFF_ARP_OP => Some (match_set_nw_proto m (u8 value))
  | MFF_ARP_SHA | MFF_ND_SLL => Some (match_set_arp_sha m value)
  | MFF_ARP_THA | MFF_ND_TLL => Some (match_set_arp_tha m value)
  | MFF_TCP_SRC | MFF_UDP_SRC | MFF_SCTP_SRC => Some (match_set_tp_src m value)
  | MFF_TCP_DST | MFF_UDP_DST | MFF_SCTP_DST => Some (match_set_tp_dst m value)
  | MFF_TCP_FLAGS => Some (match_set_tcp_flags m value)
  | MFF_ICMPV4_TYPE | MFF_ICMPV6_TYPE => Some (match_set_icmp_type m value)
  | MFF_ICMPV4_CODE | MFF_ICMPV6_CODE => Some (match_set_icmp_code m value)
  | MFF_ND_TARGET => Some (match_set_nd_target m value)
  end.

(** [flow.f = 0; wc.masks.f = 0] *)
Definition zero_field (f : field) (m : fmatch) : fmatch :=
  FMatch (upd f 0 (fm_flow m)) (upd f 0 (fm_wc m)).

Definition mf_set_wild (mf : mf_field) (m : fmatch) : option fmatch :=
  match mf with
  | MFF_TUN_ID => Some (match_set_tun_id_masked m 0 0)
  | MFF_TUN_SRC => Some (match_set_tun_src_masked m 0 0)
  | MFF_TUN_DST => Some (match_set_tun_dst_masked m 0 0)
  | MFF_TUN_FLAGS => Some (match_set_tun_flags_masked m 0 0)
  | MFF_TUN_TOS => Some (match_set_tun_tos_masked m 0 0)
  | MFF_TUN_TTL => Some (match_set_tun_ttl_masked m 0 0)
  | MFF_METADATA => Some (match_set_metadata_masked m 0 0)
  | MFF_IN_PORT | MFF_IN_PORT_OXM => Some (zero_field F_in_port m)
  | MFF_SKB_PRIORITY => Some (zero_field F_skb_priority m)
  | MFF_PKT_MARK => Some (zero_field F_pkt_mark m)
  | MFF_REG i => match_set_reg_masked m i 0 0
  | MFF_ETH_SRC => Some (zero_field F_dl_src m)
  | MFF_ETH_DST => Some (zero_field F_dl_dst m)
  | MFF_ETH_TYPE => Some (zero_field F_dl_type m)
  | MFF_VLAN_TCI => Some (match_set_dl_tci_masked m 0 0)
  | MFF_DL_VLAN | MFF_VLAN_VID => Some (match_set_any_vid m)
  | MFF_DL_VLAN_PCP | MFF_VLAN_PCP => Some (match_set_any_pcp m)
  | MFF_MPLS_LABEL => Some (match_set_any_mpls_label m)
  | MFF_MPLS_TC => Some (match_set_any_mpls_tc m)
  | MFF_MPLS_BOS => Some (match_set_any_mpls_bos m)
  | MFF_IPV4_SRC | MFF_ARP_SPA => Some (match_set_nw_src_masked m 0 0)
  | MFF_IPV4_DST | MFF_ARP_TPA => Some (match_set_nw_dst_masked m 0 0)
  | MFF_IPV6_SRC => Some (zero_field F_ipv6_src m)
  | MFF_IPV6_DST => Some (zero_field F_ipv6_dst m)
  | MFF_IPV6_LABEL => Some (zero_field F_ipv6_label m)
  | MFF_IP_PROTO => Some (zero_field F_nw_proto m)
  | MFF_IP_DSCP | MFF_IP_DSCP_SHIFTED => Some (clear_bits F_nw_tos IP_DSCP_MASK m)
  | MFF_IP_ECN => Some (clear_bits F_nw_tos IP_ECN_MASK m)
  | MFF_IP_TTL => Some (zero_field F_nw_ttl m)
  | MFF_IP_FRAG =>
      Some (FMatch (upd F_nw_frag (and_not (fm_flow m F_nw_frag) FLOW_NW_FRAG_MASK) (fm_flow m))
              (upd F_nw_frag (Z.lor (fm_wc m F_nw_frag) FLOW_NW_FRAG_MASK) (fm_wc m)))
  | MFF_ARP_OP => Some (zero_field F_nw_proto m)
  | MFF_ARP_SHA | MFF_ND_SLL => Some (zero_field F_arp_sha m)
  | MFF_ARP_THA | MFF_ND_TLL => Some (zero_field F_arp_tha m)
  | MFF_TCP_SRC | MFF_UDP_SRC | MFF_SCTP_SRC | MFF_ICMPV4_TYPE | MFF_ICMPV6_TYPE => Some (zero_field F_tp_src m)
  | MFF_TCP_DST | MFF_UDP_DST | MFF_SCTP_DST | MFF_ICMPV4_CODE | MFF_ICMPV6_CODE => Some (zero_field F_tp_dst m)
  | MFF_TCP_FLAGS => Some (zero_field F_tcp_flags m)
  | MFF_ND_TARGET => Some (zero_field F_nd_target m)
  end.

(** The part of [mf_set] for a mask that is neither all ones nor all zeros. *)
Definition mf_set_masked (mf : mf_field) (value mask : Z) (m : fmatch) : option fmatch :=
  match mf with
  | MFF_IN_PORT | MFF_IN_PORT_OXM | MFF_SKB_PRIORITY | MFF_ETH_TYPE | MFF_DL_VLAN | MFF_DL_VLAN_PCP
  | MFF_VLAN_PCP | MFF_MPLS_LABEL | MFF_MPLS_TC | MFF_MPLS_BOS | MFF_IP_PROTO | MFF_IP_TTL
  | MFF_IP_DSCP | MFF_IP_DSCP_SHIFTED | MFF_IP_ECN | MFF_ARP_OP | MFF_ICMPV4_TYPE | MFF_ICMPV4_CODE
  | MFF_ICMPV6_TYPE | MFF_ICMPV6_CODE => None
  | MFF_TUN_ID => Some (match_set_tun_id_masked m value mask)
  | MFF_TUN_SRC => Some (match_set_tun_src_masked m value mask)
  | MFF_TUN_DST => Some (match_set_tun_dst_masked m value mask)
  | MFF_TUN_FLAGS => Some (match_set_tun_flags_masked m value mask)
  | MFF_TUN_TTL => Some (match_set_tun_ttl_masked m value mask)
  | MFF_TUN_TOS => Some (match_set_tun_tos_masked m value mask)
  | MFF_METADATA => Some (match_set_metadata_masked m value mask)
  | MFF_REG i => match_set_reg_masked m i value mask
  | MFF_PKT_MARK => Some (match_set_pkt_mark_masked m value mask)
  | MFF_ETH_DST => Some (match_set_dl_dst_masked m value mask)
  | MFF_ETH_SRC => Some (match_set_dl_src_masked m value mask)
  | MFF_ARP_SHA | MFF_ND_SLL => Some (match_set_arp_sha_masked m value mask)
  | MFF_ARP_THA | MFF_ND_TLL => Some (match_set_arp_tha_masked m value mask)
  | MFF_VLAN_TCI => Some (match_set_dl_tci_masked m value mask)
  | MFF_VLAN_VID => Some (match_set_vlan_vid_masked m value mask)
  | MFF_IPV4_SRC | MFF_ARP_SPA => Some (match_set_nw_src_masked m value mask)
  | MFF_IPV4_DST | MFF_ARP_TPA => Some (match_set_nw_dst_masked m value mask)
  | MFF_IPV6_SRC => Some (match_set_ipv6_src_masked m value mask)
  | MFF_IPV6_DST => Some (match_set_ipv6_dst_masked m value mask)
  | MFF_IPV6_LABEL =>
      if Z.land mask IPV6_LABEL_MASK =? IPV6_LABEL_MASK then mf_set_value mf value m
      else Some (match_set_ipv6_label_masked m value mask)
  | MFF_ND_TARGET => Some (match_set_nd_target_masked m value mask)
  | MFF_IP_FRAG => Some (match_set_nw_frag_masked m value mask)
  | MFF_TCP_SRC | MFF_UDP_SRC | MFF_SCTP_SRC => Some (match_set_tp_src_masked m value mask)
  | MFF_TCP_DST | MFF_UDP_DST | MFF_SCTP_DST => Some (match_set_tp_dst_masked m value mask)
  | MFF_TCP_FLAGS => Some (match_set_tcp_flags_masked m value mask)
  end.

(** [mask] is null for an exact match. *)
Definition mf_set (mf : mf_field) (value : Z) (mask : option Z) (m : fmatch) : option fmatch :=
  match mask with
  | None => mf_set_value mf value m
  | Some mask =>
      if is_all_ones (mf_bytes mf mask) then mf_set_value mf value m
      else if is_all_zeros (mf_bytes mf mask) then mf_set_wild mf m
      else mf_set_masked mf value mask m
  end.

Definition mf_get (mf : mf_field) (m : fmatch) : Z * Z :=
  (mf_get_value mf (fm_flow m), mf_get_mask mf (fm_wc m)).

(** ** Subfields *)

Record mf_subfield := MfSubfield { sf_field : mf_field; sf_ofs : nat; sf_n_bits : nat }.

Inductive ofperr :=
| OFPERR_OFPBAC_BAD_SET_LEN | OFPERR_OFPBAC_MATCH_INCONSISTENT | OFPERR_OFPBAC_BAD_SET_ARGUMENT
| OFPERR_OFPBAC_BAD_SET_TYPE | OFPERR_OFPBAC_BAD_ARGUMENT
| OFPERR_OFPBMC_BAD_FIELD | OFPERR_OFPBMC_BAD_PREREQ | OFPERR_OFPBMC_DUP_FIELD | OFPERR_OFPBMC_BAD_VALUE
| OFPERR_OFPBMC_BAD_MASK | OFPERR_OFPBMC_BAD_LEN | OFPERR_OFPBMC_BAD_TYPE.

(** [None] is success.  A subfield without a field is not represented. *)
Definition mf_check__ (sf : mf_subfield) (fl : option flowf) : option ofperr :=
  if decide (sf_n_bits sf = 0)%nat then Some OFPERR_OFPBAC_BAD_SET_LEN
  else if decide (mf_n_bits (sf_field sf) ≤ sf_ofs sf)%nat then Some OFPERR_OFPBAC_BAD_SET_LEN
  else if decide (mf_n_bits (sf_field sf) < sf_ofs sf + sf_n_bits sf)%nat then Some OFPERR_OFPBAC_BAD_SET_LEN
  else match fl with
       | Some fl => if mf_are_prereqs_ok (sf_field sf) fl then None else Some OFPERR_OFPBAC_MATCH_INCONSISTENT
       | None => None
       end.

Definition mf_check_src (sf : mf_subfield) (fl : option flowf) : option ofperr := mf_check__ sf fl.

Definition mf_check_dst (sf : mf_subfield) (fl : option flowf) : option ofperr :=
  match mf_check__ sf fl with
  | None => if mf_writable (sf_field sf) then None else Some OFPERR_OFPBAC_BAD_SET_ARGUMENT
  | Some error => Some error
  end.

Definition mf_write_subfield_flow (sf : mf_subfield) (x : Z) (fl : flowf) : flowf :=
  let field := sf_field sf in
  let value := mf_bytes field (mf_get_value field fl) in
  let value := bitwise_copy (be_bytes 16 x) 0 value (sf_ofs sf) (sf_n_bits sf) in
  mf_set_flow_value field (get_be value) fl.

Definition mf_write_subfield (sf : mf_subfield) (x : Z) (m : fmatch) : option fmatch :=
  let field := sf_field sf in
  let '(value, mask) := mf_get field m in
  let value := bitwise_copy (be_bytes 16 x) 0 (mf_bytes field value) (sf_ofs sf) (sf_n_bits sf) in
  let mask := bitwise_one (mf_bytes field mask) (sf_ofs sf) (sf_n_bits sf) in
  mf_set field (get_be value) (Some (get_be mask)) m.

Definition mf_read_subfield (sf : mf_subfield) (fl : flowf) : Z :=
  let value := mf_bytes (sf_field sf) (mf_get_value (sf_field sf) fl) in
  get_be (bitwise_copy value (sf_ofs sf) (be_bytes 16 0) 0 (sf_n_bits sf)).

Definition mf_get_subfield (sf : mf_subfield) (fl : flowf) : Z :=
  bitwise_get (mf_bytes (sf_field sf) (mf_get_value (sf_field sf) fl)) (sf_ofs sf) (sf_n_bits sf).

(** A random value, made valid; [r] is what [random_bytes] filled in. *)
Definition mf_random_value (mf : mf_field) (r : Z) : Z :=
  match mf with
  | MFF_TCP_FLAGS => Z.ldiff r 0x0fff
  | MFF_IN_PORT_OXM => ofputil_port_to_ofp11 (Z.shiftr r 16)
  | MFF_IPV6_LABEL => Z.ldiff r IPV6_LABEL_MASK
  | MFF_IP_DSCP => Z.land r IP_DSCP_MASK
  | MFF_IP_DSCP_SHIFTED => Z.land r (Z.shiftr IP_DSCP_MASK 2)
  | MFF_IP_ECN => Z.land r IP_ECN_MASK
  | MFF_IP_FRAG => Z.land r FLOW_NW_FRAG_MASK
  | MFF_ARP_OP => Z.land r 0xff
  | MFF_DL_VLAN => Z.land r VLAN_VID_MASK
  | MFF_VLAN_VID => Z.land r (Z.lor VLAN_VID_MASK VLAN_CFI)
  | MFF_DL_VLAN_PCP | MFF_VLAN_PCP => Z.land r 0x07
  | MFF_MPLS_LABEL => Z.land r (Z.shiftr MPLS_LABEL_MASK MPLS_LABEL_SHIFT)
  | MFF_MPLS_TC => Z.land r (Z.shiftr MPLS_TC_MASK MPLS_TC_SHIFT)
  | MFF_MPLS_BOS => Z.land r (Z.shiftr MPLS_BOS_MASK MPLS_BOS_SHIFT)
  | _ => r
  end.

(** ** Properties *)

(** The member of [struct flow] that holds a field. *)
Definition mf_flow_field (mf : mf_field) : field :=
  match mf with
  | MFF_TUN_ID => F_tun_id | MFF_TUN_SRC => F_tun_src | MFF_TUN_DST => F_tun_dst
  | MFF_TUN_FLAGS => F_tun_flags | MFF_TUN_TTL => F_tun_ttl | MFF_TUN_TOS => F_tun_tos
  | MFF_METADATA => F_metadata | MFF_IN_PORT | MFF_IN_PORT_OXM => F_in_port
  | MFF_SKB_PRIORITY => F_skb_priority | MFF_PKT_MARK => F_pkt_mark | MFF_REG i => F_reg i
  | MFF_ETH_SRC => F_dl_src | MFF_ETH_DST => F_dl_dst | MFF_ETH_TYPE => F_dl_type
  | MFF_VLAN_TCI | MFF_DL_VLAN | MFF_VLAN_VID | MFF_DL_VLAN_PCP | MFF_VLAN_PCP => F_vlan_tci
  | MFF_MPLS_LABEL | MFF_MPLS_TC | MFF_MPLS_BOS => F_mpls_lse
  | MFF_IPV4_SRC | MFF_ARP_SPA => F_nw_src | MFF_IPV4_DST | MFF_ARP_TPA => F_nw_dst
  | MFF_IPV6_SRC => F_ipv6_src | MFF_IPV6_DST => F_ipv6_dst | MFF_IPV6_LABEL => F_ipv6_label
  | MFF_IP_PROTO | MFF_ARP_OP => F_nw_proto
  | MFF_IP_DSCP | MFF_IP_DSCP_SHIFTED | MFF_IP_ECN => F_nw_tos
  | MFF_IP_TTL => F_nw_ttl | MFF_IP_FRAG => F_nw_frag
  | MFF_ARP_SHA | MFF_ND_SLL => F_arp_sha | MFF_ARP_THA | MFF_ND_TLL => F_arp_tha
  | MFF_TCP_SRC | MFF_UDP_SRC | MFF_SCTP_SRC | MFF_ICMPV4_TYPE | MFF_ICMPV6_TYPE => F_tp_src
  | MFF_TCP_DST | MFF_UDP_DST | MFF_SCTP_DST | MFF_ICMPV4_CODE | MFF_ICMPV6_CODE => F_tp_dst
  | MFF_TCP_FLAGS => F_tcp_flags | MFF_ND_TARGET => F_nd_target
  end.

Definition flow_ok (fl : flowf) : Prop := ∀ f, in_width (field_width f) (fl f).

Definition mf_width (mf : mf_field) : Z := 8 * Z.of_nat (mf_n_bytes mf).

Lemma upd_eq f v fl : upd f v fl f = v.
Proof. unfold upd. by rewrite decide_True. Qed.
Lemma upd_ne f g v fl : g ≠ f → upd f v fl g = fl g.
Proof. intros. unfold upd. by rewrite decide_False. Qed.

Lemma upd_flow_ok f v fl : flow_ok fl → in_width (field_width f) v → flow_ok (upd f v fl).
Proof. intros Hf Hv g. unfold upd. case_decide; [by subst|apply Hf]. Qed.

Lemma mf_set_flow_value_other mf v fl g : g ≠ mf_flow_field mf → mf_set_flow_value mf v fl g = fl g.
Proof.
  intros Hg. destruct mf; simpl in Hg; cbn [mf_set_flow_value];
    unfold flow_set_dl_vlan, flow_set_vlan_vid, flow_set_vlan_pcp, flow_set_mpls_label, flow_set_mpls_tc,
      flow_set_mpls_bos; try (by apply upd_ne).
  destruct (_ =? _); by apply upd_ne.
Qed.

(** *** Fields that share a member *)

Lemma ldiff_0_iff x k : Z.ldiff x k = 0 ↔ Z.land x k = x.
Proof.
  split; intros H.
  - rewrite <- (Z.lor_ldiff_and x k) at 2. by rewrite H, Z.lor_0_l.
  - rewrite <- H. apply Z.bits_inj'. intros i _. rewrite Z.ldiff_spec, Z.land_spec, Z.bits_0.
    by destruct (Z.testbit x i), (Z.testbit k i).
Qed.

Lemma insert_read x v k : Z.land v k = v → Z.land (Z.lor (Z.ldiff x k) v) k = v.
Proof. intros H. bits_with H. Qed.

(** A value with no bits in one part of its width is inside the other. *)
Lemma mask_rest w v a b :
  0 ≤ w → in_width w v → Z.lor a b = 2 ^ w - 1 → Z.land v b = 0 → Z.land v a = v.
Proof.
  intros Hw Hv Hab H. rewrite <- (land_all_ones w v Hv) at 2 by done.
  by rewrite <- Hab, Z.land_lor_distr_r, H, Z.lor_0_r.
Qed.

(** A value shifted into place under a mask and read back. *)
Lemma shifted_read x v k m s :
  0 ≤ s → k = Z.shiftl m s → Z.land v m = v →
  Z.shiftr (Z.land (Z.lor (Z.ldiff x k) (Z.land (Z.shiftl v s) k)) k) s = v.
Proof.
  intros Hs -> Hv. rewrite <- Z.shiftl_land, Hv.
  rewrite insert_read by (rewrite <- Z.shiftl_land; by rewrite Hv).
  rewrite Z.shiftr_shiftl_l by lia. by rewrite Z.sub_diag, Z.shiftl_0_r.
Qed.

Lemma port_ofp11_roundtrip v :
  is_u32 v → (ofputil_port_from_ofp11 v).2 = true →
  ofputil_port_to_ofp11 (ofputil_port_from_ofp11 v).1 = v ∧ is_u16 (ofputil_port_from_ofp11 v).1.
Proof.
  unfold ofputil_port_from_ofp11, ofputil_port_to_ofp11, OFPP_MAX, OFPP11_MAX, OFPP11_OFFSET. intros Hv.
  destruct Hv as [H0 H1]. change (2 ^ 32) with 4294967296 in H1. destruct (Z.ltb_spec v 0xff00); simpl.
  - intros _. rewrite (wrap_id 16) by (split; lia). rewrite (proj2 (Z.ltb_lt _ _)) by done. split; [done|split; lia].
  - destruct (Z.leb_spec 0xffffff00 v); simpl; [|done]. intros _.
    rewrite (wrap_id 16) by (split; lia). rewrite (proj2 (Z.ltb_ge _ _)) by lia. split; [lia|split; lia].
Qed.

Lemma low_bits_width n v : 0 ≤ n → Z.land v (Z.ones n) = v → in_width n v.
Proof. intros Hn <-. rewrite Z.land_ones by done. by apply Z.mod_pos_bound, Z.pow_pos_nonneg. Qed.

Lemma dscp_shifted_read x v :
  is_u8 x → Z.land v (Z.shiftr (Z.lnot IP_DSCP_MASK) 2) = 0 →
  Z.shiftr (u8 (Z.lor (Z.ldiff x IP_DSCP_MASK) (Z.shiftl v 2))) 2 = v.
Proof.
  intros Hx H. change (Z.shiftr (Z.lnot IP_DSCP_MASK) 2) with (Z.lnot (Z.ones 6)) in H.
  rewrite <- Z.ldiff_land, ldiff_0_iff in H. apply low_bits_width in H; [|done].
  rewrite wrap_id.
  - rewrite Z.shiftr_lor, Z.shiftr_shiftl_l, Z.shiftl_0_r by done.
    replace (Z.shiftr (Z.ldiff x IP_DSCP_MASK) 2) with 0; [by rewrite Z.lor_0_l|]. symmetry.
    rewrite Z.shiftr_ldiff by done. change (Z.shiftr IP_DSCP_MASK 2) with (Z.ones 6).
    rewrite Z.ldiff_ones_r by done. rewrite Z.shiftr_shiftr, Z.shiftr_div_pow2 by done.
    by rewrite Z.div_small by apply Hx.
  - apply lor_in_width; [done|by apply ldiff_in_width|]. rewrite Z.shiftl_mul_pow2 by done.
    destruct H. change (2 ^ 6) with 64 in *. split; lia.
Qed.

Lemma mf_set_get_value mf v fl :
  mf_writable mf = true → flow_ok fl → in_width (mf_width mf) v → mf_is_value_valid mf v = true →
  mf_get_value mf (mf_set_flow_value mf v fl) = v.
Proof.
  intros Hw Hf Hv Hok.
  assert (Hpcp : Z.land v (Z.shiftr VLAN_PCP_MASK VLAN_PCP_SHIFT) = v →
    vlan_tci_to_pcp (flow_set_vlan_pcp fl v F_vlan_tci) = v).
  { intros H. rewrite <- H at 2. apply pcp_spec. unfold flow_set_vlan_pcp. rewrite upd_eq.
    change 7 with (Z.shiftr VLAN_PCP_MASK VLAN_PCP_SHIFT). rewrite H. unfold and_not.
    change VLAN_CFI with (Z.ldiff VLAN_CFI VLAN_PCP_MASK).
    apply (f_equal (λ z, Z.shiftl z VLAN_PCP_SHIFT)) in H. rewrite Z.shiftl_land in H.
    change (Z.shiftl (Z.shiftr VLAN_PCP_MASK VLAN_PCP_SHIFT) VLAN_PCP_SHIFT) with VLAN_PCP_MASK in H. bits_with H. }
  destruct mf; try done; cbn [mf_get_value mf_set_flow_value mf_is_value_valid] in *;
    unfold no_bits_outside in *; rewrite ?Z.eqb_eq, ?ldiff_0_iff in Hok; rewrite ?upd_eq; try done.
  - by apply port_ofp11_roundtrip.
  - unfold flow_set_dl_vlan. apply (mask_rest 16 v VLAN_VID_MASK) in Hok; [|done..].
    rewrite (proj2 (Z.eqb_neq _ _)) by (intros ->; done). rewrite upd_eq, Hok. unfold and_not.
    change VLAN_CFI with (Z.ldiff VLAN_CFI VLAN_VID_MASK). bits_with Hok.
  - apply (mask_rest 16 v (Z.lor VLAN_VID_MASK VLAN_CFI)) in Hok; [|done..].
    unfold flow_set_vlan_vid. rewrite upd_eq, Hok. by apply insert_read.
  - by apply Hpcp.
  - by apply Hpcp.
  - unfold flow_set_mpls_label, mpls_lse_to_label, set_mpls_lse_label. rewrite upd_eq.
    rewrite (wrap_id 32).
    + by apply (shifted_read _ _ _ (Z.shiftr MPLS_LABEL_MASK MPLS_LABEL_SHIFT)).
    + apply (low_bits_width 20) in Hok; [|done]. destruct Hok. rewrite Z.shiftl_mul_pow2 by done.
      change (2 ^ 20) with 1048576 in *. unfold MPLS_LABEL_SHIFT. split; lia.
  - unfold flow_set_mpls_tc, mpls_lse_to_tc, set_mpls_lse_tc. rewrite upd_eq.
    by apply (shifted_read _ _ _ (Z.shiftr MPLS_TC_MASK MPLS_TC_SHIFT)).
  - rewrite Hok. by apply insert_read.
  - apply dscp_shifted_read; [apply Hf|done].
  - rewrite Hok. by apply insert_read.
Qed.

Lemma pcp_width fl v : flow_ok fl → is_u16 (flow_set_vlan_pcp fl v F_vlan_tci).
Proof.
  intros Hf. unfold flow_set_vlan_pcp. rewrite upd_eq. unfold and_not.
  apply lor_in_width; [done|apply ldiff_in_width; [done|apply Hf]|]. apply lor_in_width; [done| |done].
  rewrite Z.shiftl_land, Z.land_comm. by apply land_in_width.
Qed.

Lemma mf_set_flow_value_ok mf v fl :
  flow_ok fl → in_width (mf_width mf) v → flow_ok (mf_set_flow_value mf v fl).
Proof.
  intros Hf Hv g. destruct (decide (g = mf_flow_field mf)) as [->|Hne]; [|rewrite mf_set_flow_value_other by done; apply Hf].
  pose proof (Hf (mf_flow_field mf)) as Hg.
  assert (Hset : ∀ w k y, 0 ≤ w → in_width w k → in_width w (fl (mf_flow_field mf)) →
    in_width w (Z.lor (Z.ldiff (fl (mf_flow_field mf)) k) (Z.land y k))).
  { intros w k y ? ? ?. apply lor_in_width; [done|by apply ldiff_in_width|]. rewrite Z.land_comm. by apply land_in_width. }
  destruct mf; cbn [mf_flow_field mf_set_flow_value] in *;
    unfold flow_set_vlan_vid, flow_set_mpls_label, flow_set_mpls_tc, flow_set_mpls_bos, set_mpls_lse_label,
      set_mpls_lse_tc, set_mpls_lse_bos, and_not; rewrite ?upd_eq; try done; try (by apply Hset);
    try (by apply wrap_in_width); try (by apply ldiff_in_width); try (by apply land_in_width).
  - unfold ofputil_port_from_ofp11. repeat destruct (_ <? _); repeat destruct (_ <=? _); try (by apply wrap_in_width); done.
  - unfold flow_set_dl_vlan. destruct (_ =? _); rewrite upd_eq; [done|]. unfold and_not.
    apply lor_in_width; [done|by apply ldiff_in_width|]. apply lor_in_width; [done|done|].
    rewrite Z.land_comm. by apply land_in_width.
  - by apply pcp_width.
  - by apply pcp_width.
  - eapply (in_width_mono 8); done.
  - eapply (in_width_mono 8); done.
  - eapply (in_width_mono 8); done.
  - eapply (in_width_mono 8); done.
Qed.

Lemma shiftr_drops_width w n x : 0 ≤ w → 0 ≤ n → in_width (w + n) x → in_width w (Z.shiftr x n).
Proof.
  intros Hw Hn Hx. apply in_width_bits; [done|]. intros i Hi. rewrite Z.shiftr_spec by lia.
  apply (testbit_high (w + n)); [done|lia].
Qed.

Lemma mf_get_value_width mf fl : flow_ok fl → in_width (mf_width mf) (mf_get_value mf fl).
Proof.
  intros Hf. pose proof (Hf (mf_flow_field mf)) as Hg.
  destruct mf; cbn [mf_flow_field mf_get_value] in *; try done; try (by apply wrap_in_width);
    try (by apply land_in_width).
  - unfold ofputil_port_to_ofp11, OFPP_MAX, OFPP11_OFFSET. destruct Hg as [H0 H1].
    change (2 ^ field_width F_in_port) with 65536 in H1. unfold in_width.
    change (2 ^ mf_width MFF_IN_PORT_OXM) with 4294967296. destruct (_ <? _); lia.
  - unfold vlan_tci_to_pcp. apply (in_width_mono 3); [done|].
    by apply shiftr_drops_width, land_in_width.
  - unfold vlan_tci_to_pcp. apply (in_width_mono 3); [done|].
    by apply shiftr_drops_width, land_in_width.
  - unfold mpls_lse_to_label. apply (in_width_mono 20); [done|].
    by apply shiftr_drops_width, land_in_width.
  - unfold mpls_lse_to_tc. apply (in_width_mono 3); [done|]. apply shiftr_drops_width; [done..|].
    rewrite Z.land_comm. by apply land_in_width.
  - destruct (mpls_lse_to_bos _); done.
  - apply (in_width_mono 6); [done|]. by apply shiftr_drops_width.
  - by apply (in_width_mono 8).
Qed.

Lemma mf_n_bits_bytes mf : (mf_n_bits mf ≤ 8 * mf_n_bytes mf)%nat.
Proof. destruct mf; unfold mf_n_bits, mf_n_bytes; simpl; lia. Qed.

Lemma mf_check_range sf fl :
  mf_check__ sf fl = None →
  (sf_ofs sf + sf_n_bits sf ≤ mf_n_bits (sf_field sf))%nat
  ∧ match fl with Some fl => mf_are_prereqs_ok (sf_field sf) fl = true | None => True end.
Proof.
  unfold mf_check__. repeat case_decide; try done. destruct fl as [fl|]; [|intros; split; [lia|done]].
  destruct (mf_are_prereqs_ok _ _); [|done]. intros. split; [lia|done].
Qed.

Lemma mf_bytes_value mf v : in_width (mf_width mf) v → get_be (mf_bytes mf v) = v.
Proof. by apply get_be_id. Qed.

Lemma mf_bytes_u8 mf v : Forall is_u8 (mf_bytes mf v).
Proof. apply be_bytes_u8. Qed.

Lemma length_mf_bytes mf v : length (mf_bytes mf v) = mf_n_bytes mf.
Proof. apply length_be_bytes. Qed.

Lemma bits_get_width w v ofs n : Z.of_nat n ≤ w → in_width w (bits_get v ofs n).
Proof.
  intros. apply (in_width_mono (Z.of_nat n)); [lia|]. unfold bits_get. rewrite Z.land_ones by lia.
  apply Z.mod_pos_bound, Z.pow_pos_nonneg; lia.
Qed.

(** Reading a subfield gives the bits of the value. *)
Lemma mf_read_subfield_value sf fl :
  flow_ok fl → (sf_n_bits sf ≤ 128)%nat →
  mf_read_subfield sf fl = bits_get (mf_get_value (sf_field sf) fl) (sf_ofs sf) (sf_n_bits sf).
Proof.
  intros Hf Hn. unfold mf_read_subfield.
  rewrite bitwise_copy_number by (apply mf_bytes_u8 || apply be_bytes_u8 || (rewrite length_be_bytes; lia)).
  rewrite mf_bytes_value by (by apply mf_get_value_width). rewrite get_be_bytes.
  unfold bits_put, bits_get. by rewrite Z.ldiff_0_l, Z.lor_0_l, Z.shiftl_0_r.
Qed.

Lemma mf_get_subfield_value sf fl :
  flow_ok fl → (sf_n_bits sf ≤ 64)%nat →
  mf_get_subfield sf fl = bits_get (mf_get_value (sf_field sf) fl) (sf_ofs sf) (sf_n_bits sf).
Proof.
  intros Hf Hn. unfold mf_get_subfield. rewrite bitwise_get_number by (done || apply mf_bytes_u8).
  by rewrite mf_bytes_value by (by apply mf_get_value_width).
Qed.

Lemma mf_write_subfield_flow_value sf x fl :
  flow_ok fl → in_width 128 x → (sf_ofs sf + sf_n_bits sf ≤ mf_n_bits (sf_field sf))%nat →
  mf_write_subfield_flow sf x fl
  = mf_set_flow_value (sf_field sf) (bits_put (mf_get_value (sf_field sf) fl) x (sf_ofs sf) (sf_n_bits sf)) fl.
Proof.
  intros Hf Hx Hr. unfold mf_write_subfield_flow. pose proof (mf_n_bits_bytes (sf_field sf)).
  rewrite bitwise_copy_number by (apply mf_bytes_u8 || apply be_bytes_u8 || (rewrite length_mf_bytes; lia)).
  rewrite mf_bytes_value by (by apply mf_get_value_width). rewrite (get_be_id 16 128) by done.
  by rewrite Z.shiftr_0_r.
Qed.

(** Fields stored alone in a member of the flow, which may be masked bit by
    bit. *)
Definition mf_plain (mf : mf_field) : bool :=
  match mf with
  | MFF_TUN_ID | MFF_TUN_SRC | MFF_TUN_DST | MFF_METADATA | MFF_PKT_MARK | MFF_ETH_SRC | MFF_ETH_DST
  | MFF_VLAN_TCI | MFF_IPV4_SRC | MFF_IPV4_DST | MFF_IPV6_SRC | MFF_IPV6_DST
  | MFF_ARP_SPA | MFF_ARP_TPA | MFF_ARP_SHA | MFF_ARP_THA | MFF_ND_SLL | MFF_ND_TLL | MFF_ND_TARGET
  | MFF_TCP_SRC | MFF_TCP_DST | MFF_UDP_SRC | MFF_UDP_DST | MFF_SCTP_SRC | MFF_SCTP_DST => true
  | MFF_REG i => bool_decide (i < FLOW_N_REGS)%nat
  | _ => false
  end.

(** Fields stored alone in a member of the flow, which may only be matched as a
    whole. *)
Definition mf_whole (mf : mf_field) : bool :=
  match mf with MFF_IN_PORT | MFF_ETH_TYPE | MFF_IP_PROTO | MFF_IP_TTL => true | _ => false end.

(** The match with the given value and mask of one member. *)
Definition fset (f : field) (v mask : Z) (m m' : fmatch) : Prop :=
  (∀ g, fm_flow m' g = if decide (g = f) then v else fm_flow m g)
  ∧ ∀ g, fm_wc m' g = if decide (g = f) then mask else fm_wc m g.

Lemma alone_width mf : mf_plain mf || mf_whole mf = true → mf_width mf = field_width (mf_flow_field mf).
Proof. by destruct mf. Qed.

Lemma alone_get mf fl : mf_plain mf || mf_whole mf = true → mf_get_value mf fl = fl (mf_flow_field mf).
Proof. by destruct mf. Qed.

Lemma plain_width mf : mf_plain mf = true → mf_width mf = field_width (mf_flow_field mf).
Proof. intros H. apply alone_width. by rewrite H. Qed.

Lemma plain_get mf fl : mf_plain mf = true → mf_get_value mf fl = fl (mf_flow_field mf).
Proof. intros H. apply alone_get. by rewrite H. Qed.

Lemma fset_upd f v mask m : fset f v mask m (FMatch (upd f v (fm_flow m)) (upd f mask (fm_wc m))).
Proof. split; intros g; simpl; unfold upd; done. Qed.

Lemma mf_set_masked_plain mf v mask m :
  mf_plain mf = true → ∃ m', mf_set_masked mf v mask m = Some m' ∧ fset (mf_flow_field mf) (Z.land v mask) mask m m'.
Proof.
  destruct mf; try done; simpl; intros H; try (eexists; split; [reflexivity|apply fset_upd]).
  unfold match_set_reg_masked. apply bool_decide_eq_true in H. rewrite decide_True by done.
  eexists. split; [reflexivity|apply fset_upd].
Qed.

Lemma mf_set_value_alone mf v m :
  mf_plain mf || mf_whole mf = true → in_width (mf_width mf) v →
  ∃ m', mf_set_value mf v m = Some m' ∧ fset (mf_flow_field mf) v (all_ones (mf_flow_field mf)) m m'.
Proof.
  intros Hp Hv. rewrite alone_width in Hv by done.
  assert (Hl : Z.land v (all_ones (mf_flow_field mf)) = v).
  { apply land_all_ones; [done|]. pose proof (field_width_pos (mf_flow_field mf)). lia. }
  destruct mf; try done; cbn [mf_set_value mf_flow_field] in *;
    try (eexists; split; [reflexivity|]; rewrite <- Hl at 1; apply fset_upd);
    try (eexists; split; [reflexivity|]; apply fset_upd).
  unfold match_set_reg, match_set_reg_masked. simpl in Hp. rewrite orb_false_r in Hp. apply bool_decide_eq_true in Hp.
  rewrite decide_True by done. eexists. split; [reflexivity|]. rewrite <- Hl at 1. apply fset_upd.
Qed.

Lemma mf_set_value_plain mf v m :
  mf_plain mf = true → in_width (mf_width mf) v →
  ∃ m', mf_set_value mf v m = Some m' ∧ fset (mf_flow_field mf) v (all_ones (mf_flow_field mf)) m m'.
Proof. intros H. apply mf_set_value_alone. by rewrite H. Qed.

Lemma get_be_ones n : get_be (replicate n 255) = 2 ^ (8 * Z.of_nat n) - 1.
Proof.
  induction n as [|n IH]; [done|]. cbn [replicate]. rewrite get_be_cons, IH, length_replicate.
  apply Z.bits_inj'. intros i Hi. rewrite Z.lor_spec, Z.shiftl_spec by done.
  rewrite !testbit_ones by lia. change 255 with (2 ^ 8 - 1).
  destruct (decide (8 * Z.of_nat n ≤ i)).
  - rewrite testbit_ones by lia. apply Bool.eq_iff_eq_true. rewrite orb_true_iff, !Z.ltb_lt. lia.
  - rewrite Z.testbit_neg_r by lia. apply Bool.eq_iff_eq_true. rewrite orb_true_iff, !Z.ltb_lt. split; [|right; lia].
    intros [?|?]; [done|lia].
Qed.

Lemma forallb_replicate (l : list Z) x : forallb (λ b, b =? x) l = true → l = replicate (length l) x.
Proof.
  induction l as [|y l IH]; [done|]. simpl. intros [->%Z.eqb_eq H]%andb_true_iff. f_equal. by apply IH.
Qed.

Lemma is_all_ones_bytes mf v :
  in_width (mf_width mf) v → is_all_ones (mf_bytes mf v) = true → v = 2 ^ mf_width mf - 1.
Proof.
  intros Hv H%forallb_replicate. rewrite length_mf_bytes in H. rewrite <- (mf_bytes_value mf v Hv), H.
  apply get_be_ones.
Qed.

Lemma is_all_zeros_bytes mf v : in_width (mf_width mf) v → is_all_zeros (mf_bytes mf v) = true → v = 0.
Proof.
  intros Hv H%forallb_replicate. rewrite <- (mf_bytes_value mf v Hv), H. clear. generalize (length (mf_bytes mf v)).
  intros n. induction n as [|n IH]; [done|]. cbn [replicate]. by rewrite get_be_cons, IH, Z.shiftl_0_l.
Qed.


(** An IPv4 packet with a VLAN tag. *)
Definition mf_ex_flow : flowf :=
  upd F_dl_type ETH_TYPE_IP (upd F_vlan_tci 0x7005 (upd F_nw_tos 0x2e (λ _, 0))).

Lemma mf_ex_flow_ok : flow_ok mf_ex_flow.
Proof. intros f. unfold mf_ex_flow, upd. repeat (case_decide; [subst; done|]). pose proof (field_width_pos f). split; [done|apply Z.pow_pos_nonneg; lia]. Qed.


(** ** Deviations *)

(** The IPv6 label mask is complemented when a label is written: the label
    is lost, and so is the mask when the flow is a set of masks. *)
Lemma mf_set_ipv6_label_lost v fl :
  mf_is_value_valid MFF_IPV6_LABEL v = true →
  mf_get_value MFF_IPV6_LABEL (mf_set_flow_value MFF_IPV6_LABEL v fl) = 0.
Proof. intros H%Z.eqb_eq. cbn [mf_get_value mf_set_flow_value]. by rewrite upd_eq. Qed.

(** Wildcarding the fragment type makes the match require a packet that is
    not a fragment. *)
Lemma mf_set_wild_ip_frag m :
  ∃ m', mf_set_wild MFF_IP_FRAG m = Some m'
        ∧ ∀ x, field_matches m' F_nw_frag x → Z.land x FLOW_NW_FRAG_MASK = 0.
Proof.
  eexists. split; [reflexivity|]. intros x H. unfold field_matches in H. simpl in H. rewrite !upd_eq in H.
  unfold and_not in H. apply (f_equal (λ z, Z.land z FLOW_NW_FRAG_MASK)) in H.
  rewrite <- Z.land_assoc, Z.land_comm in H. apply Z.bits_inj'. intros i Hi.
  apply (f_equal (λ z, Z.testbit z i)) in H. rewrite !Z.land_spec, Z.lor_spec, Z.ldiff_spec in H.
  rewrite Z.land_spec, Z.bits_0. revert H.
  by destruct (Z.testbit x i), (Z.testbit FLOW_NW_FRAG_MASK i), (Z.testbit (fm_wc m F_nw_frag) i),
    (Z.testbit (fm_flow m F_nw_frag) i).
Qed.

(** Matching part of a field that may only be masked as a whole aborts. *)
Lemma mf_write_subfield_aborts :
  mf_check_src (MfSubfield MFF_IP_PROTO 0 4) (Some mf_ex_flow) = None
  ∧ mf_write_subfield (MfSubfield MFF_IP_PROTO 0 4) 6 fmatch_init_catchall = None.
Proof. vm_compute. done. Qed.
