(* ===== verification/OdpActions.v ===== *)
(** * Datapath actions and committing flow changes (lib/odp-util.c)

    Translation changes a copy of the packet's flow and, before it outputs the
    packet, emits the datapath actions that turn the flow the datapath has
    ([base]) into it.  [key_apply] is the effect of one datapath action on the
    flow key, as lib/odp-execute.c has it; the headers below an MPLS label
    that is popped are not part of the key. *)
From S2P Require Import Prelude MatchFields MetaFlow.

(** ** Datapath actions *)

Inductive user_action_cookie :=
| COOKIE_SFLOW (vlan_tci output : Z)
| COOKIE_FLOW_SAMPLE (probability collector_set_id obs_domain_id obs_point_id : Z)
| COOKIE_IPFIX.

Inductive odp_action :=
| ODP_OUTPUT (port : Z)
| ODP_SET_PRIORITY (priority : Z)
| ODP_SET_SKB_MARK (mark : Z)
| ODP_SET_TUNNEL (tun_id ip_src ip_dst flags ip_tos ip_ttl : Z)
| ODP_SET_ETHERNET (eth_src eth_dst : Z)
| ODP_PUSH_VLAN (vlan_tpid vlan_tci : Z)
| ODP_POP_VLAN
| ODP_SET_IPV4 (ipv4_src ipv4_dst ipv4_proto ipv4_tos ipv4_ttl ipv4_frag : Z)
| ODP_SET_IPV6 (ipv6_src ipv6_dst ipv6_label ipv6_proto ipv6_tclass ipv6_hlimit ipv6_frag : Z)
| ODP_SET_TCP (tcp_src tcp_dst : Z)
| ODP_SET_UDP (udp_src udp_dst : Z)
| ODP_SET_SCTP (sctp_src sctp_dst : Z)
| ODP_PUSH_MPLS (mpls_ethertype mpls_lse : Z)
| ODP_POP_MPLS (ethertype : Z)
| ODP_SET_MPLS (mpls_lse : Z)
| ODP_SAMPLE (probability pid : Z) (cookie : user_action_cookie).

#[global] Instance user_action_cookie_eq_dec : EqDecision user_action_cookie.
Proof. solve_decision. Defined.
#[global] Instance odp_action_eq_dec : EqDecision odp_action.
Proof. solve_decision. Defined.

Definition ETH_TYPE_VLAN : Z := 0x8100.
Definition FLOW_NW_FRAG_ANY : Z := 1.

(** OVS_FRAG_TYPE_NONE, _FIRST and _LATER are 0, 1 and 2. *)
Definition ovs_to_odp_frag (nw_frag : Z) : Z :=
  if nw_frag =? 0 then 0 else if nw_frag =? FLOW_NW_FRAG_ANY then 1 else 2.

(** ** Committing *)

(** The base flow, the actions so far and the wildcards. *)
Record commit_state := Commit { cm_base : flowf; cm_actions : list odp_action; cm_wc : flowf }.

Definition put_actions (c : commit_state) (acts : list odp_action) : commit_state :=
  Commit (cm_base c) (cm_actions c ++ acts) (cm_wc c).

(** [base->f = flow->f] *)
Definition take_fields (flow : flowf) (fs : list field) (c : commit_state) : commit_state :=
  Commit (foldl (λ b f, upd f (flow f) b) (cm_base c) fs) (cm_actions c) (cm_wc c).

(** [memset(&wc->masks.f, 0xff, sizeof wc->masks.f)] *)
Definition unwildcard (fs : list field) (wc : flowf) : flowf := foldl (λ w f, upd f (all_ones f) w) wc fs.
Definition unwild (fs : list field) (c : commit_state) : commit_state :=
  Commit (cm_base c) (cm_actions c) (unwildcard fs (cm_wc c)).

Definition same_fields (a b : flowf) (fs : list field) : bool := forallb (λ f, a f =? b f) fs.

Definition tunnel_fields : list field := [F_tun_id; F_tun_src; F_tun_dst; F_tun_flags; F_tun_tos; F_tun_ttl].

Definition commit_odp_tunnel_action (flow : flowf) (c : commit_state) : commit_state :=
  if flow F_tun_dst =? 0 then c
  else if same_fields (cm_base c) flow tunnel_fields then c
  else
    let c := take_fields flow tunnel_fields c in
    let b := cm_base c in
    put_actions c [ODP_SET_TUNNEL (b F_tun_id) (b F_tun_src) (b F_tun_dst) (b F_tun_flags) (b F_tun_tos)
                     (b F_tun_ttl)].

Definition commit_set_ether_addr_action (flow : flowf) (c : commit_state) : commit_state :=
  if same_fields (cm_base c) flow [F_dl_src; F_dl_dst] then c
  else
    let c := unwild [F_dl_src; F_dl_dst] c in
    let c := take_fields flow [F_dl_src; F_dl_dst] c in
    put_actions c [ODP_SET_ETHERNET (cm_base c F_dl_src) (cm_base c F_dl_dst)].

Definition commit_vlan_action (flow : flowf) (c : commit_state) : commit_state :=
  if cm_base c F_vlan_tci =? flow F_vlan_tci then c
  else
    let c := unwild [F_vlan_tci] c in
    let c := if Z.land (cm_base c F_vlan_tci) VLAN_CFI =? 0 then c else put_actions c [ODP_POP_VLAN] in
    let c := if Z.land (flow F_vlan_tci) VLAN_CFI =? 0 then c
             else put_actions c [ODP_PUSH_VLAN ETH_TYPE_VLAN (flow F_vlan_tci)] in
    take_fields flow [F_vlan_tci] c.

Definition commit_mpls_action (flow : flowf) (c : commit_state) : commit_state :=
  if (flow F_mpls_lse =? cm_base c F_mpls_lse) && (flow F_mpls_depth =? cm_base c F_mpls_depth) then c
  else
    let c := unwild [F_mpls_lse] c in
    let c :=
      if flow F_mpls_depth <? cm_base c F_mpls_depth then put_actions c [ODP_POP_MPLS (flow F_dl_type)]
      else if cm_base c F_mpls_depth <? flow F_mpls_depth then
        put_actions c [ODP_PUSH_MPLS (flow F_dl_type) (flow F_mpls_lse)]
      else put_actions c [ODP_SET_MPLS (flow F_mpls_lse)] in
    take_fields flow [F_dl_type; F_mpls_lse; F_mpls_depth] c.

Definition commit_set_ipv4_action (flow : flowf) (c : commit_state) : commit_state :=
  if same_fields (cm_base c) flow [F_nw_src; F_nw_dst; F_nw_tos; F_nw_ttl; F_nw_frag] then c
  else
    let c := unwild [F_nw_src; F_nw_dst; F_nw_tos; F_nw_ttl; F_nw_proto; F_nw_frag] c in
    let c := take_fields flow [F_nw_src; F_nw_dst; F_nw_tos; F_nw_ttl] c in
    let b := cm_base c in
    put_actions c [ODP_SET_IPV4 (b F_nw_src) (b F_nw_dst) (b F_nw_proto) (b F_nw_tos) (b F_nw_ttl)
                     (ovs_to_odp_frag (b F_nw_frag))].

Definition commit_set_ipv6_action (flow : flowf) (c : commit_state) : commit_state :=
  if same_fields (cm_base c) flow [F_ipv6_src; F_ipv6_dst; F_ipv6_label; F_nw_tos; F_nw_ttl; F_nw_frag] then c
  else
    let c := unwild [F_ipv6_src; F_ipv6_dst; F_ipv6_label; F_nw_tos; F_nw_ttl; F_nw_proto; F_nw_frag] c in
    let c := take_fields flow [F_ipv6_src; F_ipv6_dst; F_ipv6_label; F_nw_tos; F_nw_ttl] c in
    let b := cm_base c in
    put_actions c [ODP_SET_IPV6 (b F_ipv6_src) (b F_ipv6_dst) (b F_ipv6_label) (b F_nw_proto) (b F_nw_tos)
                     (b F_nw_ttl) (ovs_to_odp_frag (b F_nw_frag))].

Definition commit_set_nw_action (flow : flowf) (c : commit_state) : commit_state :=
  if flow F_nw_proto =? 0 then c
  else if cm_base c F_dl_type =? ETH_TYPE_IP then commit_set_ipv4_action flow c
  else if cm_base c F_dl_type =? ETH_TYPE_IPV6 then commit_set_ipv6_action flow c
  else c.

Definition commit_set_port_action (flow : flowf) (c : commit_state) : commit_state :=
  let b := cm_base c in
  if negb (is_ip_any b) || ((b F_tp_src =? 0) && (b F_tp_dst =? 0)) then c
  else if same_fields b flow [F_tp_src; F_tp_dst] then c
  else
    let c := unwild [F_tp_src; F_tp_dst] c in
    let c' := take_fields flow [F_tp_src; F_tp_dst] c in
    let src := cm_base c' F_tp_src in
    let dst := cm_base c' F_tp_dst in
    if flow F_nw_proto =? IPPROTO_TCP then put_actions c' [ODP_SET_TCP src dst]
    else if flow F_nw_proto =? IPPROTO_UDP then put_actions c' [ODP_SET_UDP src dst]
    else if flow F_nw_proto =? IPPROTO_SCTP then put_actions c' [ODP_SET_SCTP src dst]
    else c.

Definition commit_set_priority_action (flow : flowf) (c : commit_state) : commit_state :=
  if cm_base c F_skb_priority =? flow F_skb_priority then c
  else
    let c := take_fields flow [F_skb_priority] (unwild [F_skb_priority] c) in
    put_actions c [ODP_SET_PRIORITY (cm_base c F_skb_priority)].

Definition commit_set_pkt_mark_action (flow : flowf) (c : commit_state) : commit_state :=
  if cm_base c F_pkt_mark =? flow F_pkt_mark then c
  else
    let c := take_fields flow [F_pkt_mark] (unwild [F_pkt_mark] c) in
    put_actions c [ODP_SET_SKB_MARK (cm_base c F_pkt_mark)].

Definition commit_odp_actions (flow : flowf) (c : commit_state) : commit_state :=
  let c := commit_set_ether_addr_action flow c in
  let c := commit_vlan_action flow c in
  let c := commit_set_nw_action flow c in
  let c := commit_set_port_action flow c in
  let c := commit_mpls_action flow c in
  let c := commit_set_priority_action flow c in
  commit_set_pkt_mark_action flow c.

(** ** Executing actions on the flow key *)

(** Assigns several fields. *)
Definition set_fields (l : list (field * Z)) (fl : flowf) : flowf := foldl (λ fl p, upd p.1 p.2 fl) fl l.

Definition key_apply (fl : flowf) (a : odp_action) : flowf :=
  match a with
  | ODP_OUTPUT _ | ODP_SAMPLE _ _ _ => fl
  | ODP_SET_PRIORITY p => upd F_skb_priority p fl
  | ODP_SET_SKB_MARK m => upd F_pkt_mark m fl
  | ODP_SET_TUNNEL id src dst flags tos ttl =>
      set_fields [(F_tun_id, id); (F_tun_src, src); (F_tun_dst, dst); (F_tun_flags, flags); (F_tun_tos, tos);
                  (F_tun_ttl, ttl)] fl
  | ODP_SET_ETHERNET src dst => set_fields [(F_dl_src, src); (F_dl_dst, dst)] fl
  | ODP_PUSH_VLAN _ tci => upd F_vlan_tci tci fl
  | ODP_POP_VLAN => upd F_vlan_tci 0 fl
  | ODP_SET_IPV4 src dst _ tos ttl _ =>
      set_fields [(F_nw_src, src); (F_nw_dst, dst); (F_nw_tos, tos); (F_nw_ttl, ttl)] fl
  | ODP_SET_IPV6 src dst label _ tclass hlimit _ =>
      set_fields [(F_ipv6_src, src); (F_ipv6_dst, dst); (F_ipv6_label, label); (F_nw_tos, tclass);
                  (F_nw_ttl, hlimit)] fl
  | ODP_SET_TCP src dst | ODP_SET_UDP src dst | ODP_SET_SCTP src dst =>
      set_fields [(F_tp_src, src); (F_tp_dst, dst)] fl
  | ODP_PUSH_MPLS et lse =>
      set_fields [(F_dl_type, et); (F_mpls_lse, lse); (F_mpls_depth, fl F_mpls_depth + 1)] fl
  | ODP_POP_MPLS et =>
      set_fields [(F_dl_type, et); (F_mpls_lse, 0); (F_mpls_depth, fl F_mpls_depth - 1)] fl
  | ODP_SET_MPLS lse => upd F_mpls_lse lse fl
  end.

Definition key_execute (acts : list odp_action) (fl : flowf) : flowf := foldl key_apply fl acts.

(** ** Properties *)

(** [w] fixes no bit that [w'] leaves free. *)
Definition wc_le (w w' : flowf) : Prop := ∀ f, Z.land (w f) (w' f) = w f.

#[global] Instance wc_le_preorder : PreOrder wc_le.
Proof.
  split; [intros w f; apply Z.land_diag|]. intros a b c Hab Hbc f.
  rewrite <- (Hab f), <- Z.land_assoc. by rewrite (Hbc f).
Qed.

Lemma unwildcard_other fs wc f : f ∉ fs → unwildcard fs wc f = wc f.
Proof.
  unfold unwildcard. revert wc. induction fs as [|g fs IH]; intros wc Hf; [done|]. simpl.
  rewrite IH by set_solver. apply upd_ne. set_solver.
Qed.

Lemma unwildcard_in fs wc f : f ∈ fs → unwildcard fs wc f = all_ones f.
Proof.
  unfold unwildcard. revert wc. induction fs as [|g fs IH]; intros wc Hf; [by apply not_elem_of_nil in Hf|].
  simpl. destruct (decide (f ∈ fs)); [by apply IH|].
  pose proof (unwildcard_other fs (upd g (all_ones g) wc) f) as E. unfold unwildcard in E. rewrite E by done.
  apply elem_of_cons in Hf as [->|]; [apply upd_eq|done].
Qed.

Lemma unwildcard_spec fs wc f : unwildcard fs wc f = if decide (f ∈ fs) then all_ones f else wc f.
Proof. case_decide; [by apply unwildcard_in|by apply unwildcard_other]. Qed.

Lemma unwildcard_ok fs wc : flow_ok wc → flow_ok (unwildcard fs wc).
Proof. intros Hw f. rewrite unwildcard_spec. case_decide; [apply all_ones_width|apply Hw]. Qed.

Lemma unwildcard_le fs wc : flow_ok wc → wc_le wc (unwildcard fs wc).
Proof.
  intros Hw f. rewrite unwildcard_spec. case_decide; [|apply Z.land_diag].
  apply land_all_ones; [apply Hw|]. pose proof (field_width_pos f). lia.
Qed.

Lemma take_fields_spec flow fs c f :
  cm_base (take_fields flow fs c) f = if decide (f ∈ fs) then flow f else cm_base c f.
Proof.
  unfold take_fields. simpl. generalize (cm_base c). induction fs as [|g fs IH]; intros b; simpl.
  - done.
  - rewrite IH. destruct (decide (f ∈ fs)); [by rewrite decide_True by set_solver|].
    destruct (decide (f = g)) as [->|]; [rewrite decide_True by set_solver; apply upd_eq|].
    rewrite decide_False by set_solver. by apply upd_ne.
Qed.

Lemma same_fields_spec a b fs : same_fields a b fs = true ↔ ∀ f, f ∈ fs → a f = b f.
Proof.
  unfold same_fields. rewrite forallb_forall. split; intros H f Hf.
  - apply Z.eqb_eq, H. by apply list_elem_of_In.
  - apply Z.eqb_eq, H. by apply list_elem_of_In.
Qed.

(** [c'] results from [c] by taking the fields [fs] of [flow], with actions
    that have this effect, and only adding to the wildcards. *)
Definition commits (flow : flowf) (fs : list field) (c c' : commit_state) : Prop :=
  (∀ f, cm_base c' f = if decide (f ∈ fs) then flow f else cm_base c f)
  ∧ (∃ acts, cm_actions c' = cm_actions c ++ acts
             ∧ ∀ key, (∀ f, key f = cm_base c f) → ∀ f, key_execute acts key f = cm_base c' f)
  ∧ (flow_ok (cm_wc c) → flow_ok (cm_wc c') ∧ wc_le (cm_wc c) (cm_wc c'))
  ∧ ((∀ f, cm_base c f = flow f) → c' = c).

(** Nothing to do. *)
Lemma commits_same flow fs c : (∀ f, f ∈ fs → cm_base c f = flow f) → commits flow fs c c.
Proof.
  intros H. split_and!; [| |done|done].
  - intros f. case_decide; [by apply H|done].
  - exists []. split; [by rewrite app_nil_r|done].
Qed.

(** One or more actions that set the fields. *)
Lemma commits_acts flow fs ws c acts :
  ¬ (∀ f, f ∈ fs → cm_base c f = flow f) →
  (∀ key, (∀ f, key f = cm_base c f) →
     Forall (λ f, key_execute acts key f = flow f) fs ∧ ∀ f, f ∉ fs → key_execute acts key f = key f) →
  commits flow fs c
    (Commit (cm_base (take_fields flow fs c)) (cm_actions c ++ acts) (unwildcard ws (cm_wc c))).
Proof.
  intros Hne Hacts. split_and!; cbn [cm_base cm_actions cm_wc].
  - intros f. apply take_fields_spec.
  - exists acts. split; [done|]. intros key Hk f. destruct (Hacts key Hk) as [H1 H2]. rewrite Forall_forall in H1.
    rewrite take_fields_spec, <- Hk. case_decide; [by apply H1|by apply H2].
  - intros Hw. split; [by apply unwildcard_ok|by apply unwildcard_le].
  - intros H. destruct Hne. auto.
Qed.

Lemma commits_trans flow fs fs' c c' c'' :
  commits flow fs c c' → commits flow fs' c' c'' → commits flow (fs ++ fs') c c''.
Proof.
  intros (B & (a & A & K) & W & S) (B' & (a' & A' & K') & W' & S'). split_and!.
  - intros f. rewrite B', B. repeat case_decide; set_solver.
  - exists (a ++ a'). rewrite A', A, app_assoc. split; [done|]. intros key Hk f. unfold key_execute.
    rewrite foldl_app. apply K'. intros g. by apply K.
  - intros H. destruct (W H) as [H1 L1]. destruct (W' H1) as [H2 L2]. split; [done|by trans (cm_wc c')].
  - intros H. rewrite S in S' by done. by apply S'.
Qed.

Definition ipv4_fields : list field := [F_nw_src; F_nw_dst; F_nw_tos; F_nw_ttl].
Definition ipv6_fields : list field := [F_ipv6_src; F_ipv6_dst; F_ipv6_label; F_nw_tos; F_nw_ttl].

(** Evaluates updates of concrete fields. *)
Ltac eval_upd := repeat first [rewrite upd_eq | rewrite upd_ne by done].

Ltac key_fields :=
  let key := fresh "key" in let Hk := fresh "Hk" in
  intros key Hk; unfold key_execute, ipv4_fields, ipv6_fields; cbn [foldl key_apply];
  unfold set_fields, take_fields, unwild; cbn [foldl fst snd cm_base];
  split; [repeat (apply Forall_cons_2; [eval_upd; first [done|congruence]|]); constructor
         |let f := fresh "f" in intros f; rewrite !not_elem_of_cons; intros; destruct_and?; eval_upd; done].

Lemma commit_ether_commits flow c : commits flow [F_dl_src; F_dl_dst] c (commit_set_ether_addr_action flow c).
Proof.
  unfold commit_set_ether_addr_action. destruct (same_fields _ _ _) eqn:E.
  - apply commits_same. by apply same_fields_spec.
  - apply (commits_acts flow [F_dl_src; F_dl_dst] [F_dl_src; F_dl_dst] c [ODP_SET_ETHERNET _ _]).
    + intros H. apply same_fields_spec in H. congruence.
    + key_fields.
Qed.

(** A TCI without the CFI bit is 0: there is no tag. *)
Definition tci_ok (tci : Z) : Prop := Z.land tci VLAN_CFI = 0 → tci = 0.

Lemma commit_vlan_commits flow c :
  tci_ok (cm_base c F_vlan_tci) → tci_ok (flow F_vlan_tci) →
  commits flow [F_vlan_tci] c (commit_vlan_action flow c).
Proof.
  intros Hb Hf. unfold commit_vlan_action. destruct (Z.eqb_spec (cm_base c F_vlan_tci) (flow F_vlan_tci)) as [E|E].
  - apply commits_same. intros f ->%list_elem_of_singleton. done.
  - assert (Hne : ¬ (∀ f, f ∈ [F_vlan_tci] → cm_base c f = flow f)).
    { intros H. apply E, H. set_solver. }
    simpl. destruct (Z.eqb_spec (Z.land (cm_base c F_vlan_tci) VLAN_CFI) 0) as [Eb|Eb];
      destruct (Z.eqb_spec (Z.land (flow F_vlan_tci) VLAN_CFI) 0) as [Ef|Ef].
    + apply Hb in Eb. apply Hf in Ef. congruence.
    + apply (commits_acts flow [F_vlan_tci] [F_vlan_tci] c [ODP_PUSH_VLAN ETH_TYPE_VLAN (flow F_vlan_tci)]); [done|]. key_fields.
    + apply (commits_acts flow [F_vlan_tci] [F_vlan_tci] c [ODP_POP_VLAN]); [done|]. pose proof (Hf Ef). key_fields.
    + unfold put_actions. simpl. rewrite <- app_assoc.
      apply (commits_acts flow [F_vlan_tci] [F_vlan_tci] c [ODP_POP_VLAN; ODP_PUSH_VLAN ETH_TYPE_VLAN (flow F_vlan_tci)]); [done|]. key_fields.
Qed.

(** The changes of labels that one action can carry out: the depth and the
    Ethernet type stay (the label may change), one label is pushed, or the
    only label is popped and leaves none.  The translation itself does not
    keep to them: after two pushes or pops without an output between them the
    depths differ by two, and the code then warns that it reduces the actions
    to a single one ([multiple_pushes_reduced]); and a pop of one of several
    labels leaves the label 0 in the flow, which is not the next label of the
    packet. *)
Definition mpls_change_ok (flow base : flowf) : Prop :=
  (flow F_mpls_depth = base F_mpls_depth ∧ flow F_dl_type = base F_dl_type)
  ∨ flow F_mpls_depth = base F_mpls_depth + 1
  ∨ (flow F_mpls_depth = 0 ∧ base F_mpls_depth = 1 ∧ flow F_mpls_lse = 0).

Lemma commit_mpls_commits flow c :
  mpls_change_ok flow (cm_base c) →
  commits flow [F_dl_type; F_mpls_lse; F_mpls_depth] c (commit_mpls_action flow c).
Proof.
  intros Hm. unfold commit_mpls_action.
  destruct (Z.eqb_spec (flow F_mpls_lse) (cm_base c F_mpls_lse)) as [El|El];
    destruct (Z.eqb_spec (flow F_mpls_depth) (cm_base c F_mpls_depth)) as [Ed|Ed]; simpl.
  1: { apply commits_same. destruct Hm as [[??]|[?|(?&?&?)]]; [|lia..].
       intros f [->|[->|[->|[]%not_elem_of_nil]%elem_of_cons]%elem_of_cons]%elem_of_cons; congruence. }
  all: assert (Hne : ¬ (∀ f, f ∈ [F_dl_type; F_mpls_lse; F_mpls_depth] → cm_base c f = flow f))
    by (intros H; try (apply El; symmetry; apply H; set_solver); try (apply Ed; symmetry; apply H; set_solver)).
  all: destruct (Z.ltb_spec (flow F_mpls_depth) (cm_base c F_mpls_depth));
    [|destruct (Z.ltb_spec (cm_base c F_mpls_depth) (flow F_mpls_depth))]; try lia.
  all: destruct Hm as [[Hd Ht]|[Hd|(Hd & Hb & Hl)]]; try lia.
  all: first [ apply (commits_acts flow [F_dl_type; F_mpls_lse; F_mpls_depth] [F_mpls_lse] c
                 [ODP_POP_MPLS (flow F_dl_type)])
             | apply (commits_acts flow [F_dl_type; F_mpls_lse; F_mpls_depth] [F_mpls_lse] c
                 [ODP_PUSH_MPLS (flow F_dl_type) (flow F_mpls_lse)])
             | apply (commits_acts flow [F_dl_type; F_mpls_lse; F_mpls_depth] [F_mpls_lse] c
                 [ODP_SET_MPLS (flow F_mpls_lse)]) ]; [done|].
  all: intros key Hk; unfold key_execute; cbn [foldl key_apply]; unfold set_fields; cbn [foldl fst snd]; split;
    [repeat (constructor; [eval_upd; rewrite ?Hk; congruence || lia|]); constructor
    |intros f; rewrite !not_elem_of_cons; intros; destruct_and?; eval_upd; done].
Qed.


(** The IP fields that are committed. *)
Definition nw_fields (flow base : flowf) : list field :=
  if flow F_nw_proto =? 0 then []
  else if base F_dl_type =? ETH_TYPE_IP then ipv4_fields
  else if base F_dl_type =? ETH_TYPE_IPV6 then ipv6_fields
  else [].

Lemma commit_nw_commits flow c :
  flow F_nw_frag = cm_base c F_nw_frag →
  commits flow (nw_fields flow (cm_base c)) c (commit_set_nw_action flow c).
Proof.
  intros Hfr. unfold nw_fields, commit_set_nw_action.
  assert (Hz : ∀ c, commits flow [] c c) by (intros; apply commits_same; intros f []%not_elem_of_nil).
  destruct (_ =? 0); [done|]. destruct (_ =? ETH_TYPE_IP); [|destruct (_ =? ETH_TYPE_IPV6); [|done]].
  - unfold commit_set_ipv4_action. destruct (same_fields _ _ _) eqn:E.
    + apply commits_same. rewrite same_fields_spec in E. intros f Hf. apply E. unfold ipv4_fields in Hf. set_solver.
    + apply (commits_acts flow ipv4_fields [F_nw_src; F_nw_dst; F_nw_tos; F_nw_ttl; F_nw_proto; F_nw_frag] c
        [ODP_SET_IPV4 _ _ _ _ _ _]).
      * intros H. apply not_true_iff_false in E. apply E, same_fields_spec. intros f Hf.
        destruct (decide (f = F_nw_frag)) as [->|]; [done|]. apply H. unfold ipv4_fields. set_solver.
      * key_fields.
  - unfold commit_set_ipv6_action. destruct (same_fields _ _ _) eqn:E.
    + apply commits_same. rewrite same_fields_spec in E. intros f Hf. apply E. unfold ipv6_fields in Hf. set_solver.
    + apply (commits_acts flow ipv6_fields
        [F_ipv6_src; F_ipv6_dst; F_ipv6_label; F_nw_tos; F_nw_ttl; F_nw_proto; F_nw_frag] c
        [ODP_SET_IPV6 _ _ _ _ _ _ _]).
      * intros H. apply not_true_iff_false in E. apply E, same_fields_spec. intros f Hf.
        destruct (decide (f = F_nw_frag)) as [->|]; [done|]. apply H. unfold ipv6_fields. set_solver.
      * key_fields.
Qed.

(** The transport ports are committed for the protocols that have them. *)
Definition port_fields (flow base : flowf) : list field :=
  if is_ip_any base && negb ((base F_tp_src =? 0) && (base F_tp_dst =? 0))
     && ((flow F_nw_proto =? IPPROTO_TCP) || (flow F_nw_proto =? IPPROTO_UDP) || (flow F_nw_proto =? IPPROTO_SCTP))
  then [F_tp_src; F_tp_dst] else [].

Lemma commit_port_commits flow c :
  commits flow (port_fields flow (cm_base c)) c (commit_set_port_action flow c).
Proof.
  assert (Hz : ∀ c, commits flow [] c c) by (intros; apply commits_same; intros f []%not_elem_of_nil).
  unfold port_fields, commit_set_port_action. destruct (is_ip_any (cm_base c)); [|apply Hz].
  destruct ((_ =? 0) && (_ =? 0)); [apply Hz|]. cbn [negb orb andb].
  destruct (same_fields _ _ _) eqn:E.
  - rewrite same_fields_spec in E. apply commits_same. intros f Hf. apply E.
    destruct (_ || _); [done|by apply not_elem_of_nil in Hf].
  - assert (Hne : ¬ (∀ f, f ∈ [F_tp_src; F_tp_dst] → cm_base c f = flow f)).
    { intros H. apply same_fields_spec in H. congruence. }
    destruct (_ =? IPPROTO_TCP); [|destruct (_ =? IPPROTO_UDP); [|destruct (_ =? IPPROTO_SCTP)]]; cbn [orb].
    + apply (commits_acts flow [F_tp_src; F_tp_dst] [F_tp_src; F_tp_dst] c [ODP_SET_TCP _ _]); [done|key_fields].
    + apply (commits_acts flow [F_tp_src; F_tp_dst] [F_tp_src; F_tp_dst] c [ODP_SET_UDP _ _]); [done|key_fields].
    + apply (commits_acts flow [F_tp_src; F_tp_dst] [F_tp_src; F_tp_dst] c [ODP_SET_SCTP _ _]); [done|key_fields].
    + split_and!; [done|exists []; by rewrite app_nil_r| |].
      * intros Hw. split; [by apply unwildcard_ok|by apply unwildcard_le].
      * intros H. destruct Hne. auto.
Qed.

Lemma commit_one_commits flow f (mk : Z → odp_action) c :
  (∀ key v, key_apply key (mk v) = upd f v key) →
  commits flow [f] c
    (if cm_base c f =? flow f then c
     else let c := take_fields flow [f] (unwild [f] c) in put_actions c [mk (cm_base c f)]).
Proof.
  intros Hmk. destruct (Z.eqb_spec (cm_base c f) (flow f)) as [E|E].
  - apply commits_same. by intros g ->%list_elem_of_singleton.
  - apply (commits_acts flow [f] [f] c [mk _]).
    + intros H. apply E, H. apply list_elem_of_here.
    + intros key Hk. unfold key_execute. cbn [foldl]. rewrite Hmk. split.
      * constructor; [|constructor]. rewrite upd_eq, take_fields_spec, decide_True by apply list_elem_of_here. done.
      * intros g [Hg _]%not_elem_of_cons. by apply upd_ne.
Qed.

Lemma commits_keep flow fs c c' f : commits flow fs c c' → f ∉ fs → cm_base c' f = cm_base c f.
Proof. intros (B & _) Hf. rewrite B. by rewrite decide_False. Qed.

(** What [commit_odp_actions] takes over from the flow. *)
Definition committed_fields (flow base : flowf) : list field :=
  [F_dl_src; F_dl_dst] ++ [F_vlan_tci] ++ nw_fields flow base ++ port_fields flow base
  ++ [F_dl_type; F_mpls_lse; F_mpls_depth] ++ [F_skb_priority] ++ [F_pkt_mark].

(** The conditional field lists do not name the given field. *)
Ltac not_committed :=
  unfold nw_fields, port_fields, ipv4_fields, ipv6_fields; repeat case_match;
  rewrite ?not_elem_of_app, ?not_elem_of_cons; split_and?; first [done|apply not_elem_of_nil].

(** The fields the conditions depend on are not changed by the earlier steps. *)
Lemma nw_port_fields_ext flow base base' :
  (∀ f, f ∈ [F_dl_type; F_tp_src; F_tp_dst] → base' f = base f) →
  nw_fields flow base' = nw_fields flow base ∧ port_fields flow base' = port_fields flow base.
Proof.
  intros H.
  assert (base' F_dl_type = base F_dl_type ∧ base' F_tp_src = base F_tp_src ∧ base' F_tp_dst = base F_tp_dst)
    as (E1 & E2 & E3) by (split_and!; apply H; set_solver).
  unfold nw_fields, port_fields, is_ip_any. by rewrite E1, E2, E3.
Qed.

Lemma commit_odp_commits flow c :
  tci_ok (cm_base c F_vlan_tci) → tci_ok (flow F_vlan_tci) →
  flow F_nw_frag = cm_base c F_nw_frag → mpls_change_ok flow (cm_base c) →
  commits flow (committed_fields flow (cm_base c)) c (commit_odp_actions flow c).
Proof.
  intros Hb Hf Hfr Hm. unfold committed_fields, commit_odp_actions.
  pose proof (commit_ether_commits flow c) as H1. set (c1 := commit_set_ether_addr_action flow c) in *.
  assert (H2 : commits flow [F_vlan_tci] c1 (commit_vlan_action flow c1)).
  { apply commit_vlan_commits; [|done]. rewrite (commits_keep _ _ _ _ _ H1) by not_committed. done. }
  set (c2 := commit_vlan_action flow c1) in *. pose proof (commits_trans _ _ _ _ _ _ H1 H2) as T2.
  assert (K2 : ∀ f, f ∉ [F_dl_src; F_dl_dst] ++ [F_vlan_tci] → cm_base c2 f = cm_base c f)
    by (intros f; apply (commits_keep _ _ _ _ f T2)).
  assert (H3 : commits flow (nw_fields flow (cm_base c)) c2 (commit_set_nw_action flow c2)).
  { destruct (nw_port_fields_ext flow (cm_base c) (cm_base c2)) as [<- _].
    - intros f Hin. apply K2. set_solver.
    - apply commit_nw_commits. by rewrite K2 by not_committed. }
  set (c3 := commit_set_nw_action flow c2) in *. pose proof (commits_trans _ _ _ _ _ _ T2 H3) as T3.
  assert (K3 : ∀ f, f ∈ [F_dl_type; F_tp_src; F_tp_dst; F_mpls_lse; F_mpls_depth] → cm_base c3 f = cm_base c f).
  { intros f Hin. apply (commits_keep _ _ _ _ f T3).
    repeat (apply elem_of_cons in Hin as [->|Hin]; [not_committed|]). by apply not_elem_of_nil in Hin. }
  assert (H4 : commits flow (port_fields flow (cm_base c)) c3 (commit_set_port_action flow c3)).
  { destruct (nw_port_fields_ext flow (cm_base c) (cm_base c3)) as [_ <-]; [|apply commit_port_commits].
    intros f Hin. apply K3. set_solver. }
  set (c4 := commit_set_port_action flow c3) in *.
  assert (H5 : commits flow [F_dl_type; F_mpls_lse; F_mpls_depth] c4 (commit_mpls_action flow c4)).
  { apply commit_mpls_commits. unfold mpls_change_ok.
    rewrite !(commits_keep _ _ _ _ _ H4) by not_committed. rewrite !K3 by set_solver. done. }
  rewrite app_assoc. apply (commits_trans _ _ _ _ c2 _ T2).
  apply (commits_trans _ _ _ _ c3 _ H3), (commits_trans _ _ _ _ c4 _ H4), (commits_trans _ _ _ _ _ _ H5).
  eapply commits_trans; [by apply (commit_one_commits flow F_skb_priority ODP_SET_PRIORITY)|].
  by apply (commit_one_commits flow F_pkt_mark ODP_SET_SKB_MARK).
Qed.

(** Two labels pushed are committed with one action: the datapath's key has
    one label and the new base flow two. *)
Lemma multiple_pushes_reduced :
  let base := set_fields [(F_dl_type, ETH_TYPE_IP)] (λ _, 0) in
  let flow := set_fields [(F_dl_type, ETH_TYPE_MPLS); (F_mpls_depth, 2); (F_mpls_lse, 0x40)] base in
  let c' := commit_odp_actions flow (Commit base [] (λ _, 0)) in
  cm_actions c' = [ODP_PUSH_MPLS ETH_TYPE_MPLS 0x40]
  ∧ cm_base c' F_mpls_depth = 2 ∧ key_execute (cm_actions c') base F_mpls_depth = 1.
Proof. vm_compute. done. Qed.

(** C29: [commit_odp_actions] appends datapath actions whose execution turns
    the datapath's flow key [base] into the new base flow, which has the
    translated flow's Ethernet addresses, VLAN tag, Ethernet type, MPLS
    label, priority and mark, and its IP and transport fields where the
    packet has them, and is otherwise unchanged; it only ever adds to the
    wildcards; and it does nothing if there is nothing to change.  This holds
    when the VLAN tags of both flows are 0 unless their CFI bit is set, the
    fragment type did not change (there is no action for it), and the change
    of MPLS labels is one that a single action can carry out
    ([mpls_change_ok]). *)
Theorem commit_odp_actions_correct flow base acts wc :
  tci_ok (base F_vlan_tci) → tci_ok (flow F_vlan_tci) →
  flow F_nw_frag = base F_nw_frag → mpls_change_ok flow base → flow_ok wc →
  let c' := commit_odp_actions flow (Commit base acts wc) in
  (∀ f, cm_base c' f = if decide (f ∈ committed_fields flow base) then flow f else base f)
  ∧ (∃ new, cm_actions c' = acts ++ new ∧ ∀ f, key_execute new base f = cm_base c' f)
  ∧ flow_ok (cm_wc c') ∧ wc_le wc (cm_wc c')
  ∧ ((∀ f, base f = flow f) → c' = Commit base acts wc).
Proof.
  intros Hb Hf Hfr Hm Hw.
  destruct (commit_odp_commits flow (Commit base acts wc)) as (B & (new & A & K) & W & S); [done..|].
  cbn zeta. split_and!; [done| |by apply W|by apply W|done].
  exists new. split; [done|]. intros f. by apply K.
Qed.

Lemma commit_odp_actions_correct_witness :
  let flow := set_fields [(F_dl_type, ETH_TYPE_IP); (F_nw_proto, IPPROTO_TCP); (F_tp_src, 80); (F_tp_dst, 99);
                          (F_vlan_tci, 0x1005)] (λ _, 0) in
  let base := set_fields [(F_dl_type, ETH_TYPE_IP); (F_nw_proto, IPPROTO_TCP); (F_tp_src, 80); (F_tp_dst, 81)]
                (λ _, 0) in
  let c' := commit_odp_actions flow (Commit base [] (λ _, 0)) in
  cm_actions c' = [ODP_PUSH_VLAN ETH_TYPE_VLAN 0x1005; ODP_SET_TCP 80 99]
  ∧ wc_le (λ _, 0) (cm_wc c').
Proof.
  intros flow base c'. split; [vm_compute; reflexivity|].
  apply (commit_odp_actions_correct flow base [] (λ _, 0)).
  - by intros _.
  - vm_compute. discriminate.
  - done.
  - left. split; reflexivity.
  - intros f. split; [done|]. apply Z.pow_pos_nonneg; [done|]. pose proof (field_width_pos f). lia.
Defined.
