(* ===== verification/NxActions.v ===== *)
(** * Nicira extended actions on a flow
    (lib/nx-match.c, lib/multipath.c, lib/bundle.c, hashing in lib/flow.c)

    Register moves and loads, the stack, the multipath and bundle actions:
    their effect on the flow being translated and on its wildcards.  A
    [union mf_subvalue] is a 128-bit number, as in [MetaFlow], and the stack
    is the list of its values, top first.  Field lists that are validated
    when an action is parsed ([fields], [algorithm]) are inductive types, so
    the [NOT_REACHED] cases of the source do not arise. *)
From S2P Require Import Prelude Util ByteOrder Hash Bitwise MatchFields MetaFlow OdpActions.

(** ** Registers and the stack (lib/nx-match.c) *)

(** [memset(&mask_value, 0xff, ...)] and [mf_write_subfield_flow] on the masks. *)
Definition mf_unwild (sf : mf_subfield) (wc : flowf) : flowf := mf_write_subfield_flow sf (Z.ones 128) wc.

Definition nxm_execute_reg_move (dst src : mf_subfield) (flow wc : flowf) : flowf * flowf :=
  let wc := mf_unwild src (mf_unwild dst wc) in
  let dst_value := mf_bytes (sf_field dst) (mf_get_value (sf_field dst) flow) in
  let src_value := mf_bytes (sf_field src) (mf_get_value (sf_field src) flow) in
  let dst_value := bitwise_copy src_value (sf_ofs src) dst_value (sf_ofs dst) (sf_n_bits src) in
  (mf_set_flow_value (sf_field dst) (get_be dst_value) flow, wc).

Definition nxm_execute_reg_load (dst : mf_subfield) (subvalue : Z) (flow : flowf) : flowf :=
  mf_write_subfield_flow dst subvalue flow.

Definition nxm_reg_load (dst : mf_subfield) (src_data : Z) (flow wc : flowf) : flowf * flowf :=
  (mf_write_subfield_flow dst (u64 src_data) flow, mf_unwild dst wc).

Definition nxm_execute_stack_push (sf : mf_subfield) (flow wc : flowf) (stack : list Z) : flowf * list Z :=
  (mf_unwild sf wc, mf_read_subfield sf flow :: stack).

Definition nxm_execute_stack_pop (sf : mf_subfield) (flow wc : flowf) (stack : list Z) : flowf * flowf * list Z :=
  match stack with
  | [] => (flow, wc, [])
  | v :: stack => (mf_write_subfield_flow sf v flow, mf_unwild sf wc, stack)
  end.

(** ** Hashing the fields of a flow (lib/flow.c) *)

Inductive nx_hash_fields := NX_HASH_FIELDS_ETH_SRC | NX_HASH_FIELDS_SYMMETRIC_L4.

(** The bytes of the local [fields] structure, with its padding. *)
Definition symmetric_l4_fields (flow : flowf) : list Z :=
  let proto_port :=
    if (flow F_nw_proto =? IPPROTO_TCP) || (flow F_nw_proto =? IPPROTO_SCTP)
    then Z.lxor (flow F_tp_src) (flow F_tp_dst) else 0 in
  let '(addr, ip_proto, tp_port) :=
    if flow F_dl_type =? ETH_TYPE_IP then
      (be_bytes 4 (Z.lxor (flow F_nw_src) (flow F_nw_dst)) ++ replicate 12 0, flow F_nw_proto, proto_port)
    else if flow F_dl_type =? ETH_TYPE_IPV6 then
      (be_bytes 16 (Z.lxor (flow F_ipv6_src) (flow F_ipv6_dst)), flow F_nw_proto, proto_port)
    else (replicate 16 0, 0, 0) in
  addr ++ be_bytes 2 (flow F_dl_type) ++ be_bytes 2 (Z.land (flow F_vlan_tci) VLAN_VID_MASK)
  ++ be_bytes 2 tp_port ++ be_bytes 6 (Z.lxor (flow F_dl_src) (flow F_dl_dst)) ++ [ip_proto] ++ replicate 3 0.

Definition flow_hash_symmetric_l4 (flow : flowf) (basis : Z) : Z := jhash_bytes (symmetric_l4_fields flow) basis.

Definition flow_hash_fields (flow : flowf) (fields : nx_hash_fields) (basis : Z) : Z :=
  match fields with
  | NX_HASH_FIELDS_ETH_SRC => jhash_bytes (be_bytes 6 (flow F_dl_src)) basis
  | NX_HASH_FIELDS_SYMMETRIC_L4 => flow_hash_symmetric_l4 flow basis
  end.

(** [wc->masks.f |= v]. *)
Definition wc_or (f : field) (v : Z) (wc : flowf) : flowf := upd f (Z.lor (wc f) v) wc.

Definition flow_mask_hash_fields (flow wc : flowf) (fields : nx_hash_fields) : flowf :=
  match fields with
  | NX_HASH_FIELDS_ETH_SRC => unwildcard [F_dl_src] wc
  | NX_HASH_FIELDS_SYMMETRIC_L4 =>
      let wc := unwildcard [F_dl_src; F_dl_dst] wc in
      let wc := if flow F_dl_type =? ETH_TYPE_IP then unwildcard [F_nw_src; F_nw_dst] wc
                else if flow F_dl_type =? ETH_TYPE_IPV6 then unwildcard [F_ipv6_src; F_ipv6_dst] wc
                else wc in
      let wc := if is_ip_any flow then unwildcard [F_nw_proto; F_tp_src; F_tp_dst] wc else wc in
      wc_or F_vlan_tci (Z.lor VLAN_VID_MASK VLAN_CFI) wc
  end.

(** ** Multipath (lib/multipath.c) *)

Inductive nx_mp_algorithm :=
| NX_MP_ALG_MODULO_N | NX_MP_ALG_HASH_THRESHOLD | NX_MP_ALG_HRW | NX_MP_ALG_ITER_HASH.

Record ofpact_multipath := OfpactMultipath {
  mp_fields : nx_hash_fields;
  mp_basis : Z;
  mp_algorithm : nx_mp_algorithm;
  mp_max_link : Z;
  mp_arg : Z;
  mp_dst : mf_subfield
}.

(** [n] iterations of the loop of [algorithm_hrw], from [link] on. *)
Fixpoint hrw_loop (n : nat) (hash link best_link best_weight : Z) : Z :=
  match n with
  | O => best_link
  | S n =>
      let weight := hash_2words hash link in
      if best_weight <? weight then hrw_loop n hash (link + 1) (u16 link) weight
      else hrw_loop n hash (link + 1) best_link best_weight
  end.

Definition algorithm_hrw (hash n_links : Z) : Z :=
  hrw_loop (Z.to_nat (n_links - 1)) hash 1 0 (hash_2words hash 0).

Definition round_up_pow2 (x : Z) : Z :=
  let x := u32 (x - 1) in
  let x := Z.lor x (Z.shiftr x 1) in
  let x := Z.lor x (Z.shiftr x 2) in
  let x := Z.lor x (Z.shiftr x 4) in
  let x := Z.lor x (Z.shiftr x 8) in
  u32 (x + 1).

(** Up to 2^k rounds of the [do ... while] loop with the counter from [i] on;
    [None] when every one of them finds a number out of range.  The counter
    is passed to [hash_2words] as a 32-bit word. *)
Fixpoint iter_hash_loop (k : nat) (hash i n_links modulo : Z) : option Z :=
  match k with
  | O => let link := u16 (hash_2words hash (u32 i) mod modulo) in if n_links <=? link then None else Some link
  | S k =>
      match iter_hash_loop k hash i n_links modulo with
      | Some link => Some link
      | None => iter_hash_loop k hash (i + 2 ^ Z.of_nat k) n_links modulo
      end
  end.

(** The loop ends within 2^32 rounds ([iter_hash_ends] below), so that the
    default is never taken. *)
Definition algorithm_iter_hash (hash n_links modulo : Z) : Z :=
  let modulo := if (modulo <? n_links) || (n_links <? modulo / 2) then round_up_pow2 n_links else modulo in
  default 0 (iter_hash_loop 32 hash 0 n_links modulo).

Definition multipath_algorithm (hash : Z) (algorithm : nx_mp_algorithm) (n_links arg : Z) : Z :=
  match algorithm with
  | NX_MP_ALG_MODULO_N => u16 (hash mod n_links)
  | NX_MP_ALG_HASH_THRESHOLD => if n_links =? 1 then 0 else u16 (hash / (0xffffffff / n_links + 1))
  | NX_MP_ALG_HRW => if n_links <=? 64 then algorithm_hrw hash n_links else algorithm_iter_hash hash n_links 0
  | NX_MP_ALG_ITER_HASH => algorithm_iter_hash hash n_links arg
  end.

Definition multipath_execute (mp : ofpact_multipath) (flow wc : flowf) : flowf * flowf :=
  let hash := flow_hash_fields flow (mp_fields mp) (mp_basis mp) in
  let link := multipath_algorithm hash (mp_algorithm mp) (mp_max_link mp + 1) (mp_arg mp) in
  let wc := flow_mask_hash_fields flow wc (mp_fields mp) in
  nxm_reg_load (mp_dst mp) link flow wc.

(** ** Bundle (lib/bundle.c) *)

Inductive nx_bd_algorithm := NX_BD_ALG_ACTIVE_BACKUP | NX_BD_ALG_HRW.

Record ofpact_bundle := OfpactBundle {
  bd_algorithm : nx_bd_algorithm;
  bd_fields : nx_hash_fields;
  bd_basis : Z;
  bd_dst : option mf_subfield;
  bd_slaves : list Z
}.

Definition execute_ab (slaves : list Z) (slave_enabled : Z → bool) : Z :=
  default OFPP_NONE (find slave_enabled slaves).

(** The slaves still to be visited, the index of the first, and the best one
    so far with its hash. *)
Fixpoint execute_hrw_loop (slaves : list Z) (slave_enabled : Z → bool) (flow_hash i : Z) (best : option (Z * Z))
  : option (Z * Z) :=
  match slaves with
  | [] => best
  | s :: slaves =>
      let best :=
        if slave_enabled s then
          let hash := hash_2words i flow_hash in
          match best with
          | Some (_, best_hash) => if best_hash <? hash then Some (s, hash) else best
          | None => Some (s, hash)
          end
        else best in
      execute_hrw_loop slaves slave_enabled flow_hash (i + 1) best
  end.

Definition execute_hrw (bundle : ofpact_bundle) (flow wc : flowf) (slave_enabled : Z → bool) : Z * flowf :=
  let wc := if (1 <? length (bd_slaves bundle))%nat then flow_mask_hash_fields flow wc (bd_fields bundle) else wc in
  let flow_hash := flow_hash_fields flow (bd_fields bundle) (bd_basis bundle) in
  (default OFPP_NONE (fst <$> execute_hrw_loop (bd_slaves bundle) slave_enabled flow_hash 0 None), wc).

Definition bundle_execute (bundle : ofpact_bundle) (flow wc : flowf) (slave_enabled : Z → bool) : Z * flowf :=
  match bd_algorithm bundle with
  | NX_BD_ALG_HRW => execute_hrw bundle flow wc slave_enabled
  | NX_BD_ALG_ACTIVE_BACKUP => (execute_ab (bd_slaves bundle) slave_enabled, wc)
  end.

(** ** Unwildcarding a subfield *)

(** Writing a mask of this field loses no mask bit: not so for the IPv6 label,
    whose mask is complemented, and for the ICMP type and code, whose high
    byte is cleared. *)
Definition mf_mask_ok (mf : mf_field) : bool :=
  match mf with
  | MFF_IPV6_LABEL | MFF_ICMPV4_TYPE | MFF_ICMPV4_CODE | MFF_ICMPV6_TYPE | MFF_ICMPV6_CODE => false
  | _ => true
  end.

Lemma covers_bits x y : Z.land x y = x ↔ ∀ i, 0 ≤ i → Z.testbit x i = true → Z.testbit y i = true.
Proof.
  split.
  - intros H i Hi Hx. rewrite <- H, Z.land_spec in Hx. by apply andb_true_iff in Hx as [_ ?].
  - intros H. apply Z.bits_inj'. intros i Hi. rewrite Z.land_spec. destruct (Z.testbit x i) eqn:E; [|done].
    by rewrite H.
Qed.

(** The bits of [x] under [k], shifted down, are covered by [v], which then
    replaces them. *)
Lemma insert_covers x v k s :
  0 ≤ s → Z.land (Z.shiftr (Z.land x k) s) v = Z.shiftr (Z.land x k) s → Z.land k (Z.ones s) = 0 →
  Z.land x (Z.lor (Z.ldiff x k) (Z.land (Z.shiftl v s) k)) = x.
Proof.
  intros Hs H Hk. rewrite covers_bits in H. apply covers_bits. intros i Hi Hx.
  rewrite Z.lor_spec, Z.ldiff_spec, Z.land_spec, Hx. destruct (Z.testbit k i) eqn:E; [|done].
  destruct (decide (i < s)) as [?|Hge].
  { apply (f_equal (λ z, Z.testbit z i)) in Hk. rewrite Z.land_spec, E, Z.ones_spec_low, Z.bits_0 in Hk by lia. done. }
  rewrite Z.shiftl_spec, H; [done|lia| |lia].
  rewrite Z.shiftr_spec, Z.land_spec by lia. replace (i - s + s) with i by lia. by rewrite Hx, E.
Qed.

Lemma insert_covers0 x v k :
  Z.land (Z.land x k) v = Z.land x k → Z.land x (Z.lor (Z.ldiff x k) (Z.land v k)) = x.
Proof.
  intros H. replace (Z.land v k) with (Z.land (Z.shiftl v 0) k) by (by rewrite Z.shiftl_0_r).
  apply insert_covers; [done|by rewrite Z.shiftr_0_r|apply Z.land_0_r].
Qed.

Lemma covers_lor x y z : Z.land x y = x → Z.land x (Z.lor y z) = x.
Proof. rewrite !covers_bits. intros H i Hi Hx. by rewrite Z.lor_spec, H. Qed.

Lemma wrap_land w x k : in_width w k → 0 ≤ w → Z.land (wrap w x) k = Z.land x k.
Proof.
  intros Hk Hw. apply Z.bits_inj'. intros i Hi. rewrite !Z.land_spec, testbit_wrap by done.
  destruct (Z.ltb_spec i w); [done|]. rewrite (testbit_high w k) by (done || lia). by rewrite !andb_false_r.
Qed.

Lemma covers_le x y : 0 ≤ y → Z.land x y = x → x ≤ y.
Proof. intros Hy H. apply Z.ldiff_le; [done|]. rewrite <- H. bits. Qed.

Lemma port_covers m v :
  is_u16 m → is_u32 v → Z.land (ofputil_port_to_ofp11 m) v = ofputil_port_to_ofp11 m →
  Z.land m (ofputil_port_from_ofp11 v).1 = m.
Proof.
  intros [Hm0 Hm] [Hv0 Hv] H. pose proof (covers_le _ _ Hv0 H) as Hle.
  change (2 ^ 16) with 65536 in Hm. change (2 ^ 32) with 4294967296 in Hv.
  assert (Hlow : Z.land m (u16 v) = m).
  { assert (E : m = u16 (ofputil_port_to_ofp11 m)).
    { unfold ofputil_port_to_ofp11, OFPP_MAX, OFPP11_OFFSET, u16, wrap. change (2 ^ 16) with 65536.
      destruct (Z.ltb_spec m 65280); [by rewrite Z.mod_small|].
      replace (m + 4294901760) with (m + 65535 * 65536) by lia. by rewrite Z.mod_add, Z.mod_small. }
    rewrite covers_bits in *. intros i Hi Hx. assert (Hx' : Z.testbit (u16 (ofputil_port_to_ofp11 m)) i = true)
      by congruence.
    rewrite (testbit_wrap 16) in Hx' by done. rewrite (testbit_wrap 16) by done.
    apply andb_true_iff in Hx' as [Hi16 Ht]. apply andb_true_iff. split; [done|by apply H]. }
  unfold ofputil_port_from_ofp11, ofputil_port_to_ofp11, OFPP_MAX, OFPP11_MAX, OFPP11_OFFSET in *.
  destruct (Z.ltb_spec v 65280); [done|]. destruct (Z.leb_spec 4294967040 v).
  - simpl. replace (u16 (v - 4294901760)) with (u16 v); [done|]. unfold u16, wrap. change (2 ^ 16) with 65536.
    replace v with (v - 4294901760 + 65535 * 65536) at 1 by lia. by rewrite Z.mod_add.
  - simpl. apply (land_all_ones 16); [by split|done].
Qed.

Lemma mf_set_flow_value_le mf v wc :
  mf_mask_ok mf = true → flow_ok wc → in_width (mf_width mf) v → (mf = MFF_DL_VLAN → v ≠ OFP10_VLAN_NONE) →
  Z.land (mf_get_value mf wc) v = mf_get_value mf wc → wc_le wc (mf_set_flow_value mf v wc).
Proof.
  intros Hm Hw Hv Hn Hc f. destruct (decide (f = mf_flow_field mf)) as [->|Hne];
    [|rewrite mf_set_flow_value_other by done; apply Z.land_diag].
  pose proof (Hw (mf_flow_field mf)) as Hg.
  destruct mf; try done; cbn [mf_flow_field mf_get_value mf_set_flow_value] in *;
    unfold flow_set_vlan_vid, flow_set_mpls_label, flow_set_mpls_tc, flow_set_mpls_bos, set_mpls_lse_label,
      set_mpls_lse_tc, set_mpls_lse_bos, and_not; rewrite ?upd_eq; try done; try (by apply insert_covers0).
  - by apply port_covers.
  - unfold flow_set_dl_vlan. rewrite (proj2 (Z.eqb_neq _ _)) by auto. rewrite upd_eq. unfold and_not.
    rewrite (Z.lor_comm VLAN_CFI), Z.lor_assoc. by apply covers_lor, insert_covers0.
  - unfold flow_set_vlan_pcp. rewrite upd_eq. unfold and_not. rewrite Z.lor_assoc. apply covers_lor.
    rewrite Z.shiftl_land. by apply insert_covers.
  - unfold flow_set_vlan_pcp. rewrite upd_eq. unfold and_not. rewrite Z.lor_assoc. apply covers_lor.
    rewrite Z.shiftl_land. by apply insert_covers.
  - rewrite (wrap_land 32) by done. by apply insert_covers.
  - by apply insert_covers.
  - apply insert_covers; [done| |done]. revert Hc. unfold mpls_lse_to_bos.
    change MPLS_BOS_MASK with (2 ^ 8). rewrite land_pow2 by done. by destruct (Z.testbit (wc F_mpls_lse) 8).
  - rewrite covers_bits in *. intros i Hi Hx. rewrite (testbit_wrap 8) by done.
    destruct (Z.ltb_spec i 8); [|by rewrite (testbit_high 8) in Hx]. simpl.
    rewrite Z.lor_spec, Z.ldiff_spec, Hx. destruct (decide (i < 2)).
    + assert (i = 0 ∨ i = 1) as [-> | ->] by lia; done.
    + rewrite Z.shiftl_spec by done. rewrite Hc; [apply orb_true_r|lia|]. rewrite Z.shiftr_spec by lia.
      by replace (i - 2 + 2) with i by lia.
  - by rewrite Hc, Z.land_diag.
  - rewrite covers_bits in *. intros i Hi Hx. rewrite (testbit_wrap 8) by done.
    destruct (Z.ltb_spec i 8); [|by rewrite (testbit_high 8) in Hx]. by apply Hc.
Qed.

(** Fixing the bits of a subfield only adds to the masks. *)
Lemma mf_unwild_le sf wc :
  mf_mask_ok (sf_field sf) = true → (sf_ofs sf + sf_n_bits sf ≤ mf_n_bits (sf_field sf))%nat → flow_ok wc →
  flow_ok (mf_unwild sf wc) ∧ wc_le wc (mf_unwild sf wc).
Proof.
  intros Hm Hr Hw. unfold mf_unwild. rewrite mf_write_subfield_flow_value by done.
  pose proof (mf_n_bits_bytes (sf_field sf)) as Hb. pose proof (mf_get_value_width (sf_field sf) wc Hw) as Hg.
  set (v := bits_put _ _ _ _).
  assert (Hv : in_width (mf_width (sf_field sf)) v) by (apply bits_put_width; [unfold mf_width; lia|done]).
  split; [by apply mf_set_flow_value_ok|]. apply mf_set_flow_value_le; [done..| |].
  - intros E. subst v. rewrite E in *. intros Hx. cbn [mf_get_value] in *.
    assert (in_width 12 (bits_put (Z.land (wc F_vlan_tci) VLAN_VID_MASK) (Z.ones 128) (sf_ofs sf) (sf_n_bits sf))) as [_ Hlt].
    { apply bits_put_width; [cbn in Hr; lia|]. rewrite Z.land_comm. by apply land_in_width. }
    rewrite Hx in Hlt. done.
  - apply covers_bits. intros i Hi Hx. subst v. replace i with (Z.of_nat (Z.to_nat i)) in * by lia.
    rewrite testbit_bits_put. case_decide; [|done]. apply Z.ones_spec_low.
    assert (mf_n_bits (sf_field sf) ≤ 128)%nat by (destruct (sf_field sf); cbn; lia). lia.
Qed.

(** ** The hash is determined by the fields that are unwildcarded *)

(** Two flows that the masks [wc] do not distinguish. *)
Definition agree (wc fl fl' : flowf) : Prop := ∀ f, Z.land (fl f) (wc f) = Z.land (fl' f) (wc f).

Lemma agree_exact wc fl fl' f : agree wc fl fl' → flow_ok fl → flow_ok fl' → wc f = all_ones f → fl f = fl' f.
Proof.
  intros Ha H1 H2 Hw. specialize (Ha f). rewrite Hw in Ha. pose proof (field_width_pos f).
  unfold all_ones in Ha. by rewrite !land_all_ones in Ha by (apply H1 || apply H2 || lia).
Qed.

Lemma agree_mono wc wc' fl fl' : wc_le wc wc' → agree wc' fl fl' → agree wc fl fl'.
Proof.
  intros Hle Ha f. rewrite <- (Hle f). rewrite (Z.land_comm (wc f)), !Z.land_assoc. by rewrite Ha.
Qed.

Lemma wc_or_ok f v wc : flow_ok wc → in_width (field_width f) v → flow_ok (wc_or f v wc) ∧ wc_le wc (wc_or f v wc).
Proof.
  intros Hw Hv. pose proof (field_width_pos f). split.
  - apply upd_flow_ok; [done|]. apply lor_in_width; [lia|apply Hw|done].
  - intros g. unfold wc_or. destruct (decide (g = f)) as [->|]; [|rewrite upd_ne by done; apply Z.land_diag].
    rewrite upd_eq. bits.
Qed.

Lemma unwildcard_grows fs wc : flow_ok wc → flow_ok (unwildcard fs wc) ∧ wc_le wc (unwildcard fs wc).
Proof. intros Hw. split; [by apply unwildcard_ok|by apply unwildcard_le]. Qed.

(** [wc'] is well typed and fixes at least the bits of [wc]. *)
Definition wc_grows (wc wc' : flowf) : Prop := flow_ok wc → flow_ok wc' ∧ wc_le wc wc'.

#[global] Instance wc_grows_preorder : PreOrder wc_grows.
Proof.
  split; [by intros wc Hw|]. intros a b c Hab Hbc Hw. destruct (Hab Hw) as [Hb Lab]. destruct (Hbc Hb) as [Hc Lbc].
  split; [done|by trans b].
Qed.

Lemma flow_mask_hash_fields_grows flow wc fields : wc_grows wc (flow_mask_hash_fields flow wc fields).
Proof.
  destruct fields; cbn [flow_mask_hash_fields]; [intros Hw; by apply unwildcard_grows|].
  trans (unwildcard [F_dl_src; F_dl_dst] wc); [intros Hw; by apply unwildcard_grows|].
  match goal with |- wc_grows ?w (wc_or _ _ (if _ then unwildcard _ ?w' else _)) => trans w' end.
  { destruct (_ =? _); [|destruct (_ =? _); [|done]]; intros Hw; by apply unwildcard_grows. }
  match goal with |- wc_grows ?w (wc_or _ _ ?w') => trans w' end.
  { destruct (is_ip_any flow); [|done]. intros Hw; by apply unwildcard_grows. }
  intros Hw. by apply wc_or_ok.
Qed.

Lemma flow_mask_hash_fields_ext fl fl' wc fields :
  fl F_dl_type = fl' F_dl_type → flow_mask_hash_fields fl wc fields = flow_mask_hash_fields fl' wc fields.
Proof. intros H. destruct fields; [done|]. cbn [flow_mask_hash_fields]. unfold is_ip_any. by rewrite H. Qed.

Lemma symmetric_masks flow wc f :
  f ∈ [F_dl_src; F_dl_dst]
      ++ (if flow F_dl_type =? ETH_TYPE_IP then [F_nw_src; F_nw_dst]
          else if flow F_dl_type =? ETH_TYPE_IPV6 then [F_ipv6_src; F_ipv6_dst] else [])
      ++ (if is_ip_any flow then [F_nw_proto; F_tp_src; F_tp_dst] else []) →
  flow_mask_hash_fields flow wc NX_HASH_FIELDS_SYMMETRIC_L4 f = all_ones f.
Proof.
  intros Hf. cbn [flow_mask_hash_fields]. unfold wc_or.
  rewrite upd_ne by (intros ->; revert Hf; repeat case_match; set_solver).
  rewrite !elem_of_app in Hf.
  destruct (is_ip_any flow); [destruct (decide (f ∈ [F_nw_proto; F_tp_src; F_tp_dst]));
    [by apply unwildcard_in|rewrite unwildcard_other by done]|].
  all: destruct (flow F_dl_type =? ETH_TYPE_IP); [|destruct (flow F_dl_type =? ETH_TYPE_IPV6)];
    try (destruct (decide (f ∈ [F_nw_src; F_nw_dst])); [by apply unwildcard_in|rewrite unwildcard_other by done]);
    try (destruct (decide (f ∈ [F_ipv6_src; F_ipv6_dst])); [by apply unwildcard_in|rewrite unwildcard_other by done]);
    apply unwildcard_in; set_solver.
Qed.

Lemma flow_hash_masked fl fl' wc fields basis :
  flow_ok fl → flow_ok fl' → fl F_dl_type = fl' F_dl_type →
  agree (flow_mask_hash_fields fl wc fields) fl fl' →
  flow_hash_fields fl fields basis = flow_hash_fields fl' fields basis.
Proof.
  intros H1 H2 Ht Ha. destruct fields; cbn [flow_hash_fields].
  - rewrite (agree_exact _ fl fl' F_dl_src Ha) by (done || (apply unwildcard_in; set_solver)). done.
  - unfold flow_hash_symmetric_l4. f_equal.
    assert (E : ∀ f, f ∈ [F_dl_src; F_dl_dst]
      ++ (if fl F_dl_type =? ETH_TYPE_IP then [F_nw_src; F_nw_dst]
          else if fl F_dl_type =? ETH_TYPE_IPV6 then [F_ipv6_src; F_ipv6_dst] else [])
      ++ (if is_ip_any fl then [F_nw_proto; F_tp_src; F_tp_dst] else []) → fl f = fl' f).
    { intros f Hf. apply (agree_exact _ _ _ f Ha); [done..|]. by apply symmetric_masks. }
    assert (Ev : Z.land (fl F_vlan_tci) VLAN_VID_MASK = Z.land (fl' F_vlan_tci) VLAN_VID_MASK).
    { specialize (Ha F_vlan_tci). cbn [flow_mask_hash_fields] in Ha. unfold wc_or in Ha. rewrite upd_eq in Ha.
      apply (f_equal (λ z, Z.land z VLAN_VID_MASK)) in Ha. revert Ha. generalize (fl F_vlan_tci), (fl' F_vlan_tci).
      match goal with |- ∀ a b, Z.land (Z.land a (Z.lor ?w _)) _ = _ → _ => generalize w end.
      intros w a b Ha. rewrite <- !Z.land_assoc in Ha.
      replace (Z.land (Z.lor w (Z.lor VLAN_VID_MASK VLAN_CFI)) VLAN_VID_MASK) with VLAN_VID_MASK in Ha by bits. done. }
    unfold symmetric_l4_fields. rewrite <- Ht, <- Ev.
    rewrite <- (E F_dl_src), <- (E F_dl_dst) by set_solver.
    unfold is_ip_any, dl_type_is_ip_any in E.
    destruct (fl F_dl_type =? ETH_TYPE_IP); [|destruct (fl F_dl_type =? ETH_TYPE_IPV6); [|done]]; cbn [orb] in E.
    + by rewrite <- (E F_nw_src), <- (E F_nw_dst), <- (E F_nw_proto), <- (E F_tp_src), <- (E F_tp_dst) by set_solver.
    + by rewrite <- (E F_ipv6_src), <- (E F_ipv6_dst), <- (E F_nw_proto), <- (E F_tp_src), <- (E F_tp_dst) by set_solver.
Qed.

(** ** Choosing a link *)

Lemma hrw_loop_range n hash link best w n_links :
  0 ≤ link → link + Z.of_nat n = n_links → n_links ≤ 65536 → 0 ≤ best < n_links →
  0 ≤ hrw_loop n hash link best w < n_links.
Proof.
  revert link best w. induction n as [|n IH]; intros link best w Hl Hn Hm Hb; [done|]. simpl.
  destruct (_ <? _); apply IH; try lia. rewrite (wrap_id 16); [lia|]. split; [done|]. change (2 ^ 16) with 65536. lia.
Qed.

(** The chosen link has the greatest weight of all. *)
Lemma hrw_loop_max n hash link best :
  0 ≤ link → link + Z.of_nat n ≤ 65536 →
  let r := hrw_loop n hash link best (hash_2words hash best) in
  hash_2words hash best ≤ hash_2words hash r
  ∧ ∀ l, link ≤ l < link + Z.of_nat n → hash_2words hash l ≤ hash_2words hash r.
Proof.
  revert link best. induction n as [|n IH]; intros link best Hl Hn; cbn [hrw_loop]; [split; [done|lia]|].
  destruct (Z.ltb_spec (hash_2words hash best) (hash_2words hash link)) as [Hlt|Hge].
  - rewrite (wrap_id 16) by (split; [done|change (2 ^ 16) with 65536; lia]).
    destruct (IH (link + 1) link) as [H1 H2]; [lia..|]. split; [lia|]. intros l Hr.
    destruct (decide (l = link)) as [->|]; [done|]. apply H2. lia.
  - destruct (IH (link + 1) best) as [H1 H2]; [lia..|]. split; [done|]. intros l Hr.
    destruct (decide (l = link)) as [->|]; [lia|]. apply H2. lia.
Qed.

(** The loop returns the first number in range. *)
Lemma iter_hash_loop_spec k hash i n_links modulo :
  let link j := u16 (hash_2words hash (u32 j) mod modulo) in
  match iter_hash_loop k hash i n_links modulo with
  | Some l => ∃ j, i ≤ j < i + 2 ^ Z.of_nat k ∧ l = link j ∧ l < n_links ∧ ∀ j', i ≤ j' < j → n_links ≤ link j'
  | None => ∀ j, i ≤ j < i + 2 ^ Z.of_nat k → n_links ≤ link j
  end.
Proof.
  intros link. revert i. induction k as [|k IH]; intros i; cbn [iter_hash_loop].
  - change (2 ^ Z.of_nat 0) with 1. fold (link i). destruct (Z.leb_spec n_links (link i)).
    + intros j Hj. by replace j with i by lia.
    + exists i. repeat split; [lia..|done|lia].
  - rewrite Nat2Z.inj_succ, Z.pow_succ_r by lia. pose proof (IH i) as H1. destruct (iter_hash_loop k hash i _ _) as [l|].
    { destruct H1 as (j & Hj & ?). exists j. split; [lia|done]. }
    pose proof (IH (i + 2 ^ Z.of_nat k)) as H2. destruct (iter_hash_loop k hash (i + _) _ _) as [l|].
    + destruct H2 as (j & Hj & ? & ? & H2). exists j. repeat split; [lia..|done|done|]. intros j' Hj'.
      destruct (Z.lt_ge_cases j' (i + 2 ^ Z.of_nat k)); [apply H1|apply H2]; lia.
    + intros j Hj. destruct (Z.lt_ge_cases j (i + 2 ^ Z.of_nat k)); [apply H1|apply H2]; lia.
Qed.

(** The loop ends, within 2^32 rounds, at the first number in range: the
    hash is zero in one of them. *)
Lemma iter_hash_ends hash n_links modulo :
  1 ≤ n_links →
  ∃ i, 0 ≤ i < 2 ^ 32 ∧ iter_hash_loop 32 hash 0 n_links modulo = Some (u16 (hash_2words hash i mod modulo))
       ∧ 0 ≤ u16 (hash_2words hash i mod modulo) < n_links
       ∧ ∀ j, 0 ≤ j < i → n_links ≤ u16 (hash_2words hash j mod modulo).
Proof.
  intros Hn. pose proof (iter_hash_loop_spec 32 hash 0 n_links modulo) as H. cbv zeta in H.
  change (0 + 2 ^ Z.of_nat 32) with (2 ^ 32) in H. destruct (iter_hash_loop _ _ _ _ _) as [l|].
  - destruct H as (i & Hi & -> & Hl & Hj). exists i. rewrite (wrap_id 32 i) in * by done. repeat split; [lia..| |done|].
    + by apply wrap_in_width.
    + intros j Hjr. rewrite <- (wrap_id 32 j) by (split; lia). by apply Hj.
  - destruct (hash_2words_reaches_zero hash) as (y & Hy & E). specialize (H y Hy). rewrite (wrap_id 32 y), E, Zmod_0_l in H by done.
    change (u16 0) with 0 in H. lia.
Qed.

Lemma algorithm_iter_hash_range hash n_links modulo : 1 ≤ n_links → 0 ≤ algorithm_iter_hash hash n_links modulo < n_links.
Proof. intros Hn. unfold algorithm_iter_hash. edestruct iter_hash_ends as (i & _ & -> & H & _); [done|exact H]. Qed.

Lemma algorithm_hrw_range hash n_links : 1 ≤ n_links ≤ 65536 → 0 ≤ algorithm_hrw hash n_links < n_links.
Proof. intros Hn. apply hrw_loop_range; lia. Qed.

Lemma multipath_algorithm_range hash alg n_links arg :
  is_u32 hash → 1 ≤ n_links ≤ 65536 → 0 ≤ multipath_algorithm hash alg n_links arg < n_links.
Proof.
  intros [Hh0 Hh] Hn. assert (Hu : ∀ x, 0 ≤ x < n_links → 0 ≤ u16 x < n_links).
  { intros x Hx. rewrite (wrap_id 16); [done|]. split; [lia|change (2 ^ 16) with 65536; lia]. }
  destruct alg; simpl.
  - apply Hu, Z.mod_pos_bound. lia.
  - destruct (Z.eqb_spec n_links 1) as [->|Hne]; [lia|]. apply Hu.
    pose proof (Z.div_le_mono 65536 (2 ^ 32 - 1) n_links). change (2 ^ 32) with 4294967296 in *.
    assert (0 ≤ 4294967295 / n_links) by (apply Z.div_pos; lia). split; [apply Z.div_pos; lia|].
    apply Z.div_lt_upper_bound; [lia|]. pose proof (Z.mod_pos_bound 4294967295 n_links).
    pose proof (Z.div_mod 4294967295 n_links). nia.
  - destruct (_ <=? _); [by apply algorithm_hrw_range|apply algorithm_iter_hash_range; lia].
  - apply algorithm_iter_hash_range. lia.
Qed.

Lemma jhash_sub_rot_u32 x y k : is_u32 y → 0 ≤ k ≤ 32 → is_u32 (jhash_sub_rot x y k).
Proof.
  intros Hy Hk. unfold jhash_sub_rot, jhash_rot. apply lxor_in_width; [done|by apply wrap_in_width|].
  apply lor_in_width; [done|by apply wrap_in_width|]. apply shiftr_in_width; [done|lia|done].
Qed.

Lemma jhash_bytes_loop_u32 fuel s p : is_u32 s.2 → is_u32 (jhash_bytes_loop fuel s p).2.
Proof.
  revert s p. induction fuel as [|fuel IH]; intros [[a b] c] p Hs; [done|]. cbn [jhash_bytes_loop].
  destruct (_ <=? _)%nat.
  - apply IH. unfold jhash_mix. cbn [snd]. repeat first [by apply wrap_in_width|apply jhash_sub_rot_u32; [|done]].
  - destruct (_ =? _)%nat; [done|]. unfold jhash_final. cbn [snd]. by apply wrap_in_width.
Qed.

Lemma jhash_u32 p basis : is_u32 (jhash_bytes p basis).
Proof. apply jhash_bytes_loop_u32. by apply wrap_in_width. Qed.

Lemma flow_hash_u32 flow fields basis : is_u32 (flow_hash_fields flow fields basis).
Proof. destruct fields; apply jhash_u32. Qed.



(** ** Choosing a slave *)

(** Slave number [k] is the first of the enabled ones with the greatest hash. *)
Definition hrw_best (slaves : list Z) (en : Z → bool) (h : Z) (k : nat) (s : Z) : Prop :=
  slaves !! k = Some s ∧ en s = true
  ∧ ∀ j s', slaves !! j = Some s' → en s' = true →
      hash_2words (Z.of_nat j) h ≤ hash_2words (Z.of_nat k) h
      ∧ ((j < k)%nat → hash_2words (Z.of_nat j) h < hash_2words (Z.of_nat k) h).

Lemma hrw_best_unique slaves en h k s k' s' :
  hrw_best slaves en h k s → hrw_best slaves en h k' s' → s = s'.
Proof.
  intros (L & E & M) (L' & E' & M'). destruct (M _ _ L' E') as [A B]. destruct (M' _ _ L E) as [C D].
  assert (k = k') as <- by (destruct (Nat.lt_trichotomy k k') as [?|[?|?]]; [lia|done|lia]). congruence.
Qed.

(** [best] is the choice among [slaves]. *)
Definition hrw_choice (slaves : list Z) (en : Z → bool) (h : Z) (best : option (Z * Z)) : Prop :=
  match best with
  | Some (s, w) => ∃ k, hrw_best slaves en h k s ∧ w = hash_2words (Z.of_nat k) h
  | None => ∀ s, s ∈ slaves → en s = false
  end.

Lemma hrw_choice_snoc pre en h best s :
  hrw_choice pre en h best →
  hrw_choice (pre ++ [s]) en h
    (if en s then
       let hash := hash_2words (Z.of_nat (length pre)) h in
       match best with
       | Some (_, best_hash) => if best_hash <? hash then Some (s, hash) else best
       | None => Some (s, hash)
       end
     else best).
Proof.
  intros H. assert (Hl : ∀ j x, (pre ++ [s]) !! j = Some x → pre !! j = Some x ∨ j = length pre ∧ x = s).
  { intros j x [Hj|[Hge Hj]]%lookup_app_Some; [by left|right]. apply list_lookup_singleton_Some in Hj as [? ->].
    split; [lia|done]. }
  assert (Hs : (pre ++ [s]) !! length pre = Some s) by (by apply list_lookup_middle).
  destruct (en s) eqn:E; cbn zeta.
  - destruct best as [[b w]|].
    + destruct H as (k & (L & Eb & M) & ->). pose proof (lookup_lt_Some _ _ _ L).
      destruct (Z.ltb_spec (hash_2words (Z.of_nat k) h) (hash_2words (Z.of_nat (length pre)) h)) as [Hlt|Hge].
      * exists (length pre). split; [|done]. split_and!; [done..|]. intros j x [Hj|[-> ->]]%Hl Ex; [|lia].
        destruct (M _ _ Hj Ex). lia.
      * exists k. split; [|done]. split_and!; [by apply lookup_app_l_Some|done|].
        intros j x [Hj|[-> ->]]%Hl Ex; [by eapply M|lia].
    + exists (length pre). split; [|done]. split_and!; [done..|]. intros j x [Hj|[-> ->]]%Hl Ex; [|lia].
      apply list_elem_of_lookup_2 in Hj. by rewrite (H x Hj) in Ex.
  - destruct best as [[b w]|].
    + destruct H as (k & (L & Eb & M) & ->). exists k. split; [|done]. split_and!; [by apply lookup_app_l_Some|done|].
      intros j x [Hj|[-> ->]]%Hl Ex; [by eapply M|congruence].
    + intros x [Hx|Hx]%elem_of_app; [by apply H|]. apply list_elem_of_singleton in Hx as ->. done.
Qed.

Lemma execute_hrw_loop_spec post pre en h best :
  hrw_choice pre en h best →
  hrw_choice (pre ++ post) en h (execute_hrw_loop post en h (Z.of_nat (length pre)) best).
Proof.
  revert pre best. induction post as [|s post IH]; intros pre best H; [by rewrite app_nil_r|].
  apply (hrw_choice_snoc _ _ _ _ s), IH in H. rewrite length_app, Nat2Z.inj_add, <- app_assoc in H. exact H.
Qed.

Lemma execute_hrw_choice slaves en h : hrw_choice slaves en h (execute_hrw_loop slaves en h 0 None).
Proof. apply (execute_hrw_loop_spec slaves []). intros s []%not_elem_of_nil. Qed.

Lemma execute_ab_spec (slaves : list Z) (en : Z → bool) :
  match find en slaves with
  | Some s => ∃ pre post, slaves = pre ++ s :: post ∧ Forall (λ s, en s = false) pre ∧ en s = true
  | None => existsb en slaves = false
  end.
Proof.
  induction slaves as [|s slaves IH]; [done|]. simpl. destruct (en s) eqn:E.
  - by exists [], slaves.
  - destruct (find en slaves) as [r|]; [|done]. destruct IH as (pre & post & -> & Hp & Hr).
    exists (s :: pre), post. split_and!; [done| |done]. by constructor.
Qed.

Lemma existsb_elem (en : Z → bool) slaves s : s ∈ slaves → en s = true → existsb en slaves = true.
Proof. intros Hs He. apply existsb_exists. exists s. by rewrite <- list_elem_of_In. Qed.

(** The slave chosen by hashing, as a choice. *)
Lemma execute_hrw_slave slaves en h s :
  existsb en slaves = true → s = default OFPP_NONE (fst <$> execute_hrw_loop slaves en h 0 None) →
  ∃ k, hrw_best slaves en h k s.
Proof.
  intros (x & Hx & Ex)%existsb_exists ->. pose proof (execute_hrw_choice slaves en h) as H.
  destruct (execute_hrw_loop _ _ _ _ _) as [[r w]|].
  - destruct H as (k & Hk & _). by exists k.
  - apply list_elem_of_In in Hx. by rewrite (H x Hx) in Ex.
Qed.

Lemma hrw_best_elem slaves en h k s : hrw_best slaves en h k s → s ∈ slaves ∧ en s = true.
Proof. intros (L & E & _). split; [by eapply list_elem_of_lookup_2|done]. Qed.

(** The bundle action chooses an enabled slave if there is one and
    OFPP_NONE otherwise: the first one for active-backup; for highest random
    weight hashing the one with the greatest hash, so that the choice does
    not move when other slaves fail, and it is the same for all packets of an
    Ethernet type that the resulting wildcards do not tell apart.  The
    wildcards only grow. *)
Theorem bundle_execute_correct bundle flow wc en :
  let '(slave, wc') := bundle_execute bundle flow wc en in
  (if existsb en (bd_slaves bundle) then slave ∈ bd_slaves bundle ∧ en slave = true else slave = OFPP_NONE)
  ∧ wc_grows wc wc'
  ∧ match bd_algorithm bundle with
    | NX_BD_ALG_ACTIVE_BACKUP =>
        wc' = wc ∧
        (existsb en (bd_slaves bundle) = true →
         ∃ pre post, bd_slaves bundle = pre ++ slave :: post ∧ Forall (λ s, en s = false) pre)
    | NX_BD_ALG_HRW =>
        (∀ en', en' slave = true → (∀ s, en' s = true → en s = true) →
           existsb en (bd_slaves bundle) = true → (bundle_execute bundle flow wc en').1 = slave)
        ∧ ∀ flow2, flow_ok flow → flow_ok flow2 → flow F_dl_type = flow2 F_dl_type → agree wc' flow flow2 →
            bundle_execute bundle flow2 wc en = (slave, wc')
    end.
Proof.
  unfold bundle_execute. destruct (bd_algorithm bundle).
  { unfold execute_ab. pose proof (execute_ab_spec (bd_slaves bundle) en) as H.
    destruct (find en (bd_slaves bundle)) as [s|]; simpl.
    - destruct H as (pre & post & E & Hp & Hs).
      assert (Hin : s ∈ bd_slaves bundle) by (rewrite E; set_solver).
      rewrite (existsb_elem en _ s) by done. split_and!; [done..|]. intros _. by exists pre, post.
    - rewrite H. by split_and!. }
  unfold execute_hrw. set (wc' := if (1 <? _)%nat then _ else wc).
  set (h := flow_hash_fields flow _ _). set (slave := default _ _).
  pose proof (λ e s, execute_hrw_slave (bd_slaves bundle) e h s) as Hch. split_and!.
  - destruct (existsb en (bd_slaves bundle)) eqn:E.
    + destruct (Hch en slave E eq_refl) as [k Hk]. by eapply hrw_best_elem.
    + unfold slave. pose proof (execute_hrw_choice (bd_slaves bundle) en h) as H.
      destruct (execute_hrw_loop _ _ _ _ _) as [[r w]|]; [|done]. destruct H as (k & [Hin Hr]%hrw_best_elem & _).
      by rewrite (existsb_elem en _ r) in E.
  - unfold wc'. destruct (_ <? _)%nat; [apply flow_mask_hash_fields_grows|done].
  - intros en' He Hsub Hex. cbn [fst]. destruct (Hch en slave Hex eq_refl) as [k Hk].
    destruct (hrw_best_elem _ _ _ _ _ Hk) as [Hin _].
    destruct (Hch en' _ (existsb_elem en' _ _ Hin He) eq_refl) as [k' Hk'].
    apply (hrw_best_unique (bd_slaves bundle) en' h k' _ k); [done|].
    destruct Hk as (L & _ & M). split_and!; [done..|]. intros j s Hj Hs. by eapply M; [|apply Hsub].
  - intros flow2 H1 H2 Ht Ha. unfold wc' in *. destruct (Nat.ltb_spec 1 (length (bd_slaves bundle))).
    + rewrite <- (flow_hash_masked flow flow2 wc) by done. fold h.
      by rewrite (flow_mask_hash_fields_ext flow2 flow).
    + f_equal. unfold slave. destruct (bd_slaves bundle) as [|s [|]]; [done| |simpl in *; lia].
      simpl. by destruct (en s).
Qed.

Lemma bundle_execute_correct_witness :
  let b := OfpactBundle NX_BD_ALG_HRW NX_HASH_FIELDS_ETH_SRC 0 None [1; 2; 3] in
  let flow := upd F_dl_src 0x112233445566 (λ _, 0) in
  let slave := (bundle_execute b flow (λ _, 0) (λ _, true)).1 in
  slave ∈ [1; 2; 3]
  ∧ (bundle_execute b flow (λ _, 0) (λ s, s =? slave)).1 = slave.
Proof.
  intros b flow slave.
  pose proof (bundle_execute_correct b flow (λ _, 0) (λ _, true)) as H.
  destruct (bundle_execute b flow (λ _, 0) (λ _, true)) as [s wc'] eqn:E. destruct H as ([Hin _] & _ & Hen & _).
  split; [exact Hin|]. apply Hen; [apply Z.eqb_refl|done|done].
Defined.
