(* ===== verification/FlowLayout.v ===== *)
(** * The layout of a flow (lib/flow.h)

    [struct flow] as the classifier sees it, an array of 32-bit words, and as
    the rest of the code sees it, named members.  A host is little-endian and
    aligns 64-bit integers to 8 bytes; network byte order members and byte
    arrays have their most significant byte first.  Padding is zero, as
    [flow_extract] and [flow_wildcards_init_catchall] leave it, and so are the
    two bytes of [in_port] that an OpenFlow port number does not use.

    The two views carry the same bits: the theorems relate masks, comparison
    under a mask and the order of masks in one view to those in the other. *)
From S2P Require Import Prelude ByteOrder Bitwise Flow MatchFields MetaFlow OdpActions NxActions.

Inductive layout_entry := L_be (f : MatchFields.field) | L_le (f : MatchFields.field) | L_pad (n : nat).

Definition flow_layout : list layout_entry :=
  [L_be F_tun_id; L_be F_tun_src; L_be F_tun_dst; L_le F_tun_flags; L_be F_tun_tos; L_be F_tun_ttl; L_pad 4;
   L_be F_metadata; L_be F_ipv6_src; L_be F_ipv6_dst; L_be F_nd_target; L_le F_skb_priority]
  ++ ((λ i, L_le (F_reg i)) <$> seq 0 FLOW_N_REGS)
  ++ [L_be F_nw_src; L_be F_nw_dst; L_be F_ipv6_label; L_le F_in_port; L_pad 2; L_le F_pkt_mark; L_be F_mpls_lse;
      L_le F_mpls_depth; L_be F_vlan_tci; L_be F_dl_type; L_be F_tp_src; L_be F_tp_dst; L_be F_tcp_flags;
      L_be F_dl_src; L_be F_dl_dst; L_be F_nw_proto; L_be F_nw_tos; L_be F_arp_sha; L_be F_arp_tha;
      L_be F_nw_ttl; L_be F_nw_frag; L_pad 4].

Definition field_bytes (f : MatchFields.field) : nat := Z.to_nat (field_width f / 8).

Definition entry_len (e : layout_entry) : nat :=
  match e with L_be f | L_le f => field_bytes f | L_pad n => n end.

Definition entry_bytes (fl : flowf) (e : layout_entry) : list Z :=
  match e with
  | L_be f => be_bytes (field_bytes f) (fl f)
  | L_le f => reverse (be_bytes (field_bytes f) (fl f))
  | L_pad n => replicate n 0
  end.

Definition flow_bytes (l : list layout_entry) (fl : flowf) : list Z := l ≫= entry_bytes fl.

Definition word_bytes (w : Z) : list Z := reverse (be_bytes 4 w).

Fixpoint bytes_words (bs : list Z) : list Z :=
  match bs with
  | a :: b :: c :: d :: bs => get_be [d; c; b; a] :: bytes_words bs
  | _ => []
  end.

(** The words of a flow. *)
Definition flow_words (fl : flowf) : flow := bytes_words (flow_bytes flow_layout fl).

(** Where a field lies: its offset and entry. *)
Fixpoint find_entry (l : list layout_entry) (ofs : nat) (f : MatchFields.field) : option (nat * layout_entry) :=
  match l with
  | [] => None
  | e :: l =>
      match e with
      | L_be g | L_le g => if decide (g = f) then Some (ofs, e) else find_entry l (ofs + entry_len e) f
      | L_pad n => find_entry l (ofs + n) f
      end
  end.

Definition read_entry (bs : list Z) (p : nat * layout_entry) : Z :=
  let x := take (entry_len p.2) (drop p.1 bs) in
  match p.2 with L_be _ => get_be x | L_le _ => get_be (reverse x) | L_pad _ => 0 end.

(** The fields of an array of words.  A register that does not exist has the
    value it has in [rest]. *)
Definition words_flow (rest : flowf) (w : flow) : flowf := λ f,
  match find_entry flow_layout 0 f with
  | Some p => read_entry (w ≫= word_bytes) p
  | None => rest f
  end.

(** ** Bytes and bit operations *)

Lemma be_bytes_land n x y : be_bytes n (Z.land x y) = zip_with Z.land (be_bytes n x) (be_bytes n y).
Proof.
  induction n as [|n IH]; [done|]. simpl. rewrite IH, Z.shiftr_land. f_equal.
  apply Z.bits_inj'. intros i Hi. rewrite Z.land_spec, !(testbit_wrap 8), Z.land_spec by lia.
  by destruct (i <? 8).
Qed.

Lemma get_be_land l l' :
  length l = length l' → Forall is_u8 l → Forall is_u8 l' → get_be (zip_with Z.land l l') = Z.land (get_be l) (get_be l').
Proof.
  intros Hl H1 H2. revert l' Hl H2.
  induction H1 as [|b l Hb Hl' IH]; intros [|b' l2] Hlen H2; try done.
  apply Forall_cons in H2 as [Hb' H2]. injection Hlen as Hlen. cbn [zip_with].
  rewrite !get_be_cons, IH by done. rewrite length_zip_with_l_eq, Hlen by done.
  pose proof (get_be_width l Hl') as W1. pose proof (get_be_width l2 H2) as W2. rewrite Hlen in W1.
  apply Z.bits_inj'. intros i Hi. rewrite !Z.land_spec, !Z.lor_spec, !Z.shiftl_spec, !Z.land_spec by lia.
  destruct (decide (i < 8 * Z.of_nat (length l2))).
  - rewrite !(Z.testbit_neg_r _ (i - _)) by lia. done.
  - rewrite (testbit_high _ (get_be l) i W1), (testbit_high _ (get_be l2) i W2) by lia. by rewrite !orb_false_r.
Qed.

Lemma be_bytes_lor_high n m b x :
  (n ≤ m)%nat → be_bytes n (Z.lor (Z.shiftl b (8 * Z.of_nat m)) x) = be_bytes n x.
Proof.
  induction n as [|n IH]; intros Hn; [done|]. cbn [be_bytes]. rewrite IH by lia. f_equal.
  apply Z.bits_inj'. intros i Hi. rewrite !(testbit_wrap 8), !Z.shiftr_spec, Z.lor_spec, Z.shiftl_spec by lia.
  destruct (Z.ltb_spec i 8); [|done]. by rewrite (Z.testbit_neg_r b) by lia.
Qed.

Lemma be_bytes_get_be l : Forall is_u8 l → be_bytes (length l) (get_be l) = l.
Proof.
  induction 1 as [|b l Hb Hl IH]; [done|]. cbn [length be_bytes]. pose proof (get_be_width l Hl) as W.
  rewrite get_be_cons. f_equal.
  - rewrite Z.shiftr_lor, Z.shiftr_shiftl_l, Z.sub_diag, Z.shiftl_0_r by lia.
    rewrite (Z.shiftr_div_pow2 (get_be l)), Z.div_small, Z.lor_0_r by (lia || done). by apply wrap_id.
  - rewrite be_bytes_lor_high by done. exact IH.
Qed.

Lemma zip_with_reverse_eq {A B C} (f : A → B → C) l l' :
  length l = length l' → reverse (zip_with f l l') = zip_with f (reverse l) (reverse l').
Proof.
  revert l'. induction l as [|x l IH]; intros [|y l'] H; try done. injection H as H. cbn [zip_with].
  rewrite !reverse_cons, IH by done. rewrite zip_with_app by (by rewrite !length_reverse). done.
Qed.

Lemma word_bytes_land x y : word_bytes (Z.land x y) = zip_with Z.land (word_bytes x) (word_bytes y).
Proof. unfold word_bytes. by rewrite be_bytes_land, zip_with_reverse_eq by (by rewrite !length_be_bytes). Qed.

Lemma word_bytes_u8 w : Forall is_u8 (word_bytes w).
Proof. apply Forall_reverse, be_bytes_u8. Qed.

Lemma length_word_bytes w : length (word_bytes w) = 4%nat.
Proof. done. Qed.

Lemma length_words_bytes w : length (w ≫= word_bytes) = (4 * length w)%nat.
Proof. induction w as [|x w IH]; [done|]. rewrite bind_cons, length_app, IH, length_word_bytes. simpl. lia. Qed.

Lemma words_bytes_u8 w : Forall is_u8 (w ≫= word_bytes).
Proof. induction w as [|x w IH]; [constructor|]. rewrite bind_cons. apply Forall_app. split; [apply word_bytes_u8|done]. Qed.

Lemma words_bytes_land a b :
  length a = length b → zip_with Z.land a b ≫= word_bytes = zip_with Z.land (a ≫= word_bytes) (b ≫= word_bytes).
Proof.
  revert b. induction a as [|x a IH]; intros [|y b] H; try done. injection H as H. cbn [zip_with].
  rewrite !bind_cons, zip_with_app by done. rewrite word_bytes_land. f_equal. by apply IH.
Qed.

(** ** Words and bytes *)

Ltac u8s := repeat (apply Forall_cons_2; [done|]); apply Forall_nil_2.

Lemma bytes_words_bytes w : bytes_words (w ≫= word_bytes) = u32 <$> w.
Proof.
  induction w as [|x w IH]; [done|]. rewrite bind_cons, fmap_cons.
  change (word_bytes x) with [nth 3 (be_bytes 4 x) 0; nth 2 (be_bytes 4 x) 0; nth 1 (be_bytes 4 x) 0; nth 0 (be_bytes 4 x) 0].
  cbn [app bytes_words]. rewrite IH. f_equal. apply (get_be_bytes 4 x).
Qed.

Lemma words_bytes_words k bs :
  length bs = (4 * k)%nat → Forall is_u8 bs → bytes_words bs ≫= word_bytes = bs ∧ length (bytes_words bs) = k.
Proof.
  revert bs. induction k as [|k IH]; intros bs Hl Hb; [by destruct bs|].
  do 4 (destruct bs as [|? bs]; [simpl in Hl; lia|]).
  do 4 (apply Forall_cons in Hb as [? Hb]). destruct (IH bs) as [IH1 IH2]; [simpl in Hl; lia|done|].
  cbn [bytes_words]. rewrite bind_cons, IH1. cbn [length]. rewrite IH2. split; [|done].
  unfold word_bytes. change 4%nat with (length [z2; z1; z0; z]). rewrite be_bytes_get_be; [done|]. u8s.
Qed.

Lemma bytes_words_land k a b :
  length a = (4 * k)%nat → length b = (4 * k)%nat → Forall is_u8 a → Forall is_u8 b →
  bytes_words (zip_with Z.land a b) = zip_with Z.land (bytes_words a) (bytes_words b).
Proof.
  revert a b. induction k as [|k IH]; intros a b Ha Hb Fa Fb; [by destruct a, b|].
  do 4 (destruct a as [|? a]; [simpl in Ha; lia|]). do 4 (destruct b as [|? b]; [simpl in Hb; lia|]).
  do 4 (apply Forall_cons in Fa as [? Fa]; apply Forall_cons in Fb as [? Fb]).
  cbn [zip_with bytes_words]. rewrite IH by (simpl in *; lia || done). f_equal.
  apply (get_be_land [_; _; _; _] [_; _; _; _]); [done|u8s|u8s].
Qed.

(** ** The layout *)

Definition layout_len (l : list layout_entry) : nat := sum_list (entry_len <$> l).

Definition entry_field (e : layout_entry) : option MatchFields.field :=
  match e with L_be f | L_le f => Some f | L_pad _ => None end.

Lemma flow_layout_len : layout_len flow_layout = (4 * FLOW_U32S)%nat.
Proof. done. Qed.

Lemma flow_layout_fields : NoDup (omap entry_field flow_layout).
Proof. apply (bool_decide_unpack _). by vm_compute. Qed.

Lemma length_entry_bytes fl e : length (entry_bytes fl e) = entry_len e.
Proof. destruct e; simpl; [apply length_be_bytes|by rewrite length_reverse, length_be_bytes|apply length_replicate]. Qed.

Lemma entry_bytes_u8 fl e : Forall is_u8 (entry_bytes fl e).
Proof.
  destruct e; simpl; [apply be_bytes_u8|apply Forall_reverse, be_bytes_u8|].
  by apply Forall_replicate.
Qed.

Lemma length_flow_bytes l fl : length (flow_bytes l fl) = layout_len l.
Proof.
  unfold flow_bytes, layout_len. induction l as [|e l IH]; [done|].
  rewrite bind_cons, length_app, IH, length_entry_bytes. done.
Qed.

Lemma flow_bytes_u8 l fl : Forall is_u8 (flow_bytes l fl).
Proof.
  unfold flow_bytes. induction l as [|e l IH]; [constructor|]. rewrite bind_cons. apply Forall_app.
  split; [apply entry_bytes_u8|done].
Qed.

Lemma find_entry_ge l k f p : find_entry l k f = Some p → entry_field p.2 = Some f ∧ (k ≤ p.1)%nat.
Proof.
  revert k. induction l as [|e l IH]; intros k; [done|]. simpl. destruct e as [g|g|n].
  1,2: destruct (decide (g = f)) as [->|]; [intros [= <-]; done|intros H; apply IH in H; simpl in H; naive_solver lia].
  intros H. apply IH in H. naive_solver lia.
Qed.

Lemma find_entry_in l k f p : find_entry l k f = Some p → f ∈ omap entry_field l.
Proof.
  revert k. induction l as [|e l IH]; intros k; [done|]. simpl. destruct e as [g|g|n].
  1,2: destruct (decide (g = f)) as [->|]; [left|intros H; right; by eapply IH].
  apply IH.
Qed.

(** The bytes of a field. *)
Lemma flow_bytes_slice l k fl f p :
  find_entry l k f = Some p →
  take (entry_len p.2) (drop (p.1 - k) (flow_bytes l fl)) = entry_bytes fl p.2.
Proof.
  revert k. induction l as [|e l IH]; intros k Hp; [done|]. unfold flow_bytes. rewrite bind_cons.
  assert (Hnext : find_entry l (k + entry_len e) f = Some p →
    take (entry_len p.2) (drop (p.1 - k) (entry_bytes fl e ++ (l ≫= entry_bytes fl))) = entry_bytes fl p.2).
  { intros H. pose proof (find_entry_ge _ _ _ _ H) as [_ Hge]. rewrite drop_app_ge by (rewrite length_entry_bytes; lia).
    rewrite length_entry_bytes, <- (IH _ H). unfold flow_bytes. do 2 f_equal. lia. }
  simpl in Hp. destruct e as [g|g|n]; [| |by apply Hnext].
  all: destruct (decide (g = f)); [injection Hp as <-; simpl; rewrite Nat.sub_diag, drop_0|by apply Hnext].
  all: apply take_app_length'; by rewrite ?length_reverse, length_be_bytes.
Qed.

(** Masking in one view is masking in the other. *)
Lemma flow_bytes_land l k fl rd B :
  NoDup (omap entry_field l) → (∀ f p, find_entry l k f = Some p → rd f = read_entry B p) →
  Forall is_u8 B → (k + layout_len l ≤ length B)%nat →
  flow_bytes l (λ f, Z.land (fl f) (rd f)) = zip_with Z.land (flow_bytes l fl) (take (layout_len l) (drop k B)).
Proof.
  revert k. induction l as [|e l IH]; intros k Hn Hrd HB Hlen; [done|]. unfold flow_bytes. rewrite !bind_cons.
  change (layout_len (e :: l)) with (entry_len e + layout_len l)%nat in *.
  assert (Hl : length (entry_bytes fl e) = length (take (entry_len e) (drop k B))).
  { rewrite length_entry_bytes, length_take, length_drop. lia. }
  rewrite <- (take_take_drop (drop k B) (entry_len e)), drop_drop, zip_with_app by done. f_equal.
  - set (x := take (entry_len e) (drop k B)) in *. assert (Fx : Forall is_u8 x) by (by apply Forall_take, Forall_drop).
    rewrite length_entry_bytes in Hl. destruct e as [f|f|n]; simpl in Hl.
    + assert (Hf : rd f = get_be x) by (rewrite (Hrd f (k, L_be f)); [done|simpl; by rewrite decide_True]).
      clearbody x. simpl. rewrite Hf, be_bytes_land. f_equal. rewrite Hl. by apply be_bytes_get_be.
    + assert (Hf : rd f = get_be (reverse x)) by (rewrite (Hrd f (k, L_le f)); [done|simpl; by rewrite decide_True]).
      clearbody x. simpl. rewrite Hf, be_bytes_land, zip_with_reverse_eq by (by rewrite !length_be_bytes). f_equal.
      rewrite Hl, <- (length_reverse x), be_bytes_get_be by (by apply Forall_reverse). apply reverse_involutive.
    + clearbody x. simpl. rewrite Hl. clear. induction x as [|b x IH]; [done|]. simpl. by rewrite <- IH.
  - apply IH; [| |done|lia].
    + destruct e; simpl in Hn; [by apply NoDup_cons in Hn as [_ Hn]..|done].
    + intros f p Hp. apply Hrd. simpl. assert (Hin : f ∈ omap entry_field l) by (by eapply find_entry_in).
      destruct e as [g|g|n]; simpl in Hn |- *; [| |exact Hp].
      all: apply NoDup_cons in Hn as [Hn _]; rewrite decide_False by (by intros ->); exact Hp.
Qed.

Lemma flow_words_bytes fl : flow_words fl ≫= word_bytes = flow_bytes flow_layout fl ∧ length (flow_words fl) = FLOW_U32S.
Proof. apply words_bytes_words; [by rewrite length_flow_bytes|apply flow_bytes_u8]. Qed.

Definition real_field (f : MatchFields.field) : bool := bool_decide (is_Some (find_entry flow_layout 0 f)).

Lemma real_field_reg f : real_field f = match f with F_reg i => (i <? FLOW_N_REGS)%nat | _ => true end.
Proof.
  destruct f as [| | | | | | | | | | |i| | | | | | | | | | | | | | | | | | | |]; try (by vm_compute).
  destruct (Nat.ltb_spec i FLOW_N_REGS).
  - unfold FLOW_N_REGS in *. do 16 (destruct i as [|i]; [by vm_compute|]). lia.
  - unfold FLOW_N_REGS in *. do 16 (destruct i as [|i]; [lia|]). by vm_compute.
Qed.

Lemma field_bytes_width f : field_width f = 8 * Z.of_nat (field_bytes f).
Proof. by destruct f. Qed.

(** Reading back the words of a flow. *)
Lemma words_flow_words rest fl f : flow_ok fl → real_field f = true → words_flow rest (flow_words fl) f = fl f.
Proof.
  intros Hfl [p Hp]%bool_decide_eq_true. unfold words_flow. rewrite Hp. destruct (flow_words_bytes fl) as [-> _].
  unfold read_entry. pose proof (flow_bytes_slice flow_layout 0 fl f p Hp) as Hs. rewrite Nat.sub_0_r in Hs. rewrite Hs.
  destruct (find_entry_ge _ _ _ _ Hp) as [Hf _]. destruct p as [ofs e]; simpl in *.
  destruct e; simpl in *; simplify_eq; rewrite ?reverse_involutive; (eapply get_be_id; [apply field_bytes_width|apply Hfl]).
Qed.

Lemma words_flow_width rest w f : flow_ok rest → in_width (field_width f) (words_flow rest w f).
Proof.
  intros Hr. unfold words_flow. destruct (find_entry flow_layout 0 f) as [p|] eqn:Hp; [|apply Hr].
  destruct (find_entry_ge _ _ _ _ Hp) as [Hf _]. unfold read_entry.
  set (x := take (entry_len p.2) (drop p.1 (w ≫= word_bytes))).
  assert (Fx : Forall is_u8 x) by (apply Forall_take, Forall_drop, words_bytes_u8).
  assert (Hx : (length x ≤ entry_len p.2)%nat) by (unfold x; rewrite length_take; lia). clearbody x.
  destruct p as [ofs e]; simpl in *. destruct e; simpl in *; simplify_eq; rewrite field_bytes_width.
  - eapply in_width_mono; [|by apply get_be_width]. lia.
  - eapply in_width_mono; [|by apply get_be_width, Forall_reverse]. rewrite length_reverse. lia.
Qed.

(** Masking in words. *)
Lemma land_u32_r x y : is_u32 x → Z.land x (u32 y) = Z.land x y.
Proof.
  intros Hx. apply Z.bits_inj'. intros i Hi. rewrite !Z.land_spec, (testbit_wrap 32) by lia.
  destruct (Z.ltb_spec i 32); [done|]. by rewrite (testbit_high 32 x i Hx) by lia.
Qed.

Lemma bytes_words_u32 k bs : length bs = (4 * k)%nat → Forall is_u8 bs → Forall is_u32 (bytes_words bs).
Proof.
  revert bs. induction k as [|k IH]; intros bs Hl Hb; [by destruct bs|].
  do 4 (destruct bs as [|? bs]; [simpl in Hl; lia|]). do 4 (apply Forall_cons in Hb as [? Hb]).
  cbn [bytes_words]. constructor; [apply (get_be_width [_; _; _; _]); u8s|]. apply IH; [simpl in Hl; lia|done].
Qed.

Lemma flow_words_wf fl : flow_wf (flow_words fl).
Proof.
  split; [apply flow_words_bytes|]. apply (bytes_words_u32 FLOW_U32S); [by rewrite length_flow_bytes|apply flow_bytes_u8].
Qed.

Lemma flow_words_land rest fl w :
  length w = FLOW_U32S →
  flow_words (λ f, Z.land (fl f) (words_flow rest w f)) = zip_with Z.land (flow_words fl) w.
Proof.
  intros Hw. assert (Hlen : length (w ≫= word_bytes) = (4 * FLOW_U32S)%nat) by (by rewrite length_words_bytes, Hw).
  unfold flow_words at 1. rewrite (flow_bytes_land flow_layout 0 _ _ (w ≫= word_bytes)).
  - rewrite flow_layout_len, drop_0, <- Hlen, firstn_all.
    rewrite (bytes_words_land FLOW_U32S), bytes_words_bytes
      by (rewrite ?length_flow_bytes; done || apply flow_bytes_u8 || apply words_bytes_u8).
    fold (flow_words fl). destruct (flow_words_wf fl) as [Hl Hu]. rewrite <- Hl in Hw. clear Hl Hlen.
    revert w Hw. induction Hu as [|x l Hx _ IH]; intros [|y w] Hw; try done. injection Hw as Hw.
    cbn [fmap list_fmap zip_with]. rewrite land_u32_r by done. f_equal. by apply IH.
  - apply flow_layout_fields.
  - intros f p Hp. unfold words_flow. by rewrite Hp.
  - apply words_bytes_u8.
  - rewrite Hlen. done.
Qed.

Lemma flow_bytes_ext l k fl fl' :
  NoDup (omap entry_field l) → (∀ f, is_Some (find_entry l k f) → fl f = fl' f) → flow_bytes l fl = flow_bytes l fl'.
Proof.
  revert k. induction l as [|e l IH]; intros k Hn Hf; [done|]. unfold flow_bytes. rewrite !bind_cons. f_equal.
  - destruct e as [f|f|n]; [..|done]; simpl; rewrite (Hf f); try done; simpl; rewrite decide_True by done; by eexists.
  - apply (IH (k + entry_len e)%nat).
    + destruct e; simpl in Hn; [by apply NoDup_cons in Hn as [_ Hn]..|done].
    + intros f [p Hp]. apply Hf. simpl. pose proof (find_entry_in _ _ _ _ Hp) as Hin.
      destruct e as [g|g|n]; simpl in Hn |- *; [| |by eexists].
      all: apply NoDup_cons in Hn as [Hn _]; rewrite decide_False by (by intros ->); by eexists.
Qed.

Lemma flow_words_ext fl fl' : (∀ f, real_field f = true → fl f = fl' f) → flow_words fl = flow_words fl'.
Proof.
  intros H. unfold flow_words. f_equal. apply (flow_bytes_ext _ 0); [apply flow_layout_fields|].
  intros f Hf. apply H. by apply bool_decide_eq_true.
Qed.

(** ** The two views of a mask *)

Lemma zip_with_land_agree a b w :
  length a = length w → length b = length w → zip_with Z.land a w = zip_with Z.land b w →
  Flow.agree (flow_u32 w) (flow_u32 a) (flow_u32 b).
Proof.
  intros Ha Hb He o Ho. unfold flow_u32. apply (f_equal (lookup (Z.to_nat o))) in He. rewrite !lookup_zip_with in He.
  destruct (w !! Z.to_nat o) as [z|] eqn:Ew.
  - pose proof (lookup_lt_Some _ _ _ Ew). destruct (lookup_lt_is_Some_2 a (Z.to_nat o)) as [x Ex]; [lia|].
    destruct (lookup_lt_is_Some_2 b (Z.to_nat o)) as [y Ey]; [lia|]. rewrite Ex, Ey in He |- *. simpl in *. by simplify_eq.
  - apply lookup_ge_None in Ew. rewrite (lookup_ge_None_2 a), (lookup_ge_None_2 b) by lia. done.
Qed.

Lemma agree_zip_with_land a b w :
  length a = FLOW_U32S → length b = FLOW_U32S → length w = FLOW_U32S →
  Flow.agree (flow_u32 w) (flow_u32 a) (flow_u32 b) → zip_with Z.land a w = zip_with Z.land b w.
Proof.
  intros Ha Hb Hw H. apply (list_eq_same_length _ _ FLOW_U32S); [by rewrite length_zip_with, Hb, Hw|by rewrite length_zip_with, Ha, Hw|].
  intros i x y Hi Hx Hy. apply lookup_zip_with_Some in Hx as (x1 & w1 & -> & E1 & E2).
  apply lookup_zip_with_Some in Hy as (y1 & w2 & -> & E3 & E4). rewrite E2 in E4. injection E4 as <-.
  unfold FLOW_U32S in Hi. specialize (H (Z.of_nat i) ltac:(lia)). unfold flow_u32 in H. by rewrite Nat2Z.id, E1, E2, E3 in H.
Qed.

Lemma flow_words_inj fl fl' f :
  flow_ok fl → flow_ok fl' → flow_words fl = flow_words fl' → real_field f = true → fl f = fl' f.
Proof. intros H1 H2 He Hf. by rewrite <- (words_flow_words fl fl f H1 Hf), <- (words_flow_words fl fl' f H2 Hf), He. Qed.

Lemma land_flow_ok fl wc : flow_ok fl → flow_ok (λ f, Z.land (fl f) (wc f)).
Proof. intros H f. apply land_in_width; [pose proof (field_width_pos f); lia|apply H]. Qed.

(** Masking with a mask given by its fields. *)
Lemma flow_words_mask fl wc :
  flow_ok wc → zip_with Z.land (flow_words fl) (flow_words wc) = flow_words (λ f, Z.land (fl f) (wc f)).
Proof.
  intros Hw. rewrite <- (flow_words_land wc) by apply flow_words_wf. apply flow_words_ext. intros f Hf.
  by rewrite words_flow_words.
Qed.

(** Flows that agree under a mask in one view do so in the other. *)
Lemma agree_words rest fl fl' w :
  length w = FLOW_U32S → NxActions.agree (words_flow rest w) fl fl' →
  flow_equal_except (flow_words fl) (flow_words fl') w = true.
Proof.
  intros Hw Ha. apply flow_equal_except_spec; [apply flow_words_wf..|done|].
  apply zip_with_land_agree; [by rewrite Hw; apply flow_words_wf..|].
  rewrite <- !(flow_words_land rest) by done. apply flow_words_ext. intros f _. apply Ha.
Qed.

(** A mask that contains another in one view does so in the other. *)
Lemma words_flow_grows wc w :
  length w = FLOW_U32S → flow_wildcards_has_extra w (flow_words wc) = false → wc_grows wc (words_flow wc w).
Proof.
  intros Hw He Hok. split; [intros f; by apply words_flow_width|].
  assert (Hz : zip_with Z.land (flow_words wc) w = flow_words wc).
  { destruct (flow_words_wf wc) as [Hl _]. apply (list_eq_same_length _ _ FLOW_U32S); [done|by rewrite length_zip_with_l_eq; lia|].
    intros i x y Hi Hx Hy. rewrite lookup_zip_with, Hy in Hx. simpl in Hx.
    destruct (w !! i) as [z|] eqn:Ez; [|done]. simpl in Hx. injection Hx as <-.
    destruct (decide (Z.land z y = y)) as [E|E]; [by rewrite Z.land_comm|]. exfalso. apply not_true_iff_false in He.
    apply He, flow_wildcards_has_extra_spec; [done..|]. exists (Z.of_nat i). unfold flow_u32, FLOW_U32S in *.
    split; [lia|]. by rewrite Nat2Z.id, Hy, Ez. }
  intros f. destruct (real_field f) eqn:Hf.
  - rewrite <- (flow_words_land wc) in Hz by done. apply (f_equal (λ w, words_flow wc w f)) in Hz.
    rewrite !words_flow_words in Hz by (done || by apply land_flow_ok).
    done.
  - unfold words_flow. unfold real_field in Hf. apply bool_decide_eq_false, eq_None_not_Some in Hf. rewrite Hf.
    apply Z.land_diag.
Qed.
