(* ===== verification/Packets.v ===== *)
(** * Packets (lib/packets.c, lib/flow.c, lib/odp-execute.c, lib/ofpbuf.c)

    A packet is its bytes and the markers l2, l2_5, l3, l4 and l7 of struct
    ofpbuf, as offsets from the first byte; taking bytes from or adding them
    to the front moves the markers along.  [None] is an access outside of the
    packet, a null pointer or a failed assertion. *)
From S2P Require Import Prelude ByteOrder Hash MatchFields MetaFlow OdpActions Csum.

(** ** Bytes *)

(** A big-endian value of [len] bytes, read or written. *)
Definition rd (ofs len : nat) (d : list Z) : option Z :=
  if (ofs + len <=? length d)%nat then Some (get_be (take len (drop ofs d))) else None.

Definition wr (ofs len : nat) (v : Z) (d : list Z) : option (list Z) :=
  if (ofs + len <=? length d)%nat then Some (take ofs d ++ be_bytes len v ++ drop (ofs + len) d) else None.

Record ofpbuf := Ofpbuf {
  ob_data : list Z;
  ob_l2 : option Z;
  ob_l2_5 : option Z;
  ob_l3 : option Z;
  ob_l4 : option Z;
  ob_l7 : option Z
}.

(** ** Parsing (lib/flow.c) *)

(** The bytes taken, and the rest. *)
Definition ofpbuf_pull (size : nat) (b : list Z) : option (list Z * list Z) :=
  if (size <=? length b)%nat then Some (take size b, drop size b) else None.

(** The inner option is the null pointer. *)
Definition ofpbuf_try_pull (size : nat) (b : list Z) : option (list Z * list Z) :=
  if (size <=? length b)%nat then Some (take size b, drop size b) else None.

Definition ETH_TYPE_MIN : Z := 0x600.
Definition FLOW_DL_TYPE_NONE : Z := 0x5ff.
Definition FLOW_NW_FRAG_LATER : Z := 2.
Definition IPPROTO_HOPOPTS : Z := 0.
Definition IPPROTO_ROUTING : Z := 43.
Definition IPPROTO_FRAGMENT : Z := 44.
Definition IPPROTO_AH : Z := 51.
Definition IPPROTO_NONE : Z := 59.
Definition IPPROTO_DSTOPTS : Z := 60.
Definition ND_OPT_SOURCE_LINKADDR : Z := 1.
Definition ND_OPT_TARGET_LINKADDR : Z := 2.
Definition IP_MORE_FRAGMENTS : Z := 0x2000.
Definition IP_FRAG_OFF_MASK : Z := 0x1fff.
Definition IP6F_OFF_MASK : Z := 0xfff8.

Definition pull_ip (b : list Z) : option (option (list Z * list Z)) :=
  if (20 <=? length b)%nat then
    ihl_ver ← rd 0 1 b;
    let ip_len := (Z.to_nat (Z.land ihl_ver 15) * 4)%nat in
    if ((20 <=? ip_len) && (ip_len <=? length b))%nat then Some <$> ofpbuf_pull ip_len b else Some None
  else Some None.

Definition pull_tcp (b : list Z) : option (option (list Z * list Z)) :=
  if (20 <=? length b)%nat then
    tcp_ctl ← rd 12 2 b;
    let tcp_len := (Z.to_nat (Z.shiftr tcp_ctl 12) * 4)%nat in
    if ((20 <=? tcp_len) && (tcp_len <=? length b))%nat then Some <$> ofpbuf_pull tcp_len b else Some None
  else Some None.

(** Every round takes four bytes. *)
Fixpoint parse_mpls_loop (fuel : nat) (b : list Z) (fl : flowf) : option (list Z * flowf) :=
  match ofpbuf_try_pull 4 b with
  | None => Some (b, fl)
  | Some (mh, b) =>
      match fuel with
      | O => None
      | S fuel =>
          lse ← rd 0 4 mh;
          let fl' := if fl F_mpls_depth =? 0 then upd F_mpls_lse lse fl else fl in
          let fl' := upd F_mpls_depth (u16 (fl F_mpls_depth + 1)) fl' in
          if negb (Z.land lse MPLS_BOS_MASK =? 0) then Some (b, fl') else parse_mpls_loop fuel b fl'
      end
  end.
Definition parse_mpls (b : list Z) (fl : flowf) : option (list Z * flowf) := parse_mpls_loop (length b) b fl.

Definition parse_vlan (b : list Z) (fl : flowf) : option (list Z * flowf) :=
  if (6 <=? length b)%nat then
    '(qp, b) ← ofpbuf_pull 4 b;
    tci ← rd 2 2 qp;
    Some (b, upd F_vlan_tci (Z.lor tci VLAN_CFI) fl)
  else Some (b, fl).

Definition parse_ethertype (b : list Z) : option (Z * list Z) :=
  '(h, b) ← ofpbuf_pull 2 b;
  proto ← rd 0 2 h;
  if ETH_TYPE_MIN <=? proto then Some (proto, b)
  else if (length b <? 8)%nat then Some (FLOW_DL_TYPE_NONE, b)
  else
    llc ← rd 0 3 b;
    snap_org ← rd 3 3 b;
    if negb (llc =? 0xaaaa03) || negb (snap_org =? 0) then Some (FLOW_DL_TYPE_NONE, b)
    else
      snap_type ← rd 6 2 b;
      '(_, b) ← ofpbuf_pull 8 b;
      if ETH_TYPE_MIN <=? snap_type then Some (snap_type, b) else Some (FLOW_DL_TYPE_NONE, b).

Definition ipv6_extension (nexthdr : Z) : bool :=
  existsb (λ n, nexthdr =? n) [IPPROTO_HOPOPTS; IPPROTO_ROUTING; IPPROTO_DSTOPTS; IPPROTO_AH; IPPROTO_FRAGMENT].

(** The last next header, or [None] for EINVAL.  Every round takes eight bytes
    at least. *)
Fixpoint parse_ipv6_loop (fuel : nat) (nexthdr : Z) (b : list Z) (fl : flowf) : option (option Z * list Z * flowf) :=
  if negb (ipv6_extension nexthdr) then Some (Some nexthdr, b, fl)
  else if (length b <? 8)%nat then Some (None, b, fl)
  else
    match fuel with
    | O => None
    | S fuel =>
        if (nexthdr =? IPPROTO_HOPOPTS) || (nexthdr =? IPPROTO_ROUTING) || (nexthdr =? IPPROTO_DSTOPTS) then
          nxt ← rd 0 1 b;
          len ← rd 1 1 b;
          match ofpbuf_try_pull (Z.to_nat ((len + 1) * 8)) b with
          | None => Some (None, b, fl)
          | Some (_, b) => parse_ipv6_loop fuel nxt b fl
          end
        else if nexthdr =? IPPROTO_AH then
          nxt ← rd 0 1 b;
          len ← rd 1 1 b;
          match ofpbuf_try_pull (Z.to_nat ((len + 2) * 4)) b with
          | None => Some (None, b, fl)
          | Some (_, b) => parse_ipv6_loop fuel nxt b fl
          end
        else
          nxt ← rd 0 1 b;
          offlg ← rd 2 2 b;
          match ofpbuf_try_pull 8 b with
          | None => Some (None, b, fl)
          | Some (_, b) =>
              if negb (offlg =? 0) then
                let fl := upd F_nw_frag FLOW_NW_FRAG_ANY fl in
                if negb (Z.land offlg IP6F_OFF_MASK =? 0) then
                  Some (Some IPPROTO_FRAGMENT, b, upd F_nw_frag (Z.lor FLOW_NW_FRAG_ANY FLOW_NW_FRAG_LATER) fl)
                else parse_ipv6_loop fuel nxt b fl
              else parse_ipv6_loop fuel nxt b fl
          end
    end.

(** With [true] for success. *)
Definition parse_ipv6 (b : list Z) (fl : flowf) : option (bool * list Z * flowf) :=
  match ofpbuf_try_pull 40 b with
  | None => Some (false, b, fl)
  | Some (nh, b) =>
      nexthdr ← rd 6 1 nh;
      src ← rd 8 16 nh;
      dst ← rd 24 16 nh;
      tc_flow ← rd 0 4 nh;
      hlim ← rd 7 1 nh;
      let fl := set_fields [(F_ipv6_src, src); (F_ipv6_dst, dst); (F_nw_tos, u8 (Z.shiftr tc_flow 20));
                            (F_ipv6_label, Z.land tc_flow IPV6_LABEL_MASK); (F_nw_ttl, hlim); (F_nw_proto, IPPROTO_NONE)] fl in
      '(nexthdr, b, fl) ← parse_ipv6_loop (length b) nexthdr b fl;
      match nexthdr with
      | None => Some (false, b, fl)
      | Some nexthdr => Some (true, b, upd F_nw_proto nexthdr fl)
      end
  end.

(** The rest is null when the header is not complete. *)
Definition parse_tcp (b : list Z) (fl : flowf) : option (option (list Z) * flowf) :=
  tcp ← pull_tcp b;
  match tcp with
  | None => Some (None, fl)
  | Some (tcp, b) =>
      src ← rd 0 2 tcp;
      dst ← rd 2 2 tcp;
      ctl ← rd 12 2 tcp;
      Some (Some b, set_fields [(F_tp_src, src); (F_tp_dst, dst); (F_tcp_flags, Z.land ctl 0x0fff)] fl)
  end.

Definition parse_udp (b : list Z) (fl : flowf) : option (option (list Z) * flowf) :=
  match ofpbuf_try_pull 8 b with
  | None => Some (None, fl)
  | Some (udp, b) =>
      src ← rd 0 2 udp;
      dst ← rd 2 2 udp;
      Some (Some b, set_fields [(F_tp_src, src); (F_tp_dst, dst)] fl)
  end.

Definition parse_sctp (b : list Z) (fl : flowf) : option (option (list Z) * flowf) :=
  match ofpbuf_try_pull 12 b with
  | None => Some (None, fl)
  | Some (sctp, b) =>
      src ← rd 0 2 sctp;
      dst ← rd 2 2 sctp;
      Some (Some b, set_fields [(F_tp_src, src); (F_tp_dst, dst)] fl)
  end.

(** One of the link-layer address options; [None] for an invalid one. *)
Definition nd_set_lladdr (f : field) (b : list Z) (fl : flowf) : option (option flowf) :=
  if fl f =? 0 then addr ← rd 2 6 b; Some (Some (upd f addr fl)) else Some None.

(** Every round takes eight bytes at least. *)
Fixpoint nd_options (fuel : nat) (b : list Z) (fl : flowf) : option (option (list Z * flowf)) :=
  if (length b <? 8)%nat then Some (Some (b, fl))
  else
    match fuel with
    | O => None
    | S fuel =>
        opt_type ← rd 0 1 b;
        opt_len ← rd 1 1 b;
        let opt_len := (Z.to_nat opt_len * 8)%nat in
        if (opt_len =? 0)%nat || (length b <? opt_len)%nat then Some None
        else
          fl' ← (if (opt_type =? ND_OPT_SOURCE_LINKADDR) && (opt_len =? 8)%nat then nd_set_lladdr F_arp_sha b fl
                 else if (opt_type =? ND_OPT_TARGET_LINKADDR) && (opt_len =? 8)%nat then nd_set_lladdr F_arp_tha b fl
                 else Some (Some fl));
          match fl' with
          | None => Some None
          | Some fl =>
              match ofpbuf_try_pull opt_len b with
              | None => Some None
              | Some (_, b) => nd_options fuel b fl
              end
          end
    end.

(** The rest, or null for false. *)
Definition parse_icmpv6 (b : list Z) (fl : flowf) : option (option (list Z) * flowf) :=
  match ofpbuf_try_pull 8 b with
  | None => Some (None, fl)
  | Some (icmp, b) =>
      type ← rd 0 1 icmp;
      code ← rd 1 1 icmp;
      let fl := set_fields [(F_tp_src, type); (F_tp_dst, code)] fl in
      if (code =? 0) && ((type =? ND_NEIGHBOR_SOLICIT) || (type =? ND_NEIGHBOR_ADVERT)) then
        match ofpbuf_try_pull 16 b with
        | None => Some (None, fl)
        | Some (nd_target, b) =>
            target ← rd 0 16 nd_target;
            let fl := upd F_nd_target target fl in
            r ← nd_options (length b) b fl;
            match r with
            | Some (b, fl) => Some (Some b, fl)
            | None => (* invalid *)
                Some (None, set_fields [(F_nd_target, 0); (F_arp_sha, 0); (F_arp_tha, 0)] fl)
            end
        end
      else Some (Some b, fl)
  end.

Definition parse_icmp (b : list Z) (fl : flowf) : option (option (list Z) * flowf) :=
  match ofpbuf_try_pull 8 b with
  | None => Some (None, fl)
  | Some (icmp, b) =>
      type ← rd 0 1 icmp;
      code ← rd 1 1 icmp;
      Some (Some b, set_fields [(F_tp_src, type); (F_tp_dst, code)] fl)
  end.

(** The rest after the IP header, the rest after the transport header, and the
    flow. *)
Definition parse_l3_ip (b : list Z) (fl : flowf) : option (option (list Z) * option (list Z) * flowf) :=
  ip ← pull_ip b;
  match ip with
  | None => Some (None, None, fl)
  | Some (nh, b) =>
      src ← rd 12 4 nh;
      dst ← rd 16 4 nh;
      proto ← rd 9 1 nh;
      tos ← rd 1 1 nh;
      frag_off ← rd 6 2 nh;
      ttl ← rd 8 1 nh;
      let frag :=
        if negb (Z.land frag_off (Z.lor IP_MORE_FRAGMENTS IP_FRAG_OFF_MASK) =? 0) then
          if negb (Z.land frag_off IP_FRAG_OFF_MASK =? 0) then Z.lor FLOW_NW_FRAG_ANY FLOW_NW_FRAG_LATER else FLOW_NW_FRAG_ANY
        else fl F_nw_frag in
      let fl := set_fields [(F_nw_src, src); (F_nw_dst, dst); (F_nw_proto, proto); (F_nw_tos, tos); (F_nw_frag, frag);
                            (F_nw_ttl, ttl)] fl in
      if Z.land frag_off IP_FRAG_OFF_MASK =? 0 then
        '(l7, fl) ← (if proto =? IPPROTO_TCP then parse_tcp b fl
                     else if proto =? IPPROTO_UDP then parse_udp b fl
                     else if proto =? IPPROTO_SCTP then parse_sctp b fl
                     else if proto =? IPPROTO_ICMP then parse_icmp b fl
                     else Some (None, fl));
        Some (Some b, l7, fl)
      else Some (Some b, None, fl)
  end.

Definition parse_l3_ipv6 (b : list Z) (fl : flowf) : option (option (list Z) * option (list Z) * flowf) :=
  '(ok, b, fl) ← parse_ipv6 b fl;
  if ok : bool then
    let proto := fl F_nw_proto in
    '(l7, fl) ← (if proto =? IPPROTO_TCP then parse_tcp b fl
                 else if proto =? IPPROTO_UDP then parse_udp b fl
                 else if proto =? IPPROTO_SCTP then parse_sctp b fl
                 else if proto =? IPPROTO_ICMPV6 then parse_icmpv6 b fl
                 else Some (None, fl));
    Some (Some b, l7, fl)
  else Some (None, None, fl).

Definition parse_l3_arp (b : list Z) (fl : flowf) : option flowf :=
  match ofpbuf_try_pull 28 b with
  | None => Some fl
  | Some (arp, _) =>
      hrd ← rd 0 2 arp;
      pro ← rd 2 2 arp;
      hln ← rd 4 1 arp;
      pln ← rd 5 1 arp;
      if (hrd =? 1) && (pro =? ETH_TYPE_IP) && (hln =? 6) && (pln =? 4) then
        op ← rd 6 2 arp;
        spa ← rd 14 4 arp;
        tpa ← rd 24 4 arp;
        sha ← rd 8 6 arp;
        tha ← rd 18 6 arp;
        let fl := if op <=? 0xff then upd F_nw_proto op fl else fl in
        Some (set_fields [(F_nw_src, spa); (F_nw_dst, tpa); (F_arp_sha, sha); (F_arp_tha, tha)] fl)
      else Some fl
  end.

Definition parse_l3 (b : list Z) (fl : flowf) : option (option (list Z) * option (list Z) * flowf) :=
  let dl_type := fl F_dl_type in
  if dl_type =? ETH_TYPE_IP then parse_l3_ip b fl
  else if dl_type =? ETH_TYPE_IPV6 then parse_l3_ipv6 b fl
  else if (dl_type =? ETH_TYPE_ARP) || (dl_type =? ETH_TYPE_RARP) then fl ← parse_l3_arp b fl; Some (None, None, fl)
  else Some (None, None, fl).

(** The flow before parsing. *)
Definition flow_metadata_init (skb_priority pkt_mark : Z) (tnl : option flowf) (in_port : option Z) : flowf :=
  let fl : flowf := λ _, 0 in
  let fl := match tnl with Some t => set_fields ((λ f, (f, t f)) <$> tunnel_fields) fl | None => fl end in
  let fl := match in_port with Some p => upd F_in_port p fl | None => fl end in
  set_fields [(F_skb_priority, skb_priority); (F_pkt_mark, pkt_mark)] fl.

Definition flow_extract (packet : ofpbuf) (skb_priority pkt_mark : Z) (tnl : option flowf) (in_port : option Z) : option (ofpbuf * flowf) :=
  let data := ob_data packet in
  let fl := flow_metadata_init skb_priority pkt_mark tnl in_port in
  (* b.data, as an offset *)
  let ofs (b : list Z) := Z.of_nat (length data) - Z.of_nat (length b) in
  if (length data <? 14)%nat then Some (Ofpbuf data (Some 0) None None None None, fl)
  else
    dl_src ← rd 6 6 data;
    dl_dst ← rd 0 6 data;
    let fl := set_fields [(F_dl_src, dl_src); (F_dl_dst, dl_dst)] fl in
    '(_, b) ← ofpbuf_pull 12 data;
    eth_type ← rd 12 2 data;
    '(b, fl) ← (if eth_type =? ETH_TYPE_VLAN then parse_vlan b fl else Some (b, fl));
    '(dl_type, b) ← parse_ethertype b;
    let fl := upd F_dl_type dl_type fl in
    let l2_5 := if eth_type_mpls dl_type then Some (ofs b) else None in
    '(b, fl) ← (if eth_type_mpls dl_type then parse_mpls b fl else Some (b, fl));
    let l3 := Some (ofs b) in
    '(l4, l7, fl) ← parse_l3 b fl;
    Some (Ofpbuf data (Some 0) l2_5 l3 (ofs <$> l4) (ofs <$> l7), fl).

(** ** Changing packets (lib/packets.c) *)

Definition set_data (d : list Z) (p : ofpbuf) : ofpbuf := Ofpbuf d (ob_l2 p) (ob_l2_5 p) (ob_l3 p) (ob_l4 p) (ob_l7 p).
Definition set_l2 (m : option Z) (p : ofpbuf) : ofpbuf := Ofpbuf (ob_data p) m (ob_l2_5 p) (ob_l3 p) (ob_l4 p) (ob_l7 p).
Definition set_l2_5 (m : option Z) (p : ofpbuf) : ofpbuf := Ofpbuf (ob_data p) (ob_l2 p) m (ob_l3 p) (ob_l4 p) (ob_l7 p).
Definition set_l3 (m : option Z) (p : ofpbuf) : ofpbuf := Ofpbuf (ob_data p) (ob_l2 p) (ob_l2_5 p) m (ob_l4 p) (ob_l7 p).
Definition set_l4 (m : option Z) (p : ofpbuf) : ofpbuf := Ofpbuf (ob_data p) (ob_l2 p) (ob_l2_5 p) (ob_l3 p) m (ob_l7 p).

(** The first byte moves by [n] towards the front. *)
Definition move_data (n : Z) (d : list Z) (p : ofpbuf) : ofpbuf :=
  let mv := fmap (M := option) (λ m, m + n) in
  Ofpbuf d (mv (ob_l2 p)) (mv (ob_l2_5 p)) (mv (ob_l3 p)) (mv (ob_l4 p)) (mv (ob_l7 p)).

(** ofpbuf_push_uninit(), ofpbuf_pull() and ofpbuf_put(). *)
Definition ofpbuf_push (bytes : list Z) (p : ofpbuf) : ofpbuf := move_data (Z.of_nat (length bytes)) (bytes ++ ob_data p) p.
Definition ofpbuf_drop (n : nat) (p : ofpbuf) : option ofpbuf :=
  if (n <=? length (ob_data p))%nat then Some (move_data (- Z.of_nat n) (drop n (ob_data p)) p) else None.
Definition ofpbuf_put (bytes : list Z) (p : ofpbuf) : ofpbuf := set_data (ob_data p ++ bytes) p.

(** A field at an offset from a marker. *)
Definition rdm (m : option Z) (ofs len : nat) (p : ofpbuf) : option Z :=
  m ← m; if 0 <=? m then rd (Z.to_nat m + ofs) len (ob_data p) else None.
Definition wrm (m : option Z) (ofs len : nat) (v : Z) (p : ofpbuf) : option ofpbuf :=
  m ← m; if 0 <=? m then d ← wr (Z.to_nat m + ofs) len v (ob_data p); Some (set_data d p) else None.

Definition compose_rarp (eth_src : Z) : list Z :=
  be_bytes 6 (2 ^ 48 - 1) ++ be_bytes 6 eth_src ++ be_bytes 2 ETH_TYPE_RARP
  ++ be_bytes 2 1 ++ be_bytes 2 ETH_TYPE_IP ++ be_bytes 1 6 ++ be_bytes 1 4 ++ be_bytes 2 3
  ++ be_bytes 6 eth_src ++ be_bytes 4 0 ++ be_bytes 6 eth_src ++ be_bytes 4 0.

Definition eth_push_vlan (packet : ofpbuf) (tci : Z) : option ofpbuf :=
  dst ← rd 0 6 (ob_data packet);
  src ← rd 6 6 (ob_data packet);
  next_type ← rd 12 2 (ob_data packet);
  let packet := ofpbuf_push [0; 0; 0; 0] packet in
  d ← wr 0 6 dst (ob_data packet);
  d ← wr 6 6 src d;
  d ← wr 12 2 ETH_TYPE_VLAN d;
  d ← wr 14 2 (and_not tci VLAN_CFI) d;
  d ← wr 16 2 next_type d;
  Some (set_l2 (Some 0) (set_data d packet)).

Definition eth_pop_vlan (packet : ofpbuf) : option ofpbuf :=
  _ ← ob_l2 packet;
  if (18 <=? length (ob_data packet))%nat then
    type ← rdm (ob_l2 packet) 12 2 packet;
    if type =? ETH_TYPE_VLAN then
      dst ← rdm (ob_l2 packet) 0 6 packet;
      src ← rdm (ob_l2 packet) 6 6 packet;
      next_type ← rdm (ob_l2 packet) 16 2 packet;
      packet ← ofpbuf_drop 4 packet;
      let packet := set_l2 ((λ m, m + 4) <$> ob_l2 packet) packet in
      d ← wr 0 6 dst (ob_data packet);
      d ← wr 6 6 src d;
      d ← wr 12 2 next_type d;
      Some (set_data d packet)
    else Some packet
  else Some packet.

(** The loop goes to the end of the packet. *)
Fixpoint mpls_depth_loop (fuel : nat) (packet : ofpbuf) (mh : nat) (depth : Z) : option Z :=
  if (mh + 4 <=? length (ob_data packet))%nat then
    match fuel with
    | O => None
    | S fuel =>
        lse ← rd mh 4 (ob_data packet);
        let depth := u16 (depth + 1) in
        if negb (Z.land lse MPLS_BOS_MASK =? 0) then Some depth else mpls_depth_loop fuel packet (mh + 4) depth
    end
  else Some depth.
Definition eth_mpls_depth (packet : ofpbuf) : option Z :=
  match ob_l2_5 packet with
  | None => Some 0
  | Some mh => mpls_depth_loop (length (ob_data packet)) packet (Z.to_nat mh) 0
  end.

Definition set_ethertype (packet : ofpbuf) (eth_type : Z) : option ofpbuf :=
  type ← rd 12 2 (ob_data packet);
  if type =? ETH_TYPE_VLAN then
    wrm ((λ m, m - 2) <$> (if ob_l2_5 packet then ob_l2_5 packet else ob_l3 packet)) 0 2 eth_type packet
  else d ← wr 12 2 eth_type (ob_data packet); Some (set_data d packet).

Definition is_mpls (packet : ofpbuf) : bool := if ob_l2_5 packet then true else false.

(** memmove() within the packet. *)
Definition move_bytes (from to len : nat) (p : ofpbuf) : option ofpbuf :=
  let d := ob_data p in
  if ((from + len <=? length d) && (to + len <=? length d))%nat
  then Some (set_data (take to d ++ take len (drop from d) ++ drop (to + len) d) p)
  else None.

Definition push_mpls_lse (packet : ofpbuf) (lse : Z) : option ofpbuf :=
  let packet := ofpbuf_push [0; 0; 0; 0] packet in
  l2_5 ← ob_l2_5 packet;
  l2 ← ob_l2 packet;
  let len := l2_5 - l2 in
  if (0 <=? len) && (0 <=? l2) then
    packet ← move_bytes (Z.to_nat l2) 0 (Z.to_nat len) packet;
    d ← wr (Z.to_nat len) 4 lse (ob_data packet);
    Some (set_l2_5 (Some (l2_5 - 4)) (set_l2 (Some (l2 - 4)) (set_data d packet)))
  else None.

Definition set_mpls_lse (packet : ofpbuf) (lse : Z) : option ofpbuf :=
  if is_mpls packet then wrm (ob_l2_5 packet) 0 4 lse packet else Some packet.

Definition push_mpls (packet : ofpbuf) (ethtype lse : Z) : option ofpbuf :=
  if negb (eth_type_mpls ethtype) then Some packet
  else
    packet ← (if negb (is_mpls packet) then
                packet ← set_ethertype packet ethtype;
                Some (set_l2_5 (ob_l3 packet) packet)
              else Some packet);
    push_mpls_lse packet lse.

Definition pop_mpls (packet : ofpbuf) (ethtype : Z) : option ofpbuf :=
  if is_mpls packet then
    l2_5 ← ob_l2_5 packet;
    l2 ← ob_l2 packet;
    let len := l2_5 - l2 in
    packet ← set_ethertype packet ethtype;
    lse ← rdm (Some l2_5) 0 4 packet;
    let packet := set_l2_5 (if negb (Z.land lse MPLS_BOS_MASK =? 0) then None else Some (l2_5 + 4)) packet in
    packet ← (if 0 <=? len then move_bytes 0 4 (Z.to_nat len) packet else None);
    packet ← ofpbuf_drop 4 packet;
    Some (set_l2 ((λ m, m + 4) <$> ob_l2 packet) packet)
  else Some packet.

(** A checksum of 0 in a UDP header stands for no checksum. *)
Definition udp_csum_nonzero (c : Z) : Z := if c =? 0 then 0xffff else c.

Definition packet_set_ipv4_addr (packet : ofpbuf) (ofs : nat) (new_addr : Z) : option ofpbuf :=
  let l3 := ob_l3 packet in
  old_addr ← rdm l3 ofs 4 packet;
  proto ← rdm l3 9 1 packet;
  packet ← (if (proto =? IPPROTO_TCP) && bool_decide (is_Some (ob_l7 packet)) then
              csum ← rdm (ob_l4 packet) 16 2 packet;
              wrm (ob_l4 packet) 16 2 (recalc_csum32 csum old_addr new_addr) packet
            else if (proto =? IPPROTO_UDP) && bool_decide (is_Some (ob_l7 packet)) then
              csum ← rdm (ob_l4 packet) 6 2 packet;
              if negb (csum =? 0) then
                wrm (ob_l4 packet) 6 2 (udp_csum_nonzero (recalc_csum32 csum old_addr new_addr)) packet
              else Some packet
            else Some packet);
  csum ← rdm l3 10 2 packet;
  packet ← wrm l3 10 2 (recalc_csum32 csum old_addr new_addr) packet;
  wrm l3 ofs 4 new_addr packet.

Definition packet_set_ipv4 (packet : ofpbuf) (src dst tos ttl : Z) : option ofpbuf :=
  let l3 := ob_l3 packet in
  old ← rdm l3 12 4 packet;
  packet ← (if negb (old =? src) then packet_set_ipv4_addr packet 12 src else Some packet);
  old ← rdm l3 16 4 packet;
  packet ← (if negb (old =? dst) then packet_set_ipv4_addr packet 16 dst else Some packet);
  old ← rdm l3 1 1 packet;
  packet ← (if negb (old =? tos) then
              csum ← rdm l3 10 2 packet;
              packet ← wrm l3 10 2 (recalc_csum16 csum old tos) packet;
              wrm l3 1 1 tos packet
            else Some packet);
  old ← rdm l3 8 1 packet;
  if negb (old =? ttl) then
    csum ← rdm l3 10 2 packet;
    packet ← wrm l3 10 2 (recalc_csum16 csum (Z.shiftl old 8) (Z.shiftl ttl 8)) packet;
    wrm l3 8 1 ttl packet
  else Some packet.

(** Every round goes over eight bytes at least. *)
Fixpoint rh_loop (fuel : nat) (nexthdr : Z) (data : list Z) : option bool :=
  if negb (ipv6_extension nexthdr) then Some false
  else if (length data <? 8)%nat then Some false
  else
    match fuel with
    | O => None
    | S fuel =>
        nxt ← rd 0 1 data;
        len ← rd 1 1 data;
        segleft ← rd 3 1 data;
        if (nexthdr =? IPPROTO_ROUTING) && (0 <? segleft) then Some true
        else
          let len := if nexthdr =? IPPROTO_AH then Z.to_nat ((len + 2) * 4)
                     else if nexthdr =? IPPROTO_FRAGMENT then 8%nat
                     else Z.to_nat ((len + 1) * 8) in
          if (length data <? len)%nat then Some false else rh_loop fuel nxt (drop len data)
    end.

Definition packet_rh_present (packet : ofpbuf) : option bool :=
  l3 ← ob_l3 packet;
  l4 ← ob_l4 packet;
  let data := take (Z.to_nat (l4 - l3)) (drop (Z.to_nat l3) (ob_data packet)) in
  if (length data <? 40)%nat then Some false
  else nexthdr ← rd 6 1 data; rh_loop (length data) nexthdr (drop 40 data).

Definition packet_update_csum128 (packet : ofpbuf) (proto old_addr new_addr : Z) : option ofpbuf :=
  if (proto =? IPPROTO_TCP) && bool_decide (is_Some (ob_l7 packet)) then
    csum ← rdm (ob_l4 packet) 16 2 packet;
    wrm (ob_l4 packet) 16 2 (recalc_csum128 csum old_addr new_addr) packet
  else if (proto =? IPPROTO_UDP) && bool_decide (is_Some (ob_l7 packet)) then
    csum ← rdm (ob_l4 packet) 6 2 packet;
    if negb (csum =? 0) then
      wrm (ob_l4 packet) 6 2 (udp_csum_nonzero (recalc_csum128 csum old_addr new_addr)) packet
    else Some packet
  else Some packet.

(** sizeof( *addr ) is the size of one word of the address. *)
Definition packet_set_ipv6_addr (packet : ofpbuf) (proto : Z) (ofs : nat) (new_addr : Z) (recalculate_csum : bool) : option ofpbuf :=
  packet ← (if recalculate_csum then
              old_addr ← rdm (ob_l3 packet) ofs 16 packet;
              packet_update_csum128 packet proto old_addr new_addr
            else Some packet);
  wrm (ob_l3 packet) ofs 4 (word_of_128 new_addr 0) packet.

Definition packet_set_ipv6_tc (packet : ofpbuf) (tc : Z) : option ofpbuf :=
  old_label ← rdm (ob_l3 packet) 0 4 packet;
  wrm (ob_l3 packet) 0 4 (Z.lor (Z.land old_label 0xf00fffff) (u32 (Z.shiftl tc 20))) packet.

Definition packet_set_ipv6_flow_label (packet : ofpbuf) (flow_key : Z) : option ofpbuf :=
  old_label ← rdm (ob_l3 packet) 0 4 packet;
  wrm (ob_l3 packet) 0 4 (Z.lor (and_not old_label IPV6_LABEL_MASK) flow_key) packet.

Definition packet_set_ipv6 (packet : ofpbuf) (proto src dst key_tc key_fl key_hl : Z) : option ofpbuf :=
  let l3 := ob_l3 packet in
  old ← rdm l3 8 16 packet;
  packet ← (if negb (old =? src) then packet_set_ipv6_addr packet proto 8 src true else Some packet);
  old ← rdm l3 24 16 packet;
  packet ← (if negb (old =? dst) then rh ← packet_rh_present packet; packet_set_ipv6_addr packet proto 24 dst (negb rh)
            else Some packet);
  packet ← packet_set_ipv6_tc packet key_tc;
  packet ← packet_set_ipv6_flow_label packet key_fl;
  wrm l3 7 1 key_hl packet.

(** The port at [ofs] and the checksum at [csum] of the transport header. *)
Definition packet_set_port (packet : ofpbuf) (ofs : nat) (new_port : Z) (csum_ofs : nat) : option ofpbuf :=
  let l4 := ob_l4 packet in
  port ← rdm l4 ofs 2 packet;
  if negb (port =? new_port) then
    csum ← rdm l4 csum_ofs 2 packet;
    packet ← wrm l4 csum_ofs 2 (recalc_csum16 csum port new_port) packet;
    wrm l4 ofs 2 new_port packet
  else Some packet.

Definition packet_set_tcp_port (packet : ofpbuf) (src dst : Z) : option ofpbuf :=
  packet ← packet_set_port packet 0 src 16;
  packet_set_port packet 2 dst 16.

Definition packet_set_udp_port (packet : ofpbuf) (src dst : Z) : option ofpbuf :=
  let l4 := ob_l4 packet in
  csum ← rdm l4 6 2 packet;
  if negb (csum =? 0) then
    packet ← packet_set_port packet 0 src 6;
    packet ← packet_set_port packet 2 dst 6;
    csum ← rdm l4 6 2 packet;
    if csum =? 0 then wrm l4 6 2 0xffff packet else Some packet
  else
    packet ← wrm l4 0 2 src packet;
    wrm l4 2 2 dst packet.

Definition packet_set_sctp_port (packet : ofpbuf) (src dst : Z) : option ofpbuf :=
  l4 ← ob_l4 packet;
  let tp_len := u16 (Z.of_nat (length (ob_data packet)) - l4) in
  let body (p : ofpbuf) := take (Z.to_nat tp_len) (drop (Z.to_nat l4) (ob_data p)) in
  old_csum ← rdm (Some l4) 8 4 packet;
  packet ← wrm (Some l4) 8 4 0 packet;
  let old_correct_csum := crc32c (body packet) in
  packet ← wrm (Some l4) 0 2 src packet;
  packet ← wrm (Some l4) 2 2 dst packet;
  let new_csum := crc32c (body packet) in
  wrm (Some l4) 8 4 (Z.lxor (Z.lxor old_csum old_correct_csum) new_csum) packet.

Definition packet_get_tcp_flags (packet : ofpbuf) (fl : flowf) : option Z :=
  if dl_type_is_ip_any (fl F_dl_type) && (fl F_nw_proto =? IPPROTO_TCP) && bool_decide (is_Some (ob_l7 packet)) then
    ctl ← rdm (ob_l4 packet) 12 2 packet; Some (Z.land ctl 0x003f)
  else Some 0.

(** ** Executing datapath actions (lib/odp-execute.c) *)

(** Calls of the functions for outputs and for packets to user space. *)
Inductive odp_event :=
| EV_OUTPUT (packet : ofpbuf) (port : Z)
| EV_USERSPACE (packet : ofpbuf) (key : flowf) (cookie : user_action_cookie).

Record odp_state := OdpState { os_packet : ofpbuf; os_key : flowf; os_seed : Z; os_events : list odp_event }.

Definition odp_eth_set_addrs (packet : ofpbuf) (eth_src eth_dst : Z) : option ofpbuf :=
  packet ← wrm (ob_l2 packet) 6 6 eth_src packet;
  wrm (ob_l2 packet) 0 6 eth_dst packet.

Definition odp_execute_set_action (packet : ofpbuf) (a : odp_action) (key : flowf) : option (ofpbuf * flowf) :=
  let on_packet p := p ← p; Some (p, key) in
  match a with
  | ODP_SET_PRIORITY p => Some (packet, upd F_skb_priority p key)
  | ODP_SET_TUNNEL id src dst flags tos ttl =>
      Some (packet, set_fields [(F_tun_id, id); (F_tun_src, src); (F_tun_dst, dst); (F_tun_flags, flags); (F_tun_tos, tos);
                                (F_tun_ttl, ttl)] key)
  | ODP_SET_SKB_MARK m => Some (packet, upd F_pkt_mark m key)
  | ODP_SET_ETHERNET src dst => on_packet (odp_eth_set_addrs packet src dst)
  | ODP_SET_IPV4 src dst _ tos ttl _ => on_packet (packet_set_ipv4 packet src dst tos ttl)
  | ODP_SET_IPV6 src dst label proto tclass hlimit _ => on_packet (packet_set_ipv6 packet proto src dst tclass label hlimit)
  | ODP_SET_TCP src dst => on_packet (packet_set_tcp_port packet src dst)
  | ODP_SET_UDP src dst => on_packet (packet_set_udp_port packet src dst)
  | ODP_SET_SCTP src dst => on_packet (packet_set_sctp_port packet src dst)
  | ODP_SET_MPLS lse => on_packet (set_mpls_lse packet lse)
  | _ => None
  end.

Definition odp_execute_sample (s : odp_state) (probability : Z) (cookie : user_action_cookie) : odp_state :=
  let seed := random_next (os_seed s) in
  let s := OdpState (os_packet s) (os_key s) seed (os_events s) in
  if probability <=? seed then s
  else OdpState (os_packet s) (os_key s) seed (os_events s ++ [EV_USERSPACE (os_packet s) (os_key s) cookie]).

Definition odp_execute_action (s : odp_state) (a : odp_action) : option odp_state :=
  let set_packet p := p ← p; Some (OdpState p (os_key s) (os_seed s) (os_events s)) in
  match a with
  | ODP_OUTPUT port => Some (OdpState (os_packet s) (os_key s) (os_seed s) (os_events s ++ [EV_OUTPUT (os_packet s) port]))
  | ODP_PUSH_VLAN _ tci => set_packet (eth_push_vlan (os_packet s) tci)
  | ODP_POP_VLAN => set_packet (eth_pop_vlan (os_packet s))
  | ODP_PUSH_MPLS ethertype lse => set_packet (push_mpls (os_packet s) ethertype lse)
  | ODP_POP_MPLS ethertype => set_packet (pop_mpls (os_packet s) ethertype)
  | ODP_SAMPLE probability _ cookie => Some (odp_execute_sample s probability cookie)
  | a => '(p, key) ← odp_execute_set_action (os_packet s) a (os_key s); Some (OdpState p key (os_seed s) (os_events s))
  end.

Definition odp_execute_actions (s : odp_state) (actions : list odp_action) : option odp_state :=
  foldl (λ s a, s ← s; odp_execute_action s a) (Some s) actions.

(** ** Composing a packet from a flow (lib/flow.c) *)

(** Fills a buffer that was just initialized. *)
Definition eth_compose (eth_dst eth_src eth_type : Z) (size : nat) : ofpbuf :=
  Ofpbuf (be_bytes 6 eth_dst ++ be_bytes 6 eth_src ++ be_bytes 2 eth_type ++ replicate size 0) (Some 0) None (Some 14) None None.

Definition flow_compose_l4 (b : ofpbuf) (fl : flowf) : ofpbuf :=
  let l4 := Some (Z.of_nat (length (ob_data b))) in
  let src := be_bytes 2 (fl F_tp_src) in
  let dst := be_bytes 2 (fl F_tp_dst) in
  if fl F_nw_proto =? IPPROTO_TCP then
    set_l4 l4 (ofpbuf_put (src ++ dst ++ replicate 8 0 ++ be_bytes 2 (Z.shiftl 5 12) ++ replicate 6 0) b)
  else if fl F_nw_proto =? IPPROTO_UDP then set_l4 l4 (ofpbuf_put (src ++ dst ++ replicate 4 0) b)
  else if fl F_nw_proto =? IPPROTO_SCTP then set_l4 l4 (ofpbuf_put (src ++ dst ++ replicate 8 0) b)
  else if fl F_nw_proto =? IPPROTO_ICMP then
    let hdr (c : Z) := be_bytes 1 (fl F_tp_src) ++ be_bytes 1 (fl F_tp_dst) ++ be_bytes 2 c ++ replicate 4 0 in
    set_l4 l4 (ofpbuf_put (hdr (csum (hdr 0))) b)
  else b.

(** struct ip_header. *)
Definition ip_header (tos tot_len frag_off ttl proto csum src dst : Z) : list Z :=
  be_bytes 1 0x45 ++ be_bytes 1 tos ++ be_bytes 2 tot_len ++ be_bytes 2 0 ++ be_bytes 2 frag_off ++ be_bytes 1 ttl
  ++ be_bytes 1 proto ++ be_bytes 2 csum ++ be_bytes 4 src ++ be_bytes 4 dst.

Definition flow_compose_ip (b : ofpbuf) (fl : flowf) : option ofpbuf :=
  let l3 := length (ob_data b) in
  let frag_any := negb (Z.land (fl F_nw_frag) FLOW_NW_FRAG_ANY =? 0) in
  let frag_later := negb (Z.land (fl F_nw_frag) FLOW_NW_FRAG_LATER =? 0) in
  let frag_off := if frag_any then if frag_later then Z.lor IP_MORE_FRAGMENTS 100 else IP_MORE_FRAGMENTS else 0 in
  let b := set_l3 (Some (Z.of_nat l3))
             (ofpbuf_put (ip_header (fl F_nw_tos) 0 frag_off (fl F_nw_ttl) (fl F_nw_proto) 0 (fl F_nw_src) (fl F_nw_dst)) b) in
  let b := if negb frag_any || negb frag_later then flow_compose_l4 b fl else b in
  d ← wr (l3 + 2) 2 (u16 (Z.of_nat (length (ob_data b)) - Z.of_nat l3)) (ob_data b);
  d ← wr (l3 + 10) 2 (csum (take 20 (drop l3 d))) d;
  Some (set_data d b).

Definition flow_compose_arp (b : ofpbuf) (fl : flowf) : ofpbuf :=
  let l3 := Some (Z.of_nat (length (ob_data b))) in
  let known := (fl F_nw_proto =? 1) || (fl F_nw_proto =? 2) in
  let value f := if known then fl f else 0 in
  set_l3 l3 (ofpbuf_put (be_bytes 2 1 ++ be_bytes 2 ETH_TYPE_IP ++ be_bytes 1 6 ++ be_bytes 1 4 ++ be_bytes 2 (fl F_nw_proto)
                         ++ be_bytes 6 (value F_arp_sha) ++ be_bytes 4 (value F_nw_src)
                         ++ be_bytes 6 (value F_arp_tha) ++ be_bytes 4 (value F_nw_dst)) b).

Definition flow_compose (fl : flowf) : option ofpbuf :=
  let dl_type := fl F_dl_type in
  let b := eth_compose (fl F_dl_dst) (fl F_dl_src) dl_type 0 in
  if dl_type =? FLOW_DL_TYPE_NONE then
    d ← wr 12 2 (u16 (Z.of_nat (length (ob_data b)))) (ob_data b);
    Some (set_data d b)
  else
    b ← (if negb (Z.land (fl F_vlan_tci) VLAN_CFI =? 0) then eth_push_vlan b (fl F_vlan_tci) else Some b);
    b ← (if dl_type =? ETH_TYPE_IP then flow_compose_ip b fl
         else if dl_type =? ETH_TYPE_IPV6 then Some b
         else if (dl_type =? ETH_TYPE_ARP) || (dl_type =? ETH_TYPE_RARP) then Some (flow_compose_arp b fl)
         else Some b);
    if eth_type_mpls dl_type then push_mpls (set_l2_5 (ob_l3 b) b) dl_type (fl F_mpls_lse) else Some b.
