(* ===== verification/PacketThms.v ===== *)
(** * Parsing packets is safe

    [flow_extract] reads only bytes of the packet, whatever they are, ends, and
    gives a flow with fields in range and markers in order. *)
From stdpp Require Import list.
From S2P Require Import Prelude ByteOrder Hash Bitwise MatchFields MetaFlow OdpActions Csum Packets.

(** ** Successful runs *)

(** [m] succeeds, with a result that satisfies [Q]. *)
Definition safe {A} (m : option A) (Q : A → Prop) : Prop := ∃ x, m = Some x ∧ Q x.

Lemma safe_ret {A} (x : A) (Q : A → Prop) : Q x → safe (Some x) Q.
Proof. intros H. by exists x. Qed.

Lemma safe_bind {A B} (m : option A) (f : A → option B) (P : A → Prop) (Q : B → Prop) :
  safe m P → (∀ x, P x → safe (f x) Q) → safe (m ≫= f) Q.
Proof. intros (x & -> & Hx) H. by apply H. Qed.

Lemma safe_mono {A} (m : option A) (P Q : A → Prop) : safe m P → (∀ x, P x → Q x) → safe m Q.
Proof. intros (x & -> & Hx) H. exists x. auto. Qed.

Lemma rd_safe ofs len d : (ofs + len ≤ length d)%nat → Forall is_u8 d → safe (rd ofs len d) (in_width (8 * Z.of_nat len)).
Proof.
  intros Hl Hd. unfold rd. rewrite (proj2 (Nat.leb_le _ _) Hl). apply safe_ret.
  assert (Hb : Forall is_u8 (take len (drop ofs d))) by by apply Forall_take, Forall_drop.
  apply get_be_width in Hb. rewrite length_take, length_drop, Nat.min_l in Hb by lia. done.
Qed.

Lemma pull_safe n b :
  (n ≤ length b)%nat → Forall is_u8 b →
  safe (ofpbuf_pull n b) (λ r, r = (take n b, drop n b) ∧ length r.1 = n ∧ length r.2 = (length b - n)%nat ∧ Forall is_u8 r.1 ∧ Forall is_u8 r.2).
Proof.
  intros Hn Hb. unfold ofpbuf_pull. rewrite (proj2 (Nat.leb_le _ _) Hn). apply safe_ret.
  split; [done|]. cbn [fst snd]. rewrite length_take, length_drop. split; [lia|]. split; [done|]. split; [by apply Forall_take|by apply Forall_drop].
Qed.

(** What a parser leaves is a part at the end of what it got, of bytes. *)
Definition tail_of (b b' : list Z) : Prop := (length b' ≤ length b)%nat ∧ Forall is_u8 b'.

Lemma tail_of_refl b : Forall is_u8 b → tail_of b b.
Proof. done. Qed.

Lemma tail_of_trans a b c : tail_of a b → tail_of b c → tail_of a c.
Proof. intros [] []. split; [lia|done]. Qed.

(** A try to pull, with the cases of the code. *)
Lemma try_pull_cases {B} n b (f : list Z → list Z → option B) (g : option B) (Q : B → Prop) :
  Forall is_u8 b →
  safe g Q →
  (∀ h b', length h = n → Forall is_u8 h → tail_of b b' → length b = (n + length b')%nat → safe (f h b') Q) →
  safe (match ofpbuf_try_pull n b with None => g | Some (h, b') => f h b' end) Q.
Proof.
  intros Hb Hg Hf. unfold ofpbuf_try_pull. destruct (Nat.leb_spec n (length b)); [|done]. apply Hf.
  - rewrite length_take. lia.
  - by apply Forall_take.
  - split; [rewrite length_drop; lia|by apply Forall_drop].
  - rewrite length_drop. lia.
Qed.

Lemma set_fields_ok l fl : flow_ok fl → Forall (λ p, in_width (field_width p.1) p.2) l → flow_ok (set_fields l fl).
Proof.
  intros Hfl Hl. revert fl Hfl. induction Hl as [|[f v] l Hv Hl IH]; intros fl Hfl; [done|]. by apply IH, upd_flow_ok.
Qed.

(** Widths of the values that are read. *)
Lemma width_le w w' x : 0 ≤ w ≤ w' → in_width w x → in_width w' x.
Proof. intros. eapply in_width_mono; [|done]; lia. Qed.

Ltac widths := repeat apply Forall_cons_2; try apply Forall_nil_2; cbn [fst snd field_width];
  try assumption; try (eapply in_width_mono; [|eassumption]; lia); try (by apply wrap_in_width).

(** One read. *)
Ltac step_rd v := eapply safe_bind; [apply rd_safe; [lia|assumption]|intros v ?; cbn [Z.of_nat Z.mul Pos.of_succ_nat Pos.succ Pos.mul] in *].

Lemma parse_vlan_safe b fl :
  Forall is_u8 b → flow_ok fl → (2 ≤ length b)%nat →
  safe (parse_vlan b fl) (λ r, tail_of b r.1 ∧ flow_ok r.2 ∧ (2 ≤ length r.1)%nat).
Proof.
  intros Hb Hfl Hl. unfold parse_vlan. destruct (Nat.leb_spec 6 (length b)); [|by apply safe_ret].
  eapply safe_bind; [apply pull_safe; [lia|done]|]. intros [qp b'] (_ & H1 & H2 & H3 & H4). cbn [fst snd] in *.
  step_rd tci. apply safe_ret. cbn [fst snd]. split; [split; [lia|done]|]. split; [|lia].
  apply upd_flow_ok; [done|]. apply (lor_in_width 16); [lia|done|]. split; by vm_compute.
Qed.

Lemma parse_ethertype_safe b :
  Forall is_u8 b → (2 ≤ length b)%nat → safe (parse_ethertype b) (λ r, ((length r.2 + 2 ≤ length b)%nat ∧ Forall is_u8 r.2) ∧ is_u16 r.1).
Proof.
  intros Hb Hl. unfold parse_ethertype. assert (Hn : is_u16 FLOW_DL_TYPE_NONE) by by split; vm_compute.
  eapply safe_bind; [apply pull_safe; [lia|done]|]. intros [h b'] (_ & H1 & H2 & H3 & H4). cbn [fst snd] in *.
  assert (Ht : (length b' + 2 ≤ length b)%nat ∧ Forall is_u8 b') by (split; [lia|done]).
  step_rd proto. destruct (_ <=? proto); [by apply safe_ret|]. destruct (Nat.ltb_spec (length b') 8); [by apply safe_ret|].
  step_rd llc. step_rd org. destruct (_ || _); [by apply safe_ret|]. step_rd ty.
  eapply safe_bind; [apply pull_safe; [lia|done]|]. intros [h' b''] (_ & _ & Hl2 & _ & Hb2). cbn [fst snd] in *.
  assert ((length b'' + 2 ≤ length b)%nat ∧ Forall is_u8 b'') by (split; [lia|done]). destruct (_ <=? ty); by apply safe_ret.
Qed.

Lemma parse_mpls_safe fuel b fl :
  Forall is_u8 b → flow_ok fl → (length b < 4 * S fuel)%nat → safe (parse_mpls_loop fuel b fl) (λ r, tail_of b r.1 ∧ flow_ok r.2).
Proof.
  revert b fl. induction fuel as [|fuel IH]; intros b fl Hb Hfl Hlen; cbn [parse_mpls_loop]; apply try_pull_cases; try done; try by apply safe_ret.
  - intros h b' Hh _ [Hb' _] E. lia.
  - intros h b' Hh Hh8 Hb' E. step_rd lse.
    assert (Hfl' : flow_ok (upd F_mpls_depth (u16 (fl F_mpls_depth + 1)) (if fl F_mpls_depth =? 0 then upd F_mpls_lse lse fl else fl))).
    { apply upd_flow_ok; [|by apply wrap_in_width]. destruct (_ =? 0); [by apply upd_flow_ok|done]. }
    destruct (negb _); [by apply safe_ret|]. eapply safe_mono; [apply IH; [by apply Hb'|done|lia]|].
    intros r [Hr Hr']. split; [|done]. by eapply tail_of_trans.
Qed.

(** A header with its length in it. *)
Definition pulled (b : list Z) (r : option (list Z * list Z)) : Prop :=
  match r with
  | None => True
  | Some (h, b') => (20 ≤ length h)%nat ∧ Forall is_u8 h ∧ tail_of b b' ∧ length b = (length h + length b')%nat
  end.

Lemma pull_hdr_safe (n : nat) (b : list Z) :
  Forall is_u8 b → safe (if ((20 <=? n) && (n <=? length b))%nat then Some <$> ofpbuf_pull n b else Some None) (pulled b).
Proof.
  intros Hb. destruct (Nat.leb_spec 20 n); [|by apply safe_ret]. destruct (Nat.leb_spec n (length b)) as [Hn|]; [|by apply safe_ret].
  destruct (pull_safe n b Hn Hb) as ([h b'] & -> & (_ & H1 & H2 & H3 & H4)). cbn [fst snd] in *. apply safe_ret. unfold pulled, tail_of. split_and!; (lia || done).
Qed.

Lemma pull_ip_safe b : Forall is_u8 b → safe (pull_ip b) (pulled b).
Proof.
  intros Hb. unfold pull_ip. destruct (Nat.leb_spec 20 (length b)); [|by apply safe_ret]. step_rd v. by apply pull_hdr_safe.
Qed.

Lemma pull_tcp_safe b : Forall is_u8 b → safe (pull_tcp b) (pulled b).
Proof.
  intros Hb. unfold pull_tcp. destruct (Nat.leb_spec 20 (length b)); [|by apply safe_ret]. step_rd v. by apply pull_hdr_safe.
Qed.

(** The transport header. *)
Definition l7_ok (b : list Z) (r : option (list Z) * flowf) : Prop := (∀ b', r.1 = Some b' → tail_of b b') ∧ flow_ok r.2.

Lemma l7_none b fl : flow_ok fl → l7_ok b (None, fl).
Proof. by split. Qed.
Lemma l7_some b b' fl : tail_of b b' → flow_ok fl → l7_ok b (Some b', fl).
Proof. intros. split; [|done]. by intros ? [= <-]. Qed.

Lemma parse_tcp_safe b fl : Forall is_u8 b → flow_ok fl → safe (parse_tcp b fl) (l7_ok b).
Proof.
  intros Hb Hfl. unfold parse_tcp. eapply safe_bind; [by apply pull_tcp_safe|]. intros [[h b']|]; [|intros _; by apply safe_ret, l7_none].
  intros (Hl & Hh & Ht & _). step_rd src. step_rd dst. step_rd ctl. apply safe_ret, l7_some; [done|].
  apply set_fields_ok; [done|]. widths. by apply land_in_width.
Qed.

Lemma parse_udp_safe b fl : Forall is_u8 b → flow_ok fl → safe (parse_udp b fl) (l7_ok b).
Proof.
  intros Hb Hfl. unfold parse_udp. apply try_pull_cases; [done|by apply safe_ret, l7_none|]. intros h b' Hl Hh Ht _.
  step_rd src. step_rd dst. apply safe_ret, l7_some; [done|]. apply set_fields_ok; [done|]. widths.
Qed.

Lemma parse_sctp_safe b fl : Forall is_u8 b → flow_ok fl → safe (parse_sctp b fl) (l7_ok b).
Proof.
  intros Hb Hfl. unfold parse_sctp. apply try_pull_cases; [done|by apply safe_ret, l7_none|]. intros h b' Hl Hh Ht _.
  step_rd src. step_rd dst. apply safe_ret, l7_some; [done|]. apply set_fields_ok; [done|]. widths.
Qed.

Lemma parse_icmp_safe b fl : Forall is_u8 b → flow_ok fl → safe (parse_icmp b fl) (l7_ok b).
Proof.
  intros Hb Hfl. unfold parse_icmp. apply try_pull_cases; [done|by apply safe_ret, l7_none|]. intros h b' Hl Hh Ht _.
  step_rd src. step_rd dst. apply safe_ret, l7_some; [done|]. apply set_fields_ok; [done|]. widths.
Qed.

Lemma nd_set_lladdr_safe f b fl :
  Forall is_u8 b → (8 ≤ length b)%nat → flow_ok fl → field_width f = 48 →
  safe (nd_set_lladdr f b fl) (λ r, ∀ fl', r = Some fl' → flow_ok fl').
Proof.
  intros Hb Hl Hfl Hw. unfold nd_set_lladdr. destruct (_ =? 0); [|by apply safe_ret]. step_rd a. apply safe_ret. intros ? [= <-].
  apply upd_flow_ok; [done|]. by rewrite Hw.
Qed.

Lemma nd_options_safe fuel b fl :
  Forall is_u8 b → flow_ok fl → (length b < 8 * S fuel)%nat →
  safe (nd_options fuel b fl) (λ r, ∀ b' fl', r = Some (b', fl') → tail_of b b' ∧ flow_ok fl').
Proof.
  revert b fl. induction fuel as [|fuel IH]; intros b fl Hb Hfl Hlen; cbn [nd_options]; destruct (Nat.ltb_spec (length b) 8);
    try (apply safe_ret; by intros ?? [= <- <-]); [lia|].
  step_rd ty. step_rd len. destruct (_ || _) eqn:E; [by apply safe_ret|]. apply orb_false_iff in E as [E1 E2].
  apply Nat.eqb_neq in E1. apply Nat.ltb_ge in E2.
  eapply (safe_bind _ _ (λ r, ∀ fl', r = Some fl' → flow_ok fl')).
  { destruct (_ && _); [by apply nd_set_lladdr_safe|]. destruct (_ && _); [by apply nd_set_lladdr_safe|]. apply safe_ret. by intros ? [= <-]. }
  intros [fl'|] Hfl'; [|by apply safe_ret]. specialize (Hfl' _ eq_refl). apply try_pull_cases; [done|by apply safe_ret|].
  intros h b' Hh _ Ht Hlen'. eapply safe_mono; [apply IH; [apply Ht|done|lia]|]. intros r Hr b2 fl2 ->. destruct (Hr _ _ eq_refl) as [H3 H4].
  split; [by eapply tail_of_trans|done].
Qed.

Lemma parse_icmpv6_safe b fl : Forall is_u8 b → flow_ok fl → safe (parse_icmpv6 b fl) (l7_ok b).
Proof.
  intros Hb Hfl. unfold parse_icmpv6. apply try_pull_cases; [done|by apply safe_ret, l7_none|]. intros h b' Hl Hh Ht _.
  step_rd ty. step_rd code.
  assert (Hfl1 : flow_ok (set_fields [(F_tp_src, ty); (F_tp_dst, code)] fl)) by (apply set_fields_ok; [done|widths]).
  destruct (_ && _); [|by apply safe_ret, l7_some]. apply try_pull_cases; [apply Ht|by apply safe_ret, l7_none|].
  intros t b'' Htl Ht8 Ht2 _. step_rd target. eapply safe_bind; [apply nd_options_safe; [apply Ht2|by apply upd_flow_ok|lia]|].
  intros [[b3 fl3]|] Hr.
  - destruct (Hr _ _ eq_refl). apply safe_ret, l7_some; [|done]. by eapply tail_of_trans, tail_of_trans.
  - apply safe_ret, l7_none, set_fields_ok; [by apply upd_flow_ok|]. widths; split; by vm_compute.
Qed.

(** Extension headers. *)
Definition ipv6_ok (b : list Z) (r : option Z * list Z * flowf) : Prop :=
  tail_of b r.1.2 ∧ flow_ok r.2 ∧ ∀ n, r.1.1 = Some n → is_u8 n.

Lemma ipv6_ok_tail b b' r : tail_of b b' → ipv6_ok b' r → ipv6_ok b r.
Proof. intros H (H1 & H2 & H3). split; [by eapply tail_of_trans|done]. Qed.

Lemma ipv6_ok_none b fl : Forall is_u8 b → flow_ok fl → ipv6_ok b (None, b, fl).
Proof. intros. by split_and!. Qed.

Lemma parse_ipv6_loop_safe fuel nexthdr b fl :
  Forall is_u8 b → flow_ok fl → is_u8 nexthdr → (length b < 8 * S fuel)%nat → safe (parse_ipv6_loop fuel nexthdr b fl) (ipv6_ok b).
Proof.
  revert nexthdr b fl. induction fuel as [|fuel IH]; intros nexthdr b fl Hb Hfl Hn Hlen; cbn [parse_ipv6_loop];
    (destruct (negb _); [apply safe_ret; split_and!; try done; by intros ? [= <-]|]);
    (destruct (Nat.ltb_spec (length b) 8); [by apply safe_ret, ipv6_ok_none|]); [lia|].
  assert (Hnext : ∀ n nxt fl', (8 ≤ n)%nat → flow_ok fl' → is_u8 nxt → ∀ b', tail_of b b' → length b = (n + length b')%nat →
    safe (parse_ipv6_loop fuel nxt b' fl') (ipv6_ok b)).
  { intros n nxt fl' Hn8 Hfl' Hnxt b' Ht E. eapply safe_mono; [apply IH; [apply Ht|done|done|lia]|]. intros r. by apply ipv6_ok_tail. }
  destruct (_ || _); [|destruct (_ =? _)]; step_rd nxt.
  - step_rd len. apply try_pull_cases; [done|by apply safe_ret, ipv6_ok_none|]. intros h b' Hh _ Ht E.
    apply (Hnext (Z.to_nat ((len + 1) * 8)) nxt fl); try done. unfold in_width in *. lia.
  - step_rd len. apply try_pull_cases; [done|by apply safe_ret, ipv6_ok_none|]. intros h b' Hh _ Ht E.
    apply (Hnext (Z.to_nat ((len + 2) * 4)) nxt fl); try done. unfold in_width in *. lia.
  - step_rd offlg. apply try_pull_cases; [done|by apply safe_ret, ipv6_ok_none|]. intros h b' Hh _ Ht E.
    assert (Hany : flow_ok (upd F_nw_frag FLOW_NW_FRAG_ANY fl)) by (apply upd_flow_ok; [done|by split; vm_compute]).
    destruct (negb _); [|by apply (Hnext 8%nat nxt fl)].
    destruct (negb _); [|by apply (Hnext 8%nat nxt (upd F_nw_frag FLOW_NW_FRAG_ANY fl))].
    apply safe_ret. split_and!; [done| |intros ? [= <-]; by split; vm_compute]. apply upd_flow_ok; [done|by split; vm_compute].
Qed.

Lemma parse_ipv6_safe b fl :
  Forall is_u8 b → flow_ok fl → safe (parse_ipv6 b fl) (λ r, tail_of b r.1.2 ∧ flow_ok r.2).
Proof.
  intros Hb Hfl. unfold parse_ipv6. apply try_pull_cases; [done|by apply safe_ret|]. intros h b' Hh Hh8 Ht _.
  step_rd nexthdr. step_rd src. step_rd dst. step_rd tcf. step_rd hlim.
  match goal with |- context [parse_ipv6_loop _ _ _ ?f] => assert (Hf : flow_ok f) end.
  { apply set_fields_ok; [done|]. widths; [|by split; vm_compute]. by apply land_in_width. }
  eapply safe_bind; [apply parse_ipv6_loop_safe; [apply Ht|exact Hf|done|lia]|].
  intros [[[n|] b2] fl2] (H1' & H2' & H3'); cbn [fst snd] in *; apply safe_ret; (split; [by eapply tail_of_trans|]); [|done].
  apply upd_flow_ok; [done|]. by apply H3'.
Qed.

(** The network layer. *)
Definition l3_ok (b : list Z) (r : option (list Z) * option (list Z) * flowf) : Prop :=
  flow_ok r.2
  ∧ match r.1 with
    | (None, None) => True
    | (Some l4, None) => tail_of b l4
    | (Some l4, Some l7) => tail_of b l4 ∧ tail_of l4 l7
    | (None, Some _) => False
    end.

Lemma l3_of_l7 b l4 (m : option (option (list Z) * flowf)) :
  tail_of b l4 → safe m (l7_ok l4) → safe ('(l7, fl) ← m; Some (Some l4, l7, fl)) (l3_ok b).
Proof.
  intros Ht (r & -> & H1 & H2). destruct r as [[l7|] fl]; apply safe_ret; split; try done. cbn. split; [done|]. by apply H1.
Qed.

Lemma parse_l3_safe b fl : Forall is_u8 b → flow_ok fl → safe (parse_l3 b fl) (l3_ok b).
Proof.
  intros Hb Hfl. unfold parse_l3. destruct (_ =? ETH_TYPE_IP).
  { unfold parse_l3_ip. eapply safe_bind; [by apply pull_ip_safe|]. intros [[h l4]|]; [|intros _; by apply safe_ret].
    intros (Hl & Hh & Ht & _). step_rd src. step_rd dst. step_rd proto. step_rd tos. step_rd frag. step_rd ttl.
    match goal with |- safe (if _ then ('(_, _) ← (if _ then parse_tcp _ ?f else _); _) else _) _ => assert (Hf : flow_ok f); [|set (f' := f) in *; clearbody f'] end.
    { apply set_fields_ok; [done|]. widths. destruct (negb _); [destruct (negb _); by split; vm_compute|apply (Hfl F_nw_frag)]. }
    destruct (Z.land frag IP_FRAG_OFF_MASK =? 0); [|by apply safe_ret]. apply l3_of_l7; [done|]. destruct Ht as [_ Ht].
    repeat case_match; [by apply parse_tcp_safe|by apply parse_udp_safe|by apply parse_sctp_safe|by apply parse_icmp_safe|by apply safe_ret, l7_none]. }
  destruct (_ =? ETH_TYPE_IPV6).
  { unfold parse_l3_ipv6. eapply safe_bind; [by apply parse_ipv6_safe|]. intros [[[|] l4] fl'] [Ht Hf]; cbn [fst snd] in *; [|by apply safe_ret].
    apply l3_of_l7; [done|]. destruct Ht as [_ Ht].
    repeat case_match; [by apply parse_tcp_safe|by apply parse_udp_safe|by apply parse_sctp_safe|by apply parse_icmpv6_safe|by apply safe_ret, l7_none]. }
  destruct (_ || _); [|by apply safe_ret]. unfold parse_l3_arp.
  eapply (safe_bind _ _ flow_ok); [|intros fl' Hf; by apply safe_ret].
  apply try_pull_cases; [done|by apply safe_ret|]. intros h b' Hh Hh8 _ _. step_rd hrd. step_rd pro. step_rd hln. step_rd pln.
  destruct (_ && _); [|by apply safe_ret]. step_rd op. step_rd spa. step_rd tpa. step_rd sha. step_rd tha. apply safe_ret.
  apply set_fields_ok; [|widths]. destruct (Z.leb_spec op 0xff); [|done]. apply upd_flow_ok; [done|]. unfold in_width in *. cbn. lia.
Qed.

(** The order of the markers. *)
Definition markers_ok (p : ofpbuf) : Prop :=
  let n := Z.of_nat (length (ob_data p)) in
  let above (lo : option Z) (m : option Z) := ∀ x, m = Some x → ∃ y, lo = Some y ∧ y ≤ x ≤ n in
  ob_l2 p = Some 0 ∧ above (Some 14) (ob_l2_5 p) ∧ above (Some 14) (ob_l3 p) ∧ (is_Some (ob_l2_5 p) → above (ob_l2_5 p) (ob_l3 p))
  ∧ above (ob_l3 p) (ob_l4 p) ∧ above (ob_l4 p) (ob_l7 p).

Lemma metadata_ok prio mark tnl in_port :
  is_u32 prio → is_u32 mark → (∀ t, tnl = Some t → flow_ok t) → (∀ p, in_port = Some p → is_u16 p) →
  flow_ok (flow_metadata_init prio mark tnl in_port).
Proof.
  intros Hp Hm Ht Hi. assert (H0 : flow_ok (λ _, 0)) by (intros f; split; [done|]; apply Z.pow_pos_nonneg; [done|]; pose proof (field_width_pos f); lia).
  unfold flow_metadata_init. apply set_fields_ok; [|widths].
  assert (H1 : flow_ok (match tnl with Some t => set_fields ((λ f, (f, t f)) <$> tunnel_fields) (λ _, 0) | None => λ _, 0 end)).
  { destruct tnl as [t|]; [|done]. apply set_fields_ok; [done|]. specialize (Ht t eq_refl). apply Forall_fmap, Forall_true. intros f. apply Ht. }
  destruct in_port as [p|]; [|done]. apply upd_flow_ok; [done|]. by apply Hi.
Qed.

(** C7: Parsing a packet never reads outside of it and always returns, with
    any bytes: every header is checked to be complete before it is read, the
    loops over MPLS labels, IPv6 extension headers and neighbour discovery
    options end.  Every field of the flow fits its width, and the markers of
    the headers are in order and within the packet. *)
Theorem flow_extract_total packet prio mark tnl in_port :
  Forall is_u8 (ob_data packet) → is_u32 prio → is_u32 mark → (∀ t, tnl = Some t → flow_ok t) → (∀ p, in_port = Some p → is_u16 p) →
  ∃ packet' fl, flow_extract packet prio mark tnl in_port = Some (packet', fl)
    ∧ ob_data packet' = ob_data packet ∧ flow_ok fl ∧ markers_ok packet'.
Proof.
  intros Hb Hp Hm Ht Hi. pose proof (metadata_ok prio mark tnl in_port Hp Hm Ht Hi) as Hfl.
  cut (safe (flow_extract packet prio mark tnl in_port) (λ r, ob_data r.1 = ob_data packet ∧ flow_ok r.2 ∧ markers_ok r.1)).
  { intros ([p fl] & E & H). by exists p, fl. }
  unfold flow_extract. revert Hfl. generalize (flow_metadata_init prio mark tnl in_port). intros fl Hfl.
  set (d := ob_data packet) in *. destruct (Nat.ltb_spec (length d) 14).
  { apply safe_ret. split; [done|]. split; [done|]. split_and!; done. }
  step_rd src. step_rd dst. eapply safe_bind; [apply pull_safe; [lia|done]|]. intros [h b] (_ & _ & Hlb & _ & Hb8). cbn [fst snd] in *.
  step_rd et.
  assert (Hfl1 : flow_ok (set_fields [(F_dl_src, src); (F_dl_dst, dst)] fl)) by (apply set_fields_ok; [done|widths]).
  revert Hfl1. generalize (set_fields [(F_dl_src, src); (F_dl_dst, dst)] fl). intros fl1 Hfl1.
  eapply (safe_bind _ _ (λ r, tail_of b r.1 ∧ flow_ok r.2 ∧ (2 ≤ length r.1)%nat)).
  { destruct (_ =? _); [apply parse_vlan_safe; [done|done|lia]|]. apply safe_ret. cbn [fst snd]. split; [done|]. split; [done|lia]. }
  intros [b1 fl2] ([Hl1 H81] & Hfl2 & Hlen1). cbn [fst snd] in *.
  eapply safe_bind; [by apply parse_ethertype_safe|]. intros [ty b2] [[Hl2 H82] Hty]. cbn [fst snd] in *.
  assert (Hfl3 : flow_ok (upd F_dl_type ty fl2)) by by apply upd_flow_ok. revert Hfl3. generalize (upd F_dl_type ty fl2). intros fl3 Hfl3.
  eapply (safe_bind _ _ (λ r, tail_of b2 r.1 ∧ flow_ok r.2)).
  { destruct (eth_type_mpls ty); [apply parse_mpls_safe; [done|done|lia]|by apply safe_ret]. }
  intros [b3 fl4] ([Hl3 H83] & Hfl4). cbn [fst snd] in *.
  eapply safe_bind; [by apply parse_l3_safe|]. intros [[l4 l7] fl5] [Hfl5 Hl]. cbn [fst snd] in *. apply safe_ret. cbn [fst snd].
  split; [done|]. split; [done|]. unfold markers_ok. cbn [ob_data ob_l2 ob_l2_5 ob_l3 ob_l4 ob_l7]. fold d.
  split; [done|]. split; [destruct (eth_type_mpls ty); [|done]; intros x [= <-]; eexists; split; [done|lia]|].
  split; [intros x [= <-]; eexists; split; [done|lia]|].
  split; [destruct (eth_type_mpls ty); [|by intros [? ?]]; intros _ x [= <-]; eexists; split; [done|lia]|].
  destruct l4 as [l4|], l7 as [l7|]; try done.
  - destruct Hl as [[? ?] [? ?]]. split; intros x [= <-]; eexists; (split; [done|lia]).
  - destruct Hl as [? ?]. split; intros x [= <-]; eexists; (split; [done|lia]).
Qed.

Definition truncated_vlan_packet : ofpbuf :=
  Ofpbuf (be_bytes 6 1 ++ be_bytes 6 2 ++ be_bytes 2 ETH_TYPE_VLAN ++ [0; 5]) None None None None None.

Lemma flow_extract_total_witness :
  ∃ packet' fl, flow_extract truncated_vlan_packet 0 0 None (Some 1) = Some (packet', fl)
    ∧ ob_data packet' = ob_data truncated_vlan_packet ∧ flow_ok fl ∧ markers_ok packet'.
Proof.
  apply flow_extract_total; [|done..|by intros p [= <-]].
  cbn [ob_data truncated_vlan_packet]. repeat apply Forall_app_2; try apply be_bytes_u8. by repeat constructor.
Defined.
