(* ===== verification/PacketBytes.v ===== *)
(** * Reading and writing parts of packets

    How [rd] and [wr] of Packets.v act on concatenations, prefixes and
    suffixes, and how what was written is read again. *)
From stdpp Require Import list.
From S2P Require Import Prelude ByteOrder FlowLayout Hash Bitwise MatchFields MetaFlow OdpActions Csum Packets.

(** ** Reading *)

Lemma rd_fits ofs len d : (ofs + len ≤ length d)%nat → rd ofs len d = Some (get_be (take len (drop ofs d))).
Proof. intros H. unfold rd. by rewrite (proj2 (Nat.leb_le _ _) H). Qed.

Lemma rd_Some_fits ofs len d v : rd ofs len d = Some v → (ofs + len ≤ length d)%nat.
Proof. unfold rd. destruct (Nat.leb_spec (ofs + len) (length d)); [done|discriminate]. Qed.

Lemma rd_app_l ofs len a b : (ofs + len ≤ length a)%nat → rd ofs len (a ++ b) = rd ofs len a.
Proof.
  intros H. rewrite !rd_fits by (rewrite ?length_app; lia). rewrite drop_app_le by lia.
  by rewrite take_app_le by (rewrite length_drop; lia).
Qed.

Lemma rd_app_r ofs len a b n : length a = n → rd (n + ofs) len (a ++ b) = rd ofs len b.
Proof.
  intros <-. unfold rd. rewrite length_app, drop_app_add.
  replace (length a + ofs + len <=? length a + length b)%nat with (ofs + len <=? length b)%nat; [done|].
  apply Bool.eq_iff_eq_true. rewrite !Nat.leb_le. lia.
Qed.

Lemma rd_drop ofs len n d : (n ≤ length d)%nat → rd ofs len (drop n d) = rd (n + ofs) len d.
Proof.
  intros H. rewrite <- (take_drop n d) at 2. symmetry. apply rd_app_r. rewrite length_take. lia.
Qed.

Lemma rd_take ofs len n d : (ofs + len ≤ n)%nat → (n ≤ length d)%nat → rd ofs len (take n d) = rd ofs len d.
Proof.
  intros H Hn. rewrite <- (take_drop n d) at 2. symmetry. apply rd_app_l. rewrite length_take. lia.
Qed.

Lemma rd_be_bytes len v b : rd 0 len (be_bytes len v ++ b) = Some (wrap (8 * Z.of_nat len) v).
Proof.
  rewrite rd_app_l, rd_fits by (rewrite length_be_bytes; lia). rewrite drop_0, firstn_all2 by (rewrite length_be_bytes; lia).
  by rewrite get_be_bytes.
Qed.

(** ** Writing *)

(** The bytes from [ofs] on replaced. *)
Definition put (ofs : nat) (bs : list Z) (d : list Z) : list Z := take ofs d ++ bs ++ drop (ofs + length bs) d.

Lemma length_put ofs bs d : (ofs + length bs ≤ length d)%nat → length (put ofs bs d) = length d.
Proof. intros H. unfold put. rewrite !length_app, length_take, length_drop. lia. Qed.

Lemma wr_fits ofs len v d : (ofs + len ≤ length d)%nat → wr ofs len v d = Some (put ofs (be_bytes len v) d).
Proof. intros H. unfold wr, put. rewrite (proj2 (Nat.leb_le _ _) H). by rewrite length_be_bytes. Qed.

Lemma put_app_l ofs bs a b : (ofs + length bs ≤ length a)%nat → put ofs bs (a ++ b) = put ofs bs a ++ b.
Proof.
  intros H. unfold put. rewrite take_app_le, drop_app_le by lia. by rewrite <- !app_assoc.
Qed.

Lemma put_app_r ofs bs a b n : length a = n → put (n + ofs) bs (a ++ b) = a ++ put ofs bs b.
Proof.
  intros <-. unfold put. rewrite take_app_add, <- Nat.add_assoc, drop_app_add. by rewrite <- app_assoc.
Qed.

Lemma take_put n ofs bs d : (n ≤ ofs)%nat → (ofs ≤ length d)%nat → take n (put ofs bs d) = take n d.
Proof. intros H Hd. unfold put. rewrite take_app_le by (rewrite length_take; lia). by rewrite take_take, Nat.min_l. Qed.

Lemma drop_put n ofs bs d : (ofs + length bs ≤ n)%nat → (ofs + length bs ≤ length d)%nat → drop n (put ofs bs d) = drop n d.
Proof.
  intros H Hd. unfold put. replace n with (length (take ofs d) + (length bs + (n - ofs - length bs)))%nat at 1 by (rewrite length_take; lia).
  rewrite !drop_app_add, drop_drop. f_equal. lia.
Qed.

Lemma rd_put_same ofs len v d : (ofs + len ≤ length d)%nat → rd ofs len (put ofs (be_bytes len v) d) = Some (wrap (8 * Z.of_nat len) v).
Proof.
  intros H. unfold put. replace ofs with (ofs + 0)%nat at 1 by lia. rewrite rd_app_r by (rewrite length_take; lia). apply rd_be_bytes.
Qed.

Lemma rd_put_other o l ofs bs d :
  (ofs + length bs ≤ length d)%nat → (o + l ≤ ofs ∨ ofs + length bs ≤ o)%nat → rd o l (put ofs bs d) = rd o l d.
Proof.
  intros H [Ho|Ho].
  - rewrite <- (rd_take o l ofs (put ofs bs d)), take_put, rd_take by (rewrite ?length_put; lia). done.
  - unfold rd. rewrite length_put, drop_put by lia. done.
Qed.

Lemma put_u8 ofs bs d : Forall is_u8 bs → Forall is_u8 d → Forall is_u8 (put ofs bs d).
Proof. intros Hb Hd. unfold put. repeat apply Forall_app_2; [by apply Forall_take|done|by apply Forall_drop]. Qed.


Lemma rd_bytes ofs len v d : Forall is_u8 d → rd ofs len d = Some v → be_bytes len v = take len (drop ofs d).
Proof.
  intros Hd Hr. pose proof (rd_Some_fits _ _ _ _ Hr) as Hl. rewrite rd_fits in Hr by done. injection Hr as <-.
  set (m := take len (drop ofs d)).
  replace len with (length m) by (unfold m; rewrite length_take, length_drop; lia).
  apply be_bytes_get_be. by apply Forall_take, Forall_drop.
Qed.

Lemma take_drop_add (a b : nat) (d : list Z) : take a d ++ take b (drop a d) = take (a + b) d.
Proof. revert d. induction a as [|a IH]; intros [|x d]; cbn; [done..|by rewrite take_nil|]. by rewrite IH. Qed.

(** Writing what is there. *)
Lemma put_same ofs len v d : Forall is_u8 d → rd ofs len d = Some v → put ofs (be_bytes len v) d = d.
Proof.
  intros Hd Hr. unfold put. rewrite length_be_bytes, (rd_bytes _ _ _ _ Hd Hr), <- drop_drop, take_drop. apply take_drop.
Qed.

(** Writes one after the other. *)
Lemma put_put ofs x y d : (ofs + length x + length y ≤ length d)%nat → put (ofs + length x) y (put ofs x d) = put ofs (x ++ y) d.
Proof.
  intros H. assert (E : take (ofs + length x) (put ofs x d) = take ofs d ++ x).
  { unfold put. rewrite app_assoc. apply take_app_length'. rewrite length_app, length_take. lia. }
  unfold put at 1. rewrite E, drop_put by lia. unfold put. by rewrite length_app, !app_assoc, Nat.add_assoc.
Qed.

Lemma put_0 x d : put 0 x d = x ++ drop (length x) d.
Proof. done. Qed.

(** ** Markers *)

Lemma rdm_at (n : nat) ofs len p : rdm (Some (Z.of_nat n)) ofs len p = rd (n + ofs) len (ob_data p).
Proof. unfold rdm. cbn [mbind option_bind]. rewrite (proj2 (Z.leb_le _ _)) by lia. by rewrite Nat2Z.id. Qed.

Lemma wrm_at (n : nat) ofs len v p :
  (n + ofs + len ≤ length (ob_data p))%nat → wrm (Some (Z.of_nat n)) ofs len v p = Some (set_data (put (n + ofs) (be_bytes len v) (ob_data p)) p).
Proof.
  intros H. unfold wrm. cbn [mbind option_bind]. rewrite (proj2 (Z.leb_le _ _)) by lia. rewrite Nat2Z.id, wr_fits by done. done.
Qed.

(** Writing a header from its start, field by field. *)
Lemma wr_next ofs len v x d : length x = ofs → (ofs + len ≤ length d)%nat → wr ofs len v (put 0 x d) = Some (put 0 (x ++ be_bytes len v) d).
Proof.
  intros Hx Hfit. rewrite wr_fits by (rewrite length_put; lia). rewrite <- Hx at 1. f_equal.
  apply (put_put 0). rewrite length_be_bytes. lia.
Qed.

(** ** Fields *)

Abbreviation fld d o l := (ByteOrder.field d o l).

Lemma rd_fld ofs len d : (ofs + len ≤ length d)%nat → rd ofs len d = Some (fld d ofs len).
Proof. apply rd_fits. Qed.

Lemma fld_of_rd ofs len d v : rd ofs len d = Some v → fld d ofs len = v.
Proof. intros H. rewrite rd_fld in H by (by eapply rd_Some_fits). by injection H as <-. Qed.

Lemma fld_width ofs len d : Forall is_u8 d → (ofs + len ≤ length d)%nat → in_width (8 * Z.of_nat len) (fld d ofs len).
Proof.
  intros Hd Hl. assert (Hb : Forall is_u8 (take len (drop ofs d))) by by apply Forall_take, Forall_drop.
  apply get_be_width in Hb. rewrite length_take, length_drop, Nat.min_l in Hb by lia. done.
Qed.

Lemma fld_app_l a b ofs len : (ofs + len ≤ length a)%nat → fld (a ++ b) ofs len = fld a ofs len.
Proof. intros H. apply fld_of_rd. by rewrite rd_app_l, rd_fld. Qed.

Lemma fld_put_same ofs len v d : (ofs + len ≤ length d)%nat → fld (put ofs (be_bytes len v) d) ofs len = wrap (8 * Z.of_nat len) v.
Proof. intros H. by apply fld_of_rd, rd_put_same. Qed.

Lemma fld_put_other o l ofs bs d :
  (ofs + length bs ≤ length d)%nat → (o + l ≤ length d)%nat → (o + l ≤ ofs ∨ ofs + length bs ≤ o)%nat → fld (put ofs bs d) o l = fld d o l.
Proof. intros H1 H2 H3. apply fld_of_rd. by rewrite rd_put_other, rd_fld. Qed.

(** ** Sums *)

Lemma byte_sum_put hi ofs bs d :
  (ofs + length bs ≤ length d)%nat →
  byte_sum hi (put ofs bs d) + byte_sum (xorb hi (Nat.odd ofs)) (take (length bs) (drop ofs d))
  = byte_sum hi d + byte_sum (xorb hi (Nat.odd ofs)) bs.
Proof.
  intros H. unfold put. rewrite <- (take_drop ofs d) at 4. rewrite <- (take_drop (length bs) (drop ofs d)) at 2.
  rewrite !byte_sum_app, !length_take, length_drop, drop_drop.
  rewrite (Nat.min_l ofs), (Nat.min_l (length bs)) by lia. lia.
Qed.

(** A field of words. *)
Lemma csum_put ofs len v d :
  Forall is_u8 d → (ofs + len ≤ length d)%nat → Nat.even ofs = true → Nat.even len = true →
  csum_eq (word_sum (put ofs (be_bytes len v) d) + fld d ofs len) (word_sum d + wrap (8 * Z.of_nat len) v).
Proof.
  intros Hd Hl Ho Hn. pose proof (byte_sum_put true ofs (be_bytes len v) d) as E. rewrite length_be_bytes in E. specialize (E Hl).
  rewrite <- Nat.negb_even, Ho in E. cbn [negb xorb] in E.
  assert (Hm : Forall is_u8 (take len (drop ofs d))) by by apply Forall_take, Forall_drop.
  rewrite <- !word_sum_bytes in E; [|apply be_bytes_u8|done|done|apply put_u8; [apply be_bytes_u8|done]].
  assert (E1 : csum_eq (word_sum (take len (drop ofs d))) (fld d ofs len)).
  { apply word_sum_get_be; [done|]. by rewrite length_take, length_drop, Nat.min_l by lia. }
  assert (E2 : csum_eq (word_sum (be_bytes len v)) (wrap (8 * Z.of_nat len) v)).
  { rewrite <- get_be_bytes. apply word_sum_get_be; [apply be_bytes_u8|]. by rewrite length_be_bytes. }
  rewrite <- E1, <- E2. by rewrite E.
Qed.

(** A field of one byte. *)
Lemma sum_put_byte ofs v d :
  Forall is_u8 d → (ofs + 1 ≤ length d)%nat →
  let w := if Nat.even ofs then 256 else 1 in
  word_sum (put ofs (be_bytes 1 v) d) + fld d ofs 1 * w = word_sum d + u8 v * w.
Proof.
  intros Hd Hl w. pose proof (byte_sum_put true ofs (be_bytes 1 v) d Hl) as E.
  rewrite !word_sum_bytes by (first [done|apply put_u8; [apply be_bytes_u8|done]]). rewrite <- Nat.negb_even in E.
  change (length (be_bytes 1 v)) with 1%nat in E. unfold ByteOrder.field.
  destruct (drop ofs d) as [|x rest] eqn:Ex; [pose proof (length_drop d ofs) as Hx; rewrite Ex in Hx; cbn in Hx; lia|].
  cbn [take be_bytes byte_sum] in *. unfold get_be. cbn [foldl]. rewrite Z.shiftl_0_l, Z.lor_0_l.
  change (take 0 rest) with (@nil Z) in *. change (8 * Z.of_nat 0) with 0. rewrite Z.shiftr_0_r. rewrite Z.mul_0_r, Z.shiftr_0_r in E.
  unfold w. destruct (Nat.even ofs); cbn [negb xorb take byte_sum foldl] in *; lia.
Qed.
