(* ===== verification/NxMatch.v ===== *)
(** * Matches in messages (lib/nx-match.c, lib/meta-flow.c)

    The encoding of a match as a sequence of entries in Nicira Extended Match
    (NXM) or OpenFlow Extensible Match (OXM) format, and its decoding.  A
    function that appends to a buffer gives the bytes it appends.  [None] is an
    access outside of the bytes or a failed assertion. *)
From S2P Require Import Prelude ByteOrder Hash Hmap MatchFields MetaFlow OdpActions Csum Packets.

(** ** Headers (include/openflow/nicira-ext.h) *)

Definition NXM_HEADER__ (vendor field hasmask length : Z) : Z :=
  Z.lor (Z.lor (Z.lor (Z.shiftl vendor 16) (Z.shiftl field 9)) (Z.shiftl hasmask 8)) length.
Definition NXM_HEADER (vendor field length : Z) : Z := NXM_HEADER__ vendor field 0 length.
Definition NXM_HEADER_W (vendor field length : Z) : Z := NXM_HEADER__ vendor field 1 (length * 2).
Definition NXM_VENDOR (header : Z) : Z := Z.shiftr header 16.
Definition NXM_FIELD (header : Z) : Z := Z.land (Z.shiftr header 9) 0x7f.
Definition NXM_HASMASK (header : Z) : bool := negb (Z.land (Z.shiftr header 8) 1 =? 0).
Definition NXM_LENGTH (header : Z) : Z := Z.land header 0xff.
Definition NXM_MAKE_WILD_HEADER (header : Z) : Z := NXM_HEADER_W (NXM_VENDOR header) (NXM_FIELD header) (NXM_LENGTH header).

Definition nxm_of (field length : Z) : Z := NXM_HEADER 0x0000 field length.
Definition nxm_nx (field length : Z) : Z := NXM_HEADER 0x0001 field length.
Definition OXM_HEADER (field length : Z) : Z := NXM_HEADER 0x8000 field length.

Definition NXM_NX_COOKIE : Z := nxm_nx 30 8.
Definition NXM_NX_COOKIE_W : Z := NXM_HEADER_W 0x0001 30 8.

(** The members nxm_header and oxm_header of the entries of [mf_fields]. *)
Definition mf_headers (mf : mf_field) : Z * Z :=
  match mf with
  | MFF_TUN_ID => (nxm_nx 16 8, OXM_HEADER 38 8)
  | MFF_TUN_SRC => (nxm_nx 31 4, nxm_nx 31 4)
  | MFF_TUN_DST => (nxm_nx 32 4, nxm_nx 32 4)
  | MFF_TUN_FLAGS | MFF_TUN_TTL | MFF_TUN_TOS | MFF_SKB_PRIORITY | MFF_DL_VLAN | MFF_DL_VLAN_PCP => (0, 0)
  | MFF_METADATA => (OXM_HEADER 2 8, OXM_HEADER 2 8)
  | MFF_IN_PORT => (nxm_of 0 2, nxm_of 0 2)
  | MFF_IN_PORT_OXM => (OXM_HEADER 0 4, OXM_HEADER 0 4)
  | MFF_PKT_MARK => (nxm_nx 33 4, nxm_nx 33 4)
  | MFF_REG i => (nxm_nx (Z.of_nat i) 4, nxm_nx (Z.of_nat i) 4)
  | MFF_ETH_SRC => (nxm_of 2 6, OXM_HEADER 4 6)
  | MFF_ETH_DST => (nxm_of 1 6, OXM_HEADER 3 6)
  | MFF_ETH_TYPE => (nxm_of 3 2, OXM_HEADER 5 2)
  | MFF_VLAN_TCI => (nxm_of 4 2, nxm_of 4 2)
  | MFF_VLAN_VID => (OXM_HEADER 6 2, OXM_HEADER 6 2)
  | MFF_VLAN_PCP => (OXM_HEADER 7 1, OXM_HEADER 7 1)
  | MFF_MPLS_LABEL => (OXM_HEADER 34 4, OXM_HEADER 34 4)
  | MFF_MPLS_TC => (OXM_HEADER 35 1, OXM_HEADER 35 1)
  | MFF_MPLS_BOS => (OXM_HEADER 36 1, OXM_HEADER 36 1)
  | MFF_IPV4_SRC => (nxm_of 7 4, OXM_HEADER 11 4)
  | MFF_IPV4_DST => (nxm_of 8 4, OXM_HEADER 12 4)
  | MFF_IPV6_SRC => (nxm_nx 19 16, OXM_HEADER 26 16)
  | MFF_IPV6_DST => (nxm_nx 20 16, OXM_HEADER 27 16)
  | MFF_IPV6_LABEL => (nxm_nx 27 4, OXM_HEADER 28 4)
  | MFF_IP_PROTO => (nxm_of 6 1, OXM_HEADER 10 1)
  | MFF_IP_DSCP => (nxm_of 5 1, nxm_of 5 1)
  | MFF_IP_DSCP_SHIFTED => (OXM_HEADER 8 1, OXM_HEADER 8 1)
  | MFF_IP_ECN => (nxm_nx 28 1, OXM_HEADER 9 1)
  | MFF_IP_TTL => (nxm_nx 29 1, nxm_nx 29 1)
  | MFF_IP_FRAG => (nxm_nx 26 1, nxm_nx 26 1)
  | MFF_ARP_OP => (nxm_of 15 2, OXM_HEADER 21 2)
  | MFF_ARP_SPA => (nxm_of 16 4, OXM_HEADER 22 4)
  | MFF_ARP_TPA => (nxm_of 17 4, OXM_HEADER 23 4)
  | MFF_ARP_SHA => (nxm_nx 17 6, OXM_HEADER 24 6)
  | MFF_ARP_THA => (nxm_nx 18 6, OXM_HEADER 25 6)
  | MFF_TCP_SRC => (nxm_of 9 2, OXM_HEADER 13 2)
  | MFF_TCP_DST => (nxm_of 10 2, OXM_HEADER 14 2)
  | MFF_TCP_FLAGS => (nxm_nx 34 2, nxm_nx 34 2)
  | MFF_UDP_SRC => (nxm_of 11 2, OXM_HEADER 15 2)
  | MFF_UDP_DST => (nxm_of 12 2, OXM_HEADER 16 2)
  | MFF_SCTP_SRC => (OXM_HEADER 17 2, OXM_HEADER 17 2)
  | MFF_SCTP_DST => (OXM_HEADER 18 2, OXM_HEADER 18 2)
  | MFF_ICMPV4_TYPE => (nxm_of 13 1, OXM_HEADER 19 1)
  | MFF_ICMPV4_CODE => (nxm_of 14 1, OXM_HEADER 20 1)
  | MFF_ICMPV6_TYPE => (nxm_nx 21 1, OXM_HEADER 29 1)
  | MFF_ICMPV6_CODE => (nxm_nx 22 1, OXM_HEADER 30 1)
  | MFF_ND_TARGET => (nxm_nx 23 16, OXM_HEADER 31 16)
  | MFF_ND_SLL => (nxm_nx 24 6, OXM_HEADER 32 6)
  | MFF_ND_TLL => (nxm_nx 25 6, OXM_HEADER 33 6)
  end.
Definition nxm_header (mf : mf_field) : Z := (mf_headers mf).1.
Definition oxm_header (mf : mf_field) : Z := (mf_headers mf).2.

(** ** The index of headers (lib/meta-flow.c) *)

(** The fields in the order of enum mf_field_id. *)
Definition mf_ids : list mf_field :=
  [MFF_TUN_ID; MFF_TUN_SRC; MFF_TUN_DST; MFF_TUN_FLAGS; MFF_TUN_TTL; MFF_TUN_TOS; MFF_METADATA; MFF_IN_PORT; MFF_IN_PORT_OXM;
   MFF_SKB_PRIORITY; MFF_PKT_MARK]
  ++ (MFF_REG <$> seq 0 FLOW_N_REGS)
  ++ [MFF_ETH_SRC; MFF_ETH_DST; MFF_ETH_TYPE; MFF_VLAN_TCI; MFF_DL_VLAN; MFF_VLAN_VID; MFF_DL_VLAN_PCP; MFF_VLAN_PCP;
      MFF_MPLS_LABEL; MFF_MPLS_TC; MFF_MPLS_BOS; MFF_IPV4_SRC; MFF_IPV4_DST; MFF_IPV6_SRC; MFF_IPV6_DST; MFF_IPV6_LABEL;
      MFF_IP_PROTO; MFF_IP_DSCP; MFF_IP_DSCP_SHIFTED; MFF_IP_ECN; MFF_IP_TTL; MFF_IP_FRAG; MFF_ARP_OP; MFF_ARP_SPA; MFF_ARP_TPA;
      MFF_ARP_SHA; MFF_ARP_THA; MFF_TCP_SRC; MFF_TCP_DST; MFF_TCP_FLAGS; MFF_UDP_SRC; MFF_UDP_DST; MFF_SCTP_SRC; MFF_SCTP_DST;
      MFF_ICMPV4_TYPE; MFF_ICMPV4_CODE; MFF_ICMPV6_TYPE; MFF_ICMPV6_CODE; MFF_ND_TARGET; MFF_ND_SLL; MFF_ND_TLL].

Definition nxm_index : Type := hmap (Z * mf_field).

Definition mf_from_nxm_header__ (all_fields : nxm_index) (header : Z) : option mf_field :=
  snd <$> List.find (λ f, f.1 =? header) (hmap_for_each_in_bucket all_fields (hash_int header 0)).

Definition add_nxm_field (header : Z) (mf : mf_field) (all_fields : nxm_index) : nxm_index :=
  hmap_insert_at all_fields (header, mf) (hash_int header 0).

Definition nxm_init_add_field (mf : mf_field) (header : Z) (all_fields : nxm_index) : option nxm_index :=
  if negb (header =? 0) then
    if mf_from_nxm_header__ all_fields header then None
    else
      let all_fields := add_nxm_field header mf all_fields in
      Some (match mf_maskability mf with
            | MFM_NONE => all_fields
            | MFM_FULLY => add_nxm_field (NXM_MAKE_WILD_HEADER header) mf all_fields
            end)
  else Some all_fields.

Definition nxm_do_init : option nxm_index :=
  foldl (λ all_fields mf,
    all_fields ← all_fields;
    all_fields ← nxm_init_add_field mf (nxm_header mf) all_fields;
    if negb (oxm_header mf =? nxm_header mf) then nxm_init_add_field mf (oxm_header mf) all_fields else Some all_fields)
    (Some hmap_init) mf_ids.

(** What the first call of nxm_init() builds. *)
Definition all_fields : nxm_index := Eval vm_compute in default hmap_init nxm_do_init.

Definition mf_from_nxm_header (header : Z) : option mf_field := mf_from_nxm_header__ all_fields header.

(** ** Decoding *)

Definition nxm_field_bytes (header : Z) : Z :=
  let length := NXM_LENGTH header in if NXM_HASMASK header then length / 2 else length.
Definition nxm_field_bits (header : Z) : Z := nxm_field_bytes header * 8.

(** The header of the entry at the start of the bytes of a match, or 0. *)
Definition nx_entry_ok (p : list Z) : option Z :=
  let match_len := Z.of_nat (length p) in
  if match_len <? 4 then Some 0
  else
    header ← rd 0 4 p;
    let payload_len := NXM_LENGTH header in
    if payload_len =? 0 then Some 0
    else if match_len <? payload_len + 4 then Some 0
    else Some header.

(** The match after an entry for the field [mf], or an error. *)
Definition nx_pull_entry (mf : mf_field) (header : Z) (p : list Z) (m : fmatch) : option (ofperr + fmatch) :=
  if negb (mf_are_prereqs_ok mf (fm_flow m)) then Some (inl OFPERR_OFPBMC_BAD_PREREQ)
  else if negb (mf_is_all_wild mf (fm_wc m)) then Some (inl OFPERR_OFPBMC_DUP_FIELD)
  else
    let width := mf_n_bytes mf in
    value ← rd 4 width p;
    if negb (mf_is_value_valid mf value) then Some (inl OFPERR_OFPBMC_BAD_VALUE)
    else if negb (NXM_HASMASK header) then m ← mf_set_value mf value m; Some (inr m)
    else
      mask ← rd (4 + width) width p;
      if negb (mf_is_mask_valid mf mask) then Some (inl OFPERR_OFPBMC_BAD_MASK)
      else m ← mf_set mf value (Some mask) m; Some (inr m).

(** The cookie and its mask; [None] when the caller does not ask for them. *)
Definition cookies : Type := option (Z * Z).

(** The result of an entry when it may be one for the cookie. *)
Definition nx_pull_cookie (header : Z) (p : list Z) (cookie : cookies) (r : ofperr + fmatch) (m : fmatch) :
    option (ofperr + fmatch * cookies) :=
  let others := match r with inl e => inl e | inr m => inr (m, cookie) end in
  match cookie with
  | Some (_, cookie_mask) =>
      if (header =? NXM_NX_COOKIE) || (header =? NXM_NX_COOKIE_W) then
        if negb (cookie_mask =? 0) then Some (inl OFPERR_OFPBMC_DUP_FIELD)
        else
          c ← rd 4 8 p;
          k ← (if NXM_HASMASK header then rd 12 8 p else Some (2 ^ 64 - 1));
          Some (inr (m, Some (c, k)))
      else Some others
  | None => Some others
  end.

(** Every round takes five bytes at least. *)
Fixpoint nx_pull_loop (fuel : nat) (strict : bool) (p : list Z) (m : fmatch) (cookie : cookies) : option (ofperr + fmatch * cookies) :=
  header ← nx_entry_ok p;
  if header =? 0 then Some (if (length p =? 0)%nat then inr (m, cookie) else inl OFPERR_OFPBMC_BAD_LEN)
  else
    match fuel with
    | O => None
    | S fuel =>
        let next := drop (4 + Z.to_nat (NXM_LENGTH header)) p in
        let finish r :=
          r ← nx_pull_cookie header p cookie r m;
          match r with
          | inl error => Some (inl error)
          | inr (m, cookie) => nx_pull_loop fuel strict next m cookie
          end in
        match mf_from_nxm_header header with
        | None => if strict then finish (inl OFPERR_OFPBMC_BAD_FIELD) else nx_pull_loop fuel strict next m cookie
        | Some mf => r ← nx_pull_entry mf header p m; finish r
        end
    end.

Definition nx_pull_raw (p : list Z) (strict want_cookie : bool) : option (ofperr + fmatch * cookies) :=
  let cookie := if want_cookie then Some (0, 0) else None in
  nx_pull_loop (length p) strict p fmatch_init_catchall cookie.

Definition ROUND_UP (x y : nat) : nat := ((x + (y - 1)) / y * y)%nat.

(** The bytes after the match, and the result. *)
Definition nx_pull_match__ (b : list Z) (match_len : nat) (strict want_cookie : bool) : option (list Z * (ofperr + fmatch * cookies)) :=
  if (match_len =? 0)%nat then r ← nx_pull_raw [] strict want_cookie; Some (b, r)
  else
    match ofpbuf_try_pull (ROUND_UP match_len 8) b with
    | None => Some (b, inl OFPERR_OFPBMC_BAD_LEN)
    | Some (p, b) => r ← nx_pull_raw (take match_len p) strict want_cookie; Some (b, r)
    end.

Definition nx_pull_match (b : list Z) (match_len : nat) (want_cookie : bool) := nx_pull_match__ b match_len true want_cookie.
Definition nx_pull_match_loose (b : list Z) (match_len : nat) (want_cookie : bool) := nx_pull_match__ b match_len false want_cookie.

Definition OFPMT_OXM : Z := 1.

Definition oxm_pull_match__ (b : list Z) (strict : bool) : option (list Z * (ofperr + fmatch * cookies)) :=
  if (length b <? 4)%nat then Some (b, inl OFPERR_OFPBMC_BAD_LEN)
  else
    match_len ← rd 2 2 b;
    if match_len <? 4 then Some (b, inl OFPERR_OFPBMC_BAD_LEN)
    else
      type ← rd 0 2 b;
      if negb (type =? OFPMT_OXM) then Some (b, inl OFPERR_OFPBMC_BAD_TYPE)
      else
        match ofpbuf_try_pull (ROUND_UP (Z.to_nat match_len) 8) b with
        | None => Some (b, inl OFPERR_OFPBMC_BAD_LEN)
        | Some (p, b) => r ← nx_pull_raw (drop 4 (take (Z.to_nat match_len) p)) strict false; Some (b, r)
        end.

Definition oxm_pull_match (b : list Z) := oxm_pull_match__ b true.
Definition oxm_pull_match_loose (b : list Z) := oxm_pull_match__ b false.

(** ** Encoding *)

Definition nxm_put_header (header : Z) : list Z := be_bytes 4 header.

Definition nxm_put_8 (header value : Z) : list Z := nxm_put_header header ++ be_bytes 1 value.
Definition nxm_put_8m (header value mask : Z) : list Z :=
  if mask =? 0 then []
  else if mask =? 0xff then nxm_put_8 header value
  else nxm_put_header (NXM_MAKE_WILD_HEADER header) ++ be_bytes 1 value ++ be_bytes 1 mask.

Definition nxm_put_16 (header value : Z) : list Z := nxm_put_header header ++ be_bytes 2 value.
Definition nxm_put_16w (header value mask : Z) : list Z := nxm_put_header header ++ be_bytes 2 value ++ be_bytes 2 mask.
Definition nxm_put_16m (header value mask : Z) : list Z :=
  if mask =? 0 then []
  else if mask =? 0xffff then nxm_put_16 header value
  else nxm_put_16w (NXM_MAKE_WILD_HEADER header) value mask.

Definition nxm_put_32 (header value : Z) : list Z := nxm_put_header header ++ be_bytes 4 value.
Definition nxm_put_32w (header value mask : Z) : list Z := nxm_put_header header ++ be_bytes 4 value ++ be_bytes 4 mask.
Definition nxm_put_32m (header value mask : Z) : list Z :=
  if mask =? 0 then []
  else if mask =? 0xffffffff then nxm_put_32 header value
  else nxm_put_32w (NXM_MAKE_WILD_HEADER header) value mask.

Definition nxm_put_64 (header value : Z) : list Z := nxm_put_header header ++ be_bytes 8 value.
Definition nxm_put_64w (header value mask : Z) : list Z := nxm_put_header header ++ be_bytes 8 value ++ be_bytes 8 mask.
Definition nxm_put_64m (header value mask : Z) : list Z :=
  if mask =? 0 then []
  else if mask =? 2 ^ 64 - 1 then nxm_put_64 header value
  else nxm_put_64w (NXM_MAKE_WILD_HEADER header) value mask.

Definition nxm_put_eth (header value : Z) : list Z := nxm_put_header header ++ be_bytes 6 value.
Definition nxm_put_eth_masked (header value mask : Z) : list Z :=
  if negb (mask =? 0) then
    if mask =? 2 ^ 48 - 1 then nxm_put_eth header value
    else nxm_put_header (NXM_MAKE_WILD_HEADER header) ++ be_bytes 6 value ++ be_bytes 6 mask
  else [].

Definition nxm_put_ipv6 (header value mask : Z) : list Z :=
  if mask =? 0 then []
  else if mask =? 2 ^ 128 - 1 then nxm_put_header header ++ be_bytes 16 value
  else nxm_put_header (NXM_MAKE_WILD_HEADER header) ++ be_bytes 16 value ++ be_bytes 16 mask.

Definition nxm_put_frag (m : fmatch) : list Z :=
  let nw_frag := fm_flow m F_nw_frag in
  let nw_frag_mask := fm_wc m F_nw_frag in
  if nw_frag_mask =? 0 then []
  else if nw_frag_mask =? FLOW_NW_FRAG_MASK then nxm_put_8 (nxm_header MFF_IP_FRAG) nw_frag
  else nxm_put_8m (nxm_header MFF_IP_FRAG) nw_frag (Z.land nw_frag_mask FLOW_NW_FRAG_MASK).

(** The fields of the transport protocol. *)
Definition nxm_put_l4 (m : fmatch) (icmp_proto icmp_type icmp_code : Z) (oxm : bool) : list Z :=
  let fl := fm_flow m in
  let wc := fm_wc m in
  let hdr mf := if oxm then oxm_header mf else nxm_header mf in
  if fl F_nw_proto =? IPPROTO_TCP then
    nxm_put_16m (hdr MFF_TCP_SRC) (fl F_tp_src) (wc F_tp_src)
    ++ nxm_put_16m (hdr MFF_TCP_DST) (fl F_tp_dst) (wc F_tp_dst)
    ++ nxm_put_16m (nxm_header MFF_TCP_FLAGS) (fl F_tcp_flags) (wc F_tcp_flags)
  else if fl F_nw_proto =? IPPROTO_UDP then
    nxm_put_16m (hdr MFF_UDP_SRC) (fl F_tp_src) (wc F_tp_src)
    ++ nxm_put_16m (hdr MFF_UDP_DST) (fl F_tp_dst) (wc F_tp_dst)
  else if fl F_nw_proto =? IPPROTO_SCTP then
    nxm_put_16m (oxm_header MFF_SCTP_SRC) (fl F_tp_src) (wc F_tp_src)
    ++ nxm_put_16m (oxm_header MFF_SCTP_DST) (fl F_tp_dst) (wc F_tp_dst)
  else if fl F_nw_proto =? icmp_proto then
    (if negb (wc F_tp_src =? 0) then nxm_put_8 icmp_type (fl F_tp_src) else [])
    ++ (if negb (wc F_tp_dst =? 0) then nxm_put_8 icmp_code (fl F_tp_dst) else [])
  else [].

Definition nxm_put_ip (m : fmatch) (icmp_proto icmp_type icmp_code : Z) (oxm : bool) : list Z :=
  let fl := fm_flow m in
  let wc := fm_wc m in
  let hdr mf := if oxm then oxm_header mf else nxm_header mf in
  nxm_put_frag m
  ++ (if negb (Z.land (wc F_nw_tos) IP_DSCP_MASK =? 0) then
        if oxm then nxm_put_8 (oxm_header MFF_IP_DSCP_SHIFTED) (Z.shiftr (fl F_nw_tos) 2)
        else nxm_put_8 (nxm_header MFF_IP_DSCP) (Z.land (fl F_nw_tos) IP_DSCP_MASK)
      else [])
  ++ (if negb (Z.land (wc F_nw_tos) IP_ECN_MASK =? 0) then nxm_put_8 (hdr MFF_IP_ECN) (Z.land (fl F_nw_tos) IP_ECN_MASK) else [])
  ++ (if negb oxm && negb (wc F_nw_ttl =? 0) then nxm_put_8 (nxm_header MFF_IP_TTL) (fl F_nw_ttl) else [])
  ++ (if negb (wc F_nw_proto =? 0) then
        nxm_put_8 (hdr MFF_IP_PROTO) (fl F_nw_proto)
        ++ nxm_put_l4 m icmp_proto icmp_type icmp_code oxm
      else []).

Definition ofputil_dl_type_to_openflow (flow_dl_type : Z) : Z :=
  if flow_dl_type =? FLOW_DL_TYPE_NONE then 0x05ff else flow_dl_type.

(** 802.1Q. *)
Definition nxm_put_vlan (m : fmatch) (oxm : bool) : list Z :=
  let fl := fm_flow m in
  let wc := fm_wc m in
  if oxm then
    let VID_CFI_MASK := Z.lor VLAN_VID_MASK VLAN_CFI in
    let vid := Z.land (fl F_vlan_tci) VID_CFI_MASK in
    let mask := Z.land (wc F_vlan_tci) VID_CFI_MASK in
    (if mask =? VID_CFI_MASK then nxm_put_16 (oxm_header MFF_VLAN_VID) vid
     else if negb (mask =? 0) then nxm_put_16m (oxm_header MFF_VLAN_VID) vid mask
     else [])
    ++ (if negb (vid =? 0) && negb (vlan_tci_to_pcp (wc F_vlan_tci) =? 0)
        then nxm_put_8 (oxm_header MFF_VLAN_PCP) (vlan_tci_to_pcp (fl F_vlan_tci)) else [])
  else nxm_put_16m (nxm_header MFF_VLAN_TCI) (fl F_vlan_tci) (wc F_vlan_tci).

Definition nxm_put_mpls (m : fmatch) : list Z :=
  let fl := fm_flow m in
  let wc := fm_wc m in
  if eth_type_mpls (fl F_dl_type) then
    (if negb (Z.land (wc F_mpls_lse) MPLS_TC_MASK =? 0) then nxm_put_8 (oxm_header MFF_MPLS_TC) (mpls_lse_to_tc (fl F_mpls_lse)) else [])
    ++ (if negb (Z.land (wc F_mpls_lse) MPLS_BOS_MASK =? 0)
        then nxm_put_8 (oxm_header MFF_MPLS_BOS) (if mpls_lse_to_bos (fl F_mpls_lse) then 1 else 0) else [])
    ++ (if negb (Z.land (wc F_mpls_lse) MPLS_LABEL_MASK =? 0)
        then nxm_put_32 (oxm_header MFF_MPLS_LABEL) (mpls_lse_to_label (fl F_mpls_lse)) else [])
  else [].

(** L3. *)
Definition nxm_put_l3 (m : fmatch) (oxm : bool) : list Z :=
  let fl := fm_flow m in
  let wc := fm_wc m in
  let hdr mf := if oxm then oxm_header mf else nxm_header mf in
  if fl F_dl_type =? ETH_TYPE_IP then
    nxm_put_32m (hdr MFF_IPV4_SRC) (fl F_nw_src) (wc F_nw_src)
    ++ nxm_put_32m (hdr MFF_IPV4_DST) (fl F_nw_dst) (wc F_nw_dst)
    ++ nxm_put_ip m IPPROTO_ICMP (hdr MFF_ICMPV4_TYPE) (hdr MFF_ICMPV4_CODE) oxm
  else if fl F_dl_type =? ETH_TYPE_IPV6 then
    nxm_put_ipv6 (hdr MFF_IPV6_SRC) (fl F_ipv6_src) (wc F_ipv6_src)
    ++ nxm_put_ipv6 (hdr MFF_IPV6_DST) (fl F_ipv6_dst) (wc F_ipv6_dst)
    ++ nxm_put_ip m IPPROTO_ICMPV6 (hdr MFF_ICMPV6_TYPE) (hdr MFF_ICMPV6_CODE) oxm
    ++ nxm_put_32m (hdr MFF_IPV6_LABEL) (fl F_ipv6_label) (wc F_ipv6_label)
    ++ (if (fl F_nw_proto =? IPPROTO_ICMPV6) && ((fl F_tp_src =? ND_NEIGHBOR_SOLICIT) || (fl F_tp_src =? ND_NEIGHBOR_ADVERT)) then
          nxm_put_ipv6 (hdr MFF_ND_TARGET) (fl F_nd_target) (wc F_nd_target)
          ++ (if fl F_tp_src =? ND_NEIGHBOR_SOLICIT then nxm_put_eth_masked (hdr MFF_ND_SLL) (fl F_arp_sha) (wc F_arp_sha) else [])
          ++ (if fl F_tp_src =? ND_NEIGHBOR_ADVERT then nxm_put_eth_masked (hdr MFF_ND_TLL) (fl F_arp_tha) (wc F_arp_tha) else [])
        else [])
  else if (fl F_dl_type =? ETH_TYPE_ARP) || (fl F_dl_type =? ETH_TYPE_RARP) then
    (if negb (wc F_nw_proto =? 0) then nxm_put_16 (hdr MFF_ARP_OP) (fl F_nw_proto) else [])
    ++ nxm_put_32m (hdr MFF_ARP_SPA) (fl F_nw_src) (wc F_nw_src)
    ++ nxm_put_32m (hdr MFF_ARP_TPA) (fl F_nw_dst) (wc F_nw_dst)
    ++ nxm_put_eth_masked (hdr MFF_ARP_SHA) (fl F_arp_sha) (wc F_arp_sha)
    ++ nxm_put_eth_masked (hdr MFF_ARP_THA) (fl F_arp_tha) (wc F_arp_tha)
  else [].

Definition nxm_put_regs (m : fmatch) : list Z :=
  concat ((λ i, nxm_put_32m (nxm_header (MFF_REG i)) (fm_flow m (F_reg i)) (fm_wc m (F_reg i))) <$> seq 0 FLOW_N_REGS).

Definition nx_put_raw (oxm : bool) (m : fmatch) (cookie cookie_mask : Z) : list Z :=
  let fl := fm_flow m in
  let wc := fm_wc m in
  let hdr mf := if oxm then oxm_header mf else nxm_header mf in
  (if negb (wc F_in_port =? 0) then
     let in_port := fl F_in_port in
     if oxm then nxm_put_32 (oxm_header MFF_IN_PORT_OXM) (ofputil_port_to_ofp11 in_port)
     else nxm_put_16 (nxm_header MFF_IN_PORT) in_port
   else [])
  ++ nxm_put_eth_masked (hdr MFF_ETH_SRC) (fl F_dl_src) (wc F_dl_src)
  ++ nxm_put_eth_masked (hdr MFF_ETH_DST) (fl F_dl_dst) (wc F_dl_dst)
  ++ nxm_put_16m (hdr MFF_ETH_TYPE) (ofputil_dl_type_to_openflow (fl F_dl_type)) (wc F_dl_type)
  ++ nxm_put_vlan m oxm
  ++ nxm_put_mpls m
  ++ nxm_put_l3 m oxm
  ++ nxm_put_64m (hdr MFF_TUN_ID) (fl F_tun_id) (wc F_tun_id)
  ++ nxm_put_32m (nxm_header MFF_TUN_SRC) (fl F_tun_src) (wc F_tun_src)
  ++ nxm_put_32m (nxm_header MFF_TUN_DST) (fl F_tun_dst) (wc F_tun_dst)
  ++ nxm_put_regs m
  ++ nxm_put_32m (nxm_header MFF_PKT_MARK) (fl F_pkt_mark) (wc F_pkt_mark)
  ++ nxm_put_64m (oxm_header MFF_METADATA) (fl F_metadata) (wc F_metadata)
  ++ nxm_put_64m NXM_NX_COOKIE cookie cookie_mask.

(** The buffer, and the length of the match without padding. *)
Definition nx_put_match (b : list Z) (m : fmatch) (cookie cookie_mask : Z) : list Z * nat :=
  let raw := nx_put_raw false m cookie cookie_mask in
  let match_len := length raw in
  (b ++ raw ++ replicate (ROUND_UP match_len 8 - match_len) 0, match_len).

Definition oxm_put_match (b : list Z) (m : fmatch) : list Z * nat :=
  let raw := nx_put_raw true m 0 0 in
  let match_len := (length raw + 4)%nat in
  (b ++ be_bytes 2 OFPMT_OXM ++ be_bytes 2 (Z.of_nat match_len) ++ raw ++ replicate (ROUND_UP match_len 8 - match_len) 0, match_len).
