(* ===== verification/NxMatchThms.v ===== *)
(** * Entries of encoded matches

    The index of headers is sound, and decoding the entry that a function of the
    encoder writes for a field adds that field to the match: fields with masks,
    parts of the VLAN, MPLS and TOS members, and fields without masks. *)
From Stdlib Require Import FunctionalExtensionality.
From stdpp Require Import list.
From S2P Require Import Prelude Util ByteOrder Hash Hmap Bitwise MatchFields MetaFlow OdpActions Csum Packets PacketBytes NxMatch.

(** ** The index of headers *)

Definition mf_headers_of (mf : mf_field) : list Z :=
  let with_wild h := h :: match mf_maskability mf with MFM_NONE => [] | MFM_FULLY => [NXM_MAKE_WILD_HEADER h] end in
  if nxm_header mf =? 0 then [] else with_wild (nxm_header mf) ++ with_wild (oxm_header mf).

(** Building the index does not fail, and it holds the headers of the fields. *)
Lemma nxm_do_init_ok : nxm_do_init = Some all_fields.
Proof. by vm_compute. Qed.

Lemma index_sound (P : Z * mf_field → bool) (idx : nxm_index) h mf :
  forallb (forallb (λ n, P (hn_data n))) (hm_buckets idx) = true → mf_from_nxm_header__ idx h = Some mf → P (h, mf) = true.
Proof.
  unfold mf_from_nxm_header__. intros A H. apply fmap_Some in H as ([h' mf'] & H & ->). apply find_some in H as [Hin Hh]. cbn [fst] in *.
  apply Z.eqb_eq in Hh as ->. rewrite hmap_for_each_in_bucket_chain in Hin. apply list_elem_of_In, list_elem_of_fmap in Hin as (n & Hn & Hin).
  unfold hmap_first_in_bucket in Hin. destruct (hm_buckets idx !! _) as [c|] eqn:E; [|by apply not_elem_of_nil in Hin]. cbn [default] in Hin. apply list_elem_of_lookup_2 in E.
  rewrite List.forallb_forall in A. apply list_elem_of_In, A in E. rewrite List.forallb_forall in E. apply list_elem_of_In, E in Hin. cbn [snd]. by rewrite Hn.
Qed.

Definition index_entry_ok (q : Z * mf_field) : bool :=
  existsb (Z.eqb q.1) (mf_headers_of q.2) && existsb (λ x, bool_decide (x = q.2)) mf_ids.

Lemma index_ok : forallb (forallb (λ n, index_entry_ok (hn_data n))) (hm_buckets all_fields) = true.
Proof. vm_compute. reflexivity. Qed.

Lemma mf_from_nxm_header_sound h mf : mf_from_nxm_header h = Some mf → h ∈ mf_headers_of mf ∧ mf ∈ mf_ids.
Proof.
  unfold mf_from_nxm_header. intros H. pose proof (index_sound index_entry_ok all_fields h mf index_ok H) as A. unfold index_entry_ok in A. apply andb_true_iff in A as [H1 H2]. cbn [fst snd] in *.
  apply existsb_exists in H1 as (x & Hx & ->%Z.eqb_eq), H2 as (y & Hy & ->%bool_decide_eq_true). split; by apply list_elem_of_In.
Qed.

(** A header of the field [mf], with a mask or without. *)
Definition hdr_ok (mf : mf_field) (masked : bool) (h : Z) : Prop :=
  is_u32 h ∧ h ≠ 0 ∧ NXM_LENGTH h = (if masked then 2 else 1) * Z.of_nat (mf_n_bytes mf) ∧ NXM_HASMASK h = masked
  ∧ mf_from_nxm_header h = Some mf ∧ h ≠ NXM_NX_COOKIE ∧ h ≠ NXM_NX_COOKIE_W.

#[global] Instance hdr_ok_dec mf masked h : Decision (hdr_ok mf masked h).
Proof. unfold hdr_ok, in_width. apply _. Defined.

(** The headers the encoder writes. *)
Lemma headers_ok mf h :
  mf ∈ mf_ids → h = nxm_header mf ∨ h = oxm_header mf → h ≠ 0 →
  hdr_ok mf false h ∧ (mf_maskability mf = MFM_FULLY → hdr_ok mf true (NXM_MAKE_WILD_HEADER h)).
Proof.
  intros Hin Hh Hz.
  assert (A : Forall (λ mf, Forall (λ h, h ≠ 0 → hdr_ok mf false h ∧ (mf_maskability mf = MFM_FULLY → hdr_ok mf true (NXM_MAKE_WILD_HEADER h)))
    [nxm_header mf; oxm_header mf]) mf_ids).
  { assert (B : forallb (λ mf, forallb (λ h, (h =? 0) || bool_decide (hdr_ok mf false h)
      && match mf_maskability mf with MFM_NONE => true | MFM_FULLY => bool_decide (hdr_ok mf true (NXM_MAKE_WILD_HEADER h)) end)
      [nxm_header mf; oxm_header mf]) mf_ids = true) by by vm_compute.
    rewrite List.forallb_forall in B. apply Forall_forall. intros x Hx. apply list_elem_of_In, B in Hx. rewrite List.forallb_forall in Hx.
    apply Forall_forall. intros y Hy Hny. apply list_elem_of_In, Hx in Hy. rewrite (proj2 (Z.eqb_neq _ _) Hny) in Hy. cbn [orb] in Hy.
    apply andb_true_iff in Hy as [H1 H2]. apply bool_decide_eq_true in H1. split; [done|]. intros E. rewrite E in H2. by apply bool_decide_eq_true in H2. }
  rewrite Forall_forall in A. specialize (A mf Hin). rewrite Forall_forall in A. apply A; [|done]. destruct Hh as [-> | ->]; [left|right; left].
Qed.

#[global] Opaque mf_from_nxm_header.

(** ** Entries *)

Definition pull_run (strict : bool) (p : list Z) (m : fmatch) (cookie : cookies) : option (ofperr + fmatch * cookies) :=
  nx_pull_loop (length p) strict p m cookie.

Lemma nx_entry_ok_length p header : nx_entry_ok p = Some header → header ≠ 0 → (4 < 4 + Z.to_nat (NXM_LENGTH header) ≤ length p)%nat.
Proof.
  unfold nx_entry_ok. destruct (_ <? 4) eqn:E4; [by intros [= <-]|]. intros H Hz. apply bind_Some in H as (h & Hh & H).
  destruct (Z.eqb_spec (NXM_LENGTH h) 0) as [E|E]; [by simplify_eq|]. destruct (_ <? NXM_LENGTH h + 4) eqn:El; simplify_eq.
  apply Z.ltb_ge in El. assert (0 ≤ NXM_LENGTH header) by (unfold NXM_LENGTH; apply Z.land_nonneg; right; done). lia.
Qed.

(** More fuel than bytes makes no difference. *)
Lemma nx_pull_loop_fuels f1 f2 strict p m cookie :
  (length p ≤ f1)%nat → (length p ≤ f2)%nat → nx_pull_loop f1 strict p m cookie = nx_pull_loop f2 strict p m cookie.
Proof.
  revert f2 p m cookie. induction f1 as [|f1 IH]; intros f2 p m cookie H1 H2.
  { destruct p; [|cbn in H1; lia]. by destruct f2. }
  destruct f2 as [|f2]; [destruct p; [done|cbn in H2; lia]|].
  cbn [nx_pull_loop]. destruct (nx_entry_ok p) as [h|] eqn:Eh; [|done]. cbn [mbind option_bind]. destruct (Z.eqb_spec h 0) as [E|E]; [done|].
  pose proof (nx_entry_ok_length _ _ Eh E) as Hd. set (q := drop _ p). assert (Lq : (length q < length p)%nat) by (unfold q; rewrite length_drop; lia).
  assert (Hq : ∀ m' c', nx_pull_loop f1 strict q m' c' = nx_pull_loop f2 strict q m' c') by (intros m' c'; apply IH; lia).
  assert (Hf : ∀ r, (r ← nx_pull_cookie h p cookie r m; match r with inl error => Some (inl error) | inr (m, cookie) => nx_pull_loop f1 strict q m cookie end)
    = (r ← nx_pull_cookie h p cookie r m; match r with inl error => Some (inl error) | inr (m, cookie) => nx_pull_loop f2 strict q m cookie end)).
  { intros r. destruct (nx_pull_cookie h p cookie r m) as [[e|[m' c']]|]; [done| |done]. apply Hq. }
  destruct (mf_from_nxm_header h) as [mf|]; [|destruct strict; [apply Hf|apply Hq]]. destruct (nx_pull_entry mf h p m) as [r|]; [|done]. apply Hf.
Qed.

(** The loop at an entry. *)
Lemma run_entry strict h payload rest m cookie :
  is_u32 h → h ≠ 0 → NXM_LENGTH h = Z.of_nat (length payload) → payload ≠ [] →
  let p := be_bytes 4 h ++ payload ++ rest in
  let finish r :=
    r ← nx_pull_cookie h p cookie r m;
    match r with inl error => Some (inl error) | inr (m, cookie) => pull_run strict rest m cookie end in
  pull_run strict p m cookie =
    match mf_from_nxm_header h with
    | None => if strict then finish (inl OFPERR_OFPBMC_BAD_FIELD) else pull_run strict rest m cookie
    | Some mf => r ← nx_pull_entry mf h p m; finish r
    end.
Proof.
  intros Hh Hz Hl Hp p finish. assert (Lp : length p = (4 + length payload + length rest)%nat) by (unfold p; rewrite !length_app, length_be_bytes; lia).
  assert (E : nx_entry_ok p = Some h).
  { assert (Er : rd 0 4 p = Some h) by (unfold p; rewrite rd_be_bytes; change (8 * Z.of_nat 4) with 32; by rewrite wrap_id).
    unfold nx_entry_ok. rewrite (proj2 (Z.ltb_ge _ _)) by lia. rewrite Er. cbn [mbind option_bind]. rewrite Hl. destruct payload as [|x pl]; [done|]. cbn [length] in *. rewrite (proj2 (Z.eqb_neq _ _)) by lia. by rewrite (proj2 (Z.ltb_ge _ _)) by lia. }
  assert (Hd : drop (4 + Z.to_nat (NXM_LENGTH h)) p = rest).
  { rewrite Hl, Nat2Z.id. unfold p. rewrite app_assoc. apply drop_app_length'. rewrite length_app, length_be_bytes. lia. }
  unfold pull_run at 1. rewrite Lp. change (4 + length payload + length rest)%nat with (S (3 + length payload + length rest)). cbn [nx_pull_loop]. rewrite E. cbn [mbind option_bind]. rewrite (proj2 (Z.eqb_neq _ _) Hz), Hd.
  assert (Hr : ∀ m' c', nx_pull_loop (3 + length payload + length rest) strict rest m' c' = pull_run strict rest m' c') by (intros; apply nx_pull_loop_fuels; lia).
  unfold finish. destruct (mf_from_nxm_header h) as [mf|]; [|destruct strict; [|apply Hr]].
  - destruct (nx_pull_entry mf h p m) as [r|]; [|done]. cbn [mbind option_bind]. destruct (nx_pull_cookie h p cookie r m) as [[e|[m' c']]|]; [done|apply Hr|done].
  - destruct (nx_pull_cookie h p cookie (inl OFPERR_OFPBMC_BAD_FIELD) m) as [[e|[m' c']]|]; [done|apply Hr|done].
Qed.

(** Decoding [es] takes [m] to [m']. *)
Definition pulls (es : list Z) (m m' : fmatch) : Prop := ∀ strict cookie rest, pull_run strict (es ++ rest) m cookie = pull_run strict rest m' cookie.

Lemma pulls_nil m : pulls [] m m.
Proof. done. Qed.

Lemma pulls_app a b x y z : pulls a x y → pulls b y z → pulls (a ++ b) x z.
Proof. intros Ha Hb strict cookie rest. rewrite <- app_assoc, Ha. apply Hb. Qed.

Lemma pulls_payload mf masked h payload m m' :
  hdr_ok mf masked h → length payload = ((if masked then 2 else 1) * mf_n_bytes mf)%nat →
  (∀ rest, nx_pull_entry mf h (be_bytes 4 h ++ payload ++ rest) m = Some (inr m')) → pulls (be_bytes 4 h ++ payload) m m'.
Proof.
  intros (Hu & Hz & Hl & _ & Hm & Hc1 & Hc2) Hp He strict cookie rest. rewrite <- app_assoc, run_entry; [|done|done|rewrite Hl, Hp; destruct masked; lia|].
  - rewrite Hm, He. cbn [mbind option_bind]. unfold nx_pull_cookie. rewrite (proj2 (Z.eqb_neq _ _) Hc1), (proj2 (Z.eqb_neq _ _) Hc2). by destruct cookie as [[c k]|].
  - intros ->. cbn in Hp. destruct mf; destruct masked; discriminate.
Qed.

Lemma pulls_value mf h v m m' :
  hdr_ok mf false h → in_width (mf_width mf) v → mf_are_prereqs_ok mf (fm_flow m) = true → mf_is_all_wild mf (fm_wc m) = true →
  mf_is_value_valid mf v = true → mf_set_value mf v m = Some m' → pulls (be_bytes 4 h ++ be_bytes (mf_n_bytes mf) v) m m'.
Proof.
  intros Hh Hv Hp Hw Hok Hs. apply (pulls_payload mf false); [done|rewrite length_be_bytes; lia|]. intros rest. unfold nx_pull_entry.
  destruct Hh as (_ & _ & _ & Hm & _). rewrite Hp, Hw. cbn [negb]. rewrite (rd_app_r 0 _ _ _ 4), rd_be_bytes by apply length_be_bytes.
  rewrite wrap_id by done. cbn [mbind option_bind]. by rewrite Hok, Hm, Hs.
Qed.

Lemma pulls_masked mf h v k m m' :
  hdr_ok mf true h → in_width (mf_width mf) v → in_width (mf_width mf) k → mf_are_prereqs_ok mf (fm_flow m) = true →
  mf_is_all_wild mf (fm_wc m) = true → mf_is_value_valid mf v = true → mf_is_mask_valid mf k = true → mf_set mf v (Some k) m = Some m' →
  pulls (be_bytes 4 h ++ be_bytes (mf_n_bytes mf) v ++ be_bytes (mf_n_bytes mf) k) m m'.
Proof.
  intros Hh Hv Hk Hp Hw Hok Hkok Hs. apply (pulls_payload mf true); [done|rewrite length_app, !length_be_bytes; lia|]. intros rest. unfold nx_pull_entry.
  destruct Hh as (_ & _ & _ & Hm & _). rewrite Hp, Hw. cbn [negb]. rewrite <- !app_assoc. rewrite (rd_app_r 0 _ _ _ 4), rd_be_bytes by apply length_be_bytes.
  rewrite wrap_id by done. cbn [mbind option_bind]. rewrite Hok, Hm. cbn [negb].
  rewrite (rd_app_r (mf_n_bytes mf) _ _ _ 4) by apply length_be_bytes. rewrite <- (Nat.add_0_r (mf_n_bytes mf)) at 1.
  rewrite (rd_app_r 0 _ _ _ (mf_n_bytes mf)), rd_be_bytes, wrap_id by (done || apply length_be_bytes). cbn [mbind option_bind]. by rewrite Hkok, Hs.
Qed.

(** ** A match built field by field *)

(** The fields [D] of a match, the others wildcarded. *)
Definition on (D : list MatchFields.field) (m : fmatch) : fmatch :=
  FMatch (λ f, if decide (f ∈ D) then fm_flow m f else 0) (λ f, if decide (f ∈ D) then fm_wc m f else 0).

Definition set_both (f : MatchFields.field) (v k : Z) (m : fmatch) : fmatch := FMatch (upd f v (fm_flow m)) (upd f k (fm_wc m)).

Lemma on_add D m f : set_both f (fm_flow m f) (fm_wc m f) (on D m) = on (f :: D) m.
Proof.
  unfold set_both, on. cbn [fm_flow fm_wc]. f_equal; apply functional_extensionality; intros g; unfold upd;
    (destruct (decide (g = f)) as [->|Hne]; [by rewrite decide_True by left|]);
    (destruct (decide (g ∈ D)) as [Hg|Hg]; [by rewrite decide_True by (by right)|]; rewrite decide_False; [done|]; by intros [?|?]%elem_of_cons).
Qed.

Lemma masked_zero m f : fmatch_ok m → fm_wc m f = 0 → fm_flow m f = 0.
Proof. intros Hm Hz. destruct (Hm f) as [_ H]. by rewrite Hz, Z.land_0_r in H. Qed.

Lemma on_skip D m f : fmatch_ok m → fm_wc m f = 0 → on D m = on (f :: D) m.
Proof.
  intros Hm Hz. pose proof (masked_zero m f Hm Hz) as Hf. unfold on. f_equal; apply functional_extensionality; intros g;
    (destruct (decide (g ∈ D)) as [Hg|Hg]; [by rewrite decide_True by (by right)|]);
    (destruct (decide (g ∈ f :: D)) as [[->|?]%elem_of_cons|]; done).
Qed.

Lemma on_flow D m f : f ∈ D → fm_flow (on D m) f = fm_flow m f.
Proof. intros H. cbn. by rewrite decide_True. Qed.
Lemma on_wc_out D m f : f ∉ D → fm_wc (on D m) f = 0.
Proof. intros H. cbn. by rewrite decide_False. Qed.
Lemma on_flow_out D m f : f ∉ D → fm_flow (on D m) f = 0.
Proof. intros H. cbn. by rewrite decide_False. Qed.

Lemma fset_set_both f v k m m' : fset f v k m m' → m' = set_both f v k m.
Proof. intros [Hv Hk]. destruct m' as [fl wc]. unfold set_both. f_equal; apply functional_extensionality; intros g; [apply Hv|apply Hk]. Qed.

(** ** Fields that are members of the flow *)

(** What the functions for masked fields of [n] bytes append. *)
Definition put_m (n : nat) (h v k : Z) : list Z :=
  if k =? 0 then []
  else if k =? 2 ^ (8 * Z.of_nat n) - 1 then be_bytes 4 h ++ be_bytes n v
  else be_bytes 4 (NXM_MAKE_WILD_HEADER h) ++ be_bytes n v ++ be_bytes n k.

Lemma put_m_8 h v k : nxm_put_8m h v k = put_m 1 h v k.
Proof. done. Qed.
Lemma put_m_16 h v k : nxm_put_16m h v k = put_m 2 h v k.
Proof. done. Qed.
Lemma put_m_32 h v k : nxm_put_32m h v k = put_m 4 h v k.
Proof. done. Qed.
Lemma put_m_64 h v k : nxm_put_64m h v k = put_m 8 h v k.
Proof. done. Qed.
Lemma put_m_eth h v k : nxm_put_eth_masked h v k = put_m 6 h v k.
Proof. unfold nxm_put_eth_masked, put_m. by destruct (k =? 0). Qed.
Lemma put_m_ipv6 h v k : nxm_put_ipv6 h v k = put_m 16 h v k.
Proof. done. Qed.

Lemma flow_value_width m f : fmatch_ok m → in_width (field_width f) (fm_flow m f).
Proof. intros Hm. destruct (Hm f) as [Hw Hc]. rewrite <- Hc, Z.land_comm. apply land_in_width; [apply Z.lt_le_incl, field_width_pos|done]. Qed.

Lemma plain_facts mf : mf_plain mf = true →
  mf_maskability mf = MFM_FULLY ∧ (∀ v, mf_is_value_valid mf v = true) ∧ (∀ wc, mf_is_all_wild mf wc = (wc (mf_flow_field mf) =? 0)).
Proof. by destruct mf. Qed.

Section fields.
Context (D : list MatchFields.field) (m : fmatch) (mf : mf_field) (h : Z).
Context (Hm : fmatch_ok m) (Hin : mf ∈ mf_ids) (Hh : h = nxm_header mf ∨ h = oxm_header mf) (Hz : h ≠ 0).
Local Abbreviation f := (mf_flow_field mf).
Context (Hout : f ∉ D) (Hpre : mf_are_prereqs_ok mf (fm_flow (on D m)) = true).

(** A field that only matches exactly, or not at all. *)
Lemma pulls_exact v :
  in_width (mf_width mf) v → mf_is_value_valid mf v = true → (∀ wc, wc f = 0 → mf_is_all_wild mf wc = true) →
  mf_set_value mf v (on D m) = Some (set_both f (fm_flow m f) (fm_wc m f) (on D m)) →
  pulls (be_bytes 4 h ++ be_bytes (mf_n_bytes mf) v) (on D m) (on (f :: D) m).
Proof.
  intros Hv Hok Hw Hs. destruct (headers_ok mf h Hin Hh Hz) as [Ho _]. rewrite <- on_add. apply pulls_value; try done. by apply Hw, on_wc_out.
Qed.

Lemma pulls_plain : mf_plain mf = true → pulls (put_m (mf_n_bytes mf) h (fm_flow m f) (fm_wc m f)) (on D m) (on (f :: D) m).
Proof.
  intros Hp. destruct (plain_facts mf Hp) as (Hf & Hok & Hw). destruct (headers_ok mf h Hin Hh Hz) as [Ho Ho']. specialize (Ho' Hf).
  pose proof (flow_value_width m f Hm) as Wv. destruct (Hm f) as [Wk Hc]. rewrite <- (plain_width mf Hp) in Wv, Wk. unfold put_m. fold (mf_width mf).
  assert (Ew : mf_is_all_wild mf (fm_wc (on D m)) = true) by (rewrite Hw, on_wc_out by done; done).
  destruct (Z.eqb_spec (fm_wc m f) 0) as [E|E]; [rewrite <- on_skip by done; apply pulls_nil|].
  destruct (Z.eqb_spec (fm_wc m f) (2 ^ mf_width mf - 1)) as [E1|E1].
  - destruct (mf_set_value_plain mf (fm_flow m f) (on D m) Hp Wv) as (m' & Es & ->%fset_set_both). apply pulls_exact; try done; [|].
    { intros wc Hwc. by rewrite Hw, Hwc. }
    rewrite Es. unfold all_ones. by rewrite <- (plain_width mf Hp), <- E1.
  - rewrite <- on_add. apply pulls_masked; try done; [unfold mf_is_mask_valid; by rewrite Hf|]. unfold mf_set.
    destruct (is_all_ones _) eqn:A1; [by apply is_all_ones_bytes in A1|]. destruct (is_all_zeros _) eqn:A0; [by apply is_all_zeros_bytes in A0|].
    destruct (mf_set_masked_plain mf (fm_flow m f) (fm_wc m f) (on D m) Hp) as (m' & -> & ->%fset_set_both). by rewrite Hc.
Qed.
End fields.

(** ** Matches that the formats can express *)

(** The fields that a match may have besides its Ethernet type, its IP
    protocol and its ICMP type. *)
Definition allowed (oxm : bool) (fl : flowf) (f : MatchFields.field) : bool :=
  let arp := (fl F_dl_type =? ETH_TYPE_ARP) || (fl F_dl_type =? ETH_TYPE_RARP) in
  let nd t := is_icmpv6 fl && (fl F_tp_src =? t) && (fl F_tp_dst =? 0) in
  match f with
  | F_skb_priority | F_tun_flags | F_tun_tos | F_tun_ttl | F_mpls_depth => false
  | F_reg i => bool_decide (i < FLOW_N_REGS)%nat
  | F_mpls_lse => eth_type_mpls (fl F_dl_type)
  | F_nw_src | F_nw_dst => (fl F_dl_type =? ETH_TYPE_IP) || arp
  | F_ipv6_src | F_ipv6_dst | F_ipv6_label => fl F_dl_type =? ETH_TYPE_IPV6
  | F_nw_proto => is_ip_any fl || arp
  | F_nw_tos | F_nw_frag => is_ip_any fl
  | F_nw_ttl => is_ip_any fl && negb oxm
  | F_tp_src | F_tp_dst =>
      is_ip_any fl && existsb (λ p, fl F_nw_proto =? p) [IPPROTO_TCP; IPPROTO_UDP; IPPROTO_SCTP] || is_icmpv4 fl || is_icmpv6 fl
  | F_tcp_flags => is_ip_any fl && (fl F_nw_proto =? IPPROTO_TCP)
  | F_nd_target => nd ND_NEIGHBOR_SOLICIT || nd ND_NEIGHBOR_ADVERT
  | F_arp_sha => arp || nd ND_NEIGHBOR_SOLICIT
  | F_arp_tha => arp || nd ND_NEIGHBOR_ADVERT
  | _ => true
  end.

(** The encoders do not write every match.  They leave out skb_priority and
    the flags, TOS and TTL of a tunnel, the depth of an MPLS stack and the TTL
    of a label, and in OXM the IP TTL; the fields of a
    protocol whose type the match does not have; all of an in_port, an Ethernet
    type, an IP protocol, a TTL, a DSCP or ECN part, an MPLS part or an ICMP
    type or code that is masked in part (or they write it as if it were exact);
    and they do not tell apart masks that agree on the bits of an IPv6 label.
    [encodable] says of a match that it has none of these. *)

(** All bits of [k], or none. *)
Definition all_or_none (x k : Z) : Prop := Z.land x k = 0 ∨ Z.land x k = k.

Record encodable (oxm : bool) (m : fmatch) : Prop := {
  en_ok : fmatch_ok m;
  en_allowed : ∀ f, fm_wc m f ≠ 0 → allowed oxm (fm_flow m) f = true;
  en_exact : ∀ f, f ∈ [F_in_port; F_dl_type; F_nw_proto; F_nw_ttl] → fm_wc m f = 0 ∨ fm_wc m f = all_ones f;
  en_tos : all_or_none (fm_wc m F_nw_tos) IP_DSCP_MASK ∧ all_or_none (fm_wc m F_nw_tos) IP_ECN_MASK;
  en_frag : Z.land (fm_wc m F_nw_frag) FLOW_NW_FRAG_MASK = fm_wc m F_nw_frag;
  en_label : Z.land (fm_flow m F_ipv6_label) IPV6_LABEL_MASK = fm_flow m F_ipv6_label
    ∧ (fm_wc m F_ipv6_label = all_ones F_ipv6_label ∨ Z.land (fm_wc m F_ipv6_label) IPV6_LABEL_MASK ≠ IPV6_LABEL_MASK);
  en_flags : Z.land (fm_wc m F_tcp_flags) 0x0fff = fm_wc m F_tcp_flags;
  en_mpls : Z.land (fm_wc m F_mpls_lse) MPLS_TTL_MASK = 0 ∧ all_or_none (fm_wc m F_mpls_lse) MPLS_TC_MASK
    ∧ all_or_none (fm_wc m F_mpls_lse) MPLS_BOS_MASK ∧ all_or_none (fm_wc m F_mpls_lse) MPLS_LABEL_MASK;
  en_icmp : is_icmpv4 (fm_flow m) || is_icmpv6 (fm_flow m) = true →
    ∀ f, f = F_tp_src ∨ f = F_tp_dst → (fm_wc m f = 0 ∨ fm_wc m f = all_ones f) ∧ is_u8 (fm_flow m f);
  en_vlan : oxm = true → all_or_none (fm_wc m F_vlan_tci) VLAN_PCP_MASK
    ∧ (Z.land (fm_wc m F_vlan_tci) VLAN_PCP_MASK ≠ 0 → Z.land (fm_flow m F_vlan_tci) VLAN_CFI ≠ 0)
}.

(** ** Fields with masks of their own *)

Lemma header_known mf : mf ∈ mf_ids → nxm_header mf ≠ 0 → oxm_header mf ≠ 0 →
  ∀ h, h = nxm_header mf ∨ h = oxm_header mf → hdr_ok mf false h ∧ (mf_maskability mf = MFM_FULLY → hdr_ok mf true (NXM_MAKE_WILD_HEADER h)).
Proof. intros Hin H1 H2 h Hh. apply headers_ok; [done|done|]. by destruct Hh as [-> | ->]. Qed.

Ltac mf_id := (apply list_elem_of_In; vm_compute; tauto).

(** The part of [mf_set] for masks with some bits, not all. *)
Lemma mf_set_partial mf v k x : in_width (mf_width mf) k → k ≠ 0 → k ≠ 2 ^ mf_width mf - 1 → mf_set mf v (Some k) x = mf_set_masked mf v k x.
Proof.
  intros Hk H0 H1. unfold mf_set. destruct (is_all_ones _) eqn:A1; [by apply is_all_ones_bytes in A1|].
  destruct (is_all_zeros _) eqn:A0; [by apply is_all_zeros_bytes in A0|]. done.
Qed.

Section special.
Context (oxm : bool) (m : fmatch) (D : list MatchFields.field) (He : encodable oxm m).

Lemma pulls_frag :
  F_nw_frag ∉ D → is_ip_any (fm_flow (on D m)) = true → pulls (nxm_put_frag m) (on D m) (on (F_nw_frag :: D) m).
Proof.
  intros Hout Hip. destruct He as [Hm _ _ _ Hf _ _ _ _ _]. unfold nxm_put_frag. pose proof (Hm F_nw_frag) as [Wk Hc].
  assert (Hk : fm_wc m F_nw_frag = 0 ∨ fm_wc m F_nw_frag = 1 ∨ fm_wc m F_nw_frag = 2 ∨ fm_wc m F_nw_frag = 3).
  { change FLOW_NW_FRAG_MASK with (Z.ones 2) in Hf. rewrite Z.land_ones in Hf by done. pose proof (Z.mod_pos_bound (fm_wc m F_nw_frag) (2 ^ 2)). lia. }
  destruct (header_known MFF_IP_FRAG) with (h := nxm_header MFF_IP_FRAG) as [Ho Ho']; [mf_id|done|done|by left|]. specialize (Ho' eq_refl).
  assert (Hv : is_u8 (fm_flow m F_nw_frag)) by (apply (flow_value_width m F_nw_frag Hm)).
  assert (Hok : mf_is_value_valid MFF_IP_FRAG (fm_flow m F_nw_frag) = true).
  { cbn [mf_is_value_valid]. unfold no_bits_outside. rewrite Z.eqb_eq, ldiff_0_iff. by rewrite <- Hc, <- Z.land_assoc, Hf. }
  pose proof (on_wc_out D m F_nw_frag Hout) as Ew. destruct (Z.eqb_spec (fm_wc m F_nw_frag) 0) as [E|E]; [rewrite <- on_skip by done; apply pulls_nil|].
  destruct (Z.eqb_spec (fm_wc m F_nw_frag) FLOW_NW_FRAG_MASK) as [E3|E3].
  - apply (pulls_exact D m MFF_IP_FRAG); try done; [mf_id|by left| |].
    + intros wc Hwc. cbn in *. by rewrite Hwc.
    + cbn [mf_set_value mf_flow_field]. unfold match_set_nw_frag, set_both. by rewrite Ew, E3.
  - rewrite Hf, put_m_8. unfold put_m. assert (E1 : fm_wc m F_nw_frag ≠ 2 ^ (8 * Z.of_nat 1) - 1) by (change (2 ^ (8 * Z.of_nat 1) - 1) with 255; lia).
    rewrite (proj2 (Z.eqb_neq _ _) E), (proj2 (Z.eqb_neq _ _) E1), <- on_add.
    apply (pulls_masked MFF_IP_FRAG); try done; [cbn [mf_is_all_wild]; by rewrite Ew|]. rewrite mf_set_partial by done. cbn [mf_set_masked]. unfold match_set_nw_frag_masked, set_masked. by rewrite Hc.
Qed.

Lemma pulls_label h :
  h = nxm_header MFF_IPV6_LABEL ∨ h = oxm_header MFF_IPV6_LABEL → F_ipv6_label ∉ D → fm_flow (on D m) F_dl_type = ETH_TYPE_IPV6 →
  pulls (nxm_put_32m h (fm_flow m F_ipv6_label) (fm_wc m F_ipv6_label)) (on D m) (on (F_ipv6_label :: D) m).
Proof.
  intros Hh Hout Hty. destruct He as [Hm _ _ _ _ [Hv Hk] _ _ _ _]. pose proof (Hm F_ipv6_label) as [Wk Hc]. pose proof (flow_value_width m F_ipv6_label Hm) as Wv.
  destruct (header_known MFF_IPV6_LABEL) with (h := h) as [Ho Ho']; [mf_id|done|done|done|]. specialize (Ho' eq_refl).
  assert (Hok : mf_is_value_valid MFF_IPV6_LABEL (fm_flow m F_ipv6_label) = true) by (cbn [mf_is_value_valid]; unfold no_bits_outside; by rewrite Z.eqb_eq, ldiff_0_iff).
  assert (Hpre : mf_are_prereqs_ok MFF_IPV6_LABEL (fm_flow (on D m)) = true) by (unfold mf_are_prereqs_ok, mf_prerequisites; cbn [mf_fields fst snd]; by rewrite Hty).
  pose proof (on_wc_out D m F_ipv6_label Hout) as Ew. assert (Hw : mf_is_all_wild MFF_IPV6_LABEL (fm_wc (on D m)) = true) by (cbn [mf_is_all_wild]; by rewrite Ew).
  rewrite put_m_32. unfold put_m. destruct (Z.eqb_spec (fm_wc m F_ipv6_label) 0) as [E|E]; [rewrite <- on_skip by done; apply pulls_nil|].
  destruct (Z.eqb_spec (fm_wc m F_ipv6_label) (2 ^ (8 * Z.of_nat 4) - 1)) as [E1|E1].
  - rewrite <- on_add. apply (pulls_value MFF_IPV6_LABEL); try done. cbn [mf_set_value]. unfold match_set_ipv6_label, set_exact, set_both. by rewrite E1.
  - rewrite <- on_add. apply (pulls_masked MFF_IPV6_LABEL); try done. rewrite mf_set_partial by done. cbn [mf_set_masked].
    destruct Hk as [Hk|Hk]; [by destruct E1|]. rewrite (proj2 (Z.eqb_neq _ _) Hk). unfold match_set_ipv6_label_masked, set_masked. by rewrite Hc.
Qed.

Lemma pulls_tcp_flags :
  F_tcp_flags ∉ D → is_ip_any (fm_flow (on D m)) && (fm_flow (on D m) F_nw_proto =? IPPROTO_TCP) = true →
  pulls (nxm_put_16m (nxm_header MFF_TCP_FLAGS) (fm_flow m F_tcp_flags) (fm_wc m F_tcp_flags)) (on D m) (on (F_tcp_flags :: D) m).
Proof.
  intros Hout Hty. destruct He as [Hm _ _ _ _ _ Hf _ _ _]. pose proof (Hm F_tcp_flags) as [Wk Hc]. pose proof (flow_value_width m F_tcp_flags Hm) as Wv.
  destruct (header_known MFF_TCP_FLAGS) with (h := nxm_header MFF_TCP_FLAGS) as [Ho Ho']; [mf_id|done|done|by left|]. specialize (Ho' eq_refl).
  assert (Hok : mf_is_value_valid MFF_TCP_FLAGS (fm_flow m F_tcp_flags) = true).
  { cbn [mf_is_value_valid]. unfold no_bits_outside. rewrite Z.eqb_eq, ldiff_0_iff. by rewrite <- Hc, <- Z.land_assoc, Hf. }
  pose proof (on_wc_out D m F_tcp_flags Hout) as Ew. rewrite put_m_16. unfold put_m.
  destruct (Z.eqb_spec (fm_wc m F_tcp_flags) 0) as [E|E]; [rewrite <- on_skip by done; apply pulls_nil|].
  assert (E1 : fm_wc m F_tcp_flags ≠ 2 ^ (8 * Z.of_nat 2) - 1) by (intros E1; by rewrite E1 in Hf).
  rewrite (proj2 (Z.eqb_neq _ _) E1), <- on_add. apply (pulls_masked MFF_TCP_FLAGS); try done; [cbn [mf_is_all_wild]; by rewrite Ew|].
  rewrite mf_set_partial by done. cbn [mf_set_masked]. unfold match_set_tcp_flags_masked, set_masked. by rewrite Hf, Hc.
Qed.
End special.

(** ** Fields that share a member *)

Lemma set_both_twice f a b c d x : set_both f a b (set_both f c d x) = set_both f a b x.
Proof. unfold set_both. cbn [fm_flow fm_wc]. f_equal; apply functional_extensionality; intros g; unfold upd; by case_decide. Qed.

Lemma set_both_same f x : set_both f (fm_flow x f) (fm_wc x f) x = x.
Proof. destruct x as [fl wc]. unfold set_both. cbn [fm_flow fm_wc]. f_equal; apply functional_extensionality; intros g; unfold upd; case_decide; by subst. Qed.

(** The bits [K] of a member. *)
Definition part (f : MatchFields.field) (m : fmatch) (D : list MatchFields.field) (K : Z) : fmatch :=
  set_both f (Z.land (fm_flow m f) K) (Z.land (fm_wc m f) K) (on D m).

Lemma part_none f m D : f ∉ D → part f m D 0 = on D m.
Proof.
  intros Hf. unfold part. rewrite !Z.land_0_r. rewrite <- (set_both_same f (on D m)) at 2. by rewrite on_flow_out, on_wc_out by done.
Qed.

Lemma part_all f m D K : fmatch_ok m → Z.land (fm_wc m f) K = fm_wc m f → part f m D K = on (f :: D) m.
Proof.
  intros Hm Hk. destruct (Hm f) as [_ Hc]. unfold part. rewrite Hk. rewrite <- Hc at 1. by rewrite <- Z.land_assoc, Hk, Hc, on_add.
Qed.

Lemma part_flow f m D K : fm_flow (part f m D K) f = Z.land (fm_flow m f) K.
Proof. apply upd_eq. Qed.
Lemma part_wc f m D K : fm_wc (part f m D K) f = Z.land (fm_wc m f) K.
Proof. apply upd_eq. Qed.
Lemma part_flow_ne f g m D K : g ≠ f → fm_flow (part f m D K) g = fm_flow (on D m) g.
Proof. apply upd_ne. Qed.

(** No bits of [k] are matched. *)
Lemma part_skip f m D K k : fmatch_ok m → Z.land (fm_wc m f) k = 0 → part f m D (Z.lor K k) = part f m D K.
Proof.
  intros Hm Hk. destruct (Hm f) as [_ Hc]. unfold part. rewrite !Z.land_lor_distr_r, Hk, Z.lor_0_r.
  assert (Hz : Z.land (fm_flow m f) k = 0) by (rewrite <- Hc, <- Z.land_assoc, Hk; apply Z.land_0_r). by rewrite Hz, Z.lor_0_r.
Qed.

(** All bits of [k] are. *)
Lemma part_step f m D K k :
  Z.land (fm_wc m f) k = k →
  set_both f (Z.lor (Z.ldiff (Z.land (fm_flow m f) K) k) (Z.land (fm_flow m f) k)) (Z.lor (Z.land (fm_wc m f) K) k) (part f m D K) = part f m D (Z.lor K k).
Proof.
  intros Hk. unfold part. rewrite set_both_twice. f_equal.
  - apply Z.bits_inj'. intros i Hi. rewrite !Z.lor_spec, Z.ldiff_spec, !Z.land_spec, Z.lor_spec.
    by destruct (Z.testbit (fm_flow m f) i), (Z.testbit K i), (Z.testbit k i).
  - by rewrite Z.land_lor_distr_r, Hk.
Qed.

Lemma parts_disjoint x K k : Z.land K k = 0 → Z.land (Z.land x K) k = 0.
Proof. intros H. by rewrite <- Z.land_assoc, H, Z.land_0_r. Qed.

Section parts.
Context (m : fmatch) (D : list MatchFields.field) (Hm : fmatch_ok m).

(** An entry for the bits [k], of a value [v] that puts the bits of the flow in their place. *)
Lemma pulls_part f K k mf v :
  mf ∈ mf_ids → nxm_header mf ≠ 0 → oxm_header mf ≠ 0 → Z.land K k = 0 → all_or_none (fm_wc m f) k →
  (∀ h, h = nxm_header mf ∨ h = oxm_header mf → Z.land (fm_wc m f) k = k →
   in_width (mf_width mf) v ∧ mf_are_prereqs_ok mf (fm_flow (part f m D K)) = true ∧ mf_is_value_valid mf v = true
   ∧ (∀ wc, Z.land (wc f) k = 0 → mf_is_all_wild mf wc = true)
   ∧ mf_set_value mf v (part f m D K)
     = Some (set_both f (Z.lor (Z.ldiff (Z.land (fm_flow m f) K) k) (Z.land (fm_flow m f) k)) (Z.lor (Z.land (fm_wc m f) K) k) (part f m D K))) →
  ∀ h, h = nxm_header mf ∨ h = oxm_header mf →
  pulls (if negb (Z.land (fm_wc m f) k =? 0) then be_bytes 4 h ++ be_bytes (mf_n_bytes mf) v else []) (part f m D K) (part f m D (Z.lor K k)).
Proof.
  intros Hin H1 H2 Hd Ha Hs h Hh. destruct Ha as [E|E].
  { rewrite E. rewrite part_skip by done. apply pulls_nil. }
  destruct (Hs h Hh E) as (Hv & Hp & Hok & Hw & Hset). destruct (header_known mf Hin H1 H2 h Hh) as [Ho _].
  destruct (Z.eqb_spec (Z.land (fm_wc m f) k) 0) as [E0|_].
  { rewrite part_skip by done. apply pulls_nil. }
  cbn [negb]. rewrite <- part_step by done. apply pulls_value; try done. apply Hw. rewrite part_wc. by apply parts_disjoint.
Qed.

Lemma part_ip_any f K : f ≠ F_dl_type → is_ip_any (fm_flow (part f m D K)) = is_ip_any (fm_flow (on D m)).
Proof. intros Hf. unfold is_ip_any. by rewrite part_flow_ne. Qed.

Lemma shift_back t s K : 0 ≤ s → Z.land K (Z.ones s) = 0 → Z.land (Z.shiftl (Z.shiftr t s) s) K = Z.land t K.
Proof.
  intros Hs Hk. apply Z.bits_inj'. intros i Hi. rewrite !Z.land_spec. apply (f_equal (λ z, Z.testbit z i)) in Hk. rewrite Z.land_spec, Z.bits_0 in Hk.
  destruct (Z.testbit K i) eqn:E; [|by rewrite !andb_false_r]. rewrite !andb_true_r. cbn [andb] in Hk. rewrite Z.testbit_ones_nonneg in Hk by done.
  apply Z.ltb_ge in Hk. rewrite Z.shiftl_spec by done. rewrite Z.shiftr_spec by lia. f_equal. lia.
Qed.

(** Bits of the type of service. *)
Lemma pulls_tos_part K k mf v :
  mf = MFF_IP_DSCP ∧ k = IP_DSCP_MASK ∧ v = Z.land (fm_flow m F_nw_tos) k ∨ mf = MFF_IP_DSCP_SHIFTED ∧ k = IP_DSCP_MASK ∧ v = Z.shiftr (fm_flow m F_nw_tos) 2
  ∨ mf = MFF_IP_ECN ∧ k = IP_ECN_MASK ∧ v = Z.land (fm_flow m F_nw_tos) k →
  is_ip_any (fm_flow (on D m)) = true → Z.land K k = 0 → all_or_none (fm_wc m F_nw_tos) k → ∀ h, h = nxm_header mf ∨ h = oxm_header mf →
  pulls (if negb (Z.land (fm_wc m F_nw_tos) k =? 0) then nxm_put_8 h v else []) (part F_nw_tos m D K) (part F_nw_tos m D (Z.lor K k)).
Proof.
  intros Hc Hip Hk Ha h Hh. assert (Wt : is_u8 (fm_flow m F_nw_tos)) by apply (flow_value_width m F_nw_tos Hm). set (t := fm_flow m F_nw_tos) in *.
  assert (Hin : mf ∈ mf_ids ∧ nxm_header mf ≠ 0 ∧ oxm_header mf ≠ 0 ∧ mf_n_bytes mf = 1%nat).
  { destruct Hc as [(-> & _)|[(-> & _)|(-> & _)]]; (split; [mf_id|done]). }
  destruct Hin as (Hin & N1 & N2 & N3). unfold nxm_put_8, nxm_put_header.
  replace (be_bytes 1 v) with (be_bytes (mf_n_bytes mf) v) by (by rewrite N3). refine (pulls_part F_nw_tos K k mf v Hin N1 N2 Hk Ha _ h Hh). intros h' _ Ek.
  assert (Ws : is_u8 (Z.shiftl (Z.shiftr t 2) 2)).
  { rewrite <- Z.ldiff_ones_r by done. by apply ldiff_in_width. }
  assert (Hs : set_tos_bits k (if decide (mf = MFF_IP_DSCP_SHIFTED) then u8 (Z.shiftl v 2) else v) (part F_nw_tos m D K)
    = set_both F_nw_tos (Z.lor (Z.ldiff (Z.land t K) k) (Z.land t k)) (Z.lor (Z.land (fm_wc m F_nw_tos) K) k) (part F_nw_tos m D K)).
  { unfold set_tos_bits, and_not. rewrite part_flow, part_wc. fold t. unfold set_both. do 3 f_equal.
    destruct Hc as [(-> & -> & ->)|[(-> & -> & ->)|(-> & -> & ->)]]; cbn [decide]; [by rewrite decide_False, <- Z.land_assoc|rewrite decide_True by done|by rewrite decide_False, <- Z.land_assoc].
    rewrite wrap_id by done. by apply shift_back. }
  assert (Hp : mf_are_prereqs_ok mf (fm_flow (part F_nw_tos m D K)) = true).
  { unfold mf_are_prereqs_ok. replace (mf_prerequisites mf) with MFP_IP_ANY by (by destruct Hc as [(-> & _)|[(-> & _)|(-> & _)]]). by rewrite part_ip_any. }
  destruct Hc as [(-> & -> & ->)|[(-> & -> & ->)|(-> & -> & ->)]]; (split; [|split; [done|split; [|split; [|fold t; by rewrite <- Hs]]]]).
  all: try (intros wc Hwc; cbn [mf_is_all_wild]; by rewrite Hwc).
  - by apply land_in_width.
  - cbn [mf_is_value_valid]. unfold no_bits_outside. rewrite Z.eqb_eq, ldiff_0_iff. by rewrite <- Z.land_assoc.
  - apply (in_width_mono 6); [done|]. by apply shiftr_drops_width.
  - cbn [mf_is_value_valid]. rewrite Z.eqb_eq. change (Z.shiftr (Z.lnot IP_DSCP_MASK) 2) with (Z.lnot (Z.ones 6)). rewrite <- Z.ldiff_land, Z.ldiff_ones_r by done.
    rewrite Z.shiftr_shiftr, Z.shiftr_div_pow2 by done. by rewrite Z.div_small by apply Wt.
  - by apply land_in_width.
  - cbn [mf_is_value_valid]. unfold no_bits_outside. rewrite Z.eqb_eq, ldiff_0_iff. by rewrite <- Z.land_assoc.
Qed.
End parts.

Lemma pulls_tos oxm m D :
  encodable oxm m → F_nw_tos ∉ D → is_ip_any (fm_flow (on D m)) = true →
  pulls ((if negb (Z.land (fm_wc m F_nw_tos) IP_DSCP_MASK =? 0) then
            if oxm then nxm_put_8 (oxm_header MFF_IP_DSCP_SHIFTED) (Z.shiftr (fm_flow m F_nw_tos) 2)
            else nxm_put_8 (nxm_header MFF_IP_DSCP) (Z.land (fm_flow m F_nw_tos) IP_DSCP_MASK)
          else [])
         ++ (if negb (Z.land (fm_wc m F_nw_tos) IP_ECN_MASK =? 0)
             then nxm_put_8 (if oxm then oxm_header MFF_IP_ECN else nxm_header MFF_IP_ECN) (Z.land (fm_flow m F_nw_tos) IP_ECN_MASK) else []))
    (on D m) (on (F_nw_tos :: D) m).
Proof.
  intros He Hout Hip. destruct (en_tos _ _ He) as [Hd Hn]. pose proof (en_ok _ _ He) as Hm.
  rewrite <- (part_none F_nw_tos) by done. rewrite <- (part_all F_nw_tos m D 0xff) by (done || (apply (land_all_ones 8); [apply Hm|done])).
  apply (pulls_app _ _ _ (part F_nw_tos m D IP_DSCP_MASK)).
  - destruct oxm.
    + apply (pulls_tos_part m D Hm 0 IP_DSCP_MASK MFF_IP_DSCP_SHIFTED); try done; [by right; left|by right].
    + apply (pulls_tos_part m D Hm 0 IP_DSCP_MASK MFF_IP_DSCP); try done; [by left|by left].
  - apply (pulls_tos_part m D Hm IP_DSCP_MASK IP_ECN_MASK MFF_IP_ECN); try done; [by right; right|]. destruct oxm; [by right|by left].
Qed.

(** Bits of the MPLS label stack entry. *)
Lemma pulls_lse_part m D K k mf v s :
  fmatch_ok m →
  (mf = MFF_MPLS_TC ∧ k = MPLS_TC_MASK ∧ s = MPLS_TC_SHIFT) ∨ (mf = MFF_MPLS_BOS ∧ k = MPLS_BOS_MASK ∧ s = MPLS_BOS_SHIFT)
  ∨ (mf = MFF_MPLS_LABEL ∧ k = MPLS_LABEL_MASK ∧ s = MPLS_LABEL_SHIFT) →
  v = Z.shiftr (Z.land (fm_flow m F_mpls_lse) k) s → eth_type_mpls (fm_flow (on D m) F_dl_type) = true → Z.land K k = 0 →
  all_or_none (fm_wc m F_mpls_lse) k → ∀ h, h = nxm_header mf ∨ h = oxm_header mf →
  pulls (if negb (Z.land (fm_wc m F_mpls_lse) k =? 0) then be_bytes 4 h ++ be_bytes (mf_n_bytes mf) v else [])
    (part F_mpls_lse m D K) (part F_mpls_lse m D (Z.lor K k)).
Proof.
  intros Hm Hc -> Hty Hk Ha h Hh. assert (Wt : is_u32 (fm_flow m F_mpls_lse)) by apply (flow_value_width m F_mpls_lse Hm). set (t := fm_flow m F_mpls_lse) in *.
  assert (Hin : mf ∈ mf_ids ∧ nxm_header mf ≠ 0 ∧ oxm_header mf ≠ 0) by (destruct Hc as [(-> & _)|[(-> & _)|(-> & _)]]; (split; [mf_id|done])).
  destruct Hin as (Hin & N1 & N2). refine (pulls_part m D Hm F_mpls_lse K k mf _ Hin N1 N2 Hk Ha _ h Hh). intros h' _ Ek. fold t.
  set (v := Z.shiftr (Z.land t k) s). assert (Hback : Z.land (Z.shiftl v s) k = Z.land t k ∧ is_u32 (Z.shiftl v s)).
  { unfold v. assert (Hs : 0 ≤ s) by (by destruct Hc as [(_ & _ & ->)|[(_ & _ & ->)|(_ & _ & ->)]]). split.
    - rewrite shift_back by (done || destruct Hc as [(_ & -> & ->)|[(_ & -> & ->)|(_ & -> & ->)]]; done). by rewrite <- Z.land_assoc, Z.land_diag.
    - rewrite <- Z.ldiff_ones_r by done. apply ldiff_in_width, land_in_width; done. }
  destruct Hback as [Hback Wb].
  assert (Hp : mf_are_prereqs_ok mf (fm_flow (part F_mpls_lse m D K)) = true).
  { unfold mf_are_prereqs_ok. replace (mf_prerequisites mf) with MFP_MPLS by (by destruct Hc as [(-> & _)|[(-> & _)|(-> & _)]]). by rewrite part_flow_ne. }
  assert (Hset : mf_set_value mf v (part F_mpls_lse m D K)
    = Some (set_both F_mpls_lse (Z.lor (Z.ldiff (Z.land t K) k) (Z.land t k)) (Z.lor (Z.land (fm_wc m F_mpls_lse) K) k) (part F_mpls_lse m D K))).
  { rewrite <- Hback. destruct Hc as [(-> & -> & ->)|[(-> & -> & ->)|(-> & -> & ->)]]; cbn [mf_set_value];
      unfold match_set_mpls_tc, match_set_mpls_bos, match_set_mpls_label, flow_set_mpls_tc, flow_set_mpls_bos, flow_set_mpls_label,
        set_mpls_lse_tc, set_mpls_lse_bos, set_mpls_lse_label, lse_set, set_both, and_not; rewrite part_flow, part_wc; fold t; try done.
    by rewrite wrap_id. }
  split; [|split; [done|split; [|split; [|done]]]].
  - unfold v. destruct Hc as [(-> & -> & ->)|[(-> & -> & ->)|(-> & -> & ->)]].
    + apply (in_width_mono 3); [done|]. apply shiftr_drops_width; [done..|]. rewrite Z.land_comm. by apply land_in_width.
    + apply (in_width_mono 1); [done|]. apply shiftr_drops_width; [done..|]. rewrite Z.land_comm. by apply land_in_width.
    + apply (in_width_mono 20); [done|]. by apply shiftr_drops_width, land_in_width.
  - assert (Hv : Z.land v (Z.shiftr k s) = v).
    { unfold v. rewrite <- Z.shiftr_land. by rewrite <- Z.land_assoc, Z.land_diag. }
    destruct Hc as [(-> & -> & ->)|[(-> & -> & ->)|(-> & -> & ->)]]; cbn [mf_is_value_valid]; unfold no_bits_outside; by rewrite Z.eqb_eq, ldiff_0_iff.
  - intros wc Hwc. destruct Hc as [(-> & -> & ->)|[(-> & -> & ->)|(-> & -> & ->)]]; cbn [mf_is_all_wild]; by rewrite Hwc.
Qed.

Lemma bos_value t : is_u32 t → (if mpls_lse_to_bos t then 1 else 0) = Z.shiftr (Z.land t MPLS_BOS_MASK) MPLS_BOS_SHIFT.
Proof.
  intros _. unfold mpls_lse_to_bos. change MPLS_BOS_MASK with (2 ^ 8). rewrite land_pow2 by done. change MPLS_BOS_SHIFT with 8. by destruct (Z.testbit t 8).
Qed.

Lemma pulls_mpls oxm m D :
  encodable oxm m → F_mpls_lse ∉ D → fm_flow (on D m) F_dl_type = fm_flow m F_dl_type → pulls (nxm_put_mpls m) (on D m) (on (F_mpls_lse :: D) m).
Proof.
  intros He Hout Hty. destruct (en_mpls _ _ He) as (Ht & H1 & H2 & H3). pose proof (en_ok _ _ He) as Hm. unfold nxm_put_mpls.
  destruct (eth_type_mpls (fm_flow m F_dl_type)) eqn:Em.
  2:{ destruct (decide (fm_wc m F_mpls_lse = 0)) as [E|E]; [rewrite <- on_skip by done; apply pulls_nil|]. apply (en_allowed _ _ He) in E. cbn in E. by rewrite E in Em. }
  rewrite <- (part_none F_mpls_lse) by done. rewrite <- (part_all F_mpls_lse m D (Z.lor (Z.lor MPLS_TC_MASK MPLS_BOS_MASK) MPLS_LABEL_MASK)); [|done|].
  2:{ apply (mask_rest 32 _ _ MPLS_TTL_MASK); [done|apply Hm|done|done]. }
  rewrite bos_value by apply (flow_value_width m F_mpls_lse Hm).
  apply (pulls_app _ _ _ (part F_mpls_lse m D MPLS_TC_MASK)); [|apply (pulls_app _ _ _ (part F_mpls_lse m D (Z.lor MPLS_TC_MASK MPLS_BOS_MASK)))].
  - apply (pulls_lse_part m D 0 MPLS_TC_MASK MFF_MPLS_TC _ MPLS_TC_SHIFT); try done; [by left|by rewrite Hty|by right].
  - apply (pulls_lse_part m D MPLS_TC_MASK MPLS_BOS_MASK MFF_MPLS_BOS _ MPLS_BOS_SHIFT); try done; [by right; left|by rewrite Hty|by right].
  - apply (pulls_lse_part m D (Z.lor MPLS_TC_MASK MPLS_BOS_MASK) MPLS_LABEL_MASK MFF_MPLS_LABEL _ MPLS_LABEL_SHIFT); try done; [by right; right|by rewrite Hty|by right].
Qed.

(** The VLAN identifier and the CFI bit. *)
Definition VID_CFI : Z := Z.lor VLAN_VID_MASK VLAN_CFI.

Lemma vid_set m D k :
  fmatch_ok m → F_vlan_tci ∉ D → Z.land (fm_wc m F_vlan_tci) VID_CFI = Z.land k VID_CFI →
  match_set_vlan_vid_masked (part F_vlan_tci m D 0) (Z.land (fm_flow m F_vlan_tci) VID_CFI) k = part F_vlan_tci m D VID_CFI.
Proof.
  intros Hm Hout Hk. destruct (Hm F_vlan_tci) as [_ Hc]. unfold match_set_vlan_vid_masked, flow_set_vlan_vid, and_not. cbn zeta. fold VID_CFI.
  rewrite part_flow, part_wc, !Z.land_0_r, Z.ldiff_0_l, Z.lor_0_l, Z.land_0_l, Z.lor_0_r. rewrite <- Hk.
  unfold part at 3. rewrite <- (set_both_twice F_vlan_tci _ _ (Z.land (fm_flow m F_vlan_tci) 0) (Z.land (fm_wc m F_vlan_tci) 0)).
  fold (part F_vlan_tci m D 0). unfold set_both. do 2 f_equal. rewrite <- Hc at 2. bits.
Qed.

Lemma pulls_vid m D :
  fmatch_ok m → F_vlan_tci ∉ D →
  let vid := Z.land (fm_flow m F_vlan_tci) VID_CFI in
  let mask := Z.land (fm_wc m F_vlan_tci) VID_CFI in
  pulls (if mask =? VID_CFI then nxm_put_16 (oxm_header MFF_VLAN_VID) vid
         else if negb (mask =? 0) then nxm_put_16m (oxm_header MFF_VLAN_VID) vid mask else [])
    (part F_vlan_tci m D 0) (part F_vlan_tci m D VID_CFI).
Proof.
  intros Hm Hout vid mask. destruct (header_known MFF_VLAN_VID) with (h := oxm_header MFF_VLAN_VID) as [Ho Ho']; [mf_id|done|done|by right|]. specialize (Ho' eq_refl).
  pose proof (Hm F_vlan_tci) as [Wk Hc]. pose proof (flow_value_width m F_vlan_tci Hm) as Wv.
  assert (Wvid : in_width (mf_width MFF_VLAN_VID) vid) by (by apply land_in_width). assert (Wm : in_width (mf_width MFF_VLAN_VID) mask) by (by apply land_in_width).
  assert (Hok : mf_is_value_valid MFF_VLAN_VID vid = true) by (cbn [mf_is_value_valid]; unfold vid; by rewrite <- Z.land_assoc, Z.land_0_r).
  assert (Hw : mf_is_all_wild MFF_VLAN_VID (fm_wc (part F_vlan_tci m D 0)) = true) by (cbn [mf_is_all_wild]; by rewrite part_wc, Z.land_0_r).
  destruct (Z.eqb_spec mask VID_CFI) as [E|E].
  { apply (pulls_value MFF_VLAN_VID); try done. cbn [mf_set_value]. unfold match_set_vlan_vid. rewrite vid_set; [done|done|done|exact E]. }
  destruct (Z.eqb_spec mask 0) as [E0|E0]; cbn [negb].
  { change (part F_vlan_tci m D VID_CFI) with (part F_vlan_tci m D (Z.lor 0 VID_CFI)). rewrite part_skip by done. apply pulls_nil. }
  assert (E1 : mask ≠ 2 ^ (8 * Z.of_nat 2) - 1).
  { intros E1. assert (Hd : Z.land mask VID_CFI = mask) by (unfold mask; by rewrite <- Z.land_assoc, Z.land_diag). by rewrite E1 in Hd. }
  rewrite put_m_16. unfold put_m. rewrite (proj2 (Z.eqb_neq _ _) E0), (proj2 (Z.eqb_neq _ _) E1). apply (pulls_masked MFF_VLAN_VID); try done.
  rewrite mf_set_partial by done. cbn [mf_set_masked]. f_equal. apply vid_set; [done|done|]. unfold mask. by rewrite <- Z.land_assoc, Z.land_diag.
Qed.

Lemma pulls_pcp m D :
  fmatch_ok m → F_vlan_tci ∉ D → Z.land (fm_wc m F_vlan_tci) VLAN_PCP_MASK = VLAN_PCP_MASK → Z.land (fm_flow m F_vlan_tci) VLAN_CFI ≠ 0 →
  pulls (nxm_put_8 (oxm_header MFF_VLAN_PCP) (vlan_tci_to_pcp (fm_flow m F_vlan_tci))) (part F_vlan_tci m D VID_CFI) (part F_vlan_tci m D 0xffff).
Proof.
  intros Hm Hout Hp Hcfi. destruct (header_known MFF_VLAN_PCP) with (h := oxm_header MFF_VLAN_PCP) as [Ho _]; [mf_id|done|done|by right|].
  pose proof (Hm F_vlan_tci) as [Wk Hc]. pose proof (flow_value_width m F_vlan_tci Hm) as Wv. set (t := fm_flow m F_vlan_tci) in *. set (w := fm_wc m F_vlan_tci) in *.
  assert (Hcf : Z.land t VLAN_CFI = VLAN_CFI).
  { change VLAN_CFI with (2 ^ 12) in *. rewrite land_pow2 in * by done. by destruct (Z.testbit t 12). }
  assert (Hcw : Z.land w VLAN_CFI = VLAN_CFI).
  { change VLAN_CFI with (2 ^ 12) in Hcfi |- *. rewrite land_pow2 in Hcfi |- * by done. pose proof (f_equal (λ z, Z.testbit z 12) Hc) as Hb. cbv beta in Hb.
    rewrite Z.land_spec in Hb. destruct (Z.testbit t 12); [|done]. cbn [andb] in Hb. by rewrite Hb. }
  apply (pulls_value MFF_VLAN_PCP); try done.
  - unfold vlan_tci_to_pcp. apply (in_width_mono 3); [done|]. by apply shiftr_drops_width, land_in_width.
  - unfold mf_are_prereqs_ok, mf_prerequisites. cbn [mf_fields fst snd]. rewrite part_flow. fold t.
    replace (Z.land (Z.land t VID_CFI) VLAN_CFI) with VLAN_CFI; [done|]. by rewrite <- Z.land_assoc.
  - cbn [mf_is_all_wild]. rewrite part_wc. by rewrite <- Z.land_assoc, Z.land_0_r.
  - cbn [mf_is_value_valid]. unfold no_bits_outside. rewrite Z.eqb_eq, ldiff_0_iff. unfold vlan_tci_to_pcp. rewrite <- Z.shiftr_land. by rewrite <- Z.land_assoc.
  - cbn [mf_set_value]. unfold match_set_dl_vlan_pcp, flow_set_vlan_pcp, and_not. rewrite part_flow, part_wc. fold t w. unfold part at 3.
    rewrite <- (set_both_twice F_vlan_tci _ _ (Z.land t VID_CFI) (Z.land w VID_CFI)). fold (part F_vlan_tci m D VID_CFI). unfold set_both. do 3 f_equal.
    + assert (Hs : Z.shiftl (Z.land (vlan_tci_to_pcp t) 7) VLAN_PCP_SHIFT = Z.land t VLAN_PCP_MASK).
      { unfold vlan_tci_to_pcp. rewrite Z.shiftl_land. change (Z.shiftl 7 VLAN_PCP_SHIFT) with VLAN_PCP_MASK. rewrite shift_back by done. by rewrite <- Z.land_assoc. }
      rewrite Hs. rewrite <- Hcf at 1. rewrite Z.ldiff_land, <- Z.land_assoc. change (Z.land VID_CFI (Z.lnot VLAN_PCP_MASK)) with VID_CFI. by rewrite <- !Z.land_lor_distr_r.
    + rewrite <- Hp at 1. rewrite <- Hcw at 1. by rewrite <- !Z.land_lor_distr_r.
Qed.

Lemma pulls_vlan oxm m D : encodable oxm m → F_vlan_tci ∉ D → pulls (nxm_put_vlan m oxm) (on D m) (on (F_vlan_tci :: D) m).
Proof.
  intros He Hout. pose proof (en_ok _ _ He) as Hm. unfold nxm_put_vlan. destruct oxm.
  2:{ rewrite put_m_16. apply (pulls_plain D m MFF_VLAN_TCI); try done; [mf_id|by left]. }
  destruct (en_vlan _ _ He eq_refl) as [Hp Hcfi]. pose proof (Hm F_vlan_tci) as [Wk Hc]. fold VID_CFI. rewrite <- (part_none F_vlan_tci) by done.
  apply (pulls_app _ _ _ (part F_vlan_tci m D VID_CFI)); [by apply pulls_vid|]. destruct Hp as [Hp|Hp].
  - unfold vlan_tci_to_pcp at 1. rewrite Hp. change (negb (_ =? 0) && false) with (negb (Z.land (fm_flow m F_vlan_tci) VID_CFI =? 0) && false). rewrite andb_false_r.
    rewrite <- (part_all F_vlan_tci m D VID_CFI); [apply pulls_nil|done|]. apply (mask_rest 16 _ _ VLAN_PCP_MASK); done.
  - assert (Hn : Z.land (fm_flow m F_vlan_tci) VLAN_CFI ≠ 0) by (apply Hcfi; by rewrite Hp).
    rewrite (proj2 (Z.eqb_neq (Z.land (fm_flow m F_vlan_tci) VID_CFI) 0)).
    + unfold vlan_tci_to_pcp at 1. rewrite Hp. cbn [negb andb]. rewrite <- (part_all F_vlan_tci m D 0xffff); [by apply pulls_pcp|done|]. by apply (land_all_ones 16).
    + intros E. apply Hn. change VLAN_CFI with (Z.land VID_CFI VLAN_CFI). by rewrite Z.land_assoc, E.
Qed.

(** ** Fields without masks *)

Lemma pulls_opt D m mf h v :
  let f := mf_flow_field mf in
  fmatch_ok m → mf ∈ mf_ids → h = nxm_header mf ∨ h = oxm_header mf → h ≠ 0 → f ∉ D → (fm_wc m f = 0 ∨ fm_wc m f = all_ones f) →
  (fm_wc m f ≠ 0 → mf_are_prereqs_ok mf (fm_flow (on D m)) = true ∧ in_width (mf_width mf) v ∧ mf_is_value_valid mf v = true
     ∧ mf_set_value mf v (on D m) = Some (set_both f (fm_flow m f) (all_ones f) (on D m))) →
  (∀ wc, wc f = 0 → mf_is_all_wild mf wc = true) →
  pulls (if negb (fm_wc m f =? 0) then be_bytes 4 h ++ be_bytes (mf_n_bytes mf) v else []) (on D m) (on (f :: D) m).
Proof.
  intros f Hm Hin Hh Hz Hout Hk Hs Hw. destruct (Z.eqb_spec (fm_wc m f) 0) as [E|E]; cbn [negb]; [rewrite <- on_skip by done; apply pulls_nil|].
  destruct (Hs E) as (Hp & Hv & Hok & Hset). destruct Hk as [Hk|Hk]; [done|]. apply pulls_exact; try done. by rewrite Hset, <- Hk.
Qed.

Lemma set_exact_both f v x : set_exact f v x = set_both f v (all_ones f) x.
Proof. done. Qed.

Lemma set_masked_both f v x : in_width (field_width f) v → set_masked f v (all_ones f) x = set_both f v (all_ones f) x.
Proof. intros Hv. unfold set_masked, set_both, all_ones. rewrite land_all_ones; [done|done|]. pose proof (field_width_pos f). lia. Qed.

Lemma on_ip_any D m : F_dl_type ∈ D → is_ip_any (fm_flow (on D m)) = is_ip_any (fm_flow m).
Proof. intros H. unfold is_ip_any. by rewrite on_flow. Qed.

(** ** IP *)

Lemma hdr_either (oxm : bool) mf : (if oxm then oxm_header mf else nxm_header mf) = nxm_header mf ∨ (if oxm then oxm_header mf else nxm_header mf) = oxm_header mf.
Proof. destruct oxm; auto. Qed.

Lemma hdr_nonzero (oxm : bool) mf : nxm_header mf ≠ 0 → oxm_header mf ≠ 0 → (if oxm then oxm_header mf else nxm_header mf) ≠ 0.
Proof. by destruct oxm. Qed.

Section ip.
Context (oxm : bool) (m : fmatch) (He : encodable oxm m).
Local Abbreviation fl := (fm_flow m).
Local Abbreviation wc := (fm_wc m).
Local Abbreviation hdr mf := (if oxm then oxm_header mf else nxm_header mf).
Local Abbreviation Hm := (en_ok _ _ He).

Lemma not_allowed f : allowed oxm fl f = false → wc f = 0.
Proof. intros Ha. destruct (decide (wc f = 0)) as [?|E]; [done|]. apply (en_allowed _ _ He) in E. congruence. Qed.

Lemma pulls_ttl D : F_nw_ttl ∉ D → F_dl_type ∈ D → is_ip_any fl = true →
  pulls (if negb oxm && negb (wc F_nw_ttl =? 0) then nxm_put_8 (nxm_header MFF_IP_TTL) (fl F_nw_ttl) else []) (on D m) (on (F_nw_ttl :: D) m).
Proof.
  intros Hout Hd Hip. destruct (negb oxm) eqn:Eo.
  2:{ cbn [andb]. rewrite <- on_skip; [apply pulls_nil|apply Hm|]. apply not_allowed. cbn [allowed]. by rewrite Eo, andb_false_r. }
  apply (pulls_opt D m MFF_IP_TTL); try done; [apply Hm|mf_id|by left|apply (en_exact _ _ He); set_solver| |].
  - intros _. split; [change (is_ip_any (fm_flow (on D m)) = true); by rewrite on_ip_any|]. split; [apply (flow_value_width m F_nw_ttl Hm)|done].
  - intros w Hw. cbn in *. by rewrite Hw.
Qed.

Lemma pulls_proto D : F_nw_proto ∉ D → F_dl_type ∈ D → is_ip_any fl = true →
  pulls (if negb (wc F_nw_proto =? 0) then nxm_put_8 (hdr MFF_IP_PROTO) (fl F_nw_proto) else []) (on D m) (on (F_nw_proto :: D) m).
Proof.
  intros Hout Hd Hip. apply (pulls_opt D m MFF_IP_PROTO); try done; [apply Hm|mf_id|apply hdr_either|by apply hdr_nonzero|apply (en_exact _ _ He); set_solver| |].
  - intros _. split; [change (is_ip_any (fm_flow (on D m)) = true); by rewrite on_ip_any|]. split; [apply (flow_value_width m F_nw_proto Hm)|done].
  - intros w Hw. cbn in *. by rewrite Hw.
Qed.

(** The fields of a transport protocol. *)
Lemma pulls_port D mf : mf ∈ [MFF_TCP_SRC; MFF_TCP_DST; MFF_UDP_SRC; MFF_UDP_DST; MFF_SCTP_SRC; MFF_SCTP_DST] →
  mf_flow_field mf ∉ D → mf_are_prereqs_ok mf (fm_flow (on D m)) = true → ∀ h, h = nxm_header mf ∨ h = oxm_header mf →
  pulls (nxm_put_16m h (fl (mf_flow_field mf)) (wc (mf_flow_field mf))) (on D m) (on (mf_flow_field mf :: D) m).
Proof.
  intros Hmf Hout Hp h Hh. assert (Hx : mf ∈ mf_ids ∧ nxm_header mf ≠ 0 ∧ oxm_header mf ≠ 0 ∧ mf_plain mf = true ∧ mf_n_bytes mf = 2%nat).
  { repeat (apply elem_of_cons in Hmf as [->|Hmf]; [split; [mf_id|done]|]). by apply not_elem_of_nil in Hmf. }
  destruct Hx as (H1 & H2 & H3 & H4 & H5). rewrite put_m_16. rewrite <- H5. apply pulls_plain; try done; [apply Hm|]. by destruct Hh as [-> | ->].
Qed.

Lemma pulls_icmp D mf h : mf ∈ [MFF_ICMPV4_TYPE; MFF_ICMPV4_CODE; MFF_ICMPV6_TYPE; MFF_ICMPV6_CODE] →
  mf_flow_field mf ∉ D → is_icmpv4 fl || is_icmpv6 fl = true → mf_are_prereqs_ok mf (fm_flow (on D m)) = true → h = nxm_header mf ∨ h = oxm_header mf →
  pulls (if negb (wc (mf_flow_field mf) =? 0) then nxm_put_8 h (fl (mf_flow_field mf)) else []) (on D m) (on (mf_flow_field mf :: D) m).
Proof.
  intros Hmf Hout Hic Hp Hh.
  assert (Hx : mf ∈ mf_ids ∧ nxm_header mf ≠ 0 ∧ oxm_header mf ≠ 0 ∧ mf_n_bytes mf = 1%nat ∧ (∀ v, mf_is_value_valid mf v = true)
    ∧ (∀ w, w (mf_flow_field mf) = 0 → mf_is_all_wild mf w = true) ∧ (mf_flow_field mf = F_tp_src ∨ mf_flow_field mf = F_tp_dst)
    ∧ ∀ v x, mf_set_value mf v x = Some (set_masked (mf_flow_field mf) v (all_ones (mf_flow_field mf)) x)).
  { repeat (apply elem_of_cons in Hmf as [->|Hmf]; [split; [mf_id|split_and!; try done; try (by left); try (by right); by intros w Hw; cbn in *; rewrite Hw]|]). by apply not_elem_of_nil in Hmf. }
  destruct Hx as (H1 & H2 & H3 & H4 & H5 & H6 & H7 & H8). destruct (en_icmp _ _ He Hic _ H7) as [Hk Hu]. unfold nxm_put_8, nxm_put_header.
  replace (be_bytes 1 (fl (mf_flow_field mf))) with (be_bytes (mf_n_bytes mf) (fl (mf_flow_field mf))) by (by rewrite H4).
  apply pulls_opt; try done; [apply Hm|by destruct Hh as [-> | ->]|]. intros _. split; [done|]. split; [unfold mf_width; by rewrite H4|]. split; [done|].
  rewrite H8, set_masked_both; [done|]. apply (flow_value_width m _ Hm).
Qed.
End ip.
