(* ===== verification/NxMatchRound.v ===== *)
(** * The encoding of matches round-trips

    The groups of entries that [nx_put_raw] writes one after the other, and the
    theorems about whole matches. *)
From Stdlib Require Import FunctionalExtensionality.
From stdpp Require Import list.
From S2P Require Import Prelude Util ByteOrder Hash Hmap Bitwise MatchFields MetaFlow OdpActions Csum Packets PacketBytes NxMatch NxMatchThms.

Section groups.
Context (oxm : bool) (m : fmatch) (He : encodable oxm m).
Local Abbreviation fl := (fm_flow m).
Local Abbreviation wc := (fm_wc m).
Local Abbreviation hdr mf := (if oxm then oxm_header mf else nxm_header mf).
Local Abbreviation Hm := (en_ok _ _ He).

Lemma pulls_skip D f : allowed oxm fl f = false → pulls [] (on D m) (on (f :: D) m).
Proof. intros Ha. rewrite <- on_skip; [apply pulls_nil|apply Hm|by apply (not_allowed oxm)]. Qed.

(** Fields with a mask, by their width. *)
Lemma pulls_plain_field D mf :
  mf_plain mf = true → mf ∈ mf_ids → nxm_header mf ≠ 0 → oxm_header mf ≠ 0 → mf_flow_field mf ∉ D → mf_are_prereqs_ok mf (fm_flow (on D m)) = true →
  ∀ h, h = nxm_header mf ∨ h = oxm_header mf →
  pulls (put_m (mf_n_bytes mf) h (fl (mf_flow_field mf)) (wc (mf_flow_field mf))) (on D m) (on (mf_flow_field mf :: D) m).
Proof. intros Hp Hin N1 N2 Hout Hpre h Hh. apply pulls_plain; try done; [apply Hm|]. by destruct Hh as [-> | ->]. Qed.

Section l4.
Context (D : list MatchFields.field) (v6 : bool).
Local Abbreviation ip_type := (if v6 then ETH_TYPE_IPV6 else ETH_TYPE_IP).
Context (Hty : fl F_dl_type = ip_type) (Hd : F_dl_type ∈ D).

Lemma ip_any_here D' : F_dl_type ∈ D' → is_ip_any (fm_flow (on D' m)) = true.
Proof. intros H. rewrite on_ip_any by done. unfold is_ip_any. rewrite Hty. by destruct v6. Qed.

Context (Hp : F_nw_proto ∈ D) (H1 : F_tp_src ∉ D) (H2 : F_tp_dst ∉ D) (H3 : F_tcp_flags ∉ D).
Local Abbreviation D' := (F_tp_dst :: F_tp_src :: D).

Lemma l4_here X : D ⊆ X → fm_flow (on X m) F_nw_proto = fl F_nw_proto ∧ is_ip_any (fm_flow (on X m)) = true ∧ fm_flow (on X m) F_dl_type = ip_type.
Proof. intros HX. rewrite !on_flow by (by apply HX). split; [done|]. split; [by apply ip_any_here, HX|done]. Qed.

(** The ports of a protocol. *)
Lemma pulls_ports mfs mfd hs hd :
  mfs ∈ [MFF_TCP_SRC; MFF_UDP_SRC; MFF_SCTP_SRC] → mfd ∈ [MFF_TCP_DST; MFF_UDP_DST; MFF_SCTP_DST] →
  (∀ X, D ⊆ X → mf_are_prereqs_ok mfs (fm_flow (on X m)) = true ∧ mf_are_prereqs_ok mfd (fm_flow (on X m)) = true) →
  (hs = nxm_header mfs ∨ hs = oxm_header mfs) → (hd = nxm_header mfd ∨ hd = oxm_header mfd) →
  pulls (nxm_put_16m hs (fl F_tp_src) (wc F_tp_src) ++ nxm_put_16m hd (fl F_tp_dst) (wc F_tp_dst)) (on D m) (on D' m).
Proof.
  intros Hs Hd' Hq Hhs Hhd. assert (Es : mf_flow_field mfs = F_tp_src) by (repeat (apply elem_of_cons in Hs as [->|Hs]; [done|]); by apply not_elem_of_nil in Hs).
  assert (Ed : mf_flow_field mfd = F_tp_dst) by (repeat (apply elem_of_cons in Hd' as [->|Hd']; [done|]); by apply not_elem_of_nil in Hd').
  apply (pulls_app _ _ _ (on (F_tp_src :: D) m)).
  - rewrite <- Es. apply (pulls_port oxm m He); [set_solver|by rewrite Es|by apply Hq|done].
  - rewrite <- Ed. apply (pulls_port oxm m He); [set_solver|rewrite Ed; set_solver|apply Hq; set_solver|done].
Qed.

Lemma pulls_icmp_fields :
  fl F_nw_proto = (if v6 then IPPROTO_ICMPV6 else IPPROTO_ICMP) →
  pulls ((if negb (wc F_tp_src =? 0) then nxm_put_8 (hdr (if v6 then MFF_ICMPV6_TYPE else MFF_ICMPV4_TYPE)) (fl F_tp_src) else [])
         ++ (if negb (wc F_tp_dst =? 0) then nxm_put_8 (hdr (if v6 then MFF_ICMPV6_CODE else MFF_ICMPV4_CODE)) (fl F_tp_dst) else [])) (on D m) (on D' m).
Proof.
  intros E. assert (Hic : is_icmpv4 fl || is_icmpv6 fl = true) by (unfold is_icmpv4, is_icmpv6; rewrite Hty, E; by destruct v6).
  assert (Hq : ∀ mf X, mf_prerequisites mf = (if v6 then MFP_ICMPV6 else MFP_ICMPV4) → D ⊆ X → mf_are_prereqs_ok mf (fm_flow (on X m)) = true).
  { intros mf X Hmf HX. unfold mf_are_prereqs_ok. rewrite Hmf. destruct (l4_here X HX) as (A1 & _ & A3).
    destruct v6; unfold is_icmpv6, is_icmpv4; by rewrite A1, A3, E. }
  assert (Hsrc : mf_flow_field (if v6 then MFF_ICMPV6_TYPE else MFF_ICMPV4_TYPE) = F_tp_src) by (by destruct v6).
  assert (Hdst : mf_flow_field (if v6 then MFF_ICMPV6_CODE else MFF_ICMPV4_CODE) = F_tp_dst) by (by destruct v6).
  apply (pulls_app _ _ _ (on (F_tp_src :: D) m)).
  - rewrite <- Hsrc. apply (pulls_icmp oxm m He); [destruct v6; set_solver|by rewrite Hsrc|done|apply Hq; [by destruct v6|done]|apply hdr_either].
  - rewrite <- Hdst. apply (pulls_icmp oxm m He); [destruct v6; set_solver|rewrite Hdst; set_solver|done|apply Hq; [by destruct v6|set_solver]|apply hdr_either].
Qed.

Lemma pulls_l4 :
  pulls (nxm_put_l4 m (if v6 then IPPROTO_ICMPV6 else IPPROTO_ICMP) (hdr (if v6 then MFF_ICMPV6_TYPE else MFF_ICMPV4_TYPE))
           (hdr (if v6 then MFF_ICMPV6_CODE else MFF_ICMPV4_CODE)) oxm) (on D m) (on (F_tcp_flags :: D') m).
Proof.
  assert (Hip : is_ip_any fl = true) by (unfold is_ip_any; rewrite Hty; by destruct v6).
  assert (Hnf : ∀ es, fl F_nw_proto ≠ IPPROTO_TCP → pulls es (on D m) (on D' m) → pulls es (on D m) (on (F_tcp_flags :: D') m)).
  { intros es Hn Hes. rewrite <- (app_nil_r es). apply (pulls_app _ _ _ (on D' m)); [done|]. apply pulls_skip. cbn [allowed]. by rewrite Hip, (proj2 (Z.eqb_neq _ _) Hn). }
  assert (Hq : ∀ mf X, (mf_prerequisites mf, fl F_nw_proto) ∈ [(MFP_TCP, IPPROTO_TCP); (MFP_UDP, IPPROTO_UDP); (MFP_SCTP, IPPROTO_SCTP)] →
    D ⊆ X → mf_are_prereqs_ok mf (fm_flow (on X m)) = true).
  { intros mf X Hmf HX. unfold mf_are_prereqs_ok. destruct (l4_here X HX) as (A1 & A2 & _). rewrite A1, A2.
    repeat (apply elem_of_cons in Hmf as [Hmf|Hmf]; [by injection Hmf as -> ->|]). by apply not_elem_of_nil in Hmf. }
  unfold nxm_put_l4. destruct (Z.eqb_spec (fl F_nw_proto) IPPROTO_TCP) as [E|E1].
  { rewrite app_assoc. apply (pulls_app _ _ _ (on D' m)).
    - apply (pulls_ports MFF_TCP_SRC MFF_TCP_DST); [set_solver|set_solver| |apply hdr_either..]. intros X HX. split; (apply Hq; [rewrite E; set_solver|done]).
    - apply (pulls_tcp_flags oxm); [done|set_solver|]. destruct (l4_here D') as (-> & -> & _); [set_solver|]. by rewrite E. }
  destruct (Z.eqb_spec (fl F_nw_proto) IPPROTO_UDP) as [E|E2].
  { apply Hnf, (pulls_ports MFF_UDP_SRC MFF_UDP_DST); [done|set_solver|set_solver| |apply hdr_either..]. intros X HX. split; (apply Hq; [rewrite E; set_solver|done]). }
  destruct (Z.eqb_spec (fl F_nw_proto) IPPROTO_SCTP) as [E|E3].
  { apply Hnf, (pulls_ports MFF_SCTP_SRC MFF_SCTP_DST); [done|set_solver|set_solver| |by right..]. intros X HX. split; (apply Hq; [rewrite E; set_solver|done]). }
  apply Hnf; [done|]. destruct (Z.eqb_spec (fl F_nw_proto) (if v6 then IPPROTO_ICMPV6 else IPPROTO_ICMP)) as [E|E4]; [by apply pulls_icmp_fields|].
  assert (A : allowed oxm fl F_tp_src = false).
  { cbn [allowed existsb]. unfold is_icmpv4, is_icmpv6. rewrite (proj2 (Z.eqb_neq _ _) E1), (proj2 (Z.eqb_neq _ _) E2), (proj2 (Z.eqb_neq _ _) E3), andb_false_r.
    rewrite Hty. destruct v6; rewrite (proj2 (Z.eqb_neq _ _) E4); [by cbn|]. cbn [orb]. by rewrite andb_false_r. }
  change (@nil Z) with (@nil Z ++ []). apply (pulls_app _ _ _ (on (F_tp_src :: D) m)); by apply pulls_skip.
Qed.
End l4.

(** Fields that the match does not constrain are as good as decoded. *)
Lemma on_more D D' : D ⊆ D' → (∀ f, f ∈ D' → f ∉ D → wc f = 0) → on D m = on D' m.
Proof.
  intros Hsub Hw. unfold on. f_equal; apply functional_extensionality; intros f; (destruct (decide (f ∈ D)) as [H|H]; [by rewrite decide_True by (by apply Hsub)|]);
    (destruct (decide (f ∈ D')) as [H'|H']; [|done]); rewrite ?(masked_zero m f Hm) by (by apply Hw); [done|]. symmetry. by apply Hw.
Qed.

Definition nxm_ip_fields : list MatchFields.field := [F_tcp_flags; F_tp_dst; F_tp_src; F_nw_proto; F_nw_ttl; F_nw_tos; F_nw_frag].

Lemma pulls_ip D (v6 : bool) :
  fl F_dl_type = (if v6 then ETH_TYPE_IPV6 else ETH_TYPE_IP) → F_dl_type ∈ D → (∀ f, f ∈ nxm_ip_fields → f ∉ D) →
  pulls (nxm_put_ip m (if v6 then IPPROTO_ICMPV6 else IPPROTO_ICMP) (hdr (if v6 then MFF_ICMPV6_TYPE else MFF_ICMPV4_TYPE))
           (hdr (if v6 then MFF_ICMPV6_CODE else MFF_ICMPV4_CODE)) oxm) (on D m) (on (nxm_ip_fields ++ D) m).
Proof.
  intros Hty Hd Hout. assert (Hip : is_ip_any fl = true) by (unfold is_ip_any; rewrite Hty; by destruct v6).
  unfold nxm_ip_fields in Hout. repeat setoid_rewrite elem_of_cons in Hout. unfold nxm_put_ip.
  apply (pulls_app _ _ _ (on (F_nw_frag :: D) m)); [apply (pulls_frag oxm); [done|apply Hout; tauto|by apply (ip_any_here v6)]|].
  rewrite app_assoc. apply (pulls_app _ _ _ (on (F_nw_tos :: F_nw_frag :: D) m)).
  { apply pulls_tos; [done| |apply (ip_any_here v6); set_solver]. rewrite elem_of_cons. intros [?|?]; [done|]. by apply (Hout F_nw_tos); tauto. }
  set (D1 := F_nw_ttl :: F_nw_tos :: F_nw_frag :: D).
  apply (pulls_app _ _ _ (on D1 m)); [apply (pulls_ttl oxm m He); [|set_solver|done]; rewrite !elem_of_cons; intros [?|[?|?]]; [done..|by apply (Hout F_nw_ttl); tauto]|].
  assert (Hp : F_nw_proto ∉ D1) by (unfold D1; rewrite !elem_of_cons; intros [?|[?|[?|?]]]; [done..|by apply (Hout F_nw_proto); tauto]).
  pose proof (pulls_proto oxm m He D1 Hp) as Hpp. destruct (Z.eqb_spec (wc F_nw_proto) 0) as [E|E]; cbn [negb] in *.
  - rewrite (on_more D1 (nxm_ip_fields ++ D)); [apply pulls_nil|intros f Hf; unfold D1 in *; set_solver|]. intros f Hf Hf'.
    assert (E0 : fl F_nw_proto = 0) by (by apply masked_zero; [apply Hm|]). change (f ∈ F_tcp_flags :: F_tp_dst :: F_tp_src :: F_nw_proto :: D1) in Hf.
    rewrite !elem_of_cons in Hf. destruct Hf as [->|[->|[->|[->|Hf]]]]; try done; apply (not_allowed oxm); try done;
      cbn [allowed existsb]; unfold is_icmpv4, is_icmpv6; by rewrite E0, !andb_false_r.
  - apply (pulls_app _ _ _ (on (F_nw_proto :: D1) m)); [apply Hpp; [set_solver|done]|]. apply pulls_l4; [done|set_solver|set_solver|..]; unfold D1; rewrite !elem_of_cons;
      intros [?|[?|[?|[?|?]]]]; try done; [by apply (Hout F_tp_src); tauto|by apply (Hout F_tp_dst); tauto|by apply (Hout F_tcp_flags); tauto].
Qed.

(** A field with a mask, whose prerequisites hold when it is constrained. *)
Lemma pulls_field D f mf n h :
  mf_plain mf = true → mf ∈ mf_ids → nxm_header mf ≠ 0 → oxm_header mf ≠ 0 → (mf_flow_field mf, mf_n_bytes mf) = (f, n) → f ∉ D →
  h = nxm_header mf ∨ h = oxm_header mf → (wc f ≠ 0 → mf_are_prereqs_ok mf (fm_flow (on D m)) = true) →
  pulls (put_m n h (fl f) (wc f)) (on D m) (on (f :: D) m).
Proof.
  intros Hp Hin N1 N2 [= <- <-] Hout Hh Hpre. destruct (Z.eq_dec (wc (mf_flow_field mf)) 0) as [E|E]; [|by apply pulls_plain_field; auto].
  rewrite <- on_skip by (apply Hm || done). rewrite E. apply pulls_nil.
Qed.

(** The members decoded before those of the network layer. *)
Definition link_fields : list MatchFields.field := [F_mpls_lse; F_vlan_tci; F_dl_type; F_dl_dst; F_dl_src; F_in_port].
Definition l3_fields : list MatchFields.field :=
  [F_nw_src; F_nw_dst; F_ipv6_src; F_ipv6_dst; F_ipv6_label; F_nd_target; F_arp_sha; F_arp_tha] ++ nxm_ip_fields.

Ltac member := (apply (bool_decide_unpack _); vm_compute; exact I).
Ltac field_with mf :=
  (rewrite ?put_m_16, ?put_m_32, ?put_m_64, ?put_m_eth, ?put_m_ipv6; apply (pulls_field _ _ mf); [done|mf_id|done|done|done|member|apply hdr_either || by left|]; intros Hk).

(** Prerequisites that are types of frames. *)
Lemma of_type D mf : F_dl_type ∈ D →
  match mf_prerequisites mf with
  | MFP_ARP => (fl F_dl_type =? ETH_TYPE_ARP) || (fl F_dl_type =? ETH_TYPE_RARP)
  | MFP_IPV4 => fl F_dl_type =? ETH_TYPE_IP
  | MFP_IPV6 => fl F_dl_type =? ETH_TYPE_IPV6
  | _ => false
  end = true → mf_are_prereqs_ok mf (fm_flow (on D m)) = true.
Proof. intros Hd. unfold mf_are_prereqs_ok. rewrite on_flow by done. by destruct (mf_prerequisites mf). Qed.

(** What the network layer leaves unconstrained. *)
Lemma l3_rest D : forallb (λ f, bool_decide (f ∈ D) || negb (allowed oxm fl f)) l3_fields = true → link_fields ⊆ D → D ⊆ l3_fields ++ link_fields →
  on D m = on (l3_fields ++ link_fields) m.
Proof.
  intros Ha H1 H2. apply on_more; [done|]. intros f Hf Hn. apply (not_allowed oxm); [done|]. apply elem_of_app in Hf as [Hf|Hf]; [|by apply H1 in Hf].
  rewrite forallb_forall in Ha. specialize (Ha f). rewrite bool_decide_false in Ha by done. cbn [orb] in Ha. apply negb_true_iff, Ha. by apply list_elem_of_In.
Qed.

Ltac not_constrained Hty := (unfold l3_fields, nxm_ip_fields; cbn [app forallb allowed]; unfold is_icmpv6, is_icmpv4, is_ip_any; rewrite ?Hty; by vm_compute).

Lemma pulls_l3_ip : fl F_dl_type = ETH_TYPE_IP → pulls (nxm_put_l3 m oxm) (on link_fields m) (on (l3_fields ++ link_fields) m).
Proof.
  intros Hty. unfold nxm_put_l3. rewrite Hty. change (ETH_TYPE_IP =? ETH_TYPE_IP) with true. cbv iota.
  rewrite <- (l3_rest (nxm_ip_fields ++ [F_nw_dst; F_nw_src] ++ link_fields)); [|not_constrained Hty|member|member].
  apply (pulls_app _ _ _ (on (F_nw_src :: link_fields) m)); [field_with MFF_IPV4_SRC; by apply of_type; [member|rewrite Hty]|].
    apply (pulls_app _ _ _ (on (F_nw_dst :: F_nw_src :: link_fields) m)); [field_with MFF_IPV4_DST; by apply of_type; [member|rewrite Hty]|].
    apply (pulls_ip _ false); [done|member|]. apply Forall_forall. member.
Qed.

Lemma pulls_unless (b : bool) es D f :
  (b = true → pulls es (on D m) (on (f :: D) m)) → (b = false → allowed oxm fl f = false) → pulls (if b then es else []) (on D m) (on (f :: D) m).
Proof. destruct b; intros Ht Hf; [by apply Ht|]. by apply pulls_skip, Hf. Qed.

(** Neighbour discovery: the entries are written for any code, the fields have code 0 as a prerequisite. *)
Local Abbreviation ip6_done := (F_ipv6_label :: nxm_ip_fields ++ [F_ipv6_dst; F_ipv6_src] ++ link_fields).

Lemma of_nd D mf f : ip6_done ⊆ D → wc f ≠ 0 → fl F_dl_type = ETH_TYPE_IPV6 → (mf, f) ∈ [(MFF_ND_TARGET, F_nd_target); (MFF_ND_SLL, F_arp_sha); (MFF_ND_TLL, F_arp_tha)] →
  mf_are_prereqs_ok mf (fm_flow (on D m)) = true.
Proof.
  intros HD Hk Hty Hmf. apply (en_allowed _ _ He) in Hk.
  assert (Hin : ∀ g, g ∈ ip6_done → fm_flow (on D m) g = fl g) by (intros g Hg; apply on_flow; by apply HD).
  repeat (apply elem_of_cons in Hmf as [[= -> ->]|Hmf]; [unfold mf_are_prereqs_ok, is_icmpv6; cbn [mf_prerequisites mf_fields fst snd]; rewrite !Hin by member;
    cbn [allowed] in Hk; rewrite Hty in *; unfold is_icmpv6 in Hk; rewrite Hty in Hk; cbn [orb] in Hk; by rewrite <- !andb_assoc, ?(andb_comm (fl F_tp_dst =? 0)), !andb_assoc|]).
  by apply not_elem_of_nil in Hmf.
Qed.

Lemma pulls_nd : fl F_dl_type = ETH_TYPE_IPV6 →
  pulls (if (fl F_nw_proto =? IPPROTO_ICMPV6) && ((fl F_tp_src =? ND_NEIGHBOR_SOLICIT) || (fl F_tp_src =? ND_NEIGHBOR_ADVERT)) then
          nxm_put_ipv6 (hdr MFF_ND_TARGET) (fl F_nd_target) (wc F_nd_target)
          ++ (if fl F_tp_src =? ND_NEIGHBOR_SOLICIT then nxm_put_eth_masked (hdr MFF_ND_SLL) (fl F_arp_sha) (wc F_arp_sha) else [])
          ++ (if fl F_tp_src =? ND_NEIGHBOR_ADVERT then nxm_put_eth_masked (hdr MFF_ND_TLL) (fl F_arp_tha) (wc F_arp_tha) else [])
        else []) (on ip6_done m) (on (F_arp_tha :: F_arp_sha :: F_nd_target :: ip6_done) m).
Proof.
  intros Hty. set (nd := (fl F_nw_proto =? IPPROTO_ICMPV6) && _). assert (Hn : ∀ f, nd = false → f ∈ [F_nd_target; F_arp_sha; F_arp_tha] → allowed oxm fl f = false).
  { intros f En Hf. rewrite !elem_of_cons in Hf. unfold nd in En. destruct Hf as [->|[->|[->|Hf]]]; [..|by apply not_elem_of_nil in Hf]; cbn [allowed]; unfold is_icmpv6; rewrite Hty;
      (destruct (fl F_nw_proto =? IPPROTO_ICMPV6); [|done]); cbn [andb] in *; apply orb_false_iff in En as [E1 E2]; by rewrite ?E1, ?E2. }
  destruct nd eqn:En.
  2:{ rewrite (on_more ip6_done (F_arp_tha :: F_arp_sha :: F_nd_target :: ip6_done)); [apply pulls_nil|member|]. intros f Hf Hf'. apply (not_allowed oxm); [done|]. apply Hn; [done|].
      rewrite !elem_of_cons in Hf |- *. tauto. }
  apply (pulls_app _ _ _ (on (F_nd_target :: ip6_done) m)); [field_with MFF_ND_TARGET; by apply (of_nd _ _ F_nd_target); [member|done|done|left]|].
  apply (pulls_app _ _ _ (on (F_arp_sha :: F_nd_target :: ip6_done) m)); apply pulls_unless.
  - intros _. field_with MFF_ND_SLL. by apply (of_nd _ _ F_arp_sha); [member|done|done|right; left].
  - intros E. cbn [allowed]. by rewrite Hty, E, andb_false_r.
  - intros _. field_with MFF_ND_TLL. by apply (of_nd _ _ F_arp_tha); [member|done|done|right; right; left].
  - intros E. cbn [allowed]. by rewrite Hty, E, andb_false_r.
Qed.

Lemma pulls_l3_ipv6 : fl F_dl_type = ETH_TYPE_IPV6 → pulls (nxm_put_l3 m oxm) (on link_fields m) (on (l3_fields ++ link_fields) m).
Proof.
  intros Hty. unfold nxm_put_l3. rewrite Hty. change (ETH_TYPE_IPV6 =? ETH_TYPE_IP) with false. change (ETH_TYPE_IPV6 =? ETH_TYPE_IPV6) with true. cbv iota.
  rewrite <- (l3_rest (F_arp_tha :: F_arp_sha :: F_nd_target :: ip6_done)); [|not_constrained Hty|member|member].
  apply (pulls_app _ _ _ (on (F_ipv6_src :: link_fields) m)); [field_with MFF_IPV6_SRC; by apply of_type; [member|rewrite Hty]|].
  apply (pulls_app _ _ _ (on (F_ipv6_dst :: F_ipv6_src :: link_fields) m)); [field_with MFF_IPV6_DST; by apply of_type; [member|rewrite Hty]|].
  apply (pulls_app _ _ _ (on (nxm_ip_fields ++ [F_ipv6_dst; F_ipv6_src] ++ link_fields) m)); [apply (pulls_ip _ true); [done|member|]; apply Forall_forall; member|].
  apply (pulls_app _ _ _ (on ip6_done m)); [|by apply pulls_nd]. apply (pulls_label oxm m _ He); [apply hdr_either|member|]. by rewrite on_flow by member.
Qed.

Lemma pulls_l3_arp : fl F_dl_type = ETH_TYPE_ARP ∨ fl F_dl_type = ETH_TYPE_RARP → pulls (nxm_put_l3 m oxm) (on link_fields m) (on (l3_fields ++ link_fields) m).
Proof.
  intros Hty. assert (Hd : ∀ D mf, F_dl_type ∈ D → mf_prerequisites mf = MFP_ARP → mf_are_prereqs_ok mf (fm_flow (on D m)) = true).
  { intros D mf HD Hmf. apply of_type; [done|]. rewrite Hmf. by destruct Hty as [-> | ->]. }
  unfold nxm_put_l3. rewrite (proj2 (Z.eqb_neq (fl F_dl_type) ETH_TYPE_IP)), (proj2 (Z.eqb_neq (fl F_dl_type) ETH_TYPE_IPV6)) by (by destruct Hty as [-> | ->]).
  replace ((fl F_dl_type =? ETH_TYPE_ARP) || (fl F_dl_type =? ETH_TYPE_RARP)) with true by (by destruct Hty as [-> | ->]).
  rewrite <- (l3_rest ([F_arp_tha; F_arp_sha; F_nw_dst; F_nw_src; F_nw_proto] ++ link_fields)); [|destruct Hty as [Hty|Hty]; not_constrained Hty|member|member].
  apply (pulls_app _ _ _ (on (F_nw_proto :: link_fields) m)).
  - apply (pulls_opt link_fields m MFF_ARP_OP); [apply Hm|mf_id|apply hdr_either|by apply hdr_nonzero|member|apply (en_exact _ _ He); member| |].
    + intros _. pose proof (flow_value_width m F_nw_proto Hm) as W. split; [apply Hd; [member|done]|]. cbn [mf_is_value_valid mf_set_value mf_flow_field].
      split; [by apply (in_width_mono 8)|]. split; [|by rewrite (wrap_id 8)].
      rewrite <- (land_all_ones 8 (fl F_nw_proto)) by done. by rewrite <- Z.land_assoc, Z.land_0_r.
    + intros w Hw. cbn in *. by rewrite Hw.
  - apply (pulls_app _ _ _ (on ([F_nw_src; F_nw_proto] ++ link_fields) m)); [field_with MFF_ARP_SPA; apply Hd; [member|done]|].
    apply (pulls_app _ _ _ (on ([F_nw_dst; F_nw_src; F_nw_proto] ++ link_fields) m)); [field_with MFF_ARP_TPA; apply Hd; [member|done]|].
    apply (pulls_app _ _ _ (on ([F_arp_sha; F_nw_dst; F_nw_src; F_nw_proto] ++ link_fields) m)); [field_with MFF_ARP_SHA; apply Hd; [member|done]|].
    field_with MFF_ARP_THA. apply Hd; [member|done].
Qed.

Lemma pulls_l3 : pulls (nxm_put_l3 m oxm) (on link_fields m) (on (l3_fields ++ link_fields) m).
Proof.
  destruct (decide (fl F_dl_type = ETH_TYPE_IP)) as [E1|E1]; [by apply pulls_l3_ip|]. destruct (decide (fl F_dl_type = ETH_TYPE_IPV6)) as [E2|E2]; [by apply pulls_l3_ipv6|].
  destruct (decide (fl F_dl_type = ETH_TYPE_ARP ∨ fl F_dl_type = ETH_TYPE_RARP)) as [E3|E3]; [by apply pulls_l3_arp|]. apply Decidable.not_or in E3 as [E3 E4].
  apply Z.eqb_neq in E1, E2, E3, E4. unfold nxm_put_l3. rewrite E1, E2, E3, E4. rewrite <- (l3_rest link_fields); [apply pulls_nil| |member|member].
  unfold l3_fields, nxm_ip_fields. cbn [app forallb allowed]. unfold is_icmpv6, is_icmpv4, is_ip_any, dl_type_is_ip_any. rewrite E1, E2, E3, E4. by vm_compute.
Qed.

(** The headers of the registers. *)
Lemma reg_headers i : (i < FLOW_N_REGS)%nat → nxm_header (MFF_REG i) ≠ 0 ∧ oxm_header (MFF_REG i) ≠ 0.
Proof. intros Hi. do 16 (destruct i as [|i]; [done|]). unfold FLOW_N_REGS in Hi. lia. Qed.

(** The ingress port: 16 bits in NXM, 32 bits in OXM. *)
Lemma ofp11_port_back p : is_u16 p → ofputil_port_from_ofp11 (ofputil_port_to_ofp11 p) = (p, true).
Proof.
  unfold is_u16, ofputil_port_from_ofp11, ofputil_port_to_ofp11, OFPP_MAX, OFPP11_MAX, OFPP11_OFFSET. intros Hp. destruct (Z.ltb_spec p 65280) as [H|H].
  - rewrite (proj2 (Z.ltb_lt p 65280)) by done. by rewrite (wrap_id 16).
  - rewrite (proj2 (Z.ltb_ge _ _)) by lia. rewrite (proj2 (Z.leb_le _ _)) by lia. rewrite (wrap_id 16); [f_equal; lia|]. unfold in_width. lia.
Qed.

Lemma pulls_in_port :
  pulls (if negb (wc F_in_port =? 0) then
           if oxm then nxm_put_32 (oxm_header MFF_IN_PORT_OXM) (ofputil_port_to_ofp11 (fl F_in_port)) else nxm_put_16 (nxm_header MFF_IN_PORT) (fl F_in_port)
         else []) (on [] m) (on [F_in_port] m).
Proof.
  pose proof Hm as Hok. pose proof (flow_value_width m F_in_port Hm) as W. assert (Hk : wc F_in_port = 0 ∨ wc F_in_port = all_ones F_in_port) by (apply (en_exact _ _ He); member).
  assert (Hw : ∀ w : MatchFields.field → Z, w F_in_port = 0 → (w F_in_port =? 0) = true) by (by intros w ->).
  pose proof (pulls_opt [] m MFF_IN_PORT_OXM (oxm_header MFF_IN_PORT_OXM) (ofputil_port_to_ofp11 (fl F_in_port)) Hm) as P1.
  pose proof (pulls_opt [] m MFF_IN_PORT (nxm_header MFF_IN_PORT) (fl F_in_port) Hm) as P2. clear He. destruct oxm; [apply P1|apply P2]; try done; try mf_id; try (by left); try member.
  intros _. split; [done|]. cbn [mf_is_value_valid mf_set_value mf_flow_field]. rewrite ofp11_port_back by done. split; [|done].
  apply (mf_get_value_width MFF_IN_PORT_OXM). intros f. apply (flow_value_width m f Hok).
Qed.

Lemma pulls_dl_type D : F_dl_type ∉ D →
  pulls (nxm_put_16m (hdr MFF_ETH_TYPE) (ofputil_dl_type_to_openflow (fl F_dl_type)) (wc F_dl_type)) (on D m) (on (F_dl_type :: D) m).
Proof.
  intros Hout. replace (ofputil_dl_type_to_openflow (fl F_dl_type)) with (fl F_dl_type) by (unfold ofputil_dl_type_to_openflow; by destruct (Z.eqb_spec (fl F_dl_type) FLOW_DL_TYPE_NONE)).
  assert (Hk : wc F_dl_type = 0 ∨ wc F_dl_type = all_ones F_dl_type) by (apply (en_exact _ _ He); member).
  replace (nxm_put_16m _ _ _) with (if negb (wc F_dl_type =? 0) then be_bytes 4 (hdr MFF_ETH_TYPE) ++ be_bytes 2 (fl F_dl_type) else []) by (by destruct Hk as [-> | ->]).
  apply (pulls_opt D m MFF_ETH_TYPE); try done; [apply Hm|mf_id|apply hdr_either|by apply hdr_nonzero| |].
  - intros _. split; [done|]. split; [apply (flow_value_width m F_dl_type Hm)|done].
  - intros w Hw. cbn in *. by rewrite Hw.
Qed.

Lemma pulls_regs D : (∀ i, F_reg i ∉ D) → pulls (nxm_put_regs m) (on D m) (on (rev (F_reg <$> seq 0 FLOW_N_REGS) ++ D) m).
Proof.
  intros Hout. unfold nxm_put_regs. set (N := FLOW_N_REGS). assert (HN : (N ≤ FLOW_N_REGS)%nat) by done. clearbody N. induction N as [|N IH]; [apply pulls_nil|].
  rewrite seq_S, !fmap_app, concat_app, rev_app_distr. cbn [Nat.add fmap list_fmap concat rev app]. rewrite app_nil_r.
  apply (pulls_app _ _ _ (on (rev (F_reg <$> seq 0 N) ++ D) m)); [apply IH; lia|]. rewrite put_m_32.
  apply (pulls_field _ _ (MFF_REG N)); [by apply bool_decide_eq_true| | | |done| |by left|done].
  - apply list_elem_of_In, in_or_app. right. apply in_or_app. left. apply in_map, in_seq. lia.
  - apply reg_headers. lia.
  - apply reg_headers. lia.
  - rewrite elem_of_app. intros [H|H]; [|by apply (Hout N)]. apply list_elem_of_In, in_rev, list_elem_of_In, list_elem_of_fmap in H. destruct H as (i & [= ->] & Hi). rewrite elem_of_seq in Hi. lia.
Qed.

Local Abbreviation tail_fields := (F_metadata :: F_pkt_mark :: rev (F_reg <$> seq 0 FLOW_N_REGS) ++ [F_tun_dst; F_tun_src; F_tun_id] ++ l3_fields ++ link_fields).

Lemma no_register D i : forallb (λ f, match f with F_reg _ => false | _ => true end) D = true → F_reg i ∉ D.
Proof. rewrite forallb_forall. intros H Hi. by apply list_elem_of_In, H in Hi. Qed.

(** Everything but the cookie. *)
Lemma pulls_fields cookie cookie_mask :
  ∃ es, nx_put_raw oxm m cookie cookie_mask = es ++ nxm_put_64m NXM_NX_COOKIE cookie cookie_mask ∧ pulls es (on [] m) (on tail_fields m).
Proof.
  eexists. split; [unfold nx_put_raw; rewrite !app_assoc; reflexivity|]. rewrite <- !app_assoc.
  apply (pulls_app _ _ _ (on [F_in_port] m)); [apply pulls_in_port|]. apply (pulls_app _ _ _ (on [F_dl_src; F_in_port] m)); [by field_with MFF_ETH_SRC|].
  apply (pulls_app _ _ _ (on [F_dl_dst; F_dl_src; F_in_port] m)); [by field_with MFF_ETH_DST|].
  apply (pulls_app _ _ _ (on [F_dl_type; F_dl_dst; F_dl_src; F_in_port] m)); [apply pulls_dl_type; member|].
  apply (pulls_app _ _ _ (on [F_vlan_tci; F_dl_type; F_dl_dst; F_dl_src; F_in_port] m)); [apply pulls_vlan; [done|member]|].
  apply (pulls_app _ _ _ (on link_fields m)); [apply (pulls_mpls oxm); [done|member|by rewrite on_flow by member]|].
  apply (pulls_app _ _ _ (on (l3_fields ++ link_fields) m)); [apply pulls_l3|].
  apply (pulls_app _ _ _ (on (F_tun_id :: l3_fields ++ link_fields) m)); [by field_with MFF_TUN_ID|].
  apply (pulls_app _ _ _ (on (F_tun_src :: F_tun_id :: l3_fields ++ link_fields) m)); [by field_with MFF_TUN_SRC|].
  apply (pulls_app _ _ _ (on (F_tun_dst :: F_tun_src :: F_tun_id :: l3_fields ++ link_fields) m)); [by field_with MFF_TUN_DST|].
  eapply pulls_app; [apply pulls_regs; intros i; by apply no_register|].
  eapply pulls_app; [by field_with MFF_PKT_MARK|]. rewrite put_m_64. apply (pulls_field _ _ MFF_METADATA); [done|mf_id|done|done|done|member|by right|done].
Qed.

Lemma on_none : on [] m = fmatch_init_catchall.
Proof. unfold on, fmatch_init_catchall. f_equal. Qed.

Lemma out_tail g : g ∉ tail_fields → wc g = 0.
Proof.
  intros Hg. apply (not_allowed oxm); [done|]. destruct g; try done; try (by destruct Hg; member).
  cbn [allowed]. apply bool_decide_eq_false. intros Hi. apply Hg. do 2 right. apply elem_of_app. left.
  apply list_elem_of_In. rewrite <- in_rev. apply in_map, in_seq. lia.
Qed.

Lemma on_tail : on tail_fields m = m.
Proof.
  transitivity (FMatch fl wc); [|by destruct m]. unfold on. f_equal; apply functional_extensionality; intros g;
    (destruct (decide (g ∈ tail_fields)) as [|Hg]; [done|]); apply out_tail in Hg; [|done]. symmetry. by apply masked_zero; [apply Hm|].
Qed.
End groups.

(** ** The cookie *)

Definition cookie_ok (cookie cookie_mask : Z) : Prop := is_u64 cookie ∧ is_u64 cookie_mask ∧ (cookie_mask = 0 → cookie = 0).

(** The headers of the cookie are not in the index. *)
Lemma cookie_headers (masked : bool) : ∃ h, h = (if masked then NXM_MAKE_WILD_HEADER NXM_NX_COOKIE else NXM_NX_COOKIE) ∧ mf_from_nxm_header h = None ∧ is_u32 h ∧ h ≠ 0
  ∧ NXM_LENGTH h = (if masked then 16 else 8) ∧ (h =? NXM_NX_COOKIE) || (h =? NXM_NX_COOKIE_W) = true ∧ NXM_HASMASK h = masked.
Proof. eexists. split; [reflexivity|]. destruct masked; (split; [vm_compute; reflexivity|]); by vm_compute. Qed.

Lemma run_nil strict m cookie : pull_run strict [] m cookie = Some (inr (m, cookie)).
Proof. done. Qed.

Lemma rd_be_entry h n v rest : in_width (8 * Z.of_nat n) v → rd 4 n (be_bytes 4 h ++ be_bytes n v ++ rest) = Some v.
Proof. intros Hv. change 4%nat with (4 + 0)%nat at 1. rewrite (rd_app_r 0 _ _ _ 4), rd_be_bytes by apply length_be_bytes. by rewrite wrap_id. Qed.

Lemma be_bytes_cons n v : be_bytes (S n) v ≠ [].
Proof. intros H. apply (f_equal length) in H. by rewrite length_be_bytes in H. Qed.

(** The strict decoder stores the cookie; the loose one skips its entry. *)
Lemma run_cookie strict m c k :
  cookie_ok c k → pull_run strict (nxm_put_64m NXM_NX_COOKIE c k) m (Some (0, 0)) = Some (inr (m, Some (if strict then (c, k) else (0, 0)))).
Proof.
  intros (Hc & Hk & Hz). rewrite put_m_64. unfold put_m. destruct (Z.eqb_spec k 0) as [E|E]; [rewrite E, (Hz E); by destruct strict|].
  destruct (Z.eqb_spec k (2 ^ (8 * Z.of_nat 8) - 1)) as [F|F].
  - destruct (cookie_headers false) as (h & Eh & E1 & U & N & L & C & M). rewrite <- Eh, <- (app_nil_r (be_bytes 8 c)).
    rewrite run_entry; [|done|done|by rewrite length_be_bytes|by apply be_bytes_cons]. rewrite E1. destruct strict; [|done]. unfold nx_pull_cookie. rewrite C, M.
    rewrite rd_be_entry by done. by rewrite F.
  - destruct (cookie_headers true) as (h & Eh & E1 & U & N & L & C & M). rewrite <- Eh, <- (app_nil_r (_ ++ be_bytes 8 k)).
    rewrite run_entry; [|done|done|by rewrite length_app, !length_be_bytes|intros [X _]%app_nil; by apply be_bytes_cons in X]. rewrite E1. destruct strict; [|done].
    unfold nx_pull_cookie. rewrite C, M, <- !app_assoc, rd_be_entry by done. cbn [Z.eqb negb mbind option_bind].
    rewrite app_assoc, (rd_app_r 0 _ _ _ 12) by (by rewrite length_app, !length_be_bytes). by rewrite rd_be_bytes, wrap_id by done.
Qed.

(** ** Padding *)

Lemma ROUND_UP_ge n : (n ≤ ROUND_UP n 8)%nat.
Proof. unfold ROUND_UP. pose proof (Nat.div_mod_eq (n + (8 - 1)) 8). pose proof (Nat.mod_upper_bound (n + (8 - 1)) 8). lia. Qed.

Lemma pull_padded raw rest : ofpbuf_try_pull (ROUND_UP (length raw) 8) ((raw ++ replicate (ROUND_UP (length raw) 8 - length raw) 0) ++ rest) =
  Some (raw ++ replicate (ROUND_UP (length raw) 8 - length raw) 0, rest).
Proof.
  pose proof (ROUND_UP_ge (length raw)). set (q := raw ++ _). assert (L : length q = ROUND_UP (length raw) 8) by (unfold q; rewrite length_app, length_replicate; lia).
  unfold ofpbuf_try_pull. rewrite length_app, L, (proj2 (Nat.leb_le _ _)) by lia. by rewrite take_app_length', drop_app_length' by done.
Qed.

(** ** Whole matches *)

Lemma run_raw oxm strict m c k :
  encodable oxm m → cookie_ok c k →
  nx_pull_raw (nx_put_raw oxm m c k) strict true = Some (inr (m, Some (if strict then (c, k) else (0, 0)))).
Proof.
  intros He Hc. destruct (pulls_fields oxm m He c k) as (es & -> & Hes). rewrite (on_none m), (on_tail oxm m He) in Hes.
  unfold nx_pull_raw. cbv iota. fold (pull_run strict (es ++ nxm_put_64m NXM_NX_COOKIE c k) fmatch_init_catchall (Some (0, 0))). rewrite Hes. by apply run_cookie.
Qed.

Lemma run_raw_plain oxm strict m : encodable oxm m → nx_pull_raw (nx_put_raw oxm m 0 0) strict false = Some (inr (m, None)).
Proof.
  intros He. destruct (pulls_fields oxm m He 0 0) as (es & -> & Hes). rewrite (on_none m), (on_tail oxm m He) in Hes.
  unfold nx_pull_raw. cbv iota. fold (pull_run strict (es ++ nxm_put_64m NXM_NX_COOKIE 0 0) fmatch_init_catchall None). rewrite Hes. done.
Qed.

Lemma pull_match_raw raw rest strict r :
  nx_pull_raw raw strict true = Some r →
  nx_pull_match__ ((raw ++ replicate (ROUND_UP (length raw) 8 - length raw) 0) ++ rest) (length raw) strict true = Some (rest, r).
Proof.
  intros Hr. unfold nx_pull_match__. destruct (Nat.eqb_spec (length raw) 0) as [E|E].
  - apply length_zero_iff_nil in E. subst raw. cbn [app length replicate ROUND_UP Nat.sub]. change (ROUND_UP 0 8) with 0%nat. cbn [replicate app]. by rewrite Hr.
  - rewrite pull_padded, take_app_length. by rewrite Hr.
Qed.

(** How long an encoding can be. *)
Lemma put_m_length n h v k : (length (put_m n h v k) ≤ 4 + 2 * n)%nat.
Proof. unfold put_m. destruct (_ =? _); [cbn; lia|]. destruct (_ =? _); rewrite ?length_app, !length_be_bytes; lia. Qed.

Lemma if_length (b : bool) (x y : list Z) n k : (length x ≤ n)%nat → (length y ≤ k)%nat → (length (if b then x else y) ≤ n `max` k)%nat.
Proof. destruct b; lia. Qed.

Lemma app_length_le (x y : list Z) a b : (length x ≤ a)%nat → (length y ≤ b)%nat → (length (x ++ y) ≤ a + b)%nat.
Proof. rewrite length_app. lia. Qed.

Lemma nxm_put_regs_length m : (length (nxm_put_regs m) ≤ 12 * FLOW_N_REGS)%nat.
Proof.
  unfold nxm_put_regs. generalize FLOW_N_REGS. intros N. induction N as [|N IH]; [done|]. rewrite seq_S, fmap_app, concat_app, length_app. cbn [fmap list_fmap concat].
  rewrite app_nil_r, put_m_32. pose proof (put_m_length 4 (nxm_header (MFF_REG (0 + N))) (fm_flow m (F_reg (0 + N))) (fm_wc m (F_reg (0 + N)))). lia.
Qed.

Ltac bound_length :=
  etransitivity; [repeat first [eapply app_length_le | eapply if_length
    | (rewrite ?put_m_8, ?put_m_16, ?put_m_32, ?put_m_64, ?put_m_eth, ?put_m_ipv6; apply put_m_length) | apply Nat.le_refl]|];
  unfold nxm_put_8, nxm_put_16, nxm_put_32, nxm_put_header; rewrite ?length_app, ?length_be_bytes; cbn; lia.

Lemma nxm_put_ip_length m p t c oxm : (length (nxm_put_ip m p t c oxm) ≤ 50)%nat.
Proof. unfold nxm_put_ip, nxm_put_l4, nxm_put_frag. bound_length. Qed.

Lemma nx_put_raw_length oxm m c k : (length (nx_put_raw oxm m c k) ≤ 600)%nat.
Proof.
  pose proof (nxm_put_regs_length m) as Hr. assert (Hl : (length (nxm_put_l3 m oxm) ≤ 204)%nat).
  { unfold nxm_put_l3. pose proof (nxm_put_ip_length m). etransitivity; [|reflexivity]. bound_length. }
  unfold nx_put_raw. bound_length.
Qed.

Lemma oxm_pull_raw raw rest strict r :
  nx_pull_raw raw strict false = Some r → (length raw ≤ 600)%nat →
  let match_len := (length raw + 4)%nat in
  oxm_pull_match__ ((be_bytes 2 OFPMT_OXM ++ be_bytes 2 (Z.of_nat match_len) ++ raw ++ replicate (ROUND_UP match_len 8 - match_len) 0) ++ rest) strict = Some (rest, r).
Proof.
  intros Hr Hl match_len. set (h := be_bytes 2 OFPMT_OXM ++ be_bytes 2 (Z.of_nat match_len)).
  assert (Lh : length h = 4%nat) by (unfold h; by rewrite length_app, !length_be_bytes).
  assert (Lr : length (h ++ raw) = match_len) by (rewrite length_app; lia).
  set (b := (be_bytes 2 OFPMT_OXM ++ _) ++ rest). assert (Hlen : rd 2 2 b = Some (Z.of_nat match_len)).
  { unfold b. rewrite <- !app_assoc. change 2%nat with (2 + 0)%nat at 1. rewrite (rd_app_r 0 _ _ _ 2), rd_be_bytes by apply length_be_bytes. rewrite wrap_id; [done|]. unfold in_width. change (2 ^ (8 * Z.of_nat 2)) with 65536. lia. }
  assert (Hty : rd 0 2 b = Some OFPMT_OXM) by (unfold b; rewrite <- !app_assoc, rd_be_bytes; by rewrite wrap_id).
  assert (Hb : b = ((h ++ raw) ++ replicate (ROUND_UP (length (h ++ raw)) 8 - length (h ++ raw)) 0) ++ rest) by (unfold b; rewrite Lr; unfold h; by rewrite <- !app_assoc).
  unfold oxm_pull_match__. rewrite Hlen, Hty. replace (length b <? 4)%nat with false by (symmetry; apply Nat.ltb_ge; rewrite Hb, !length_app; lia).
  cbn [mbind option_bind]. rewrite (proj2 (Z.ltb_ge _ _)) by lia. change (negb (OFPMT_OXM =? OFPMT_OXM)) with false. cbv iota.
  rewrite Nat2Z.id, Hb, <- Lr, pull_padded, take_app_length, drop_app_length' by done. by rewrite Hr.
Qed.

Definition match_of (l : list (MatchFields.field * Z * Z)) : fmatch := foldr (λ '(f, v, k) m, set_both f v k m) fmatch_init_catchall l.

(** A neighbour solicitation in a VLAN, with a prefix of the source address. *)
Definition nd_match : fmatch :=
  match_of [(F_in_port, 3, 0xffff); (F_vlan_tci, 0x1064, 0x1fff); (F_dl_type, ETH_TYPE_IPV6, 0xffff); (F_ipv6_src, 0x20010db8 * 2 ^ 96, 0xffffffff * 2 ^ 96);
            (F_nw_proto, IPPROTO_ICMPV6, 0xff); (F_nw_tos, 0x20, 0xfc); (F_tp_src, ND_NEIGHBOR_SOLICIT, 0xffff); (F_nd_target, 0x20010db8 * 2 ^ 96 + 1, 2 ^ 128 - 1);
            (F_arp_sha, 0x0a0000000000, 0xff0000000000); (F_reg 2, 0xab00, 0xff00)].

(** TCP segments of an MPLS-free VLAN with a priority, from a masked port. *)
Definition tcp_match : fmatch :=
  match_of [(F_in_port, 0xfffe, 0xffff); (F_vlan_tci, 0x7064, 0xffff); (F_dl_type, ETH_TYPE_IP, 0xffff); (F_nw_src, 0x0a000000, 0xff000000); (F_nw_proto, IPPROTO_TCP, 0xff);
            (F_nw_frag, 0, 1); (F_tp_src, 0x1000, 0xf000); (F_tcp_flags, 2, 0x12); (F_metadata, 7, 2 ^ 64 - 1)].

Definition member_ok (oxm : bool) (m : fmatch) (f : MatchFields.field) : bool :=
  let k := fm_wc m f in (0 <=? k) && (k <? 2 ^ field_width f) && (Z.land (fm_flow m f) k =? fm_flow m f) && ((k =? 0) || allowed oxm (fm_flow m) f).

Lemma member_ok_spec oxm m : (∀ f, member_ok oxm m f = true) → fmatch_ok m ∧ ∀ f, fm_wc m f ≠ 0 → allowed oxm (fm_flow m) f = true.
Proof.
  intros H. split; intros f; specialize (H f); unfold member_ok in H; rewrite !andb_true_iff, orb_true_iff, Z.leb_le, Z.ltb_lt, !Z.eqb_eq in H; [|tauto].
  unfold in_width. tauto.
Qed.

Ltac encodable_closed :=
  let H := fresh in
  match goal with |- encodable ?oxm ?m => assert (H : fmatch_ok m ∧ ∀ f, fm_wc m f ≠ 0 → allowed oxm (fm_flow m) f = true) by (apply member_ok_spec; intros f; destruct f; try match goal with |- context [F_reg ?i] => destruct i as [|[|[|i]]] end; vm_compute; reflexivity) end;
  destruct H as [? ?]; constructor; [assumption|assumption|..]; unfold all_or_none;
  [intros f Hf; rewrite !elem_of_cons in Hf; destruct Hf as [->|[->|[->|[->|Hf]]]]; [..|by apply not_elem_of_nil in Hf]; vm_compute; tauto
  |vm_compute; tauto|vm_compute; reflexivity| |vm_compute; reflexivity|vm_compute; tauto| | ].

Lemma nd_match_encodable : encodable false nd_match.
Proof.
  encodable_closed; [split; [by vm_compute|right; by vm_compute]| |done]. intros _ f [-> | ->]; (split; [vm_compute; tauto|by vm_compute]).
Qed.

Lemma tcp_match_encodable : encodable true tcp_match.
Proof.
  encodable_closed; [split; [by vm_compute|right; by vm_compute]|by vm_compute|]. intros _. split; [vm_compute; tauto|by vm_compute].
Qed.




