(* ===== verification/NxMatchSafe.v ===== *)
(** * Decoding any bytes

    [nx_pull_raw] and its callers run on the bytes of a message from the
    network: they read no byte outside the match, end, reach no assertion, and
    give a well-formed match or one of the errors of OpenFlow for matches. *)
From stdpp Require Import list.
From S2P Require Import Prelude Util ByteOrder Hash Hmap Bitwise MatchFields MetaFlow OdpActions Csum Packets PacketThms PacketBytes NxMatch NxMatchThms.

(** ** Fields *)

Lemma no_bits_width w value mask : 0 ≤ w → in_width w mask → no_bits_outside value mask = true → in_width w value.
Proof. intros Hw Hm Hv. apply Z.eqb_eq, ldiff_0_iff in Hv. rewrite <- Hv, Z.land_comm. by apply land_in_width. Qed.

Lemma from_ofp11_u16 p : is_u16 (ofputil_port_from_ofp11 p).1.
Proof. unfold ofputil_port_from_ofp11. repeat destruct (_ <? _) || destruct (_ <=? _); cbn [fst]; try done; by apply wrap_in_width. Qed.

(** The operation on matches that a field's setter is. *)
Definition value_op (mf : mf_field) (v : Z) : match_op :=
  match mf with
  | MFF_TUN_ID => SetTunId v | MFF_TUN_SRC => SetTunSrc v | MFF_TUN_DST => SetTunDst v | MFF_TUN_FLAGS => SetTunFlags v
  | MFF_TUN_TOS => SetTunTos v | MFF_TUN_TTL => SetTunTtl v | MFF_METADATA => SetMetadata v | MFF_IN_PORT => SetInPort v
  | MFF_IN_PORT_OXM => SetInPort (ofputil_port_from_ofp11 v).1 | MFF_SKB_PRIORITY => SetSkbPriority v | MFF_PKT_MARK => SetPktMark v
  | MFF_REG i => SetReg i v | MFF_ETH_SRC => SetDlSrc v | MFF_ETH_DST => SetDlDst v | MFF_ETH_TYPE => SetDlType v
  | MFF_VLAN_TCI => SetDlTci v | MFF_DL_VLAN => SetDlVlan v | MFF_VLAN_VID => SetVlanVid v | MFF_DL_VLAN_PCP | MFF_VLAN_PCP => SetDlVlanPcp v
  | MFF_MPLS_LABEL => SetMplsLabel v | MFF_MPLS_TC => SetMplsTc v | MFF_MPLS_BOS => SetMplsBos v
  | MFF_IPV4_SRC | MFF_ARP_SPA => SetNwSrc v | MFF_IPV4_DST | MFF_ARP_TPA => SetNwDst v | MFF_IPV6_SRC => SetIpv6Src v
  | MFF_IPV6_DST => SetIpv6Dst v | MFF_IPV6_LABEL => SetIpv6Label v | MFF_IP_PROTO => SetNwProto v | MFF_IP_DSCP => SetNwDscp v
  | MFF_IP_DSCP_SHIFTED => SetNwDscp (u8 (Z.shiftl v 2)) | MFF_IP_ECN => SetNwEcn v | MFF_IP_TTL => SetNwTtl v | MFF_IP_FRAG => SetNwFrag v
  | MFF_ARP_OP => SetNwProto (u8 v) | MFF_ARP_SHA | MFF_ND_SLL => SetArpSha v | MFF_ARP_THA | MFF_ND_TLL => SetArpTha v
  | MFF_TCP_SRC | MFF_UDP_SRC | MFF_SCTP_SRC => SetTpSrc v | MFF_TCP_DST | MFF_UDP_DST | MFF_SCTP_DST => SetTpDst v
  | MFF_TCP_FLAGS => SetTcpFlags v | MFF_ICMPV4_TYPE | MFF_ICMPV6_TYPE => SetIcmpType v | MFF_ICMPV4_CODE | MFF_ICMPV6_CODE => SetIcmpCode v
  | MFF_ND_TARGET => SetNdTarget v
  end.

Definition masked_op (mf : mf_field) (v k : Z) : match_op :=
  match mf with
  | MFF_TUN_ID => SetTunIdMasked v k | MFF_TUN_SRC => SetTunSrcMasked v k | MFF_TUN_DST => SetTunDstMasked v k
  | MFF_TUN_FLAGS => SetTunFlagsMasked v k | MFF_TUN_TOS => SetTunTosMasked v k | MFF_TUN_TTL => SetTunTtlMasked v k
  | MFF_METADATA => SetMetadataMasked v k | MFF_PKT_MARK => SetPktMarkMasked v k | MFF_REG i => SetRegMasked i v k
  | MFF_ETH_SRC => SetDlSrcMasked v k | MFF_ETH_DST => SetDlDstMasked v k | MFF_VLAN_TCI => SetDlTciMasked v k | MFF_VLAN_VID => SetVlanVidMasked v k
  | MFF_IPV4_SRC | MFF_ARP_SPA => SetNwSrcMasked v k | MFF_IPV4_DST | MFF_ARP_TPA => SetNwDstMasked v k | MFF_IPV6_SRC => SetIpv6SrcMasked v k
  | MFF_IPV6_DST => SetIpv6DstMasked v k
  | MFF_IPV6_LABEL => if Z.land k IPV6_LABEL_MASK =? IPV6_LABEL_MASK then SetIpv6Label v else SetIpv6LabelMasked v k
  | MFF_IP_FRAG => SetNwFragMasked v k
  | MFF_ARP_SHA | MFF_ND_SLL => SetArpShaMasked v k | MFF_ARP_THA | MFF_ND_TLL => SetArpThaMasked v k
  | MFF_TCP_SRC | MFF_UDP_SRC | MFF_SCTP_SRC => SetTpSrcMasked v k | MFF_TCP_DST | MFF_UDP_DST | MFF_SCTP_DST => SetTpDstMasked v k
  | MFF_TCP_FLAGS => SetTcpFlagsMasked v k | MFF_ND_TARGET => SetNdTargetMasked v k
  | _ => value_op mf v
  end.

Definition in_table (mf : mf_field) : Prop := match mf with MFF_REG i => (i < FLOW_N_REGS)%nat | _ => True end.

Lemma match_do_gives m op :
  fmatch_ok m → op_arg_ok op → match op with SetReg i _ | SetRegMasked i _ _ => (i < FLOW_N_REGS)%nat | _ => True end → safe (match_do m op) fmatch_ok.
Proof.
  intros Hm Ho Hi. destruct (match_do m op) as [m'|] eqn:E; [exists m'; split; [done|by apply (match_do_ok m op)]|]. exfalso.
  destruct op; try done; cbn [match_do] in E; unfold match_set_reg, match_set_reg_masked in E; by rewrite decide_True in E.
Qed.

Lemma mf_set_value_gives mf v m : in_table mf → in_width (mf_width mf) v → mf_is_value_valid mf v = true → fmatch_ok m → safe (mf_set_value mf v m) fmatch_ok.
Proof.
  intros Ht Hw Hv Hm. replace (mf_set_value mf v m) with (match_do m (value_op mf v)) by (by destruct mf). apply match_do_gives; [done| |by destruct mf].
  destruct mf; try done; cbn [value_op op_arg_ok mf_is_value_valid] in *; try (by apply wrap_in_width); [apply from_ofp11_u16|]. by apply (no_bits_width 2 v FLOW_NW_FRAG_MASK).
Qed.

Lemma zero_field_ok f m : fmatch_ok m → fmatch_ok (zero_field f m).
Proof. intros Hm. apply upd_ok; [done| |done]. pose proof (field_width_pos f). split; [done|]. apply Z.pow_pos_nonneg; lia. Qed.

Lemma mf_set_wild_gives mf m : in_table mf → fmatch_ok m → safe (mf_set_wild mf m) fmatch_ok.
Proof.
  intros Ht Hm. assert (Hdo : ∀ op, op_arg_ok op → match op with SetReg i _ | SetRegMasked i _ _ => (i < FLOW_N_REGS)%nat | _ => True end → safe (match_do m op) fmatch_ok)
    by (intros op; by apply match_do_gives).
  destruct mf; cbn [mf_set_wild];
    first [ by apply (Hdo (masked_op MFF_TUN_ID 0 0)) | by apply (Hdo (masked_op MFF_TUN_SRC 0 0)) | by apply (Hdo (masked_op MFF_TUN_DST 0 0))
          | by apply (Hdo (masked_op MFF_TUN_FLAGS 0 0)) | by apply (Hdo (masked_op MFF_TUN_TOS 0 0)) | by apply (Hdo (masked_op MFF_TUN_TTL 0 0))
          | by apply (Hdo (masked_op MFF_METADATA 0 0)) | by apply (Hdo (SetRegMasked i 0 0)) | by apply (Hdo (SetDlTciMasked 0 0)) | by apply (Hdo SetAnyVid)
          | by apply (Hdo SetAnyPcp) | by apply (Hdo SetAnyMplsLabel) | by apply (Hdo SetAnyMplsTc) | by apply (Hdo SetAnyMplsBos)
          | by apply (Hdo (SetNwSrcMasked 0 0)) | by apply (Hdo (SetNwDstMasked 0 0)) | by apply safe_ret, zero_field_ok
          | by apply safe_ret, clear_bits_match_ok | idtac ].
  destruct (Hm F_nw_frag) as [Hw Hv]. apply safe_ret, upd_ok; [done|by apply lor_in_width|]. unfold and_not. bits_with Hv.
Qed.

Lemma mf_set_gives mf v k m :
  in_table mf → in_width (mf_width mf) v → in_width (mf_width mf) k → mf_is_value_valid mf v = true → mf_is_mask_valid mf k = true → fmatch_ok m →
  safe (mf_set mf v (Some k) m) fmatch_ok.
Proof.
  intros Ht Wv Wk Hv Hk Hm. unfold mf_set. destruct (is_all_ones _) eqn:E1; [by apply mf_set_value_gives|]. destruct (is_all_zeros _) eqn:E0; [by apply mf_set_wild_gives|].
  unfold mf_is_mask_valid in Hk. rewrite E0, E1 in Hk. destruct (mf_maskability mf) eqn:Em; [done|].
  replace (mf_set_masked mf v k m) with (match_do m (masked_op mf v k)).
  - apply match_do_gives; [done| |]; destruct mf; try done; cbn [masked_op]; by destruct (_ =? _).
  - destruct mf; try done. cbn [masked_op mf_set_masked]. by destruct (_ =? _).
Qed.

(** ** Entries *)

(** The payload of an entry that is in the index holds the value, and the mask if there is one. *)
Lemma header_length h mf : mf_from_nxm_header h = Some mf →
  in_table mf ∧ NXM_LENGTH h = (if NXM_HASMASK h then 2 else 1) * Z.of_nat (mf_n_bytes mf).
Proof.
  intros H. apply mf_from_nxm_header_sound in H as [Hh Hin].
  assert (A : forallb (λ mf, match mf with MFF_REG i => (i <? FLOW_N_REGS)%nat | _ => true end
    && forallb (λ h, NXM_LENGTH h =? (if NXM_HASMASK h then 2 else 1) * Z.of_nat (mf_n_bytes mf)) (mf_headers_of mf)) mf_ids = true) by by vm_compute.
  rewrite forallb_forall in A. apply list_elem_of_In, A in Hin. apply andb_true_iff in Hin as [H1 H2]. rewrite forallb_forall in H2.
  apply list_elem_of_In, H2, Z.eqb_eq in Hh. split; [|done]. destruct mf; try done. by apply Nat.ltb_lt.
Qed.

Definition bmc_error (e : ofperr) : Prop :=
  e ∈ [OFPERR_OFPBMC_BAD_FIELD; OFPERR_OFPBMC_BAD_PREREQ; OFPERR_OFPBMC_DUP_FIELD; OFPERR_OFPBMC_BAD_VALUE; OFPERR_OFPBMC_BAD_MASK;
       OFPERR_OFPBMC_BAD_LEN; OFPERR_OFPBMC_BAD_TYPE].

Definition entry_result (r : ofperr + fmatch) : Prop := match r with inl e => bmc_error e | inr m => fmatch_ok m end.
Definition match_result (r : ofperr + fmatch * cookies) : Prop := match r with inl e => bmc_error e | inr (m, _) => fmatch_ok m end.

Ltac is_error := (apply safe_ret; cbn [entry_result match_result]; unfold bmc_error; rewrite !elem_of_cons; tauto).

Lemma nx_pull_entry_safe mf h p m :
  mf_from_nxm_header h = Some mf → Forall is_u8 p → (4 + Z.to_nat (NXM_LENGTH h) ≤ length p)%nat → fmatch_ok m → safe (nx_pull_entry mf h p m) entry_result.
Proof.
  intros Hmf Hp Hl Hm. destruct (header_length h mf Hmf) as [Ht Hn]. unfold nx_pull_entry.
  destruct (negb (mf_are_prereqs_ok _ _)); [is_error|]. destruct (negb (mf_is_all_wild _ _)); [is_error|].
  eapply safe_bind; [apply rd_safe; [destruct (NXM_HASMASK h); lia|done]|]. intros v Hv. destruct (mf_is_value_valid mf v) eqn:Ev; cbn [negb]; [|is_error].
  destruct (NXM_HASMASK h); cbn [negb].
  - eapply safe_bind; [apply rd_safe; [lia|done]|]. intros k Hk. destruct (mf_is_mask_valid mf k) eqn:Ek; cbn [negb]; [|is_error].
    eapply safe_bind; [by apply mf_set_gives|]. intros m' Hm'. by apply safe_ret.
  - eapply safe_bind; [by apply mf_set_value_gives|]. intros m' Hm'. by apply safe_ret.
Qed.

Lemma nx_pull_cookie_safe h p cookie r m :
  Forall is_u8 p → (4 + Z.to_nat (NXM_LENGTH h) ≤ length p)%nat → fmatch_ok m → entry_result r → safe (nx_pull_cookie h p cookie r m) match_result.
Proof.
  intros Hp Hl Hm Hr. unfold nx_pull_cookie. assert (Ho : safe (Some (match r with inl e => inl e | inr m => inr (m, cookie) end)) match_result) by (apply safe_ret; by destruct r).
  destruct cookie as [[c k]|]; [|done]. destruct ((h =? NXM_NX_COOKIE) || (h =? NXM_NX_COOKIE_W)) eqn:E; [|done]. destruct (negb (k =? 0)); [is_error|].
  assert (Hn : NXM_LENGTH h = if NXM_HASMASK h then 16 else 8) by (apply orb_true_iff in E as [E|E]; apply Z.eqb_eq in E as ->; by vm_compute).
  eapply safe_bind; [apply rd_safe; [destruct (NXM_HASMASK h); lia|done]|]. intros c' _.
  apply (safe_bind _ _ (λ _, True)); [|by intros k' _; apply safe_ret]. destruct (NXM_HASMASK h); [|by apply safe_ret].
  eapply safe_mono; [apply rd_safe; [lia|done]|done].
Qed.

Lemma nx_pull_loop_safe fuel strict p m cookie :
  (length p ≤ fuel)%nat → Forall is_u8 p → fmatch_ok m → safe (nx_pull_loop fuel strict p m cookie) match_result.
Proof.
  revert p m cookie. induction fuel as [|fuel IH]; intros p m cookie Hl Hp Hm.
  { destruct p; [by apply safe_ret|cbn in Hl; lia]. }
  cbn [nx_pull_loop]. assert (He : ∃ h, nx_entry_ok p = Some h).
  { unfold nx_entry_ok. destruct (Z.ltb_spec (Z.of_nat (length p)) 4) as [H4|H4]; [by eexists|]. destruct (rd_safe 0 4 p) as (h & -> & _); [lia|done|].
    cbn [mbind option_bind]. repeat destruct (_ =? _); repeat destruct (_ <? _); by eexists. }
  destruct He as [h Eh]. rewrite Eh. cbn [mbind option_bind]. destruct (Z.eqb_spec h 0) as [E|E]; [destruct (_ =? _)%nat; [by apply safe_ret|is_error]|].
  pose proof (nx_entry_ok_length _ _ Eh E) as Hd. set (q := drop _ p). assert (Lq : (length q ≤ fuel)%nat) by (unfold q; rewrite length_drop; lia).
  assert (Hq : ∀ m' c', fmatch_ok m' → safe (nx_pull_loop fuel strict q m' c') match_result) by (intros; apply IH; [done|by apply Forall_drop|done]).
  assert (Hf : ∀ r, entry_result r → safe (r ← nx_pull_cookie h p cookie r m;
    match r with inl error => Some (inl error) | inr (m, cookie) => nx_pull_loop fuel strict q m cookie end) match_result).
  { intros r Hr. eapply safe_bind; [apply nx_pull_cookie_safe; [done|lia|done|done]|]. intros [e|[m' c']] Hr'; [by apply safe_ret|by apply Hq]. }
  destruct (mf_from_nxm_header h) as [mf|] eqn:Emf; [|destruct strict; [|by apply Hq]].
  - eapply safe_bind; [apply nx_pull_entry_safe; [done|done|lia|done]|]. apply Hf.
  - apply Hf. cbn [entry_result]. unfold bmc_error. rewrite elem_of_cons. tauto.
Qed.

(** ** Messages *)

(** What is left of the buffer is a suffix of it. *)
Definition pull_result (b : list Z) (r : list Z * (ofperr + fmatch * cookies)) : Prop := r.1 `suffix_of` b ∧ match_result r.2.

Lemma nx_pull_raw_safe p strict want : Forall is_u8 p → safe (nx_pull_raw p strict want) match_result.
Proof. intros Hp. apply nx_pull_loop_safe; [done|done|apply fmatch_init_catchall_ok]. Qed.

Lemma pulled_raw b q rest strict want : b = q ++ rest → Forall is_u8 b → ∀ p, Forall is_u8 p →
  safe (r ← nx_pull_raw p strict want; Some (rest, r)) (pull_result b).
Proof. intros -> Hb p Hp. eapply safe_bind; [by apply nx_pull_raw_safe|]. intros r Hr. apply safe_ret. split; [by exists q|done]. Qed.

(** C13: decoding a match from any bytes, strictly or loosely, as NXM with or without a cookie or as OXM: no byte outside the buffer is read,
    the loop ends, no assertion of the setters is reached, and the result is a well-formed match or an error of type OFPBMC. *)
Theorem pull_match_safe b match_len strict want_cookie :
  Forall is_u8 b → safe (nx_pull_match__ b match_len strict want_cookie) (pull_result b) ∧ safe (oxm_pull_match__ b strict) (pull_result b).
Proof.
  intros Hb. assert (Herr : ∀ e, bmc_error e → safe (Some (b, inl e)) (pull_result b)) by (intros e He; apply safe_ret; by split).
  assert (Hpull : ∀ n, match ofpbuf_try_pull n b with None => True | Some (p, r) => b = p ++ r ∧ Forall is_u8 p end).
  { intros n. unfold ofpbuf_try_pull. destruct (_ <=? _)%nat; [|done]. split; [by rewrite take_drop|by apply Forall_take]. }
  assert (Hl : bmc_error OFPERR_OFPBMC_BAD_LEN) by (unfold bmc_error; rewrite !elem_of_cons; tauto). split.
  - unfold nx_pull_match__. destruct (_ =? _)%nat; [by apply (pulled_raw b [])|]. specialize (Hpull (ROUND_UP match_len 8)).
    destruct (ofpbuf_try_pull _ b) as [[p r]|]; [|by apply Herr]. destruct Hpull as [Hbp Hp]. apply (pulled_raw b p); [done|done|by apply Forall_take].
  - unfold oxm_pull_match__. destruct (Nat.ltb_spec (length b) 4) as [H4|H4]; [by apply Herr|]. eapply safe_bind; [apply rd_safe; [lia|done]|]. intros len _.
    destruct (len <? 4); [by apply Herr|]. eapply safe_bind; [apply rd_safe; [lia|done]|]. intros ty _.
    destruct (negb (ty =? OFPMT_OXM)); [apply Herr; unfold bmc_error; rewrite !elem_of_cons; tauto|]. specialize (Hpull (ROUND_UP (Z.to_nat len) 8)).
    destruct (ofpbuf_try_pull _ b) as [[p r]|]; [|by apply Herr]. destruct Hpull as [Hbp Hp]. apply (pulled_raw b p); [done|done|by apply Forall_drop, Forall_take].
Qed.

Lemma pull_match_safe_witness :
  let b := be_bytes 4 (nxm_header MFF_ETH_TYPE) ++ [8; 0; 0; 0; 1; 2] in
  safe (nx_pull_match__ b 6 true true) (pull_result b) ∧ safe (oxm_pull_match__ b true) (pull_result b).
Proof. apply (pull_match_safe (be_bytes 4 (nxm_header MFF_ETH_TYPE) ++ [8; 0; 0; 0; 1; 2]) 6 true true). vm_compute. repeat constructor; done. Defined.
