(* ===== verification/PacketView.v ===== *)
(** * The parts of a parsed packet

    [flow_extract] in a form that separates the fields that come from the
    Ethernet header, the VLAN tag and the metadata from those of the headers
    that follow, and what parsing a header depends on. *)
From stdpp Require Import list.
From Stdlib Require Import FunctionalExtensionality.
From S2P Require Import Prelude ByteOrder FlowLayout Hash MatchFields MetaFlow OdpActions Csum Packets PacketBytes.

(** ** Fields that a parser leaves alone *)

(** The fields that the parsers of the headers after the Ethernet type set or
    read. *)
Definition l3_field (f : MatchFields.field) : bool :=
  match f with
  | F_ipv6_src | F_ipv6_dst | F_nd_target | F_nw_src | F_nw_dst | F_ipv6_label | F_tp_src | F_tp_dst | F_tcp_flags
  | F_nw_proto | F_nw_tos | F_arp_sha | F_arp_tha | F_nw_ttl | F_nw_frag => true
  | _ => false
  end.

(** Those of the transport headers. *)
Definition l4_field (f : MatchFields.field) : bool :=
  match f with
  | F_nd_target | F_tp_src | F_tp_dst | F_tcp_flags | F_arp_sha | F_arp_tha => true
  | _ => false
  end.

(** Those that are known before the Ethernet type. *)
Definition early (f : MatchFields.field) : bool :=
  match f with
  | F_dl_type | F_mpls_lse | F_mpls_depth => false
  | f => negb (l3_field f)
  end.

Lemma flow_funext (a b : flowf) : (∀ f, a f = b f) → a = b.
Proof. apply functional_extensionality. Qed.

(** The fields of [E] from [e], the others from [fl]. *)
Definition overlay_of (E : MatchFields.field → bool) (e fl : flowf) : flowf := λ f, if E f then e f else fl f.
Abbreviation overlay := (overlay_of early).

Definition parse_l4 (v6 : bool) (proto : Z) (b : list Z) (fl : flowf) : option (option (list Z) * flowf) :=
  if proto =? IPPROTO_TCP then parse_tcp b fl
  else if proto =? IPPROTO_UDP then parse_udp b fl
  else if proto =? IPPROTO_SCTP then parse_sctp b fl
  else if v6 then (if proto =? IPPROTO_ICMPV6 then parse_icmpv6 b fl else Some (None, fl))
  else if proto =? IPPROTO_ICMP then parse_icmp b fl
  else Some (None, fl).

(** One read of a parser. *)
Ltac ov_case :=
  match goal with
  | |- context [?m ≫= _] => destruct m; cbn [mbind option_bind]; [|done]
  | |- context [match ?m with Some _ => _ | None => _ end] => destruct m as [[? ?]|]
  end.

Section overlay.
Context (E : MatchFields.field → bool).
Local Abbreviation overlay := (overlay_of E).

Lemma overlay_late e fl f : E f = false → overlay e fl f = fl f.
Proof. intros H. unfold overlay_of. by rewrite H. Qed.

Lemma overlay_upd e fl f v : E f = false → upd f v (overlay e fl) = overlay e (upd f v fl).
Proof. intros H. apply flow_funext. intros g. unfold overlay_of, upd. case_decide; [subst; by rewrite H|done]. Qed.

Lemma overlay_upd_early e fl f v : E f = true → upd f v (overlay e fl) = overlay (upd f v e) fl.
Proof. intros H. apply flow_funext. intros g. unfold overlay_of, upd. case_decide; [subst; by rewrite H|done]. Qed.

Lemma overlay_set_fields e fl l :
  Forall (λ p, E p.1 = false) l → set_fields l (overlay e fl) = overlay e (set_fields l fl).
Proof.
  intros Hl. revert fl. induction Hl as [|[f v] l Hf Hl IH]; intros fl; [done|]. unfold set_fields in *. cbn [foldl fst snd] in *.
  by rewrite overlay_upd, IH.
Qed.

(** [HE] says that the fields are not of [E]. *)
Ltac late HE := repeat (apply Forall_cons_2; [by apply HE|]); apply Forall_nil_2.

Definition ov2 {A} (e : flowf) (r : A * flowf) : A * flowf := (r.1, overlay e r.2).

Section transport.
Context (H4 : ∀ f, l4_field f = true → E f = false).

Lemma parse_tcp_overlay e b fl : parse_tcp b (overlay e fl) = ov2 e <$> parse_tcp b fl.
Proof.
  unfold parse_tcp. destruct (pull_tcp b) as [[[h b']|]|]; [|done|done]. cbn [mbind option_bind].
  repeat (ov_case). rewrite overlay_set_fields by late H4. done.
Qed.

Lemma parse_udp_overlay e b fl : parse_udp b (overlay e fl) = ov2 e <$> parse_udp b fl.
Proof. unfold parse_udp. repeat ov_case; [|done]. rewrite overlay_set_fields by late H4. done. Qed.

Lemma parse_sctp_overlay e b fl : parse_sctp b (overlay e fl) = ov2 e <$> parse_sctp b fl.
Proof. unfold parse_sctp. repeat ov_case; [|done]. rewrite overlay_set_fields by late H4. done. Qed.

Lemma parse_icmp_overlay e b fl : parse_icmp b (overlay e fl) = ov2 e <$> parse_icmp b fl.
Proof. unfold parse_icmp. repeat ov_case; [|done]. rewrite overlay_set_fields by late H4. done. Qed.

Lemma nd_set_lladdr_overlay e f b fl :
  E f = false → nd_set_lladdr f b (overlay e fl) = option_map (overlay e) <$> nd_set_lladdr f b fl.
Proof.
  intros Hf. unfold nd_set_lladdr. rewrite overlay_late by done. destruct (_ =? _); [|done].
  destruct (rd 2 6 b); [|done]. cbn. by rewrite overlay_upd.
Qed.

Lemma nd_options_overlay e fuel b fl : nd_options fuel b (overlay e fl) = option_map (ov2 e) <$> nd_options fuel b fl.
Proof.
  revert b fl. induction fuel as [|fuel IH]; intros b fl; cbn [nd_options]; destruct (_ <? _)%nat; [done..|].
  destruct (rd 0 1 b) as [ty|]; [|done]. cbn [mbind option_bind]. destruct (rd 1 1 b) as [len|]; [|done]. cbn [mbind option_bind].
  destruct (_ || _); [done|].
  assert (H : (if (ty =? ND_OPT_SOURCE_LINKADDR) && (Z.to_nat len * 8 =? 8)%nat then nd_set_lladdr F_arp_sha b (overlay e fl)
               else if (ty =? ND_OPT_TARGET_LINKADDR) && (Z.to_nat len * 8 =? 8)%nat then nd_set_lladdr F_arp_tha b (overlay e fl)
               else Some (Some (overlay e fl)))
              = option_map (overlay e) <$> (if (ty =? ND_OPT_SOURCE_LINKADDR) && (Z.to_nat len * 8 =? 8)%nat then nd_set_lladdr F_arp_sha b fl
               else if (ty =? ND_OPT_TARGET_LINKADDR) && (Z.to_nat len * 8 =? 8)%nat then nd_set_lladdr F_arp_tha b fl
               else Some (Some fl))).
  { destruct (_ && _); [by apply nd_set_lladdr_overlay, H4|]. destruct (_ && _); [by apply nd_set_lladdr_overlay, H4|done]. }
  rewrite H. clear H.
  match goal with |- context [option_map (overlay e) <$> ?x] => destruct x as [[fl'|]|]; [|done|done] end. cbn [mbind option_bind fmap option_fmap option_map].
  destruct (ofpbuf_try_pull _ b) as [[h b']|]; [apply IH|done].
Qed.

Lemma parse_icmpv6_overlay e b fl : parse_icmpv6 b (overlay e fl) = ov2 e <$> parse_icmpv6 b fl.
Proof.
  unfold parse_icmpv6. destruct (ofpbuf_try_pull 8 b) as [[h b']|]; [|done]. do 2 ov_case.
  rewrite overlay_set_fields by late H4. destruct (_ && _); [|done].
  destruct (ofpbuf_try_pull 16 b') as [[t b'']|]; [|done]. ov_case. rewrite overlay_upd, nd_options_overlay by (by apply H4).
  destruct (nd_options _ _ _) as [[[b3 fl3]|]|]; [done| |done]. cbn [mbind option_bind fmap option_fmap option_map].
  rewrite overlay_set_fields by late H4. done.
Qed.

(** The transport header of an IPv4 or an IPv6 packet. *)
Lemma parse_l4_overlay e v6 proto b fl : parse_l4 v6 proto b (overlay e fl) = ov2 e <$> parse_l4 v6 proto b fl.
Proof.
  unfold parse_l4. repeat case_match; [apply parse_tcp_overlay|apply parse_udp_overlay|apply parse_sctp_overlay|apply parse_icmpv6_overlay|done
    |apply parse_icmp_overlay|done].
Qed.
End transport.

Context (HE : ∀ f, l3_field f = true → E f = false).

Lemma l3_l4 f : l4_field f = true → E f = false.
Proof. intros Hf. apply HE. by destruct f. Qed.

Lemma parse_ipv6_loop_overlay e fuel nh b fl : parse_ipv6_loop fuel nh b (overlay e fl) = ov2 e <$> parse_ipv6_loop fuel nh b fl.
Proof.
  revert nh b fl. induction fuel as [|fuel IH]; intros nh b fl; cbn [parse_ipv6_loop];
    (destruct (negb (ipv6_extension nh)); [done|]; destruct (length b <? 8)%nat; [done|]); [done|].
  destruct (_ || _); [do 2 ov_case; destruct (ofpbuf_try_pull _ b) as [[h b']|]; [apply IH|done]|].
  destruct (_ =? _); [do 2 ov_case; destruct (ofpbuf_try_pull _ b) as [[h b']|]; [apply IH|done]|].
  do 2 ov_case. destruct (ofpbuf_try_pull _ b) as [[h b']|]; [|done]. destruct (negb _); [|apply IH].
  rewrite !overlay_upd by (by apply HE). destruct (negb _); [done|apply IH].
Qed.

Lemma parse_ipv6_overlay e b fl : parse_ipv6 b (overlay e fl) = ov2 e <$> parse_ipv6 b fl.
Proof.
  unfold parse_ipv6. destruct (ofpbuf_try_pull 40 b) as [[h b']|]; [|done]. do 5 ov_case.
  rewrite overlay_set_fields, parse_ipv6_loop_overlay by late HE. destruct (parse_ipv6_loop _ _ _ _) as [[[[nh|] b''] fl']|]; [|done|done].
  cbn. rewrite overlay_upd by (by apply HE). done.
Qed.

Lemma l7_overlay e (b : list Z) (x x' : option (option (list Z) * flowf)) :
  x = ov2 e <$> x' → ('(l7, fl) ← x; Some (Some b, l7, fl)) = ov2 e <$> ('(l7, fl) ← x'; Some (Some b, l7, fl)).
Proof. intros ->. by destruct x' as [[? ?]|]. Qed.

Lemma parse_l3_ip_overlay e b fl : parse_l3_ip b (overlay e fl) = ov2 e <$> parse_l3_ip b fl.
Proof.
  unfold parse_l3_ip. destruct (pull_ip b) as [[[h b']|]|]; [|done|done]. cbn [mbind option_bind]. do 6 ov_case.
  rewrite overlay_late, overlay_set_fields by (first [by apply HE|late HE]).
  match goal with |- context [overlay e ?f] => generalize f; intros f' end.
  destruct (Z.land _ _ =? 0); [|done]. apply l7_overlay.
  repeat case_match; [apply parse_tcp_overlay, l3_l4|apply parse_udp_overlay, l3_l4|apply parse_sctp_overlay, l3_l4|apply parse_icmp_overlay, l3_l4|done].
Qed.

Lemma parse_l3_ipv6_overlay e b fl : parse_l3_ipv6 b (overlay e fl) = ov2 e <$> parse_l3_ipv6 b fl.
Proof.
  unfold parse_l3_ipv6. rewrite parse_ipv6_overlay. destruct (parse_ipv6 b fl) as [[[ok b'] fl']|]; [|done].
  cbn [mbind option_bind fmap option_fmap option_map ov2 fst snd]. destruct ok; [|done]. rewrite overlay_late by (by apply HE). apply l7_overlay.
  repeat case_match; [apply parse_tcp_overlay, l3_l4|apply parse_udp_overlay, l3_l4|apply parse_sctp_overlay, l3_l4|apply parse_icmpv6_overlay, l3_l4|done].
Qed.

Lemma parse_l3_arp_overlay e b fl : parse_l3_arp b (overlay e fl) = overlay e <$> parse_l3_arp b fl.
Proof.
  unfold parse_l3_arp. destruct (ofpbuf_try_pull 28 b) as [[h b']|]; [|done]. do 4 ov_case.
  destruct (_ && _); [|done]. do 5 ov_case. destruct (_ <=? _); rewrite ?overlay_upd, overlay_set_fields by (first [by apply HE|late HE]); done.
Qed.
End overlay.

Lemma early_l3 f : l3_field f = true → early f = false.
Proof. by destruct f. Qed.

Lemma parse_l3_overlay e b fl : parse_l3 b (overlay e fl) = ov2 early e <$> parse_l3 b fl.
Proof.
  unfold parse_l3. rewrite overlay_late by done. destruct (_ =? ETH_TYPE_IP); [apply parse_l3_ip_overlay, early_l3|].
  destruct (_ =? ETH_TYPE_IPV6); [apply parse_l3_ipv6_overlay, early_l3|]. destruct (_ || _); [|done].
  rewrite parse_l3_arp_overlay by apply early_l3. by destruct (parse_l3_arp b fl).
Qed.

Lemma parse_mpls_overlay e b fl : parse_mpls b (overlay e fl) = ov2 early e <$> parse_mpls b fl.
Proof.
  unfold parse_mpls. generalize (length b). intros fuel. revert b fl. induction fuel as [|fuel IH]; intros b fl; cbn [parse_mpls_loop];
    (destruct (ofpbuf_try_pull 4 b) as [[h b']|]; [|done]); [done|]. ov_case. rewrite overlay_late by done.
  assert (H : (if fl F_mpls_depth =? 0 then upd F_mpls_lse z (overlay e fl) else overlay e fl)
              = overlay e (if fl F_mpls_depth =? 0 then upd F_mpls_lse z fl else fl)) by (destruct (_ =? _); [by apply overlay_upd|done]).
  rewrite H, overlay_upd by done. destruct (negb _); [done|apply IH].
Qed.

(** ** The normal form *)

(** What follows the addresses and the VLAN tag: the rests of the packet at
    the markers, and the flow. *)
Record layers := Layers {
  ly_l2_5 : option (list Z); ly_l3 : list Z; ly_l4 : option (list Z); ly_l7 : option (list Z); ly_flow : flowf
}.

Definition zero_flow : flowf := λ _, 0.

Definition parse_layers (b : list Z) : option layers :=
  '(dl_type, b) ← parse_ethertype b;
  let fl := upd F_dl_type dl_type zero_flow in
  '(b3, fl) ← (if eth_type_mpls dl_type then parse_mpls b fl else Some (b, fl));
  '(l4, l7, fl) ← parse_l3 b3 fl;
  Some (Layers (if eth_type_mpls dl_type then Some b else None) b3 l4 l7 fl).

(** The rest after the VLAN tag, and the TCI of the flow. *)
Definition split_vlan (b : list Z) : list Z * Z :=
  if bool_decide (rd 0 2 b = Some ETH_TYPE_VLAN) && (6 <=? length b)%nat
  then (drop 4 b, Z.lor (default 0 (rd 2 2 b)) VLAN_CFI) else (b, 0).

Definition markers (d : list Z) (ly : layers) : ofpbuf :=
  let ofs (b : list Z) := Z.of_nat (length d) - Z.of_nat (length b) in
  Ofpbuf d (Some 0) (ofs <$> ly_l2_5 ly) (Some (ofs (ly_l3 ly))) (ofs <$> ly_l4 ly) (ofs <$> ly_l7 ly).

(** The fields of the metadata of a packet with key [key]. *)
Definition metadata_of (key : flowf) : flowf :=
  flow_metadata_init (key F_skb_priority) (key F_pkt_mark) (Some key) (Some (key F_in_port)).

Definition early_flow (md : flowf) (dl_src dl_dst tci : Z) : flowf :=
  set_fields [(F_dl_src, dl_src); (F_dl_dst, dl_dst); (F_vlan_tci, tci)] md.

Lemma metadata_overlay prio mark tnl port :
  flow_metadata_init prio mark tnl port = overlay (flow_metadata_init prio mark tnl port) zero_flow.
Proof.
  apply flow_funext. intros f. unfold overlay_of. destruct (early f) eqn:E; [done|]. unfold flow_metadata_init, set_fields, zero_flow, upd.
  destruct f; try discriminate; destruct tnl, port; reflexivity.
Qed.

Lemma early_flow_overlay md src dst tci :
  md = overlay md zero_flow → early_flow md src dst tci = overlay (early_flow md src dst tci) zero_flow.
Proof.
  intros H. unfold early_flow. set (l := [_; _; _]). rewrite H at 1. unfold set_fields, l. cbn [foldl fst snd]. by rewrite !overlay_upd_early.
Qed.

Lemma early_flow_no_vlan md src dst : md F_vlan_tci = 0 → set_fields [(F_dl_src, src); (F_dl_dst, dst)] md = early_flow md src dst 0.
Proof.
  intros H. apply flow_funext. intros f. unfold early_flow, set_fields. cbn [foldl fst snd]. unfold upd.
  repeat case_decide; subst; done.
Qed.

Lemma split_vlan_spec md b ty src dst :
  md = overlay md zero_flow → md F_vlan_tci = 0 → rd 0 2 b = Some ty →
  (if ty =? ETH_TYPE_VLAN then parse_vlan b (set_fields [(F_dl_src, src); (F_dl_dst, dst)] md)
   else Some (b, set_fields [(F_dl_src, src); (F_dl_dst, dst)] md))
  = Some ((split_vlan b).1, overlay (early_flow md src dst (split_vlan b).2) zero_flow).
Proof.
  intros Hmd Hv Hty. unfold split_vlan, parse_vlan, ofpbuf_pull. rewrite Hty. destruct (Z.eqb_spec ty ETH_TYPE_VLAN) as [->|Hne].
  - rewrite bool_decide_true by done. destruct (Nat.leb_spec 6 (length b)); cbn [andb fst snd].
    + rewrite (proj2 (Nat.leb_le 4 _)) by lia. cbn [mbind option_bind]. rewrite rd_take by lia.
      rewrite (rd_fits 2 2 b) by lia. cbn [mbind option_bind default]. by rewrite <- early_flow_overlay.
    + by rewrite <- early_flow_overlay, early_flow_no_vlan.
  - rewrite bool_decide_false by congruence. cbn [andb fst snd]. by rewrite <- early_flow_overlay, early_flow_no_vlan.
Qed.

Lemma flow_extract_nf p prio mark tnl port :
  (14 ≤ length (ob_data p))%nat →
  flow_extract p prio mark tnl port =
    let d := ob_data p in
    src ← rd 6 6 d; dst ← rd 0 6 d;
    let '(b, tci) := split_vlan (drop 12 d) in
    ly ← parse_layers b;
    Some (markers d ly, overlay (early_flow (flow_metadata_init prio mark tnl port) src dst tci) (ly_flow ly)).
Proof.
  intros Hl. unfold flow_extract. cbn zeta. rewrite (proj2 (Nat.ltb_ge _ _)) by lia. set (d := ob_data p) in *.
  destruct (rd 6 6 d) as [src|]; [|done]. destruct (rd 0 6 d) as [dst|]; [|done]. cbn [mbind option_bind].
  unfold ofpbuf_pull. rewrite (proj2 (Nat.leb_le _ _)) by lia. cbn [mbind option_bind]. set (b := drop 12 d).
  assert (Hlb : (2 ≤ length b)%nat) by (unfold b; rewrite length_drop; lia).
  assert (Hty : rd 12 2 d = rd 0 2 b) by (unfold b; rewrite rd_drop by lia; done).
  rewrite Hty. destruct (rd 0 2 b) as [ty|] eqn:Ety; [|by rewrite rd_fits in Ety by lia]. cbn [mbind option_bind].
  set (md := flow_metadata_init prio mark tnl port).
  assert (Hsplit : (if ty =? ETH_TYPE_VLAN then parse_vlan b (set_fields [(F_dl_src, src); (F_dl_dst, dst)] md)
                    else Some (b, set_fields [(F_dl_src, src); (F_dl_dst, dst)] md))
                   = Some ((split_vlan b).1, overlay (early_flow md src dst (split_vlan b).2) zero_flow)).
  { apply split_vlan_spec; [apply metadata_overlay|by destruct tnl, port|done]. }
  rewrite Hsplit. destruct (split_vlan b) as [b1 tci]. cbn [mbind option_bind fst snd]. unfold parse_layers.
  destruct (parse_ethertype b1) as [[t b2]|]; [|done]. cbn [mbind option_bind].
  set (e := early_flow md src dst tci). rewrite overlay_upd by done.
  assert (Hm : (if eth_type_mpls t then parse_mpls b2 (overlay e (upd F_dl_type t zero_flow)) else Some (b2, overlay e (upd F_dl_type t zero_flow)))
               = ov2 early e <$> (if eth_type_mpls t then parse_mpls b2 (upd F_dl_type t zero_flow) else Some (b2, upd F_dl_type t zero_flow))).
  { destruct (eth_type_mpls t); [apply parse_mpls_overlay|done]. }
  rewrite Hm. clear Hm. destruct (if eth_type_mpls t then parse_mpls _ _ else _) as [[b3 fl3]|]; [|done]. cbn [mbind option_bind fmap option_fmap option_map ov2 fst snd].
  rewrite parse_l3_overlay. destruct (parse_l3 b3 fl3) as [[[l4 l7] fl5]|]; [|done]. cbn [mbind option_bind fmap option_fmap option_map ov2 fst snd].
  unfold markers. cbn [ly_l2_5 ly_l3 ly_l4 ly_l7 ly_flow]. by destruct (eth_type_mpls t).
Qed.
