(* ===== verification/PacketExec.v ===== *)
(** * Executing datapath actions on packets

    The bytes and markers of a packet after an action are those of a packet
    whose flow is the flow before, changed as [key_apply] says. *)
From stdpp Require Import list.
From S2P Require Import Prelude ByteOrder FlowLayout Hash Bitwise MatchFields MetaFlow OdpActions Csum Packets PacketBytes PacketView.

(** The packet [p], with key [key] for its metadata, parses to [fl] and has the
    markers that parsing sets. *)
Definition parsed (p : ofpbuf) (key fl : flowf) : Prop :=
  Forall is_u8 (ob_data p) ∧ (14 ≤ length (ob_data p))%nat
  ∧ flow_extract p (key F_skb_priority) (key F_pkt_mark) (Some key) (Some (key F_in_port)) = Some (p, fl).

(** The same with the parts. *)
Record parts (p : ofpbuf) (key fl : flowf) (src dst : Z) (b : list Z) (tci : Z) (ly : layers) : Prop := {
  pt_src : rd 6 6 (ob_data p) = Some src;
  pt_dst : rd 0 6 (ob_data p) = Some dst;
  pt_vlan : split_vlan (drop 12 (ob_data p)) = (b, tci);
  pt_layers : parse_layers b = Some ly;
  pt_packet : p = markers (ob_data p) ly;
  pt_flow : fl = overlay (early_flow (metadata_of key) src dst tci) (ly_flow ly)
}.

Lemma parsed_parts p key fl : parsed p key fl → ∃ src dst b tci ly, parts p key fl src dst b tci ly.
Proof.
  intros (Hb & Hl & H). rewrite flow_extract_nf in H by done. cbn zeta in H.
  destruct (rd 6 6 (ob_data p)) as [src|] eqn:E1; [|done]. destruct (rd 0 6 (ob_data p)) as [dst|] eqn:E2; [|done].
  cbn [mbind option_bind] in H. destruct (split_vlan _) as [b tci] eqn:E3. destruct (parse_layers b) as [ly|] eqn:E4; [|done].
  cbn [mbind option_bind] in H. injection H as Hp Hf. exists src, dst, b, tci, ly. by split.
Qed.

Lemma parts_parsed p key fl src dst b tci ly :
  Forall is_u8 (ob_data p) → (14 ≤ length (ob_data p))%nat → parts p key fl src dst b tci ly → parsed p key fl.
Proof.
  intros Hb Hl [E1 E2 E3 E4 Hp ->]. split; [done|]. split; [done|]. rewrite flow_extract_nf by done. cbn zeta.
  rewrite E1, E2. cbn [mbind option_bind]. rewrite E3, E4. cbn [mbind option_bind]. by rewrite <- Hp.
Qed.

(** ** Metadata *)

Lemma metadata_of_spec key f :
  metadata_of key f =
    match f with
    | F_tun_id | F_tun_src | F_tun_dst | F_tun_flags | F_tun_tos | F_tun_ttl | F_skb_priority | F_in_port | F_pkt_mark => key f
    | _ => 0
    end.
Proof. by destruct f. Qed.

Definition is_metadata (f : MatchFields.field) : bool :=
  match f with
  | F_tun_id | F_tun_src | F_tun_dst | F_tun_flags | F_tun_tos | F_tun_ttl | F_skb_priority | F_in_port | F_pkt_mark => true
  | _ => false
  end.

Lemma parsed_metadata p key fl f v : is_metadata f = true → parsed p key fl → parsed p (upd f v key) (upd f v fl).
Proof.
  intros Hf H. pose proof H as (Hb & Hl & _). apply parsed_parts in H as (src & dst & b & tci & ly & [E1 E2 E3 E4 Hp ->]).
  eapply parts_parsed; [done..|]. split; [done..|].
  rewrite overlay_upd_early by (by destruct f). f_equal. apply flow_funext. intros g.
  unfold early_flow, set_fields. cbn [foldl fst snd]. unfold upd. repeat case_decide; subst; try done; rewrite !metadata_of_spec.
  - destruct f; try done; case_decide; done.
  - destruct g; try done; case_decide; subst; done.
Qed.

(** ** Ethernet addresses *)

Lemma markers_data d d' ly : length d' = length d → set_data d' (markers d ly) = markers d' ly.
Proof. intros H. unfold set_data, markers. cbn [ob_l2 ob_l2_5 ob_l3 ob_l4 ob_l7]. by rewrite H. Qed.

Lemma eth_set_addrs_spec d ly src dst :
  (14 ≤ length d)%nat →
  odp_eth_set_addrs (markers d ly) src dst = Some (markers (be_bytes 6 dst ++ be_bytes 6 src ++ drop 12 d) ly).
Proof.
  intros Hl. unfold odp_eth_set_addrs. change (ob_l2 (markers d ly)) with (Some (Z.of_nat 0)). rewrite wrm_at by (cbn; lia).
  cbn [mbind option_bind ob_data markers Nat.add]. set (d1 := put 6 (be_bytes 6 src) d).
  assert (Hl1 : length d1 = length d) by (apply length_put; rewrite length_be_bytes; lia).
  rewrite (markers_data d d1) by done. change (ob_l2 (markers _ ly)) with (Some (Z.of_nat 0)).
  rewrite wrm_at by (cbn [ob_data markers]; lia). cbn [ob_data markers Nat.add].
  rewrite (markers_data d1) by (apply length_put; rewrite length_be_bytes; lia). do 2 f_equal.
  rewrite put_0, length_be_bytes. f_equal. unfold d1, put. rewrite length_be_bytes.
  rewrite drop_app_length' by (rewrite length_take; lia). done.
Qed.

Lemma parsed_ethernet p key fl src dst :
  parsed p key fl → in_width 48 src → in_width 48 dst →
  ∃ p', odp_eth_set_addrs p src dst = Some p' ∧ parsed p' key (set_fields [(F_dl_src, src); (F_dl_dst, dst)] fl).
Proof.
  intros H Hs Hd. pose proof H as (Hb & Hl & _). apply parsed_parts in H as (src0 & dst0 & b & tci & ly & [E1 E2 E3 E4 Hp ->]).
  rewrite Hp. eexists. split; [by apply eth_set_addrs_spec|]. set (d := ob_data p) in *.
  assert (Hl' : length (be_bytes 6 dst ++ be_bytes 6 src ++ drop 12 d) = length d) by (rewrite !length_app, !length_be_bytes, length_drop; lia).
  apply (parts_parsed _ _ _ src dst b tci ly); cbn [ob_data markers].
  { repeat apply Forall_app_2; try apply be_bytes_u8. by apply Forall_drop. }
  { by rewrite Hl'. }
  split; cbn [ob_data markers]; [| |done|done|done|].
  - rewrite (rd_app_r 0 6 (be_bytes 6 dst) _ 6) by apply length_be_bytes. rewrite rd_be_bytes. by rewrite wrap_id.
  - rewrite rd_be_bytes. by rewrite wrap_id.
  - unfold set_fields. cbn [foldl fst snd]. rewrite !overlay_upd_early by done. f_equal. apply flow_funext. intros f.
    unfold early_flow, set_fields. cbn [foldl fst snd]. unfold upd. repeat case_decide; congruence.
Qed.

(** ** VLAN tags *)

Definition vlan_tag (tci : Z) : list Z := be_bytes 2 ETH_TYPE_VLAN ++ be_bytes 2 (and_not tci VLAN_CFI).

(** Four bytes of a tag at offset 12; the markers move along. *)
Lemma eth_push_vlan_spec p tci :
  Forall is_u8 (ob_data p) → (14 ≤ length (ob_data p))%nat →
  eth_push_vlan p tci = Some (set_l2 (Some 0) (move_data 4 (take 12 (ob_data p) ++ vlan_tag tci ++ drop 12 (ob_data p)) p)).
Proof.
  intros Hb Hl. unfold eth_push_vlan. set (d := ob_data p) in *.
  destruct (rd 0 6 d) as [dst|] eqn:E1; [|by rewrite rd_fits in E1 by lia]. destruct (rd 6 6 d) as [src|] eqn:E2; [|by rewrite rd_fits in E2 by lia].
  destruct (rd 12 2 d) as [ty|] eqn:E3; [|by rewrite rd_fits in E3 by lia]. cbn [mbind option_bind].
  change (ob_data (ofpbuf_push [0; 0; 0; 0] p)) with ([0; 0; 0; 0] ++ d). set (d0 := [0; 0; 0; 0] ++ d).
  assert (Hl0 : length d0 = (4 + length d)%nat) by done.
  rewrite wr_fits by lia. cbn [mbind option_bind].
  rewrite (wr_next 6) by (rewrite ?length_app, ?length_be_bytes; lia). cbn [mbind option_bind].
  rewrite (wr_next 12) by (rewrite ?length_app, ?length_be_bytes; lia). cbn [mbind option_bind].
  rewrite (wr_next 14) by (rewrite ?length_app, ?length_be_bytes; lia). cbn [mbind option_bind].
  rewrite (wr_next 16) by (rewrite ?length_app, ?length_be_bytes; lia). cbn [mbind option_bind].
  f_equal. unfold set_l2, set_data, ofpbuf_push, move_data. cbn [ob_data ob_l2 ob_l2_5 ob_l3 ob_l4 ob_l7 length Z.of_nat]. f_equal.
  rewrite put_0, !length_app, !length_be_bytes. change (drop _ d0) with (drop 14 d).
  rewrite (rd_bytes _ _ _ _ Hb E1), (rd_bytes _ _ _ _ Hb E2), (rd_bytes _ _ _ _ Hb E3), drop_0.
  rewrite (take_drop_add 6 6 d). rewrite <- !app_assoc. unfold vlan_tag. rewrite <- app_assoc. do 3 f_equal.
  change (drop 14 d) with (drop (2 + 12) d). rewrite Nat.add_comm, <- drop_drop. apply take_drop.
Qed.

Lemma eth_pop_vlan_spec p :
  Forall is_u8 (ob_data p) → (18 ≤ length (ob_data p))%nat → ob_l2 p = Some 0 → rd 12 2 (ob_data p) = Some ETH_TYPE_VLAN →
  eth_pop_vlan p = Some (set_l2 (Some 0) (move_data (-4) (take 12 (ob_data p) ++ drop 16 (ob_data p)) p)).
Proof.
  intros Hb Hl H2 Ht. unfold eth_pop_vlan. rewrite H2. cbn [mbind option_bind]. set (d := ob_data p) in *.
  rewrite (proj2 (Nat.leb_le _ _)) by lia. change (Some 0) with (Some (Z.of_nat 0)). rewrite !(rdm_at 0). cbn [Nat.add]. fold d. rewrite Ht.
  cbn [mbind option_bind]. change (ETH_TYPE_VLAN =? ETH_TYPE_VLAN) with true. cbn match.
  destruct (rd 0 6 d) as [dst|] eqn:E1; [|by rewrite rd_fits in E1 by lia]. destruct (rd 6 6 d) as [src|] eqn:E2; [|by rewrite rd_fits in E2 by lia].
  destruct (rd 16 2 d) as [ty|] eqn:E3; [|by rewrite rd_fits in E3 by lia]. cbn [mbind option_bind].
  unfold ofpbuf_drop. fold d. rewrite (proj2 (Nat.leb_le _ _)) by lia. cbn [mbind option_bind].
  set (d0 := drop 4 d). change (ob_data (set_l2 _ _)) with d0.
  assert (Hl0 : length d0 = (length d - 4)%nat) by apply length_drop.
  rewrite wr_fits by lia. cbn [mbind option_bind].
  rewrite (wr_next 6) by (rewrite ?length_app, ?length_be_bytes; lia). cbn [mbind option_bind].
  rewrite (wr_next 12) by (rewrite ?length_app, ?length_be_bytes; lia). cbn [mbind option_bind].
  f_equal. unfold set_l2, set_data, move_data. cbn [ob_data ob_l2 ob_l2_5 ob_l3 ob_l4 ob_l7]. rewrite H2. f_equal.
  rewrite put_0, !length_app, !length_be_bytes. unfold d0. rewrite drop_drop.
  rewrite (rd_bytes _ _ _ _ Hb E1), (rd_bytes _ _ _ _ Hb E2), (rd_bytes _ _ _ _ Hb E3), drop_0.
  rewrite (take_drop_add 6 6 d). rewrite <- !app_assoc. f_equal.
  change (4 + (6 + 6 + 2))%nat with (16 + 2)%nat. rewrite <- drop_drop. apply take_drop.
Qed.

Lemma move_markers n d d' ly :
  Z.of_nat (length d') = Z.of_nat (length d) + n → set_l2 (Some 0) (move_data n d' (markers d ly)) = markers d' ly.
Proof.
  intros H. unfold set_l2, move_data, markers. cbn [ob_data ob_l2 ob_l2_5 ob_l3 ob_l4 ob_l7].
  f_equal; rewrite <- ?option_fmap_compose; [|cbn; f_equal; lia|..]; (apply option_fmap_ext || idtac);
  destruct (ly_l2_5 ly), (ly_l4 ly), (ly_l7 ly); cbn; rewrite ?H; f_equal; lia.
Qed.

Lemma early_flow_tci md src dst tci tci' fl : overlay (early_flow md src dst tci') fl = upd F_vlan_tci tci' (overlay (early_flow md src dst tci) fl).
Proof.
  rewrite overlay_upd_early by done. f_equal. apply flow_funext. intros f. unfold early_flow, set_fields. cbn [foldl fst snd].
  unfold upd. repeat case_decide; congruence.
Qed.

Lemma vlan_cfi_nonzero x : Z.lor x VLAN_CFI ≠ 0.
Proof. intros H. apply Z.lor_eq_0_iff in H as [_ H]. discriminate. Qed.

Lemma tci_cfi tci : is_u16 tci → Z.land tci VLAN_CFI ≠ 0 → Z.lor (and_not tci VLAN_CFI) VLAN_CFI = tci.
Proof.
  intros Ht Hc. assert (Hbit : Z.testbit tci 12 = true).
  { destruct (Z.testbit tci 12) eqn:E; [done|]. destruct Hc. apply Z.bits_inj'. intros i Hi. rewrite Z.land_spec, Z.bits_0.
    change VLAN_CFI with (2 ^ 12). destruct (decide (i = 12)) as [->|Hne]; [by rewrite E|]. rewrite Z.pow2_bits_false by lia. apply andb_false_r. }
  apply Z.bits_inj'. intros i Hi. rewrite Z.lor_spec. unfold and_not. rewrite Z.ldiff_spec. change VLAN_CFI with (2 ^ 12).
  destruct (decide (i = 12)) as [->|Hne]; [by rewrite Z.pow2_bits_true, orb_true_r|]. rewrite Z.pow2_bits_false by lia. by rewrite andb_true_r, orb_false_r.
Qed.

Lemma split_vlan_cases b :
  (split_vlan b = (b, 0) ∧ (rd 0 2 b ≠ Some ETH_TYPE_VLAN ∨ (length b < 6)%nat))
  ∨ (∃ tci, rd 0 2 b = Some ETH_TYPE_VLAN ∧ (6 ≤ length b)%nat ∧ rd 2 2 b = Some tci ∧ split_vlan b = (drop 4 b, Z.lor tci VLAN_CFI)).
Proof.
  unfold split_vlan. case_bool_decide as E; [|left; cbn; tauto]. destruct (Nat.leb_spec 6 (length b)); cbn [andb]; [|left; tauto].
  right. destruct (rd 2 2 b) as [tci|] eqn:E2; [|by rewrite rd_fits in E2 by lia]. by exists tci.
Qed.

Lemma flow_tci p key fl src dst b tci ly : parts p key fl src dst b tci ly → fl F_vlan_tci = tci.
Proof. intros [_ _ _ _ _ ->]. done. Qed.

Lemma flow_late p key fl src dst b tci ly f : parts p key fl src dst b tci ly → early f = false → fl f = ly_flow ly f.
Proof. intros [_ _ _ _ _ ->] Hf. by apply overlay_late. Qed.

Lemma parsed_push_vlan p key fl tci :
  parsed p key fl → fl F_vlan_tci = 0 → is_u16 tci → Z.land tci VLAN_CFI ≠ 0 →
  ∃ p', eth_push_vlan p tci = Some p' ∧ parsed p' key (upd F_vlan_tci tci fl).
Proof.
  intros H Hv Ht Hc. pose proof H as (Hb & Hl & _). apply parsed_parts in H as (src & dst & b & t0 & ly & Hpt).
  pose proof (flow_tci _ _ _ _ _ _ _ _ Hpt) as Ht0. rewrite Hv in Ht0. subst t0. destruct Hpt as [E1 E2 E3 E4 Hp ->].
  rewrite eth_push_vlan_spec by done. eexists. split; [done|]. set (d := ob_data p) in *. rewrite Hp.
  assert (Ea : length (take 12 d) = 12%nat) by (rewrite length_take; lia).
  assert (Et : length (vlan_tag tci) = 4%nat) by done.
  rewrite move_markers by (rewrite !length_app, Ea, Et, length_drop; lia).
  eapply (parts_parsed _ _ _ src dst b tci ly); cbn [ob_data markers].
  { repeat apply Forall_app_2; [by apply Forall_take|apply be_bytes_u8..|by apply Forall_drop]. }
  { rewrite !length_app, Ea, Et, length_drop. lia. }
  split; cbn [ob_data markers]; [| | |done|done|by rewrite (early_flow_tci _ _ _ 0 tci)].
  - rewrite rd_app_l, rd_take by lia. done.
  - rewrite rd_app_l, rd_take by lia. done.
  - rewrite (drop_app_length' (take 12 d)) by done.
    assert (b = drop 12 d) as ->.
    { destruct (split_vlan_cases (drop 12 d)) as [[E _]|(x & _ & _ & _ & E)]; rewrite E in E3; injection E3 as <-; [done|].
      by destruct (vlan_cfi_nonzero x). }
    unfold split_vlan, vlan_tag. rewrite <- app_assoc, rd_be_bytes, (rd_app_r 0 2 _ _ 2), rd_be_bytes by apply length_be_bytes.
    rewrite bool_decide_true by done. rewrite (proj2 (Nat.leb_le _ _)) by (rewrite !length_app, !length_be_bytes, length_drop; lia).
    cbn [andb default]. f_equal.
    rewrite wrap_id; [by apply tci_cfi|]. by apply ldiff_in_width.
Qed.

(** An inner tag is an Ethernet type to the parser. *)
Lemma layers_inner_tag b ly : rd 0 2 b = Some ETH_TYPE_VLAN → parse_layers b = Some ly → ly_flow ly F_dl_type = ETH_TYPE_VLAN.
Proof.
  intros Ht H. pose proof (rd_Some_fits _ _ _ _ Ht) as Hl. unfold parse_layers, parse_ethertype, ofpbuf_pull in H.
  rewrite (proj2 (Nat.leb_le _ _)) in H by lia. cbn [mbind option_bind] in H. rewrite rd_take, Ht in H by lia. cbn in H. by injection H as <-.
Qed.

Lemma parsed_pop_vlan p key fl :
  parsed p key fl → fl F_dl_type ≠ ETH_TYPE_VLAN → ∃ p', eth_pop_vlan p = Some p' ∧ parsed p' key (upd F_vlan_tci 0 fl).
Proof.
  intros H Hty. pose proof H as (Hb & Hl & _). pose proof H as H0. apply parsed_parts in H as (src & dst & b & tci & ly & Hpt).
  rewrite (flow_late _ _ _ _ _ _ _ _ _ Hpt) in Hty by done. destruct Hpt as [E1 E2 E3 E4 Hp Hfl]. set (d := ob_data p) in *.
  assert (Hrd : rd 0 2 (drop 12 d) = rd 12 2 d) by (rewrite rd_drop by lia; done).
  assert (H2 : ob_l2 p = Some 0) by (by rewrite Hp).
  destruct (split_vlan_cases (drop 12 d)) as [[E Hno]|(x & Hv & H6 & Hx & E)]; rewrite E in E3; injection E3 as <- <-.
  - exists p. split.
    + unfold eth_pop_vlan. rewrite H2. cbn [mbind option_bind]. fold d. destruct (Nat.leb_spec 18 (length d)); [|done].
      change (rdm (Some 0) 12 2 p) with (rdm (Some (Z.of_nat 0)) 12 2 p). rewrite (rdm_at 0 12 2 p). fold d. change (0 + 12)%nat with 12%nat. rewrite <- Hrd. rewrite length_drop in Hno.
      destruct (rd 0 2 (drop 12 d)) as [ty|] eqn:Et; [|by rewrite rd_fits in Et by (rewrite length_drop; lia)]. cbn [mbind option_bind].
      destruct (Z.eqb_spec ty ETH_TYPE_VLAN) as [->|]; [|done]. destruct Hno; [done|lia].
    + rewrite Hfl in H0 |- *. by rewrite <- early_flow_tci.
  - rewrite length_drop in H6. rewrite eth_pop_vlan_spec by (fold d; first [done|lia|by rewrite <- Hrd]). fold d. eexists. split; [done|]. rewrite Hp.
    assert (Ea : length (take 12 d) = 12%nat) by (rewrite length_take; lia).
    rewrite move_markers by (rewrite length_app, Ea, length_drop; lia).
    apply (parts_parsed _ _ _ src dst (drop 16 d) 0 ly); cbn [ob_data markers].
    { apply Forall_app_2; [by apply Forall_take|by apply Forall_drop]. }
    { rewrite length_app, Ea, length_drop. lia. }
    rewrite drop_drop in E4. split; cbn [ob_data markers]; [| | |done|done|by rewrite Hfl, (early_flow_tci _ _ _ (Z.lor x VLAN_CFI) 0)].
    + rewrite rd_app_l, rd_take by lia. done.
    + rewrite rd_app_l, rd_take by lia. done.
    + rewrite (drop_app_length' (take 12 d)) by done. unfold split_vlan. rewrite bool_decide_false; [done|].
      intros Hi. by rewrite (layers_inner_tag _ _ Hi E4) in Hty.
Qed.
