(* ===== verification/PacketFrame.v ===== *)
(** * What parsing a header depends on

    Parsing a header reads the bytes of that header and how many bytes follow,
    and not what those are.  So the packet is the bytes before a header, the
    header and what follows, and each can be replaced by other bytes. *)
From stdpp Require Import list.
From S2P Require Import Prelude ByteOrder FlowLayout Hash Bitwise MatchFields MetaFlow OdpActions Csum Packets PacketBytes PacketView PacketExec.

(** ** Flows *)

Lemma overlay_self E fl : overlay_of E fl fl = fl.
Proof. apply flow_funext. intros f. unfold overlay_of. by destruct (E f). Qed.

(** A parser that commutes with overlays keeps the fields of the overlay. *)
Lemma overlay_keep {A} E (P : flowf → option (A * flowf)) fl x fl' f :
  (∀ e fl, P (overlay_of E e fl) = ov2 E e <$> P fl) → P fl = Some (x, fl') → E f = true → fl' f = fl f.
Proof.
  intros HP H Hf. specialize (HP fl fl). rewrite overlay_self, H in HP. injection HP as HP. rewrite HP. unfold overlay_of. by rewrite Hf.
Qed.

Definition not_l3 (f : MatchFields.field) : bool := negb (l3_field f).
Definition not_l4 (f : MatchFields.field) : bool := negb (l4_field f).

Lemma parse_l4_keep v6 proto b fl l7 fl' f : parse_l4 v6 proto b fl = Some (l7, fl') → l4_field f = false → fl' f = fl f.
Proof.
  intros H Hf. eapply (overlay_keep not_l4 (parse_l4 v6 proto b)); [|done|unfold not_l4; by rewrite Hf].
  intros e fl0. apply parse_l4_overlay. intros g. unfold not_l4. by intros ->.
Qed.

Lemma parse_l3_keep b fl l fl' f : parse_l3 b fl = Some (l, fl') → l3_field f = false → fl' f = fl f.
Proof.
  intros H Hf. assert (Hn : ∀ g, l3_field g = true → not_l3 g = false) by (intros g; unfold not_l3; by intros ->).
  assert (HE : not_l3 f = true) by (unfold not_l3; by rewrite Hf). unfold parse_l3 in H.
  destruct (_ =? ETH_TYPE_IP); [by eapply (overlay_keep not_l3 (parse_l3_ip b)); [intros; by apply parse_l3_ip_overlay|done|]|].
  destruct (_ =? ETH_TYPE_IPV6); [by eapply (overlay_keep not_l3 (parse_l3_ipv6 b)); [intros; by apply parse_l3_ipv6_overlay|done|]|].
  destruct (_ || _); [|by injection H as _ <-].
  pose proof (parse_l3_arp_overlay not_l3 Hn fl b fl) as Ho. rewrite overlay_self in Ho.
  destruct (parse_l3_arp b fl) as [fl1|]; [|done]. injection H as _ <-. injection Ho as Ho. rewrite Ho. unfold overlay_of. by rewrite HE.
Qed.

(** Parsing the same transport header with other fields of the network header. *)
Lemma parse_l4_flow v6 proto b fl fl2 l7 r :
  parse_l4 v6 proto b fl = Some (l7, r) → (∀ f, l4_field f = true → fl2 f = fl f) → parse_l4 v6 proto b fl2 = Some (l7, overlay_of not_l4 fl2 r).
Proof.
  intros H Hf. assert (E : fl2 = overlay_of not_l4 fl2 fl).
  { apply flow_funext. intros f. unfold overlay_of, not_l4. destruct (l4_field f) eqn:Ef; cbn; [by apply Hf|done]. }
  rewrite E at 1. rewrite parse_l4_overlay, H; [done|]. intros g. unfold not_l4. by intros ->.
Qed.

(** ** Ethernet type and VLAN tag *)

Lemma parse_ethertype_frame b t b2 :
  parse_ethertype b = Some (t, b2) → t ≠ FLOW_DL_TYPE_NONE →
  ∃ pre, b = pre ++ b2 ∧ (2 ≤ length pre)%nat ∧ ∀ b2', length b2' = length b2 → parse_ethertype (pre ++ b2') = Some (t, b2').
Proof.
  intros H Ht. unfold parse_ethertype, ofpbuf_pull in H.
  destruct (Nat.leb_spec 2 (length b)) as [Hl|]; [|done]. cbn [mbind option_bind] in H. rewrite rd_take in H by lia.
  destruct (rd 0 2 b) as [proto|] eqn:Ep; [|done]. cbn [mbind option_bind] in H.
  destruct (ETH_TYPE_MIN <=? proto) eqn:Em.
  { injection H as <- <-. exists (take 2 b). split; [by rewrite take_drop|]. assert (Hl2 : length (take 2 b) = 2%nat) by (rewrite length_take; lia).
    split; [lia|]. intros b2' _. unfold parse_ethertype, ofpbuf_pull. rewrite (proj2 (Nat.leb_le _ _)) by (rewrite length_app; lia).
    cbn [mbind option_bind]. rewrite take_app_length', drop_app_length', rd_take, Ep by lia. cbn [mbind option_bind]. by rewrite Em. }
  rewrite length_drop in H. destruct (Nat.ltb_spec (length b - 2) 8) as [|Hl8]; [by injection H as <-|].
  destruct (rd 0 3 (drop 2 b)) as [llc|] eqn:E1; [|done]. destruct (rd 3 3 (drop 2 b)) as [org|] eqn:E2; [|done]. cbn [mbind option_bind] in H.
  destruct (negb _ || negb _) eqn:Es; [by injection H as <-|]. destruct (rd 6 2 (drop 2 b)) as [ty|] eqn:E3; [|done].
  cbn [mbind option_bind] in H. rewrite (proj2 (Nat.leb_le _ _)) in H by lia. cbn [mbind option_bind] in H.
  destruct (ETH_TYPE_MIN <=? ty) eqn:Et; [|by injection H as <-]. injection H as <- <-. rewrite drop_drop. change (2 + 8)%nat with 10%nat.
  exists (take 10 b). split; [by rewrite take_drop|]. assert (Hl10 : length (take 10 b) = 10%nat) by (rewrite length_take; lia).
  split; [lia|]. intros b2' _. unfold parse_ethertype, ofpbuf_pull. rewrite (proj2 (Nat.leb_le _ _)) by (rewrite length_app; lia).
  cbn [mbind option_bind]. rewrite take_app_le, drop_app_le, take_take by lia. cbn [Nat.min]. rewrite rd_take, Ep by lia. cbn [mbind option_bind]. rewrite Em.
  assert (Hl9 : length (drop 2 (take 10 b)) = 8%nat) by (rewrite length_drop; lia).
  rewrite (proj2 (Nat.ltb_ge _ _)) by (rewrite length_app; lia).
  assert (Er : ∀ o l, (o + l ≤ 8)%nat → rd o l (drop 2 (take 10 b) ++ b2') = rd o l (drop 2 b)).
  { intros o l Ho. rewrite rd_app_l, !rd_drop, rd_take by lia. done. }
  rewrite !Er, E1, E2, E3 by lia. cbn [mbind option_bind]. rewrite Es.
  rewrite (proj2 (Nat.leb_le _ _)) by (rewrite length_app; lia). cbn [mbind option_bind]. rewrite Et, drop_app_length' by lia. done.
Qed.

Lemma split_vlan_frame d b tci :
  split_vlan d = (b, tci) →
  ∃ pre, d = pre ++ b ∧ ∀ b', length b' = length b → rd 0 2 b' = rd 0 2 b → split_vlan (pre ++ b') = (b', tci).
Proof.
  intros H. destruct (split_vlan_cases d) as [[E Hno]|(x & Hv & H6 & Hx & E)]; rewrite E in H; injection H as <- <-.
  - exists []. split; [done|]. cbn [app]. intros b' Hl Hr. unfold split_vlan. rewrite Hr, Hl.
    destruct Hno as [Hno|Hno]; [by rewrite bool_decide_false|]. by rewrite (proj2 (Nat.leb_gt _ _)), andb_false_r by lia.
  - assert (Hl4 : length (take 4 d) = 4%nat) by (rewrite length_take; lia). exists (take 4 d). split; [by rewrite take_drop|].
    intros b' Hl _. rewrite length_drop in Hl. unfold split_vlan. rewrite !rd_app_l, !rd_take, Hv, Hx by lia.
    rewrite bool_decide_true by done. rewrite (proj2 (Nat.leb_le _ _)) by (rewrite length_app; lia). cbn [andb default].
    by rewrite drop_app_length'.
Qed.

(** The flow with which the network header is parsed. *)
Definition typed_flow (t : Z) : flowf := upd F_dl_type t zero_flow.

(** The packet up to the network header, and the rest. *)
Record framed (p : ofpbuf) (key fl : flowf) (pre b3 : list Z) (l4 l7 : option (list Z)) (r e : flowf) : Prop := {
  fr_pre : (14 ≤ length pre)%nat;
  fr_bytes : Forall is_u8 pre ∧ Forall is_u8 b3;
  fr_packet : p = markers (pre ++ b3) (Layers None b3 l4 l7 r);
  fr_flow : fl = overlay_of early e r;
  fr_l3 : parse_l3 b3 (typed_flow (fl F_dl_type)) = Some (l4, l7, r);
  fr_other : ∀ b3' l4' l7' r', Forall is_u8 b3' → length b3' = length b3 →
    parse_l3 b3' (typed_flow (fl F_dl_type)) = Some (l4', l7', r') →
    parsed (markers (pre ++ b3') (Layers None b3' l4' l7' r')) key (overlay_of early e r')
}.

Lemma parse_mpls_keep b fl b3 fl3 f : parse_mpls b fl = Some (b3, fl3) → f ≠ F_mpls_lse → f ≠ F_mpls_depth → fl3 f = fl f.
Proof.
  intros H H1 H2. unfold parse_mpls in H. revert H. generalize (length b). intros fuel. revert b fl.
  induction fuel as [|fuel IH]; intros b fl H; cbn [parse_mpls_loop] in H;
    (destruct (ofpbuf_try_pull 4 b) as [[h b']|]; [|by injection H as _ <-]); [done|].
  destruct (rd 0 4 h) as [lse|]; [|done]. cbn [mbind option_bind] in H.
  assert (E : ∀ v, upd F_mpls_depth v (if fl F_mpls_depth =? 0 then upd F_mpls_lse lse fl else fl) f = fl f).
  { intros v. rewrite upd_ne by done. destruct (fl F_mpls_depth =? 0); [|done]. by apply upd_ne. }
  destruct (negb _); [injection H as _ <-; apply E|]. apply IH in H. rewrite H. apply E.
Qed.

Lemma layers_type b t b2 ly : parse_ethertype b = Some (t, b2) → parse_layers b = Some ly → ly_flow ly F_dl_type = t.
Proof.
  intros He H. unfold parse_layers in H. rewrite He in H. cbn [mbind option_bind] in H.
  destruct (if eth_type_mpls t then parse_mpls _ _ else _) as [[b3 fl3]|] eqn:E; [|done]. cbn [mbind option_bind] in H.
  destruct (parse_l3 b3 fl3) as [[[l4 l7] fl5]|] eqn:E5; [|done]. injection H as <-. cbn [ly_flow].
  rewrite (parse_l3_keep _ _ _ _ _ E5) by done. destruct (eth_type_mpls t); [by rewrite (parse_mpls_keep _ _ _ _ _ E)|].
  by injection E as _ <-.
Qed.

Lemma layers_plain b t b2 ly :
  parse_ethertype b = Some (t, b2) → eth_type_mpls t = false →
  parse_layers b = Some ly ↔ ∃ l4 l7 r, parse_l3 b2 (typed_flow t) = Some (l4, l7, r) ∧ ly = Layers None b2 l4 l7 r.
Proof.
  intros He Hm. unfold parse_layers. rewrite He. cbn [mbind option_bind]. rewrite Hm. cbn [mbind option_bind]. fold (typed_flow t).
  destruct (parse_l3 b2 (typed_flow t)) as [[[l4 l7] r]|]; cbn [mbind option_bind]; split; intros H; [|by destruct H as (? & ? & ? & [= <- <- <-] & ->)|done|by destruct H as (? & ? & ? & ? & ?)].
  injection H as <-. by exists l4, l7, r.
Qed.

(** The packet up to the Ethernet type, which [pe] ends with. *)
Record prefixed (p : ofpbuf) (key fl : flowf) (pre pe b2 : list Z) (ly : layers) (e : flowf) : Prop := {
  px_pre : (14 ≤ length pre)%nat;
  px_bytes : Forall is_u8 pre ∧ Forall is_u8 b2;
  px_packet : p = markers (pre ++ b2) ly;
  px_flow : fl = overlay_of early e (ly_flow ly);
  px_layers : parse_layers (pe ++ b2) = Some ly;
  px_type : ∀ b2', length b2' = length b2 → parse_ethertype (pe ++ b2') = Some (fl F_dl_type, b2');
  px_other : ∀ b2' ly', Forall is_u8 b2' → length b2' = length b2 → parse_layers (pe ++ b2') = Some ly' →
    parsed (markers (pre ++ b2') ly') key (overlay_of early e (ly_flow ly'))
}.

Lemma parsed_prefixed p key fl :
  parsed p key fl → fl F_dl_type ≠ FLOW_DL_TYPE_NONE → ∃ pre pe b2 ly e, prefixed p key fl pre pe b2 ly e.
Proof.
  intros H Hn. pose proof H as (Hb & Hl & _). apply parsed_parts in H as (src & dst & b & tci & ly & Hpt).
  pose proof (flow_late _ _ _ _ _ _ _ _ F_dl_type Hpt eq_refl) as Hty. destruct Hpt as [E1 E2 E3 E4 Hp Hfl]. set (d := ob_data p) in *.
  destruct (parse_ethertype b) as [[t b2]|] eqn:Ee; [|unfold parse_layers in E4; by rewrite Ee in E4].
  rewrite (layers_type _ _ _ _ Ee E4) in Hty. rewrite Hty in Hn.
  destruct (parse_ethertype_frame _ _ _ Ee Hn) as (pe & -> & Hpe & He'). destruct (split_vlan_frame _ _ _ E3) as (pv & Ev & Hv').
  assert (Hd : d = (take 12 d ++ pv ++ pe) ++ b2) by (rewrite <- (take_drop 12 d) at 1; by rewrite Ev, <- !app_assoc).
  set (pre := take 12 d ++ pv ++ pe) in *. assert (H12 : length (take 12 d) = 12%nat) by (rewrite length_take; lia).
  assert (Hpre : (14 ≤ length pre)%nat) by (unfold pre; rewrite !length_app; lia).
  rewrite Hd in Hb. apply Forall_app in Hb as [Hb1 Hb2]. rewrite Hd in E1, E2. rewrite rd_app_l in E1, E2 by lia.
  exists pre, pe, b2, ly, (early_flow (metadata_of key) src dst tci). split; [done|done|by rewrite <- Hd|done|done|by rewrite Hty|].
  intros b2' ly' Hb2' Hl2' Hpar. apply (parts_parsed _ _ _ src dst (pe ++ b2') tci ly'); cbn [ob_data markers].
  { by apply Forall_app_2. }
  { rewrite length_app. lia. }
  split; cbn [ob_data markers]; [by rewrite rd_app_l by lia|by rewrite rd_app_l by lia| |done|done|done].
  unfold pre. rewrite <- !app_assoc, drop_app_length' by done. apply Hv'; [by rewrite !length_app, Hl2'|]. by rewrite !rd_app_l by lia.
Qed.

Lemma parsed_framed p key fl :
  parsed p key fl → fl F_dl_type ≠ FLOW_DL_TYPE_NONE → eth_type_mpls (fl F_dl_type) = false →
  ∃ pre b3 l4 l7 r e, framed p key fl pre b3 l4 l7 r e.
Proof.
  intros H Hn Hm. destruct (parsed_prefixed p key fl H Hn) as (pre & pe & b2 & ly & e & [P1 P2 P3 P4 P5 P6 P7]).
  apply (layers_plain _ _ _ _ (P6 b2 eq_refl) Hm) in P5 as (l4 & l7 & r & E & ->).
  exists pre, b2, l4, l7, r, e. split; [done..|]. intros b3' l4' l7' r' Hb Hl Hpar.
  apply (P7 b3' (Layers None b3' l4' l7' r')); [done|done|]. apply (layers_plain _ _ _ _ (P6 b3' Hl) Hm). by exists l4', l7', r'.
Qed.
