(* ===== verification/PacketIp.v ===== *)
(** * Changing network and transport headers

    [packet_set_ipv4], [packet_set_ipv6] and the functions that set ports, on
    the bytes of the headers: the fields that they set, those that they keep,
    and the checksums. *)
From stdpp Require Import list.
From S2P Require Import Prelude ByteOrder FlowLayout Hash Bitwise MatchFields MetaFlow OdpActions Csum Packets PacketBytes PacketView PacketExec PacketFrame.

(** ** Access by markers *)

(** The packet is what comes before the network header, that header, and what
    follows, and has its markers there. *)
Record at_l3 (p : ofpbuf) (pre nh lb : list Z) : Prop := {
  at_data : ob_data p = pre ++ nh ++ lb;
  at_m3 : ob_l3 p = Some (Z.of_nat (length pre));
  at_m4 : ob_l4 p = Some (Z.of_nat (length pre + length nh))
}.

Lemma at_set p pre nh lb nh' lb' : at_l3 p pre nh lb → length nh' = length nh → at_l3 (set_data (pre ++ nh' ++ lb') p) pre nh' lb'.
Proof. intros [H1 H3 H4] Hl. split; [done|done|]. cbn. by rewrite Hl. Qed.

Lemma at_rd3 p pre nh lb ofs len : at_l3 p pre nh lb → (ofs + len ≤ length nh)%nat → rdm (ob_l3 p) ofs len p = Some (fld nh ofs len).
Proof. intros [H1 H3 H4] Hl. by rewrite H3, rdm_at, H1, (rd_app_r _ _ pre), rd_app_l, rd_fld. Qed.

Lemma at_wr3 p pre nh lb ofs len v :
  at_l3 p pre nh lb → (ofs + len ≤ length nh)%nat →
  wrm (ob_l3 p) ofs len v p = Some (set_data (pre ++ put ofs (be_bytes len v) nh ++ lb) p).
Proof.
  intros [H1 H3 H4] Hl. rewrite H3, wrm_at, H1 by (rewrite H1, !length_app; lia). do 2 f_equal.
  rewrite (put_app_r _ _ pre), put_app_l by (rewrite ?length_be_bytes; lia). done.
Qed.

Lemma at_rd4 p pre nh lb ofs len : at_l3 p pre nh lb → (ofs + len ≤ length lb)%nat → rdm (ob_l4 p) ofs len p = Some (fld lb ofs len).
Proof. intros [H1 H3 H4] Hl. by rewrite H4, rdm_at, H1, <- Nat.add_assoc, (rd_app_r _ _ pre), (rd_app_r _ _ nh), rd_fld. Qed.

Lemma at_wr4 p pre nh lb ofs len v :
  at_l3 p pre nh lb → (ofs + len ≤ length lb)%nat →
  wrm (ob_l4 p) ofs len v p = Some (set_data (pre ++ nh ++ put ofs (be_bytes len v) lb) p).
Proof.
  intros [H1 H3 H4] Hl. rewrite H4, wrm_at, H1 by (rewrite H1, !length_app; lia). do 2 f_equal.
  by rewrite <- Nat.add_assoc, (put_app_r _ _ pre), (put_app_r _ _ nh).
Qed.

Lemma set_data_twice d d' p : set_data d' (set_data d p) = set_data d' p.
Proof. done. Qed.

Lemma set_data_same p : set_data (ob_data p) p = p.
Proof. by destruct p. Qed.

(** ** The IPv4 header *)

(** One field set, with the checksum at [csum_ofs] updated for it. *)
Record field_step (csum_ofs ofs len : nat) (v : Z) (h h' : list Z) : Prop := {
  fs_length : length h' = length h;
  fs_bytes : Forall is_u8 h';
  fs_value : fld h' ofs len = v;
  fs_other : ∀ o l, (o + l ≤ length h)%nat → (o + l ≤ ofs ∨ ofs + len ≤ o)%nat → (o + l ≤ csum_ofs ∨ csum_ofs + 2 ≤ o)%nat → fld h' o l = fld h o l;
  fs_sum : csum_eq (word_sum h') (word_sum h)
}.

Lemma field_step_refl csum_ofs ofs len h : Forall is_u8 h → field_step csum_ofs ofs len (fld h ofs len) h h.
Proof. by split. Qed.

(** Writing the field and a checksum that makes up for it. *)
Lemma field_step_put csum_ofs ofs len v c h :
  Forall is_u8 h → (ofs + len ≤ length h)%nat → (csum_ofs + 2 ≤ length h)%nat → (ofs + len ≤ csum_ofs ∨ csum_ofs + 2 ≤ ofs)%nat →
  Nat.even csum_ofs = true → in_width (8 * Z.of_nat len) v → is_u16 c →
  (∀ h1, Forall is_u8 h1 → length h1 = length h → fld h1 ofs len = fld h ofs len →
    csum_eq (word_sum (put ofs (be_bytes len v) h1) + c) (word_sum h1 + fld h csum_ofs 2)) →
  field_step csum_ofs ofs len v h (put ofs (be_bytes len v) (put csum_ofs (be_bytes 2 c) h)).
Proof.
  intros Hb Hl Hc Hd He Hv Hcw Hs. set (h1 := put csum_ofs (be_bytes 2 c) h).
  assert (Hl1 : length h1 = length h) by (apply length_put; rewrite length_be_bytes; lia).
  assert (Hb1 : Forall is_u8 h1) by (apply put_u8; [apply be_bytes_u8|done]).
  split.
  - by rewrite length_put by (rewrite length_be_bytes; lia).
  - apply put_u8; [apply be_bytes_u8|done].
  - rewrite fld_put_same by lia. by apply wrap_id.
  - intros o l Ho Hd1 Hd2. rewrite fld_put_other by (rewrite ?length_be_bytes; lia).
    unfold h1. by rewrite fld_put_other by (rewrite ?length_be_bytes; lia).
  - pose proof (csum_put csum_ofs 2 c h Hb Hc He eq_refl) as E. fold h1 in E. change (8 * Z.of_nat 2) with 16 in E. rewrite wrap_id in E by done.
    specialize (Hs h1 Hb1 Hl1). unfold h1 in Hs at 1. rewrite fld_put_other in Hs by (rewrite ?length_be_bytes; lia). specialize (Hs eq_refl).
    apply csum_eq_elim in E as [k E]. apply csum_eq_elim in Hs as [j Hs]. apply (csum_eq_intro _ _ (k + j)). lia.
Qed.

(** The updates of the code: an address, a port, and the two single bytes of
    the IPv4 header. *)
Lemma step_word32 csum_ofs ofs v h :
  Forall is_u8 h → (ofs + 4 ≤ length h)%nat → (csum_ofs + 2 ≤ length h)%nat → (ofs + 4 ≤ csum_ofs ∨ csum_ofs + 2 ≤ ofs)%nat →
  Nat.even csum_ofs = true → Nat.even ofs = true → is_u32 v →
  field_step csum_ofs ofs 4 v h
    (put ofs (be_bytes 4 v) (put csum_ofs (be_bytes 2 (recalc_csum32 (fld h csum_ofs 2) (fld h ofs 4) v)) h)).
Proof.
  intros Hb Hl Hc Hd He Ho Hv. destruct (recalc_csum32_spec (fld h csum_ofs 2) (fld h ofs 4) v) as [Hu Hr]; [by apply fld_width..|done|].
  apply field_step_put; try done. intros h1 Hb1 Hl1 Hf. pose proof (csum_put ofs 4 v h1 Hb1) as E. rewrite Hl1, Hf in E. specialize (E Hl Ho eq_refl).
  change (8 * Z.of_nat 4) with 32 in E. rewrite wrap_id in E by done.
  apply csum_eq_elim in E as [k E]. apply csum_eq_elim in Hr as [j Hr]. apply (csum_eq_intro _ _ (k + j)). lia.
Qed.

Lemma step_word16 csum_ofs ofs v h :
  Forall is_u8 h → (ofs + 2 ≤ length h)%nat → (csum_ofs + 2 ≤ length h)%nat → (ofs + 2 ≤ csum_ofs ∨ csum_ofs + 2 ≤ ofs)%nat →
  Nat.even csum_ofs = true → Nat.even ofs = true → is_u16 v →
  field_step csum_ofs ofs 2 v h
    (put ofs (be_bytes 2 v) (put csum_ofs (be_bytes 2 (recalc_csum16 (fld h csum_ofs 2) (fld h ofs 2) v)) h)).
Proof.
  intros Hb Hl Hc Hd He Ho Hv. destruct (recalc_csum16_spec (fld h csum_ofs 2) (fld h ofs 2) v) as [Hu Hr]; [by apply fld_width..|done|].
  apply field_step_put; try done. intros h1 Hb1 Hl1 Hf. pose proof (csum_put ofs 2 v h1 Hb1) as E. rewrite Hl1, Hf in E. specialize (E Hl Ho eq_refl).
  change (8 * Z.of_nat 2) with 16 in E. rewrite wrap_id in E by done.
  apply csum_eq_elim in E as [k E]. apply csum_eq_elim in Hr as [j Hr]. apply (csum_eq_intro _ _ (k + j)). lia.
Qed.

Lemma step_tos v h :
  Forall is_u8 h → (20 ≤ length h)%nat → is_u8 v →
  field_step 10 1 1 v h (put 1 (be_bytes 1 v) (put 10 (be_bytes 2 (recalc_csum16 (fld h 10 2) (fld h 1 1) v)) h)).
Proof.
  intros Hb Hl Hv. assert (Hold : is_u8 (fld h 1 1)) by (apply (fld_width 1 1); [done|lia]).
  destruct (recalc_csum16_spec (fld h 10 2) (fld h 1 1) v) as [Hu Hr]; [apply fld_width; [done|lia]|by apply (in_width_mono 8)..|].
  apply field_step_put; try done; try lia. intros h1 Hb1 Hl1 Hf. pose proof (sum_put_byte 1 v h1 Hb1) as E. rewrite Hl1, Hf in E.
  specialize (E ltac:(lia)). cbn [Nat.even] in E. rewrite wrap_id in E by done.
  apply csum_eq_elim in Hr as [j Hr]. apply (csum_eq_intro _ _ j). lia.
Qed.

Lemma shiftl8_u16 x : is_u8 x → is_u16 (Z.shiftl x 8) ∧ Z.shiftl x 8 = x * 256.
Proof. intros Hx. rewrite Z.shiftl_mul_pow2 by lia. unfold in_width in *. change (2 ^ 8) with 256 in *. change (2 ^ 16) with 65536. lia. Qed.

Lemma step_ttl v h :
  Forall is_u8 h → (20 ≤ length h)%nat → is_u8 v →
  field_step 10 8 1 v h
    (put 8 (be_bytes 1 v) (put 10 (be_bytes 2 (recalc_csum16 (fld h 10 2) (Z.shiftl (fld h 8 1) 8) (Z.shiftl v 8))) h)).
Proof.
  intros Hb Hl Hv. assert (Hold : is_u8 (fld h 8 1)) by (apply (fld_width 8 1); [done|lia]).
  destruct (shiftl8_u16 _ Hold) as [S1 S2], (shiftl8_u16 _ Hv) as [S3 S4].
  destruct (recalc_csum16_spec (fld h 10 2) (Z.shiftl (fld h 8 1) 8) (Z.shiftl v 8)) as [Hu Hr]; [apply fld_width; [done|lia]|done..|].
  apply field_step_put; try done; try lia. intros h1 Hb1 Hl1 Hf. pose proof (sum_put_byte 8 v h1 Hb1) as E. rewrite Hl1, Hf in E.
  specialize (E ltac:(lia)). cbn [Nat.even] in E. rewrite wrap_id in E by done.
  apply csum_eq_elim in Hr as [j Hr]. apply (csum_eq_intro _ _ j). lia.
Qed.

(** ** The transport checksum when an address changes *)

(** The offset of the checksum of a transport header that includes the
    addresses. *)
Definition l4_csum_ofs (proto : Z) : option nat :=
  if proto =? IPPROTO_TCP then Some 16%nat else if proto =? IPPROTO_UDP then Some 6%nat else None.

Definition l4_fits (proto : Z) (l7 : bool) (lb : list Z) : Prop :=
  l7 = true → (proto = IPPROTO_TCP → (20 ≤ length lb)%nat) ∧ (proto = IPPROTO_UDP → (8 ≤ length lb)%nat).

(** From an old to a new value of a part of the addresses. *)
Record l4_step (proto : Z) (l7 : bool) (old new : Z) (lb lb' : list Z) : Prop := {
  ls_length : length lb' = length lb;
  ls_bytes : Forall is_u8 lb';
  ls_other : ∀ o l, (o + l ≤ length lb)%nat → (∀ c, l4_csum_ofs proto = Some c → o + l ≤ c ∨ c + 2 ≤ o)%nat → fld lb' o l = fld lb o l;
  ls_tail : ∀ n c, l4_csum_ofs proto = Some c → (c + 2 ≤ n)%nat → drop n lb' = drop n lb;
  ls_none : l7 = false ∨ l4_csum_ofs proto = None → lb' = lb;
  ls_tcp : proto = IPPROTO_TCP → l7 = true → csum_eq (new + word_sum lb') (old + word_sum lb);
  ls_udp : proto = IPPROTO_UDP → l7 = true →
    if fld lb 6 2 =? 0 then lb' = lb else fld lb' 6 2 ≠ 0 ∧ csum_eq (new + word_sum lb') (old + word_sum lb)
}.

Lemma l4_step_refl proto l7 a lb : Forall is_u8 lb → l4_step proto l7 a a lb lb.
Proof. intros Hb. split; try done. intros _ _. by destruct (Z.eqb_spec (fld lb 6 2) 0). Qed.

Lemma l4_step_trans proto l7 old new old' new' lb lb1 lb2 :
  l4_step proto l7 old new lb lb1 → l4_step proto l7 old' new' lb1 lb2 → l4_step proto l7 (old + old') (new + new') lb lb2.
Proof.
  intros [L1 B1 O1 T1 N1 S1 U1] [L2 B2 O2 T2 N2 S2 U2]. split; [congruence|done|..].
  - intros o l Ho Hc. rewrite O2, O1 by (rewrite ?L1; done). done.
  - intros n c Hc Hn. by rewrite (T2 n c), (T1 n c).
  - intros H. by rewrite N2, N1.
  - intros Ht H7. specialize (S1 Ht H7). specialize (S2 Ht H7). apply csum_eq_elim in S1 as [k S1]. apply csum_eq_elim in S2 as [j S2].
    apply (csum_eq_intro _ _ (k + j)). lia.
  - intros Hu H7. specialize (U1 Hu H7). specialize (U2 Hu H7). destruct (Z.eqb_spec (fld lb 6 2) 0) as [E|E].
    + subst lb1. by rewrite E in U2.
    + destruct U1 as [Hn U1]. rewrite (proj2 (Z.eqb_neq _ _) Hn) in U2. destruct U2 as [Hn2 U2]. split; [done|].
      apply csum_eq_elim in U1 as [k U1]. apply csum_eq_elim in U2 as [j U2]. apply (csum_eq_intro _ _ (k + j)). lia.
Qed.

(** What the code does to the transport header, with the update of a checksum. *)
Definition l4_update (proto : Z) (l7 : bool) (recalc : Z → Z) (lb : list Z) : list Z :=
  if (proto =? IPPROTO_TCP) && l7 then put 16 (be_bytes 2 (recalc (fld lb 16 2))) lb
  else if (proto =? IPPROTO_UDP) && l7 then
    if fld lb 6 2 =? 0 then lb else put 6 (be_bytes 2 (udp_csum_nonzero (recalc (fld lb 6 2)))) lb
  else lb.

Lemma udp_csum_nonzero_spec c : is_u16 c → is_u16 (udp_csum_nonzero c) ∧ udp_csum_nonzero c ≠ 0 ∧ csum_eq (udp_csum_nonzero c) c.
Proof. intros Hc. unfold udp_csum_nonzero. destruct (Z.eqb_spec c 0) as [->|Hn]; [split_and!; [by split|done|by constructor]|done]. Qed.

(** Replacing the checksum [c0] at [ofs] by [c]. *)
Lemma l4_put_step (ofs : nat) c old new lb :
  Forall is_u8 lb → (ofs + 2 ≤ length lb)%nat → Nat.even ofs = true → is_u16 c → csum_eq (c + new) (fld lb ofs 2 + old) →
  let lb' := put ofs (be_bytes 2 c) lb in
  length lb' = length lb ∧ Forall is_u8 lb' ∧ fld lb' ofs 2 = c ∧ csum_eq (new + word_sum lb') (old + word_sum lb)
  ∧ (∀ o l, (o + l ≤ length lb)%nat → (o + l ≤ ofs ∨ ofs + 2 ≤ o)%nat → fld lb' o l = fld lb o l)
  ∧ (∀ n, (ofs + 2 ≤ n)%nat → drop n lb' = drop n lb).
Proof.
  intros Hb Hl He Hc Hs lb'. split; [apply length_put; rewrite length_be_bytes; lia|]. split; [apply put_u8; [apply be_bytes_u8|done]|].
  split; [unfold lb'; rewrite fld_put_same by done; by apply wrap_id|]. split.
  - pose proof (csum_put ofs 2 c lb Hb Hl He eq_refl) as E. fold lb' in E. change (8 * Z.of_nat 2) with 16 in E. rewrite wrap_id in E by done.
    apply csum_eq_elim in E as [k E]. apply csum_eq_elim in Hs as [j Hs]. apply (csum_eq_intro _ _ (k + j)). lia.
  - split; [intros; apply fld_put_other; rewrite ?length_be_bytes; lia|intros; apply drop_put; rewrite ?length_be_bytes; lia].
Qed.

Lemma l4_update_step proto l7 recalc old new lb :
  Forall is_u8 lb → l4_fits proto l7 lb → (∀ c, is_u16 c → is_u16 (recalc c) ∧ csum_eq (recalc c + new) (c + old)) →
  l4_step proto l7 old new lb (l4_update proto l7 recalc lb).
Proof.
  intros Hb Hf Hr. unfold l4_update. destruct l7; [destruct Hf as [Ht Hu]; [done|]|rewrite !andb_false_r; by split].
  rewrite !andb_true_r. destruct (Z.eqb_spec proto IPPROTO_TCP) as [->|Hnt].
  { specialize (Ht eq_refl). destruct (Hr (fld lb 16 2)) as [R1 R2]; [apply fld_width; [done|lia]|].
    destruct (l4_put_step 16 (recalc (fld lb 16 2)) old new lb) as (L & B & V & S & O & T); [done|lia|done..|].
    split; [done|done|intros o l Ho Hc; apply O; [done|by apply Hc]|intros n c [= <-] Hn; by apply T|by intros []|done|done]. }
  destruct (Z.eqb_spec proto IPPROTO_UDP) as [->|Hnu].
  { specialize (Hu eq_refl). destruct (Z.eqb_spec (fld lb 6 2) 0) as [E|E]; [split; try done; by rewrite E|].
    destruct (Hr (fld lb 6 2)) as [R1 R2]; [apply fld_width; [done|lia]|]. destruct (udp_csum_nonzero_spec _ R1) as (N1 & N2 & N3).
    destruct (l4_put_step 6 (udp_csum_nonzero (recalc (fld lb 6 2))) old new lb) as (L & B & V & S & O & T); [done|lia|done|done|by rewrite N3|].
    split; [done|done|intros o l Ho Hc; apply O; [done|by apply Hc]|intros n c [= <-] Hn; by apply T|by intros []|done|].
    intros _ _. by rewrite (proj2 (Z.eqb_neq _ _) E), V. }
  split; try done.
Qed.

(** ** packet_set_ipv4() *)

Definition has_l7 (p : ofpbuf) : bool := bool_decide (is_Some (ob_l7 p)).

Lemma packet_set_ipv4_addr_spec p pre nh lb ofs new :
  at_l3 p pre nh lb → (20 ≤ length nh)%nat → ofs = 12%nat ∨ ofs = 16%nat → l4_fits (fld nh 9 1) (has_l7 p) lb →
  packet_set_ipv4_addr p ofs new =
    Some (set_data (pre ++ put ofs (be_bytes 4 new) (put 10 (be_bytes 2 (recalc_csum32 (fld nh 10 2) (fld nh ofs 4) new)) nh)
                    ++ l4_update (fld nh 9 1) (has_l7 p) (λ c, recalc_csum32 c (fld nh ofs 4) new) lb) p).
Proof.
  intros Hat Hl Hofs Hf. assert (Ho : (12 ≤ ofs ∧ ofs + 4 ≤ 20)%nat) by (destruct Hofs; lia). unfold packet_set_ipv4_addr.
  cbn zeta. rewrite (at_rd3 _ _ _ _ ofs 4 Hat) by lia. cbn [mbind option_bind]. rewrite (at_rd3 _ _ _ _ 9 1 Hat) by lia. cbn [mbind option_bind].
  fold (has_l7 p).
  set (old := fld nh ofs 4). set (lb' := l4_update _ _ _ _).
  match goal with |- ?m ≫= _ = _ => assert (E : m = Some (set_data (pre ++ nh ++ lb') p)) end.
  { unfold lb', l4_update. destruct (has_l7 p) eqn:E7.
    - destruct Hf as [Ht Hu]; [done|]. rewrite !andb_true_r. destruct (Z.eqb_spec (fld nh 9 1) IPPROTO_TCP) as [E|_].
      { specialize (Ht E). rewrite (at_rd4 _ _ _ _ _ _ Hat) by lia. cbn [mbind option_bind]. by rewrite (at_wr4 _ _ _ _ _ _ _ Hat) by lia. }
      destruct (Z.eqb_spec (fld nh 9 1) IPPROTO_UDP) as [E|_].
      { specialize (Hu E). rewrite (at_rd4 _ _ _ _ _ _ Hat) by lia. cbn [mbind option_bind]. destruct (_ =? 0); cbn [negb].
        - by rewrite <- (at_data _ _ _ _ Hat), set_data_same.
        - by rewrite (at_wr4 _ _ _ _ _ _ _ Hat) by lia. }
      by rewrite <- (at_data _ _ _ _ Hat), set_data_same.
    - rewrite !andb_false_r. by rewrite <- (at_data _ _ _ _ Hat), set_data_same. }
  rewrite E. cbn [mbind option_bind]. set (p1 := set_data (pre ++ nh ++ lb') p). assert (Hat1 : at_l3 p1 pre nh lb') by by apply (at_set p pre nh lb).
  change (ob_l3 p) with (ob_l3 p1). rewrite (at_rd3 _ _ _ _ _ _ Hat1) by lia. cbn [mbind option_bind].
  rewrite (at_wr3 _ _ _ _ _ _ _ Hat1) by lia. cbn [mbind option_bind]. set (nh1 := put 10 _ nh).
  assert (Hl1 : length nh1 = length nh) by (apply length_put; rewrite length_be_bytes; lia).
  pose proof (at_set _ _ _ _ nh1 lb' Hat1 Hl1) as Hat2. set (p2 := set_data (pre ++ nh1 ++ lb') p1) in *.
  change (ob_l3 p1) with (ob_l3 p2). rewrite (at_wr3 _ _ _ _ _ _ _ Hat2) by lia. done.
Qed.

Lemma set_addr_if p pre nh lb ofs new :
  at_l3 p pre nh lb → Forall is_u8 nh → Forall is_u8 lb → (20 ≤ length nh)%nat → ofs = 12%nat ∨ ofs = 16%nat → is_u32 new →
  l4_fits (fld nh 9 1) (has_l7 p) lb →
  ∃ nh' lb', (if negb (fld nh ofs 4 =? new) then packet_set_ipv4_addr p ofs new else Some p) = Some (set_data (pre ++ nh' ++ lb') p)
    ∧ field_step 10 ofs 4 new nh nh' ∧ l4_step (fld nh 9 1) (has_l7 p) (fld nh ofs 4) new lb lb'.
Proof.
  intros Hat Hb1 Hb2 Hl Hofs Hn Hf. destruct (Z.eqb_spec (fld nh ofs 4) new) as [<-|Hne]; cbn [negb].
  - exists nh, lb. split; [by rewrite <- (at_data _ _ _ _ Hat), set_data_same|]. split; [by apply field_step_refl|by apply l4_step_refl].
  - rewrite packet_set_ipv4_addr_spec with (pre := pre) (nh := nh) (lb := lb) by done. eexists _, _. split; [done|].
    split; [by apply step_word32; destruct Hofs; subst; first [done|lia]|]. apply l4_update_step; [done|done|].
    intros c Hc. apply recalc_csum32_spec; [done| |done]. apply (fld_width ofs 4); [done|destruct Hofs; lia].
Qed.

(** A byte of the header. *)
Lemma set_byte_if p pre nh lb ofs new c :
  at_l3 p pre nh lb → Forall is_u8 nh → (20 ≤ length nh)%nat → (ofs < 20)%nat →
  field_step 10 ofs 1 new nh (put ofs (be_bytes 1 new) (put 10 (be_bytes 2 (c (fld nh 10 2))) nh)) →
  ∃ nh', (if negb (fld nh ofs 1 =? new) then
            csum ← rdm (ob_l3 p) 10 2 p; p' ← wrm (ob_l3 p) 10 2 (c csum) p; wrm (ob_l3 p) ofs 1 new p'
          else Some p) = Some (set_data (pre ++ nh' ++ lb) p)
    ∧ field_step 10 ofs 1 new nh nh'.
Proof.
  intros Hat Hb Hl Ho Hs. destruct (Z.eqb_spec (fld nh ofs 1) new) as [<-|Hne]; cbn [negb].
  - exists nh. split; [by rewrite <- (at_data _ _ _ _ Hat), set_data_same|]. by apply field_step_refl.
  - rewrite (at_rd3 _ _ _ _ 10 2 Hat) by lia. cbn [mbind option_bind]. rewrite (at_wr3 _ _ _ _ _ _ _ Hat) by lia. cbn [mbind option_bind].
    set (nh1 := put 10 _ nh) in *. assert (Hl1 : length nh1 = length nh) by (apply length_put; rewrite length_be_bytes; lia).
    pose proof (at_set _ _ _ _ nh1 lb Hat Hl1) as Hat1. set (p1 := set_data (pre ++ nh1 ++ lb) p) in *.
    change (ob_l3 p) with (ob_l3 p1). rewrite (at_wr3 _ _ _ _ _ _ _ Hat1) by lia. by eexists.
Qed.

(** The whole header: the new fields, the others and the sums. *)
Record ipv4_changed (l7 : bool) (src dst tos ttl : Z) (nh lb nh' lb' : list Z) : Prop := {
  ic_length : length nh' = length nh;
  ic_bytes : Forall is_u8 nh';
  ic_src : fld nh' 12 4 = src;
  ic_dst : fld nh' 16 4 = dst;
  ic_tos : fld nh' 1 1 = tos;
  ic_ttl : fld nh' 8 1 = ttl;
  ic_other : ∀ o l, (o + l ≤ length nh)%nat → (o + l ≤ 1 ∨ 2 ≤ o ∧ o + l ≤ 8 ∨ 9 ≤ o ∧ o + l ≤ 10 ∨ 20 ≤ o)%nat → fld nh' o l = fld nh o l;
  ic_sum : csum_eq (word_sum nh') (word_sum nh);
  ic_l4 : l4_step (fld nh 9 1) l7 (fld nh 12 4 + fld nh 16 4) (src + dst) lb lb'
}.

Lemma packet_set_ipv4_spec p pre nh lb src dst tos ttl :
  at_l3 p pre nh lb → Forall is_u8 nh → Forall is_u8 lb → (20 ≤ length nh)%nat →
  is_u32 src → is_u32 dst → is_u8 tos → is_u8 ttl → l4_fits (fld nh 9 1) (has_l7 p) lb →
  ∃ nh' lb', packet_set_ipv4 p src dst tos ttl = Some (set_data (pre ++ nh' ++ lb') p) ∧ ipv4_changed (has_l7 p) src dst tos ttl nh lb nh' lb'.
Proof.
  intros Hat Hb1 Hb2 Hl Hs Hd Ht Hu Hf. unfold packet_set_ipv4. cbn zeta.
  rewrite (at_rd3 _ _ _ _ 12 4 Hat) by lia. cbn [mbind option_bind].
  destruct (set_addr_if p pre nh lb 12 src) as (nh1 & lb1 & -> & F1 & L1); [by (done || left)..|]. cbn [mbind option_bind].
  pose proof F1 as [Fl1 Fb1 _ Fo1 _]. pose proof L1 as [Ll1 Lb1 _ _ _ _ _].
  pose proof (at_set _ _ _ _ nh1 lb1 Hat Fl1) as Hat1. set (p1 := set_data (pre ++ nh1 ++ lb1) p) in *. change (ob_l3 p) with (ob_l3 p1).
  rewrite (at_rd3 _ _ _ _ 16 4 Hat1) by lia. cbn [mbind option_bind].
  assert (E9 : fld nh1 9 1 = fld nh 9 1) by (apply Fo1; lia).
  destruct (set_addr_if p1 pre nh1 lb1 16 dst) as (nh2 & lb2 & -> & F2 & L2); [by (done || right || lia)..| |].
  { rewrite E9. unfold l4_fits. rewrite Ll1. exact Hf. }
  cbn [mbind option_bind]. change (has_l7 p1) with (has_l7 p) in L2. rewrite E9 in L2. pose proof F2 as [Fl2 Fb2 _ Fo2 _]. pose proof L2 as [Ll2 Lb2 _ _ _ _ _].
  rewrite Fl1 in Fl2, Fo2. pose proof (at_set p _ _ _ nh2 lb2 Hat Fl2) as Hat2. change (set_data _ p1) with (set_data (pre ++ nh2 ++ lb2) p).
  set (p2 := set_data (pre ++ nh2 ++ lb2) p) in *. change (ob_l3 p1) with (ob_l3 p2).
  rewrite (at_rd3 _ _ _ _ 1 1 Hat2) by lia. cbn [mbind option_bind].
  destruct (set_byte_if p2 pre nh2 lb2 1 tos (λ c, recalc_csum16 c (fld nh2 1 1) tos)) as (nh3 & -> & F3); [done|done|lia|lia|apply step_tos; [done|lia|done]|].
  cbn [mbind option_bind]. pose proof F3 as [Fl3 Fb3 _ Fo3 _]. rewrite Fl2 in Fl3, Fo3.
  pose proof (at_set p _ _ _ nh3 lb2 Hat Fl3) as Hat3. change (set_data _ p2) with (set_data (pre ++ nh3 ++ lb2) p).
  set (p3 := set_data (pre ++ nh3 ++ lb2) p) in *. change (ob_l3 p2) with (ob_l3 p3).
  rewrite (at_rd3 _ _ _ _ 8 1 Hat3) by lia. cbn [mbind option_bind].
  destruct (set_byte_if p3 pre nh3 lb2 8 ttl (λ c, recalc_csum16 c (Z.shiftl (fld nh3 8 1) 8) (Z.shiftl ttl 8))) as (nh4 & -> & F4);
    [done|done|lia|lia|apply step_ttl; [done|lia|done]|].
  exists nh4, lb2. split; [done|]. pose proof F4 as [Fl4 Fb4 _ Fo4 _]. rewrite Fl3 in Fl4, Fo4. split; [done|done|..].
  - rewrite Fo4, Fo3, Fo2 by lia. apply F1.
  - rewrite Fo4, Fo3 by lia. apply F2.
  - rewrite Fo4 by lia. apply F3.
  - apply F4.
  - intros o l Ho Hd1. rewrite Fo4, Fo3, Fo2, Fo1 by lia. done.
  - rewrite (fs_sum _ _ _ _ _ _ F4), (fs_sum _ _ _ _ _ _ F3), (fs_sum _ _ _ _ _ _ F2). apply F1.
  - rewrite (Fo1 16%nat 4%nat) in L2 by lia. by apply (l4_step_trans _ _ _ _ _ _ _ lb1).
Qed.
