(* ===== verification/PacketL3.v ===== *)
(** * Actions on network and transport headers

    A packet that parses to a flow parses, after the functions of PacketIp.v,
    to the flow with the fields set. *)
From stdpp Require Import list.
From S2P Require Import Prelude ByteOrder FlowLayout Hash Bitwise MatchFields MetaFlow OdpActions Csum Packets PacketBytes PacketView PacketExec PacketFrame PacketIp.

(** ** Transport headers *)

Definition tcp_len (b : list Z) : nat := (Z.to_nat (Z.shiftr (fld b 12 2) 12) * 4)%nat.
Definition tcp_ok (b : list Z) : bool := ((20 <=? length b) && ((20 <=? tcp_len b) && (tcp_len b <=? length b)))%nat.
Definition port_fields_of (b : list Z) : list (MatchFields.field * Z) := [(F_tp_src, fld b 0 2); (F_tp_dst, fld b 2 2)].

Lemma parse_tcp_form b fl :
  parse_tcp b fl = if tcp_ok b then Some (Some (drop (tcp_len b) b), set_fields (port_fields_of b ++ [(F_tcp_flags, Z.land (fld b 12 2) 0x0fff)]) fl)
                   else Some (None, fl).
Proof.
  unfold parse_tcp, pull_tcp, tcp_ok. destruct (Nat.leb_spec 20 (length b)) as [Hl|]; [|done]. rewrite (rd_fld 12 2) by lia. cbn [mbind option_bind andb].
  fold (tcp_len b). destruct (_ && _) eqn:E; [|done]. apply andb_true_iff in E as [E1 E2]. apply Nat.leb_le in E1, E2.
  unfold ofpbuf_pull. rewrite (proj2 (Nat.leb_le _ _)) by done. cbn [fmap option_fmap option_map mbind option_bind].
  rewrite !rd_take, !rd_fld by lia. done.
Qed.

Lemma parse_udp_form b fl :
  parse_udp b fl = if (8 <=? length b)%nat then Some (Some (drop 8 b), set_fields (port_fields_of b) fl) else Some (None, fl).
Proof.
  unfold parse_udp, ofpbuf_try_pull. destruct (Nat.leb_spec 8 (length b)) as [Hl|]; [|done]. by rewrite !rd_take, !rd_fld by lia.
Qed.

Lemma parse_sctp_form b fl :
  parse_sctp b fl = if (12 <=? length b)%nat then Some (Some (drop 12 b), set_fields (port_fields_of b) fl) else Some (None, fl).
Proof.
  unfold parse_sctp, ofpbuf_try_pull. destruct (Nat.leb_spec 12 (length b)) as [Hl|]; [|done]. by rewrite !rd_take, !rd_fld by lia.
Qed.

Lemma parse_l4_fits v6 proto b fl l7 r : parse_l4 v6 proto b fl = Some (l7, r) → l4_fits proto (bool_decide (is_Some l7)) b.
Proof.
  intros H H7. apply bool_decide_eq_true in H7 as [l ->]. unfold parse_l4 in H. split; intros ->.
  - cbn in H. rewrite parse_tcp_form in H. unfold tcp_ok in H. destruct (Nat.leb_spec 20 (length b)); [done|discriminate].
  - cbn in H. rewrite parse_udp_form in H. destruct (Nat.leb_spec 8 (length b)); [done|discriminate].
Qed.

(** Updating the checksum changes nothing that is parsed. *)
Lemma parse_l4_step v6 proto b b' old new fl l7 r :
  parse_l4 v6 proto b fl = Some (l7, r) → l4_step proto (bool_decide (is_Some l7)) old new b b' → parse_l4 v6 proto b' fl = Some (l7, r).
Proof.
  intros H [Hl Hb Ho Ht Hn _ _]. pose proof (parse_l4_fits _ _ _ _ _ _ H) as Hf. case_bool_decide as E7; [|rewrite Hn; [done|by left]].
  destruct (Hf eq_refl) as [F1 F2]. clear Hf. unfold parse_l4 in *. destruct (Z.eqb_spec proto IPPROTO_TCP) as [->|].
  { specialize (F1 eq_refl). assert (E : ∀ o l, (o + l ≤ 16)%nat → fld b' o l = fld b o l) by (intros o l Hol; apply Ho; [lia|intros c [= <-]; lia]).
    rewrite parse_tcp_form in *. unfold tcp_ok, tcp_len, port_fields_of in *. rewrite !E, Hl by lia. destruct (_ && _) eqn:Eo; [|done].
    apply andb_true_iff in Eo as [_ Eo]. apply andb_true_iff in Eo as [Eo _]. apply Nat.leb_le in Eo. by rewrite (Ht _ 16%nat eq_refl) by lia. }
  destruct (Z.eqb_spec proto IPPROTO_UDP) as [->|].
  { specialize (F2 eq_refl). rewrite parse_udp_form in *. unfold port_fields_of in *. rewrite !Ho, (Ht 8%nat 6%nat eq_refl), Hl; [done|lia|lia|intros c [= <-]; lia|lia|intros c [= <-]; lia]. }
  rewrite Hn; [done|]. right. unfold l4_csum_ofs. by rewrite !(proj2 (Z.eqb_neq _ _)).
Qed.

(** ** The IPv4 header *)

Definition ip_hdr (nh : list Z) : Prop := (20 ≤ length nh)%nat ∧ length nh = (Z.to_nat (Z.land (fld nh 0 1) 15) * 4)%nat.

Lemma pull_ip_hdr nh lb : ip_hdr nh → pull_ip (nh ++ lb) = Some (Some (nh, lb)).
Proof.
  intros [H1 H2]. unfold pull_ip. rewrite (proj2 (Nat.leb_le _ _)) by (rewrite length_app; lia).
  rewrite rd_app_l, rd_fld by lia. cbn [mbind option_bind]. rewrite <- H2, (proj2 (Nat.leb_le _ _) H1), (proj2 (Nat.leb_le _ _)) by (rewrite length_app; lia).
  cbn [andb]. unfold ofpbuf_pull. rewrite (proj2 (Nat.leb_le _ _)) by (rewrite length_app; lia). by rewrite take_app_length, drop_app_length.
Qed.

Lemma pull_ip_inv b nh lb : pull_ip b = Some (Some (nh, lb)) → b = nh ++ lb ∧ ip_hdr nh.
Proof.
  unfold pull_ip. destruct (Nat.leb_spec 20 (length b)) as [Hl|]; [|done]. rewrite rd_fld by lia. cbn [mbind option_bind].
  destruct (_ && _) eqn:E; [|done]. apply andb_true_iff in E as [E1 E2]. apply Nat.leb_le in E1, E2.
  unfold ofpbuf_pull. rewrite (proj2 (Nat.leb_le _ _) E2). intros [= <- <-]. rewrite take_drop. split; [done|].
  unfold ip_hdr. rewrite length_take, Nat.min_l by done. split; [done|]. do 3 f_equal. symmetry. apply fld_of_rd. by rewrite rd_take, rd_fld by lia.
Qed.

Definition ip_frag (frag_off old : Z) : Z :=
  if negb (Z.land frag_off (Z.lor IP_MORE_FRAGMENTS IP_FRAG_OFF_MASK) =? 0) then
    if negb (Z.land frag_off IP_FRAG_OFF_MASK =? 0) then Z.lor FLOW_NW_FRAG_ANY FLOW_NW_FRAG_LATER else FLOW_NW_FRAG_ANY
  else old.
Definition ip_fields (nh : list Z) (fl : flowf) : flowf :=
  set_fields [(F_nw_src, fld nh 12 4); (F_nw_dst, fld nh 16 4); (F_nw_proto, fld nh 9 1); (F_nw_tos, fld nh 1 1);
              (F_nw_frag, ip_frag (fld nh 6 2) (fl F_nw_frag)); (F_nw_ttl, fld nh 8 1)] fl.

Lemma parse_l3_ip_form nh lb fl :
  ip_hdr nh →
  parse_l3_ip (nh ++ lb) fl =
    if Z.land (fld nh 6 2) IP_FRAG_OFF_MASK =? 0
    then '(l7, fl) ← parse_l4 false (fld nh 9 1) lb (ip_fields nh fl); Some (Some lb, l7, fl)
    else Some (Some lb, None, ip_fields nh fl).
Proof.
  intros H. unfold parse_l3_ip. rewrite pull_ip_hdr by done. cbn [mbind option_bind]. destruct H as [H _]. by rewrite !rd_fld by lia.
Qed.

Lemma markers_replace d d' b b' lb lb' l7 r r' :
  length d' = length d → length b' = length b → length lb' = length lb →
  set_data d' (markers d (Layers None b (Some lb) l7 r)) = markers d' (Layers None b' (Some lb') l7 r').
Proof. intros H1 H2 H3. unfold set_data, markers. cbn. by rewrite H1, H2, H3. Qed.

Lemma at_l3_markers pre nh lb l7 r : at_l3 (markers (pre ++ nh ++ lb) (Layers None (nh ++ lb) (Some lb) l7 r)) pre nh lb.
Proof. split; [done|..]; cbn; f_equal; rewrite !length_app; lia. Qed.

Lemma has_l7_markers d b l4 l7 r : has_l7 (markers d (Layers None b l4 l7 r)) = bool_decide (is_Some l7).
Proof. unfold has_l7. cbn. apply bool_decide_ext. by rewrite fmap_is_Some. Qed.

(** A packet with a complete IPv4 header. *)
Lemma framed_ip p key fl pre b3 l4 l7 r e :
  framed p key fl pre b3 l4 l7 r e → fl F_dl_type = ETH_TYPE_IP → fl F_nw_proto ≠ 0 →
  ∃ nh lb, b3 = nh ++ lb ∧ ip_hdr nh ∧ l4 = Some lb.
Proof.
  intros Hfr Hty Hpr. pose proof (fr_l3 _ _ _ _ _ _ _ _ _ Hfr) as H. rewrite Hty in H.
  change (parse_l3 b3 (typed_flow ETH_TYPE_IP)) with (parse_l3_ip b3 (typed_flow ETH_TYPE_IP)) in H.
  rewrite (fr_flow _ _ _ _ _ _ _ _ _ Hfr), overlay_late in Hpr by done.
  destruct (pull_ip b3) as [[[nh lb]|]|] eqn:E; [| |unfold parse_l3_ip in H; by rewrite E in H].
  - apply pull_ip_inv in E as [-> Hh]. exists nh, lb. split; [done|]. split; [done|]. rewrite parse_l3_ip_form in H by done.
    destruct (_ =? 0); [|by injection H as <- _ _]. destruct (parse_l4 _ _ _ _) as [[? ?]|]; [|done]. by injection H as <- _ _.
  - unfold parse_l3_ip in H. rewrite E in H. injection H as _ _ <-. done.
Qed.

Definition ipv4_key (src dst tos ttl : Z) : list (MatchFields.field * Z) :=
  [(F_nw_src, src); (F_nw_dst, dst); (F_nw_tos, tos); (F_nw_ttl, ttl)].

Lemma ip_fields_changed l7 src dst tos ttl nh lb nh' lb' fl :
  ip_hdr nh → ipv4_changed l7 src dst tos ttl nh lb nh' lb' → ip_hdr nh' ∧ ip_fields nh' fl = set_fields (ipv4_key src dst tos ttl) (ip_fields nh fl).
Proof.
  intros [H1 H2] [Hl _ <- <- <- <- Ho _ _]. split.
  - split; [lia|]. rewrite Ho by lia. by rewrite Hl.
  - unfold ip_fields. rewrite (Ho 9%nat 1%nat), (Ho 6%nat 2%nat) by lia. apply flow_funext. intros f.
    unfold ipv4_key, set_fields. cbn [foldl fst snd]. unfold upd. repeat case_decide; congruence.
Qed.

(** The flow of the same transport header under another network header. *)
Lemma overlay_l4_set l fl r :
  (∀ f, l4_field f = false → r f = fl f) → Forall (λ p, l4_field p.1 = false) l → overlay_of not_l4 (set_fields l fl) r = set_fields l r.
Proof.
  intros Hr Hl. apply flow_funext. intros f. unfold overlay_of, not_l4.
  assert (Hs : ∀ a b : flowf, (∀ g, l4_field g = false → a g = b g) → (∀ g, l4_field g = false → set_fields l a g = set_fields l b g)
    ∧ (∀ g, l4_field g = true → set_fields l b g = b g)).
  { clear Hr. induction Hl as [|[h v] l Hh Hl IH]; intros a b Hab; [done|]. unfold set_fields in *. cbn [foldl fst snd] in *.
    destruct (IH (upd h v a) (upd h v b)) as [I1 I2]; [intros g Hg; unfold upd; case_decide; [done|by apply Hab]|]. split; [done|].
    intros g Hg. rewrite I2 by done. apply upd_ne. congruence. }
  destruct (Hs fl r) as [S1 S2]; [intros g Hg; by rewrite Hr|]. destruct (l4_field f) eqn:E; cbn [negb]; [by rewrite S2|by apply S1].
Qed.

Lemma parsed_set_ipv4 p key fl src dst tos ttl :
  parsed p key fl → fl F_dl_type = ETH_TYPE_IP → fl F_nw_proto ≠ 0 → is_u32 src → is_u32 dst → is_u8 tos → is_u8 ttl →
  ∃ p', packet_set_ipv4 p src dst tos ttl = Some p' ∧ parsed p' key (set_fields (ipv4_key src dst tos ttl) fl).
Proof.
  intros Hp Hty Hpr Hs Hd Ht Hu. destruct (parsed_framed p key fl) as (pre & b3 & l4 & l7 & r & e & Hfr); [done|by rewrite Hty..|].
  destruct (framed_ip _ _ _ _ _ _ _ _ _ Hfr Hty Hpr) as (nh & lb & -> & Hh & ->). destruct Hfr as [F1 [F2 F3] -> Hfl F5 F6].
  rewrite Hty in F5, F6. change (parse_l3 (nh ++ lb) (typed_flow ETH_TYPE_IP)) with (parse_l3_ip (nh ++ lb) (typed_flow ETH_TYPE_IP)) in F5.
  rewrite parse_l3_ip_form in F5 by done. apply Forall_app in F3 as [Fn Fb].
  set (p := markers _ _) in *. assert (Hat : at_l3 p pre nh lb) by apply at_l3_markers.
  assert (Hf : l4_fits (fld nh 9 1) (has_l7 p) lb).
  { unfold p. rewrite has_l7_markers. destruct (_ =? 0).
    - destruct (parse_l4 _ _ _ _) as [[l7' r']|] eqn:E; [|done]. injection F5 as <- <-. by eapply parse_l4_fits.
    - injection F5 as <- <-. done. }
  destruct (packet_set_ipv4_spec p pre nh lb src dst tos ttl) as (nh' & lb' & -> & Hc); try done; [by destruct Hh|].
  eexists. split; [done|]. destruct (ip_fields_changed _ _ _ _ _ _ _ _ _ (typed_flow ETH_TYPE_IP) Hh Hc) as [Hh' Hfi].
  unfold p in Hc at 1. rewrite has_l7_markers in Hc. destruct Hc as [C1 C2 _ _ _ _ C7 _ C9].
  unfold p. rewrite (markers_replace _ _ _ (nh' ++ lb') _ lb' _ _ (set_fields (ipv4_key src dst tos ttl) r))
    by (rewrite ?length_app, ?C1, ?(ls_length _ _ _ _ _ _ C9); done).
  rewrite Hfl, overlay_set_fields by (repeat constructor).
  apply F6; [by apply Forall_app_2, (ls_bytes _ _ _ _ _ _ C9)|by rewrite !length_app, C1, (ls_length _ _ _ _ _ _ C9)|].
  change (parse_l3 (nh' ++ lb') (typed_flow ETH_TYPE_IP)) with (parse_l3_ip (nh' ++ lb') (typed_flow ETH_TYPE_IP)).
  destruct Hh as [Hh _]. rewrite parse_l3_ip_form, Hfi, (C7 6%nat 2%nat), (C7 9%nat 1%nat) by (done || lia). destruct (_ =? 0).
  - destruct (parse_l4 _ _ lb _) as [[l7' r']|] eqn:E; [|done]. injection F5 as -> ->.
    pose proof (parse_l4_step _ _ _ _ _ _ _ _ _ E C9) as E'.
    rewrite (parse_l4_flow _ _ _ _ _ _ _ E') by (by intros []). cbn [mbind option_bind]. do 2 f_equal.
    apply overlay_l4_set; [|by repeat constructor]. intros f Hf'. by eapply parse_l4_keep.
  - injection F5 as <- <-. done.
Qed.
