(* ===== verification/PacketL4.v ===== *)
(** * Ports, and the IPv6 header

    The packet up to the transport header, for IPv4 and IPv6; the functions
    that set ports; [packet_set_ipv6]. *)
From stdpp Require Import list.
From S2P Require Import Prelude ByteOrder FlowLayout Hash Bitwise MatchFields MetaFlow OdpActions Csum Packets PacketBytes PacketView PacketExec PacketFrame PacketIp PacketL3.

(** ** IPv6 extension headers *)

(** A header of [n] bytes that is there. *)
Lemma try_pull_app n b h b' : ofpbuf_try_pull n b = Some (h, b') → b = h ++ b' ∧ length h = n.
Proof.
  unfold ofpbuf_try_pull. destruct (Nat.leb_spec n (length b)); [|done]. intros [= <- <-]. rewrite take_drop, length_take. split; [done|lia].
Qed.

Lemma app_try_pull n h b : length h = n → ofpbuf_try_pull n (h ++ b) = Some (h, b).
Proof.
  intros <-. unfold ofpbuf_try_pull. rewrite (proj2 (Nat.leb_le _ _)) by (rewrite length_app; lia). by rewrite take_app_length, drop_app_length.
Qed.

(** The next extension header begins after [n] bytes. *)
Definition ext_len (nexthdr : Z) (b : list Z) : nat :=
  if (nexthdr =? IPPROTO_HOPOPTS) || (nexthdr =? IPPROTO_ROUTING) || (nexthdr =? IPPROTO_DSTOPTS) then Z.to_nat ((fld b 1 1 + 1) * 8)
  else if nexthdr =? IPPROTO_AH then Z.to_nat ((fld b 1 1 + 2) * 4)
  else 8%nat.

(** The flow after a fragment header, and whether the transport header is
    not in this fragment. *)
Definition ext_frag (nexthdr : Z) (b : list Z) (fl : flowf) : flowf * bool :=
  if (nexthdr =? IPPROTO_HOPOPTS) || (nexthdr =? IPPROTO_ROUTING) || (nexthdr =? IPPROTO_DSTOPTS) || (nexthdr =? IPPROTO_AH) then (fl, false)
  else if fld b 2 2 =? 0 then (fl, false)
  else if Z.land (fld b 2 2) IP6F_OFF_MASK =? 0 then (upd F_nw_frag FLOW_NW_FRAG_ANY fl, false)
  else (upd F_nw_frag (Z.lor FLOW_NW_FRAG_ANY FLOW_NW_FRAG_LATER) (upd F_nw_frag FLOW_NW_FRAG_ANY fl), true).

(** One round of the loop. *)
Lemma parse_ipv6_loop_form fuel nh b fl :
  parse_ipv6_loop (S fuel) nh b fl =
    if negb (ipv6_extension nh) then Some (Some nh, b, fl)
    else if (length b <? 8)%nat then Some (None, b, fl)
    else match ofpbuf_try_pull (ext_len nh b) b with
         | None => Some (None, b, fl)
         | Some (_, b') =>
             let '(fl', later) := ext_frag nh b fl in
             if later then Some (Some IPPROTO_FRAGMENT, b', fl') else parse_ipv6_loop fuel (fld b 0 1) b' fl'
         end.
Proof.
  cbn [parse_ipv6_loop]. destruct (negb _); [done|]. destruct (Nat.ltb_spec (length b) 8) as [|Hl]; [done|]. unfold ext_len, ext_frag.
  rewrite !rd_fld by lia. cbn [mbind option_bind].
  destruct ((nh =? IPPROTO_HOPOPTS) || (nh =? IPPROTO_ROUTING) || (nh =? IPPROTO_DSTOPTS)); cbn [orb]; [done|]. destruct (nh =? IPPROTO_AH); [done|].
  destruct (ofpbuf_try_pull 8 b) as [[h b']|]; [|done]. destruct (fld b 2 2 =? 0); cbn [negb]; [done|]. by destruct (_ =? 0).
Qed.

Lemma ext_len_8 nh b : Forall is_u8 b → (8 ≤ length b)%nat → (8 ≤ ext_len nh b)%nat.
Proof.
  intros Hb Hl. assert (H : is_u8 (fld b 1 1)) by (apply (fld_width 1 1); [done|lia]). unfold in_width in H. unfold ext_len. repeat case_match; lia.
Qed.

Lemma parse_ipv6_loop_frame fuel nh b fl nx lb fl' :
  Forall is_u8 b → parse_ipv6_loop fuel nh b fl = Some (Some nx, lb, fl') →
  ∃ pre, b = pre ++ lb ∧ ∀ lb', length lb' = length lb → parse_ipv6_loop fuel nh (pre ++ lb') fl = Some (Some nx, lb', fl').
Proof.
  revert nh b fl. induction fuel as [|fuel IH]; intros nh b fl Hb H.
  { cbn [parse_ipv6_loop] in *. destruct (negb _); [|by destruct (_ <? _)%nat]. injection H as -> -> ->. by exists []. }
  rewrite parse_ipv6_loop_form in H. destruct (negb _) eqn:En.
  { injection H as -> -> ->. exists []. split; [done|]. intros lb' _. rewrite parse_ipv6_loop_form. by rewrite En. }
  destruct (Nat.ltb_spec (length b) 8) as [|Hl]; [done|]. destruct (ofpbuf_try_pull _ b) as [[h b']|] eqn:Ep; [|done].
  apply try_pull_app in Ep as [Eb Hh]. pose proof (ext_len_8 nh b Hb Hl) as H8.
  assert (Hf : ∀ tl o l, (o + l ≤ 8)%nat → fld (h ++ tl) o l = fld b o l).
  { intros tl o l Ho. rewrite Eb, !fld_app_l by lia. done. }
  assert (Hstep : ∀ tl, length tl = length b' → parse_ipv6_loop (S fuel) nh (h ++ tl) fl =
    let '(fl', later) := ext_frag nh b fl in
    if later then Some (Some IPPROTO_FRAGMENT, tl, fl') else parse_ipv6_loop fuel (fld b 0 1) tl fl').
  { intros tl Ht. rewrite parse_ipv6_loop_form, En. rewrite (proj2 (Nat.ltb_ge _ _)) by (rewrite length_app; lia).
    assert (E1 : ext_len nh (h ++ tl) = ext_len nh b) by (unfold ext_len; by rewrite !Hf by lia).
    assert (E2 : ext_frag nh (h ++ tl) fl = ext_frag nh b fl) by (unfold ext_frag; by rewrite !Hf by lia).
    rewrite E1, E2, app_try_pull by done. by rewrite Hf by lia. }
  destruct (ext_frag nh b fl) as [fl1 later]. destruct later.
  - injection H as <- <- <-. exists h. by split; [|apply Hstep].
  - destruct (IH _ _ _ ltac:(rewrite Eb in Hb; by apply Forall_app in Hb as [_ Hb]) H) as (pre & E & Hpre). exists (h ++ pre).
    split; [by rewrite <- app_assoc, <- E|]. intros lb' Hl'. rewrite <- app_assoc, Hstep; [by apply Hpre|]. rewrite E, !length_app. lia.
Qed.

Lemma parse_ipv6_loop_keep fuel nh b fl x fl' f : parse_ipv6_loop fuel nh b fl = Some (x, fl') → f ≠ F_nw_frag → fl' f = fl f.
Proof.
  intros H Hf. revert nh b fl H. induction fuel as [|fuel IH]; intros nh b fl H.
  { cbn [parse_ipv6_loop] in H. destruct (negb _); [by injection H as _ <-|]. destruct (_ <? _)%nat; [by injection H as _ <-|done]. }
  rewrite parse_ipv6_loop_form in H. destruct (negb _); [by injection H as _ <-|]. destruct (_ <? _)%nat; [by injection H as _ <-|].
  destruct (ofpbuf_try_pull _ b) as [[h b']|]; [|by injection H as _ <-].
  assert (He : (ext_frag nh b fl).1 f = fl f) by (unfold ext_frag; repeat case_match; cbn [fst]; rewrite ?upd_ne by done; done).
  destruct (ext_frag nh b fl) as [fl1 later]. cbn [fst] in He. destruct later; [by injection H as _ <-|]. by rewrite (IH _ _ _ H).
Qed.

(** ** The IPv6 header *)

Definition ip6_fields (h : list Z) (fl : flowf) : flowf :=
  set_fields [(F_ipv6_src, fld h 8 16); (F_ipv6_dst, fld h 24 16); (F_nw_tos, u8 (Z.shiftr (fld h 0 4) 20));
              (F_ipv6_label, Z.land (fld h 0 4) IPV6_LABEL_MASK); (F_nw_ttl, fld h 7 1); (F_nw_proto, IPPROTO_NONE)] fl.

Lemma parse_l3_ipv6_form h rest fl :
  length h = 40%nat →
  parse_l3_ipv6 (h ++ rest) fl =
    '(nx, b, fl) ← parse_ipv6_loop (length rest) (fld h 6 1) rest (ip6_fields h fl);
    match nx with
    | None => Some (None, None, fl)
    | Some proto => '(l7, fl) ← parse_l4 true proto b (upd F_nw_proto proto fl); Some (Some b, l7, fl)
    end.
Proof.
  intros Hh. unfold parse_l3_ipv6, parse_ipv6. rewrite app_try_pull by done. rewrite !rd_fld by lia. cbn [mbind option_bind]. fold (ip6_fields h fl).
  destruct (parse_ipv6_loop _ _ _ _) as [[[[proto|] b] fl']|]; [|done|done]. cbn [mbind option_bind]. by rewrite upd_eq.
Qed.

Record ip6_parts (b : list Z) (fl : flowf) (h ext lb : list Z) (proto : Z) (fl' : flowf) : Prop := {
  i6_h : length h = 40%nat;
  i6_b : b = h ++ ext ++ lb;
  i6_loop : ∀ lb', length lb' = length lb →
    parse_ipv6_loop (length (ext ++ lb')) (fld h 6 1) (ext ++ lb') (ip6_fields h fl) = Some (Some proto, lb', fl')
}.

Lemma parse_l3_ipv6_inv b fl l4 l7 r :
  Forall is_u8 b → parse_l3_ipv6 b fl = Some (l4, l7, r) →
  (l4 = None ∧ l7 = None ∧ ((r = fl) ∨ r F_nw_proto = IPPROTO_NONE ∧ ∀ f, l4_field f = true → r f = fl f))
  ∨ ∃ h ext lb proto fl', l4 = Some lb ∧ ip6_parts b fl h ext lb proto fl' ∧ parse_l4 true proto lb (upd F_nw_proto proto fl') = Some (l7, r).
Proof.
  intros Hb H. destruct (decide (40 ≤ length b)%nat) as [Hl|Hl].
  2:{ left. unfold parse_l3_ipv6, parse_ipv6, ofpbuf_try_pull in H. rewrite (proj2 (Nat.leb_gt _ _)) in H by lia. cbn in H. injection H as <- <- <-. tauto. }
  assert (Hh : length (take 40 b) = 40%nat) by (rewrite length_take; lia). rewrite <- (take_drop 40 b) in H. rewrite parse_l3_ipv6_form in H by done.
  destruct (parse_ipv6_loop _ _ _ _) as [[[nx lb] fl']|] eqn:E; [|done]. cbn [mbind option_bind] in H. destruct nx as [proto|].
  - destruct (parse_l4 _ _ _ _) as [[l7' r']|] eqn:E4; [|done]. injection H as <- <- <-. right.
    destruct (parse_ipv6_loop_frame _ _ _ _ _ _ _ ltac:(by apply Forall_drop) E) as (ext & Eb & Hloop).
    exists (take 40 b), ext, lb, proto, fl'. split; [done|]. split; [|done]. split; [done|by rewrite <- Eb, take_drop|].
    intros lb' Hl'. rewrite <- (Hloop lb' Hl'). f_equal. rewrite Eb, !length_app. lia.
  - injection H as <- <- <-. left. split; [done|]. split; [done|]. right.
    split; [by rewrite (parse_ipv6_loop_keep _ _ _ _ _ _ _ E)|]. intros f Hf. rewrite (parse_ipv6_loop_keep _ _ _ _ _ _ _ E) by (by intros ->). by destruct f.
Qed.

Lemma ip6_parts_parse b fl h ext lb proto fl' lb' l7 r :
  ip6_parts b fl h ext lb proto fl' → length lb' = length lb → parse_l4 true proto lb' (upd F_nw_proto proto fl') = Some (l7, r) →
  parse_l3_ipv6 (h ++ ext ++ lb') fl = Some (Some lb', l7, r).
Proof.
  intros [H1 H2 H3] Hl H. rewrite parse_l3_ipv6_form, H3 by done. cbn [mbind option_bind]. by rewrite H.
Qed.

(** ** The packet up to the transport header *)

(** With [r0] for the flow before the transport header. *)
Record l4_framed (p : ofpbuf) (key fl : flowf) (v6 : bool) (pre nh lb : list Z) (l7 : option (list Z)) (r0 r e : flowf) : Prop := {
  l4f_bytes : Forall is_u8 lb;
  l4f_packet : p = markers (pre ++ nh ++ lb) (Layers None (nh ++ lb) (Some lb) l7 r);
  l4f_flow : fl = overlay_of early e r;
  l4f_zero : ∀ f, l4_field f = true → r0 f = 0;
  l4f_proto : r0 F_nw_proto = fl F_nw_proto;
  l4f_parse : parse_l4 v6 (fl F_nw_proto) lb r0 = Some (l7, r);
  l4f_other : ∀ lb' l7' r', Forall is_u8 lb' → length lb' = length lb → parse_l4 v6 (fl F_nw_proto) lb' r0 = Some (l7', r') →
    parsed (markers (pre ++ nh ++ lb') (Layers None (nh ++ lb') (Some lb') l7' r')) key (overlay_of early e r')
}.

Lemma parsed_l4_framed p key fl :
  parsed p key fl → dl_type_is_ip_any (fl F_dl_type) = true → fl F_tp_src ≠ 0 ∨ fl F_tp_dst ≠ 0 →
  ∃ v6 pre nh lb l7 r0 r e, l4_framed p key fl v6 pre nh lb l7 r0 r e.
Proof.
  intros Hp Hty Htp. unfold dl_type_is_ip_any in Hty. apply orb_true_iff in Hty.
  destruct (parsed_framed p key fl) as (pre & b3 & l4 & l7 & r & e & Hfr); [done|by destruct Hty as [E|E]; apply Z.eqb_eq in E; rewrite E..|].
  destruct Hfr as [F1 [F2 F3] Fp Hfl F5 F6]. rewrite Hfl, !overlay_late in Htp by done.
  assert (Hpr : fl F_nw_proto = r F_nw_proto) by (by rewrite Hfl).
  destruct Hty as [E|E]; apply Z.eqb_eq in E; rewrite E in F5, F6.
  - change (parse_l3_ip b3 (typed_flow ETH_TYPE_IP) = Some (l4, l7, r)) in F5.
    destruct (pull_ip b3) as [[[nh lb]|]|] eqn:Ep; [| |unfold parse_l3_ip in F5; by rewrite Ep in F5].
    2:{ unfold parse_l3_ip in F5. rewrite Ep in F5. injection F5 as <- <- <-. by destruct Htp. }
    apply pull_ip_inv in Ep as [-> Hh]. rewrite parse_l3_ip_form in F5 by done. destruct (Z.land _ _ =? 0) eqn:Ef.
    2:{ injection F5 as <- <- <-. by destruct Htp. }
    destruct (parse_l4 _ _ lb _) as [[l7' r']|] eqn:E4; [|done]. injection F5 as <- <- <-. apply Forall_app in F3 as [Fn Fb].
    assert (Hpr0 : fl F_nw_proto = fld nh 9 1) by (rewrite Hpr, (parse_l4_keep _ _ _ _ _ _ _ E4) by done; done).
    exists false, pre, nh, lb, l7', (ip_fields nh (typed_flow ETH_TYPE_IP)), r', e. rewrite <- Hpr0 in E4.
    split; [done|done|done|by intros []|done|done|]. intros lb' l7 r Hb' Hl' E'. apply F6; [by apply Forall_app_2|by rewrite !length_app, Hl'|].
    change (parse_l3_ip (nh ++ lb') (typed_flow ETH_TYPE_IP) = Some (Some lb', l7, r)). rewrite parse_l3_ip_form, Ef, <- Hpr0 by done. by rewrite E'.
  - change (parse_l3_ipv6 b3 (typed_flow ETH_TYPE_IPV6) = Some (l4, l7, r)) in F5.
    destruct (parse_l3_ipv6_inv _ _ _ _ _ F3 F5) as [(-> & -> & Hr)|(h & ext & lb & proto & fl' & -> & Hi & E4)].
    { exfalso. destruct Hr as [->|[_ Hr]]; [by destruct Htp|]. rewrite !Hr in Htp by done. by destruct Htp. }
    assert (Hpr0 : fl F_nw_proto = proto) by (rewrite Hpr, (parse_l4_keep _ _ _ _ _ _ _ E4) by done; apply upd_eq).
    pose proof Hi as [I1 -> I3]. apply Forall_app in F3 as [Fn Fb]. apply Forall_app in Fb as [Fe Fb].
    exists true, pre, (h ++ ext), lb, l7, (upd F_nw_proto proto fl'), r, e. split; [done|by rewrite <- !app_assoc|done| |by rewrite upd_eq|by rewrite Hpr0|].
    + intros f Hf. rewrite upd_ne by (by intros ->). rewrite (parse_ipv6_loop_keep _ _ _ _ _ _ _ (I3 lb eq_refl)) by (by intros ->). by destruct f.
    + intros lb' l7' r' Hb' Hl' E'. rewrite <- !app_assoc. apply F6; [by repeat apply Forall_app_2|by rewrite !length_app, Hl'|].
      rewrite Hpr0 in E'. by apply (ip6_parts_parse _ _ _ _ _ _ _ _ _ _ Hi).
Qed.

(** ** Ports *)

(** Both ports set; the checksum, of [clen] bytes at [co], may differ. *)
Record ports_changed (co clen : nat) (src dst : Z) (lb lb' : list Z) : Prop := {
  pc_length : length lb' = length lb;
  pc_bytes : Forall is_u8 lb';
  pc_src : fld lb' 0 2 = src;
  pc_dst : fld lb' 2 2 = dst;
  pc_other : ∀ o l, (4 ≤ o)%nat → (o + l ≤ length lb)%nat → (o + l ≤ co ∨ co + clen ≤ o)%nat → fld lb' o l = fld lb o l;
  pc_tail : ∀ n, (co + clen ≤ n)%nat → drop n lb' = drop n lb
}.

Lemma packet_set_port_spec p pre nh lb ofs new co :
  at_l3 p pre nh lb → Forall is_u8 lb → ofs = 0%nat ∨ ofs = 2%nat → (4 ≤ co)%nat → Nat.even co = true → (co + 2 ≤ length lb)%nat → is_u16 new →
  ∃ lb', packet_set_port p ofs new co = Some (set_data (pre ++ nh ++ lb') p) ∧ field_step co ofs 2 new lb lb'
    ∧ ∀ n, (co + 2 ≤ n)%nat → drop n lb' = drop n lb.
Proof.
  intros Hat Hb Ho Hc He Hl Hn. assert (Ho' : (ofs + 2 ≤ 4)%nat) by (destruct Ho; lia). unfold packet_set_port. cbn zeta.
  rewrite (at_rd4 _ _ _ _ ofs 2 Hat) by lia. cbn [mbind option_bind]. destruct (Z.eqb_spec (fld lb ofs 2) new) as [<-|Hne]; cbn [negb].
  - exists lb. split; [by rewrite <- (at_data _ _ _ _ Hat), set_data_same|]. split; [by apply field_step_refl|done].
  - rewrite (at_rd4 _ _ _ _ co 2 Hat) by lia. cbn [mbind option_bind]. rewrite (at_wr4 _ _ _ _ _ _ _ Hat) by lia. cbn [mbind option_bind].
    set (lb1 := put co _ lb). assert (Hl1 : length lb1 = length lb) by (apply length_put; rewrite length_be_bytes; lia).
    pose proof (at_set _ _ _ _ nh lb1 Hat eq_refl) as Hat1. set (p1 := set_data (pre ++ nh ++ lb1) p) in *.
    change (ob_l4 p) with (ob_l4 p1). rewrite (at_wr4 _ _ _ _ _ _ _ Hat1) by lia. eexists. split; [done|]. split.
    + apply step_word16; try done; try lia. by destruct Ho; subst.
    + intros n Hn'. rewrite drop_put by (rewrite length_be_bytes; lia). apply drop_put; rewrite length_be_bytes; lia.
Qed.

(** The source and then the destination. *)
Lemma set_ports_spec p pre nh lb src dst co :
  at_l3 p pre nh lb → Forall is_u8 lb → (4 ≤ co)%nat → Nat.even co = true → (co + 2 ≤ length lb)%nat → is_u16 src → is_u16 dst →
  ∃ lb', (p ← packet_set_port p 0 src co; packet_set_port p 2 dst co) = Some (set_data (pre ++ nh ++ lb') p)
    ∧ ports_changed co 2 src dst lb lb' ∧ csum_eq (word_sum lb') (word_sum lb).
Proof.
  intros Hat Hb Hc He Hl Hs Hd. destruct (packet_set_port_spec p pre nh lb 0 src co) as (lb1 & -> & F1 & T1); try done; [by left|].
  cbn [mbind option_bind]. pose proof F1 as [Fl1 Fb1 Fv1 Fo1 Fs1]. pose proof (at_set _ _ _ _ nh lb1 Hat eq_refl) as Hat1.
  destruct (packet_set_port_spec _ pre nh lb1 2 dst co Hat1) as (lb2 & -> & F2 & T2); [done|by right|done|done|by rewrite Fl1|done|].
  rewrite set_data_twice. exists lb2. split; [done|]. destruct F2 as [Fl2 Fb2 Fv2 Fo2 Fs2]. rewrite Fl1 in *. split.
  - split; [done|done| |done| |].
    + rewrite Fo2 by lia. done.
    + intros o l Ho Hol Hd'. rewrite Fo2, Fo1 by lia. done.
    + intros n Hn. by rewrite T2, T1.
  - by rewrite Fs2.
Qed.

Lemma packet_set_udp_port_spec p pre nh lb src dst :
  at_l3 p pre nh lb → Forall is_u8 lb → (8 ≤ length lb)%nat → is_u16 src → is_u16 dst →
  ∃ lb', packet_set_udp_port p src dst = Some (set_data (pre ++ nh ++ lb') p)
    ∧ ports_changed 6 2 src dst lb lb'
    ∧ (if fld lb 6 2 =? 0 then fld lb' 6 2 = 0 else fld lb' 6 2 ≠ 0 ∧ csum_eq (word_sum lb') (word_sum lb)).
Proof.
  intros Hat Hb Hl Hs Hd. unfold packet_set_udp_port. cbn zeta. rewrite (at_rd4 _ _ _ _ 6 2 Hat) by lia. cbn [mbind option_bind].
  destruct (Z.eqb_spec (fld lb 6 2) 0) as [E0|E0]; cbn [negb].
  - rewrite (at_wr4 _ _ _ _ _ _ _ Hat) by lia. cbn [mbind option_bind]. set (lb1 := put 0 _ lb).
    assert (Hl1 : length lb1 = length lb) by (apply length_put; rewrite length_be_bytes; lia).
    pose proof (at_set _ _ _ _ nh lb1 Hat eq_refl) as Hat1. set (p1 := set_data (pre ++ nh ++ lb1) p) in *.
    change (ob_l4 p) with (ob_l4 p1). rewrite (at_wr4 _ _ _ _ _ _ _ Hat1) by lia. eexists. split; [done|].
    assert (Hlb : ∀ x, length (be_bytes 2 x) = 2%nat) by done. split; [split|].
    + rewrite length_put by (rewrite Hlb; lia). done.
    + repeat (apply put_u8; [apply be_bytes_u8|]). done.
    + rewrite fld_put_other by (rewrite ?Hlb; lia). unfold lb1. rewrite fld_put_same by lia. by apply wrap_id.
    + rewrite fld_put_same by lia. by apply wrap_id.
    + intros o l Ho Hol _. rewrite fld_put_other by (rewrite ?Hlb; lia). apply fld_put_other; rewrite ?Hlb; lia.
    + intros n Hn. rewrite drop_put by (rewrite ?Hlb; lia). apply drop_put; rewrite ?Hlb; lia.
    + rewrite fld_put_other by (rewrite ?Hlb; lia). unfold lb1. by rewrite fld_put_other by (rewrite ?Hlb; lia).
  - destruct (set_ports_spec p pre nh lb src dst 6) as (lb1 & E & [P1 P2 P3 P4 P5 P6] & S1); try done; [lia|].
    destruct (packet_set_port p 0 src 6) as [q|]; [|done]. cbn [mbind option_bind] in *. rewrite E. cbn [mbind option_bind].
    pose proof (at_set _ _ _ _ nh lb1 Hat eq_refl) as Hat1. set (p1 := set_data (pre ++ nh ++ lb1) p) in *. change (ob_l4 p) with (ob_l4 p1).
    rewrite (at_rd4 _ _ _ _ 6 2 Hat1) by lia. cbn [mbind option_bind]. destruct (Z.eqb_spec (fld lb1 6 2) 0) as [E1|E1]; [|by exists lb1].
    rewrite (at_wr4 _ _ _ _ _ _ _ Hat1) by lia. eexists. split; [done|].
    destruct (l4_put_step 6 0xffff 0 0 lb1) as (L & B & V & S & O & T); [done|lia|done|by split|by rewrite E1; constructor|]. split.
    + split; [congruence|done|by rewrite O by lia|by rewrite O by lia| |].
      * intros o l Ho Hol Hd'. rewrite O, P5 by lia. done.
      * intros n Hn. by rewrite T, P6.
    + rewrite V. split; [done|]. by rewrite <- S1.
Qed.

(** The CRC that an SCTP packet with header and data [lb] must have. *)
Definition sctp_crc (lb : list Z) : Z := crc32c (put 8 (be_bytes 4 0) lb).

Lemma crc32c_u32 d : is_u32 (crc32c d).
Proof.
  unfold crc32c. cbn zeta. generalize (Z.lxor (foldl crc_step 0xffffffff d) 0xffffffff). intros x.
  assert (H : Forall is_u8 (reverse (be_bytes 4 x))) by (apply Forall_reverse, be_bytes_u8). by apply get_be_width in H.
Qed.

Lemma put_same_twice ofs x y d : (ofs + length y ≤ length d)%nat → length x = length y → put ofs x (put ofs y d) = put ofs x d.
Proof.
  intros H Hxy. unfold put at 1. rewrite take_put, drop_put by lia. done.
Qed.

Lemma put_commute o1 x o2 y d :
  (o1 + length x ≤ o2)%nat → (o2 + length y ≤ length d)%nat → put o1 x (put o2 y d) = put o2 y (put o1 x d).
Proof.
  intros H1 H2. rewrite <- (take_drop (o1 + length x) d). set (a := take _ d). set (b := drop _ d).
  assert (Ha : length a = (o1 + length x)%nat) by (unfold a; rewrite length_take; lia).
  replace o2 with (length a + (o2 - length a))%nat by lia.
  rewrite (put_app_r _ _ a) by done. rewrite !put_app_l by lia. rewrite <- (length_put o1 x a) at 2 by lia. by rewrite put_app_r.
Qed.

Lemma packet_set_sctp_port_spec p pre nh lb src dst :
  at_l3 p pre nh lb → Forall is_u8 lb → (12 ≤ length lb)%nat → is_u16 src → is_u16 dst →
  ∃ lb', packet_set_sctp_port p src dst = Some (set_data (pre ++ nh ++ lb') p)
    ∧ ports_changed 8 4 src dst lb lb'
    ∧ (Z.of_nat (length lb) < 65536 → fld lb' 8 4 = Z.lxor (Z.lxor (fld lb 8 4) (sctp_crc lb)) (sctp_crc lb')).
Proof.
  intros Hat Hb Hl Hs Hd. assert (Hlb : ∀ n x, length (be_bytes n x) = n) by (intros; apply length_be_bytes).
  unfold packet_set_sctp_port. rewrite (at_m4 _ _ _ _ Hat). cbn [mbind option_bind].
  rewrite Nat2Z.id.
  rewrite <- (at_m4 _ _ _ _ Hat).
  rewrite (at_rd4 _ _ _ _ 8 4 Hat) by lia. cbn [mbind option_bind]. rewrite (at_wr4 _ _ _ _ _ _ _ Hat) by lia. cbn [mbind option_bind].
  set (z := put 8 (be_bytes 4 0) lb). assert (Lz : length z = length lb) by (apply length_put; rewrite Hlb; lia).
  pose proof (at_set _ _ _ _ nh z Hat eq_refl) as H1. set (p1 := set_data (pre ++ nh ++ z) p) in *. change (ob_l4 p) with (ob_l4 p1).
  rewrite (at_wr4 _ _ _ _ _ _ _ H1) by lia. cbn [mbind option_bind]. set (z1 := put 0 _ z).
  assert (Lz1 : length z1 = length lb) by (rewrite <- Lz; apply length_put; rewrite Hlb; lia).
  pose proof (at_set _ _ _ _ nh z1 H1 eq_refl) as H2. set (p2 := set_data (pre ++ nh ++ z1) p1) in *. change (ob_l4 p1) with (ob_l4 p2).
  rewrite (at_wr4 _ _ _ _ _ _ _ H2) by lia. cbn [mbind option_bind]. set (z2 := put 2 _ z1).
  assert (Lz2 : length z2 = length lb) by (rewrite <- Lz1; apply length_put; rewrite Hlb; lia).
  pose proof (at_set _ _ _ _ nh z2 H2 eq_refl) as H3. set (p3 := set_data (pre ++ nh ++ z2) p2) in *. change (ob_l4 p2) with (ob_l4 p3).
  rewrite (at_wr4 _ _ _ _ _ _ _ H3) by lia. cbn [mbind option_bind ob_data set_data p1 p2 p3].
  set (c := Z.lxor _ _). eexists. split; [done|].
  assert (Hc : is_u32 c).
  { unfold c. repeat apply lxor_in_width; try lia; [apply (fld_width 8 4); [done|lia]|apply crc32c_u32..]. }
  assert (Hz2 : put 8 (be_bytes 4 0) (put 8 (be_bytes 4 c) z2) = z2).
  { rewrite put_same_twice by (rewrite !Hlb; lia). unfold z2, z1, z. rewrite <- !(put_commute _ _ 8) by (rewrite ?length_put; rewrite ?Hlb; rewrite ?length_put; rewrite ?Hlb; lia).
    rewrite put_same_twice by (rewrite !Hlb; lia). done. }
  split; [split|].
  - by rewrite length_put by (rewrite Hlb; lia).
  - repeat (apply put_u8; [apply be_bytes_u8|]). done.
  - rewrite (fld_put_other _ _ 8) by (rewrite ?Hlb; lia). unfold z2. rewrite (fld_put_other _ _ 2) by (rewrite ?Hlb; lia).
    unfold z1. rewrite fld_put_same by lia. by apply wrap_id.
  - rewrite fld_put_other by (rewrite ?Hlb; lia). unfold z2. rewrite fld_put_same by lia. by apply wrap_id.
  - intros o l Ho Hol Hd'. unfold z2, z1, z in *. rewrite !fld_put_other by (rewrite ?Hlb; lia). done.
  - intros n Hn. unfold z2, z1, z in *. rewrite !drop_put by (rewrite ?Hlb; lia). done.
  - intros Hl'. rewrite fld_put_same by lia. rewrite wrap_id by done. unfold sctp_crc. rewrite Hz2. unfold c.
    replace (u16 _) with (Z.of_nat (length lb)).
    2:{ rewrite (at_data _ _ _ _ Hat), !length_app. replace (_ - _) with (Z.of_nat (length lb)) by lia. symmetry. apply wrap_id. split; [lia|done]. }
    rewrite Nat2Z.id, <- !drop_drop, !drop_app_length, !take_ge by lia. done.
Qed.

Definition ports_key (src dst : Z) : list (MatchFields.field * Z) := [(F_tp_src, src); (F_tp_dst, dst)].

Lemma some_pair {A B} (a c : A) (b d : B) : Some (a, b) = Some (c, d) → a = c ∧ b = d.
Proof. by intros [= -> ->]. Qed.

Lemma set_ports_twice src dst lb l fl :
  Forall (λ p, p.1 ≠ F_tp_src ∧ p.1 ≠ F_tp_dst) l →
  set_fields ([(F_tp_src, src); (F_tp_dst, dst)] ++ l) fl = set_fields (ports_key src dst) (set_fields (port_fields_of lb ++ l) fl).
Proof.
  intros Hl. unfold set_fields, ports_key, port_fields_of. rewrite !foldl_app. cbn [foldl fst snd]. apply flow_funext. intros f.
  revert fl. induction Hl as [|[g v] l [H1 H2] Hl IH]; intros fl; cbn [foldl fst snd] in *; [unfold upd; repeat case_decide; congruence|].
  assert (E : ∀ a b, upd g v (upd F_tp_dst b (upd F_tp_src a fl)) = upd F_tp_dst b (upd F_tp_src a (upd g v fl))).
  { intros a b. apply flow_funext. intros h. unfold upd. repeat case_decide; congruence. }
  rewrite !E. apply IH.
Qed.

(** Where the three protocols have their checksum. *)
Definition l4_csum (proto : Z) (co clen : nat) : Prop :=
  (proto = IPPROTO_TCP ∧ co = 16%nat ∧ clen = 2%nat) ∨ (proto = IPPROTO_UDP ∧ co = 6%nat ∧ clen = 2%nat)
  ∨ (proto = IPPROTO_SCTP ∧ co = 8%nat ∧ clen = 4%nat).

(** A flow with ports has a complete transport header, and new ports are parsed
    from it as they are set. *)
Lemma parse_l4_ports v6 proto co clen lb r0 l7 r :
  l4_csum proto co clen → parse_l4 v6 proto lb r0 = Some (l7, r) → r0 F_tp_src = 0 → r0 F_tp_dst = 0 → r F_tp_src ≠ 0 ∨ r F_tp_dst ≠ 0 →
  (co + clen ≤ length lb)%nat
  ∧ ∀ src dst lb', ports_changed co clen src dst lb lb' → parse_l4 v6 proto lb' r0 = Some (l7, set_fields (ports_key src dst) r).
Proof.
  intros Hpr H H1 H2 Hne.
  assert (Hno : r ≠ r0) by (intros ->; tauto).
  destruct Hpr as [(-> & -> & ->)|[(-> & -> & ->)|(-> & -> & ->)]].
  - change (parse_l4 v6 IPPROTO_TCP) with parse_tcp in *. rewrite parse_tcp_form in H. destruct (tcp_ok lb) eqn:Eo; [|by apply some_pair in H as [_ <-]]. apply some_pair in H as [<- <-].
    pose proof Eo as Eo'. unfold tcp_ok in Eo'. rewrite !andb_true_iff, !Nat.leb_le in Eo'. split; [lia|].
    intros src dst lb' [Pl Pb <- <- Po Pt]. rewrite parse_tcp_form. unfold tcp_ok, tcp_len in *. rewrite (Po 12%nat 2%nat), Pl, Eo by lia.
    rewrite Pt by lia. do 2 f_equal. unfold port_fields_of at 1. apply set_ports_twice. by repeat constructor.
  - change (parse_l4 v6 IPPROTO_UDP) with parse_udp in *. rewrite parse_udp_form in H. destruct (Nat.leb_spec 8 (length lb)); [|by apply some_pair in H as [_ <-]]. apply some_pair in H as [<- <-]. split; [lia|].
    intros src dst lb' [Pl Pb <- <- Po Pt]. rewrite parse_udp_form, Pl, (proj2 (Nat.leb_le _ _)), Pt by lia. do 2 f_equal.
    rewrite <- (app_nil_r (port_fields_of lb)), <- (set_ports_twice _ _ lb []) by done. by rewrite app_nil_r.
  - change (parse_l4 v6 IPPROTO_SCTP) with parse_sctp in *. rewrite parse_sctp_form in H. destruct (Nat.leb_spec 12 (length lb)); [|by apply some_pair in H as [_ <-]]. apply some_pair in H as [<- <-]. split; [lia|].
    intros src dst lb' [Pl Pb <- <- Po Pt]. rewrite parse_sctp_form, Pl, (proj2 (Nat.leb_le _ _)), Pt by lia. do 2 f_equal.
    rewrite <- (app_nil_r (port_fields_of lb)), <- (set_ports_twice _ _ lb []) by done. by rewrite app_nil_r.
Qed.

Lemma parsed_set_ports p key fl src dst co clen (f : ofpbuf → option ofpbuf) :
  parsed p key fl → dl_type_is_ip_any (fl F_dl_type) = true → fl F_tp_src ≠ 0 ∨ fl F_tp_dst ≠ 0 → l4_csum (fl F_nw_proto) co clen →
  (∀ pre nh lb, at_l3 p pre nh lb → Forall is_u8 lb → (co + clen ≤ length lb)%nat →
    ∃ lb', f p = Some (set_data (pre ++ nh ++ lb') p) ∧ ports_changed co clen src dst lb lb') →
  ∃ p', f p = Some p' ∧ parsed p' key (set_fields (ports_key src dst) fl).
Proof.
  intros Hp Hty Htp Hcs Hf. destruct (parsed_l4_framed p key fl Hp Hty Htp) as (v6 & pre & nh & lb & l7 & r0 & r & e & [Fb -> Hfl Fz Fp F4 F5]).
  rewrite Hfl, !overlay_late in Htp by done.
  destruct (parse_l4_ports _ _ _ _ _ _ _ _ Hcs F4) as [Hlen Hpar]; [by apply Fz|by apply Fz|done|].
  destruct (Hf pre nh lb) as (lb' & E & Hc); [apply at_l3_markers|done|done|]. exists (set_data (pre ++ nh ++ lb') (markers (pre ++ nh ++ lb) (Layers None (nh ++ lb) (Some lb) l7 r))). split; [done|].
  rewrite (markers_replace _ _ _ (nh ++ lb') _ lb' _ _ (set_fields (ports_key src dst) r)) by (rewrite ?length_app, ?(pc_length _ _ _ _ _ _ Hc); done).
  rewrite Hfl, overlay_set_fields by (repeat constructor). apply F5; [apply Hc|apply Hc|by apply Hpar].
Qed.
