(* ===== verification/PacketIp6.v ===== *)
(** * packet_set_ipv6()

    The traffic class, the flow label and the hop limit are set, and of each
    address the first of its four words. *)
From stdpp Require Import list.
From S2P Require Import Prelude ByteOrder FlowLayout Hash Bitwise MatchFields MetaFlow OdpActions Csum Packets PacketBytes PacketView PacketExec PacketFrame PacketIp PacketL3 PacketL4.

(** ** Parts of fields *)

(** An address of which the first word was replaced. *)
Definition splice_128 (new old : Z) : Z := word_of_128 new 0 * 2 ^ 96 + old mod 2 ^ 96.

Lemma get_be_app a b : Forall is_u8 b → get_be (a ++ b) = get_be a * 2 ^ (8 * Z.of_nat (length b)) + get_be b.
Proof. intros Hb. unfold get_be at 1. rewrite foldl_app, get_be_acc by done. by rewrite Z.pow_mul_r by lia. Qed.

Lemma fld_put_first ofs w h :
  Forall is_u8 h → (ofs + 16 ≤ length h)%nat → is_u32 w → fld (put ofs (be_bytes 4 w) h) ofs 16 = w * 2 ^ 96 + fld h ofs 16 mod 2 ^ 96.
Proof.
  intros Hb Hl Hw. unfold ByteOrder.field. set (t := take 12 (drop (ofs + 4) h)).
  assert (Ht : Forall is_u8 t) by by apply Forall_take, Forall_drop.
  assert (Hlt : length t = 12%nat) by (unfold t; rewrite length_take, length_drop; lia).
  assert (E1 : take 16 (drop ofs (put ofs (be_bytes 4 w) h)) = be_bytes 4 w ++ t).
  { unfold put. rewrite drop_app_length' by (rewrite length_take; lia). change 16%nat with (length (be_bytes 4 w) + 12)%nat.
    by rewrite take_app_add, length_be_bytes. }
  assert (E2 : take 16 (drop ofs h) = take 4 (drop ofs h) ++ t) by (unfold t; rewrite <- drop_drop; symmetry; apply (take_drop_add 4 12)).
  rewrite E1, E2, !get_be_app, Hlt by done. change (8 * Z.of_nat 12) with 96. rewrite (get_be_id 4 32) by done. f_equal.
  rewrite Z.add_comm, Z.mod_add by lia. symmetry. apply Z.mod_small. apply get_be_width in Ht. by rewrite Hlt in Ht.
Qed.

Lemma splice_same new old : in_width 128 new → new mod 2 ^ 96 = old mod 2 ^ 96 → splice_128 new old = new.
Proof.
  intros [H0 H1] He. unfold splice_128, word_of_128. rewrite <- He. change (96 - 32 * Z.of_nat 0) with 96. rewrite Z.shiftr_div_pow2 by lia.
  rewrite wrap_id; [rewrite Z.mul_comm; symmetry; apply Z.div_mod; lia|]. split; [apply Z.div_pos; lia|].
  apply Z.div_lt_upper_bound; [lia|]. by change (2 ^ 96 * 2 ^ 32) with (2 ^ 128).
Qed.

Lemma tc_bits old t :
  is_u32 old → is_u8 t →
  let x := Z.lor (Z.land old 0xf00fffff) (u32 (Z.shiftl t 20)) in
  is_u32 x ∧ u8 (Z.shiftr x 20) = t ∧ Z.land x IPV6_LABEL_MASK = Z.land old IPV6_LABEL_MASK.
Proof.
  intros Ho Ht x. assert (Hm : ∀ i, 0 ≤ i → Z.testbit 0xf00fffff i = (i <? 20) || ((28 <=? i) && (i <? 32))).
  { intros i Hi. destruct (Z.ltb_spec i 32).
    - change 0xf00fffff with (Z.lor (Z.ones 20) (Z.shiftl (Z.ones 4) 28)).
      rewrite Z.lor_spec, Z.shiftl_spec, !Z.testbit_ones by lia. destruct (Z.ltb_spec i 20), (Z.leb_spec 28 i), (Z.leb_spec 0 i), (Z.leb_spec 0 (i - 28)), (Z.ltb_spec (i - 28) 4); cbn; lia || done.
    - rewrite (testbit_high 32) by (done || lia). destruct (Z.ltb_spec i 20); [lia|]. by rewrite andb_false_r. }
  assert (Hx : ∀ i, 0 ≤ i → Z.testbit x i = if (20 <=? i) && (i <? 28) then Z.testbit t (i - 20) else Z.testbit old i).
  { intros i Hi. unfold x. rewrite Z.lor_spec, Z.land_spec, Hm, testbit_wrap, Z.shiftl_spec by lia.
    destruct (Z.leb_spec 20 i); [|rewrite (Z.testbit_neg_r t) by lia; rewrite (proj2 (Z.ltb_lt i 20)) by lia; cbn; by rewrite andb_true_r, andb_false_r, orb_false_r].
    destruct (Z.ltb_spec i 28).
    - rewrite (proj2 (Z.ltb_ge i 20)), (proj2 (Z.leb_gt 28 i)), (proj2 (Z.ltb_lt i 32)) by lia. cbn. by rewrite andb_false_r.
    - rewrite (testbit_high 8 t) by (done || lia). rewrite andb_false_r, orb_false_r. destruct (Z.ltb_spec i 20), (Z.leb_spec 28 i), (Z.ltb_spec i 32); cbn; try lia; rewrite ?andb_true_r; try done.
      rewrite andb_false_r. symmetry. by apply (testbit_high 32). }
  split; [|split].
  - unfold x. apply lor_in_width; [lia|apply land_in_width; [lia|done]|by apply wrap_in_width].
  - apply Z.bits_inj'. intros i Hi. rewrite testbit_wrap, Z.shiftr_spec, Hx by lia. destruct (Z.ltb_spec i 8); cbn.
    + rewrite (proj2 (Z.leb_le _ _)), (proj2 (Z.ltb_lt _ _)) by lia. cbn. f_equal. lia.
    + symmetry. by apply (testbit_high 8).
  - apply Z.bits_inj'. intros i Hi. rewrite !Z.land_spec, Hx by done. change IPV6_LABEL_MASK with (Z.ones 20). rewrite Z.testbit_ones by lia.
    destruct (Z.ltb_spec i 20); [rewrite (proj2 (Z.leb_gt 20 i)) by lia; done|]. by rewrite !andb_false_r.
Qed.

Lemma label_bits old l :
  is_u32 old → in_width 20 l →
  let x := Z.lor (and_not old IPV6_LABEL_MASK) l in
  is_u32 x ∧ Z.shiftr x 20 = Z.shiftr old 20 ∧ Z.land x IPV6_LABEL_MASK = l.
Proof.
  intros Ho Hl x. change IPV6_LABEL_MASK with (Z.ones 20) in *. split; [|split].
  - apply lor_in_width; [lia|by apply ldiff_in_width|by apply (in_width_mono 20)].
  - apply Z.bits_inj'. intros i Hi. unfold x, and_not. rewrite !Z.shiftr_spec, Z.lor_spec, Z.ldiff_spec, Z.testbit_ones by lia.
    rewrite (testbit_high 20 l) by (done || lia). rewrite (proj2 (Z.ltb_ge _ _)) by lia. by rewrite !andb_false_r, andb_true_r, orb_false_r.
  - apply Z.bits_inj'. intros i Hi. unfold x, and_not. rewrite Z.land_spec, Z.lor_spec, Z.ldiff_spec, Z.testbit_ones by lia.
    destruct (Z.ltb_spec i 20).
    + rewrite (proj2 (Z.leb_le 0 i)) by lia. cbn. by rewrite andb_false_r, andb_true_r.
    + rewrite !andb_false_r. symmetry. by apply (testbit_high 20).
Qed.

(** ** Routing headers *)

(** The search for a routing header ends. *)
Lemma rh_loop_total fuel nh data : Forall is_u8 data → (length data ≤ fuel)%nat → ∃ x, rh_loop fuel nh data = Some x.
Proof.
  revert nh data. induction fuel as [|fuel IH]; intros nh data Hd Hl; cbn [rh_loop]; (destruct (negb _); [by eexists|]);
    (destruct (Nat.ltb_spec (length data) 8) as [|H8]; [by eexists|]); [lia|].
  rewrite !rd_fld by lia. cbn [mbind option_bind]. destruct (_ && _); [by eexists|]. assert (H : is_u8 (fld data 1 1)) by (apply (fld_width 1 1); [done|lia]).
  match goal with |- context [(length data <? ?n)%nat] => assert (Hn : (8 ≤ n)%nat); [|set (len := n) in *] end.
  { unfold in_width in H. repeat case_match; lia. }
  destruct (_ <? _)%nat; [by eexists|]. apply IH; [by apply Forall_drop|]. rewrite length_drop. lia.
Qed.

Lemma packet_rh_present_total p pre nh lb : at_l3 p pre nh lb → Forall is_u8 nh → ∃ x, packet_rh_present p = Some x.
Proof.
  intros Hat Hn. unfold packet_rh_present. rewrite (at_m3 _ _ _ _ Hat), (at_m4 _ _ _ _ Hat), (at_data _ _ _ _ Hat). cbn [mbind option_bind].
  rewrite Nat2Z.id, drop_app_length. replace (Z.to_nat _) with (length nh) by lia. rewrite take_app_length.
  destruct (Nat.ltb_spec (length nh) 40); [by eexists|]. rewrite rd_fld by lia. cbn [mbind option_bind]. apply rh_loop_total; [by apply Forall_drop|].
  rewrite length_drop. lia.
Qed.

(** ** Addresses *)

Lemma packet_update_csum128_spec p pre nh lb proto old new :
  at_l3 p pre nh lb → l4_fits proto (has_l7 p) lb →
  packet_update_csum128 p proto old new = Some (set_data (pre ++ nh ++ l4_update proto (has_l7 p) (λ c, recalc_csum128 c old new) lb) p).
Proof.
  intros Hat Hf. unfold packet_update_csum128, l4_update. fold (has_l7 p). destruct (has_l7 p).
  - destruct Hf as [Ht Hu]; [done|]. rewrite !andb_true_r. destruct (Z.eqb_spec proto IPPROTO_TCP) as [E|_].
    { specialize (Ht E). rewrite (at_rd4 _ _ _ _ _ _ Hat) by lia. cbn [mbind option_bind]. by rewrite (at_wr4 _ _ _ _ _ _ _ Hat) by lia. }
    destruct (Z.eqb_spec proto IPPROTO_UDP) as [E|_].
    { specialize (Hu E). rewrite (at_rd4 _ _ _ _ _ _ Hat) by lia. cbn [mbind option_bind]. destruct (_ =? 0); cbn [negb].
      - by rewrite <- (at_data _ _ _ _ Hat), set_data_same.
      - by rewrite (at_wr4 _ _ _ _ _ _ _ Hat) by lia. }
    by rewrite <- (at_data _ _ _ _ Hat), set_data_same.
  - rewrite !andb_false_r. by rewrite <- (at_data _ _ _ _ Hat), set_data_same.
Qed.

(** The bytes of the header that may have changed, and the transport header. *)
Record ip6_step (proto : Z) (l7 : bool) (nh lb nh' lb' : list Z) : Prop := {
  i6s_length : length nh' = length nh;
  i6s_bytes : Forall is_u8 nh';
  i6s_next : fld nh' 6 1 = fld nh 6 1;
  i6s_ext : drop 40 nh' = drop 40 nh;
  i6s_l4 : ∃ old new, l4_step proto l7 old new lb lb'
}.

Lemma ip6_step_trans proto l7 nh lb nh1 lb1 nh2 lb2 : ip6_step proto l7 nh lb nh1 lb1 → ip6_step proto l7 nh1 lb1 nh2 lb2 → ip6_step proto l7 nh lb nh2 lb2.
Proof.
  intros [A1 A2 A3 A4 (o1 & n1 & A5)] [B1 B2 B3 B4 (o2 & n2 & B5)]. split; [congruence|done|congruence|congruence|].
  exists (o1 + o2), (n1 + n2). by eapply l4_step_trans.
Qed.

(** Writing a part of the fixed header that is not the next header. *)
Lemma ip6_step_put proto l7 nh lb lb' ofs len v old new :
  Forall is_u8 nh → (40 ≤ length nh)%nat → (ofs + len ≤ 40)%nat → (ofs + len ≤ 6 ∨ 7 ≤ ofs)%nat → l4_step proto l7 old new lb lb' →
  ip6_step proto l7 nh lb (put ofs (be_bytes len v) nh) lb'.
Proof.
  intros Hb Hl Ho Hd H4. split.
  - apply length_put. rewrite length_be_bytes. lia.
  - apply put_u8; [apply be_bytes_u8|done].
  - apply fld_put_other; rewrite ?length_be_bytes; lia.
  - apply drop_put; rewrite ?length_be_bytes; lia.
  - by eexists _, _.
Qed.

Lemma packet_set_ipv6_addr_spec p pre nh lb proto ofs new recalc :
  at_l3 p pre nh lb → Forall is_u8 nh → Forall is_u8 lb → (40 ≤ length nh)%nat → ofs = 8%nat ∨ ofs = 24%nat → in_width 128 new →
  l4_fits proto (has_l7 p) lb →
  ∃ lb', packet_set_ipv6_addr p proto ofs new recalc = Some (set_data (pre ++ put ofs (be_bytes 4 (word_of_128 new 0)) nh ++ lb') p)
    ∧ ip6_step proto (has_l7 p) nh lb (put ofs (be_bytes 4 (word_of_128 new 0)) nh) lb'.
Proof.
  intros Hat Hn Hb Hl Ho Hw Hf. assert (Ho' : (8 ≤ ofs ∧ ofs + 16 ≤ 40)%nat) by (destruct Ho; lia). unfold packet_set_ipv6_addr. destruct recalc.
  - rewrite (at_rd3 _ _ _ _ ofs 16 Hat) by lia. cbn [mbind option_bind]. rewrite (packet_update_csum128_spec _ _ _ _ _ _ _ Hat Hf). cbn [mbind option_bind].
    set (lb1 := l4_update _ _ _ _). pose proof (at_set _ _ _ _ nh lb1 Hat eq_refl) as Hat1. rewrite (at_wr3 _ _ _ _ _ _ _ Hat1) by lia.
    exists lb1. split; [done|]. apply (ip6_step_put _ _ _ _ _ _ _ _ (fld nh ofs 16) new); try done; [lia|lia|]. apply l4_update_step; [done|done|].
    intros c Hc. apply recalc_csum128_spec; [done| |done]. apply (fld_width ofs 16); [done|lia].
  - cbn [mbind option_bind]. rewrite (at_wr3 _ _ _ _ _ _ _ Hat) by lia. exists lb. split; [done|].
    apply (ip6_step_put _ _ _ _ _ _ _ _ 0 0); try done; [lia|lia|]. by apply l4_step_refl.
Qed.

Lemma set_addr6_if p pre nh lb proto ofs new f recalc :
  at_l3 p pre nh lb → Forall is_u8 nh → Forall is_u8 lb → (40 ≤ length nh)%nat → ofs = 8%nat ∨ ofs = 24%nat → in_width 128 new →
  l4_fits proto (has_l7 p) lb → f = packet_set_ipv6_addr p proto ofs new recalc →
  ∃ nh' lb', (if negb (fld nh ofs 16 =? new) then f else Some p) = Some (set_data (pre ++ nh' ++ lb') p)
    ∧ ip6_step proto (has_l7 p) nh lb nh' lb' ∧ fld nh' ofs 16 = splice_128 new (fld nh ofs 16)
    ∧ ∀ o l, (o + l ≤ length nh)%nat → (o + l ≤ ofs ∨ ofs + 16 ≤ o)%nat → fld nh' o l = fld nh o l.
Proof.
  intros Hat Hn Hb Hl Ho Hw Hf ->. assert (Ho' : (8 ≤ ofs ∧ ofs + 16 ≤ 40)%nat) by (destruct Ho; lia).
  destruct (Z.eqb_spec (fld nh ofs 16) new) as [<-|Hne]; cbn [negb].
  - exists nh, lb. split; [by rewrite <- (at_data _ _ _ _ Hat), set_data_same|]. split; [split; try done; by exists 0, 0; apply l4_step_refl|].
    by rewrite splice_same.
  - destruct (packet_set_ipv6_addr_spec p pre nh lb proto ofs new recalc) as (lb' & -> & Hs); [done..|]. eexists _, lb'. split; [done|]. split; [done|].
    split; [apply fld_put_first; [done|lia|apply word_of_128_u32]|]. intros o l Hol Hd. apply fld_put_other; rewrite ?length_be_bytes; lia.
Qed.

(** The traffic class, the label and the hop limit. *)
Lemma set_ipv6_words p pre nh lb proto key_tc key_fl key_hl :
  at_l3 p pre nh lb → Forall is_u8 nh → Forall is_u8 lb → (40 ≤ length nh)%nat → is_u8 key_tc → in_width 20 key_fl → is_u8 key_hl →
  ∃ nh', (p' ← packet_set_ipv6_tc p key_tc; p' ← packet_set_ipv6_flow_label p' key_fl; wrm (ob_l3 p) 7 1 key_hl p')
         = Some (set_data (pre ++ nh' ++ lb) p)
    ∧ ip6_step proto (has_l7 p) nh lb nh' lb
    ∧ u8 (Z.shiftr (fld nh' 0 4) 20) = key_tc ∧ Z.land (fld nh' 0 4) IPV6_LABEL_MASK = key_fl ∧ fld nh' 7 1 = key_hl
    ∧ ∀ o l, (8 ≤ o)%nat → (o + l ≤ length nh)%nat → fld nh' o l = fld nh o l.
Proof.
  intros Hat Hn Hb Hl Ht Hf Hh. assert (Hlb : ∀ n x, length (be_bytes n x) = n) by (intros; apply length_be_bytes).
  unfold packet_set_ipv6_tc. rewrite (at_rd3 _ _ _ _ 0 4 Hat) by lia. cbn [mbind option_bind]. rewrite (at_wr3 _ _ _ _ _ _ _ Hat) by lia. cbn [mbind option_bind].
  destruct (tc_bits (fld nh 0 4) key_tc) as (W3 & T3 & M3); [apply (fld_width 0 4); [done|lia]|done|].
  set (w3 := Z.lor (Z.land (fld nh 0 4) 0xf00fffff) (u32 (Z.shiftl key_tc 20))) in *. set (n3 := put 0 (be_bytes 4 w3) nh).
  assert (L3 : length n3 = length nh) by (apply length_put; rewrite Hlb; lia). assert (B3 : Forall is_u8 n3) by (apply put_u8; [apply be_bytes_u8|done]).
  pose proof (at_set p _ _ _ n3 lb Hat L3) as Hat3. set (p3 := set_data (pre ++ n3 ++ lb) p) in *.
  unfold packet_set_ipv6_flow_label. rewrite (at_rd3 _ _ _ _ 0 4 Hat3) by lia. cbn [mbind option_bind].
  rewrite (at_wr3 _ _ _ _ _ _ _ Hat3) by lia. cbn [mbind option_bind].
  assert (E3 : fld n3 0 4 = w3) by (unfold n3; rewrite fld_put_same by lia; by apply wrap_id). rewrite E3.
  destruct (label_bits w3 key_fl W3 Hf) as (W4 & T4 & M4). set (w4 := Z.lor (and_not w3 IPV6_LABEL_MASK) key_fl) in *. set (n4 := put 0 (be_bytes 4 w4) n3).
  assert (L4 : length n4 = length n3) by (apply length_put; rewrite Hlb; lia). assert (B4 : Forall is_u8 n4) by (apply put_u8; [apply be_bytes_u8|done]).
  pose proof (at_set p3 _ _ _ n4 lb Hat3 L4) as Hat4. set (p4 := set_data (pre ++ n4 ++ lb) p3) in *.
  change (ob_l3 p) with (ob_l3 p4). rewrite (at_wr3 _ _ _ _ _ _ _ Hat4) by lia. eexists. split; [done|].
  assert (X : l4_step proto (has_l7 p) 0 0 lb lb) by by apply l4_step_refl. split_and!.
  - assert (Y1 : ip6_step proto (has_l7 p) nh lb n3 lb) by (apply (ip6_step_put _ _ _ lb lb 0 4 w3 0 0); [done|lia|lia|lia|done]).
    assert (Y2 : ip6_step proto (has_l7 p) n3 lb n4 lb) by (apply (ip6_step_put _ _ _ lb lb 0 4 w4 0 0); [done|lia|lia|lia|done]).
    eapply ip6_step_trans; [exact Y1|]. eapply ip6_step_trans; [exact Y2|]. apply (ip6_step_put _ _ _ lb lb 7 1 key_hl 0 0); [done|lia|lia|lia|done].
  - rewrite fld_put_other by (rewrite ?Hlb; lia). unfold n4. rewrite fld_put_same by lia. change (8 * Z.of_nat 4) with 32. rewrite (wrap_id 32) by done. by rewrite T4.
  - rewrite fld_put_other by (rewrite ?Hlb; lia). unfold n4. rewrite fld_put_same by lia. change (8 * Z.of_nat 4) with 32. by rewrite (wrap_id 32).
  - rewrite fld_put_same by lia. by apply wrap_id.
  - intros o l Ho Hol. unfold n4, n3 in *. by rewrite !fld_put_other by (rewrite ?Hlb; lia).
Qed.

(** All of it. *)
Record ipv6_changed (proto : Z) (l7 : bool) (src dst key_tc key_fl key_hl : Z) (nh lb nh' lb' : list Z) : Prop := {
  i6c_step : ip6_step proto l7 nh lb nh' lb';
  i6c_src : fld nh' 8 16 = splice_128 src (fld nh 8 16);
  i6c_dst : fld nh' 24 16 = splice_128 dst (fld nh 24 16);
  i6c_tc : u8 (Z.shiftr (fld nh' 0 4) 20) = key_tc;
  i6c_label : Z.land (fld nh' 0 4) IPV6_LABEL_MASK = key_fl;
  i6c_hl : fld nh' 7 1 = key_hl
}.

Lemma packet_set_ipv6_spec p pre nh lb proto src dst key_tc key_fl key_hl :
  at_l3 p pre nh lb → Forall is_u8 nh → Forall is_u8 lb → (40 ≤ length nh)%nat → in_width 128 src → in_width 128 dst →
  is_u8 key_tc → in_width 20 key_fl → is_u8 key_hl → l4_fits proto (has_l7 p) lb →
  ∃ nh' lb', packet_set_ipv6 p proto src dst key_tc key_fl key_hl = Some (set_data (pre ++ nh' ++ lb') p)
    ∧ ipv6_changed proto (has_l7 p) src dst key_tc key_fl key_hl nh lb nh' lb'.
Proof.
  intros Hat Hn Hb Hl Hs Hd Ht Hf Hh H4. unfold packet_set_ipv6. cbn zeta. rewrite (at_rd3 _ _ _ _ 8 16 Hat) by lia. cbn [mbind option_bind].
  destruct (set_addr6_if p pre nh lb proto 8 src _ true Hat Hn Hb Hl ltac:(by left) Hs H4 eq_refl) as (n1 & b1 & -> & S1 & V1 & O1).
  cbn [mbind option_bind]. pose proof S1 as [L1 B1 _ _ (? & ? & X1)]. pose proof (at_set _ _ _ _ n1 b1 Hat L1) as Hat1. set (p1 := set_data (pre ++ n1 ++ b1) p) in *.
  change (ob_l3 p) with (ob_l3 p1). rewrite (at_rd3 _ _ _ _ 24 16 Hat1) by lia. cbn [mbind option_bind].
  destruct (packet_rh_present_total p1 pre n1 b1 Hat1 B1) as [rh ->]. cbn [mbind option_bind].
  assert (H4' : l4_fits proto (has_l7 p1) b1) by (unfold l4_fits; rewrite (ls_length _ _ _ _ _ _ X1); exact H4).
  destruct (set_addr6_if p1 pre n1 b1 proto 24 dst _ (negb rh) Hat1 B1 (ls_bytes _ _ _ _ _ _ X1) ltac:(lia) ltac:(by right) Hd H4' eq_refl)
    as (n2 & b2 & -> & S2 & V2 & O2).
  cbn [mbind option_bind]. pose proof S2 as [L2 B2 _ _ (? & ? & X2)]. change (set_data _ p1) with (set_data (pre ++ n2 ++ b2) p). change (has_l7 p1) with (has_l7 p) in *.
  pose proof (at_set p _ _ _ n2 b2 Hat ltac:(lia)) as Hat2. set (p2 := set_data (pre ++ n2 ++ b2) p) in *.
  destruct (set_ipv6_words p2 pre n2 b2 proto key_tc key_fl key_hl Hat2 B2 (ls_bytes _ _ _ _ _ _ X2) ltac:(lia) Ht Hf Hh) as (n3 & E3 & S3 & V3 & V4 & V5 & O3).
  change (ob_l3 p1) with (ob_l3 p2). rewrite E3. exists n3, b2. split; [done|]. rewrite L2 in O3. rewrite L1 in *. split; [|..|done|done|done].
  - eapply ip6_step_trans; [exact S1|]. by eapply ip6_step_trans; [exact S2|].
  - rewrite O3, O2 by lia. exact V1.
  - rewrite O3, V2, O1 by lia. done.
Qed.

(** ** The flow *)

Lemma upd_commute f g v w (fl : flowf) : f ≠ g → upd f v (upd g w fl) = upd g w (upd f v fl).
Proof. intros H. apply flow_funext. intros h. unfold upd. repeat case_decide; congruence. Qed.

Lemma set_fields_upd l f v fl : Forall (λ p, p.1 ≠ f) l → set_fields l (upd f v fl) = upd f v (set_fields l fl).
Proof.
  intros Hl. revert fl. induction Hl as [|[g w] l Hg Hl IH]; intros fl; [done|]. unfold set_fields in *. cbn [foldl fst snd] in *.
  by rewrite upd_commute, IH by done.
Qed.

Lemma parse_ipv6_loop_set fuel nh b l fl :
  Forall (λ p, p.1 ≠ F_nw_frag) l →
  parse_ipv6_loop fuel nh b (set_fields l fl) = (λ r, (r.1, set_fields l r.2)) <$> parse_ipv6_loop fuel nh b fl.
Proof.
  intros Hl. revert nh b fl. induction fuel as [|fuel IH]; intros nh b fl.
  { cbn [parse_ipv6_loop]. destruct (negb _); [done|]. by destruct (_ <? _)%nat. }
  rewrite !parse_ipv6_loop_form. destruct (negb _); [done|]. destruct (_ <? _)%nat; [done|]. destruct (ofpbuf_try_pull _ b) as [[h b']|]; [|done].
  assert (E : ext_frag nh b (set_fields l fl) = (set_fields l (ext_frag nh b fl).1, (ext_frag nh b fl).2)).
  { unfold ext_frag. repeat case_match; cbn [fst snd]; rewrite ?set_fields_upd by done; done. }
  rewrite E. destruct (ext_frag nh b fl) as [fl1 later]. cbn [fst snd]. destruct later; [done|apply IH].
Qed.

Definition ipv6_key (src dst key_tc key_fl key_hl : Z) : list (MatchFields.field * Z) :=
  [(F_ipv6_src, src); (F_ipv6_dst, dst); (F_ipv6_label, key_fl); (F_nw_tos, key_tc); (F_nw_ttl, key_hl)].

Lemma fld_take d n o l : (o + l ≤ n)%nat → (n ≤ length d)%nat → fld (take n d) o l = fld d o l.
Proof. intros H1 H2. apply fld_of_rd. by rewrite rd_take, rd_fld by lia. Qed.

Lemma ip6_fields_changed proto l7 src dst key_tc key_fl key_hl h ext lb nh' lb' fl :
  length h = 40%nat → ipv6_changed proto l7 src dst key_tc key_fl key_hl (h ++ ext) lb nh' lb' →
  ∃ h', nh' = h' ++ ext ∧ length h' = 40%nat ∧ fld h' 6 1 = fld h 6 1 ∧
    ip6_fields h' fl = set_fields (ipv6_key (splice_128 src (fld h 8 16)) (splice_128 dst (fld h 24 16)) key_tc key_fl key_hl) (ip6_fields h fl).
Proof.
  intros Hh [[S1 S2 S3 S4 _] C1 C2 C3 C4 C5]. rewrite length_app in S1. rewrite !fld_app_l in C1, C2, S3 by lia.
  rewrite (drop_app_length' h) in S4 by done. exists (take 40 nh'). split; [by rewrite <- S4, take_drop|]. split; [rewrite length_take; lia|].
  split; [by rewrite fld_take by lia|]. unfold ip6_fields. rewrite !fld_take by lia. rewrite C1, C2, C3, C4, C5. apply flow_funext. intros f.
  unfold ipv6_key, set_fields. cbn [foldl fst snd]. unfold upd. repeat case_decide; congruence.
Qed.

Lemma parsed_set_ipv6 p key fl src dst key_tc key_fl key_hl :
  parsed p key fl → fl F_dl_type = ETH_TYPE_IPV6 → fl F_nw_proto ≠ 0 → fl F_nw_proto ≠ IPPROTO_NONE →
  in_width 128 src → in_width 128 dst → is_u8 key_tc → in_width 20 key_fl → is_u8 key_hl →
  ∃ p', packet_set_ipv6 p (fl F_nw_proto) src dst key_tc key_fl key_hl = Some p'
    ∧ parsed p' key (set_fields (ipv6_key (splice_128 src (fl F_ipv6_src)) (splice_128 dst (fl F_ipv6_dst)) key_tc key_fl key_hl) fl).
Proof.
  intros Hp Hty Hp0 Hp1 Hs Hd Ht Hf Hh. destruct (parsed_framed p key fl) as (pre & b3 & l4 & l7 & r & e & Hfr); [done|by rewrite Hty..|].
  destruct Hfr as [F1 [F2 F3] Fp Hfl F5 F6]. rewrite Hty in F5, F6. change (parse_l3_ipv6 b3 (typed_flow ETH_TYPE_IPV6) = Some (l4, l7, r)) in F5.
  assert (Hpr : fl F_nw_proto = r F_nw_proto) by (by rewrite Hfl).
  destruct (parse_l3_ipv6_inv _ _ _ _ _ F3 F5) as [(-> & -> & Hr)|(h & ext & lb & proto & fl' & -> & Hi & E4)].
  { exfalso. rewrite Hpr in *. destruct Hr as [->|[Hr _]]; done. }
  assert (Hpr0 : fl F_nw_proto = proto) by (rewrite Hpr, (parse_l4_keep _ _ _ _ _ _ _ E4) by done; apply upd_eq).
  pose proof Hi as [I1 -> I3]. apply Forall_app in F3 as [Fn Fb]. apply Forall_app in Fb as [Fe Fb].
  rewrite (app_assoc h ext lb) in Fp. assert (Hat : at_l3 p pre (h ++ ext) lb) by (rewrite Fp; apply at_l3_markers).
  assert (H7 : has_l7 p = bool_decide (is_Some l7)) by (rewrite Fp; apply has_l7_markers).
  rewrite Hpr0. destruct (packet_set_ipv6_spec p pre (h ++ ext) lb proto src dst key_tc key_fl key_hl) as (nh' & lb' & E & Hc); try done.
  { by apply Forall_app_2. } { rewrite length_app. lia. } { rewrite H7. by eapply parse_l4_fits. }
  rewrite E. eexists. split; [done|]. pose proof Hc as [[S1 S2 _ _ (o & n & X)] _ _ _ _ _]. rewrite H7 in X.
  destruct (ip6_fields_changed _ _ _ _ _ _ _ _ _ _ _ _ (typed_flow ETH_TYPE_IPV6) I1 Hc) as (h' & -> & L' & N' & Hfi).
  assert (Es : fl F_ipv6_src = fld h 8 16 ∧ fl F_ipv6_dst = fld h 24 16).
  { pose proof (parse_ipv6_loop_keep _ _ _ _ _ _ F_ipv6_src (I3 lb eq_refl)) as K1. pose proof (parse_ipv6_loop_keep _ _ _ _ _ _ F_ipv6_dst (I3 lb eq_refl)) as K2.
    rewrite Hfl, !overlay_late, !(parse_l4_keep _ _ _ _ _ _ _ E4), !upd_ne by done. by rewrite K1, K2. }
  destruct Es as [-> ->]. set (K := ipv6_key _ _ _ _ _) in *.
  rewrite Fp, (markers_replace _ _ _ ((h' ++ ext) ++ lb') _ lb' _ _ (set_fields K r)) by (rewrite ?length_app in *; rewrite ?(ls_length _ _ _ _ _ _ X); lia).
  rewrite Hfl, overlay_set_fields by (repeat constructor). apply Forall_app in S2 as [S2 _].
  rewrite <- app_assoc. apply F6; [repeat apply Forall_app_2; try done; apply X|rewrite !length_app, (ls_length _ _ _ _ _ _ X); lia|].
  change (parse_l3_ipv6 (h' ++ ext ++ lb') (typed_flow ETH_TYPE_IPV6) = Some (Some lb', l7, set_fields K r)).
  rewrite parse_l3_ipv6_form, N', Hfi by done. rewrite parse_ipv6_loop_set, (I3 lb') by (apply X || by repeat constructor).
  cbn [mbind option_bind fmap option_fmap option_map fst snd]. rewrite <- set_fields_upd by (by repeat constructor).
  pose proof (parse_l4_step _ _ _ _ _ _ _ _ _ E4 X) as E4'. rewrite (parse_l4_flow _ _ _ _ _ _ _ E4') by (by intros []). cbn [mbind option_bind]. do 2 f_equal.
  apply overlay_l4_set; [|by repeat constructor]. intros f Hf'. by eapply parse_l4_keep.
Qed.
