(* ===== verification/PacketMpls.v ===== *)
(** * VLAN tags and MPLS labels

    Popping what was pushed gives the packet back; setting a label sets it in
    the flow. *)
From stdpp Require Import list.
From S2P Require Import Prelude ByteOrder FlowLayout Hash Bitwise MatchFields MetaFlow OdpActions Csum Packets PacketBytes PacketView PacketExec PacketFrame PacketIp PacketL3 PacketL4 PacketIp6.

(** ** Inserting and removing four bytes *)

Lemma move_data_move a b d d' p : move_data b d' (move_data a d p) = move_data (a + b) d' p.
Proof.
  unfold move_data. cbn [ob_l2 ob_l2_5 ob_l3 ob_l4 ob_l7]. f_equal; rewrite <- option_fmap_compose; apply option_fmap_ext; intros x; cbn; lia.
Qed.

Lemma move_data_0 p : move_data 0 (ob_data p) p = p.
Proof.
  destruct p as [d l2 l2_5 l3 l4 l7]. unfold move_data. cbn. f_equal; (etransitivity; [|apply option_fmap_id]); apply option_fmap_ext; intros x; unfold id; lia.
Qed.

Lemma vlan_push_pop_packet p tci :
  Forall is_u8 (ob_data p) → (14 ≤ length (ob_data p))%nat → ob_l2 p = Some 0 →
  (p' ← eth_push_vlan p tci; eth_pop_vlan p') = Some p.
Proof.
  intros Hb Hl H2. rewrite eth_push_vlan_spec by done. cbn [mbind option_bind]. set (d := ob_data p) in *.
  assert (Ea : length (take 12 d) = 12%nat) by (rewrite length_take; lia). set (d' := take 12 d ++ vlan_tag tci ++ drop 12 d).
  assert (Et : length (vlan_tag tci) = 4%nat) by done.
  rewrite eth_pop_vlan_spec; cbn [ob_data ob_l2 set_l2 move_data].
  - assert (E : take 12 d' ++ drop 16 d' = d).
    { unfold d'. rewrite take_app_length' by done. change 16%nat with (12 + 4)%nat. rewrite <- drop_drop, (drop_app_length' (take 12 d)) by done.
      rewrite (drop_app_length' (vlan_tag tci)) by done. apply take_drop. }
    rewrite E. destruct p as [d0 l2 l2_5 l3 l4 l7]. cbn in H2, d. subst l2. unfold set_l2, move_data. cbn.
    do 2 f_equal; rewrite <- option_fmap_compose; (etransitivity; [|apply option_fmap_id]); apply option_fmap_ext; intros x; unfold id; cbn; lia.
  - unfold d'. repeat apply Forall_app_2; [by apply Forall_take|apply be_bytes_u8..|by apply Forall_drop].
  - unfold d'. rewrite !length_app, Ea, Et, length_drop. lia.
  - done.
  - unfold d'. rewrite (rd_app_r 0 2 _ _ 12) by done. unfold vlan_tag. rewrite <- app_assoc, rd_be_bytes. done.
Qed.

(** ** MPLS *)

(** The offset of the Ethernet type for [set_ethertype], with the network or
    label stack at [n]. *)
Definition type_ofs (d : list Z) (n : nat) : nat := if bool_decide (rd 12 2 d = Some ETH_TYPE_VLAN) then (n - 2)%nat else 12%nat.

Lemma set_ethertype_spec p n et :
  (14 ≤ n ≤ length (ob_data p))%nat → (if ob_l2_5 p then ob_l2_5 p else ob_l3 p) = Some (Z.of_nat n) →
  set_ethertype p et = Some (set_data (put (type_ofs (ob_data p) n) (be_bytes 2 et) (ob_data p)) p).
Proof.
  intros Hn Hm. unfold set_ethertype, type_ofs. rewrite Hm, rd_fld by lia. cbn [mbind option_bind fmap option_fmap option_map].
  destruct (Z.eqb_spec (fld (ob_data p) 12 2) ETH_TYPE_VLAN) as [E|E].
  - rewrite bool_decide_true by congruence. replace (Z.of_nat n - 2) with (Z.of_nat (n - 2)) by lia. rewrite wrm_at by lia. by rewrite Nat.add_0_r.
  - rewrite bool_decide_false by congruence. rewrite wr_fits by lia. done.
Qed.

(** The packet with label [lse] at [n]. *)
Definition mpls_pushed (n : nat) (et lse : Z) (p : ofpbuf) : ofpbuf :=
  let d := put (type_ofs (ob_data p) n) (be_bytes 2 et) (ob_data p) in
  Ofpbuf (take n d ++ be_bytes 4 lse ++ drop n d) (Some 0) (Some (Z.of_nat n)) (Some (Z.of_nat n + 4))
    ((λ m, m + 4) <$> ob_l4 p) ((λ m, m + 4) <$> ob_l7 p).

Lemma type_ofs_fits d n : (14 ≤ n ≤ length d)%nat → (12 ≤ type_ofs d n ∧ type_ofs d n + 2 ≤ n)%nat.
Proof. intros H. unfold type_ofs. case_bool_decide; lia. Qed.

Lemma push_mpls_lse_spec p n lse :
  (n ≤ length (ob_data p))%nat → ob_l2 p = Some 0 → ob_l2_5 p = Some (Z.of_nat n) →
  push_mpls_lse p lse = Some (Ofpbuf (take n (ob_data p) ++ be_bytes 4 lse ++ drop n (ob_data p)) (Some 0) (Some (Z.of_nat n))
                                ((λ m, m + 4) <$> ob_l3 p) ((λ m, m + 4) <$> ob_l4 p) ((λ m, m + 4) <$> ob_l7 p)).
Proof.
  intros Hn H2 H25. set (d := ob_data p) in *.
  unfold push_mpls_lse, ofpbuf_push, move_data. cbn [ob_data ob_l2 ob_l2_5 ob_l3 ob_l4 ob_l7]. rewrite H2, H25. fold d.
  cbn [fmap option_fmap option_map mbind option_bind]. change (Z.of_nat (length [0; 0; 0; 0])) with 4. change (0 + 4) with 4.
  replace (Z.of_nat n + 4 - 4) with (Z.of_nat n) by lia. rewrite (proj2 (Z.leb_le 0 (Z.of_nat n))) by lia. change (0 <=? 4) with true. cbn [andb].
  unfold move_bytes. cbn [ob_data]. change (Z.to_nat 4) with 4%nat. rewrite Nat2Z.id. set (z := [0; 0; 0; 0]).
  assert (Lz : length (z ++ d) = (4 + length d)%nat) by done. rewrite !(proj2 (Nat.leb_le _ _)) by lia. cbn [andb mbind option_bind].
  assert (E : take 0 (z ++ d) ++ take n (drop 4 (z ++ d)) ++ drop (0 + n) (z ++ d) = put 0 (take n d) (z ++ d)).
  { rewrite put_0, length_take, Nat.min_l by lia. done. }
  rewrite E. cbn [ob_data set_data]. rewrite wr_next by (rewrite ?length_take; lia). cbn [mbind option_bind]. f_equal. unfold set_l2_5, set_l2, set_data.
  cbn [ob_data ob_l2 ob_l2_5 ob_l3 ob_l4 ob_l7]. f_equal.
  rewrite put_0, length_app, length_take, length_be_bytes, Nat.min_l by lia. rewrite <- app_assoc. do 2 f_equal.
  rewrite Nat.add_comm, <- drop_drop. done.
Qed.

Lemma push_mpls_spec p n et lse :
  (14 ≤ n ≤ length (ob_data p))%nat → ob_l2 p = Some 0 → ob_l2_5 p = None → ob_l3 p = Some (Z.of_nat n) → eth_type_mpls et = true →
  push_mpls p et lse = Some (mpls_pushed n et lse p).
Proof.
  intros Hn H2 H25 H3 He. unfold push_mpls. rewrite He. cbn [negb]. unfold is_mpls. rewrite H25. cbn [negb].
  rewrite (set_ethertype_spec p n et) by (rewrite ?H25; done). cbn [mbind option_bind]. unfold mpls_pushed.
  pose proof (type_ofs_fits _ _ Hn) as Ht. set (d := put _ _ (ob_data p)).
  assert (Hl : length d = length (ob_data p)) by (apply length_put; rewrite length_be_bytes; lia).
  rewrite (push_mpls_lse_spec _ n) by (cbn [ob_data ob_l2 ob_l2_5 ob_l3 set_l2_5 set_data]; done || lia).
  cbn [ob_data ob_l3 ob_l4 ob_l7 set_l2_5 set_data]. by rewrite H3.
Qed.

Lemma type_ofs_pushed n et lse d :
  (14 ≤ n ≤ length d)%nat → n ≠ 15%nat → eth_type_mpls et = true → is_u16 et →
  let d1 := put (type_ofs d n) (be_bytes 2 et) d in
  type_ofs (take n d1 ++ be_bytes 4 lse ++ drop n d1) n = type_ofs d n.
Proof.
  intros Hn H15 He Hu d1. pose proof (type_ofs_fits _ _ Hn) as Ht.
  assert (Hc : (type_ofs d n = (n - 2)%nat ∧ rd 12 2 d = Some ETH_TYPE_VLAN) ∨ (type_ofs d n = 12%nat ∧ rd 12 2 d ≠ Some ETH_TYPE_VLAN))
    by (unfold type_ofs; case_bool_decide; tauto).
  revert Hc Ht d1. generalize (type_ofs d n). intros t Hc Ht d1.
  assert (Hl : length d1 = length d) by (apply length_put; rewrite length_be_bytes; lia).
  unfold type_ofs. rewrite rd_app_l, rd_take by (rewrite ?length_take; lia). unfold d1. destruct Hc as [[-> E]|[-> E]].
  - destruct (decide (n = 14%nat)) as [->|Hne]; [by case_bool_decide|].
    rewrite rd_put_other by (rewrite ?length_be_bytes; lia). by rewrite bool_decide_true.
  - rewrite rd_put_same by lia. change (8 * Z.of_nat 2) with 16. rewrite wrap_id by done. rewrite bool_decide_false; [done|]. by intros [= ->].
Qed.

(** Popping the label [lse] off a packet that has it at [n]. *)
Lemma pop_mpls_spec d n lse old l3 l4 l7 :
  (14 ≤ n ≤ length d)%nat → is_u32 lse →
  let d' := take n d ++ be_bytes 4 lse ++ drop n d in
  let back := fmap (M:=option) (λ m, m - 4) in
  pop_mpls (Ofpbuf d' (Some 0) (Some (Z.of_nat n)) l3 l4 l7) old
  = Some (Ofpbuf (put (type_ofs d' n) (be_bytes 2 old) d) (Some 0)
            (if negb (Z.land lse MPLS_BOS_MASK =? 0) then None else Some (Z.of_nat n)) (back l3) (back l4) (back l7)).
Proof.
  intros Hn Hlse d' back. assert (Lt : length (take n d) = n) by (rewrite length_take; lia).
  assert (L2 : length d' = (length d + 4)%nat) by (unfold d'; rewrite !length_app, length_be_bytes, Lt, length_drop; lia).
  pose proof (type_ofs_fits d' n ltac:(lia)) as Ht. unfold pop_mpls, is_mpls. cbn [ob_l2_5 ob_l2 mbind option_bind].
  rewrite Z.sub_0_r. rewrite (set_ethertype_spec _ n) by (cbn [ob_data]; lia || done). cbn [mbind option_bind ob_data].
  revert Ht. generalize (type_ofs d' n). intros t Ht. set (x := put t (be_bytes 2 old) d).
  assert (E3 : put t (be_bytes 2 old) d' = take n x ++ be_bytes 4 lse ++ drop n x).
  { unfold d', x. rewrite put_app_l by (rewrite length_be_bytes; lia). rewrite drop_put by (rewrite ?length_be_bytes; lia). f_equal.
    rewrite <- (take_drop n d) at 2. rewrite put_app_l by (rewrite length_be_bytes; lia).
    by rewrite take_app_length' by (rewrite length_put; rewrite ?length_be_bytes; lia). }
  rewrite E3. assert (Lx : length x = length d) by (apply length_put; rewrite length_be_bytes; lia).
  assert (Lxn : length (take n x) = n) by (rewrite length_take; lia). clearbody x. clear E3.
  rewrite (rdm_at n 0 4). cbn [ob_data set_data]. rewrite (rd_app_r 0 4 _ _ n), rd_be_bytes by done.
  change (8 * Z.of_nat 4) with 32. rewrite wrap_id by done. cbn [mbind option_bind].
  rewrite (proj2 (Z.leb_le _ _)) by lia. unfold move_bytes, set_l2_5, set_data. cbn [ob_data ob_l2 ob_l2_5 ob_l3 ob_l4 ob_l7].
  rewrite Nat2Z.id. rewrite !(proj2 (Nat.leb_le _ _)) by (rewrite !length_app, length_be_bytes, Lxn, length_drop; lia). cbn [andb mbind option_bind].
  set (y := take n x ++ be_bytes 4 lse ++ drop n x).
  assert (Ey : take n y = take n x ∧ drop (4 + n) y = drop n x).
  { unfold y. rewrite take_app_length' by done. split; [done|]. rewrite Nat.add_comm, <- drop_drop, (drop_app_length' (take n x)) by done.
    by rewrite (drop_app_length' (be_bytes 4 lse)). }
  rewrite drop_0. destruct Ey as [-> ->]. unfold ofpbuf_drop. cbn [ob_data]. assert (L4 : length (take 4 y) = 4%nat).
  { rewrite length_take. unfold y. rewrite !length_app, length_be_bytes. lia. }
  rewrite (proj2 (Nat.leb_le _ _)) by (rewrite !length_app, L4; lia). rewrite (drop_app_length' (take 4 y)), take_drop by done. cbn [mbind option_bind].
  unfold set_l2, move_data. cbn [ob_data ob_l2 ob_l2_5 ob_l3 ob_l4 ob_l7 fmap option_fmap option_map]. do 2 f_equal.
  destruct (negb _); [done|]. cbn. f_equal. lia.
Qed.

Lemma marker_back_forth (m : option Z) : (λ m, m - 4) <$> ((λ m, m + 4) <$> m) = m.
Proof. rewrite <- option_fmap_compose. etransitivity; [|apply option_fmap_id]. apply option_fmap_ext. intros y. unfold id. cbn. lia. Qed.

(** Popping the label that was pushed, with the Ethernet type that was there. *)
Lemma mpls_push_pop_packet p n et lse old :
  Forall is_u8 (ob_data p) → (14 ≤ n ≤ length (ob_data p))%nat → n ≠ 15%nat → ob_l2 p = Some 0 → ob_l2_5 p = None → ob_l3 p = Some (Z.of_nat n) →
  eth_type_mpls et = true → is_u16 et → is_u32 lse → Z.land lse MPLS_BOS_MASK ≠ 0 → rd (type_ofs (ob_data p) n) 2 (ob_data p) = Some old →
  (p' ← push_mpls p et lse; pop_mpls p' old) = Some p.
Proof.
  intros Hb Hn H15 H2 H25 H3 He Hu Hlse Hbos Hold. rewrite (push_mpls_spec p n) by done. cbn [mbind option_bind]. unfold mpls_pushed.
  pose proof (type_ofs_pushed n et lse _ Hn H15 He Hu) as Hto. pose proof (type_ofs_fits _ _ Hn) as Ht. cbn zeta in *.
  assert (Hl : length (put (type_ofs (ob_data p) n) (be_bytes 2 et) (ob_data p)) = length (ob_data p)) by (apply length_put; rewrite length_be_bytes; lia).
  rewrite pop_mpls_spec by (done || lia). rewrite Hto, put_same_twice, (put_same _ 2 old) by (done || rewrite ?length_be_bytes; lia).
  rewrite (proj2 (Z.eqb_neq _ _) Hbos). cbn [negb]. rewrite !marker_back_forth. destruct p as [d l2 l2_5 l3 l4 l7]. cbn in *. subst. do 2 f_equal. f_equal. lia.
Qed.

(** Popping a label that was pushed on top of others. *)
Lemma mpls_restack_packet p n et lse old :
  Forall is_u8 (ob_data p) → (14 ≤ n ≤ length (ob_data p))%nat → ob_l2 p = Some 0 → ob_l2_5 p = Some (Z.of_nat n) →
  eth_type_mpls et = true → is_u32 lse → Z.land lse MPLS_BOS_MASK = 0 → rd (type_ofs (ob_data p) n) 2 (ob_data p) = Some old →
  (p' ← push_mpls p et lse; pop_mpls p' old) = Some p.
Proof.
  intros Hb Hn H2 H25 He Hlse Hbos Hold. unfold push_mpls. rewrite He. unfold is_mpls. rewrite H25. cbn [negb mbind option_bind].
  rewrite (push_mpls_lse_spec p n) by (done || lia). cbn [mbind option_bind]. rewrite pop_mpls_spec by (done || lia).
  assert (Hto : type_ofs (take n (ob_data p) ++ be_bytes 4 lse ++ drop n (ob_data p)) n = type_ofs (ob_data p) n).
  { unfold type_ofs. by rewrite rd_app_l, rd_take by (rewrite ?length_take; lia). }
  rewrite Hto, (put_same _ 2 old) by done. rewrite Hbos. cbn [Z.eqb negb]. rewrite !marker_back_forth.
  destruct p as [d l2 l2_5 l3 l4 l7]. cbn in *. by subst.
Qed.

(** C28: Popping undoes pushing, byte for byte and marker for marker.  On a
    packet whose network header or label stack is at offset 14, or at 18 or
    above, removing the VLAN tag that was added gives the packet back, whatever
    the tag.  So does removing the MPLS label that was added, with the Ethernet
    type which the packet had: on a packet without labels if the label has the
    bottom-of-stack bit, on a packet with labels if it does not have it. *)
Theorem push_pop_inverse p n :
  Forall is_u8 (ob_data p) → (n ≤ length (ob_data p))%nat → n = 14%nat ∨ (18 ≤ n)%nat → ob_l2 p = Some 0 →
  (∀ tci, (p' ← eth_push_vlan p tci; eth_pop_vlan p') = Some p)
  ∧ (∀ et lse old, eth_type_mpls et = true → is_u32 lse → rd (type_ofs (ob_data p) n) 2 (ob_data p) = Some old →
     (ob_l2_5 p = None ∧ ob_l3 p = Some (Z.of_nat n) ∧ Z.land lse MPLS_BOS_MASK ≠ 0
      ∨ ob_l2_5 p = Some (Z.of_nat n) ∧ Z.land lse MPLS_BOS_MASK = 0) →
     (p' ← push_mpls p et lse; pop_mpls p' old) = Some p).
Proof.
  intros Hb Hn Hn' H2. split; [intros tci; apply vlan_push_pop_packet; try done; lia|]. intros et lse old He Hl Hold [(H25 & H3 & Hbos)|[H25 Hbos]].
  - apply (mpls_push_pop_packet p n); try done; try lia.
    unfold eth_type_mpls in He. apply orb_true_iff in He as [He|He]; apply Z.eqb_eq in He as ->; by split.
  - apply (mpls_restack_packet p n); try done; lia.
Qed.

Lemma push_pop_inverse_witness :
  let p := Ofpbuf (be_bytes 6 2 ++ be_bytes 6 4 ++ be_bytes 2 0x1234 ++ replicate 46 0) (Some 0) None (Some 14) None None in
  let q := Ofpbuf (be_bytes 6 2 ++ be_bytes 6 4 ++ be_bytes 2 ETH_TYPE_MPLS ++ be_bytes 4 0x1140 ++ replicate 42 0) (Some 0) (Some 14) (Some 18) None None in
  (p' ← eth_push_vlan p 0x1005; eth_pop_vlan p') = Some p ∧ (p' ← push_mpls p ETH_TYPE_MPLS 0x1140; pop_mpls p' 0x1234) = Some p
  ∧ (q' ← push_mpls q ETH_TYPE_MPLS 0x2040; pop_mpls q' ETH_TYPE_MPLS) = Some q.
Proof.
  intros p q. assert (Hb : Forall is_u8 (ob_data p)) by (repeat apply Forall_app_2; try apply be_bytes_u8; apply Forall_replicate; by split).
  assert (Hq : Forall is_u8 (ob_data q)) by (repeat apply Forall_app_2; try apply be_bytes_u8; apply Forall_replicate; by split).
  destruct (push_pop_inverse p 14 Hb) as [H1 H2]; [cbn; lia|by left|done|]. split; [apply H1|]. split.
  - apply H2; [done..|]. left. split; [done|]. by split.
  - destruct (push_pop_inverse q 14 Hq) as [_ H3]; [cbn; lia|by left|done|]. apply H3; [done..|]. by right.
Defined.

(** ** Setting a label *)

(** Once the first label was read, the others only count. *)
Lemma parse_mpls_loop_lse fuel b fl v :
  1 ≤ fl F_mpls_depth → fl F_mpls_depth + Z.of_nat (length b) < 2 ^ 16 →
  parse_mpls_loop fuel b (upd F_mpls_lse v fl) = (λ r, (r.1, upd F_mpls_lse v r.2)) <$> parse_mpls_loop fuel b fl.
Proof.
  revert b fl. induction fuel as [|fuel IH]; intros b fl Hd Hl; cbn [parse_mpls_loop]; (destruct (ofpbuf_try_pull 4 b) as [[h b']|] eqn:Ep; [|done]); [done|].
  apply try_pull_app in Ep as [-> Hh]. rewrite length_app, Hh in Hl. destruct (rd 0 4 h) as [lse|]; [|done]. cbn [mbind option_bind].
  rewrite upd_ne by done. rewrite (proj2 (Z.eqb_neq (fl F_mpls_depth) 0)) by lia. rewrite upd_commute by done. destruct (negb _); [done|].
  assert (E : u16 (fl F_mpls_depth + 1) = fl F_mpls_depth + 1) by (apply wrap_id; split; lia). apply IH; rewrite upd_eq, E; lia.
Qed.

Lemma parse_mpls_set b b' fl lse lse' b3 fl3 :
  fl F_mpls_depth = 0 → Z.of_nat (length b) < 2 ^ 16 → Forall is_u8 b → (4 ≤ length b)%nat → is_u32 lse' →
  rd 0 4 b = Some lse → Z.land lse' MPLS_BOS_MASK = Z.land lse MPLS_BOS_MASK → b' = put 0 (be_bytes 4 lse') b →
  parse_mpls b fl = Some (b3, fl3) → ∃ b3', length b3' = length b3 ∧ parse_mpls b' fl = Some (b3', upd F_mpls_lse lse' fl3).
Proof.
  intros Hd Hl Hb H4 Hw Hr Hbos -> H. unfold parse_mpls in *. rewrite length_put by (rewrite length_be_bytes; lia).
  destruct (length b) as [|fuel] eqn:El; [lia|]. cbn [parse_mpls_loop] in *. unfold ofpbuf_try_pull in *.
  rewrite length_put by (rewrite length_be_bytes; lia). rewrite El in *. rewrite (proj2 (Nat.leb_le _ _)) in * by lia.
  rewrite rd_take in H by lia. rewrite Hr in H. cbn [mbind option_bind] in H. rewrite Hd in *. change (0 =? 0) with true in *. cbn match in *.
  rewrite rd_take by (rewrite ?length_put; rewrite ?length_be_bytes; lia). rewrite rd_put_same by lia. change (8 * Z.of_nat 4) with 32. rewrite (wrap_id 32) by done.
  cbn [mbind option_bind]. rewrite drop_put by (rewrite ?length_be_bytes; lia). rewrite Hbos. destruct (negb _).
  - injection H as <- <-. eexists. split; [done|]. do 2 f_equal. apply flow_funext. intros f. unfold upd. repeat case_decide; congruence.
  - exists b3. split; [done|]. set (g := upd F_mpls_depth _ (upd F_mpls_lse lse fl)) in *.
    assert (E : upd F_mpls_depth (u16 (0 + 1)) (upd F_mpls_lse lse' fl) = upd F_mpls_lse lse' g).
    { unfold g. apply flow_funext. intros f. unfold upd. repeat case_decide; congruence. }
    rewrite E, parse_mpls_loop_lse, H; [done|..]; unfold g; rewrite upd_eq; [done|]. rewrite length_drop, El. change (u16 (0 + 1)) with 1. lia.
Qed.

Lemma layers_mpls b t b2 ly :
  parse_ethertype b = Some (t, b2) → eth_type_mpls t = true →
  parse_layers b = Some ly ↔ ∃ b3 r, parse_mpls b2 (typed_flow t) = Some (b3, r) ∧ ly = Layers (Some b2) b3 None None r.
Proof.
  intros He Hm. unfold parse_layers. rewrite He. cbn [mbind option_bind]. rewrite Hm. fold (typed_flow t).
  destruct (parse_mpls b2 (typed_flow t)) as [[b3 r]|] eqn:E; cbn [mbind option_bind]; [|split; [done|by intros (? & ? & ? & _)]].
  assert (parse_l3 b3 r = Some (None, None, r)) as ->.
  { unfold parse_l3. rewrite (parse_mpls_keep _ _ _ _ F_dl_type E) by done. cbn.
    unfold eth_type_mpls in Hm. apply orb_true_iff in Hm as [Hm|Hm]; apply Z.eqb_eq in Hm; by rewrite Hm. }
  split; [intros [= <-]; by exists b3, r|by intros (? & ? & [= <- <-] & ->)].
Qed.

Lemma parsed_set_mpls p key fl lse :
  parsed p key fl → eth_type_mpls (fl F_dl_type) = true → fl F_mpls_depth ≠ 0 → Z.of_nat (length (ob_data p)) < 2 ^ 16 →
  is_u32 lse → Z.land lse MPLS_BOS_MASK = Z.land (fl F_mpls_lse) MPLS_BOS_MASK →
  ∃ p', set_mpls_lse p lse = Some p' ∧ parsed p' key (upd F_mpls_lse lse fl).
Proof.
  intros H Hm Hdep Hlen Hw Hbos. destruct (parsed_prefixed p key fl H) as (pre & pe & b2 & ly & e & [P1 [P2 P2'] -> P4 P5 P6 P7]).
  { intros E. by rewrite E in Hm. }
  apply (layers_mpls _ _ _ _ (P6 b2 eq_refl) Hm) in P5 as (b3 & r & E & ->).
  unfold set_mpls_lse, is_mpls. cbn [ob_l2_5 markers ly_l2_5 fmap option_fmap option_map ob_data] in *. rewrite length_app in *.
  assert (Hb4 : (4 ≤ length b2)%nat).
  { destruct (decide (4 ≤ length b2)%nat) as [?|Hno]; [done|]. destruct Hdep. rewrite P4, overlay_late by done. cbn [ly_flow].
    unfold parse_mpls in E. destruct (length b2) as [|n] eqn:Eb; cbn [parse_mpls_loop] in E; unfold ofpbuf_try_pull in E;
      rewrite (proj2 (Nat.leb_gt _ _)) in E by lia; by injection E as _ <-. }
  assert (Hr : rd 0 4 b2 = Some (fld b2 0 4)) by (by apply rd_fld). assert (Ww : is_u32 (fld b2 0 4)) by (by apply (fld_width 0 4)).
  assert (Hfl : fl F_mpls_lse = fld b2 0 4).
  { destruct (parse_mpls_set b2 b2 (typed_flow (fl F_dl_type)) (fld b2 0 4) (fld b2 0 4) b3 r) as (b3' & _ & E'); try done; [lia|by rewrite put_same|].
    rewrite E in E'. injection E' as _ E'. rewrite P4, overlay_late by done. cbn [ly_flow]. rewrite E'. apply upd_eq. }
  rewrite Hfl in Hbos.
  destruct (parse_mpls_set b2 (put 0 (be_bytes 4 lse) b2) (typed_flow (fl F_dl_type)) (fld b2 0 4) lse b3 r) as (b3' & Hl3 & E'); try done; [lia|].
  replace (Z.of_nat (length pre + length b2) - Z.of_nat (length b2)) with (Z.of_nat (length pre)) by lia.
  rewrite wrm_at by (cbn [ob_data markers]; rewrite length_app; lia). eexists. split; [done|]. cbn [ob_data markers].
  rewrite (put_app_r 0 _ pre) by done. rewrite P4, overlay_upd by done.
  assert (Lb : length (put 0 (be_bytes 4 lse) b2) = length b2) by (apply length_put; rewrite length_be_bytes; lia).
  assert (Em : ∀ x y, length x = length b2 → length y = length b3 → set_data (pre ++ x) (markers (pre ++ b2) (Layers (Some b2) b3 None None r))
    = markers (pre ++ x) (Layers (Some x) y None None (upd F_mpls_lse lse r))).
  { intros x y Hx Hy. unfold set_data, markers. cbn. by rewrite !length_app, Hx, Hy. }
  rewrite (Em _ b3') by done. apply (P7 _ (Layers (Some (put 0 (be_bytes 4 lse) b2)) b3' None None (upd F_mpls_lse lse r))); [apply put_u8; [apply be_bytes_u8|done]|done|].
  apply (layers_mpls _ _ _ _ (P6 _ Lb) Hm). by exists b3', (upd F_mpls_lse lse r).
Qed.
