(* ===== verification/PacketRefine.v ===== *)
(** * The datapath does what the flow says

    Executing actions on a packet refines [key_execute] on its flow, and with
    the actions that [commit_odp_actions] writes the packet gets the fields of
    the flow it was given. *)
From stdpp Require Import list.
From S2P Require Import Prelude ByteOrder FlowLayout Hash Bitwise MatchFields MetaFlow OdpActions Csum Packets PacketBytes PacketView PacketExec PacketFrame PacketIp PacketL3 PacketL4 PacketIp6 PacketMpls.

(** ** Single actions *)

(** When an action fits a packet with flow [fl], of [len] bytes.  The
    translation writes the actions of headers only for packets that have them,
    and of IPv6 addresses the code sets the first word. *)
Definition action_ok (len : Z) (fl : flowf) (a : odp_action) : Prop :=
  let ports (proto src dst : Z) :=
    dl_type_is_ip_any (fl F_dl_type) = true ∧ fl F_nw_proto = proto ∧ (fl F_tp_src ≠ 0 ∨ fl F_tp_dst ≠ 0) ∧ is_u16 src ∧ is_u16 dst in
  match a with
  | ODP_OUTPUT _ | ODP_SAMPLE _ _ _ | ODP_SET_PRIORITY _ | ODP_SET_SKB_MARK _ | ODP_SET_TUNNEL _ _ _ _ _ _ => True
  | ODP_SET_ETHERNET src dst => in_width 48 src ∧ in_width 48 dst
  | ODP_PUSH_VLAN _ tci => fl F_vlan_tci = 0 ∧ is_u16 tci ∧ Z.land tci VLAN_CFI ≠ 0
  | ODP_POP_VLAN => fl F_dl_type ≠ ETH_TYPE_VLAN
  | ODP_SET_IPV4 src dst _ tos ttl _ =>
      fl F_dl_type = ETH_TYPE_IP ∧ fl F_nw_proto ≠ 0 ∧ is_u32 src ∧ is_u32 dst ∧ is_u8 tos ∧ is_u8 ttl
  | ODP_SET_IPV6 src dst label proto tclass hlimit _ =>
      fl F_dl_type = ETH_TYPE_IPV6 ∧ fl F_nw_proto ≠ 0 ∧ fl F_nw_proto ≠ IPPROTO_NONE ∧ proto = fl F_nw_proto
      ∧ in_width 128 src ∧ in_width 128 dst ∧ in_width 20 label ∧ is_u8 tclass ∧ is_u8 hlimit
      ∧ src mod 2 ^ 96 = fl F_ipv6_src mod 2 ^ 96 ∧ dst mod 2 ^ 96 = fl F_ipv6_dst mod 2 ^ 96
  | ODP_SET_TCP src dst => ports IPPROTO_TCP src dst
  | ODP_SET_UDP src dst => ports IPPROTO_UDP src dst
  | ODP_SET_SCTP src dst => ports IPPROTO_SCTP src dst
  | ODP_SET_MPLS lse =>
      eth_type_mpls (fl F_dl_type) = true ∧ fl F_mpls_depth ≠ 0 ∧ len < 2 ^ 16 ∧ is_u32 lse
      ∧ Z.land lse MPLS_BOS_MASK = Z.land (fl F_mpls_lse) MPLS_BOS_MASK
  | ODP_PUSH_MPLS _ _ | ODP_POP_MPLS _ => False
  end.

Definition packet_len (p : ofpbuf) : Z := Z.of_nat (length (ob_data p)).

(** What an action has the datapath send. *)
Definition sends (p : ofpbuf) (key : flowf) (a : odp_action) (new : list odp_event) : Prop :=
  match a with
  | ODP_OUTPUT port => new = [EV_OUTPUT p port]
  | ODP_SAMPLE _ _ cookie => new = [] ∨ new = [EV_USERSPACE p key cookie]
  | _ => new = []
  end.

Lemma parsed_set_fields_metadata p key fl l :
  Forall (λ q, is_metadata q.1 = true) l → parsed p key fl → parsed p (set_fields l key) (set_fields l fl).
Proof.
  intros Hl. revert key fl. induction Hl as [|[f v] l Hf Hl IH]; intros key fl H; [done|]. apply (IH (upd f v key) (upd f v fl)). by apply parsed_metadata.
Qed.

Lemma set_action_refines p key fl a :
  parsed p key fl → action_ok (packet_len p) fl a →
  match a with ODP_OUTPUT _ | ODP_SAMPLE _ _ _ | ODP_PUSH_VLAN _ _ | ODP_POP_VLAN | ODP_PUSH_MPLS _ _ | ODP_POP_MPLS _ => True | _ =>
    ∃ p' key', odp_execute_set_action p a key = Some (p', key') ∧ parsed p' key' (key_apply fl a)
  end.
Proof.
  intros H Hok.
  assert (Hp : ∀ f fl', (∃ p', f = Some p' ∧ parsed p' key fl') → ∃ p' key', (p ← f; Some (p, key)) = Some (p', key') ∧ parsed p' key' fl').
  { intros f fl' (p' & -> & Hp'). by exists p', key. }
  destruct a; try exact I; cbn [odp_execute_set_action key_apply]; cbn [action_ok] in Hok.
  - eexists _, _. split; [done|]. by apply parsed_metadata.
  - eexists _, _. split; [done|]. by apply parsed_metadata.
  - eexists _, _. split; [done|]. by apply parsed_set_fields_metadata; [repeat constructor|].
  - apply Hp. destruct Hok. by apply parsed_ethernet.
  - apply Hp. destruct Hok as (? & ? & ? & ? & ? & ?). by apply parsed_set_ipv4.
  - apply Hp. destruct Hok as (H1 & H2 & H3 & -> & H5 & H6 & H7 & H8 & H9 & Hs & Hd).
    destruct (parsed_set_ipv6 p key fl ipv6_src ipv6_dst ipv6_tclass ipv6_label ipv6_hlimit) as (p' & E & H'); try done.
    rewrite !splice_same in H' by done. by exists p'.
  - apply Hp. destruct Hok as (H1 & H2 & H3 & H4 & H5). apply (parsed_set_ports _ _ _ tcp_src tcp_dst 16 2 (λ p, packet_set_tcp_port p tcp_src tcp_dst)); [done..|by left|].
    intros pre nh lb Hat Hb Hl. destruct (set_ports_spec p pre nh lb tcp_src tcp_dst 16) as (lb' & E & Hc & _); [done|done|lia|done..|]. by exists lb'.
  - apply Hp. destruct Hok as (H1 & H2 & H3 & H4 & H5).
    apply (parsed_set_ports _ _ _ udp_src udp_dst 6 2 (λ p, packet_set_udp_port p udp_src udp_dst)); [done..|by right; left|].
    intros pre nh lb Hat Hb Hl. destruct (packet_set_udp_port_spec p pre nh lb udp_src udp_dst) as (lb' & E & Hc & _); [done..|]. by exists lb'.
  - apply Hp. destruct Hok as (H1 & H2 & H3 & H4 & H5).
    apply (parsed_set_ports _ _ _ sctp_src sctp_dst 8 4 (λ p, packet_set_sctp_port p sctp_src sctp_dst)); [done..|by right; right|].
    intros pre nh lb Hat Hb Hl. destruct (packet_set_sctp_port_spec p pre nh lb sctp_src sctp_dst) as (lb' & E & Hc & _); [done..|]. by exists lb'.
  - apply Hp. destruct Hok as (H1 & H2 & H3 & H4 & H5). by apply parsed_set_mpls.
Qed.

(** One action: it succeeds, sends what it should, and leaves a packet that
    parses to the flow that [key_apply] gives. *)
Lemma action_refines p key fl seed ev a :
  parsed p key fl → action_ok (packet_len p) fl a →
  ∃ p' key' seed' new, odp_execute_action (OdpState p key seed ev) a = Some (OdpState p' key' seed' (ev ++ new))
    ∧ parsed p' key' (key_apply fl a) ∧ sends p key a new.
Proof.
  intros H Hok. pose proof (set_action_refines p key fl a H Hok) as Hs.
  assert (Hset : (∃ p' key', odp_execute_set_action p a key = Some (p', key') ∧ parsed p' key' (key_apply fl a)) →
    (∀ s, odp_execute_action s a = '(p, key) ← odp_execute_set_action (os_packet s) a (os_key s); Some (OdpState p key (os_seed s) (os_events s))) →
    sends p key a [] →
    ∃ p' key' seed' new, odp_execute_action (OdpState p key seed ev) a = Some (OdpState p' key' seed' (ev ++ new))
      ∧ parsed p' key' (key_apply fl a) ∧ sends p key a new).
  { intros (p' & key' & E & Hp') He Hse. exists p', key', seed, []. rewrite He. cbn [os_packet os_key os_seed os_events]. rewrite E, app_nil_r. done. }
  destruct a; try (by apply Hset); clear Hset Hs; cbn [odp_execute_action key_apply sends action_ok os_packet os_key os_seed os_events] in *.
  - by eexists _, _, _, _.
  - destruct Hok as (H1 & H2 & H3). destruct (parsed_push_vlan p key fl vlan_tci) as (p' & -> & Hp'); [done..|].
    exists p', key, seed, []. by rewrite app_nil_r.
  - destruct (parsed_pop_vlan p key fl) as (p' & -> & Hp'); [done..|]. exists p', key, seed, []. by rewrite app_nil_r.
  - unfold odp_execute_sample. cbn [os_packet os_key os_seed os_events]. destruct (_ <=? _).
    + exists p, key, (random_next seed), []. rewrite app_nil_r. tauto.
    + exists p, key, (random_next seed), [EV_USERSPACE p key cookie]. tauto.
Qed.

(** ** Lists of actions *)

Lemma wr_length o l v d d' : wr o l v d = Some d' → length d' = length d.
Proof.
  unfold wr. destruct (Nat.leb_spec (o + l) (length d)); [|done]. intros [= <-]. rewrite !length_app, length_take, length_be_bytes, length_drop. lia.
Qed.

Lemma wrm_length m o l v p p' : wrm m o l v p = Some p' → length (ob_data p') = length (ob_data p).
Proof.
  unfold wrm. destruct m as [m|]; [|done]. cbn [mbind option_bind]. destruct (0 <=? m); [|done].
  intros H. apply bind_Some in H as (d & H & [= <-]). by apply wr_length in H.
Qed.

Ltac wrm_lengths := repeat match goal with
  | H : wrm _ _ _ _ _ = Some _ |- _ => apply wrm_length in H
  | H : (_ ≫= _) = Some _ |- _ => apply bind_Some in H as (? & ? & H)
  | H : (if ?c then _ else _) = Some _ |- _ => destruct c
  | H : Some _ = Some _ |- _ => injection H as H; subst
  end.

Lemma set_ipv4_addr_length p ofs v p' : packet_set_ipv4_addr p ofs v = Some p' → length (ob_data p') = length (ob_data p).
Proof. intros H. unfold packet_set_ipv4_addr in H. wrm_lengths; congruence. Qed.

Lemma set_port_length p ofs v co p' : packet_set_port p ofs v co = Some p' → length (ob_data p') = length (ob_data p).
Proof. intros H. unfold packet_set_port in H. wrm_lengths; congruence. Qed.

Lemma set_ipv6_addr_length p proto ofs v r p' : packet_set_ipv6_addr p proto ofs v r = Some p' → length (ob_data p') = length (ob_data p).
Proof. intros H. unfold packet_set_ipv6_addr, packet_update_csum128 in H. wrm_lengths; congruence. Qed.

Lemma execute_set_length p a key p' key' : odp_execute_set_action p a key = Some (p', key') → length (ob_data p') = length (ob_data p).
Proof.
  intros H. destruct a; cbn [odp_execute_set_action] in H; try discriminate H; try (by injection H as <- _);
    apply bind_Some in H as (q & H & E); injection E as -> _.
  - unfold odp_eth_set_addrs in H. wrm_lengths; congruence.
  - unfold packet_set_ipv4 in H. wrm_lengths; repeat match goal with H : packet_set_ipv4_addr _ _ _ = Some _ |- _ => apply set_ipv4_addr_length in H end; congruence.
  - unfold packet_set_ipv6, packet_set_ipv6_tc, packet_set_ipv6_flow_label in H. wrm_lengths;
      repeat match goal with H : packet_set_ipv6_addr _ _ _ _ _ = Some _ |- _ => apply set_ipv6_addr_length in H end; congruence.
  - unfold packet_set_tcp_port in H. wrm_lengths; repeat match goal with H : packet_set_port _ _ _ _ = Some _ |- _ => apply set_port_length in H end; congruence.
  - unfold packet_set_udp_port in H. wrm_lengths; repeat match goal with H : packet_set_port _ _ _ _ = Some _ |- _ => apply set_port_length in H end; congruence.
  - unfold packet_set_sctp_port in H. wrm_lengths; congruence.
  - unfold set_mpls_lse in H. wrm_lengths; congruence.
Qed.

Lemma action_ok_shorter len len' fl a : len ≤ len' → action_ok len' fl a → action_ok len fl a.
Proof. intros Hl. destruct a; cbn [action_ok]; try done. intros (H1 & H2 & H3 & H4). split_and!; [done|done|lia|apply H4..]. Qed.

Lemma eth_pop_vlan_length p q : eth_pop_vlan p = Some q → (length (ob_data q) ≤ length (ob_data p))%nat.
Proof.
  unfold eth_pop_vlan. destruct (ob_l2 p); [|done]. cbn [mbind option_bind]. destruct (_ <=? _)%nat; [|by intros [= <-]].
  intros H. apply bind_Some in H as (ty & _ & H). destruct (ty =? ETH_TYPE_VLAN); [|by injection H as <-].
  apply bind_Some in H as (dst & _ & H). apply bind_Some in H as (src & _ & H). apply bind_Some in H as (nx & _ & H).
  apply bind_Some in H as (p1 & E & H). apply bind_Some in H as (d1 & E1 & H). apply bind_Some in H as (d2 & E2 & H). apply bind_Some in H as (d3 & E3 & H).
  injection H as <-. apply wr_length in E1, E2, E3. cbn [ob_data set_data set_l2] in *. unfold ofpbuf_drop in E. destruct (_ <=? _)%nat; [|done].
  injection E as <-. cbn [ob_data move_data] in E1. rewrite length_drop in E1. lia.
Qed.

Lemma action_length p key seed ev a len fl s' :
  (14 ≤ length (ob_data p))%nat → Forall is_u8 (ob_data p) → action_ok len fl a →
  odp_execute_action (OdpState p key seed ev) a = Some s' → packet_len (os_packet s') ≤ packet_len p + 4.
Proof.
  intros Hl Hb Hok H. unfold packet_len.
  assert (Hset : ∀ b, odp_execute_set_action p b key ≫= (λ '(q, k), Some (OdpState q k seed ev)) = Some s' →
    Z.of_nat (length (ob_data (os_packet s'))) ≤ Z.of_nat (length (ob_data p)) + 4).
  { intros b E. apply bind_Some in E as ([q k] & E & E'). injection E' as <-. apply execute_set_length in E. cbn [os_packet]. lia. }
  destruct a; cbn [odp_execute_action os_packet os_key os_seed os_events] in H; try (by destruct Hok);
    try match type of H with (odp_execute_set_action p ?b key ≫= _) = _ => exact (Hset b H) end; clear Hset.
  - injection H as <-. cbn [os_packet]. lia.
  - rewrite eth_push_vlan_spec in H by (done || lia). cbn [mbind option_bind] in H. injection H as <-. cbn [os_packet].
    change (ob_data (set_l2 _ _)) with (take 12 (ob_data p) ++ vlan_tag vlan_tci ++ drop 12 (ob_data p)).
    rewrite !length_app, length_take, length_drop. change (length (vlan_tag vlan_tci)) with 4%nat. lia.
  - apply bind_Some in H as (q & H & E). injection E as <-. cbn [os_packet]. apply eth_pop_vlan_length in H. lia.
  - injection H as <-. unfold odp_execute_sample. cbn [os_packet os_key os_seed os_events]. destruct (_ <=? _); cbn [os_packet]; lia.
Qed.

Fixpoint actions_ok (len : Z) (fl : flowf) (acts : list odp_action) : Prop :=
  match acts with
  | [] => True
  | a :: acts => action_ok len fl a ∧ actions_ok (len + 4) (key_apply fl a) acts
  end.

Lemma actions_ok_shorter len len' fl acts : len ≤ len' → actions_ok len' fl acts → actions_ok len fl acts.
Proof.
  revert len len' fl. induction acts as [|a acts IH]; intros len len' fl Hl; [done|]. intros [H1 H2].
  split; [by apply (action_ok_shorter _ len')|]. eapply IH; [|done]. lia.
Qed.

(** What is sent by actions on a packet with flow [fl]: every packet has the
    flow of its place in the list. *)
Fixpoint sent (fl : flowf) (acts : list odp_action) (new : list odp_event) : Prop :=
  match acts with
  | [] => new = []
  | a :: acts =>
      ∃ here later, new = here ++ later ∧ (∃ p key, parsed p key fl ∧ sends p key a here) ∧ sent (key_apply fl a) acts later
  end.

Lemma actions_refine p key fl seed ev acts :
  parsed p key fl → actions_ok (packet_len p) fl acts →
  ∃ p' key' seed' new, odp_execute_actions (OdpState p key seed ev) acts = Some (OdpState p' key' seed' (ev ++ new))
    ∧ parsed p' key' (key_execute acts fl) ∧ sent fl acts new.
Proof.
  revert p key fl seed ev. induction acts as [|a acts IH]; intros p key fl seed ev H Hok.
  { exists p, key, seed, []. rewrite app_nil_r. done. }
  destruct Hok as [H1 H2]. destruct (action_refines p key fl seed ev a H H1) as (p1 & key1 & seed1 & here & E & Hp & Hs).
  pose proof H as (Hb & Hl & _). pose proof (action_length p key seed ev a _ fl _ Hl Hb H1 E) as Hlen. cbn [os_packet] in Hlen.
  destruct (IH p1 key1 (key_apply fl a) seed1 (ev ++ here) Hp) as (p2 & key2 & seed2 & later & E2 & Hp2 & Hs2); [by eapply actions_ok_shorter|].
  exists p2, key2, seed2, (here ++ later). split; [|split; [done|]].
  - unfold odp_execute_actions in *. cbn [foldl mbind option_bind]. rewrite E. by rewrite app_assoc.
  - exists here, later. split; [done|]. split; [|done]. by exists p, key.
Qed.

(** ** Committed actions *)

Definition silent (a : odp_action) : bool := match a with ODP_OUTPUT _ | ODP_SAMPLE _ _ _ => false | _ => true end.

(** The actions added to [c] in [c'] are at most [n], send nothing, and fit a
    packet with the base flow of [c]. *)
Definition fits (n : nat) (c c' : commit_state) : Prop :=
  ∃ acts, cm_actions c' = cm_actions c ++ acts ∧ (length acts ≤ n)%nat ∧ Forall (λ a, silent a = true) acts
    ∧ ∀ len, len + 4 * Z.of_nat (length acts) < 2 ^ 16 → actions_ok len (cm_base c) acts.

Lemma fits_none n c : fits n c c.
Proof. exists []. split; [by rewrite app_nil_r|]. split; [cbn; lia|]. done. Qed.

Lemma fits_one c a base wc :
  silent a = true → (∀ len, len < 2 ^ 16 → action_ok len (cm_base c) a) → fits 1 c (Commit base (cm_actions c ++ [a]) wc).
Proof.
  intros Hq Ha. exists [a]. split; [done|]. split; [cbn; lia|]. split; [by repeat constructor|]. intros len Hl. split; [|done]. apply Ha. cbn in Hl. lia.
Qed.

Lemma actions_ok_app len fl a b : actions_ok len fl (a ++ b) ↔ actions_ok len fl a ∧ actions_ok (len + 4 * Z.of_nat (length a)) (key_execute a fl) b.
Proof.
  revert len fl. induction a as [|x a IH]; intros len fl.
  - cbn [app length actions_ok]. rewrite Z.mul_0_r, Z.add_0_r. unfold key_execute. cbn [foldl]. tauto.
  - cbn [app length actions_ok]. rewrite IH. unfold key_execute. cbn [foldl].
    replace (len + 4 * Z.of_nat (S (length a))) with (len + 4 + 4 * Z.of_nat (length a)) by lia. tauto.
Qed.

Lemma commits_execute flow fs c c' acts : commits flow fs c c' → cm_actions c' = cm_actions c ++ acts → key_execute acts (cm_base c) = cm_base c'.
Proof.
  intros (_ & (acts' & E & K) & _) E'. rewrite E in E'. apply app_inv_head in E' as ->. apply flow_funext. intros f. by apply K.
Qed.

Lemma fits_trans flow fs m n c c1 c2 : commits flow fs c c1 → fits m c c1 → fits n c1 c2 → fits (m + n) c c2.
Proof.
  intros Hc (a & Ea & La & Qa & Ka) (b & Eb & Lb & Qb & Kb). exists (a ++ b). rewrite Eb, Ea, app_assoc. split; [done|].
  rewrite length_app. split; [lia|]. split; [by apply Forall_app_2|]. intros len Hl. rewrite actions_ok_app.
  rewrite (commits_execute _ _ _ _ _ Hc Ea). split; [apply Ka; lia|apply Kb; lia].
Qed.

Section steps.
Context (flow : flowf) (Hflow : flow_ok flow).

Lemma ether_fits c : fits 1 c (commit_set_ether_addr_action flow c).
Proof.
  unfold commit_set_ether_addr_action. destruct (same_fields _ _ _); [apply fits_none|].
  apply (fits_one c (ODP_SET_ETHERNET _ _)); [done|]. intros len _. split; [apply (Hflow F_dl_src)|apply (Hflow F_dl_dst)].
Qed.

Lemma vlan_fits c : tci_ok (cm_base c F_vlan_tci) → cm_base c F_dl_type ≠ ETH_TYPE_VLAN → fits 2 c (commit_vlan_action flow c).
Proof.
  intros Hb Hty. unfold commit_vlan_action. destruct (_ =? _); [apply fits_none|]. cbn zeta. unfold unwild, put_actions, take_fields. cbn [cm_base cm_actions cm_wc].
  assert (Hpush : ∀ len base, base F_vlan_tci = 0 → Z.land (flow F_vlan_tci) VLAN_CFI ≠ 0 → action_ok len base (ODP_PUSH_VLAN ETH_TYPE_VLAN (flow F_vlan_tci))).
  { intros len base H0 Hc. split; [done|]. split; [apply (Hflow F_vlan_tci)|done]. }
  destruct (Z.eqb_spec (Z.land (cm_base c F_vlan_tci) VLAN_CFI) 0) as [E|E]; destruct (Z.eqb_spec (Z.land (flow F_vlan_tci) VLAN_CFI) 0) as [Ef|Ef]; cbn [cm_base cm_actions cm_wc].
  - exists []. rewrite app_nil_r. split; [done|]. split; [cbn; lia|done].
  - eexists [_]. split; [done|]. split; [cbn; lia|]. split; [by repeat constructor|]. intros len _. split; [|done]. apply Hpush; [by apply Hb|done].
  - eexists [_]. split; [done|]. split; [cbn; lia|]. split; [by repeat constructor|]. intros len _. by split.
  - eexists [_; _]. split; [by rewrite <- app_assoc|]. split; [cbn; lia|]. split; [by repeat constructor|]. intros len _. split; [done|]. split; [|done]. by apply Hpush.
Qed.

(** IPv6 addresses change in their first word only. *)
Definition ipv6_change_ok (base : flowf) : Prop :=
  base F_dl_type = ETH_TYPE_IPV6 →
  base F_nw_proto ≠ IPPROTO_NONE ∧ in_width 20 (flow F_ipv6_label)
  ∧ flow F_ipv6_src mod 2 ^ 96 = base F_ipv6_src mod 2 ^ 96 ∧ flow F_ipv6_dst mod 2 ^ 96 = base F_ipv6_dst mod 2 ^ 96.

Lemma nw_fits c : flow F_nw_proto = cm_base c F_nw_proto → ipv6_change_ok (cm_base c) → fits 1 c (commit_set_nw_action flow c).
Proof.
  intros Hp H6. unfold commit_set_nw_action. destruct (Z.eqb_spec (flow F_nw_proto) 0) as [|Hne]; [apply fits_none|].
  destruct (Z.eqb_spec (cm_base c F_dl_type) ETH_TYPE_IP) as [E|_].
  - unfold commit_set_ipv4_action. destruct (same_fields _ _ _); [apply fits_none|]. apply (fits_one c (ODP_SET_IPV4 _ _ _ _ _ _)); [done|]. intros len _.
    split; [done|]. split; [congruence|]. split_and!; [apply (Hflow F_nw_src)|apply (Hflow F_nw_dst)|apply (Hflow F_nw_tos)|apply (Hflow F_nw_ttl)].
  - destruct (Z.eqb_spec (cm_base c F_dl_type) ETH_TYPE_IPV6) as [E|_]; [|apply fits_none].
    destruct (H6 E) as (H1 & H2 & H3 & H4). unfold commit_set_ipv6_action. destruct (same_fields _ _ _); [apply fits_none|].
    apply (fits_one c (ODP_SET_IPV6 _ _ _ _ _ _ _)); [done|]. intros len _. split; [done|]. split; [congruence|].
    split_and!; [done|done|apply (Hflow F_ipv6_src)|apply (Hflow F_ipv6_dst)|done|apply (Hflow F_nw_tos)|apply (Hflow F_nw_ttl)|done|done].
Qed.

Lemma port_fits c : flow F_nw_proto = cm_base c F_nw_proto → fits 1 c (commit_set_port_action flow c).
Proof.
  intros Hp. unfold commit_set_port_action. destruct (negb (is_ip_any (cm_base c)) || _) eqn:E; [apply fits_none|].
  apply orb_false_iff in E as [E1 E2]. apply negb_false_iff in E1. apply andb_false_iff in E2. rewrite !Z.eqb_neq in E2.
  destruct (same_fields _ _ _); [apply fits_none|]. cbn zeta.
  assert (W : is_u16 (flow F_tp_src) ∧ is_u16 (flow F_tp_dst)) by (split; [apply (Hflow F_tp_src)|apply (Hflow F_tp_dst)]).
  destruct (Z.eqb_spec (flow F_nw_proto) IPPROTO_TCP); [apply (fits_one c (ODP_SET_TCP _ _)); [done|]; intros len _; split; [exact E1|split; [congruence|tauto]]|].
  destruct (Z.eqb_spec (flow F_nw_proto) IPPROTO_UDP); [apply (fits_one c (ODP_SET_UDP _ _)); [done|]; intros len _; split; [exact E1|split; [congruence|tauto]]|].
  destruct (Z.eqb_spec (flow F_nw_proto) IPPROTO_SCTP); [apply (fits_one c (ODP_SET_SCTP _ _)); [done|]; intros len _; split; [exact E1|split; [congruence|tauto]]|].
  exists []. rewrite app_nil_r. split; [done|]. split; [cbn; lia|done].
Qed.
(** A label changes without its bottom-of-stack bit. *)
Definition label_change_ok (base : flowf) : Prop :=
  flow F_mpls_depth = base F_mpls_depth
  ∧ (flow F_mpls_lse ≠ base F_mpls_lse →
     eth_type_mpls (base F_dl_type) = true ∧ base F_mpls_depth ≠ 0
     ∧ Z.land (flow F_mpls_lse) MPLS_BOS_MASK = Z.land (base F_mpls_lse) MPLS_BOS_MASK).

Lemma mpls_fits c : label_change_ok (cm_base c) → fits 1 c (commit_mpls_action flow c).
Proof.
  intros [Hd Hl]. unfold commit_mpls_action. rewrite Hd, Z.eqb_refl, andb_true_r. destruct (Z.eqb_spec (flow F_mpls_lse) (cm_base c F_mpls_lse)) as [|Hne]; [apply fits_none|].
  cbn zeta. unfold unwild, put_actions. cbn [cm_base cm_actions cm_wc]. rewrite Z.ltb_irrefl. apply (fits_one c (ODP_SET_MPLS _)); [done|].
  intros len Hlen. destruct (Hl Hne) as (H1 & H2 & H3). split_and!; [done|done|done|apply (Hflow F_mpls_lse)|done].
Qed.

Lemma priority_fits c : fits 1 c (commit_set_priority_action flow c).
Proof. unfold commit_set_priority_action. destruct (_ =? _); [apply fits_none|]. by apply (fits_one c (ODP_SET_PRIORITY _)). Qed.

Lemma mark_fits c : fits 1 c (commit_set_pkt_mark_action flow c).
Proof. unfold commit_set_pkt_mark_action. destruct (_ =? _); [apply fits_none|]. by apply (fits_one c (ODP_SET_SKB_MARK _)). Qed.

(** When the actions for a change of flow can be carried out on the bytes. *)
Record change_ok (base : flowf) : Prop := {
  ch_base_tci : tci_ok (base F_vlan_tci);
  ch_flow_tci : tci_ok (flow F_vlan_tci);
  ch_frag : flow F_nw_frag = base F_nw_frag;
  ch_proto : flow F_nw_proto = base F_nw_proto;
  ch_type : flow F_dl_type = base F_dl_type ∧ base F_dl_type ≠ ETH_TYPE_VLAN;
  ch_ipv6 : ipv6_change_ok base;
  ch_mpls : label_change_ok base
}.

Lemma commit_fits c : change_ok (cm_base c) → fits 8 c (commit_odp_actions flow c).
Proof.
  intros [C1 C2 C3 C4 [C5 C5'] C6 C7]. unfold commit_odp_actions.
  pose proof (commit_ether_commits flow c) as H1. pose proof (ether_fits c) as F1. set (c1 := commit_set_ether_addr_action flow c) in *.
  assert (K1 : ∀ f, f ∉ [F_dl_src; F_dl_dst] → cm_base c1 f = cm_base c f) by (intros f; apply (commits_keep _ _ _ _ f H1)).
  assert (T1 : tci_ok (cm_base c1 F_vlan_tci)) by (by rewrite K1 by not_committed).
  pose proof (commit_vlan_commits flow c1 T1 C2) as H2. pose proof (vlan_fits c1 T1) as F2. rewrite K1 in F2 by not_committed. specialize (F2 C5').
  set (c2 := commit_vlan_action flow c1) in *. pose proof (commits_trans _ _ _ _ _ _ H1 H2) as T2.
  assert (K2 : ∀ f, f ∉ [F_dl_src; F_dl_dst] ++ [F_vlan_tci] → cm_base c2 f = cm_base c f) by (intros f; apply (commits_keep _ _ _ _ f T2)).
  assert (H3 : commits flow (nw_fields flow (cm_base c2)) c2 (commit_set_nw_action flow c2)).
  { apply commit_nw_commits. by rewrite K2 by not_committed. }
  assert (F3 : fits 1 c2 (commit_set_nw_action flow c2)).
  { apply nw_fits; [by rewrite K2 by not_committed|]. unfold ipv6_change_ok in *. by rewrite !K2 by not_committed. }
  set (c3 := commit_set_nw_action flow c2) in *.
  assert (K3 : ∀ f, f ∈ [F_dl_type; F_nw_proto; F_mpls_lse; F_mpls_depth] → cm_base c3 f = cm_base c f).
  { intros f Hin. rewrite (commits_keep _ _ _ _ f H3), K2; [done|..];
      repeat (apply elem_of_cons in Hin as [->|Hin]; [not_committed|]); by apply not_elem_of_nil in Hin. }
  pose proof (commit_port_commits flow c3) as H4. pose proof (port_fits c3) as F4. rewrite K3 in F4 by set_solver. specialize (F4 C4). set (c4 := commit_set_port_action flow c3) in *.
  assert (K4 : ∀ f, f ∈ [F_dl_type; F_nw_proto; F_mpls_lse; F_mpls_depth] → cm_base c4 f = cm_base c f).
  { intros f Hin. rewrite <- (K3 f Hin). apply (commits_keep _ _ _ _ f H4).
    repeat (apply elem_of_cons in Hin as [->|Hin]; [not_committed|]). by apply not_elem_of_nil in Hin. }
  assert (H5 : commits flow [F_dl_type; F_mpls_lse; F_mpls_depth] c4 (commit_mpls_action flow c4)).
  { apply commit_mpls_commits. left. rewrite !K4 by set_solver. split; [apply C7|done]. }
  assert (F5 : fits 1 c4 (commit_mpls_action flow c4)) by (apply mpls_fits; unfold label_change_ok in *; by rewrite !K4 by set_solver).
  apply (fits_trans _ _ 1 7 _ _ _ H1 F1), (fits_trans _ _ 2 5 _ _ _ H2 F2), (fits_trans _ _ 1 4 _ _ _ H3 F3), (fits_trans _ _ 1 3 _ _ _ H4 F4).
  apply (fits_trans _ _ 1 2 _ _ _ H5 F5). set (c5 := commit_mpls_action flow c4).
  eapply (fits_trans flow [F_skb_priority] 1 1); [by apply (commit_one_commits flow F_skb_priority ODP_SET_PRIORITY)|apply priority_fits|apply mark_fits].
Qed.
End steps.

Lemma sent_silent fl acts new : Forall (λ a, silent a = true) acts → sent fl acts new → new = [].
Proof.
  intros Hq. revert fl new. induction Hq as [|a acts Ha Hq IH]; intros fl new; [done|]. intros (here & later & -> & (p & key & _ & Hs) & Hl).
  apply IH in Hl as ->. destruct a; cbn [sends silent] in *; try discriminate Ha; by rewrite Hs.
Qed.

(** C3: Translation and the datapath together.  A packet that parses to the
    flow [base] is changed by the actions which [commit_odp_actions] writes
    for the flow [flow]: executing them on the bytes succeeds, sends nothing,
    and leaves a packet, with its markers where parsing puts them, that parses
    to a flow with all the committed fields of [flow] (addresses, VLAN tag,
    network and transport fields that the packet has, MPLS label, priority and
    mark) and the others of [base].  This holds for packets shorter than 65000
    bytes and the changes of [change_ok]: the VLAN tags are 0 unless their CFI
    bit is set, the Ethernet type (not that of a second VLAN tag), the IP
    protocol and the fragment type stay, no MPLS label is pushed or popped and
    a changed label keeps its bottom-of-stack bit, and for IPv6 packets, which
    have a next protocol, the label fits in 20 bits and the addresses change
    in their first word only.  The last is what packet_set_ipv6_addr() can do:
    it copies one word of an address ([PacketDefects]), and with another
    change the conclusion is false. *)
Theorem commit_execute_refines flow base p key seed ev wc :
  flow_ok flow → change_ok flow base → parsed p key base → packet_len p < 65000 →
  ∃ p' key' seed' fl', odp_execute_actions (OdpState p key seed ev) (cm_actions (commit_odp_actions flow (Commit base [] wc)))
                       = Some (OdpState p' key' seed' ev)
    ∧ parsed p' key' fl' ∧ ∀ f, fl' f = if decide (f ∈ committed_fields flow base) then flow f else base f.
Proof.
  intros Hf Hc Hp Hl. destruct (commit_fits flow Hf (Commit base [] wc) Hc) as (acts & E & Hn & Hq & Hok).
  pose proof (commit_odp_commits flow (Commit base [] wc)) as Hco. destruct Hc as [C1 C2 C3 C4 [C5 _] C6 [C7 _]].
  specialize (Hco C1 C2 C3 (or_introl (conj C7 C5))). pose proof (commits_execute _ _ _ _ _ Hco E) as Hex. cbn [cm_actions cm_base app] in *. rewrite E.
  destruct (actions_refine p key base seed ev acts Hp) as (p' & key' & seed' & new & Ee & Hp' & Hs).
  { apply Hok. cbn [cm_base]. lia. }
  assert (new = []) as -> by (by eapply sent_silent). rewrite app_nil_r in Ee.
  exists p', key', seed', (key_execute acts base). split; [done|]. split; [done|]. rewrite Hex. destruct Hco as (B & _). exact B.
Qed.

(** A TCP packet, its key and its flow. *)
Definition example_key : flowf := set_fields [(F_in_port, 1)] zero_flow.
Definition example_data : list Z :=
  be_bytes 6 0x112233445566 ++ be_bytes 6 0x665544332211 ++ be_bytes 2 ETH_TYPE_IP
  ++ ip_header 0 40 0 64 IPPROTO_TCP 0x66ce 0x0a000001 0x0a000002
  ++ be_bytes 2 80 ++ be_bytes 2 8080 ++ replicate 8 0 ++ be_bytes 2 0x5002 ++ be_bytes 2 0 ++ be_bytes 2 0x7c00 ++ be_bytes 2 0.
Definition example_parse : ofpbuf * flowf :=
  default (Ofpbuf [] None None None None None, zero_flow)
    (flow_extract (Ofpbuf example_data None None None None None) 0 0 (Some example_key) (Some 1)).
Definition example_flow : flowf := set_fields [(F_vlan_tci, 0x1005); (F_nw_dst, 0x0a000003); (F_tp_dst, 443)] (snd example_parse).

Lemma commit_execute_refines_witness :
  ∃ p' key' seed' fl',
    odp_execute_actions (OdpState example_parse.1 example_key 1 []) (cm_actions (commit_odp_actions example_flow (Commit example_parse.2 [] zero_flow)))
      = Some (OdpState p' key' seed' [])
    ∧ parsed p' key' fl' ∧ ∀ f, fl' f = if decide (f ∈ committed_fields example_flow example_parse.2) then example_flow f else example_parse.2 f.
Proof.
  apply commit_execute_refines.
  - intros f. destruct f; vm_compute; (split; [discriminate|reflexivity]).
  - split; try (vm_compute; intros; done).
  - split; [|split; [vm_compute; lia|reflexivity]]. vm_compute. repeat constructor; discriminate.
  - done.
Defined.


Definition example_actions : list odp_action :=
  [ODP_SET_ETHERNET 1 2; ODP_PUSH_VLAN ETH_TYPE_VLAN 0x1007; ODP_OUTPUT 2; ODP_POP_VLAN; ODP_SET_TCP 81 82; ODP_OUTPUT 3].

