(* ===== verification/PacketCsum.v ===== *)
(** * Checksums of changed packets

    A packet whose checksums are right has right checksums after the functions
    that set addresses, ports and the other fields. *)
From stdpp Require Import list.
From S2P Require Import Prelude ByteOrder FlowLayout Hash Bitwise MatchFields MetaFlow OdpActions Csum Packets PacketBytes PacketView PacketExec PacketFrame PacketIp PacketL3 PacketL4 PacketIp6 PacketMpls PacketRefine.

(** ** What a receiver checks *)

(** The transport header and data, without what pads the frame. *)
Definition l4_payload (nh lb : list Z) : list Z := take (Z.to_nat (fld nh 2 2) - length nh) lb.

Definition pseudo_header (nh lb : list Z) : list Z :=
  be_bytes 4 (fld nh 12 4) ++ be_bytes 4 (fld nh 16 4) ++ be_bytes 2 (fld nh 9 1) ++ be_bytes 2 (Z.of_nat (length (l4_payload nh lb))).

Definition ip_csum_ok (nh : list Z) : Prop := csum nh = 0.

Definition l4_csum_ok (nh lb : list Z) : Prop := csum (pseudo_header nh lb ++ l4_payload nh lb) = 0.

(** For IPv4 a UDP checksum of 0 stands for none. *)
Definition transport_csum_ok (nh lb : list Z) : Prop :=
  let proto := fld nh 9 1 in
  (proto = IPPROTO_TCP → l4_csum_ok nh lb) ∧ (proto = IPPROTO_UDP → fld lb 6 2 = 0 ∨ l4_csum_ok nh lb)
  ∧ (proto = IPPROTO_SCTP → l4_payload nh lb = lb → fld lb 8 4 = sctp_crc lb).

(** The checksum of the transport header is within the data. *)
Definition covered (nh lb : list Z) : Prop :=
  (fld nh 9 1 = IPPROTO_TCP → (20 ≤ length (l4_payload nh lb))%nat) ∧ (fld nh 9 1 = IPPROTO_UDP → (8 ≤ length (l4_payload nh lb))%nat).

(** The headers of a packet with markers. *)
Definition header_of (p : ofpbuf) : list Z :=
  match ob_l3 p, ob_l4 p with Some l3, Some l4 => take (Z.to_nat (l4 - l3)) (drop (Z.to_nat l3) (ob_data p)) | _, _ => [] end.
Definition l4_of (p : ofpbuf) : list Z := match ob_l4 p with Some l4 => drop (Z.to_nat l4) (ob_data p) | None => [] end.

(** ** Sums *)

Lemma word_sum_app a b : Forall is_u8 a → Forall is_u8 b → Nat.even (length a) = true → word_sum (a ++ b) = word_sum a + word_sum b.
Proof.
  intros Ha Hb He. rewrite !word_sum_bytes by (try apply Forall_app_2; done). rewrite byte_sum_app, <- Nat.negb_even, He. done.
Qed.

(** The difference of two sums is that of the parts that differ. *)
Lemma word_sum_take n a b :
  Forall is_u8 a → Forall is_u8 b → length a = length b → drop n a = drop n b → word_sum (take n a) - word_sum a = word_sum (take n b) - word_sum b.
Proof.
  intros Ha Hb Hl Hd. rewrite !word_sum_bytes by (try apply Forall_take; done).
  rewrite <- (take_drop n a) at 2. rewrite <- (take_drop n b) at 2. rewrite !byte_sum_app, !length_take, Hl, Hd. lia.
Qed.

Lemma pseudo_sum nh lb :
  Forall is_u8 nh → (20 ≤ length nh)%nat → Z.of_nat (length (l4_payload nh lb)) < 2 ^ 16 →
  csum_eq (word_sum (pseudo_header nh lb)) (fld nh 12 4 + fld nh 16 4 + fld nh 9 1 + Z.of_nat (length (l4_payload nh lb)))
  ∧ fld nh 9 1 ≤ word_sum (pseudo_header nh lb).
Proof.
  intros Hb Hl Hp. set (n := Z.of_nat _) in *. unfold pseudo_header. fold n.
  assert (W : ∀ k v, Nat.even k = true → csum_eq (word_sum (be_bytes k v)) (wrap (8 * Z.of_nat k) v)).
  { intros k v He. rewrite <- get_be_bytes. apply word_sum_get_be; [apply be_bytes_u8|by rewrite length_be_bytes]. }
  assert (W2 : ∀ v, word_sum (be_bytes 2 v) = u16 v) by (intros v; change (wrap 16 v) with (wrap (8 * Z.of_nat 2) v); rewrite <- get_be_bytes; cbn [be_bytes word_sum]; lia).
  assert (P : ∀ k v, 0 ≤ word_sum (be_bytes k v)) by (intros; apply word_sum_bound, be_bytes_u8).
  rewrite !word_sum_app by (repeat apply Forall_app_2; apply be_bytes_u8 || by rewrite length_be_bytes).
  assert (F9 : is_u8 (fld nh 9 1)) by (apply (fld_width 9 1); [done|lia]).
  assert (F9' : is_u16 (fld nh 9 1)) by (by apply (in_width_mono 8)). assert (Fn : is_u16 n) by (unfold n; split; [lia|done]).
  rewrite !W2, (wrap_id 16 (fld nh 9 1)), (wrap_id 16 n) by done.
  split; [|pose proof (P 4%nat (fld nh 12 4)); pose proof (P 4%nat (fld nh 16 4)); lia].
  rewrite !W by done. change (8 * Z.of_nat 4) with 32. rewrite !wrap_id by (apply (fld_width _ 4); [done|lia]). constructor. f_equal. lia.
Qed.

Lemma l4_csum_ok_sum nh lb :
  Forall is_u8 nh → Forall is_u8 lb → (20 ≤ length nh)%nat → fld nh 9 1 ≠ 0 →
  l4_csum_ok nh lb ↔ csum_eq (fld nh 12 4 + fld nh 16 4 + fld nh 9 1 + Z.of_nat (length (l4_payload nh lb)) + word_sum (l4_payload nh lb)) 0.
Proof.
  intros Hn Hb Hl Hp. set (q := l4_payload nh lb). assert (Hq : Forall is_u8 q) by by apply Forall_take.
  assert (Hql : Z.of_nat (length q) < 2 ^ 16).
  { unfold q, l4_payload. rewrite length_take. pose proof (fld_width 2 2 nh Hn ltac:(lia)) as [_ H]. change (8 * Z.of_nat 2) with 16 in H. lia. }
  destruct (pseudo_sum nh lb Hn Hl Hql) as [Hs Hge]. fold q in Hs.
  assert (Hph : Forall is_u8 (pseudo_header nh lb)) by (unfold pseudo_header; repeat apply Forall_app_2; apply be_bytes_u8).
  unfold l4_csum_ok. fold q. rewrite csum_valid; [|by apply Forall_app_2|rewrite length_app; change (length (pseudo_header nh lb)) with 12%nat; lia].
  rewrite word_sum_app by done. set (t := _ + fld nh 9 1 + _) in *.
  assert (E : csum_eq (word_sum (pseudo_header nh lb) + word_sum q) (t + word_sum q)) by (by rewrite Hs).
  split; [intros [H _]; by rewrite <- E|]. intros H. split; [by rewrite E|].
  pose proof (word_sum_bound q Hq). pose proof (fld_width 9 1 nh Hn ltac:(lia)) as [Hge0 _]. lia.
Qed.

Lemma word_sum_header nh : Forall is_u8 nh → ip_hdr nh → word_sum nh ≠ 0.
Proof.
  intros Hb [H1 H2]. destruct nh as [|a [|b nh]]; cbn in H1; try lia. inversion_clear Hb as [|? ? Ha Hb']. inversion_clear Hb' as [|? ? Hb1 Hb2].
  cbn [word_sum]. rewrite get_be_2 by done. pose proof (word_sum_bound nh Hb2). unfold in_width in *.
  assert (a ≠ 0); [|lia]. intros ->. change (fld (0 :: b :: nh) 0 1) with 0 in H2. rewrite Z.land_0_l in H2. cbn in H2. lia.
Qed.

Lemma ip_hdr_length nh : Forall is_u8 nh → ip_hdr nh → Z.of_nat (length nh) ≤ 60.
Proof.
  intros Hb [H1 H2]. assert (H : 0 ≤ Z.land (fld nh 0 1) 15 < 16); [|lia]. change 15 with (Z.ones 4). rewrite Z.land_ones by lia. by apply Z.mod_pos_bound.
Qed.

Lemma ip_csum_ok_sum nh : Forall is_u8 nh → ip_hdr nh → ip_csum_ok nh ↔ csum_eq (word_sum nh) 0.
Proof.
  intros Hb Hh. unfold ip_csum_ok. rewrite csum_valid by (done || (pose proof (ip_hdr_length nh Hb Hh); lia)).
  pose proof (word_sum_header nh Hb Hh). tauto.
Qed.

(** Other headers with the same sums. *)
Lemma l4_csum_ok_step nh lb nh' lb' :
  Forall is_u8 nh → Forall is_u8 nh' → Forall is_u8 lb → Forall is_u8 lb' → (20 ≤ length nh)%nat → length nh' = length nh → length lb' = length lb →
  fld nh 9 1 ≠ 0 → fld nh' 9 1 = fld nh 9 1 → fld nh' 2 2 = fld nh 2 2 →
  drop (length (l4_payload nh lb)) lb' = drop (length (l4_payload nh lb)) lb →
  csum_eq (fld nh' 12 4 + fld nh' 16 4 + word_sum lb') (fld nh 12 4 + fld nh 16 4 + word_sum lb) →
  l4_csum_ok nh lb → l4_csum_ok nh' lb'.
Proof.
  intros Hn Hn' Hb Hb' Hl Hln Hlb Hp Hp' Ht Hd Hs. rewrite !l4_csum_ok_sum, Hp' by (done || lia || congruence).
  assert (Hpl : ∀ x, length x = length lb → l4_payload nh' x = take (length (l4_payload nh lb)) x).
  { intros x Hx. unfold l4_payload. rewrite Ht, Hln, length_take. destruct (decide (Z.to_nat (fld nh 2 2) - length nh ≤ length lb)%nat).
    - by rewrite Nat.min_l by lia.
    - rewrite Nat.min_r, !take_ge by lia. done. }
  assert (Hpl0 : l4_payload nh lb = take (length (l4_payload nh lb)) lb).
  { unfold l4_payload. rewrite length_take. destruct (decide (Z.to_nat (fld nh 2 2) - length nh ≤ length lb)%nat).
    - by rewrite Nat.min_l by lia.
    - rewrite Nat.min_r, !take_ge by lia. done. }
  rewrite (Hpl lb' Hlb). set (n := length (l4_payload nh lb)) in *.
  pose proof (word_sum_take n lb' lb Hb' Hb Hlb Hd) as E. rewrite <- Hpl0 in E.
  assert (Ln : length (take n lb') = n) by (rewrite length_take; unfold n, l4_payload; rewrite length_take; lia). rewrite Ln.
  intros H. apply csum_eq_elim in H as [k H]. apply csum_eq_elim in Hs as [j Hs]. apply (csum_eq_intro _ _ (k + j)). lia.
Qed.

(** ** The functions of the code *)

Lemma at_header p pre nh lb : at_l3 p pre nh lb → header_of p = nh ∧ l4_of p = lb.
Proof.
  intros [H1 H3 H4]. unfold header_of, l4_of. rewrite H1, H3, H4, !Nat2Z.id. replace (Z.to_nat _) with (length nh) by lia.
  rewrite <- drop_drop, !drop_app_length. by rewrite take_app_length.
Qed.

Lemma set_ipv4_keeps src dst tos ttl nh lb nh' lb' :
  ipv4_changed true src dst tos ttl nh lb nh' lb' → ip_hdr nh → Forall is_u8 nh → Forall is_u8 lb → covered nh lb →
  ip_csum_ok nh → transport_csum_ok nh lb → ip_csum_ok nh' ∧ transport_csum_ok nh' lb'.
Proof.
  intros Hc Hh Hn Hb [V1 V2] Hi (T1 & T2 & T3). destruct (ip_fields_changed _ _ _ _ _ _ _ _ _ zero_flow Hh Hc) as [Hh' _].
  destruct Hc as [C1 C2 C3 C4 _ _ C7 C8 C9]. destruct Hh as [Hl Hh]. assert (E9 : fld nh' 9 1 = fld nh 9 1) by (apply C7; lia). assert (E2 : fld nh' 2 2 = fld nh 2 2) by (apply C7; lia).
  split; [rewrite ip_csum_ok_sum, C8 by done; by apply ip_csum_ok_sum|]. destruct C9 as [S1 S2 _ S4 S5 S6 S7].
  unfold transport_csum_ok. rewrite E9. split_and!.
  - intros Et. specialize (V1 Et). apply (l4_csum_ok_step nh lb); try done; [by rewrite Et|apply (S4 _ 16%nat); [by rewrite Et|lia]| |by apply T1].
    rewrite C3, C4. by apply S6.
  - intros Eu. specialize (V2 Eu). specialize (S7 Eu eq_refl). destruct (Z.eqb_spec (fld lb 6 2) 0) as [E0|E0]; [left; congruence|]. destruct S7 as [N7 S7].
    destruct (T2 Eu) as [|T2']; [done|]. right. apply (l4_csum_ok_step nh lb); try done; [by rewrite Eu|apply (S4 _ 6%nat); [by rewrite Eu|lia]|].
    rewrite C3, C4. exact S7.
  - intros Es. assert (lb' = lb) as -> by (apply S5; right; by rewrite Es). unfold l4_payload. rewrite E2, C1. by apply T3.
Qed.

Lemma transport_ports_keep co clen src dst nh lb lb' :
  ports_changed co clen src dst lb lb' → l4_csum (fld nh 9 1) co clen → Forall is_u8 nh → Forall is_u8 lb → (20 ≤ length nh)%nat → covered nh lb →
  (fld nh 9 1 = IPPROTO_TCP → csum_eq (word_sum lb') (word_sum lb)) →
  (fld nh 9 1 = IPPROTO_UDP → if fld lb 6 2 =? 0 then fld lb' 6 2 = 0 else csum_eq (word_sum lb') (word_sum lb)) →
  (fld nh 9 1 = IPPROTO_SCTP → Z.of_nat (length lb) < 65536 → fld lb' 8 4 = Z.lxor (Z.lxor (fld lb 8 4) (sctp_crc lb)) (sctp_crc lb')) →
  transport_csum_ok nh lb → transport_csum_ok nh lb'.
Proof.
  intros [P1 P2 _ _ P5 P6] Hcs Hn Hb Hl [V1 V2] Ht Hu Hs (T1 & T2 & T3).
  assert (Hstep : fld nh 9 1 ≠ 0 → (co + clen ≤ length (l4_payload nh lb))%nat → csum_eq (word_sum lb') (word_sum lb) → l4_csum_ok nh lb → l4_csum_ok nh lb').
  { intros H0 Hco E. apply l4_csum_ok_step; try done; [by apply P6|]. by rewrite E. }
  unfold transport_csum_ok. split_and!.
  - intros Et. specialize (V1 Et). apply Hstep; [by rewrite Et| |by apply Ht|by apply T1]. rewrite Et in Hcs. destruct Hcs as [(_ & -> & ->)|[(? & _)|(? & _)]]; [lia|done..].
  - intros Eu. specialize (V2 Eu). specialize (Hu Eu). destruct (Z.eqb_spec (fld lb 6 2) 0) as [E0|E0]; [by left|]. destruct (T2 Eu) as [|T2']; [done|]. right.
    apply Hstep; [by rewrite Eu| |done|done]. rewrite Eu in Hcs. destruct Hcs as [(? & _)|[(_ & -> & ->)|(? & _)]]; [done|lia|done].
  - intros Es Hp. assert (Hp0 : l4_payload nh lb = lb).
    { unfold l4_payload in *. apply take_ge. assert (Hx : length (take (Z.to_nat (fld nh 2 2) - length nh) lb') = length lb') by (by rewrite Hp).
      rewrite length_take in Hx. lia. }
    assert (Hlen : Z.of_nat (length lb) < 65536).
    { rewrite <- Hp0. unfold l4_payload. rewrite length_take. pose proof (fld_width 2 2 nh Hn ltac:(lia)) as [_ H]. change (2 ^ (8 * Z.of_nat 2)) with 65536 in H. lia. }
    rewrite (Hs Es Hlen), (T3 Es Hp0), Z.lxor_nilpotent. apply Z.lxor_0_l.
Qed.

(** The headers of a parsed IPv4 packet. *)
Record ip_view (p : ofpbuf) (fl : flowf) (pre nh lb : list Z) : Prop := {
  iv_at : at_l3 p pre nh lb;
  iv_pre : (14 ≤ length pre)%nat;
  iv_hdr : ip_hdr nh;
  iv_bytes : Forall is_u8 nh ∧ Forall is_u8 lb;
  iv_proto : fld nh 9 1 = fl F_nw_proto;
  iv_fits : l4_fits (fld nh 9 1) (has_l7 p) lb;
  iv_ports : fl F_tp_src ≠ 0 ∨ fl F_tp_dst ≠ 0 → ∀ co clen, l4_csum (fl F_nw_proto) co clen → (co + clen ≤ length lb)%nat
}.

Lemma parsed_ip_view p key fl : parsed p key fl → fl F_dl_type = ETH_TYPE_IP → fl F_nw_proto ≠ 0 → ∃ pre nh lb, ip_view p fl pre nh lb.
Proof.
  intros Hp Hty Hpr. destruct (parsed_framed p key fl) as (pre & b3 & l4 & l7 & r & e & Hfr); [done|by rewrite Hty..|].
  destruct (framed_ip _ _ _ _ _ _ _ _ _ Hfr Hty Hpr) as (nh & lb & -> & Hh & ->). destruct Hfr as [F1 [F2 F3] -> Hfl F5 F6].
  rewrite Hty in F5. change (parse_l3_ip (nh ++ lb) (typed_flow ETH_TYPE_IP) = Some (Some lb, l7, r)) in F5.
  rewrite parse_l3_ip_form in F5 by done. apply Forall_app in F3 as [Fn Fb]. exists pre, nh, lb.
  set (p := markers _ _). assert (H7 : has_l7 p = bool_decide (is_Some l7)) by apply has_l7_markers.
  assert (Hr : ∀ f, early f = false → fl f = r f) by (intros f Hf; rewrite Hfl; by apply overlay_late).
  destruct (Z.land _ _ =? 0).
  - destruct (parse_l4 _ _ _ _) as [[l7' r']|] eqn:E; [|done]. injection F5 as -> ->.
    assert (Hpr9 : fld nh 9 1 = fl F_nw_proto) by (rewrite Hr, (parse_l4_keep _ _ _ _ _ _ _ E) by done; done).
    split; [apply at_l3_markers|done|done|done|done|rewrite H7; by eapply parse_l4_fits|].
    intros Htp co clen Hcs. rewrite !Hr in Htp by done. rewrite Hpr9 in E. by destruct (parse_l4_ports _ _ _ _ _ _ _ _ Hcs E eq_refl eq_refl Htp) as [Hlen _].
  - injection F5 as <- <-. split; [apply at_l3_markers|done|done|done|by rewrite Hr by done|by rewrite H7|].
    intros Htp. exfalso. rewrite !Hr in Htp by done. by destruct Htp.
Qed.

Lemma eth_set_keeps p fl pre nh lb src dst p' :
  ip_view p fl pre nh lb → ob_l2 p = Some 0 → odp_eth_set_addrs p src dst = Some p' → ∃ pre', at_l3 p' pre' nh lb.
Proof.
  intros [[H1 H3 H4] Hpre _ _ _ _ _] H2 H. unfold odp_eth_set_addrs in H. rewrite H2 in H. change (Some 0) with (Some (Z.of_nat 0)) in H.
  assert (Hlb : ∀ n x, length (be_bytes n x) = n) by (intros; apply length_be_bytes).
  rewrite wrm_at in H by (rewrite H1, !length_app; lia). cbn [mbind option_bind] in H.
  rewrite H1, put_app_l in H by (rewrite Hlb; lia). set (pre1 := put (0 + 6) (be_bytes 6 src) pre) in *.
  assert (L1 : length pre1 = length pre) by (apply length_put; rewrite Hlb; lia). change (ob_l2 (set_data _ p)) with (ob_l2 p) in H. rewrite H2 in H.
  change (Some 0) with (Some (Z.of_nat 0)) in H. rewrite wrm_at in H by (cbn [ob_data set_data]; rewrite !length_app; lia).
  cbn [ob_data set_data] in H. rewrite put_app_l in H by (rewrite Hlb; lia). injection H as <-.
  exists (put (0 + 0) (be_bytes 6 dst) pre1). assert (L2 : length (put (0 + 0) (be_bytes 6 dst) pre1) = length pre) by (rewrite <- L1; apply length_put; rewrite Hlb; lia).
  split; [done|by rewrite L2|by rewrite L2].
Qed.

(** C10: The set actions keep checksums right.  For a parsed IPv4 packet with a
    protocol other than 0, a complete transport header that the IP length
    covers, and a header checksum and a TCP, UDP or SCTP checksum that a
    receiver would accept, the receiver accepts those of the packet after an
    action that sets Ethernet addresses, IPv4 fields, ports or metadata and
    fits the packet ([action_ok]: values in range, ports of the packet's own
    protocol and not both 0).  UDP packets without a checksum stay so, and
    none gets to have none.  For SCTP the statement is about frames without
    padding ([transport_csum_ok] says nothing of others): in a padded frame
    packet_set_sctp_port() computes the checksum over the padding, and makes
    it invalid. *)
Theorem set_actions_keep_checksums p key fl a p' key' :
  parsed p key fl → fl F_dl_type = ETH_TYPE_IP → fl F_nw_proto ≠ 0 → is_Some (ob_l7 p) → action_ok (packet_len p) fl a →
  odp_execute_set_action p a key = Some (p', key') →
  covered (header_of p) (l4_of p) → ip_csum_ok (header_of p) → transport_csum_ok (header_of p) (l4_of p) →
  ip_csum_ok (header_of p') ∧ transport_csum_ok (header_of p') (l4_of p').
Proof.
  intros Hp Hty Hpr H7 Hok Ha. pose proof Hp as Hp0. apply parsed_parts in Hp0 as (? & ? & ? & ? & ly & [_ _ _ _ Hmk _]).
  assert (H2 : ob_l2 p = Some 0) by (by rewrite Hmk). clear Hmk.
  destruct (parsed_ip_view p key fl Hp Hty Hpr) as (pre & nh & lb & Hv). pose proof Hv as [Hat Hpre Hh [Bn Bb] H9 Hf Hports].
  assert (E7 : has_l7 p = true) by (by apply bool_decide_eq_true). destruct (at_header _ _ _ _ Hat) as [-> ->]. intros Hcov Hi Ht. pose proof Hh as [Hh20 _].
  assert (Hsame : ∀ pre', at_l3 p' pre' nh lb → ip_csum_ok (header_of p') ∧ transport_csum_ok (header_of p') (l4_of p')).
  { intros pre' Hat'. by destruct (at_header _ _ _ _ Hat') as [-> ->]. }
  assert (Hset : ∀ nh' lb', p' = set_data (pre ++ nh' ++ lb') p → length nh' = length nh → ip_csum_ok nh' ∧ transport_csum_ok nh' lb' →
    ip_csum_ok (header_of p') ∧ transport_csum_ok (header_of p') (l4_of p')).
  { intros nh' lb' -> Hl Hc. by destruct (at_header _ _ _ _ (at_set _ _ _ _ nh' lb' Hat Hl)) as [-> ->]. }
  destruct a; cbn [odp_execute_set_action action_ok] in Ha, Hok; try discriminate Ha; try (injection Ha as <- _; by eapply Hsame);
    apply bind_Some in Ha as (q & Ha & E); injection E as -> _.
  - by destruct (eth_set_keeps _ _ _ _ _ _ _ _ Hv H2 Ha) as [pre' Hat']; eapply Hsame.
  - destruct Hok as (_ & _ & K1 & K2 & K3 & K4). destruct (packet_set_ipv4_spec p pre nh lb ipv4_src ipv4_dst ipv4_tos ipv4_ttl) as (nh' & lb' & E & Hc); try done.
    rewrite Ha in E. injection E as ->. rewrite E7 in Hc. apply (Hset nh' lb'); [done|apply Hc|]. by eapply set_ipv4_keeps.
  - destruct Hok as (E & _). by rewrite Hty in E.
  - destruct Hok as (_ & Kp & Ktp & K1 & K2). assert (Hcs : l4_csum (fl F_nw_proto) 16 2) by (by left). specialize (Hports Ktp _ _ Hcs).
    destruct (set_ports_spec p pre nh lb tcp_src tcp_dst 16) as (lb' & E & Hc & Hs); [done|done|lia|done..|]. change (packet_set_tcp_port p tcp_src tcp_dst = Some (set_data (pre ++ nh ++ lb') p)) in E.
    rewrite Ha in E. injection E as ->. apply (Hset nh lb'); [done|done|]. split; [done|].
    apply (transport_ports_keep 16 2 tcp_src tcp_dst nh lb); try done; rewrite H9; try exact Hcs; rewrite Kp; done.
  - destruct Hok as (_ & Kp & Ktp & K1 & K2). assert (Hcs : l4_csum (fl F_nw_proto) 6 2) by (by right; left). specialize (Hports Ktp _ _ Hcs).
    destruct (packet_set_udp_port_spec p pre nh lb udp_src udp_dst) as (lb' & E & Hc & Hs); [done..|].
    rewrite Ha in E. injection E as ->. apply (Hset nh lb'); [done|done|]. split; [done|].
    apply (transport_ports_keep 6 2 udp_src udp_dst nh lb); try done; rewrite H9; try exact Hcs; rewrite Kp; try done. intros _. destruct (_ =? 0); [done|apply Hs].
  - destruct Hok as (_ & Kp & Ktp & K1 & K2). assert (Hcs : l4_csum (fl F_nw_proto) 8 4) by (by right; right). specialize (Hports Ktp _ _ Hcs).
    destruct (packet_set_sctp_port_spec p pre nh lb sctp_src sctp_dst) as (lb' & E & Hc & Hs); [done..|].
    rewrite Ha in E. injection E as ->. apply (Hset nh lb'); [done|done|]. split; [done|].
    apply (transport_ports_keep 8 4 sctp_src sctp_dst nh lb); try done; rewrite H9; try exact Hcs; rewrite Kp; done.
  - destruct Hok as (E & _). by rewrite Hty in E.
Qed.

Lemma set_actions_keep_checksums_witness :
  match odp_execute_set_action example_parse.1 (ODP_SET_IPV4 0x0a000001 0x0a0000ff IPPROTO_TCP 16 63 0) example_key with
  | Some (p', _) => ip_csum_ok (header_of p') ∧ transport_csum_ok (header_of p') (l4_of p')
  | None => False
  end.
Proof.
  destruct (odp_execute_set_action example_parse.1 (ODP_SET_IPV4 0x0a000001 0x0a0000ff IPPROTO_TCP 16 63 0) example_key) as [[p' key']|] eqn:E;
    [|vm_compute in E; discriminate E].
  apply (set_actions_keep_checksums example_parse.1 example_key example_parse.2 (ODP_SET_IPV4 0x0a000001 0x0a0000ff IPPROTO_TCP 16 63 0) p' key').
  - split; [|split; [vm_compute; lia|reflexivity]]. vm_compute. repeat constructor; discriminate.
  - done.
  - done.
  - vm_compute. by eexists.
  - split; [reflexivity|]. split; [vm_compute; discriminate|]. split_and!; (split; [discriminate|reflexivity]).
  - exact E.
  - vm_compute. split; intros; [lia|discriminate].
  - vm_compute. reflexivity.
  - vm_compute. split_and!; intros; first [reflexivity|discriminate].
Defined.
