(* ===== verification/PacketCompose.v ===== *)
(** * Composing a packet from a flow

    A packet that [flow_compose] makes for a flow parses to that flow, for the
    flows that packets can have. *)
From stdpp Require Import list.
From S2P Require Import Prelude ByteOrder FlowLayout Hash Bitwise MatchFields MetaFlow OdpActions Csum Packets PacketBytes PacketView PacketExec PacketFrame PacketIp PacketL3 PacketL4 PacketIp6 PacketMpls.

(** ** Flows that packets have *)

Definition has_ports (proto : Z) : bool := existsb (λ x, proto =? x) [IPPROTO_TCP; IPPROTO_UDP; IPPROTO_SCTP; IPPROTO_ICMP].

(** The fields after the Ethernet type that a packet of this type has. *)
Definition carried (fl : flowf) (f : MatchFields.field) : bool :=
  let ty := fl F_dl_type in
  if ty =? ETH_TYPE_IP then
    match f with
    | F_nw_src | F_nw_dst | F_nw_proto | F_nw_tos | F_nw_ttl | F_nw_frag => true
    | F_tp_src | F_tp_dst => negb (fl F_nw_frag =? 3) && has_ports (fl F_nw_proto)
    | _ => false
    end
  else if (ty =? ETH_TYPE_ARP) || (ty =? ETH_TYPE_RARP) then
    match f with
    | F_nw_proto => true
    | F_nw_src | F_nw_dst | F_arp_sha | F_arp_tha => (fl F_nw_proto =? 1) || (fl F_nw_proto =? 2)
    | _ => false
    end
  else if eth_type_mpls ty then match f with F_mpls_lse | F_mpls_depth => true | _ => false end
  else false.

Record composable (fl : flowf) : Prop := {
  cp_ok : flow_ok fl;
  cp_meta : fl F_metadata = 0 ∧ ∀ i, fl (F_reg i) = 0;
  cp_tci : tci_ok (fl F_vlan_tci);
  cp_type : (fl F_dl_type = FLOW_DL_TYPE_NONE ∧ fl F_vlan_tci = 0) ∨ ETH_TYPE_MIN ≤ fl F_dl_type;
  cp_zero : ∀ f, early f = false → f ≠ F_dl_type → carried fl f = false → fl f = 0;
  cp_ip : fl F_dl_type = ETH_TYPE_IP →
    (fl F_nw_frag = 0 ∨ fl F_nw_frag = 1 ∨ fl F_nw_frag = 3) ∧ (fl F_nw_proto = IPPROTO_ICMP → is_u8 (fl F_tp_src) ∧ is_u8 (fl F_tp_dst));
  cp_mpls : eth_type_mpls (fl F_dl_type) = true → fl F_mpls_depth = 1
}.

(** ** Fields of composed headers *)

Lemma fld_here n v r w : w = 8 * Z.of_nat n → in_width w v → fld (be_bytes n v ++ r) 0 n = v.
Proof. intros -> Hv. apply fld_of_rd. rewrite rd_be_bytes. by rewrite wrap_id. Qed.

Lemma fld_skip n v r o l : fld (be_bytes n v ++ r) (n + o) l = fld r o l.
Proof.
  unfold ByteOrder.field. rewrite <- (length_be_bytes n v) at 1. by rewrite drop_app_add.
Qed.

Lemma fld_last n v w : w = 8 * Z.of_nat n → in_width w v → fld (be_bytes n v) 0 n = v.
Proof. intros Hw Hv. rewrite <- (app_nil_r (be_bytes n v)). by apply (fld_here n v [] w). Qed.

(** The two parts of [flow_extract] that depend on the Ethernet header. *)
Lemma split_vlan_composed ty pl tci :
  is_u16 ty → is_u16 tci → tci_ok tci → ty ≠ ETH_TYPE_VLAN ∨ tci ≠ 0 ∨ pl = [] →
  split_vlan ((if Z.land tci VLAN_CFI =? 0 then [] else vlan_tag tci) ++ be_bytes 2 ty ++ pl) = (be_bytes 2 ty ++ pl, tci).
Proof.
  intros Ht Hw Hc Hne. destruct (Z.eqb_spec (Z.land tci VLAN_CFI) 0) as [E|E].
  - rewrite (Hc E) in *. cbn [app]. unfold split_vlan. rewrite rd_be_bytes. change (8 * Z.of_nat 2) with 16. rewrite wrap_id by done.
    destruct (decide (ty = ETH_TYPE_VLAN)) as [->|Hty]; [|by rewrite bool_decide_false by congruence].
    destruct Hne as [|[| ->]]; [done|done|]. by rewrite bool_decide_true.
  - unfold split_vlan, vlan_tag. rewrite <- app_assoc, rd_be_bytes, (rd_app_r 0 2 _ _ 2), rd_be_bytes by apply length_be_bytes.
    rewrite bool_decide_true by done. rewrite (proj2 (Nat.leb_le _ _)) by (rewrite !length_app, !length_be_bytes; lia). cbn [andb from_option].
    f_equal. rewrite wrap_id; [by apply tci_cfi|]. by apply ldiff_in_width.
Qed.

Lemma parse_ethertype_composed ty pl : is_u16 ty → ETH_TYPE_MIN ≤ ty → parse_ethertype (be_bytes 2 ty ++ pl) = Some (ty, pl).
Proof.
  intros Hw Ht. unfold parse_ethertype, ofpbuf_pull. rewrite (proj2 (Nat.leb_le _ _)) by (rewrite length_app, length_be_bytes; lia). cbn [mbind option_bind].
  rewrite rd_take, rd_be_bytes by (rewrite ?length_app, ?length_be_bytes; lia). change (8 * Z.of_nat 2) with 16. rewrite wrap_id by done. cbn [mbind option_bind].
  by rewrite (proj2 (Z.leb_le _ _)).
Qed.

(** ** The bytes *)

Lemma put_skip n v r o bs : put (n + o) bs (be_bytes n v ++ r) = be_bytes n v ++ put o bs r.
Proof. apply put_app_r, length_be_bytes. Qed.

Lemma put_here n v r bs : length bs = n → put 0 bs (be_bytes n v ++ r) = bs ++ r.
Proof. intros Hl. rewrite put_0, Hl. by rewrite drop_app_length' by (symmetry; apply length_be_bytes). Qed.

Definition l4_bytes (fl : flowf) : list Z :=
  let ports := be_bytes 2 (fl F_tp_src) ++ be_bytes 2 (fl F_tp_dst) in
  if fl F_nw_proto =? IPPROTO_TCP then ports ++ replicate 8 0 ++ be_bytes 2 (Z.shiftl 5 12) ++ replicate 6 0
  else if fl F_nw_proto =? IPPROTO_UDP then ports ++ replicate 4 0
  else if fl F_nw_proto =? IPPROTO_SCTP then ports ++ replicate 8 0
  else if fl F_nw_proto =? IPPROTO_ICMP then
    let hdr (c : Z) := be_bytes 1 (fl F_tp_src) ++ be_bytes 1 (fl F_tp_dst) ++ be_bytes 2 c ++ replicate 4 0 in hdr (csum (hdr 0))
  else [].

Definition frag_off_of (frag : Z) : Z := if frag =? 0 then 0 else if frag =? 1 then IP_MORE_FRAGMENTS else Z.lor IP_MORE_FRAGMENTS 100.

Definition ip_payload (fl : flowf) : list Z * list Z :=
  let l4 := if fl F_nw_frag =? 3 then [] else l4_bytes fl in
  let hdr (c : Z) := ip_header (fl F_nw_tos) (u16 (20 + Z.of_nat (length l4))) (frag_off_of (fl F_nw_frag)) (fl F_nw_ttl) (fl F_nw_proto) c
                       (fl F_nw_src) (fl F_nw_dst) in
  (hdr (csum (hdr 0)), l4).

Lemma flow_compose_l4_data b fl : ob_data (flow_compose_l4 b fl) = ob_data b ++ l4_bytes fl.
Proof.
  unfold flow_compose_l4, l4_bytes. repeat case_match; cbn [set_l4 ofpbuf_put set_data ob_data]; rewrite ?app_nil_r, <- ?app_assoc; done.
Qed.

Lemma flow_compose_l4_l3 b fl : ob_l3 (flow_compose_l4 b fl) = ob_l3 b.
Proof. unfold flow_compose_l4. by repeat case_match. Qed.

Lemma length_ip_header tos len frag ttl proto c src dst : length (ip_header tos len frag ttl proto c src dst) = 20%nat.
Proof. done. Qed.

Lemma put_ip_len tos len len' frag ttl proto c src dst :
  put 2 (be_bytes 2 len') (ip_header tos len frag ttl proto c src dst) = ip_header tos len' frag ttl proto c src dst.
Proof. unfold ip_header. rewrite (put_skip 1 _ _ 1), (put_skip 1 _ _ 0), put_here by apply length_be_bytes. done. Qed.

Lemma put_ip_csum tos len frag ttl proto c c' src dst :
  put 10 (be_bytes 2 c') (ip_header tos len frag ttl proto c src dst) = ip_header tos len frag ttl proto c' src dst.
Proof.
  unfold ip_header. rewrite (put_skip 1 _ _ 9), (put_skip 1 _ _ 8), (put_skip 2 _ _ 6), (put_skip 2 _ _ 4), (put_skip 2 _ _ 2), (put_skip 1 _ _ 1), (put_skip 1 _ _ 0).
  by rewrite put_here.
Qed.

Lemma flow_compose_ip_data b fl :
  fl F_nw_frag = 0 ∨ fl F_nw_frag = 1 ∨ fl F_nw_frag = 3 →
  ∃ p, flow_compose_ip b fl = Some p ∧ ob_data p = ob_data b ++ (ip_payload fl).1 ++ (ip_payload fl).2.
Proof.
  intros Hf. unfold flow_compose_ip. cbn zeta. set (e := ob_data b).
  assert (Hfr : ∃ any later, negb (Z.land (fl F_nw_frag) FLOW_NW_FRAG_ANY =? 0) = any ∧ negb (Z.land (fl F_nw_frag) FLOW_NW_FRAG_LATER =? 0) = later
    ∧ (if any : bool then if later : bool then Z.lor IP_MORE_FRAGMENTS 100 else IP_MORE_FRAGMENTS else 0) = frag_off_of (fl F_nw_frag)
    ∧ negb any || negb later = negb (fl F_nw_frag =? 3)).
  { eexists _, _. split; [done|]. split; [done|]. destruct Hf as [-> | [-> | ->]]; done. }
  destruct Hfr as (any & later & -> & -> & -> & ->).
  set (h := ip_header _ 0 _ _ _ 0 _ _). set (b1 := set_l3 _ _). assert (E1 : ob_data b1 = e ++ h) by done.
  set (b2 := if negb (fl F_nw_frag =? 3) then flow_compose_l4 b1 fl else b1). assert (E2 : ob_data b2 = e ++ h ++ (ip_payload fl).2).
  { unfold b2, ip_payload. cbn [snd]. destruct (fl F_nw_frag =? 3); cbn [negb]; [by rewrite app_nil_r|]. by rewrite flow_compose_l4_data, E1, <- app_assoc. }
  rewrite E2. unfold ip_payload in *. cbn [fst snd] in *. set (l4 := if fl F_nw_frag =? 3 then [] else l4_bytes fl) in *.
  assert (Lh : length h = 20%nat) by done.
  replace (Z.of_nat (length (e ++ h ++ l4)) - Z.of_nat (length e)) with (20 + Z.of_nat (length l4)) by (rewrite !length_app, Lh; lia).
  rewrite wr_fits by (rewrite !length_app; lia). cbn [mbind option_bind]. rewrite (put_app_r 2 _ e), put_app_l by (rewrite ?length_be_bytes; lia).
  unfold h. rewrite put_ip_len. set (h2 := ip_header _ _ _ _ _ 0 _ _). assert (Lh2 : length h2 = 20%nat) by done.
  rewrite drop_app_length, take_app_length' by done. rewrite wr_fits by (rewrite !length_app; lia). cbn [mbind option_bind].
  rewrite (put_app_r 10 _ e), put_app_l by (rewrite ?length_be_bytes; lia). eexists. split; [done|]. cbn [ob_data set_data]. unfold h2 at 2. by rewrite put_ip_csum.
Qed.

Definition arp_payload (fl : flowf) : list Z :=
  let value f := if (fl F_nw_proto =? 1) || (fl F_nw_proto =? 2) then fl f else 0 in
  be_bytes 2 1 ++ be_bytes 2 ETH_TYPE_IP ++ be_bytes 1 6 ++ be_bytes 1 4 ++ be_bytes 2 (fl F_nw_proto)
  ++ be_bytes 6 (value F_arp_sha) ++ be_bytes 4 (value F_nw_src) ++ be_bytes 6 (value F_arp_tha) ++ be_bytes 4 (value F_nw_dst).

Definition payload (fl : flowf) : list Z :=
  let ty := fl F_dl_type in
  if ty =? ETH_TYPE_IP then (ip_payload fl).1 ++ (ip_payload fl).2
  else if (ty =? ETH_TYPE_ARP) || (ty =? ETH_TYPE_RARP) then arp_payload fl
  else if eth_type_mpls ty then be_bytes 4 (fl F_mpls_lse)
  else [].

Definition addresses (fl : flowf) : list Z := be_bytes 6 (fl F_dl_dst) ++ be_bytes 6 (fl F_dl_src).
Definition tag_of (fl : flowf) : list Z := if Z.land (fl F_vlan_tci) VLAN_CFI =? 0 then [] else vlan_tag (fl F_vlan_tci).

(** The Ethernet header with its tag. *)
Lemma compose_ethernet fl :
  ∃ b, (if negb (Z.land (fl F_vlan_tci) VLAN_CFI =? 0) then eth_push_vlan (eth_compose (fl F_dl_dst) (fl F_dl_src) (fl F_dl_type) 0) (fl F_vlan_tci)
        else Some (eth_compose (fl F_dl_dst) (fl F_dl_src) (fl F_dl_type) 0)) = Some b
    ∧ ob_data b = addresses fl ++ tag_of fl ++ be_bytes 2 (fl F_dl_type) ∧ ob_l2 b = Some 0 ∧ ob_l3 b = Some (Z.of_nat (length (ob_data b))).
Proof.
  unfold tag_of. destruct (Z.land (fl F_vlan_tci) VLAN_CFI =? 0); cbn [negb].
  - eexists. split; [done|]. split; [cbn [ob_data eth_compose replicate app]; unfold addresses; by rewrite app_nil_r, <- app_assoc|done].
  - rewrite eth_push_vlan_spec; [|repeat apply Forall_app_2; apply be_bytes_u8 || constructor|cbn; lia].
    eexists. split; [done|]. cbn [set_l2 move_data ob_data ob_l2 ob_l3]. set (d := ob_data _).
    assert (Ed : d = addresses fl ++ be_bytes 2 (fl F_dl_type)) by (unfold d, addresses; cbn [ob_data eth_compose replicate]; by rewrite app_nil_r, <- app_assoc).
    assert (E : take 12 d = addresses fl ∧ drop 12 d = be_bytes 2 (fl F_dl_type)) by (rewrite Ed; by rewrite take_app_length', drop_app_length').
    destruct E as [-> ->]. done.
Qed.

Lemma flow_compose_data fl :
  fl F_dl_type ≠ FLOW_DL_TYPE_NONE → (fl F_dl_type = ETH_TYPE_IP → fl F_nw_frag = 0 ∨ fl F_nw_frag = 1 ∨ fl F_nw_frag = 3) →
  ∃ p, flow_compose fl = Some p ∧ ob_data p = addresses fl ++ tag_of fl ++ be_bytes 2 (fl F_dl_type) ++ payload fl.
Proof.
  intros Hty Hf. unfold flow_compose, payload. cbn zeta. rewrite (proj2 (Z.eqb_neq _ _) Hty).
  destruct (compose_ethernet fl) as (b & -> & Hd & H2 & H3). cbn [mbind option_bind].
  assert (Ed : ∀ x, (addresses fl ++ tag_of fl ++ be_bytes 2 (fl F_dl_type)) ++ x = addresses fl ++ tag_of fl ++ be_bytes 2 (fl F_dl_type) ++ x) by (intros; by rewrite <- !app_assoc).
  assert (Hno : eth_type_mpls (fl F_dl_type) = true → (fl F_dl_type =? ETH_TYPE_IP) = false ∧ (fl F_dl_type =? ETH_TYPE_IPV6) = false
    ∧ (fl F_dl_type =? ETH_TYPE_ARP) || (fl F_dl_type =? ETH_TYPE_RARP) = false).
  { unfold eth_type_mpls. intros H. apply orb_true_iff in H as [H|H]; apply Z.eqb_eq in H; by rewrite H. }
  destruct (eth_type_mpls (fl F_dl_type)) eqn:Em.
  { destruct (Hno eq_refl) as (-> & -> & ->). cbn [mbind option_bind]. unfold push_mpls. rewrite Em. cbn [negb]. unfold is_mpls, set_l2_5. rewrite H3. cbn [ob_l2_5 negb mbind option_bind].
    rewrite (push_mpls_lse_spec _ (length (ob_data b))) by (cbn [ob_data ob_l2 ob_l2_5]; done). eexists. split; [done|]. cbn [ob_data].
    by rewrite firstn_all, drop_all, app_nil_r, Hd, Ed. }
  clear Hno. destruct (Z.eqb_spec (fl F_dl_type) ETH_TYPE_IP) as [E|_].
  { destruct (flow_compose_ip_data b fl (Hf E)) as (p & -> & Hp). cbn [mbind option_bind]. exists p. split; [done|]. by rewrite Hp, Hd, Ed. }
  destruct (Z.eqb_spec (fl F_dl_type) ETH_TYPE_IPV6) as [E|_].
  { rewrite E in *. change ((ETH_TYPE_IPV6 =? ETH_TYPE_ARP) || (ETH_TYPE_IPV6 =? ETH_TYPE_RARP)) with false. cbn match.
    exists b. split; [done|]. by rewrite app_nil_r, Hd. }
  destruct (_ || _); cbn [mbind option_bind].
  - eexists. split; [done|]. cbn [ob_data flow_compose_arp set_l3 ofpbuf_put set_data]. by rewrite Hd, Ed.
  - exists b. split; [done|]. by rewrite app_nil_r, Hd.
Qed.

(** ** Parsing them *)

Lemma fld_skip_at n v r o l : (n ≤ o)%nat → fld (be_bytes n v ++ r) o l = fld r (o - n) l.
Proof. intros H. replace o with (n + (o - n))%nat at 1 by lia. apply fld_skip. Qed.

(** Fields of headers, from the front. *)
Ltac fields := repeat (rewrite fld_skip_at by (cbn; lia); cbn [Nat.sub]).

Lemma ip_header_fields tos len frag ttl proto c src dst :
  is_u8 tos → is_u16 frag → is_u8 ttl → is_u8 proto → is_u32 src → is_u32 dst →
  let h := ip_header tos len frag ttl proto c src dst in
  ip_hdr h ∧ fld h 12 4 = src ∧ fld h 16 4 = dst ∧ fld h 9 1 = proto ∧ fld h 1 1 = tos ∧ fld h 6 2 = frag ∧ fld h 8 1 = ttl.
Proof.
  intros H1 H2 H3 H4 H5 H6 h. unfold h, ip_header. split_and!.
  - split; [cbn; lia|]. done.
  - fields. by apply (fld_here 4 _ _ 32).
  - fields. by apply (fld_last 4 _ 32).
  - fields. by apply (fld_here 1 _ _ 8).
  - fields. by apply (fld_here 1 _ _ 8).
  - fields. by apply (fld_here 2 _ _ 16).
  - fields. by apply (fld_here 1 _ _ 8).
Qed.

Lemma parse_icmp_form b fl :
  parse_icmp b fl = if (8 <=? length b)%nat then Some (Some (drop 8 b), set_fields [(F_tp_src, fld b 0 1); (F_tp_dst, fld b 1 1)] fl) else Some (None, fl).
Proof.
  unfold parse_icmp, ofpbuf_try_pull. destruct (Nat.leb_spec 8 (length b)) as [Hl|]; [|done]. by rewrite !rd_take, !rd_fld by lia.
Qed.

(** The transport header: the ports, and no flags. *)
Lemma parse_l4_composed fl r0 :
  flow_ok fl → (fl F_nw_proto = IPPROTO_ICMP → is_u8 (fl F_tp_src) ∧ is_u8 (fl F_tp_dst)) → (∀ f, l4_field f = true → r0 f = 0) →
  ∃ l7 r, parse_l4 false (fl F_nw_proto) (l4_bytes fl) r0 = Some (l7, r)
    ∧ (∀ f, l4_field f = false → r f = r0 f)
    ∧ r F_tp_src = (if has_ports (fl F_nw_proto) then fl F_tp_src else 0) ∧ r F_tp_dst = (if has_ports (fl F_nw_proto) then fl F_tp_dst else 0)
    ∧ r F_tcp_flags = 0 ∧ r F_nd_target = 0 ∧ r F_arp_sha = 0 ∧ r F_arp_tha = 0.
Proof.
  intros Hok Hic Hz. assert (W1 : is_u16 (fl F_tp_src)) by apply (Hok F_tp_src). assert (W2 : is_u16 (fl F_tp_dst)) by apply (Hok F_tp_dst).
  assert (Hx : ∃ l7 r, parse_l4 false (fl F_nw_proto) (l4_bytes fl) r0 = Some (l7, r)
    ∧ r F_tp_src = (if has_ports (fl F_nw_proto) then fl F_tp_src else 0) ∧ r F_tp_dst = (if has_ports (fl F_nw_proto) then fl F_tp_dst else 0)
    ∧ r F_tcp_flags = 0 ∧ r F_nd_target = 0 ∧ r F_arp_sha = 0 ∧ r F_arp_tha = 0).
  { unfold parse_l4, l4_bytes. unfold has_ports, existsb.
    assert (P : ∀ t, fld ((be_bytes 2 (fl F_tp_src) ++ be_bytes 2 (fl F_tp_dst)) ++ t) 0 2 = fl F_tp_src
                     ∧ fld ((be_bytes 2 (fl F_tp_src) ++ be_bytes 2 (fl F_tp_dst)) ++ t) 2 2 = fl F_tp_dst).
    { intros t. rewrite <- app_assoc. split; fields; by apply (fld_here 2 _ _ 16). }
    destruct (Z.eqb_spec (fl F_nw_proto) IPPROTO_TCP) as [E|_].
    { rewrite parse_tcp_form. set (lb := _ ++ _). assert (Ho : tcp_ok lb = true) by reflexivity. assert (Hf : Z.land (fld lb 12 2) 0x0fff = 0) by reflexivity.
      rewrite Ho, Hf. eexists _, _. split; [done|]. unfold port_fields_of, lb. destruct (P (replicate 8 0 ++ be_bytes 2 (Z.shiftl 5 12) ++ replicate 6 0)) as [-> ->].
      cbn [orb]. split_and!; try done; by apply Hz. }
    destruct (Z.eqb_spec (fl F_nw_proto) IPPROTO_UDP) as [E|_].
    { rewrite parse_udp_form. eexists _, _. split; [done|]. unfold port_fields_of. destruct (P (replicate 4 0)) as [-> ->]. cbn [orb]. split_and!; try done; by apply Hz. }
    destruct (Z.eqb_spec (fl F_nw_proto) IPPROTO_SCTP) as [E|_].
    { rewrite parse_sctp_form. eexists _, _. split; [done|]. unfold port_fields_of. destruct (P (replicate 8 0)) as [-> ->]. cbn [orb]. split_and!; try done; by apply Hz. }
    destruct (Z.eqb_spec (fl F_nw_proto) IPPROTO_ICMP) as [E|_].
    { destruct (Hic E) as [W3 W4]. rewrite parse_icmp_form. set (c := csum _). eexists _, _. split; [done|]. cbn [orb].
      assert (E1 : fld (be_bytes 1 (fl F_tp_src) ++ be_bytes 1 (fl F_tp_dst) ++ be_bytes 2 c ++ replicate 4 0) 0 1 = fl F_tp_src) by by apply (fld_here 1 _ _ 8).
      assert (E2 : fld (be_bytes 1 (fl F_tp_src) ++ be_bytes 1 (fl F_tp_dst) ++ be_bytes 2 c ++ replicate 4 0) 1 1 = fl F_tp_dst) by (fields; by apply (fld_here 1 _ _ 8)).
      rewrite E1, E2. split_and!; try done; by apply Hz. }
    eexists _, _. split; [done|]. cbn [orb]. split_and!; by apply Hz. }
  destruct Hx as (l7 & r & E & Hr). exists l7, r. split; [done|]. split; [|done]. intros f Hf. by eapply parse_l4_keep.
Qed.

Lemma parse_ip_composed fl :
  composable fl → fl F_dl_type = ETH_TYPE_IP →
  ∃ l4 l7 r, parse_l3_ip ((ip_payload fl).1 ++ (ip_payload fl).2) (typed_flow ETH_TYPE_IP) = Some (l4, l7, r) ∧ ∀ f, early f = false → r f = fl f.
Proof.
  intros [Hok _ _ _ Hz Hip _] Hty. destruct (Hip Hty) as [Hfr Hic].
  assert (Hz' : ∀ f, early f = false → f ≠ F_dl_type → carried fl f = false → fl f = 0) by exact Hz. unfold carried in Hz'. rewrite Hty in Hz'.
  unfold ip_payload. cbn [fst snd]. set (lb := if fl F_nw_frag =? 3 then [] else l4_bytes fl). set (c := csum _). set (len := u16 _).
  destruct (ip_header_fields (fl F_nw_tos) len (frag_off_of (fl F_nw_frag)) (fl F_nw_ttl) (fl F_nw_proto) c (fl F_nw_src) (fl F_nw_dst))
    as (Hh & E1 & E2 & E3 & E4 & E5 & E6);
    [apply (Hok F_nw_tos)|destruct Hfr as [-> | [-> | ->]]; by split|apply (Hok F_nw_ttl)|apply (Hok F_nw_proto)|apply (Hok F_nw_src)|apply (Hok F_nw_dst)|].
  set (h := ip_header (fl F_nw_tos) len (frag_off_of (fl F_nw_frag)) (fl F_nw_ttl) (fl F_nw_proto) c (fl F_nw_src) (fl F_nw_dst)) in *. clearbody c len.
  rewrite parse_l3_ip_form, E3, E5 by done.
  assert (Ef : ip_frag (frag_off_of (fl F_nw_frag)) 0 = fl F_nw_frag ∧ (Z.land (frag_off_of (fl F_nw_frag)) IP_FRAG_OFF_MASK =? 0) = negb (fl F_nw_frag =? 3))
    by (destruct Hfr as [-> | [-> | ->]]; done).
  destruct Ef as [Ef ->]. assert (Hi : ∀ f, early f = false → l4_field f = false → ip_fields h (typed_flow ETH_TYPE_IP) f = fl f).
  { intros f Hf H4. unfold ip_fields. rewrite E1, E2, E3, E4, E5, E6. change (typed_flow ETH_TYPE_IP F_nw_frag) with 0. rewrite Ef.
    destruct f; try discriminate Hf; try discriminate H4; cbn; try done; symmetry; by apply Hz'. }
  destruct (Z.eqb_spec (fl F_nw_frag) 3) as [E|E]; cbn [negb].
  - eexists _, _, _. split; [done|]. intros f Hf. destruct (l4_field f) eqn:H4; [|by apply Hi].
    symmetry. destruct f; try discriminate H4; apply Hz'; try done; cbn; rewrite E; done.
  - destruct (parse_l4_composed fl (ip_fields h (typed_flow ETH_TYPE_IP)) Hok Hic) as (l7 & r & Ep & Hk & R1 & R2 & R3 & R4 & R5 & R6); [by intros []|].
    unfold lb. cbn match. rewrite Ep. cbn [mbind option_bind]. eexists _, _, _. split; [done|]. intros f Hf. destruct (l4_field f) eqn:H4; [|rewrite Hk by done; by apply Hi].
    destruct f; try discriminate H4; rewrite ?R1, ?R2, ?R3, ?R4, ?R5, ?R6; try (symmetry; by apply Hz').
    + destruct (has_ports _) eqn:Ep2; [done|]. symmetry. by apply Hz'.
    + destruct (has_ports _) eqn:Ep2; [done|]. symmetry. by apply Hz'.
Qed.

Lemma parse_arp_composed fl t :
  composable fl → fl F_dl_type = t → t = ETH_TYPE_ARP ∨ t = ETH_TYPE_RARP →
  ∃ r, parse_l3_arp (arp_payload fl) (typed_flow t) = Some r ∧ ∀ f, early f = false → r f = fl f.
Proof.
  intros [Hok _ _ _ Hz _ _] Hty Ht. assert (Hz' : ∀ f, early f = false → f ≠ F_dl_type → carried fl f = false → fl f = 0) by exact Hz.
  unfold carried in Hz'. rewrite Hty in Hz'. replace (t =? ETH_TYPE_IP) with false in Hz' by (by destruct Ht as [E|E]; rewrite E).
  replace ((t =? ETH_TYPE_ARP) || (t =? ETH_TYPE_RARP)) with true in Hz' by (by destruct Ht as [E|E]; rewrite E).
  set (value f := if (fl F_nw_proto =? 1) || (fl F_nw_proto =? 2) then fl f else 0).
  assert (Wp : is_u8 (fl F_nw_proto)) by apply (Hok F_nw_proto).
  assert (Hv : ∀ f, in_width (field_width f) (value f)) by (intros f; unfold value; destruct (_ || _); [apply Hok|split; [done|apply Z.pow_pos_nonneg; [done|]; pose proof (field_width_pos f); lia]]).
  assert (Hval : ∀ f, (f = F_nw_src ∨ f = F_nw_dst ∨ f = F_arp_sha ∨ f = F_arp_tha) → value f = fl f).
  { intros f Hf. unfold value. destruct (_ || _) eqn:E; [done|]. symmetry. destruct Hf as [-> | [-> | [-> | ->]]]; by apply Hz'. }
  set (b := arp_payload fl).
  assert (F : fld b 6 2 = fl F_nw_proto ∧ fld b 14 4 = value F_nw_src ∧ fld b 24 4 = value F_nw_dst ∧ fld b 8 6 = value F_arp_sha ∧ fld b 18 6 = value F_arp_tha).
  { unfold b, arp_payload. fold value. split_and!; fields; [apply (fld_here 2 _ _ 16)|apply (fld_here 4 _ _ 32)|apply (fld_last 4 _ 32)|apply (fld_here 6 _ _ 48)|apply (fld_here 6 _ _ 48)];
      try done; [by apply (in_width_mono 8)|apply (Hv F_nw_src)|apply (Hv F_nw_dst)|apply (Hv F_arp_sha)|apply (Hv F_arp_tha)]. }
  assert (G : fld b 0 2 = 1 ∧ fld b 2 2 = ETH_TYPE_IP ∧ fld b 4 1 = 6 ∧ fld b 5 1 = 4) by done.
  assert (L : length b = 28%nat) by done. clearbody b.
  unfold parse_l3_arp, ofpbuf_try_pull. rewrite L. cbn [Nat.leb]. rewrite !rd_take, !rd_fld by lia. cbn [mbind option_bind].
  destruct F as (-> & -> & -> & -> & ->), G as (-> & -> & -> & ->). cbn [mbind option_bind]. change (_ && _) with true. cbn match.
  rewrite (proj2 (Z.leb_le (fl F_nw_proto) 0xff)) by (destruct Wp; lia). rewrite !Hval by tauto.
  eexists. split; [done|]. intros f Hf. destruct f; try discriminate Hf; cbn; try done; symmetry; by apply Hz'.
Qed.

Lemma parse_mpls_composed fl t :
  composable fl → fl F_dl_type = t → eth_type_mpls t = true →
  ∃ b r, parse_mpls (be_bytes 4 (fl F_mpls_lse)) (typed_flow t) = Some (b, r) ∧ ∀ f, early f = false → r f = fl f.
Proof.
  intros [Hok _ _ _ Hz _ Hm] Hty Ht. rewrite Hty in Hm. assert (Wl : is_u32 (fl F_mpls_lse)) by apply (Hok F_mpls_lse).
  assert (Hno : (t =? ETH_TYPE_IP) = false ∧ (t =? ETH_TYPE_ARP) || (t =? ETH_TYPE_RARP) = false)
    by (unfold eth_type_mpls in Ht; apply orb_true_iff in Ht as [H|H]; apply Z.eqb_eq in H; by rewrite H).
  assert (Hz' : ∀ f, early f = false → f ≠ F_dl_type → carried fl f = false → fl f = 0) by exact Hz. unfold carried in Hz'. rewrite Hty in Hz'.
  destruct Hno as [N1 N2]. rewrite N1, N2, Ht in Hz'.
  set (b := be_bytes 4 (fl F_mpls_lse)). assert (Lb : length b = 4%nat) by done. assert (Fb : fld b 0 4 = fl F_mpls_lse) by (by apply (fld_last 4 _ 32)). clearbody b.
  assert (E : parse_mpls b (typed_flow t) = Some ([], set_fields [(F_mpls_lse, fl F_mpls_lse); (F_mpls_depth, 1)] (typed_flow t))).
  { unfold parse_mpls. rewrite Lb. cbn [parse_mpls_loop]. unfold ofpbuf_try_pull. rewrite Lb. cbn [Nat.leb].
    rewrite rd_take, rd_fld, Fb, drop_ge by lia. cbn [mbind option_bind]. by destruct (negb _). }
  eexists _, _. split; [exact E|]. intros f Hf. destruct f; try discriminate Hf; cbn; try done; symmetry; first [by apply Hm|by apply Hz'].
Qed.

(** What follows the addresses and the tag. *)
Lemma layers_composed fl :
  composable fl → ETH_TYPE_MIN ≤ fl F_dl_type →
  ∃ ly, parse_layers (be_bytes 2 (fl F_dl_type) ++ payload fl) = Some ly ∧ ∀ f, early f = false → ly_flow ly f = fl f.
Proof.
  intros Hc Hm. assert (He : parse_ethertype (be_bytes 2 (fl F_dl_type) ++ payload fl) = Some (fl F_dl_type, payload fl))
    by (apply parse_ethertype_composed; [apply (cp_ok _ Hc F_dl_type)|done]).
  assert (L3 : eth_type_mpls (fl F_dl_type) = false → ∀ l4 l7 r, parse_l3 (payload fl) (typed_flow (fl F_dl_type)) = Some (l4, l7, r) → (∀ f, early f = false → r f = fl f) →
    ∃ ly, parse_layers (be_bytes 2 (fl F_dl_type) ++ payload fl) = Some ly ∧ ∀ f, early f = false → ly_flow ly f = fl f).
  { intros Hno l4 l7 r E Hr. eexists. split; [apply (layers_plain _ _ _ _ He Hno); by exists l4, l7, r|exact Hr]. }
  destruct (eth_type_mpls (fl F_dl_type)) eqn:Em.
  { destruct (parse_mpls_composed fl _ Hc eq_refl Em) as (b & r & E & Hr).
    assert (Ep : payload fl = be_bytes 4 (fl F_mpls_lse)).
    { unfold payload. rewrite Em. unfold eth_type_mpls in Em. apply orb_true_iff in Em as [H|H]; apply Z.eqb_eq in H; by rewrite H. }
    eexists. split; [apply (layers_mpls _ _ _ _ He Em); exists b, r; by rewrite Ep|exact Hr]. }
  specialize (L3 eq_refl). unfold parse_l3, typed_flow, payload in L3. rewrite upd_eq, Em in L3. fold (typed_flow (fl F_dl_type)) in L3. clear He.
  unfold payload. rewrite Em.
  destruct (Z.eqb_spec (fl F_dl_type) ETH_TYPE_IP) as [E|E].
  { destruct (parse_ip_composed fl Hc E) as (l4 & l7 & r & Er & Hr). rewrite <- E in Er. by apply (L3 l4 l7 r). }
  destruct ((fl F_dl_type =? ETH_TYPE_ARP) || (fl F_dl_type =? ETH_TYPE_RARP)) eqn:Ea.
  { apply orb_true_iff in Ea. rewrite !Z.eqb_eq in Ea. destruct (parse_arp_composed fl _ Hc eq_refl Ea) as (r & Er & Hr).
    apply (L3 None None r); [|done]. rewrite Er. by destruct Ea as [-> | ->]. }
  assert (Hz : ∀ f, early f = false → typed_flow (fl F_dl_type) f = fl f).
  { intros f Hf. unfold typed_flow, upd. destruct (decide _) as [->|Hne]; [done|]. symmetry. apply (cp_zero _ Hc); [done|congruence|].
    unfold carried. by rewrite (proj2 (Z.eqb_neq _ _) E), Ea, Em. }
  destruct (Z.eqb_spec (fl F_dl_type) ETH_TYPE_IPV6); by eapply L3.
Qed.

(** Parsing a packet of this form. *)
Lemma extract_composed p fl b ly :
  composable fl → ob_data p = addresses fl ++ b → (2 ≤ length b)%nat →
  split_vlan b = ((split_vlan b).1, fl F_vlan_tci) → parse_layers (split_vlan b).1 = Some ly → (∀ f, early f = false → ly_flow ly f = fl f) →
  flow_extract p (fl F_skb_priority) (fl F_pkt_mark) (Some fl) (Some (fl F_in_port)) = Some (markers (ob_data p) ly, fl).
Proof.
  intros [Hok [Hm Hr] _ _ _ _ _] Hd Hl Hv Hly Hf. assert (La : length (addresses fl) = 12%nat) by done.
  rewrite flow_extract_nf by (rewrite Hd, length_app; lia). cbn zeta.
  assert (E0 : drop 12 (ob_data p) = b) by (rewrite Hd; by rewrite drop_app_length').
  assert (E1 : rd 6 6 (ob_data p) = Some (fl F_dl_src)).
  { rewrite Hd. unfold addresses. rewrite <- app_assoc, (rd_app_r 0 6 _ _ 6), rd_be_bytes by apply length_be_bytes. change (8 * Z.of_nat 6) with 48. rewrite wrap_id; [done|apply (Hok F_dl_src)]. }
  assert (E2 : rd 0 6 (ob_data p) = Some (fl F_dl_dst)).
  { rewrite Hd. unfold addresses. rewrite <- app_assoc, rd_be_bytes. change (8 * Z.of_nat 6) with 48. rewrite wrap_id; [done|apply (Hok F_dl_dst)]. }
  rewrite E0, E1, E2, Hv. cbn [mbind option_bind]. rewrite Hly. cbn [mbind option_bind]. do 2 f_equal. apply flow_funext. intros f. unfold overlay_of.
  destruct (early f) eqn:Ee; [|by apply Hf]. destruct f; try discriminate Ee; cbn; done.
Qed.

(** C16: A flow all of whose fields [flow_compose] writes parses back to
    itself: for a flow that is [composable], the composition succeeds, and
    [flow_extract] of the composed packet, with the metadata of the flow,
    gives exactly the flow.  A composable flow has fields in range, registers
    and OpenFlow metadata 0, a VLAN tag that is 0 unless its CFI bit is set,
    an Ethernet type (or neither type nor tag), and nothing beyond what the
    code writes for that type: IPv4 addresses, protocol, TOS, TTL and one of
    the three fragment types a packet can have, and without a later fragment
    the ports of TCP, UDP or SCTP or the 8-bit type and code of ICMP; the
    operation of ARP or RARP, with the addresses for operations 1 and 2; one
    MPLS label.  Packets have flows outside of this, which flow_compose() does
    not reproduce: the headers of IPv6, TCP flags, more than one MPLS label,
    the addresses of other ARP operations. *)
Theorem flow_compose_extract_roundtrip fl :
  composable fl →
  ∃ p p', flow_compose fl = Some p ∧ ob_data p' = ob_data p
    ∧ flow_extract p (fl F_skb_priority) (fl F_pkt_mark) (Some fl) (Some (fl F_in_port)) = Some (p', fl).
Proof.
  intros Hc. pose proof (cp_ok _ Hc F_dl_type) as Wt. pose proof (cp_ok _ Hc F_vlan_tci) as Wv. destruct (cp_type _ Hc) as [[Hty Hv]|Hmin].
  - set (b := be_bytes 2 14).
    assert (E : flow_compose fl = Some (Ofpbuf (addresses fl ++ b) (Some 0) None (Some 14) None None)).
    { unfold flow_compose. rewrite Hty. change (FLOW_DL_TYPE_NONE =? FLOW_DL_TYPE_NONE) with true. cbn match. unfold eth_compose. cbn [ob_data replicate].
      rewrite wr_fits by (cbn; lia). cbn [mbind option_bind set_data]. done. }
    eexists _, _. split; [exact E|]. split; [|apply (extract_composed _ _ b (Layers None [] None None (typed_flow FLOW_DL_TYPE_NONE)) Hc); [done|done|by rewrite Hv|done|]]; [done|].
    intros f Hf. cbn [ly_flow]. unfold typed_flow, upd. destruct (decide _) as [->|Hne]; [done|]. symmetry. apply (cp_zero _ Hc); [done|congruence|].
    unfold carried. by rewrite Hty.
  - destruct (flow_compose_data fl) as (p & E & Hd); [intros H; rewrite H in Hmin; by apply Hmin|intros H; by apply (cp_ip _ Hc)|].
    destruct (layers_composed fl Hc Hmin) as (ly & El & Hly).
    assert (Hs : split_vlan (tag_of fl ++ be_bytes 2 (fl F_dl_type) ++ payload fl) = (be_bytes 2 (fl F_dl_type) ++ payload fl, fl F_vlan_tci)).
    { apply split_vlan_composed; [done|done|apply (cp_tci _ Hc)|]. destruct (decide (fl F_dl_type = ETH_TYPE_VLAN)) as [Ht|]; [|by left]. right. right. unfold payload. by rewrite Ht. }
    eexists _, _. split; [exact E|]. split; [|apply (extract_composed _ _ _ ly Hc Hd); rewrite ?Hs; try done]; [done|]. rewrite !length_app, length_be_bytes. lia.
Qed.

Definition composed_flow : flowf :=
  set_fields [(F_in_port, 3); (F_dl_src, 0x020000000001); (F_dl_dst, 0x020000000002); (F_vlan_tci, 0x3064); (F_dl_type, ETH_TYPE_IP); (F_nw_src, 0x0a000001);
              (F_nw_dst, 0x0a000002); (F_nw_proto, IPPROTO_UDP); (F_nw_ttl, 64); (F_tp_src, 1234); (F_tp_dst, 53)] zero_flow.

Lemma flow_compose_extract_roundtrip_witness :
  ∃ p p', flow_compose composed_flow = Some p ∧ ob_data p' = ob_data p
    ∧ flow_extract p (composed_flow F_skb_priority) (composed_flow F_pkt_mark) (Some composed_flow) (Some (composed_flow F_in_port)) = Some (p', composed_flow).
Proof.
  apply flow_compose_extract_roundtrip. split.
  - intros f. destruct f; vm_compute; (split; [discriminate|reflexivity]).
  - done.
  - by intros [=].
  - right. by vm_compute.
  - intros f. destruct f; vm_compute; done.
  - intros _. split; [by left|done].
  - done.
Defined.
