(* ===== verification/PacketDefects.v ===== *)
(** * Packets that the set actions break

    Three packets on which the functions of lib/packets.c for set actions do
    not do what their callers rely on. *)
From stdpp Require Import list.
From S2P Require Import Prelude ByteOrder FlowLayout Hash Bitwise MatchFields MetaFlow OdpActions Csum Packets PacketBytes PacketView PacketExec PacketIp PacketL3 PacketL4 PacketRefine PacketCsum.

(** The packet with its markers, and its flow, without metadata. *)
Definition parse_of (d : list Z) : ofpbuf * flowf :=
  default (Ofpbuf d None None None None None, zero_flow) (flow_extract (Ofpbuf d None None None None None) 0 0 (Some zero_flow) (Some 0)).

Definition ipv6_packet (len nexthdr : Z) (rest : list Z) : list Z :=
  be_bytes 6 2 ++ be_bytes 6 4 ++ be_bytes 2 ETH_TYPE_IPV6 ++ be_bytes 4 0x60000000 ++ be_bytes 2 len ++ be_bytes 1 nexthdr ++ be_bytes 1 64
  ++ be_bytes 16 1 ++ be_bytes 16 3 ++ rest.

(** An empty UDP datagram from ::1 to ::3. *)
Definition udp6_packet : list Z := ipv6_packet 8 IPPROTO_UDP (be_bytes 2 1000 ++ be_bytes 2 2000 ++ be_bytes 2 8 ++ be_bytes 2 0xf422).

(** One that ends before its routing header. *)
Definition truncated_ipv6_packet : list Z := ipv6_packet 0 IPPROTO_ROUTING [].

(** An SCTP header, in a frame with ten bytes of padding. *)
Definition sctp_packet : list Z :=
  let l4 (c : Z) := be_bytes 2 1000 ++ be_bytes 2 2000 ++ be_bytes 4 7 ++ be_bytes 4 c in
  be_bytes 6 2 ++ be_bytes 6 4 ++ be_bytes 2 ETH_TYPE_IP ++ ip_header 0 32 0 64 IPPROTO_SCTP 0 0x0a000001 0x0a000002
  ++ l4 (sctp_crc (l4 0)) ++ replicate 10 0.

(** The checksum of an IPv6 datagram that a receiver computes. *)
Definition udp6_sum (d : list Z) : Z :=
  let l3 := drop 14 d in csum (take 32 (drop 8 l3) ++ be_bytes 4 8 ++ be_bytes 4 IPPROTO_UDP ++ drop 40 l3).

(** Three set actions on packets that the translation allows them for.
    Setting the source address of a UDP datagram with a valid checksum from
    ::1 to ::2 leaves the packet with the source ::1 and an invalid checksum
    (the copy has the size of one word, the checksum update that of the
    address).  Setting the destination of an IPv6 packet which ends before
    its routing header reads outside of the packet: parsing leaves it without
    a transport header.  Setting a port of an SCTP packet in a padded frame
    makes its checksum wrong. *)
Lemma set_actions_break_packets :
  (let '(p, fl) := parse_of udp6_packet in
   udp6_sum (ob_data p) = 0 ∧ fl F_ipv6_src = 1
   ∧ match odp_execute_set_action p (ODP_SET_IPV6 2 (fl F_ipv6_dst) 0 (fl F_nw_proto) 0 (fl F_nw_ttl) 0) zero_flow with
     | Some (p', _) => (parse_of (ob_data p')).2 F_ipv6_src = 1 ∧ udp6_sum (ob_data p') ≠ 0
     | None => False
     end)
  ∧ (let '(p, fl) := parse_of truncated_ipv6_packet in
     fl F_dl_type = ETH_TYPE_IPV6 ∧ fl F_nw_proto ≠ 0 ∧ ob_l4 p = None
     ∧ odp_execute_set_action p (ODP_SET_IPV6 (fl F_ipv6_src) 4 0 (fl F_nw_proto) 0 (fl F_nw_ttl) 0) zero_flow = None)
  ∧ (let '(p, fl) := parse_of sctp_packet in
     fld (l4_of p) 8 4 = sctp_crc (l4_payload (header_of p) (l4_of p))
     ∧ match odp_execute_set_action p (ODP_SET_SCTP 1001 (fl F_tp_dst)) zero_flow with
       | Some (p', _) => fld (l4_of p') 8 4 ≠ sctp_crc (l4_payload (header_of p') (l4_of p'))
       | None => False
       end).
Proof. vm_compute. by split_and!. Qed.
