(* ===== verification/TableCounters.v ===== *)
(** * Table ranges and table counters (lib/simon.h, lib/increment_table_id.c)

    This switch divides the flow tables into ingress tables (0 to 149),
    production tables (150 to 199) and egress tables (200 to 253).  Two
    atomic 8-bit counters say how many ingress and egress tables are in use;
    the [increment_table_id] action increments one of them. *)
From stdpp Require Import strings.
From S2P Require Import Prelude MetaFlow.

Definition SIMON_TABLE_INGRESS_START : Z := 0.
Definition SIMON_TABLE_PRODUCTION_START : Z := 150.
Definition SIMON_TABLE_EGRESS_START : Z := 200.

Definition TABLE_IS_INGRESS (id : Z) : bool := id <? SIMON_TABLE_PRODUCTION_START.
Definition TABLE_IS_PRODUCTION (id : Z) : bool :=
  (SIMON_TABLE_PRODUCTION_START <=? id) && (id <? SIMON_TABLE_EGRESS_START).
Definition TABLE_IS_EGRESS (id : Z) : bool := (SIMON_TABLE_EGRESS_START <=? id) && (id <? 254).

Definition TABLE_SPEC_INGRESS : Z := 1.
Definition TABLE_SPEC_EGRESS : Z := 2.

(** [atomic_table_id_ingress] and [atomic_table_id_egress]. *)
Record table_counters := TableCounters { tc_ingress : Z; tc_egress : Z }.
Definition init_counters : table_counters := TableCounters 0 0.

(** The value before the addition, and the counters after it. *)
Definition increment_table_counter (counter_spec inc : Z) (c : table_counters) : Z * table_counters :=
  if counter_spec =? TABLE_SPEC_INGRESS then
    (tc_ingress c, TableCounters (u8 (tc_ingress c + inc)) (tc_egress c))
  else if counter_spec =? TABLE_SPEC_EGRESS then
    (tc_egress c, TableCounters (tc_ingress c) (u8 (tc_egress c + inc)))
  else (0, c).

Definition increment_table_id_execute (counter_spec : Z) (c : table_counters) : Z * table_counters :=
  increment_table_counter counter_spec 1 c.

Definition get_table_counter_by_spec (table_spec : Z) (c : table_counters) : Z :=
  (increment_table_counter table_spec 0 c).1.

Definition get_table_counter_by_id (table_id : Z) (c : table_counters) : Z :=
  if TABLE_IS_INGRESS table_id then get_table_counter_by_spec TABLE_SPEC_INGRESS c
  else if TABLE_IS_EGRESS table_id then get_table_counter_by_spec TABLE_SPEC_EGRESS c
  else 0.

(** The action as text and on the wire. *)
Definition increment_table_id_check (counter_spec : Z) : option ofperr :=
  if negb (counter_spec =? TABLE_SPEC_INGRESS) && negb (counter_spec =? TABLE_SPEC_EGRESS)
  then Some OFPERR_OFPBAC_BAD_SET_TYPE else None.

Definition increment_table_id_parse (arg : string) : option Z :=
  if bool_decide (arg = "INGRESS"%string) then Some TABLE_SPEC_INGRESS
  else if bool_decide (arg = "EGRESS"%string) then Some TABLE_SPEC_EGRESS
  else None.

Definition increment_table_id_format (counter_spec : Z) : string :=
  ("increment_table_id(" +:+ (if (counter_spec =? TABLE_SPEC_EGRESS)%Z then "EGRESS" else "INGRESS") +:+ ")")%string.

(** The table of which a learned or deleted flow's [table_spec] speaks
    (the same code in [learn_delete_execute] and [learn_learn_execute]). *)
Definition USING_RULE_TABLE : Z := 2.
Definition USING_INGRESS_ATOMIC_TABLE : Z := 3.
Definition USING_EGRESS_ATOMIC_TABLE : Z := 4.

Definition learn_table (table_spec table_id rule_table : Z) (c : table_counters) : Z :=
  if table_spec =? USING_INGRESS_ATOMIC_TABLE then get_table_counter_by_spec TABLE_SPEC_INGRESS c
  else if table_spec =? USING_EGRESS_ATOMIC_TABLE then
    u8 (SIMON_TABLE_EGRESS_START + get_table_counter_by_spec TABLE_SPEC_EGRESS c)
  else if table_spec =? USING_RULE_TABLE then rule_table
  else table_id.

(** ** Properties *)

Definition counters_ok (c : table_counters) : Prop := is_u8 (tc_ingress c) ∧ is_u8 (tc_egress c).

Lemma init_counters_ok : counters_ok init_counters.
Proof. done. Qed.

Lemma increment_table_counter_ok spec inc c : counters_ok c → counters_ok (increment_table_counter spec inc c).2.
Proof.
  intros [Hi He]. unfold increment_table_counter. destruct (_ =? _); [|destruct (_ =? _)]; simpl; [| |done].
  - split; [by apply wrap_in_width|done].
  - split; [done|by apply wrap_in_width].
Qed.

(** The ranges are disjoint and cover the tables a controller can use. *)
Lemma table_ranges id :
  is_u8 id →
  (TABLE_IS_INGRESS id = true ∧ TABLE_IS_PRODUCTION id = false ∧ TABLE_IS_EGRESS id = false)
  ∨ (TABLE_IS_INGRESS id = false ∧ TABLE_IS_PRODUCTION id = true ∧ TABLE_IS_EGRESS id = false)
  ∨ (TABLE_IS_INGRESS id = false ∧ TABLE_IS_PRODUCTION id = false ∧ TABLE_IS_EGRESS id = (id <? 254)).
Proof.
  intros [H0 H1]. unfold TABLE_IS_INGRESS, TABLE_IS_PRODUCTION, TABLE_IS_EGRESS,
    SIMON_TABLE_PRODUCTION_START, SIMON_TABLE_EGRESS_START.
  destruct (Z.ltb_spec id 150), (Z.leb_spec 150 id), (Z.ltb_spec id 200), (Z.leb_spec 200 id); try lia; simpl; auto.
Qed.

Lemma increment_table_id_parse_check arg spec :
  increment_table_id_parse arg = Some spec → increment_table_id_check spec = None.
Proof.
  unfold increment_table_id_parse. case_bool_decide; [by intros [= <-]|]. case_bool_decide; [by intros [= <-]|done].
Qed.

(** A learned flow meant for the next egress table goes to the internal
    table 254 once 54 egress tables are in use, and to an ingress table after
    two more. *)
Lemma learn_table_egress_wraps n t r :
  56 ≤ n < 256 → learn_table USING_EGRESS_ATOMIC_TABLE t r (TableCounters 0 n) = n - 56.
Proof.
  intros Hn. unfold learn_table, get_table_counter_by_spec, increment_table_counter. simpl.
  unfold u8, wrap, SIMON_TABLE_EGRESS_START. change (2 ^ 8) with 256. symmetry. apply (Z.mod_unique_pos _ _ 1); lia.
Qed.
