(* ===== verification/Learn.v ===== *)
(** * OpenFlow actions and the learning actions
    (lib/ofp-actions.h, lib/learn.c, lib/learn_learn.c, lib/learn_delete.c,
    execution of the last two in ofproto/ofproto.c)

    The actions of [lib/ofp-actions.h] as an inductive type, without the
    members that only record how an action was written on the wire.  The
    learning actions build a flow table modification from their
    specifications and the flow of the packet being processed.  A
    [learn_learn] action carries the actions of the flow it learns, and
    substitutes values into the learning actions nested in them: a
    specification with [defer_count] [k] takes its value from the packet at
    the [k+1]-th level.  The source computes [defer_count] in 8 bits and
    uses 255 for "never".

    [None] as the result of an operation is a failed assertion or a null
    pointer.  A specification with an immediate source has no source field:
    the source leaves a null [src.field] in it. *)
From stdpp Require Import strings.
From S2P Require Import Prelude Util ByteOrder Bitwise MatchFields MetaFlow OdpActions NxActions TableCounters.

(** ** Actions *)

Inductive learn_src_type := NX_LEARN_SRC_FIELD | NX_LEARN_SRC_IMMEDIATE.
Inductive learn_dst_type := NX_LEARN_DST_MATCH | NX_LEARN_DST_LOAD | NX_LEARN_DST_OUTPUT | NX_LEARN_DST_RESERVED.

Record ofpact_learn_spec := LearnSpec {
  ls_n_bits : nat;
  ls_src_type : learn_src_type;
  ls_src : option mf_subfield;
  ls_src_imm : Z;
  ls_dst_type : learn_dst_type;
  ls_dst : mf_subfield;
  ls_defer_count : Z
}.

Record ofpact_learn := OfpactLearn {
  ln_idle_timeout : Z;
  ln_hard_timeout : Z;
  ln_priority : Z;
  ln_cookie : Z;
  ln_flags : Z;
  ln_table_id : Z;
  ln_fin_idle_timeout : Z;
  ln_fin_hard_timeout : Z;
  ln_learn_on_timeout : bool;
  ln_specs : list ofpact_learn_spec
}.

(** Without its specifications' and nested actions' lengths; the actions are
    an argument of the constructor below. *)
Record ofpact_learn_learn := OfpactLearnLearn {
  ll_learn : ofpact_learn;
  ll_table_spec : Z
}.

Record ofpact_learn_delete := OfpactLearnDelete {
  ld_priority : Z;
  ld_cookie : Z;
  ld_flags : Z;
  ld_table_id : Z;
  ld_table_spec : Z;
  ld_specs : list ofpact_learn_spec
}.

Inductive ofpact :=
| OFPACT_OUTPUT (port max_len : Z)
| OFPACT_CONTROLLER (max_len controller_id reason : Z)
| OFPACT_ENQUEUE (port queue : Z)
| OFPACT_OUTPUT_REG (src : mf_subfield) (max_len : Z)
| OFPACT_BUNDLE (bundle : ofpact_bundle)
| OFPACT_SET_VLAN_VID (vlan_vid : Z)
| OFPACT_SET_VLAN_PCP (vlan_pcp : Z)
| OFPACT_STRIP_VLAN
| OFPACT_PUSH_VLAN
| OFPACT_SET_ETH_SRC (mac : Z)
| OFPACT_SET_ETH_DST (mac : Z)
| OFPACT_SET_IPV4_SRC (ipv4 : Z)
| OFPACT_SET_IPV4_DST (ipv4 : Z)
| OFPACT_SET_IPV4_DSCP (dscp : Z)
| OFPACT_SET_L4_SRC_PORT (port : Z)
| OFPACT_SET_L4_DST_PORT (port : Z)
| OFPACT_REG_MOVE (src dst : mf_subfield)
| OFPACT_REG_LOAD (dst : mf_subfield) (subvalue : Z)
| OFPACT_STACK_PUSH (sf : mf_subfield)
| OFPACT_STACK_POP (sf : mf_subfield)
| OFPACT_DEC_TTL (cnt_ids : list Z)
| OFPACT_SET_MPLS_TTL (ttl : Z)
| OFPACT_DEC_MPLS_TTL
| OFPACT_PUSH_MPLS (ethertype : Z)
| OFPACT_POP_MPLS (ethertype : Z)
| OFPACT_SET_TUNNEL (tun_id : Z)
| OFPACT_SET_QUEUE (queue_id : Z)
| OFPACT_POP_QUEUE
| OFPACT_FIN_TIMEOUT (fin_idle_timeout fin_hard_timeout : Z)
| OFPACT_RESUBMIT (in_port table_id : Z)
| OFPACT_LEARN (learn : ofpact_learn)
| OFPACT_LEARN_LEARN (learn : ofpact_learn_learn) (ofpacts : list ofpact)
| OFPACT_TIMEOUT_ACT (ofpacts : list ofpact)
| OFPACT_LEARN_DELETE (learn : ofpact_learn_delete)
| OFPACT_INCREMENT_TABLE_ID (counter_spec : Z)
| OFPACT_MULTIPATH (mp : ofpact_multipath)
| OFPACT_NOTE (data : list Z)
| OFPACT_EXIT
| OFPACT_SAMPLE (probability collector_set_id obs_domain_id obs_point_id : Z)
| OFPACT_METER (meter_id : Z)
| OFPACT_CLEAR_ACTIONS
| OFPACT_WRITE_METADATA (metadata mask : Z)
| OFPACT_GOTO_TABLE (table_id : Z).

(** ** Reserved ports *)

Definition OFPP_EGRESS : Z := 0xfeef.
Definition OFPP_IN_PORT : Z := 0xfff8.
Definition OFPP_TABLE : Z := 0xfff9.
Definition OFPP_NORMAL : Z := 0xfffa.
Definition OFPP_FLOOD : Z := 0xfffb.
Definition OFPP_ALL : Z := 0xfffc.
Definition OFPP_CONTROLLER : Z := 0xfffd.
Definition OFPP_LOCAL : Z := 0xfffe.

(** ** Flow table modifications (struct ofputil_flow_mod) *)

Inductive ofp_flow_mod_command := OFPFC_MODIFY_STRICT | OFPFC_DELETE | OFPFC_DELETE_STRICT.

(** [fm_timeouts] is [None] where the source leaves them uninitialised. *)
Record ofputil_flow_mod := FlowMod {
  fm_match : fmatch;
  fm_priority : Z;
  fm_cookie : Z;
  fm_cookie_mask : Z;
  fm_new_cookie : Z;
  fm_modify_cookie : bool;
  fm_table_id : Z;
  fm_command : ofp_flow_mod_command;
  fm_timeouts : option (Z * Z);
  fm_flags : Z;
  fm_ofpacts : list ofpact
}.

Definition OFP_DEFAULT_PRIORITY : Z := 0x8000.

(** ** Learning *)

(** The loop of the [NX_LEARN_DST_LOAD] case, from bit [ofs] on. *)
Fixpoint learn_loads (fuel : nat) (dst : mf_subfield) (value : Z) (n_bits ofs : nat) : list ofpact :=
  match fuel with
  | O => []
  | S fuel =>
      if (ofs <? n_bits)%nat then
        let chunk := Nat.min (n_bits - ofs) 64 in
        OFPACT_REG_LOAD (MfSubfield (sf_field dst) (sf_ofs dst + ofs) chunk)
          (get_be (bitwise_copy (be_bytes 16 value) ofs (be_bytes 16 0) 0 chunk))
        :: learn_loads fuel dst value n_bits (ofs + chunk)
      else []
  end.

(** The [NX_LEARN_DST_OUTPUT] case. *)
Definition learn_output (n_bits : nat) (value : Z) : list ofpact :=
  if (n_bits <=? 16)%nat || is_all_zeros (take 14 (be_bytes 16 value)) then
    let port := u16 value in
    if (port <? OFPP_MAX) || (port =? OFPP_IN_PORT) || (port =? OFPP_FLOOD) || (port =? OFPP_LOCAL)
       || (port =? OFPP_ALL)
    then [OFPACT_OUTPUT port 0] else []
  else [].

(** One iteration of the loop over the specifications, on the match and the
    actions composed so far; [None] is a failed assertion in [mf_set]. *)
Definition learn_spec_execute (spec : ofpact_learn_spec) (value : Z) (m : fmatch) (acts : list ofpact)
  : option (fmatch * list ofpact) :=
  match ls_dst_type spec with
  | NX_LEARN_DST_MATCH => m ← mf_write_subfield (ls_dst spec) value m; Some (m, acts)
  | NX_LEARN_DST_LOAD => Some (m, acts ++ learn_loads (ls_n_bits spec) (ls_dst spec) value (ls_n_bits spec) 0)
  | NX_LEARN_DST_OUTPUT => Some (m, acts ++ learn_output (ls_n_bits spec) value)
  | NX_LEARN_DST_RESERVED => Some (m, acts ++ [OFPACT_RESUBMIT 0 2])
  end.

Definition learn_value (spec : ofpact_learn_spec) (flow : flowf) : option Z :=
  match ls_src_type spec with
  | NX_LEARN_SRC_FIELD => src ← ls_src spec; Some (mf_read_subfield src flow)
  | NX_LEARN_SRC_IMMEDIATE => Some (ls_src_imm spec)
  end.

Fixpoint learn_specs_execute (specs : list ofpact_learn_spec) (flow : flowf) (m : fmatch) (acts : list ofpact)
  : option (fmatch * list ofpact) :=
  match specs with
  | [] => Some (m, acts)
  | spec :: specs =>
      value ← learn_value spec flow;
      '(m, acts) ← learn_spec_execute spec value m acts;
      learn_specs_execute specs flow m acts
  end.

Definition learn_fin_timeout (learn : ofpact_learn) : list ofpact :=
  if (ln_fin_idle_timeout learn =? 0) && (ln_fin_hard_timeout learn =? 0) then []
  else [OFPACT_FIN_TIMEOUT (ln_fin_idle_timeout learn) (ln_fin_hard_timeout learn)].

Definition learn_flow_mod (learn : ofpact_learn) (table_id : Z) (m : fmatch) (acts : list ofpact) : ofputil_flow_mod :=
  FlowMod m (ln_priority learn) 0 0 (ln_cookie learn) (negb (ln_cookie learn =? 2 ^ 64 - 1)) table_id
    OFPFC_MODIFY_STRICT (Some (ln_idle_timeout learn, ln_hard_timeout learn)) (ln_flags learn) acts.

(** The result is [None] where the function returns without initialising
    [fm]. *)
Definition learn_execute (learn : ofpact_learn) (flow : flowf) : option (option ofputil_flow_mod) :=
  if ln_learn_on_timeout learn then Some None
  else
    '(m, acts) ← learn_specs_execute (ln_specs learn) flow fmatch_init_catchall (learn_fin_timeout learn);
    Some (Some (learn_flow_mod learn (ln_table_id learn) m acts)).

(** There is no packet when a flow expires: the immediate value is used for
    every specification. *)
Fixpoint timeout_specs_execute (specs : list ofpact_learn_spec) (m : fmatch) (acts : list ofpact)
  : option (fmatch * list ofpact) :=
  match specs with
  | [] => Some (m, acts)
  | spec :: specs =>
      '(m, acts) ← learn_spec_execute spec (ls_src_imm spec) m acts;
      timeout_specs_execute specs m acts
  end.

Definition timeout_learn_execute (learn : ofpact_learn) : option ofputil_flow_mod :=
  '(m, acts) ← timeout_specs_execute (ln_specs learn) fmatch_init_catchall (learn_fin_timeout learn);
  Some (learn_flow_mod learn (ln_table_id learn) m acts).

(** Unwildcards the sources. *)
Fixpoint learn_mask (specs : list ofpact_learn_spec) (wc : flowf) : option flowf :=
  match specs with
  | [] => Some wc
  | spec :: specs =>
      match ls_src_type spec with
      | NX_LEARN_SRC_FIELD => src ← ls_src spec; learn_mask specs (mf_unwild src wc)
      | NX_LEARN_SRC_IMMEDIATE => learn_mask specs wc
      end
  end.

(** ** Deletion *)

Definition learn_delete_execute (learn : ofpact_learn_delete) (flow : flowf) (rule_table : Z) (c : table_counters)
  : option ofputil_flow_mod :=
  '(m, acts) ← learn_specs_execute (ld_specs learn) flow fmatch_init_catchall [];
  Some (FlowMod m (ld_priority learn) (ld_cookie learn) (ld_cookie learn) (ld_cookie learn)
          (negb (ld_cookie learn =? 2 ^ 64 - 1))
          (learn_table (ld_table_spec learn) (ld_table_id learn) rule_table c)
          (if ld_priority learn =? OFP_DEFAULT_PRIORITY then OFPFC_DELETE else OFPFC_DELETE_STRICT)
          None (ld_flags learn) acts).

(** ** Nested learning *)

Definition change_spec_value (flow : flowf) (spec : ofpact_learn_spec) : option ofpact_learn_spec :=
  if ls_defer_count spec =? 0xff then Some spec
  else if 1 <=? ls_defer_count spec then
    Some (LearnSpec (ls_n_bits spec) (ls_src_type spec) (ls_src spec) (ls_src_imm spec) (ls_dst_type spec)
            (ls_dst spec) (ls_defer_count spec - 1))
  else
    src ← ls_src spec;
    Some (LearnSpec (sf_n_bits src) NX_LEARN_SRC_IMMEDIATE (ls_src spec) (mf_get_value (sf_field src) flow)
            (ls_dst_type spec) (ls_dst spec) 0xff).

Definition change_spec_values (flow : flowf) (specs : list ofpact_learn_spec) : option (list ofpact_learn_spec) :=
  mapM (change_spec_value flow) specs.

Definition ln_with_specs (learn : ofpact_learn) (specs : list ofpact_learn_spec) : ofpact_learn :=
  OfpactLearn (ln_idle_timeout learn) (ln_hard_timeout learn) (ln_priority learn) (ln_cookie learn) (ln_flags learn)
    (ln_table_id learn) (ln_fin_idle_timeout learn) (ln_fin_hard_timeout learn) (ln_learn_on_timeout learn) specs.

(** [do_deferral] on one action; [populate_deferral_values] is its first
    case. *)
Fixpoint defer_action (flow : flowf) (a : ofpact) : option ofpact :=
  match a with
  | OFPACT_LEARN_LEARN learn ofpacts =>
      specs ← change_spec_values flow (ln_specs (ll_learn learn));
      ofpacts ← mapM (defer_action flow) ofpacts;
      Some (OFPACT_LEARN_LEARN (OfpactLearnLearn (ln_with_specs (ll_learn learn) specs) (ll_table_spec learn)) ofpacts)
  | OFPACT_LEARN_DELETE learn =>
      specs ← change_spec_values flow (ld_specs learn);
      Some (OFPACT_LEARN_DELETE
              (OfpactLearnDelete (ld_priority learn) (ld_cookie learn) (ld_flags learn) (ld_table_id learn)
                 (ld_table_spec learn) specs))
  | a => Some a
  end.

Definition do_deferral (flow : flowf) (ofpacts : list ofpact) : option (list ofpact) :=
  mapM (defer_action flow) ofpacts.

Definition learn_learn_execute (learn : ofpact_learn_learn) (ofpacts : list ofpact) (flow : flowf)
    (rule_table : Z) (c : table_counters) : option ofputil_flow_mod :=
  let ln := ll_learn learn in
  '(m, acts) ← learn_specs_execute (ln_specs ln) flow fmatch_init_catchall (learn_fin_timeout ln);
  ofpacts ← do_deferral flow ofpacts;
  Some (learn_flow_mod ln (learn_table (ll_table_spec learn) (ln_table_id ln) rule_table c) m (acts ++ ofpacts)).

(** ** Checking (learn_check, learn_delete_check, the specifications of learn_learn_check) *)

(** The outer option is an assertion failure, the inner one an error. *)
Fixpoint learn_check_specs (specs : list ofpact_learn_spec) (flow : flowf) (m : fmatch) : option (option ofperr) :=
  match specs with
  | [] => Some None
  | spec :: specs =>
      let src_error :=
        match ls_src_type spec with
        | NX_LEARN_SRC_FIELD =>
            match ls_src spec with Some src => mf_check_src src (Some flow) | None => Some OFPERR_OFPBAC_BAD_SET_TYPE end
        | NX_LEARN_SRC_IMMEDIATE => None
        end in
      match src_error with
      | Some e => Some (Some e)
      | None =>
          match ls_dst_type spec with
          | NX_LEARN_DST_MATCH =>
              match mf_check_src (ls_dst spec) (Some (fm_flow m)) with
              | Some e => Some (Some e)
              | None => m ← mf_write_subfield (ls_dst spec) (ls_src_imm spec) m; learn_check_specs specs flow m
              end
          | NX_LEARN_DST_LOAD =>
              match mf_check_dst (ls_dst spec) (Some (fm_flow m)) with
              | Some e => Some (Some e)
              | None => learn_check_specs specs flow m
              end
          | NX_LEARN_DST_OUTPUT | NX_LEARN_DST_RESERVED => learn_check_specs specs flow m
          end
      end
  end.

Definition learn_check (learn : ofpact_learn) (flow : flowf) : option (option ofperr) :=
  learn_check_specs (ln_specs learn) flow fmatch_init_catchall.

Definition learn_delete_check (learn : ofpact_learn_delete) (flow : flowf) : option (option ofperr) :=
  learn_check_specs (ld_specs learn) flow fmatch_init_catchall.

(** ** Actions of an expiring flow (ofproto/ofproto.c) *)

(** What executing them changes: the flow, masks and stack that are local to
    [timeout_act_execute], the counters, and the modifications made. *)
Record timeout_state := TimeoutState {
  ts_flow : flowf;
  ts_wc : flowf;
  ts_stack : list Z;
  ts_counters : table_counters;
  ts_flow_mods : list ofputil_flow_mod
}.

Definition ts_flow_mod (s : timeout_state) (fm : ofputil_flow_mod) : timeout_state :=
  TimeoutState (ts_flow s) (ts_wc s) (ts_stack s) (ts_counters s) (ts_flow_mods s ++ [fm]).

Definition timeout_act_step (rule_table : Z) (a : ofpact) (s : timeout_state) : option timeout_state :=
  match a with
  | OFPACT_LEARN learn =>
      if ln_learn_on_timeout learn then fm ← timeout_learn_execute learn; Some (ts_flow_mod s fm) else Some s
  | OFPACT_REG_LOAD dst v =>
      Some (TimeoutState (nxm_execute_reg_load dst v (ts_flow s)) (ts_wc s) (ts_stack s) (ts_counters s)
              (ts_flow_mods s))
  | OFPACT_LEARN_DELETE learn =>
      fm ← learn_delete_execute learn (ts_flow s) rule_table (ts_counters s); Some (ts_flow_mod s fm)
  | OFPACT_INCREMENT_TABLE_ID spec =>
      Some (TimeoutState (ts_flow s) (ts_wc s) (ts_stack s) (increment_table_id_execute spec (ts_counters s)).2
              (ts_flow_mods s))
  | OFPACT_LEARN_LEARN learn ofpacts =>
      fm ← learn_learn_execute learn ofpacts (ts_flow s) rule_table (ts_counters s); Some (ts_flow_mod s fm)
  | OFPACT_REG_MOVE src dst =>
      let '(flow, wc) := nxm_execute_reg_move dst src (ts_flow s) (ts_wc s) in
      Some (TimeoutState flow wc (ts_stack s) (ts_counters s) (ts_flow_mods s))
  | OFPACT_STACK_PUSH sf =>
      let '(wc, stack) := nxm_execute_stack_push sf (ts_flow s) (ts_wc s) (ts_stack s) in
      Some (TimeoutState (ts_flow s) wc stack (ts_counters s) (ts_flow_mods s))
  | OFPACT_STACK_POP sf =>
      let '(flow, wc, stack) := nxm_execute_stack_pop sf (ts_flow s) (ts_wc s) (ts_stack s) in
      Some (TimeoutState flow wc stack (ts_counters s) (ts_flow_mods s))
  | _ => Some s
  end.

Fixpoint timeout_act_loop (rule_table : Z) (ofpacts : list ofpact) (s : timeout_state) : option timeout_state :=
  match ofpacts with
  | [] => Some s
  | a :: ofpacts => s ← timeout_act_step rule_table a s; timeout_act_loop rule_table ofpacts s
  end.

Definition timeout_act_execute (ofpacts : list ofpact) (flow : flowf) (rule_table : Z) (c : table_counters)
  : option (table_counters * list ofputil_flow_mod) :=
  s ← timeout_act_loop rule_table ofpacts (TimeoutState flow flow [] c []);
  Some (ts_counters s, ts_flow_mods s).

(** The actions that [ofproto_rule_expire] takes for an expiring rule; [flow]
    is its uninitialised local variable.  The loop over the rule's actions
    ends after the first one. *)
Definition rule_expire_actions (ofpacts : list ofpact) (flow : flowf) (rule_table : Z) (c : table_counters)
  : option (table_counters * list ofputil_flow_mod) :=
  match ofpacts with
  | OFPACT_TIMEOUT_ACT acts :: _ => timeout_act_execute acts flow rule_table c
  | OFPACT_LEARN learn :: _ => fm ← timeout_learn_execute learn; Some (c, [fm])
  | _ => Some (c, [])
  end.

(** ** Properties: a learned match *)

(** Writing a subfield of a plain field replaces its bits in the value and
    sets them in the mask. *)
(** A part of a field that may be matched bit by bit, or the whole of one that
    may not. *)
Definition dst_ok (sf : mf_subfield) : bool :=
  mf_plain (sf_field sf) || mf_whole (sf_field sf) && bool_decide (sf_ofs sf = 0%nat ∧ sf_n_bits sf = mf_n_bits (sf_field sf)).

Lemma dst_ok_alone sf : dst_ok sf = true → mf_plain (sf_field sf) || mf_whole (sf_field sf) = true.
Proof. unfold dst_ok. destruct (mf_plain _); [done|]. by intros [-> _]%andb_true_iff. Qed.

Lemma whole_mask mf w : mf_whole mf = true → in_width (mf_width mf) w → is_all_ones (mf_bytes mf (bits_put w (-1) 0 (mf_n_bits mf))) = true.
Proof.
  intros Hm Hw. assert (bits_put w (-1) 0 (mf_n_bits mf) = 2 ^ mf_width mf - 1) as ->; [|by destruct mf].
  assert (mf_width mf = Z.of_nat (mf_n_bits mf)) as E by (by destruct mf). rewrite E in *. apply Z.bits_inj'. intros i Hi.
  replace i with (Z.of_nat (Z.to_nat i)) by lia. rewrite testbit_bits_put, testbit_ones by lia. case_decide as Hd.
  - rewrite Z.bits_m1 by lia. symmetry. apply Z.ltb_lt. lia.
  - rewrite (testbit_high (Z.of_nat (mf_n_bits mf))) by (done || lia). symmetry. apply Z.ltb_ge. lia.
Qed.

Lemma mf_write_subfield_plain sf x m :
  dst_ok sf = true → fmatch_ok m → in_width 128 x → (0 < sf_n_bits sf)%nat →
  (sf_ofs sf + sf_n_bits sf ≤ mf_n_bits (sf_field sf))%nat →
  let f := mf_flow_field (sf_field sf) in
  ∃ m', mf_write_subfield sf x m = Some m'
    ∧ fset f (bits_put (fm_flow m f) x (sf_ofs sf) (sf_n_bits sf))
        (bits_put (fm_wc m f) (-1) (sf_ofs sf) (sf_n_bits sf)) m m'.
Proof.
  intros Hp Hm Hx Hn Hr f. destruct (Hm f) as [Hw Hc]. pose proof (mf_n_bits_bytes (sf_field sf)) as Hb.
  pose proof (dst_ok_alone sf Hp) as Ha. pose proof (alone_width _ Ha) as Ew. unfold mf_write_subfield, mf_get, mf_get_mask.
  rewrite !(alone_get (sf_field sf)) by done.
  fold f. assert (Hfw : in_width (mf_width (sf_field sf)) (fm_flow m f)).
  { rewrite Ew, <- Hc, Z.land_comm. apply land_in_width; [apply Z.lt_le_incl, field_width_pos|done]. }
  assert (Hww : in_width (mf_width (sf_field sf)) (fm_wc m f)) by (by rewrite Ew).
  rewrite bitwise_copy_number by (apply mf_bytes_u8 || apply be_bytes_u8 || (rewrite length_mf_bytes; lia)).
  rewrite bitwise_one_number by (apply mf_bytes_u8 || (rewrite length_mf_bytes; lia)).
  rewrite !mf_bytes_value by done. rewrite (get_be_id 16 128), Z.shiftr_0_r by done.
  set (v := bits_put (fm_flow m f) _ _ _). set (k := bits_put (fm_wc m f) _ _ _).
  assert (Hk : in_width (mf_width (sf_field sf)) k) by (apply bits_put_width; [unfold mf_width; lia|done]).
  assert (Hv : in_width (mf_width (sf_field sf)) v) by (apply bits_put_width; [unfold mf_width; lia|done]).
  assert (Hvk : Z.land v k = v).
  { apply covers_bits. intros i Hi. replace i with (Z.of_nat (Z.to_nat i)) by lia. unfold v, k.
    rewrite !testbit_bits_put. case_decide; [intros _; apply Z.bits_m1; lia|].
    revert Hc. rewrite covers_bits. intros Hc. apply Hc. lia. }
  unfold mf_set. destruct (is_all_ones (mf_bytes (sf_field sf) k)) eqn:E1.
  { apply is_all_ones_bytes in E1; [|done]. destruct (mf_set_value_alone (sf_field sf) v m) as (m' & Em & Hs); [done..|].
    exists m'. split; [done|]. rewrite Ew in E1. fold f in Hs. unfold all_ones in Hs. by rewrite E1. }
  destruct (is_all_zeros (mf_bytes (sf_field sf) k)) eqn:E0.
  { apply is_all_zeros_bytes in E0; [|done]. exfalso. apply (f_equal (λ z, Z.testbit z (Z.of_nat (sf_ofs sf)))) in E0.
    unfold k in E0. rewrite testbit_bits_put, decide_True, Z.bits_0, Z.bits_m1 in E0 by lia. done. }
  assert (Hpl : mf_plain (sf_field sf) = true).
  { unfold dst_ok in Hp. destruct (mf_plain _); [done|]. apply andb_true_iff in Hp as [Hwh [H0 Hall]%bool_decide_eq_true]. exfalso.
    subst k. rewrite H0, Hall, whole_mask in E1 by done. done. }
  destruct (mf_set_masked_plain (sf_field sf) v k m Hpl) as (m' & Em & Hs). exists m'. split; [done|].
  fold f in Hs. by rewrite Hvk in Hs.
Qed.

(** Bits [ofs] to [ofs + n - 1] of [y] are the low bits of [v]. *)
Lemma bits_match y v ofs n :
  Z.land y (bits_put 0 (-1) ofs n) = bits_put 0 v ofs n ↔ bits_get y ofs n = bits_get v 0 n.
Proof.
  assert (Hb : ∀ a b, a = b ↔ ∀ i : nat, Z.testbit a (Z.of_nat i) = Z.testbit b (Z.of_nat i)).
  { intros a b. split; [by intros ->|]. intros H. apply Z.bits_inj'. intros i Hi. rewrite <- (Z2Nat.id i) by done. apply H. }
  rewrite !Hb. split; intros H i.
  - rewrite !testbit_bits_get. rewrite Nat.add_0_r. case_bool_decide; [|done]. simpl.
    specialize (H (i + ofs)%nat). rewrite Z.land_spec, !testbit_bits_put, !decide_True in H by lia.
    rewrite Z.bits_m1, andb_true_r in H by lia. rewrite H. f_equal. lia.
  - rewrite Z.land_spec, !testbit_bits_put. case_decide; [|by rewrite Z.bits_0, andb_false_r].
    rewrite Z.bits_m1, andb_true_r by lia. specialize (H (i - ofs)%nat). rewrite !testbit_bits_get in H.
    rewrite bool_decide_eq_true_2 in H by lia. simpl in H. rewrite Nat.add_0_r in H.
    by replace (i - ofs + ofs)%nat with i in H by lia.
Qed.

Definition spec_is_match (spec : ofpact_learn_spec) : bool :=
  match ls_dst_type spec with NX_LEARN_DST_MATCH => true | _ => false end.
Definition spec_member (spec : ofpact_learn_spec) : field := mf_flow_field (sf_field (ls_dst spec)).

(** The specification passed the checks, and its destination is a part of a
    field of its own, or the whole of one that cannot be masked. *)
Record spec_ok (spec : ofpact_learn_spec) : Prop := {
  spec_src : match ls_src_type spec with
             | NX_LEARN_SRC_FIELD =>
                 ∃ src, ls_src spec = Some src ∧ (sf_ofs src + sf_n_bits src ≤ mf_n_bits (sf_field src))%nat
             | NX_LEARN_SRC_IMMEDIATE => in_width 128 (ls_src_imm spec)
             end;
  spec_dst : spec_is_match spec = true →
             dst_ok (ls_dst spec) = true ∧ (0 < sf_n_bits (ls_dst spec))%nat
             ∧ (sf_ofs (ls_dst spec) + sf_n_bits (ls_dst spec) ≤ mf_n_bits (sf_field (ls_dst spec)))%nat
}.

Lemma learn_value_ok spec flow : spec_ok spec → flow_ok flow → ∃ v, learn_value spec flow = Some v ∧ in_width 128 v.
Proof.
  intros [Hs _] Hf. unfold learn_value. destruct (ls_src_type spec); [|eauto].
  destruct Hs as (src & -> & Hr). eexists. split; [reflexivity|].
  assert (mf_n_bits (sf_field src) ≤ 128)%nat by (destruct (sf_field src); cbn; lia).
  rewrite mf_read_subfield_value by (done || lia). apply bits_get_width. lia.
Qed.

(** The value that packets must have in the bits the specification names. *)
Definition spec_holds (flow fl : flowf) (spec : ofpact_learn_spec) : Prop :=
  ∃ v, learn_value spec flow = Some v
       ∧ bits_get (fl (spec_member spec)) (sf_ofs (ls_dst spec)) (sf_n_bits (ls_dst spec))
         = bits_get v 0 (sf_n_bits (ls_dst spec)).

(** The match composed from the specifications [pre]. *)
Record learned (flow : flowf) (pre : list ofpact_learn_spec) (m : fmatch) : Prop := {
  lnd_ok : fmatch_ok m;
  lnd_other : ∀ f, f ∉ spec_member <$> filter spec_is_match pre → fm_wc m f = 0 ∧ fm_flow m f = 0;
  lnd_spec : ∀ spec, spec ∈ filter spec_is_match pre →
    ∃ v, learn_value spec flow = Some v
         ∧ fm_wc m (spec_member spec) = bits_put 0 (-1) (sf_ofs (ls_dst spec)) (sf_n_bits (ls_dst spec))
         ∧ fm_flow m (spec_member spec) = bits_put 0 v (sf_ofs (ls_dst spec)) (sf_n_bits (ls_dst spec))
}.

Lemma learned_matches flow pre m fl :
  learned flow pre m →
  (∀ f, field_matches m f (fl f)) ↔ ∀ spec, spec ∈ filter spec_is_match pre → spec_holds flow fl spec.
Proof.
  intros [Hok Ho Hs]. unfold field_matches. split.
  - intros H spec Hin. destruct (Hs spec Hin) as (v & Ev & Ew & Ef). exists v. split; [done|].
    specialize (H (spec_member spec)). rewrite Ew, Ef in H. by apply bits_match.
  - intros H f. destruct (decide (f ∈ spec_member <$> filter spec_is_match pre)) as [Hf|Hf].
    + apply list_elem_of_fmap in Hf as (spec & -> & Hin). destruct (Hs spec Hin) as (v & Ev & Ew & Ef).
      destruct (H spec Hin) as (v' & Ev' & Hb). rewrite Ew, Ef. apply bits_match. congruence.
    + destruct (Ho f Hf) as [-> ->]. apply Z.land_0_r.
Qed.

Lemma bits_put_covers v ofs n : Z.land (bits_put 0 v ofs n) (bits_put 0 (-1) ofs n) = bits_put 0 v ofs n.
Proof.
  apply covers_bits. intros i Hi. replace i with (Z.of_nat (Z.to_nat i)) by lia. rewrite !testbit_bits_put.
  case_decide; [|done]. intros _. apply Z.bits_m1. lia.
Qed.

Lemma learned_step flow pre spec v m acts :
  learned flow pre m → spec_ok spec → learn_value spec flow = Some v → in_width 128 v →
  (spec_is_match spec = true → spec_member spec ∉ spec_member <$> filter spec_is_match pre) →
  ∃ m' acts', learn_spec_execute spec v m acts = Some (m', acts ++ acts') ∧ learned flow (pre ++ [spec]) m'.
Proof.
  intros Hl Hok Hv Hw Hn. destruct (spec_is_match spec) eqn:E.
  - destruct (spec_dst _ Hok E) as (Hp & Hpos & Hr). destruct Hl as [Hmk Ho Hs].
    destruct (Ho (spec_member spec) (Hn eq_refl)) as [Ew0 Ef0].
    destruct (mf_write_subfield_plain (ls_dst spec) v m) as (m' & Em & Sf & Sw); [done..|].
    fold (spec_member spec) in Sf, Sw. rewrite Ef0 in Sf. rewrite Ew0 in Sw.
    unfold learn_spec_execute. unfold spec_is_match in E. destruct (ls_dst_type spec) eqn:Ed; try done.
    rewrite Em. exists m', []. rewrite app_nil_r. split; [done|]. clear E.
    assert (Hf : filter spec_is_match (pre ++ [spec]) = filter spec_is_match pre ++ [spec]).
    { rewrite filter_app. f_equal. rewrite filter_cons_True; [done|]. unfold spec_is_match. by rewrite Ed. }
    split.
    + intros f. rewrite Sw, Sf. case_decide; [|apply Hmk]. split; [|apply bits_put_covers].
      apply bits_put_width; [|split; [done|apply Z.pow_pos_nonneg; [done|apply Z.lt_le_incl, field_width_pos]]].
      subst f. unfold spec_member. rewrite <- alone_width by (by apply dst_ok_alone). pose proof (mf_n_bits_bytes (sf_field (ls_dst spec))).
      unfold mf_width. lia.
    + intros f. rewrite Hf, fmap_app, not_elem_of_app, Sw, Sf. intros [H1 H2]. rewrite !decide_False by set_solver.
      by apply Ho.
    + intros s. rewrite Hf. intros [Hin| ->%list_elem_of_singleton]%elem_of_app.
      * destruct (Hs s Hin) as (v' & ? & ? & ?). exists v'. rewrite Sw, Sf, !decide_False; [done|..];
          intros Ee; apply (Hn eq_refl); rewrite <- Ee; by apply list_elem_of_fmap_2.
      * exists v. by rewrite Sw, Sf, !decide_True.
  - destruct Hl as [Hmk Ho Hs].
    assert (Hf : filter spec_is_match (pre ++ [spec]) = filter spec_is_match pre).
    { rewrite filter_app, filter_cons_False, filter_nil, app_nil_r; [done|]. rewrite E. by intros []. }
    unfold learn_spec_execute. unfold spec_is_match in E.
    destruct (ls_dst_type spec) eqn:Ed; try done; (eexists m, _; split; [reflexivity|]); split; rewrite ?Hf; done.
Qed.

Lemma learn_specs_learned flow specs pre m acts :
  flow_ok flow → learned flow pre m → Forall spec_ok specs →
  NoDup (spec_member <$> filter spec_is_match (pre ++ specs)) →
  ∃ m' acts', learn_specs_execute specs flow m acts = Some (m', acts ++ acts') ∧ learned flow (pre ++ specs) m'.
Proof.
  intros Hf. revert pre m acts. induction specs as [|spec specs IH]; intros pre m acts Hl Hok Hnd.
  - exists m, []. by rewrite !app_nil_r.
  - apply Forall_cons in Hok as [Hs Hok]. destruct (learn_value_ok spec flow Hs Hf) as (v & Ev & Hv).
    destruct (learned_step flow pre spec v m acts) as (m1 & a1 & E1 & L1); [done..| |].
    { intros Em. rewrite filter_app, filter_cons_True, fmap_app in Hnd by (by rewrite Em).
      apply NoDup_app in Hnd as (_ & Hnd & _). intros Hin. apply (Hnd _ Hin). apply list_elem_of_here. }
    destruct (IH (pre ++ [spec]) m1 (acts ++ a1)) as (m' & a2 & E2 & L2); [done|done|by rewrite <- app_assoc|].
    exists m', (a1 ++ a2). rewrite <- app_assoc in L2. split; [|done]. cbn [learn_specs_execute].
    rewrite Ev. simpl. rewrite E1. simpl. rewrite E2. by rewrite app_assoc.
Qed.

(** C35: The flow learned from a packet matches exactly the packets that have,
    in every field a match specification names, the bits the specification
    takes from the packet or gives as a constant; it has the table and the
    priority of the action.  This holds for an action that does not wait for a
    timeout, whose sources are within their fields and whose match
    destinations are in distinct members of the flow, each a nonempty part of
    a field that fills a member and may be masked bit by bit ([mf_plain]), or
    the whole input port, Ethernet type, IP protocol or TTL ([mf_whole]).  The
    fields that share a member with others (the parts of a VLAN tag, a TOS
    byte or an MPLS label, the ARP operation, ICMP types and codes, fragment
    bits) are left out. *)
Theorem learn_execute_match learn flow :
  flow_ok flow → ln_learn_on_timeout learn = false → Forall spec_ok (ln_specs learn) →
  NoDup (spec_member <$> filter spec_is_match (ln_specs learn)) →
  ∃ fm, learn_execute learn flow = Some (Some fm)
    ∧ fm_table_id fm = ln_table_id learn ∧ fm_priority fm = ln_priority learn
    ∧ fm_command fm = OFPFC_MODIFY_STRICT
    ∧ ∀ fl, (∀ f, field_matches (fm_match fm) f (fl f))
            ↔ ∀ spec, spec ∈ ln_specs learn → spec_is_match spec = true → spec_holds flow fl spec.
Proof.
  intros Hf Ht Hok Hnd. assert (H0 : learned flow [] fmatch_init_catchall).
  { split; [intros f; split; [|done]|done|intros s []%not_elem_of_nil].
    split; [done|apply Z.pow_pos_nonneg; [done|apply Z.lt_le_incl, field_width_pos]]. }
  destruct (learn_specs_learned flow (ln_specs learn) [] fmatch_init_catchall (learn_fin_timeout learn))
    as (m & acts & E & L); [done..|].
  unfold learn_execute. rewrite Ht, E. eexists. split; [reflexivity|]. split_and!; [done..|].
  intros fl. rewrite (learned_matches flow (ln_specs learn) m fl L). split.
  - intros H spec Hin Hm. apply H, list_elem_of_filter. by rewrite Hm.
  - intros H spec [Hm Hin]%list_elem_of_filter. apply H; [done|]. by destruct (spec_is_match spec).
Qed.

(** Learning the way back: match on the packet's source as destination. *)
Definition ex_learn : ofpact_learn :=
  OfpactLearn 0 0 10 0 0 5 0 0 false
    [LearnSpec 48 NX_LEARN_SRC_FIELD (Some (MfSubfield MFF_ETH_SRC 0 48)) 0 NX_LEARN_DST_MATCH
       (MfSubfield MFF_ETH_DST 0 48) 0xff;
     LearnSpec 12 NX_LEARN_SRC_FIELD (Some (MfSubfield MFF_VLAN_TCI 0 12)) 0 NX_LEARN_DST_MATCH
       (MfSubfield MFF_VLAN_TCI 0 12) 0xff;
     LearnSpec 16 NX_LEARN_SRC_IMMEDIATE None ETH_TYPE_IP NX_LEARN_DST_MATCH (MfSubfield MFF_ETH_TYPE 0 16) 0xff;
     LearnSpec 16 NX_LEARN_SRC_FIELD (Some (MfSubfield MFF_IN_PORT 0 16)) 0 NX_LEARN_DST_OUTPUT
       (MfSubfield MFF_IN_PORT 0 16) 0xff].

Lemma learn_execute_match_witness :
  let flow := upd F_in_port 7 (upd F_dl_src 0xabcdef (upd F_vlan_tci 0x5064 (λ _, 0))) in
  ∃ fm, learn_execute ex_learn flow = Some (Some fm)
    ∧ fm_ofpacts fm = [OFPACT_OUTPUT 7 0]
    ∧ ∀ fl, (∀ f, field_matches (fm_match fm) f (fl f)) →
        bits_get (fl F_dl_dst) 0 48 = 0xabcdef ∧ bits_get (fl F_vlan_tci) 0 12 = 0x064 ∧ bits_get (fl F_dl_type) 0 16 = ETH_TYPE_IP.
Proof.
  intros flow. destruct (learn_execute_match ex_learn flow) as (fm & E & _ & _ & _ & H).
  - repeat (apply upd_flow_ok; [|done]). intros f. split; [done|].
    apply Z.pow_pos_nonneg; [done|apply Z.lt_le_incl, field_width_pos].
  - done.
  - repeat constructor; cbn; try (eexists; split; [reflexivity|]); cbn; lia || done.
  - cbn. repeat constructor; set_solver.
  - exists fm. split; [exact E|]. split; [vm_compute in E; by injection E as <-|]. intros fl Hm. rewrite H in Hm.
    destruct (Hm _ (list_elem_of_here _ _) eq_refl) as (v1 & E1 & B1).
    destruct (Hm _ (list_elem_of_further _ _ _ (list_elem_of_here _ _)) eq_refl) as (v2 & E2 & B2).
    destruct (Hm _ (list_elem_of_further _ _ _ (list_elem_of_further _ _ _ (list_elem_of_here _ _))) eq_refl) as (v3 & E3 & B3).
    cbn [spec_member ls_dst sf_field sf_ofs sf_n_bits mf_flow_field] in B1, B2, B3.
    vm_compute in E1, E2, E3. injection E1 as <-. injection E2 as <-. injection E3 as <-.
    split; [etrans; [exact B1|done]|split; [etrans; [exact B2|done]|etrans; [exact B3|done]]].
Defined.

(** ** Properties: deferred values *)

(** The specification after the flows of successive packets were
    substituted. *)
Definition defer_spec (flows : list flowf) (spec : ofpact_learn_spec) : option ofpact_learn_spec :=
  foldl (λ s flow, s ≫= change_spec_value flow) (Some spec) flows.

Lemma defer_spec_never flows spec : ls_defer_count spec = 0xff → defer_spec flows spec = Some spec.
Proof.
  intros H. unfold defer_spec. induction flows as [|f flows IH]; [done|]. simpl. unfold change_spec_value.
  rewrite (proj2 (Z.eqb_eq _ _)) by done. exact IH.
Qed.

(** A nested specification with [defer_count] [k] is left to later packets
    [k] times; the next packet's value of its source field then becomes its
    immediate value, and no later packet changes it. *)
Theorem deferral_correct spec src pre flow post :
  ls_src spec = Some src → 0 ≤ ls_defer_count spec < 0xff →
  Z.of_nat (length pre) = ls_defer_count spec →
  ∃ spec', defer_spec (pre ++ flow :: post) spec = Some spec'
    ∧ ls_src_type spec' = NX_LEARN_SRC_IMMEDIATE
    ∧ ls_src_imm spec' = mf_get_value (sf_field src) flow
    ∧ ls_n_bits spec' = sf_n_bits src
    ∧ ls_dst_type spec' = ls_dst_type spec ∧ ls_dst spec' = ls_dst spec.
Proof.
  revert spec. induction pre as [|f pre IH]; intros spec Hs Hr Hl.
  - unfold defer_spec. cbn [app foldl]. simpl. unfold change_spec_value.
    rewrite (proj2 (Z.eqb_neq _ _)) by lia. rewrite (proj2 (Z.leb_gt _ _)) by (simpl in Hl; lia). rewrite Hs. simpl.
    eexists. split; [by apply (defer_spec_never post)|done].
  - simpl length in Hl. unfold defer_spec. cbn [app foldl]. simpl. unfold change_spec_value at 2.
    rewrite (proj2 (Z.eqb_neq _ _)) by lia. rewrite (proj2 (Z.leb_le _ _)) by lia.
    match goal with |- context [foldl _ (Some ?s) _] => destruct (IH s) as (spec' & E & H) end;
      [done|simpl; lia|simpl; lia|]. exists spec'. split; [exact E|exact H].
Qed.

Lemma deferral_correct_witness :
  let spec := LearnSpec 8 NX_LEARN_SRC_FIELD (Some (MfSubfield (MFF_REG 0) 0 8)) 0 NX_LEARN_DST_MATCH
                (MfSubfield (MFF_REG 1) 0 8) 1 in
  let flow n : flowf := upd (F_reg 0) n (λ _, 0) in
  ∃ spec', defer_spec [flow 1; flow 2; flow 3] spec = Some spec' ∧ ls_src_imm spec' = 2.
Proof.
  intros spec flow. destruct (deferral_correct spec (MfSubfield (MFF_REG 0) 0 8) [flow 1] (flow 2) [flow 3])
    as (spec' & E & _ & Hi & _); [done|simpl; lia|done|]. exists spec'. split; [exact E|]. rewrite Hi. reflexivity.
Defined.

(** ** Deviations *)

(** A deferred source that does not start at bit 0 of its field is replaced
    by the low bits of the field. *)
Lemma change_spec_ignores_offset :
  let src := MfSubfield (MFF_REG 0) 8 8 in
  let spec := LearnSpec 8 NX_LEARN_SRC_FIELD (Some src) 0 NX_LEARN_DST_MATCH (MfSubfield (MFF_REG 1) 0 8) 0 in
  let flow : flowf := upd (F_reg 0) 0x1234 (λ _, 0) in
  mf_read_subfield src flow = 0x12
  ∧ ∃ spec', change_spec_value flow spec = Some spec' ∧ bits_get (ls_src_imm spec') 0 8 = 0x34.
Proof. split; [vm_compute; done|]. eexists. split; [reflexivity|]. vm_compute. done. Qed.

(** The masks of a [learn_learn] action leave out the sources that are
    substituted into the actions nested in it: flows they do not tell apart
    learn different actions. *)
Lemma learn_learn_mask_misses_deferred :
  let nested := OFPACT_LEARN_DELETE (OfpactLearnDelete 1 0 0 3 0
    [LearnSpec 32 NX_LEARN_SRC_FIELD (Some (MfSubfield MFF_IPV4_SRC 0 32)) 0 NX_LEARN_DST_MATCH
       (MfSubfield MFF_IPV4_DST 0 32) 0]) in
  let learn := OfpactLearnLearn (OfpactLearn 0 0 10 0 0 5 0 0 false []) 0 in
  let flow n : flowf := upd F_nw_src n (upd F_dl_type ETH_TYPE_IP (λ _, 0)) in
  learn_mask (ln_specs (ll_learn learn)) (λ _, 0) = Some (λ _, 0)
  ∧ option_map fm_ofpacts (learn_learn_execute learn [nested] (flow 1) 0 init_counters)
    ≠ option_map fm_ofpacts (learn_learn_execute learn [nested] (flow 2) 0 init_counters).
Proof. split; [done|]. vm_compute. discriminate. Qed.

(** An immediate source with [defer_count] 0 in a nested action is read
    through a null pointer. *)
Lemma deferred_immediate_aborts flow imm n dst_type dst :
  change_spec_value flow (LearnSpec n NX_LEARN_SRC_IMMEDIATE None imm dst_type dst 0) = None.
Proof. done. Qed.

(** A [timeout_act] action takes effect only if it is the first action. *)
Lemma timeout_act_not_first port acts rest flow t c :
  rule_expire_actions (OFPACT_OUTPUT port 0 :: OFPACT_TIMEOUT_ACT acts :: rest) flow t c = Some (c, []).
Proof. done. Qed.

(** A rule whose first action is [learn] learns again when it expires, also
    when the action is not marked for timeouts. *)
Lemma expire_learns_again learn rest flow t c fm :
  ln_learn_on_timeout learn = false → timeout_learn_execute learn = Some fm →
  rule_expire_actions (OFPACT_LEARN learn :: rest) flow t c = Some (c, [fm]).
Proof. intros _ H. simpl. by rewrite H. Qed.
