(* ===== verification/Tunnel.v ===== *)
(** * Tunnel ports (ofproto/tunnel.c)

    The table of tunnel ports: which port receives a packet that arrived
    through a tunnel, and which outer header a packet sent to a tunnel port
    gets.  The source keeps every port in two hash maps, by [ofport] and by
    match; no function iterates over them, and a lookup in either compares
    keys, so the table is the list of the ports.  A network device is
    represented by an identifier and its tunnel configuration, which is fixed
    while the port is in the table (the configuration is re-read only when
    the device's change sequence number moves, which reconfigures the port).
    Locks and log messages are not modelled. *)
From S2P Require Import Prelude MatchFields MetaFlow OdpActions NxActions.

Definition IPSEC_MARK : Z := 1.
Definition IP_ECN_NOT_ECT : Z := 0.
Definition IP_ECN_ECT_0 : Z := 2.
Definition IP_ECN_CE : Z := 3.
Definition FLOW_TNL_F_DONT_FRAGMENT : Z := 1.
Definition FLOW_TNL_F_CSUM : Z := 2.
Definition ODPP_NONE : Z := 0xffffffff.

Record netdev_tunnel_config := TunnelConfig {
  in_key_flow : bool; in_key : Z;
  out_key_present : bool; out_key_flow : bool; out_key : Z;
  ip_src_flow : bool; ip_dst_flow : bool; ip_src : Z; ip_dst : Z;
  cfg_ttl : Z; ttl_inherit : bool;
  cfg_tos : Z; tos_inherit : bool;
  cfg_csum : bool; cfg_ipsec : bool; dont_fragment : bool
}.

Record tnl_match := TnlMatch {
  tm_in_key : Z;
  tm_ip_src : Z;
  tm_ip_dst : Z;
  tm_odp_port : Z;
  tm_pkt_mark : Z;
  tm_in_key_flow : bool;
  tm_ip_src_flow : bool;
  tm_ip_dst_flow : bool
}.

#[global] Instance tnl_match_eq_dec : EqDecision tnl_match.
Proof. solve_decision. Defined.

(** [tp_netdev] is the device's identity and change sequence number. *)
Record tnl_port := TnlPort {
  tp_ofport : Z;
  tp_netdev : Z;
  tp_netdev_seq : Z;
  tp_cfg : netdev_tunnel_config;
  tp_match : tnl_match
}.

Definition tnl_ports := list tnl_port.

Definition tnl_find_ofport (s : tnl_ports) (ofport : Z) : option tnl_port :=
  find (λ p, tp_ofport p =? ofport) s.

Definition tnl_find_exact (s : tnl_ports) (m : tnl_match) : option tnl_port :=
  find (λ p, bool_decide (tp_match p = m)) s.

Definition cfg_match (cfg : netdev_tunnel_config) (odp_port : Z) : tnl_match :=
  TnlMatch (in_key cfg) (ip_src cfg) (ip_dst cfg) odp_port (if cfg_ipsec cfg then IPSEC_MARK else 0)
    (in_key_flow cfg) (ip_src_flow cfg) (ip_dst_flow cfg).

Definition tnl_port_add__ (s : tnl_ports) (ofport netdev seq : Z) (cfg : netdev_tunnel_config) (odp_port : Z)
  : bool * tnl_ports :=
  let m := cfg_match cfg odp_port in
  match tnl_find_exact s m with
  | Some _ => (false, s)
  | None => (true, TnlPort ofport netdev seq cfg m :: s)
  end.

Definition tnl_port_add (s : tnl_ports) (ofport netdev seq : Z) (cfg : netdev_tunnel_config) (odp_port : Z)
  : tnl_ports := (tnl_port_add__ s ofport netdev seq cfg odp_port).2.

(** Removes the port that [tnl_find_ofport] finds. *)
Fixpoint tnl_port_del (s : tnl_ports) (ofport : Z) : tnl_ports :=
  match s with
  | [] => []
  | p :: s => if tp_ofport p =? ofport then s else p :: tnl_port_del s ofport
  end.

Definition tnl_port_reconfigure (s : tnl_ports) (ofport netdev seq : Z) (cfg : netdev_tunnel_config) (odp_port : Z)
  : bool * tnl_ports :=
  match tnl_find_ofport s ofport with
  | None => tnl_port_add__ s ofport netdev seq cfg odp_port
  | Some p =>
      if negb (tp_netdev p =? netdev) || negb (tm_odp_port (tp_match p) =? odp_port) || negb (tp_netdev_seq p =? seq)
      then (true, (tnl_port_add__ (tnl_port_del s ofport) ofport netdev seq cfg odp_port).2)
      else (false, s)
  end.

(** ** Receiving *)

Definition tnl_port_should_receive (flow : flowf) : bool := negb (flow F_tun_dst =? 0).

(** The matches that [tnl_find] tries, in order. *)
Definition tnl_find_keys (m : tnl_match) : list tnl_match :=
  let k in_key src dst in_key_flow src_flow dst_flow :=
    TnlMatch in_key src dst (tm_odp_port m) (tm_pkt_mark m) in_key_flow src_flow dst_flow in
  [k (tm_in_key m) (tm_ip_src m) (tm_ip_dst m) (tm_in_key_flow m) (tm_ip_src_flow m) (tm_ip_dst_flow m);
   k (tm_in_key m) 0 (tm_ip_dst m) (tm_in_key_flow m) (tm_ip_src_flow m) (tm_ip_dst_flow m);
   k 0 (tm_ip_src m) (tm_ip_dst m) true (tm_ip_src_flow m) (tm_ip_dst_flow m);
   k 0 0 (tm_ip_dst m) true (tm_ip_src_flow m) (tm_ip_dst_flow m);
   k 0 0 0 true (tm_ip_src_flow m) true;
   k 0 0 0 true true true].

Fixpoint tnl_find_first (s : tnl_ports) (keys : list tnl_match) : option tnl_port :=
  match keys with
  | [] => None
  | k :: keys => match tnl_find_exact s k with Some p => Some p | None => tnl_find_first s keys end
  end.

Definition tnl_find (s : tnl_ports) (m : tnl_match) : option tnl_port := tnl_find_first s (tnl_find_keys m).

(** [odp_port] is the datapath port in [flow->in_port]. *)
Definition tnl_port_receive (s : tnl_ports) (flow : flowf) (odp_port : Z) : option Z :=
  tp_ofport <$> tnl_find s (TnlMatch (flow F_tun_id) (flow F_tun_dst) (flow F_tun_src) odp_port (flow F_pkt_mark)
                              false false false).

(** Whether to go on, and the flow. *)
Definition tnl_ecn_ok (base_flow flow : flowf) : bool * flowf :=
  if is_ip_any base_flow && (Z.land (flow F_tun_tos) IP_ECN_MASK =? IP_ECN_CE) then
    if Z.land (base_flow F_nw_tos) IP_ECN_MASK =? IP_ECN_NOT_ECT then (false, flow)
    else (true, upd F_nw_tos (Z.lor (flow F_nw_tos) IP_ECN_CE) flow)
  else (true, flow).

Definition tnl_xlate_init (base_flow flow wc : flowf) : bool * flowf * flowf :=
  if tnl_port_should_receive flow then
    let wc := unwildcard (tunnel_fields ++ [F_pkt_mark]) wc in
    let '(ok, flow) := tnl_ecn_ok base_flow flow in
    if ok then (true, upd F_pkt_mark (Z.ldiff (flow F_pkt_mark) IPSEC_MARK) flow, wc) else (false, flow, wc)
  else (true, flow, wc).

(** ** Sending *)

Definition tnl_port_send (s : tnl_ports) (ofport : Z) (flow wc : flowf) : Z * flowf * flowf :=
  match tnl_find_ofport s ofport with
  | None => (ODPP_NONE, flow, wc)
  | Some p =>
      let cfg := tp_cfg p in
      let flow := if ip_src_flow cfg then flow else upd F_tun_src (tm_ip_src (tp_match p)) flow in
      let flow := if ip_dst_flow cfg then flow else upd F_tun_dst (tm_ip_dst (tp_match p)) flow in
      let flow := upd F_pkt_mark (tm_pkt_mark (tp_match p)) flow in
      let flow := if out_key_flow cfg then flow else upd F_tun_id (out_key cfg) flow in
      let '(flow, wc) :=
        if ttl_inherit cfg && is_ip_any flow then (upd F_tun_ttl (flow F_nw_ttl) flow, upd F_nw_ttl 0xff wc)
        else (upd F_tun_ttl (cfg_ttl cfg) flow, wc) in
      let '(flow, wc) :=
        if tos_inherit cfg && is_ip_any flow then
          (upd F_tun_tos (Z.land (flow F_nw_tos) IP_DSCP_MASK) flow, upd F_nw_tos 0xff wc)
        else (upd F_tun_tos (cfg_tos cfg) flow, wc) in
      let wc := if is_ip_any flow then wc_or F_nw_tos IP_ECN_MASK wc else wc in
      let ecn := Z.land (flow F_nw_tos) IP_ECN_MASK in
      let flow := upd F_tun_tos (Z.lor (flow F_tun_tos) (if ecn =? IP_ECN_CE then IP_ECN_ECT_0 else ecn)) flow in
      let flags := Z.lor (Z.lor (if dont_fragment cfg then FLOW_TNL_F_DONT_FRAGMENT else 0)
                            (if cfg_csum cfg then FLOW_TNL_F_CSUM else 0))
                     (if out_key_present cfg then FLOW_TNL_F_KEY else 0) in
      (tm_odp_port (tp_match p), upd F_tun_flags flags flow, wc)
  end.

(** ** Properties *)

(** The two hash maps never hold two ports with the same match. *)
Definition tnl_wf (s : tnl_ports) : Prop := NoDup (tp_match <$> s).

Lemma tnl_find_exact_Some s m p : tnl_find_exact s m = Some p → p ∈ s ∧ tp_match p = m.
Proof.
  unfold tnl_find_exact. intros [Hin Hb]%find_some. apply bool_decide_eq_true in Hb. by rewrite list_elem_of_In.
Qed.

Lemma tnl_find_exact_None s m p : tnl_find_exact s m = None → p ∈ s → tp_match p ≠ m.
Proof.
  unfold tnl_find_exact. intros H Hin Hm. apply list_elem_of_In in Hin. apply (find_none _ _ H) in Hin.
  by rewrite bool_decide_eq_true_2 in Hin.
Qed.

Lemma tnl_port_add_wf s ofport netdev seq cfg odp :
  tnl_wf s → tnl_wf (tnl_port_add__ s ofport netdev seq cfg odp).2.
Proof.
  unfold tnl_wf, tnl_port_add__. intros Hs. destruct (tnl_find_exact _ _) as [p|] eqn:E; [done|]. simpl.
  apply NoDup_cons. split; [|done]. intros (p & Hm & Hin)%list_elem_of_fmap.
  by apply (tnl_find_exact_None _ _ _ E Hin).
Qed.

Lemma tnl_port_del_sublist s ofport : tnl_port_del s ofport `sublist_of` s.
Proof.
  induction s as [|p s IH]; simpl; [done|]. destruct (_ =? _); [by apply sublist_cons|by apply sublist_skip].
Qed.

Lemma tnl_port_del_wf s ofport : tnl_wf s → tnl_wf (tnl_port_del s ofport).
Proof. unfold tnl_wf. intros Hs. eapply sublist_NoDup; [exact Hs|]. apply fmap_sublist, tnl_port_del_sublist. Qed.

Lemma tnl_reconfigure_wf s ofport netdev seq cfg odp :
  tnl_wf s → tnl_wf (tnl_port_reconfigure s ofport netdev seq cfg odp).2.
Proof.
  intros Hs. unfold tnl_port_reconfigure. destruct (tnl_find_ofport _ _); [|by apply tnl_port_add_wf].
  destruct (_ || _); [|done]. by apply tnl_port_add_wf, tnl_port_del_wf.
Qed.

Lemma tnl_find_first_spec s keys :
  match tnl_find_first s keys with
  | Some p => p ∈ s ∧ ∃ i, keys !! i = Some (tp_match p) ∧ ∀ q j, q ∈ s → keys !! j = Some (tp_match q) → (i ≤ j)%nat
  | None => ∀ q, q ∈ s → tp_match q ∉ keys
  end.
Proof.
  induction keys as [|k keys IH]; simpl; [set_solver|]. destruct (tnl_find_exact s k) as [p|] eqn:E.
  - apply tnl_find_exact_Some in E as [Hin <-]. split; [done|]. exists 0%nat. split; [done|lia].
  - destruct (tnl_find_first s keys) as [p|].
    + destruct IH as (Hin & i & Hi & Hmin). split; [done|]. exists (S i). split; [done|]. intros q [|j] Hq Hj.
      * simpl in Hj. injection Hj as Hk. by destruct (tnl_find_exact_None _ _ _ E Hq).
      * simpl in Hj. apply le_n_S. by eapply Hmin.
    + intros q Hq [Hk|Hk]%elem_of_cons; [by eapply tnl_find_exact_None|by eapply IH].
Qed.

(** The packet's outer header satisfies the port's configuration. *)
Definition accepts (m : tnl_match) (flow : flowf) (odp_port : Z) : Prop :=
  tm_odp_port m = odp_port ∧ tm_pkt_mark m = flow F_pkt_mark
  ∧ (tm_in_key_flow m = true ∨ tm_in_key m = flow F_tun_id)
  ∧ (tm_ip_dst_flow m = true ∨ tm_ip_dst m = flow F_tun_src)
  ∧ (tm_ip_src_flow m = true ∨ tm_ip_src m = 0 ∨ tm_ip_src m = flow F_tun_dst).

(** The match of the packet itself. *)
Definition flow_match (flow : flowf) (odp_port : Z) : tnl_match :=
  TnlMatch (flow F_tun_id) (flow F_tun_dst) (flow F_tun_src) odp_port (flow F_pkt_mark) false false false.

Lemma tnl_find_keys_accept flow odp_port k : k ∈ tnl_find_keys (flow_match flow odp_port) → accepts k flow odp_port.
Proof.
  unfold tnl_find_keys, accepts. intros Hk.
  repeat (apply elem_of_cons in Hk as [->|Hk]; [simpl; tauto|]). by apply not_elem_of_nil in Hk.
Qed.

(** What [tnl_port_send] sets in the outer header. *)
Lemma tnl_port_send_header s ofport p flow wc :
  tnl_find_ofport s ofport = Some p →
  let '(odp, out, _) := tnl_port_send s ofport flow wc in
  odp = tm_odp_port (tp_match p)
  ∧ out F_tun_src = (if ip_src_flow (tp_cfg p) then flow F_tun_src else tm_ip_src (tp_match p))
  ∧ out F_tun_dst = (if ip_dst_flow (tp_cfg p) then flow F_tun_dst else tm_ip_dst (tp_match p))
  ∧ out F_tun_id = (if out_key_flow (tp_cfg p) then flow F_tun_id else out_key (tp_cfg p)).
Proof.
  intros E. unfold tnl_port_send. rewrite E. cbn zeta.
  match goal with |- context [ttl_inherit _ && is_ip_any ?f] => set (f0 := f) end.
  assert (H0 : f0 F_tun_src = (if ip_src_flow (tp_cfg p) then flow F_tun_src else tm_ip_src (tp_match p))
    ∧ f0 F_tun_dst = (if ip_dst_flow (tp_cfg p) then flow F_tun_dst else tm_ip_dst (tp_match p))
    ∧ f0 F_tun_id = (if out_key_flow (tp_cfg p) then flow F_tun_id else out_key (tp_cfg p))).
  { unfold f0. destruct (ip_src_flow (tp_cfg p)), (ip_dst_flow (tp_cfg p)), (out_key_flow (tp_cfg p)); split_and!; by eval_upd. }
  destruct H0 as (<- & <- & <-). clearbody f0.
  destruct (ttl_inherit _ && _), (tos_inherit _ && _); split_and!; try done; by eval_upd.
Qed.

Lemma tnl_find_unique s m q : tnl_wf s → q ∈ s → tp_match q = m → tnl_find_exact s m = Some q.
Proof.
  intros Hw Hq Hm. destruct (tnl_find_exact s m) as [p|] eqn:E.
  - apply tnl_find_exact_Some in E as [Hp E]. f_equal. unfold tnl_wf in Hw.
    apply list_elem_of_lookup in Hp as [i Hi]. apply list_elem_of_lookup in Hq as [j Hj].
    assert (i = j) as ->.
    { eapply (NoDup_lookup (tp_match <$> s)); [done|rewrite list_lookup_fmap, Hi; done|].
      rewrite list_lookup_fmap, Hj. simpl. congruence. }
    congruence.
  - by destruct (tnl_find_exact_None _ _ _ E Hq).
Qed.

(** How specific a port's configuration is, from 0 for a remote and a local
    address and a key on; the members that come from the flow are zero.  The
    remaining combinations are not supported. *)
Definition specificity (m : tnl_match) : option nat :=
  let key0 := tm_in_key m =? 0 in let src0 := tm_ip_src m =? 0 in let dst0 := tm_ip_dst m =? 0 in
  match tm_in_key_flow m, tm_ip_dst_flow m, tm_ip_src_flow m with
  | false, false, false => Some (if src0 then 1 else 0)%nat
  | true, false, false => if key0 then Some (if src0 then 3 else 2)%nat else None
  | true, true, false => if key0 && dst0 && src0 then Some 4%nat else None
  | true, true, true => if key0 && dst0 && src0 then Some 5%nat else None
  | _, _, _ => None
  end.

(** The lookups of [tnl_find] are one for each degree of specificity. *)
Lemma specific_key m flow odp_port n :
  accepts m flow odp_port → specificity m = Some n → tnl_find_keys (flow_match flow odp_port) !! n = Some m.
Proof.
  destruct m as [key src dst odp mark kf sf df]. unfold accepts, specificity, tnl_find_keys, flow_match. simpl.
  intros (-> & -> & Hk & Hd & Hs) Hn. destruct kf, df, sf; try done; simpl in *;
    destruct (Z.eqb_spec key 0), (Z.eqb_spec src 0), (Z.eqb_spec dst 0); simpl in Hn; try done; injection Hn as <-; simpl;
    repeat f_equal; naive_solver.
Qed.

Lemma key_specific m flow odp_port i :
  tnl_find_keys (flow_match flow odp_port) !! i = Some m →
  ∃ n, specificity m = Some n ∧ (n = i ∨ (i = 0 ∧ n = 1 ∨ i = 2 ∧ n = 3)%nat ∧ flow F_tun_dst = 0).
Proof.
  unfold tnl_find_keys, flow_match. simpl. intros Hi.
  do 6 (destruct i as [|i]; [injection Hi as <-; unfold specificity; simpl; try destruct (Z.eqb_spec (flow F_tun_dst) 0); eauto 8|]). done.
Qed.

(** The first key in the list that a port has is the most specific one. *)
Lemma first_key_specific flow odp_port p q i n j :
  tnl_find_keys (flow_match flow odp_port) !! i = Some p → specificity p = Some n →
  accepts q flow odp_port → specificity q = Some j → (i ≤ j)%nat → (n ≤ j)%nat.
Proof.
  intros Hi Hn Hq Hj Hle. destruct (key_specific _ _ _ _ Hi) as (n' & Hn' & Hc). rewrite Hn in Hn'. injection Hn' as <-.
  destruct Hc as [->|[Hc Hz]]; [done|]. assert (j ≠ i); [|lia]. intros ->.
  destruct Hq as (_ & _ & _ & _ & Hs). rewrite Hz in Hs. revert Hj Hs. unfold specificity.
  destruct (tm_in_key_flow q), (tm_ip_dst_flow q), (tm_ip_src_flow q); try done;
    destruct (Z.eqb_spec (tm_in_key q) 0), (Z.eqb_spec (tm_ip_src q) 0), (Z.eqb_spec (tm_ip_dst q) 0); simpl; intros [= <-]; naive_solver lia.
Qed.

(** The treatment of congestion marks and of the mark of IPsec. *)
Lemma tnl_xlate_init_spec base flow wc :
  flow F_tun_dst ≠ 0 →
  let '(ok, out, _) := tnl_xlate_init base flow wc in
  let ce := Z.land (flow F_tun_tos) IP_ECN_MASK = IP_ECN_CE in
  (ok = false ↔ is_ip_any base = true ∧ ce ∧ Z.land (base F_nw_tos) IP_ECN_MASK = IP_ECN_NOT_ECT)
  ∧ (ok = true → is_ip_any base = true → ce → Z.land (out F_nw_tos) IP_ECN_MASK = IP_ECN_CE)
  ∧ (ok = true → Z.land (out F_pkt_mark) IPSEC_MARK = 0 ∧ ∀ f, f ≠ F_nw_tos → f ≠ F_pkt_mark → out f = flow f).
Proof.
  intros Hd. unfold tnl_xlate_init, tnl_port_should_receive, tnl_ecn_ok. rewrite (proj2 (Z.eqb_neq _ _) Hd). cbn [negb].
  assert (Hm : ∀ v, Z.land (Z.ldiff v IPSEC_MARK) IPSEC_MARK = 0)
    by (intros v; apply Z.bits_inj'; intros i Hi; rewrite Z.land_spec, Z.ldiff_spec, Z.bits_0; by destruct (Z.testbit v i), (Z.testbit IPSEC_MARK i)).
  destruct (is_ip_any base); cbn [andb]; [|split_and!; [naive_solver|done|intros _; rewrite upd_eq; split; [apply Hm|intros f _ Hf; by rewrite upd_ne]]].
  destruct (Z.eqb_spec (Z.land (flow F_tun_tos) IP_ECN_MASK) IP_ECN_CE) as [Hce|Hce];
    [|split_and!; [naive_solver|done|intros _; rewrite upd_eq; split; [apply Hm|intros f _ Hf; by rewrite upd_ne]]].
  destruct (Z.eqb_spec (Z.land (base F_nw_tos) IP_ECN_MASK) IP_ECN_NOT_ECT) as [Hect|Hect]; [split_and!; [naive_solver|done..]|].
  split_and!; [naive_solver| |intros _; rewrite upd_eq; split; [apply Hm|intros f Hf1 Hf2; by rewrite !upd_ne]].
  intros _ _ _. rewrite upd_ne, upd_eq by done. rewrite Z.land_lor_distr_l. change (Z.land IP_ECN_CE IP_ECN_MASK) with IP_ECN_MASK.
  apply Z.bits_inj'. intros i Hi. rewrite Z.lor_spec, Z.land_spec. change IP_ECN_CE with IP_ECN_MASK. by destruct (Z.testbit (flow F_nw_tos) i), (Z.testbit IP_ECN_MASK i).
Qed.

(** C36: A packet received through a tunnel is given to the most specific port
    whose configuration it satisfies.  The port that is found has a supported
    configuration which the packet satisfies, and of all such ports it is the
    most specific one, in the order remote and local address and key, remote
    address and key, both addresses, remote address, flow-based remote,
    flow-based everything; when none is found, there is no such port.  A packet
    sent through a port with fixed addresses and key is received by the port
    with the mirrored configuration.  A received IP packet is dropped exactly
    if the outer header says that congestion was experienced and the inner one
    that its endpoints are not ECN-capable; otherwise congestion is passed on
    to the inner header, and the mark of IPsec is removed. *)
Theorem tunnel_receive_correct s flow odp_port :
  tnl_wf s →
  match tnl_port_receive s flow odp_port with
  | Some ofport =>
      ∃ p n, p ∈ s ∧ tp_ofport p = ofport ∧ accepts (tp_match p) flow odp_port ∧ specificity (tp_match p) = Some n
             ∧ ∀ q j, q ∈ s → accepts (tp_match q) flow odp_port → specificity (tp_match q) = Some j → (n ≤ j)%nat ∧ (n = j → q = p)
  | None => ∀ q, q ∈ s → accepts (tp_match q) flow odp_port → specificity (tp_match q) = None
  end
  ∧ (∀ s' p q flow' wc,
      tnl_find_ofport s' (tp_ofport p) = Some p → ip_src_flow (tp_cfg p) = false → ip_dst_flow (tp_cfg p) = false →
      out_key_flow (tp_cfg p) = false → q ∈ s →
      tp_match q = TnlMatch (out_key (tp_cfg p)) (tm_ip_dst (tp_match p)) (tm_ip_src (tp_match p)) odp_port
                     (flow F_pkt_mark) false false false →
      let '(odp, out, _) := tnl_port_send s' (tp_ofport p) flow' wc in
      (∀ f, f ∈ [F_tun_id; F_tun_src; F_tun_dst] → flow f = out f) →
      odp = tm_odp_port (tp_match p) ∧ tnl_port_receive s flow odp_port = Some (tp_ofport q))
  ∧ ∀ base wc, flow F_tun_dst ≠ 0 →
      let '(ok, out, _) := tnl_xlate_init base flow wc in
      let ce := Z.land (flow F_tun_tos) IP_ECN_MASK = IP_ECN_CE in
      (ok = false ↔ is_ip_any base = true ∧ ce ∧ Z.land (base F_nw_tos) IP_ECN_MASK = IP_ECN_NOT_ECT)
      ∧ (ok = true → is_ip_any base = true → ce → Z.land (out F_nw_tos) IP_ECN_MASK = IP_ECN_CE)
      ∧ (ok = true → Z.land (out F_pkt_mark) IPSEC_MARK = 0 ∧ ∀ f, f ≠ F_nw_tos → f ≠ F_pkt_mark → out f = flow f).
Proof.
  intros Hw. set (keys := tnl_find_keys (flow_match flow odp_port)). unfold tnl_port_receive. fold (flow_match flow odp_port). split_and!.
  - unfold tnl_find. fold keys. pose proof (tnl_find_first_spec s keys) as H.
    destruct (tnl_find_first s keys) as [p|]; simpl.
    + destruct H as (Hin & i & Hi & Hmin). destruct (key_specific _ _ _ _ Hi) as (n & Hn & _).
      exists p, n. split_and!; [done..| |done|]; [apply tnl_find_keys_accept; by eapply list_elem_of_lookup_2|].
      intros q j Hq Ha Hj. pose proof (specific_key _ _ _ _ Ha Hj) as Hk. split.
      * eapply first_key_specific; [exact Hi|exact Hn|exact Ha|exact Hj|]. by eapply Hmin.
      * intros ->. assert (Hp : accepts (tp_match p) flow odp_port) by (apply tnl_find_keys_accept; by eapply list_elem_of_lookup_2).
        pose proof (specific_key _ _ _ _ Hp Hn) as Hk'. rewrite Hk in Hk'. injection Hk' as E.
        pose proof (tnl_find_unique s (tp_match p) p Hw Hin eq_refl) as U1. pose proof (tnl_find_unique s (tp_match p) q Hw Hq E) as U2. congruence.
    + intros q Hq Ha. destruct (specificity (tp_match q)) as [j|] eqn:Ej; [|done].
      destruct (H q Hq). eapply list_elem_of_lookup_2. by apply specific_key.
  - intros s' p q flow' wc Ep Hs Hd Hk Hq Hm. pose proof (tnl_port_send_header s' (tp_ofport p) p flow' wc Ep) as H.
    destruct (tnl_port_send _ _ _ _) as [[odp out] wc']. rewrite Hs, Hd, Hk in H. destruct H as (-> & E1 & E2 & E3).
    intros Hf. split; [done|]. unfold tnl_find. cbn [tnl_find_keys tnl_find_first].
    rewrite (tnl_find_unique s _ q Hw Hq); [done|]. rewrite Hm. unfold flow_match. simpl.
    rewrite (Hf F_tun_id), (Hf F_tun_src), (Hf F_tun_dst) by set_solver. by rewrite E1, E2, E3.
  - intros base wc. apply tnl_xlate_init_spec.
Qed.

Lemma tunnel_receive_correct_witness :
  let cfg src dst := TunnelConfig false 7 true false 7 false false src dst 64 false 0 false false false true in
  let s1 := tnl_port_add [] 1 10 0 (cfg 100 200) 5 in
  let s2 := tnl_port_add (tnl_port_add [] 3 30 0 (cfg 0 100) 6) 2 20 0 (cfg 200 100) 6 in
  let '(_, out, _) := tnl_port_send s1 1 (λ _, 0) (λ _, 0) in
  tnl_port_receive s2 out 6 = Some 2.
Proof.
  intros cfg s1 s2. set (p := TnlPort 1 10 0 (cfg 100 200) (cfg_match (cfg 100 200) 5)).
  set (q := TnlPort 2 20 0 (cfg 200 100) (cfg_match (cfg 200 100) 6)).
  destruct (tnl_port_send s1 1 (λ _, 0) (λ _, 0)) as [[odp out] wc] eqn:E.
  assert (Hw : tnl_wf s2) by (do 2 apply tnl_port_add_wf; constructor).
  assert (Hm : out F_pkt_mark = 0) by (apply (f_equal (λ x, x.1.2 F_pkt_mark)) in E; symmetry; exact E).
  destruct (tunnel_receive_correct s2 out 6 Hw) as (_ & H & _). specialize (H s1 p q (λ _, 0) (λ _, 0)).
  change (tp_ofport p) with 1 in H. rewrite E in H.
  apply H; [reflexivity..|apply list_elem_of_here|unfold q; simpl; rewrite Hm; reflexivity|done].
Defined.

(** A tunnel with a flow-based remote address and a fixed key is never chosen
    for a received packet. *)
Lemma tnl_flow_remote_fixed_key p flow odp_port i :
  tm_ip_dst_flow (tp_match p) = true → tm_in_key_flow (tp_match p) = false →
  tnl_find_keys (flow_match flow odp_port) !! i ≠ Some (tp_match p).
Proof.
  intros Hd Hk Hi. apply list_elem_of_lookup_2 in Hi. unfold tnl_find_keys, flow_match in Hi. simpl in Hi.
  destruct (tp_match p). simpl in *. subst. set_solver.
Qed.

(** ** Masks *)

Lemma upd_ones_grows f v wc : v = all_ones f → wc_grows wc (upd f v wc).
Proof. intros -> Hw. by apply (unwildcard_grows [f]). Qed.

Lemma wc_or_grows f v wc : in_width (field_width f) v → wc_grows wc (wc_or f v wc).
Proof. intros Hv Hw. by apply wc_or_ok. Qed.

Lemma tnl_port_send_grows s ofport flow wc : wc_grows wc (tnl_port_send s ofport flow wc).2.
Proof.
  unfold tnl_port_send. destruct (tnl_find_ofport s ofport) as [p|]; [|done]. cbn zeta.
  match goal with |- context [ttl_inherit _ && is_ip_any ?f] => generalize f end. intros f.
  destruct (ttl_inherit _ && _); match goal with |- context [tos_inherit _ && is_ip_any ?f] => generalize f end; intros f';
    destruct (tos_inherit _ && _); match goal with |- context [is_ip_any ?f] => destruct (is_ip_any f) end; cbn [snd];
    repeat first [reflexivity | etrans; [|by apply wc_or_grows] | etrans; [|by apply upd_ones_grows]].
Qed.

Lemma tnl_port_send_port s ofport flow wc :
  (tnl_port_send s ofport flow wc).1.1
  = match tnl_find_ofport s ofport with Some p => tm_odp_port (tp_match p) | None => ODPP_NONE end.
Proof.
  unfold tnl_port_send. destruct (tnl_find_ofport s ofport) as [p|]; [|done]. cbn zeta.
  match goal with |- context [ttl_inherit _ && is_ip_any ?f] => generalize f end. intros f.
  destruct (ttl_inherit _ && _); match goal with |- context [tos_inherit _ && is_ip_any ?f] => generalize f end; intros f';
    by destruct (tos_inherit _ && _).
Qed.

Lemma tnl_xlate_init_grows base flow wc : wc_grows wc (tnl_xlate_init base flow wc).2.
Proof.
  unfold tnl_xlate_init. destruct (tnl_port_should_receive flow); [|done].
  destruct (tnl_ecn_ok base flow) as [[] ?]; cbn [snd]; intros Hw; by apply unwildcard_grows.
Qed.
