(* ===== verification/Heap.v ===== *)
(** * The max-heap (lib/heap.h, lib/heap.c)

    A binary heap of client-owned nodes.  The array holds addresses of nodes
    from index 1 on, and each node records its own index and priority; both
    are kept in one state, so that the two views can be related.  [size_t]
    indices are natural numbers. *)
From S2P Require Import Prelude.
From Stdlib Require Import ZifyNat.

Record heap_node := HeapNode { nd_idx : nat; nd_priority : Z }.

Record heap := Heap {
  h_array : gmap nat Z;
  h_n : nat;
  h_allocated : nat;
  h_nodes : gmap Z heap_node
}.

(** Reading an element that was never set is an out-of-bounds access; the
    invariant excludes it. *)
Definition node_at (h : heap) (i : nat) : Z := default 0 (h_array h !! i).
Definition node_prio (h : heap) (x : Z) : Z := default 0 (nd_priority <$> h_nodes h !! x).
Definition node_idx (h : heap) (x : Z) : nat := default 0%nat (nd_idx <$> h_nodes h !! x).
Definition prio_at (h : heap) (i : nat) : Z := node_prio h (node_at h i).

(** The nodes are the client's: an empty heap over a store of nodes. *)
Definition heap_init (nodes : gmap Z heap_node) : heap := Heap ∅ 0 0 nodes.
Definition heap_clear (h : heap) : heap := Heap (h_array h) 0 (h_allocated h) (h_nodes h).
Definition heap_count (h : heap) : nat := h_n h.
Definition heap_is_empty (h : heap) : bool := bool_decide (h_n h = 0%nat).

Definition heap_parent__ (idx : nat) : nat := idx / 2.
Definition heap_left__ (idx : nat) : nat := idx * 2.
Definition heap_right__ (idx : nat) : nat := idx * 2 + 1.
Definition heap_is_leaf__ (h : heap) (idx : nat) : bool := bool_decide (h_n h < heap_left__ idx)%nat.

Definition put_node (h : heap) (x : Z) (i : nat) : heap :=
  Heap (<[i := x]> (h_array h)) (h_n h) (h_allocated h)
       (<[x := HeapNode i (node_prio h x)]> (h_nodes h)).

Definition swap_nodes (h : heap) (i j : nat) : heap :=
  let old_i := node_at h i in
  let old_j := node_at h j in
  put_node (put_node h old_j i) old_i j.

(** Each step halves [i], so [i] steps are enough. *)
Fixpoint float_up_loop (fuel : nat) (h : heap) (i : nat) (moved : bool) : heap * bool :=
  match fuel with
  | O => (h, moved)
  | S fuel =>
      if decide (1 < i)%nat then
        let parent := heap_parent__ i in
        if prio_at h i <=? prio_at h parent then (h, moved)
        else float_up_loop fuel (swap_nodes h parent i) parent true
      else (h, moved)
  end.

Definition float_up (h : heap) (i : nat) : heap * bool := float_up_loop i h i false.

(** The child to exchange node [i] with, or [i] itself. *)
Definition max_child (h : heap) (i : nat) : nat :=
  let left := heap_left__ i in
  let right := heap_right__ i in
  let max := if prio_at h i <? prio_at h left then left else i in
  if bool_decide (right ≤ h_n h)%nat && (prio_at h max <? prio_at h right) then right else max.

(** Each step at least doubles [i], so [n] steps are enough. *)
Fixpoint float_down_loop (fuel : nat) (h : heap) (i : nat) : heap :=
  match fuel with
  | O => h
  | S fuel =>
      if heap_is_leaf__ h i then h
      else
        let max := max_child h i in
        if decide (max = i) then h
        else float_down_loop fuel (swap_nodes h max i) max
  end.

Definition float_down (h : heap) (i : nat) : heap := float_down_loop (h_n h) h i.

Definition float_up_or_down (h : heap) (i : nat) : heap :=
  let '(h, moved) := float_up h i in
  if moved then h else float_down h i.

Definition heap_raw_change (h : heap) (x : Z) (priority : Z) : heap :=
  Heap (h_array h) (h_n h) (h_allocated h)
       (<[x := HeapNode (node_idx h x) priority]> (h_nodes h)).

Definition heap_raw_insert (h : heap) (x : Z) (priority : Z) : heap :=
  let h := if decide (h_allocated h ≤ h_n h)%nat
           then Heap (h_array h) (h_n h)
                     (if decide (h_n h = 0)%nat then 1%nat else 2 * h_n h)%nat (h_nodes h)
           else h in
  let h := Heap (h_array h) (S (h_n h)) (h_allocated h) (h_nodes h) in
  heap_raw_change (put_node h x (h_n h)) x priority.

Definition heap_raw_remove (h : heap) (x : Z) : heap :=
  let i := node_idx h x in
  let h := if decide (i < h_n h)%nat then put_node h (node_at h (h_n h)) i else h in
  Heap (h_array h) (h_n h - 1) (h_allocated h) (h_nodes h).

Definition heap_insert (h : heap) (x : Z) (priority : Z) : heap :=
  let h := heap_raw_insert h x priority in
  (float_up h (node_idx h x)).1.

Definition heap_remove (h : heap) (x : Z) : heap :=
  let i := node_idx h x in
  let h := heap_raw_remove h x in
  if decide (i ≤ h_n h)%nat then float_up_or_down h i else h.

Definition heap_change (h : heap) (x : Z) (priority : Z) : heap :=
  let h := heap_raw_change h x priority in
  float_up_or_down h (node_idx h x).

Fixpoint rebuild_loop (i : nat) (h : heap) : heap :=
  match i with
  | O => h
  | S i' => rebuild_loop i' (float_down h i)
  end.

Definition heap_rebuild (h : heap) : heap := rebuild_loop (h_n h / 2) h.

Definition heap_max (h : heap) : Z := node_at h 1.

Definition heap_pop (h : heap) : heap * Z :=
  (Heap (h_array h) (h_n h - 1) (h_allocated h) (h_nodes h), node_at h (h_n h)).

(** HEAP_FOR_EACH: the nodes visited.  The macro steps from a node to the
    array element after the index that the node records; [n] steps suffice. *)
Fixpoint for_each_from (fuel : nat) (h : heap) (x : Z) : list Z :=
  match fuel with
  | O => []
  | S fuel =>
      x :: if decide (node_idx h x < h_n h)%nat
           then for_each_from fuel h (node_at h (node_idx h x + 1)) else []
  end.

Definition heap_for_each (h : heap) : list Z :=
  if decide (0 < h_n h)%nat then for_each_from (h_n h) h (node_at h 1) else [].

(** ** Well-formed heaps *)

(** The array and the nodes' indices describe the same bijection. *)
Record heap_wf (h : heap) : Prop := {
  hw_array : ∀ i, (1 ≤ i ≤ h_n h)%nat → is_Some (h_array h !! i);
  hw_nodes : ∀ i, (1 ≤ i ≤ h_n h)%nat → is_Some (h_nodes h !! node_at h i);
  hw_idx : ∀ i, (1 ≤ i ≤ h_n h)%nat → node_idx h (node_at h i) = i;
  hw_alloc : (h_n h ≤ h_allocated h)%nat
}.

Definition in_heap (h : heap) (x : Z) : Prop := ∃ i, (1 ≤ i ≤ h_n h)%nat ∧ node_at h i = x.

(** Every node is at most its parent. *)
Definition heap_order (key : nat → Z) (n : nat) : Prop :=
  ∀ i, (2 ≤ i ≤ n)%nat → key i ≤ key (i / 2)%nat.

Definition swapped (i j k : nat) : nat :=
  if decide (k = i) then j else if decide (k = j) then i else k.

Lemma node_at_put h x i k : node_at (put_node h x i) k = if decide (k = i) then x else node_at h k.
Proof. unfold node_at, put_node. simpl. rewrite lookup_insert. repeat case_decide; naive_solver. Qed.

Lemma node_prio_put h x i y : node_prio (put_node h x i) y = node_prio h y.
Proof.
  unfold node_prio, put_node. simpl. rewrite lookup_insert. case_decide as E; [by subst|done].
Qed.

Lemma node_idx_put h x i y : node_idx (put_node h x i) y = if decide (y = x) then i else node_idx h y.
Proof.
  unfold node_idx, put_node. simpl. rewrite lookup_insert. repeat case_decide; naive_solver.
Qed.

Lemma node_at_swap h i j k : i ≠ j → node_at (swap_nodes h i j) k = node_at h (swapped i j k).
Proof.
  intros Hne. unfold swap_nodes, swapped. rewrite !node_at_put.
  repeat case_decide; subst; done.
Qed.

Lemma node_prio_swap h i j x : node_prio (swap_nodes h i j) x = node_prio h x.
Proof. unfold swap_nodes. by rewrite !node_prio_put. Qed.

Lemma prio_at_swap h i j k : i ≠ j → prio_at (swap_nodes h i j) k = prio_at h (swapped i j k).
Proof. intros Hne. unfold prio_at. by rewrite node_prio_swap, node_at_swap. Qed.

Lemma swapped_range i j k n :
  (1 ≤ i ≤ n)%nat → (1 ≤ j ≤ n)%nat → (1 ≤ k ≤ n)%nat → (1 ≤ swapped i j k ≤ n)%nat.
Proof. unfold swapped. repeat case_decide; lia. Qed.

Lemma swapped_involutive i j k : i ≠ j → swapped i j (swapped i j k) = k.
Proof. unfold swapped. intros. repeat case_decide; lia. Qed.

Lemma node_at_inj h i j :
  heap_wf h → (1 ≤ i ≤ h_n h)%nat → (1 ≤ j ≤ h_n h)%nat → node_at h i = node_at h j → i = j.
Proof. intros Hw Hi Hj E. rewrite <- (hw_idx h Hw i Hi), <- (hw_idx h Hw j Hj). by rewrite E. Qed.

Lemma swap_nodes_wf h i j :
  heap_wf h → (1 ≤ i ≤ h_n h)%nat → (1 ≤ j ≤ h_n h)%nat → i ≠ j → heap_wf (swap_nodes h i j).
Proof.
  intros Hw Hi Hj Hne. split; simpl.
  - intros k Hk. rewrite !lookup_insert. repeat case_decide; try done. by apply Hw.
  - intros k Hk. change (node_at (put_node _ _ _) k) with (node_at (swap_nodes h i j) k).
    rewrite node_at_swap by done. rewrite !lookup_insert.
    repeat case_decide; try done. apply Hw. by apply swapped_range.
  - intros k Hk. rewrite node_at_swap by done. unfold swap_nodes. rewrite !node_idx_put.
    pose proof (swapped_range i j k _ Hi Hj Hk) as Hs.
    case_decide as E1; [|case_decide as E2].
    + apply node_at_inj in E1; [|done..]. unfold swapped in E1. repeat case_decide; lia.
    + apply node_at_inj in E2; [|done..]. unfold swapped in E2. repeat case_decide; lia.
    + rewrite (hw_idx h Hw) by done. unfold swapped in *. repeat case_decide; subst; done.
  - apply Hw.
Qed.

Lemma in_heap_swap h i j x :
  (1 ≤ i ≤ h_n h)%nat → (1 ≤ j ≤ h_n h)%nat → i ≠ j → in_heap (swap_nodes h i j) x ↔ in_heap h x.
Proof.
  intros Hi Hj Hne. unfold in_heap. simpl. split.
  - intros (k & Hk & <-). exists (swapped i j k). rewrite node_at_swap by done.
    split; [by apply swapped_range|done].
  - intros (k & Hk & <-). exists (swapped i j k). rewrite node_at_swap, swapped_involutive by done.
    split; [by apply swapped_range|done].
Qed.

(** ** Restoring the order *)

#[local] Arguments Nat.div : simpl never.
#[local] Ltac Zify.zify_post_hook ::= Z.div_mod_to_equations.

(** [h'] holds the same nodes with the same priorities, perhaps elsewhere. *)
Record rearranged (h h' : heap) : Prop := {
  ra_wf : heap_wf h';
  ra_n : h_n h' = h_n h;
  ra_in : ∀ x, in_heap h' x ↔ in_heap h x;
  ra_prio : ∀ x, node_prio h' x = node_prio h x
}.

Lemma rearranged_refl h : heap_wf h → rearranged h h.
Proof. by split. Qed.

Lemma rearranged_trans h1 h2 h3 : rearranged h1 h2 → rearranged h2 h3 → rearranged h1 h3.
Proof.
  intros [W1 N1 I1 P1] [W2 N2 I2 P2]. split; [done|congruence| |].
  - intros x. by rewrite I2.
  - intros x. by rewrite P2.
Qed.

Lemma swap_rearranged h i j :
  heap_wf h → (1 ≤ i ≤ h_n h)%nat → (1 ≤ j ≤ h_n h)%nat → i ≠ j → rearranged h (swap_nodes h i j).
Proof.
  intros. split; [by apply swap_nodes_wf|done| |].
  - intros x. by apply in_heap_swap.
  - intros x. apply node_prio_swap.
Qed.

(** The order holds except at the positions in [bad]. *)
Definition order_but (bad : nat → Prop) (key : nat → Z) (n : nat) : Prop :=
  ∀ i, (2 ≤ i ≤ n)%nat → ¬ bad i → key i ≤ key (i / 2)%nat.

(** The children of [i] are at most the parent of [i]. *)
Definition grand (key : nat → Z) (n i : nat) : Prop :=
  ∀ j, (2 ≤ i)%nat → (j / 2 = i)%nat → (j ≤ n)%nat → key j ≤ key (i / 2)%nat.

Ltac swap_key := unfold swapped; repeat case_decide; subst; try lia.

Lemma up_step key n i :
  (2 ≤ i ≤ n)%nat → order_but (λ k, k = i ∨ (k / 2 = i)%nat) key n → grand key n i →
  key (i / 2)%nat < key i →
  let key' := λ k, key (swapped (i / 2) i k) in
  order_but (λ k, k = (i / 2)%nat) key' n ∧ grand key' n (i / 2).
Proof.
  intros Hi Ho Hg Hlt key'. unfold key'.
  assert (Hp : (i / 2 < i)%nat) by lia.
  split.
  - intros k Hk Hkp. destruct (decide (k = i)) as [->|Hki]; [swap_key|].
    assert (E : key (swapped (i / 2) i k) = key k) by swap_key. rewrite E.
    destruct (decide (k / 2 = i)%nat) as [Hc|Hc].
    + assert (E' : key (swapped (i / 2) i (k / 2)) = key (i / 2)%nat) by (rewrite Hc; swap_key).
      rewrite E'. apply Hg; lia.
    + specialize (Ho k Hk ltac:(cbv beta in *; lia)). destruct (decide (k / 2 = i / 2)%nat) as [Hs|Hs].
      * assert (E' : key (swapped (i / 2) i (k / 2)) = key i) by (rewrite Hs; swap_key).
        rewrite E'. rewrite Hs in Ho. lia.
      * assert (E' : key (swapped (i / 2) i (k / 2)) = key (k / 2)%nat) by swap_key.
        by rewrite E'.
  - intros j H2 Hj Hn.
    assert (E : key (swapped (i / 2) i (i / 2 / 2)) = key (i / 2 / 2)%nat) by swap_key. rewrite E.
    assert (Hpp : key (i / 2)%nat ≤ key (i / 2 / 2)%nat) by (apply Ho; cbv beta in *; lia).
    destruct (decide (j = i)) as [->|Hji]; [swap_key|].
    assert (E' : key (swapped (i / 2) i j) = key j) by swap_key. rewrite E'.
    assert (key j ≤ key (j / 2)%nat) by (apply Ho; cbv beta in *; lia). rewrite Hj in *. lia.
Qed.

Lemma order_but_weaken (P Q : nat → Prop) key n :
  (∀ i, P i → Q i) → order_but P key n → order_but Q key n.
Proof. intros HPQ Ho i Hi Hn. apply Ho; [done|]. intros HP. by apply Hn, HPQ. Qed.

Lemma float_up_loop_spec fuel h i moved :
  heap_wf h → (1 ≤ i ≤ h_n h)%nat → (i ≤ fuel)%nat →
  order_but (λ k, k = i) (prio_at h) (h_n h) → grand (prio_at h) (h_n h) i →
  let r := float_up_loop fuel h i moved in
  rearranged h r.1 ∧ heap_order (prio_at r.1) (h_n r.1).
Proof.
  revert h i moved. induction fuel as [|fuel IH]; intros h i moved Hw Hi Hf Ho Hg; [lia|]. simpl.
  destruct (decide (1 < i)%nat) as [H1|H1].
  - destruct (Z.leb_spec (prio_at h i) (prio_at h (heap_parent__ i))) as [Hle|Hlt]; simpl.
    + split; [by apply rearranged_refl|]. intros k Hk.
      destruct (decide (k = i)) as [->|Hne]; [done|]. by apply Ho.
    + unfold heap_parent__ in *.
      pose proof (swap_rearranged h (i / 2) i Hw ltac:(lia) Hi ltac:(lia)) as Hr.
      destruct (up_step (prio_at h) (h_n h) i ltac:(lia)) as [Ho' Hg'];
        [by eapply order_but_weaken; [|exact Ho]; naive_solver|done|done|].
      destruct (IH (swap_nodes h (i / 2) i) (i / 2)%nat true) as [Hr' Hord];
        [apply Hr|rewrite (ra_n _ _ Hr); lia|lia| | |].
      * intros k Hk Hb. rewrite !prio_at_swap by lia. by apply Ho'.
      * intros k H2 Hk Hn. rewrite !prio_at_swap by lia. by apply Hg'.
      * split; [by eapply rearranged_trans|done].
  - simpl. split; [by apply rearranged_refl|]. intros k Hk. apply Ho; [done|cbv beta in *; lia].
Qed.

Lemma max_child_spec h i :
  (1 ≤ i)%nat → (2 * i ≤ h_n h)%nat →
  let m := max_child h i in
  (m = i ∨ (m / 2 = i)%nat) ∧ (i ≤ m ≤ h_n h)%nat
  ∧ prio_at h i ≤ prio_at h m ∧ (m ≠ i → prio_at h i < prio_at h m)
  ∧ (∀ j, (j / 2 = i)%nat → (j ≤ h_n h)%nat → prio_at h j ≤ prio_at h m).
Proof.
  intros Hi Hn. unfold max_child, heap_left__, heap_right__. cbv zeta.
  set (c := if prio_at h i <? prio_at h (i * 2) then (i * 2)%nat else i).
  assert (Hc : (c = i ∨ c = (i * 2)%nat) ∧ prio_at h i ≤ prio_at h c
    ∧ prio_at h (i * 2) ≤ prio_at h c ∧ (c ≠ i → prio_at h i < prio_at h c)).
  { unfold c. destruct (Z.ltb_spec (prio_at h i) (prio_at h (i * 2)));
      (split_and!; [auto|lia|lia|done || lia]). }
  clearbody c. destruct Hc as (Hc & H1 & H2 & H3).
  assert (Hj : ∀ j, (j / 2 = i)%nat → j = (i * 2)%nat ∨ j = (i * 2 + 1)%nat) by (intros; lia).
  destruct (bool_decide (i * 2 + 1 ≤ h_n h)%nat) eqn:Hb;
    [apply bool_decide_eq_true in Hb|apply bool_decide_eq_false in Hb]; cbn [andb].
  - destruct (Z.ltb_spec (prio_at h c) (prio_at h (i * 2 + 1))).
    + split_and!; [right; lia|lia|lia|lia|lia|]. intros j [-> | ->]%Hj _; lia.
    + split_and!; [lia|lia|lia|done|done|]. intros j [-> | ->]%Hj _; lia.
  - split_and!; [lia|lia|lia|done|done|]. intros j [-> | ->]%Hj ?; lia.
Qed.

Lemma down_step key n i m :
  (1 ≤ i)%nat → (m / 2 = i)%nat → (m ≤ n)%nat →
  (∀ j, (j / 2 = i)%nat → (j ≤ n)%nat → key j ≤ key m) → key i < key m →
  ∀ lo, (lo ≤ i)%nat → order_but (λ k, (k / 2 = i ∨ k / 2 < lo)%nat) key n →
  ((lo ≤ i / 2)%nat → grand key n i) →
  let key' := λ k, key (swapped m i k) in
  order_but (λ k, (k / 2 = m ∨ k / 2 < lo)%nat) key' n ∧ ((lo ≤ m / 2)%nat → grand key' n m).
Proof.
  intros Hi Hm Hn Hmax Hlt lo Hlo Ho Hg key'. unfold key'. split.
  - intros k Hk Hb. destruct (decide (k / 2 = i)%nat) as [Hki|Hki].
    + rewrite Hki. assert (E : key (swapped m i i) = key m) by swap_key. rewrite E.
      destruct (decide (k = m)) as [->|Hkm]; [swap_key|].
      assert (E' : key (swapped m i k) = key k) by swap_key. rewrite E'. apply Hmax; lia.
    + assert (E : key (swapped m i (k / 2)) = key (k / 2)%nat) by swap_key. rewrite E.
      destruct (decide (k = i)) as [->|Hne].
      * assert (E' : key (swapped m i i) = key m) by swap_key. rewrite E'.
        apply (Hg ltac:(lia) m); lia.
      * assert (E' : key (swapped m i k) = key k) by swap_key. rewrite E'. apply Ho; cbv beta in *; lia.
  - intros _ j H2 Hj Hjn. rewrite Hm.
    assert (E : key (swapped m i i) = key m) by swap_key. rewrite E.
    assert (E' : key (swapped m i j) = key j) by swap_key. rewrite E'.
    rewrite <- Hj. apply Ho; cbv beta in *; lia.
Qed.

(** [lo] is the first position below which nothing is promised: 1 when the rest
    of the heap is in order, and the current position while it is rebuilt. *)
Lemma float_down_loop_spec fuel h i lo :
  heap_wf h → (1 ≤ lo ≤ i)%nat → (h_n h < i + fuel)%nat →
  order_but (λ k, (k / 2 = i ∨ k / 2 < lo)%nat) (prio_at h) (h_n h) →
  ((lo ≤ i / 2)%nat → grand (prio_at h) (h_n h) i) →
  let r := float_down_loop fuel h i in
  rearranged h r ∧ order_but (λ k, (k / 2 < lo)%nat) (prio_at r) (h_n r).
Proof.
  revert h i. induction fuel as [|fuel IH]; intros h i Hw Hlo Hf Ho Hg; simpl.
  { split; [by apply rearranged_refl|]. intros k Hk Hb. apply Ho; [done|cbv beta in *; lia]. }
  unfold heap_is_leaf__, heap_left__. case_bool_decide as Hleaf.
  { split; [by apply rearranged_refl|]. intros k Hk Hb. apply Ho; [done|cbv beta in *; lia]. }
  destruct (max_child_spec h i ltac:(lia) ltac:(lia)) as (Hm & Hmn & Hle & Hlt & Hmax).
  destruct (decide (max_child h i = i)) as [He|Hne].
  - split; [by apply rearranged_refl|]. intros k Hk Hb.
    destruct (decide (k / 2 = i)%nat) as [Hki|Hki]; [|apply Ho; [done|cbv beta in *; lia]].
    rewrite Hki. rewrite He in Hmax. apply Hmax; [done|lia].
  - destruct Hm as [?|Hm]; [done|]. specialize (Hlt Hne).
    pose proof (swap_rearranged h (max_child h i) i Hw ltac:(lia) ltac:(lia) Hne) as Hr.
    destruct (down_step (prio_at h) (h_n h) i (max_child h i) ltac:(lia) Hm ltac:(lia) Hmax Hlt
      lo ltac:(lia) Ho Hg) as [Ho' Hg'].
    destruct (IH (swap_nodes h (max_child h i) i) (max_child h i)) as [Hr' Hord];
      [apply Hr|lia|rewrite (ra_n _ _ Hr); lia| | |].
    + intros k Hk Hb. rewrite !prio_at_swap by done. by apply Ho'.
    + intros Hl j H2 Hj Hn. rewrite !prio_at_swap by done. by apply Hg'.
    + split; [by eapply rearranged_trans|done].
Qed.

Lemma float_up_loop_moved fuel h i : (float_up_loop fuel h i true).2 = true.
Proof.
  revert h i. induction fuel as [|fuel IH]; intros h i; [done|]. simpl.
  destruct (decide _); [|done]. destruct (_ <=? _); [done|apply IH].
Qed.

(** Restoring the order around one position whose priority changed. *)
Lemma float_up_or_down_spec h i :
  heap_wf h → (1 ≤ i ≤ h_n h)%nat →
  order_but (λ k, k = i ∨ (k / 2 = i)%nat) (prio_at h) (h_n h) → grand (prio_at h) (h_n h) i →
  let r := float_up_or_down h i in
  rearranged h r ∧ heap_order (prio_at r) (h_n r).
Proof.
  intros Hw Hi Ho Hg. unfold float_up_or_down, float_up.
  (* Nothing moves up: the parent is not smaller. *)
  assert (Hdown : (i = 1%nat ∨ prio_at h i ≤ prio_at h (i / 2)%nat) →
    let r := float_down h i in rearranged h r ∧ heap_order (prio_at r) (h_n r)).
  { intros Hp. destruct (float_down_loop_spec (h_n h) h i 1 Hw ltac:(lia) ltac:(lia)) as [Hr Hord].
    - intros k Hk Hb. destruct (decide (k = i)) as [->|Hne].
      + destruct Hp; [lia|done].
      + apply Ho; cbv beta in *; lia.
    - intros _. done.
    - split; [done|]. intros k Hk. apply Hord; [done|]. lia. }
  assert (∃ i', i = S i') as [i' Hi'] by (exists (pred i); lia). cbv zeta.
  replace (float_up_loop i h i false) with (float_up_loop (S i') h i false) by (by rewrite Hi').
  cbn [float_up_loop].
  destruct (decide (1 < i)%nat) as [H1|H1]; [|apply Hdown; lia]. unfold heap_parent__.
  destruct (Z.leb_spec (prio_at h i) (prio_at h (i / 2)%nat)) as [Hle|Hlt];
    [by apply Hdown; right|].
  pose proof (swap_rearranged h (i / 2) i Hw ltac:(lia) Hi ltac:(lia)) as Hr.
  destruct (up_step (prio_at h) (h_n h) i ltac:(lia) Ho Hg Hlt) as [Ho' Hg'].
  pose proof (float_up_loop_moved i' (swap_nodes h (i / 2) i) (i / 2)) as Hmv.
  destruct (float_up_loop_spec i' (swap_nodes h (i / 2) i) (i / 2)%nat true) as [Hr' Hord];
    [apply Hr|rewrite (ra_n _ _ Hr); lia|lia| | |].
  - intros k Hk Hb. rewrite !prio_at_swap by lia. by apply Ho'.
  - intros k H2 Hk Hn. rewrite !prio_at_swap by lia. by apply Hg'.
  - destruct (float_up_loop _ _ _ _) as [r b]. simpl in Hmv. subst b. simpl in *.
    split; [by eapply rearranged_trans|done].
Qed.

Lemma heap_rebuild_loop_spec h i :
  heap_wf h → (i ≤ h_n h)%nat →
  order_but (λ k, (k / 2 ≤ i)%nat) (prio_at h) (h_n h) →
  let r := rebuild_loop i h in rearranged h r ∧ heap_order (prio_at r) (h_n r).
Proof.
  revert h. induction i as [|i IH]; intros h Hw Hn Ho; simpl.
  - split; [by apply rearranged_refl|]. intros k Hk. apply Ho; [done|]. lia.
  - destruct (float_down_loop_spec (h_n h) h (S i) (S i) Hw ltac:(lia) ltac:(lia)) as [Hr Hord].
    + intros k Hk Hb. apply Ho; [done|]. lia.
    + intros H. lia.
    + destruct (IH (float_down h (S i))) as [Hr' Hord'].
      * apply Hr.
      * unfold float_down. rewrite (ra_n _ _ Hr). lia.
      * intros k Hk Hb. apply Hord; [done|]. lia.
      * split; [by eapply rearranged_trans|done].
Qed.

(** ** Theorems *)

Definition heap_ok (h : heap) : Prop := heap_wf h ∧ heap_order (prio_at h) (h_n h).

Lemma heap_init_ok nodes : heap_ok (heap_init nodes).
Proof. split; [split; simpl; intros; lia|]. intros i Hi. simpl in Hi. lia. Qed.

Lemma in_heap_idx h x : heap_wf h → in_heap h x → (1 ≤ node_idx h x ≤ h_n h)%nat ∧ node_at h (node_idx h x) = x.
Proof. intros Hw (i & Hi & <-). by rewrite (hw_idx h Hw i Hi). Qed.

Lemma raw_change_facts h x p :
  node_prio (heap_raw_change h x p) x = p
  ∧ (∀ y, y ≠ x → node_prio (heap_raw_change h x p) y = node_prio h y)
  ∧ (∀ y, node_idx (heap_raw_change h x p) y = node_idx h y).
Proof.
  unfold node_prio, node_idx, heap_raw_change. simpl. split_and!.
  - by rewrite lookup_insert_eq.
  - intros y Hy. by rewrite lookup_insert_ne.
  - intros y. rewrite lookup_insert. case_decide as E; [|done]. by subst.
Qed.

Lemma raw_change_wf h x p : heap_wf h → heap_wf (heap_raw_change h x p).
Proof.
  intros Hw. destruct (raw_change_facts h x p) as (_ & _ & Hidx). split; try apply Hw.
  - intros i Hi. simpl. rewrite lookup_insert. case_decide; [done|by apply Hw].
  - intros i Hi. rewrite Hidx. by apply Hw.
Qed.

Lemma raw_insert_spec h x p :
  heap_wf h → ¬ in_heap h x →
  let r := heap_raw_insert h x p in
  heap_wf r ∧ h_n r = S (h_n h) ∧ node_idx r x = S (h_n h) ∧ node_prio r x = p
  ∧ (∀ i, (1 ≤ i ≤ h_n h)%nat → node_at r i = node_at h i) ∧ node_at r (S (h_n h)) = x
  ∧ (∀ y, y ≠ x → node_prio r y = node_prio h y).
Proof.
  intros Hw Hnin. unfold heap_raw_insert.
  set (h0 := if decide _ then _ else h).
  assert (H0 : h_array h0 = h_array h ∧ h_n h0 = h_n h ∧ h_nodes h0 = h_nodes h
    ∧ (S (h_n h) ≤ h_allocated h0)%nat).
  { unfold h0. pose proof (hw_alloc h Hw). repeat case_decide; simpl; split_and!; try done; lia. }
  clearbody h0. destruct h0 as [ar n al nd]. simpl in H0. destruct H0 as (-> & -> & -> & Hal). simpl.
  set (h1 := Heap (h_array h) (S (h_n h)) al (h_nodes h)).
  destruct (raw_change_facts (put_node h1 x (S (h_n h))) x p) as (Hpx & Hpy & Hidx).
  assert (Hat : ∀ i, node_at (heap_raw_change (put_node h1 x (S (h_n h))) x p) i =
    if decide (i = S (h_n h)) then x else node_at h i) by (intros i; exact (node_at_put h1 x (S (h_n h)) i)).
  assert (Hne : ∀ i, (1 ≤ i ≤ h_n h)%nat → node_at h i ≠ x).
  { intros i Hi E. apply Hnin. by exists i. }
  split_and!; [|done| |done| | |].
  - apply raw_change_wf. split; simpl.
    + intros i Hi. rewrite lookup_insert. case_decide; [done|]. apply Hw. lia.
    + intros i Hi. rewrite node_at_put, lookup_insert.
      repeat case_decide; try done. apply (hw_nodes h Hw). lia.
    + intros i Hi. rewrite node_at_put, node_idx_put.
      change (node_at h1 i) with (node_at h i). change (node_idx h1) with (node_idx h).
      destruct (decide (i = S (h_n h))) as [->|Hni]; [by rewrite decide_True|].
      rewrite decide_False by (apply Hne; lia). apply Hw. lia.
    + done.
  - rewrite Hidx, node_idx_put. by rewrite decide_True.
  - intros i Hi. rewrite Hat. by rewrite decide_False by lia.
  - rewrite Hat. by rewrite decide_True.
  - intros y Hy. rewrite Hpy by done. exact (node_prio_put h1 x (S (h_n h)) y).
Qed.

Lemma heap_insert_spec h x p :
  heap_ok h → ¬ in_heap h x →
  let r := heap_insert h x p in
  heap_ok r ∧ (∀ y, in_heap r y ↔ y = x ∨ in_heap h y)
  ∧ node_prio r x = p ∧ (∀ y, y ≠ x → node_prio r y = node_prio h y).
Proof.
  intros [Hw Ho] Hnin. unfold heap_insert.
  destruct (raw_insert_spec h x p Hw Hnin) as (Hw' & Hn & Hidx & Hpx & Hat & Hatx & Hpy).
  set (r := heap_raw_insert h x p) in *. rewrite Hidx.
  assert (Hk : ∀ i, (1 ≤ i ≤ h_n h)%nat → prio_at r i = prio_at h i).
  { intros i Hi. unfold prio_at. rewrite Hat, Hpy; [done| |done].
    intros E. apply Hnin. by exists i. }
  destruct (float_up_loop_spec (S (h_n h)) r (S (h_n h)) false Hw') as [[W N I P] Hord]; try lia.
  - intros k Hkn Hb. rewrite Hn in Hkn. rewrite !Hk by lia. apply Ho. lia.
  - intros k H2 Hkk Hkn. lia.
  - unfold float_up. split_and!; [by split| | |].
    + intros y. rewrite I. unfold in_heap. rewrite Hn. split.
      * intros (i & Hi & <-). destruct (decide (i = S (h_n h))) as [->|Hne]; [by left|].
        right. exists i. split; [lia|]. symmetry. apply Hat. lia.
      * intros [->|(i & Hi & <-)]; [exists (S (h_n h)); split; [lia|done]|].
        exists i. split; [lia|]. apply Hat. lia.
    + by rewrite P.
    + intros y Hy. rewrite P. by apply Hpy.
Qed.

Lemma heap_change_spec h x p :
  heap_ok h → in_heap h x →
  let r := heap_change h x p in
  heap_ok r ∧ (∀ y, in_heap r y ↔ in_heap h y)
  ∧ node_prio r x = p ∧ (∀ y, y ≠ x → node_prio r y = node_prio h y).
Proof.
  intros [Hw Ho] Hin. unfold heap_change.
  destruct (raw_change_facts h x p) as (Hpx & Hpy & Hidx).
  pose proof (raw_change_wf h x p Hw) as Hw'. rewrite Hidx.
  destruct (in_heap_idx h x Hw Hin) as [Hi Hat].
  set (r := heap_raw_change h x p) in *.
  assert (Hk : ∀ i, (1 ≤ i ≤ h_n h)%nat → i ≠ node_idx h x → prio_at r i = prio_at h i).
  { intros i Hi2 Hne. unfold prio_at. change (node_at r i) with (node_at h i). apply Hpy.
    intros E. apply Hne. rewrite <- (hw_idx h Hw i Hi2). by rewrite E. }
  destruct (float_up_or_down_spec r (node_idx h x) Hw' Hi) as [[W N I P] Hord].
  - intros k Hkn Hb. change (h_n r) with (h_n h) in Hkn. rewrite !Hk by (cbv beta in *; lia). by apply Ho.
  - intros j H2 Hj Hjn. change (h_n r) with (h_n h) in Hjn. rewrite !Hk by lia.
    rewrite (Ho j ltac:(lia)), Hj. apply Ho. lia.
  - split_and!; [by split| |by rewrite P|].
    + intros y. by rewrite I.
    + intros y Hy. rewrite P. by apply Hpy.
Qed.

Lemma raw_remove_at h x k :
  (1 ≤ k ≤ h_n h - 1)%nat →
  node_at (heap_raw_remove h x) k = if decide (k = node_idx h x) then node_at h (h_n h) else node_at h k.
Proof.
  intros Hk. unfold heap_raw_remove.
  destruct (decide (node_idx h x < h_n h)%nat) as [Hlt|Hge].
  - exact (node_at_put h (node_at h (h_n h)) (node_idx h x) k).
  - rewrite decide_False by lia. done.
Qed.

Lemma raw_remove_prio h x y : node_prio (heap_raw_remove h x) y = node_prio h y.
Proof. unfold heap_raw_remove. case_decide; [|done]. exact (node_prio_put h _ _ y). Qed.

Lemma raw_remove_n h x : h_n (heap_raw_remove h x) = (h_n h - 1)%nat.
Proof. unfold heap_raw_remove. by case_decide. Qed.

Lemma raw_remove_in h x y :
  heap_wf h → in_heap h x → in_heap (heap_raw_remove h x) y ↔ y ≠ x ∧ in_heap h y.
Proof.
  intros Hw Hin. destruct (in_heap_idx h x Hw Hin) as [Hi Hat]. unfold in_heap at 1.
  rewrite raw_remove_n. split.
  - intros (k & Hk & <-). rewrite raw_remove_at by done. case_decide as E.
    + split; [|exists (h_n h); split; [lia|done]].
      intros E'. rewrite <- Hat in E'. apply node_at_inj in E'; [lia|done|lia|done].
    + split; [|exists k; split; [lia|done]].
      intros E'. rewrite <- Hat in E'. apply node_at_inj in E'; [lia|done|lia|done].
  - intros [Hne (k & Hk & <-)]. destruct (decide (k = h_n h)) as [->|Hkn].
    + assert (node_idx h x ≠ h_n h) by (intros E; apply Hne; by rewrite <- E).
      exists (node_idx h x). split; [lia|]. rewrite raw_remove_at by lia. by rewrite decide_True.
    + exists k. split; [lia|]. rewrite raw_remove_at by lia. rewrite decide_False; [done|].
      intros ->. done.
Qed.

Lemma raw_remove_wf h x : heap_wf h → in_heap h x → heap_wf (heap_raw_remove h x).
Proof.
  intros Hw Hin. destruct (in_heap_idx h x Hw Hin) as [Hi Hat].
  assert (Hidx : ∀ y, node_idx (heap_raw_remove h x) y =
    if decide (node_idx h x < h_n h)%nat
    then if decide (y = node_at h (h_n h)) then node_idx h x else node_idx h y
    else node_idx h y).
  { intros y. unfold heap_raw_remove. case_decide; [|done].
    exact (node_idx_put h (node_at h (h_n h)) (node_idx h x) y). }
  split; try rewrite raw_remove_n.
  - intros i Hir. unfold heap_raw_remove. case_decide; simpl; [|apply Hw; lia].
    rewrite lookup_insert. case_decide; [done|]. apply Hw. lia.
  - intros i Hir. rewrite raw_remove_at by done. unfold heap_raw_remove.
    assert (is_Some (h_nodes h !! node_at h i)) by (apply Hw; lia).
    assert (is_Some (h_nodes h !! node_at h (h_n h))) by (apply Hw; lia).
    repeat case_decide; simpl; rewrite ?lookup_insert; repeat case_decide; done.
  - intros i Hir. rewrite raw_remove_at, Hidx by done.
    destruct (decide (i = node_idx h x)) as [E|E].
    + rewrite !decide_True by (done || lia). done.
    + assert (node_idx h (node_at h i) = i) as E2 by (apply Hw; lia).
      case_decide; [|done]. case_decide as E1; [|done].
      apply node_at_inj in E1; [lia|done|lia|lia].
  - pose proof (hw_alloc h Hw). unfold heap_raw_remove. case_decide; simpl; lia.
Qed.

Lemma heap_remove_spec h x :
  heap_ok h → in_heap h x →
  let r := heap_remove h x in
  heap_ok r ∧ (∀ y, in_heap r y ↔ y ≠ x ∧ in_heap h y) ∧ (∀ y, node_prio r y = node_prio h y).
Proof.
  intros [Hw Ho] Hin. unfold heap_remove.
  destruct (in_heap_idx h x Hw Hin) as [Hi Hat].
  pose proof (raw_remove_wf h x Hw Hin) as Hw'. pose proof (raw_remove_n h x) as Hn.
  pose proof (λ y, raw_remove_in h x y Hw Hin) as HI. pose proof (raw_remove_prio h x) as HP.
  assert (Hk : ∀ k, (1 ≤ k ≤ h_n h - 1)%nat → k ≠ node_idx h x →
    prio_at (heap_raw_remove h x) k = prio_at h k).
  { intros k Hkr Hne. unfold prio_at. rewrite HP, raw_remove_at by done. by rewrite decide_False. }
  set (r := heap_raw_remove h x) in *. cbv zeta. case_decide as Hle.
  - destruct (float_up_or_down_spec r (node_idx h x) Hw' ltac:(lia)) as [[W N I P] Hord].
    + intros k Hkn Hb. rewrite !Hk by (cbv beta in *; lia). apply Ho. lia.
    + intros j H2 Hj Hjn. rewrite !Hk by lia. rewrite (Ho j ltac:(lia)), Hj. apply Ho. lia.
    + split_and!; [by split| |].
      * intros y. by rewrite I.
      * intros y. by rewrite P.
  - split_and!; [|done|done]. split; [done|].
    intros k Hkn. rewrite !Hk by lia. apply Ho. lia.
Qed.

Lemma heap_order_root key n i : heap_order key n → (1 ≤ i ≤ n)%nat → key i ≤ key 1%nat.
Proof.
  intros Ho. induction i as [i IH] using lt_wf_ind. intros Hi.
  destruct (decide (i = 1%nat)) as [->|Hne]; [done|].
  transitivity (key (i / 2)%nat); [apply Ho; lia|apply IH; lia].
Qed.

Lemma heap_max_spec h :
  heap_ok h → (0 < h_n h)%nat →
  in_heap h (heap_max h) ∧ ∀ y, in_heap h y → node_prio h y ≤ node_prio h (heap_max h).
Proof.
  intros [Hw Ho] Hn. split; [exists 1%nat; split; [lia|done]|].
  intros y (i & Hi & <-). by apply (heap_order_root (prio_at h) (h_n h) i Ho).
Qed.

Definition heap_members (h : heap) : list Z := node_at h <$> seq 1 (h_n h).

Lemma elem_of_heap_members h x : x ∈ heap_members h ↔ in_heap h x.
Proof.
  unfold heap_members, in_heap. rewrite list_elem_of_fmap. split.
  - intros (i & -> & Hi%elem_of_seq). exists i. split; [lia|done].
  - intros (i & Hi & <-). exists i. split; [done|]. apply elem_of_seq. lia.
Qed.

Lemma heap_members_NoDup h : heap_wf h → NoDup (heap_members h).
Proof.
  intros Hw. apply NoDup_fmap_2_strong; [|apply NoDup_seq].
  intros i j Hi%elem_of_seq Hj%elem_of_seq E. apply (node_at_inj h i j Hw); [lia|lia|done].
Qed.

Lemma for_each_from_spec fuel h i :
  heap_wf h → (1 ≤ i)%nat → (i + fuel = S (h_n h))%nat →
  for_each_from fuel h (node_at h i) = node_at h <$> seq i fuel.
Proof.
  intros Hw. revert i. induction fuel as [|fuel IH]; intros i Hi Hf; [done|]. simpl.
  rewrite (hw_idx h Hw) by lia. f_equal. case_decide as Hlt.
  - rewrite Nat.add_1_r. apply IH; lia.
  - by replace fuel with O by lia.
Qed.

Lemma heap_for_each_spec h : heap_wf h → heap_for_each h = heap_members h.
Proof.
  intros Hw. unfold heap_for_each, heap_members. case_decide as Hn.
  - apply for_each_from_spec; [done|lia|lia].
  - by replace (h_n h) with O by lia.
Qed.

(** Any sequence of insertions, changes, removals and pops through the
    ordered interface. *)
Inductive heap_step : heap → heap → Prop :=
| hs_insert h x p : ¬ in_heap h x → heap_step h (heap_insert h x p)
| hs_change h x p : in_heap h x → heap_step h (heap_change h x p)
| hs_remove h x : in_heap h x → heap_step h (heap_remove h x)
| hs_pop h : heap_is_empty h = false → heap_step h (heap_pop h).1
| hs_clear h : heap_step h (heap_clear h).

Lemma truncate_ok h n :
  heap_ok h → (n ≤ h_n h)%nat → heap_ok (Heap (h_array h) n (h_allocated h) (h_nodes h)).
Proof.
  intros [Hw Ho] Hn. split.
  - split; simpl.
    + intros i Hi. apply Hw. lia.
    + intros i Hi. apply (hw_nodes h Hw). lia.
    + intros i Hi. apply (hw_idx h Hw). lia.
    + pose proof (hw_alloc h Hw). lia.
  - intros i Hi. simpl in Hi. apply (Ho i). lia.
Qed.

Lemma heap_step_ok h h' : heap_ok h → heap_step h h' → heap_ok h'.
Proof.
  intros Hok. destruct 1.
  - by apply heap_insert_spec.
  - by apply heap_change_spec.
  - by apply heap_remove_spec.
  - apply truncate_ok; [done|lia].
  - apply truncate_ok; [done|lia].
Qed.

Lemma heap_steps_ok h h' : heap_ok h → rtc heap_step h h' → heap_ok h'.
Proof. intros Hok Hs. induction Hs; [done|]. eauto using heap_step_ok. Qed.

(** After any sequence of [heap_insert], [heap_change], [heap_remove],
    [heap_pop] and [heap_clear] on an initially empty heap, [heap_max] of a
    nonempty heap is one of its nodes and no node has a larger priority, and
    HEAP_FOR_EACH visits each node of the heap exactly once. *)
Theorem heap_max_correct nodes h :
  rtc heap_step (heap_init nodes) h →
  (heap_is_empty h = false →
    in_heap h (heap_max h) ∧ ∀ y, in_heap h y → node_prio h y ≤ node_prio h (heap_max h))
  ∧ NoDup (heap_for_each h) ∧ ∀ y, y ∈ heap_for_each h ↔ in_heap h y.
Proof.
  intros Hs. assert (Hok : heap_ok h) by (eapply heap_steps_ok; [apply heap_init_ok|exact Hs]).
  split; [intros Hne%bool_decide_eq_false; apply heap_max_spec; [done|lia]|].
  rewrite heap_for_each_spec by apply Hok. split; [apply heap_members_NoDup, Hok|].
  intros y. apply elem_of_heap_members.
Qed.

(** C32: On every heap reached through the ordered interface, [heap_insert]
    adds exactly the new node with its priority, [heap_change] sets exactly
    one priority, and [heap_remove] takes out exactly the given node wherever
    it is; every other node and priority stays, the array and the nodes'
    recorded indices keep agreeing, and the heap order holds again. *)
Theorem heap_update_correct nodes h x p :
  rtc heap_step (heap_init nodes) h →
  (¬ in_heap h x →
    let r := heap_insert h x p in
    heap_wf r ∧ heap_order (prio_at r) (h_n r)
    ∧ (∀ y, in_heap r y ↔ y = x ∨ in_heap h y)
    ∧ (∀ y, node_prio r y = if decide (y = x) then p else node_prio h y))
  ∧ (in_heap h x →
    let r := heap_change h x p in
    heap_wf r ∧ heap_order (prio_at r) (h_n r)
    ∧ (∀ y, in_heap r y ↔ in_heap h y)
    ∧ (∀ y, node_prio r y = if decide (y = x) then p else node_prio h y))
  ∧ (in_heap h x →
    let r := heap_remove h x in
    heap_wf r ∧ heap_order (prio_at r) (h_n r)
    ∧ (∀ y, in_heap r y ↔ y ≠ x ∧ in_heap h y)
    ∧ (∀ y, node_prio r y = node_prio h y)).
Proof.
  intros Hs. assert (Hok : heap_ok h) by (eapply heap_steps_ok; [apply heap_init_ok|exact Hs]).
  split_and!; intros Hx.
  - destruct (heap_insert_spec h x p Hok Hx) as ([] & HI & Hp & Hq). split_and!; [done..|].
    intros y. case_decide; [by subst|auto].
  - destruct (heap_change_spec h x p Hok Hx) as ([] & HI & Hp & Hq). split_and!; [done..|].
    intros y. case_decide; [by subst|auto].
  - destruct (heap_remove_spec h x Hok Hx) as ([] & HI & Hp). by split_and!.
Qed.

(** [heap_rebuild] turns any well-formed array, such as one built with
    the raw operations that do not maintain the order, into a heap with the
    same nodes and priorities. *)
Theorem heap_rebuild_correct h :
  heap_wf h →
  let r := heap_rebuild h in
  heap_wf r ∧ heap_order (prio_at r) (h_n r) ∧ h_n r = h_n h
  ∧ (∀ y, in_heap r y ↔ in_heap h y) ∧ (∀ y, node_prio r y = node_prio h y).
Proof.
  intros Hw. destruct (heap_rebuild_loop_spec h (h_n h / 2) Hw) as [[W N I P] Ho]; [lia| |].
  - intros k Hk Hb. lia.
  - by split_and!.
Qed.

(** ** Examples *)

Lemma in_heap_example h x : bool_decide (x ∈ heap_members h) = true → in_heap h x.
Proof. intros ?%bool_decide_eq_true. by apply elem_of_heap_members. Qed.

Lemma not_in_heap_example h x : bool_decide (x ∈ heap_members h) = false → ¬ in_heap h x.
Proof. intros Hb%bool_decide_eq_false. by rewrite <- elem_of_heap_members. Qed.

Definition ex_heap0 : heap := heap_init ∅.
Definition ex_heap : heap := heap_insert (heap_insert (heap_insert ex_heap0 10 5) 11 9) 12 7.

Lemma ex_heap_reached : rtc heap_step (heap_init ∅) ex_heap.
Proof.
  unfold ex_heap, ex_heap0.
  eapply rtc_l; [apply (hs_insert _ 10 5), not_in_heap_example; vm_compute; done|].
  eapply rtc_l; [apply (hs_insert _ 11 9), not_in_heap_example; vm_compute; done|].
  eapply rtc_l; [apply (hs_insert _ 12 7), not_in_heap_example; vm_compute; done|].
  apply rtc_refl.
Qed.

Lemma heap_max_correct_witness :
  heap_max ex_heap = 11 ∧ node_prio ex_heap 12 ≤ node_prio ex_heap (heap_max ex_heap)
  ∧ heap_for_each ex_heap = [11; 10; 12].
Proof.
  split; [vm_compute; done|]. split; [|vm_compute; done].
  apply (heap_max_correct ∅ ex_heap ex_heap_reached); [vm_compute; done|].
  apply in_heap_example. vm_compute. done.
Defined.

Lemma heap_update_correct_witness :
  in_heap ex_heap 11 ∧ ¬ in_heap (heap_remove ex_heap 11) 11 ∧ heap_max (heap_change ex_heap 11 1) = 12.
Proof.
  assert (Hin : in_heap ex_heap 11) by (apply in_heap_example; vm_compute; done).
  split; [done|]. split; [|vm_compute; done].
  destruct (heap_update_correct ∅ ex_heap 11 1 ex_heap_reached) as (_ & _ & Hr).
  destruct (Hr Hin) as (_ & _ & HI & _). intros [Hne _]%HI. done.
Defined.

Definition ex_raw : heap := heap_raw_insert (heap_raw_insert ex_heap0 10 5) 11 9.

Lemma ex_raw_wf : heap_wf ex_raw.
Proof.
  unfold ex_raw. apply raw_insert_spec; [apply raw_insert_spec|];
    [apply heap_init_ok|apply not_in_heap_example; vm_compute; done..].
Qed.

Lemma heap_rebuild_correct_witness :
  heap_max ex_raw = 10 ∧ in_heap (heap_rebuild ex_raw) 11 ∧ heap_max (heap_rebuild ex_raw) = 11.
Proof.
  split; [vm_compute; done|]. split; [|vm_compute; done].
  destruct (heap_rebuild_correct ex_raw ex_raw_wf) as (_ & _ & _ & HI & _). apply HI.
  apply in_heap_example. vm_compute. done.
Defined.
