(* ===== verification/Bitmap.v ===== *)
(** * Bitmaps (lib/bitmap.h, lib/bitmap.c, lib/vlan-bitmap.h, lib/vlan-bitmap.c)

    A bitmap is an array of 64-bit [unsigned long]s.  Offsets are [size_t]
    values, natural numbers here; an access beyond the array is an
    out-of-bounds access in C, which [bitmap_wf] and a bound on the offset
    exclude.  A VLAN bitmap is a 4096-bit bitmap or a null pointer. *)
From S2P Require Import Prelude Util.
From Stdlib Require Import ZifyNat.

#[local] Arguments Nat.div : simpl never.
#[local] Arguments Nat.modulo : simpl never.
#[local] Ltac Zify.zify_post_hook ::= Z.div_mod_to_equations.

Notation bitmap := (list Z) (only parsing).

Definition BITMAP_ULONG_BITS : nat := 64.

Definition bitmap_unit__ (bm : bitmap) (offset : nat) : Z :=
  default 0 (bm !! (offset / BITMAP_ULONG_BITS)%nat).

Definition bitmap_bit__ (offset : nat) : Z :=
  Z.shiftl 1 (Z.of_nat (offset mod BITMAP_ULONG_BITS)).

Definition bitmap_n_longs (n_bits : nat) : nat :=
  ((n_bits + BITMAP_ULONG_BITS - 1) / BITMAP_ULONG_BITS)%nat.

Definition bitmap_n_bytes (n_bits : nat) : nat := (bitmap_n_longs n_bits * 8)%nat.

Definition bitmap_allocate (n_bits : nat) : bitmap := replicate (bitmap_n_longs n_bits) 0.

Definition bitmap_allocate1 (n_bits : nat) : bitmap :=
  let n_longs := bitmap_n_longs n_bits in
  let r_bits := (n_bits mod BITMAP_ULONG_BITS)%nat in
  let bm := replicate n_longs (2 ^ 64 - 1) in
  if decide (r_bits = 0%nat) then bm
  else <[(n_longs - 1)%nat := Z.shiftl 1 (Z.of_nat r_bits) - 1]> bm.

Definition bitmap_clone (bm : bitmap) (n_bits : nat) : bitmap := take (bitmap_n_longs n_bits) bm.

Definition bitmap_is_set (bm : bitmap) (offset : nat) : bool :=
  negb (Z.land (bitmap_unit__ bm offset) (bitmap_bit__ offset) =? 0).

Definition bitmap_set1 (bm : bitmap) (offset : nat) : bitmap :=
  alter (λ w, Z.lor w (bitmap_bit__ offset)) (offset / BITMAP_ULONG_BITS)%nat bm.

Definition bitmap_set0 (bm : bitmap) (offset : nat) : bitmap :=
  alter (λ w, Z.land w (u64 (Z.lnot (bitmap_bit__ offset)))) (offset / BITMAP_ULONG_BITS)%nat bm.

Definition bitmap_set (bm : bitmap) (offset : nat) (value : bool) : bitmap :=
  if value then bitmap_set1 bm offset else bitmap_set0 bm offset.

(** The three loops of [bitmap_set_multiple]: single bits up to a word
    boundary, whole words, and the remaining bits. *)
Fixpoint set_head (count : nat) (bm : bitmap) (start : nat) (value : bool) : bitmap * nat * nat :=
  match count with
  | O => (bm, start, O)
  | S c =>
      if decide ((start mod BITMAP_ULONG_BITS)%nat = 0%nat) then (bm, start, count)
      else set_head c (bitmap_set bm start value) (S start) value
  end.

Fixpoint set_words (fuel : nat) (bm : bitmap) (start count : nat) (value : bool)
    : bitmap * nat * nat :=
  match fuel with
  | O => (bm, start, count)
  | S fuel =>
      if decide (BITMAP_ULONG_BITS ≤ count)%nat then
        set_words fuel
          (<[(start / BITMAP_ULONG_BITS)%nat := u64 (- Z.b2z value)]> bm)
          (start + BITMAP_ULONG_BITS) (count - BITMAP_ULONG_BITS) value
      else (bm, start, count)
  end.

Fixpoint set_tail (count : nat) (bm : bitmap) (start : nat) (value : bool) : bitmap :=
  match count with
  | O => bm
  | S c => set_tail c (bitmap_set bm start value) (S start) value
  end.

Definition bitmap_set_multiple (bm : bitmap) (start count : nat) (value : bool) : bitmap :=
  let '(bm, start, count) := set_head count bm start value in
  let '(bm, start, count) := set_words count bm start count value in
  set_tail count bm start value.

Definition bitmap_equal (a b : bitmap) (n : nat) : bool :=
  let words := (n / BITMAP_ULONG_BITS)%nat in
  bool_decide (take words a = take words b)
  && forallb (λ i, eqb (bitmap_is_set a i) (bitmap_is_set b i))
       (seq (words * BITMAP_ULONG_BITS) (n - words * BITMAP_ULONG_BITS)).

Fixpoint scan_loop (fuel : nat) (bm : bitmap) (i stop : nat) : nat :=
  match fuel with
  | O => i
  | S fuel =>
      if decide (i < stop)%nat then
        if bitmap_is_set bm i then i else scan_loop fuel bm (S i) stop
      else i
  end.

Definition bitmap_scan (bm : bitmap) (start stop : nat) : nat := scan_loop (stop - start) bm start stop.

(** BITMAP_FOR_EACH_1: the offsets visited; at most [size] of them. *)
Fixpoint for_each_1_from (fuel : nat) (bm : bitmap) (idx size : nat) : list nat :=
  match fuel with
  | O => []
  | S fuel =>
      if decide (idx < size)%nat
      then idx :: for_each_1_from fuel bm (bitmap_scan bm (idx + 1) size) size else []
  end.

Definition bitmap_for_each_1 (size : nat) (bm : bitmap) : list nat :=
  for_each_1_from size bm (bitmap_scan bm 0 size) size.

(** The size of a VLAN bitmap. *)
Definition VLAN_BITS : nat := Z.to_nat 4096.

(** A null VLAN bitmap is [None]. *)
Definition vlan_bitmap_from_array__ (vlans : list Z) (b : bitmap) : Z * bitmap :=
  foldl (λ '(n, b) vlan,
      if (0 <=? vlan) && (vlan <? 4096) && negb (bitmap_is_set b (Z.to_nat vlan))
      then (n + 1, bitmap_set1 b (Z.to_nat vlan)) else (n, b))
    (0, b) vlans.

Definition vlan_bitmap_from_array (vlans : list Z) : option bitmap :=
  if decide (vlans = []) then None
  else
    let '(n, b) := vlan_bitmap_from_array__ vlans (bitmap_allocate VLAN_BITS) in
    if n =? 0 then None else Some b.

Definition vlan_bitmap_clone (vlans : option bitmap) : option bitmap :=
  match vlans with Some b => Some (bitmap_clone b VLAN_BITS) | None => None end.

Definition vlan_bitmap_equal (a b : option bitmap) : bool :=
  match a, b with
  | None, None => true
  | Some a, Some b => bitmap_equal a b VLAN_BITS
  | _, _ => false
  end.

(** ** Single bits *)

(** Room for [n] bits, in words of the right width. *)
Definition bitmap_wf (n : nat) (bm : bitmap) : Prop :=
  length bm = bitmap_n_longs n ∧ Forall is_u64 bm.

Section bits.
Implicit Types (bm : bitmap) (i n start count : nat).

Lemma n_longs_bound n i : (i < n)%nat → (i / 64 < bitmap_n_longs n)%nat.
Proof. unfold bitmap_n_longs, BITMAP_ULONG_BITS. intros. lia. Qed.

Lemma is_set_testbit bm i :
  bitmap_is_set bm i = Z.testbit (default 0 (bm !! (i / 64)%nat)) (Z.of_nat (i mod 64)).
Proof.
  unfold bitmap_is_set, bitmap_bit__, bitmap_unit__, BITMAP_ULONG_BITS.
  rewrite testbit_of_land_pow2 by lia. by rewrite negb_involutive.
Qed.

Lemma unit_u64 n bm k w : bitmap_wf n bm → bm !! k = Some w → is_u64 w.
Proof. intros [_ Hf] Hk. by eapply (Forall_lookup_1 _ _ _ _ Hf). Qed.

(** Replacing word [start / 64] by [f] of it. *)
Lemma alter_wf n bm k (f : Z → Z) :
  (∀ w, is_u64 w → is_u64 (f w)) → bitmap_wf n bm → bitmap_wf n (alter f k bm).
Proof.
  intros Hf [Hl Hw]. split; [by rewrite length_alter|].
  apply Forall_alter; [done|]. intros w Hk Hu. auto.
Qed.

Lemma bit_u64 i : is_u64 (bitmap_bit__ i).
Proof.
  unfold bitmap_bit__, BITMAP_ULONG_BITS. rewrite Z.shiftl_1_l. split; [lia|].
  apply Z.pow_lt_mono_r; lia.
Qed.

Lemma bitmap_set_wf n bm i v : bitmap_wf n bm → bitmap_wf n (bitmap_set bm i v).
Proof.
  intros. unfold bitmap_set, bitmap_set1, bitmap_set0.
  destruct v; apply alter_wf; try done; intros w Hw.
  - apply lor_in_width; [lia|done|apply bit_u64].
  - apply land_in_width; [lia|done].
Qed.

Lemma word_get n bm i :
  bitmap_wf n bm → (i < n)%nat → ∃ w, bm !! (i / 64)%nat = Some w ∧ is_u64 w.
Proof.
  intros Hw Hi. destruct (lookup_lt_is_Some_2 bm (i / 64)) as [w Hl].
  - destruct Hw as [-> _]. by apply n_longs_bound.
  - exists w. split; [done|by eapply unit_u64].
Qed.

(** A bit is determined by its word and its position in the word. *)
Lemma same_bit i j : (i / 64 = j / 64)%nat → (i mod 64 = j mod 64)%nat → i = j.
Proof. lia. Qed.

Lemma is_set_set n bm i j v :
  bitmap_wf n bm → (i < n)%nat →
  bitmap_is_set (bitmap_set bm i v) j = if decide (j = i) then v else bitmap_is_set bm j.
Proof.
  intros Hw Hi. destruct (word_get n bm i Hw Hi) as (w & Hl & Hu).
  rewrite !is_set_testbit. unfold bitmap_set, bitmap_set1, bitmap_set0, bitmap_bit__, BITMAP_ULONG_BITS.
  destruct (decide (j / 64 = i / 64)%nat) as [E|E].
  - rewrite E. assert (Hj : (j mod 64 < 64)%nat) by lia. assert (Hi' : (i mod 64 < 64)%nat) by lia.
    rewrite Z.shiftl_1_l. set (k := Z.of_nat (i mod 64)).
    assert (Hb : Z.testbit (2 ^ k) (Z.of_nat (j mod 64)) = bool_decide (j = i)).
    { destruct (decide (j = i)) as [->|Hne].
      - rewrite bool_decide_true by done. apply Z.pow2_bits_true. lia.
      - rewrite bool_decide_false by done. apply Z.pow2_bits_false.
        unfold k. intros E2. apply Hne, same_bit; lia. }
    assert (Hn : Z.testbit (u64 (Z.lnot (2 ^ k))) (Z.of_nat (j mod 64)) = negb (bool_decide (j = i))).
    { rewrite testbit_wrap by lia. rewrite (proj2 (Z.ltb_lt _ _)) by lia.
      rewrite Z.lnot_spec by lia. by rewrite Hb. }
    destruct v; rewrite list_lookup_alter_eq, Hl; simpl.
    + rewrite Z.lor_spec, Hb. destruct (decide (j = i)) as [Ej|Ej].
      * by rewrite bool_decide_true, orb_true_r.
      * by rewrite bool_decide_false, orb_false_r.
    + rewrite Z.land_spec, Hn. destruct (decide (j = i)) as [Ej|Ej].
      * by rewrite bool_decide_true, andb_false_r.
      * by rewrite bool_decide_false, andb_true_r.
  - rewrite (decide_False (P := j = i)) by (intros ->; done).
    by destruct v; rewrite list_lookup_alter_ne.
Qed.

(** [bm'] is [bm] with the bits from [lo] to [hi] set to [v]. *)
Definition filled n bm lo hi (v : bool) bm' : Prop :=
  bitmap_wf n bm' ∧ ∀ j, bitmap_is_set bm' j = if decide (lo ≤ j < hi)%nat then v else bitmap_is_set bm j.

Lemma filled_refl n bm lo hi v : bitmap_wf n bm → (hi ≤ lo)%nat → filled n bm lo hi v bm.
Proof. intros Hw Hle. split; [done|]. intros j. by rewrite decide_False by lia. Qed.

Lemma filled_trans n bm lo mid hi v bm1 bm2 :
  (lo ≤ mid ≤ hi)%nat → filled n bm lo mid v bm1 → filled n bm1 mid hi v bm2 → filled n bm lo hi v bm2.
Proof.
  intros Hr [_ H1] [Hw H2]. split; [done|]. intros j. rewrite H2, H1.
  repeat case_decide; done || lia.
Qed.

Lemma filled_one n bm i v :
  bitmap_wf n bm → (i < n)%nat → filled n bm i (S i) v (bitmap_set bm i v).
Proof.
  intros Hw Hi. split; [by apply bitmap_set_wf|]. intros j. rewrite (is_set_set n) by done.
  repeat case_decide; done || lia.
Qed.

Lemma set_word_wf n bm k w : bitmap_wf n bm → is_u64 w → bitmap_wf n (<[k := w]> bm).
Proof. intros [Hl Hf] Hw. split; [by rewrite length_insert|]. by apply Forall_insert. Qed.

Lemma filled_word n bm i v :
  bitmap_wf n bm → (i + 64 ≤ n)%nat → (i mod 64 = 0)%nat →
  filled n bm i (i + 64) v (<[(i / 64)%nat := u64 (- Z.b2z v)]> bm).
Proof.
  intros Hw Hi Hm. destruct (word_get n bm i Hw ltac:(lia)) as (w & Hl & Hu).
  split; [apply set_word_wf; [done|]; apply wrap_in_width; lia|].
  intros j. rewrite !is_set_testbit. case_decide as Hr.
  - replace (j / 64)%nat with (i / 64)%nat by lia.
    rewrite list_lookup_insert_eq by (by eapply lookup_lt_Some). simpl.
    rewrite testbit_wrap by lia. rewrite (proj2 (Z.ltb_lt _ _)) by lia.
    destruct v; simpl; [by rewrite Z.bits_m1 by lia|by rewrite Z.bits_0].
  - by rewrite list_lookup_insert_ne by lia.
Qed.

Lemma set_head_spec n count bm start v :
  bitmap_wf n bm → (start + count ≤ n)%nat →
  let '(bm', start', count') := set_head count bm start v in
  filled n bm start start' v bm' ∧ (start ≤ start')%nat
  ∧ (start' + count' = start + count)%nat ∧ (count' = 0 ∨ start' mod 64 = 0)%nat.
Proof.
  revert bm start. induction count as [|c IH]; intros bm start Hw Hn; simpl.
  - split_and!; [by apply filled_refl|lia..].
  - unfold BITMAP_ULONG_BITS. case_decide as Hm.
    + split_and!; [by apply filled_refl|lia..].
    + specialize (IH (bitmap_set bm start v) (S start)).
      destruct (set_head c _ _ _) as [[bm' start'] count'].
      destruct IH as (Hf & ? & ? & ?); [by apply bitmap_set_wf|lia|].
      split_and!; [|lia..]. eapply filled_trans; [|apply filled_one|exact Hf]; (done || lia).
Qed.

Lemma set_words_spec n fuel bm start count v :
  bitmap_wf n bm → (start + count ≤ n)%nat → (count ≤ fuel)%nat →
  (count = 0 ∨ start mod 64 = 0)%nat →
  let '(bm', start', count') := set_words fuel bm start count v in
  filled n bm start start' v bm' ∧ (start ≤ start')%nat ∧ (start' + count' = start + count)%nat.
Proof.
  revert bm start count. induction fuel as [|fuel IH]; intros bm start count Hw Hn Hf Hm; simpl.
  - split_and!; [by apply filled_refl|lia..].
  - unfold BITMAP_ULONG_BITS in *. case_decide as Hc.
    + specialize (IH (<[(start / 64)%nat := u64 (- Z.b2z v)]> bm) (start + 64)%nat (count - 64)%nat).
      destruct (set_words fuel _ _ _ _) as [[bm' start'] count'].
      destruct IH as (Hfl & ? & ?);
        [apply set_word_wf; [done|apply wrap_in_width; lia]|lia|lia|lia|].
      split_and!; [|lia..]. eapply filled_trans; [|apply filled_word|exact Hfl]; (done || lia).
    + split_and!; [by apply filled_refl|lia..].
Qed.

Lemma set_tail_spec n count bm start v :
  bitmap_wf n bm → (start + count ≤ n)%nat →
  filled n bm start (start + count) v (set_tail count bm start v).
Proof.
  revert bm start. induction count as [|c IH]; intros bm start Hw Hn; simpl.
  - apply filled_refl; [done|lia].
  - eapply filled_trans; [|by apply filled_one; [|lia]|].
    + lia.
    + replace (start + S c)%nat with (S start + c)%nat by lia.
      apply IH; [by apply bitmap_set_wf|lia].
Qed.

Lemma set_multiple_spec n bm start count v :
  bitmap_wf n bm → (start + count ≤ n)%nat →
  filled n bm start (start + count) v (bitmap_set_multiple bm start count v).
Proof.
  intros Hw Hn. unfold bitmap_set_multiple.
  pose proof (set_head_spec n count bm start v Hw Hn) as H1.
  destruct (set_head count bm start v) as [[bm1 s1] c1]. destruct H1 as (F1 & ? & ? & ?).
  pose proof (set_words_spec n c1 bm1 s1 c1 v (proj1 F1) ltac:(lia) ltac:(lia) ltac:(lia)) as H2.
  destruct (set_words c1 bm1 s1 c1 v) as [[bm2 s2] c2]. destruct H2 as (F2 & ? & ?).
  pose proof (set_tail_spec n c2 bm2 s2 v (proj1 F2) ltac:(lia)) as F3.
  replace (start + count)%nat with (s2 + c2)%nat by lia.
  eapply filled_trans; [|exact F1|eapply filled_trans; [|exact F2|exact F3]]; lia.
Qed.

(** ** Comparison and scanning *)

Lemma bitmap_equal_spec n a b :
  bitmap_wf n a → bitmap_wf n b →
  bitmap_equal a b n = true ↔ ∀ i, (i < n)%nat → bitmap_is_set a i = bitmap_is_set b i.
Proof.
  intros Ha Hb. unfold bitmap_equal, BITMAP_ULONG_BITS.
  rewrite andb_true_iff, bool_decide_eq_true, forallb_forall. split.
  - intros [Ht Hf] i Hi. destruct (decide (i / 64 < n / 64)%nat) as [Hlt|Hge].
    + rewrite !is_set_testbit. rewrite <- (lookup_take_lt a (n / 64)), <- (lookup_take_lt b (n / 64)) by done.
      by rewrite Ht.
    + apply eqb_prop, Hf, in_seq. lia.
  - intros He. split.
    + apply list_eq. intros k. destruct (decide (k < n / 64)%nat) as [Hk|Hk];
        [|by rewrite !lookup_take_ge by lia].
      rewrite !lookup_take_lt by done.
      destruct (word_get n a (k * 64) Ha ltac:(lia)) as (wa & La & Ua).
      destruct (word_get n b (k * 64) Hb ltac:(lia)) as (wb & Lb & Ub).
      rewrite Nat.div_mul in La, Lb by lia. rewrite La, Lb. f_equal.
      apply Z.bits_inj'. intros j Hj. destruct (Z.lt_ge_cases j 64).
      * specialize (He (k * 64 + Z.to_nat j)%nat ltac:(lia)). rewrite !is_set_testbit in He.
        replace ((k * 64 + Z.to_nat j) / 64)%nat with k in He by lia.
        replace (Z.of_nat ((k * 64 + Z.to_nat j) mod 64)) with j in He by lia.
        by rewrite La, Lb in He.
      * by rewrite !(testbit_high 64) by (done || lia).
    + intros i Hi%in_seq. rewrite He by lia. by destruct (bitmap_is_set b i).
Qed.

Lemma scan_loop_spec fuel bm i stop :
  (i + fuel = stop)%nat →
  let r := scan_loop fuel bm i stop in
  (i ≤ r ≤ stop)%nat ∧ (∀ j, (i ≤ j < r)%nat → bitmap_is_set bm j = false)
  ∧ ((r < stop)%nat → bitmap_is_set bm r = true).
Proof.
  revert i. induction fuel as [|fuel IH]; intros i Hf; simpl; [split_and!; intros; lia|].
  rewrite decide_True by lia. destruct (bitmap_is_set bm i) eqn:E; [split_and!; intros; done || lia|].
  destruct (IH (S i) ltac:(lia)) as (? & Hlow & ?). split_and!; [lia..| |done].
  intros j Hj. destruct (decide (j = i)) as [->|]; [done|]. apply Hlow. lia.
Qed.

Lemma bitmap_scan_spec bm i stop :
  (i ≤ stop)%nat →
  let r := bitmap_scan bm i stop in
  (i ≤ r ≤ stop)%nat ∧ (∀ j, (i ≤ j < r)%nat → bitmap_is_set bm j = false)
  ∧ ((r < stop)%nat → bitmap_is_set bm r = true).
Proof. intros. apply scan_loop_spec. lia. Qed.

Definition set_offsets bm lo hi : list nat :=
  filter (λ i, bitmap_is_set bm i = true) (seq lo (hi - lo)).

Lemma set_offsets_scan bm lo hi :
  (lo ≤ hi)%nat →
  set_offsets bm lo hi =
    let r := bitmap_scan bm lo hi in
    if decide (r < hi)%nat then r :: set_offsets bm (S r) hi else [].
Proof.
  intros Hle. destruct (bitmap_scan_spec bm lo hi Hle) as (Hr & Hlow & Hset).
  set (r := bitmap_scan bm lo hi) in *. cbv zeta. unfold set_offsets.
  replace (hi - lo)%nat with ((r - lo) + (hi - r))%nat by lia.
  rewrite seq_app, filter_app, filter_none_in.
  2:{ intros j Hj%elem_of_seq. rewrite Hlow by lia. done. }
  replace (lo + (r - lo))%nat with r by lia. simpl. case_decide as Hlt.
  - replace (hi - r)%nat with (S (hi - S r)) by lia. simpl. by rewrite filter_cons_True by auto.
  - by replace (hi - r)%nat with 0%nat by lia.
Qed.

Lemma for_each_1_from_spec fuel bm lo hi :
  (lo ≤ hi)%nat → (hi - lo ≤ fuel)%nat →
  for_each_1_from fuel bm (bitmap_scan bm lo hi) hi = set_offsets bm lo hi.
Proof.
  revert lo. induction fuel as [|fuel IH]; intros lo Hle Hf.
  - rewrite set_offsets_scan by done. destruct (bitmap_scan_spec bm lo hi Hle).
    cbv zeta. by rewrite decide_False by lia.
  - rewrite set_offsets_scan by done. destruct (bitmap_scan_spec bm lo hi Hle) as [Hr _].
    cbv zeta. cbn [for_each_1_from]. case_decide as Hlt; [|done].
    rewrite Nat.add_1_r. f_equal. apply IH; lia.
Qed.
End bits.

(** [bitmap_set_multiple] gives the bits of the range the value and
    leaves every other bit, although it writes whole words where it can;
    [bitmap_equal] compares exactly the first [n] bits; and BITMAP_FOR_EACH_1
    visits exactly the 1-bits in increasing order. *)
Theorem bitmap_operations_correct (n : nat) (bm b : bitmap) (start count : nat) (v : bool) :
  bitmap_wf n bm → bitmap_wf n b → (start + count ≤ n)%nat →
  let bm' := bitmap_set_multiple bm start count v in
  bitmap_wf n bm'
  ∧ (∀ j, bitmap_is_set bm' j
          = if decide (start ≤ j < start + count)%nat then v else bitmap_is_set bm j)
  ∧ (bitmap_equal bm b n = true ↔ ∀ i, (i < n)%nat → bitmap_is_set bm i = bitmap_is_set b i)
  ∧ bitmap_for_each_1 n bm = filter (λ i, bitmap_is_set bm i = true) (seq 0 n).
Proof.
  intros Hw Hb Hn. destruct (set_multiple_spec n bm start count v Hw Hn) as [Hw' Hj].
  split; [done|]. split; [done|]. split; [by apply bitmap_equal_spec|].
  unfold bitmap_for_each_1. rewrite for_each_1_from_spec by lia.
  unfold set_offsets. by rewrite Nat.sub_0_r.
Qed.

(** ** VLAN bitmaps *)

Lemma bitmap_allocate_wf n : bitmap_wf n (bitmap_allocate n).
Proof.
  split; [apply length_replicate|]. apply Forall_replicate. split; lia.
Qed.

Lemma bitmap_allocate_get n i : bitmap_is_set (bitmap_allocate n) i = false.
Proof.
  rewrite is_set_testbit. unfold bitmap_allocate.
  destruct (replicate _ 0 !! _) as [w|] eqn:E; simpl; [|by rewrite Z.bits_0].
  apply lookup_replicate in E as [-> _]. by rewrite Z.bits_0.
Qed.

Definition valid_vlan (v : Z) : Prop := 0 ≤ v < 4096.

Lemma from_array_spec vlans n b :
  bitmap_wf VLAN_BITS b →
  let '(n', b') := foldl (λ '(n, b) vlan,
      if (0 <=? vlan) && (vlan <? 4096) && negb (bitmap_is_set b (Z.to_nat vlan))
      then (n + 1, bitmap_set1 b (Z.to_nat vlan)) else (n, b)) (n, b) vlans in
  bitmap_wf VLAN_BITS b' ∧ n ≤ n'
  ∧ (∀ v, valid_vlan v →
       bitmap_is_set b' (Z.to_nat v) = true ↔ bitmap_is_set b (Z.to_nat v) = true ∨ v ∈ vlans)
  ∧ (n' = n → ∀ v, v ∈ vlans → valid_vlan v → bitmap_is_set b (Z.to_nat v) = true)
  ∧ (n' ≠ n → ∃ v, v ∈ vlans ∧ valid_vlan v).
Proof.
  revert n b. induction vlans as [|x vlans IH]; intros n b Hw; simpl; [split_and!; set_solver|].
  destruct ((0 <=? x) && (x <? 4096) && negb (bitmap_is_set b (Z.to_nat x))) eqn:Hc.
  - apply andb_true_iff in Hc as [[Hx0 Hx1]%andb_true_iff Hs%negb_true_iff].
    apply Z.leb_le in Hx0. apply Z.ltb_lt in Hx1.
    pose proof (bitmap_set_wf VLAN_BITS b (Z.to_nat x) true Hw) as Hw'.
    specialize (IH (n + 1) (bitmap_set1 b (Z.to_nat x)) Hw').
    destruct (foldl _ _ vlans) as [n' b']. destruct IH as (? & ? & Hget & _ & _).
    split_and!; [done|lia| |lia|intros _; exists x; split; [set_solver|done]].
    intros v Hv. rewrite Hget, elem_of_cons by done.
    pose proof (is_set_set VLAN_BITS b (Z.to_nat x) (Z.to_nat v) true Hw) as E.
    change (bitmap_set b (Z.to_nat x) true) with (bitmap_set1 b (Z.to_nat x)) in E.
    rewrite E by (unfold VLAN_BITS; lia). destruct Hv. case_decide as Ed.
    + assert (v = x) by lia. tauto.
    + assert (v ≠ x) by congruence. tauto.
  - specialize (IH n b Hw). destruct (foldl _ _ vlans) as [n' b'].
    destruct IH as (? & ? & Hget & Hn & Hex).
    assert (Hx : valid_vlan x → bitmap_is_set b (Z.to_nat x) = true).
    { intros [Hx0 Hx1]. rewrite (proj2 (Z.leb_le _ _) Hx0), (proj2 (Z.ltb_lt _ _) Hx1) in Hc.
      by apply negb_false_iff in Hc. }
    split_and!; [done|done| | |].
    + intros v Hv. rewrite Hget, elem_of_cons by done. split; [tauto|].
      intros [?|[->|?]]; auto.
    + intros E v [->|Hv]%elem_of_cons; auto.
    + intros E. destruct (Hex E) as (v & ? & ?). exists v. split; [set_solver|done].
Qed.

(** [vlan_bitmap_from_array] builds the set of the valid VLANs of its
    argument, whatever else the array holds and however often, and a null
    pointer exactly when it holds no valid VLAN. *)
Theorem vlan_bitmap_from_array_correct (vlans : list Z) :
  match vlan_bitmap_from_array vlans with
  | None => ∀ v, v ∈ vlans → ¬ valid_vlan v
  | Some b => bitmap_wf VLAN_BITS b ∧ (∃ v, v ∈ vlans ∧ valid_vlan v)
      ∧ ∀ v, valid_vlan v → bitmap_is_set b (Z.to_nat v) = true ↔ v ∈ vlans
  end.
Proof.
  unfold vlan_bitmap_from_array. case_decide as Hnil; [subst; set_solver|].
  pose proof (from_array_spec vlans 0 (bitmap_allocate VLAN_BITS) (bitmap_allocate_wf VLAN_BITS)) as Hs.
  unfold vlan_bitmap_from_array__. destruct (foldl _ _ vlans) as [n b].
  destruct Hs as (Hw & Hn & Hget & Hz & Hex). destruct (Z.eqb_spec n 0) as [->|Hne].
  - intros v Hv Hval. specialize (Hz eq_refl v Hv Hval). by rewrite bitmap_allocate_get in Hz.
  - split_and!; [done|by apply Hex|].
    intros v Hv. rewrite Hget, bitmap_allocate_get by done. split; [by intros [?|?]|by right].
Qed.

Lemma vlan_bitmap_equal_spec a b :
  bitmap_wf VLAN_BITS a → bitmap_wf VLAN_BITS b →
  vlan_bitmap_equal (Some a) (Some b) = true
  ↔ ∀ v, valid_vlan v → bitmap_is_set a (Z.to_nat v) = bitmap_is_set b (Z.to_nat v).
Proof.
  intros Ha Hb. simpl. rewrite bitmap_equal_spec by done. split.
  - intros He v [? ?]. apply He. unfold VLAN_BITS. lia.
  - intros He i Hi. rewrite <- (Nat2Z.id i). apply He. unfold VLAN_BITS in Hi. split; lia.
Qed.

(** ** Examples *)

Definition ex_bitmap : bitmap := bitmap_allocate 100.

Lemma bitmap_operations_correct_witness :
  bitmap_set_multiple ex_bitmap 60 39 true = [0xf000000000000000; 0x7ffffffff]
  ∧ bitmap_is_set (bitmap_set_multiple ex_bitmap 60 39 true) 98 = true.
Proof.
  split; [vm_compute; done|].
  destruct (bitmap_operations_correct 100 ex_bitmap ex_bitmap 60 39 true) as (_ & Hj & _);
    [apply bitmap_allocate_wf|apply bitmap_allocate_wf|lia|].
  apply (Hj 98%nat).
Defined.
