(* ===== verification/MacLearning.v ===== *)
(** * MAC learning (lib/mac-learning.h, lib/mac-learning.c)

    The table is a hash map of entries keyed by MAC and VLAN, threaded on a
    list from least to most recently used.  An entry is a heap object: the
    hash map and the list hold addresses, and [ml_entries] is the part of the
    heap that holds the entries.  [None] is a null dereference or a failed
    assertion.  The clock ([time_now]) and the address that the allocator
    returns are arguments.  The reader-writer lock is held by the caller for
    the whole of each operation. *)
From S2P Require Import Prelude Util Hash Hmap HmapThms Bitmap.

Record mac_entry := MacEntry {
  me_hash : Z;              (* hmap_node.hash *)
  me_expires : Z;
  me_grat_arp_lock : Z;
  me_mac : list Z;
  me_vlan : Z;
  me_port : option Z        (* port.p, None for NULL *)
}.

Record mac_learning := MacLearning {
  ml_table : hmap Z;
  ml_lrus : list Z;
  ml_entries : gmap Z mac_entry;
  ml_secret : Z;
  ml_flood_vlans : option bitmap;
  ml_idle_time : Z;
  ml_max_entries : Z;
  ml_ref_cnt : Z;
  ml_need_revalidate : bool
}.

Definition MAC_DEFAULT_MAX : Z := 2048.
Definition MAC_GRAT_ARP_LOCK_TIME : Z := 5.
Definition TIME_MIN : Z := - 2 ^ 63.

(** ** Updates of single fields *)

Definition with_table (ml : mac_learning) t :=
  MacLearning t (ml_lrus ml) (ml_entries ml) (ml_secret ml) (ml_flood_vlans ml)
    (ml_idle_time ml) (ml_max_entries ml) (ml_ref_cnt ml) (ml_need_revalidate ml).
Definition with_lrus (ml : mac_learning) l :=
  MacLearning (ml_table ml) l (ml_entries ml) (ml_secret ml) (ml_flood_vlans ml)
    (ml_idle_time ml) (ml_max_entries ml) (ml_ref_cnt ml) (ml_need_revalidate ml).
Definition with_entries (ml : mac_learning) es :=
  MacLearning (ml_table ml) (ml_lrus ml) es (ml_secret ml) (ml_flood_vlans ml)
    (ml_idle_time ml) (ml_max_entries ml) (ml_ref_cnt ml) (ml_need_revalidate ml).
Definition with_revalidate (ml : mac_learning) b :=
  MacLearning (ml_table ml) (ml_lrus ml) (ml_entries ml) (ml_secret ml) (ml_flood_vlans ml)
    (ml_idle_time ml) (ml_max_entries ml) (ml_ref_cnt ml) b.
Definition with_expires (e : mac_entry) t :=
  MacEntry (me_hash e) t (me_grat_arp_lock e) (me_mac e) (me_vlan e) (me_port e).
Definition with_port (e : mac_entry) p :=
  MacEntry (me_hash e) (me_expires e) (me_grat_arp_lock e) (me_mac e) (me_vlan e) p.

(** ** Entries *)

Definition mac_entry_set_grat_arp_lock (now : Z) (e : mac_entry) : mac_entry :=
  MacEntry (me_hash e) (me_expires e) (now + MAC_GRAT_ARP_LOCK_TIME) (me_mac e) (me_vlan e) (me_port e).

Definition mac_entry_is_grat_arp_locked (now : Z) (e : mac_entry) : bool := now <? me_grat_arp_lock e.

Definition mac_entry_age (now : Z) (ml : mac_learning) (e : mac_entry) : Z :=
  let remaining := me_expires e - now in ml_idle_time ml - remaining.

(** A native load of two bytes. *)
Definition get_unaligned_u16 (p : list Z) : Z :=
  foldr (λ b acc, Z.lor b (Z.shiftl acc 8)) 0 (take 2 p).

Definition mac_hash (secret : Z) (mac : list Z) (vlan : Z) : Z :=
  let mac1 := get_unaligned_u32 mac in
  let mac2 := get_unaligned_u16 (drop 4 mac) in
  hash_3words mac1 (Z.lor mac2 (u32 (Z.shiftl vlan 16))) secret.

Definition mac_table_hash (ml : mac_learning) (mac : list Z) (vlan : Z) : Z :=
  mac_hash (ml_secret ml) mac vlan.

Definition eth_addr_equals (a b : list Z) : bool := bool_decide (a = b).

Definition eth_addr_is_multicast (ea : list Z) : bool := negb (Z.land (default 0 (ea !! 0%nat)) 1 =? 0).

(** The test of [mac_entry_lookup] on the entry at an address. *)
Definition entry_matches (ml : mac_learning) (mac : list Z) (vlan : Z) (a : Z) : bool :=
  match ml_entries ml !! a with
  | Some e => (me_vlan e =? vlan) && eth_addr_equals (me_mac e) mac
  | None => false
  end.

Definition mac_entry_lookup (ml : mac_learning) (mac : list Z) (vlan : Z) : option Z :=
  List.find (entry_matches ml mac vlan)
    (hmap_for_each_with_hash (ml_table ml) (mac_table_hash ml mac vlan)).

Definition get_lru (ml : mac_learning) : option Z := head (ml_lrus ml).

(** ** Configuration *)

Definition normalize_idle_time (idle_time : Z) : Z :=
  if idle_time <? 15 then 15 else if 3600 <? idle_time then 3600 else idle_time.

Definition mac_learning_create (secret idle_time : Z) : mac_learning :=
  MacLearning hmap_init [] ∅ secret None (normalize_idle_time idle_time) MAC_DEFAULT_MAX 1 false.

Definition mac_learning_ref (ml : mac_learning) : option mac_learning :=
  if 0 <? ml_ref_cnt ml
  then Some (MacLearning (ml_table ml) (ml_lrus ml) (ml_entries ml) (ml_secret ml) (ml_flood_vlans ml)
               (ml_idle_time ml) (ml_max_entries ml) (ml_ref_cnt ml + 1) (ml_need_revalidate ml))
  else None.

Definition mac_learning_set_flood_vlans (ml : mac_learning) (bm : option bitmap) : mac_learning * bool :=
  if vlan_bitmap_equal (ml_flood_vlans ml) bm then (ml, false)
  else (MacLearning (ml_table ml) (ml_lrus ml) (ml_entries ml) (ml_secret ml) (vlan_bitmap_clone bm)
          (ml_idle_time ml) (ml_max_entries ml) (ml_ref_cnt ml) (ml_need_revalidate ml), true).

Definition shift_expires (delta : Z) (es : gmap Z mac_entry) (a : Z) : gmap Z mac_entry :=
  alter (λ e, with_expires e (me_expires e + delta)) a es.

Definition mac_learning_set_idle_time (ml : mac_learning) (idle_time : Z) : mac_learning :=
  let idle_time := normalize_idle_time idle_time in
  if idle_time =? ml_idle_time ml then ml
  else
    let delta := idle_time - ml_idle_time ml in
    MacLearning (ml_table ml) (ml_lrus ml) (foldl (shift_expires delta) (ml_entries ml) (ml_lrus ml))
      (ml_secret ml) (ml_flood_vlans ml) idle_time (ml_max_entries ml) (ml_ref_cnt ml)
      (ml_need_revalidate ml).

Definition mac_learning_set_max_entries (ml : mac_learning) (max_entries : Z) : mac_learning :=
  MacLearning (ml_table ml) (ml_lrus ml) (ml_entries ml) (ml_secret ml) (ml_flood_vlans ml)
    (ml_idle_time ml)
    (if max_entries <? 10 then 10 else if 1000 * 1000 <? max_entries then 1000 * 1000 else max_entries)
    (ml_ref_cnt ml) (ml_need_revalidate ml).

Definition is_learning_vlan (ml : mac_learning) (vlan : Z) : bool :=
  match ml_flood_vlans ml with
  | None => true
  | Some bm => negb (bitmap_is_set bm (Z.to_nat vlan))
  end.

Definition mac_learning_may_learn (ml : option mac_learning) (src_mac : list Z) (vlan : Z) : bool :=
  match ml with
  | Some ml => is_learning_vlan ml vlan && negb (eth_addr_is_multicast src_mac)
  | None => false
  end.

(** ** Learning, lookup and expiration *)

(** [list_remove] of a list node. *)
Definition lru_remove (a : Z) (l : list Z) : list Z := filter (λ x, x ≠ a) l.

Definition mac_learning_expire (ml : mac_learning) (a : Z) : option mac_learning :=
  e ← ml_entries ml !! a;
  table ← hmap_remove (ml_table ml) (is_node a) (me_hash e);
  Some (with_entries (with_lrus (with_table ml table) (lru_remove a (ml_lrus ml)))
          (delete a (ml_entries ml))).

(** The end of [mac_learning_insert]: mark the entry as recently used. *)
Definition mark_used (now : Z) (ml : mac_learning) (a : Z) : mac_learning :=
  with_entries (with_lrus ml (ml_lrus ml ++ [a]))
    (alter (λ e, with_expires e (now + ml_idle_time ml)) a (ml_entries ml)).

Definition mac_learning_insert (ml : mac_learning) (now addr : Z) (src_mac : list Z) (vlan : Z)
    : option (mac_learning * Z) :=
  match mac_entry_lookup ml src_mac vlan with
  | None =>
      let hash := mac_table_hash ml src_mac vlan in
      ml ← (if ml_max_entries ml <=? hmap_count (ml_table ml)
            then e ← get_lru ml; mac_learning_expire ml e
            else Some ml);
      let ml := with_table ml (hmap_insert_at (ml_table ml) addr hash) in
      let ml := with_entries ml (<[addr := MacEntry hash 0 TIME_MIN src_mac vlan None]> (ml_entries ml)) in
      Some (mark_used now ml addr, addr)
  | Some e => Some (mark_used now (with_lrus ml (lru_remove e (ml_lrus ml))) e, e)
  end.

Definition mac_learning_changed (ml : mac_learning) : mac_learning := with_revalidate ml true.

Definition mac_learning_lookup (ml : mac_learning) (dst : list Z) (vlan : Z) : option (option Z) :=
  if eth_addr_is_multicast dst then Some None
  else if negb (is_learning_vlan ml vlan) then Some None
  else match mac_entry_lookup ml dst vlan with
       | None => Some None
       | Some a =>
           e ← ml_entries ml !! a;
           match me_port e with Some _ => Some (Some a) | None => None end
       end.

(** Each pass removes an entry, so as many passes as entries are enough. *)
Fixpoint flush_loop (fuel : nat) (ml : mac_learning) : option mac_learning :=
  match fuel with
  | O => Some ml
  | S fuel =>
      match get_lru ml with
      | None => Some ml
      | Some e => ml ← mac_learning_expire (with_revalidate ml true) e; flush_loop fuel ml
      end
  end.

Definition mac_learning_flush (ml : mac_learning) : option mac_learning :=
  ml ← flush_loop (length (ml_lrus ml)) ml;
  Some (with_table ml (hmap_shrink_at (ml_table ml))).

Definition should_expire (now : Z) (ml : mac_learning) (a : Z) : option bool :=
  e ← ml_entries ml !! a;
  Some ((ml_max_entries ml <? hmap_count (ml_table ml)) || (me_expires e <=? now)).

Fixpoint run_loop (fuel : nat) (now : Z) (ml : mac_learning) : option mac_learning :=
  match fuel with
  | O => Some ml
  | S fuel =>
      match get_lru ml with
      | None => Some ml
      | Some e =>
          b ← should_expire now ml e;
          if b : bool then ml ← mac_learning_expire (with_revalidate ml true) e; run_loop fuel now ml
          else Some ml
      end
  end.

Definition mac_learning_run (now : Z) (ml : mac_learning) : option (mac_learning * bool) :=
  ml ← run_loop (length (ml_lrus ml)) now ml;
  Some (with_revalidate ml false, ml_need_revalidate ml).

Inductive wakeup := WakeNow | WakeAt (msec : Z) | WakeNever.

Definition mac_learning_wait (ml : mac_learning) : option wakeup :=
  if (ml_max_entries ml <? hmap_count (ml_table ml)) || ml_need_revalidate ml then Some WakeNow
  else match ml_lrus ml with
       | [] => Some WakeNever
       | a :: _ => e ← ml_entries ml !! a; Some (WakeAt (me_expires e * 1000))
       end.

(** HMAP_FOR_EACH_SAFE: unlink every entry. *)
Fixpoint unlink_all (es : gmap Z mac_entry) (table : hmap Z) (l : list Z) : option (hmap Z) :=
  match l with
  | [] => Some table
  | a :: l =>
      e ← es !! a;
      table ← hmap_remove table (is_node a) (me_hash e);
      unlink_all (delete a es) table l
  end.

(** [Some None] is the destroyed table. *)
Definition mac_learning_unref (ml : mac_learning) : option (option mac_learning) :=
  if 0 <? ml_ref_cnt ml then
    if ml_ref_cnt ml =? 1 then
      _ ← unlink_all (ml_entries ml) (ml_table ml) (hmap_for_each (ml_table ml));
      Some None
    else Some (Some (MacLearning (ml_table ml) (ml_lrus ml) (ml_entries ml) (ml_secret ml)
           (ml_flood_vlans ml) (ml_idle_time ml) (ml_max_entries ml) (ml_ref_cnt ml - 1)
           (ml_need_revalidate ml)))
  else None.

(** ** Well-formed tables *)

#[local] Opaque mac_hash.

Definition entry_hash (es : gmap Z mac_entry) (a : Z) : Z := default 0 (me_hash <$> es !! a).

(** The nodes that should be in the hash map. *)
Definition nodes_of (es : gmap Z mac_entry) (l : list Z) : list (hnode Z) :=
  (λ a, HNode (entry_hash es a) a) <$> l.

Definition same_key (e e' : mac_entry) : Prop := me_mac e = me_mac e' ∧ me_vlan e = me_vlan e'.

(** The hash map and the list hold the same live entries, each entry is in
    the bucket of its key, and no two entries have the same key. *)
Record ml_wf (ml : mac_learning) : Prop := {
  mw_rep : represents (ml_table ml) (nodes_of (ml_entries ml) (ml_lrus ml));
  mw_dom : ∀ a, a ∈ ml_lrus ml ↔ is_Some (ml_entries ml !! a);
  mw_hash : ∀ a e, ml_entries ml !! a = Some e → me_hash e = mac_table_hash ml (me_mac e) (me_vlan e);
  mw_key : ∀ a a' e e', ml_entries ml !! a = Some e → ml_entries ml !! a' = Some e' →
             same_key e e' → a = a';
  mw_max : 10 ≤ ml_max_entries ml
}.

Lemma data_nodes es l : data (nodes_of es l) = l.
Proof. unfold data, nodes_of. rewrite <- list_fmap_compose. apply list_fmap_id. Qed.

Lemma wf_lrus_NoDup ml : ml_wf ml → NoDup (ml_lrus ml).
Proof. intros Hw. rewrite <- (data_nodes (ml_entries ml)). apply (mw_rep ml Hw). Qed.

Lemma nodes_of_ext es es' l :
  (∀ a, a ∈ l → entry_hash es a = entry_hash es' a) → nodes_of es l = nodes_of es' l.
Proof. intros H. apply list_fmap_ext. intros i a Ha%list_elem_of_lookup_2. by rewrite H. Qed.

Lemma elem_of_nodes es l h a : HNode h a ∈ nodes_of es l ↔ a ∈ l ∧ h = entry_hash es a.
Proof.
  unfold nodes_of. rewrite list_elem_of_fmap. split.
  - intros (b & [= -> ->] & ?). done.
  - intros [? ->]. by exists a.
Qed.

Lemma wf_count ml : ml_wf ml → hmap_count (ml_table ml) = Z.of_nat (length (ml_lrus ml)).
Proof.
  intros Hw. destruct (mw_rep ml Hw) as [Hwf Hp _]. unfold hmap_count.
  rewrite (wf_n _ Hwf), Hp. unfold nodes_of. by rewrite length_fmap.
Qed.

Lemma lookup_spec ml mac vlan a :
  ml_wf ml →
  mac_entry_lookup ml mac vlan = Some a ↔
  ∃ e, ml_entries ml !! a = Some e ∧ me_mac e = mac ∧ me_vlan e = vlan.
Proof.
  intros Hw. assert (Hmatch : ∀ b, entry_matches ml mac vlan b = true ↔
    ∃ e, ml_entries ml !! b = Some e ∧ me_mac e = mac ∧ me_vlan e = vlan).
  { intros b. unfold entry_matches, eth_addr_equals. destruct (ml_entries ml !! b) as [e|]; [|naive_solver].
    rewrite andb_true_iff, bool_decide_eq_true, Z.eqb_eq. naive_solver. }
  assert (Hin : ∀ b, entry_matches ml mac vlan b = true →
    b ∈ hmap_for_each_with_hash (ml_table ml) (mac_table_hash ml mac vlan)).
  { intros b (e & He & <- & <-)%Hmatch.
    apply (for_each_with_hash_exact _ _ _ _ (mw_rep ml Hw)), elem_of_nodes.
    split; [apply (mw_dom ml Hw); by exists e|]. unfold entry_hash. rewrite He. simpl.
    symmetry. by eapply mw_hash. }
  unfold mac_entry_lookup. rewrite <- Hmatch. split.
  - by intros [_ ?]%find_Some_elem.
  - intros Ha. destruct (List.find _ _) as [b|] eqn:Hf.
    + apply find_Some_elem in Hf as [_ (e & He & Hm & Hv)%Hmatch].
      apply Hmatch in Ha as (e' & He' & Hm' & Hv'). f_equal.
      eapply (mw_key ml Hw); [done|done|]. split; congruence.
    + rewrite (find_None_elem _ _ a Hf) in Ha by auto. done.
Qed.

Lemma lookup_none ml mac vlan :
  ml_wf ml →
  mac_entry_lookup ml mac vlan = None ↔
  ∀ a e, ml_entries ml !! a = Some e → ¬ (me_mac e = mac ∧ me_vlan e = vlan).
Proof.
  intros Hw. split.
  - intros Hn a e He [? ?]. assert (mac_entry_lookup ml mac vlan = Some a); [|congruence].
    apply lookup_spec; [done|]. by exists e.
  - intros Hno. destruct (mac_entry_lookup ml mac vlan) as [a|] eqn:E; [|done].
    apply lookup_spec in E as (e & He & Hk); [|done]. by destruct (Hno a e He).
Qed.

(** ** Preservation *)

Lemma represents_perm (m : hmap Z) bag bag' : represents m bag → bag ≡ₚ bag' → represents m bag'.
Proof.
  intros [Hwf Hp Hnd] Hb. split; [done|by rewrite <- Hb|]. by rewrite <- (data_perm _ _ Hb).
Qed.

Lemma nodes_of_perm es l l' : l ≡ₚ l' → nodes_of es l ≡ₚ nodes_of es l'.
Proof. apply fmap_Permutation. Qed.

Lemma elem_of_lru_remove a b l : b ∈ lru_remove a l ↔ b ≠ a ∧ b ∈ l.
Proof. unfold lru_remove. by rewrite list_elem_of_filter. Qed.

Lemma lru_remove_perm a l : NoDup l → a ∈ l → l ≡ₚ a :: lru_remove a l.
Proof.
  intros Hnd Ha. apply NoDup_Permutation; [done| |].
  - apply NoDup_cons. split; [rewrite elem_of_lru_remove; naive_solver|by apply NoDup_filter].
  - intros x. rewrite elem_of_cons, elem_of_lru_remove. destruct (decide (x = a)); naive_solver.
Qed.

(** The order of the list is free. *)
Lemma ml_wf_lrus ml l : ml_wf ml → l ≡ₚ ml_lrus ml → ml_wf (with_lrus ml l).
Proof.
  intros [Hr Hd Hh Hk Hm] Hl. split; simpl; try done.
  - eapply represents_perm; [exact Hr|]. by apply nodes_of_perm.
  - intros a. by rewrite Hl.
Qed.

(** So are the expiration times and ports. *)
Definition key_of (e : mac_entry) : Z * list Z * Z := (me_hash e, me_mac e, me_vlan e).

Lemma ml_wf_entries ml es :
  ml_wf ml → (∀ b, key_of <$> es !! b = key_of <$> ml_entries ml !! b) → ml_wf (with_entries ml es).
Proof.
  intros [Hr Hd Hh Hk Hm] He.
  assert (Hb : ∀ b e', es !! b = Some e' → ∃ e, ml_entries ml !! b = Some e ∧ key_of e' = key_of e).
  { intros b e' E. specialize (He b). rewrite E in He. destruct (ml_entries ml !! b); [|done].
    injection He as E1 E2 E3. eexists. split; [done|]. unfold key_of. congruence. }
  split; simpl; try done.
  - rewrite (nodes_of_ext es (ml_entries ml)); [done|]. intros a _. unfold entry_hash.
    pose proof (f_equal (fmap (λ k : Z * list Z * Z, k.1.1)) (He a)) as E.
    rewrite <- !option_fmap_compose in E. by f_equal.
  - intros a. rewrite Hd. specialize (He a).
    destruct (es !! a), (ml_entries ml !! a); try done; split; by intros [? ?].
  - intros a e' (e & E & Ek)%Hb. injection Ek as -> -> ->. by eapply Hh.
  - intros a a' e1 e2 (e & E & Ek)%Hb (e' & E' & Ek')%Hb [H1 H2].
    injection Ek as _ Em Ev. injection Ek' as _ Em' Ev'.
    apply (Hk a a' e e'); [done|done|]. split; congruence.
Qed.

Lemma alter_keys (f : mac_entry → mac_entry) (es : gmap Z mac_entry) a b :
  (∀ e, key_of (f e) = key_of e) → key_of <$> alter f a es !! b = key_of <$> es !! b.
Proof.
  intros Hf. destruct (decide (a = b)) as [->|Hne].
  - rewrite lookup_alter_eq. destruct (es !! b); simpl; [by rewrite Hf|done].
  - by rewrite lookup_alter_ne.
Qed.

(** The fields that only the configuration functions change. *)
Definition config (ml : mac_learning) : Z * option bitmap * Z * Z * Z :=
  (ml_secret ml, ml_flood_vlans ml, ml_idle_time ml, ml_max_entries ml, ml_ref_cnt ml).

Lemma expire_spec ml a :
  ml_wf ml → a ∈ ml_lrus ml →
  ∃ table, let ml' := with_entries (with_lrus (with_table ml table) (lru_remove a (ml_lrus ml)))
                        (delete a (ml_entries ml)) in
    mac_learning_expire ml a = Some ml' ∧ ml_wf ml'.
Proof.
  intros Hw Ha. pose proof (wf_lrus_NoDup ml Hw) as Hnd. pose proof Hw as [Hr Hd Hh Hk Hm].
  destruct (proj1 (Hd a) Ha) as [e He].
  assert (Hin : HNode (me_hash e) a ∈ nodes_of (ml_entries ml) (ml_lrus ml)).
  { apply elem_of_nodes. unfold entry_hash. by rewrite He. }
  destruct (hmap_remove_data (ml_table ml) (is_node a) (me_hash e) a) as [table Ht];
    [apply Hr|by rewrite (rep_nodes _ _ Hr)|by apply bool_decide_eq_true|].
  exists table. cbv zeta. split; [unfold mac_learning_expire; by rewrite He; simpl; rewrite Ht|].
  split; simpl; [|intros b|intros b e'|intros b b' e1 e2|done].
  - eapply hmap_step_represents; [exact Hr|]. eapply hms_remove; [|exact Ht].
    rewrite (nodes_of_perm _ _ _ (lru_remove_perm a _ Hnd Ha)). simpl.
    unfold entry_hash at 1. rewrite He. simpl. f_equiv. apply reflexive_eq, nodes_of_ext.
    intros b [Hne _]%elem_of_lru_remove. unfold entry_hash. by rewrite lookup_delete_ne.
  - rewrite elem_of_lru_remove, Hd, lookup_delete_is_Some. naive_solver.
  - intros [_ E]%lookup_delete_Some. by eapply Hh.
  - intros [_ E1]%lookup_delete_Some [_ E2]%lookup_delete_Some. by eapply Hk.
Qed.

Lemma add_entry_wf ml addr e :
  ml_wf ml → ml_entries ml !! addr = None →
  me_hash e = mac_table_hash ml (me_mac e) (me_vlan e) →
  (∀ a e', ml_entries ml !! a = Some e' → ¬ same_key e' e) →
  ml_wf (with_entries (with_lrus (with_table ml (hmap_insert_at (ml_table ml) addr (me_hash e)))
           (ml_lrus ml ++ [addr])) (<[addr := e]> (ml_entries ml))).
Proof.
  intros [Hr Hd Hh Hk Hm] Hfresh He Hnew.
  assert (Hnin : addr ∉ ml_lrus ml) by (rewrite Hd, Hfresh; by intros [? ?]).
  split; simpl; [|intros b|intros b e'|intros b b' e1 e2|done].
  - eapply represents_perm; [eapply hmap_step_represents; [exact Hr|]; apply hms_insert|].
    + by rewrite data_nodes.
    + rewrite (nodes_of_perm _ _ _ (Permutation_app_comm (ml_lrus ml) [addr])). simpl.
      unfold entry_hash at 1. rewrite lookup_insert_eq. simpl. f_equiv.
      apply reflexive_eq, nodes_of_ext. intros b Hb. unfold entry_hash.
      rewrite lookup_insert_ne; [done|]. by intros ->.
  - rewrite elem_of_app, list_elem_of_singleton, Hd, lookup_insert_is_Some. split.
    + intros [?| ->]; [destruct (decide (addr = b)); naive_solver|naive_solver].
    + naive_solver.
  - intros [[<- <-]|[_ E]]%lookup_insert_Some; [done|]. by eapply Hh.
  - intros [[<- <-]|[_ E1]]%lookup_insert_Some [[<- <-]|[_ E2]]%lookup_insert_Some Hs; [done| | |].
    + destruct (Hnew _ _ E2). by destruct Hs.
    + by destruct (Hnew _ _ E1).
    + by eapply Hk.
Qed.

(** ** Insertion *)

Lemma insert_existing_wf ml now a :
  ml_wf ml → a ∈ ml_lrus ml → ml_wf (mark_used now (with_lrus ml (lru_remove a (ml_lrus ml))) a).
Proof.
  intros Hw Ha. pose proof (wf_lrus_NoDup ml Hw) as Hnd.
  apply (ml_wf_entries (with_lrus ml (lru_remove a (ml_lrus ml) ++ [a]))).
  - apply ml_wf_lrus; [done|]. rewrite (lru_remove_perm a (ml_lrus ml)) at 2 by done.
    by rewrite Permutation_app_comm.
  - intros b. by apply alter_keys.
Qed.

Lemma insert_new_wf ml now addr mac vlan :
  ml_wf ml → ml_entries ml !! addr = None →
  (∀ a e, ml_entries ml !! a = Some e → ¬ (me_mac e = mac ∧ me_vlan e = vlan)) →
  let hash := mac_table_hash ml mac vlan in
  let ml1 := with_table ml (hmap_insert_at (ml_table ml) addr hash) in
  let ml2 := with_entries ml1 (<[addr := MacEntry hash 0 TIME_MIN mac vlan None]> (ml_entries ml1)) in
  ml_wf (mark_used now ml2 addr).
Proof.
  intros Hw Hfresh Hnew hash ml1 ml2.
  pose proof (add_entry_wf ml addr (MacEntry hash 0 TIME_MIN mac vlan None) Hw Hfresh eq_refl Hnew) as Hw'.
  apply (ml_wf_entries _ _ Hw'). intros b. by apply alter_keys.
Qed.

(** Making room: the least recently used entry goes when the table is full. *)
Definition victim (ml : mac_learning) (mac : list Z) (vlan : Z) : option Z :=
  match mac_entry_lookup ml mac vlan with
  | Some _ => None
  | None => if ml_max_entries ml <=? hmap_count (ml_table ml) then get_lru ml else None
  end.

Lemma make_room_spec ml :
  ml_wf ml →
  ∃ ml', (if ml_max_entries ml <=? hmap_count (ml_table ml)
          then e ← get_lru ml; mac_learning_expire ml e else Some ml) = Some ml'
    ∧ ml_wf ml' ∧ config ml' = config ml ∧ ml_need_revalidate ml' = ml_need_revalidate ml
    ∧ let v := if ml_max_entries ml <=? hmap_count (ml_table ml) then get_lru ml else None in
      ml_lrus ml' = match v with Some _ => tail (ml_lrus ml) | None => ml_lrus ml end
      ∧ ml_entries ml' = match v with Some a => delete a (ml_entries ml) | None => ml_entries ml end.
Proof.
  intros Hw. pose proof (mw_max ml Hw) as Hm. pose proof (wf_count ml Hw) as Hc.
  pose proof (wf_lrus_NoDup ml Hw) as Hnd.
  destruct (Z.leb_spec (ml_max_entries ml) (hmap_count (ml_table ml))) as [Hle|Hlt]; [|by exists ml].
  unfold get_lru. destruct (ml_lrus ml) as [|a l] eqn:Hl; [simpl in Hc; lia|]. cbn [head].
  destruct (expire_spec ml a Hw) as (table & He & Hw'); [rewrite Hl; set_solver|].
  eexists. split; [simpl; exact He|]. split; [exact Hw'|]. simpl. split_and!; try done.
  rewrite Hl. unfold lru_remove. rewrite filter_cons_False by naive_solver.
  apply NoDup_cons in Hnd as [Hna _]. apply filter_all_in. by intros b Hb ->.
Qed.

(** [mac_learning_insert] in terms of entries. *)
Lemma insert_spec ml now addr mac vlan :
  ml_wf ml → ml_entries ml !! addr = None →
  ∃ ml' a e, mac_learning_insert ml now addr mac vlan = Some (ml', a)
    ∧ ml_wf ml' ∧ config ml' = config ml ∧ ml_need_revalidate ml' = ml_need_revalidate ml
    ∧ me_mac e = mac ∧ me_vlan e = vlan ∧ me_expires e = now + ml_idle_time ml
    ∧ (ml_lrus ml' = match mac_entry_lookup ml mac vlan, victim ml mac vlan with
                     | Some _, _ => lru_remove a (ml_lrus ml)
                     | None, Some _ => tail (ml_lrus ml)
                     | None, None => ml_lrus ml
                     end ++ [a])
    ∧ ml_entries ml' = <[a := e]> match victim ml mac vlan with
                                  | Some v => delete v (ml_entries ml)
                                  | None => ml_entries ml
                                  end
    ∧ match mac_entry_lookup ml mac vlan with
      | Some a0 => a = a0 ∧ ∃ e0, ml_entries ml !! a0 = Some e0 ∧ e = with_expires e0 (now + ml_idle_time ml)
      | None => a = addr ∧ me_port e = None ∧ me_grat_arp_lock e = TIME_MIN
      end.
Proof.
  intros Hw Hfresh. unfold mac_learning_insert, victim.
  destruct (mac_entry_lookup ml mac vlan) as [a|] eqn:Hl.
  - pose proof Hl as (e & He & Hm & Hv)%lookup_spec; [|done].
    assert (Ha : a ∈ ml_lrus ml) by (apply (mw_dom ml Hw); by exists e).
    eexists _, a, (with_expires e (now + ml_idle_time ml)). split; [done|].
    split; [by apply insert_existing_wf|]. simpl. split_and!; try done; [|naive_solver].
    apply map_eq. intros b. destruct (decide (a = b)) as [<-|Hne].
    + by rewrite lookup_alter_eq, lookup_insert_eq, He.
    + by rewrite lookup_alter_ne, lookup_insert_ne.
  - destruct (make_room_spec ml Hw) as (ml1 & -> & Hw1 & Hcfg & Hrev & Hlr & Hes). simpl.
    injection Hcfg as Hsec Hfl Hid Hmx Hrf.
    pose proof (proj1 (lookup_none ml mac vlan Hw) Hl) as Hnew.
    assert (Hsub : ∀ b e, ml_entries ml1 !! b = Some e → ml_entries ml !! b = Some e).
    { intros b e. rewrite Hes. destruct (if _ <=? _ then _ else _); [|done].
      by intros [_ ?]%lookup_delete_Some. }
    assert (Hfresh1 : ml_entries ml1 !! addr = None).
    { destruct (ml_entries ml1 !! addr) eqn:E; [|done]. apply Hsub in E. congruence. }
    pose proof (insert_new_wf ml1 now addr mac vlan Hw1 Hfresh1) as Hw2.
    rewrite <- Hid. unfold mac_table_hash in *. rewrite Hsec in Hw2.
    eexists _, addr, (MacEntry (mac_hash (ml_secret ml) mac vlan) (now + ml_idle_time ml1) TIME_MIN mac vlan None).
    split; [done|]. split; [apply Hw2; intros b e E; eapply Hnew; by eapply Hsub|].
    unfold config. simpl. split_and!; try done; [congruence|by rewrite Hlr; destruct (if _ <=? _ then _ else _)|].
    rewrite <- Hes. apply map_eq. intros b. destruct (decide (addr = b)) as [<-|Hne].
    + by rewrite lookup_alter_eq, !lookup_insert_eq.
    + by rewrite lookup_alter_ne, !lookup_insert_ne.
Qed.

(** ** Expiration *)

Definition expires_at (ml : mac_learning) (a : Z) : Z := default 0 (me_expires <$> ml_entries ml !! a).

(** A list sorted by a key and bounded by it. *)
Definition timed (key : Z → Z) (bound : Z) (l : list Z) : Prop :=
  StronglySorted (λ a b, key a ≤ key b) l ∧ ∀ a, a ∈ l → key a ≤ bound.

Lemma timed_sublist key bound l l' : l' `sublist_of` l → timed key bound l → timed key bound l'.
Proof.
  intros Hs. induction Hs as [|x l1 l2 Hs IH|x l1 l2 Hs IH]; [done| |].
  - intros [[Hx Hss]%StronglySorted_cons Hb].
    destruct IH as [H1 H2]; [split; [done|set_solver]|].
    assert (Hin : ∀ y, y ∈ l1 → y ∈ l2) by (intros y Hy; by eapply sublist_subseteq).
    split; [|set_solver]. apply StronglySorted_cons. split; [|done].
    rewrite Forall_forall in Hx |- *. auto.
  - intros [[_ Hss]%StronglySorted_cons Hb]. apply IH. split; [done|set_solver].
Qed.

Lemma timed_ext key key' bound l :
  (∀ a, a ∈ l → key a = key' a) → timed key bound l → timed key' bound l.
Proof.
  intros He [Hs Hb]. split; [|intros a Ha; rewrite <- He by done; auto].
  clear Hb. induction Hs as [|x l Hs IH Hx]; [constructor|]. apply StronglySorted_cons.
  split; [|apply IH; set_solver]. rewrite Forall_forall in Hx |- *.
  intros y Hy. rewrite <- !He by set_solver. auto.
Qed.

Lemma timed_weaken key bound bound' l : bound ≤ bound' → timed key bound l → timed key bound' l.
Proof. intros Hle [Hs Hb]. split; [done|]. intros a Ha. specialize (Hb a Ha). lia. Qed.

Lemma timed_snoc key bound l a : timed key bound l → bound ≤ key a → timed key (key a) (l ++ [a]).
Proof.
  intros [Hs Hb] Ha. split.
  - apply StronglySorted_app_2; [|done|repeat constructor].
    intros x y Hx ->%list_elem_of_singleton. specialize (Hb x Hx). lia.
  - intros x [Hx|Hx]%elem_of_app; [specialize (Hb x Hx); lia|set_solver].
Qed.

Lemma timed_shift key bound delta l :
  timed key bound l → timed (λ a, key a + delta) (bound + delta) l.
Proof.
  intros [Hs Hb]. split; [|intros a Ha; specialize (Hb a Ha); lia].
  clear Hb. induction Hs as [|x l Hs IH Hx]; constructor; [done|].
  eapply Forall_impl; [exact Hx|]. cbv beta. lia.
Qed.

(** [ml'] is [ml] without its first [k] entries. *)
Record dropped (k : nat) (ml ml' : mac_learning) : Prop := {
  dr_wf : ml_wf ml';
  dr_config : config ml' = config ml;
  dr_lrus : ml_lrus ml' = drop k (ml_lrus ml);
  dr_entries : ∀ b, ml_entries ml' !! b = if decide (b ∈ take k (ml_lrus ml)) then None else ml_entries ml !! b
}.

Lemma expire_lru_spec ml a l :
  ml_wf ml → ml_lrus ml = a :: l →
  ∃ ml', mac_learning_expire (with_revalidate ml true) a = Some ml' ∧ dropped 1 ml ml'
    ∧ ml_need_revalidate ml' = true.
Proof.
  intros Hw Hl. pose proof (wf_lrus_NoDup ml Hw) as Hnd.
  assert (Hw' : ml_wf (with_revalidate ml true)) by (destruct Hw; by split).
  destruct (expire_spec _ a Hw') as (table & -> & Hw2); [simpl; rewrite Hl; set_solver|].
  eexists. split; [done|]. split; [|done]. rewrite Hl in Hnd. apply NoDup_cons in Hnd as [Hna _].
  split; [exact Hw2|done| |]; simpl; rewrite Hl.
  - unfold lru_remove. rewrite filter_cons_False by naive_solver. simpl.
    apply filter_all_in. by intros b Hb ->.
  - intros b. destruct (decide (b = a)) as [->|Hne].
    + rewrite lookup_delete_eq. by rewrite decide_True by set_solver.
    + rewrite lookup_delete_ne by done. by rewrite decide_False by set_solver.
Qed.

Lemma dropped_refl ml : ml_wf ml → dropped 0 ml ml.
Proof. intros Hw. split; [done|done|done|]. intros b. rewrite decide_False by set_solver. done. Qed.

Lemma dropped_trans j k ml1 ml2 ml3 : dropped j ml1 ml2 → dropped k ml2 ml3 → dropped (j + k) ml1 ml3.
Proof.
  intros [W1 C1 L1 E1] [W2 C2 L2 E2]. split; [done|congruence| |].
  - by rewrite L2, L1, drop_drop.
  - intros b. rewrite E2, E1, L1, <- take_take_drop. repeat case_decide; set_solver.
Qed.

Lemma dropped_expires k ml ml' a : dropped k ml ml' → a ∈ ml_lrus ml' → expires_at ml' a = expires_at ml a.
Proof.
  intros Hd Ha. pose proof (dr_entries _ _ _ Hd a) as E. unfold expires_at.
  apply (mw_dom ml' (dr_wf _ _ _ Hd)) in Ha as [e He]. rewrite He in E |- *.
  case_decide; [done|]. by rewrite <- E.
Qed.

Lemma flush_loop_spec fuel ml :
  ml_wf ml → (length (ml_lrus ml) ≤ fuel)%nat →
  ∃ ml', flush_loop fuel ml = Some ml' ∧ dropped (length (ml_lrus ml)) ml ml'
    ∧ ml_need_revalidate ml' = ml_need_revalidate ml || negb (bool_decide (ml_lrus ml = [])).
Proof.
  revert ml. induction fuel as [|fuel IH]; intros ml Hw Hf; simpl.
  - exists ml. destruct (ml_lrus ml); [|simpl in Hf; lia].
    split; [done|]. split; [by apply dropped_refl|]. by rewrite orb_false_r.
  - unfold get_lru. destruct (ml_lrus ml) as [|a l] eqn:Hl; simpl.
    + exists ml. split; [done|]. split; [by apply dropped_refl|]. by rewrite orb_false_r.
    + destruct (expire_lru_spec ml a l Hw Hl) as (ml1 & -> & Hd & Hr). simpl.
      pose proof (dr_lrus _ _ _ Hd) as Hl1. rewrite Hl in Hl1. simpl in Hl1. rewrite drop_0 in Hl1.
      destruct (IH ml1 (dr_wf _ _ _ Hd)) as (ml2 & -> & Hd2 & Hr2); [rewrite Hl1; simpl in Hf; lia|].
      exists ml2. split; [done|]. split.
      * rewrite Hl1 in Hd2. exact (dropped_trans _ _ _ _ _ Hd Hd2).
      * rewrite Hr2, Hr. simpl. by rewrite orb_true_r.
Qed.

(** What [mac_learning_run] removes and keeps. *)
Lemma run_loop_spec fuel now ml :
  ml_wf ml → (length (ml_lrus ml) ≤ fuel)%nat →
  ∃ ml' k, run_loop fuel now ml = Some ml' ∧ (k ≤ length (ml_lrus ml))%nat ∧ dropped k ml ml'
    ∧ ml_need_revalidate ml' = ml_need_revalidate ml || bool_decide (0 < k)%nat
    ∧ (∀ i a, (i < k)%nat → ml_lrus ml !! i = Some a →
         ml_max_entries ml < Z.of_nat (length (ml_lrus ml) - i) ∨ expires_at ml a ≤ now)
    ∧ (∀ a l, ml_lrus ml' = a :: l →
         Z.of_nat (length (ml_lrus ml')) ≤ ml_max_entries ml ∧ now < expires_at ml' a).
Proof.
  revert ml. induction fuel as [|fuel IH]; intros ml Hw Hf; simpl.
  - exists ml, 0%nat. destruct (ml_lrus ml); [|simpl in Hf; lia]. split; [done|].
    split; [done|]. split; [by apply dropped_refl|]. rewrite orb_false_r.
    split; [done|]. split; [intros; lia|done].
  - unfold get_lru. destruct (ml_lrus ml) as [|a l] eqn:Hl; simpl.
    + exists ml, 0%nat. split; [done|]. split; [done|]. split; [by apply dropped_refl|].
      rewrite orb_false_r. split; [done|]. split; [intros; lia|]. rewrite Hl. done.
    + destruct (proj1 (mw_dom ml Hw a)) as [e He]; [rewrite Hl; set_solver|].
      assert (Hexp : expires_at ml a = me_expires e) by (unfold expires_at; by rewrite He).
      unfold should_expire. rewrite He. simpl. rewrite (wf_count ml Hw), Hl.
      destruct (_ || _) eqn:Hb.
      * destruct (expire_lru_spec ml a l Hw Hl) as (ml1 & -> & Hd & Hr). simpl.
        pose proof (dr_lrus _ _ _ Hd) as Hl1. rewrite Hl in Hl1. simpl in Hl1. rewrite drop_0 in Hl1.
        pose proof (dr_config _ _ _ Hd) as [= _ _ _ Hmx _].
        destruct (IH ml1 (dr_wf _ _ _ Hd)) as (ml2 & k & -> & Hk & Hd2 & Hr2 & Hrem & Hkeep);
          [rewrite Hl1; simpl in Hf; lia|].
        exists ml2, (S k). split; [done|]. rewrite Hl1 in Hk. split; [simpl; lia|].
        split; [exact (dropped_trans 1 k _ _ _ Hd Hd2)|].
        rewrite Hr2, Hr, (bool_decide_true (0 < S k)%nat), orb_true_r by lia. split; [done|].
        rewrite Hmx in *. split; [|done].
        intros [|i] b Hi Hib; simpl in Hib.
        -- injection Hib as <-. simpl in *. rewrite Hexp.
           apply orb_true_iff in Hb as [?%Z.ltb_lt|?%Z.leb_le]; [left|right]; lia.
        -- assert (Hin : b ∈ ml_lrus ml1) by (rewrite Hl1; by eapply list_elem_of_lookup_2).
           rewrite <- Hl1 in Hib. destruct (Hrem i b ltac:(lia) Hib) as [?|Hx].
           ++ left. rewrite Hl1 in *. simpl. lia.
           ++ right. by rewrite (dropped_expires 1 ml ml1) in Hx.
      * exists ml, 0%nat. split; [done|]. split; [lia|]. split; [by apply dropped_refl|].
        rewrite orb_false_r. split; [done|]. split; [intros; lia|].
        intros b l' E. rewrite Hl in E |- *. injection E as <- <-.
        apply orb_false_iff in Hb as [?%Z.ltb_ge ?%Z.leb_gt]. rewrite Hexp. simpl in *. lia.
Qed.

(** ** Configuration changes *)

Lemma fold_shift delta l es b :
  NoDup l →
  foldl (shift_expires delta) es l !! b =
    if decide (b ∈ l) then (λ e, with_expires e (me_expires e + delta)) <$> es !! b else es !! b.
Proof.
  intros Hnd. revert es. induction Hnd as [|a l Ha Hnd IH]; intros es.
  - rewrite decide_False by set_solver. done.
  - cbn [foldl]. rewrite IH. unfold shift_expires. destruct (decide (b = a)) as [->|Hne].
    + rewrite decide_False by done. rewrite decide_True by set_solver. apply lookup_alter_eq.
    + rewrite lookup_alter_ne by done. by repeat case_decide; set_solver.
Qed.

Lemma set_idle_time_spec ml idle_time :
  ml_wf ml →
  let ml' := mac_learning_set_idle_time ml idle_time in
  ml_wf ml' ∧ ml_lrus ml' = ml_lrus ml
  ∧ ∀ a, a ∈ ml_lrus ml →
      expires_at ml' a = expires_at ml a + (ml_idle_time ml' - ml_idle_time ml).
Proof.
  intros Hw. pose proof (wf_lrus_NoDup ml Hw) as Hnd. unfold mac_learning_set_idle_time.
  destruct (Z.eqb_spec (normalize_idle_time idle_time) (ml_idle_time ml)) as [_|Hne].
  - split; [done|]. split; [done|]. intros. lia.
  - set (delta := normalize_idle_time idle_time - ml_idle_time ml).
    assert (Hw' : ml_wf (with_entries ml (foldl (shift_expires delta) (ml_entries ml) (ml_lrus ml)))).
    { apply ml_wf_entries; [done|]. intros b. rewrite fold_shift by done.
      case_decide; [|done]. by destruct (ml_entries ml !! b). }
    split; [destruct Hw'; by split|]. split; [done|]. intros a Ha.
    unfold expires_at. simpl. rewrite fold_shift, decide_True by done.
    apply (mw_dom ml Hw) in Ha as [e ->]. done.
Qed.

(** ** Reachable tables *)

(** One operation, with the time of the last reading of the clock. *)
Inductive ml_step : mac_learning * Z → mac_learning * Z → Prop :=
| mls_insert ml t now addr mac vlan ml' a :
    t ≤ now → ml_entries ml !! addr = None →
    mac_learning_insert ml now addr mac vlan = Some (ml', a) → ml_step (ml, t) (ml', now)
| mls_set_port ml t a p :
    ml_step (ml, t) (with_entries ml (alter (λ e, with_port e p) a (ml_entries ml)), t)
| mls_grat_arp ml t now a :
    t ≤ now →
    ml_step (ml, t) (with_entries ml (alter (mac_entry_set_grat_arp_lock now) a (ml_entries ml)), now)
| mls_changed ml t : ml_step (ml, t) (mac_learning_changed ml, t)
| mls_expire ml t a ml' :
    a ∈ ml_lrus ml → mac_learning_expire ml a = Some ml' → ml_step (ml, t) (ml', t)
| mls_flush ml t ml' : mac_learning_flush ml = Some ml' → ml_step (ml, t) (ml', t)
| mls_run ml t now ml' b :
    t ≤ now → mac_learning_run now ml = Some (ml', b) → ml_step (ml, t) (ml', now)
| mls_set_idle_time ml t idle : ml_step (ml, t) (mac_learning_set_idle_time ml idle, t)
| mls_set_max_entries ml t n : ml_step (ml, t) (mac_learning_set_max_entries ml n, t)
| mls_set_flood_vlans ml t bm : ml_step (ml, t) ((mac_learning_set_flood_vlans ml bm).1, t).

Definition ml_reachable (secret idle : Z) (ml : mac_learning) (t : Z) : Prop :=
  ∃ t0, rtc ml_step (mac_learning_create secret idle, t0) (ml, t).

Record ml_inv (ml : mac_learning) (t : Z) : Prop := {
  mi_wf : ml_wf ml;
  mi_timed : timed (expires_at ml) (t + ml_idle_time ml) (ml_lrus ml)
}.

Lemma ml_create_inv secret idle t : ml_inv (mac_learning_create secret idle) t.
Proof.
  split; [split; simpl|].
  - apply hmap_init_represents.
  - intros a. split; [set_solver|]. rewrite lookup_empty. by intros [? ?].
  - intros a e. by rewrite lookup_empty.
  - intros a a' e e'. by rewrite lookup_empty.
  - by unfold MAC_DEFAULT_MAX.
  - split; [constructor|set_solver].
Qed.

(** Changing fields of one entry other than its key and its expiration. *)
Lemma alter_entry_inv ml t a (f : mac_entry → mac_entry) :
  (∀ e, key_of (f e) = key_of e) → (∀ e, me_expires (f e) = me_expires e) →
  ml_inv ml t → ml_inv (with_entries ml (alter f a (ml_entries ml))) t.
Proof.
  intros Hk He [Hw Ht]. split.
  - apply ml_wf_entries; [done|]. intros b. by apply alter_keys.
  - eapply timed_ext; [|exact Ht]. intros b _. unfold expires_at. simpl.
    destruct (decide (a = b)) as [<-|Hne]; [|by rewrite lookup_alter_ne].
    rewrite lookup_alter_eq. destruct (ml_entries ml !! a); simpl; [by rewrite He|done].
Qed.

Lemma dropped_inv k ml ml' t : ml_inv ml t → dropped k ml ml' → ml_inv ml' t.
Proof.
  intros [Hw Ht] Hd. split; [apply Hd|].
  pose proof (dr_config _ _ _ Hd) as [= _ _ Hid _ _]. rewrite Hid.
  eapply (timed_ext (expires_at ml)); [intros a Ha; symmetry; by eapply dropped_expires|].
  eapply timed_sublist; [|exact Ht]. rewrite (dr_lrus _ _ _ Hd). apply sublist_drop.
Qed.

Lemma expire_inv ml t a ml' :
  ml_inv ml t → a ∈ ml_lrus ml → mac_learning_expire ml a = Some ml' → ml_inv ml' t.
Proof.
  intros [Hw Ht] Ha He. destruct (expire_spec ml a Hw Ha) as (table & He' & Hw').
  rewrite He in He'. injection He' as ->. split; [done|]. simpl.
  eapply (timed_ext (expires_at ml)).
  - intros b [Hne _]%elem_of_lru_remove. unfold expires_at. simpl. by rewrite lookup_delete_ne.
  - eapply timed_sublist; [|exact Ht]. apply sublist_filter.
Qed.

Lemma insert_inv ml t now addr mac vlan ml' a :
  ml_inv ml t → t ≤ now → ml_entries ml !! addr = None →
  mac_learning_insert ml now addr mac vlan = Some (ml', a) → ml_inv ml' now.
Proof.
  intros [Hw Ht] Hle Hfresh Hi.
  destruct (insert_spec ml now addr mac vlan Hw Hfresh)
    as (ml1 & a1 & e & Hi' & Hw' & Hcfg & _ & _ & _ & Hexp & Hl & He & Ha).
  rewrite Hi in Hi'. injection Hi' as <- <-. injection Hcfg as _ _ Hid _ _.
  split; [done|]. rewrite Hid, <- Hexp. pose proof (wf_lrus_NoDup ml' Hw') as Hnd.
  set (l := match mac_entry_lookup ml mac vlan, victim ml mac vlan with
            | Some _, _ => _ | None, Some _ => _ | None, None => _ end) in *.
  assert (Hsub : l `sublist_of` ml_lrus ml).
  { unfold l. destruct (mac_entry_lookup ml mac vlan), (victim ml mac vlan);
      [apply sublist_filter..| |done]. destruct (ml_lrus ml); [done|by constructor]. }
  assert (Hea : expires_at ml' a = me_expires e).
  { unfold expires_at. by rewrite He, lookup_insert_eq. }
  rewrite <- Hea, Hl. apply (timed_snoc _ (t + ml_idle_time ml)); [|lia].
  eapply (timed_ext (expires_at ml)); [|by eapply timed_sublist].
  intros b Hb. unfold expires_at. rewrite He. rewrite Hl in Hnd. apply NoDup_app in Hnd as (_ & Hd & _).
  rewrite lookup_insert_ne by (intros ->; apply (Hd b Hb); set_solver).
  destruct (victim ml mac vlan) as [v|] eqn:Hv; [|done]. rewrite lookup_delete_ne; [done|].
  intros ->. assert (Hbl : b ∈ ml_lrus ml') by (rewrite Hl; set_solver).
  apply (mw_dom ml' Hw') in Hbl as [x Hx]. rewrite He, lookup_insert_ne, lookup_delete_eq in Hx; [done|].
  intros ->. apply (Hd b Hb). set_solver.
Qed.

Lemma ml_step_inv s s' : ml_step s s' → ml_inv s.1 s.2 → ml_inv s'.1 s'.2.
Proof.
  intros Hs Hi. pose proof Hi as [Hw Ht].
  destruct Hs as [ml t now addr mac vlan ml' a Hle Hf He|ml t a p|ml t now a Hle|ml t|ml t a ml' Ha He
    |ml t ml' Hfl|ml t now ml' b Hle Hr|ml t idle|ml t n|ml t bm]; simpl in *.
  - by eapply insert_inv.
  - by apply alter_entry_inv.
  - apply alter_entry_inv; [done|done|]. split; [done|]. eapply timed_weaken; [|exact Ht]. lia.
  - split; [destruct Hw; by split|done].
  - by eapply expire_inv.
  - unfold mac_learning_flush in Hfl.
    destruct (flush_loop_spec (length (ml_lrus ml)) ml Hw) as (ml1 & Hf & Hd & _); [done|].
    rewrite Hf in Hfl. injection Hfl as <-. destruct (dropped_inv _ _ _ _ Hi Hd) as [[Hr ? ? ? ?] Ht1].
    split; [split; simpl; try done|done].
    eapply hmap_step_represents; [exact Hr|apply hms_shrink].
  - unfold mac_learning_run in Hr.
    destruct (run_loop_spec (length (ml_lrus ml)) now ml Hw) as (ml1 & k & Hrl & _ & Hd & _); [done|].
    rewrite Hrl in Hr. injection Hr as <- <-. destruct (dropped_inv _ _ _ _ Hi Hd) as [Hw1 Ht1].
    split; [destruct Hw1; by split|]. eapply timed_weaken; [|exact Ht1]. simpl. lia.
  - destruct (set_idle_time_spec ml idle Hw) as (Hw' & Hl & He). split; [done|]. rewrite Hl.
    eapply (timed_ext (λ a, expires_at ml a + (ml_idle_time (mac_learning_set_idle_time ml idle) - ml_idle_time ml))).
    + intros a Ha. symmetry. by apply He.
    + replace (t + ml_idle_time (mac_learning_set_idle_time ml idle)) with
        (t + ml_idle_time ml + (ml_idle_time (mac_learning_set_idle_time ml idle) - ml_idle_time ml)) by lia.
      by apply timed_shift.
  - split; [destruct Hw; split; simpl; try done; destruct_ifs; lia|done].
  - unfold mac_learning_set_flood_vlans. destruct (vlan_bitmap_equal _ _); [done|].
    split; [destruct Hw; by split|done].
Qed.

Lemma ml_reachable_inv secret idle ml t : ml_reachable secret idle ml t → ml_inv ml t.
Proof.
  intros [t0 Hs]. assert (H : ∀ s s', rtc ml_step s s' → ml_inv s.1 s.2 → ml_inv s'.1 s'.2).
  { induction 1; eauto using ml_step_inv. }
  apply (H _ _ Hs), ml_create_inv.
Qed.

(** ** Theorems *)

Lemma victim_head ml mac vlan v :
  victim ml mac vlan = Some v →
  mac_entry_lookup ml mac vlan = None ∧ head (ml_lrus ml) = Some v
  ∧ ml_max_entries ml ≤ hmap_count (ml_table ml).
Proof.
  unfold victim. destruct (mac_entry_lookup ml mac vlan); [done|].
  destruct (Z.leb_spec (ml_max_entries ml) (hmap_count (ml_table ml))); [|done].
  intros ?. done.
Qed.

(** Other keys keep their entries, apart from the one that was evicted. *)
Lemma insert_lookup_other ml ml' a e mac vlan mac' vlan' :
  ml_wf ml → ml_wf ml' → (mac', vlan') ≠ (mac, vlan) → me_mac e = mac → me_vlan e = vlan →
  (∀ e0, ml_entries ml !! a = Some e0 → me_mac e0 = mac ∧ me_vlan e0 = vlan) →
  ml_entries ml' = <[a := e]> match victim ml mac vlan with
                              | Some v => delete v (ml_entries ml) | None => ml_entries ml end →
  mac_entry_lookup ml' mac' vlan' =
    match mac_entry_lookup ml mac' vlan' with
    | Some b => if decide (victim ml mac vlan = Some b) then None else Some b
    | None => None
    end.
Proof.
  intros Hw Hw' Hne Hm Hv Ha He.
  assert (Hget : ∀ b e', b ≠ a →
    ml_entries ml' !! b = Some e' ↔ ml_entries ml !! b = Some e' ∧ victim ml mac vlan ≠ Some b).
  { intros b e' Hba. rewrite He, lookup_insert_ne by done.
    destruct (victim ml mac vlan) as [v|]; [|naive_solver].
    rewrite lookup_delete_Some. naive_solver. }
  assert (Hother : ∀ b e', ml_entries ml' !! b = Some e' → me_mac e' = mac' → me_vlan e' = vlan' → b ≠ a).
  { intros b e' Hb Em Ev ->. rewrite He, lookup_insert_eq in Hb. injection Hb as <-. apply Hne. congruence. }
  apply option_eq. intros b. rewrite (lookup_spec ml') by done. split.
  - intros (e' & Hb & Em & Ev). pose proof (Hother b e' Hb Em Ev) as Hba.
    apply Hget in Hb as [Hb Hnv]; [|done].
    assert (mac_entry_lookup ml mac' vlan' = Some b) as -> by (apply lookup_spec; [done|by exists e']).
    by rewrite decide_False.
  - destruct (mac_entry_lookup ml mac' vlan') as [b'|] eqn:Hl; [|done]. case_decide as Hd; [done|].
    intros [= ->]. apply lookup_spec in Hl as (e' & Hb & Em & Ev); [|done].
    assert (Hba : b ≠ a) by (intros ->; destruct (Ha e' Hb); apply Hne; congruence).
    exists e'. split; [by apply Hget|done].
Qed.

(** C23: On every table reached by learning, aging and reconfiguration,
    [mac_learning_insert] succeeds (it never dereferences the null pointer
    that [get_lru] yields for an empty list) and returns the entry for the
    MAC and VLAN, marked as most recently used and with a full idle time: the
    existing entry with its port if there was one, otherwise a new one with
    no port.  Every other key keeps its entry, except that a full table gives
    up its least recently used entry; and a table within its limit stays
    within it. *)
Theorem mac_learning_insert_correct secret idle ml t now addr mac vlan :
  ml_reachable secret idle ml t → ml_entries ml !! addr = None →
  ∃ ml' a e, mac_learning_insert ml now addr mac vlan = Some (ml', a)
    ∧ ml_entries ml' !! a = Some e ∧ me_mac e = mac ∧ me_vlan e = vlan
    ∧ me_expires e = now + ml_idle_time ml ∧ last (ml_lrus ml') = Some a
    ∧ match mac_entry_lookup ml mac vlan with
      | Some a0 => a = a0 ∧ Some (me_port e) = me_port <$> ml_entries ml !! a0
      | None => a = addr ∧ me_port e = None
      end
    ∧ mac_entry_lookup ml' mac vlan = Some a
    ∧ (∀ v, victim ml mac vlan = Some v →
         head (ml_lrus ml) = Some v ∧ ml_max_entries ml ≤ hmap_count (ml_table ml))
    ∧ (∀ mac' vlan', (mac', vlan') ≠ (mac, vlan) →
         mac_entry_lookup ml' mac' vlan' =
           match mac_entry_lookup ml mac' vlan' with
           | Some b => if decide (victim ml mac vlan = Some b) then None else Some b
           | None => None
           end)
    ∧ (hmap_count (ml_table ml) ≤ ml_max_entries ml →
       hmap_count (ml_table ml') ≤ ml_max_entries ml').
Proof.
  intros Hr Hfresh. destruct (ml_reachable_inv _ _ _ _ Hr) as [Hw _].
  destruct (insert_spec ml now addr mac vlan Hw Hfresh)
    as (ml' & a & e & Hi & Hw' & Hcfg & _ & Hm & Hv & Hexp & Hl & He & Ha).
  injection Hcfg as _ _ _ Hmx _.
  assert (Hget : ml_entries ml' !! a = Some e) by (rewrite He; apply lookup_insert_eq).
  exists ml', a, e. split_and!; try done.
  - rewrite Hl. apply last_snoc.
  - destruct (mac_entry_lookup ml mac vlan) as [a0|]; [|by destruct Ha as (? & ? & ?)].
    destruct Ha as [-> (e0 & E0 & ->)]. by rewrite E0.
  - apply lookup_spec; [done|]. by exists e.
  - intros v (_ & ? & ?)%victim_head. done.
  - intros mac' vlan' Hne. eapply insert_lookup_other; try done.
    intros e0 E0. destruct (mac_entry_lookup ml mac vlan) as [a0|] eqn:Hlk.
    + destruct Ha as [-> _]. apply lookup_spec in Hlk as (e1 & E1 & ? & ?); [|done]. naive_solver.
    + destruct Ha as [-> _]. congruence.
  - rewrite (wf_count ml' Hw'), Hmx, Hl, length_app, (wf_count ml Hw). simpl.
    pose proof (wf_lrus_NoDup ml Hw) as Hnd.
    destruct (mac_entry_lookup ml mac vlan) as [a0|] eqn:Hlk.
    + destruct Ha as [-> _]. apply lookup_spec in Hlk as (e1 & E1 & _); [|done].
      assert (Hin : a0 ∈ ml_lrus ml) by (apply (mw_dom ml Hw); by exists e1).
      rewrite (lru_remove_perm a0 (ml_lrus ml) Hnd Hin) at 1. simpl. lia.
    + destruct (victim ml mac vlan) as [v|] eqn:Hvi.
      * apply victim_head in Hvi as (_ & Hh & _). destruct (ml_lrus ml); [done|]. simpl. lia.
      * unfold victim in Hvi. rewrite Hlk in Hvi. revert Hvi. rewrite (wf_count ml Hw).
        destruct (Z.leb_spec (ml_max_entries ml) (Z.of_nat (length (ml_lrus ml)))) as [Hge|Hlt];
          [|lia]. unfold get_lru. destruct (ml_lrus ml); [|done].
        pose proof (mw_max ml Hw). simpl in *. lia.
Qed.

(** [mac_learning_run] removes entries from the least recently used end
    only, each because it had expired or because the table was over its
    limit; afterwards no entry in the table has expired and the table is
    within its limit.  It reports a change exactly when it removed something
    or a change was pending, and clears the pending flag. *)
Theorem mac_learning_run_correct secret idle ml t now :
  ml_reachable secret idle ml t →
  ∃ ml' k, mac_learning_run now ml
           = Some (ml', ml_need_revalidate ml || bool_decide (0 < k)%nat)
    ∧ ml_need_revalidate ml' = false ∧ ml_lrus ml' = drop k (ml_lrus ml)
    ∧ (∀ i a, (i < k)%nat → ml_lrus ml !! i = Some a →
         ml_max_entries ml < Z.of_nat (length (ml_lrus ml) - i) ∨ expires_at ml a ≤ now)
    ∧ (∀ a, a ∈ ml_lrus ml' → now < expires_at ml' a ∧ ml_entries ml' !! a = ml_entries ml !! a)
    ∧ hmap_count (ml_table ml') ≤ ml_max_entries ml'.
Proof.
  intros Hr. pose proof (ml_reachable_inv _ _ _ _ Hr) as Hi. pose proof Hi as [Hw Ht].
  destruct (run_loop_spec (length (ml_lrus ml)) now ml Hw) as (ml1 & k & Hrl & Hk & Hd & Hrv & Hrem & Hkeep);
    [done|].
  destruct (dropped_inv _ _ _ _ Hi Hd) as [Hw1 [Hs1 _]].
  exists (with_revalidate ml1 false), k. unfold mac_learning_run. rewrite Hrl. simpl. rewrite Hrv.
  pose proof (dr_config _ _ _ Hd) as [= _ _ _ Hmx _].
  split_and!; [done|done|apply Hd|done| |].
  - intros a Ha. split.
    + destruct (ml_lrus ml1) as [|b l] eqn:El; [set_solver|].
      destruct (Hkeep b l eq_refl) as [_ Hb]. apply StronglySorted_cons in Hs1 as [Hall _].
      change (expires_at (with_revalidate ml1 false) a) with (expires_at ml1 a).
      apply elem_of_cons in Ha as [->|Ha]; [done|]. rewrite Forall_forall in Hall.
      specialize (Hall a Ha). cbv beta in Hall. lia.
    + apply (mw_dom ml1 Hw1) in Ha as [e He]. rewrite (dr_entries _ _ _ Hd) in He |- *.
      by case_decide.
  - rewrite (wf_count ml1 Hw1), Hmx. destruct (ml_lrus ml1) as [|b l] eqn:El.
    + pose proof (mw_max ml Hw). simpl. lia.
    + by destruct (Hkeep b l eq_refl).
Qed.

Lemma flush_spec ml :
  ml_wf ml →
  ∃ ml', mac_learning_flush ml = Some ml' ∧ ml_lrus ml' = [] ∧ ml_entries ml' = ∅
    ∧ ml_need_revalidate ml' = ml_need_revalidate ml || negb (bool_decide (ml_lrus ml = [])).
Proof.
  intros Hw. destruct (flush_loop_spec (length (ml_lrus ml)) ml Hw) as (ml1 & Hf & Hd & Hrv); [done|].
  unfold mac_learning_flush. rewrite Hf. eexists. split; [done|]. simpl.
  rewrite (dr_lrus _ _ _ Hd), drop_ge by done. split; [done|]. split; [|done].
  apply map_eq. intros a. rewrite (dr_entries _ _ _ Hd), lookup_empty, take_ge by done.
  case_decide as Ha; [done|]. destruct (ml_entries ml !! a) eqn:E; [|done].
  destruct Ha. apply (mw_dom ml Hw). by eexists.
Qed.

Lemma unlink_all_ok es table l :
  represents table (nodes_of es l) → (∀ a, a ∈ l → is_Some (es !! a)) →
  ∀ l', l' ≡ₚ l → is_Some (unlink_all es table l').
Proof.
  intros Hr Hd l' Hp. assert (Hr' : represents table (nodes_of es l')) by
    (by eapply represents_perm; [exact Hr|apply nodes_of_perm]).
  assert (Hd' : ∀ a, a ∈ l' → is_Some (es !! a)) by (intros a; rewrite Hp; auto).
  clear l Hr Hd Hp. revert es table Hr' Hd'.
  induction l' as [|a l IH]; intros es table Hr Hd; [by eexists|]. simpl.
  destruct (Hd a) as [e He]; [set_solver|]. rewrite He. simpl.
  assert (Hh : entry_hash es a = me_hash e) by (unfold entry_hash; by rewrite He).
  destruct (hmap_remove_data table (is_node a) (me_hash e) a) as [table' Ht];
    [apply Hr|rewrite (rep_nodes _ _ Hr); simpl; rewrite Hh; set_solver|by apply bool_decide_eq_true|].
  rewrite Ht. simpl. pose proof (rep_nodup _ _ Hr) as Hnd. rewrite data_nodes in Hnd.
  apply NoDup_cons in Hnd as [Hna _].
  assert (Hne : ∀ b, b ∈ l → b ≠ a) by (by intros b Hb ->).
  apply IH.
  - rewrite (nodes_of_ext _ es); [|intros b Hb; unfold entry_hash; by rewrite lookup_delete_ne by (symmetry; auto)].
    eapply hmap_step_represents; [exact Hr|]. eapply hms_remove; [|exact Ht]. simpl. by rewrite Hh.
  - intros b Hb. rewrite lookup_delete_ne by (symmetry; auto). apply Hd. set_solver.
Qed.

(** [mac_learning_lookup] finds nothing for a multicast destination or
    a flooding VLAN; otherwise it finds exactly the entry with that MAC and
    VLAN.  Its assertion fails exactly when that entry was inserted and never
    given a port.  [mac_learning_flush] leaves no entry and schedules
    revalidation if there was one, and changing the idle time leaves the age
    of every entry as it was. *)
Theorem mac_learning_lookup_correct secret idle ml t dst vlan :
  ml_reachable secret idle ml t →
  (eth_addr_is_multicast dst = true ∨ is_learning_vlan ml vlan = false →
     mac_learning_lookup ml dst vlan = Some None)
  ∧ (eth_addr_is_multicast dst = false → is_learning_vlan ml vlan = true →
       (∀ a, mac_learning_lookup ml dst vlan = Some (Some a) ↔
         ∃ e, ml_entries ml !! a = Some e ∧ me_mac e = dst ∧ me_vlan e = vlan ∧ me_port e ≠ None)
       ∧ (mac_learning_lookup ml dst vlan = Some None ↔
         ∀ a e, ml_entries ml !! a = Some e → ¬ (me_mac e = dst ∧ me_vlan e = vlan))
       ∧ (mac_learning_lookup ml dst vlan = None ↔
         ∃ a e, ml_entries ml !! a = Some e ∧ me_mac e = dst ∧ me_vlan e = vlan ∧ me_port e = None))
  ∧ (∃ ml', mac_learning_flush ml = Some ml' ∧ ml_entries ml' = ∅
       ∧ ml_need_revalidate ml' = ml_need_revalidate ml || negb (bool_decide (ml_lrus ml = [])))
  ∧ (∀ now i a e, let ml' := mac_learning_set_idle_time ml i in
       ml_entries ml !! a = Some e →
       ∃ e', ml_entries ml' !! a = Some e' ∧ mac_entry_age now ml' e' = mac_entry_age now ml e).
Proof.
  intros Hr. destruct (ml_reachable_inv _ _ _ _ Hr) as [Hw _]. split_and!.
  - unfold mac_learning_lookup. intros [->| ->]; [done|]. by destruct (eth_addr_is_multicast dst).
  - intros Hmc Hlv. unfold mac_learning_lookup. rewrite Hmc, Hlv. simpl.
    pose proof (lookup_none ml dst vlan Hw) as Hnone.
    pose proof (λ a, lookup_spec ml dst vlan a Hw) as Hsome.
    destruct (mac_entry_lookup ml dst vlan) as [a|].
    + destruct (proj1 (Hsome a) eq_refl) as (e & He & Hm & Hv). rewrite He. simpl.
      assert (Huniq : ∀ b e', ml_entries ml !! b = Some e' → me_mac e' = dst → me_vlan e' = vlan → b = a ∧ e' = e).
      { intros b e' E1 E2 E3. assert (Some a = Some b) as [= ->] by (apply Hsome; by exists e').
        split; [done|congruence]. }
      destruct (me_port e) as [p|] eqn:Ep; split_and!; try intros b; split; try done.
      * intros [= <-]. exists e. rewrite Ep. done.
      * intros (e' & E1 & E2 & E3 & _). by destruct (Huniq b e' E1 E2 E3) as [-> _].
      * intros Hno. by destruct (Hno a e).
      * intros (b & e' & E1 & E2 & E3 & E4). destruct (Huniq b e' E1 E2 E3) as [_ ->]. congruence.
      * intros (e' & E1 & E2 & E3 & E4). destruct (Huniq b e' E1 E2 E3) as [_ ->]. congruence.
      * intros Hno. by destruct (Hno a e).
      * intros _. by exists a, e.
    + pose proof (proj1 Hnone eq_refl) as Hno. split_and!; try intros b; split; try done.
      * intros (e & E1 & E2 & E3 & _). by destruct (Hno b e).
      * intros (b & e & E1 & E2 & E3 & _). by destruct (Hno b e).
  - destruct (flush_spec ml Hw) as (ml' & ? & _ & ? & ?). by exists ml'.
  - intros now i a e ml' He. unfold ml', mac_learning_set_idle_time.
    destruct (_ =? _); [by exists e|]. simpl. rewrite fold_shift by (by apply wf_lrus_NoDup).
    rewrite decide_True by (apply (mw_dom ml Hw); by exists e). rewrite He. eexists. split; [done|].
    unfold mac_entry_age. simpl. lia.
Qed.

(** Releasing a held reference never fails. *)
Lemma mac_learning_unref_ok ml : ml_wf ml → 0 < ml_ref_cnt ml → is_Some (mac_learning_unref ml).
Proof.
  intros Hw Hr. unfold mac_learning_unref. rewrite (proj2 (Z.ltb_lt _ _)) by done.
  destruct (_ =? 1); [|by eexists].
  destruct (unlink_all_ok (ml_entries ml) (ml_table ml) (ml_lrus ml)) with
    (l' := hmap_for_each (ml_table ml)) as [t ->]; [apply Hw|apply (mw_dom ml Hw)| |by eexists].
  pose proof (mw_rep ml Hw) as Hrep. rewrite hmap_for_each_nodes by apply Hrep.
  rewrite <- (data_nodes (ml_entries ml) (ml_lrus ml)). apply fmap_Permutation, Hrep.
Qed.

(** ** Examples *)

Definition ex_mac : list Z := [0; 1; 2; 3; 4; 5].
Definition ex_ml0 : mac_learning := mac_learning_create 7 300.
Definition ex_ml : mac_learning :=
  match mac_learning_insert ex_ml0 1000 1 ex_mac 10 with Some (ml, _) => ml | None => ex_ml0 end.

Lemma ex_ml_reachable : ml_reachable 7 300 ex_ml 1000.
Proof.
  exists 0. eapply rtc_l; [|apply rtc_refl].
  apply (mls_insert ex_ml0 0 1000 1 ex_mac 10 ex_ml 1); [lia|done|vm_compute; done].
Qed.

Lemma mac_learning_insert_correct_witness :
  mac_entry_lookup ex_ml ex_mac 10 = Some 1
  ∧ ∃ ml' a e, mac_learning_insert ex_ml 1010 2 ex_mac 10 = Some (ml', a) ∧ a = 1
      ∧ ml_entries ml' !! a = Some e ∧ me_expires e = 1310.
Proof.
  assert (Hl : mac_entry_lookup ex_ml ex_mac 10 = Some 1) by (vm_compute; done).
  split; [done|].
  destruct (mac_learning_insert_correct 7 300 ex_ml 1000 1010 2 ex_mac 10 ex_ml_reachable)
    as (ml' & a & e & Hi & He & _ & _ & Hx & _ & Ha & _); [vm_compute; done|].
  rewrite Hl in Ha. destruct Ha as [-> _]. exists ml', 1, e. split; [done|]. split; [done|].
  split; [done|]. rewrite Hx. vm_compute. done.
Defined.

Lemma mac_learning_run_correct_witness :
  ∃ ml' b, mac_learning_run 1400 ex_ml = Some (ml', b) ∧ hmap_count (ml_table ml') ≤ ml_max_entries ml'
    ∧ (∀ a, a ∈ ml_lrus ml' → 1400 < expires_at ml' a).
Proof.
  destruct (mac_learning_run_correct 7 300 ex_ml 1000 1400 ex_ml_reachable)
    as (ml' & k & Hr & _ & _ & _ & Hk & Hc).
  eexists ml', _. split; [exact Hr|]. split; [exact Hc|]. intros a Ha. by apply Hk.
Defined.

Lemma mac_learning_lookup_correct_witness :
  mac_learning_lookup ex_ml ex_mac 10 = None ∧ mac_learning_lookup ex_ml [1; 0; 0; 0; 0; 0] 10 = Some None.
Proof.
  split; [vm_compute; done|].
  destruct (mac_learning_lookup_correct 7 300 ex_ml 1000 [1; 0; 0; 0; 0; 0] 10 ex_ml_reachable) as [Hm _].
  apply Hm. left. vm_compute. done.
Defined.
