(* ===== verification/Stp.v ===== *)
(** * Spanning tree (lib/stp.h, lib/stp.c)

    One bridge's spanning tree instance as a state machine: the bridge and
    its array of [STP_MAX_PORTS] ports in one state, a port being an index
    into the array (null for a root port is [None]), and the frames given to
    the [send_bpdu] callback as a list.  Arithmetic on [int] wraps at 32 bits.
    The recursive mutex serialises the operations; a callback that feeds a
    frame straight back into the same instance is not modelled. *)
From stdpp Require Import strings.
From S2P Require Import Prelude ByteOrder.

(** ** Data *)

(** [STP_ZERO] is the value 0 of a port that [stp_create] has allocated and
    not yet initialised; it is not an enumerator. *)
Inductive stp_state :=
  STP_ZERO | STP_DISABLED | STP_LISTENING | STP_LEARNING | STP_FORWARDING | STP_BLOCKING.

#[global] Instance stp_state_eq_dec : EqDecision stp_state.
Proof. solve_decision. Defined.

Definition stp_state_bit (st : stp_state) : Z :=
  match st with
  | STP_ZERO => 0
  | STP_DISABLED => Z.shiftl 1 0
  | STP_LISTENING => Z.shiftl 1 1
  | STP_LEARNING => Z.shiftl 1 2
  | STP_FORWARDING => Z.shiftl 1 3
  | STP_BLOCKING => Z.shiftl 1 4
  end.

(** [state & (A | B | ...)] *)
Definition state_in (st : stp_state) (states : list stp_state) : bool :=
  negb (Z.land (stp_state_bit st) (foldr (λ s m, Z.lor (stp_state_bit s) m) 0 states) =? 0).

Inductive stp_role := STP_ROLE_ROOT | STP_ROLE_DESIGNATED | STP_ROLE_ALTERNATE | STP_ROLE_DISABLED.

Record stp_timer := StpTimer { tm_active : bool; tm_value : Z }.

(** The fields of a config BPDU in host byte order. *)
Record stp_config_bpdu := StpConfigBpdu {
  cb_protocol_id : Z;
  cb_protocol_version : Z;
  cb_bpdu_type : Z;
  cb_flags : Z;
  cb_root_id : Z;
  cb_root_path_cost : Z;
  cb_bridge_id : Z;
  cb_port_id : Z;
  cb_message_age : Z;
  cb_max_age : Z;
  cb_hello_time : Z;
  cb_forward_delay : Z
}.

Definition STP_MAX_PORTS : nat := 255.
Definition STP_PROTOCOL_ID : Z := 0.
Definition STP_PROTOCOL_VERSION : Z := 0.
Definition STP_TYPE_CONFIG : Z := 0.
Definition STP_TYPE_TCN : Z := 0x80.
Definition STP_CONFIG_TOPOLOGY_CHANGE_ACK : Z := 0x80.
Definition STP_CONFIG_TOPOLOGY_CHANGE : Z := 0x01.
Definition MESSAGE_AGE_INCREMENT : Z := 1.
Definition STP_DEFAULT_BRIDGE_PRIORITY : Z := 32768.
Definition STP_DEFAULT_PORT_PRIORITY : Z := 128.
Definition STP_DEFAULT_MAX_AGE : Z := 20000.
Definition STP_DEFAULT_HELLO_TIME : Z := 2000.
Definition STP_DEFAULT_FWD_DELAY : Z := 15000.
Definition STP_LLC_SSAP : Z := 0x42.
Definition STP_LLC_DSAP : Z := 0x42.
Definition STP_LLC_CNTL : Z := 0x03.
Definition eth_addr_stp : list Z := [0x01; 0x80; 0xC2; 0x00; 0x00; 0x00].

Record stp_port := StpPort {
  sp_aux : option Z;
  sp_port_id : Z;
  sp_state : stp_state;
  sp_path_cost : Z;
  sp_designated_root : Z;
  sp_designated_cost : Z (* int *);
  sp_designated_bridge : Z;
  sp_designated_port : Z;
  sp_topology_change_ack : bool;
  sp_config_pending : bool;
  sp_change_detection_enabled : bool;
  sp_message_age_timer : stp_timer;
  sp_forward_delay_timer : stp_timer;
  sp_hold_timer : stp_timer;
  sp_tx_count : Z;
  sp_rx_count : Z;
  sp_error_count : Z;
  sp_state_changed : bool
}.

Record stp := Stp {
  st_bridge_id : Z;
  st_max_age : Z;
  st_hello_time : Z;
  st_forward_delay : Z;
  st_bridge_max_age : Z;
  st_bridge_hello_time : Z;
  st_bridge_forward_delay : Z;
  st_rq_max_age : Z;
  st_rq_hello_time : Z;
  st_rq_forward_delay : Z;
  st_elapsed_remainder : Z;
  st_designated_root : Z;
  st_root_path_cost : Z (* unsigned int *);
  st_root_port : option nat;
  st_topology_change_detected : bool;
  st_topology_change : bool;
  st_hello_timer : stp_timer;
  st_tcn_timer : stp_timer;
  st_topology_change_timer : stp_timer;
  st_ports : list stp_port;
  st_fdb_needs_flush : bool;
  st_first_changed_port : nat;
  st_sent : list (nat * list Z) (* frames passed to send_bpdu *);
  st_ref_cnt : Z
}.

(** ** Assignments to single fields *)

Definition set_sp_aux (p : stp_port) (v : option Z) : stp_port :=
  StpPort v (sp_port_id p) (sp_state p) (sp_path_cost p) (sp_designated_root p)
    (sp_designated_cost p) (sp_designated_bridge p) (sp_designated_port p)
    (sp_topology_change_ack p) (sp_config_pending p) (sp_change_detection_enabled p)
    (sp_message_age_timer p) (sp_forward_delay_timer p) (sp_hold_timer p) (sp_tx_count p)
    (sp_rx_count p) (sp_error_count p) (sp_state_changed p).
Definition set_sp_port_id (p : stp_port) (v : Z) : stp_port :=
  StpPort (sp_aux p) v (sp_state p) (sp_path_cost p) (sp_designated_root p) (sp_designated_cost
    p) (sp_designated_bridge p) (sp_designated_port p) (sp_topology_change_ack p)
    (sp_config_pending p) (sp_change_detection_enabled p) (sp_message_age_timer p)
    (sp_forward_delay_timer p) (sp_hold_timer p) (sp_tx_count p) (sp_rx_count p) (sp_error_count
    p) (sp_state_changed p).
Definition set_sp_state (p : stp_port) (v : stp_state) : stp_port :=
  StpPort (sp_aux p) (sp_port_id p) v (sp_path_cost p) (sp_designated_root p)
    (sp_designated_cost p) (sp_designated_bridge p) (sp_designated_port p)
    (sp_topology_change_ack p) (sp_config_pending p) (sp_change_detection_enabled p)
    (sp_message_age_timer p) (sp_forward_delay_timer p) (sp_hold_timer p) (sp_tx_count p)
    (sp_rx_count p) (sp_error_count p) (sp_state_changed p).
Definition set_sp_path_cost (p : stp_port) (v : Z) : stp_port :=
  StpPort (sp_aux p) (sp_port_id p) (sp_state p) v (sp_designated_root p) (sp_designated_cost p)
    (sp_designated_bridge p) (sp_designated_port p) (sp_topology_change_ack p)
    (sp_config_pending p) (sp_change_detection_enabled p) (sp_message_age_timer p)
    (sp_forward_delay_timer p) (sp_hold_timer p) (sp_tx_count p) (sp_rx_count p) (sp_error_count
    p) (sp_state_changed p).
Definition set_sp_designated_root (p : stp_port) (v : Z) : stp_port :=
  StpPort (sp_aux p) (sp_port_id p) (sp_state p) (sp_path_cost p) v (sp_designated_cost p)
    (sp_designated_bridge p) (sp_designated_port p) (sp_topology_change_ack p)
    (sp_config_pending p) (sp_change_detection_enabled p) (sp_message_age_timer p)
    (sp_forward_delay_timer p) (sp_hold_timer p) (sp_tx_count p) (sp_rx_count p) (sp_error_count
    p) (sp_state_changed p).
Definition set_sp_designated_cost (p : stp_port) (v : Z) : stp_port :=
  StpPort (sp_aux p) (sp_port_id p) (sp_state p) (sp_path_cost p) (sp_designated_root p) v
    (sp_designated_bridge p) (sp_designated_port p) (sp_topology_change_ack p)
    (sp_config_pending p) (sp_change_detection_enabled p) (sp_message_age_timer p)
    (sp_forward_delay_timer p) (sp_hold_timer p) (sp_tx_count p) (sp_rx_count p) (sp_error_count
    p) (sp_state_changed p).
Definition set_sp_designated_bridge (p : stp_port) (v : Z) : stp_port :=
  StpPort (sp_aux p) (sp_port_id p) (sp_state p) (sp_path_cost p) (sp_designated_root p)
    (sp_designated_cost p) v (sp_designated_port p) (sp_topology_change_ack p)
    (sp_config_pending p) (sp_change_detection_enabled p) (sp_message_age_timer p)
    (sp_forward_delay_timer p) (sp_hold_timer p) (sp_tx_count p) (sp_rx_count p) (sp_error_count
    p) (sp_state_changed p).
Definition set_sp_designated_port (p : stp_port) (v : Z) : stp_port :=
  StpPort (sp_aux p) (sp_port_id p) (sp_state p) (sp_path_cost p) (sp_designated_root p)
    (sp_designated_cost p) (sp_designated_bridge p) v (sp_topology_change_ack p)
    (sp_config_pending p) (sp_change_detection_enabled p) (sp_message_age_timer p)
    (sp_forward_delay_timer p) (sp_hold_timer p) (sp_tx_count p) (sp_rx_count p) (sp_error_count
    p) (sp_state_changed p).
Definition set_sp_topology_change_ack (p : stp_port) (v : bool) : stp_port :=
  StpPort (sp_aux p) (sp_port_id p) (sp_state p) (sp_path_cost p) (sp_designated_root p)
    (sp_designated_cost p) (sp_designated_bridge p) (sp_designated_port p) v (sp_config_pending
    p) (sp_change_detection_enabled p) (sp_message_age_timer p) (sp_forward_delay_timer p)
    (sp_hold_timer p) (sp_tx_count p) (sp_rx_count p) (sp_error_count p) (sp_state_changed p).
Definition set_sp_config_pending (p : stp_port) (v : bool) : stp_port :=
  StpPort (sp_aux p) (sp_port_id p) (sp_state p) (sp_path_cost p) (sp_designated_root p)
    (sp_designated_cost p) (sp_designated_bridge p) (sp_designated_port p)
    (sp_topology_change_ack p) v (sp_change_detection_enabled p) (sp_message_age_timer p)
    (sp_forward_delay_timer p) (sp_hold_timer p) (sp_tx_count p) (sp_rx_count p) (sp_error_count
    p) (sp_state_changed p).
Definition set_sp_change_detection_enabled (p : stp_port) (v : bool) : stp_port :=
  StpPort (sp_aux p) (sp_port_id p) (sp_state p) (sp_path_cost p) (sp_designated_root p)
    (sp_designated_cost p) (sp_designated_bridge p) (sp_designated_port p)
    (sp_topology_change_ack p) (sp_config_pending p) v (sp_message_age_timer p)
    (sp_forward_delay_timer p) (sp_hold_timer p) (sp_tx_count p) (sp_rx_count p) (sp_error_count
    p) (sp_state_changed p).
Definition set_sp_message_age_timer (p : stp_port) (v : stp_timer) : stp_port :=
  StpPort (sp_aux p) (sp_port_id p) (sp_state p) (sp_path_cost p) (sp_designated_root p)
    (sp_designated_cost p) (sp_designated_bridge p) (sp_designated_port p)
    (sp_topology_change_ack p) (sp_config_pending p) (sp_change_detection_enabled p) v
    (sp_forward_delay_timer p) (sp_hold_timer p) (sp_tx_count p) (sp_rx_count p) (sp_error_count
    p) (sp_state_changed p).
Definition set_sp_forward_delay_timer (p : stp_port) (v : stp_timer) : stp_port :=
  StpPort (sp_aux p) (sp_port_id p) (sp_state p) (sp_path_cost p) (sp_designated_root p)
    (sp_designated_cost p) (sp_designated_bridge p) (sp_designated_port p)
    (sp_topology_change_ack p) (sp_config_pending p) (sp_change_detection_enabled p)
    (sp_message_age_timer p) v (sp_hold_timer p) (sp_tx_count p) (sp_rx_count p) (sp_error_count
    p) (sp_state_changed p).
Definition set_sp_hold_timer (p : stp_port) (v : stp_timer) : stp_port :=
  StpPort (sp_aux p) (sp_port_id p) (sp_state p) (sp_path_cost p) (sp_designated_root p)
    (sp_designated_cost p) (sp_designated_bridge p) (sp_designated_port p)
    (sp_topology_change_ack p) (sp_config_pending p) (sp_change_detection_enabled p)
    (sp_message_age_timer p) (sp_forward_delay_timer p) v (sp_tx_count p) (sp_rx_count p)
    (sp_error_count p) (sp_state_changed p).
Definition set_sp_tx_count (p : stp_port) (v : Z) : stp_port :=
  StpPort (sp_aux p) (sp_port_id p) (sp_state p) (sp_path_cost p) (sp_designated_root p)
    (sp_designated_cost p) (sp_designated_bridge p) (sp_designated_port p)
    (sp_topology_change_ack p) (sp_config_pending p) (sp_change_detection_enabled p)
    (sp_message_age_timer p) (sp_forward_delay_timer p) (sp_hold_timer p) v (sp_rx_count p)
    (sp_error_count p) (sp_state_changed p).
Definition set_sp_rx_count (p : stp_port) (v : Z) : stp_port :=
  StpPort (sp_aux p) (sp_port_id p) (sp_state p) (sp_path_cost p) (sp_designated_root p)
    (sp_designated_cost p) (sp_designated_bridge p) (sp_designated_port p)
    (sp_topology_change_ack p) (sp_config_pending p) (sp_change_detection_enabled p)
    (sp_message_age_timer p) (sp_forward_delay_timer p) (sp_hold_timer p) (sp_tx_count p) v
    (sp_error_count p) (sp_state_changed p).
Definition set_sp_error_count (p : stp_port) (v : Z) : stp_port :=
  StpPort (sp_aux p) (sp_port_id p) (sp_state p) (sp_path_cost p) (sp_designated_root p)
    (sp_designated_cost p) (sp_designated_bridge p) (sp_designated_port p)
    (sp_topology_change_ack p) (sp_config_pending p) (sp_change_detection_enabled p)
    (sp_message_age_timer p) (sp_forward_delay_timer p) (sp_hold_timer p) (sp_tx_count p)
    (sp_rx_count p) v (sp_state_changed p).
Definition set_sp_state_changed (p : stp_port) (v : bool) : stp_port :=
  StpPort (sp_aux p) (sp_port_id p) (sp_state p) (sp_path_cost p) (sp_designated_root p)
    (sp_designated_cost p) (sp_designated_bridge p) (sp_designated_port p)
    (sp_topology_change_ack p) (sp_config_pending p) (sp_change_detection_enabled p)
    (sp_message_age_timer p) (sp_forward_delay_timer p) (sp_hold_timer p) (sp_tx_count p)
    (sp_rx_count p) (sp_error_count p) v.

Definition set_st_bridge_id (s : stp) (v : Z) : stp :=
  Stp v (st_max_age s) (st_hello_time s) (st_forward_delay s) (st_bridge_max_age s)
    (st_bridge_hello_time s) (st_bridge_forward_delay s) (st_rq_max_age s) (st_rq_hello_time s)
    (st_rq_forward_delay s) (st_elapsed_remainder s) (st_designated_root s) (st_root_path_cost
    s) (st_root_port s) (st_topology_change_detected s) (st_topology_change s) (st_hello_timer
    s) (st_tcn_timer s) (st_topology_change_timer s) (st_ports s) (st_fdb_needs_flush s)
    (st_first_changed_port s) (st_sent s) (st_ref_cnt s).
Definition set_st_max_age (s : stp) (v : Z) : stp :=
  Stp (st_bridge_id s) v (st_hello_time s) (st_forward_delay s) (st_bridge_max_age s)
    (st_bridge_hello_time s) (st_bridge_forward_delay s) (st_rq_max_age s) (st_rq_hello_time s)
    (st_rq_forward_delay s) (st_elapsed_remainder s) (st_designated_root s) (st_root_path_cost
    s) (st_root_port s) (st_topology_change_detected s) (st_topology_change s) (st_hello_timer
    s) (st_tcn_timer s) (st_topology_change_timer s) (st_ports s) (st_fdb_needs_flush s)
    (st_first_changed_port s) (st_sent s) (st_ref_cnt s).
Definition set_st_hello_time (s : stp) (v : Z) : stp :=
  Stp (st_bridge_id s) (st_max_age s) v (st_forward_delay s) (st_bridge_max_age s)
    (st_bridge_hello_time s) (st_bridge_forward_delay s) (st_rq_max_age s) (st_rq_hello_time s)
    (st_rq_forward_delay s) (st_elapsed_remainder s) (st_designated_root s) (st_root_path_cost
    s) (st_root_port s) (st_topology_change_detected s) (st_topology_change s) (st_hello_timer
    s) (st_tcn_timer s) (st_topology_change_timer s) (st_ports s) (st_fdb_needs_flush s)
    (st_first_changed_port s) (st_sent s) (st_ref_cnt s).
Definition set_st_forward_delay (s : stp) (v : Z) : stp :=
  Stp (st_bridge_id s) (st_max_age s) (st_hello_time s) v (st_bridge_max_age s)
    (st_bridge_hello_time s) (st_bridge_forward_delay s) (st_rq_max_age s) (st_rq_hello_time s)
    (st_rq_forward_delay s) (st_elapsed_remainder s) (st_designated_root s) (st_root_path_cost
    s) (st_root_port s) (st_topology_change_detected s) (st_topology_change s) (st_hello_timer
    s) (st_tcn_timer s) (st_topology_change_timer s) (st_ports s) (st_fdb_needs_flush s)
    (st_first_changed_port s) (st_sent s) (st_ref_cnt s).
Definition set_st_bridge_max_age (s : stp) (v : Z) : stp :=
  Stp (st_bridge_id s) (st_max_age s) (st_hello_time s) (st_forward_delay s) v
    (st_bridge_hello_time s) (st_bridge_forward_delay s) (st_rq_max_age s) (st_rq_hello_time s)
    (st_rq_forward_delay s) (st_elapsed_remainder s) (st_designated_root s) (st_root_path_cost
    s) (st_root_port s) (st_topology_change_detected s) (st_topology_change s) (st_hello_timer
    s) (st_tcn_timer s) (st_topology_change_timer s) (st_ports s) (st_fdb_needs_flush s)
    (st_first_changed_port s) (st_sent s) (st_ref_cnt s).
Definition set_st_bridge_hello_time (s : stp) (v : Z) : stp :=
  Stp (st_bridge_id s) (st_max_age s) (st_hello_time s) (st_forward_delay s) (st_bridge_max_age
    s) v (st_bridge_forward_delay s) (st_rq_max_age s) (st_rq_hello_time s) (st_rq_forward_delay
    s) (st_elapsed_remainder s) (st_designated_root s) (st_root_path_cost s) (st_root_port s)
    (st_topology_change_detected s) (st_topology_change s) (st_hello_timer s) (st_tcn_timer s)
    (st_topology_change_timer s) (st_ports s) (st_fdb_needs_flush s) (st_first_changed_port s)
    (st_sent s) (st_ref_cnt s).
Definition set_st_bridge_forward_delay (s : stp) (v : Z) : stp :=
  Stp (st_bridge_id s) (st_max_age s) (st_hello_time s) (st_forward_delay s) (st_bridge_max_age
    s) (st_bridge_hello_time s) v (st_rq_max_age s) (st_rq_hello_time s) (st_rq_forward_delay s)
    (st_elapsed_remainder s) (st_designated_root s) (st_root_path_cost s) (st_root_port s)
    (st_topology_change_detected s) (st_topology_change s) (st_hello_timer s) (st_tcn_timer s)
    (st_topology_change_timer s) (st_ports s) (st_fdb_needs_flush s) (st_first_changed_port s)
    (st_sent s) (st_ref_cnt s).
Definition set_st_rq_max_age (s : stp) (v : Z) : stp :=
  Stp (st_bridge_id s) (st_max_age s) (st_hello_time s) (st_forward_delay s) (st_bridge_max_age
    s) (st_bridge_hello_time s) (st_bridge_forward_delay s) v (st_rq_hello_time s)
    (st_rq_forward_delay s) (st_elapsed_remainder s) (st_designated_root s) (st_root_path_cost
    s) (st_root_port s) (st_topology_change_detected s) (st_topology_change s) (st_hello_timer
    s) (st_tcn_timer s) (st_topology_change_timer s) (st_ports s) (st_fdb_needs_flush s)
    (st_first_changed_port s) (st_sent s) (st_ref_cnt s).
Definition set_st_rq_hello_time (s : stp) (v : Z) : stp :=
  Stp (st_bridge_id s) (st_max_age s) (st_hello_time s) (st_forward_delay s) (st_bridge_max_age
    s) (st_bridge_hello_time s) (st_bridge_forward_delay s) (st_rq_max_age s) v
    (st_rq_forward_delay s) (st_elapsed_remainder s) (st_designated_root s) (st_root_path_cost
    s) (st_root_port s) (st_topology_change_detected s) (st_topology_change s) (st_hello_timer
    s) (st_tcn_timer s) (st_topology_change_timer s) (st_ports s) (st_fdb_needs_flush s)
    (st_first_changed_port s) (st_sent s) (st_ref_cnt s).
Definition set_st_rq_forward_delay (s : stp) (v : Z) : stp :=
  Stp (st_bridge_id s) (st_max_age s) (st_hello_time s) (st_forward_delay s) (st_bridge_max_age
    s) (st_bridge_hello_time s) (st_bridge_forward_delay s) (st_rq_max_age s) (st_rq_hello_time
    s) v (st_elapsed_remainder s) (st_designated_root s) (st_root_path_cost s) (st_root_port s)
    (st_topology_change_detected s) (st_topology_change s) (st_hello_timer s) (st_tcn_timer s)
    (st_topology_change_timer s) (st_ports s) (st_fdb_needs_flush s) (st_first_changed_port s)
    (st_sent s) (st_ref_cnt s).
Definition set_st_elapsed_remainder (s : stp) (v : Z) : stp :=
  Stp (st_bridge_id s) (st_max_age s) (st_hello_time s) (st_forward_delay s) (st_bridge_max_age
    s) (st_bridge_hello_time s) (st_bridge_forward_delay s) (st_rq_max_age s) (st_rq_hello_time
    s) (st_rq_forward_delay s) v (st_designated_root s) (st_root_path_cost s) (st_root_port s)
    (st_topology_change_detected s) (st_topology_change s) (st_hello_timer s) (st_tcn_timer s)
    (st_topology_change_timer s) (st_ports s) (st_fdb_needs_flush s) (st_first_changed_port s)
    (st_sent s) (st_ref_cnt s).
Definition set_st_designated_root (s : stp) (v : Z) : stp :=
  Stp (st_bridge_id s) (st_max_age s) (st_hello_time s) (st_forward_delay s) (st_bridge_max_age
    s) (st_bridge_hello_time s) (st_bridge_forward_delay s) (st_rq_max_age s) (st_rq_hello_time
    s) (st_rq_forward_delay s) (st_elapsed_remainder s) v (st_root_path_cost s) (st_root_port s)
    (st_topology_change_detected s) (st_topology_change s) (st_hello_timer s) (st_tcn_timer s)
    (st_topology_change_timer s) (st_ports s) (st_fdb_needs_flush s) (st_first_changed_port s)
    (st_sent s) (st_ref_cnt s).
Definition set_st_root_path_cost (s : stp) (v : Z) : stp :=
  Stp (st_bridge_id s) (st_max_age s) (st_hello_time s) (st_forward_delay s) (st_bridge_max_age
    s) (st_bridge_hello_time s) (st_bridge_forward_delay s) (st_rq_max_age s) (st_rq_hello_time
    s) (st_rq_forward_delay s) (st_elapsed_remainder s) (st_designated_root s) v (st_root_port
    s) (st_topology_change_detected s) (st_topology_change s) (st_hello_timer s) (st_tcn_timer
    s) (st_topology_change_timer s) (st_ports s) (st_fdb_needs_flush s) (st_first_changed_port
    s) (st_sent s) (st_ref_cnt s).
Definition set_st_root_port (s : stp) (v : option nat) : stp :=
  Stp (st_bridge_id s) (st_max_age s) (st_hello_time s) (st_forward_delay s) (st_bridge_max_age
    s) (st_bridge_hello_time s) (st_bridge_forward_delay s) (st_rq_max_age s) (st_rq_hello_time
    s) (st_rq_forward_delay s) (st_elapsed_remainder s) (st_designated_root s)
    (st_root_path_cost s) v (st_topology_change_detected s) (st_topology_change s)
    (st_hello_timer s) (st_tcn_timer s) (st_topology_change_timer s) (st_ports s)
    (st_fdb_needs_flush s) (st_first_changed_port s) (st_sent s) (st_ref_cnt s).
Definition set_st_topology_change_detected (s : stp) (v : bool) : stp :=
  Stp (st_bridge_id s) (st_max_age s) (st_hello_time s) (st_forward_delay s) (st_bridge_max_age
    s) (st_bridge_hello_time s) (st_bridge_forward_delay s) (st_rq_max_age s) (st_rq_hello_time
    s) (st_rq_forward_delay s) (st_elapsed_remainder s) (st_designated_root s)
    (st_root_path_cost s) (st_root_port s) v (st_topology_change s) (st_hello_timer s)
    (st_tcn_timer s) (st_topology_change_timer s) (st_ports s) (st_fdb_needs_flush s)
    (st_first_changed_port s) (st_sent s) (st_ref_cnt s).
Definition set_st_topology_change (s : stp) (v : bool) : stp :=
  Stp (st_bridge_id s) (st_max_age s) (st_hello_time s) (st_forward_delay s) (st_bridge_max_age
    s) (st_bridge_hello_time s) (st_bridge_forward_delay s) (st_rq_max_age s) (st_rq_hello_time
    s) (st_rq_forward_delay s) (st_elapsed_remainder s) (st_designated_root s)
    (st_root_path_cost s) (st_root_port s) (st_topology_change_detected s) v (st_hello_timer s)
    (st_tcn_timer s) (st_topology_change_timer s) (st_ports s) (st_fdb_needs_flush s)
    (st_first_changed_port s) (st_sent s) (st_ref_cnt s).
Definition set_st_hello_timer (s : stp) (v : stp_timer) : stp :=
  Stp (st_bridge_id s) (st_max_age s) (st_hello_time s) (st_forward_delay s) (st_bridge_max_age
    s) (st_bridge_hello_time s) (st_bridge_forward_delay s) (st_rq_max_age s) (st_rq_hello_time
    s) (st_rq_forward_delay s) (st_elapsed_remainder s) (st_designated_root s)
    (st_root_path_cost s) (st_root_port s) (st_topology_change_detected s) (st_topology_change
    s) v (st_tcn_timer s) (st_topology_change_timer s) (st_ports s) (st_fdb_needs_flush s)
    (st_first_changed_port s) (st_sent s) (st_ref_cnt s).
Definition set_st_tcn_timer (s : stp) (v : stp_timer) : stp :=
  Stp (st_bridge_id s) (st_max_age s) (st_hello_time s) (st_forward_delay s) (st_bridge_max_age
    s) (st_bridge_hello_time s) (st_bridge_forward_delay s) (st_rq_max_age s) (st_rq_hello_time
    s) (st_rq_forward_delay s) (st_elapsed_remainder s) (st_designated_root s)
    (st_root_path_cost s) (st_root_port s) (st_topology_change_detected s) (st_topology_change
    s) (st_hello_timer s) v (st_topology_change_timer s) (st_ports s) (st_fdb_needs_flush s)
    (st_first_changed_port s) (st_sent s) (st_ref_cnt s).
Definition set_st_topology_change_timer (s : stp) (v : stp_timer) : stp :=
  Stp (st_bridge_id s) (st_max_age s) (st_hello_time s) (st_forward_delay s) (st_bridge_max_age
    s) (st_bridge_hello_time s) (st_bridge_forward_delay s) (st_rq_max_age s) (st_rq_hello_time
    s) (st_rq_forward_delay s) (st_elapsed_remainder s) (st_designated_root s)
    (st_root_path_cost s) (st_root_port s) (st_topology_change_detected s) (st_topology_change
    s) (st_hello_timer s) (st_tcn_timer s) v (st_ports s) (st_fdb_needs_flush s)
    (st_first_changed_port s) (st_sent s) (st_ref_cnt s).
Definition set_st_ports (s : stp) (v : list stp_port) : stp :=
  Stp (st_bridge_id s) (st_max_age s) (st_hello_time s) (st_forward_delay s) (st_bridge_max_age
    s) (st_bridge_hello_time s) (st_bridge_forward_delay s) (st_rq_max_age s) (st_rq_hello_time
    s) (st_rq_forward_delay s) (st_elapsed_remainder s) (st_designated_root s)
    (st_root_path_cost s) (st_root_port s) (st_topology_change_detected s) (st_topology_change
    s) (st_hello_timer s) (st_tcn_timer s) (st_topology_change_timer s) v (st_fdb_needs_flush s)
    (st_first_changed_port s) (st_sent s) (st_ref_cnt s).
Definition set_st_fdb_needs_flush (s : stp) (v : bool) : stp :=
  Stp (st_bridge_id s) (st_max_age s) (st_hello_time s) (st_forward_delay s) (st_bridge_max_age
    s) (st_bridge_hello_time s) (st_bridge_forward_delay s) (st_rq_max_age s) (st_rq_hello_time
    s) (st_rq_forward_delay s) (st_elapsed_remainder s) (st_designated_root s)
    (st_root_path_cost s) (st_root_port s) (st_topology_change_detected s) (st_topology_change
    s) (st_hello_timer s) (st_tcn_timer s) (st_topology_change_timer s) (st_ports s) v
    (st_first_changed_port s) (st_sent s) (st_ref_cnt s).
Definition set_st_first_changed_port (s : stp) (v : nat) : stp :=
  Stp (st_bridge_id s) (st_max_age s) (st_hello_time s) (st_forward_delay s) (st_bridge_max_age
    s) (st_bridge_hello_time s) (st_bridge_forward_delay s) (st_rq_max_age s) (st_rq_hello_time
    s) (st_rq_forward_delay s) (st_elapsed_remainder s) (st_designated_root s)
    (st_root_path_cost s) (st_root_port s) (st_topology_change_detected s) (st_topology_change
    s) (st_hello_timer s) (st_tcn_timer s) (st_topology_change_timer s) (st_ports s)
    (st_fdb_needs_flush s) v (st_sent s) (st_ref_cnt s).
Definition set_st_sent (s : stp) (v : list (nat * list Z)) : stp :=
  Stp (st_bridge_id s) (st_max_age s) (st_hello_time s) (st_forward_delay s) (st_bridge_max_age
    s) (st_bridge_hello_time s) (st_bridge_forward_delay s) (st_rq_max_age s) (st_rq_hello_time
    s) (st_rq_forward_delay s) (st_elapsed_remainder s) (st_designated_root s)
    (st_root_path_cost s) (st_root_port s) (st_topology_change_detected s) (st_topology_change
    s) (st_hello_timer s) (st_tcn_timer s) (st_topology_change_timer s) (st_ports s)
    (st_fdb_needs_flush s) (st_first_changed_port s) v (st_ref_cnt s).
Definition set_st_ref_cnt (s : stp) (v : Z) : stp :=
  Stp (st_bridge_id s) (st_max_age s) (st_hello_time s) (st_forward_delay s) (st_bridge_max_age
    s) (st_bridge_hello_time s) (st_bridge_forward_delay s) (st_rq_max_age s) (st_rq_hello_time
    s) (st_rq_forward_delay s) (st_elapsed_remainder s) (st_designated_root s)
    (st_root_path_cost s) (st_root_port s) (st_topology_change_detected s) (st_topology_change
    s) (st_hello_timer s) (st_tcn_timer s) (st_topology_change_timer s) (st_ports s)
    (st_fdb_needs_flush s) (st_first_changed_port s) (st_sent s) v.

(** ** Timers *)

Definition stp_start_timer (value : Z) : stp_timer := StpTimer true value.
Definition stp_stop_timer (t : stp_timer) : stp_timer := StpTimer false (tm_value t).

Definition stp_timer_expired (t : stp_timer) (elapsed timeout : Z) : stp_timer * bool :=
  if tm_active t then
    let value := i32 (tm_value t + elapsed) in
    if timeout <=? value then (StpTimer false value, true) else (StpTimer true value, false)
  else (t, false).

(** C division truncates toward zero. *)
Definition ms_to_timer (ms : Z) : Z := Z.quot (i32 (ms * 0x100)) 1000.
Definition timer_to_ms (timer : Z) : Z := Z.quot (i32 (timer * 1000)) 0x100.

Definition clamp (x min max : Z) : Z := if x <? min then min else if max <? x then max else x.

(** ** Ports *)

(** A zeroed port; also what lies outside the array, which no index reaches. *)
Definition no_port : stp_port :=
  StpPort None 0 STP_ZERO 0 0 0 0 0 false false false
    (StpTimer false 0) (StpTimer false 0) (StpTimer false 0) 0 0 0 false.

Definition port (s : stp) (i : nat) : stp_port := default no_port (st_ports s !! i).

Definition upd_port (s : stp) (i : nat) (f : stp_port → stp_port) : stp :=
  set_st_ports s (alter f i (st_ports s)).

(** FOR_EACH_ENABLED_PORT: each port in turn, if it is enabled when the loop
    gets to it. *)
Definition for_each_enabled_port (f : stp → nat → stp) (s : stp) : stp :=
  foldl (λ s i, if decide (sp_state (port s i) = STP_DISABLED) then s else f s i)
    s (seq 0 STP_MAX_PORTS).

Definition stp_is_root_bridge (s : stp) : bool := st_bridge_id s =? st_designated_root s.

Definition stp_is_designated_port (s : stp) (i : nat) : bool :=
  let p := port s i in
  (sp_designated_bridge p =? st_bridge_id s) && (sp_designated_port p =? sp_port_id p).

Definition stp_become_designated_port (s : stp) (i : nat) : stp :=
  upd_port s i (λ p,
    let p := set_sp_designated_root p (st_designated_root s) in
    let p := set_sp_designated_cost p (i32 (st_root_path_cost s)) in
    let p := set_sp_designated_bridge p (st_bridge_id s) in
    set_sp_designated_port p (sp_port_id p)).

Definition stp_set_port_state (s : stp) (i : nat) (state : stp_state) : stp :=
  let s :=
    if negb (bool_decide (state = sp_state (port s i))) && negb (sp_state_changed (port s i)) then
      let s := upd_port s i (λ p, set_sp_state_changed p true) in
      if decide (i < st_first_changed_port s)%nat then set_st_first_changed_port s i else s
    else s in
  upd_port s i (λ p, set_sp_state p state).

(** ** Transmission *)

(** The 802.2 frame around a BPDU; the client fills in the source address. *)
Definition stp_frame (bpdu : list Z) : list Z :=
  eth_addr_stp ++ replicate 6 0 ++ be_bytes 2 (3 + Z.of_nat (length bpdu))
  ++ [STP_LLC_DSAP; STP_LLC_SSAP; STP_LLC_CNTL] ++ bpdu.

Definition stp_send_bpdu (s : stp) (i : nat) (bpdu : list Z) : stp :=
  let s := set_st_sent s (st_sent s ++ [(i, stp_frame bpdu)]) in
  upd_port s i (λ p, set_sp_tx_count p (i32 (sp_tx_count p + 1))).

Definition config_bytes (c : stp_config_bpdu) : list Z :=
  be_bytes 2 (cb_protocol_id c) ++ be_bytes 1 (cb_protocol_version c) ++ be_bytes 1 (cb_bpdu_type c)
  ++ be_bytes 1 (cb_flags c) ++ be_bytes 8 (cb_root_id c) ++ be_bytes 4 (cb_root_path_cost c)
  ++ be_bytes 8 (cb_bridge_id c) ++ be_bytes 2 (cb_port_id c) ++ be_bytes 2 (cb_message_age c)
  ++ be_bytes 2 (cb_max_age c) ++ be_bytes 2 (cb_hello_time c) ++ be_bytes 2 (cb_forward_delay c).

Definition config_of_bytes (b : list Z) : stp_config_bpdu :=
  StpConfigBpdu (field b 0 2) (field b 2 1) (field b 3 1) (field b 4 1) (field b 5 8) (field b 13 4)
    (field b 17 8) (field b 25 2) (field b 27 2) (field b 29 2) (field b 31 2) (field b 33 2).

Definition stp_transmit_config (s : stp) (i : nat) : stp :=
  let root := stp_is_root_bridge s in
  if negb root && bool_decide (st_root_port s = None) then s
  else if tm_active (sp_hold_timer (port s i)) then upd_port s i (λ p, set_sp_config_pending p true)
  else
    let flags :=
      Z.lor (if sp_topology_change_ack (port s i) then STP_CONFIG_TOPOLOGY_CHANGE_ACK else 0)
            (if st_topology_change s then STP_CONFIG_TOPOLOGY_CHANGE else 0) in
    let message_age :=
      if root then 0
      else match st_root_port s with
           | Some r => u16 (tm_value (sp_message_age_timer (port s r)) + MESSAGE_AGE_INCREMENT)
           | None => 0
           end in
    let config := StpConfigBpdu STP_PROTOCOL_ID STP_PROTOCOL_VERSION STP_TYPE_CONFIG flags
      (st_designated_root s) (st_root_path_cost s) (st_bridge_id s) (u16 (sp_port_id (port s i)))
      message_age (u16 (st_max_age s)) (u16 (st_hello_time s)) (u16 (st_forward_delay s)) in
    if message_age <? st_max_age s then
      let s := upd_port s i (λ p, set_sp_topology_change_ack p false) in
      let s := upd_port s i (λ p, set_sp_config_pending p false) in
      let s := stp_send_bpdu s i (config_bytes config) in
      upd_port s i (λ p, set_sp_hold_timer p (stp_start_timer 0))
    else s.

Definition stp_config_bpdu_generation (s : stp) : stp :=
  for_each_enabled_port (λ s i, if stp_is_designated_port s i then stp_transmit_config s i else s) s.

Definition stp_transmit_tcn (s : stp) : stp :=
  match st_root_port s with
  | None => s
  | Some r =>
      stp_send_bpdu s r
        (be_bytes 2 STP_PROTOCOL_ID ++ be_bytes 1 STP_PROTOCOL_VERSION ++ be_bytes 1 STP_TYPE_TCN)
  end.

Definition stp_topology_change_detection (s : stp) : stp :=
  let s :=
    if stp_is_root_bridge s then
      set_st_topology_change_timer (set_st_topology_change s true) (stp_start_timer 0)
    else if negb (st_topology_change_detected s) then
      set_st_tcn_timer (stp_transmit_tcn s) (stp_start_timer 0)
    else s in
  set_st_topology_change_detected (set_st_fdb_needs_flush s true) true.

Definition stp_topology_change_acknowledged (s : stp) : stp :=
  let s := set_st_topology_change_detected s false in
  set_st_tcn_timer s (stp_stop_timer (st_tcn_timer s)).

Definition stp_acknowledge_topology_change (s : stp) (i : nat) : stp :=
  stp_transmit_config (upd_port s i (λ p, set_sp_topology_change_ack p true)) i.

(** ** Root and designated port selection *)

Definition port_cost (p : stp_port) : Z := i32 (sp_designated_cost p + sp_path_cost p).

Definition stp_supersedes_root (root p : stp_port) : bool :=
  let p_cost := port_cost p in
  let root_cost := port_cost root in
  if negb (sp_designated_root p =? sp_designated_root root)
  then sp_designated_root p <? sp_designated_root root
  else if negb (p_cost =? root_cost) then p_cost <? root_cost
  else if negb (sp_designated_bridge p =? sp_designated_bridge root)
  then sp_designated_bridge p <? sp_designated_bridge root
  else if negb (sp_designated_port p =? sp_designated_port root)
  then sp_designated_port p <? sp_designated_port root
  else sp_port_id p <? sp_port_id root.

(** The loop body of [stp_root_selection]: the best port so far. *)
Definition better_root (s : stp) (root : option nat) (i : nat) : option nat :=
  if decide (sp_state (port s i) = STP_DISABLED) then root
  else if stp_is_designated_port s i || (st_bridge_id s <=? sp_designated_root (port s i)) then root
  else match root with
       | Some r => if stp_supersedes_root (port s r) (port s i) then Some i else root
       | None => Some i
       end.

Definition stp_root_selection (s : stp) : stp :=
  let root := foldl (better_root s) None (seq 0 STP_MAX_PORTS) in
  let s := set_st_root_port s root in
  match root with
  | None => set_st_root_path_cost (set_st_designated_root s (st_bridge_id s)) 0
  | Some r =>
      set_st_root_path_cost (set_st_designated_root s (sp_designated_root (port s r)))
        (u32 (port_cost (port s r)))
  end.

(** [root_path_cost] is unsigned, so its comparisons with the [int]
    [designated_cost] are unsigned. *)
Definition should_be_designated (s : stp) (i : nat) : bool :=
  let p := port s i in
  stp_is_designated_port s i
  || negb (sp_designated_root p =? st_designated_root s)
  || (st_root_path_cost s <? u32 (sp_designated_cost p))
  || ((st_root_path_cost s =? u32 (sp_designated_cost p))
      && ((st_bridge_id s <? sp_designated_bridge p)
          || ((st_bridge_id s =? sp_designated_bridge p) && (sp_port_id p <=? sp_designated_port p)))).

Definition stp_designated_port_selection (s : stp) : stp :=
  for_each_enabled_port
    (λ s i, if should_be_designated s i then stp_become_designated_port s i else s) s.

Definition stp_configuration_update (s : stp) : stp :=
  stp_designated_port_selection (stp_root_selection s).

Definition stp_make_forwarding (s : stp) (i : nat) : stp :=
  if decide (sp_state (port s i) = STP_BLOCKING) then
    let s := stp_set_port_state s i STP_LISTENING in
    upd_port s i (λ p, set_sp_forward_delay_timer p (stp_start_timer 0))
  else s.

Definition stp_make_blocking (s : stp) (i : nat) : stp :=
  if negb (state_in (sp_state (port s i)) [STP_DISABLED; STP_BLOCKING]) then
    let s :=
      if state_in (sp_state (port s i)) [STP_FORWARDING; STP_LEARNING]
         && sp_change_detection_enabled (port s i)
      then stp_topology_change_detection s else s in
    let s := stp_set_port_state s i STP_BLOCKING in
    upd_port s i (λ p, set_sp_forward_delay_timer p (stp_stop_timer (sp_forward_delay_timer p)))
  else s.

Definition clear_pending (s : stp) (i : nat) : stp :=
  upd_port s i (λ p, set_sp_topology_change_ack (set_sp_config_pending p false) false).

Definition stp_port_state_selection (s : stp) : stp :=
  for_each_enabled_port (λ s i,
    if decide (st_root_port s = Some i) then stp_make_forwarding (clear_pending s i) i
    else if stp_is_designated_port s i then
      stp_make_forwarding
        (upd_port s i (λ p, set_sp_message_age_timer p (stp_stop_timer (sp_message_age_timer p)))) i
    else stp_make_blocking (clear_pending s i) i) s.

(** ** Becoming root, and timer expiry *)

Definition take_bridge_times (s : stp) : stp :=
  set_st_forward_delay
    (set_st_hello_time (set_st_max_age s (st_bridge_max_age s)) (st_bridge_hello_time s))
    (st_bridge_forward_delay s).

Definition stp_become_root_bridge (s : stp) : stp :=
  let s := take_bridge_times s in
  let s := stp_topology_change_detection s in
  let s := set_st_tcn_timer s (stp_stop_timer (st_tcn_timer s)) in
  let s := stp_config_bpdu_generation s in
  set_st_hello_timer s (stp_start_timer 0).

(** The end of every change that may make this bridge the root. *)
Definition become_root_if (s : stp) (was_root : bool) : stp :=
  if stp_is_root_bridge s && negb was_root then stp_become_root_bridge s else s.

Definition stp_hello_timer_expiry (s : stp) : stp :=
  set_st_hello_timer (stp_config_bpdu_generation s) (stp_start_timer 0).

Definition stp_message_age_timer_expiry (s : stp) (i : nat) : stp :=
  let root := stp_is_root_bridge s in
  let s := stp_become_designated_port s i in
  let s := stp_configuration_update s in
  let s := stp_port_state_selection s in
  become_root_if s root.

Definition stp_is_designated_for_some_port (s : stp) : bool :=
  existsb (λ i, negb (bool_decide (sp_state (port s i) = STP_DISABLED))
                && (sp_designated_bridge (port s i) =? st_bridge_id s))
    (seq 0 STP_MAX_PORTS).

Definition stp_forward_delay_timer_expiry (s : stp) (i : nat) : stp :=
  match sp_state (port s i) with
  | STP_LISTENING =>
      let s := stp_set_port_state s i STP_LEARNING in
      upd_port s i (λ p, set_sp_forward_delay_timer p (stp_start_timer 0))
  | STP_LEARNING =>
      let s := stp_set_port_state s i STP_FORWARDING in
      if stp_is_designated_for_some_port s && sp_change_detection_enabled (port s i)
      then stp_topology_change_detection s else s
  | _ => s
  end.

Definition stp_tcn_timer_expiry (s : stp) : stp :=
  set_st_tcn_timer (stp_transmit_tcn s) (stp_start_timer 0).

Definition stp_topology_change_timer_expiry (s : stp) : stp :=
  set_st_topology_change (set_st_topology_change_detected s false) false.

Definition stp_hold_timer_expiry (s : stp) (i : nat) : stp :=
  if sp_config_pending (port s i) then stp_transmit_config s i else s.

(** ** Receiving BPDUs *)

Definition stp_supersedes_port_info (s : stp) (i : nat) (c : stp_config_bpdu) : bool :=
  let p := port s i in
  if negb (cb_root_id c =? sp_designated_root p) then cb_root_id c <? sp_designated_root p
  else if negb (cb_root_path_cost c =? u32 (sp_designated_cost p))
  then cb_root_path_cost c <? u32 (sp_designated_cost p)
  else if negb (cb_bridge_id c =? sp_designated_bridge p)
  then cb_bridge_id c <? sp_designated_bridge p
  else negb (cb_bridge_id c =? st_bridge_id s) || (cb_port_id c <=? sp_designated_port p).

Definition stp_record_config_information (s : stp) (i : nat) (c : stp_config_bpdu) : stp :=
  upd_port s i (λ p,
    let p := set_sp_designated_root p (cb_root_id c) in
    let p := set_sp_designated_cost p (i32 (cb_root_path_cost c)) in
    let p := set_sp_designated_bridge p (cb_bridge_id c) in
    let p := set_sp_designated_port p (cb_port_id c) in
    set_sp_message_age_timer p (stp_start_timer (cb_message_age c))).

Definition stp_record_config_timeout_values (s : stp) (c : stp_config_bpdu) : stp :=
  let s := set_st_max_age s (cb_max_age c) in
  let s := set_st_hello_time s (cb_hello_time c) in
  let s := set_st_forward_delay s (cb_forward_delay c) in
  set_st_topology_change s (negb (Z.land (cb_flags c) STP_CONFIG_TOPOLOGY_CHANGE =? 0)).

Definition stp_received_config_bpdu (s : stp) (i : nat) (c : stp_config_bpdu) : stp :=
  if cb_max_age c <=? cb_message_age c then s
  else if decide (sp_state (port s i) = STP_DISABLED) then s
  else
    let root := stp_is_root_bridge s in
    if stp_supersedes_port_info s i c then
      let s := stp_record_config_information s i c in
      let s := stp_configuration_update s in
      let s := stp_port_state_selection s in
      let s :=
        if negb (stp_is_root_bridge s) && root then
          let s := set_st_hello_timer s (stp_stop_timer (st_hello_timer s)) in
          if st_topology_change_detected s then
            let s := set_st_topology_change_timer s (stp_stop_timer (st_topology_change_timer s)) in
            set_st_tcn_timer (stp_transmit_tcn s) (stp_start_timer 0)
          else s
        else s in
      if decide (st_root_port s = Some i) then
        let s := stp_record_config_timeout_values s c in
        let s := stp_config_bpdu_generation s in
        let s :=
          if negb (Z.land (cb_flags c) STP_CONFIG_TOPOLOGY_CHANGE_ACK =? 0)
          then stp_topology_change_acknowledged s else s in
        if negb (Z.land (cb_flags c) STP_CONFIG_TOPOLOGY_CHANGE =? 0)
        then set_st_fdb_needs_flush s true else s
      else s
    else if stp_is_designated_port s i then stp_transmit_config s i
    else s.

Definition stp_received_tcn_bpdu (s : stp) (i : nat) : stp :=
  if decide (sp_state (port s i) = STP_DISABLED) then s
  else if stp_is_designated_port s i
  then stp_acknowledge_topology_change (stp_topology_change_detection s) i
  else s.

Definition count_error (s : stp) (i : nat) : stp :=
  upd_port s i (λ p, set_sp_error_count p (i32 (sp_error_count p + 1))).

Definition count_rx (s : stp) (i : nat) : stp :=
  upd_port s i (λ p, set_sp_rx_count p (i32 (sp_rx_count p + 1))).

Definition stp_received_bpdu (s : stp) (i : nat) (bpdu : list Z) : stp :=
  if decide (sp_state (port s i) = STP_DISABLED) then s
  else if (length bpdu <? 4)%nat then count_error s i
  else if negb (field bpdu 0 2 =? STP_PROTOCOL_ID) then count_error s i
  else if field bpdu 3 1 =? STP_TYPE_CONFIG then
    if (length bpdu <? 35)%nat then count_error s i
    else count_rx (stp_received_config_bpdu s i (config_of_bytes bpdu)) i
  else if field bpdu 3 1 =? STP_TYPE_TCN then
    if negb (length bpdu =? 4)%nat then count_error s i
    else count_rx (stp_received_tcn_bpdu s i) i
  else count_error s i.

(** ** Time *)

Definition tick_message_age (elapsed : Z) (s : stp) (i : nat) : stp :=
  let '(t, expired) := stp_timer_expired (sp_message_age_timer (port s i)) elapsed (st_max_age s) in
  let s := upd_port s i (λ p, set_sp_message_age_timer p t) in
  if expired then stp_message_age_timer_expiry s i else s.

Definition tick_forward_delay (elapsed : Z) (s : stp) (i : nat) : stp :=
  let '(t, expired) := stp_timer_expired (sp_forward_delay_timer (port s i)) elapsed (st_forward_delay s) in
  let s := upd_port s i (λ p, set_sp_forward_delay_timer p t) in
  if expired then stp_forward_delay_timer_expiry s i else s.

Definition tick_hold (elapsed : Z) (s : stp) (i : nat) : stp :=
  let '(t, expired) := stp_timer_expired (sp_hold_timer (port s i)) elapsed (ms_to_timer 1000) in
  let s := upd_port s i (λ p, set_sp_hold_timer p t) in
  if expired then stp_hold_timer_expiry s i else s.

Definition tick_hello (elapsed : Z) (s : stp) : stp :=
  let '(t, expired) := stp_timer_expired (st_hello_timer s) elapsed (st_hello_time s) in
  let s := set_st_hello_timer s t in
  if expired then stp_hello_timer_expiry s else s.

Definition tick_tcn (elapsed : Z) (s : stp) : stp :=
  let '(t, expired) := stp_timer_expired (st_tcn_timer s) elapsed (st_bridge_hello_time s) in
  let s := set_st_tcn_timer s t in
  if expired then stp_tcn_timer_expiry s else s.

Definition tick_topology_change (elapsed : Z) (s : stp) : stp :=
  let '(t, expired) := stp_timer_expired (st_topology_change_timer s) elapsed
                         (i32 (st_max_age s + st_forward_delay s)) in
  let s := set_st_topology_change_timer s t in
  if expired then stp_topology_change_timer_expiry s else s.

Definition stp_tick (s : stp) (ms : Z) : stp :=
  let ms := i32 (clamp ms 0 (2 ^ 31 - 1 - 1000) + st_elapsed_remainder s) in
  let elapsed := ms_to_timer ms in
  let s := set_st_elapsed_remainder s (i32 (ms - timer_to_ms elapsed)) in
  if elapsed =? 0 then s
  else
    let s := tick_hello elapsed s in
    let s := tick_tcn elapsed s in
    let s := tick_topology_change elapsed s in
    let s := for_each_enabled_port (tick_message_age elapsed) s in
    for_each_enabled_port (λ s i, tick_hold elapsed (tick_forward_delay elapsed s i) i) s.

(** ** Configuration *)

Definition stp_update_bridge_timers (s : stp) : stp :=
  let ht := clamp (st_rq_hello_time s) 1000 10000 in
  let ma := clamp (st_rq_max_age s) (Z.max (2 * (ht + 1000)) 6000) 40000 in
  let fd := clamp (st_rq_forward_delay s) (Z.quot ma 2 + 1000) 30000 in
  let s := set_st_bridge_hello_time s (ms_to_timer ht) in
  let s := set_st_bridge_max_age s (ms_to_timer ma) in
  let s := set_st_bridge_forward_delay s (ms_to_timer fd) in
  if stp_is_root_bridge s then take_bridge_times s else s.

Definition stp_set_hello_time (s : stp) (ms : Z) : stp :=
  stp_update_bridge_timers (set_st_rq_hello_time s ms).
Definition stp_set_max_age (s : stp) (ms : Z) : stp :=
  stp_update_bridge_timers (set_st_rq_max_age s ms).
Definition stp_set_forward_delay (s : stp) (ms : Z) : stp :=
  stp_update_bridge_timers (set_st_rq_forward_delay s ms).

Definition set_bridge_id (s : stp) (new_bridge_id : Z) : stp :=
  if new_bridge_id =? st_bridge_id s then s
  else
    let root := stp_is_root_bridge s in
    let s := for_each_enabled_port (λ s i,
      if stp_is_designated_port s i
      then upd_port s i (λ p, set_sp_designated_bridge p new_bridge_id) else s) s in
    let s := set_st_bridge_id s new_bridge_id in
    let s := stp_configuration_update s in
    let s := stp_port_state_selection s in
    become_root_if s root.

Definition mac_bits : Z := Z.shiftl 1 48 - 1.

Definition stp_set_bridge_id (s : stp) (bridge_id : Z) : stp :=
  set_bridge_id s (Z.lor (Z.land (st_bridge_id s) (u64 (Z.lnot mac_bits))) (Z.land bridge_id mac_bits)).

Definition stp_set_bridge_priority (s : stp) (new_priority : Z) : stp :=
  set_bridge_id s (Z.lor (Z.land (st_bridge_id s) mac_bits) (Z.shiftl new_priority 48)).

(** [None] is the failed assertion on [state]. *)
Definition stp_initialize_port (s : stp) (i : nat) (state : stp_state) : option stp :=
  if state_in state [STP_DISABLED; STP_BLOCKING] then
    let s := stp_become_designated_port s i in
    let s := stp_set_port_state s i state in
    Some (upd_port s i (λ p,
      let p := set_sp_topology_change_ack p false in
      let p := set_sp_config_pending p false in
      let p := set_sp_change_detection_enabled p true in
      let p := set_sp_aux p None in
      let p := set_sp_message_age_timer p (stp_stop_timer (sp_message_age_timer p)) in
      let p := set_sp_forward_delay_timer p (stp_stop_timer (sp_forward_delay_timer p)) in
      let p := set_sp_hold_timer p (stp_stop_timer (sp_hold_timer p)) in
      set_sp_error_count (set_sp_rx_count (set_sp_tx_count p 0) 0) 0))
  else None.

Definition stp_port_disable (s : stp) (i : nat) : stp :=
  if decide (sp_state (port s i) = STP_DISABLED) then s
  else
    let root := stp_is_root_bridge s in
    let s := stp_become_designated_port s i in
    let s := stp_set_port_state s i STP_DISABLED in
    let s := upd_port s i (λ p,
      let p := set_sp_topology_change_ack p false in
      let p := set_sp_config_pending p false in
      let p := set_sp_message_age_timer p (stp_stop_timer (sp_message_age_timer p)) in
      set_sp_forward_delay_timer p (stp_stop_timer (sp_forward_delay_timer p))) in
    let s := stp_configuration_update s in
    let s := stp_port_state_selection s in
    let s := become_root_if s root in
    upd_port s i (λ p, set_sp_aux p None).

Definition stp_port_enable (s : stp) (i : nat) : option stp :=
  if decide (sp_state (port s i) = STP_DISABLED) then
    s ← stp_initialize_port s i STP_BLOCKING; Some (stp_port_state_selection s)
  else Some s.

Definition stp_port_set_priority (s : stp) (i : nat) (new_priority : Z) : stp :=
  let new_port_id := u16 (Z.lor (Z.land (sp_port_id (port s i)) 0xff) (Z.shiftl new_priority 8)) in
  if sp_port_id (port s i) =? new_port_id then s
  else
    let s := if stp_is_designated_port s i
             then upd_port s i (λ p, set_sp_designated_port p new_port_id) else s in
    let s := upd_port s i (λ p, set_sp_port_id p new_port_id) in
    let p := port s i in
    if (st_bridge_id s =? sp_designated_bridge p) && (sp_port_id p <? sp_designated_port p)
    then stp_port_state_selection (stp_become_designated_port s i) else s.

Definition stp_convert_speed_to_cost (speed : Z) : Z :=
  if 10000 <=? speed then 2 else if 1000 <=? speed then 4 else if 100 <=? speed then 19
  else if 16 <=? speed then 62 else if 10 <=? speed then 100 else if 4 <=? speed then 250 else 19.

Definition stp_port_set_path_cost (s : stp) (i : nat) (path_cost : Z) : stp :=
  if sp_path_cost (port s i) =? path_cost then s
  else
    let s := upd_port s i (λ p, set_sp_path_cost p path_cost) in
    stp_port_state_selection (stp_configuration_update s).

Definition stp_port_set_speed (s : stp) (i : nat) (speed : Z) : stp :=
  stp_port_set_path_cost s i (stp_convert_speed_to_cost speed).

Definition stp_port_enable_change_detection (s : stp) (i : nat) : stp :=
  upd_port s i (λ p, set_sp_change_detection_enabled p true).
Definition stp_port_disable_change_detection (s : stp) (i : nat) : stp :=
  upd_port s i (λ p, set_sp_change_detection_enabled p false).

Definition stp_port_set_aux (s : stp) (i : nat) (aux : option Z) : stp :=
  upd_port s i (λ p, set_sp_aux p aux).

(** The body of the loop over the ports in [stp_create]. *)
Definition create_port (s : stp) (i : nat) : option stp :=
  let s := upd_port s i (λ p,
    set_sp_path_cost
      (set_sp_port_id p (Z.lor (Z.of_nat i + 1) (Z.shiftl STP_DEFAULT_PORT_PRIORITY 8))) 19) in
  stp_initialize_port s i STP_DISABLED.

(** The bridge before its ports are initialised. *)
Definition create_bridge (bridge_id : Z) : stp :=
  let bridge_id :=
    if Z.shiftr bridge_id 48 =? 0
    then Z.lor bridge_id (Z.shiftl STP_DEFAULT_BRIDGE_PRIORITY 48) else bridge_id in
  let s := Stp bridge_id 0 0 0 0 0 0 STP_DEFAULT_MAX_AGE STP_DEFAULT_HELLO_TIME STP_DEFAULT_FWD_DELAY 0
    0 0 None false false (StpTimer false 0) (StpTimer false 0) (StpTimer false 0)
    (replicate STP_MAX_PORTS no_port) false 0 [] 1 in
  let s := take_bridge_times (stp_update_bridge_timers s) in
  let s := set_st_root_path_cost (set_st_designated_root s (st_bridge_id s)) 0 in
  let s := set_st_hello_timer s (stp_start_timer 0) in
  set_st_first_changed_port s STP_MAX_PORTS.

Definition stp_create (bridge_id : Z) : option stp :=
  foldl (λ os i, s ← os; create_port s i) (Some (create_bridge bridge_id)) (seq 0 STP_MAX_PORTS).

(** ** Queries *)

Definition stp_check_and_reset_fdb_flush (s : stp) : stp * bool :=
  (set_st_fdb_needs_flush s false, st_fdb_needs_flush s).

Definition stp_get_changed_port (s : stp) : stp * option nat :=
  let first := st_first_changed_port s in
  match List.find (λ i, sp_state_changed (port s i)) (seq first (STP_MAX_PORTS - first)) with
  | Some i =>
      (set_st_first_changed_port (upd_port s i (λ p, set_sp_state_changed p false)) (i + 1)%nat, Some i)
  | None => (set_st_first_changed_port s STP_MAX_PORTS, None)
  end.

Definition stp_forward_in_state (st : stp_state) : bool := state_in st [STP_DISABLED; STP_FORWARDING].
Definition stp_learn_in_state (st : stp_state) : bool :=
  state_in st [STP_DISABLED; STP_LEARNING; STP_FORWARDING].

Definition stp_port_get_role (s : stp) (i : nat) : stp_role :=
  let designated :=
    if stp_is_designated_port s i then STP_ROLE_DESIGNATED
    else if decide (sp_state (port s i) = STP_DISABLED) then STP_ROLE_DISABLED
    else STP_ROLE_ALTERNATE in
  match st_root_port s with
  | Some r => if sp_port_id (port s r) =? sp_port_id (port s i) then STP_ROLE_ROOT else designated
  | None => designated
  end.

Definition stp_get_hello_time (s : stp) : Z := timer_to_ms (st_bridge_hello_time s).
Definition stp_get_max_age (s : stp) : Z := timer_to_ms (st_bridge_max_age s).
Definition stp_get_forward_delay (s : stp) : Z := timer_to_ms (st_bridge_forward_delay s).
Definition stp_get_bridge_id (s : stp) : Z := st_bridge_id s.
Definition stp_get_designated_root (s : stp) : Z := st_designated_root s.
Definition stp_get_root_path_cost (s : stp) : Z := i32 (st_root_path_cost s).
Definition stp_get_root_port (s : stp) : option nat := st_root_port s.

(** [None] is a failed assertion. *)
Definition stp_get_port (s : stp) (port_no : Z) : option nat :=
  if (0 <=? port_no) && (port_no <? Z.of_nat STP_MAX_PORTS) then Some (Z.to_nat port_no) else None.

Definition stp_port_get_aux (s : stp) (i : nat) : option Z := sp_aux (port s i).
Definition stp_port_get_id (s : stp) (i : nat) : Z := sp_port_id (port s i).
Definition stp_port_get_state (s : stp) (i : nat) : stp_state := sp_state (port s i).
Definition stp_port_get_counts (s : stp) (i : nat) : Z * Z * Z :=
  (sp_tx_count (port s i), sp_rx_count (port s i), sp_error_count (port s i)).

Definition stp_state_name (st : stp_state) : option string :=
  match st with
  | STP_DISABLED => Some "disabled"
  | STP_LISTENING => Some "listening"
  | STP_LEARNING => Some "learning"
  | STP_FORWARDING => Some "forwarding"
  | STP_BLOCKING => Some "blocking"
  | STP_ZERO => None
  end%string.

Definition stp_role_name (role : stp_role) : string :=
  match role with
  | STP_ROLE_ROOT => "root"
  | STP_ROLE_DESIGNATED => "designated"
  | STP_ROLE_ALTERNATE => "alternate"
  | STP_ROLE_DISABLED => "disabled"
  end%string.

(** ** Reference counts and the list of all instances *)

(** [None] is a failed assertion. *)
Definition stp_ref (s : stp) : option stp :=
  if 0 <? st_ref_cnt s then Some (set_st_ref_cnt s (i32 (st_ref_cnt s + 1))) else None.

(** [Some None] is an instance that has been freed. *)
Definition stp_unref (s : stp) : option (option stp) :=
  if 0 <? st_ref_cnt s then
    Some (if st_ref_cnt s =? 1 then None else Some (set_st_ref_cnt s (st_ref_cnt s - 1)))
  else None.

(** [all_stps]: each instance with its name, in order of creation. *)
Definition stp_find (name : string) (all_stps : list (string * stp)) : option nat :=
  fst <$> list_find (λ p, p.1 = name) all_stps.

(** The command "stp/tcn [bridge]"; [inl] is an error reply. *)
Definition stp_unixctl_tcn (argv1 : option string) (all_stps : list (string * stp)) :
    list (string * stp) * (string + string) :=
  let tcn := λ p : string * stp, (p.1, stp_topology_change_detection p.2) in
  match argv1 with
  | Some name =>
      match stp_find name all_stps with
      | Some i => (alter tcn i all_stps, inr "OK")
      | None => (all_stps, inl "no such stp object")
      end
  | None => (tcn <$> all_stps, inr "OK")
  end%string.
