(* ===== verification/StpThms.v ===== *)
(** * Correctness of the spanning tree machine

    The choice of the root port is the minimum of 802.1D's priority vectors;
    a bridge is always in a consistent role; only root and designated ports
    are ever out of blocking; and a port starts forwarding only from the
    learning state.  Most of the code touches timers, counters and output
    only: [same_topo] says so, and the invariant depends on the rest. *)
From S2P Require Import Prelude ByteOrder Stp.

(** ** The topology part of the state *)

(** What the choice of roles depends on; everything else is timers, counters
    and output. *)
Definition topo_port (p : stp_port) : stp_state * Z * Z * Z * Z * Z * Z :=
  (sp_state p, sp_port_id p, sp_path_cost p, sp_designated_root p, sp_designated_cost p,
   sp_designated_bridge p, sp_designated_port p).

Definition ctx (s : stp) : Z * Z * Z * option nat * nat :=
  (st_bridge_id s, st_designated_root s, st_root_path_cost s, st_root_port s, length (st_ports s)).

Record same_topo (s s' : stp) : Prop := {
  sto_ctx : ctx s' = ctx s;
  sto_port : ∀ i, topo_port (port s' i) = topo_port (port s i)
}.

#[global] Instance same_topo_preorder : PreOrder same_topo.
Proof.
  split; [by split|]. intros s1 s2 s3 [C1 P1] [C2 P2]. split; [congruence|].
  intros i. by rewrite P2.
Qed.

Lemma port_upd s i f j :
  (i < length (st_ports s))%nat →
  port (upd_port s i f) j = if decide (j = i) then f (port s j) else port s j.
Proof.
  intros Hi. unfold port, upd_port. simpl. case_decide as E.
  - subst j. rewrite list_lookup_alter_eq.
    destruct (lookup_lt_is_Some_2 (st_ports s) i Hi) as [p ->]. done.
  - by rewrite list_lookup_alter_ne by congruence.
Qed.

Lemma port_upd_cases s i f j :
  port (upd_port s i f) j = port s j ∨ (j = i ∧ port (upd_port s i f) j = f (port s j)).
Proof.
  destruct (decide (i < length (st_ports s))%nat) as [Hi|Hi].
  - rewrite port_upd by done. case_decide; auto.
  - left. unfold port, upd_port. simpl. destruct (decide (j = i)) as [->|].
    + rewrite list_lookup_alter_eq, lookup_ge_None_2 by lia. done.
    + by rewrite list_lookup_alter_ne by congruence.
Qed.

Lemma length_upd s i f : length (st_ports (upd_port s i f)) = length (st_ports s).
Proof. apply length_alter. Qed.

Lemma ctx_upd s i f : ctx (upd_port s i f) = ctx s.
Proof. unfold ctx, upd_port. simpl. by rewrite length_alter. Qed.

Lemma same_topo_upd s i f :
  (∀ p, topo_port (f p) = topo_port p) → same_topo s (upd_port s i f).
Proof.
  intros Hf. split; [apply ctx_upd|]. intros j.
  destruct (port_upd_cases s i f j) as [->|[_ ->]]; [done|apply Hf].
Qed.

Lemma same_topo_intro s s' : ctx s' = ctx s → st_ports s' = st_ports s → same_topo s s'.
Proof. intros Hc Hp. split; [done|]. intros i. unfold port. by rewrite Hp. Qed.

(** Composition of steps that do not touch the topology. *)
Lemma topo_after s s' s'' : same_topo s s' → same_topo s' s'' → same_topo s s''.
Proof. apply transitivity. Qed.

Lemma for_each_topo f s :
  (∀ s i, same_topo s (f s i)) → same_topo s (for_each_enabled_port f s).
Proof.
  intros Hf. unfold for_each_enabled_port. revert s.
  induction (seq 0 STP_MAX_PORTS) as [|i l IH]; intros s; simpl; [done|].
  eapply topo_after; [|apply IH]. by case_decide.
Qed.

(** Peels off one assignment to a field outside the topology. *)
Ltac topo_set :=
  cbv zeta;
  match goal with
  | |- same_topo ?s ?s => reflexivity
  | |- same_topo ?s (upd_port ?s0 _ _) => apply (topo_after s s0); [|generalize s0; intros; by apply same_topo_upd]
  | |- same_topo ?s (_ ?s0 _) => apply (topo_after s s0); [|generalize s0; intros; by apply same_topo_intro]
  end.

Lemma send_bpdu_topo s i b : same_topo s (stp_send_bpdu s i b).
Proof. unfold stp_send_bpdu. by repeat topo_set. Qed.

Lemma transmit_config_topo s i : same_topo s (stp_transmit_config s i).
Proof.
  unfold stp_transmit_config. repeat case_match; try reflexivity; topo_set; try reflexivity;
    (eapply topo_after; [|apply send_bpdu_topo]); by repeat topo_set.
Qed.

Lemma config_bpdu_generation_topo s : same_topo s (stp_config_bpdu_generation s).
Proof.
  apply for_each_topo. intros s' i. case_match; [apply transmit_config_topo|reflexivity].
Qed.

Lemma transmit_tcn_topo s : same_topo s (stp_transmit_tcn s).
Proof. unfold stp_transmit_tcn. case_match; [apply send_bpdu_topo|reflexivity]. Qed.

Lemma topology_change_detection_topo s : same_topo s (stp_topology_change_detection s).
Proof.
  unfold stp_topology_change_detection. do 2 topo_set.
  repeat case_match; repeat topo_set; try reflexivity. apply transmit_tcn_topo.
Qed.

Lemma acknowledge_topology_change_topo s i : same_topo s (stp_acknowledge_topology_change s i).
Proof. eapply topo_after; [|apply transmit_config_topo]. by apply same_topo_upd. Qed.

Lemma become_root_bridge_topo s : same_topo s (stp_become_root_bridge s).
Proof.
  unfold stp_become_root_bridge. topo_set.
  eapply topo_after; [|apply config_bpdu_generation_topo]. topo_set.
  eapply topo_after; [|apply topology_change_detection_topo]. unfold take_bridge_times.
  by repeat topo_set.
Qed.

Lemma become_root_if_topo s b : same_topo s (become_root_if s b).
Proof. unfold become_root_if. case_match; [apply become_root_bridge_topo|reflexivity]. Qed.

(** ** Loops over the ports *)

(** A loop body that changes the topology of its own port only, by [R]. *)
Definition port_step (R : Z * Z * Z * option nat * nat → nat →
      stp_state * Z * Z * Z * Z * Z * Z → stp_state * Z * Z * Z * Z * Z * Z → Prop)
    (f : stp → nat → stp) : Prop :=
  ∀ s i, (i < length (st_ports s))%nat → sp_state (port s i) ≠ STP_DISABLED →
    ctx (f s i) = ctx s
    ∧ (∀ j, j ≠ i → topo_port (port (f s i) j) = topo_port (port s j))
    ∧ R (ctx s) i (topo_port (port s i)) (topo_port (port (f s i) i)).

Lemma topo_state p p' : topo_port p = topo_port p' → sp_state p = sp_state p'.
Proof. by intros [= ->]. Qed.

Lemma for_each_port_step R f s :
  port_step R f → length (st_ports s) = STP_MAX_PORTS →
  let s' := for_each_enabled_port f s in
  ctx s' = ctx s
  ∧ ∀ i, (i < STP_MAX_PORTS)%nat →
      if decide (sp_state (port s i) = STP_DISABLED)
      then topo_port (port s' i) = topo_port (port s i)
      else R (ctx s) i (topo_port (port s i)) (topo_port (port s' i)).
Proof.
  intros Hf Hlen. unfold for_each_enabled_port. cbv zeta.
  assert (Hgen : ∀ l s0, NoDup l → (∀ i, i ∈ l → (i < STP_MAX_PORTS)%nat) → ctx s0 = ctx s →
    (∀ i, i ∈ l → topo_port (port s0 i) = topo_port (port s i)) →
    let s' := foldl (λ s i, if decide (sp_state (port s i) = STP_DISABLED) then s else f s i) s0 l in
    ctx s' = ctx s
    ∧ (∀ i, i ∉ l → topo_port (port s' i) = topo_port (port s0 i))
    ∧ ∀ i, i ∈ l →
        if decide (sp_state (port s i) = STP_DISABLED)
        then topo_port (port s' i) = topo_port (port s i)
        else R (ctx s) i (topo_port (port s i)) (topo_port (port s' i))).
  { induction l as [|i l IH]; intros s0 Hnd Hl Hc Hp; cbn [foldl].
    { split; [done|]. split; [done|]. by intros i ?%elem_of_nil. }
    apply NoDup_cons in Hnd as [Hi Hnd].
    assert (Hpi : topo_port (port s0 i) = topo_port (port s i)) by (apply Hp; set_solver).
    assert (Hs1 : let s1 := if decide (sp_state (port s0 i) = STP_DISABLED) then s0 else f s0 i in
      ctx s1 = ctx s ∧ (∀ j, j ≠ i → topo_port (port s1 j) = topo_port (port s0 j))
      ∧ if decide (sp_state (port s i) = STP_DISABLED)
        then topo_port (port s1 i) = topo_port (port s i)
        else R (ctx s) i (topo_port (port s i)) (topo_port (port s1 i))).
    { cbv zeta. rewrite <- (topo_state _ _ Hpi). case_decide as Hd; [done|].
      assert (Hl0 : length (st_ports s0) = STP_MAX_PORTS) by (injection Hc; congruence).
      destruct (Hf s0 i) as (? & ? & Hr); [rewrite Hl0; apply Hl; set_solver|done|].
      rewrite Hc, Hpi in Hr. split_and!; [congruence|done|done]. }
    set (s1 := if decide _ then s0 else f s0 i) in *. destruct Hs1 as (Hc1 & Ho1 & Hr1).
    destruct (IH s1 Hnd) as (Hc2 & Ho2 & Hr2); [set_solver|done| |].
    { intros j Hj. rewrite Ho1 by (intros ->; done). apply Hp. set_solver. }
    split_and!; [done| |].
    - intros j Hj. rewrite Ho2 by set_solver. apply Ho1. set_solver.
    - intros j [->|Hj]%elem_of_cons; [|by apply Hr2]. by rewrite (Ho2 i Hi). }
  destruct (Hgen (seq 0 STP_MAX_PORTS) s (NoDup_seq _ _)) as (Hc & _ & Hr); [|done|done|].
  - intros i Hi%elem_of_seq. lia.
  - split; [done|]. intros i Hi. apply Hr, elem_of_seq. lia.
Qed.

Lemma for_each_unfold f s :
  for_each_enabled_port f s =
  foldl (λ s i, if decide (sp_state (port s i) = STP_DISABLED) then s else f s i)
    s (seq 0 STP_MAX_PORTS).
Proof. done. Qed.

(** Conversion should not run the loops. *)
#[local] Opaque for_each_enabled_port.

(** ** Role and state selection *)

Definition active (st : stp_state) : bool := state_in st [STP_LISTENING; STP_LEARNING; STP_FORWARDING].

Definition designated (c : Z * Z * Z * option nat * nat) (t : stp_state * Z * Z * Z * Z * Z * Z) : bool :=
  let '(bridge, _, _, _, _) := c in
  let '(_, id, _, _, _, dbridge, dport) := t in
  (dbridge =? bridge) && (dport =? id).

Lemma designated_spec s i : stp_is_designated_port s i = designated (ctx s) (topo_port (port s i)).
Proof. done. Qed.

Definition root_of (c : Z * Z * Z * option nat * nat) : option nat := let '(_, _, _, r, _) := c in r.

Definition with_state (t : stp_state * Z * Z * Z * Z * Z * Z) (st : stp_state) :=
  let '(_, id, cost, droot, dcost, dbridge, dport) := t in (st, id, cost, droot, dcost, dbridge, dport).

Definition state_of (t : stp_state * Z * Z * Z * Z * Z * Z) : stp_state :=
  let '(st, _, _, _, _, _, _) := t in st.

(** What state selection does to the state of an enabled port. *)
Definition selected_state (keep : bool) (st : stp_state) : stp_state :=
  if keep then if decide (st = STP_BLOCKING) then STP_LISTENING else st else STP_BLOCKING.

Lemma set_port_state_topo s i st :
  (i < length (st_ports s))%nat →
  ctx (stp_set_port_state s i st) = ctx s
  ∧ (∀ j, j ≠ i → topo_port (port (stp_set_port_state s i st) j) = topo_port (port s j))
  ∧ topo_port (port (stp_set_port_state s i st) i) = with_state (topo_port (port s i)) st.
Proof.
  intros Hi. unfold stp_set_port_state. set (s1 := if negb _ && negb _ then _ else s).
  assert (H1 : same_topo s s1).
  { unfold s1. destruct (_ && _); [|reflexivity]. cbv zeta. case_decide; by repeat topo_set. }
  pose proof (sto_ctx _ _ H1) as Hc.
  assert (Hi1 : (i < length (st_ports s1))%nat) by (injection Hc as _ _ _ _ ->; done).
  split; [by rewrite ctx_upd|]. split.
  - intros j Hj. rewrite port_upd, decide_False by done. apply H1.
  - rewrite port_upd, decide_True by done. rewrite <- (sto_port _ _ H1 i). done.
Qed.

(** Changing the state of port [i] to [st] and nothing else of the topology. *)
Definition state_step (s s' : stp) (i : nat) (st : stp_state) : Prop :=
  ctx s' = ctx s ∧ (∀ j, j ≠ i → topo_port (port s' j) = topo_port (port s j))
  ∧ topo_port (port s' i) = with_state (topo_port (port s i)) st.

Lemma state_step_after s1 s2 s3 i st : same_topo s1 s2 → state_step s2 s3 i st → state_step s1 s3 i st.
Proof.
  intros [C P] (C' & O' & P'). split; [congruence|]. split.
  - intros j Hj. by rewrite O', P.
  - by rewrite P', P.
Qed.

Lemma state_step_before s1 s2 s3 i st : state_step s1 s2 i st → same_topo s2 s3 → state_step s1 s3 i st.
Proof.
  intros (C' & O' & P') [C P]. split; [congruence|]. split.
  - intros j Hj. by rewrite P, O'.
  - by rewrite P.
Qed.

Lemma state_step_same s s' i : same_topo s s' → state_step s s' i (sp_state (port s i)).
Proof. intros [C P]. split; [done|]. split; [done|]. by rewrite P. Qed.

Lemma make_forwarding_step s i :
  (i < length (st_ports s))%nat →
  state_step s (stp_make_forwarding s i) i (selected_state true (sp_state (port s i))).
Proof.
  intros Hi. unfold stp_make_forwarding, selected_state. case_decide as E.
  - eapply state_step_before; [by apply set_port_state_topo|by apply same_topo_upd].
  - by apply state_step_same.
Qed.

Lemma make_blocking_step s i :
  (i < length (st_ports s))%nat → sp_state (port s i) ≠ STP_DISABLED →
  state_step s (stp_make_blocking s i) i (selected_state false (sp_state (port s i))).
Proof.
  intros Hi Hd. unfold stp_make_blocking, selected_state. case_match eqn:E.
  - eapply state_step_before; [|by apply same_topo_upd].
    set (s1 := if _ && _ then _ else s).
    assert (H1 : same_topo s s1) by
      (unfold s1; case_match; [apply topology_change_detection_topo|reflexivity]).
    eapply state_step_after; [exact H1|]. apply set_port_state_topo.
    pose proof (sto_ctx _ _ H1) as Hc. injection Hc as _ _ _ _ ->. done.
  - assert (Hb : sp_state (port s i) = STP_BLOCKING) by (by destruct (sp_state (port s i))).
    rewrite <- Hb. by apply state_step_same.
Qed.

Definition kept (c : Z * Z * Z * option nat * nat) (i : nat) (t : stp_state * Z * Z * Z * Z * Z * Z) : bool :=
  bool_decide (root_of c = Some i) || designated c t.

Lemma state_selection_step s :
  length (st_ports s) = STP_MAX_PORTS →
  let s' := stp_port_state_selection s in
  ctx s' = ctx s
  ∧ ∀ i, (i < STP_MAX_PORTS)%nat →
      topo_port (port s' i) =
        if decide (sp_state (port s i) = STP_DISABLED) then topo_port (port s i)
        else with_state (topo_port (port s i))
               (selected_state (kept (ctx s) i (topo_port (port s i))) (sp_state (port s i))).
Proof.
  intros Hlen.
  destruct (for_each_port_step (λ c i t t', t' = with_state t (selected_state (kept c i t) (state_of t)))
    (λ s i, if decide (st_root_port s = Some i) then stp_make_forwarding (clear_pending s i) i
      else if stp_is_designated_port s i then
        stp_make_forwarding
          (upd_port s i (λ p, set_sp_message_age_timer p (stp_stop_timer (sp_message_age_timer p)))) i
      else stp_make_blocking (clear_pending s i) i) s) as [Hc Hp]; [|done|].
  { intros s0 i Hi Hd.
    assert (Hst : ∀ f, (∀ p, topo_port (f p) = topo_port p) →
      same_topo s0 (upd_port s0 i f) ∧ (i < length (st_ports (upd_port s0 i f)))%nat
      ∧ sp_state (port (upd_port s0 i f) i) = sp_state (port s0 i)).
    { intros f Hf. pose proof (same_topo_upd s0 i f Hf) as H. split; [done|].
      split; [by rewrite length_upd|]. by apply topo_state, H. }
    assert (Hfwd : ∀ f, (∀ p, topo_port (f p) = topo_port p) →
      state_step s0 (stp_make_forwarding (upd_port s0 i f) i) i (selected_state true (sp_state (port s0 i)))).
    { intros f Hf. destruct (Hst f Hf) as (H1 & H2 & <-).
      eapply state_step_after; [exact H1|]. by apply make_forwarding_step. }
    assert (Hblk : ∀ f, (∀ p, topo_port (f p) = topo_port p) →
      state_step s0 (stp_make_blocking (upd_port s0 i f) i) i (selected_state false (sp_state (port s0 i)))).
    { intros f Hf. destruct (Hst f Hf) as (H1 & H2 & H3). rewrite <- H3 in Hd |- *.
      eapply state_step_after; [exact H1|]. by apply make_blocking_step. }
    unfold kept. rewrite <- designated_spec.
    change (root_of (ctx s0)) with (st_root_port s0).
    change (state_of (topo_port (port s0 i))) with (sp_state (port s0 i)).
    case_decide as Hr; [|destruct (stp_is_designated_port s0 i) eqn:Hdes].
    - rewrite bool_decide_true by done. by apply Hfwd.
    - rewrite bool_decide_false by done. by apply Hfwd.
    - rewrite bool_decide_false by done. by apply Hblk. }
  split; [exact Hc|]. intros i Hi. specialize (Hp i Hi). by case_decide.
Qed.

(** *** The root port *)

(** Strict lexicographic order. *)
Fixpoint lex_lt (a b : list Z) : bool :=
  match a, b with
  | x :: a, y :: b => if x =? y then lex_lt a b else x <? y
  | _, _ => false
  end.

Lemma lex_lt_irrefl a : lex_lt a a = false.
Proof. induction a as [|x a IH]; [done|]. simpl. by rewrite Z.eqb_refl. Qed.

Lemma lex_lt_trans a b c : lex_lt a b = true → lex_lt b c = true → lex_lt a c = true.
Proof.
  revert b c. induction a as [|x a IH]; intros [|y b] [|z c]; simpl; try done.
  destruct (Z.eqb_spec x y), (Z.eqb_spec y z), (Z.eqb_spec x z); subst; try done.
  - apply IH.
  - intros ?%Z.ltb_lt ?%Z.ltb_lt. lia.
  - intros ?%Z.ltb_lt ?%Z.ltb_lt. apply Z.ltb_lt. lia.
Qed.

Lemma lex_lt_total a b : length a = length b → lex_lt a b = false → lex_lt b a = true ∨ a = b.
Proof.
  revert b. induction a as [|x a IH]; intros [|y b] Hl; simpl in *; try done; [auto|].
  rewrite (Z.eqb_sym y x). destruct (Z.eqb_spec x y) as [->|Hne].
  - intros Hlt. destruct (IH b) as [?| ->]; [lia|done|auto|auto].
  - intros ?%Z.ltb_ge. left. apply Z.ltb_lt. lia.
Qed.

(** Not being smaller is transitive. *)
Lemma lex_lt_neg_trans a b c :
  length a = length b → lex_lt a b = false → lex_lt b c = false → lex_lt a c = false.
Proof.
  intros Hl Hab Hbc. apply not_true_is_false. intros Hac.
  destruct (lex_lt_total a b Hl Hab) as [Hba| ->]; [|congruence].
  by rewrite (lex_lt_trans _ _ _ Hba Hac) in Hbc.
Qed.

(** 802.1D's root priority vector of a port. *)
Definition priority_vector (p : stp_port) : list Z :=
  [sp_designated_root p; port_cost p; sp_designated_bridge p; sp_designated_port p; sp_port_id p].

Lemma supersedes_root_lex root p :
  stp_supersedes_root root p = lex_lt (priority_vector p) (priority_vector root).
Proof.
  unfold stp_supersedes_root, priority_vector. simpl.
  destruct (sp_designated_root p =? _); [|done]. destruct (port_cost p =? _); [|done].
  destruct (sp_designated_bridge p =? _); [|done]. destruct (sp_designated_port p =? _); [|done].
  simpl. destruct (Z.eqb_spec (sp_port_id p) (sp_port_id root)) as [->|]; [|done].
  apply Z.ltb_irrefl.
Qed.

(** A port that offers a path to a better root than this bridge. *)
Definition root_candidate (s : stp) (i : nat) : Prop :=
  sp_state (port s i) ≠ STP_DISABLED ∧ stp_is_designated_port s i = false
  ∧ sp_designated_root (port s i) < st_bridge_id s.

Lemma better_root_candidate s root i :
  (root_candidate s i ∧ better_root s root i =
     match root with
     | Some r => if stp_supersedes_root (port s r) (port s i) then Some i else root
     | None => Some i
     end)
  ∨ (¬ root_candidate s i ∧ better_root s root i = root).
Proof.
  unfold better_root, root_candidate. case_decide as Hd; [right; naive_solver|].
  destruct (stp_is_designated_port s i); [right; naive_solver|]. simpl.
  destruct (Z.leb_spec (st_bridge_id s) (sp_designated_root (port s i))); [right|left].
  - split; [|done]. intros (_ & _ & ?). lia.
  - done.
Qed.

(** The best of the candidates in [l] and, if there is one, [root]. *)
Lemma best_root_spec s l root :
  match foldl (better_root s) root l with
  | None => root = None ∧ ∀ i, i ∈ l → ¬ root_candidate s i
  | Some r =>
      (root = Some r ∨ (r ∈ l ∧ root_candidate s r))
      ∧ (∀ i, i ∈ l → root_candidate s i →
           lex_lt (priority_vector (port s i)) (priority_vector (port s r)) = false)
      ∧ (∀ r0, root = Some r0 → lex_lt (priority_vector (port s r0)) (priority_vector (port s r)) = false)
  end.
Proof.
  revert root. induction l as [|i l IH]; intros root; cbn [foldl].
  { destruct root as [r|].
    - split_and!; [by left|by intros i ?%elem_of_nil|]. intros r0 [= ->]. apply lex_lt_irrefl.
    - split; [done|by intros i ?%elem_of_nil]. }
  specialize (IH (better_root s root i)).
  destruct (better_root_candidate s root i) as [[Hc E]|[Hc E]]; rewrite E in *.
  - destruct root as [r0|]; [destruct (stp_supersedes_root (port s r0) (port s i)) eqn:Hs|];
      (destruct (foldl _ _ l) as [r|]; [|by destruct IH]); destruct IH as (Hr & Hall & Hroot);
      (split_and!; [destruct Hr as [[= ->]|[? ?]]; [auto using list_elem_of_here|right; split; [by right|done]]|..]).
    + intros j [->|Hj]%elem_of_cons Hcj; auto.
    + intros r1 [= <-]. rewrite supersedes_root_lex in Hs. specialize (Hroot i eq_refl).
      apply not_true_is_false. intros Hlt. rewrite (lex_lt_trans _ _ _ Hs Hlt) in Hroot. done.
    + intros j [->|Hj]%elem_of_cons Hcj; [|auto]. rewrite supersedes_root_lex in Hs.
      eapply lex_lt_neg_trans; [|exact Hs|by apply Hroot]. done.
    + auto.
    + intros j [->|Hj]%elem_of_cons Hcj; auto.
    + done.
  - destruct (foldl _ _ l) as [r|].
    + destruct IH as (Hr & Hall & Hroot). split_and!; [|intros j [->|Hj]%elem_of_cons; naive_solver|done].
      destruct Hr as [?|[? ?]]; [by left|right; split; [by right|done]].
    + destruct IH as [-> Hno]. split; [done|]. intros j [->|Hj]%elem_of_cons; auto.
Qed.

Lemma root_selection_ports s : st_ports (stp_root_selection s) = st_ports s
  ∧ st_bridge_id (stp_root_selection s) = st_bridge_id s.
Proof. unfold stp_root_selection. by case_match. Qed.

(** [stp_root_selection] picks as root port the enabled port whose
    information has the best priority vector (root identifier, path cost
    through the port, sending bridge, sending port, own port identifier)
    among the ports that are not designated and offer a better root than this
    bridge; the bridge then takes over that port's root and path cost, so
    that the root it believes in is the smallest identifier on offer.
    Without such a port the bridge takes itself to be the root. *)
Theorem stp_root_selection_correct s :
  let s' := stp_root_selection s in
  match st_root_port s' with
  | None => st_designated_root s' = st_bridge_id s ∧ st_root_path_cost s' = 0
      ∧ ∀ i, (i < STP_MAX_PORTS)%nat → ¬ root_candidate s i
  | Some r => (r < STP_MAX_PORTS)%nat ∧ root_candidate s r
      ∧ st_designated_root s' = sp_designated_root (port s r)
      ∧ st_root_path_cost s' = u32 (port_cost (port s r))
      ∧ ∀ i, (i < STP_MAX_PORTS)%nat → root_candidate s i →
          lex_lt (priority_vector (port s i)) (priority_vector (port s r)) = false
          ∧ st_designated_root s' ≤ sp_designated_root (port s i)
  end.
Proof.
  pose proof (best_root_spec s (seq 0 STP_MAX_PORTS) None) as Hs. unfold stp_root_selection.
  destruct (foldl (better_root s) None (seq 0 STP_MAX_PORTS)) as [r|].
  - destruct Hs as ([?|[Hr%elem_of_seq Hc]] & Hall & _); [done|]. cbn -[priority_vector lex_lt].
    split_and!; [lia|apply Hc..|done|done|]. intros i Hi Hci.
    specialize (Hall i ltac:(apply elem_of_seq; lia) Hci). split; [exact Hall|].
    change (port (set_st_root_port s (Some r)) r) with (port s r). unfold priority_vector in Hall.
    cbn [lex_lt] in Hall. destruct (Z.eqb_spec (sp_designated_root (port s i)) (sp_designated_root (port s r)));
      [lia|]. apply Z.ltb_ge in Hall. lia.
  - destruct Hs as [_ Hno]. cbn. split_and!; [done|done|]. intros i Hi. apply Hno, elem_of_seq. lia.
Qed.

(** ** The invariant *)

Definition state_at (s : stp) (i : nat) : stp_state := sp_state (port s i).

(** The part that holds even before states are selected. *)
Record root_inv (s : stp) : Prop := {
  ri_len : length (st_ports s) = STP_MAX_PORTS;
  ri_zero : ∀ i, (i < STP_MAX_PORTS)%nat → state_at s i ≠ STP_ZERO;
  ri_root : match st_root_port s with
            | None => st_designated_root s = st_bridge_id s
            | Some r => st_designated_root s < st_bridge_id s ∧ (r < STP_MAX_PORTS)%nat
                        ∧ state_at s r ≠ STP_DISABLED
            end
}.

Record topo_inv (s : stp) : Prop := {
  ti_root : root_inv s;
  ti_root_active : ∀ r, st_root_port s = Some r → active (state_at s r) = true;
  ti_active : ∀ i, (i < STP_MAX_PORTS)%nat → active (state_at s i) = true →
                st_root_port s = Some i ∨ stp_is_designated_port s i = true
}.

(** No port gets closer to forwarding than it was. *)
Definition held (s s' : stp) : Prop :=
  ∀ i, (i < STP_MAX_PORTS)%nat →
    (state_at s' i = STP_FORWARDING → state_at s i = STP_FORWARDING)
    ∧ (state_at s' i = STP_LEARNING → state_at s i = STP_LEARNING).

#[global] Instance held_preorder : PreOrder held.
Proof. split; [by intros s i|]. intros s1 s2 s3 H12 H23 i Hi. specialize (H12 i Hi). specialize (H23 i Hi). naive_solver. Qed.

Lemma same_topo_state s s' i : same_topo s s' → state_at s' i = state_at s i.
Proof. intros H. apply topo_state, H. Qed.

Lemma same_topo_held s s' : same_topo s s' → held s s'.
Proof. intros H i _. by rewrite (same_topo_state _ _ _ H). Qed.

Lemma same_topo_designated s s' i :
  same_topo s s' → stp_is_designated_port s' i = stp_is_designated_port s i.
Proof. intros [C P]. by rewrite !designated_spec, C, P. Qed.

Lemma root_inv_same s s' : same_topo s s' → root_inv s → root_inv s'.
Proof.
  intros H [Hl Hz Hr]. pose proof (sto_ctx _ _ H) as [= Hb Hd _ Hrp Hlen].
  split; [congruence| |].
  - intros i Hi. rewrite (same_topo_state _ _ _ H). auto.
  - rewrite Hrp, Hb, Hd. destruct (st_root_port s); [|done]. by rewrite (same_topo_state _ _ _ H).
Qed.

Lemma topo_inv_same s s' : same_topo s s' → topo_inv s → topo_inv s'.
Proof.
  intros H [Hr Ha Hd]. pose proof (sto_ctx _ _ H) as [= _ _ _ Hrp _].
  split; [by eapply root_inv_same| |].
  - intros r. rewrite Hrp, (same_topo_state _ _ _ H). apply Ha.
  - intros i Hi. rewrite Hrp, (same_topo_state _ _ _ H), (same_topo_designated _ _ _ H). by apply Hd.
Qed.

(** A change to one port, which leaves it in state [st]. *)
Definition local (s s' : stp) (i : nat) (st : stp_state) : Prop :=
  ctx s' = ctx s ∧ (∀ j, j ≠ i → topo_port (port s' j) = topo_port (port s j)) ∧ state_at s' i = st.

Lemma upd_local s i f :
  (i < length (st_ports s))%nat → local s (upd_port s i f) i (sp_state (f (port s i))).
Proof.
  intros Hi. split; [apply ctx_upd|]. split.
  - intros j Hj. rewrite port_upd by done. by rewrite decide_False.
  - unfold state_at. rewrite port_upd by done. by rewrite decide_True.
Qed.

Lemma state_step_local s s' i st : state_step s s' i st → local s s' i st.
Proof. intros (C & O & P). split; [done|]. split; [done|]. unfold state_at. injection P. done. Qed.

Lemma local_trans s1 s2 s3 i st st' : local s1 s2 i st → local s2 s3 i st' → local s1 s3 i st'.
Proof. intros (C & O & P) (C' & O' & P'). split; [congruence|]. split; [|done]. intros j Hj. by rewrite O', O. Qed.

Lemma local_same s1 s2 s3 i st : local s1 s2 i st → same_topo s2 s3 → local s1 s3 i st.
Proof.
  intros (C & O & P) H. pose proof H as [C' P']. split; [congruence|]. split.
  - intros j Hj. by rewrite P', O.
  - by rewrite (same_topo_state _ _ _ H).
Qed.

Lemma local_state s s' i st j : local s s' i st → state_at s' j = if decide (j = i) then st else state_at s j.
Proof. intros (C & O & P). case_decide as E; [by subst|]. by apply topo_state, O. Qed.

Lemma local_held s s' i st :
  local s s' i st → st ≠ STP_FORWARDING ∧ st ≠ STP_LEARNING ∨ st = state_at s i → held s s'.
Proof.
  intros Hl Hst j _. rewrite (local_state _ _ _ _ j Hl). case_decide; [|done]. subst. naive_solver.
Qed.

Lemma local_len s s' i st : local s s' i st → length (st_ports s') = length (st_ports s).
Proof. by intros ([= _ _ _ _ ->] & _ & _). Qed.

Lemma local_root_inv s s' i st :
  local s s' i st → root_inv s → st ≠ STP_ZERO → (st_root_port s = Some i → st ≠ STP_DISABLED) → root_inv s'.
Proof.
  intros Hl [Hlen Hz Hr] Hst Hri. pose proof Hl as ([= Hb Hd _ Hrp Hln] & _ & _).
  split; [congruence| |].
  - intros j Hj. rewrite (local_state _ _ _ _ j Hl). case_decide; auto.
  - rewrite Hrp, Hb, Hd. destruct (st_root_port s) as [r|]; [|done].
    destruct Hr as (? & ? & ?). rewrite (local_state _ _ _ _ r Hl).
    split_and!; [done|done|]. case_decide; [by subst; auto|done].
Qed.

Lemma become_designated_local s i :
  (i < length (st_ports s))%nat → local s (stp_become_designated_port s i) i (state_at s i).
Proof. apply upd_local. Qed.

(** *** Selecting roles and states *)

Lemma designated_selection_spec s :
  length (st_ports s) = STP_MAX_PORTS →
  ctx (stp_designated_port_selection s) = ctx s
  ∧ ∀ i, (i < STP_MAX_PORTS)%nat → state_at (stp_designated_port_selection s) i = state_at s i.
Proof.
  intros Hlen. destruct (for_each_port_step (λ _ _ t t', state_of t' = state_of t)
    (λ s i, if should_be_designated s i then stp_become_designated_port s i else s) s) as [Hc Hp]; [|done|].
  { intros s0 i Hi _. case_match; [|done].
    destruct (become_designated_local s0 i Hi) as (? & ? & ?). done. }
  unfold stp_designated_port_selection. set (s' := for_each_enabled_port _ s) in *.
  clearbody s'. split; [exact Hc|]. intros i Hi. specialize (Hp i Hi).
  case_decide; [by apply topo_state|exact Hp].
Qed.

Lemma root_inv_states s s' :
  root_inv s → ctx s' = ctx s → (∀ i, (i < STP_MAX_PORTS)%nat → state_at s' i = state_at s i) →
  root_inv s'.
Proof.
  intros [Hl Hz Hr] Hc Hs. injection Hc as Hb Hd _ Hrp Hln. split.
  - congruence.
  - intros i Hi. rewrite Hs by done. auto.
  - rewrite Hrp, Hb, Hd. destruct (st_root_port s); [|done]. destruct Hr as (? & ? & ?). by rewrite Hs.
Qed.

Lemma configuration_update_spec s :
  length (st_ports s) = STP_MAX_PORTS →
  (∀ i, (i < STP_MAX_PORTS)%nat → state_at s i ≠ STP_ZERO) →
  root_inv (stp_configuration_update s) ∧ held s (stp_configuration_update s).
Proof.
  intros Hlen Hz. unfold stp_configuration_update.
  assert (Hports : st_ports (stp_root_selection s) = st_ports s) by (unfold stp_root_selection; by case_match).
  assert (Hst : ∀ i, state_at (stp_root_selection s) i = state_at s i) by
    (intros i; unfold state_at, port; by rewrite Hports).
  assert (Hroot : root_inv (stp_root_selection s)).
  { split; [congruence|intros i Hi; rewrite Hst; auto|].
    pose proof (best_root_spec s (seq 0 STP_MAX_PORTS) None) as Hb. unfold stp_root_selection.
    destruct (foldl (better_root s) None (seq 0 STP_MAX_PORTS)) as [r|]; [|done].
    destruct Hb as ([?|[Hr%elem_of_seq (Hd & _ & Hlt)]] & _); [done|].
    split; [exact Hlt|]. split; [lia|]. exact Hd. }
  destruct (designated_selection_spec (stp_root_selection s)) as [Hc Hs]; [congruence|].
  split; [exact (root_inv_states _ _ Hroot Hc Hs)|].
  intros i Hi. rewrite (Hs i Hi), Hst. by split.
Qed.

Lemma state_selection_spec s :
  root_inv s → topo_inv (stp_port_state_selection s) ∧ held s (stp_port_state_selection s).
Proof.
  intros [Hlen Hz Hr]. destruct (state_selection_step s Hlen) as [Hc Hp].
  revert Hc Hp.
  generalize (stp_port_state_selection s) as s'. intros s' Hc Hp. pose proof Hc as [= Hb Hd _ Hrp Hln].
  assert (Hst : ∀ i, (i < STP_MAX_PORTS)%nat → state_at s' i =
    if decide (state_at s i = STP_DISABLED) then STP_DISABLED
    else selected_state (kept (ctx s) i (topo_port (port s i))) (state_at s i)).
  { intros i Hi. specialize (Hp i Hi). apply (f_equal state_of) in Hp.
    change (state_of (topo_port (port s' i))) with (state_at s' i) in Hp. rewrite Hp.
    unfold state_at. by case_decide. }
  split; [split; [split| |]|].
  - congruence.
  - intros i Hi. rewrite Hst by done. case_decide; [done|]. unfold selected_state.
    pose proof (Hz i Hi). repeat case_match; done.
  - rewrite Hrp, Hb, Hd. destruct (st_root_port s) as [r|]; [|done].
    destruct Hr as (? & ? & Hne). rewrite Hst, decide_False by done. split_and!; [done|done|].
    unfold selected_state. repeat case_match; done.
  - intros r Hr1. rewrite Hrp in Hr1. rewrite Hr1 in Hr. destruct Hr as (_ & Hrl & Hne).
    rewrite Hst, decide_False by done. unfold kept. change (root_of (ctx s)) with (st_root_port s).
    rewrite Hr1, bool_decide_true by done. pose proof (Hz r Hrl). simpl.
    by destruct (state_at s r).
  - intros i Hi. rewrite Hst by done. case_decide as E; [done|]. intros Ha.
    unfold selected_state in Ha. destruct (kept (ctx s) i (topo_port (port s i))) eqn:Hk; [|done].
    rewrite designated_spec, Hc, Hp, decide_False by done. rewrite Hrp.
    apply orb_true_iff in Hk as [?%bool_decide_eq_true|Hdes]; [by left|right].
    rewrite <- Hdes. by destruct (topo_port (port s i)) as [[[[[[? ?] ?] ?] ?] ?] ?].
  - intros i Hi. rewrite Hst by done. case_decide as E; [done|]. unfold selected_state.
    repeat case_match; done.
Qed.

Lemma update_and_select_spec s :
  length (st_ports s) = STP_MAX_PORTS →
  (∀ i, (i < STP_MAX_PORTS)%nat → state_at s i ≠ STP_ZERO) →
  let s' := stp_port_state_selection (stp_configuration_update s) in topo_inv s' ∧ held s s'.
Proof.
  intros Hlen Hz. destruct (configuration_update_spec s Hlen Hz) as [Hr Hh].
  destruct (state_selection_spec _ Hr) as [Ht Hh']. split; [done|]. by etransitivity.
Qed.

(** A change to one port that leaves its state alone, then a new selection. *)
Lemma local_update_select s s' i st b :
  root_inv s → local s s' i st → st ≠ STP_ZERO →
  (st ≠ STP_FORWARDING ∧ st ≠ STP_LEARNING ∨ st = state_at s i) →
  let s'' := become_root_if (stp_port_state_selection (stp_configuration_update s')) b in
  topo_inv s'' ∧ held s s''.
Proof.
  intros Hr Hl Hst Hf. destruct (update_and_select_spec s') as [Ht Hh].
  - rewrite (local_len _ _ _ _ Hl). apply Hr.
  - intros j Hj. rewrite (local_state _ _ _ _ j Hl). case_decide; [done|]. by apply Hr.
  - pose proof (become_root_if_topo (stp_port_state_selection (stp_configuration_update s')) b) as Hb.
    split; [by eapply topo_inv_same|]. etransitivity; [by eapply local_held|].
    etransitivity; [exact Hh|]. by apply same_topo_held.
Qed.

(** ** Preservation by the operations *)

(** An operation that keeps the invariant and promotes no port. *)
Definition keeps (s s' : stp) : Prop := topo_inv s → topo_inv s' ∧ held s s'.

Lemma keeps_refl s : keeps s s.
Proof. intros H. split; [done|]. reflexivity. Qed.

Lemma keeps_trans s1 s2 s3 : keeps s1 s2 → keeps s2 s3 → keeps s1 s3.
Proof.
  intros H12 H23 H. destruct (H12 H) as [H' Hh]. destruct (H23 H') as [? Hh'].
  split; [done|]. by etransitivity.
Qed.

Lemma same_topo_keeps s s' : same_topo s s' → keeps s s'.
Proof. intros Hs H. split; [by eapply topo_inv_same|by apply same_topo_held]. Qed.

Lemma for_each_keeps f s :
  (∀ s i, (i < STP_MAX_PORTS)%nat → keeps s (f s i)) → keeps s (for_each_enabled_port f s).
Proof.
  intros Hf. rewrite for_each_unfold.
  assert (Hgen : ∀ l s0, (∀ i, i ∈ l → (i < STP_MAX_PORTS)%nat) →
    keeps s0 (foldl (λ s i, if decide (sp_state (port s i) = STP_DISABLED) then s else f s i) s0 l)).
  { induction l as [|i l IH]; intros s0 Hl; cbn [foldl]; [apply keeps_refl|].
    eapply keeps_trans; [|apply IH; set_solver].
    case_decide; [apply keeps_refl|]. apply Hf. set_solver. }
  apply Hgen. intros i Hi%elem_of_seq. lia.
Qed.

Lemma inv_len s : topo_inv s → length (st_ports s) = STP_MAX_PORTS.
Proof. intros H. apply H. Qed.

Lemma inv_in_range s i : topo_inv s → (i < STP_MAX_PORTS)%nat → (i < length (st_ports s))%nat.
Proof. intros H Hi. by rewrite (inv_len s H). Qed.

Lemma message_age_timer_expiry_keeps s i :
  (i < STP_MAX_PORTS)%nat → keeps s (stp_message_age_timer_expiry s i).
Proof.
  intros Hi H. unfold stp_message_age_timer_expiry.
  apply (local_update_select s _ i (state_at s i)).
  - apply H.
  - apply become_designated_local. by apply inv_in_range.
  - by apply H.
  - by right.
Qed.

Lemma tick_message_age_keeps elapsed s i :
  (i < STP_MAX_PORTS)%nat → keeps s (tick_message_age elapsed s i).
Proof.
  intros Hi. unfold tick_message_age. destruct (stp_timer_expired _ _ _) as [t e].
  eapply keeps_trans; [apply same_topo_keeps, (same_topo_upd s i (λ p, set_sp_message_age_timer p t)); done|].
  destruct e; [by apply message_age_timer_expiry_keeps|apply keeps_refl].
Qed.

(** Receiving a config BPDU. *)
Lemma record_config_local s i c :
  (i < length (st_ports s))%nat → local s (stp_record_config_information s i c) i (state_at s i).
Proof. apply upd_local. Qed.

(** What follows the selection on a config BPDU only touches timers. *)
Lemma received_config_tail_topo s i c root :
  same_topo s
    (let s :=
       if negb (stp_is_root_bridge s) && root then
         let s := set_st_hello_timer s (stp_stop_timer (st_hello_timer s)) in
         if st_topology_change_detected s then
           let s := set_st_topology_change_timer s (stp_stop_timer (st_topology_change_timer s)) in
           set_st_tcn_timer (stp_transmit_tcn s) (stp_start_timer 0)
         else s
       else s in
     if decide (st_root_port s = Some i) then
       let s := stp_record_config_timeout_values s c in
       let s := stp_config_bpdu_generation s in
       let s :=
         if negb (Z.land (cb_flags c) STP_CONFIG_TOPOLOGY_CHANGE_ACK =? 0)
         then stp_topology_change_acknowledged s else s in
       if negb (Z.land (cb_flags c) STP_CONFIG_TOPOLOGY_CHANGE =? 0)
       then set_st_fdb_needs_flush s true else s
     else s).
Proof.
  set (s1 := if negb _ && root then _ else s). assert (H1 : same_topo s s1).
  { unfold s1. destruct (_ && _); [|reflexivity]. cbv zeta. case_match; [topo_set|by topo_set].
    eapply topo_after; [|apply transmit_tcn_topo]. by repeat topo_set. }
  clearbody s1. cbv zeta. case_decide; [|done].
  eapply topo_after; [exact H1|].
  set (s2 := stp_config_bpdu_generation _). assert (H2 : same_topo s1 s2).
  { eapply topo_after; [|apply config_bpdu_generation_topo].
    unfold stp_record_config_timeout_values. by repeat topo_set. }
  clearbody s2. eapply topo_after; [exact H2|].
  set (s3 := if negb _ then stp_topology_change_acknowledged s2 else s2).
  assert (H3 : same_topo s2 s3) by
    (unfold s3; case_match; [unfold stp_topology_change_acknowledged; by repeat topo_set|reflexivity]).
  clearbody s3. eapply topo_after; [exact H3|]. case_match; by repeat topo_set.
Qed.

Lemma received_config_keeps s i c :
  (i < STP_MAX_PORTS)%nat → keeps s (stp_received_config_bpdu s i c).
Proof.
  intros Hi H. unfold stp_received_config_bpdu. case_match; [by apply keeps_refl|].
  case_decide; [by apply keeps_refl|]. cbv zeta.
  destruct (stp_supersedes_port_info s i c).
  - destruct (update_and_select_spec (stp_record_config_information s i c)) as [Ht Hh].
    { rewrite (local_len _ _ _ _ (record_config_local s i c (inv_in_range s i H Hi))). by apply inv_len. }
    { intros j Hj. rewrite (local_state _ _ _ _ j (record_config_local s i c (inv_in_range s i H Hi))).
      case_decide; by apply H. }
    assert (Hh0 : held s (stp_record_config_information s i c)).
    { eapply local_held; [apply record_config_local; by apply inv_in_range|by right]. }
    set (s1 := stp_port_state_selection _) in *.
    assert (Hk : ∀ s2, same_topo s1 s2 → topo_inv s2 ∧ held s s2).
    { intros s2 Hs. split; [by eapply topo_inv_same|]. etransitivity; [exact Hh0|].
      etransitivity; [exact Hh|]. by apply same_topo_held. }
    clearbody s1. apply Hk. apply received_config_tail_topo.
  - apply same_topo_keeps; [|done]. case_match; [apply transmit_config_topo|reflexivity].
Qed.

Lemma received_tcn_keeps s i : keeps s (stp_received_tcn_bpdu s i).
Proof.
  apply same_topo_keeps. unfold stp_received_tcn_bpdu. case_decide; [reflexivity|].
  case_match; [|reflexivity].
  eapply topo_after; [apply topology_change_detection_topo|apply acknowledge_topology_change_topo].
Qed.

Lemma count_error_topo s i : same_topo s (count_error s i).
Proof. by apply same_topo_upd. Qed.
Lemma count_rx_topo s i : same_topo s (count_rx s i).
Proof. by apply same_topo_upd. Qed.

Lemma received_bpdu_keeps s i b : (i < STP_MAX_PORTS)%nat → keeps s (stp_received_bpdu s i b).
Proof.
  intros Hi. unfold stp_received_bpdu. case_decide; [apply keeps_refl|].
  repeat (case_match; try apply same_topo_keeps, count_error_topo).
  - eapply keeps_trans; [by apply received_config_keeps|apply same_topo_keeps, count_rx_topo].
  - eapply keeps_trans; [by apply received_tcn_keeps|apply same_topo_keeps, count_rx_topo].
Qed.

(** *** The forward delay timer *)

Definition promote (st : stp_state) : stp_state :=
  match st with STP_LISTENING => STP_LEARNING | STP_LEARNING => STP_FORWARDING | _ => st end.

Lemma forward_expiry_step s i :
  (i < length (st_ports s))%nat →
  state_step s (stp_forward_delay_timer_expiry s i) i (promote (state_at s i)).
Proof.
  intros Hi. unfold stp_forward_delay_timer_expiry, state_at.
  destruct (sp_state (port s i)) eqn:E; simpl;
    try (rewrite <- E; apply state_step_same; reflexivity).
  - eapply state_step_before; [by apply set_port_state_topo|by apply same_topo_upd].
  - eapply state_step_before; [by apply set_port_state_topo|].
    destruct (_ && _); [apply topology_change_detection_topo|reflexivity].
Qed.

Lemma hold_expiry_topo s i : same_topo s (stp_hold_timer_expiry s i).
Proof. unfold stp_hold_timer_expiry. case_match; [apply transmit_config_topo|reflexivity]. Qed.

Lemma tick_hold_topo elapsed s i : same_topo s (tick_hold elapsed s i).
Proof.
  unfold tick_hold. destruct (stp_timer_expired _ _ _) as [t e]. destruct e.
  - eapply topo_after; [|apply hold_expiry_topo]. by apply same_topo_upd.
  - by apply same_topo_upd.
Qed.

Lemma tick_forward_hold_step elapsed s i :
  (i < length (st_ports s))%nat →
  ∃ st, state_step s (tick_hold elapsed (tick_forward_delay elapsed s i) i) i st
        ∧ (st = state_at s i ∨ st = promote (state_at s i)).
Proof.
  intros Hi. unfold tick_forward_delay. destruct (stp_timer_expired _ _ _) as [t e].
  set (s1 := upd_port s i _). assert (H1 : same_topo s s1) by (by apply same_topo_upd).
  assert (Hi1 : (i < length (st_ports s1))%nat) by (unfold s1; by rewrite length_upd).
  clearbody s1. rewrite <- (same_topo_state _ _ i H1). destruct e.
  - exists (promote (state_at s1 i)). split; [|by right].
    eapply state_step_before; [|apply tick_hold_topo].
    eapply state_step_after; [exact H1|]. by apply forward_expiry_step.
  - exists (state_at s1 i). split; [|by left].
    eapply state_step_before; [|apply tick_hold_topo].
    eapply state_step_after; [exact H1|]. by apply state_step_same.
Qed.

Lemma promote_active st : active (promote st) = active st.
Proof. by destruct st. Qed.

(** Changing an active port's state to another active one. *)
Lemma state_step_inv s s' i st :
  topo_inv s → state_step s s' i st → active st = active (state_at s i) →
  st ≠ STP_ZERO → (st = STP_DISABLED → state_at s i = STP_DISABLED) → topo_inv s'.
Proof.
  intros [Hr Ha Hd] Hs Hact Hz Hdis. pose proof (state_step_local _ _ _ _ Hs) as Hl.
  pose proof Hl as ([= _ _ _ Hrp _] & _ & _).
  assert (Hact' : ∀ j, active (state_at s' j) = active (state_at s j)).
  { intros j. rewrite (local_state _ _ _ _ j Hl). case_decide; by subst. }
  assert (Hdes : ∀ j, stp_is_designated_port s' j = stp_is_designated_port s j).
  { intros j. destruct Hs as (C & O & P). rewrite !designated_spec, C.
    destruct (decide (j = i)) as [->|Hj]; [|by rewrite O]. rewrite P.
    by destruct (topo_port (port s i)) as [[[[[[? ?] ?] ?] ?] ?] ?]. }
  split.
  - eapply local_root_inv; [exact Hl|done|done|]. intros Hri E.
    pose proof (ri_root s Hr) as Hroot. rewrite Hri in Hroot. destruct Hroot as (_ & _ & Hne). auto.
  - intros r. rewrite Hrp, Hact'. apply Ha.
  - intros j Hj. rewrite Hact', Hrp, Hdes. by apply Hd.
Qed.

Lemma tick_forward_hold_inv elapsed s i :
  (i < STP_MAX_PORTS)%nat → topo_inv s →
  topo_inv (tick_hold elapsed (tick_forward_delay elapsed s i) i).
Proof.
  intros Hi H. pose proof (ri_zero s (ti_root s H) i Hi) as Hz.
  destruct (tick_forward_hold_step elapsed s i) as (st & Hs & Hst); [by apply inv_in_range|].
  assert (Hcase : active st = active (state_at s i) ∧ st ≠ STP_ZERO
    ∧ (st = STP_DISABLED → state_at s i = STP_DISABLED)).
  { destruct Hst as [->| ->]; [done|]. rewrite promote_active. split; [done|].
    by destruct (state_at s i). }
  destruct Hcase as (? & ? & ?). by eapply state_step_inv.
Qed.

(** At most one step towards forwarding. *)
Definition at_most_promoted (s s' : stp) : Prop :=
  ∀ i, (i < STP_MAX_PORTS)%nat →
    (state_at s' i = STP_FORWARDING → state_at s i = STP_FORWARDING ∨ state_at s i = STP_LEARNING).

Lemma forward_loop_promoted elapsed s :
  topo_inv s →
  let s' := for_each_enabled_port (λ s i, tick_hold elapsed (tick_forward_delay elapsed s i) i) s in
  topo_inv s' ∧ at_most_promoted s s'.
Proof.
  intros H. split.
  - rewrite for_each_unfold. assert (Hl : ∀ i, i ∈ seq 0 STP_MAX_PORTS → (i < STP_MAX_PORTS)%nat)
      by (intros i Hi%elem_of_seq; lia).
    revert s H Hl. generalize (seq 0 STP_MAX_PORTS) as l. intros l. induction l as [|i l IH]; intros s H Hl;
      cbn [foldl]; [done|]. apply IH; [|set_solver].
    case_decide; [done|]. apply tick_forward_hold_inv; [set_solver|done].
  - destruct (for_each_port_step
      (λ _ _ t t', state_of t' = STP_FORWARDING → state_of t = STP_FORWARDING ∨ state_of t = STP_LEARNING)
      (λ s i, tick_hold elapsed (tick_forward_delay elapsed s i) i) s) as [_ Hp]; [|by apply inv_len|].
    + intros s0 i Hi _. destruct (tick_forward_hold_step elapsed s0 i Hi) as (st & (C & O & P) & Hst).
      split; [exact C|]. split; [exact O|]. rewrite P. unfold state_at in Hst.
      change (state_of (with_state (topo_port (port s0 i)) st)) with st.
      change (state_of (topo_port (port s0 i))) with (sp_state (port s0 i)).
      destruct Hst as [->| ->]; [by left|]. destruct (sp_state (port s0 i)); simpl; naive_solver.
    + intros i Hi. specialize (Hp i Hi). revert Hp.
      generalize (for_each_enabled_port (λ s i, tick_hold elapsed (tick_forward_delay elapsed s i) i) s) as s'.
      intros s'. case_decide as E; [|intros Hp; exact Hp].
      intros Ht%topo_state. unfold state_at. rewrite Ht. by left.
Qed.

Lemma tick_bridge_topo elapsed s :
  same_topo s (tick_topology_change elapsed (tick_tcn elapsed (tick_hello elapsed s))).
Proof.
  assert (H1 : same_topo s (tick_hello elapsed s)).
  { unfold tick_hello. destruct (stp_timer_expired _ _ _) as [t e]. destruct e; [|by topo_set].
    unfold stp_hello_timer_expiry. topo_set. eapply topo_after; [|apply config_bpdu_generation_topo]. by topo_set. }
  eapply topo_after; [exact H1|]. generalize (tick_hello elapsed s). clear s H1. intros s.
  assert (H2 : same_topo s (tick_tcn elapsed s)).
  { unfold tick_tcn. destruct (stp_timer_expired _ _ _) as [t e]. destruct e; [|by topo_set].
    unfold stp_tcn_timer_expiry. topo_set. eapply topo_after; [|apply transmit_tcn_topo]. by topo_set. }
  eapply topo_after; [exact H2|]. generalize (tick_tcn elapsed s). clear s H2. intros s.
  unfold tick_topology_change. destruct (stp_timer_expired _ _ _) as [t e]. destruct e; [|by topo_set].
  unfold stp_topology_change_timer_expiry. by repeat topo_set.
Qed.

Lemma tick_promoted s ms : topo_inv s → topo_inv (stp_tick s ms) ∧ at_most_promoted s (stp_tick s ms).
Proof.
  intros H. unfold stp_tick. set (ms' := i32 _). set (s1 := set_st_elapsed_remainder _ _).
  assert (H1 : same_topo s s1) by (by apply same_topo_intro).
  assert (Hk1 := same_topo_keeps _ _ H1 H). clearbody s1. destruct Hk1 as [I1 P1].
  assert (Hweak : ∀ s', held s s' → at_most_promoted s s') by (intros s' Hh i Hi Hf; left; by apply Hh).
  destruct (_ =? 0); [by auto|].
  pose proof (tick_bridge_topo (ms_to_timer ms') s1) as H2.
  set (s2 := tick_topology_change _ _) in *. destruct (same_topo_keeps _ _ H2 I1) as [I2 P2].
  clearbody s2. cbv zeta.
  destruct (for_each_keeps (tick_message_age (ms_to_timer ms')) s2
    (λ s i, tick_message_age_keeps (ms_to_timer ms') s i) I2) as [I3 P3].
  set (s3 := for_each_enabled_port (tick_message_age (ms_to_timer ms')) s2) in *. clearbody s3.
  destruct (forward_loop_promoted (ms_to_timer ms') s3 I3) as [I4 P4]. split; [exact I4|].
  intros i Hi Hf. destruct (P4 i Hi Hf) as [E|E]; [left|right]; by apply P1, P2, P3.
Qed.

(** *** Management operations *)

Lemma local_select s s' i st :
  root_inv s → local s s' i st → st ≠ STP_ZERO →
  (st ≠ STP_FORWARDING ∧ st ≠ STP_LEARNING ∨ st = state_at s i) →
  let s'' := stp_port_state_selection (stp_configuration_update s') in topo_inv s'' ∧ held s s''.
Proof.
  intros Hr Hl Hz Hf. pose proof (local_update_select s s' i st true Hr Hl Hz Hf) as H.
  unfold become_root_if in H. by rewrite andb_false_r in H.
Qed.

Lemma port_disable_keeps s i : (i < STP_MAX_PORTS)%nat → keeps s (stp_port_disable s i).
Proof.
  intros Hi H. unfold stp_port_disable. case_decide; [by apply keeps_refl|]. cbv zeta.
  set (s1 := stp_become_designated_port s i). set (s2 := stp_set_port_state s1 i STP_DISABLED).
  set (s3 := upd_port s2 i _).
  assert (Hr : (i < length (st_ports s))%nat) by (by apply inv_in_range).
  assert (L1 : local s s1 i (state_at s i)) by (by apply become_designated_local).
  assert (L2 : local s1 s2 i STP_DISABLED).
  { apply state_step_local, set_port_state_topo. by rewrite (local_len _ _ _ _ L1). }
  assert (L3 : local s s3 i STP_DISABLED).
  { eapply local_same; [eapply local_trans; [exact L1|exact L2]|]. by apply same_topo_upd. }
  clearbody s3. destruct (local_update_select s s3 i STP_DISABLED (stp_is_root_bridge s)) as [Ht Hh];
    [apply H|exact L3|done|by left|].
  eapply (keeps_trans _ (become_root_if (stp_port_state_selection (stp_configuration_update s3)) (stp_is_root_bridge s)));
    [intros _; by split|apply same_topo_keeps; by apply same_topo_upd|done].
Qed.

Lemma initialize_port_local s i st :
  (i < length (st_ports s))%nat → state_in st [STP_DISABLED; STP_BLOCKING] = true →
  ∃ s', stp_initialize_port s i st = Some s' ∧ local s s' i st.
Proof.
  intros Hi Hst. unfold stp_initialize_port. rewrite Hst. cbv zeta. eexists. split; [done|].
  eapply local_same; [|by apply same_topo_upd].
  eapply local_trans; [by apply become_designated_local|].
  apply state_step_local, set_port_state_topo. unfold stp_become_designated_port. by rewrite length_upd.
Qed.

Lemma port_enable_keeps s i s' :
  (i < STP_MAX_PORTS)%nat → stp_port_enable s i = Some s' → keeps s s'.
Proof.
  intros Hi He H. unfold stp_port_enable in He.
  case_decide as Hd; [|injection He as <-; by apply keeps_refl].
  destruct (initialize_port_local s i STP_BLOCKING) as (s1 & E & Hl); [by apply inv_in_range|done|].
  rewrite E in He. change (Some (stp_port_state_selection s1) = Some s') in He.
  apply (inj Some) in He. subst s'.
  assert (Hr : root_inv s1) by (eapply local_root_inv; [exact Hl|apply H|done|done]).
  destruct (state_selection_spec s1 Hr) as [Ht Hh]. split; [exact Ht|].
  etransitivity; [eapply local_held; [exact Hl|by left]|exact Hh].
Qed.

(** A change to one port that keeps its state and does not end its role. *)
Lemma local_inv s s' i :
  local s s' i (state_at s i) → topo_inv s → (i < STP_MAX_PORTS)%nat →
  (stp_is_designated_port s i = true → stp_is_designated_port s' i = true) → topo_inv s'.
Proof.
  intros Hl [Hr Ha Hd] Hi Hdes. pose proof Hl as (C & O & _). pose proof C as [= _ _ _ Hrp _].
  assert (Hst : ∀ j, state_at s' j = state_at s j).
  { intros j. rewrite (local_state _ _ _ _ j Hl). case_decide; by subst. }
  split.
  - eapply local_root_inv; [exact Hl|done|by apply Hr|]. intros Hri.
    pose proof (ri_root s Hr) as Hroot. rewrite Hri in Hroot. by destruct Hroot as (_ & _ & ?).
  - intros r. rewrite Hrp, Hst. apply Ha.
  - intros j Hj. rewrite Hst, Hrp. intros Hact. destruct (Hd j Hj Hact) as [?|Hdj]; [by left|right].
    destruct (decide (j = i)) as [->|Hne]; [auto|]. by rewrite designated_spec, C, O, <- designated_spec.
Qed.

Lemma port_set_priority_keeps s i prio :
  (i < STP_MAX_PORTS)%nat → keeps s (stp_port_set_priority s i prio).
Proof.
  intros Hi H. unfold stp_port_set_priority. set (id := u16 _).
  destruct (_ =? id); [by apply keeps_refl|].
  assert (Hr : (i < length (st_ports s))%nat) by (by apply inv_in_range).
  set (s1 := if stp_is_designated_port s i then _ else s). set (s2 := upd_port s1 i _).
  assert (L1 : local s s1 i (state_at s i)).
  { unfold s1. case_match; [by apply (upd_local s i (λ p, set_sp_designated_port p id))|]. by split. }
  assert (Hr1 : (i < length (st_ports s1))%nat) by (by rewrite (local_len _ _ _ _ L1)).
  assert (L2 : local s s2 i (state_at s i)).
  { assert (L : local s1 s2 i (state_at s1 i)) by (by apply (upd_local s1 i (λ p, set_sp_port_id p id))).
    destruct L1 as (C1 & O1 & P1). rewrite P1 in L. eapply local_trans; [by split_and!|exact L]. }
  assert (Hdes : stp_is_designated_port s i = true → stp_is_designated_port s2 i = true).
  { intros E. unfold s2, s1. rewrite E. unfold stp_is_designated_port in *. rewrite !port_upd by
      (rewrite ?length_upd; done). rewrite !decide_True by done. simpl.
    apply andb_true_iff in E as [E _]. rewrite E, Z.eqb_refl. done. }
  pose proof (local_inv s s2 i L2 H Hi Hdes) as I2.
  assert (H2 : held s s2) by (eapply local_held; [exact L2|by right]). clearbody s2. cbv zeta.
  destruct (_ && _); [|by split].
  destruct (state_selection_spec (stp_become_designated_port s2 i)) as [I3 H3].
  { eapply local_root_inv; [apply become_designated_local; by apply inv_in_range|apply I2|by apply I2|].
    intros Hri. pose proof (ri_root s2 (ti_root s2 I2)) as Hroot. rewrite Hri in Hroot.
    by destruct Hroot as (_ & _ & ?). }
  split; [exact I3|]. etransitivity; [exact H2|]. etransitivity; [|exact H3].
  eapply local_held; [apply become_designated_local; by apply inv_in_range|by right].
Qed.

Lemma port_set_path_cost_keeps s i cost :
  (i < STP_MAX_PORTS)%nat → keeps s (stp_port_set_path_cost s i cost).
Proof.
  intros Hi H. unfold stp_port_set_path_cost. case_match; [by apply keeps_refl|].
  apply (local_select s _ i (state_at s i)); [apply H| |by apply H|by right].
  apply (upd_local s i (λ p, set_sp_path_cost p cost)). by apply inv_in_range.
Qed.

(** The bridge's own identifier in the designated ports. *)
Definition rebrand (id : Z) (s : stp) (i : nat) : stp :=
  if stp_is_designated_port s i then upd_port s i (λ p, set_sp_designated_bridge p id) else s.

Lemma rebrand_loop_spec id s :
  length (st_ports s) = STP_MAX_PORTS →
  length (st_ports (for_each_enabled_port (rebrand id) s)) = STP_MAX_PORTS
  ∧ ∀ i, (i < STP_MAX_PORTS)%nat → state_at (for_each_enabled_port (rebrand id) s) i = state_at s i.
Proof.
  intros Hlen. destruct (for_each_port_step (λ _ _ t t', state_of t' = state_of t) (rebrand id) s)
    as [Hc Hp]; [|done|].
  { intros s0 i Hi _. unfold rebrand. case_match; [|done].
    by destruct (upd_local s0 i (λ p, set_sp_designated_bridge p id) Hi) as (? & ? & ?). }
  revert Hc Hp. generalize (for_each_enabled_port (rebrand id) s) as s1. intros s1 Hc Hp. split.
  - injection Hc as _ _ _ _ ->. done.
  - intros i Hi. specialize (Hp i Hi). case_decide; [by apply topo_state|exact Hp].
Qed.

Lemma states_select s s2 b :
  topo_inv s → length (st_ports s2) = STP_MAX_PORTS →
  (∀ i, (i < STP_MAX_PORTS)%nat → state_at s2 i = state_at s i) →
  topo_inv (become_root_if (stp_port_state_selection (stp_configuration_update s2)) b)
  ∧ held s (become_root_if (stp_port_state_selection (stp_configuration_update s2)) b).
Proof.
  intros H Hlen Hst. destruct (update_and_select_spec s2 Hlen) as [I2 H2].
  { intros i Hi. rewrite Hst by done. by apply H. }
  pose proof (become_root_if_topo (stp_port_state_selection (stp_configuration_update s2)) b) as Hb.
  split; [by eapply topo_inv_same|]. etransitivity; [|etransitivity; [exact H2|by apply same_topo_held]].
  intros i Hi. rewrite (Hst i Hi). by split.
Qed.

Lemma set_bridge_states s id :
  st_ports (set_st_bridge_id s id) = st_ports s ∧ ∀ i, state_at (set_st_bridge_id s id) i = state_at s i.
Proof. done. Qed.

Lemma set_bridge_id_keeps s id : keeps s (set_bridge_id s id).
Proof.
  intros H. unfold set_bridge_id. destruct (id =? _); [by apply keeps_refl|].
  destruct (rebrand_loop_spec id s (inv_len s H)) as [Hlen Hst].
  destruct (set_bridge_states (for_each_enabled_port (rebrand id) s) id) as [Hp Hs].
  apply (states_select s (set_st_bridge_id (for_each_enabled_port (rebrand id) s) id)
    (stp_is_root_bridge s) H).
  - rewrite Hp. exact Hlen.
  - intros i Hi. rewrite Hs. by apply Hst.
Qed.

Lemma update_bridge_timers_topo s : same_topo s (stp_update_bridge_timers s).
Proof.
  unfold stp_update_bridge_timers, take_bridge_times. cbv zeta. destruct (stp_is_root_bridge _); by repeat topo_set.
Qed.

Lemma get_changed_port_topo s : same_topo s (stp_get_changed_port s).1.
Proof. unfold stp_get_changed_port. destruct (List.find _ _); simpl; by repeat topo_set. Qed.

(** *** Creation *)

Lemma create_loop_spec l s :
  length (st_ports s) = STP_MAX_PORTS → (∀ i, i ∈ l → (i < STP_MAX_PORTS)%nat) →
  ∃ s', foldl (λ os i, s ← os; create_port s i) (Some s) l = Some s'
    ∧ ctx s' = ctx s ∧ ∀ i, state_at s' i = if decide (i ∈ l) then STP_DISABLED else state_at s i.
Proof.
  revert s. induction l as [|i l IH]; intros s Hlen Hl; cbn [foldl].
  - exists s. split; [done|]. split; [done|]. intros i. by rewrite decide_False by set_solver.
  - assert (Hi : (i < length (st_ports s))%nat) by (rewrite Hlen; apply Hl; set_solver).
    assert (∃ s1, create_port s i = Some s1 ∧ local s s1 i STP_DISABLED) as (s1 & E & L').
    { unfold create_port. set (f := λ p, set_sp_path_cost (set_sp_port_id p _) 19). cbv zeta.
      destruct (initialize_port_local (upd_port s i f) i STP_DISABLED) as (s1 & E & L);
        [by rewrite length_upd|done|].
      exists s1. split; [done|]. eapply local_trans; [by apply upd_local|exact L]. }
    change (Some s ≫= λ s, create_port s i) with (create_port s i). rewrite E.
    destruct (IH s1) as (s' & -> & Hc & Hst); [by rewrite (local_len _ _ _ _ L')|set_solver|].
    exists s'. split; [done|]. split; [rewrite Hc; apply L'|].
    intros j. rewrite Hst, (local_state _ _ _ _ j L'). repeat case_decide; set_solver.
Qed.

Lemma create_bridge_spec id :
  let s := create_bridge id in
  length (st_ports s) = STP_MAX_PORTS ∧ st_root_port s = None ∧ st_designated_root s = st_bridge_id s.
Proof.
  unfold create_bridge, stp_update_bridge_timers, take_bridge_times. cbv zeta.
  destruct (stp_is_root_bridge _); done.
Qed.

Lemma stp_create_inv id : ∃ s, stp_create id = Some s ∧ topo_inv s
  ∧ (∀ i, (i < STP_MAX_PORTS)%nat → state_at s i = STP_DISABLED) ∧ st_root_port s = None.
Proof.
  unfold stp_create. pose proof (create_bridge_spec id) as (Hlen & Hrp & Hdr).
  revert Hlen Hrp Hdr. generalize (create_bridge id) as s0. intros s0 Hlen Hrp Hdr.
  destruct (create_loop_spec (seq 0 STP_MAX_PORTS) s0 Hlen) as (s & -> & Hc & Hst).
  { intros i Hi%elem_of_seq. lia. }
  injection Hc as Hb Hd _ Hrp' Hl'. exists s. split; [done|].
  assert (Hst' : ∀ i, (i < STP_MAX_PORTS)%nat → state_at s i = STP_DISABLED).
  { intros i Hi. rewrite Hst, decide_True; [done|]. apply elem_of_seq. lia. }
  split; [|split; [done|congruence]]. split; [split| |].
  - congruence.
  - intros i Hi. by rewrite Hst'.
  - rewrite Hrp', Hrp. congruence.
  - intros r. by rewrite Hrp', Hrp.
  - intros i Hi. by rewrite Hst'.
Qed.

(** ** Reachable bridges *)

Inductive stp_step (s : stp) : stp → Prop :=
| sts_tick ms : stp_step s (stp_tick s ms)
| sts_received_bpdu i b : (i < STP_MAX_PORTS)%nat → stp_step s (stp_received_bpdu s i b)
| sts_port_enable i s' :
    (i < STP_MAX_PORTS)%nat → stp_port_enable s i = Some s' → stp_step s s'
| sts_port_disable i : (i < STP_MAX_PORTS)%nat → stp_step s (stp_port_disable s i)
| sts_port_set_priority i p : (i < STP_MAX_PORTS)%nat → stp_step s (stp_port_set_priority s i p)
| sts_port_set_path_cost i c : (i < STP_MAX_PORTS)%nat → stp_step s (stp_port_set_path_cost s i c)
| sts_port_set_speed i v : (i < STP_MAX_PORTS)%nat → stp_step s (stp_port_set_speed s i v)
| sts_change_detection_on i : stp_step s (stp_port_enable_change_detection s i)
| sts_change_detection_off i : stp_step s (stp_port_disable_change_detection s i)
| sts_set_aux i a : stp_step s (stp_port_set_aux s i a)
| sts_set_bridge_id id : stp_step s (stp_set_bridge_id s id)
| sts_set_bridge_priority p : stp_step s (stp_set_bridge_priority s p)
| sts_set_hello_time ms : stp_step s (stp_set_hello_time s ms)
| sts_set_max_age ms : stp_step s (stp_set_max_age s ms)
| sts_set_forward_delay ms : stp_step s (stp_set_forward_delay s ms)
| sts_get_changed_port : stp_step s (stp_get_changed_port s).1
| sts_check_fdb_flush : stp_step s (stp_check_and_reset_fdb_flush s).1
| sts_unixctl_tcn : stp_step s (stp_topology_change_detection s).

Definition stp_reachable (s : stp) : Prop :=
  ∃ id s0, stp_create id = Some s0 ∧ rtc stp_step s0 s.

(** The bridge's own times and requests are outside the topology. *)
Lemma set_times_keeps s s' :
  ctx s' = ctx s → st_ports s' = st_ports s → keeps s (stp_update_bridge_timers s').
Proof.
  intros Hc Hp. apply same_topo_keeps. eapply topo_after; [|apply update_bridge_timers_topo].
  by apply same_topo_intro.
Qed.

(** Every step but the clock's promotes no port at all. *)
Lemma stp_step_cases s s' : stp_step s s' → keeps s s' ∨ ∃ ms, s' = stp_tick s ms.
Proof.
  destruct 1; [right; by eexists|left..].
  - by apply received_bpdu_keeps.
  - by eapply port_enable_keeps.
  - by apply port_disable_keeps.
  - by apply port_set_priority_keeps.
  - by apply port_set_path_cost_keeps.
  - unfold stp_port_set_speed. by apply port_set_path_cost_keeps.
  - by apply same_topo_keeps, same_topo_upd.
  - by apply same_topo_keeps, same_topo_upd.
  - by apply same_topo_keeps, same_topo_upd.
  - unfold stp_set_bridge_id. apply set_bridge_id_keeps.
  - unfold stp_set_bridge_priority. apply set_bridge_id_keeps.
  - unfold stp_set_hello_time. by apply set_times_keeps.
  - unfold stp_set_max_age. by apply set_times_keeps.
  - unfold stp_set_forward_delay. by apply set_times_keeps.
  - apply same_topo_keeps, get_changed_port_topo.
  - by apply same_topo_keeps, same_topo_intro.
  - apply same_topo_keeps, topology_change_detection_topo.
Qed.

Lemma stp_step_inv s s' : stp_step s s' → topo_inv s → topo_inv s'.
Proof.
  intros [Hk|[ms ->]]%stp_step_cases H; [by apply Hk|by apply tick_promoted].
Qed.

Lemma stp_reachable_inv s : stp_reachable s → topo_inv s.
Proof.
  intros (id & s0 & Hc & Hs). destruct (stp_create_inv id) as (s1 & Hc' & H & _).
  rewrite Hc in Hc'. apply (inj Some) in Hc'. subst s1. clear Hc.
  induction Hs; eauto using stp_step_inv.
Qed.

(** C14: In every state a bridge can reach, whatever BPDUs it received and
    however it was configured, a port is out of the blocking state only if it
    is the root port or the designated port of its segment: every other
    enabled port is blocked, which is what breaks the loops.  The bridge has
    no root port exactly when it takes itself to be the root, and otherwise
    its root port is in use and the root it believes in has a smaller
    identifier. *)
Theorem stp_roles_safe s :
  stp_reachable s →
  (∀ i, (i < STP_MAX_PORTS)%nat →
     sp_state (port s i) ∈ [STP_LISTENING; STP_LEARNING; STP_FORWARDING] →
     st_root_port s = Some i ∨ stp_is_designated_port s i = true)
  ∧ match st_root_port s with
    | None => stp_is_root_bridge s = true
    | Some r => stp_is_root_bridge s = false ∧ st_designated_root s < st_bridge_id s
        ∧ (r < STP_MAX_PORTS)%nat
        ∧ sp_state (port s r) ∈ [STP_LISTENING; STP_LEARNING; STP_FORWARDING]
    end.
Proof.
  intros H%stp_reachable_inv. pose proof H as [[Hl Hz Hr] Ha Hd].
  assert (Hact : ∀ st, st ∈ [STP_LISTENING; STP_LEARNING; STP_FORWARDING] ↔ active st = true).
  { intros []; unfold active; simpl; split; set_solver. }
  split; [intros i Hi Hst; apply Hd; [done|]; by apply Hact|].
  unfold stp_is_root_bridge. destruct (st_root_port s) as [r|] eqn:E.
  - destruct Hr as (Hlt & Hrm & _). split_and!; [apply Z.eqb_neq; lia|done|done|].
    by apply Hact, Ha.
  - rewrite Hr. apply Z.eqb_refl.
Qed.

(** C24: No operation puts a port into the forwarding state at once: a port
    that forwards after a step was forwarding before, or it was learning and
    the step is the clock's. *)
Theorem stp_forwarding_from_learning s s' i :
  stp_reachable s → stp_step s s' → (i < STP_MAX_PORTS)%nat →
  sp_state (port s' i) = STP_FORWARDING →
  sp_state (port s i) = STP_FORWARDING
  ∨ (sp_state (port s i) = STP_LEARNING ∧ ∃ ms, s' = stp_tick s ms).
Proof.
  intros H%stp_reachable_inv [Hk|[ms ->]]%stp_step_cases Hi Hf.
  - left. by apply (Hk H).
  - destruct (tick_promoted s ms H) as [_ Hp]. destruct (Hp i Hi Hf) as [?|?]; [by left|].
    right. split; [done|by exists ms].
Qed.

(** ** Bridge times *)

(** One second is 256 ticks; no overflow below two hours. *)
Lemma ms_to_timer_spec ms : 0 ≤ ms < 8388608 → ms_to_timer ms = ms * 256 / 1000.
Proof. intros Hm. unfold ms_to_timer. rewrite i32_id by lia. apply Z.quot_div_nonneg; lia. Qed.

Lemma clamp_range x lo hi : lo ≤ hi → lo ≤ clamp x lo hi ≤ hi.
Proof. unfold clamp. destruct (Z.ltb_spec x lo), (Z.ltb_spec hi x); lia. Qed.

(** However the times are requested, the bridge's own times satisfy
    802.1D: in ticks of 1/256 s the hello time is 1 to 10 s, the maximum age
    6 to 40 s and at least twice the hello time plus one second, and the
    forward delay 4 to 30 s.  The third relation, that twice the forward
    delay minus one second reaches the maximum age, can miss by two ticks. *)
Theorem stp_bridge_times s :
  let s' := stp_update_bridge_timers s in
  256 ≤ st_bridge_hello_time s' ≤ 2560
  ∧ 1536 ≤ st_bridge_max_age s' ≤ 10240
  ∧ 1024 ≤ st_bridge_forward_delay s' ≤ 7680
  ∧ 2 * (st_bridge_hello_time s' + 256) ≤ st_bridge_max_age s'
  ∧ st_bridge_max_age s' ≤ 2 * (st_bridge_forward_delay s' - 256) + 2
  ∧ (stp_is_root_bridge s = true →
     st_hello_time s' = st_bridge_hello_time s' ∧ st_max_age s' = st_bridge_max_age s'
     ∧ st_forward_delay s' = st_bridge_forward_delay s').
Proof.
  unfold stp_update_bridge_timers. cbv zeta.
  set (ht := clamp (st_rq_hello_time s) 1000 10000).
  assert (Hht : 1000 ≤ ht ≤ 10000) by (apply clamp_range; lia).
  set (ma := clamp (st_rq_max_age s) (Z.max (2 * (ht + 1000)) 6000) 40000).
  assert (Hma : Z.max (2 * (ht + 1000)) 6000 ≤ ma ≤ 40000) by (apply clamp_range; lia).
  rewrite (Z.quot_div_nonneg ma 2) by lia.
  set (fd := clamp (st_rq_forward_delay s) (ma / 2 + 1000) 30000).
  assert (Hfd : ma / 2 + 1000 ≤ fd ≤ 30000) by (apply clamp_range; Z.to_euclidean_division_equations; lia).
  clearbody ht ma fd.
  rewrite !ms_to_timer_spec by (Z.to_euclidean_division_equations; lia).
  assert (Hrel : 256 ≤ ht * 256 / 1000 ≤ 2560 ∧ 1536 ≤ ma * 256 / 1000 ≤ 10240
    ∧ 1024 ≤ fd * 256 / 1000 ≤ 7680 ∧ 2 * (ht * 256 / 1000 + 256) ≤ ma * 256 / 1000
    ∧ ma * 256 / 1000 ≤ 2 * (fd * 256 / 1000 - 256) + 2)
    by (Z.to_euclidean_division_equations; lia).
  destruct Hrel as (? & ? & ? & ? & ?).
  match goal with |- context [if stp_is_root_bridge ?x then _ else _] =>
    change (stp_is_root_bridge x) with (stp_is_root_bridge s) end.
  destruct (stp_is_root_bridge s); simpl; split_and!; try lia; done.
Qed.

(** The comments on [stp_set_max_age] and [stp_set_forward_delay] promise the
    third relation exactly; with a maximum age of 20.007 s and a forward
    delay of 11.003 s it fails by one tick. *)
Lemma stp_forward_delay_relation_misses :
  match stp_create 1 with
  | Some s =>
      let s := stp_set_forward_delay (stp_set_max_age s 20007) 11003 in
      st_bridge_max_age s = 5121 ∧ 2 * (st_bridge_forward_delay s - 256) = 5120
  | None => False
  end.
Proof. vm_compute. done. Qed.

(** [stp_tick] clamps its argument against overflow of the sum, but the
    conversion to ticks overflows from 2^23 ms (2 h 20 min) on. *)
Lemma ms_to_timer_overflow : ms_to_timer 8388607 = 2147483 ∧ ms_to_timer 8388608 = - 2147483.
Proof. vm_compute. done. Qed.

(** ** Wire format *)

Record config_wf (c : stp_config_bpdu) : Prop := {
  cw_protocol_id : is_u16 (cb_protocol_id c);
  cw_protocol_version : is_u8 (cb_protocol_version c);
  cw_bpdu_type : is_u8 (cb_bpdu_type c);
  cw_flags : is_u8 (cb_flags c);
  cw_root_id : is_u64 (cb_root_id c);
  cw_root_path_cost : is_u32 (cb_root_path_cost c);
  cw_bridge_id : is_u64 (cb_bridge_id c);
  cw_port_id : is_u16 (cb_port_id c);
  cw_message_age : is_u16 (cb_message_age c);
  cw_max_age : is_u16 (cb_max_age c);
  cw_hello_time : is_u16 (cb_hello_time c);
  cw_forward_delay : is_u16 (cb_forward_delay c)
}.

(** A config BPDU is 35 bytes on the wire and reads back as it was
    written. *)
Theorem config_bpdu_roundtrip c :
  config_wf c → length (config_bytes c) = 35%nat ∧ config_of_bytes (config_bytes c) = c.
Proof.
  intros [? ? ? ? ? ? ? ? ? ? ? ?]. split; [done|]. destruct c as [f1 f2 f3 f4 f5 f6 f7 f8 f9 f10 f11 f12].
  simpl in *.
  assert (E : config_of_bytes (config_bytes (StpConfigBpdu f1 f2 f3 f4 f5 f6 f7 f8 f9 f10 f11 f12))
    = StpConfigBpdu (get_be (be_bytes 2 f1)) (get_be (be_bytes 1 f2)) (get_be (be_bytes 1 f3))
        (get_be (be_bytes 1 f4)) (get_be (be_bytes 8 f5)) (get_be (be_bytes 4 f6)) (get_be (be_bytes 8 f7))
        (get_be (be_bytes 2 f8)) (get_be (be_bytes 2 f9)) (get_be (be_bytes 2 f10))
        (get_be (be_bytes 2 f11)) (get_be (be_bytes 2 f12))) by reflexivity.
  rewrite E. f_equal; by eapply get_be_id.
Qed.

(** ** Examples *)

Definition ex_stp0 : stp := match stp_create 1 with Some s => s | None => create_bridge 1 end.
Definition ex_stp1 : stp :=
  match stp_port_enable ex_stp0 0 with Some s => s | None => ex_stp0 end.

(** A better root, 256 ticks old. *)
Definition ex_config : stp_config_bpdu :=
  StpConfigBpdu 0 0 0 0 7 4 9 0x8001 256 5120 512 3840.

Definition ex_stp2 : stp := stp_received_bpdu ex_stp1 0 (config_bytes ex_config).

Lemma ex_stp0_created : stp_create 1 = Some ex_stp0.
Proof. vm_compute. done. Qed.

Lemma ex_stp1_step : stp_step ex_stp0 ex_stp1.
Proof. apply (sts_port_enable _ 0); [unfold STP_MAX_PORTS; lia|vm_compute; done]. Qed.

Lemma ex_stp2_step : stp_step ex_stp1 ex_stp2.
Proof. apply sts_received_bpdu. unfold STP_MAX_PORTS. lia. Qed.

Lemma ex_stp2_reachable : stp_reachable ex_stp2.
Proof.
  exists 1, ex_stp0. split; [apply ex_stp0_created|].
  eapply rtc_l; [apply ex_stp1_step|]. eapply rtc_l; [apply ex_stp2_step|]. apply rtc_refl.
Qed.

Lemma stp_roles_safe_witness :
  st_root_port ex_stp2 = Some 0%nat ∧ sp_state (port ex_stp2 0) = STP_LISTENING
  ∧ stp_is_root_bridge ex_stp2 = false.
Proof.
  assert (E : st_root_port ex_stp2 = Some 0%nat) by (vm_compute; done).
  split; [done|]. split; [vm_compute; done|].
  destruct (stp_roles_safe ex_stp2 ex_stp2_reachable) as [_ Hr]. rewrite E in Hr. apply Hr.
Defined.

Definition ex_stp3 : stp := stp_tick ex_stp2 15000.
Definition ex_stp4 : stp := stp_tick ex_stp3 15000.

Lemma stp_forwarding_from_learning_witness :
  sp_state (port ex_stp4 0) = STP_FORWARDING
  ∧ (sp_state (port ex_stp3 0) = STP_FORWARDING
     ∨ (sp_state (port ex_stp3 0) = STP_LEARNING ∧ ∃ ms, ex_stp4 = stp_tick ex_stp3 ms)).
Proof.
  assert (E : sp_state (port ex_stp4 0) = STP_FORWARDING) by (vm_compute; done).
  split; [done|]. apply (stp_forwarding_from_learning ex_stp3 ex_stp4 0).
  - destruct ex_stp2_reachable as (id & s0 & Hc & Hs). exists id, s0. split; [done|].
    eapply rtc_r; [exact Hs|]. apply sts_tick.
  - apply sts_tick.
  - unfold STP_MAX_PORTS. lia.
  - exact E.
Defined.

Lemma config_bpdu_roundtrip_witness :
  config_wf ex_config ∧ config_of_bytes (config_bytes ex_config) = ex_config.
Proof.
  assert (Hw : config_wf ex_config) by (split; split; vm_compute; done).
  split; [exact Hw|]. apply (config_bpdu_roundtrip ex_config Hw).
Defined.
