(* ===== verification/XlateConfig.v ===== *)
(** * The translator's view of the switch (ofproto/ofproto-dpif-xlate.c, first part)

    [xbridge], [xbundle] and [xport] mirror the bridges, bundles and ports of
    the OpenFlow implementation.  The structures are reached through global
    hash maps by the pointers of the objects they mirror ([ofproto],
    [ofbundle], [ofport]), which are never iterated over: they are finite maps
    here, and a pointer to a structure is its key.  The hash map of a bridge's
    ports, which flooding iterates over, is the [hmap] of [Hmap].  Reference
    counts of the handles a structure holds are not modelled.  [None] is a
    failed assertion or a null pointer. *)
From stdpp Require Import gmap.
From S2P Require Import Prelude Util Hash Hmap HmapThms Bitmap MatchFields MetaFlow OdpActions NxActions.
From S2P Require Import TableCounters Learn.

Inductive port_vlan_mode := PORT_VLAN_ACCESS | PORT_VLAN_TRUNK | PORT_VLAN_NATIVE_TAGGED | PORT_VLAN_NATIVE_UNTAGGED.
Inductive ofp_config_flags := OFPC_FRAG_NORMAL | OFPC_FRAG_DROP | OFPC_FRAG_REASM | OFPC_FRAG_NX_MATCH.

(** The members of [struct rule_dpif] that the translator reads. *)
Record rule_dpif := RuleDpif {
  rl_id : Z;
  rl_actions : list ofpact;
  rl_flow_cookie : Z;
  rl_fail_open : bool
}.

(** What [xlate_ofproto_set] configures. *)
Record xbridge_cfg := XbridgeCfg {
  bc_dpif : Z;
  bc_ml : Z;
  bc_mbridge : option Z;
  bc_sflow : option Z;
  bc_ipfix : option Z;
  bc_stp : option Z;
  bc_miss_rule : rule_dpif;
  bc_no_packet_in_rule : rule_dpif;
  bc_frag : ofp_config_flags;
  bc_has_netflow : bool;
  bc_has_in_band : bool;
  bc_forward_bpdu : bool
}.

Record xbridge := Xbridge {
  xb_cfg : xbridge_cfg;
  xb_xbundles : list Z;
  xb_xports : hmap Z
}.

(** What [xlate_bundle_set] configures. *)
Record xbundle_cfg := XbundleCfg {
  uc_bond : option Z;
  uc_lacp : option Z;
  uc_vlan_mode : port_vlan_mode;
  uc_vlan : Z;
  uc_trunks : option bitmap;
  uc_use_priority_tags : bool;
  uc_floodable : bool
}.

Record xbundle := Xbundle {
  xu_cfg : xbundle_cfg;
  xu_xbridge : Z;
  xu_xports : list Z
}.

(** What [xlate_ofport_set] configures, apart from the bundle, the peer and
    the queues. *)
Record xport_cfg := XportCfg {
  pc_odp_port : Z;
  pc_netdev : Z;
  pc_cfm : option Z;
  pc_bfd : option Z;
  pc_stp_port_no : Z;
  pc_config : Z;
  pc_is_tunnel : bool;
  pc_may_enable : bool
}.

Record xport := Xport {
  xp_cfg : xport_cfg;
  xp_ofp_port : Z;
  xp_xbridge : Z;
  xp_xbundle : option Z;
  xp_peer : option Z;
  xp_skb_priorities : hmap (Z * Z)
}.

Record xlate_cfg := XlateCfg {
  xc_bridges : gmap Z xbridge;
  xc_bundles : gmap Z xbundle;
  xc_ports : gmap Z xport
}.

Definition empty_cfg : xlate_cfg := XlateCfg ∅ ∅ ∅.

Definition with_bridges (c : xlate_cfg) m := XlateCfg m (xc_bundles c) (xc_ports c).
Definition with_bundles (c : xlate_cfg) m := XlateCfg (xc_bridges c) m (xc_ports c).
Definition with_ports (c : xlate_cfg) m := XlateCfg (xc_bridges c) (xc_bundles c) m.

Definition set_xbundles l (b : xbridge) := Xbridge (xb_cfg b) l (xb_xports b).
Definition set_xports h (b : xbridge) := Xbridge (xb_cfg b) (xb_xbundles b) h.
Definition set_bundle_ports l (u : xbundle) := Xbundle (xu_cfg u) (xu_xbridge u) l.
Definition set_peer q (p : xport) :=
  Xport (xp_cfg p) (xp_ofp_port p) (xp_xbridge p) (xp_xbundle p) q (xp_skb_priorities p).
Definition set_bundle b (p : xport) :=
  Xport (xp_cfg p) (xp_ofp_port p) (xp_xbridge p) b (xp_peer p) (xp_skb_priorities p).

(** Lookups of a pointer that may be null. *)
Definition xbridge_lookup (c : xlate_cfg) (ofproto : option Z) : option xbridge := o ← ofproto; xc_bridges c !! o.
Definition xbundle_lookup (c : xlate_cfg) (ofbundle : option Z) : option xbundle := b ← ofbundle; xc_bundles c !! b.
Definition xport_lookup (c : xlate_cfg) (ofport : option Z) : option xport := p ← ofport; xc_ports c !! p.

Definition hash_ofp_port (ofp_port : Z) : Z := hash_int ofp_port 0.

Definition get_ofp_port (c : xlate_cfg) (b : xbridge) (ofp_port : Z) : option Z :=
  find (λ a, match xc_ports c !! a with Some p => xp_ofp_port p =? ofp_port | None => false end)
    (hmap_for_each_in_bucket (xb_xports b) (hash_ofp_port ofp_port)).

(** ** Bridges *)

Definition xlate_ofproto_set (c : xlate_cfg) (ofproto : Z) (cfg : xbridge_cfg) : xlate_cfg :=
  let b := default (Xbridge cfg [] hmap_init) (xc_bridges c !! ofproto) in
  with_bridges c (<[ofproto := Xbridge cfg (xb_xbundles b) (xb_xports b)]> (xc_bridges c)).

(** ** Bundles *)

Definition xlate_bundle_set (c : xlate_cfg) (ofproto ofbundle : Z) (cfg : xbundle_cfg) : option xlate_cfg :=
  match xc_bundles c !! ofbundle with
  | Some u => Some (with_bundles c (<[ofbundle := Xbundle cfg (xu_xbridge u) (xu_xports u)]> (xc_bundles c)))
  | None =>
      b ← xc_bridges c !! ofproto;
      let c := with_bridges c (<[ofproto := set_xbundles (xb_xbundles b ++ [ofbundle]) b]> (xc_bridges c)) in
      Some (with_bundles c (<[ofbundle := Xbundle cfg ofproto []]> (xc_bundles c)))
  end.

(** [list_remove] of an element of a list. *)
Definition list_remove (a : Z) (l : list Z) : list Z := filter (λ x, x ≠ a) l.

Definition xlate_bundle_remove (c : xlate_cfg) (ofbundle : Z) : xlate_cfg :=
  match xc_bundles c !! ofbundle with
  | None => c
  | Some u =>
      let c := with_ports c (foldl (λ ps a, alter (set_bundle None) a ps) (xc_ports c) (xu_xports u)) in
      let c := with_bundles c (delete ofbundle (xc_bundles c)) in
      with_bridges c
        (alter (λ b, set_xbundles (list_remove ofbundle (xb_xbundles b)) b) (xu_xbridge u) (xc_bridges c))
  end.

(** ** Ports *)

(** The pointer that a lookup of a pointer that may be null gives. *)
Definition lookup_key {A} (m : gmap Z A) (key : option Z) : option Z :=
  match key with Some k => match m !! k with Some _ => Some k | None => None end | None => None end.

(** [xport->peer->peer = NULL] when there is a peer; the peer may have been
    freed. *)
Definition clear_peer (ps : gmap Z xport) (peer : option Z) : option (gmap Z xport) :=
  match peer with
  | Some q => _ ← ps !! q; Some (alter (set_peer None) q ps)
  | None => Some ps
  end.

(** The part of [xlate_ofport_set] that is about the patch port's peer. *)
Definition ofport_set_peer (c : xlate_cfg) (ofport : Z) (peer : option Z) : option xlate_cfg :=
  ps ← clear_peer (xc_ports c) (xc_ports c !! ofport ≫= xp_peer);
  let peer := lookup_key ps peer in
  let ps := alter (set_peer peer) ofport ps in
  Some (with_ports c (match peer with Some q => alter (set_peer (Some ofport)) q ps | None => ps end)).

(** The part that is about the bundle. *)
Definition ofport_set_bundle (c : xlate_cfg) (ofport : Z) (ofbundle : option Z) : xlate_cfg :=
  let c := match xc_ports c !! ofport ≫= xp_xbundle with
           | Some u => with_bundles c (alter (λ u, set_bundle_ports (list_remove ofport (xu_xports u)) u) u (xc_bundles c))
           | None => c
           end in
  let ofbundle := lookup_key (xc_bundles c) ofbundle in
  let c := with_ports c (alter (set_bundle ofbundle) ofport (xc_ports c)) in
  match ofbundle with
  | Some u => with_bundles c (alter (λ u, set_bundle_ports (xu_xports u ++ [ofport]) u) u (xc_bundles c))
  | None => c
  end.

(** The map from priorities to DSCP bits; [queue_to_priority] is
    [dpif_queue_to_priority]. *)
Definition qdscp_map (queue_to_priority : Z → option Z) (qdscp_list : list (Z * Z)) : hmap (Z * Z) :=
  foldl (λ h '(queue, dscp),
    match queue_to_priority queue with
    | None => h
    | Some priority => hmap_insert_at h (priority, Z.land (u8 (Z.shiftl dscp 2)) IP_DSCP_MASK) (hash_int priority 0)
    end) hmap_init qdscp_list.

(** The port is created if it is not known yet. *)
Definition ofport_new (c : xlate_cfg) (ofproto ofport ofp_port : Z) (cfg : xport_cfg) : option xlate_cfg :=
  match xc_ports c !! ofport with
  | Some p => if xp_ofp_port p =? ofp_port then Some c else None
  | None =>
      b ← xc_bridges c !! ofproto;
      let c := with_bridges c
        (<[ofproto := set_xports (hmap_insert_at (xb_xports b) ofport (hash_ofp_port ofp_port)) b]> (xc_bridges c)) in
      Some (with_ports c (<[ofport := Xport cfg ofp_port ofproto None None hmap_init]> (xc_ports c)))
  end.

Definition xlate_ofport_set (c : xlate_cfg) (ofproto : Z) (ofbundle : option Z) (ofport ofp_port : Z)
    (peer : option Z) (qdscp : hmap (Z * Z)) (cfg : xport_cfg) : option xlate_cfg :=
  c ← ofport_new c ofproto ofport ofp_port cfg;
  let c := with_ports c
    (alter (λ p, Xport cfg (xp_ofp_port p) (xp_xbridge p) (xp_xbundle p) (xp_peer p) (xp_skb_priorities p))
       ofport (xc_ports c)) in
  c ← ofport_set_peer c ofport peer;
  let c := ofport_set_bundle c ofport ofbundle in
  Some (with_ports c
    (alter (λ p, Xport (xp_cfg p) (xp_ofp_port p) (xp_xbridge p) (xp_xbundle p) (xp_peer p) qdscp) ofport (xc_ports c))).

Definition xlate_ofport_remove (c : xlate_cfg) (ofport : Z) : option xlate_cfg :=
  match xc_ports c !! ofport with
  | None => Some c
  | Some p =>
      ps ← clear_peer (xc_ports c) (xp_peer p);
      let c := with_ports c ps in
      let c := match xp_xbundle p with
               | Some u => with_bundles c (alter (λ u, set_bundle_ports (list_remove ofport (xu_xports u)) u) u (xc_bundles c))
               | None => c
               end in
      let c := with_ports c (delete ofport (xc_ports c)) in
      b ← xc_bridges c !! xp_xbridge p;
      h ← hmap_remove (xb_xports b) (is_node ofport) (hash_ofp_port (xp_ofp_port p));
      Some (with_bridges c (<[xp_xbridge p := set_xports h b]> (xc_bridges c)))
  end.

Fixpoint remove_ports (c : xlate_cfg) (l : list Z) : option xlate_cfg :=
  match l with [] => Some c | a :: l => c ← xlate_ofport_remove c a; remove_ports c l end.

Definition xlate_remove_ofproto (c : xlate_cfg) (ofproto : Z) : option xlate_cfg :=
  match xc_bridges c !! ofproto with
  | None => Some c
  | Some b =>
      c ← remove_ports c (hmap_for_each (xb_xports b));
      let c := foldl xlate_bundle_remove c (default [] (xb_xbundles <$> xc_bridges c !! ofproto)) in
      Some (with_bridges c (delete ofproto (xc_bridges c)))
  end.

(** ** Reading the configuration *)

Definition ofp_port_to_odp_port (c : xlate_cfg) (b : xbridge) (ofp_port : Z) : Z :=
  match get_ofp_port c b ofp_port ≫= λ a, xc_ports c !! a with
  | Some p => pc_odp_port (xp_cfg p)
  | None => 0xffffffff
  end.

Definition get_skb_priority (p : xport) (skb_priority : Z) : option Z :=
  snd <$> find (λ e, e.1 =? skb_priority)
            (hmap_for_each_in_bucket (xp_skb_priorities p) (hash_int skb_priority 0)).

Definition xbundle_trunks_vlan (u : xbundle_cfg) (vlan : Z) : bool :=
  match uc_vlan_mode u with
  | PORT_VLAN_ACCESS => false
  | _ => match uc_trunks u with None => true | Some t => bitmap_is_set t (Z.to_nat vlan) end
  end.

Definition xbundle_includes_vlan (u : xbundle_cfg) (vlan : Z) : bool :=
  (vlan =? uc_vlan u) || xbundle_trunks_vlan u vlan.

Definition input_vid_to_vlan (u : xbundle_cfg) (vid : Z) : Z :=
  match uc_vlan_mode u with
  | PORT_VLAN_ACCESS => u16 (uc_vlan u)
  | PORT_VLAN_TRUNK => vid
  | PORT_VLAN_NATIVE_UNTAGGED | PORT_VLAN_NATIVE_TAGGED => if vid =? 0 then u16 (uc_vlan u) else vid
  end.

(** For a bundle other than [ofpp_none_bundle], which any VID may enter. *)
Definition input_vid_is_valid (vid : Z) (u : xbundle_cfg) : bool :=
  match uc_vlan_mode u with
  | PORT_VLAN_ACCESS => vid =? 0
  | PORT_VLAN_NATIVE_UNTAGGED | PORT_VLAN_NATIVE_TAGGED => (vid =? 0) || xbundle_includes_vlan u vid
  | PORT_VLAN_TRUNK => xbundle_includes_vlan u vid
  end.

Definition output_vlan_to_vid (u : xbundle_cfg) (vlan : Z) : Z :=
  match uc_vlan_mode u with
  | PORT_VLAN_ACCESS => 0
  | PORT_VLAN_TRUNK | PORT_VLAN_NATIVE_TAGGED => vlan
  | PORT_VLAN_NATIVE_UNTAGGED => if vlan =? uc_vlan u then 0 else vlan
  end.
