(* ===== verification/XlateConfigThms.v ===== *)
(** * The translator's configuration has no dangling references

    The bridges' lists of bundles, the bundles' lists of ports and the bridges'
    hash maps of ports are kept in agreement with the pointers the other way by
    every operation, and so are the ports' peers by every operation that does
    not give a port a peer which is another port's.  Each of the four relations
    is stated of the maps that it involves, so that an operation keeps those it
    does not touch. *)
From stdpp Require Import gmap.
From S2P Require Import Prelude Util Hash Hmap HmapThms Bitmap MatchFields MetaFlow OdpActions NxActions.
From S2P Require Import TableCounters Learn XlateConfig.

(** ** Lists of owned objects *)

(** [lists] maps each owner to the list of what it owns; [owner] maps each
    object to its owner. *)
Definition owned (lists : gmap Z (list Z)) (owner : gmap Z Z) : Prop :=
  (∀ o l, lists !! o = Some l → NoDup l ∧ ∀ u, u ∈ l ↔ owner !! u = Some o)
  ∧ (∀ u o, owner !! u = Some o → is_Some (lists !! o)).

Lemma owned_new lists owner o : lists !! o = None → owned lists owner → owned (<[o := []]> lists) owner.
Proof.
  intros Ho [Hl Hu]. split.
  - intros o' l. rewrite lookup_insert_Some. intros [[<- <-]|[_ ?]]; [|by apply Hl]. split; [constructor|].
    intros u. split; [by intros ?%elem_of_nil|]. intros [? Hs]%Hu. congruence.
  - intros u o' [l ?]%Hu. destruct (decide (o = o')) as [->|]; [congruence|]. rewrite lookup_insert_ne by done. by exists l.
Qed.

Lemma owned_add lists owner o l u :
  lists !! o = Some l → owner !! u = None → owned lists owner → owned (<[o := l ++ [u]]> lists) (<[u := o]> owner).
Proof.
  intros Ho Hu [Hl Ho']. destruct (Hl o l Ho) as [Hnd Hin]. split.
  - intros o' l'. rewrite lookup_insert_Some. intros [[<- <-]|[Hne Hl']].
    + split.
      * apply NoDup_app. split; [done|]. split; [|apply NoDup_singleton]. intros x Hx ->%list_elem_of_singleton.
        apply Hin in Hx. congruence.
      * intros x. rewrite elem_of_app, list_elem_of_singleton, Hin, lookup_insert_Some. naive_solver congruence.
    + destruct (Hl _ _ Hl') as [? Hin']. split; [done|]. intros x. rewrite Hin', lookup_insert_Some. naive_solver congruence.
  - intros x o'. rewrite lookup_insert_Some. intros [[<- <-]|[_ [? ?]%Ho']].
    + rewrite lookup_insert_eq. by eexists.
    + destruct (decide (o = o')) as [->|]; [rewrite lookup_insert_eq|rewrite lookup_insert_ne by done]; by eexists.
Qed.

Lemma owned_remove lists owner o u :
  owner !! u = Some o → owned lists owner → owned (alter (list_remove u) o lists) (delete u owner).
Proof.
  intros Hu [Hl Ho]. split.
  - intros o' l'. destruct (decide (o = o')) as [<-|Hne].
    + rewrite lookup_alter_eq. destruct (lists !! o) as [l|] eqn:El; [|done]. simpl. intros [= <-].
      destruct (Hl _ _ El) as [? Hin]. unfold list_remove. split; [by apply NoDup_filter|]. intros x.
      rewrite list_elem_of_filter, Hin, lookup_delete_Some. naive_solver.
    + rewrite lookup_alter_ne by done. intros Hl'. destruct (Hl _ _ Hl') as [? Hin]. split; [done|]. intros x.
      rewrite Hin, lookup_delete_Some. naive_solver congruence.
  - intros x o' [_ [l ?]%Ho]%lookup_delete_Some. destruct (decide (o = o')) as [<-|].
    + rewrite lookup_alter_eq. rewrite H. by eexists.
    + rewrite lookup_alter_ne by done. by eexists.
Qed.

Lemma owned_unowned lists owner u : owner !! u = None → owned lists owner → owned lists (delete u owner).
Proof. intros Hu. by rewrite delete_id. Qed.

Lemma owned_drop lists owner o : (∀ u, owner !! u ≠ Some o) → owned lists owner → owned (delete o lists) owner.
Proof.
  intros Ho [Hl Hu]. split.
  - intros o' l [_ ?]%lookup_delete_Some. by apply Hl.
  - intros u o' Hs. destruct (Hu _ _ Hs) as [l ?]. exists l. apply lookup_delete_Some. split; [|done]. intros <-. by eapply Ho.
Qed.

(** An owner goes away and what it owns is left without one. *)
Lemma owned_disband lists owner owner' o l :
  lists !! o = Some l → (∀ u, owner' !! u = if decide (u ∈ l) then None else owner !! u) →
  owned lists owner → owned (delete o lists) owner'.
Proof.
  intros Ho Hu [Hl Ho']. destruct (Hl _ _ Ho) as [_ Hin]. split.
  - intros o' l' [Hne Hl']%lookup_delete_Some. destruct (Hl _ _ Hl') as [? Hin']. split; [done|]. intros u.
    rewrite Hu, Hin'. case_decide as Hd; [|done]. apply Hin in Hd. naive_solver congruence.
  - intros u o'. rewrite Hu. case_decide as Hd; [done|]. intros Hs. destruct (Ho' _ _ Hs) as [l' ?].
    exists l'. apply lookup_delete_Some. split; [|done]. intros <-. apply Hd, Hin, Hs.
Qed.

(** ** Peers *)

Definition paired (peers : gmap Z (option Z)) : Prop :=
  ∀ a q, peers !! a = Some (Some q) → peers !! q = Some (Some a).

Lemma paired_unpair peers a q :
  paired peers → peers !! a = Some (Some q) → paired (<[a := None]> (<[q := None]> peers)).
Proof.
  intros Hp Ha x y. pose proof (Hp _ _ Ha) as Hq. rewrite !lookup_insert_Some. intros [[? ?]|[? [[? ?]|[? Hx]]]]; try done.
  pose proof (Hp _ _ Hx). right. split; [naive_solver congruence|]. right. naive_solver congruence.
Qed.

Lemma paired_clear peers a : paired peers → peers !! a = None ∨ peers !! a = Some None → ∀ x, peers !! x ≠ Some (Some a).
Proof. intros Hp Ha x Hx%Hp. naive_solver congruence. Qed.

Lemma paired_pair peers a q :
  paired peers → peers !! a = Some None → peers !! q = Some None →
  paired (<[q := Some a]> (<[a := Some q]> peers)).
Proof.
  intros Hp Ha Hq x y. rewrite !lookup_insert_Some. intros [[<- [= <-]]|[? [[<- [= <-]]|[? Hx]]]].
  - destruct (decide (q = a)) as [->|]; [by left|]. right. split; [done|]. by left.
  - by left.
  - pose proof (Hp _ _ Hx). right. split; [naive_solver congruence|]. right. naive_solver congruence.
Qed.

Lemma paired_fresh peers a : paired peers → peers !! a = None → paired (<[a := None]> peers).
Proof.
  intros Hp Ha x y. rewrite !lookup_insert_Some. intros [[? ?]|[? Hx]]; [done|]. pose proof (Hp _ _ Hx).
  right. split; [naive_solver congruence|done].
Qed.

Lemma paired_delete peers a : paired peers → peers !! a = Some None → paired (delete a peers).
Proof.
  intros Hp Ha x y. rewrite !lookup_delete_Some. intros [? Hx]. pose proof (Hp _ _ Hx). split; [naive_solver congruence|done].
Qed.

(** The new peers of [a], given the old one and a peer that is free or [a]'s. *)
Lemma paired_set peers a old peer :
  paired peers → peers !! a = Some old →
  (∀ q, peer = Some q → peers !! q = Some None ∨ peers !! q = Some (Some a)) →
  let peers := match old with Some q => <[q := None]> peers | None => peers end in
  let peers := <[a := peer]> peers in
  paired (match peer with Some q => <[q := Some a]> peers | None => peers end).
Proof.
  intros Hp Ha Hq. simpl. destruct old as [q0|].
  - pose proof (paired_unpair _ _ _ Hp Ha) as Hp'. destruct peer as [q|]; [|done].
    rewrite <- (insert_insert_eq (<[q0:=None]> peers) a (Some q) None).
    apply paired_pair; [done|by rewrite lookup_insert_eq|]. destruct (decide (q = a)) as [->|]; [by rewrite lookup_insert_eq|].
    rewrite lookup_insert_ne by done. destruct (decide (q = q0)) as [->|]; [by rewrite lookup_insert_eq|].
    rewrite lookup_insert_ne by done. destruct (Hq q eq_refl) as [?|Hs%Hp]; [done|congruence].
  - destruct peer as [q|]; [|by rewrite insert_id]. apply paired_pair; [done..|].
    destruct (Hq q eq_refl) as [?|Hs%Hp]; [done|congruence].
Qed.

(** ** Hash maps of ports *)

(** [maps] are the bridges' hash maps, [ports] says of each port its bridge and
    its number there. *)
Definition ports_inv (maps : gmap Z (hmap Z)) (ports : gmap Z (Z * Z)) : Prop :=
  (∀ o h, maps !! o = Some h →
     ∃ bag, represents h bag ∧ ∀ a k, HNode k a ∈ bag ↔ ∃ n, ports !! a = Some (o, n) ∧ k = hash_ofp_port n)
  ∧ (∀ a o n, ports !! a = Some (o, n) → is_Some (maps !! o)).

Lemma ports_new maps ports o : maps !! o = None → ports_inv maps ports → ports_inv (<[o := hmap_init]> maps) ports.
Proof.
  intros Ho [Hm Hp]. split.
  - intros o' h. rewrite lookup_insert_Some. intros [[<- <-]|[_ ?]]; [|by apply Hm]. exists []. split; [apply hmap_init_represents|].
    intros a k. split; [by intros ?%elem_of_nil|]. intros (n & [? Hs]%Hp & _). congruence.
  - intros a o' n [h ?]%Hp. destruct (decide (o = o')) as [->|]; [congruence|]. rewrite lookup_insert_ne by done. by eexists.
Qed.

Lemma ports_add maps ports o h a n :
  maps !! o = Some h → ports !! a = None → ports_inv maps ports →
  ports_inv (<[o := hmap_insert_at h a (hash_ofp_port n)]> maps) (<[a := (o, n)]> ports).
Proof.
  intros Ho Ha [Hm Hp]. split.
  - intros o' h'. rewrite lookup_insert_Some. intros [[<- <-]|[Hne Hh']].
    + destruct (Hm _ _ Ho) as (bag & Hr & Hb). exists (HNode (hash_ofp_port n) a :: bag). split.
      * eapply hmap_step_represents; [exact Hr|]. constructor. rewrite elem_of_data. intros (k & (n' & ? & _)%Hb). congruence.
      * intros x k. rewrite elem_of_cons, Hb. setoid_rewrite lookup_insert_Some. naive_solver congruence.
    + destruct (Hm _ _ Hh') as (bag & Hr & Hb). exists bag. split; [done|]. intros x k. rewrite Hb.
      setoid_rewrite lookup_insert_Some. naive_solver congruence.
  - intros x o' n'. rewrite lookup_insert_Some. intros [[<- [= <- <-]]|[_ [? ?]%Hp]].
    + rewrite lookup_insert_eq. by eexists.
    + destruct (decide (o = o')) as [->|]; [rewrite lookup_insert_eq|rewrite lookup_insert_ne by done]; by eexists.
Qed.

Lemma hmap_remove_some (h : hmap Z) bag k a :
  represents h bag → HNode k a ∈ bag → is_Some (hmap_remove h (is_node a) k).
Proof.
  intros [Hwf Hp _] Hn. rewrite <- Hp in Hn. by apply (hmap_remove_data h _ k a); [|done|apply bool_decide_eq_true].
Qed.

Lemma ports_remove maps ports o a n :
  ports !! a = Some (o, n) → ports_inv maps ports →
  ∃ h h', maps !! o = Some h ∧ hmap_remove h (is_node a) (hash_ofp_port n) = Some h'
          ∧ ports_inv (<[o := h']> maps) (delete a ports).
Proof.
  intros Ha [Hm Hp]. destruct (Hp _ _ _ Ha) as [h Hh]. destruct (Hm _ _ Hh) as (bag & Hr & Hb).
  assert (Hin : HNode (hash_ofp_port n) a ∈ bag) by (apply Hb; eauto).
  destruct (hmap_remove_some h bag _ _ Hr Hin) as [h' Hh']. exists h, h'. split_and!; [done..|].
  apply elem_of_Permutation in Hin as [bag' Hbag].
  assert (Hr' : represents h' bag') by (eapply hmap_step_represents; [exact Hr|by econstructor]).
  split.
  - intros o' x. rewrite lookup_insert_Some. intros [[<- <-]|[Hne Hx]].
    + exists bag'. split; [done|]. intros y k. setoid_rewrite lookup_delete_Some.
      pose proof (rep_nodup _ _ Hr) as Hnd. rewrite (data_perm _ _ Hbag) in Hnd. apply NoDup_cons in Hnd as [Hna _].
      assert (Hiff : HNode k y ∈ bag ↔ HNode k y = HNode (hash_ofp_port n) a ∨ HNode k y ∈ bag') by (rewrite Hbag; apply elem_of_cons).
      rewrite Hb in Hiff. split.
      * intros Hy. assert (y ≠ a) by (intros ->; apply Hna, elem_of_data; eauto). naive_solver.
      * intros (n' & [Hya Hy] & ->). destruct (proj1 Hiff) as [[= _ ->]|?]; [by eauto|done|done].
    + destruct (Hm _ _ Hx) as (bag0 & Hr0 & Hb0). exists bag0. split; [done|]. intros y k. rewrite Hb0.
      setoid_rewrite lookup_delete_Some. naive_solver congruence.
  - intros y o' n' [_ [x ?]%Hp]%lookup_delete_Some.
    destruct (decide (o = o')) as [->|]; [rewrite lookup_insert_eq|rewrite lookup_insert_ne by done]; by eexists.
Qed.

Lemma ports_drop maps ports o :
  (∀ a n, ports !! a ≠ Some (o, n)) → ports_inv maps ports → ports_inv (delete o maps) ports.
Proof.
  intros Ho [Hm Hp]. split.
  - intros o' h [_ Hh]%lookup_delete_Some. by apply Hm.
  - intros a o' n Ha. destruct (Hp _ _ _ Ha) as [h Hh]. exists h. apply lookup_delete_Some. split; [|done].
    intros <-. by eapply Ho.
Qed.

(** ** The invariant *)

Definition v_bundles (c : xlate_cfg) : gmap Z (list Z) := xb_xbundles <$> xc_bridges c.
Definition v_maps (c : xlate_cfg) : gmap Z (hmap Z) := xb_xports <$> xc_bridges c.
Definition v_owner (c : xlate_cfg) : gmap Z Z := xu_xbridge <$> xc_bundles c.
Definition v_members (c : xlate_cfg) : gmap Z (list Z) := xu_xports <$> xc_bundles c.
Definition v_bundle_of (c : xlate_cfg) : gmap Z Z := omap xp_xbundle (xc_ports c).
Definition v_ports (c : xlate_cfg) : gmap Z (Z * Z) := (λ p, (xp_xbridge p, xp_ofp_port p)) <$> xc_ports c.
Definition v_peers (c : xlate_cfg) : gmap Z (option Z) := xp_peer <$> xc_ports c.

Record cfg_inv (c : xlate_cfg) : Prop := {
  ci_bundles : owned (v_bundles c) (v_owner c);
  ci_members : owned (v_members c) (v_bundle_of c);
  ci_ports : ports_inv (v_maps c) (v_ports c)
}.

Lemma empty_cfg_inv : cfg_inv empty_cfg ∧ paired (v_peers empty_cfg).
Proof.
  split; [split|]; unfold v_bundles, v_maps, v_owner, v_members, v_bundle_of, v_ports, v_peers; simpl.
  - by split; intros ? ?; rewrite fmap_empty, lookup_empty.
  - split; intros ? ?; [by rewrite fmap_empty, lookup_empty|by rewrite omap_empty, lookup_empty].
  - by split; intros ? ? *; rewrite fmap_empty, lookup_empty.
  - intros ? ?. by rewrite fmap_empty, lookup_empty.
Qed.

(** Changes seen through a projection. *)
Lemma alter_view {A B} (g : A → B) f f' (a : Z) (m : gmap Z A) :
  (∀ x, g (f x) = f' (g x)) → g <$> alter f a m = alter f' a (g <$> m).
Proof.
  intros H. apply map_eq. intros i. rewrite lookup_fmap. destruct (decide (a = i)) as [->|].
  - rewrite !lookup_alter_eq, lookup_fmap. destruct (m !! i); simpl; [by rewrite H|done].
  - rewrite !lookup_alter_ne, lookup_fmap by done. done.
Qed.

Lemma alter_view_same {A B} (g : A → B) f (a : Z) (m : gmap Z A) : (∀ x, g (f x) = g x) → g <$> alter f a m = g <$> m.
Proof. intros H. rewrite (alter_view g f id) by done. by apply alter_id. Qed.

Lemma insert_view_same {A B} (g : A → B) (a : Z) x y (m : gmap Z A) :
  m !! a = Some y → g x = g y → g <$> <[a := x]> m = g <$> m.
Proof. intros Ha Hg. rewrite fmap_insert, Hg. apply insert_id. by rewrite lookup_fmap, Ha. Qed.

Lemma alter_omap {A B} (g : A → option B) f (a : Z) (m : gmap Z A) i :
  omap g (alter f a m) !! i = if decide (i = a) then m !! a ≫= λ x, g (f x) else omap g m !! i.
Proof.
  rewrite lookup_omap. case_decide as E; [subst|].
  - rewrite lookup_alter_eq. by destruct (m !! a).
  - by rewrite lookup_alter_ne, lookup_omap by done.
Qed.

Lemma alter_omap_same {A B} (g : A → option B) f (a : Z) (m : gmap Z A) :
  (∀ x, g (f x) = g x) → omap g (alter f a m) = omap g m.
Proof.
  intros H. apply map_eq. intros i. rewrite alter_omap. case_decide as E; [subst|done]. rewrite lookup_omap.
  destruct (m !! a); simpl; auto.
Qed.

(** ** Bridges and bundles *)

Lemma xlate_ofproto_set_inv c o cfg : cfg_inv c → cfg_inv (xlate_ofproto_set c o cfg).
Proof.
  intros [H1 H2 H3]. unfold xlate_ofproto_set.
  split; [|exact H2|]; unfold v_bundles, v_maps in *; simpl.
  - destruct (xc_bridges c !! o) as [b|] eqn:Eb; simpl; [by rewrite (insert_view_same _ _ _ b)|].
    rewrite fmap_insert. apply owned_new; [by rewrite lookup_fmap, Eb|done].
  - destruct (xc_bridges c !! o) as [b|] eqn:Eb; simpl; [by rewrite (insert_view_same _ _ _ b)|].
    rewrite fmap_insert. apply ports_new; [by rewrite lookup_fmap, Eb|done].
Qed.

Lemma xlate_bundle_set_inv c o u cfg c' :
  xlate_bundle_set c o u cfg = Some c' → cfg_inv c → cfg_inv c' ∧ v_peers c' = v_peers c.
Proof.
  intros Hs [H1 H2 H3]. revert Hs. unfold xlate_bundle_set. destruct (xc_bundles c !! u) as [x|] eqn:Eu.
  - intros [= <-]. split; [|done]. split; [| |exact H3]; unfold v_owner, v_members; simpl.
    + by rewrite (insert_view_same _ _ _ x).
    + by rewrite (insert_view_same _ _ _ x).
  - destruct (xc_bridges c !! o) as [b|] eqn:Eb; [|done]. intros [= <-]. split; [|done].
    split; unfold v_bundles, v_owner, v_members, v_maps; simpl.
    + rewrite !fmap_insert. cbn [xu_xbridge xb_xbundles set_xbundles]. apply owned_add; [by rewrite lookup_fmap, Eb|by rewrite lookup_fmap, Eu|done].
    + rewrite fmap_insert. apply owned_new; [by rewrite lookup_fmap, Eu|done].
    + by rewrite (insert_view_same _ _ _ b).
Qed.

(** Clearing the bundle of several ports. *)
Lemma clear_bundles_lookup (ps : gmap Z xport) l a :
  omap xp_xbundle (foldl (λ ps a, alter (set_bundle None) a ps) ps l) !! a
  = if decide (a ∈ l) then None else omap xp_xbundle ps !! a.
Proof.
  revert ps. induction l as [|x l IH]; intros ps; [done|]. cbn [foldl].
  rewrite IH, alter_omap. destruct (decide (a = x)) as [->|].
  - rewrite (decide_True (P:=x ∈ x :: l)) by set_solver. destruct (ps !! x); by case_decide.
  - destruct (decide (a ∈ l)); [rewrite decide_True|rewrite decide_False]; set_solver.
Qed.

Lemma clear_bundles_view {B} (g : xport → B) ps l :
  (∀ p, g (set_bundle None p) = g p) → g <$> foldl (λ ps a, alter (set_bundle None) a ps) ps l = g <$> (ps : gmap Z xport).
Proof. intros H. revert ps. induction l as [|x l IH]; intros ps; simpl; [done|]. by rewrite IH, alter_view_same. Qed.

Lemma xlate_bundle_remove_inv c u :
  cfg_inv c → cfg_inv (xlate_bundle_remove c u) ∧ v_peers (xlate_bundle_remove c u) = v_peers c.
Proof.
  intros [H1 H2 H3]. unfold xlate_bundle_remove. destruct (xc_bundles c !! u) as [x|] eqn:Eu; [|done].
  split; [split|]; unfold v_bundles, v_owner, v_members, v_bundle_of, v_maps, v_ports, v_peers; simpl.
  - rewrite (alter_view _ _ (list_remove u)) by done. rewrite fmap_delete. apply owned_remove; [by rewrite lookup_fmap, Eu|done].
  - rewrite fmap_delete. eapply owned_disband; [by rewrite lookup_fmap, Eu| |exact H2]. intros a. apply clear_bundles_lookup.
  - rewrite alter_view_same by done. by rewrite clear_bundles_view.
  - by rewrite clear_bundles_view.
Qed.

(** ** Ports *)

Lemma clear_peer_view ps peer ps' :
  clear_peer ps peer = Some ps' →
  xp_peer <$> ps' = (match peer with Some q => <[q := None]> (xp_peer <$> ps) | None => xp_peer <$> ps end)
  ∧ (∀ B (g : xport → B), (∀ q x, g (set_peer q x) = g x) → g <$> ps' = g <$> ps)
  ∧ omap xp_xbundle ps' = omap xp_xbundle ps.
Proof.
  unfold clear_peer. destruct peer as [q|]; [|by intros [= <-]].
  destruct (ps !! q) as [p'|] eqn:Eq'; [|done]. intros [= <-]. split_and!.
  - rewrite (alter_view _ _ (λ _, None)) by done. apply map_eq. intros i. destruct (decide (i = q)) as [->|].
    + by rewrite lookup_alter_eq, lookup_insert_eq, lookup_fmap, Eq'.
    + by rewrite lookup_alter_ne, lookup_insert_ne by done.
  - intros B g Hg. by rewrite alter_view_same.
  - by rewrite alter_omap_same.
Qed.

(** The peer of a port is there when peers are symmetric. *)
Lemma clear_peer_total ps a p : ps !! a = Some p → paired (xp_peer <$> ps) → is_Some (clear_peer ps (xp_peer p)).
Proof.
  intros Ha Hp. unfold clear_peer. destruct (xp_peer p) as [q|] eqn:Eq; [|by eexists].
  assert (Hq : (xp_peer <$> ps) !! q = Some (Some a)) by (apply Hp; by rewrite lookup_fmap, Ha, <- Eq).
  rewrite lookup_fmap in Hq. destruct (ps !! q) as [p'|]; [by eexists|done].
Qed.

Lemma alter_const_view ps a p (x : option Z) :
  ps !! a = Some p → xp_peer <$> alter (set_peer x) a ps = <[a := x]> (xp_peer <$> (ps : gmap Z xport)).
Proof.
  intros Ha. rewrite (alter_view _ _ (λ _, x)) by done. apply map_eq. intros i. destruct (decide (i = a)) as [->|].
  - by rewrite lookup_alter_eq, lookup_insert_eq, lookup_fmap, Ha.
  - by rewrite lookup_alter_ne, lookup_insert_ne by done.
Qed.

Lemma lookup_key_Some {A} (m : gmap Z A) key k : lookup_key m key = Some k → key = Some k ∧ is_Some (m !! k).
Proof. unfold lookup_key. destruct key as [x|]; [|done]. destruct (m !! x) eqn:E; [|done]. intros [= <-]. rewrite E. eauto. Qed.

(** A peer that the configuration may be given for a port. *)
Definition peer_free (c : xlate_cfg) (a : Z) (peer : option Z) : Prop :=
  ∀ q p, peer = Some q → xc_ports c !! q = Some p → xp_peer p = None ∨ xp_peer p = Some a.

Lemma ofport_set_peer_inv c a p peer c' :
  ofport_set_peer c a peer = Some c' → xc_ports c !! a = Some p → cfg_inv c →
  cfg_inv c' ∧ is_Some (xc_ports c' !! a) ∧ (paired (v_peers c) → peer_free c a peer → paired (v_peers c')).
Proof.
  intros Hs Ha [H1 H2 H3]. revert Hs. unfold ofport_set_peer. rewrite Ha. cbn [option_bind mbind].
  destruct (clear_peer (xc_ports c) (xp_peer p)) as [ps|] eqn:Eps; [|done]. intros [= <-].
  destruct (clear_peer_view _ _ _ Eps) as (Ep & Eg & Eb).
  assert (Hps : ∀ x, is_Some (ps !! x) ↔ is_Some (xc_ports c !! x)).
  { intros x. rewrite <- !(fmap_is_Some xp_ofp_port), <- !lookup_fmap. by rewrite Eg. }
  destruct (proj2 (Hps a) ltac:(by eexists)) as [p1 Hp1].
  assert (Hpeer : ∀ q, lookup_key ps peer = Some q → peer = Some q ∧ is_Some (ps !! q)) by (intros q; apply lookup_key_Some).
  revert Hpeer. generalize (lookup_key ps peer). intros peer' Hpeer. split_and!.
  - split; [exact H1| |]; unfold v_members, v_bundle_of, v_maps, v_ports; simpl.
    + destruct peer' as [q|]; rewrite ?alter_omap_same, Eb by done; done.
    + destruct peer' as [q|]; rewrite ?alter_view_same, Eg by done; done.
  - simpl. destruct peer' as [q|]; rewrite ?lookup_alter_is_Some; by eexists.
  - intros H4 Hf. unfold v_peers. simpl.
    assert (Hset : paired (match peer' with Some q => <[q := Some a]> (<[a := peer']> (xp_peer <$> ps))
                           | None => <[a := peer']> (xp_peer <$> ps) end)).
    { rewrite Ep. apply paired_set; [exact H4|by rewrite lookup_fmap, Ha|]. intros q [-> Hq]%Hpeer.
      apply Hps in Hq as [pq Hq]. rewrite lookup_fmap, Hq. simpl. destruct (Hf q pq eq_refl Hq) as [->| ->]; auto. }
    destruct peer' as [q|]; [|by erewrite alter_const_view].
    destruct (Hpeer q eq_refl) as [_ [pq Hq]].
    destruct (alter (set_peer (Some q)) a ps !! q) as [pq'|] eqn:Eq'.
    + erewrite alter_const_view by exact Eq'. by erewrite alter_const_view.
    + apply lookup_alter_None in Eq'. congruence.
Qed.

(** Taking a port out of its bundle. *)
Lemma leave_bundle c a p :
  owned (v_members c) (v_bundle_of c) → xc_ports c !! a = Some p →
  let bs := match xp_xbundle p with
            | Some u => alter (λ u, set_bundle_ports (list_remove a (xu_xports u)) u) u (xc_bundles c)
            | None => xc_bundles c
            end in
  owned (xu_xports <$> bs) (delete a (v_bundle_of c)) ∧ xu_xbridge <$> bs = v_owner c.
Proof.
  intros H Ha. simpl. destruct (xp_xbundle p) as [u|] eqn:Eu.
  - rewrite (alter_view _ _ (list_remove a)), alter_view_same by done. split; [|done].
    apply owned_remove; [|done]. unfold v_bundle_of. by rewrite lookup_omap, Ha.
  - split; [|done]. apply owned_unowned; [|done]. unfold v_bundle_of. by rewrite lookup_omap, Ha.
Qed.

Lemma set_bundle_view ps a p x :
  ps !! a = Some p →
  omap xp_xbundle (alter (set_bundle x) a ps)
  = match x with Some u => <[a := u]> (delete a (omap xp_xbundle ps)) | None => delete a (omap xp_xbundle (ps : gmap Z xport)) end.
Proof.
  intros Ha. apply map_eq. intros i. rewrite alter_omap, Ha. case_decide as E; [subst|]; simpl.
  - destruct x; [by rewrite lookup_insert_eq|by rewrite lookup_delete_eq].
  - destruct x; [rewrite lookup_insert_ne by done|]; by rewrite lookup_delete_ne by done.
Qed.

Lemma ofport_set_bundle_inv c a u :
  cfg_inv c → is_Some (xc_ports c !! a) →
  cfg_inv (ofport_set_bundle c a u) ∧ v_peers (ofport_set_bundle c a u) = v_peers c.
Proof.
  intros [H1 H2 H3] [p Ha]. unfold ofport_set_bundle. rewrite Ha. cbn [option_bind mbind].
  pose proof (leave_bundle c a p H2 Ha) as [Hm Ho]. simpl in Hm, Ho.
  set (c1 := match xp_xbundle p with Some _ => _ | None => c end).
  assert (Ec1 : xc_bundles c1 = match xp_xbundle p with
            | Some u => alter (λ u, set_bundle_ports (list_remove a (xu_xports u)) u) u (xc_bundles c)
            | None => xc_bundles c end) by (subst c1; by destruct (xp_xbundle p)).
  assert (Ep : xc_ports c1 = xc_ports c) by (subst c1; by destruct (xp_xbundle p)).
  assert (Eb : xc_bridges c1 = xc_bridges c) by (subst c1; by destruct (xp_xbundle p)).
  rewrite <- Ec1 in Hm, Ho. clearbody c1. pose proof (lookup_key_Some (xc_bundles c1) u) as Hk.
  revert Hk. generalize (lookup_key (xc_bundles c1) u). intros u' Hk. split.
  - split; unfold v_bundles, v_owner, v_members, v_bundle_of, v_maps, v_ports, v_peers in *.
    + destruct u' as [x|]; simpl; rewrite ?alter_view_same, Eb, Ho by done; done.
    + destruct u' as [x|]; simpl; erewrite set_bundle_view by (by rewrite Ep); rewrite Ep; [|done].
      destruct (Hk x eq_refl) as [_ [y Hy]].
      assert (xu_xports <$> alter (λ u, set_bundle_ports (xu_xports u ++ [a]) u) x (xc_bundles c1)
              = <[x := xu_xports y ++ [a]]> (xu_xports <$> xc_bundles c1)) as ->.
      { rewrite (alter_view _ _ (λ l, l ++ [a])) by done. apply map_eq. intros i. destruct (decide (i = x)) as [->|].
        - by rewrite lookup_alter_eq, lookup_insert_eq, lookup_fmap, Hy.
        - by rewrite lookup_alter_ne, lookup_insert_ne by done. }
      apply owned_add; [by rewrite lookup_fmap, Hy|by rewrite lookup_delete_eq|done].
    + destruct u' as [x|]; simpl; rewrite ?alter_view_same, Eb, Ep by done; done.
  - unfold v_peers. destruct u' as [x|]; simpl; rewrite ?alter_view_same, Ep by done; done.
Qed.

(** A change of a port's settings. *)
Lemma alter_port_inv c a f :
  (∀ p, xp_ofp_port (f p) = xp_ofp_port p ∧ xp_xbridge (f p) = xp_xbridge p ∧ xp_xbundle (f p) = xp_xbundle p
        ∧ xp_peer (f p) = xp_peer p) →
  cfg_inv c → cfg_inv (with_ports c (alter f a (xc_ports c))) ∧ v_peers (with_ports c (alter f a (xc_ports c))) = v_peers c.
Proof.
  intros Hf [H1 H2 H3]. split; [split; [exact H1| |]|]; unfold v_bundle_of, v_ports, v_peers; simpl.
  - rewrite alter_omap_same; [done|]. intros p. apply Hf.
  - rewrite alter_view_same; [done|]. intros p. by destruct (Hf p) as (-> & -> & _).
  - rewrite alter_view_same; [done|]. intros p. apply Hf.
Qed.

Lemma ofport_new_inv c o a n cfg c' :
  ofport_new c o a n cfg = Some c' → cfg_inv c →
  cfg_inv c' ∧ is_Some (xc_ports c' !! a)
  ∧ (paired (v_peers c) → paired (v_peers c')) ∧ (∀ peer, peer_free c a peer → peer_free c' a peer).
Proof.
  unfold ofport_new. destruct (xc_ports c !! a) as [p|] eqn:Ea.
  { destruct (_ =? _); [|done]. intros [= <-] Hc. rewrite Ea. eauto. }
  destruct (xc_bridges c !! o) as [b|] eqn:Hb; [|done]. intros [= <-] [H1 H2 H3]. split_and!.
  - split; unfold v_bundles, v_owner, v_members, v_bundle_of, v_maps, v_ports in *; simpl.
    + by rewrite (insert_view_same _ _ _ b).
    + rewrite omap_insert_None by done. rewrite delete_id; [done|]. by rewrite lookup_omap, Ea.
    + rewrite !fmap_insert. cbn [xp_xbridge xp_ofp_port xb_xports set_xports]. apply ports_add; [by rewrite lookup_fmap, Hb|by rewrite lookup_fmap, Ea|done].
  - simpl. rewrite lookup_insert_eq. by eexists.
  - unfold v_peers. simpl. rewrite fmap_insert. intros H4. apply paired_fresh; [done|by rewrite lookup_fmap, Ea].
  - intros peer Hf x p -> Hx. simpl in Hx. apply lookup_insert_Some in Hx as [[<- <-]|[_ Hx]]; [by left|by eapply Hf].
Qed.

Lemma xlate_ofport_set_inv c o u a n peer q cfg :
  cfg_inv c →
  (∀ c', xlate_ofport_set c o u a n peer q cfg = Some c' →
     cfg_inv c' ∧ (paired (v_peers c) → peer_free c a peer → paired (v_peers c')))
  ∧ (paired (v_peers c) → is_Some (xc_bridges c !! o) → (∀ p, xc_ports c !! a = Some p → xp_ofp_port p = n) →
     is_Some (xlate_ofport_set c o u a n peer q cfg)).
Proof.
  intros Hc. unfold xlate_ofport_set. destruct (ofport_new c o a n cfg) as [c1|] eqn:E1; cbn [option_bind mbind].
  2: { split; [done|]. intros _ [b Hb] Hn. unfold ofport_new in E1. rewrite Hb in E1. destruct (xc_ports c !! a) as [p|]; [|done].
       by rewrite (proj2 (Z.eqb_eq _ _) (Hn p eq_refl)) in E1. }
  destruct (ofport_new_inv _ _ _ _ _ _ E1 Hc) as (Hc1 & [p1 Hp1] & Hpr1 & Hf1).
  set (c2 := with_ports c1 _). destruct (alter_port_inv c1 a (λ p, Xport cfg (xp_ofp_port p) (xp_xbridge p) (xp_xbundle p) (xp_peer p) (xp_skb_priorities p)) ltac:(done) Hc1) as [Hc2 Ep2].
  fold c2 in Hc2, Ep2.
  assert (Hp2 : xc_ports c2 !! a = Some (Xport cfg (xp_ofp_port p1) (xp_xbridge p1) (xp_xbundle p1) (xp_peer p1) (xp_skb_priorities p1)))
    by (subst c2; simpl; by rewrite lookup_alter_eq, Hp1).
  assert (Hf2 : peer_free c1 a peer → peer_free c2 a peer).
  { intros Hf x p -> Hx. subst c2. simpl in Hx. destruct (decide (x = a)) as [->|].
    - rewrite lookup_alter_eq, Hp1 in Hx. injection Hx as <-. simpl. by eapply Hf.
    - rewrite lookup_alter_ne in Hx by done. by eapply Hf. }
  destruct (ofport_set_peer c2 a peer) as [c3|] eqn:E3; cbn [option_bind mbind].
  - destruct (ofport_set_peer_inv _ _ _ _ _ E3 Hp2 Hc2) as (Hc3 & Hs3 & Hpr3).
    destruct (ofport_set_bundle_inv c3 a u Hc3 Hs3) as [Hc4 Ep4].
    match goal with |- context [Some (with_ports _ (alter ?f _ _))] =>
      destruct (alter_port_inv (ofport_set_bundle c3 a u) a f ltac:(done) Hc4) as [Hc5 Ep5] end.
    split; [|by eexists]. intros c' [= <-]. split; [done|]. intros Hp Hf. rewrite Ep5, Ep4. apply Hpr3; [rewrite Ep2; auto|auto].
  - split; [done|]. intros Hp _ _. exfalso. unfold ofport_set_peer in E3. rewrite Hp2 in E3. cbn [option_bind mbind] in E3.
    destruct (clear_peer_total (xc_ports c2) a _ Hp2) as [ps Hps]; [change (paired (v_peers c2)); rewrite Ep2; auto|].
    by rewrite Hps in E3.
Qed.

Lemma xlate_ofport_remove_inv c a c' :
  xlate_ofport_remove c a = Some c' → cfg_inv c →
  cfg_inv c' ∧ v_ports c' = delete a (v_ports c) ∧ v_bundles c' = v_bundles c ∧ v_owner c' = v_owner c
  ∧ (paired (v_peers c) → paired (v_peers c')).
Proof.
  intros Hs [H1 H2 H3]. revert Hs. unfold xlate_ofport_remove. destruct (xc_ports c !! a) as [p|] eqn:Ea.
  2: { intros [= <-]. split_and!; try done. unfold v_ports. rewrite delete_id; [done|]. by rewrite lookup_fmap, Ea. }
  destruct (clear_peer (xc_ports c) (xp_peer p)) as [ps|] eqn:Eps; [|done]. cbn [option_bind mbind].
  destruct (clear_peer_view _ _ _ Eps) as (Ep & Eg & Eb).
  pose proof (leave_bundle c a p H2 Ea) as [Hm Ho]. simpl in Hm, Ho.
  set (c1 := match xp_xbundle p with Some _ => _ | None => with_ports c ps end).
  assert (Ec1 : xc_bundles c1 = match xp_xbundle p with
            | Some u => alter (λ u, set_bundle_ports (list_remove a (xu_xports u)) u) u (xc_bundles c)
            | None => xc_bundles c end) by (subst c1; by destruct (xp_xbundle p)).
  assert (Ep1 : xc_ports c1 = ps) by (subst c1; by destruct (xp_xbundle p)).
  assert (Eb1 : xc_bridges c1 = xc_bridges c) by (subst c1; by destruct (xp_xbundle p)).
  rewrite <- Ec1 in Hm, Ho. clearbody c1. simpl. rewrite Ep1, Eb1.
  destruct (ports_remove (v_maps c) (v_ports c) (xp_xbridge p) a (xp_ofp_port p)) as (h & h' & Hh & Hr & Hp);
    [unfold v_ports; by rewrite lookup_fmap, Ea|done|].
  unfold v_maps in Hh. rewrite lookup_fmap in Hh. destruct (xc_bridges c !! xp_xbridge p) as [b|] eqn:Ebr; [|done].
  injection Hh as <-. cbn [option_bind mbind]. rewrite Hr. intros [= <-]. split_and!.
  - split; unfold v_bundles, v_owner, v_members, v_bundle_of, v_maps, v_ports in *; simpl.
    + rewrite (insert_view_same _ _ _ b) by done. by rewrite Ho.
    + by rewrite omap_delete, Eb.
    + rewrite fmap_insert, fmap_delete, Eg by done. exact Hp.
  - unfold v_ports. simpl. by rewrite fmap_delete, Eg.
  - unfold v_bundles. simpl. by rewrite (insert_view_same _ _ _ b).
  - exact Ho.
  - intros H4. unfold v_peers. simpl. rewrite fmap_delete, Ep.
    assert (Hpa : (xp_peer <$> xc_ports c) !! a = Some (xp_peer p)) by (by rewrite lookup_fmap, Ea).
    destruct (xp_peer p) as [q|]; [|by apply paired_delete].
    rewrite <- (delete_insert_eq _ _ None). apply paired_delete; [by apply paired_unpair|by rewrite lookup_insert_eq].
Qed.

Lemma xlate_ofport_remove_total c a : cfg_inv c → paired (v_peers c) → is_Some (xlate_ofport_remove c a).
Proof.
  intros [H1 H2 H3] H4. unfold xlate_ofport_remove. destruct (xc_ports c !! a) as [p|] eqn:Ea; [|by eexists].
  destruct (clear_peer_total _ _ _ Ea H4) as [ps ->]. cbn [option_bind mbind].
  destruct (ports_remove (v_maps c) (v_ports c) (xp_xbridge p) a (xp_ofp_port p)) as (h & h' & Hh & Hr & Hp);
    [unfold v_ports; by rewrite lookup_fmap, Ea|done|].
  unfold v_maps in Hh. rewrite lookup_fmap in Hh.
  destruct (xp_xbundle p); simpl; (destruct (xc_bridges c !! xp_xbridge p) as [b|]; [|done]); injection Hh as <-; simpl; rewrite Hr; by eexists.
Qed.

(** ** Removing a bridge *)

Lemma remove_ports_inv c l c' :
  remove_ports c l = Some c' → cfg_inv c →
  cfg_inv c' ∧ (∀ a, a ∈ l → v_ports c' !! a = None) ∧ v_ports c' ⊆ v_ports c
  ∧ v_bundles c' = v_bundles c ∧ v_owner c' = v_owner c ∧ (paired (v_peers c) → paired (v_peers c')).
Proof.
  revert c. induction l as [|a l IH]; intros c; [intros [= <-] Hc; split_and!; set_solver|]. simpl.
  destruct (xlate_ofport_remove c a) as [c1|] eqn:E; [|done]. cbn [option_bind mbind]. intros Hr Hc.
  destruct (xlate_ofport_remove_inv _ _ _ E Hc) as (Hc1 & E1 & E2 & E3 & E4).
  destruct (IH c1 Hr Hc1) as (Hc2 & Hn & Hs & E2' & E3' & E4'). split_and!; [done| | |congruence|congruence|auto].
  - intros x [->|Hx]%elem_of_cons; [|by apply Hn]. destruct (v_ports c' !! a) eqn:El; [|done].
    apply (lookup_weaken _ (v_ports c1)) in El; [|done]. by rewrite E1, lookup_delete_eq in El.
  - etrans; [done|]. rewrite E1. apply delete_subseteq.
Qed.

Lemma remove_ports_total c l : cfg_inv c → paired (v_peers c) → is_Some (remove_ports c l).
Proof.
  revert c. induction l as [|a l IH]; intros c Hc Hp; [by eexists|]. simpl.
  destruct (xlate_ofport_remove_total c a Hc Hp) as [c1 E]. rewrite E. cbn [option_bind mbind].
  destruct (xlate_ofport_remove_inv _ _ _ E Hc) as (Hc1 & _ & _ & _ & Hp1). auto.
Qed.

Lemma remove_bundles_inv c l :
  cfg_inv c →
  let c' := foldl xlate_bundle_remove c l in
  cfg_inv c' ∧ v_ports c' = v_ports c ∧ (∀ u, u ∈ l → v_owner c' !! u = None) ∧ v_owner c' ⊆ v_owner c
  ∧ v_peers c' = v_peers c.
Proof.
  revert c. induction l as [|u l IH]; intros c Hc; simpl; [split_and!; set_solver|].
  assert (E : v_ports (xlate_bundle_remove c u) = v_ports c ∧ v_owner (xlate_bundle_remove c u) = delete u (v_owner c)).
  { unfold xlate_bundle_remove, v_owner, v_ports. destruct (xc_bundles c !! u) as [x|] eqn:Eu; simpl.
    - by rewrite clear_bundles_view, fmap_delete.
    - rewrite delete_id; [done|]. by rewrite lookup_fmap, Eu. }
  destruct E as [E1 E2]. destruct (xlate_bundle_remove_inv c u Hc) as [Hc1 Ep1].
  destruct (IH _ Hc1) as (H1 & H2 & H3 & H4 & H5). split_and!; [done|congruence|..|congruence].
  - intros x [->|Hx]%elem_of_cons; [|by apply H3].
    destruct (v_owner (foldl xlate_bundle_remove (xlate_bundle_remove c u) l) !! u) eqn:E; [|done].
    apply (lookup_weaken _ _ _ _ E) in H4. by rewrite E2, lookup_delete_eq in H4.
  - etrans; [done|]. rewrite E2. apply delete_subseteq.
Qed.

Lemma xlate_remove_ofproto_inv c o c' :
  xlate_remove_ofproto c o = Some c' → cfg_inv c → cfg_inv c' ∧ (paired (v_peers c) → paired (v_peers c')).
Proof.
  intros Hs Hc. revert Hs. unfold xlate_remove_ofproto. destruct (xc_bridges c !! o) as [b|] eqn:Eb; [|by intros [= <-]].
  destruct (remove_ports c (hmap_for_each (xb_xports b))) as [c1|] eqn:Er; [|done]. cbn [option_bind mbind].
  destruct (remove_ports_inv _ _ _ Er Hc) as (Hc1 & Hp & Hsub & Eb1 & Eo1 & Hpr).
  assert (Hl : xb_xbundles <$> xc_bridges c1 !! o = Some (xb_xbundles b)).
  { rewrite <- lookup_fmap. change (v_bundles c1 !! o = Some (xb_xbundles b)). rewrite Eb1. unfold v_bundles.
    by rewrite lookup_fmap, Eb. }
  rewrite Hl. simpl. destruct (remove_bundles_inv c1 (xb_xbundles b) Hc1) as (Hc2 & Ep2 & Hu & Hsub2 & Epr).
  intros [= <-]. destruct Hc2 as [H1 H2 H3].
  split; [|intros H4; change (paired (v_peers (foldl xlate_bundle_remove c1 (xb_xbundles b)))); rewrite Epr; auto].
  split; [|exact H2|]; unfold v_bundles, v_maps; simpl; rewrite fmap_delete.
  - apply owned_drop; [|exact H1]. intros u Hs. destruct (ci_bundles _ Hc1) as [Hin _].
    destruct (Hin o (xb_xbundles b)) as [_ Hin']; [unfold v_bundles; by rewrite lookup_fmap, Hl|].
    assert (u ∈ xb_xbundles b) as Hx by (apply Hin'; by eapply lookup_weaken).
    apply Hu in Hx. unfold v_owner in Hs, Hx. simpl in Hs. congruence.
  - apply ports_drop; [|exact H3]. intros a n Hs. destruct (ci_ports _ Hc) as [Hm _].
    destruct (Hm o (xb_xports b)) as (bag & Hr & Hb); [unfold v_maps; by rewrite lookup_fmap, Eb|].
    change (v_ports (foldl xlate_bundle_remove c1 (xb_xbundles b)) !! a = Some (o, n)) in Hs. rewrite Ep2 in Hs.
    assert (a ∈ hmap_for_each (xb_xports b)) as Hx.
    { rewrite (hmap_for_each_nodes _ (rep_wf _ _ Hr)). apply elem_of_data. exists (hash_ofp_port n).
      rewrite (rep_nodes _ _ Hr). apply Hb. exists n. split; [by eapply lookup_weaken|done]. }
    apply Hp in Hx. congruence.
Qed.

Lemma xlate_remove_ofproto_total c o : cfg_inv c → paired (v_peers c) → is_Some (xlate_remove_ofproto c o).
Proof.
  intros Hc Hp. unfold xlate_remove_ofproto. destruct (xc_bridges c !! o) as [b|]; [|by eexists].
  destruct (remove_ports_total c (hmap_for_each (xb_xports b)) Hc Hp) as [c1 ->]. by eexists.
Qed.

(** ** Reachable configurations *)

(** The calls by which the switch configures the translator. *)
Inductive cfg_call :=
| CALL_OFPROTO_SET (ofproto : Z) (cfg : xbridge_cfg)
| CALL_REMOVE_OFPROTO (ofproto : Z)
| CALL_BUNDLE_SET (ofproto ofbundle : Z) (cfg : xbundle_cfg)
| CALL_BUNDLE_REMOVE (ofbundle : Z)
| CALL_OFPORT_SET (ofproto : Z) (ofbundle : option Z) (ofport ofp_port : Z) (peer : option Z) (qdscp : hmap (Z * Z)) (cfg : xport_cfg)
| CALL_OFPORT_REMOVE (ofport : Z).

Definition apply_call (c : xlate_cfg) (call : cfg_call) : option xlate_cfg :=
  match call with
  | CALL_OFPROTO_SET o cfg => Some (xlate_ofproto_set c o cfg)
  | CALL_REMOVE_OFPROTO o => xlate_remove_ofproto c o
  | CALL_BUNDLE_SET o u cfg => xlate_bundle_set c o u cfg
  | CALL_BUNDLE_REMOVE u => Some (xlate_bundle_remove c u)
  | CALL_OFPORT_SET o u a n peer q cfg => xlate_ofport_set c o u a n peer q cfg
  | CALL_OFPORT_REMOVE a => xlate_ofport_remove c a
  end.

(** No port is left with a peer that has been freed. *)
Definition peers_exist (c : xlate_cfg) : Prop :=
  ∀ a p q, xc_ports c !! a = Some p → xp_peer p = Some q → is_Some (xc_ports c !! q).

(** Any call, as long as it leaves no peer dangling. *)
Definition cfg_step (c c' : xlate_cfg) : Prop := peers_exist c' ∧ ∃ call, apply_call c call = Some c'.

(** A call that does not give a port a peer which is another port's. *)
Definition call_free (c : xlate_cfg) (call : cfg_call) : Prop :=
  match call with CALL_OFPORT_SET _ _ a _ peer _ _ => peer_free c a peer | _ => True end.

Definition free_step (c c' : xlate_cfg) : Prop := ∃ call, call_free c call ∧ apply_call c call = Some c'.

(** The callers' side: bundles and ports go to bridges that exist and a port
    keeps its number. *)
Definition call_ok (c : xlate_cfg) (call : cfg_call) : Prop :=
  match call with
  | CALL_BUNDLE_SET o _ _ => is_Some (xc_bridges c !! o)
  | CALL_OFPORT_SET o _ a n _ _ _ => is_Some (xc_bridges c !! o) ∧ ∀ p, xc_ports c !! a = Some p → xp_ofp_port p = n
  | _ => True
  end.

Lemma apply_call_inv c call c' :
  apply_call c call = Some c' → cfg_inv c →
  cfg_inv c' ∧ (paired (v_peers c) → call_free c call → paired (v_peers c')).
Proof.
  destruct call as [o cfg|o|o u cfg|u|o u a n peer q cfg|a]; cbn [apply_call call_free]; intros H Hc.
  - injection H as <-. split; [by apply xlate_ofproto_set_inv|done].
  - destruct (xlate_remove_ofproto_inv _ _ _ H Hc). auto.
  - destruct (xlate_bundle_set_inv _ _ _ _ _ H Hc) as [? ->]. auto.
  - injection H as <-. destruct (xlate_bundle_remove_inv c u Hc) as [? ->]. auto.
  - destruct (xlate_ofport_set_inv c o u a n peer q cfg Hc) as [Hs _]. auto.
  - destruct (xlate_ofport_remove_inv _ _ _ H Hc) as (? & _ & _ & _ & ?). auto.
Qed.

Lemma apply_call_total c call : cfg_inv c → paired (v_peers c) → call_ok c call → is_Some (apply_call c call).
Proof.
  destruct call as [o cfg|o|o u cfg|u|o u a n peer q cfg|a]; cbn [apply_call call_ok]; intros Hc Hp Hk.
  - by eexists.
  - by apply xlate_remove_ofproto_total.
  - unfold xlate_bundle_set. destruct Hk as [b ->]. destruct (xc_bundles c !! u); by eexists.
  - by eexists.
  - destruct Hk. by apply xlate_ofport_set_inv.
  - by apply xlate_ofport_remove_total.
Qed.

Lemma cfg_steps_inv c : rtc cfg_step empty_cfg c → cfg_inv c.
Proof.
  intros H. apply (rtc_ind_r (R:=cfg_step) (λ c, cfg_inv c) empty_cfg); [apply empty_cfg_inv| |exact H].
  intros c1 c2 _ [_ (call & Hs)] Hc. by eapply apply_call_inv.
Qed.

Lemma paired_peers_exist c : paired (v_peers c) → peers_exist c.
Proof.
  intros Hp a p q Ha Hq. specialize (Hp a q). unfold v_peers in Hp. rewrite !lookup_fmap, Ha in Hp. simpl in Hp. rewrite Hq in Hp.
  destruct (xc_ports c !! q); [by eexists|by specialize (Hp eq_refl)].
Qed.

Lemma free_steps_inv c : rtc free_step empty_cfg c → rtc cfg_step empty_cfg c ∧ cfg_inv c ∧ paired (v_peers c).
Proof.
  intros H. apply (rtc_ind_r (R:=free_step) (λ c, rtc cfg_step empty_cfg c ∧ cfg_inv c ∧ paired (v_peers c)) empty_cfg); [|..|exact H].
  - split; [done|apply empty_cfg_inv].
  - intros c1 c2 _ (call & Hf & Hs) (Hr & Hc & Hp). destruct (apply_call_inv _ _ _ Hs Hc) as [Hc2 Hp2].
    split; [|auto]. eapply rtc_r; [exact Hr|]. split; [apply paired_peers_exist; auto|by exists call].
Qed.

(** Every pointer leads to a structure that points back. *)
Record refs_ok (c : xlate_cfg) : Prop := {
  ref_port_bridge a p : xc_ports c !! a = Some p →
    ∃ b, xc_bridges c !! xp_xbridge p = Some b ∧ a ∈ hmap_for_each (xb_xports b);
  ref_port_bundle a p u : xc_ports c !! a = Some p → xp_xbundle p = Some u →
    ∃ x, xc_bundles c !! u = Some x ∧ a ∈ xu_xports x;
  ref_bundle_bridge u x : xc_bundles c !! u = Some x →
    ∃ b, xc_bridges c !! xu_xbridge x = Some b ∧ u ∈ xb_xbundles b;
  ref_bundle_ports u x : xc_bundles c !! u = Some x →
    NoDup (xu_xports x) ∧ ∀ a, a ∈ xu_xports x → ∃ p, xc_ports c !! a = Some p ∧ xp_xbundle p = Some u;
  ref_bridge_bundles o b : xc_bridges c !! o = Some b →
    NoDup (xb_xbundles b) ∧ ∀ u, u ∈ xb_xbundles b → ∃ x, xc_bundles c !! u = Some x ∧ xu_xbridge x = o;
  ref_bridge_ports o b a : xc_bridges c !! o = Some b → a ∈ hmap_for_each (xb_xports b) →
    ∃ p, xc_ports c !! a = Some p ∧ xp_xbridge p = o
}.

Lemma cfg_inv_refs_ok c : cfg_inv c → refs_ok c.
Proof.
  intros [[B1 B2] [M1 M2] [P1 P2]].
  unfold v_bundles, v_owner, v_members, v_bundle_of, v_maps, v_ports in *.
  setoid_rewrite lookup_fmap in B1. setoid_rewrite lookup_fmap in B2. setoid_rewrite lookup_fmap in M1.
  setoid_rewrite lookup_omap in M1. setoid_rewrite lookup_omap in M2. setoid_rewrite lookup_fmap in M2.
  setoid_rewrite lookup_fmap in P1. setoid_rewrite lookup_fmap in P2.
  assert (Hports : ∀ o b, xc_bridges c !! o = Some b → ∀ a,
    a ∈ hmap_for_each (xb_xports b) ↔ ∃ p, xc_ports c !! a = Some p ∧ xp_xbridge p = o).
  { intros o b Hb a. destruct (P1 o (xb_xports b)) as (bag & Hr & Hbag); [by rewrite Hb|].
    rewrite (hmap_for_each_nodes _ (rep_wf _ _ Hr)). fold (data (hnodes (xb_xports b))). rewrite elem_of_data.
    setoid_rewrite (rep_nodes _ _ Hr). setoid_rewrite Hbag. split.
    - intros (k & n & Ha & _). destruct (xc_ports c !! a) as [p|]; [|done]. injection Ha as <- <-. eauto.
    - intros (p & -> & <-). simpl. eauto. }
  split.
  - intros a p Ha. destruct (P2 a (xp_xbridge p) (xp_ofp_port p)) as [h Hh]; [by rewrite Ha|].
    destruct (xc_bridges c !! xp_xbridge p) as [b|] eqn:Eb; [|done]. exists b. split; [done|]. apply (Hports _ _ Eb). eauto.
  - intros a p u Ha Hu. destruct (M2 a u) as [l Hl]; [by rewrite Ha|]. destruct (xc_bundles c !! u) as [x|] eqn:Ex; [|done].
    exists x. split; [done|]. apply (M1 u (xu_xports x)); [by rewrite Ex|by rewrite Ha].
  - intros u x Hx. destruct (B2 u (xu_xbridge x)) as [l Hl]; [by rewrite Hx|].
    destruct (xc_bridges c !! xu_xbridge x) as [b|] eqn:Eb; [|done]. exists b. split; [done|].
    apply (B1 (xu_xbridge x) (xb_xbundles b)); [by rewrite Eb|by rewrite Hx].
  - intros u x Hx. destruct (M1 u (xu_xports x)) as [Hnd Hin]; [by rewrite Hx|]. split; [done|]. intros a Ha%Hin.
    destruct (xc_ports c !! a) as [p|]; [|done]. eauto.
  - intros o b Hb. destruct (B1 o (xb_xbundles b)) as [Hnd Hin]; [by rewrite Hb|]. split; [done|]. intros u Hu%Hin.
    destruct (xc_bundles c !! u) as [x|]; [|done]. injection Hu as <-. eauto.
  - intros o b a Hb Ha. by apply (Hports o b).
Qed.

(** The port that a bridge knows by a number is one of its ports and has that
    number; a port of the bridge with the number is found. *)
Lemma get_ofp_port_spec c o b n :
  cfg_inv c → xc_bridges c !! o = Some b →
  (∀ a, get_ofp_port c b n = Some a → ∃ p, xc_ports c !! a = Some p ∧ xp_xbridge p = o ∧ xp_ofp_port p = n)
  ∧ (∀ a p, xc_ports c !! a = Some p → xp_xbridge p = o → xp_ofp_port p = n → is_Some (get_ofp_port c b n)).
Proof.
  intros Hc Hb. destruct (ci_ports _ Hc) as [P1 _]. destruct (P1 o (xb_xports b)) as (bag & Hr & Hbag);
    [unfold v_maps; by rewrite lookup_fmap, Hb|]. unfold v_ports in Hbag. setoid_rewrite lookup_fmap in Hbag.
  pose proof (rep_wf _ _ Hr) as Hwf. unfold get_ofp_port. rewrite hmap_for_each_in_bucket_chain.
  revert Hbag. generalize hash_ofp_port. intros hash Hbag. split.
  - intros a Ha. apply List.find_some in Ha as [Hin Ht]. apply list_elem_of_In, list_elem_of_fmap in Hin as ([k a'] & -> & Hn).
    apply (bucket_in_hnodes _ _ _ Hwf) in Hn. rewrite (rep_nodes _ _ Hr) in Hn. apply Hbag in Hn as (n' & Ha & _).
    simpl in *. destruct (xc_ports c !! a') as [p|]; [|done]. injection Ha as <- <-. apply Z.eqb_eq in Ht. eauto.
  - intros a p Ha Ho Hn. assert (Hin : HNode (hash n) a ∈ bag) by (apply Hbag; rewrite Ha; exists n; simpl; by subst).
    rewrite <- (rep_nodes _ _ Hr) in Hin. apply (hnodes_in_bucket _ _ Hwf) in Hin.
    cbn [hn_hash] in Hin. destruct (List.find _ _) eqn:Ef; [by eexists|]. apply (List.find_none _ _) with (x := a) in Ef.
    + rewrite Ha in Ef. by apply Z.eqb_neq in Ef.
    + apply list_elem_of_In, (list_elem_of_fmap_2 hn_data _ _ Hin).
Qed.

Lemma paired_symmetric c a p q :
  paired (v_peers c) → xc_ports c !! a = Some p → xp_peer p = Some q → ∃ p', xc_ports c !! q = Some p' ∧ xp_peer p' = Some a.
Proof.
  intros HP Ha Hq. specialize (HP a q). unfold v_peers in HP. rewrite !lookup_fmap, Ha in HP. simpl in HP. rewrite Hq in HP.
  specialize (HP eq_refl). destruct (xc_ports c !! q) as [p'|]; [|done]. exists p'. split; [done|]. by injection HP.
Qed.

(** C19: the references of the translator's mirror of the switch.  After any
    sequence of configuration calls that leaves no port with a freed peer,
    each port's bridge and bundle exist and lead back to the port, each
    bundle's bridge exists and lists it, the lists and hash maps hold exactly
    the structures that point to their owner, and looking up a port number
    gives a port of the bridge with that number, if there is one.  After any
    sequence of calls that never give a port a peer which is another port's,
    no freed peer is left, peers are symmetric, and every further call, a
    removal in particular, succeeds, if it names an existing bridge and keeps
    the port's number. *)
Theorem xlate_config_refs_ok c :
  (rtc cfg_step empty_cfg c →
     refs_ok c
     ∧ ∀ o b n, xc_bridges c !! o = Some b →
       (∀ a, get_ofp_port c b n = Some a → ∃ p, xc_ports c !! a = Some p ∧ xp_xbridge p = o ∧ xp_ofp_port p = n)
       ∧ (∀ a p, xc_ports c !! a = Some p → xp_xbridge p = o → xp_ofp_port p = n → is_Some (get_ofp_port c b n)))
  ∧ (rtc free_step empty_cfg c →
     rtc cfg_step empty_cfg c
     ∧ (∀ a p q, xc_ports c !! a = Some p → xp_peer p = Some q → ∃ p', xc_ports c !! q = Some p' ∧ xp_peer p' = Some a)
     ∧ ∀ call, call_ok c call → is_Some (apply_call c call)).
Proof.
  split.
  - intros Hc%cfg_steps_inv. split; [by apply cfg_inv_refs_ok|]. intros o b n Hb. by apply get_ofp_port_spec.
  - intros (Hr & Hc & Hp)%free_steps_inv. split; [done|]. split.
    + intros a p q. by apply paired_symmetric.
    + intros call. by apply apply_call_total.
Qed.

(** ** Examples *)

Definition ex_rule : rule_dpif := RuleDpif 0 [] 0 false.
Definition ex_bridge_cfg : xbridge_cfg :=
  XbridgeCfg 1 2 None None None None ex_rule ex_rule OFPC_FRAG_NORMAL false false false.
Definition ex_bundle_cfg : xbundle_cfg := XbundleCfg None None PORT_VLAN_TRUNK (-1) None false true.
Definition ex_port_cfg (odp : Z) : xport_cfg := XportCfg odp odp None None (-1) 0 false true.

(** Two bridges 10 and 20, joined by the patch ports 101 and 201, and a port
    102 in the bundle 51 of the first. *)
Definition ex_c0 : xlate_cfg := xlate_ofproto_set (xlate_ofproto_set empty_cfg 10 ex_bridge_cfg) 20 ex_bridge_cfg.
Definition ex_c1 : xlate_cfg := default empty_cfg (xlate_bundle_set ex_c0 10 51 ex_bundle_cfg).
Definition ex_c2 : xlate_cfg :=
  default empty_cfg (xlate_ofport_set ex_c1 10 (Some 51) 102 2 None hmap_init (ex_port_cfg 7)).
Definition ex_c3 : xlate_cfg := default empty_cfg (xlate_ofport_set ex_c2 10 None 101 1 None hmap_init (ex_port_cfg 8)).
Definition ex_cfg : xlate_cfg :=
  default empty_cfg (xlate_ofport_set ex_c3 20 None 201 1 (Some 101) hmap_init (ex_port_cfg 9)).

Lemma ex_free_steps : rtc free_step empty_cfg ex_cfg.
Proof.
  eapply rtc_l; [by exists (CALL_OFPROTO_SET 10 ex_bridge_cfg)|]. eapply rtc_l; [by exists (CALL_OFPROTO_SET 20 ex_bridge_cfg)|].
  eapply rtc_l; [exists (CALL_BUNDLE_SET 10 51 ex_bundle_cfg); split; [done|exact (eq_refl : xlate_bundle_set ex_c0 10 51 ex_bundle_cfg = Some ex_c1)]|].
  eapply rtc_l; [exists (CALL_OFPORT_SET 10 (Some 51) 102 2 None hmap_init (ex_port_cfg 7)); split; [done|by instantiate (1 := ex_c2); vm_compute]|].
  eapply rtc_l; [exists (CALL_OFPORT_SET 10 None 101 1 None hmap_init (ex_port_cfg 8)); split; [done|by instantiate (1 := ex_c3); vm_compute]|].
  eapply rtc_l; [|done].
  exists (CALL_OFPORT_SET 20 None 201 1 (Some 101) hmap_init (ex_port_cfg 9)). split; [|by vm_compute].
  intros q p [= <-] Hq. left. revert Hq. vm_compute. by intros [= <-].
Qed.

Lemma ex_cfg_steps : rtc cfg_step empty_cfg ex_cfg.
Proof. apply free_steps_inv, ex_free_steps. Qed.

Lemma xlate_config_refs_ok_witness :
  (∃ p, xc_ports ex_cfg !! 101 = Some p ∧ xp_peer p = Some 201) ∧ refs_ok ex_cfg ∧ is_Some (xlate_remove_ofproto ex_cfg 10).
Proof.
  destruct (xlate_config_refs_ok ex_cfg) as [Hr Hf].
  split; [by eexists; vm_compute|]. split; [apply (Hr ex_cfg_steps)|].
  destruct (Hf ex_free_steps) as (_ & _ & Ho). exact (Ho (CALL_REMOVE_OFPROTO 10) I).
Defined.

(** A port that takes another's peer: the other keeps its pointer, which
    dangles when the peer is removed, and the next change of the port writes
    through it. *)
Lemma stolen_peer_dangles :
  match
    (c ← xlate_ofport_set ex_cfg 20 None 202 2 (Some 101) hmap_init (ex_port_cfg 11);
     xlate_ofport_remove c 101)
  with
  | Some c => xc_ports c !! 101 = None ∧ (∃ p, xc_ports c !! 201 = Some p ∧ xp_peer p = Some 101)
              ∧ xlate_ofport_remove c 201 = None
  | None => False
  end.
Proof. vm_compute. split; [done|]. split; [by eexists|done]. Qed.

(** The patch ports 101 and 201 are peers, and the switch makes 202 the peer of
    101 instead.  With the ports set in the order 202, 101, 201, the last call
    clears the new peer of 101, although 201 is no longer its peer: 202 keeps
    a one-sided pointer, which dangles when 101 is removed. *)
Lemma repairing_loses_peer :
  match
    (c ← xlate_ofport_set ex_cfg 20 None 202 2 (Some 101) hmap_init (ex_port_cfg 11);
     c ← xlate_ofport_set c 10 None 101 1 (Some 202) hmap_init (ex_port_cfg 8);
     c ← xlate_ofport_set c 20 None 201 1 None hmap_init (ex_port_cfg 9);
     c' ← xlate_ofport_remove c 101;
     Some (c, c'))
  with
  | Some (c, c') =>
      (∃ p, xc_ports c !! 202 = Some p ∧ xp_peer p = Some 101) ∧ (∃ p, xc_ports c !! 101 = Some p ∧ xp_peer p = None)
      ∧ xc_ports c' !! 101 = None ∧ (∃ p, xc_ports c' !! 202 = Some p ∧ xp_peer p = Some 101)
      ∧ xlate_ofport_remove c' 202 = None
  | None => False
  end.
Proof. vm_compute. split; [by eexists|]. split; [by eexists|]. split; [done|]. split; [by eexists|done]. Qed.
