(* ===== verification/XlateCtx.v ===== *)
(** * The translation context and the services of the translator

    [xlate_ctx] is the state of one translation: [struct xlate_ctx], the flow
    being changed and [struct xlate_out], together with the tables that
    translation reads and updates (MAC tables, spanning trees, table counters)
    and the packet-ins it sends.  [xlate_services] is what the translator asks
    of the rest of the switch: the flow tables, bonds, mirrors, the datapath
    interface and the protocols that process packets; [xlate_services_ok]
    states what it relies on.  [cx_trace] is a history variable: the recursion
    level and the table of every table lookup, in order. *)
From stdpp Require Import gmap.
From S2P Require Import Prelude Util Hash Hmap Bitmap MatchFields MetaFlow OdpActions NxActions TableCounters Learn.
From S2P Require Import Tunnel MacLearning Stp XlateConfig.

Inductive slow_path_reason := SLOW_CFM | SLOW_LACP | SLOW_STP | SLOW_BFD | SLOW_CONTROLLER.
Inductive bond_verdict := BV_ACCEPT | BV_DROP | BV_DROP_IF_MOVED.

#[global] Instance slow_path_reason_eq_dec : EqDecision slow_path_reason.
Proof. solve_decision. Defined.

(** [struct ofputil_packet_in]; the flow stands for the flow metadata that
    [flow_get_metadata] copies from it. *)
Record packet_in := PacketIn {
  pin_ofproto : Z;
  pin_packet : list Z;
  pin_reason : Z;
  pin_controller_id : Z;
  pin_table_id : Z;
  pin_cookie : Z;
  pin_send_len : Z;
  pin_fmd : flowf
}.

(** ** Services

    Objects are known by their handles.  [svc] is the state of the services. *)
Class xlate_services := {
  svc : Type;
  (* Flow tables of an ofproto. *)
  sv_classifier_lookup : svc → Z → Z → flowf → flowf → option rule_dpif * flowf;
  sv_frag_handling : Z → ofp_config_flags;
  sv_drop_frags_rule : Z → rule_dpif;
  sv_miss_rule : Z → rule_dpif;
  sv_no_packet_in_rule : Z → rule_dpif;
  sv_port_config : Z → Z → option Z;
  sv_flow_mod : svc → Z → ofputil_flow_mod → svc;
  sv_credit_stats : svc → rule_dpif → svc;
  sv_reduce_timeouts : svc → rule_dpif → Z → Z → svc;
  (* Bonds. *)
  sv_bond_choose_output_slave : svc → Z → flowf → flowf → Z → svc * flowf * option Z;
  sv_bond_check_admissibility : svc → Z → Z → Z → bond_verdict;
  (* Mirrors: VLANs, duplicates, output bundle and output VLAN. *)
  sv_has_mirrors : option Z → bool;
  sv_mirror_bundle_out : option Z → Z → Z;
  sv_mirror_bundle_src : option Z → Z → Z;
  sv_mirror_bundle_dst : option Z → Z → Z;
  sv_mirror_get : option Z → Z → option (option bitmap * Z * option Z * Z);
  (* Datapath interface, sFlow, IPFIX, network devices, VLAN splinters. *)
  sv_queue_to_priority : Z → Z → option Z;
  sv_port_get_pid : Z → Z → Z;
  sv_sflow_odp_port_to_ifindex : Z → Z → Z;
  sv_sflow_get_probability : Z → Z;
  sv_ipfix_get_probability : Z → Z;
  sv_vport_inc_tx : svc → Z → svc;
  sv_vport_inc_rx : svc → Z → svc;
  sv_has_vlan_splinters : Z → bool;
  sv_vsp_realdev_to_vlandev : Z → Z → Z → Z;
  sv_odp_execute_actions : list odp_action → list Z → list Z;
  (* Connectivity fault management, BFD and LACP. *)
  sv_cfm_check_tnl_key : svc → Z → bool;
  sv_cfm_ccm_addr : svc → Z → Z;
  sv_cfm_process_heartbeat : svc → Z → list Z → svc;
  sv_bfd_eth_dst : svc → Z → option Z;
  sv_bfd_check_tnl_key : svc → Z → bool;
  sv_bfd_process_packet : svc → Z → flowf → list Z → svc;
  sv_lacp_process_packet : svc → Z → Z → list Z → svc
}.

(** What the translator relies on: lookups and bonds only add to the
    wildcards, mirrors are bits of a 32-bit mask and a mirror is a duplicate
    of itself. *)
Class xlate_services_ok (Sv : xlate_services) := {
  sv_lookup_grows s ofproto table_id flow wc : wc_grows wc (sv_classifier_lookup s ofproto table_id flow wc).2;
  sv_bond_grows s bond flow wc vid : wc_grows wc (sv_bond_choose_output_slave s bond flow wc vid).1.2;
  sv_mirror_dup mb i vlans dups out out_vlan :
    sv_mirror_get mb i = Some (vlans, dups, out, out_vlan) → Z.testbit dups i = true ∧ is_u32 dups;
  sv_mirror_src_u32 mb u : is_u32 (sv_mirror_bundle_src mb u);
  sv_mirror_dst_u32 mb u : is_u32 (sv_mirror_bundle_dst mb u)
}.

(** What caching a translation relies on: the result of a lookup and the choice
    of a bond depend on no field that they leave wildcarded. *)
Class xlate_services_sound (Sv : xlate_services) := {
  sv_lookup_sound s ofproto table_id flow flow' wc :
    flow_ok flow → flow_ok flow' → flow_ok wc → agree (sv_classifier_lookup s ofproto table_id flow wc).2 flow flow' →
    sv_classifier_lookup s ofproto table_id flow' wc = sv_classifier_lookup s ofproto table_id flow wc;
  sv_bond_sound s bond flow flow' wc vid :
    flow_ok flow → flow_ok flow' → flow_ok wc → agree (sv_bond_choose_output_slave s bond flow wc vid).1.2 flow flow' →
    sv_bond_choose_output_slave s bond flow' wc vid = sv_bond_choose_output_slave s bond flow wc vid
}.

(** ** The input of a translation and the tables that stay fixed during it *)

Record xlate_in := XlateIn {
  xi_ofproto : Z;
  xi_flow : flowf;
  xi_packet : option (list Z);
  xi_may_learn : bool;
  xi_may_increment : bool;
  xi_rule : option rule_dpif;
  xi_ofpacts : option (list ofpact);
  xi_tcp_flags : Z;
  xi_resubmit_stats : bool
}.

Class xlate_env := XlateEnv {
  e_in : xlate_in;
  e_cfg : xlate_cfg;
  e_tnl : tnl_ports;
  e_now : Z
}.

Definition xlate_in_init (ofproto : Z) (flow : flowf) (rule : option rule_dpif) (tcp_flags : Z)
    (packet : option (list Z)) : xlate_in :=
  XlateIn ofproto flow packet (bool_decide (is_Some packet)) (bool_decide (is_Some packet)) rule None tcp_flags false.

(** ** The context *)

Section ctx.
Context {Sv : xlate_services}.

Record xlate_ctx := Ctx {
  cx_flow : flowf;
  cx_base_flow : flowf;
  cx_orig_tunnel_ip_dst : Z;
  cx_stack : list Z;
  cx_rule : option rule_dpif;
  cx_recurse : Z;
  cx_orig_skb_priority : Z;
  cx_table_id : Z;
  cx_sflow_n_outputs : Z;
  cx_sflow_odp_port : Z;
  cx_user_cookie_offset : bool;
  cx_exit : bool;
  cx_xbridge : Z;
  cx_wc : flowf;
  cx_slow : option slow_path_reason;
  cx_fail_open : bool;
  cx_has_learn : bool;
  cx_has_normal : bool;
  cx_has_fin_timeout : bool;
  cx_nf_output_iface : Z;
  cx_mirrors : Z;
  cx_odp_actions : list odp_action;
  cx_ml : gmap Z mac_learning;
  cx_stp : gmap Z stp;
  cx_counters : table_counters;
  cx_packet_ins : list packet_in;
  cx_svc : svc;
  cx_trace : list (Z * Z)
}.

Definition set_flow (v : flowf) (c : xlate_ctx) : xlate_ctx :=
  Ctx v (cx_base_flow c) (cx_orig_tunnel_ip_dst c) (cx_stack c) (cx_rule c) (cx_recurse c)
    (cx_orig_skb_priority c) (cx_table_id c) (cx_sflow_n_outputs c) (cx_sflow_odp_port c)
    (cx_user_cookie_offset c) (cx_exit c) (cx_xbridge c) (cx_wc c) (cx_slow c) (cx_fail_open c)
    (cx_has_learn c) (cx_has_normal c) (cx_has_fin_timeout c) (cx_nf_output_iface c) (cx_mirrors c)
    (cx_odp_actions c) (cx_ml c) (cx_stp c) (cx_counters c) (cx_packet_ins c) (cx_svc c)
    (cx_trace c).
Definition set_base_flow (v : flowf) (c : xlate_ctx) : xlate_ctx :=
  Ctx (cx_flow c) v (cx_orig_tunnel_ip_dst c) (cx_stack c) (cx_rule c) (cx_recurse c)
    (cx_orig_skb_priority c) (cx_table_id c) (cx_sflow_n_outputs c) (cx_sflow_odp_port c)
    (cx_user_cookie_offset c) (cx_exit c) (cx_xbridge c) (cx_wc c) (cx_slow c) (cx_fail_open c)
    (cx_has_learn c) (cx_has_normal c) (cx_has_fin_timeout c) (cx_nf_output_iface c) (cx_mirrors c)
    (cx_odp_actions c) (cx_ml c) (cx_stp c) (cx_counters c) (cx_packet_ins c) (cx_svc c)
    (cx_trace c).
Definition set_stack (v : list Z) (c : xlate_ctx) : xlate_ctx :=
  Ctx (cx_flow c) (cx_base_flow c) (cx_orig_tunnel_ip_dst c) v (cx_rule c) (cx_recurse c)
    (cx_orig_skb_priority c) (cx_table_id c) (cx_sflow_n_outputs c) (cx_sflow_odp_port c)
    (cx_user_cookie_offset c) (cx_exit c) (cx_xbridge c) (cx_wc c) (cx_slow c) (cx_fail_open c)
    (cx_has_learn c) (cx_has_normal c) (cx_has_fin_timeout c) (cx_nf_output_iface c) (cx_mirrors c)
    (cx_odp_actions c) (cx_ml c) (cx_stp c) (cx_counters c) (cx_packet_ins c) (cx_svc c)
    (cx_trace c).
Definition set_rule (v : option rule_dpif) (c : xlate_ctx) : xlate_ctx :=
  Ctx (cx_flow c) (cx_base_flow c) (cx_orig_tunnel_ip_dst c) (cx_stack c) v (cx_recurse c)
    (cx_orig_skb_priority c) (cx_table_id c) (cx_sflow_n_outputs c) (cx_sflow_odp_port c)
    (cx_user_cookie_offset c) (cx_exit c) (cx_xbridge c) (cx_wc c) (cx_slow c) (cx_fail_open c)
    (cx_has_learn c) (cx_has_normal c) (cx_has_fin_timeout c) (cx_nf_output_iface c) (cx_mirrors c)
    (cx_odp_actions c) (cx_ml c) (cx_stp c) (cx_counters c) (cx_packet_ins c) (cx_svc c)
    (cx_trace c).
Definition set_recurse (v : Z) (c : xlate_ctx) : xlate_ctx :=
  Ctx (cx_flow c) (cx_base_flow c) (cx_orig_tunnel_ip_dst c) (cx_stack c) (cx_rule c) v
    (cx_orig_skb_priority c) (cx_table_id c) (cx_sflow_n_outputs c) (cx_sflow_odp_port c)
    (cx_user_cookie_offset c) (cx_exit c) (cx_xbridge c) (cx_wc c) (cx_slow c) (cx_fail_open c)
    (cx_has_learn c) (cx_has_normal c) (cx_has_fin_timeout c) (cx_nf_output_iface c) (cx_mirrors c)
    (cx_odp_actions c) (cx_ml c) (cx_stp c) (cx_counters c) (cx_packet_ins c) (cx_svc c)
    (cx_trace c).
Definition set_table_id (v : Z) (c : xlate_ctx) : xlate_ctx :=
  Ctx (cx_flow c) (cx_base_flow c) (cx_orig_tunnel_ip_dst c) (cx_stack c) (cx_rule c) (cx_recurse c)
    (cx_orig_skb_priority c) v (cx_sflow_n_outputs c) (cx_sflow_odp_port c)
    (cx_user_cookie_offset c) (cx_exit c) (cx_xbridge c) (cx_wc c) (cx_slow c) (cx_fail_open c)
    (cx_has_learn c) (cx_has_normal c) (cx_has_fin_timeout c) (cx_nf_output_iface c) (cx_mirrors c)
    (cx_odp_actions c) (cx_ml c) (cx_stp c) (cx_counters c) (cx_packet_ins c) (cx_svc c)
    (cx_trace c).
Definition set_sflow_n_outputs (v : Z) (c : xlate_ctx) : xlate_ctx :=
  Ctx (cx_flow c) (cx_base_flow c) (cx_orig_tunnel_ip_dst c) (cx_stack c) (cx_rule c) (cx_recurse c)
    (cx_orig_skb_priority c) (cx_table_id c) v (cx_sflow_odp_port c) (cx_user_cookie_offset c)
    (cx_exit c) (cx_xbridge c) (cx_wc c) (cx_slow c) (cx_fail_open c) (cx_has_learn c)
    (cx_has_normal c) (cx_has_fin_timeout c) (cx_nf_output_iface c) (cx_mirrors c)
    (cx_odp_actions c) (cx_ml c) (cx_stp c) (cx_counters c) (cx_packet_ins c) (cx_svc c)
    (cx_trace c).
Definition set_sflow_odp_port (v : Z) (c : xlate_ctx) : xlate_ctx :=
  Ctx (cx_flow c) (cx_base_flow c) (cx_orig_tunnel_ip_dst c) (cx_stack c) (cx_rule c) (cx_recurse c)
    (cx_orig_skb_priority c) (cx_table_id c) (cx_sflow_n_outputs c) v (cx_user_cookie_offset c)
    (cx_exit c) (cx_xbridge c) (cx_wc c) (cx_slow c) (cx_fail_open c) (cx_has_learn c)
    (cx_has_normal c) (cx_has_fin_timeout c) (cx_nf_output_iface c) (cx_mirrors c)
    (cx_odp_actions c) (cx_ml c) (cx_stp c) (cx_counters c) (cx_packet_ins c) (cx_svc c)
    (cx_trace c).
Definition set_user_cookie_offset (v : bool) (c : xlate_ctx) : xlate_ctx :=
  Ctx (cx_flow c) (cx_base_flow c) (cx_orig_tunnel_ip_dst c) (cx_stack c) (cx_rule c) (cx_recurse c)
    (cx_orig_skb_priority c) (cx_table_id c) (cx_sflow_n_outputs c) (cx_sflow_odp_port c) v
    (cx_exit c) (cx_xbridge c) (cx_wc c) (cx_slow c) (cx_fail_open c) (cx_has_learn c)
    (cx_has_normal c) (cx_has_fin_timeout c) (cx_nf_output_iface c) (cx_mirrors c)
    (cx_odp_actions c) (cx_ml c) (cx_stp c) (cx_counters c) (cx_packet_ins c) (cx_svc c)
    (cx_trace c).
Definition set_exit (v : bool) (c : xlate_ctx) : xlate_ctx :=
  Ctx (cx_flow c) (cx_base_flow c) (cx_orig_tunnel_ip_dst c) (cx_stack c) (cx_rule c) (cx_recurse c)
    (cx_orig_skb_priority c) (cx_table_id c) (cx_sflow_n_outputs c) (cx_sflow_odp_port c)
    (cx_user_cookie_offset c) v (cx_xbridge c) (cx_wc c) (cx_slow c) (cx_fail_open c)
    (cx_has_learn c) (cx_has_normal c) (cx_has_fin_timeout c) (cx_nf_output_iface c) (cx_mirrors c)
    (cx_odp_actions c) (cx_ml c) (cx_stp c) (cx_counters c) (cx_packet_ins c) (cx_svc c)
    (cx_trace c).
Definition set_xbridge (v : Z) (c : xlate_ctx) : xlate_ctx :=
  Ctx (cx_flow c) (cx_base_flow c) (cx_orig_tunnel_ip_dst c) (cx_stack c) (cx_rule c) (cx_recurse c)
    (cx_orig_skb_priority c) (cx_table_id c) (cx_sflow_n_outputs c) (cx_sflow_odp_port c)
    (cx_user_cookie_offset c) (cx_exit c) v (cx_wc c) (cx_slow c) (cx_fail_open c) (cx_has_learn c)
    (cx_has_normal c) (cx_has_fin_timeout c) (cx_nf_output_iface c) (cx_mirrors c)
    (cx_odp_actions c) (cx_ml c) (cx_stp c) (cx_counters c) (cx_packet_ins c) (cx_svc c)
    (cx_trace c).
Definition set_wc (v : flowf) (c : xlate_ctx) : xlate_ctx :=
  Ctx (cx_flow c) (cx_base_flow c) (cx_orig_tunnel_ip_dst c) (cx_stack c) (cx_rule c) (cx_recurse c)
    (cx_orig_skb_priority c) (cx_table_id c) (cx_sflow_n_outputs c) (cx_sflow_odp_port c)
    (cx_user_cookie_offset c) (cx_exit c) (cx_xbridge c) v (cx_slow c) (cx_fail_open c)
    (cx_has_learn c) (cx_has_normal c) (cx_has_fin_timeout c) (cx_nf_output_iface c) (cx_mirrors c)
    (cx_odp_actions c) (cx_ml c) (cx_stp c) (cx_counters c) (cx_packet_ins c) (cx_svc c)
    (cx_trace c).
Definition set_slow (v : option slow_path_reason) (c : xlate_ctx) : xlate_ctx :=
  Ctx (cx_flow c) (cx_base_flow c) (cx_orig_tunnel_ip_dst c) (cx_stack c) (cx_rule c) (cx_recurse c)
    (cx_orig_skb_priority c) (cx_table_id c) (cx_sflow_n_outputs c) (cx_sflow_odp_port c)
    (cx_user_cookie_offset c) (cx_exit c) (cx_xbridge c) (cx_wc c) v (cx_fail_open c)
    (cx_has_learn c) (cx_has_normal c) (cx_has_fin_timeout c) (cx_nf_output_iface c) (cx_mirrors c)
    (cx_odp_actions c) (cx_ml c) (cx_stp c) (cx_counters c) (cx_packet_ins c) (cx_svc c)
    (cx_trace c).
Definition set_fail_open (v : bool) (c : xlate_ctx) : xlate_ctx :=
  Ctx (cx_flow c) (cx_base_flow c) (cx_orig_tunnel_ip_dst c) (cx_stack c) (cx_rule c) (cx_recurse c)
    (cx_orig_skb_priority c) (cx_table_id c) (cx_sflow_n_outputs c) (cx_sflow_odp_port c)
    (cx_user_cookie_offset c) (cx_exit c) (cx_xbridge c) (cx_wc c) (cx_slow c) v (cx_has_learn c)
    (cx_has_normal c) (cx_has_fin_timeout c) (cx_nf_output_iface c) (cx_mirrors c)
    (cx_odp_actions c) (cx_ml c) (cx_stp c) (cx_counters c) (cx_packet_ins c) (cx_svc c)
    (cx_trace c).
Definition set_has_learn (v : bool) (c : xlate_ctx) : xlate_ctx :=
  Ctx (cx_flow c) (cx_base_flow c) (cx_orig_tunnel_ip_dst c) (cx_stack c) (cx_rule c) (cx_recurse c)
    (cx_orig_skb_priority c) (cx_table_id c) (cx_sflow_n_outputs c) (cx_sflow_odp_port c)
    (cx_user_cookie_offset c) (cx_exit c) (cx_xbridge c) (cx_wc c) (cx_slow c) (cx_fail_open c) v
    (cx_has_normal c) (cx_has_fin_timeout c) (cx_nf_output_iface c) (cx_mirrors c)
    (cx_odp_actions c) (cx_ml c) (cx_stp c) (cx_counters c) (cx_packet_ins c) (cx_svc c)
    (cx_trace c).
Definition set_has_normal (v : bool) (c : xlate_ctx) : xlate_ctx :=
  Ctx (cx_flow c) (cx_base_flow c) (cx_orig_tunnel_ip_dst c) (cx_stack c) (cx_rule c) (cx_recurse c)
    (cx_orig_skb_priority c) (cx_table_id c) (cx_sflow_n_outputs c) (cx_sflow_odp_port c)
    (cx_user_cookie_offset c) (cx_exit c) (cx_xbridge c) (cx_wc c) (cx_slow c) (cx_fail_open c)
    (cx_has_learn c) v (cx_has_fin_timeout c) (cx_nf_output_iface c) (cx_mirrors c)
    (cx_odp_actions c) (cx_ml c) (cx_stp c) (cx_counters c) (cx_packet_ins c) (cx_svc c)
    (cx_trace c).
Definition set_has_fin_timeout (v : bool) (c : xlate_ctx) : xlate_ctx :=
  Ctx (cx_flow c) (cx_base_flow c) (cx_orig_tunnel_ip_dst c) (cx_stack c) (cx_rule c) (cx_recurse c)
    (cx_orig_skb_priority c) (cx_table_id c) (cx_sflow_n_outputs c) (cx_sflow_odp_port c)
    (cx_user_cookie_offset c) (cx_exit c) (cx_xbridge c) (cx_wc c) (cx_slow c) (cx_fail_open c)
    (cx_has_learn c) (cx_has_normal c) v (cx_nf_output_iface c) (cx_mirrors c) (cx_odp_actions c)
    (cx_ml c) (cx_stp c) (cx_counters c) (cx_packet_ins c) (cx_svc c) (cx_trace c).
Definition set_nf_output_iface (v : Z) (c : xlate_ctx) : xlate_ctx :=
  Ctx (cx_flow c) (cx_base_flow c) (cx_orig_tunnel_ip_dst c) (cx_stack c) (cx_rule c) (cx_recurse c)
    (cx_orig_skb_priority c) (cx_table_id c) (cx_sflow_n_outputs c) (cx_sflow_odp_port c)
    (cx_user_cookie_offset c) (cx_exit c) (cx_xbridge c) (cx_wc c) (cx_slow c) (cx_fail_open c)
    (cx_has_learn c) (cx_has_normal c) (cx_has_fin_timeout c) v (cx_mirrors c) (cx_odp_actions c)
    (cx_ml c) (cx_stp c) (cx_counters c) (cx_packet_ins c) (cx_svc c) (cx_trace c).
Definition set_mirrors (v : Z) (c : xlate_ctx) : xlate_ctx :=
  Ctx (cx_flow c) (cx_base_flow c) (cx_orig_tunnel_ip_dst c) (cx_stack c) (cx_rule c) (cx_recurse c)
    (cx_orig_skb_priority c) (cx_table_id c) (cx_sflow_n_outputs c) (cx_sflow_odp_port c)
    (cx_user_cookie_offset c) (cx_exit c) (cx_xbridge c) (cx_wc c) (cx_slow c) (cx_fail_open c)
    (cx_has_learn c) (cx_has_normal c) (cx_has_fin_timeout c) (cx_nf_output_iface c) v
    (cx_odp_actions c) (cx_ml c) (cx_stp c) (cx_counters c) (cx_packet_ins c) (cx_svc c)
    (cx_trace c).
Definition set_odp_actions (v : list odp_action) (c : xlate_ctx) : xlate_ctx :=
  Ctx (cx_flow c) (cx_base_flow c) (cx_orig_tunnel_ip_dst c) (cx_stack c) (cx_rule c) (cx_recurse c)
    (cx_orig_skb_priority c) (cx_table_id c) (cx_sflow_n_outputs c) (cx_sflow_odp_port c)
    (cx_user_cookie_offset c) (cx_exit c) (cx_xbridge c) (cx_wc c) (cx_slow c) (cx_fail_open c)
    (cx_has_learn c) (cx_has_normal c) (cx_has_fin_timeout c) (cx_nf_output_iface c) (cx_mirrors c)
    v (cx_ml c) (cx_stp c) (cx_counters c) (cx_packet_ins c) (cx_svc c) (cx_trace c).
Definition set_ml (v : gmap Z mac_learning) (c : xlate_ctx) : xlate_ctx :=
  Ctx (cx_flow c) (cx_base_flow c) (cx_orig_tunnel_ip_dst c) (cx_stack c) (cx_rule c) (cx_recurse c)
    (cx_orig_skb_priority c) (cx_table_id c) (cx_sflow_n_outputs c) (cx_sflow_odp_port c)
    (cx_user_cookie_offset c) (cx_exit c) (cx_xbridge c) (cx_wc c) (cx_slow c) (cx_fail_open c)
    (cx_has_learn c) (cx_has_normal c) (cx_has_fin_timeout c) (cx_nf_output_iface c) (cx_mirrors c)
    (cx_odp_actions c) v (cx_stp c) (cx_counters c) (cx_packet_ins c) (cx_svc c) (cx_trace c).
Definition set_stp (v : gmap Z stp) (c : xlate_ctx) : xlate_ctx :=
  Ctx (cx_flow c) (cx_base_flow c) (cx_orig_tunnel_ip_dst c) (cx_stack c) (cx_rule c) (cx_recurse c)
    (cx_orig_skb_priority c) (cx_table_id c) (cx_sflow_n_outputs c) (cx_sflow_odp_port c)
    (cx_user_cookie_offset c) (cx_exit c) (cx_xbridge c) (cx_wc c) (cx_slow c) (cx_fail_open c)
    (cx_has_learn c) (cx_has_normal c) (cx_has_fin_timeout c) (cx_nf_output_iface c) (cx_mirrors c)
    (cx_odp_actions c) (cx_ml c) v (cx_counters c) (cx_packet_ins c) (cx_svc c) (cx_trace c).
Definition set_counters (v : table_counters) (c : xlate_ctx) : xlate_ctx :=
  Ctx (cx_flow c) (cx_base_flow c) (cx_orig_tunnel_ip_dst c) (cx_stack c) (cx_rule c) (cx_recurse c)
    (cx_orig_skb_priority c) (cx_table_id c) (cx_sflow_n_outputs c) (cx_sflow_odp_port c)
    (cx_user_cookie_offset c) (cx_exit c) (cx_xbridge c) (cx_wc c) (cx_slow c) (cx_fail_open c)
    (cx_has_learn c) (cx_has_normal c) (cx_has_fin_timeout c) (cx_nf_output_iface c) (cx_mirrors c)
    (cx_odp_actions c) (cx_ml c) (cx_stp c) v (cx_packet_ins c) (cx_svc c) (cx_trace c).
Definition set_packet_ins (v : list packet_in) (c : xlate_ctx) : xlate_ctx :=
  Ctx (cx_flow c) (cx_base_flow c) (cx_orig_tunnel_ip_dst c) (cx_stack c) (cx_rule c) (cx_recurse c)
    (cx_orig_skb_priority c) (cx_table_id c) (cx_sflow_n_outputs c) (cx_sflow_odp_port c)
    (cx_user_cookie_offset c) (cx_exit c) (cx_xbridge c) (cx_wc c) (cx_slow c) (cx_fail_open c)
    (cx_has_learn c) (cx_has_normal c) (cx_has_fin_timeout c) (cx_nf_output_iface c) (cx_mirrors c)
    (cx_odp_actions c) (cx_ml c) (cx_stp c) (cx_counters c) v (cx_svc c) (cx_trace c).
Definition set_svc (v : svc) (c : xlate_ctx) : xlate_ctx :=
  Ctx (cx_flow c) (cx_base_flow c) (cx_orig_tunnel_ip_dst c) (cx_stack c) (cx_rule c) (cx_recurse c)
    (cx_orig_skb_priority c) (cx_table_id c) (cx_sflow_n_outputs c) (cx_sflow_odp_port c)
    (cx_user_cookie_offset c) (cx_exit c) (cx_xbridge c) (cx_wc c) (cx_slow c) (cx_fail_open c)
    (cx_has_learn c) (cx_has_normal c) (cx_has_fin_timeout c) (cx_nf_output_iface c) (cx_mirrors c)
    (cx_odp_actions c) (cx_ml c) (cx_stp c) (cx_counters c) (cx_packet_ins c) v (cx_trace c).
Definition set_trace (v : list (Z * Z)) (c : xlate_ctx) : xlate_ctx :=
  Ctx (cx_flow c) (cx_base_flow c) (cx_orig_tunnel_ip_dst c) (cx_stack c) (cx_rule c) (cx_recurse c)
    (cx_orig_skb_priority c) (cx_table_id c) (cx_sflow_n_outputs c) (cx_sflow_odp_port c)
    (cx_user_cookie_offset c) (cx_exit c) (cx_xbridge c) (cx_wc c) (cx_slow c) (cx_fail_open c)
    (cx_has_learn c) (cx_has_normal c) (cx_has_fin_timeout c) (cx_nf_output_iface c) (cx_mirrors c)
    (cx_odp_actions c) (cx_ml c) (cx_stp c) (cx_counters c) (cx_packet_ins c) (cx_svc c) v.

End ctx.

(** ** Translation steps

    A step changes the context and returns a value; [Abort] is a failed
    assertion, a null pointer or an endless search of the iterative multipath
    hash. *)
Inductive res (A : Type) := Ok (a : A) | Abort | OutOfFuel.
Arguments Ok {A}.
Arguments Abort {A}.
Arguments OutOfFuel {A}.

Definition xlate `{xlate_services} (A : Type) : Type := xlate_ctx → res (A * xlate_ctx).

#[global] Instance xlate_ret `{xlate_services} : MRet xlate := λ A a c, Ok (a, c).
#[global] Instance xlate_bind `{xlate_services} : MBind xlate := λ A B k m c,
  match m c with Ok (a, c') => k a c' | Abort => Abort | OutOfFuel => OutOfFuel end.

Section steps.
Context {Sv : xlate_services}.

Definition gets {A} (f : xlate_ctx → A) : xlate A := λ c, Ok (f c, c).
Definition modify (f : xlate_ctx → xlate_ctx) : xlate unit := λ c, Ok (tt, f c).
Definition abort {A} : xlate A := λ c, Abort.
Definition out_of_fuel {A} : xlate A := λ c, OutOfFuel.
Definition lift {A} (o : option A) : xlate A := match o with Some a => mret a | None => abort end.
Definition ovs_assert (b : bool) : xlate unit := if b then mret tt else abort.
Definition when (b : bool) (m : xlate unit) : xlate unit := if b then m else mret tt.

(** A loop over a list. *)
Fixpoint for_each {A} (f : A → xlate unit) (l : list A) : xlate unit :=
  match l with [] => mret tt | a :: l => _ ← f a; for_each f l end.

Definition mod_flow (f : flowf → flowf) : xlate unit := modify (λ c, set_flow (f (cx_flow c)) c).
Definition mod_wc (f : flowf → flowf) : xlate unit := modify (λ c, set_wc (f (cx_wc c)) c).
Definition mod_svc (f : svc → svc) : xlate unit := modify (λ c, set_svc (f (cx_svc c)) c).
Definition put_odp (acts : list odp_action) : xlate unit :=
  modify (λ c, set_odp_actions (cx_odp_actions c ++ acts) c).

End steps.
