(* ===== verification/Xlate.v ===== *)
(** * Translating OpenFlow actions (ofproto/ofproto-dpif-xlate.c, second part)

    The functions that turn the actions of flow table entries into datapath
    actions, as steps on [xlate_ctx].  A table lookup runs the actions of the
    entry it finds, which may look up tables again: the functions between
    [compose_output_action] and [do_xlate_actions] take the table lookup as
    the argument [table_action], and [xlate_table_action] ties the knot, with
    one unit of fuel per recursion level and one per table of a sequence of
    automatic resubmissions.  Log messages and the report and resubmit hooks
    are left out. *)
From stdpp Require Import gmap infinite.
From S2P Require Import Prelude Util ByteOrder Hash Hmap Bitmap MatchFields MetaFlow OdpActions NxActions.
From S2P Require Import TableCounters Learn Tunnel MacLearning Stp XlateConfig XlateCtx.

Definition MAX_RESUBMIT_RECURSION : Z := 256.
Definition N_TABLES : Z := 255.
Definition OFPUTIL_PC_NO_RECV : Z := 4.
Definition OFPUTIL_PC_NO_RECV_STP : Z := 8.
Definition OFPUTIL_PC_NO_FLOOD : Z := 16.
Definition OFPUTIL_PC_NO_FWD : Z := 32.
Definition OFPUTIL_PC_NO_PACKET_IN : Z := 64.
Definition NF_OUT_FLOOD : Z := 0xffff.
Definition NF_OUT_MULTI : Z := 0xfffe.
Definition NF_OUT_DROP : Z := 0xfffd.
Definition OFPR_ACTION : Z := 1.
Definition OFPR_INVALID_TTL : Z := 2.
Definition ETH_TYPE_CFM : Z := 0x8902.
Definition ETH_TYPE_LACP : Z := 0x8809.
Definition BFD_DEST_PORT : Z := 3784.
Definition DHCP_SERVER_PORT : Z := 67.
Definition DHCP_CLIENT_PORT : Z := 68.
Definition ARP_OP_REQUEST : Z := 1.
Definition ARP_OP_REPLY : Z := 2.
Definition ETH_HEADER_LEN : nat := 14.
Definition LLC_HEADER_LEN : nat := 3.

(** ** Pure helpers *)

Definition mac_bytes (ea : Z) : list Z := be_bytes 6 ea.

Definition eth_addr_is_broadcast (ea : Z) : bool := ea =? 2 ^ 48 - 1.

(** The nodes of the hash map of reserved addresses. *)
Definition reserved_addrs : list Z :=
  ((λ i, 0x0180c2000000 + Z.of_nat i) <$> seq 0 16)
  ++ [0x00e02b000000; 0x00e02b000004; 0x00e02b000006]
  ++ [0x01000c000000; 0x01000ccccccc; 0x01000ccccccd; 0x01000ccdcdcd]
  ++ ((λ i, 0x01000cccccc0 + Z.of_nat i) <$> seq 0 8).

Definition eth_addr_is_reserved (ea : Z) : bool := existsb (Z.eqb ea) reserved_addrs.

Definition is_gratuitous_arp (flow wc : flowf) : bool * flowf :=
  if negb (flow F_dl_type =? ETH_TYPE_ARP) then (false, wc)
  else
    let wc := unwildcard [F_dl_dst] wc in
    if negb (eth_addr_is_broadcast (flow F_dl_dst)) then (false, wc)
    else
      let wc := unwildcard [F_nw_proto] wc in
      if flow F_nw_proto =? ARP_OP_REPLY then (true, wc)
      else if flow F_nw_proto =? ARP_OP_REQUEST then
        (flow F_nw_src =? flow F_nw_dst, unwildcard [F_nw_src; F_nw_dst] wc)
      else (false, wc).

Definition netflow_mask_wc (flow wc : flowf) : flowf :=
  if negb (flow F_dl_type =? ETH_TYPE_IP) then wc
  else wc_or F_nw_tos IP_DSCP_MASK (unwildcard [F_nw_proto; F_nw_src; F_nw_dst; F_tp_src; F_tp_dst] wc).

Definition in_band_must_output_to_local_port (flow : flowf) : bool :=
  (flow F_dl_type =? ETH_TYPE_IP) && (flow F_nw_proto =? IPPROTO_UDP)
  && (flow F_tp_src =? DHCP_SERVER_PORT) && (flow F_tp_dst =? DHCP_CLIENT_PORT).

Definition cfm_should_process_flow (check_tnl_key : bool) (ccm_addr : Z) (flow wc : flowf) : bool * flowf :=
  let wc := unwildcard [F_dl_dst] wc in
  let wc := if check_tnl_key then unwildcard [F_tun_id] wc else wc in
  ((flow F_dl_type =? ETH_TYPE_CFM) && (flow F_dl_dst =? ccm_addr)
   && (negb check_tnl_key || (flow F_tun_id =? 0)), wc).

Definition bfd_should_process_flow (eth_dst : option Z) (check_tnl_key : bool) (flow wc : flowf) : bool * flowf :=
  let wc := unwildcard [F_dl_dst] wc in
  if match eth_dst with Some d => negb (d =? flow F_dl_dst) | None => false end then (false, wc)
  else
    let wc := unwildcard [F_nw_proto; F_tp_dst] wc in
    let wc := if check_tnl_key then unwildcard [F_tun_id] wc else wc in
    ((flow F_dl_type =? ETH_TYPE_IP) && (flow F_nw_proto =? IPPROTO_UDP) && (flow F_tp_dst =? BFD_DEST_PORT)
     && (negb check_tnl_key || (flow F_tun_id =? 0)), wc).

Definition stp_should_process_flow (flow wc : flowf) : bool * flowf :=
  (eth_addr_equals (mac_bytes (flow F_dl_dst)) eth_addr_stp, unwildcard [F_dl_dst] wc).

Definition choose_miss_rule (config : Z) (miss_rule no_packet_in_rule : rule_dpif) : rule_dpif :=
  if any_bit config OFPUTIL_PC_NO_PACKET_IN then no_packet_in_rule else miss_rule.

(** The frame that an output sends carries this TCI. *)
Definition output_tci (u : xbundle_cfg) (vid flow_tci : Z) : Z :=
  if negb (vid =? 0) || uc_use_priority_tags u then
    let tci := Z.lor vid (Z.land flow_tci VLAN_PCP_MASK) in
    if negb (tci =? 0) then Z.lor tci VLAN_CFI else tci
  else vid.

(** ** The registers of the egress tables (lib/simon.h) *)

Definition SIMON_OUTPUT_STATUS_REG : nat := 1.
Definition SIMON_REG (regs : nat → Z) (index : nat) (mask shift : Z) : Z := Z.shiftr (Z.land (regs index) mask) shift.
Definition SIMON_REG32 regs idx := SIMON_REG regs idx 0xffffffff 0.
Definition SIMON_REG16_HI regs idx := SIMON_REG regs idx 0xffff0000 8.
Definition SIMON_REG16_LO regs idx := SIMON_REG regs idx 0x0000ffff 0.
Definition SIMON_REG8_LO regs idx := SIMON_REG regs idx 0x000000ff 0.

(** The comparisons in the order of their result registers 2 to 15. *)
Definition egress_comparisons (flow : flowf) : list bool :=
  let regs i := flow (F_reg i) in
  let orig_dl_src := Z.lor (Z.shiftl (SIMON_REG16_HI regs 8) 32) (SIMON_REG32 regs 9) in
  let orig_dl_dst := Z.lor (Z.shiftl (SIMON_REG16_LO regs 8) 32) (SIMON_REG32 regs 10) in
  let orig_nw_src := SIMON_REG32 regs 12 in
  let orig_nw_dst := SIMON_REG32 regs 13 in
  let orig_tp_src := SIMON_REG16_LO regs 14 in
  let orig_tp_dst := SIMON_REG16_LO regs 15 in
  [SIMON_REG16_LO regs 7 =? flow F_dl_type;
   orig_dl_src =? flow F_dl_src; orig_dl_src =? flow F_dl_dst;
   orig_dl_dst =? flow F_dl_src; orig_dl_dst =? flow F_dl_dst;
   SIMON_REG8_LO regs 11 =? flow F_nw_proto;
   orig_nw_src =? flow F_nw_src; orig_nw_src =? flow F_nw_dst;
   orig_nw_dst =? flow F_nw_src; orig_nw_dst =? flow F_nw_dst;
   orig_tp_src =? flow F_tp_src; orig_tp_src =? flow F_tp_dst;
   orig_tp_dst =? flow F_tp_src; orig_tp_dst =? flow F_tp_dst].

Definition egress_compare (flow : flowf) : flowf :=
  foldl (λ fl '(i, b), upd (F_reg i) (if b : bool then 1 else 0) fl) flow
    (zip (seq 2 14) (egress_comparisons flow)).

Section xlate.
Context {Sv : xlate_services} {E : xlate_env}.

(** ** Ports and bundles *)

Definition port_at (a : Z) : xlate xport := lift (xc_ports e_cfg !! a).
Definition bridge_at (a : Z) : xlate xbridge := lift (xc_bridges e_cfg !! a).
Definition bundle_at (a : Z) : xlate xbundle := lift (xc_bundles e_cfg !! a).
Definition the_bridge : xlate xbridge := b ← gets cx_xbridge; bridge_at b.

(** The spanning tree of a port's bridge and the port's number in it. *)
Definition xport_get_stp_port (p : xport) : xlate (option (Z * nat)) :=
  b ← bridge_at (xp_xbridge p);
  match bc_stp (xb_cfg b) with
  | Some h =>
      if pc_stp_port_no (xp_cfg p) =? -1 then mret None
      else
        stps ← gets cx_stp;
        s ← lift (stps !! h);
        mret (pair h <$> stp_get_port s (pc_stp_port_no (xp_cfg p)))
  | None => mret None
  end.

Definition xport_stp_state (p : xport) : xlate stp_state :=
  sp ← xport_get_stp_port p;
  match sp with
  | Some (h, i) => stps ← gets cx_stp; s ← lift (stps !! h); mret (stp_port_get_state s i)
  | None => mret STP_DISABLED
  end.

Definition xport_stp_learn_state (p : xport) : xlate bool := st ← xport_stp_state p; mret (stp_learn_in_state st).
Definition xport_stp_forward_state (p : xport) : xlate bool := st ← xport_stp_state p; mret (stp_forward_in_state st).

(** The payload is trimmed to the length that the Ethernet type field says. *)
Definition stp_payload (packet : list Z) : option (list Z) :=
  let payload := take (Z.to_nat (ByteOrder.field packet 12 2) + ETH_HEADER_LEN)%nat packet in
  if (ETH_HEADER_LEN + LLC_HEADER_LEN <=? length payload)%nat
  then Some (drop (ETH_HEADER_LEN + LLC_HEADER_LEN)%nat payload) else None.

Definition stp_process_packet (p : xport) (packet : list Z) : xlate unit :=
  sp ← xport_get_stp_port p;
  st ← xport_stp_state p;
  match sp, stp_payload packet with
  | Some (h, i), Some bpdu =>
      when (negb (bool_decide (st = STP_DISABLED)))
        (modify (λ c, set_stp (alter (λ s, stp_received_bpdu s i bpdu) h (cx_stp c)) c))
  | _, _ => mret tt
  end.

(** A bundle is its key; [None] is [ofpp_none_bundle]. *)
Definition ofpp_none_bundle : xbundle_cfg := XbundleCfg None None PORT_VLAN_TRUNK 0 None false false.

Definition bundle_cfg (b : option Z) : xlate xbundle_cfg :=
  match b with Some b => u ← bundle_at b; mret (xu_cfg u) | None => mret ofpp_none_bundle end.

Definition xbundle_mirror_out (mb b : option Z) : Z := match b with Some b => sv_mirror_bundle_out mb b | None => 0 end.
Definition xbundle_mirror_src (mb b : option Z) : Z := match b with Some b => sv_mirror_bundle_src mb b | None => 0 end.
Definition xbundle_mirror_dst (mb b : option Z) : Z := match b with Some b => sv_mirror_bundle_dst mb b | None => 0 end.

(** The input bundle, if there is one, and the input port. *)
Definition lookup_input_bundle (b : xbridge) (in_port : Z) : xlate (option (option Z) * option Z) :=
  let a := get_ofp_port e_cfg b in_port in
  match a with
  | Some q =>
      p ← port_at q;
      match xp_xbundle p with
      | Some u => mret (Some (Some u), a)
      | None => mret (if in_port =? OFPP_NONE then Some None else None, a)
      end
  | None => mret (if in_port =? OFPP_NONE then Some None else None, a)
  end.

(** Whether the port lets the packet in. *)
Definition may_receive (p : xport) : xlate bool :=
  flow ← gets cx_flow;
  if any_bit (pc_config (xp_cfg p))
       (if eth_addr_equals (mac_bytes (flow F_dl_dst)) eth_addr_stp then OFPUTIL_PC_NO_RECV_STP else OFPUTIL_PC_NO_RECV)
  then mret false
  else
    fwd ← xport_stp_forward_state p;
    learn ← xport_stp_learn_state p;
    mret (fwd || learn).

(** ** Protocol packets *)

(** A decision on the flow that also adds to the wildcards. *)
Definition decide_wc (f : flowf → flowf → bool * flowf) : xlate bool :=
  r ← gets (λ c, f (cx_flow c) (cx_wc c));
  _ ← mod_wc (λ _, r.2);
  mret r.1.

(** Hands the packet, if there is one, to a protocol and returns its reason. *)
Definition hand_over (f : list Z → xlate unit) (reason : slow_path_reason) : xlate (option slow_path_reason) :=
  _ ← match xi_packet e_in with Some packet => f packet | None => mret tt end;
  mret (Some reason).

Definition process_stp (b : xbridge) (p : xport) : xlate (option slow_path_reason) :=
  match bc_stp (xb_cfg b) with
  | Some _ =>
      ok ← decide_wc stp_should_process_flow;
      if ok : bool then hand_over (stp_process_packet p) SLOW_STP else mret None
  | None => mret None
  end.

Definition process_lacp (b : xbridge) (a : Z) (p : xport) : xlate (option slow_path_reason) :=
  lacp ← match xp_xbundle p with Some u => u ← bundle_at u; mret (uc_lacp (xu_cfg u)) | None => mret None end;
  flow ← gets cx_flow;
  match lacp with
  | Some lacp =>
      if flow F_dl_type =? ETH_TYPE_LACP
      then hand_over (λ packet, mod_svc (λ s, sv_lacp_process_packet s lacp a packet)) SLOW_LACP
      else process_stp b p
  | None => process_stp b p
  end.

Definition process_bfd (b : xbridge) (a : Z) (p : xport) : xlate (option slow_path_reason) :=
  match pc_bfd (xp_cfg p) with
  | Some bfd =>
      s ← gets cx_svc;
      ok ← decide_wc (bfd_should_process_flow (sv_bfd_eth_dst s bfd) (sv_bfd_check_tnl_key s bfd));
      if ok : bool then
        flow ← gets cx_flow;
        hand_over (λ packet, mod_svc (λ s, sv_bfd_process_packet s bfd flow packet)) SLOW_BFD
      else process_lacp b a p
  | None => process_lacp b a p
  end.

Definition process_special (a : option Z) : xlate (option slow_path_reason) :=
  b ← the_bridge;
  match a with
  | None => mret None
  | Some a =>
      p ← port_at a;
      match pc_cfm (xp_cfg p) with
      | Some cfm =>
          s ← gets cx_svc;
          ok ← decide_wc (cfm_should_process_flow (sv_cfm_check_tnl_key s cfm) (sv_cfm_ccm_addr s cfm));
          if ok : bool
          then hand_over (λ packet, mod_svc (λ s, sv_cfm_process_heartbeat s cfm packet)) SLOW_CFM
          else process_bfd b a p
      | None => process_bfd b a p
      end
  end.

(** ** Sampling *)

Definition compose_sample_action (probability : Z) (cookie : user_action_cookie) : xlate unit :=
  b ← the_bridge;
  flow ← gets cx_flow;
  let odp_port := ofp_port_to_odp_port e_cfg b (flow F_in_port) in
  put_odp [ODP_SAMPLE probability (sv_port_get_pid (bc_dpif (xb_cfg b)) odp_port) cookie].

Definition compose_sflow_cookie (sflow vlan_tci odp_port n_outputs : Z) : user_action_cookie :=
  let many := Z.lor 0x80000000 n_outputs in
  COOKIE_SFLOW vlan_tci
    (if n_outputs =? 0 then Z.lor 0x40000000 256
     else if n_outputs =? 1 then
       let ifindex := sv_sflow_odp_port_to_ifindex sflow odp_port in if ifindex =? 0 then many else ifindex
     else many).

(** Returns whether an action was added. *)
Definition compose_sflow_action (odp_port : Z) : xlate bool :=
  b ← the_bridge;
  flow ← gets cx_flow;
  match bc_sflow (xb_cfg b) with
  | Some sflow =>
      if flow F_in_port =? OFPP_NONE then mret false
      else
        _ ← compose_sample_action (sv_sflow_get_probability sflow)
              (compose_sflow_cookie sflow 0 odp_port (if odp_port =? ODPP_NONE then 0 else 1));
        mret true
  | None => mret false
  end.

Definition compose_ipfix_action : xlate unit :=
  b ← the_bridge;
  flow ← gets cx_flow;
  match bc_ipfix (xb_cfg b) with
  | Some ipfix =>
      when (negb (flow F_in_port =? OFPP_NONE))
        (compose_sample_action (sv_ipfix_get_probability ipfix) COOKIE_IPFIX)
  | None => mret tt
  end.

Definition add_sflow_action : xlate unit :=
  added ← compose_sflow_action ODPP_NONE;
  modify (λ c, set_user_cookie_offset added (set_sflow_odp_port 0 (set_sflow_n_outputs 0 c))).

(** The cookie lies in the first action. *)
Definition fix_sflow_action : xlate unit :=
  fix_it ← gets cx_user_cookie_offset;
  when fix_it
    (acts ← gets cx_odp_actions;
     b ← the_bridge;
     sflow ← lift (bc_sflow (xb_cfg b));
     match acts with
     | ODP_SAMPLE probability pid (COOKIE_SFLOW _ _) :: acts =>
         modify (λ c, set_odp_actions
           (ODP_SAMPLE probability pid
              (compose_sflow_cookie sflow (cx_base_flow c F_vlan_tci) (cx_sflow_odp_port c) (cx_sflow_n_outputs c))
            :: acts) c)
     | _ => abort
     end).

(** ** Controllers *)

Definition commit_with (f : flowf → commit_state → commit_state) : xlate unit :=
  modify (λ c,
    let c' := f (cx_flow c) (Commit (cx_base_flow c) (cx_odp_actions c) (cx_wc c)) in
    set_base_flow (cm_base c') (set_odp_actions (cm_actions c') (set_wc (cm_wc c') c))).

Definition execute_controller_action (len reason controller_id : Z) : xlate unit :=
  slow ← gets cx_slow;
  _ ← ovs_assert (bool_decide (slow = None ∨ slow = Some SLOW_CONTROLLER));
  _ ← modify (set_slow (Some SLOW_CONTROLLER));
  match xi_packet e_in with
  | None => mret tt
  | Some packet =>
      _ ← commit_with commit_odp_actions;
      modify (λ c, set_packet_ins (cx_packet_ins c ++
        [PacketIn (cx_xbridge c) (sv_odp_execute_actions (cx_odp_actions c) packet) reason controller_id
           (cx_table_id c) (match cx_rule c with Some r => rl_flow_cookie r | None => 0 end) len (cx_flow c)]) c)
  end.

(** ** MPLS and time to live *)

Definition compose_mpls_push_action (eth_type : Z) : xlate unit :=
  _ ← ovs_assert (eth_type_mpls eth_type);
  _ ← mod_wc (unwildcard [F_mpls_lse; F_mpls_depth]);
  flow ← gets cx_flow;
  _ ← (if negb (flow F_mpls_depth =? 0) then
         mod_flow (λ fl, upd F_mpls_depth (u16 (fl F_mpls_depth + 1))
                           (upd F_mpls_lse (Z.ldiff (fl F_mpls_lse) MPLS_BOS_MASK) fl))
       else
         let label := if flow F_dl_type =? ETH_TYPE_IPV6 then 2 else 0 in
         _ ← mod_wc (wc_or F_nw_tos IP_DSCP_MASK);
         _ ← mod_wc (unwildcard [F_nw_ttl]);
         let tc := Z.shiftr (Z.land (flow F_nw_tos) IP_DSCP_MASK) 2 in
         let ttl := if flow F_nw_ttl =? 0 then 0x40 else flow F_nw_ttl in
         mod_flow (λ fl, upd F_mpls_depth 1 (upd F_mpls_lse (set_mpls_lse_values ttl tc 1 label) fl)));
  mod_flow (upd F_dl_type eth_type).

Definition compose_mpls_pop_action (eth_type : Z) : xlate unit :=
  flow ← gets cx_flow;
  _ ← ovs_assert (eth_type_mpls (flow F_dl_type));
  _ ← ovs_assert (negb (eth_type_mpls eth_type));
  _ ← mod_wc (unwildcard [F_mpls_lse; F_mpls_depth]);
  when (negb (flow F_mpls_depth =? 0))
    (mod_flow (λ fl,
       let fl := upd F_mpls_lse 0 (upd F_mpls_depth (fl F_mpls_depth - 1) fl) in
       if fl F_mpls_depth =? 0 then upd F_dl_type eth_type fl else fl)).

(** The result of these three is whether to stop. *)
Definition compose_dec_ttl (cnt_ids : list Z) : xlate bool :=
  flow ← gets cx_flow;
  if negb (is_ip_any flow) then mret false
  else
    _ ← mod_wc (unwildcard [F_nw_ttl]);
    if 1 <? flow F_nw_ttl then _ ← mod_flow (upd F_nw_ttl (flow F_nw_ttl - 1)); mret false
    else _ ← for_each (execute_controller_action 0xffff OFPR_INVALID_TTL) cnt_ids; mret true.

Definition compose_set_mpls_ttl_action (ttl : Z) : xlate bool :=
  flow ← gets cx_flow;
  if negb (eth_type_mpls (flow F_dl_type)) then mret true
  else
    _ ← mod_wc (wc_or F_mpls_lse MPLS_TTL_MASK);
    _ ← mod_flow (λ fl, flow_set_mpls_ttl fl ttl);
    mret false.

Definition compose_dec_mpls_ttl_action : xlate bool :=
  flow ← gets cx_flow;
  let ttl := mpls_lse_to_ttl (flow F_mpls_lse) in
  _ ← mod_wc (unwildcard [F_mpls_lse]);
  if negb (eth_type_mpls (flow F_dl_type)) then mret false
  else if 1 <? ttl then _ ← mod_flow (λ fl, flow_set_mpls_ttl fl (ttl - 1)); mret false
  else _ ← execute_controller_action 0xffff OFPR_INVALID_TTL 0; mret true.

(** ** Learning *)

Definition flow_mod_step (fm : ofputil_flow_mod) : xlate unit :=
  o ← gets cx_xbridge; mod_svc (λ s, sv_flow_mod s o fm).

(** Records that the actions learn and unwildcards the sources. *)
Definition learn_begin (specs : list ofpact_learn_spec) : xlate unit :=
  _ ← modify (set_has_learn true);
  wc ← gets cx_wc;
  wc ← lift (learn_mask specs wc);
  mod_wc (λ _, wc).

(** A flow to be learned on timeout leaves the modification uninitialised. *)
Definition xlate_learn_action (learn : ofpact_learn) : xlate unit :=
  _ ← learn_begin (ln_specs learn);
  when (xi_may_learn e_in)
    (flow ← gets cx_flow;
     fm ← lift (mjoin (learn_execute learn flow));
     flow_mod_step fm).

Definition xlate_learn_learn_action (learn : ofpact_learn_learn) (ofpacts : list ofpact) : xlate unit :=
  _ ← learn_begin (ln_specs (ll_learn learn));
  when (xi_may_learn e_in)
    (fm ← gets (λ c, learn_learn_execute learn ofpacts (cx_flow c) (cx_table_id c) (cx_counters c));
     fm ← lift fm;
     flow_mod_step fm).

Definition xlate_learn_delete_action (learn : ofpact_learn_delete) : xlate unit :=
  _ ← learn_begin (ld_specs learn);
  when (xi_may_learn e_in)
    (fm ← gets (λ c, learn_delete_execute learn (cx_flow c) (cx_table_id c) (cx_counters c));
     fm ← lift fm;
     flow_mod_step fm).

Definition xlate_increment_table_id_action (counter_spec : Z) : xlate unit :=
  _ ← modify (λ c, set_slow (Some SLOW_CONTROLLER) (set_has_learn true c));
  when (xi_may_increment e_in)
    (modify (λ c, set_counters (increment_table_id_execute counter_spec (cx_counters c)).2 c)).

Definition xlate_fin_timeout (fin_idle_timeout fin_hard_timeout : Z) : xlate unit :=
  rule ← gets cx_rule;
  match rule with
  | Some r =>
      when (any_bit (xi_tcp_flags e_in) 5)
        (mod_svc (λ s, sv_reduce_timeouts s r fin_idle_timeout fin_hard_timeout))
  | None => mret tt
  end.

Definition xlate_sample_action (probability collector_set_id obs_domain_id obs_point_id : Z) : xlate unit :=
  _ ← commit_with commit_odp_actions;
  compose_sample_action (Z.lor (u32 (Z.shiftl probability 16)) probability)
    (COOKIE_FLOW_SAMPLE probability collector_set_id obs_domain_id obs_point_id).

Definition xlate_set_queue_action (queue_id : Z) : xlate unit :=
  b ← the_bridge;
  match sv_queue_to_priority (bc_dpif (xb_cfg b)) queue_id with
  | Some skb_priority => mod_flow (upd F_skb_priority skb_priority)
  | None => mret tt
  end.

Definition slave_enabled_cb (b : xbridge) (ofp_port : Z) : bool :=
  if bool_decide (ofp_port ∈ [OFPP_IN_PORT; OFPP_TABLE; OFPP_EGRESS; OFPP_NORMAL; OFPP_FLOOD; OFPP_ALL; OFPP_NONE])
  then true
  else if ofp_port =? OFPP_CONTROLLER then false
  else match get_ofp_port e_cfg b ofp_port ≫= λ a, xc_ports e_cfg !! a with
       | Some p => pc_may_enable (xp_cfg p)
       | None => false
       end.

(** ** Flow tables *)

Definition rule_dpif_lookup_in_table (ofproto table_id : Z) (s : svc) (flow wc : flowf) : option rule_dpif * flowf :=
  if N_TABLES <=? table_id then (None, wc)
  else
    let wc := wc_or F_nw_frag FLOW_NW_FRAG_MASK (unwildcard [F_dl_type] wc) in
    let frag := any_bit (flow F_nw_frag) FLOW_NW_FRAG_ANY in
    match sv_frag_handling ofproto with
    | OFPC_FRAG_NORMAL =>
        sv_classifier_lookup s ofproto table_id (if frag then upd F_tp_dst 0 (upd F_tp_src 0 flow) else flow) wc
    | OFPC_FRAG_DROP =>
        if frag then (Some (sv_drop_frags_rule ofproto), all_ones)
        else sv_classifier_lookup s ofproto table_id flow wc
    | _ => sv_classifier_lookup s ofproto table_id flow wc
    end.

Definition rule_dpif_lookup (ofproto : Z) (s : svc) (flow wc : flowf) : rule_dpif * flowf :=
  let '(rule, wc) := rule_dpif_lookup_in_table ofproto 0 s flow wc in
  (match rule with
   | Some rule => rule
   | None => choose_miss_rule (default 0 (sv_port_config ofproto (flow F_in_port)))
               (sv_miss_rule ofproto) (sv_no_packet_in_rule ofproto)
   end, wc).

(** The lookup of a table action: with [in_port] as the input port. *)
Definition lookup_step (in_port table_id : Z) : xlate (option rule_dpif) :=
  r ← gets (λ c, rule_dpif_lookup_in_table (cx_xbridge c) table_id (cx_svc c)
                   (upd F_in_port in_port (cx_flow c)) (cx_wc c));
  _ ← mod_wc (λ _, r.2);
  _ ← modify (λ c, set_trace (cx_trace c ++ [(cx_recurse c, table_id)]) c);
  mret r.1.

(** The rule for a miss in the production tables. *)
Definition miss_step (table_id : Z) (may_packet_in : bool) (rule : option rule_dpif) : xlate (option rule_dpif) :=
  match rule with
  | Some _ => mret rule
  | None =>
      if may_packet_in && TABLE_IS_PRODUCTION table_id then
        b ← the_bridge;
        flow ← gets cx_flow;
        let config := match get_ofp_port e_cfg b (flow F_in_port) ≫= λ a, xc_ports e_cfg !! a with
                      | Some p => pc_config (xp_cfg p)
                      | None => 0
                      end in
        mret (Some (choose_miss_rule config (bc_miss_rule (xb_cfg b)) (bc_no_packet_in_rule (xb_cfg b))))
      else mret None
  end.

(** The first part of [xlate_table_action]. *)
Definition table_enter (in_port table_id : Z) (may_packet_in : bool) : xlate (option rule_dpif) :=
  _ ← modify (set_table_id table_id);
  _ ← when (table_id =? SIMON_TABLE_EGRESS_START) (mod_flow egress_compare);
  rule ← lookup_step in_port table_id;
  miss_step table_id may_packet_in rule.

(** The next table of the automatic resubmission. *)
Definition next_table (table_id : Z) (counters : table_counters) : option Z :=
  if TABLE_IS_INGRESS table_id then
    Some (if table_id <? get_table_counter_by_id table_id counters then table_id + 1
          else SIMON_TABLE_PRODUCTION_START)
  else if TABLE_IS_PRODUCTION table_id then None
  else if TABLE_IS_EGRESS table_id then
    if table_id - SIMON_TABLE_EGRESS_START <? get_table_counter_by_id table_id counters
    then Some (table_id + 1) else None
  else None.

(** [xlate_recursively], with [do_xlate_actions] as an argument. *)
Definition xlate_recursively (do_actions : list ofpact → xlate unit) (rule : rule_dpif) : xlate unit :=
  old_rule ← gets cx_rule;
  _ ← when (xi_resubmit_stats e_in) (mod_svc (λ s, sv_credit_stats s rule));
  _ ← modify (λ c, set_rule (Some rule) (set_recurse (cx_recurse c + 1) c));
  _ ← do_actions (rl_actions rule);
  modify (λ c, set_recurse (cx_recurse c - 1) (set_rule old_rule c)).

(** [xlate_table_action] with its two recursive calls as arguments: the
    actions of the rule, and the automatic resubmission. *)
Definition table_action_body (do_actions : list ofpact → xlate unit) (next : Z → Z → bool → xlate unit)
    (in_port table_id : Z) (may_packet_in : bool) : xlate unit :=
  recurse ← gets cx_recurse;
  when (recurse <? MAX_RESUBMIT_RECURSION)
    (old_table_id ← gets cx_table_id;
     rule ← table_enter in_port table_id may_packet_in;
     _ ← match rule with Some rule => xlate_recursively do_actions rule | None => mret tt end;
     counters ← gets cx_counters;
     _ ← match next_table table_id counters with
         | Some t => next in_port t may_packet_in
         | None => mret tt
         end;
     modify (set_table_id old_table_id)).

(** ** Output *)

Section actions.
Context (table_action : Z → Z → bool → xlate unit).

(** The packet enters the bridge of the port [q], known as [peer]. *)
Definition receive_from_peer (peer : Z) (q : xport) : xlate unit :=
  _ ← mod_flow (set_fields ([(F_in_port, xp_ofp_port q); (F_metadata, 0)]
                  ++ ((λ f, (f, 0)) <$> tunnel_fields) ++ ((λ i, (F_reg i, 0)) <$> seq 0 FLOW_N_REGS)));
  special ← process_special (Some peer);
  match special with
  | Some reason => modify (set_slow (Some reason))
  | None =>
      receive ← may_receive q;
      when receive
        (fwd ← xport_stp_forward_state q;
         if fwd : bool then table_action (xp_ofp_port q) 0 true
         else
           old ← gets id;
           _ ← table_action (xp_ofp_port q) 0 true;
           modify (λ c, set_mirrors (cx_mirrors old) (set_base_flow (cx_base_flow old)
             (set_odp_actions (take (length (cx_odp_actions old)) (cx_odp_actions c)) c))))
  end.

(** Output to a patch port. *)
Definition output_to_peer (p : xport) (peer : Z) : xlate unit :=
  q ← port_at peer;
  old_flow ← gets cx_flow;
  _ ← modify (set_xbridge (xp_xbridge q));
  _ ← receive_from_peer peer q;
  _ ← modify (λ c, set_xbridge (xp_xbridge p) (set_flow old_flow c));
  when (xi_resubmit_stats e_in)
    (mod_svc (λ s, sv_vport_inc_rx (sv_vport_inc_tx s (pc_netdev (xp_cfg p))) (pc_netdev (xp_cfg q)))).

(** The datapath port to output to, if any, and the port for sFlow.  [None]
    leaves the tunnel metadata changed. *)
Definition output_port_tunnel (a : Z) (p : xport) : xlate (option (Z * Z)) :=
  flow_tnl ← gets cx_flow;
  r ← gets (λ c, tnl_port_send e_tnl a (cx_flow c) (cx_wc c));
  let '(odp_port, flow, wc) := r in
  _ ← modify (λ c, set_flow flow (set_wc wc c));
  orig ← gets cx_orig_tunnel_ip_dst;
  if odp_port =? ODPP_NONE then mret None
  else if flow F_tun_dst =? orig then mret None
  else
    _ ← when (xi_resubmit_stats e_in) (mod_svc (λ s, sv_vport_inc_tx s (pc_netdev (xp_cfg p))));
    _ ← commit_with commit_odp_tunnel_action;
    _ ← mod_flow (set_fields ((λ f, (f, flow_tnl f)) <$> tunnel_fields));
    mret (Some (odp_port, odp_port)).

Definition output_port_plain (p : xport) (ofp_port : Z) : xlate (option (Z * Z)) :=
  o ← gets cx_xbridge;
  b ← the_bridge;
  let odp_port := pc_odp_port (xp_cfg p) in
  _ ← when (sv_has_vlan_splinters o) (mod_wc (wc_or F_vlan_tci (Z.lor VLAN_VID_MASK VLAN_CFI)));
  flow ← gets cx_flow;
  let vlandev_port := sv_vsp_realdev_to_vlandev o ofp_port (flow F_vlan_tci) in
  if vlandev_port =? ofp_port then mret (Some (odp_port, odp_port))
  else
    _ ← mod_flow (upd F_vlan_tci 0);
    mret (Some (ofp_port_to_odp_port e_cfg b vlandev_port, odp_port)).

Definition output_to_datapath (a : Z) (p : xport) (ofp_port : Z) : xlate unit :=
  old ← gets cx_flow;
  _ ← match get_skb_priority p (old F_skb_priority) with
      | Some dscp =>
          _ ← mod_wc (wc_or F_nw_tos IP_ECN_MASK);
          mod_flow (λ fl, upd F_nw_tos (Z.lor (Z.ldiff (fl F_nw_tos) IP_DSCP_MASK) dscp) fl)
      | None => mret tt
      end;
  r ← (if pc_is_tunnel (xp_cfg p) then output_port_tunnel a p else output_port_plain p ofp_port);
  _ ← match r with
      | Some (out_port, odp_port) =>
          when (negb (out_port =? ODPP_NONE))
            (_ ← commit_with commit_odp_actions;
             _ ← put_odp [ODP_OUTPUT out_port];
             modify (λ c, set_sflow_odp_port odp_port (set_sflow_n_outputs (u32 (cx_sflow_n_outputs c + 1))
                            (set_nf_output_iface ofp_port c))))
      | None => mret tt
      end;
  mod_flow (set_fields ((λ f, (f, old f)) <$> [F_vlan_tci; F_pkt_mark; F_nw_tos])).

Definition compose_output_action__ (ofp_port : Z) (check_stp : bool) : xlate unit :=
  b ← the_bridge;
  match get_ofp_port e_cfg b ofp_port with
  | None => mret tt
  | Some a =>
      p ← port_at a;
      if any_bit (pc_config (xp_cfg p)) OFPUTIL_PC_NO_FWD then mret tt
      else
        fwd ← (if check_stp then xport_stp_forward_state p else mret true);
        when fwd
          (_ ← (if sv_has_mirrors (bc_mbridge (xb_cfg b)) then
                  match xp_xbundle p with
                  | Some u =>
                      u' ← bundle_at u;
                      b' ← bridge_at (xu_xbridge u');
                      modify (λ c, set_mirrors
                        (Z.lor (cx_mirrors c) (xbundle_mirror_dst (bc_mbridge (xb_cfg b')) (Some u))) c)
                  | None => mret tt
                  end
                else mret tt);
           match xp_peer p with
           | Some peer => output_to_peer p peer
           | None => output_to_datapath a p ofp_port
           end)
  end.

Definition compose_output_action (ofp_port : Z) : xlate unit := compose_output_action__ ofp_port true.

(** ** Normal forwarding *)

Definition output_normal (out_xbundle vlan : Z) : xlate unit :=
  u ← bundle_at out_xbundle;
  let vid := output_vlan_to_vid (xu_cfg u) vlan in
  match xu_xports u with
  | [] => mret tt
  | front :: _ =>
      a ← match uc_bond (xu_cfg u) with
          | None => mret (Some front)
          | Some bond =>
              r ← gets (λ c, sv_bond_choose_output_slave (cx_svc c) bond (cx_flow c) (cx_wc c) vid);
              let '(s, wc, ofport) := r in
              _ ← modify (λ c, set_svc s (set_wc wc c));
              mret (q ← ofport; _ ← xc_ports e_cfg !! q; Some q)
          end;
      match a with
      | None => mret tt
      | Some a =>
          p ← port_at a;
          flow ← gets cx_flow;
          let old_tci := flow F_vlan_tci in
          _ ← mod_flow (upd F_vlan_tci (output_tci (xu_cfg u) vid old_tci));
          _ ← compose_output_action (xp_ofp_port p);
          mod_flow (upd F_vlan_tci old_tci)
      end
  end.

Definition the_ml : xlate mac_learning :=
  b ← the_bridge; mls ← gets cx_ml; lift (mls !! bc_ml (xb_cfg b)).

Definition put_ml (ml : mac_learning) : xlate unit :=
  b ← the_bridge; modify (λ c, set_ml (<[bc_ml (xb_cfg b) := ml]> (cx_ml c)) c).

Definition is_mac_learning_update_needed (vlan in_xbundle : Z) : xlate bool :=
  ml ← the_ml;
  u ← bundle_at in_xbundle;
  flow ← gets cx_flow;
  let src := mac_bytes (flow F_dl_src) in
  if negb (mac_learning_may_learn (Some ml) src vlan) then mret false
  else
    mac ← lift (mac_learning_lookup ml src vlan);
    match mac ≫= λ a, ml_entries ml !! a with
    | None => mret true
    | Some mac =>
        if negb (mac_entry_age e_now ml mac =? 0) then mret true
        else
          grat ← decide_wc is_gratuitous_arp;
          if grat && bool_decide (uc_bond (xu_cfg u) = None) then mret true
          else if grat && mac_entry_is_grat_arp_locked e_now mac then mret false
          else mret (negb (bool_decide (me_port mac = Some in_xbundle)))
    end.

Definition update_learning_table__ (vlan in_xbundle : Z) : xlate unit :=
  ml ← the_ml;
  u ← bundle_at in_xbundle;
  flow ← gets cx_flow;
  let src := mac_bytes (flow F_dl_src) in
  when (mac_learning_may_learn (Some ml) src vlan)
    (r ← lift (mac_learning_insert ml e_now (fresh (dom (ml_entries ml) : gset Z)) src vlan);
     let '(ml, a) := r in
     mac ← lift (ml_entries ml !! a);
     grat ← decide_wc is_gratuitous_arp;
     if grat && negb (bool_decide (uc_bond (xu_cfg u) = None)) && mac_entry_is_grat_arp_locked e_now mac
     then put_ml ml
     else
       let ml := if grat && bool_decide (uc_bond (xu_cfg u) = None)
                 then with_entries ml (alter (mac_entry_set_grat_arp_lock e_now) a (ml_entries ml)) else ml in
       put_ml (if bool_decide (me_port mac = Some in_xbundle) then ml
               else mac_learning_changed
                      (with_entries ml (alter (λ e, with_port e (Some in_xbundle)) a (ml_entries ml))))).

Definition update_learning_table (vlan : Z) (in_xbundle : option Z) : xlate unit :=
  match in_xbundle with
  | None => mret tt
  | Some u =>
      need_update ← is_mac_learning_update_needed vlan u;
      when need_update (update_learning_table__ vlan u)
  end.

Definition is_admissible (in_port vlan : Z) : xlate bool :=
  b ← the_bridge;
  flow ← gets cx_flow;
  if negb (bc_forward_bpdu (xb_cfg b)) && eth_addr_is_reserved (flow F_dl_dst) then mret false
  else
    p ← port_at in_port;
    in_xbundle ← lift (xp_xbundle p);
    u ← bundle_at in_xbundle;
    match uc_bond (xu_cfg u) with
    | None => mret true
    | Some bond =>
        s ← gets cx_svc;
        match sv_bond_check_admissibility s bond in_port (flow F_dl_dst) with
        | BV_ACCEPT => mret true
        | BV_DROP => mret false
        | BV_DROP_IF_MOVED =>
            ml ← the_ml;
            mac ← lift (mac_learning_lookup ml (mac_bytes (flow F_dl_src)) vlan);
            match mac ≫= λ a, ml_entries ml !! a with
            | Some mac =>
                if bool_decide (me_port mac = Some in_xbundle) then mret true
                else
                  grat ← decide_wc is_gratuitous_arp;
                  mret (grat && negb (mac_entry_is_grat_arp_locked e_now mac))
            | None => mret true
            end
        end
    end.

(** The bundles of the bridge that flooding sends to. *)
Definition floods_to (mb : option Z) (in_xbundle : option Z) (vlan u : Z) : xlate bool :=
  u' ← bundle_at u;
  mret (negb (bool_decide (in_xbundle = Some u)) && xbundle_includes_vlan (xu_cfg u') vlan
        && uc_floodable (xu_cfg u') && (xbundle_mirror_out mb (Some u) =? 0)).

Definition forward_normal (in_xbundle : option Z) (vlan : Z) : xlate unit :=
  b ← the_bridge;
  ml ← the_ml;
  flow ← gets cx_flow;
  mac ← lift (mac_learning_lookup ml (mac_bytes (flow F_dl_dst)) vlan);
  match mac ≫= λ a, ml_entries ml !! a ≫= me_port with
  | Some mac_port =>
      if bool_decide (is_Some (xc_bundles e_cfg !! mac_port) ∧ in_xbundle ≠ Some mac_port)
      then output_normal mac_port vlan else mret tt
  | None =>
      _ ← for_each (λ u,
            out ← floods_to (bc_mbridge (xb_cfg b)) in_xbundle vlan u;
            when out (output_normal u vlan)) (xb_xbundles b);
      modify (set_nf_output_iface NF_OUT_FLOOD)
  end.

Definition xlate_normal : xlate unit :=
  _ ← modify (set_has_normal true);
  _ ← mod_wc (unwildcard [F_dl_src; F_dl_dst]);
  _ ← mod_wc (wc_or F_vlan_tci (Z.lor VLAN_VID_MASK VLAN_CFI));
  b ← the_bridge;
  flow ← gets cx_flow;
  r ← lookup_input_bundle b (flow F_in_port);
  match r.1 with
  | None => mret tt
  | Some in_xbundle =>
      if (flow F_dl_type =? ETH_TYPE_VLAN) && negb (any_bit (flow F_vlan_tci) VLAN_CFI) then mret tt
      else if negb (xbundle_mirror_out (bc_mbridge (xb_cfg b)) in_xbundle =? 0) then mret tt
      else
        u ← bundle_cfg in_xbundle;
        let vid := vlan_tci_to_vid (flow F_vlan_tci) in
        if negb (input_vid_is_valid vid u) then mret tt
        else
          let vlan := input_vid_to_vlan u vid in
          ok ← match r.2 with Some in_port => is_admissible in_port vlan | None => mret true end;
          when ok
            (_ ← when (xi_may_learn e_in) (update_learning_table vlan in_xbundle);
             forward_normal in_xbundle vlan)
  end.

(** ** Mirrors *)

Fixpoint mirror_loop (fuel : nat) (mb : option Z) (xbundles : list Z) (dl_dst vlan mirrors : Z) : xlate unit :=
  if mirrors =? 0 then mret tt
  else
    match fuel with
    | O => out_of_fuel
    | S fuel =>
        r ← lift (sv_mirror_get mb (ctz mirrors));
        let '(vlans, dup_mirrors, out, out_vlan) := r in
        _ ← when (bool_decide (is_Some vlans)) (mod_wc (wc_or F_vlan_tci (Z.lor VLAN_CFI VLAN_VID_MASK)));
        if match vlans with Some v => negb (bitmap_is_set v (Z.to_nat vlan)) | None => false end then
          mirror_loop fuel mb xbundles dl_dst vlan (zero_rightmost_1bit mirrors)
        else
          _ ← modify (λ c, set_mirrors (Z.lor (cx_mirrors c) dup_mirrors) c);
          _ ← match out with
              | Some out => when (bool_decide (is_Some (xc_bundles e_cfg !! out))) (output_normal out vlan)
              | None =>
                  when (negb (vlan =? out_vlan) && negb (eth_addr_is_reserved dl_dst))
                    (for_each (λ u,
                       u' ← bundle_at u;
                       when (xbundle_includes_vlan (xu_cfg u') out_vlan && (xbundle_mirror_out mb (Some u) =? 0))
                         (output_normal u out_vlan)) xbundles)
              end;
          mirror_loop fuel mb xbundles dl_dst vlan (Z.ldiff mirrors dup_mirrors)
    end.

(** There are at most 32 mirrors, and each round removes one at least. *)
Definition add_mirror_actions (orig_flow : flowf) : xlate unit :=
  b ← the_bridge;
  mirrors ← gets cx_mirrors;
  _ ← modify (set_mirrors 0);
  r ← lookup_input_bundle b (orig_flow F_in_port);
  match r.1 with
  | None => mret tt
  | Some in_xbundle =>
      let mb := bc_mbridge (xb_cfg b) in
      let mirrors := Z.lor mirrors (xbundle_mirror_src mb in_xbundle) in
      if negb (xbundle_mirror_out mb in_xbundle =? 0) then modify (set_odp_actions [])
      else
        u ← bundle_cfg in_xbundle;
        let vid := vlan_tci_to_vid (orig_flow F_vlan_tci) in
        when (input_vid_is_valid vid u && negb (mirrors =? 0))
          (_ ← mod_flow (λ _, orig_flow);
           mirror_loop 32 mb (xb_xbundles b) (orig_flow F_dl_dst) (input_vid_to_vlan u vid) mirrors)
  end.

(** ** Output actions *)

Definition flood_packets (all : bool) : xlate unit :=
  b ← the_bridge;
  _ ← for_each (λ a,
        p ← port_at a;
        flow ← gets cx_flow;
        if xp_ofp_port p =? flow F_in_port then mret tt
        else if all then compose_output_action__ (xp_ofp_port p) false
        else when (negb (any_bit (pc_config (xp_cfg p)) OFPUTIL_PC_NO_FLOOD)) (compose_output_action (xp_ofp_port p)))
      (hmap_for_each (xb_xports b));
  modify (set_nf_output_iface NF_OUT_FLOOD).

(** The NetFlow output interface after an output action. *)
Definition nf_merge (prev now : Z) : Z :=
  if prev =? NF_OUT_FLOOD then NF_OUT_FLOOD
  else if now =? NF_OUT_DROP then prev
  else if negb (prev =? NF_OUT_DROP) && negb (now =? NF_OUT_FLOOD) then NF_OUT_MULTI
  else now.

Definition xlate_output_action (port max_len : Z) (may_packet_in : bool) : xlate unit :=
  prev ← gets cx_nf_output_iface;
  _ ← modify (set_nf_output_iface NF_OUT_DROP);
  in_port ← gets (λ c, cx_flow c F_in_port);
  _ ← (if port =? OFPP_IN_PORT then compose_output_action in_port
       else if port =? OFPP_TABLE then table_action in_port 0 may_packet_in
       else if port =? OFPP_EGRESS then table_action in_port SIMON_TABLE_EGRESS_START may_packet_in
       else if port =? OFPP_NORMAL then xlate_normal
       else if port =? OFPP_FLOOD then flood_packets false
       else if port =? OFPP_ALL then flood_packets true
       else if port =? OFPP_CONTROLLER then execute_controller_action max_len OFPR_ACTION 0
       else if port =? OFPP_NONE then mret tt
       else when (negb (port =? in_port)) (compose_output_action port));
  modify (λ c, set_nf_output_iface (nf_merge prev (cx_nf_output_iface c)) c).

Definition xlate_output_reg_action (src : mf_subfield) (max_len : Z) : xlate unit :=
  flow ← gets cx_flow;
  let port := mf_get_subfield src flow in
  when (port <=? 0xffff)
    (_ ← mod_wc (mf_unwild src);
     xlate_output_action port max_len false).

Definition xlate_enqueue_action (port queue : Z) : xlate unit :=
  b ← the_bridge;
  flow ← gets cx_flow;
  match sv_queue_to_priority (bc_dpif (xb_cfg b)) queue with
  | None => xlate_output_action port 0 false
  | Some priority =>
      if negb (port =? OFPP_IN_PORT) && (port =? flow F_in_port) then mret tt
      else
        let ofp_port := if port =? OFPP_IN_PORT then flow F_in_port else port in
        _ ← mod_flow (upd F_skb_priority priority);
        _ ← compose_output_action ofp_port;
        _ ← mod_flow (upd F_skb_priority (flow F_skb_priority));
        modify (λ c, set_nf_output_iface
          (if cx_nf_output_iface c =? NF_OUT_DROP then ofp_port
           else if negb (cx_nf_output_iface c =? NF_OUT_FLOOD) then NF_OUT_MULTI
           else cx_nf_output_iface c) c)
  end.

Definition xlate_bundle_action (bundle : ofpact_bundle) : xlate unit :=
  b ← the_bridge;
  r ← gets (λ c, bundle_execute bundle (cx_flow c) (cx_wc c) (slave_enabled_cb b));
  _ ← mod_wc (λ _, r.2);
  match bd_dst bundle with
  | Some dst => modify (λ c, let '(fl, wc) := nxm_reg_load dst r.1 (cx_flow c) (cx_wc c) in set_flow fl (set_wc wc c))
  | None => xlate_output_action r.1 0 false
  end.

Definition xlate_ofpact_resubmit (in_port table_id : Z) : xlate unit :=
  flow ← gets cx_flow;
  t ← gets cx_table_id;
  table_action (if in_port =? OFPP_IN_PORT then flow F_in_port else in_port)
    (if table_id =? 255 then t else table_id) false.

(** ** Actions *)

(** [flow->f = v] after adding [mask] to the wildcards of [f]. *)
Definition set_field_wc (f : field) (mask : flowf → flowf) (v : flowf → Z) : xlate unit :=
  _ ← mod_wc mask; mod_flow (λ fl, upd f (v fl) fl).

(** One action; the result is whether the function returns. *)
Definition do_xlate_action (a : ofpact) : xlate bool :=
  let go (m : xlate unit) : xlate bool := _ ← m; mret false in
  let keep (cond : flowf → bool) (f : field) (v : Z) (fl : flowf) : Z := if cond fl then v else fl f in
  match a with
  | OFPACT_OUTPUT port max_len => go (xlate_output_action port max_len true)
  | OFPACT_CONTROLLER max_len controller_id reason => go (execute_controller_action max_len reason controller_id)
  | OFPACT_ENQUEUE port queue => go (xlate_enqueue_action port queue)
  | OFPACT_SET_VLAN_VID vlan_vid =>
      go (set_field_wc F_vlan_tci (wc_or F_vlan_tci (Z.lor VLAN_VID_MASK VLAN_CFI))
            (λ fl, Z.lor (Z.ldiff (fl F_vlan_tci) VLAN_VID_MASK) (Z.lor vlan_vid VLAN_CFI)))
  | OFPACT_SET_VLAN_PCP vlan_pcp =>
      go (set_field_wc F_vlan_tci (wc_or F_vlan_tci (Z.lor VLAN_PCP_MASK VLAN_CFI))
            (λ fl, Z.lor (Z.ldiff (fl F_vlan_tci) VLAN_PCP_MASK)
                     (u16 (Z.lor (Z.shiftl vlan_pcp VLAN_PCP_SHIFT) VLAN_CFI))))
  | OFPACT_STRIP_VLAN => go (set_field_wc F_vlan_tci (unwildcard [F_vlan_tci]) (λ _, 0))
  | OFPACT_PUSH_VLAN => go (set_field_wc F_vlan_tci (unwildcard [F_vlan_tci]) (λ _, VLAN_CFI))
  | OFPACT_SET_ETH_SRC mac => go (set_field_wc F_dl_src (unwildcard [F_dl_src]) (λ _, mac))
  | OFPACT_SET_ETH_DST mac => go (set_field_wc F_dl_dst (unwildcard [F_dl_dst]) (λ _, mac))
  | OFPACT_SET_IPV4_SRC ipv4 =>
      go (set_field_wc F_nw_src (unwildcard [F_nw_src]) (keep (λ fl, fl F_dl_type =? ETH_TYPE_IP) F_nw_src ipv4))
  | OFPACT_SET_IPV4_DST ipv4 =>
      go (set_field_wc F_nw_dst (unwildcard [F_nw_dst]) (keep (λ fl, fl F_dl_type =? ETH_TYPE_IP) F_nw_dst ipv4))
  | OFPACT_SET_IPV4_DSCP dscp =>
      go (set_field_wc F_nw_tos (wc_or F_nw_tos IP_DSCP_MASK)
            (λ fl, if fl F_dl_type =? ETH_TYPE_IP then Z.lor (Z.ldiff (fl F_nw_tos) IP_DSCP_MASK) dscp
                   else fl F_nw_tos))
  | OFPACT_SET_L4_SRC_PORT port =>
      go (set_field_wc F_tp_src (unwildcard [F_nw_proto; F_tp_src]) (keep is_ip_any F_tp_src port))
  | OFPACT_SET_L4_DST_PORT port =>
      go (set_field_wc F_tp_dst (unwildcard [F_nw_proto; F_tp_dst]) (keep is_ip_any F_tp_dst port))
  | OFPACT_RESUBMIT in_port table_id => go (xlate_ofpact_resubmit in_port table_id)
  | OFPACT_SET_TUNNEL tun_id => go (mod_flow (upd F_tun_id tun_id))
  | OFPACT_SET_QUEUE queue_id => go (xlate_set_queue_action queue_id)
  | OFPACT_POP_QUEUE => go (modify (λ c, set_flow (upd F_skb_priority (cx_orig_skb_priority c) (cx_flow c)) c))
  | OFPACT_REG_MOVE src dst =>
      go (modify (λ c, let '(fl, wc) := nxm_execute_reg_move dst src (cx_flow c) (cx_wc c) in set_flow fl (set_wc wc c)))
  | OFPACT_REG_LOAD dst subvalue => go (mod_flow (nxm_execute_reg_load dst subvalue))
  | OFPACT_STACK_PUSH sf =>
      go (modify (λ c, let '(wc, st) := nxm_execute_stack_push sf (cx_flow c) (cx_wc c) (cx_stack c) in
                       set_stack st (set_wc wc c)))
  | OFPACT_STACK_POP sf =>
      go (modify (λ c, let '(fl, wc, st) := nxm_execute_stack_pop sf (cx_flow c) (cx_wc c) (cx_stack c) in
                       set_stack st (set_flow fl (set_wc wc c))))
  | OFPACT_PUSH_MPLS ethertype => go (compose_mpls_push_action ethertype)
  | OFPACT_POP_MPLS ethertype => go (compose_mpls_pop_action ethertype)
  | OFPACT_SET_MPLS_TTL ttl => compose_set_mpls_ttl_action ttl
  | OFPACT_DEC_MPLS_TTL => compose_dec_mpls_ttl_action
  | OFPACT_DEC_TTL cnt_ids => _ ← mod_wc (unwildcard [F_nw_ttl]); compose_dec_ttl cnt_ids
  | OFPACT_MULTIPATH mp =>
      go (modify (λ c, let '(fl, wc) := multipath_execute mp (cx_flow c) (cx_wc c) in set_flow fl (set_wc wc c)))
  | OFPACT_BUNDLE bundle => go (xlate_bundle_action bundle)
  | OFPACT_OUTPUT_REG src max_len => go (xlate_output_reg_action src max_len)
  | OFPACT_LEARN learn => go (xlate_learn_action learn)
  | OFPACT_LEARN_LEARN learn ofpacts => go (xlate_learn_learn_action learn ofpacts)
  | OFPACT_LEARN_DELETE learn => go (xlate_learn_delete_action learn)
  | OFPACT_INCREMENT_TABLE_ID counter_spec => go (xlate_increment_table_id_action counter_spec)
  | OFPACT_EXIT => go (modify (set_exit true))
  | OFPACT_FIN_TIMEOUT fin_idle_timeout fin_hard_timeout =>
      go (_ ← mod_wc (unwildcard [F_nw_proto]);
          _ ← modify (set_has_fin_timeout true);
          xlate_fin_timeout fin_idle_timeout fin_hard_timeout)
  | OFPACT_WRITE_METADATA metadata mask =>
      go (mod_flow (λ fl, upd F_metadata (Z.lor (Z.ldiff (fl F_metadata) mask) (Z.land metadata mask)) fl))
  | OFPACT_GOTO_TABLE table_id =>
      go (t ← gets cx_table_id;
          _ ← ovs_assert (t <? table_id);
          in_port ← gets (λ c, cx_flow c F_in_port);
          table_action in_port table_id true)
  | OFPACT_SAMPLE probability collector_set_id obs_domain_id obs_point_id =>
      go (xlate_sample_action probability collector_set_id obs_domain_id obs_point_id)
  | OFPACT_NOTE _ | OFPACT_TIMEOUT_ACT _ | OFPACT_CLEAR_ACTIONS | OFPACT_METER _ => mret false
  end.

(** Records what becomes of the packet and resubmits to the egress tables. *)
Definition to_egress (status : Z) : xlate unit :=
  _ ← mod_flow (upd (F_reg SIMON_OUTPUT_STATUS_REG) status);
  in_port ← gets (λ c, cx_flow c F_in_port);
  table_action in_port SIMON_TABLE_EGRESS_START false.

Definition do_xlate_egress_action (a : ofpact) : xlate unit :=
  match a with
  | OFPACT_OUTPUT port _ => to_egress port
  | OFPACT_CONTROLLER _ _ _ => to_egress OFPP_CONTROLLER
  | _ => mret tt
  end.

Definition is_resubmit (a : ofpact) : bool := match a with OFPACT_RESUBMIT _ _ => true | _ => false end.

(** The loop over the actions: [None] when it returns from the function, else
    whether there was a resubmission. *)
Fixpoint xlate_actions_loop (ofpacts : list ofpact) (resubmit_done : bool) : xlate (option bool) :=
  match ofpacts with
  | [] => mret (Some resubmit_done)
  | a :: ofpacts =>
      exit ← gets cx_exit;
      if exit : bool then mret (Some resubmit_done)
      else
        stop ← do_xlate_action a;
        if stop : bool then mret None
        else
          table_id ← gets cx_table_id;
          _ ← when (TABLE_IS_PRODUCTION table_id) (do_xlate_egress_action a);
          xlate_actions_loop ofpacts (resubmit_done || is_resubmit a)
  end.

Definition do_xlate_actions (ofpacts : list ofpact) : xlate unit :=
  r ← xlate_actions_loop ofpacts false;
  match r with
  | None => mret tt
  | Some resubmit_done =>
      table_id ← gets cx_table_id;
      _ ← when (TABLE_IS_PRODUCTION table_id && bool_decide (ofpacts = [])) (to_egress OFPP_NONE);
      rule ← gets cx_rule;
      table_id ← gets cx_table_id;
      when ((table_id =? 0) && negb resubmit_done && bool_decide (is_Some rule))
        (in_port ← gets (λ c, cx_flow c F_in_port); table_action in_port (table_id + 1) false)
  end.

End actions.

(** ** The recursion *)

(** A sequence of automatic resubmissions at one recursion level. *)
Fixpoint table_chain (do_actions : list ofpact → xlate unit) (fuel : nat) (in_port table_id : Z) (may_packet_in : bool)
  : xlate unit :=
  match fuel with
  | O => out_of_fuel
  | S fuel => table_action_body do_actions (table_chain do_actions fuel) in_port table_id may_packet_in
  end.

Fixpoint xlate_table_action_fuel (depth : nat) (in_port table_id : Z) (may_packet_in : bool) : xlate unit :=
  match depth with
  | O => out_of_fuel
  | S depth =>
      table_chain (do_xlate_actions (xlate_table_action_fuel depth)) (S (Z.to_nat (255 - table_id)))
        in_port table_id may_packet_in
  end.

(** Recursion levels 0 to 256, the last of which only fails the test of the
    limit. *)
Definition xlate_table_action : Z → Z → bool → xlate unit := xlate_table_action_fuel 257.

(** ** The translation of a flow *)

Definition actions_output_to_local_port (b : xbridge) (acts : list odp_action) : bool :=
  let local_odp_port := ofp_port_to_odp_port e_cfg b OFPP_LOCAL in
  existsb (λ a, match a with ODP_OUTPUT port => port =? local_odp_port | _ => false end) acts.

Definition flow_wildcards_clear_non_packet (wc : flowf) : flowf :=
  set_fields ((F_metadata, 0) :: ((λ i, (F_reg i, 0)) <$> seq 0 FLOW_N_REGS)) wc.

(** The initial context, given the state of the tables; the flag is whether a
    tunnelled packet may go on. *)
Definition init_ctx (b : xbridge) (ml : gmap Z mac_learning) (stps : gmap Z stp) (counters : table_counters) (s : svc)
  : bool * xlate_ctx :=
  let flow := xi_flow e_in in
  let base_flow := set_fields ((λ f, (f, 0)) <$> tunnel_fields) flow in
  let wc := wc_or F_nw_frag FLOW_NW_FRAG_MASK (unwildcard [F_in_port; F_skb_priority; F_dl_type] (λ _, 0)) in
  let '(tnl_may_send, flow', wc) := tnl_xlate_init base_flow flow wc in
  let wc := if bc_has_netflow (xb_cfg b) then netflow_mask_wc flow' wc else wc in
  (tnl_may_send,
   Ctx flow' base_flow (flow F_tun_dst) [] (xi_rule e_in) 0 (flow' F_skb_priority) 0 0 0 false false (xi_ofproto e_in)
     wc None false false false false NF_OUT_DROP 0 [] ml stps counters [] s []).

(** The actions to run, after the initial lookup if there is neither a rule
    nor actions. *)
Definition initial_rule : xlate (list ofpact) :=
  ofpacts ← match xi_ofpacts e_in, xi_rule e_in with
  | Some ofpacts, _ => mret ofpacts
  | None, Some rule => mret (rl_actions rule)
  | None, None =>
      r ← gets (λ c, rule_dpif_lookup (cx_xbridge c) (cx_svc c) (cx_flow c) (cx_wc c));
      _ ← mod_wc (λ _, r.2);
      _ ← when (xi_resubmit_stats e_in) (mod_svc (λ s, sv_credit_stats s r.1));
      _ ← modify (set_rule (Some r.1));
      mret (rl_actions r.1)
  end;
  _ ← modify (λ c, set_fail_open (match cx_rule c with Some r => rl_fail_open r | None => false end) c);
  mret ofpacts.

(** [false] when fragments are dropped. *)
Definition frag_step (b : xbridge) : xlate bool :=
  flow ← gets cx_flow;
  if negb (any_bit (flow F_nw_frag) FLOW_NW_FRAG_ANY) then mret true
  else
    match bc_frag (xb_cfg b) with
    | OFPC_FRAG_NORMAL =>
        let no_ports := set_fields [(F_tp_src, 0); (F_tp_dst, 0)] in
        _ ← modify (λ c, set_flow (no_ports (cx_flow c)) (set_base_flow (no_ports (cx_base_flow c)) c));
        mret true
    | OFPC_FRAG_DROP => mret false
    | OFPC_FRAG_REASM => abort
    | OFPC_FRAG_NX_MATCH => mret true
    end.

(** A packet that no protocol took. *)
Definition xlate_packet (tnl_may_send : bool) (in_port : option Z) (ofpacts : list ofpact) (orig_flow : flowf)
  : xlate unit :=
  b ← the_bridge;
  o ← gets cx_xbridge;
  flow ← gets cx_flow;
  _ ← when (negb (flow F_in_port =? sv_vsp_realdev_to_vlandev o (flow F_in_port) (flow F_vlan_tci)))
        (modify (λ c, set_base_flow (upd F_vlan_tci 0 (cx_base_flow c)) c));
  _ ← add_sflow_action;
  _ ← compose_ipfix_action;
  sample_actions_len ← gets (λ c, length (cx_odp_actions c));
  receive ← match in_port with
            | Some a => p ← port_at a; if tnl_may_send then may_receive p else mret false
            | None => mret tnl_may_send
            end;
  _ ← when receive
        (_ ← do_xlate_actions xlate_table_action ofpacts;
         fwd ← match in_port with Some a => p ← port_at a; xport_stp_forward_state p | None => mret true end;
         when (negb fwd) (modify (λ c, set_odp_actions (take sample_actions_len (cx_odp_actions c)) c)));
  flow ← gets cx_flow;
  acts ← gets cx_odp_actions;
  _ ← when (bc_has_in_band (xb_cfg b) && in_band_must_output_to_local_port flow
            && negb (actions_output_to_local_port b acts))
        (compose_output_action xlate_table_action OFPP_LOCAL);
  _ ← fix_sflow_action;
  when (sv_has_mirrors (bc_mbridge (xb_cfg b))) (add_mirror_actions xlate_table_action orig_flow).

(** [xlate_actions] from the initial context on; the result is [false] when
    fragments are dropped. *)
Definition xlate_flow (tnl_may_send : bool) : xlate bool :=
  b ← the_bridge;
  ofpacts ← initial_rule;
  orig_flow ← gets cx_flow;
  go ← frag_step b;
  _ ← when go
        (flow ← gets cx_flow;
         let in_port := get_ofp_port e_cfg b (flow F_in_port) in
         special ← process_special in_port;
         match special with
         | Some reason => modify (set_slow (Some reason))
         | None => xlate_packet tnl_may_send in_port ofpacts orig_flow
         end);
  mret go.

Definition xlate_actions_step (tnl_may_send : bool) : xlate unit :=
  go ← xlate_flow tnl_may_send;
  when go (mod_wc flow_wildcards_clear_non_packet).

(** [None] when the bridge is unknown. *)
Definition xlate_actions (ml : gmap Z mac_learning) (stps : gmap Z stp) (counters : table_counters) (s : svc)
  : option (res (unit * xlate_ctx)) :=
  b ← xc_bridges e_cfg !! xi_ofproto e_in;
  let '(tnl_may_send, c) := init_ctx b ml stps counters s in
  Some (xlate_actions_step tnl_may_send c).

End xlate.
