(* ===== verification/XlateThms.v ===== *)
(** * What every step of a translation keeps

    [xrel] relates the context before a step with the one after it: the
    members that are restored, those that only grow, and what is left alone
    when there is no packet.  [keeps] says that a step that runs at recursion
    level [L] or above returns or aborts, and relates its contexts by [xrel].
    The section proves it of every function of the translator, up to
    [xlate_table_action]; the theorems about whole translations follow. *)
From stdpp Require Import gmap sorting.
From S2P Require Import Prelude Util ByteOrder Hash Hmap HmapThms Bitmap MatchFields MetaFlow OdpActions NxActions.
From S2P Require Import TableCounters Learn Tunnel MacLearning Stp XlateConfig XlateCtx Xlate.

(** ** Masks *)

(** A relation between wildcards that every way of adding to them respects,
    for subfields that are fit to be masked. *)
Class wc_rel (W : flowf → flowf → Prop) (sf_ok : mf_subfield → Prop) := {
  wc_rel_preorder :: PreOrder W;
  wc_rel_grows w w' : wc_grows w w' → W w w';
  wc_rel_unwild sf w : sf_ok sf → W w (mf_unwild sf w)
}.

(** A subfield that lies within its field, whose mask can be written. *)
Definition sf_maskable (sf : mf_subfield) : Prop :=
  mf_mask_ok (sf_field sf) = true ∧ (sf_ofs sf + sf_n_bits sf ≤ mf_n_bits (sf_field sf))%nat.

#[global] Instance wc_grows_rel : wc_rel wc_grows sf_maskable.
Proof. split; [apply _|done|]. intros sf w [H1 H2] Hw. by apply mf_unwild_le. Qed.

#[global] Instance any_wc_rel : wc_rel (λ _ _, True) (λ _, True).
Proof. split; [by split|done|done]. Qed.

Lemma unwildcard_wc_grows fs wc : wc_grows wc (unwildcard fs wc).
Proof. intros H. by apply unwildcard_grows. Qed.

Ltac wc_grows := repeat first [reflexivity | etrans; [|first [apply unwildcard_wc_grows | by apply wc_or_grows]]].

(** Committing adds actions, none of which is an output, and wildcards. *)
Definition not_output (a : odp_action) : Prop := match a with ODP_OUTPUT _ => False | _ => True end.

Definition cm_grows (c c' : commit_state) : Prop :=
  (∃ l, cm_actions c' = cm_actions c ++ l ∧ Forall not_output l) ∧ wc_grows (cm_wc c) (cm_wc c').

#[global] Instance cm_grows_preorder : PreOrder cm_grows.
Proof.
  split.
  - intros c. split; [|done]. exists []. by rewrite app_nil_r.
  - intros a b c [(l & E & F) W] [(l' & E' & F') W']. split; [|by etrans].
    exists (l ++ l'). rewrite E', E, <- app_assoc. split; [done|by apply Forall_app].
Qed.

Lemma put_actions_grows c l : Forall not_output l → cm_grows c (put_actions c l).
Proof. intros H. split; [by exists l|done]. Qed.

Lemma take_fields_grows flow fs c : cm_grows c (take_fields flow fs c).
Proof. split; [|done]. exists []. by rewrite app_nil_r. Qed.

Lemma unwild_cm_grows fs c : cm_grows c (unwild fs c).
Proof. split; [exists []; by rewrite app_nil_r|]. apply unwildcard_wc_grows. Qed.

#[local] Hint Resolve unwildcard_wc_grows flow_mask_hash_fields_grows : core.

Ltac cm_grows :=
  repeat first
    [ reflexivity
    | case_match
    | etrans; [|apply put_actions_grows; by repeat constructor]
    | etrans; [|apply take_fields_grows]
    | etrans; [|apply unwild_cm_grows] ].

Lemma commit_odp_tunnel_action_grows flow c : cm_grows c (commit_odp_tunnel_action flow c).
Proof. unfold commit_odp_tunnel_action. cm_grows. Qed.

Lemma commit_parts_grow flow c :
  cm_grows c (commit_set_ether_addr_action flow c) ∧ cm_grows c (commit_vlan_action flow c)
  ∧ cm_grows c (commit_set_nw_action flow c) ∧ cm_grows c (commit_set_port_action flow c)
  ∧ cm_grows c (commit_mpls_action flow c) ∧ cm_grows c (commit_set_priority_action flow c)
  ∧ cm_grows c (commit_set_pkt_mark_action flow c).
Proof.
  unfold commit_set_ether_addr_action, commit_vlan_action, commit_set_nw_action, commit_set_ipv4_action,
    commit_set_ipv6_action, commit_set_port_action, commit_mpls_action, commit_set_priority_action,
    commit_set_pkt_mark_action.
  split_and!; cm_grows.
Qed.

Lemma commit_odp_actions_grows flow c : cm_grows c (commit_odp_actions flow c).
Proof. unfold commit_odp_actions. do 7 (etrans; [|apply commit_parts_grow]). done. Qed.

(** ** The relation *)

Section rel.
Context {Sv : xlate_services} {E : xlate_env} (W : flowf → flowf → Prop).

(** The datapath ports that the output to the port [p], known as [a], can go
    to: the one of its tunnel, its own, or, with VLAN splinters, that of the
    VLAN device which stands for [p] and the VLAN in the bridge of [p]. *)
Definition odp_port_of (a : Z) (p : xport) (o : Z) : Prop :=
  if pc_is_tunnel (xp_cfg p) then ∃ t, tnl_find_ofport e_tnl a = Some t ∧ o = tm_odp_port (tp_match t)
  else o = pc_odp_port (xp_cfg p)
    ∨ ∃ b tci, xc_bridges e_cfg !! xp_xbridge p = Some b
        ∧ let vlandev := sv_vsp_realdev_to_vlandev (xp_xbridge p) (xp_ofp_port p) tci in
          vlandev ≠ xp_ofp_port p ∧ o = ofp_port_to_odp_port e_cfg b vlandev.

(** An output goes to an existing port that forwards and is no patch port. *)
Definition output_allowed (act : odp_action) : Prop :=
  match act with
  | ODP_OUTPUT o =>
      o ≠ ODPP_NONE
      ∧ ∃ a p, xc_ports e_cfg !! a = Some p ∧ any_bit (pc_config (xp_cfg p)) OFPUTIL_PC_NO_FWD = false
               ∧ xp_peer p = None ∧ odp_port_of a p o
  | _ => True
  end.

(** A translation that asks for no side effect: there is no packet, nothing is
    to be learned or accounted, and no TCP connection ends. *)
Definition quiet : Prop :=
  xi_packet e_in = None ∧ xi_may_learn e_in = false ∧ xi_resubmit_stats e_in = false
  ∧ any_bit (xi_tcp_flags e_in) 5 = false.

(** A bond may assign the flow to a slave when it chooses one. *)
Definition bond_step (s s' : svc) : Prop :=
  ∃ bond fl wc vid, s' = (sv_bond_choose_output_slave s bond fl wc vid).1.1.

(** The counters change by the increment action only, if the translation may
    increment them. *)
Definition counter_step (k k' : table_counters) : Prop :=
  xi_may_increment e_in = true ∧ ∃ counter_spec, k' = (increment_table_id_execute counter_spec k).2.

Lemma counter_steps_none k k' : xi_may_increment e_in = false → rtc counter_step k k' → k' = k.
Proof. intros Hi H. induction H as [|k k1 k' [H1 _] _ _]; [done|congruence]. Qed.

Record xrel (c c' : xlate_ctx) : Prop := {
  xr_table_id : cx_table_id c' = cx_table_id c;
  xr_recurse : cx_recurse c' = cx_recurse c;
  xr_rule : cx_rule c' = cx_rule c;
  xr_xbridge : cx_xbridge c' = cx_xbridge c;
  xr_exit : cx_exit c = true → cx_exit c' = true;
  xr_actions : ∃ l, cx_odp_actions c' = cx_odp_actions c ++ l ∧ Forall output_allowed l;
  xr_wc : W (cx_wc c) (cx_wc c');
  xr_trace : ∃ tr, cx_trace c' = cx_trace c ++ tr ∧ Forall (λ e, cx_recurse c ≤ e.1 < 256) tr;
  xr_mirrors : is_u32 (cx_mirrors c) → is_u32 (cx_mirrors c');
  xr_learn : xi_may_learn e_in = false → cx_ml c' = cx_ml c;
  xr_counters : rtc counter_step (cx_counters c) (cx_counters c');
  xr_packet : xi_packet e_in = None → cx_stp c' = cx_stp c ∧ cx_packet_ins c' = cx_packet_ins c;
  xr_has_learn : cx_has_learn c = true → cx_has_learn c' = true;
  xr_has_normal : cx_has_normal c = true → cx_has_normal c' = true;
  xr_has_fin_timeout : cx_has_fin_timeout c = true → cx_has_fin_timeout c' = true;
  xr_svc : quiet → rtc bond_step (cx_svc c) (cx_svc c')
}.

#[global] Instance xrel_preorder : PreOrder W → PreOrder xrel.
Proof.
  intros HW. split.
  - intros c. split; try done; try (exists []; by rewrite app_nil_r).
  - intros a b c H1 H2. destruct H1 as [? ? ? ? ? (l & El & Fl) ? (t & Et & Ft) ? Hl Hi Hp ? ? ? Hs].
    destruct H2 as [? ? ? ? ? (l' & El' & Fl') ? (t' & Et' & Ft') ? Hl' Hi' Hp' ? ? ? Hs'].
    split; try congruence; auto.
    + exists (l ++ l'). rewrite El', El, <- app_assoc. split; [done|by apply Forall_app].
    + by etrans.
    + exists (t ++ t'). rewrite Et', Et, <- app_assoc. split; [done|]. apply Forall_app. split; [done|].
      eapply Forall_impl; [exact Ft'|]. intros e. simpl. lia.
    + intros E1. by rewrite Hl', Hl.
    + by etrans.
    + intros E1. destruct (Hp E1), (Hp' E1). split; congruence.
    + intros E1. by etrans; [apply Hs|apply Hs'].
Qed.

End rel.

(** ** The order of the tables *)

(** The automatic resubmission goes from [t] to [t'] when the counters are
    [k]: through the ingress tables up to the one that the ingress counter
    names and from there to the first production table, or through the egress
    tables up to the one that the egress counter names. *)
Inductive follows (k : table_counters) (t : Z) : Z → Prop :=
| follows_ingress : t < SIMON_TABLE_PRODUCTION_START → t < tc_ingress k → follows k t (t + 1)
| follows_production : t < SIMON_TABLE_PRODUCTION_START → tc_ingress k ≤ t → follows k t SIMON_TABLE_PRODUCTION_START
| follows_egress : SIMON_TABLE_EGRESS_START ≤ t < 254 → t - SIMON_TABLE_EGRESS_START < tc_egress k → follows k t (t + 1).

(** It ends at [t]. *)
Inductive ends (k : table_counters) (t : Z) : Prop :=
| ends_production : SIMON_TABLE_PRODUCTION_START ≤ t < SIMON_TABLE_EGRESS_START → ends k t
| ends_egress : SIMON_TABLE_EGRESS_START ≤ t < 254 → tc_egress k ≤ t - SIMON_TABLE_EGRESS_START → ends k t
| ends_other : 254 ≤ t → ends k t.

Lemma next_table_spec t k : match next_table t k with Some t' => follows k t t' | None => ends k t end.
Proof.
  unfold next_table, get_table_counter_by_id, TABLE_IS_INGRESS, TABLE_IS_PRODUCTION, TABLE_IS_EGRESS.
  change (get_table_counter_by_spec TABLE_SPEC_INGRESS k) with (tc_ingress k).
  change (get_table_counter_by_spec TABLE_SPEC_EGRESS k) with (tc_egress k).
  pose proof (eq_refl : SIMON_TABLE_PRODUCTION_START = 150). pose proof (eq_refl : SIMON_TABLE_EGRESS_START = 200).
  destruct (Z.ltb_spec t SIMON_TABLE_PRODUCTION_START).
  { destruct (Z.ltb_spec t (tc_ingress k)); by constructor. }
  destruct (Z.leb_spec SIMON_TABLE_PRODUCTION_START t), (Z.ltb_spec t SIMON_TABLE_EGRESS_START); cbn [andb]; try lia;
    [by apply ends_production|].
  destruct (Z.leb_spec SIMON_TABLE_EGRESS_START t), (Z.ltb_spec t 254); cbn [andb]; try lia; [|by apply ends_other].
  destruct (Z.ltb_spec (t - SIMON_TABLE_EGRESS_START) (tc_egress k)); [by apply follows_egress|by apply ends_egress].
Qed.

Lemma follows_lt k t t' : follows k t t' → t < t' ≤ 255.
Proof. unfold SIMON_TABLE_PRODUCTION_START, SIMON_TABLE_EGRESS_START. intros []; unfold SIMON_TABLE_PRODUCTION_START, SIMON_TABLE_EGRESS_START in *; lia. Qed.

Section pipeline.
Context {E : xlate_env}.

(** The lookups of a table action at recursion level [r], which starts with
    table [t] and counters [k] and leaves the counters [k']: after each lookup
    of the pipeline come those of the actions it found, at higher levels, which
    may increment the counters; the counters they leave decide on the next
    table. *)
Inductive pipeline (r : Z) : table_counters → Z → list (Z * Z) → table_counters → Prop :=
| pipeline_last k t sub k' :
    Forall (λ e, r < e.1) sub → rtc counter_step k k' → ends k' t → pipeline r k t ((r, t) :: sub) k'
| pipeline_next k t sub k1 t' tr k' :
    Forall (λ e, r < e.1) sub → rtc counter_step k k1 → follows k1 t t' → pipeline r k1 t' tr k' →
    pipeline r k t ((r, t) :: sub ++ tr) k'.

(** The tables of the automatic resubmissions from [t] on with counters that
    stay [k]. *)
Definition chain_tables (k : table_counters) (t : Z) : list Z :=
  if t <? SIMON_TABLE_PRODUCTION_START then
    seqZ t (Z.max 1 (Z.min (tc_ingress k + 1) SIMON_TABLE_PRODUCTION_START - t)) ++ [SIMON_TABLE_PRODUCTION_START]
  else if (SIMON_TABLE_EGRESS_START <=? t) && (t <? 254) then
    seqZ t (Z.max 1 (Z.min (SIMON_TABLE_EGRESS_START + tc_egress k) 254 + 1 - t))
  else [t].

Lemma chain_tables_ends k t : ends k t → chain_tables k t = [t].
Proof.
  unfold chain_tables, SIMON_TABLE_PRODUCTION_START, SIMON_TABLE_EGRESS_START.
  intros H. destruct H; unfold SIMON_TABLE_PRODUCTION_START, SIMON_TABLE_EGRESS_START in *; rewrite (proj2 (Z.ltb_ge t 150)) by lia;
    destruct (Z.leb_spec 200 t), (Z.ltb_spec t 254); cbn [andb]; try lia; try done.
  by rewrite (Z.max_l 1) by lia.
Qed.

Lemma chain_tables_follows k t t' : follows k t t' → chain_tables k t = t :: chain_tables k t'.
Proof.
  unfold chain_tables. intros H. pose proof (follows_lt _ _ _ H) as Hlt.
  destruct H; unfold SIMON_TABLE_PRODUCTION_START, SIMON_TABLE_EGRESS_START in *.
  - rewrite (proj2 (Z.ltb_lt t 150)) by lia. destruct (Z.ltb_spec (t + 1) 150).
    + rewrite !(Z.max_r 1) by lia. rewrite (seqZ_cons t) by lia. cbn [app]. do 3 f_equal; lia.
    + rewrite (Z.max_r 1) by lia. replace (Z.min (tc_ingress k + 1) 150 - t) with 1 by lia.
      rewrite (proj2 (Z.leb_gt 200 (t + 1))) by lia. replace t with 149 by lia. reflexivity.
  - rewrite (proj2 (Z.ltb_lt t 150)) by lia. by rewrite (Z.max_l 1) by lia.
  - rewrite !(proj2 (Z.ltb_ge _ 150)) by lia. rewrite !(proj2 (Z.leb_le 200 _)) by lia. rewrite (proj2 (Z.ltb_lt t 254)) by lia. cbn [andb].
    destruct (Z.ltb_spec (t + 1) 254).
    + rewrite !(Z.max_r 1) by lia. rewrite (seqZ_cons t) by lia. do 2 f_equal; lia.
    + rewrite (Z.max_r 1) by lia. replace (Z.min (200 + tc_egress k) 254 + 1 - t) with 2 by lia. by replace t with 253 by lia.
Qed.

(** When the counters do not change, they name the tables of the pipeline. *)
Lemma pipeline_tables r k t tr k' :
  xi_may_increment e_in = false → pipeline r k t tr k' → (filter (λ e, e.1 = r) tr).*2 = chain_tables k t.
Proof.
  intros Hi H.
  assert (Hsub : ∀ sub : list (Z * Z), Forall (λ e, r < e.1) sub → filter (λ e, e.1 = r) sub = []).
  { induction 1 as [|e sub He _ IH]; [done|]. rewrite filter_cons_False; [done|lia]. }
  induction H as [k t sub k' Hs Hk He|k t sub k1 t' tr k' Hs Hk Hf _ IH]; rewrite filter_cons_True by done; cbn [fmap list_fmap snd].
  - rewrite Hsub by done. apply counter_steps_none in Hk as ->; [|done]. by rewrite (chain_tables_ends k).
  - rewrite filter_app, Hsub by done. apply counter_steps_none in Hk as ->; [|done].
    cbn [app]. by rewrite (chain_tables_follows k t t'), <- IH.
Qed.
End pipeline.

(** ** Steps that keep the relation *)

Section keeps.
Context {Sv : xlate_services} {Svok : xlate_services_ok Sv} {E : xlate_env}.
Context (W : flowf → flowf → Prop) (sf_ok : mf_subfield → Prop) {HW : wc_rel W sf_ok}.
Context (L : Z).

Definition keeps_at {A} (c : xlate_ctx) (m : xlate A) : Prop :=
  L ≤ cx_recurse c →
  match m c with Ok (_, c') => xrel W c c' | Abort => True | OutOfFuel => False end.

Definition keeps {A} (m : xlate A) : Prop := ∀ c, keeps_at c m.

Lemma keeps_ret {A} (a : A) : keeps (mret a).
Proof. intros c _. simpl. reflexivity. Qed.

Lemma keeps_gets {A} (f : xlate_ctx → A) : keeps (gets f).
Proof. intros c _. simpl. reflexivity. Qed.

Lemma keeps_abort {A} : keeps (A:=A) abort.
Proof. done. Qed.

Lemma keeps_lift {A} (o : option A) : keeps (lift o).
Proof. destruct o; [apply keeps_ret|apply keeps_abort]. Qed.

Lemma keeps_assert b : keeps (ovs_assert b).
Proof. destruct b; [apply keeps_ret|apply keeps_abort]. Qed.

Lemma keeps_at_bind {A B} c (m : xlate A) (k : A → xlate B) :
  keeps_at c m → (∀ a c', m c = Ok (a, c') → xrel W c c' → keeps_at c' (k a)) → keeps_at c (a ← m; k a).
Proof.
  intros Hm Hk Hc. unfold mbind, xlate_bind. specialize (Hm Hc). destruct (m c) as [[a c']| |] eqn:Em; [|done|done].
  specialize (Hk a c' eq_refl Hm). unfold keeps_at in Hk. rewrite (xr_recurse _ _ _ Hm) in Hk. specialize (Hk Hc).
  destruct (k a c') as [[b c'']| |]; [by etrans|done|done].
Qed.

Lemma keeps_at_gets {A B} c (f : xlate_ctx → A) (k : A → xlate B) : keeps_at c (k (f c)) → keeps_at c (a ← gets f; k a).
Proof. done. Qed.

Lemma keeps_at_any {A} c (m : xlate A) : keeps m → keeps_at c m.
Proof. done. Qed.

Lemma keeps_bind {A B} (m : xlate A) (k : A → xlate B) : keeps m → (∀ a, keeps (k a)) → keeps (a ← m; k a).
Proof. intros Hm Hk c. apply keeps_at_bind; [apply Hm|]. intros a c' _ _. apply Hk. Qed.

Lemma keeps_when b (m : xlate unit) : (b = true → keeps m) → keeps (when b m).
Proof. destruct b; simpl; [auto|]. intros _. apply keeps_ret. Qed.

Lemma keeps_for_each {A} (f : A → xlate unit) l : (∀ a, keeps (f a)) → keeps (for_each f l).
Proof.
  intros Hf. induction l as [|a l IH]; [apply keeps_ret|]. simpl. apply keeps_bind; [apply Hf|done].
Qed.

Lemma keeps_modify f : (∀ c, xrel W c (f c)) → keeps (modify f).
Proof. intros H c _. apply H. Qed.

(** A change of members that the relation does not mention. *)
Ltac xrel_same :=
  split; simpl; try reflexivity; try (by auto); try (exists []; by rewrite app_nil_r).

Lemma keeps_mod_flow f : keeps (mod_flow f).
Proof. apply keeps_modify. intros c. xrel_same. Qed.

Lemma keeps_mod_svc f : ¬ quiet → keeps (mod_svc f).
Proof. intros H. apply keeps_modify. intros c. xrel_same. Qed.

Lemma xrel_set_wc c w : W (cx_wc c) w → xrel W c (set_wc w c).
Proof. intros H. xrel_same. Qed.

Lemma xrel_set_actions c l : Forall output_allowed l → xrel W c (set_odp_actions (cx_odp_actions c ++ l) c).
Proof. intros H. split; simpl; try reflexivity; try (by auto); try (exists []; by rewrite app_nil_r). by exists l. Qed.

Lemma keeps_mod_wc f : (∀ w, W w (f w)) → keeps (mod_wc f).
Proof. intros H. apply keeps_modify. intros c. by apply xrel_set_wc. Qed.

Lemma keeps_put_odp l : Forall output_allowed l → keeps (put_odp l).
Proof. intros H. apply keeps_modify. intros c. by apply xrel_set_actions. Qed.

Lemma keeps_decide_wc f : (∀ fl w, W w (f fl w).2) → keeps (decide_wc f).
Proof. intros H c _. simpl. by apply xrel_set_wc. Qed.

Lemma not_output_allowed l : Forall not_output l → Forall output_allowed l.
Proof. intros H. eapply Forall_impl; [exact H|]. by intros []. Qed.

Lemma keeps_commit f : (∀ fl d, cm_grows d (f fl d)) → keeps (commit_with f).
Proof.
  intros H. apply keeps_modify. intros c. specialize (H (cx_flow c) (Commit (cx_base_flow c) (cx_odp_actions c) (cx_wc c))).
  revert H. generalize (f (cx_flow c) (Commit (cx_base_flow c) (cx_odp_actions c) (cx_wc c))). intros d [(l & El & Fl) Hw].
  simpl in El, Hw. cbv zeta. rewrite El. trans (set_wc (cm_wc d) c); [by apply xrel_set_wc, wc_rel_grows|].
  trans (set_odp_actions (cx_odp_actions c ++ l) (set_wc (cm_wc d) c)).
  { by apply (xrel_set_actions (set_wc (cm_wc d) c)), not_output_allowed. }
  xrel_same.
Qed.

Lemma W_unwildcard fs w : W w (unwildcard fs w).
Proof. apply wc_rel_grows. auto. Qed.

Lemma W_wc_or f v w : in_width (field_width f) v → W w (wc_or f v w).
Proof. intros H. apply wc_rel_grows. by apply wc_or_grows. Qed.

(** A step that first reads the context and then changes only the wildcards. *)
Lemma W_bundle_execute b fl w en : W w (bundle_execute b fl w en).2.
Proof.
  apply wc_rel_grows. unfold bundle_execute, execute_hrw. destruct (bd_algorithm b); [done|]. simpl.
  destruct (_ <? _)%nat; [|done]. auto.
Qed.

Lemma W_is_gratuitous_arp fl w : W w (is_gratuitous_arp fl w).2.
Proof.
  apply wc_rel_grows. unfold is_gratuitous_arp. repeat case_match; cbn [snd]; wc_grows.
Qed.

Lemma W_cfm k ad fl w : W w (cfm_should_process_flow k ad fl w).2.
Proof. apply wc_rel_grows. unfold cfm_should_process_flow. cbn [snd]. destruct k; wc_grows. Qed.

Lemma W_bfd d k fl w : W w (bfd_should_process_flow d k fl w).2.
Proof.
  apply wc_rel_grows. unfold bfd_should_process_flow.
  destruct (match d with Some _ => _ | None => _ end); cbn [snd]; [|destruct k]; wc_grows.
Qed.

Definition spec_src_ok (spec : ofpact_learn_spec) : Prop :=
  match ls_src_type spec, ls_src spec with NX_LEARN_SRC_FIELD, Some src => sf_ok src | _, _ => True end.

Lemma W_learn_mask specs w w' : Forall spec_src_ok specs → learn_mask specs w = Some w' → W w w'.
Proof.
  intros H. revert w. induction H as [|spec specs Hs _ IH]; intros w; simpl; [by intros [= <-]|].
  unfold spec_src_ok in Hs. destruct (ls_src_type spec); [|by apply IH].
  destruct (ls_src spec) as [src|]; [|done]. simpl. intros Hw. etrans; [by apply wc_rel_unwild|]. by apply IH.
Qed.

(** The subfields of an action whose masks are written are fit for it. *)
Definition act_ok (a : ofpact) : Prop :=
  match a with
  | OFPACT_OUTPUT_REG src _ => sf_ok src
  | OFPACT_BUNDLE bundle => from_option sf_ok True (bd_dst bundle)
  | OFPACT_REG_MOVE src dst => sf_ok src ∧ sf_ok dst
  | OFPACT_STACK_PUSH sf | OFPACT_STACK_POP sf => sf_ok sf
  | OFPACT_MULTIPATH mp => sf_ok (mp_dst mp)
  | OFPACT_LEARN learn => Forall spec_src_ok (ln_specs learn)
  | OFPACT_LEARN_LEARN learn _ => Forall spec_src_ok (ln_specs (ll_learn learn))
  | OFPACT_LEARN_DELETE learn => Forall spec_src_ok (ld_specs learn)
  | _ => True
  end.

Definition rule_ok (r : rule_dpif) : Prop := Forall act_ok (rl_actions r).

(** Every rule that a lookup can give. *)
Record rules_ok : Prop := {
  ro_lookup s o t fl w r : (sv_classifier_lookup s o t fl w).1 = Some r → rule_ok r;
  ro_drop_frags o : rule_ok (sv_drop_frags_rule o);
  ro_miss o : rule_ok (sv_miss_rule o);
  ro_no_packet_in o : rule_ok (sv_no_packet_in_rule o);
  ro_bridge o b : xc_bridges e_cfg !! o = Some b → rule_ok (bc_miss_rule (xb_cfg b)) ∧ rule_ok (bc_no_packet_in_rule (xb_cfg b))
}.

(** A port that a bridge knows by a number belongs to the bridge. *)
Definition cfg_ports_ok : Prop := ∀ o b n a p,
  xc_bridges e_cfg !! o = Some b → get_ofp_port e_cfg b n = Some a → xc_ports e_cfg !! a = Some p → xp_xbridge p = o.

Context (Hrules : rules_ok) (Hcfg : cfg_ports_ok).

Ltac not_quiet := unfold quiet; intros (? & ? & ? & ?); congruence.

Ltac keeps :=
  repeat first
    [ apply keeps_ret | apply keeps_gets | apply keeps_lift | apply keeps_abort | apply keeps_assert
    | apply keeps_mod_flow | apply keeps_mod_svc; not_quiet
    | assumption
    | solve [eauto with keeps]
    | apply keeps_bind; [|intros ?] | apply keeps_when; intros ? | apply keeps_for_each; intros ?
    | apply keeps_mod_wc; intros ?; first [apply W_unwildcard | apply W_wc_or; done]
    | apply keeps_modify; intros ?; xrel_same; fail
    | case_match ].

(** ** Steps without table lookups *)

Lemma keeps_port_at a : keeps (port_at a).
Proof. apply keeps_lift. Qed.
Lemma keeps_bridge_at a : keeps (bridge_at a).
Proof. apply keeps_lift. Qed.
Lemma keeps_bundle_at a : keeps (bundle_at a).
Proof. apply keeps_lift. Qed.
Lemma keeps_the_bridge : keeps the_bridge.
Proof. unfold the_bridge, bridge_at. keeps. Qed.
Hint Resolve keeps_port_at keeps_bridge_at keeps_bundle_at keeps_the_bridge : keeps.

Lemma keeps_get_stp_port p : keeps (xport_get_stp_port p).
Proof. unfold xport_get_stp_port. keeps. Qed.
Hint Resolve keeps_get_stp_port : keeps.

Lemma keeps_stp_state p : keeps (xport_stp_state p).
Proof. unfold xport_stp_state. keeps. Qed.
Hint Resolve keeps_stp_state : keeps.

Lemma keeps_stp_forward p : keeps (xport_stp_forward_state p).
Proof. unfold xport_stp_forward_state. keeps. Qed.
Lemma keeps_stp_learn p : keeps (xport_stp_learn_state p).
Proof. unfold xport_stp_learn_state. keeps. Qed.
Hint Resolve keeps_stp_forward keeps_stp_learn : keeps.

Lemma keeps_may_receive p : keeps (may_receive p).
Proof. unfold may_receive. keeps. Qed.
Lemma keeps_lookup_input_bundle b i : keeps (lookup_input_bundle b i).
Proof. unfold lookup_input_bundle. keeps. Qed.
Lemma keeps_bundle_cfg b : keeps (bundle_cfg b).
Proof. unfold bundle_cfg. keeps. Qed.
Hint Resolve keeps_may_receive keeps_lookup_input_bundle keeps_bundle_cfg : keeps.

Lemma keeps_hand_over f r : (∀ pk, xi_packet e_in = Some pk → keeps (f pk)) → keeps (hand_over f r).
Proof. intros H. unfold hand_over. destruct (xi_packet e_in); keeps. Qed.

Lemma keeps_stp_process_packet p pk : xi_packet e_in = Some pk → keeps (stp_process_packet p pk).
Proof. intros H. unfold stp_process_packet. keeps. apply keeps_modify. intros c. xrel_same. congruence. Qed.

Lemma keeps_process_stp b p : keeps (process_stp b p).
Proof.
  unfold process_stp. destruct (bc_stp (xb_cfg b)); [|keeps]. apply keeps_bind; [|intros []; [|keeps]].
  - apply keeps_decide_wc. intros. apply W_unwildcard.
  - apply keeps_hand_over. apply keeps_stp_process_packet.
Qed.
Hint Resolve keeps_process_stp : keeps.

Lemma keeps_process_lacp b a p : keeps (process_lacp b a p).
Proof. unfold process_lacp. keeps. Qed.
Hint Resolve keeps_process_lacp : keeps.

Lemma keeps_process_bfd b a p : keeps (process_bfd b a p).
Proof.
  unfold process_bfd. destruct (pc_bfd (xp_cfg p)); [|keeps]. apply keeps_bind; [keeps|intros s].
  apply keeps_bind; [apply keeps_decide_wc; intros; apply W_bfd|]. intros []; keeps.
Qed.
Hint Resolve keeps_process_bfd : keeps.

Lemma keeps_process_special a : keeps (process_special a).
Proof.
  unfold process_special. apply keeps_bind; [keeps|intros b]. destruct a as [a|]; [|keeps].
  apply keeps_bind; [keeps|intros p]. destruct (pc_cfm (xp_cfg p)); [|keeps]. apply keeps_bind; [keeps|intros s].
  apply keeps_bind; [apply keeps_decide_wc; intros; apply W_cfm|]. intros []; keeps.
Qed.

Lemma keeps_compose_sample p k : keeps (compose_sample_action p k).
Proof. unfold compose_sample_action. keeps. apply keeps_put_odp. by repeat constructor. Qed.
Hint Resolve keeps_process_special keeps_compose_sample : keeps.

Lemma keeps_add_sflow : keeps add_sflow_action.
Proof. unfold add_sflow_action, compose_sflow_action. keeps. Qed.
Lemma keeps_compose_ipfix : keeps compose_ipfix_action.
Proof. unfold compose_ipfix_action. keeps. Qed.

Lemma keeps_commit_odp : keeps (commit_with commit_odp_actions).
Proof. apply keeps_commit. intros. apply commit_odp_actions_grows. Qed.
Lemma keeps_commit_tunnel : keeps (commit_with commit_odp_tunnel_action).
Proof. apply keeps_commit. intros. apply commit_odp_tunnel_action_grows. Qed.
Hint Resolve keeps_commit_odp keeps_commit_tunnel : keeps.

Lemma keeps_controller len reason id : keeps (execute_controller_action len reason id).
Proof.
  unfold execute_controller_action. destruct (xi_packet e_in) eqn:Ep; keeps.
  apply keeps_modify. intros c. xrel_same. congruence.
Qed.
Hint Resolve keeps_controller : keeps.

Lemma keeps_mpls_push t : keeps (compose_mpls_push_action t).
Proof. unfold compose_mpls_push_action. keeps. Qed.
Lemma keeps_mpls_pop t : keeps (compose_mpls_pop_action t).
Proof. unfold compose_mpls_pop_action. keeps. Qed.
Lemma keeps_dec_ttl ids : keeps (compose_dec_ttl ids).
Proof. unfold compose_dec_ttl. keeps. Qed.
Lemma keeps_set_mpls_ttl t : keeps (compose_set_mpls_ttl_action t).
Proof. unfold compose_set_mpls_ttl_action. keeps. Qed.
Lemma keeps_dec_mpls_ttl : keeps compose_dec_mpls_ttl_action.
Proof. unfold compose_dec_mpls_ttl_action. keeps. Qed.

Lemma keeps_flow_mod fm : xi_may_learn e_in = true → keeps (flow_mod_step fm).
Proof. intros H. unfold flow_mod_step. keeps. Qed.

Lemma keeps_learn_begin specs : Forall spec_src_ok specs → keeps (learn_begin specs).
Proof.
  intros H. unfold learn_begin. apply keeps_bind; [keeps|intros _]. intros c _.
  unfold mbind, xlate_bind, gets, lift, mod_wc, modify.
  destruct (learn_mask specs (cx_wc c)) eqn:Em; [|done]. simpl. apply xrel_set_wc. by eapply W_learn_mask.
Qed.
Hint Resolve keeps_learn_begin keeps_flow_mod : keeps.

Lemma keeps_learn l : Forall spec_src_ok (ln_specs l) → keeps (xlate_learn_action l).
Proof. intros H. unfold xlate_learn_action. keeps. Qed.
Lemma keeps_learn_learn l acts : Forall spec_src_ok (ln_specs (ll_learn l)) → keeps (xlate_learn_learn_action l acts).
Proof. intros H. unfold xlate_learn_learn_action. keeps. Qed.
Lemma keeps_learn_delete l : Forall spec_src_ok (ld_specs l) → keeps (xlate_learn_delete_action l).
Proof. intros H. unfold xlate_learn_delete_action. keeps. Qed.

Lemma keeps_increment spec : keeps (xlate_increment_table_id_action spec).
Proof.
  unfold xlate_increment_table_id_action. keeps. apply keeps_modify. intros c. xrel_same. apply rtc_once. by split; [|eexists].
Qed.

Lemma keeps_fin_timeout i h : keeps (xlate_fin_timeout i h).
Proof. unfold xlate_fin_timeout. keeps. Qed.
Lemma keeps_sample p k d o : keeps (xlate_sample_action p k d o).
Proof. unfold xlate_sample_action. keeps. Qed.
Lemma keeps_set_queue q : keeps (xlate_set_queue_action q).
Proof. unfold xlate_set_queue_action. keeps. Qed.

(** ** Output *)

Section actions.
Context (table_action : Z → Z → bool → xlate unit).
Context (Hta : ∀ i t m, keeps (table_action i t m)).

Hint Resolve Hta : keeps.

Lemma xrel_in_bridge b c c' : xrel W (set_xbridge b c) c' → xrel W c (set_xbridge (cx_xbridge c) c').
Proof. intros []. simpl in *. by split. Qed.

(** A step whose output is dropped. *)
Lemma keeps_drop_output m :
  keeps (A:=unit) m →
  keeps (old ← gets id; _ ← m : xlate unit;
         modify (λ c, set_mirrors (cx_mirrors old) (set_base_flow (cx_base_flow old)
           (set_odp_actions (take (length (cx_odp_actions old)) (cx_odp_actions c)) c)))).
Proof.
  intros Hm c Hc. specialize (Hm c Hc). unfold mbind, xlate_bind, gets, id, modify.
  destruct (m c) as [[[] c']| |]; [|done|done]. destruct Hm as [? ? ? ? ? (l & El & Fl) ? ? ? ? ? ? ? ? ? ?].
  split; simpl; try done. exists []. rewrite El, take_app_length, app_nil_r. done.
Qed.

Lemma keeps_receive_from_peer peer q : keeps (receive_from_peer table_action peer q).
Proof.
  unfold receive_from_peer. apply keeps_bind; [keeps|intros _]. apply keeps_bind; [keeps|intros special].
  destruct special; [keeps|]. apply keeps_bind; [keeps|intros r]. apply keeps_when. intros _.
  apply keeps_bind; [keeps|intros []; [keeps|]]. by apply keeps_drop_output.
Qed.

Lemma keeps_output_to_peer c p peer : cx_xbridge c = xp_xbridge p → keeps_at c (output_to_peer table_action p peer).
Proof.
  intros Hb. unfold output_to_peer. apply keeps_at_bind; [apply keeps_port_at|]. intros q c1 Ec1 _.
  assert (c1 = c) as ->. { unfold port_at, lift in Ec1. destruct (_ !! peer); [|done]. by injection Ec1. }
  intros Hc. pose proof (keeps_receive_from_peer peer q (set_xbridge (xp_xbridge q) c) Hc) as Hr. revert Hr.
  unfold mbind, xlate_bind, gets, modify. destruct (receive_from_peer _ _ _ _) as [[[] c2]| |]; [|done|done].
  intros Hr. apply xrel_in_bridge in Hr. rewrite <- Hb.
  destruct (xi_resubmit_stats e_in) eqn:?; simpl; (trans (set_xbridge (cx_xbridge c) c2); [done|xrel_same]). not_quiet.
Qed.

Lemma tunnel_port_result a p c o o' c' :
  output_port_tunnel a p c = Ok (Some (o, o'), c') → pc_is_tunnel (xp_cfg p) = true → o ≠ ODPP_NONE → odp_port_of a p o.
Proof.
  intros H Ht Ho. unfold odp_port_of. rewrite Ht. revert H. unfold output_port_tunnel, mbind, xlate_bind, gets.
  pose proof (tnl_port_send_port e_tnl a (cx_flow c) (cx_wc c)) as Hp.
  destruct (tnl_port_send e_tnl a (cx_flow c) (cx_wc c)) as [[odp fl] w]. simpl.
  destruct (Z.eqb_spec odp ODPP_NONE) as [|Hn]; [done|]. destruct (_ =? _); [done|]. simpl in Hp.
  destruct (tnl_find_ofport e_tnl a) as [t|]; [|done].
  intros H. exists t. split; [done|]. rewrite <- Hp. revert H. unfold when. destruct (xi_resubmit_stats e_in); simpl; by intros [= <- <- _].
Qed.

Lemma keeps_output_port_tunnel a p : keeps (output_port_tunnel a p).
Proof.
  unfold output_port_tunnel. apply keeps_bind; [keeps|intros fl0]. intros c. apply keeps_at_gets.
  pose proof (tnl_port_send_grows e_tnl a (cx_flow c) (cx_wc c)) as Hg.
  destruct (tnl_port_send e_tnl a (cx_flow c) (cx_wc c)) as [[odp fl] w]. simpl in Hg.
  apply keeps_at_bind.
  - intros _. simpl. trans (set_wc w c); [by apply xrel_set_wc, wc_rel_grows|xrel_same].
  - intros _ c' _ _. apply keeps_at_any. keeps.
Qed.

Lemma plain_port_result a p c o o' c' :
  cx_xbridge c = xp_xbridge p → output_port_plain p (xp_ofp_port p) c = Ok (Some (o, o'), c') →
  pc_is_tunnel (xp_cfg p) = false → odp_port_of a p o.
Proof.
  intros Hx H Ht. unfold odp_port_of. rewrite Ht. revert H.
  unfold output_port_plain, the_bridge, bridge_at, mbind, xlate_bind, gets, lift.
  rewrite Hx. destruct (xc_bridges e_cfg !! xp_xbridge p) as [b|]; [|done]. unfold when, mod_wc, modify, mret, xlate_ret.
  destruct (sv_has_vlan_splinters _); simpl;
    (destruct (Z.eqb_spec (sv_vsp_realdev_to_vlandev (xp_xbridge p) (xp_ofp_port p) (cx_flow c F_vlan_tci)) (xp_ofp_port p));
     intros [= <- <- _]; [by left|right; eexists b, _; split; [done|by split]]).
Qed.

Lemma keeps_output_port_plain p n : keeps (output_port_plain p n).
Proof. unfold output_port_plain. keeps. Qed.
Hint Resolve keeps_output_port_plain keeps_output_port_tunnel : keeps.

Lemma keeps_output_to_datapath a p c :
  xc_ports e_cfg !! a = Some p → any_bit (pc_config (xp_cfg p)) OFPUTIL_PC_NO_FWD = false → xp_peer p = None →
  cx_xbridge c = xp_xbridge p → keeps_at c (output_to_datapath a p (xp_ofp_port p)).
Proof.
  intros Ha Hf Hpeer Hx. unfold output_to_datapath. apply keeps_at_gets. apply keeps_at_bind; [apply keeps_at_any; keeps|].
  intros _ c1 _ Hr1. apply keeps_at_bind; [destruct (pc_is_tunnel _); apply keeps_at_any; keeps|].
  rewrite <- (xr_xbridge _ _ _ Hr1) in Hx. intros r c' Hr _. apply keeps_at_any. apply keeps_bind; [|intros _; keeps]. destruct r as [[o o']|]; [|keeps].
  apply keeps_when. intros Ho%negb_true_iff%Z.eqb_neq. apply keeps_bind; [keeps|intros _]. apply keeps_bind; [|intros _; keeps].
  apply keeps_put_odp. repeat constructor; [done|]. exists a, p. split_and!; [done..|].
  destruct (pc_is_tunnel (xp_cfg p)) eqn:Et; [by eapply tunnel_port_result|by eapply plain_port_result].
Qed.

Lemma lor_u32 x y : is_u32 x → is_u32 y → is_u32 (Z.lor x y).
Proof. intros. by apply (lor_in_width 32). Qed.

Lemma the_bridge_ok c b c' : the_bridge c = Ok (b, c') → c' = c ∧ xc_bridges e_cfg !! cx_xbridge c = Some b.
Proof.
  unfold the_bridge, bridge_at, mbind, xlate_bind, gets, lift. destruct (xc_bridges e_cfg !! cx_xbridge c); [|done].
  by intros [= -> ->].
Qed.

Lemma get_ofp_port_number cfg b n a p : get_ofp_port cfg b n = Some a → xc_ports cfg !! a = Some p → n = xp_ofp_port p.
Proof. intros H Hp. apply find_some in H as [_ H]. rewrite Hp in H. by apply Z.eqb_eq in H. Qed.

Lemma keeps_compose_output n stp : keeps (compose_output_action__ table_action n stp).
Proof.
  intros c. unfold compose_output_action__. apply keeps_at_bind; [apply keeps_the_bridge|].
  intros b c' [-> Hb]%the_bridge_ok _. destruct (get_ofp_port e_cfg b n) as [a|] eqn:Ea; [|apply keeps_at_any; keeps].
  apply keeps_at_bind; [apply keeps_port_at|]. intros p c1 Hp Hr1.
  assert (xc_ports e_cfg !! a = Some p) as Hp'.
  { unfold port_at, lift in Hp. destruct (_ !! a); [|done]. by injection Hp as ->. }
  destruct (any_bit (pc_config (xp_cfg p)) OFPUTIL_PC_NO_FWD) eqn:Ef; [apply keeps_at_any; keeps|].
  apply keeps_at_bind; [destruct stp; apply keeps_at_any; keeps|]. intros fwd c2 _ Hr2.
  destruct fwd; [|apply keeps_at_any; keeps]. unfold when. apply keeps_at_bind.
  - destruct (sv_has_mirrors _); [|apply keeps_at_any; keeps]. destruct (xp_xbundle p) as [u|]; apply keeps_at_any; keeps.
    apply keeps_modify. intros d. xrel_same. intros Hd. apply lor_u32; [done|]. apply sv_mirror_dst_u32.
  - intros _ c3 _ Hr3. assert (Hx : cx_xbridge c3 = xp_xbridge p).
    { rewrite (xr_xbridge _ _ _ Hr3), (xr_xbridge _ _ _ Hr2), (xr_xbridge _ _ _ Hr1). symmetry. by eapply Hcfg. }
    destruct (xp_peer p) as [peer|] eqn:Epeer; [by apply keeps_output_to_peer|].
    rewrite (get_ofp_port_number _ _ _ _ _ Ea Hp'). by apply keeps_output_to_datapath.
Qed.
Hint Resolve keeps_compose_output : keeps.

(** ** Normal forwarding *)

Lemma keeps_output_normal u vlan : keeps (output_normal table_action u vlan).
Proof.
  unfold output_normal. apply keeps_bind; [keeps|intros x]. destruct (xu_xports x) as [|front ?]; [keeps|].
  apply keeps_bind; [|intros a; unfold compose_output_action; keeps]. destruct (uc_bond (xu_cfg x)) as [bond|]; [|keeps].
  intros c. apply keeps_at_gets. pose proof (sv_bond_grows (cx_svc c) bond (cx_flow c) (cx_wc c)
    (output_vlan_to_vid (xu_cfg x) vlan)) as Hg.
  assert (Hs : bond_step (cx_svc c) (sv_bond_choose_output_slave (cx_svc c) bond (cx_flow c) (cx_wc c)
    (output_vlan_to_vid (xu_cfg x) vlan)).1.1) by (by repeat eexists).
  destruct (sv_bond_choose_output_slave _ _ _ _ _) as [[s w] ofport]. simpl in Hg, Hs.
  apply keeps_at_bind; [|intros; apply keeps_at_any; keeps].
  intros _. simpl. trans (set_wc w c); [by apply xrel_set_wc, wc_rel_grows|xrel_same]. intros _. by apply rtc_once.
Qed.
Hint Resolve keeps_output_normal : keeps.

Lemma keeps_the_ml : keeps the_ml.
Proof. unfold the_ml. keeps. Qed.
Hint Resolve keeps_the_ml : keeps.

Lemma keeps_grat : keeps (decide_wc is_gratuitous_arp).
Proof. apply keeps_decide_wc. intros. apply W_is_gratuitous_arp. Qed.
Hint Resolve keeps_grat : keeps.

Lemma keeps_put_ml ml : xi_may_learn e_in = true → keeps (put_ml ml).
Proof. intros H. unfold put_ml. keeps. apply keeps_modify. intros c. xrel_same. congruence. Qed.
Hint Resolve keeps_put_ml : keeps.

Lemma keeps_update_learning_table vlan u : xi_may_learn e_in = true → keeps (update_learning_table vlan u).
Proof.
  intros H. unfold update_learning_table. destruct u as [u|]; [|keeps]. apply keeps_bind.
  - unfold is_mac_learning_update_needed. keeps.
  - intros need. apply keeps_when. intros _. unfold update_learning_table__. keeps.
Qed.

Lemma keeps_is_admissible i vlan : keeps (is_admissible i vlan).
Proof. unfold is_admissible. keeps. Qed.

Lemma keeps_forward_normal u vlan : keeps (forward_normal table_action u vlan).
Proof. unfold forward_normal, floods_to. keeps. Qed.
Hint Resolve keeps_is_admissible keeps_forward_normal keeps_update_learning_table : keeps.

Lemma keeps_normal : keeps (xlate_normal table_action).
Proof. unfold xlate_normal. keeps. Qed.
Hint Resolve keeps_normal : keeps.

(** ** Mirrors *)

(** Removing the lowest bit of a mask, and perhaps others, leaves a higher
    lowest bit. *)
Lemma ctz_removed m m' :
  is_u32 m → m ≠ 0 → (∀ i, 0 ≤ i → Z.testbit m' i = true → Z.testbit m i = true) → Z.testbit m' (ctz m) = false →
  is_u32 m' → m' ≠ 0 → 0 ≤ ctz m < ctz m' ∧ ctz m' < 32.
Proof.
  intros Hm Hn Hsub Hbit Hm' Hn'. unfold ctz in *. rewrite !(proj2 (Z.eqb_neq _ _)) in * by done.
  destruct (raw_ctz_spec m Hm Hn) as [(H0 & H1 & Hlow) ?], (raw_ctz_spec m' Hm' Hn') as [(H0' & H1' & Hlow') ?].
  assert (raw_ctz m ≠ raw_ctz m') by (intros Heq; rewrite Heq in Hbit; congruence).
  assert (¬ raw_ctz m' < raw_ctz m); [|lia]. intros Hlt. specialize (Hsub _ H0' H1'). rewrite Hlow in Hsub; [done|lia].
Qed.

Lemma ctz_cleared m : is_u32 m → m ≠ 0 → Z.testbit (zero_rightmost_1bit m) (ctz m) = false.
Proof.
  intros Hm Hn. unfold ctz. rewrite (proj2 (Z.eqb_neq _ _)) by done. destruct (raw_ctz_spec m Hm Hn) as [Hl _].
  rewrite (zero_rightmost_1bit_spec m (raw_ctz m)); [|by apply (in_width_mono 32)|done|by destruct Hl].
  by rewrite Z.eqb_refl, andb_false_r.
Qed.

Lemma keeps_mirror_loop fuel mb us dst vlan m :
  is_u32 m → (m ≠ 0 → 32 ≤ Z.of_nat fuel + ctz m) → keeps (mirror_loop table_action fuel mb us dst vlan m).
Proof.
  revert m. induction fuel as [|fuel IH]; intros m Hm Hf; simpl; (destruct (Z.eqb_spec m 0) as [|Hn]; [keeps|]).
  { specialize (Hf Hn). unfold ctz in Hf. rewrite (proj2 (Z.eqb_neq _ _)) in Hf by done.
    destruct (raw_ctz_spec m Hm Hn). lia. }
  assert (Hnext : ∀ m', is_u32 m' → (∀ i, 0 ≤ i → Z.testbit m' i = true → Z.testbit m i = true) →
    Z.testbit m' (ctz m) = false → keeps (mirror_loop table_action fuel mb us dst vlan m')).
  { intros m' Hm' Hsub Hbit. apply IH; [done|]. intros Hn'. destruct (ctz_removed m m') as [? ?]; try done. specialize (Hf Hn). lia. }
  intros c. apply keeps_at_bind; [apply keeps_lift|]. intros [[[vlans dups] out] ov] c1 Hc1 _. apply keeps_at_any.
  destruct (sv_mirror_get mb (ctz m)) eqn:Eg; [|done]. injection Hc1 as -> _.
  destruct (sv_mirror_dup _ _ _ _ _ _ Eg) as [Hdup Hw].
  apply keeps_bind; [keeps|intros _]. destruct (match vlans with Some _ => _ | None => _ end).
  - apply Hnext; [by apply zero_rightmost_1bit_u32| |by apply ctz_cleared].
    intros i Hi. unfold zero_rightmost_1bit. rewrite Z.land_spec. by intros [? _]%andb_true_iff.
  - apply keeps_bind; [|intros _]. { apply keeps_modify. intros d. xrel_same. intros Hd. by apply lor_u32. }
    apply keeps_bind; [keeps|intros _]. apply Hnext.
    + by apply ldiff_in_width.
    + intros i Hi. rewrite Z.ldiff_spec. by intros [? _]%andb_true_iff.
    + by rewrite Z.ldiff_spec, Hdup, andb_false_r.
Qed.

(** ** Actions *)

Lemma keeps_flood all : keeps (flood_packets table_action all).
Proof. unfold flood_packets, compose_output_action. keeps. Qed.
Hint Resolve keeps_flood : keeps.

Lemma keeps_output_action n len m : keeps (xlate_output_action table_action n len m).
Proof. unfold xlate_output_action, compose_output_action. keeps. Qed.
Hint Resolve keeps_output_action : keeps.

Lemma keeps_output_reg src len : sf_ok src → keeps (xlate_output_reg_action table_action src len).
Proof.
  intros H. unfold xlate_output_reg_action. keeps. apply keeps_mod_wc. intros w. by apply wc_rel_unwild.
Qed.

Lemma keeps_enqueue n q : keeps (xlate_enqueue_action table_action n q).
Proof. unfold xlate_enqueue_action, compose_output_action. keeps. Qed.

(** A change of the flow and the wildcards that adds to the wildcards. *)
Lemma xrel_flow_wc c fl w : W (cx_wc c) w → xrel W c (set_flow fl (set_wc w c)).
Proof. intros H. trans (set_wc w c); [by apply xrel_set_wc|xrel_same]. Qed.

Lemma keeps_bundle_action b : from_option sf_ok True (bd_dst b) → keeps (xlate_bundle_action table_action b).
Proof.
  intros H. unfold xlate_bundle_action. apply keeps_bind; [keeps|intros x]. intros c. apply keeps_at_gets.
  pose proof (W_bundle_execute b (cx_flow c) (cx_wc c) (slave_enabled_cb x)) as Hw. revert Hw.
  generalize (bundle_execute b (cx_flow c) (cx_wc c) (slave_enabled_cb x)). intros r Hw.
  apply keeps_at_bind; [intros _; by apply xrel_set_wc|]. intros _ c' _ _. apply keeps_at_any.
  destruct (bd_dst b) as [dst|]; [|keeps]. apply keeps_modify. intros d. simpl. apply xrel_flow_wc. by apply wc_rel_unwild.
Qed.

Lemma keeps_resubmit i t : keeps (xlate_ofpact_resubmit table_action i t).
Proof. unfold xlate_ofpact_resubmit. keeps. Qed.

Lemma keeps_multipath mp :
  sf_ok (mp_dst mp) →
  keeps (modify (λ c, let '(fl, wc) := multipath_execute mp (cx_flow c) (cx_wc c) in set_flow fl (set_wc wc c))).
Proof.
  intros H. apply keeps_modify. intros c. simpl. apply xrel_flow_wc. etrans; [apply wc_rel_grows, flow_mask_hash_fields_grows|]. by apply wc_rel_unwild.
Qed.

Lemma keeps_set_field f mask v : (∀ w, W w (mask w)) → keeps (set_field_wc f mask v).
Proof. intros H. unfold set_field_wc. apply keeps_bind; [by apply keeps_mod_wc|intros _; keeps]. Qed.

Hint Resolve keeps_output_reg keeps_enqueue keeps_bundle_action keeps_resubmit keeps_mpls_push keeps_mpls_pop
  keeps_dec_ttl keeps_set_mpls_ttl keeps_dec_mpls_ttl keeps_learn keeps_learn_learn keeps_learn_delete keeps_increment
  keeps_fin_timeout keeps_sample keeps_set_queue : keeps.

Lemma keeps_go (m : xlate unit) : keeps m → keeps (_ ← m; mret false).
Proof. intros H. keeps. Qed.

Lemma keeps_do_action a : act_ok a → keeps (do_xlate_action table_action a).
Proof.
  intros H. destruct a; unfold do_xlate_action; simpl in H; try apply keeps_go;
    try (apply keeps_set_field; intros w; first [apply W_unwildcard | by apply W_wc_or]); try by keeps.
  - apply keeps_modify. intros c. simpl. apply xrel_flow_wc. destruct H.
    etrans; [|by apply wc_rel_unwild]. by apply wc_rel_unwild.
  - apply keeps_modify. intros c. simpl. trans (set_wc (mf_unwild sf (cx_wc c)) c); [by apply xrel_set_wc, wc_rel_unwild|xrel_same].
  - apply keeps_modify. intros c. unfold nxm_execute_stack_pop. destruct (cx_stack c); [xrel_same|].
    trans (set_flow (mf_write_subfield_flow sf z (cx_flow c)) (set_wc (mf_unwild sf (cx_wc c)) c)); [|xrel_same].
    by apply xrel_flow_wc, wc_rel_unwild.
  - by apply keeps_multipath.
Qed.

Lemma keeps_to_egress st : keeps (to_egress table_action st).
Proof. unfold to_egress. keeps. Qed.
Hint Resolve keeps_to_egress : keeps.

Lemma keeps_actions_loop acts done : Forall act_ok acts → keeps (xlate_actions_loop table_action acts done).
Proof.
  intros H. revert done. induction H as [|a acts Ha _ IH]; intros done; simpl; [keeps|].
  apply keeps_bind; [keeps|intros []; [keeps|]]. apply keeps_bind; [by apply keeps_do_action|intros []; [keeps|]].
  apply keeps_bind; [keeps|intros t]. apply keeps_bind; [|intros _; apply IH]. apply keeps_when. intros _.
  unfold do_xlate_egress_action. keeps.
Qed.

Lemma keeps_do_xlate_actions acts : Forall act_ok acts → keeps (do_xlate_actions table_action acts).
Proof. intros H. unfold do_xlate_actions. apply keeps_bind; [by apply keeps_actions_loop|intros [d|]]; keeps. Qed.

End actions.

(** ** Table lookups *)

Lemma lookup_rule_ok o t s fl w r : (rule_dpif_lookup_in_table o t s fl w).1 = Some r → rule_ok r.
Proof.
  unfold rule_dpif_lookup_in_table. destruct (_ <=? _); [done|]. destruct (sv_frag_handling o).
  2: destruct (any_bit _ _); [intros [= <-]; apply Hrules|]. all: apply Hrules.
Qed.

Lemma all_ones_grows w : wc_grows w all_ones.
Proof.
  intros Hw. split; intros f; pose proof (field_width_pos f); unfold all_ones.
  - pose proof (Z.pow_pos_nonneg 2 (field_width f)). split; lia.
  - apply land_all_ones; [apply Hw|lia].
Qed.

Lemma W_lookup o t s fl w : W w (rule_dpif_lookup_in_table o t s fl w).2.
Proof.
  apply wc_rel_grows. unfold rule_dpif_lookup_in_table. destruct (_ <=? _); [done|].
  set (w1 := wc_or _ _ _). trans w1; [subst w1; wc_grows|].
  destruct (sv_frag_handling o); try apply sv_lookup_grows.
  destruct (any_bit _ _); [apply all_ones_grows|apply sv_lookup_grows].
Qed.

Lemma lookup_step_rel c i t :
  cx_recurse c < 256 →
  ∃ r c', lookup_step i t c = Ok (r, c') ∧ xrel W c c' ∧ cx_trace c' = cx_trace c ++ [(cx_recurse c, t)]
          ∧ from_option rule_ok True r.
Proof.
  intros Hc. unfold lookup_step, mbind, xlate_bind, gets, mod_wc, modify, mret, xlate_ret.
  pose proof (W_lookup (cx_xbridge c) t (cx_svc c) (upd F_in_port i (cx_flow c)) (cx_wc c)) as Hw.
  pose proof (lookup_rule_ok (cx_xbridge c) t (cx_svc c) (upd F_in_port i (cx_flow c)) (cx_wc c)) as Hr. revert Hw Hr.
  generalize (rule_dpif_lookup_in_table (cx_xbridge c) t (cx_svc c) (upd F_in_port i (cx_flow c)) (cx_wc c)).
  intros [r w] Hw Hr. eexists _, _. split_and!; [done| |done|destruct r; [by apply Hr|done]].
  trans (set_wc w c); [by apply xrel_set_wc|]. split; simpl; try reflexivity; try done; try (exists []; by rewrite app_nil_r).
  eexists. split; [done|]. repeat constructor; simpl; lia.
Qed.

Lemma miss_step_rel c t m r :
  from_option rule_ok True r →
  match miss_step t m r c with Ok (r', c') => c' = c ∧ from_option rule_ok True r' | Abort => True | OutOfFuel => False end.
Proof.
  intros Hr. unfold miss_step. destruct r as [r|]; [done|]. destruct (m && _); [|done].
  unfold the_bridge, bridge_at, mbind, xlate_bind, gets, lift.
  destruct (xc_bridges e_cfg !! cx_xbridge c) as [b|] eqn:Eb; [|done]. simpl. split; [done|].
  destruct (ro_bridge Hrules _ _ Eb). unfold choose_miss_rule. by destruct (any_bit _ _).
Qed.

Lemma xrel_recursively r c c' :
  xrel W (set_rule (Some r) (set_recurse (cx_recurse c + 1) c)) c' →
  xrel W c (set_recurse (cx_recurse c' - 1) (set_rule (cx_rule c) c')).
Proof.
  intros [? Hrec ? ? ? ? ? (tr & Et & Ft) ? ? ? ? ? ? ? ?]. simpl in *. split; simpl; try done; [lia|].
  exists tr. split; [done|]. eapply Forall_impl; [exact Ft|]. simpl. intros e. lia.
Qed.

(** What a table action at level [r] for table [t] does. *)
Definition table_post (c : xlate_ctx) (t : Z) (r : res (unit * xlate_ctx)) : Prop :=
  match r with
  | Ok (_, c') =>
      xrel W c c'
      ∧ (cx_recurse c < 256 → ∃ tr, cx_trace c' = cx_trace c ++ tr ∧ pipeline (cx_recurse c) (cx_counters c) t tr (cx_counters c'))
  | Abort => True
  | OutOfFuel => False
  end.

Lemma recursively_post do_actions rule c :
  (∀ d, L + 1 ≤ cx_recurse d →
     match do_actions (rl_actions rule) d with Ok (_, d') => xrel W d d' | Abort => True | OutOfFuel => False end) →
  L ≤ cx_recurse c →
  match xlate_recursively do_actions rule c with
  | Ok (_, c') => xrel W c c' ∧ ∃ tr, cx_trace c' = cx_trace c ++ tr ∧ Forall (λ e, cx_recurse c < e.1) tr
  | Abort => True
  | OutOfFuel => False
  end.
Proof.
  intros Hdo Hc. unfold xlate_recursively, mbind, xlate_bind, gets, modify.
  set (d := (if xi_resubmit_stats e_in then set_svc (sv_credit_stats (cx_svc c) rule) c else c) : xlate_ctx).
  assert (Hd : xrel W c d) by (subst d; destruct (xi_resubmit_stats e_in) eqn:?; [xrel_same; not_quiet|done]).
  assert (when (xi_resubmit_stats e_in) (mod_svc (λ s, sv_credit_stats s rule)) c = Ok (tt, d)) as ->
    by (subst d; by destruct (xi_resubmit_stats e_in)).
  specialize (Hdo (set_rule (Some rule) (set_recurse (cx_recurse d + 1) d))). simpl in Hdo.
  rewrite (xr_recurse _ _ _ Hd) in Hdo at 1. specialize (Hdo ltac:(lia)).
  destruct (do_actions _ _) as [[[] d']| |]; [|done|done]. rewrite <- (xr_rule _ _ _ Hd).
  split; [etrans; [done|by eapply xrel_recursively]|]. simpl.
  destruct (xr_trace _ _ _ Hdo) as (tr & Et & Ft).
  assert (Et' : cx_trace d = cx_trace c) by (subst d; by destruct (xi_resubmit_stats e_in)).
  simpl in *. exists tr. rewrite Et, Et'. split; [done|].
  eapply Forall_impl; [exact Ft|]. simpl. intros e. rewrite (xr_recurse _ _ _ Hd). lia.
Qed.

(** The beginning of a table action: the table is entered and looked up. *)
Lemma table_enter_post i t m c :
  cx_recurse c < 256 →
  match table_enter i t m c with
  | Ok (r, c') =>
      xrel W (set_table_id t c) c' ∧ cx_trace c' = cx_trace c ++ [(cx_recurse c, t)] ∧ from_option rule_ok True r
  | Abort => True
  | OutOfFuel => False
  end.
Proof.
  intros Hc. unfold table_enter, mbind, xlate_bind, modify.
  set (d := (if t =? SIMON_TABLE_EGRESS_START then set_flow (egress_compare (cx_flow c)) (set_table_id t c)
             else set_table_id t c) : xlate_ctx).
  assert (Hd : xrel W (set_table_id t c) d) by (subst d; destruct (_ =? _); [xrel_same|done]).
  assert (when (t =? SIMON_TABLE_EGRESS_START) (mod_flow egress_compare) (set_table_id t c) = Ok (tt, d)) as ->
    by (subst d; by destruct (_ =? _)).
  destruct (lookup_step_rel d i t) as (r & d' & -> & Hd' & Et & Hr); [by rewrite (xr_recurse _ _ _ Hd)|].
  pose proof (miss_step_rel d' t m r Hr) as Hm. destruct (miss_step t m r d') as [[r' d'']| |]; [|done|done].
  destruct Hm as [-> Hr']. split_and!; [by etrans| |done].
  rewrite Et, (xr_recurse _ _ _ Hd). subst d. by destruct (_ =? _).
Qed.

Lemma table_action_body_post do_actions next i t m c :
  (∀ rule d, rule_ok rule → L + 1 ≤ cx_recurse d →
     match do_actions (rl_actions rule) d with Ok (_, d') => xrel W d d' | Abort => True | OutOfFuel => False end) →
  (∀ k t' d, follows k t t' → L ≤ cx_recurse d → table_post d t' (next i t' m d)) →
  L ≤ cx_recurse c → table_post c t (table_action_body do_actions next i t m c).
Proof.
  intros Hdo Hnext Hc. unfold table_action_body, mbind, xlate_bind, gets.
  destruct (Z.ltb_spec (cx_recurse c) MAX_RESUBMIT_RECURSION) as [Hlt|Hge]; unfold MAX_RESUBMIT_RECURSION in *; simpl;
    [|split; [done|lia]].
  pose proof (table_enter_post i t m c Hlt) as He. destruct (table_enter i t m c) as [[r c1]| |]; [|done|done].
  destruct He as (H1 & Et1 & Hr). pose proof (xr_recurse _ _ _ H1) as R1. simpl in R1.
  set (run := match r with Some rule => xlate_recursively do_actions rule | None => mret tt end).
  assert (Hrun : match run c1 with
    | Ok (_, c') => xrel W c1 c' ∧ ∃ tr, cx_trace c' = cx_trace c1 ++ tr ∧ Forall (λ e, cx_recurse c1 < e.1) tr
    | Abort => True | OutOfFuel => False end).
  { subst run. destruct r as [rule|]; [apply recursively_post; [intros d; by apply Hdo|lia]|]. simpl. split; [done|].
    exists []. by rewrite app_nil_r. }
  destruct (run c1) as [[[] c2]| |]; [|done|done]. destruct Hrun as (H2 & sub & Et2 & Fs).
  pose proof (xr_recurse _ _ _ H2) as R2. rewrite R1 in Fs, R2. rewrite Et1 in Et2.
  assert (Hend : ∀ d, xrel W (set_table_id t c) d → xrel W c (set_table_id (cx_table_id c) d)).
  { intros d []. simpl in *. by split. }
  assert (Hk : rtc counter_step (cx_counters c) (cx_counters c2)) by (etrans; [exact (xr_counters _ _ _ H1)|exact (xr_counters _ _ _ H2)]).
  pose proof (next_table_spec t (cx_counters c2)) as En. destruct (next_table t (cx_counters c2)) as [t'|].
  - pose proof (Hnext _ t' c2 En ltac:(lia)) as Hn.
    destruct (next i t' m c2) as [[[] c3]| |]; [|done|done]. destruct Hn as [H3 Hp].
    split; [apply Hend; by do 2 (etrans; [done|])|]. intros _. destruct Hp as (tr & Et3 & Hp); [lia|]. rewrite R2 in Hp.
    exists ((cx_recurse c, t) :: sub ++ tr). simpl. rewrite Et3, Et2, <- !app_assoc. split; [done|].
    by eapply pipeline_next.
  - split; [apply Hend; by etrans|]. intros _. exists ((cx_recurse c, t) :: sub). simpl. rewrite Et2, <- app_assoc.
    split; [done|]. by apply pipeline_last.
Qed.

Lemma table_chain_post do_actions fuel i t m c :
  (∀ rule d, rule_ok rule → L + 1 ≤ cx_recurse d →
     match do_actions (rl_actions rule) d with Ok (_, d') => xrel W d d' | Abort => True | OutOfFuel => False end) →
  255 - t < Z.of_nat fuel → L ≤ cx_recurse c → (0 < fuel)%nat →
  table_post c t (table_chain do_actions fuel i t m c).
Proof.
  intros Hdo. revert t c. induction fuel as [|fuel IH]; intros t c Hf Hc Hp; [lia|]. simpl.
  apply table_action_body_post; [done| |done]. intros k t' d Ht Hd. pose proof (follows_lt _ _ _ Ht). apply IH; [lia|done|lia].
Qed.

End keeps.

(** ** The recursion *)

Section translation.
Context {Sv : xlate_services} {Svok : xlate_services_ok Sv} {E : xlate_env}.
Context (W : flowf → flowf → Prop) (sf_ok : mf_subfield → Prop) {HW : wc_rel W sf_ok}.
Context (Hrules : rules_ok sf_ok) (Hcfg : cfg_ports_ok).

Lemma table_action_fuel_post depth i t m c :
  256 - Z.of_nat depth ≤ cx_recurse c → table_post W c t (xlate_table_action_fuel (S depth) i t m c).
Proof.
  revert i t m c. induction depth as [|depth IH]; intros i t m c Hc.
  - cbn [xlate_table_action_fuel table_chain]. unfold table_action_body, mbind, xlate_bind, gets.
    destruct (Z.ltb_spec (cx_recurse c) MAX_RESUBMIT_RECURSION); unfold MAX_RESUBMIT_RECURSION in *; [lia|].
    split; [done|lia].
  - change (xlate_table_action_fuel (S (S depth)) i t m c) with
      (table_chain (do_xlate_actions (xlate_table_action_fuel (S depth))) (S (Z.to_nat (255 - t))) i t m c).
    apply (table_chain_post W sf_ok (256 - Z.of_nat (S depth))); [done| |lia|lia|lia].
    intros rule d Hr Hd. apply (keeps_do_xlate_actions W sf_ok (256 - Z.of_nat (S depth) + 1)); try done.
    intros i' t' m' c' Hc'. pose proof (IH i' t' m' c' ltac:(lia)) as Hp. unfold table_post in Hp.
    destruct (xlate_table_action_fuel (S depth) i' t' m' c') as [[[] c2]| |]; [by destruct Hp|done|done].
Qed.

End translation.
