(* ===== verification/XlateTop.v ===== *)
(** * Whole translations

    The theorems about [xlate_actions] and [xlate_table_action], from what
    every step keeps: a translation ends, it outputs only to ports that
    forward, it goes through the tables in the order of the pipeline, without
    a packet it has no effect on the tables of the switch, and the wildcards
    it returns fix what the datapath's cache always matches on. *)
From stdpp Require Import gmap.
From S2P Require Import Prelude Util ByteOrder Hash Hmap HmapThms Bitmap MatchFields MetaFlow OdpActions NxActions.
From S2P Require Import TableCounters Learn Tunnel MacLearning Stp XlateConfig XlateConfigThms XlateCtx Xlate.
From S2P Require Import XlateThms.

Section top.
Context {Sv : xlate_services} {Svok : xlate_services_ok Sv} {E : xlate_env}.
Context (W : flowf → flowf → Prop) (sf_ok : mf_subfield → Prop) {HW : wc_rel W sf_ok}.

Definition top_inv (c : xlate_ctx) : Prop :=
  0 ≤ cx_recurse c ∧ is_u32 (cx_mirrors c) ∧ Forall output_allowed (cx_odp_actions c).

Record xtop (c c' : xlate_ctx) : Prop := {
  xt_wc : W (cx_wc c) (cx_wc c');
  xt_learn : xi_may_learn e_in = false → cx_ml c' = cx_ml c;
  xt_increment : xi_may_increment e_in = false → cx_counters c' = cx_counters c;
  xt_packet : xi_packet e_in = None → cx_stp c' = cx_stp c ∧ cx_packet_ins c' = cx_packet_ins c;
  xt_svc : quiet → rtc bond_step (cx_svc c) (cx_svc c')
}.

#[local] Instance xtop_preorder : PreOrder xtop.
Proof.
  split; [by intros c; split|]. intros a b c [? Hl Hi Hp Hs] [? Hl' Hi' Hp' Hs']. split; [by etrans|..].
  - intros E1. by rewrite Hl', Hl.
  - intros E1. by rewrite Hi', Hi.
  - intros E1. destruct (Hp E1), (Hp' E1). split; congruence.
  - intros E1. by etrans; [apply Hs|apply Hs'].
Qed.

(** A step of a whole translation, whose result satisfies [Q]. *)
Definition tops {A} (Q : A → Prop) (m : xlate A) : Prop :=
  ∀ c, top_inv c →
  match m c with Ok (a, c') => top_inv c' ∧ xtop c c' ∧ Q a | Abort => True | OutOfFuel => False end.

Notation any := (λ _, True).

Lemma tops_bind {A B} Q Q' (m : xlate A) (k : A → xlate B) :
  tops Q m → (∀ a, Q a → tops Q' (k a)) → tops Q' (a ← m; k a).
Proof.
  intros Hm Hk c Hc. unfold mbind, xlate_bind. specialize (Hm c Hc). destruct (m c) as [[a c1]| |]; [|done|done].
  destruct Hm as (H1 & R1 & Ha). specialize (Hk a Ha c1 H1). destruct (k a c1) as [[b c2]| |]; [|done|done].
  destruct Hk as (H2 & R2 & Hb). split_and!; [done|by etrans|done].
Qed.

Lemma tops_keeps {A} (m : xlate A) : keeps W 0 m → tops any m.
Proof.
  intros Hm c (Hr & Hmi & Ha). specialize (Hm c Hr). destruct (m c) as [[a c']| |]; [|done|done].
  destruct Hm as [? Hrec ? ? ? (l & El & Fl) ? ? Hmir ? ? ? ? ? ? ?]. split_and!; [|split; try done; intros ?; by apply counter_steps_none|done]. split_and!; [lia|auto|].
  rewrite El. by apply Forall_app.
Qed.

Lemma tops_modify f : (∀ c, top_inv c → top_inv (f c) ∧ xtop c (f c)) → tops any (modify f).
Proof. intros H c Hc. destruct (H c Hc). done. Qed.

Lemma tops_when b m : tops any m → tops any (when b m).
Proof. intros H. destruct b; [done|]. by apply tops_keeps, (keeps_ret W sf_ok). Qed.

Lemma tops_weaken {A} (Q Q' : A → Prop) m : tops Q m → (∀ a, Q a → Q' a) → tops Q' m.
Proof.
  intros H HQ c Hc. specialize (H c Hc). destruct (m c) as [[a c']| |]; [|done|done]. destruct H as (? & ? & ?). auto.
Qed.

Context (Hrules : rules_ok sf_ok) (Hcfg : cfg_ports_ok).
Context (Hin : Forall (act_ok sf_ok) (default [] (xi_ofpacts e_in))) (Hrule : from_option (rule_ok sf_ok) True (xi_rule e_in)).

Lemma keeps_table_action i t m : keeps W 0 (xlate_table_action i t m).
Proof.
  intros c Hc. pose proof (table_action_fuel_post W sf_ok Hrules Hcfg 256 i t m c ltac:(lia)) as Hp.
  unfold xlate_table_action. unfold table_post in Hp.
  destruct (xlate_table_action_fuel 257 i t m c) as [[[] c']| |]; [by destruct Hp|done|done].
Qed.

Lemma W_rule_lookup o s fl w : W w (rule_dpif_lookup o s fl w).2.
Proof.
  unfold rule_dpif_lookup. pose proof (W_lookup W sf_ok o 0 s fl w) as Hw.
  by destruct (rule_dpif_lookup_in_table o 0 s fl w).
Qed.

Lemma rule_lookup_ok o s fl w : rule_ok sf_ok (rule_dpif_lookup o s fl w).1.
Proof.
  unfold rule_dpif_lookup. pose proof (lookup_rule_ok sf_ok Hrules o 0 s fl w) as Hr.
  destruct (rule_dpif_lookup_in_table o 0 s fl w) as [[r|] w']; [by apply Hr|]. simpl.
  unfold choose_miss_rule. destruct (any_bit _ _); apply Hrules.
Qed.

Lemma tops_initial_rule : tops (Forall (act_ok sf_ok)) initial_rule.
Proof.
  unfold initial_rule. apply (tops_bind (Forall (act_ok sf_ok))).
  - destruct (xi_ofpacts e_in) as [acts|]; [intros c Hc; by split_and!|].
    destruct (xi_rule e_in) as [rule|]; [intros c Hc; by split_and!|]. intros c Hc.
    unfold mbind, xlate_bind, gets, mod_wc, modify.
    pose proof (W_rule_lookup (cx_xbridge c) (cx_svc c) (cx_flow c) (cx_wc c)) as Hw.
    pose proof (rule_lookup_ok (cx_xbridge c) (cx_svc c) (cx_flow c) (cx_wc c)) as Hr. revert Hw Hr.
    generalize (rule_dpif_lookup (cx_xbridge c) (cx_svc c) (cx_flow c) (cx_wc c)). intros [r w] Hw Hr.
    destruct (xi_resubmit_stats e_in) eqn:Est; simpl; split_and!; try done; try apply Hc.
    split; try done. intros (_ & _ & H & _). congruence.
  - intros acts Ha. apply (tops_bind any); [|by intros _ _ c Hc; split_and!].
    apply tops_modify. intros c Hc. split; [exact Hc|by split].
Qed.

Lemma tops_truncate n : tops any (modify (λ c, set_odp_actions (take n (cx_odp_actions c)) c)).
Proof.
  apply tops_modify. intros c (H1 & H2 & H3). split; [|by split]. split_and!; [done..|]. by apply Forall_take.
Qed.

Lemma tops_fix_sflow : tops any fix_sflow_action.
Proof.
  unfold fix_sflow_action. intros c Hc. unfold mbind at 1, xlate_bind at 1, gets at 1.
  destruct (cx_user_cookie_offset c); [|by split_and!].
  unfold when, the_bridge, bridge_at, mbind, xlate_bind, gets, lift, modify, abort.
  destruct (xc_bridges e_cfg !! cx_xbridge c) as [b|]; [|done]. simpl. destruct (bc_sflow (xb_cfg b)); [|done]. simpl.
  destruct (cx_odp_actions c) as [|[] acts] eqn:Ea; try done. destruct cookie; try done.
  destruct Hc as (H1 & H2 & H3). rewrite Ea in H3. apply Forall_cons in H3 as [_ H3].
  split_and!; [|done|done]. split_and!; [done..|]. by constructor.
Qed.

Lemma tops_mirror_actions orig : tops any (add_mirror_actions xlate_table_action orig).
Proof.
  unfold add_mirror_actions. apply (tops_bind any); [by apply tops_keeps, (keeps_the_bridge W sf_ok)|intros b _].
  apply (tops_bind is_u32); [intros c Hc; split_and!; [done..|apply Hc]|intros mirrors Hm].
  apply (tops_bind any). { apply tops_modify. intros c (H1 & H2 & H3). split; [|by split]. by split_and!. }
  intros _ _. apply (tops_bind any); [by apply tops_keeps, (keeps_lookup_input_bundle W sf_ok)|intros r _].
  destruct r.1 as [u|]; [|by apply tops_keeps, (keeps_ret W sf_ok)]. destruct (negb _).
  { apply tops_modify. intros c (H1 & H2 & H3). split; [|by split]. split_and!; [done..|]. constructor. }
  apply (tops_bind any); [by apply tops_keeps, (keeps_bundle_cfg W sf_ok)|intros cfg _]. apply tops_when.
  apply (tops_bind any); [by apply tops_keeps, (keeps_mod_flow W sf_ok)|intros _ _]. apply tops_keeps.
  assert (is_u32 (Z.lor mirrors (xbundle_mirror_src (bc_mbridge (xb_cfg b)) u))).
  { apply lor_u32; [done|]. unfold xbundle_mirror_src. destruct u; [apply sv_mirror_src_u32|done]. }
  apply (keeps_mirror_loop W sf_ok); try done; [apply keeps_table_action|].
  intros Hn. unfold ctz. rewrite (proj2 (Z.eqb_neq _ _)) by done. destruct (raw_ctz_spec _ H Hn) as [[? _] _]. lia.
Qed.

Ltac top :=
  repeat first
    [ apply tops_keeps; first
        [ apply (keeps_ret W sf_ok) | apply (keeps_gets W sf_ok) | apply (keeps_the_bridge W sf_ok)
        | apply (keeps_port_at W sf_ok) | apply (keeps_may_receive W sf_ok) | apply (keeps_stp_forward W sf_ok)
        | apply (keeps_add_sflow W sf_ok) | apply (keeps_compose_ipfix W sf_ok) | apply (keeps_process_special W sf_ok)
        | apply (keeps_do_xlate_actions W sf_ok); try done; apply keeps_table_action
        | apply (keeps_compose_output W sf_ok); try done; apply keeps_table_action ]; fail
    | apply tops_truncate | apply tops_fix_sflow | apply tops_mirror_actions | apply tops_when
    | apply (tops_bind any); [|intros ? _]
    | apply tops_modify; intros ? Hc; split; [exact Hc|by split]; fail
    | case_match ].

Lemma tops_frag_step b : tops any (frag_step b).
Proof. unfold frag_step. top. done. Qed.

Lemma tops_xlate_packet b i acts orig :
  Forall (act_ok sf_ok) acts → tops any (xlate_packet b i acts orig).
Proof. intros Ha. unfold xlate_packet. top. Qed.

Lemma tops_xlate_flow tms : tops any (xlate_flow tms).
Proof.
  unfold xlate_flow. apply (tops_bind any); [top|intros b _].
  apply (tops_bind (Forall (act_ok sf_ok))); [apply tops_initial_rule|intros acts Ha].
  apply (tops_bind any); [top|intros orig _]. apply (tops_bind any); [apply tops_frag_step|intros go _].
  apply (tops_bind any); [|intros _ _; top]. apply tops_when. apply (tops_bind any); [top|intros fl _].
  apply (tops_bind any); [top|intros special _]. destruct special; [top|by apply tops_xlate_packet].
Qed.

(** The context [d] is the one before the masks of the fields that are not the
    packet's are cleared. *)
Lemma actions_step_post tms c :
  top_inv c →
  match xlate_actions_step tms c with
  | Ok (_, c') =>
      top_inv c' ∧ ∃ d, xtop c d ∧ (c' = d ∨ c' = set_wc (flow_wildcards_clear_non_packet (cx_wc d)) d)
  | Abort => True
  | OutOfFuel => False
  end.
Proof.
  intros Hc. pose proof (tops_xlate_flow tms c Hc) as H. unfold xlate_actions_step, mbind, xlate_bind.
  destruct (xlate_flow tms c) as [[go d]| |]; [|done|done]. destruct H as (Hd & Hr & _).
  destruct go; simpl; (split; [exact Hd|exists d; auto]).
Qed.
End top.

Section theorems.
Context {Sv : xlate_services} {Svok : xlate_services_ok Sv} {E : xlate_env}.

Lemma cfg_inv_ports_ok : cfg_inv e_cfg → cfg_ports_ok.
Proof.
  intros Hc o b n a p Hb Ha Hp. destruct (get_ofp_port_spec e_cfg o b n Hc Hb) as [H _].
  destruct (H a Ha) as (p' & Hp' & Ho & _). congruence.
Qed.

Lemma any_act_ok a : act_ok (λ _, True) a.
Proof.
  assert (Hs : ∀ specs, Forall (spec_src_ok (λ _, True)) specs).
  { intros specs. apply Forall_forall. intros spec _. unfold spec_src_ok. by repeat case_match. }
  destruct a; simpl; auto. by destruct (bd_dst bundle).
Qed.

Lemma any_rules_ok : rules_ok (λ _, True).
Proof. split; intros; try split; apply Forall_forall; intros a _; apply any_act_ok. Qed.

Lemma init_ctx_inv b ml stps counters s : top_inv (init_ctx b ml stps counters s).2.
Proof.
  unfold init_ctx. destruct (tnl_xlate_init _ _ _) as [[tms fl] w]. simpl. split_and!; simpl; [lia|done|constructor].
Qed.

(** The result of a translation, for any relation on wildcards. *)
Lemma xlate_actions_post W sf_ok `{wc_rel W sf_ok} ml stps counters s :
  cfg_inv e_cfg → rules_ok sf_ok → Forall (act_ok sf_ok) (default [] (xi_ofpacts e_in)) →
  from_option (rule_ok sf_ok) True (xi_rule e_in) →
  ∀ r, xlate_actions ml stps counters s = Some r →
  ∃ b c, xc_bridges e_cfg !! xi_ofproto e_in = Some b ∧ c = (init_ctx b ml stps counters s).2 ∧
  match r with
  | Ok (_, c') =>
      top_inv c' ∧ ∃ d, xtop W c d ∧ (c' = d ∨ c' = set_wc (flow_wildcards_clear_non_packet (cx_wc d)) d)
  | Abort => True
  | OutOfFuel => False
  end.
Proof.
  intros Hc Hr Hi Hu r. unfold xlate_actions. destruct (xc_bridges e_cfg !! xi_ofproto e_in) as [b|]; [|done].
  cbn [option_bind mbind]. pose proof (init_ctx_inv b ml stps counters s) as Hinit. revert Hinit.
  destruct (init_ctx b ml stps counters s) as [tms c] eqn:Ei. intros Hinit [= <-]. exists b, c. rewrite Ei.
  split_and!; [done..|]. apply (actions_step_post W sf_ok Hr (cfg_inv_ports_ok Hc) Hi Hu tms c Hinit).
Qed.

Lemma xlate_actions_any ml stps counters s :
  cfg_inv e_cfg → ∀ r, xlate_actions ml stps counters s = Some r →
  ∃ b c, xc_bridges e_cfg !! xi_ofproto e_in = Some b ∧ c = (init_ctx b ml stps counters s).2 ∧
  match r with
  | Ok (_, c') =>
      top_inv c' ∧ ∃ d, xtop (λ _ _, True) c d ∧ (c' = d ∨ c' = set_wc (flow_wildcards_clear_non_packet (cx_wc d)) d)
  | Abort => True
  | OutOfFuel => False
  end.
Proof.
  intros Hc. apply (xlate_actions_post (λ _ _, True) (λ _, True)); [done|apply any_rules_ok|..].
  - apply Forall_forall. intros a _. apply any_act_ok.
  - destruct (xi_rule e_in); [|done]. apply Forall_forall. intros a _. apply any_act_ok.
Qed.

Lemma init_ctx_tables b ml stps counters s :
  let c := (init_ctx b ml stps counters s).2 in
  cx_ml c = ml ∧ cx_stp c = stps ∧ cx_counters c = counters ∧ cx_packet_ins c = [] ∧ cx_svc c = s.
Proof. unfold init_ctx. by destruct (tnl_xlate_init _ _ _) as [[tms fl] w]. Qed.

(** C4: translation terminates.  In a configuration that the configuration
    calls reach, whatever the flow tables, actions, patch ports and counters
    are, the recursion through resubmissions, patch ports, mirrors and the
    automatic resubmissions of the pipeline comes to an end, with a result or a
    failed assertion: the fuel of the model, 257 recursion levels and the 256
    tables, always suffices.  The only other loop without a bound in the code,
    that of iterative hashing in a multipath action, is a total function here,
    which ends as the code's does ([NxActions.iter_hash_ends]). *)
Theorem xlate_terminates ml stps counters s :
  rtc cfg_step empty_cfg e_cfg → xlate_actions ml stps counters s ≠ Some OutOfFuel.
Proof.
  intros Hc%cfg_steps_inv Hr. destruct (xlate_actions_any ml stps counters s Hc _ Hr) as (b & c & _ & _ & []).
Qed.

(** C5: a translation outputs only to ports that forward.  Every output action
    it returns is for a port of the configuration that is no patch port and
    does not have forwarding disabled, and goes to the datapath port of its
    tunnel if it is a tunnel port, and otherwise to its own datapath port or
    to that of the VLAN device which stands for the port and a VLAN in the
    port's bridge. *)
Theorem xlate_outputs_allowed ml stps counters s c :
  rtc cfg_step empty_cfg e_cfg → xlate_actions ml stps counters s = Some (Ok (tt, c)) →
  ∀ o, ODP_OUTPUT o ∈ cx_odp_actions c →
  o ≠ ODPP_NONE
  ∧ ∃ a p, xc_ports e_cfg !! a = Some p ∧ any_bit (pc_config (xp_cfg p)) OFPUTIL_PC_NO_FWD = false
           ∧ xp_peer p = None ∧ odp_port_of a p o.
Proof.
  intros Hc%cfg_steps_inv Hr o Ho. destruct (xlate_actions_any ml stps counters s Hc _ Hr) as (b & c0 & _ & _ & Hi & _).
  destruct Hi as (_ & _ & Ha). rewrite Forall_forall in Ha. exact (Ha _ Ho).
Qed.

(** C20: every effect of a translation has its switch.  A translation that may
    not learn, learns no MAC address; one that may not increment the table
    counters, leaves them alone; one without a packet shows no BPDU to a
    spanning tree and sends no packet to a controller; and one without a
    packet that may not learn, has no statistics to credit and whose TCP flags
    do not end a connection, leaves the flow tables, statistics, timeouts and
    protocols as they are, and only bonds may assign the flow to a slave. *)
Theorem xlate_revalidation_pure ml stps counters s c :
  rtc cfg_step empty_cfg e_cfg → xlate_actions ml stps counters s = Some (Ok (tt, c)) →
  (xi_may_learn e_in = false → cx_ml c = ml)
  ∧ (xi_may_increment e_in = false → cx_counters c = counters)
  ∧ (xi_packet e_in = None → cx_stp c = stps ∧ cx_packet_ins c = [])
  ∧ (xi_packet e_in = None → xi_may_learn e_in = false → xi_resubmit_stats e_in = false → any_bit (xi_tcp_flags e_in) 5 = false →
     rtc bond_step s (cx_svc c)).
Proof.
  intros Hc%cfg_steps_inv Hr.
  destruct (xlate_actions_any ml stps counters s Hc _ Hr) as (b & c0 & _ & -> & _ & d & [_ Hl Hi Hp Hv] & Hcd).
  pose proof (init_ctx_tables b ml stps counters s) as (E1 & E2 & E3 & E4 & E5).
  rewrite E1 in Hl. rewrite E2, E4 in Hp. rewrite E3 in Hi. rewrite E5 in Hv.
  destruct Hcd as [->| ->]; (split; [exact Hl|split; [exact Hi|split; [exact Hp|intros H1 H2 H3 H4; by apply Hv]]]).
Qed.


Lemma init_ctx_wc b ml stps counters s :
  let w := wc_or F_nw_frag FLOW_NW_FRAG_MASK (unwildcard [F_in_port; F_skb_priority; F_dl_type] (λ _, 0)) in
  wc_grows w (cx_wc (init_ctx b ml stps counters s).2).
Proof.
  intros w. unfold init_ctx. fold w. pose proof (tnl_xlate_init_grows
    (set_fields ((λ f, (f, 0)) <$> tunnel_fields) (xi_flow e_in)) (xi_flow e_in) w) as H.
  destruct (tnl_xlate_init _ _ w) as [[tms fl] w']. simpl in H. cbn [snd cx_wc].
  etrans; [exact H|]. destruct (bc_has_netflow _); [|done]. unfold netflow_mask_wc. destruct (negb _); wc_grows.
Qed.

Lemma clear_non_packet_other w f :
  f ≠ F_metadata → (∀ i, f ≠ F_reg i) → flow_wildcards_clear_non_packet w f = w f.
Proof.
  intros Hm Hr. unfold flow_wildcards_clear_non_packet, set_fields.
  assert (H : ∀ l w, Forall (λ p : field * Z, f ≠ p.1) l → foldl (λ fl p, upd p.1 p.2 fl) w l f = w f).
  { induction l as [|p l IH]; intros w' Hl; [done|]. apply Forall_cons in Hl as [Hp Hl]. simpl.
    rewrite IH by done. by apply upd_ne. }
  apply H. constructor; [done|]. apply Forall_fmap, Forall_forall. intros i _. simpl. apply Hr.
Qed.

(** the wildcards of a translation always fix the input port, the packet
    priority, the Ethernet type and the fragment bits, which the datapath's
    cache matches on whatever the flow tables are; translation never takes
    these back. *)
Theorem xlate_wildcards_base ml stps counters s c :
  rtc cfg_step empty_cfg e_cfg → rules_ok sf_maskable → Forall (act_ok sf_maskable) (default [] (xi_ofpacts e_in)) →
  from_option (rule_ok sf_maskable) True (xi_rule e_in) → xlate_actions ml stps counters s = Some (Ok (tt, c)) →
  (∀ f, f ∈ [F_in_port; F_skb_priority; F_dl_type] → cx_wc c f = all_ones f)
  ∧ Z.land (cx_wc c F_nw_frag) FLOW_NW_FRAG_MASK = FLOW_NW_FRAG_MASK.
Proof.
  intros Hc%cfg_steps_inv Hr Hi Hu Hx.
  destruct (xlate_actions_post wc_grows sf_maskable ml stps counters s Hc Hr Hi Hu _ Hx) as (b & c0 & _ & -> & _ & d & Hd & Hcd).
  set (w := wc_or F_nw_frag FLOW_NW_FRAG_MASK (unwildcard [F_in_port; F_skb_priority; F_dl_type] (λ _, 0))).
  assert (Hg : wc_grows w (cx_wc d)) by (etrans; [apply init_ctx_wc|apply Hd]).
  assert (Hw : flow_ok w).
  { apply wc_or_ok; [|done]. apply unwildcard_ok. intros f. split; [done|]. pose proof (field_width_pos f). lia. }
  destruct (Hg Hw) as [Hok Hle]. assert (Hwc : ∀ f, f ≠ F_metadata → (∀ i, f ≠ F_reg i) → cx_wc c f = cx_wc d f).
  { intros f H1 H2. destruct Hcd as [->| ->]; [done|]. by apply clear_non_packet_other. }
  split.
  - intros f Hf. rewrite Hwc by set_solver. specialize (Hle f). pose proof (field_width_pos f).
    assert (Hwf : w f = all_ones f).
    { unfold w, wc_or. rewrite upd_ne by set_solver. by apply unwildcard_in. }
    rewrite Hwf in Hle. rewrite Z.land_comm in Hle. unfold all_ones in Hle |- *. by rewrite land_all_ones in Hle by (apply Hok || lia).
  - rewrite Hwc by done. specialize (Hle F_nw_frag). unfold w, wc_or in Hle. rewrite upd_eq in Hle.
    rewrite unwildcard_other in Hle by set_solver. by rewrite Z.land_comm.
Qed.

End theorems.

(** ** Examples *)

(** Flow tables given as a list of entries: a table, the values that fields
    must have, and actions, all of which must be of the kind [ok].  A lookup
    unwildcards the fields that the entries of the table match on. *)
Record ex_entry := Entry { ee_table : Z; ee_match : list (field * Z); ee_actions : list ofpact }.
Definition ex_tables := list ex_entry.

(** Actions that write no masks of subfields. *)
Definition plain_action (a : ofpact) : bool :=
  match a with
  | OFPACT_OUTPUT_REG _ _ | OFPACT_BUNDLE _ | OFPACT_REG_MOVE _ _ | OFPACT_STACK_PUSH _ | OFPACT_STACK_POP _
  | OFPACT_MULTIPATH _ | OFPACT_LEARN _ | OFPACT_LEARN_LEARN _ _ | OFPACT_LEARN_DELETE _ => false
  | _ => true
  end.

Definition ex_lookup (ok : ofpact → bool) (s : ex_tables) (t : Z) (fl wc : flowf) : option rule_dpif * flowf :=
  let es := List.filter (λ e, ee_table e =? t) s in
  ((λ e, RuleDpif (ee_table e) (ee_actions e) 7 false)
     <$> find (λ e, forallb (λ m, fl m.1 =? m.2) (ee_match e) && forallb ok (ee_actions e)) es,
   unwildcard (mjoin ((λ e, (ee_match e).*1) <$> es)) wc).

Lemma plain_action_ok a : plain_action a = true → act_ok sf_maskable a.
Proof. by destruct a. Qed.

Definition ex_services_for (ok : ofpact → bool) : xlate_services := {|
  svc := ex_tables;
  sv_classifier_lookup s _ t fl wc := ex_lookup ok s t fl wc;
  sv_frag_handling _ := OFPC_FRAG_NORMAL;
  sv_drop_frags_rule _ := ex_rule;
  sv_miss_rule _ := ex_rule;
  sv_no_packet_in_rule _ := ex_rule;
  sv_port_config _ _ := None;
  sv_flow_mod s _ fm := Entry (fm_table_id fm) [] (fm_ofpacts fm) :: s;
  sv_credit_stats s _ := s;
  sv_reduce_timeouts s _ _ _ := s;
  sv_bond_choose_output_slave s _ _ wc _ := (s, wc, None);
  sv_bond_check_admissibility _ _ _ _ := BV_ACCEPT;
  sv_has_mirrors _ := false;
  sv_mirror_bundle_out _ _ := 0;
  sv_mirror_bundle_src _ _ := 0;
  sv_mirror_bundle_dst _ _ := 0;
  sv_mirror_get _ _ := None;
  sv_queue_to_priority _ _ := None;
  sv_port_get_pid _ _ := 0;
  sv_sflow_odp_port_to_ifindex _ _ := 0;
  sv_sflow_get_probability _ := 0;
  sv_ipfix_get_probability _ := 0;
  sv_vport_inc_tx s _ := s;
  sv_vport_inc_rx s _ := s;
  sv_has_vlan_splinters _ := false;
  sv_vsp_realdev_to_vlandev _ n _ := n;
  sv_odp_execute_actions _ pk := pk;
  sv_cfm_check_tnl_key _ _ := false;
  sv_cfm_ccm_addr _ _ := 0;
  sv_cfm_process_heartbeat s _ _ := s;
  sv_bfd_eth_dst _ _ := None;
  sv_bfd_check_tnl_key _ _ := false;
  sv_bfd_process_packet s _ _ _ := s;
  sv_lacp_process_packet s _ _ _ := s
|}.

#[local] Instance ex_services : xlate_services := ex_services_for plain_action.

#[local] Instance ex_services_ok ok : xlate_services_ok (ex_services_for ok).
Proof. split; try done. intros s o t fl wc. apply unwildcard_wc_grows. Qed.

#[local] Instance ex_services_sound ok : xlate_services_sound (ex_services_for ok).
Proof.
  split; [|done]. intros s o t fl fl' wc H1 H2 _ Ha. simpl in *. unfold ex_lookup in *. simpl in Ha. f_equal. f_equal.
  set (es := List.filter _ s) in *. clearbody es.
  assert (Hf : ∀ e, e ∈ es → forallb (λ m, fl' m.1 =? m.2) (ee_match e) = forallb (λ m, fl m.1 =? m.2) (ee_match e)).
  { intros e He. assert (Hm : ∀ m, m ∈ ee_match e → fl m.1 = fl' m.1).
    { intros m Hm. apply (agree_exact _ fl fl' m.1 Ha H1 H2), unwildcard_in, list_elem_of_join.
      exists ((ee_match e).*1). split; apply list_elem_of_fmap; eauto. }
    induction (ee_match e) as [|m ms IH]; [done|]. simpl. rewrite Hm, IH by (left || intros ? ?; apply Hm; by right). done. }
  clear Ha. induction es as [|e es IH]; [done|]. simpl. rewrite Hf by left. case_match; [done|].
  apply IH. intros e' He'. apply Hf. by right.
Qed.

Definition ex_ip_flow : flowf := upd F_dl_type ETH_TYPE_IP (upd F_in_port 9 (λ _, 0)).

(** A packet for the bridge 10 of [ex_cfg]. *)
Definition ex_in (packet : option (list Z)) : xlate_in := xlate_in_init 10 ex_ip_flow None 0 packet.
Definition ex_env (packet : option (list Z)) : xlate_env := XlateEnv (ex_in packet) ex_cfg [] 0.

(** The first production table outputs to port 2, table 1 increments the
    number of ingress tables. *)
Definition ex_flows : ex_tables := 
  [Entry 150 [] [OFPACT_OUTPUT 2 0]; Entry 1 [] [OFPACT_INCREMENT_TABLE_ID TABLE_SPEC_INGRESS]].

Lemma ex_lookup_actions ok s t fl wc r : (ex_lookup ok s t fl wc).1 = Some r → Forall (λ a, ok a = true) (rl_actions r).
Proof.
  simpl. destruct (find _ _) as [[t' ms acts]|] eqn:Ef; [|done]. intros [= <-].
  apply List.find_some in Ef as [_ [_ Hp]%andb_true_iff]. apply Forall_forall. intros a Ha%list_elem_of_In.
  rewrite List.forallb_forall in Hp. by apply Hp.
Qed.

Lemma ex_cfg_bridges o b :
  xc_bridges ex_cfg !! o = Some b → rl_actions (bc_miss_rule (xb_cfg b)) = [] ∧ rl_actions (bc_no_packet_in_rule (xb_cfg b)) = [].
Proof.
  assert (Hall : map_Forall (λ _ b, rl_actions (bc_miss_rule (xb_cfg b)) = [] ∧ rl_actions (bc_no_packet_in_rule (xb_cfg b)) = [])
    (xc_bridges ex_cfg)) by (apply (bool_decide_unpack _); by vm_compute). apply Hall.
Qed.

Lemma ex_rules_ok packet : rules_ok (E:=ex_env packet) sf_maskable.
Proof.
  split.
  - intros s o t fl w r Hr. eapply Forall_impl; [exact (ex_lookup_actions _ _ _ _ _ _ Hr)|]. apply plain_action_ok.
  - intros o. constructor.
  - intros o. constructor.
  - intros o. constructor.
  - intros o b Hb. destruct (ex_cfg_bridges o b Hb) as [E1 E2]. unfold rule_ok. rewrite E1, E2. split; constructor.
Qed.

Definition ex_run (packet : option (list Z)) (s : ex_tables) (k : table_counters) : option (res (unit * xlate_ctx)) :=
  xlate_actions (E:=ex_env packet) ∅ ∅ k s.

Definition ex_result (r : option (res (unit * xlate_ctx))) : option (list odp_action * list (Z * Z) * table_counters) :=
  match r with Some (Ok (_, c)) => Some (cx_odp_actions c, cx_trace c, cx_counters c) | _ => None end.

Lemma ex_result_ok r acts tr k :
  ex_result r = Some (acts, tr, k) →
  ∃ c, r = Some (Ok (tt, c)) ∧ cx_odp_actions c = acts ∧ cx_trace c = tr ∧ cx_counters c = k.
Proof. destruct r as [[[[] c]| |]|]; [|done..]. intros [= <- <- <-]. by exists c. Qed.

Lemma ex_result_some r acts tr k :
  ex_result (Some r) = Some (acts, tr, k) → ∃ c, r = Ok (tt, c) ∧ cx_odp_actions c = acts ∧ cx_trace c = tr ∧ cx_counters c = k.
Proof. destruct r as [[[] c]| |]; [|done..]. intros [= <- <- <-]. by exists c. Qed.

Lemma ex_run_result :
  ex_result (ex_run (Some []) ex_flows init_counters)
  = Some ([ODP_OUTPUT 7], [(0, 1); (0, 150); (1, 200)], TableCounters 1 0).
Proof. vm_compute. reflexivity. Qed.

#[local] Opaque ex_cfg xlate_actions xlate_table_action.

Lemma xlate_terminates_witness : ex_run (Some []) ex_flows init_counters ≠ Some OutOfFuel.
Proof. exact (xlate_terminates (Sv:=ex_services) (E:=ex_env (Some [])) ∅ ∅ init_counters ex_flows ex_cfg_steps). Defined.

Lemma xlate_outputs_allowed_witness :
  ∃ c, ex_run (Some []) ex_flows init_counters = Some (Ok (tt, c)) ∧ ODP_OUTPUT 7 ∈ cx_odp_actions c
  ∧ ∃ a p, xc_ports ex_cfg !! a = Some p ∧ any_bit (pc_config (xp_cfg p)) OFPUTIL_PC_NO_FWD = false.
Proof.
  destruct (ex_result_ok _ _ _ _ ex_run_result) as (c & Hc & Ha & _). exists c. split; [exact Hc|].
  assert (Ho : ODP_OUTPUT 7 ∈ cx_odp_actions c) by (rewrite Ha; by left). split; [exact Ho|].
  destruct (xlate_outputs_allowed (Sv:=ex_services) (E:=ex_env (Some [])) ∅ ∅ init_counters ex_flows c ex_cfg_steps Hc 7 Ho)
    as (_ & a & p & H1 & H2 & _). exists a, p. split; [exact H1|exact H2].
Defined.

Lemma ex_revalidate_result :
  ex_result (ex_run None ex_flows init_counters)
  = Some ([ODP_OUTPUT 7], [(0, 1); (0, 150); (1, 200)], init_counters).
Proof. vm_compute. reflexivity. Qed.

Lemma xlate_revalidation_pure_witness :
  ∃ c, ex_run None ex_flows init_counters = Some (Ok (tt, c)) ∧ cx_ml c = ∅ ∧ cx_packet_ins c = []
    ∧ rtc (bond_step (Sv:=ex_services)) ex_flows (cx_svc c).
Proof.
  destruct (ex_result_ok _ _ _ _ ex_revalidate_result) as (c & Hc & _). exists c. split; [exact Hc|].
  destruct (xlate_revalidation_pure (Sv:=ex_services) (E:=ex_env None) ∅ ∅ init_counters ex_flows c ex_cfg_steps Hc)
    as (H1 & _ & H3 & H4). split; [exact (H1 eq_refl)|]. split; [exact (proj2 (H3 eq_refl))|]. exact (H4 eq_refl eq_refl eq_refl eq_refl).
Defined.

Lemma xlate_wildcards_base_witness :
  ∃ c, ex_run (Some []) ex_flows init_counters = Some (Ok (tt, c)) ∧ cx_wc c F_in_port = 0xffff.
Proof.
  destruct (ex_result_ok _ _ _ _ ex_run_result) as (c & Hc & _). exists c. split; [exact Hc|].
  destruct (xlate_wildcards_base (Sv:=ex_services) (E:=ex_env (Some [])) ∅ ∅ init_counters ex_flows c ex_cfg_steps
    (ex_rules_ok (Some [])) (Forall_nil_2 _) I Hc) as [H _]. apply (H F_in_port). by left.
Defined.

(** A table action from table 0 of the same bridge. *)
Definition ex_ctx : xlate_ctx :=
  match xc_bridges ex_cfg !! 10 with
  | Some b => (init_ctx (E:=ex_env (Some [])) b ∅ ∅ init_counters ex_flows).2
  | None => Ctx (λ _, 0) (λ _, 0) 0 [] None 0 0 0 0 0 false false 0 (λ _, 0) None false false false false 0 0 [] ∅ ∅
              init_counters [] ex_flows []
  end.

Definition ex_table_run : res (unit * xlate_ctx) := xlate_table_action (E:=ex_env (Some [])) 9 0 true ex_ctx.

Lemma ex_table_result : ex_result (Some ex_table_run) = Some ([ODP_OUTPUT 7], [(0, 0); (0, 150); (1, 200)], init_counters).
Proof. vm_compute. reflexivity. Qed.

Lemma ex_ctx_level : 0 ≤ cx_recurse ex_ctx < 256.
Proof. vm_compute. split; congruence. Qed.

#[local] Opaque ex_ctx.

