(* ===== verification/XlateTables.v ===== *)
(** * Flow tables in the translator

    The classifier behind the translator's lookups, as
    [rule_dpif_lookup_in_table] of ofproto/ofproto-dpif.c uses it: the flow
    tables of each switch are classifiers, and a rule found there stands for
    the [struct rule_dpif] around it.  The other services of the translator
    stay a parameter, so that the theorems of the translator hold for a switch
    with real flow tables. *)
From S2P Require Import Prelude Hmap Flow Classifier ClassifierTable ClassifierInv ClassifierSpec ClassifierThms.
From S2P Require Import MatchFields MetaFlow OdpActions NxActions Learn Tunnel FlowLayout XlateConfig XlateCtx Xlate XlateThms XlateTop.

(** The tables of the switches and the rules by their identifiers.  A table is
    built by the operations of the classifier. *)
Record oftables := OfTables {
  ot_cls : Z → Z → classifier;
  ot_rules : gmap Z rule_dpif;
  ot_reachable o t : reachable (ot_cls o t)
}.

(** A lookup in the table [t] of the switch [o]. *)
Definition table_lookup (ts : oftables) (o t : Z) (fl wc : flowf) : option rule_dpif * flowf :=
  let r := classifier_lookup (ot_cls ts o t) (flow_words fl) (Some (flow_words wc)) in
  (rule ← r.1; ot_rules ts !! cr_id rule, words_flow wc (default (flow_words wc) r.2)).

(** Looking a flow up adds to the masks what the result depends on. *)
Lemma table_lookup_settled ts o t fl wc :
  wc_grows wc (table_lookup ts o t fl wc).2
  ∧ ∀ fl', NxActions.agree (table_lookup ts o t fl wc).2 fl fl' → table_lookup ts o t fl' wc = table_lookup ts o t fl wc.
Proof.
  destruct (reachable_wf _ (ot_reachable ts o t)) as [Hb _ _ _ _]. pose proof (flow_words_wf wc) as [Hl _].
  destruct (lookup_first_settled (cl_heap (ot_cls ts o t)) (cb_tables _ Hb) (flow_words fl) (flow_words wc)
    (cl_tables_priority (ot_cls ts o t)) Hl) as (w & Hr & Hlw & Hs & Hg).
  unfold table_lookup, classifier_lookup. rewrite Hr. simpl. split.
  - apply words_flow_grows; [done|]. apply not_true_iff_false. rewrite flow_wildcards_has_extra_spec by done.
    intros (i & Hi & Hne). apply Hne. rewrite Z.land_comm. by apply Hs.
  - intros fl' Ha%agree_words; [|done]. rewrite Hg; [by rewrite Hr|].
    apply flow_equal_except_spec in Ha; [done|apply flow_words_wf..|done].
Qed.

(** ** Rules given by the fields they match *)

Definition fields_rule (id : Z) (m : fmatch) (priority : Z) : cls_rule :=
  cls_rule_init id (match_init (flow_words (fm_flow m)) (flow_words (fm_wc m))) priority.

Definition fields_match (m : fmatch) (fl : flowf) : Prop :=
  ∀ f, real_field f = true → Z.land (fl f) (fm_wc m f) = Z.land (fm_flow m f) (fm_wc m f).

Lemma rule_match_fields id m p fl :
  flow_ok (fm_flow m) → flow_ok (fm_wc m) → flow_ok fl →
  rule_match (fields_rule id m p) (flow_words fl) ↔ fields_match m fl.
Proof.
  intros Hm Hw Hfl. unfold rule_match, fields_rule, cls_rule_init, minimatch_init, match_init, match_zero_wildcarded_fields.
  cbn [cr_match mm_mask mm_flow m_flow m_wc]. pose proof (flow_words_wf (fm_wc m)) as Ww.
  pose proof (flow_words_wf (fm_flow m)) as Wm. pose proof (flow_words_wf fl) as Wf.
  assert (Wz : flow_wf (flow_zero_wildcards (flow_words (fm_flow m)) (flow_words (fm_wc m)))).
  { unfold flow_zero_wildcards. rewrite flow_words_mask by done. apply flow_words_wf. }
  trans (Flow.agree (flow_u32 (flow_words (fm_wc m))) (flow_u32 (flow_words (fm_flow m))) (flow_u32 (flow_words fl))).
  - unfold Flow.agree. split; intros H i Hi; specialize (H i Hi); revert H; unfold minimask_init;
      rewrite !miniflow_get_init by done; unfold flow_zero_wildcards;
      rewrite flow_u32_zip_with by (apply Wm || apply Ww || done); by rewrite <- Z.land_assoc, Z.land_diag.
  - split.
    + intros H%agree_zip_with_land; [|apply Wm|apply Wf|apply Ww]. rewrite !flow_words_mask in H by done.
      intros f Hf. symmetry. by apply (flow_words_inj _ _ f (land_flow_ok _ _ Hm) (land_flow_ok _ _ Hfl) H).
    + intros H. apply zip_with_land_agree; [by rewrite (proj1 Wm), (proj1 Ww)|by rewrite (proj1 Wf), (proj1 Ww)|].
      rewrite !flow_words_mask by done. apply flow_words_ext. intros f Hf. symmetry. by apply H.
Qed.

(** The best rule of the table [t] for the flow, by the fields of the matches
    that the rules were made from. *)
Definition best_rule (ts : oftables) (o t : Z) (ms : Z → fmatch) (fl : flowf) (res : option rule_dpif) : Prop :=
  match res with
  | Some rule =>
      ∃ r, r ∈ rules_of (ot_cls ts o t) ∧ ot_rules ts !! cr_id r = Some rule ∧ fields_match (ms (cr_id r)) fl
        ∧ ∀ r', r' ∈ rules_of (ot_cls ts o t) → fields_match (ms (cr_id r')) fl → cr_priority r' ≤ cr_priority r
  | None => ∀ r, r ∈ rules_of (ot_cls ts o t) → ¬ fields_match (ms (cr_id r)) fl
  end.

(** The rules of the table [t] were made from the matches on fields [ms]. *)
Definition made_from (ts : oftables) (o t : Z) (ms : Z → fmatch) : Prop :=
  ∀ r, r ∈ rules_of (ot_cls ts o t) →
    flow_ok (fm_flow (ms (cr_id r))) ∧ flow_ok (fm_wc (ms (cr_id r)))
    ∧ r = fields_rule (cr_id r) (ms (cr_id r)) (cr_priority r) ∧ is_Some (ot_rules ts !! cr_id r).

Lemma table_lookup_best ts o t ms fl wc : flow_ok fl → made_from ts o t ms → best_rule ts o t ms fl (table_lookup ts o t fl wc).1.
Proof.
  intros Hfl Hrules.
  assert (Hm : ∀ r, r ∈ rules_of (ot_cls ts o t) → rule_match r (flow_words fl) ↔ fields_match (ms (cr_id r)) fl).
  { intros r Hr. destruct (Hrules r Hr) as (H1 & H2 & -> & _). by apply rule_match_fields. }
  pose proof (reachable_lookup_best _ (flow_words fl) (Some (flow_words wc)) (ot_reachable ts o t)) as H.
  unfold table_lookup. cbn [fst]. destruct (classifier_lookup _ _ _).1 as [r|]; simpl.
  - destruct H as [Hr [Hmr Hbest]]. destruct (Hrules r Hr) as (_ & _ & _ & rule & Hrule). rewrite Hrule.
    exists r. split_and!; [done..|by apply Hm|]. intros r' Hr' Hm'. apply Hbest; [done|]. by apply Hm.
  - intros r Hr Hm'. apply (H r Hr). by apply Hm.
Qed.

(** ** The services of the translator with these tables *)

Section services.
Context (Sv : xlate_services) (flow_mod : oftables → Z → ofputil_flow_mod → oftables).

Definition table_services : xlate_services := {|
  svc := oftables * svc;
  sv_classifier_lookup s o t fl wc := table_lookup s.1 o t fl wc;
  sv_frag_handling := sv_frag_handling;
  sv_drop_frags_rule := sv_drop_frags_rule;
  sv_miss_rule := sv_miss_rule;
  sv_no_packet_in_rule := sv_no_packet_in_rule;
  sv_port_config := sv_port_config;
  sv_flow_mod s o fm := (flow_mod s.1 o fm, sv_flow_mod s.2 o fm);
  sv_credit_stats s r := (s.1, sv_credit_stats s.2 r);
  sv_reduce_timeouts s r i h := (s.1, sv_reduce_timeouts s.2 r i h);
  sv_bond_choose_output_slave s b fl wc vid :=
    let '(s', wc', p) := sv_bond_choose_output_slave s.2 b fl wc vid in (s.1, s', wc', p);
  sv_bond_check_admissibility s := sv_bond_check_admissibility s.2;
  sv_has_mirrors := sv_has_mirrors;
  sv_mirror_bundle_out := sv_mirror_bundle_out;
  sv_mirror_bundle_src := sv_mirror_bundle_src;
  sv_mirror_bundle_dst := sv_mirror_bundle_dst;
  sv_mirror_get := sv_mirror_get;
  sv_queue_to_priority := sv_queue_to_priority;
  sv_port_get_pid := sv_port_get_pid;
  sv_sflow_odp_port_to_ifindex := sv_sflow_odp_port_to_ifindex;
  sv_sflow_get_probability := sv_sflow_get_probability;
  sv_ipfix_get_probability := sv_ipfix_get_probability;
  sv_vport_inc_tx s p := (s.1, sv_vport_inc_tx s.2 p);
  sv_vport_inc_rx s p := (s.1, sv_vport_inc_rx s.2 p);
  sv_has_vlan_splinters := sv_has_vlan_splinters;
  sv_vsp_realdev_to_vlandev := sv_vsp_realdev_to_vlandev;
  sv_odp_execute_actions := sv_odp_execute_actions;
  sv_cfm_check_tnl_key s := sv_cfm_check_tnl_key s.2;
  sv_cfm_ccm_addr s := sv_cfm_ccm_addr s.2;
  sv_cfm_process_heartbeat s c p := (s.1, sv_cfm_process_heartbeat s.2 c p);
  sv_bfd_eth_dst s := sv_bfd_eth_dst s.2;
  sv_bfd_check_tnl_key s := sv_bfd_check_tnl_key s.2;
  sv_bfd_process_packet s b fl p := (s.1, sv_bfd_process_packet s.2 b fl p);
  sv_lacp_process_packet s l p k := (s.1, sv_lacp_process_packet s.2 l p k)
|}.

#[global] Instance table_services_ok : xlate_services_ok Sv → xlate_services_ok table_services.
Proof.
  intros H. split; simpl.
  - intros s o t fl wc. apply table_lookup_settled.
  - intros s b fl wc vid. pose proof (sv_bond_grows s.2 b fl wc vid) as Hg.
    by destruct (sv_bond_choose_output_slave s.2 b fl wc vid) as [[s' wc'] p].
  - apply sv_mirror_dup.
  - apply sv_mirror_src_u32.
  - apply sv_mirror_dst_u32.
Qed.

#[global] Instance table_services_sound : xlate_services_sound Sv → xlate_services_sound table_services.
Proof.
  intros H. split; simpl.
  - intros s o t fl fl' wc _ _ _ Ha. by apply table_lookup_settled.
  - intros s b fl fl' wc vid H1 H2 H3 Ha. rewrite (sv_bond_sound s.2 b fl fl' wc vid H1 H2 H3); [done|].
    by destruct (sv_bond_choose_output_slave s.2 b fl wc vid) as [[s' wc'] p].
Qed.
(** ** Lookups in the flow tables of the switch *)

(** The flow that the rules are compared with: the transport ports of a
    fragment are not available to a switch that treats fragments normally. *)
Definition seen_flow (o : Z) (fl : flowf) : flowf :=
  match sv_frag_handling o with
  | OFPC_FRAG_NORMAL => if any_bit (fl F_nw_frag) FLOW_NW_FRAG_ANY then upd F_tp_dst 0 (upd F_tp_src 0 fl) else fl
  | _ => fl
  end.

Lemma agree_upd_same wc fl fl' f v : NxActions.agree wc fl fl' → NxActions.agree wc (upd f v fl) (upd f v fl').
Proof. intros H g. destruct (decide (g = f)) as [->|]; [by rewrite !upd_eq|]. by rewrite !upd_ne. Qed.

(** Whether the packet is a fragment is settled by the masks of the lookup. *)
Lemma agree_frag wc fl fl' :
  Z.land (wc F_nw_frag) FLOW_NW_FRAG_MASK = FLOW_NW_FRAG_MASK → NxActions.agree wc fl fl' →
  any_bit (fl' F_nw_frag) FLOW_NW_FRAG_ANY = any_bit (fl F_nw_frag) FLOW_NW_FRAG_ANY.
Proof.
  intros Hw Ha. unfold any_bit. do 2 f_equal.
  assert (H : ∀ v, Z.land v FLOW_NW_FRAG_ANY = Z.land (Z.land v (wc F_nw_frag)) FLOW_NW_FRAG_ANY).
  { intros v. change FLOW_NW_FRAG_ANY with (Z.land FLOW_NW_FRAG_MASK FLOW_NW_FRAG_ANY). rewrite <- Hw at 2.
    by rewrite <- !Z.land_assoc, (Z.land_assoc (wc F_nw_frag) (wc F_nw_frag)), Z.land_diag, (Z.land_assoc (wc F_nw_frag)), Hw. }
  rewrite (H (fl' F_nw_frag)), (H (fl F_nw_frag)). by rewrite (Ha F_nw_frag).
Qed.

(** The masks that a lookup adds to start with. *)
Lemma lookup_masks_ok wc :
  flow_ok wc →
  let w := wc_or F_nw_frag FLOW_NW_FRAG_MASK (unwildcard [F_dl_type] wc) in
  flow_ok w ∧ wc_le wc w
  ∧ ∀ w', flow_ok w' → wc_le w w' →
      w' F_dl_type = all_ones F_dl_type ∧ Z.land (w' F_nw_frag) FLOW_NW_FRAG_MASK = FLOW_NW_FRAG_MASK.
Proof.
  intros Hwc w. destruct (unwildcard_wc_grows [F_dl_type] wc Hwc) as [H1 L1].
  destruct (wc_or_grows F_nw_frag FLOW_NW_FRAG_MASK _ ltac:(by split) H1) as [H2 L2]. split; [exact H2|]. split; [by etrans|].
  intros w' Hw' Hle. split.
  - specialize (Hle F_dl_type). change (w F_dl_type) with (all_ones F_dl_type) in Hle. rewrite Z.land_comm in Hle.
    unfold all_ones in *. by rewrite land_all_ones in Hle by (apply Hw' || done).
  - specialize (Hle F_nw_frag). assert (E : Z.land (w F_nw_frag) FLOW_NW_FRAG_MASK = FLOW_NW_FRAG_MASK).
    { unfold w, wc_or. rewrite upd_eq, Z.land_lor_distr_l, Z.land_diag. apply Z.bits_inj'. intros i Hi. rewrite Z.lor_spec, Z.land_spec. by destruct (Z.testbit _ i), (Z.testbit FLOW_NW_FRAG_MASK i). }
    rewrite <- E at 2. rewrite <- Hle, <- Z.land_assoc, (Z.land_comm (w' F_nw_frag)).
    rewrite (Z.land_assoc (w F_nw_frag)), E. by rewrite Z.land_comm.
Qed.

(** C9: a lookup in a flow table finds the best rule by the fields of the
    packet, and what it adds to the wildcards makes the result safe to cache.
    A table number out of range gives no rule and leaves the wildcards alone.
    Otherwise, a switch that drops fragments gives a fragment the rule that
    drops it and masks every bit; in all other cases, in a table whose rules
    were made from matches on fields, the result is a rule whose match the
    packet satisfies field by field and that no satisfied rule exceeds in
    priority, or none when no rule is satisfied, where a fragment is taken to
    have no transport ports if the switch treats fragments normally.  The
    wildcards only grow, and come to include the Ethernet type and the
    fragment bits; and every packet that agrees on the resulting bits of all
    fields gets the same rule and the same wildcards. *)
Theorem flow_table_lookup_correct o t (s : oftables * @svc Sv) fl wc (ms : Z → fmatch) :
  flow_ok fl → flow_ok wc → made_from s.1 o t ms →
  let r := rule_dpif_lookup_in_table (Sv:=table_services) o t s fl wc in
  (if N_TABLES <=? t then r = (None, wc)
   else match any_bit (fl F_nw_frag) FLOW_NW_FRAG_ANY, sv_frag_handling o with
        | true, OFPC_FRAG_DROP => r = (Some (sv_drop_frags_rule o), all_ones)
        | _, _ => best_rule s.1 o t ms (seen_flow o fl) r.1
        end)
  ∧ flow_ok r.2 ∧ wc_le wc r.2
  ∧ (t < N_TABLES → r.2 F_dl_type = all_ones F_dl_type ∧ Z.land (r.2 F_nw_frag) FLOW_NW_FRAG_MASK = FLOW_NW_FRAG_MASK)
  ∧ ∀ fl', NxActions.agree r.2 fl fl' → rule_dpif_lookup_in_table (Sv:=table_services) o t s fl' wc = r.
Proof.
  intros Hfl Hwc Hmf. destruct (lookup_masks_ok wc Hwc) as (Hw1 & Hle1 & Hin). unfold rule_dpif_lookup_in_table.
  destruct (Z.leb_spec N_TABLES t) as [|Ht]; [split_and!; [done..|lia|done]|].
  cbn [sv_frag_handling sv_classifier_lookup sv_drop_frags_rule table_services]. revert Hw1 Hle1 Hin.
  generalize (wc_or F_nw_frag FLOW_NW_FRAG_MASK (unwildcard [F_dl_type] wc)). intros w1 Hw1 Hle1 Hin.
  assert (Hl : ∀ x, flow_ok x → let r := table_lookup s.1 o t x w1 in
    best_rule s.1 o t ms x r.1 ∧ flow_ok r.2 ∧ wc_le w1 r.2 ∧ ∀ y, NxActions.agree r.2 x y → table_lookup s.1 o t y w1 = r).
  { intros x Hx. destruct (table_lookup_settled s.1 o t x w1) as [Hg Hs]. destruct (Hg Hw1).
    split; [by apply table_lookup_best|done]. }
  assert (Hall : flow_ok all_ones ∧ wc_le w1 all_ones) by (by apply all_ones_grows).
  assert (Hfrag : ∀ w fl', flow_ok w ∧ wc_le w1 w → NxActions.agree w fl fl' →
    any_bit (fl' F_nw_frag) FLOW_NW_FRAG_ANY = any_bit (fl F_nw_frag) FLOW_NW_FRAG_ANY).
  { intros w fl' [Hw Hle] Ha. eapply agree_frag; [by apply Hin|done]. }
  unfold seen_flow. destruct (any_bit (fl F_nw_frag) FLOW_NW_FRAG_ANY), (sv_frag_handling o).
  2: { destruct Hall. split_and!; [done..|by etrans|by intros _; apply Hin|]. intros fl' Ha. by rewrite (Hfrag all_ones). }
  1: destruct (Hl (upd F_tp_dst 0 (upd F_tp_src 0 fl))) as (Hb & Hok & Hle & Hs); [by do 2 (apply upd_flow_ok; [|done])|].
  2-7: destruct (Hl fl Hfl) as (Hb & Hok & Hle & Hs).
  all: split_and!; [done..|by etrans|by intros _; apply Hin|]; intros fl' Ha; rewrite ?(Hfrag _ fl' (conj Hok Hle) Ha); apply Hs; try done.
  by do 2 apply agree_upd_same.
Qed.

End services.

(** ** Examples *)

(** Rules for packets from port 1 and for every packet. *)
Definition ex_port_match : fmatch := FMatch (upd F_in_port 1 (λ _, 0)) (upd F_in_port 0xffff (λ _, 0)).
Definition ex_all_match : fmatch := FMatch (λ _, 0) (λ _, 0).
Definition ex_table : classifier :=
  replaced (replaced classifier_init (fields_rule 1 ex_port_match 20)) (fields_rule 2 ex_all_match 10).

Lemma ex_matches_ok m : m = ex_port_match ∨ m = ex_all_match → flow_ok (fm_flow m) ∧ flow_ok (fm_wc m).
Proof.
  assert (H0 : flow_ok (λ _, 0)) by (intros f; pose proof (field_width_pos f); split; [done|]; lia).
  intros [->| ->]; split; try done; by apply upd_flow_ok.
Qed.

Lemma fields_rule_ok id m p : is_u32 p → ClassifierTable.rule_ok (fields_rule id m p).
Proof. intros Hp. apply cls_rule_init_ok; [apply flow_words_wf..|done]. Qed.

Lemma ex_table_reachable : reachable ex_table.
Proof.
  repeat apply replaced_reachable; try (by apply fresh_decide; vm_compute); try (by apply fields_rule_ok). constructor.
Qed.

Definition ex_oftables : oftables :=
  OfTables (λ _ _, ex_table) {[1 := RuleDpif 0 [] 7 false; 2 := RuleDpif 0 [] 8 false]} (λ _ _, ex_table_reachable).

Lemma ex_table_rules r :
  r ∈ rules_of ex_table → r = fields_rule 1 ex_port_match 20 ∨ r = fields_rule 2 ex_all_match 10.
Proof.
  assert (E : rules_of ex_table = [fields_rule 1 ex_port_match 20; fields_rule 2 ex_all_match 10]) by (vm_compute; reflexivity).
  rewrite E, !elem_of_cons, elem_of_nil. intros [->|[->|[]]]; [left|right]; reflexivity.
Qed.

Definition ex_match (id : Z) : fmatch := if id =? 1 then ex_port_match else ex_all_match.

Lemma ex_table_ok r :
  r ∈ rules_of ex_table →
  flow_ok (fm_flow (ex_match (cr_id r))) ∧ flow_ok (fm_wc (ex_match (cr_id r)))
  ∧ r = fields_rule (cr_id r) (ex_match (cr_id r)) (cr_priority r) ∧ is_Some (ot_rules ex_oftables !! cr_id r).
Proof.
  assert (H : ∀ id p, ex_match id = ex_port_match ∨ ex_match id = ex_all_match → is_Some (ot_rules ex_oftables !! id) →
    let r := fields_rule id (ex_match id) p in
    flow_ok (fm_flow (ex_match (cr_id r))) ∧ flow_ok (fm_wc (ex_match (cr_id r)))
    ∧ r = fields_rule (cr_id r) (ex_match (cr_id r)) (cr_priority r) ∧ is_Some (ot_rules ex_oftables !! cr_id r)).
  { intros id p [H1 H2]%ex_matches_ok Hi. exact (conj H1 (conj H2 (conj eq_refl Hi))). }
  intros Hr. destruct (ex_table_rules r Hr) as [->| ->].
  - apply (H 1 20); [left; reflexivity|vm_compute; eexists; reflexivity].
  - apply (H 2 10); [right; reflexivity|vm_compute; eexists; reflexivity].
Qed.

(** A later fragment that arrives at port 1. *)
Definition ex_fragment : flowf := upd F_tp_src 80 (upd F_nw_frag 3 (upd F_in_port 1 (λ _, 0))).

Lemma ex_fragment_ok : flow_ok ex_fragment.
Proof. do 2 (apply upd_flow_ok; [|done]). apply (ex_matches_ok ex_port_match). by left. Qed.

Lemma flow_table_lookup_correct_witness :
  let lookup := rule_dpif_lookup_in_table (Sv:=table_services ex_services (λ ts _ _, ts)) 0 0 (ex_oftables, []) in
  (lookup ex_fragment (λ _, 0)).1 = Some (RuleDpif 0 [] 7 false) ∧ fields_match ex_port_match (seen_flow ex_services 0 ex_fragment)
  ∧ lookup (upd F_tp_src 81 ex_fragment) (λ _, 0) = lookup ex_fragment (λ _, 0).
Proof.
  intros lookup.
  assert (E : (lookup ex_fragment (λ _, 0)).1 = Some (RuleDpif 0 [] 7 false)) by (vm_compute; reflexivity).
  split; [exact E|].
  destruct (flow_table_lookup_correct ex_services (λ ts _ _, ts) 0 0 (ex_oftables, []) ex_fragment (λ _, 0)
    ex_match ex_fragment_ok (proj1 (ex_matches_ok ex_all_match (or_intror eq_refl))) ex_table_ok) as (H & _ & _ & _ & Hs).
  split.
  - fold lookup in H. change (best_rule ex_oftables 0 0 ex_match (seen_flow ex_services 0 ex_fragment) (lookup ex_fragment (λ _, 0)).1) in H.
    rewrite E in H. destruct H as (r & Hr & Hi & Hm & _). destruct (ex_table_rules r Hr) as [->| ->]; [exact Hm|].
    vm_compute in Hi. discriminate Hi.
  - apply Hs. intros f. destruct (decide (f = F_tp_src)) as [->|Hne]; [vm_compute; reflexivity|]. by rewrite upd_ne.
Defined.
