(* ===== verification/XlateGrows.v ===== *)
(** * Wildcards only grow

    No step of a translation takes a bit out of the wildcards, whatever the
    context it runs in.  [grows] is a partial statement about one member of the
    context, and needs neither the recursion level nor the configuration that
    [XlateThms.keeps] asks for; the comparison of two runs in [XlateMegaflow]
    uses it to bound the wildcards of every prefix of a run by those of its
    end. *)
From stdpp Require Import gmap.
From S2P Require Import Prelude Util ByteOrder Hash Hmap Bitmap MatchFields MetaFlow OdpActions NxActions.
From S2P Require Import TableCounters Learn Tunnel MacLearning Stp XlateConfig XlateCtx Xlate XlateThms.

Create HintDb grows.

Section grows.
Context {Sv : xlate_services} {Svok : xlate_services_ok Sv} {E : xlate_env}.

Definition grows {A} (m : xlate A) : Prop := ∀ c a d, m c = Ok (a, d) → wc_grows (cx_wc c) (cx_wc d).

(** The result of the step satisfies [Q]. *)
Definition returns {A} (Q : A → Prop) (m : xlate A) : Prop := ∀ c a d, m c = Ok (a, d) → Q a.

Lemma bind_ok {A B} (m : xlate A) (k : A → xlate B) c b d :
  (a ← m; k a) c = Ok (b, d) → ∃ a c', m c = Ok (a, c') ∧ k a c' = Ok (b, d).
Proof. unfold mbind, xlate_bind. destruct (m c) as [[a c']| |]; [eauto|done|done]. Qed.

Lemma grows_ret {A} (a : A) : grows (mret a).
Proof. intros c a' d [= <- <-]. done. Qed.

Lemma grows_gets {A} (f : xlate_ctx → A) : grows (gets f).
Proof. intros c a d [= <- <-]. done. Qed.

Lemma grows_abort {A} : grows (A:=A) abort.
Proof. done. Qed.

Lemma grows_out_of_fuel {A} : grows (A:=A) out_of_fuel.
Proof. done. Qed.

Lemma grows_lift {A} (o : option A) : grows (lift o).
Proof. destruct o; [apply grows_ret|apply grows_abort]. Qed.

Lemma grows_assert b : grows (ovs_assert b).
Proof. destruct b; [apply grows_ret|apply grows_abort]. Qed.

Lemma grows_bind_returns {A B} Q (m : xlate A) (k : A → xlate B) :
  grows m → returns Q m → (∀ a, Q a → grows (k a)) → grows (a ← m; k a).
Proof.
  intros Hm HQ Hk c b d (a & c' & H1 & H2)%bind_ok. trans (cx_wc c'); [by eapply Hm|]. eapply Hk; [by eapply HQ|done].
Qed.

Lemma grows_bind {A B} (m : xlate A) (k : A → xlate B) : grows m → (∀ a, grows (k a)) → grows (a ← m; k a).
Proof. intros Hm Hk. by apply (grows_bind_returns (λ _, True)). Qed.

Lemma grows_when b (m : xlate unit) : grows m → grows (when b m).
Proof. destruct b; [done|]. intros _. apply grows_ret. Qed.

Lemma grows_for_each {A} (f : A → xlate unit) l : (∀ a, grows (f a)) → grows (for_each f l).
Proof. intros Hf. induction l as [|a l IH]; [apply grows_ret|]. by apply grows_bind. Qed.

Lemma grows_modify f : (∀ c, wc_grows (cx_wc c) (cx_wc (f c))) → grows (modify f).
Proof. intros H c a d [= <- <-]. apply H. Qed.

Lemma grows_decide_wc f : (∀ fl w, wc_grows w (f fl w).2) → grows (decide_wc f).
Proof. intros H c a d [= <- <-]. apply H. Qed.

Lemma grows_commit f : (∀ fl d, cm_grows d (f fl d)) → grows (commit_with f).
Proof. intros H. apply grows_modify. intros c. by apply (H (cx_flow c) (Commit _ _ (cx_wc c))). Qed.

(** A step that reads the context and replaces the wildcards by larger ones. *)
Lemma grows_gets_bind {A B} (f : xlate_ctx → A) (k : A → xlate B) :
  (∀ c b d, k (f c) c = Ok (b, d) → wc_grows (cx_wc c) (cx_wc d)) → grows (a ← gets f; k a).
Proof. intros H c b d. apply H. Qed.

End grows.

#[export] Hint Resolve grows_ret grows_gets grows_abort grows_out_of_fuel grows_lift grows_assert : grows.

Ltac grows :=
  repeat first
    [ solve [eauto with grows]
    | apply grows_bind; [|intros ?] | apply grows_when | apply grows_for_each; intros ?
    | apply grows_modify; intros ?; first [reflexivity | apply unwildcard_wc_grows | by apply wc_or_grows]
    | progress unfold mod_flow, mod_svc, mod_wc, put_odp
    | case_match
    | progress intros ].

Section steps.
Context {Sv : xlate_services} {Svok : xlate_services_ok Sv} {E : xlate_env}.

(** ** Steps without table lookups *)

Lemma grows_port_at a : grows (port_at a).
Proof. apply grows_lift. Qed.
Lemma grows_bridge_at a : grows (bridge_at a).
Proof. apply grows_lift. Qed.
Lemma grows_bundle_at a : grows (bundle_at a).
Proof. apply grows_lift. Qed.
Hint Resolve grows_port_at grows_bridge_at grows_bundle_at : grows.
Lemma grows_the_bridge : grows the_bridge.
Proof. unfold the_bridge. grows. Qed.
Hint Resolve grows_the_bridge : grows.
Lemma grows_get_stp_port p : grows (xport_get_stp_port p).
Proof. unfold xport_get_stp_port. grows. Qed.
Hint Resolve grows_get_stp_port : grows.
Lemma grows_stp_state p : grows (xport_stp_state p).
Proof. unfold xport_stp_state. grows. Qed.
Hint Resolve grows_stp_state : grows.
Lemma grows_stp_forward p : grows (xport_stp_forward_state p).
Proof. unfold xport_stp_forward_state. grows. Qed.
Lemma grows_stp_learn p : grows (xport_stp_learn_state p).
Proof. unfold xport_stp_learn_state. grows. Qed.
Hint Resolve grows_stp_forward grows_stp_learn : grows.
Lemma grows_may_receive p : grows (may_receive p).
Proof. unfold may_receive. grows. Qed.
Lemma grows_lookup_input_bundle b i : grows (lookup_input_bundle b i).
Proof. unfold lookup_input_bundle. grows. Qed.
Lemma grows_bundle_cfg b : grows (bundle_cfg b).
Proof. unfold bundle_cfg. grows. Qed.
Lemma grows_stp_process_packet p pk : grows (stp_process_packet p pk).
Proof. unfold stp_process_packet. grows. Qed.
Hint Resolve grows_may_receive grows_lookup_input_bundle grows_bundle_cfg grows_stp_process_packet : grows.

Lemma grows_hand_over f r : (∀ pk, grows (f pk)) → grows (hand_over f r).
Proof. intros H. unfold hand_over. grows. Qed.
Lemma grows_decide_stp : grows (decide_wc stp_should_process_flow).
Proof. apply grows_decide_wc. intros. apply unwildcard_wc_grows. Qed.
Lemma grows_decide_bfd d k : grows (decide_wc (bfd_should_process_flow d k)).
Proof. apply grows_decide_wc. intros. apply (W_bfd wc_grows sf_maskable). Qed.
Lemma grows_decide_cfm k ad : grows (decide_wc (cfm_should_process_flow k ad)).
Proof. apply grows_decide_wc. intros. apply (W_cfm wc_grows sf_maskable). Qed.
Lemma grows_mod_svc f : grows (mod_svc f).
Proof. by apply grows_modify. Qed.
Hint Resolve grows_hand_over grows_decide_stp grows_decide_bfd grows_decide_cfm grows_mod_svc : grows.
Lemma grows_process_stp b p : grows (process_stp b p).
Proof. unfold process_stp. grows. Qed.
Hint Resolve grows_process_stp : grows.
Lemma grows_process_lacp b a p : grows (process_lacp b a p).
Proof. unfold process_lacp. grows. Qed.
Hint Resolve grows_process_lacp : grows.
Lemma grows_process_bfd b a p : grows (process_bfd b a p).
Proof. unfold process_bfd. grows. Qed.
Hint Resolve grows_process_bfd : grows.
Lemma grows_process_special a : grows (process_special a).
Proof. unfold process_special. grows. Qed.
Lemma grows_compose_sample p k : grows (compose_sample_action p k).
Proof. unfold compose_sample_action. grows. Qed.
Hint Resolve grows_process_special grows_compose_sample : grows.
Lemma grows_add_sflow : grows add_sflow_action.
Proof. unfold add_sflow_action, compose_sflow_action. grows. Qed.
Lemma grows_compose_ipfix : grows compose_ipfix_action.
Proof. unfold compose_ipfix_action. grows. Qed.
Lemma grows_fix_sflow : grows fix_sflow_action.
Proof. unfold fix_sflow_action. grows. Qed.
Hint Resolve grows_add_sflow grows_compose_ipfix grows_fix_sflow : grows.

Lemma grows_commit_odp : grows (commit_with commit_odp_actions).
Proof. apply grows_commit. intros. apply commit_odp_actions_grows. Qed.
Lemma grows_commit_tunnel : grows (commit_with commit_odp_tunnel_action).
Proof. apply grows_commit. intros. apply commit_odp_tunnel_action_grows. Qed.
Hint Resolve grows_commit_odp grows_commit_tunnel : grows.

Lemma grows_controller len reason id : grows (execute_controller_action len reason id).
Proof. unfold execute_controller_action. grows. Qed.
Hint Resolve grows_controller : grows.
Lemma grows_mpls_push t : grows (compose_mpls_push_action t).
Proof. unfold compose_mpls_push_action. grows. Qed.
Lemma grows_mpls_pop t : grows (compose_mpls_pop_action t).
Proof. unfold compose_mpls_pop_action. grows. Qed.
Lemma grows_dec_ttl ids : grows (compose_dec_ttl ids).
Proof. unfold compose_dec_ttl. grows. Qed.
Lemma grows_set_mpls_ttl t : grows (compose_set_mpls_ttl_action t).
Proof. unfold compose_set_mpls_ttl_action. grows. Qed.
Lemma grows_dec_mpls_ttl : grows compose_dec_mpls_ttl_action.
Proof. unfold compose_dec_mpls_ttl_action. grows. Qed.

Lemma grows_learn_mask specs :
  Forall (spec_src_ok sf_maskable) specs →
  grows (wc ← gets cx_wc; wc ← lift (learn_mask specs wc); mod_wc (λ _, wc)).
Proof.
  intros H. apply grows_gets_bind. intros c b d. unfold lift, mod_wc, modify, mbind, xlate_bind.
  destruct (learn_mask specs (cx_wc c)) eqn:Em; [|done]. intros [= <- <-]. by eapply (W_learn_mask wc_grows sf_maskable).
Qed.
Hint Resolve grows_learn_mask : grows.
Lemma grows_learn_begin specs : Forall (spec_src_ok sf_maskable) specs → grows (learn_begin specs).
Proof. intros H. unfold learn_begin. grows. Qed.
Hint Resolve grows_learn_begin : grows.
Lemma grows_learn l : Forall (spec_src_ok sf_maskable) (ln_specs l) → grows (xlate_learn_action l).
Proof. intros H. unfold xlate_learn_action, flow_mod_step. grows. Qed.
Lemma grows_learn_learn l acts :
  Forall (spec_src_ok sf_maskable) (ln_specs (ll_learn l)) → grows (xlate_learn_learn_action l acts).
Proof. intros H. unfold xlate_learn_learn_action, flow_mod_step. grows. Qed.
Lemma grows_learn_delete l : Forall (spec_src_ok sf_maskable) (ld_specs l) → grows (xlate_learn_delete_action l).
Proof. intros H. unfold xlate_learn_delete_action, flow_mod_step. grows. Qed.
Lemma grows_increment spec : grows (xlate_increment_table_id_action spec).
Proof. unfold xlate_increment_table_id_action. grows. Qed.
Lemma grows_fin_timeout i h : grows (xlate_fin_timeout i h).
Proof. unfold xlate_fin_timeout. grows. Qed.
Lemma grows_sample p k d o : grows (xlate_sample_action p k d o).
Proof. unfold xlate_sample_action. grows. Qed.
Lemma grows_set_queue q : grows (xlate_set_queue_action q).
Proof. unfold xlate_set_queue_action. grows. Qed.

End steps.

#[export] Hint Resolve grows_port_at grows_bridge_at grows_bundle_at grows_the_bridge grows_get_stp_port grows_stp_state
  grows_stp_forward grows_stp_learn grows_may_receive grows_lookup_input_bundle grows_bundle_cfg
  grows_stp_process_packet grows_hand_over grows_decide_stp grows_decide_bfd grows_decide_cfm grows_mod_svc
  grows_process_stp grows_process_lacp grows_process_bfd grows_process_special
  grows_compose_sample grows_add_sflow grows_compose_ipfix grows_fix_sflow grows_commit_odp grows_commit_tunnel
  grows_controller grows_mpls_push grows_mpls_pop grows_dec_ttl grows_set_mpls_ttl grows_dec_mpls_ttl
  grows_learn_mask grows_learn_begin grows_learn grows_learn_learn grows_learn_delete grows_increment grows_fin_timeout grows_sample
  grows_set_queue : grows.

(** ** Output and actions *)

Section actions.
Context {Sv : xlate_services} {Svok : xlate_services_ok Sv} {E : xlate_env}.
Context (table_action : Z → Z → bool → xlate unit).
Context (Hta : ∀ i t m, grows (table_action i t m)).
Hint Resolve Hta : grows.

Lemma grows_receive_from_peer peer q : grows (receive_from_peer table_action peer q).
Proof. unfold receive_from_peer. grows. Qed.
Hint Resolve grows_receive_from_peer : grows.
Lemma grows_output_to_peer p peer : grows (output_to_peer table_action p peer).
Proof. unfold output_to_peer. grows. Qed.
Lemma grows_output_port_tunnel a p : grows (output_port_tunnel a p).
Proof.
  unfold output_port_tunnel. apply grows_bind; [grows|intros fl]. apply grows_gets_bind. intros c b d.
  pose proof (tnl_port_send_grows e_tnl a (cx_flow c) (cx_wc c)) as Hg.
  destruct (tnl_port_send e_tnl a (cx_flow c) (cx_wc c)) as [[odp fl'] w]. simpl in Hg.
  intros ([] & c' & [= <-] & H)%bind_ok. etrans; [exact Hg|]. revert H. apply grows_bind; [grows|intros o]. grows.
Qed.
Lemma grows_output_port_plain p n : grows (output_port_plain p n).
Proof. unfold output_port_plain. grows. Qed.
Hint Resolve grows_output_to_peer grows_output_port_tunnel grows_output_port_plain : grows.
Lemma grows_output_to_datapath a p n : grows (output_to_datapath a p n).
Proof. unfold output_to_datapath. grows. Qed.
Hint Resolve grows_output_to_datapath : grows.
Lemma grows_compose_output n stp : grows (compose_output_action__ table_action n stp).
Proof. unfold compose_output_action__. grows. Qed.
Hint Resolve grows_compose_output : grows.

Lemma grows_output_normal u vlan : grows (output_normal table_action u vlan).
Proof.
  unfold output_normal, compose_output_action. apply grows_bind; [grows|intros x].
  destruct (xu_xports x) as [|front ?]; [grows|]. apply grows_bind; [|grows].
  destruct (uc_bond (xu_cfg x)) as [bond|]; [|grows]. apply grows_gets_bind. intros c b d.
  pose proof (sv_bond_grows (cx_svc c) bond (cx_flow c) (cx_wc c) (output_vlan_to_vid (xu_cfg x) vlan)) as Hg.
  destruct (sv_bond_choose_output_slave _ _ _ _ _) as [[s w] ofport]. simpl in Hg. by intros [= <- <-].
Qed.
Lemma grows_the_ml : grows the_ml.
Proof. unfold the_ml. grows. Qed.
Lemma grows_grat : grows (decide_wc is_gratuitous_arp).
Proof. apply grows_decide_wc. intros. apply (W_is_gratuitous_arp wc_grows sf_maskable). Qed.
Lemma grows_put_ml ml : grows (put_ml ml).
Proof. unfold put_ml. grows. Qed.
Hint Resolve grows_output_normal grows_the_ml grows_grat grows_put_ml : grows.
Lemma grows_update_learning_table vlan u : grows (update_learning_table vlan u).
Proof. unfold update_learning_table, is_mac_learning_update_needed, update_learning_table__. grows. Qed.
Lemma grows_is_admissible i vlan : grows (is_admissible i vlan).
Proof. unfold is_admissible. grows. Qed.
Lemma grows_forward_normal u vlan : grows (forward_normal table_action u vlan).
Proof. unfold forward_normal, floods_to. grows. Qed.
Hint Resolve grows_update_learning_table grows_is_admissible grows_forward_normal : grows.
Lemma grows_normal : grows (xlate_normal table_action).
Proof. unfold xlate_normal. grows. Qed.
Lemma grows_mirror_loop fuel mb us dst vlan m : grows (mirror_loop table_action fuel mb us dst vlan m).
Proof. revert m. induction fuel as [|fuel IH]; intros m; simpl; grows. Qed.
Hint Resolve grows_normal grows_mirror_loop : grows.
Lemma grows_mirror orig : grows (add_mirror_actions table_action orig).
Proof. unfold add_mirror_actions. grows. Qed.
Lemma grows_flood all : grows (flood_packets table_action all).
Proof. unfold flood_packets, compose_output_action. grows. Qed.
Hint Resolve grows_mirror grows_flood : grows.
Lemma grows_output_action n len m : grows (xlate_output_action table_action n len m).
Proof. unfold xlate_output_action, compose_output_action. grows. Qed.
Hint Resolve grows_output_action : grows.

Lemma grows_unwild sf : sf_maskable sf → grows (mod_wc (mf_unwild sf)).
Proof. intros H. apply grows_modify. intros c. by apply (wc_rel_unwild (W:=wc_grows)). Qed.
Hint Resolve grows_unwild : grows.
Lemma grows_output_reg src len : sf_maskable src → grows (xlate_output_reg_action table_action src len).
Proof. intros H. unfold xlate_output_reg_action. grows. Qed.
Lemma grows_enqueue n q : grows (xlate_enqueue_action table_action n q).
Proof. unfold xlate_enqueue_action, compose_output_action. grows. Qed.
Lemma grows_bundle_action b : from_option sf_maskable True (bd_dst b) → grows (xlate_bundle_action table_action b).
Proof.
  intros H. unfold xlate_bundle_action. apply grows_bind; [grows|intros x]. apply grows_gets_bind. intros c r d.
  pose proof (W_bundle_execute wc_grows sf_maskable b (cx_flow c) (cx_wc c) (slave_enabled_cb x)) as Hw.
  revert Hw. generalize (bundle_execute b (cx_flow c) (cx_wc c) (slave_enabled_cb x)). intros q Hw.
  intros ([] & c' & [= <-] & Hr)%bind_ok. etrans; [exact Hw|]. revert Hr. destruct (bd_dst b) as [dst|]; [|apply grows_output_action].
  apply grows_modify. intros e. by apply (wc_rel_unwild (W:=wc_grows)).
Qed.
Lemma grows_resubmit i t : grows (xlate_ofpact_resubmit table_action i t).
Proof. unfold xlate_ofpact_resubmit. grows. Qed.
Lemma grows_multipath mp :
  sf_maskable (mp_dst mp) →
  grows (modify (λ c, let '(fl, wc) := multipath_execute mp (cx_flow c) (cx_wc c) in set_flow fl (set_wc wc c))).
Proof.
  intros H. apply grows_modify. intros c. simpl. etrans; [apply flow_mask_hash_fields_grows|]. by apply (wc_rel_unwild (W:=wc_grows)).
Qed.
Hint Resolve grows_output_reg grows_enqueue grows_bundle_action grows_resubmit grows_multipath : grows.

Lemma grows_reg_move src dst :
  sf_maskable src → sf_maskable dst →
  grows (modify (λ c, let '(fl, wc) := nxm_execute_reg_move dst src (cx_flow c) (cx_wc c) in set_flow fl (set_wc wc c))).
Proof. intros. apply grows_modify. intros c. simpl. etrans; by apply (wc_rel_unwild (W:=wc_grows)). Qed.
Lemma grows_stack_push sf :
  sf_maskable sf →
  grows (modify (λ c, let '(wc, st) := nxm_execute_stack_push sf (cx_flow c) (cx_wc c) (cx_stack c) in
                      set_stack st (set_wc wc c))).
Proof. intros. apply grows_modify. intros c. by apply (wc_rel_unwild (W:=wc_grows)). Qed.
Lemma grows_stack_pop sf :
  sf_maskable sf →
  grows (modify (λ c, let '(fl, wc, st) := nxm_execute_stack_pop sf (cx_flow c) (cx_wc c) (cx_stack c) in
                      set_stack st (set_flow fl (set_wc wc c)))).
Proof.
  intros. apply grows_modify. intros c. unfold nxm_execute_stack_pop. destruct (cx_stack c); [done|].
  by apply (wc_rel_unwild (W:=wc_grows)).
Qed.
Hint Resolve grows_reg_move grows_stack_push grows_stack_pop : grows.
Lemma grows_do_action a : act_ok sf_maskable a → grows (do_xlate_action table_action a).
Proof. intros H. destruct a; unfold do_xlate_action, set_field_wc; simpl in H; destruct_and?; grows. Qed.
Lemma grows_to_egress st : grows (to_egress table_action st).
Proof. unfold to_egress. grows. Qed.
Hint Resolve grows_do_action grows_to_egress : grows.
Lemma grows_egress_action a : grows (do_xlate_egress_action table_action a).
Proof. unfold do_xlate_egress_action. grows. Qed.
Hint Resolve grows_egress_action : grows.
Lemma grows_actions_loop acts done :
  Forall (act_ok sf_maskable) acts → grows (xlate_actions_loop table_action acts done).
Proof. intros H. revert done. induction H as [|a acts Ha _ IH]; intros done; simpl; grows. Qed.
Hint Resolve grows_actions_loop : grows.
Lemma grows_do_xlate_actions acts : Forall (act_ok sf_maskable) acts → grows (do_xlate_actions table_action acts).
Proof. intros H. unfold do_xlate_actions. grows. Qed.

End actions.

#[export] Hint Resolve grows_receive_from_peer grows_output_to_peer grows_output_port_plain grows_output_to_datapath
  grows_compose_output grows_output_normal grows_the_ml grows_grat grows_update_learning_table grows_is_admissible
  grows_forward_normal grows_normal grows_mirror grows_flood grows_output_action grows_unwild grows_output_reg
  grows_enqueue grows_bundle_action grows_resubmit grows_multipath grows_reg_move grows_stack_push grows_stack_pop
  grows_do_action grows_to_egress grows_egress_action
  grows_actions_loop grows_do_xlate_actions : grows.

(** ** Tables *)

Section tables.
Context {Sv : xlate_services} {Svok : xlate_services_ok Sv} {E : xlate_env}.
Context (Hrules : rules_ok sf_maskable).

Lemma grows_lookup_step i t : grows (lookup_step i t).
Proof. intros c a d [= <- <-]. apply (W_lookup wc_grows sf_maskable). Qed.
Lemma grows_miss_step t m r : grows (miss_step t m r).
Proof. unfold miss_step. grows. Qed.
Hint Resolve grows_lookup_step grows_miss_step : grows.
Lemma grows_table_enter i t m : grows (table_enter i t m).
Proof. unfold table_enter. grows. Qed.
Hint Resolve grows_table_enter : grows.

Lemma table_enter_returns i t m : returns (from_option (rule_ok sf_maskable) True) (table_enter i t m).
Proof.
  intros c r d. unfold table_enter. intros ([] & c1 & _ & H)%bind_ok. apply bind_ok in H as ([] & c2 & _ & H).
  apply bind_ok in H as (r' & c3 & [= <- <-] & H).
  pose proof (lookup_rule_ok sf_maskable Hrules (cx_xbridge c2) t (cx_svc c2) (upd F_in_port i (cx_flow c2)) (cx_wc c2)) as Hr.
  revert H Hr. generalize (rule_dpif_lookup_in_table (cx_xbridge c2) t (cx_svc c2) (upd F_in_port i (cx_flow c2)) (cx_wc c2)).
  intros [r' w] H Hr. simpl in H, Hr.
  match type of H with miss_step _ _ _ ?c = _ => pose proof (miss_step_rel sf_maskable Hrules c t m r') as Hm end.
  rewrite H in Hm. apply Hm. destruct r'; [by apply Hr|done].
Qed.

Lemma grows_recursively do_actions rule :
  grows (do_actions (rl_actions rule)) → grows (xlate_recursively do_actions rule).
Proof. intros H. unfold xlate_recursively. grows. Qed.

Lemma grows_table_action_body do_actions next i t m :
  (∀ rule, rule_ok sf_maskable rule → grows (do_actions (rl_actions rule))) → (∀ t', grows (next i t' m)) →
  grows (table_action_body do_actions next i t m).
Proof.
  intros Hdo Hnext. unfold table_action_body. apply grows_bind; [grows|intros r]. apply grows_when.
  apply grows_bind; [grows|intros old].
  eapply grows_bind_returns; [grows|apply table_enter_returns|]. intros rule Hr.
  apply grows_bind; [destruct rule; [by apply grows_recursively, Hdo|grows]|intros _]. grows.
Qed.

Lemma grows_table_chain do_actions fuel i t m :
  (∀ rule, rule_ok sf_maskable rule → grows (do_actions (rl_actions rule))) → grows (table_chain do_actions fuel i t m).
Proof.
  intros Hdo. revert t. induction fuel as [|fuel IH]; intros t; [apply grows_out_of_fuel|]. by apply grows_table_action_body.
Qed.

Lemma grows_table_action_fuel depth i t m : grows (xlate_table_action_fuel depth i t m).
Proof.
  revert i t m. induction depth as [|depth IH]; intros i t m; [apply grows_out_of_fuel|].
  apply grows_table_chain. intros rule Hr. by apply grows_do_xlate_actions.
Qed.

End tables.
#[export] Hint Resolve grows_lookup_step grows_miss_step grows_table_enter grows_recursively grows_table_action_fuel : grows.
