(* ===== verification/MegaflowRel.v ===== *)
(** * Flows that a megaflow does not tell apart

    A megaflow is a translation cached under its wildcards [W]: it serves
    every packet that agrees with the translated one on the bits of [W].  This
    file has the relation between the flows of two such translations, [o1] and
    [o2] being the flows that came in: a field that the translation has
    rewritten is in the wildcards or was rewritten alike, one that it has not
    still has the value that came in.  Committing two related flows gives the
    same datapath actions and the same wildcards. *)
From S2P Require Import Prelude MatchFields MetaFlow OdpActions NxActions.
From S2P Require Import Stp Xlate XlateThms.

(** What the translation reads of the packet without adding it to the
    wildcards. *)
Definition unmasked_tests : list (field * Z) :=
  [(F_nw_proto, 0); (F_tp_src, 0); (F_tp_dst, 0); (F_dl_dst, 0x0180c2000000);
   (F_nw_proto, IPPROTO_UDP); (F_tp_src, DHCP_SERVER_PORT); (F_tp_dst, DHCP_CLIENT_PORT)].

Definition same_tests (fl fl' : flowf) : Prop :=
  Forall (λ p, (fl p.1 =? p.2) = (fl' p.1 =? p.2)) unmasked_tests.

(** How the translation changes a field: it is not part of the packet, it is
    a result register of the egress tables, some bits of it may be rewritten,
    or the whole of it. *)
Inductive fkind := K_meta | K_result | K_bits | K_whole.

#[global] Instance fkind_eq_dec : EqDecision fkind.
Proof. solve_decision. Defined.

Definition kind (f : field) : fkind :=
  match f with
  | F_tun_id | F_tun_src | F_tun_dst | F_tun_flags | F_tun_tos | F_tun_ttl | F_metadata => K_meta
  | F_reg i => if (2 <=? i)%nat && (i <? 16)%nat then K_result else K_meta
  | F_vlan_tci | F_mpls_lse | F_nw_tos => K_bits
  | _ => K_whole
  end.

Definition is_packet_field (f : field) : bool := match kind f with K_bits | K_whole => true | _ => false end.

Section rel.
Context (W o1 o2 : flowf).

Definition full (f : field) : Prop := W f = all_ones f.
Definition covers (f : field) (v : Z) : Prop := Z.land v (W f) = v.

(** Fixed by the wildcards; the translation rewrites a transport port only
    together with reading the protocol. *)
Definition fixed (f : field) : Prop := full f ∧ (f = F_tp_src ∨ f = F_tp_dst → full F_nw_proto).

Definition unchanged (f : field) (a1 a2 : Z) : Prop := a1 = o1 f ∧ a2 = o2 f.

(** The bits outside the wildcards are those that came in. *)
Definition tracked (f : field) (a1 a2 : Z) : Prop :=
  Z.ldiff a1 (W f) = Z.ldiff (o1 f) (W f) ∧ Z.ldiff a2 (W f) = Z.ldiff (o2 f) (W f).

(** A tag that is removed for the duration of an output. *)
Definition untagged (f : field) (a1 a2 : Z) : Prop := f = F_vlan_tci ∧ a1 = 0 ∧ a2 = 0 ∧ covers F_vlan_tci VLAN_CFI.

Definition alike (f : field) (a1 a2 : Z) : Prop :=
  in_width (field_width f) a1 ∧ in_width (field_width f) a2 ∧ Z.land a1 (W f) = Z.land a2 (W f).

(** No lookup has read a result of the egress tables. *)
Definition results_unread : Prop := ∀ f, kind f = K_result → W f = 0.

(** Related values of a field of the flow; with [w] the tag may be removed. *)
Definition fr (w : bool) (f : field) (a1 a2 : Z) : Prop :=
  alike f a1 a2
  ∧ match kind f with
    | K_meta => a1 = a2
    | K_result => a1 = a2 ∨ results_unread
    | K_bits => tracked f a1 a2 ∨ (w = true ∧ untagged f a1 a2)
    | K_whole => fixed f ∨ unchanged f a1 a2
    end.

Definition frel (w : bool) (x1 x2 : flowf) : Prop := ∀ f, fr w f (x1 f) (x2 f).

(** Related values of a field of the base flow. *)
Definition br (f : field) (a1 a2 : Z) : Prop := is_packet_field f = true → alike f a1 a2 ∧ (fixed f ∨ unchanged f a1 a2).

Definition brel (b1 b2 : flowf) : Prop := ∀ f, br f (b1 f) (b2 f).

(** ** Consequences *)

Lemma frel_ok w x1 x2 : frel w x1 x2 → flow_ok x1 ∧ flow_ok x2.
Proof. intros H. split; intros f; apply H. Qed.

Lemma frel_agree w x1 x2 : frel w x1 x2 → agree W x1 x2.
Proof. intros H f. apply H. Qed.

Lemma alike_full f a1 a2 : alike f a1 a2 → full f → a1 = a2.
Proof.
  intros (H1 & H2 & H) Hf. rewrite Hf in H. pose proof (field_width_pos f). unfold all_ones in H.
  by rewrite !land_all_ones in H by (done || lia).
Qed.

Lemma frel_full w x1 x2 f : frel w x1 x2 → full f → x1 f = x2 f.
Proof. intros H. apply alike_full, H. Qed.

Lemma alike_covers f a1 a2 v : alike f a1 a2 → covers f v → Z.land a1 v = Z.land a2 v.
Proof.
  intros (_ & _ & H) Hv. rewrite <- Hv, (Z.land_comm v), !Z.land_assoc. by rewrite H.
Qed.

Lemma frel_covers w x1 x2 f v : frel w x1 x2 → covers f v → Z.land (x1 f) v = Z.land (x2 f) v.
Proof. intros H. apply alike_covers, H. Qed.

Lemma frel_meta w x1 x2 f : frel w x1 x2 → kind f = K_meta → x1 f = x2 f.
Proof. intros H Hk. destruct (H f) as [_ Hf]. by rewrite Hk in Hf. Qed.

Lemma frel_upd w w' x1 x2 f v1 v2 :
  frel w x1 x2 → fr w' f v1 v2 → (w = true → w' = true ∨ f = F_vlan_tci) → frel w' (upd f v1 x1) (upd f v2 x2).
Proof.
  intros H Hv Hw g. destruct (decide (g = f)) as [->|Hne]; [by rewrite !upd_eq|]. rewrite !upd_ne by done.
  destruct (H g) as [Ha Hk]. split; [done|]. destruct (kind g); try done. destruct Hk as [?|[Ew Hu]]; [by left|].
  destruct (Hw Ew) as [->| ->]; [by right|]. by destruct Hu as [-> _].
Qed.

Lemma frel_weaken w x1 x2 : frel false x1 x2 → frel w x1 x2.
Proof. intros H f. destruct (H f) as [Ha Hk]. split; [done|]. destruct (kind f); try done. destruct Hk as [?|[? _]]; [by left|done]. Qed.

(** ** Two flows of a megaflow *)

Record megaflow : Prop := {
  mg_wc : flow_ok W;
  mg_ok1 : flow_ok o1;
  mg_ok2 : flow_ok o2;
  mg_agree : agree W o1 o2;
  mg_tests : same_tests o1 o2;
  mg_tci1 : tci_ok (o1 F_vlan_tci);
  mg_tci2 : tci_ok (o2 F_vlan_tci);
  mg_in_port : full F_in_port;
  mg_skb_priority : full F_skb_priority;
  mg_dl_type : full F_dl_type;
  mg_nw_frag : covers F_nw_frag FLOW_NW_FRAG_MASK
}.
Context (M : megaflow).

Lemma ldiff_full f a : full f → in_width (field_width f) a → Z.ldiff a (W f) = 0.
Proof.
  intros Hf Ha. apply ldiff_0_iff. rewrite Hf. pose proof (field_width_pos f). apply land_all_ones; [done|lia].
Qed.

Lemma tracked_full f a1 a2 :
  full f → in_width (field_width f) a1 → in_width (field_width f) a2 → tracked f a1 a2.
Proof. intros Hf H1 H2. unfold tracked. rewrite !ldiff_full by (done || apply M). done. Qed.

Lemma unchanged_alike f : alike f (o1 f) (o2 f).
Proof. split_and!; apply M. Qed.

Lemma frel_refl : (∀ f, kind f = K_meta → o1 f = o2 f) → (∀ f, kind f = K_result → o1 f = o2 f) → frel false o1 o2.
Proof.
  intros H H' f. split; [apply unchanged_alike|]. destruct (kind f) eqn:E; [by apply H|left; by apply H'|by left|by right].
Qed.

(** With the whole tag in the wildcards its removal is not special. *)
Lemma frel_strict w x1 x2 : full F_vlan_tci → frel w x1 x2 → frel false x1 x2.
Proof.
  intros Hv H f. destruct (H f) as [Ha Hk]. split; [done|]. destruct (kind f); try done.
  destruct Hk as [?|[_ (-> & _)]]; [by left|]. left. apply tracked_full; [done|apply Ha..].
Qed.

(** Writing the same value to a field that is fixed. *)
Lemma fr_same w f v : is_packet_field f = true → fixed f → in_width (field_width f) v → fr w f v v.
Proof.
  unfold is_packet_field. intros Hp Hf Hv. split; [done|]. destruct (kind f); try done; [|by left].
  left. apply tracked_full; [apply Hf|done..].
Qed.

Lemma fr_meta w f v : is_packet_field f = false → in_width (field_width f) v → fr w f v v.
Proof. unfold is_packet_field. intros Hp Hv. split; [done|]. destruct (kind f); try done. by left. Qed.

(** Rewriting bits that the wildcards cover. *)
Lemma fr_bits w f a1 a2 m v :
  kind f = K_bits → fr false f a1 a2 → covers f m → covers f v → in_width (field_width f) v →
  fr w f (Z.lor (Z.ldiff a1 m) v) (Z.lor (Z.ldiff a2 m) v).
Proof.
  intros Hk [(H1 & H2 & Ha) Ht] Hm Hv Hw. rewrite Hk in Ht. destruct Ht as [[T1 T2]|[? _]]; [|done].
  pose proof (field_width_pos f).
  assert (Hl : ∀ a, Z.land (Z.lor (Z.ldiff a m) v) (W f) = Z.lor (Z.ldiff (Z.land a (W f)) m) v).
  { intros a. rewrite <- Hv at 2. bits. }
  assert (Ht : ∀ a, Z.ldiff (Z.lor (Z.ldiff a m) v) (W f) = Z.ldiff a (W f)).
  { intros a. rewrite <- Hm, <- Hv. bits. }
  split; [split_and!; [apply lor_in_width; [lia|by apply ldiff_in_width; [lia|]|done]..|by rewrite !Hl, Ha]|].
  rewrite Hk. left. unfold tracked. by rewrite !Ht.
Qed.

(** A test without the wildcards has the same outcome. *)
Lemma frel_test w x1 x2 f v :
  frel w x1 x2 → (f, v) ∈ unmasked_tests → kind f = K_whole → (x1 f =? v) = (x2 f =? v).
Proof.
  intros H Hin Hk. destruct (H f) as [Ha Hf]. rewrite Hk in Hf. destruct Hf as [[Hf _]|[-> ->]].
  - by rewrite (alike_full f _ _ Ha Hf).
  - pose proof (mg_tests M) as Ht. unfold same_tests in Ht. rewrite Forall_forall in Ht. by apply (Ht (f, v)).
Qed.

Lemma brel_test b1 b2 f v :
  brel b1 b2 → (f, v) ∈ unmasked_tests → is_packet_field f = true → (b1 f =? v) = (b2 f =? v).
Proof.
  intros H Hin Hp. destruct (H f Hp) as [Ha [[Hf _]|[-> ->]]].
  - by rewrite (alike_full f _ _ Ha Hf).
  - pose proof (mg_tests M) as Ht. unfold same_tests in Ht. rewrite Forall_forall in Ht. by apply (Ht (f, v)).
Qed.

Lemma brel_full b1 b2 f : brel b1 b2 → is_packet_field f = true → full f → b1 f = b2 f.
Proof. intros H Hp. apply alike_full, (H f Hp). Qed.

(** The base flow and the flow differ in a field in both runs or in none. *)
Lemma split_eq (a b m : Z) : Z.land a m = Z.land b m → Z.ldiff a m = Z.ldiff b m → a = b.
Proof.
  intros H1 H2. assert (E : ∀ x, x = Z.lor (Z.land x m) (Z.ldiff x m)) by (intros x; bits).
  rewrite (E a), (E b). congruence.
Qed.

Lemma covers_tci a1 a2 :
  tci_ok a1 → tci_ok a2 → alike F_vlan_tci a1 a2 → covers F_vlan_tci VLAN_CFI → a1 = 0 ↔ a2 = 0.
Proof.
  intros T1 T2 Ha Hc. pose proof (alike_covers _ _ _ _ Ha Hc) as H. split; intros ->.
  - apply T2. by rewrite <- H.
  - apply T1. by rewrite H.
Qed.

Lemma compare_field w x1 x2 b1 b2 f :
  frel w x1 x2 → brel b1 b2 → is_packet_field f = true → b1 f = x1 f ↔ b2 f = x2 f.
Proof.
  intros Hx Hb Hp. destruct (Hb f Hp) as [Ha [[Hf _]|[E1 E2]]].
  - by rewrite (alike_full f _ _ Ha Hf), (frel_full _ _ _ f Hx Hf).
  - rewrite E1, E2. destruct (Hx f) as [(W1 & W2 & Hl) Hk]. pose proof (mg_agree M f) as Ho.
    assert (Hsplit : tracked f (x1 f) (x2 f) → o1 f = x1 f ↔ o2 f = x2 f).
    { intros [T1 T2]. split; intros E; apply (split_eq _ _ (W f)); congruence. }
    unfold is_packet_field in Hp. destruct (kind f); try done.
    + destruct Hk as [?|[_ (-> & Z1 & Z2 & Hc)]]; [by apply Hsplit|]. rewrite Z1, Z2.
      apply covers_tci; [apply M..|apply unchanged_alike|done].
    + destruct Hk as [[Hf _]|[U1 U2]]; [|rewrite U1, U2; done]. apply Hsplit. by apply tracked_full.
Qed.

Lemma compare_fields w x1 x2 b1 b2 fs :
  frel w x1 x2 → brel b1 b2 → forallb is_packet_field fs = true → same_fields b1 x1 fs = same_fields b2 x2 fs.
Proof.
  intros Hx Hb Hfs. apply Bool.eq_iff_eq_true. rewrite !same_fields_spec. rewrite forallb_forall in Hfs.
  split; intros H f Hf; apply (compare_field w x1 x2 b1 b2 f Hx Hb); [apply Hfs; by apply list_elem_of_In|by apply H
    |apply Hfs; by apply list_elem_of_In|by apply H].
Qed.

(** ** Committing *)

Lemma covers_all_ones f : Z.land (all_ones f) (W f) = all_ones f → full f.
Proof.
  intros H. unfold full. rewrite <- H, Z.land_comm. symmetry. pose proof (field_width_pos f).
  apply land_all_ones; [apply M|lia].
Qed.

Lemma unwildcard_full fs wc f : wc_le (unwildcard fs wc) W → f ∈ fs → full f.
Proof. intros H Hf. apply covers_all_ones. rewrite <- (unwildcard_in fs wc f) by done. apply H. Qed.

Lemma wc_or_covers f v wc : wc_le (wc_or f v wc) W → covers f v.
Proof.
  intros H. specialize (H f). unfold wc_or in H. rewrite upd_eq in H. apply covers_bits. intros i Hi Hv.
  rewrite covers_bits in H. apply H; [done|]. rewrite Z.lor_spec, Hv. apply orb_true_r.
Qed.

Definition csim (d1 d2 : commit_state) : Prop :=
  cm_actions d1 = cm_actions d2 ∧ cm_wc d1 = cm_wc d2 ∧ brel (cm_base d1) (cm_base d2).

Lemma csim_put d1 d2 l1 l2 : csim d1 d2 → l1 = l2 → csim (put_actions d1 l1) (put_actions d2 l2).
Proof. intros (Ha & Hw & Hb) ->. split_and!; simpl; [by rewrite Ha|done|done]. Qed.

Lemma csim_unwild fs d1 d2 : csim d1 d2 → csim (unwild fs d1) (unwild fs d2).
Proof. intros (Ha & Hw & Hb). split_and!; simpl; [done|by rewrite Hw|done]. Qed.

Context (w : bool) (x1 x2 : flowf) (Hx : frel w x1 x2).

Lemma csim_take fs d1 d2 :
  csim d1 d2 → Forall (λ f, kind f = K_whole ∨ fixed f) fs → csim (take_fields x1 fs d1) (take_fields x2 fs d2).
Proof.
  intros (Ha & Hw & Hb) Hfs. split_and!; [done..|]. intros f Hp. rewrite !take_fields_spec. case_decide as Hf; [|by apply Hb].
  rewrite Forall_forall in Hfs. destruct (Hx f) as [Hal Hk]. split; [done|]. destruct (Hfs f Hf) as [Ek|?]; [|by left].
  by rewrite Ek in Hk.
Qed.

Lemma take_value fs d f : f ∈ fs → cm_base (take_fields x1 fs d) f = x1 f.
Proof. intros H. by rewrite take_fields_spec, decide_True. Qed.
Lemma take_value2 fs d f : f ∈ fs → cm_base (take_fields x2 fs d) f = x2 f.
Proof. intros H. by rewrite take_fields_spec, decide_True. Qed.

(** A part of committing, as long as the first run stays within [W]. *)
Definition commit_part (g : flowf → commit_state → commit_state) : Prop :=
  ∀ d1 d2, csim d1 d2 → wc_le (cm_wc (g x1 d1)) W → csim (g x1 d1) (g x2 d2).

Lemma full_fixed f : full f → f ≠ F_tp_src → f ≠ F_tp_dst → fixed f.
Proof. intros H H1 H2. split; [done|]. by intros [?|?]. Qed.

(** Fields that are compared, unwildcarded with others, taken over, and set by
    an action that names unwildcarded fields. *)
Lemma commit_group_part cmp ws fs (mk : flowf → odp_action) :
  forallb is_packet_field cmp = true → forallb is_packet_field ws = true →
  Forall (λ f, kind f = K_whole ∨ (f ∈ ws ∧ f ≠ F_tp_src ∧ f ≠ F_tp_dst)) fs →
  (∀ b b', (∀ f, f ∈ ws → b f = b' f) → mk b = mk b') →
  commit_part (λ flow d, if same_fields (cm_base d) flow cmp then d
    else let d := take_fields flow fs (unwild ws d) in put_actions d [mk (cm_base d)]).
Proof.
  intros Hcmp Hws Hfs Hmk d1 d2 Hd. pose proof Hd as (_ & _ & Hb). cbv beta zeta.
  rewrite (compare_fields w x1 x2 _ _ cmp Hx Hb) by done. destruct (same_fields _ _ _); [done|]. intros Hw.
  pose proof (λ f, unwildcard_full ws (cm_wc d1) f Hw) as Hf.
  assert (Ht : csim (take_fields x1 fs (unwild ws d1)) (take_fields x2 fs (unwild ws d2))).
  { apply csim_take; [by apply csim_unwild|]. eapply Forall_impl; [exact Hfs|]. intros f [?|(? & ? & ?)]; [by left|].
    right. apply full_fixed; auto. }
  apply csim_put; [done|]. destruct Ht as (_ & _ & Ht). f_equal. apply Hmk. intros f Hin. apply brel_full; auto.
  rewrite forallb_forall in Hws. apply Hws. by apply list_elem_of_In.
Qed.

Ltac group :=
  first [done | by repeat constructor
        | let b := fresh in let b' := fresh in let H := fresh in intros b b' H; by rewrite !H by set_solver
        | repeat apply Forall_cons_2; try apply Forall_nil_2; first [by left|right; split_and!; [set_solver|done..]]].

Lemma commit_ether_part : commit_part commit_set_ether_addr_action.
Proof.
  apply (commit_group_part [F_dl_src; F_dl_dst] [F_dl_src; F_dl_dst] [F_dl_src; F_dl_dst]
           (λ b, ODP_SET_ETHERNET (b F_dl_src) (b F_dl_dst))); group.
Qed.

Lemma commit_ipv4_part : commit_part commit_set_ipv4_action.
Proof.
  apply (commit_group_part [F_nw_src; F_nw_dst; F_nw_tos; F_nw_ttl; F_nw_frag]
           [F_nw_src; F_nw_dst; F_nw_tos; F_nw_ttl; F_nw_proto; F_nw_frag] [F_nw_src; F_nw_dst; F_nw_tos; F_nw_ttl]
           (λ b, ODP_SET_IPV4 (b F_nw_src) (b F_nw_dst) (b F_nw_proto) (b F_nw_tos) (b F_nw_ttl)
                   (ovs_to_odp_frag (b F_nw_frag)))); group.
Qed.

Lemma commit_ipv6_part : commit_part commit_set_ipv6_action.
Proof.
  apply (commit_group_part [F_ipv6_src; F_ipv6_dst; F_ipv6_label; F_nw_tos; F_nw_ttl; F_nw_frag]
           [F_ipv6_src; F_ipv6_dst; F_ipv6_label; F_nw_tos; F_nw_ttl; F_nw_proto; F_nw_frag]
           [F_ipv6_src; F_ipv6_dst; F_ipv6_label; F_nw_tos; F_nw_ttl]
           (λ b, ODP_SET_IPV6 (b F_ipv6_src) (b F_ipv6_dst) (b F_ipv6_label) (b F_nw_proto) (b F_nw_tos) (b F_nw_ttl)
                   (ovs_to_odp_frag (b F_nw_frag)))); group.
Qed.

Lemma commit_vlan_part : commit_part commit_vlan_action.
Proof.
  intros d1 d2 Hd. pose proof Hd as (_ & _ & Hb). unfold commit_vlan_action.
  pose proof (compare_field w x1 x2 _ _ F_vlan_tci Hx Hb eq_refl) as Hc.
  destruct (Z.eqb_spec (cm_base d1 F_vlan_tci) (x1 F_vlan_tci)) as [E|E].
  { intros _. rewrite (proj2 (Z.eqb_eq _ _)) by (by apply Hc). done. }
  rewrite (proj2 (Z.eqb_neq (cm_base d2 _) _)) by (by rewrite <- Hc). intros Hw.
  assert (Hv : full F_vlan_tci).
  { apply (unwildcard_full [F_vlan_tci] (cm_wc d1)); [|set_solver]. revert Hw. simpl. by destruct (_ =? 0), (_ =? 0). }
  apply csim_take; [|apply Forall_cons_2; [right; by apply full_fixed|apply Forall_nil_2]].
  assert (cm_base (unwild [F_vlan_tci] d1) F_vlan_tci = cm_base (unwild [F_vlan_tci] d2) F_vlan_tci) as ->
    by (by apply brel_full).
  rewrite (frel_full w x1 x2 F_vlan_tci Hx Hv). apply (csim_unwild [F_vlan_tci]) in Hd.
  clear Hw. destruct (_ =? 0), (_ =? 0); repeat (apply csim_put; [|done]); exact Hd.
Qed.

Lemma commit_one_part f (mk : Z → odp_action) :
  kind f = K_whole → f ≠ F_tp_src → f ≠ F_tp_dst →
  commit_part (λ flow d, if cm_base d f =? flow f then d
    else let d := take_fields flow [f] (unwild [f] d) in put_actions d [mk (cm_base d f)]).
Proof.
  intros Hk H1 H2 d1 d2 Hd. pose proof Hd as (_ & _ & Hb).
  assert (Hp : is_packet_field f = true) by (unfold is_packet_field; by rewrite Hk).
  pose proof (compare_field w x1 x2 _ _ f Hx Hb Hp) as Hc. cbv zeta beta.
  destruct (Z.eqb_spec (cm_base d1 f) (x1 f)) as [E|E].
  { intros _. rewrite (proj2 (Z.eqb_eq _ _)) by (by apply Hc). done. }
  rewrite (proj2 (Z.eqb_neq (cm_base d2 _) _)) by (by rewrite <- Hc). intros Hw.
  apply csim_put; [apply csim_take; [by apply csim_unwild|apply Forall_cons_2; [by left|apply Forall_nil_2]]|].
  rewrite take_value, take_value2 by set_solver. rewrite (frel_full w x1 x2 f Hx); [done|].
  by apply (unwildcard_full [f] (cm_wc d1) f Hw), list_elem_of_here.
Qed.

Lemma commit_mpls_part : commit_part commit_mpls_action.
Proof.
  intros d1 d2 Hd. pose proof Hd as (_ & _ & Hb). unfold commit_mpls_action.
  pose proof (compare_field w x1 x2 _ _ F_mpls_lse Hx Hb eq_refl) as Hl.
  pose proof (compare_field w x1 x2 _ _ F_mpls_depth Hx Hb eq_refl) as Hdp.
  assert (Hcond : (x1 F_mpls_lse =? cm_base d1 F_mpls_lse) && (x1 F_mpls_depth =? cm_base d1 F_mpls_depth)
                = (x2 F_mpls_lse =? cm_base d2 F_mpls_lse) && (x2 F_mpls_depth =? cm_base d2 F_mpls_depth)).
  { apply Bool.eq_iff_eq_true. rewrite !andb_true_iff, !Z.eqb_eq. split; intros [? ?]; split; symmetry; (apply Hl || apply Hdp); done. }
  rewrite Hcond. clear Hcond. destruct (_ && _); [done|]. intros Hw.
  assert (Hlse : full F_mpls_lse).
  { apply (unwildcard_full [F_mpls_lse] (cm_wc d1)); [|set_solver]. revert Hw. simpl. by destruct (_ <? _); [|destruct (_ <? _)]. }
  assert (Hlt : (x1 F_mpls_depth <? cm_base d1 F_mpls_depth) = (x2 F_mpls_depth <? cm_base d2 F_mpls_depth)
              ∧ (cm_base d1 F_mpls_depth <? x1 F_mpls_depth) = (cm_base d2 F_mpls_depth <? x2 F_mpls_depth)).
  { destruct (Hb F_mpls_depth eq_refl) as [Ha [[Hf _]|[E1 E2]]].
    - by rewrite (alike_full _ _ _ Ha Hf), (frel_full w x1 x2 _ Hx Hf).
    - destruct (Hx F_mpls_depth) as [_ [[Hf _]|[E3 E4]]]; [|by rewrite E1, E2, E3, E4, !Z.ltb_irrefl].
      by rewrite (alike_full _ _ _ Ha Hf), (frel_full w x1 x2 _ Hx Hf). }
  destruct Hlt as [Hlt Hgt]. apply csim_take;
    [|repeat apply Forall_cons_2; [by left|right; by apply full_fixed|by left|apply Forall_nil_2]].
  change (cm_base (unwild [F_mpls_lse] ?d)) with (cm_base d). rewrite Hlt, Hgt, (frel_full w x1 x2 F_mpls_lse Hx Hlse), (frel_full w x1 x2 F_dl_type Hx (mg_dl_type M)).
  clear Hw Hlt Hgt. destruct (_ <? _); [|destruct (_ <? _)]; (apply csim_put; [by apply csim_unwild|done]).
Qed.

Lemma commit_nw_part : commit_part commit_set_nw_action.
Proof.
  intros d1 d2 Hd. pose proof Hd as (_ & _ & Hb). unfold commit_set_nw_action.
  rewrite (frel_test w x1 x2 F_nw_proto 0 Hx) by (done || (unfold unmasked_tests; set_solver)).
  rewrite (brel_full _ _ F_dl_type Hb eq_refl (mg_dl_type M)).
  destruct (_ =? 0); [done|]. destruct (_ =? ETH_TYPE_IP); [|destruct (_ =? ETH_TYPE_IPV6); [|done]].
  - by apply commit_ipv4_part.
  - by apply commit_ipv6_part.
Qed.

Lemma commit_port_part : commit_part commit_set_port_action.
Proof.
  intros d1 d2 Hd. pose proof Hd as (_ & _ & Hb). unfold commit_set_port_action. cbv zeta. unfold is_ip_any.
  rewrite (brel_full _ _ F_dl_type Hb eq_refl (mg_dl_type M)).
  rewrite (brel_test _ _ F_tp_src 0 Hb), (brel_test _ _ F_tp_dst 0 Hb) by (done || (unfold unmasked_tests; set_solver)).
  destruct (negb _ || _); [done|].
  destruct (decide (W F_nw_proto = all_ones F_nw_proto)) as [Hp|Hp].
  - rewrite (compare_fields w x1 x2 _ _ _ Hx Hb) by done. rewrite (frel_full w x1 x2 F_nw_proto Hx Hp).
    destruct (same_fields _ _ _); [done|]. intros Hw.
    assert (Hf : ∀ f, f ∈ [F_tp_src; F_tp_dst] → full f).
    { intros f. apply (unwildcard_full _ (cm_wc d1)). revert Hw. repeat (destruct (_ =? _); [done|]). done. }
    assert (Ht : csim (take_fields x1 [F_tp_src; F_tp_dst] (unwild [F_tp_src; F_tp_dst] d1))
                      (take_fields x2 [F_tp_src; F_tp_dst] (unwild [F_tp_src; F_tp_dst] d2))).
    { apply csim_take; [by apply csim_unwild|]. repeat apply Forall_cons_2; try apply Forall_nil_2; by left. }
    pose proof Ht as (_ & _ & Ht').
    rewrite (brel_full _ _ F_tp_src Ht'), (brel_full _ _ F_tp_dst Ht') by (done || (apply Hf; set_solver)).
    clear Hw. repeat (destruct (_ =? _); [by apply csim_put|]). by apply csim_unwild.
  - assert (Hu : ∀ f, f = F_tp_src ∨ f = F_tp_dst → unchanged f (x1 f) (x2 f) ∧ unchanged f (cm_base d1 f) (cm_base d2 f)).
    { intros f Hf. destruct (Hx f) as [_ Hk], (Hb f) as [_ Hbf]; [by destruct Hf as [-> | ->]|].
      assert (¬ fixed f) as Hn by (intros [_ H]; by apply Hp, H). destruct Hf as [-> | ->]; simpl in Hk; naive_solver. }
    destruct (Hu F_tp_src) as [[E1 E2] [E3 E4]]; [by left|]. destruct (Hu F_tp_dst) as [[E5 E6] [E7 E8]]; [by right|].
    unfold same_fields. simpl. by rewrite E1, E2, E3, E4, E5, E6, E7, E8, !Z.eqb_refl.
Qed.

(** Parts one after the other. *)
Definition commit_parts (g : flowf → commit_state → commit_state) : Prop :=
  (∀ fl d, cm_grows d (g fl d))
  ∧ ∀ d1 d2, csim d1 d2 → flow_ok (cm_wc d1) → wc_le (cm_wc (g x1 d1)) W → csim (g x1 d1) (g x2 d2).

Lemma commit_parts_one g : commit_part g → (∀ fl d, cm_grows d (g fl d)) → commit_parts g.
Proof. intros H Hg. split; [done|]. intros d1 d2 Hd _. by apply H. Qed.

Lemma commit_parts_comp g h : commit_parts g → commit_parts h → commit_parts (λ fl d, h fl (g fl d)).
Proof.
  intros [Gg Hg] [Gh Hh]. split; [intros fl d; by trans (g fl d)|]. intros d1 d2 Hd Hok Hw.
  destruct (Gg x1 d1) as [_ Wg], (Gh x1 (g x1 d1)) as [_ Wh]. destruct (Wg Hok) as [Hok' _].
  destruct (Wh Hok') as [_ Hle]. apply Hh; [|done|done]. apply Hg; [done|done|]. by etrans.
Qed.

(** Committing related flows gives the same actions and wildcards, and related
    base flows. *)
Lemma commit_odp_parts : commit_parts commit_odp_actions.
Proof.
  pose proof commit_parts_grow as G.
  apply (commit_parts_comp (λ fl d, commit_set_priority_action fl (commit_mpls_action fl (commit_set_port_action fl
    (commit_set_nw_action fl (commit_vlan_action fl (commit_set_ether_addr_action fl d))))))).
  2: { apply commit_parts_one; [by apply (commit_one_part F_pkt_mark ODP_SET_SKB_MARK)|apply G]. }
  apply (commit_parts_comp (λ fl d, commit_mpls_action fl (commit_set_port_action fl
    (commit_set_nw_action fl (commit_vlan_action fl (commit_set_ether_addr_action fl d)))))).
  2: { apply commit_parts_one; [by apply (commit_one_part F_skb_priority ODP_SET_PRIORITY)|apply G]. }
  apply (commit_parts_comp (λ fl d, commit_set_port_action fl
    (commit_set_nw_action fl (commit_vlan_action fl (commit_set_ether_addr_action fl d))))).
  2: { apply commit_parts_one; [apply commit_mpls_part|apply G]. }
  apply (commit_parts_comp (λ fl d, commit_set_nw_action fl (commit_vlan_action fl (commit_set_ether_addr_action fl d)))).
  2: { apply commit_parts_one; [apply commit_port_part|apply G]. }
  apply (commit_parts_comp (λ fl d, commit_vlan_action fl (commit_set_ether_addr_action fl d))).
  2: { apply commit_parts_one; [apply commit_nw_part|apply G]. }
  apply commit_parts_comp; apply commit_parts_one; first [apply commit_ether_part | apply commit_vlan_part | apply G].
Qed.

End rel.
