(* ===== verification/Megaflow.v ===== *)
(** * Two runs of the translator under one megaflow

    [sim] relates the contexts of two translations whose flows a megaflow does
    not tell apart: they differ in the flow and the base flow only, and those
    are related as in [MegaflowRel].  [sims] says that a step run from related
    contexts gives related contexts and results, provided that the wildcards
    of the first run stay within those of the megaflow.  The section has one
    rule for each construct and one lemma for each function of the
    translator. *)
From stdpp Require Import gmap.
From S2P Require Import Prelude Util ByteOrder Bitwise Hash Hmap Bitmap MatchFields MetaFlow OdpActions NxActions.
From S2P Require Import TableCounters Learn Tunnel MacLearning Stp XlateConfig XlateCtx Xlate XlateThms.
From S2P Require Import XlateTop XlateGrows MegaflowRel.

Create HintDb sims.

Section sims.
Context {Sv : xlate_services} {Svok : xlate_services_ok Sv} {Svs : xlate_services_sound Sv} {E : xlate_env}.
Context (W o1 o2 : flowf) (M : megaflow W o1 o2).

Notation full := (full W).
Notation covers := (covers W).
Notation frel := (frel W o1 o2).
Notation brel := (brel W o1 o2).

(** sFlow samples nothing, and the priority to restore is in range. *)
Definition ctx_ok (c : xlate_ctx) : Prop := cx_user_cookie_offset c = false ∧ is_u32 (cx_orig_skb_priority c).

Definition sim (w : bool) (c1 c2 : xlate_ctx) : Prop :=
  ∃ x b, c2 = set_flow x (set_base_flow b c1) ∧ frel w (cx_flow c1) x ∧ brel (cx_base_flow c1) b
         ∧ flow_ok (cx_wc c1) ∧ ctx_ok c1.

Definition sims {A} (w w' : bool) (R : A → A → Prop) (m1 m2 : xlate A) : Prop :=
  ∀ c1 c2 a1 d1, sim w c1 c2 → m1 c1 = Ok (a1, d1) → wc_le (cx_wc d1) W →
  ∃ a2 d2, m2 c2 = Ok (a2, d2) ∧ sim w' d1 d2 ∧ R a1 a2.

(** Both runs take the same step. *)
Notation same w m := (sims w w eq m m).

(** ** Rules *)

Lemma sims_ret {A} w (R : A → A → Prop) a1 a2 : R a1 a2 → sims w w R (mret a1) (mret a2).
Proof. intros H c1 c2 a d Hs [= <- <-] _. by exists a2, c2. Qed.

Lemma sims_abort {A} w w' R (m : xlate A) : sims w w' R abort m.
Proof. done. Qed.

Lemma sims_bind_returns {A B} w w' w'' Q R S (m1 m2 : xlate A) (k1 k2 : A → xlate B) :
  sims w w' R m1 m2 → grows m1 → returns Q m1 → (∀ a, Q a → grows (k1 a)) →
  (∀ a1 a2, Q a1 → R a1 a2 → sims w' w'' S (k1 a1) (k2 a2)) → sims w w'' S (a ← m1; k1 a) (a ← m2; k2 a).
Proof.
  intros Hm Gm HQ Gk Hk c1 c2 b d Hs (a & c' & H1 & H2)%bind_ok Hw.
  assert (Hok : flow_ok (cx_wc c1)) by (by destruct Hs as (? & ? & ? & ? & ? & ? & ?)).
  destruct (Gm _ _ _ H1 Hok) as [Hok' _]. pose proof (HQ _ _ _ H1) as Ha.
  destruct (Gk a Ha _ _ _ H2 Hok') as [_ Hle].
  destruct (Hm c1 c2 a c' Hs H1) as (a2 & c2' & E2 & Hs' & Hr); [by etrans|].
  destruct (Hk a a2 Ha Hr c' c2' b d Hs' H2 Hw) as (b2 & d2 & E3 & Hs'' & Hr'). exists b2, d2. split; [|done].
  unfold mbind, xlate_bind. by rewrite E2.
Qed.

Lemma sims_bind {A B} w w' w'' R S (m1 m2 : xlate A) (k1 k2 : A → xlate B) :
  sims w w' R m1 m2 → grows m1 → (∀ a, grows (k1 a)) → (∀ a1 a2, R a1 a2 → sims w' w'' S (k1 a1) (k2 a2)) →
  sims w w'' S (a ← m1; k1 a) (a ← m2; k2 a).
Proof. intros. eapply (sims_bind_returns _ _ _ (λ _, True)); eauto. done. Qed.

Lemma sims_bind_eq {A B} w w' w'' S (m1 m2 : xlate A) (k1 k2 : A → xlate B) :
  sims w w' eq m1 m2 → grows m1 → (∀ a, grows (k1 a)) → (∀ a, sims w' w'' S (k1 a) (k2 a)) →
  sims w w'' S (a ← m1; k1 a) (a ← m2; k2 a).
Proof. intros. eapply sims_bind; eauto. intros a1 a2 ->. auto. Qed.

(** Reading the context. *)
Lemma sims_gets {A B} w w' R S (f g : xlate_ctx → A) (k1 k2 : A → xlate B) :
  (∀ c1 c2, sim w c1 c2 → R (f c1) (g c2)) → (∀ a1 a2, R a1 a2 → sims w w' S (k1 a1) (k2 a2)) →
  sims w w' S (a ← gets f; k1 a) (a ← gets g; k2 a).
Proof. intros Hf Hk c1 c2 b d Hs H Hw. by apply (Hk (f c1) (g c2) (Hf _ _ Hs) c1 c2 b d). Qed.

Lemma sims_get {A B} w w' S (f : xlate_ctx → A) (k1 k2 : A → xlate B) :
  (∀ c x b, f (set_flow x (set_base_flow b c)) = f c) → (∀ a, sims w w' S (k1 a) (k2 a)) →
  sims w w' S (a ← gets f; k1 a) (a ← gets f; k2 a).
Proof.
  intros Hf Hk. apply (sims_gets w w' eq); [|by intros a ? <-]. intros c1 c2 (x & b & -> & _). by rewrite Hf.
Qed.

Lemma sims_flow {B} w w' S (k1 k2 : flowf → xlate B) :
  (∀ x1 x2, frel w x1 x2 → sims w w' S (k1 x1) (k2 x2)) →
  sims w w' S (fl ← gets cx_flow; k1 fl) (fl ← gets cx_flow; k2 fl).
Proof. intros Hk. apply (sims_gets w w' (frel w)); [|done]. intros c1 c2 (x & b & -> & Hx & _). done. Qed.

Lemma sims_lift {A} w (o : option A) : same w (lift o).
Proof. destruct o; [by apply sims_ret|done]. Qed.

Lemma sims_lift_bind {A B} w w' S (o : option A) (k1 k2 : A → xlate B) :
  (∀ a, o = Some a → sims w w' S (k1 a) (k2 a)) → sims w w' S (a ← lift o; k1 a) (a ← lift o; k2 a).
Proof. intros H. destruct o as [a|]; [|done]. by apply (H a). Qed.

Lemma sims_bridge_bind {B} w w' S (k1 k2 : xbridge → xlate B) :
  (∀ o b, xc_bridges e_cfg !! o = Some b → sims w w' S (k1 b) (k2 b)) →
  sims w w' S (b ← the_bridge; k1 b) (b ← the_bridge; k2 b).
Proof.
  intros H c1 c2 a d Hs (b & c1' & [-> Hb]%the_bridge_ok & Hk)%bind_ok Hw.
  destruct (H _ b Hb c1 c2 a d Hs Hk Hw) as (a2 & d2 & E2 & Hr). exists a2, d2. split; [|done].
  destruct Hs as (x & y & -> & _). unfold the_bridge, bridge_at, mbind, xlate_bind, gets, lift in *. simpl. by rewrite Hb.
Qed.

Lemma sims_assert w b1 b2 : b1 = b2 → sims w w eq (ovs_assert b1) (ovs_assert b2).
Proof. intros ->. destruct b2; [by apply sims_ret|done]. Qed.

Lemma sims_when w b1 b2 m1 m2 : b1 = b2 → sims w w eq m1 m2 → sims w w eq (when b1 m1) (when b2 m2).
Proof. intros ->. destruct b2; [done|]. intros _. by apply sims_ret. Qed.

Lemma sims_for_each {A} w (f1 f2 : A → xlate unit) l :
  (∀ a, sims w w eq (f1 a) (f2 a)) → (∀ a, grows (f1 a)) → sims w w eq (for_each f1 l) (for_each f2 l).
Proof.
  intros Hf Gf. induction l as [|a l IH]; [by apply sims_ret|]. simpl.
  apply (sims_bind_eq w w); [done|done|intros; by apply grows_for_each|done].
Qed.

(** Changing the context. *)
Lemma sims_modify w f :
  (∀ c x b, f (set_flow x (set_base_flow b c)) = set_flow x (set_base_flow b (f c))) →
  (∀ c, cx_flow (f c) = cx_flow c) → (∀ c, cx_base_flow (f c) = cx_base_flow c) → (∀ c, cx_wc (f c) = cx_wc c) →
  (∀ c, ctx_ok c → ctx_ok (f c)) → same w (modify f).
Proof.
  intros H Hx Hb Hwc Hu c1 c2 [] d (x & b & -> & Hfx & Hbb & Hw & Hc) [= <-] _. eexists _, _. split; [done|]. split; [|done].
  exists x, b. rewrite H, Hx, Hb, Hwc. split_and!; auto; by apply Hu.
Qed.

Lemma sims_mod_flow w w' f1 f2 :
  (∀ x1 x2, frel w x1 x2 → frel w' (f1 x1) (f2 x2)) → sims w w' eq (mod_flow f1) (mod_flow f2).
Proof.
  intros H c1 c2 [] d (x & b & -> & Hfx & Hbb & Hw & Hc) [= <-] _. eexists _, _. split; [done|]. split; [|done].
  exists (f2 x), b. simpl. auto.
Qed.

Lemma sims_mod_svc w f : same w (mod_svc f).
Proof. apply sims_modify; done. Qed.

Lemma sims_put_odp w l : same w (put_odp l).
Proof. apply sims_modify; done. Qed.

(** Adding to the wildcards; what follows may rely on them. *)
Lemma sims_mod_wc {B} w w' S g (P : Prop) (k1 k2 : unit → xlate B) :
  (∀ wc, wc_grows wc (g wc)) → (∀ wc, flow_ok wc → wc_le (g wc) W → P) → grows (k1 tt) → (P → sims w w' S (k1 tt) (k2 tt)) →
  sims w w' S (u ← mod_wc g; k1 u) (u ← mod_wc g; k2 u).
Proof.
  intros Hg HP Gk Hk c1 c2 b d (x & y & -> & Hfx & Hbb & Hw & Hc) H Hle.
  destruct (Hg (cx_wc c1) Hw) as [Hok _]. destruct (Gk _ _ _ H) as [_ Hgr]; [done|]. simpl in Hgr.
  assert (P) as HP' by (apply (HP (cx_wc c1)); [done|by etrans]).
  apply (Hk HP' (set_wc (g (cx_wc c1)) c1) (set_flow x (set_base_flow y (set_wc (g (cx_wc c1)) c1))) b d); [|done|done].
  by eexists _, _.
Qed.

Lemma sims_unwildcard {B} w w' S fs (k1 k2 : unit → xlate B) :
  grows (k1 tt) → ((∀ f, f ∈ fs → full f) → sims w w' S (k1 tt) (k2 tt)) →
  sims w w' S (u ← mod_wc (unwildcard fs); k1 u) (u ← mod_wc (unwildcard fs); k2 u).
Proof.
  intros Gk. apply sims_mod_wc; [apply unwildcard_wc_grows| |done].
  intros wc _ Hle f. by apply (unwildcard_full W o1 o2 M fs wc).
Qed.

Lemma sims_wc_or {B} w w' S f v (k1 k2 : unit → xlate B) :
  in_width (field_width f) v → grows (k1 tt) → (covers f v → sims w w' S (k1 tt) (k2 tt)) →
  sims w w' S (u ← mod_wc (wc_or f v); k1 u) (u ← mod_wc (wc_or f v); k2 u).
Proof.
  intros Hv Gk. apply sims_mod_wc; [intros wc; by apply wc_or_grows| |done]. intros wc _. apply wc_or_covers.
Qed.

(** A decision that adds what it depends on to the wildcards. *)
Lemma sims_decide w f :
  (∀ x1 x2 wc, frel w x1 x2 → flow_ok wc → wc_le (f x1 wc).2 W → f x1 wc = f x2 wc) →
  (∀ fl wc, wc_grows wc (f fl wc).2) → same w (decide_wc f).
Proof.
  intros H Hg c1 c2 a d (x & b & -> & Hx & Hb & Hw & Hc) [= <- <-] Hle. eexists _, _. split; [done|]. simpl in *.
  rewrite <- (H _ x _ Hx Hw Hle). split; [|done]. exists x, b. split_and!; try done. by apply Hg.
Qed.

Lemma sims_commit w : same w (commit_with commit_odp_actions).
Proof.
  intros c1 c2 [] d (x & b & -> & Hx & Hb & Hw & Hc) [= <-] Hle. eexists _, _. split; [done|]. split; [|done].
  destruct (commit_odp_parts W o1 o2 M w (cx_flow c1) x Hx) as [G H].
  destruct (H (Commit (cx_base_flow c1) (cx_odp_actions c1) (cx_wc c1)) (Commit b (cx_odp_actions c1) (cx_wc c1)))
    as (Ha & Hwc & Hbb); [done|done|done|].
  destruct (G (cx_flow c1) (Commit (cx_base_flow c1) (cx_odp_actions c1) (cx_wc c1))) as [_ Hg].
  exists x. eexists. simpl. rewrite Ha, Hwc. split; [reflexivity|]. split_and!; [done|exact Hbb| |done]. rewrite <- Hwc. by apply Hg.
Qed.

(** The part of a run in which the tag may be removed. *)
Lemma sims_strict {A} w R (m1 m2 : xlate A) : full F_vlan_tci → sims false false R m1 m2 → sims w w R m1 m2.
Proof.
  intros Hv H c1 c2 a d (x & b & -> & Hx & Hb & Hw & Hc) Hm Hle.
  destruct (H c1 (set_flow x (set_base_flow b c1)) a d) as (a2 & d2 & E2 & (x' & b' & -> & Hx' & Hb') & Hr); [|done|done|].
  - exists x, b. split_and!; try done. by apply (frel_strict W o1 o2 M w).
  - eexists _, _. split; [done|]. split; [|done]. exists x', b'. split; [done|]. split; [by apply frel_weaken|done].
Qed.

(** ** Steps without table lookups *)

(** A switch without the features whose translation reads more of the packet
    than it adds to the wildcards: packets are not at hand, there are no
    mirrors, sFlow, VLAN splinters, tunnels, DSCP maps or priority tags.  The
    last three say that numbers have the width of their types. *)
Record plain_switch : Prop := {
  ps_packet : xi_packet e_in = None;
  ps_mirrors mb : sv_has_mirrors mb = false;
  ps_splinters o p tci : sv_vsp_realdev_to_vlandev o p tci = p;
  ps_sflow o b : xc_bridges e_cfg !! o = Some b → bc_sflow (xb_cfg b) = None;
  ps_tunnel a p : xc_ports e_cfg !! a = Some p → pc_is_tunnel (xp_cfg p) = false;
  ps_dscp a p q : xc_ports e_cfg !! a = Some p → get_skb_priority p q = None;
  ps_tags a u : xc_bundles e_cfg !! a = Some u → uc_use_priority_tags (xu_cfg u) = false;
  ps_vlan a u : xc_bundles e_cfg !! a = Some u → uc_vlan_mode (xu_cfg u) ≠ PORT_VLAN_TRUNK → in_width 12 (uc_vlan (xu_cfg u));
  ps_port a p : xc_ports e_cfg !! a = Some p → is_u16 (xp_ofp_port p);
  ps_queue d q p : sv_queue_to_priority d q = Some p → is_u32 p
}.
Context (Hps : plain_switch).

Ltac listed := solve [repeat first [apply list_elem_of_here | apply list_elem_of_further]].

(** Replaces what the first run reads by what the second reads. *)
Ltac feq :=
  repeat match goal with
  | Hx : MegaflowRel.frel _ _ _ ?w ?x1 ?x2 |- context [?x1 ?f] =>
      rewrite (frel_full W o1 o2 w x1 x2 f Hx)
        by (first [assumption | apply M | match goal with H : ∀ f, f ∈ _ → _ |- _ => apply H; listed end])
  end.

Ltac sims_step :=
  lazymatch goal with
  | |- sims _ _ _ (mret _) _ => by apply sims_ret
  | |- sims _ _ _ (_ ← gets cx_flow; _) _ => apply sims_flow; intros ? ? ?; feq
  | |- sims _ _ _ (_ ← gets _; _) _ => apply sims_get; [done|intros ?]
  | |- sims _ _ _ (_ ← mod_wc (unwildcard _); _) _ => apply sims_unwildcard; [solve [grows]|intros ?; feq]
  | |- sims _ _ _ (_ ← mod_wc (wc_or _ _); _) _ => apply sims_wc_or; [done|solve [grows]|intros ?]
  | |- sims _ _ _ (_ ← the_bridge; _) _ => apply sims_bridge_bind; intros ? ? ?
  | |- sims _ _ _ (_ ← port_at _; _) _ => apply sims_lift_bind; intros ? ?
  | |- sims _ _ _ (_ ← bundle_at _; _) _ => apply sims_lift_bind; intros ? ?
  | |- sims _ _ _ (_ ← lift _; _) _ => apply sims_lift_bind; intros ? ?
  | |- sims _ _ _ (_ ← _; _) _ => eapply sims_bind_eq; [|solve [grows]|solve [grows]|intros ?]
  | |- sims _ _ _ (lift _) _ => apply sims_lift
  | |- sims _ _ _ abort _ => apply sims_abort
  | |- sims _ _ _ (ovs_assert _) _ => by apply sims_assert
  | |- sims _ _ _ (when _ _) _ => apply sims_when; [done|]
  | |- sims _ _ _ (for_each _ _) _ => apply sims_for_each; [intros ?|solve [grows]]
  | |- sims _ _ _ (mod_svc _) _ => apply sims_mod_svc
  | |- sims _ _ _ (put_odp _) _ => apply sims_put_odp
  | |- sims _ _ _ (commit_with commit_odp_actions) _ => apply sims_commit
  | |- sims _ _ _ (modify _) _ => apply sims_modify; done
  | |- sims _ _ _ (match _ with _ => _ end) _ => case_match
  | |- _ => first [assumption | solve [eauto with sims]]
  end.

Ltac sims := repeat sims_step.

Lemma sims_port_at w a : same w (port_at a).
Proof. apply sims_lift. Qed.
Lemma sims_bridge_at w a : same w (bridge_at a).
Proof. apply sims_lift. Qed.
Lemma sims_bundle_at w a : same w (bundle_at a).
Proof. apply sims_lift. Qed.
Lemma sims_the_bridge w : same w the_bridge.
Proof. unfold the_bridge, bridge_at. sims. Qed.
Hint Resolve sims_port_at sims_bridge_at sims_bundle_at sims_the_bridge : sims.
Lemma sims_get_stp_port w p : same w (xport_get_stp_port p).
Proof. unfold xport_get_stp_port. sims. Qed.
Hint Resolve sims_get_stp_port : sims.
Lemma sims_stp_state w p : same w (xport_stp_state p).
Proof. unfold xport_stp_state. sims. Qed.
Hint Resolve sims_stp_state : sims.
Lemma sims_stp_forward w p : same w (xport_stp_forward_state p).
Proof. unfold xport_stp_forward_state. sims. Qed.
Lemma sims_stp_learn w p : same w (xport_stp_learn_state p).
Proof. unfold xport_stp_learn_state. sims. Qed.
Hint Resolve sims_stp_forward sims_stp_learn : sims.

Lemma is_stp_addr v : in_width 48 v → eth_addr_equals (mac_bytes v) eth_addr_stp = (v =? 0x0180c2000000).
Proof.
  intros Hv. unfold eth_addr_equals, mac_bytes. apply Bool.eq_iff_eq_true. rewrite bool_decide_eq_true, Z.eqb_eq. split.
  - intros H. apply (f_equal get_be) in H. by rewrite (get_be_id 6 48) in H.
  - by intros ->.
Qed.

Lemma sims_may_receive w p : same w (may_receive p).
Proof.
  unfold may_receive. apply sims_flow. intros x1 x2 Hx. destruct (frel_ok _ _ _ _ _ _ Hx) as [H1 H2].
  rewrite !is_stp_addr by (apply H1 || apply H2).
  rewrite (frel_test W o1 o2 M w x1 x2 F_dl_dst 0x0180c2000000 Hx) by (done || (unfold unmasked_tests; set_solver)). sims.
Qed.
Lemma sims_lookup_input_bundle w b i : same w (lookup_input_bundle b i).
Proof. unfold lookup_input_bundle. sims. Qed.
Lemma sims_bundle_cfg w b : same w (bundle_cfg b).
Proof. unfold bundle_cfg. sims. Qed.
Hint Resolve sims_may_receive sims_lookup_input_bundle sims_bundle_cfg : sims.

(** What a decision unwildcards is equal in both runs. *)
Ltac decided Hle :=
  repeat match goal with
  | Hx : MegaflowRel.frel _ _ _ ?w ?x1 ?x2 |- context [?x1 ?f] =>
      rewrite (frel_full W o1 o2 w x1 x2 f Hx)
        by (first [apply M | eapply (unwildcard_full W o1 o2 M); [exact Hle|listed]])
  end.

Lemma sims_decide_stp w : same w (decide_wc stp_should_process_flow).
Proof.
  apply sims_decide; [|intros; apply unwildcard_wc_grows]. intros x1 x2 wc Hx _ Hle. unfold stp_should_process_flow in *.
  cbn [snd] in Hle. by decided Hle.
Qed.

Lemma wc_le_trans_W (a b : flowf) : wc_grows a b → flow_ok a → wc_le b W → wc_le a W.
Proof. intros H Ha Hb. destruct (H Ha) as [_ Hab]. by etrans. Qed.

Lemma sims_decide_cfm w k ad : same w (decide_wc (cfm_should_process_flow k ad)).
Proof.
  apply sims_decide; [|intros; apply (W_cfm wc_grows sf_maskable)]. intros x1 x2 wc Hx Hok. unfold cfm_should_process_flow. cbn [snd].
  intros Hle. rewrite (frel_meta W o1 o2 w x1 x2 F_tun_id Hx) by done.
  assert (Hd : wc_le (unwildcard [F_dl_dst] wc) W).
  { eapply wc_le_trans_W; [|by apply unwildcard_ok|exact Hle]. destruct k; [apply unwildcard_wc_grows|done]. }
  by decided Hd.
Qed.

Lemma sims_decide_bfd w d k : same w (decide_wc (bfd_should_process_flow d k)).
Proof.
  apply sims_decide; [|intros; apply (W_bfd wc_grows sf_maskable)]. intros x1 x2 wc Hx Hok Hle.
  assert (Hd : wc_le (unwildcard [F_dl_dst] wc) W).
  { eapply wc_le_trans_W; [|by apply unwildcard_ok|exact Hle]. unfold bfd_should_process_flow.
    destruct (match d with Some _ => _ | None => _ end); cbn [snd]; [done|]. destruct k; wc_grows. }
  revert Hle. unfold bfd_should_process_flow. rewrite (frel_meta W o1 o2 w x1 x2 F_tun_id Hx) by done. decided Hd.
  destruct (match d with Some _ => _ | None => _ end); [done|]. cbn [snd]. intros Hle.
  assert (Hp : wc_le (unwildcard [F_nw_proto; F_tp_dst] (unwildcard [F_dl_dst] wc)) W).
  { eapply wc_le_trans_W; [|by apply unwildcard_ok, unwildcard_ok|exact Hle]. destruct k; wc_grows. }
  by decided Hp.
Qed.

Hint Resolve sims_decide_stp sims_decide_cfm sims_decide_bfd : sims.

Lemma sims_hand_over w f1 f2 r : sims w w eq (hand_over f1 r) (hand_over f2 r).
Proof. unfold hand_over. rewrite (ps_packet Hps). sims. Qed.
Hint Resolve sims_hand_over : sims.

Lemma sims_process_stp w b p : same w (process_stp b p).
Proof. unfold process_stp. sims. Qed.
Hint Resolve sims_process_stp : sims.
Lemma sims_process_lacp w b a p : same w (process_lacp b a p).
Proof. unfold process_lacp. sims. Qed.
Hint Resolve sims_process_lacp : sims.
Lemma sims_process_bfd w b a p : same w (process_bfd b a p).
Proof. unfold process_bfd. sims. Qed.
Hint Resolve sims_process_bfd : sims.
Lemma sims_process_special w a : same w (process_special a).
Proof. unfold process_special. sims. Qed.
Hint Resolve sims_process_special : sims.

(** ** Sampling and controllers *)

Lemma sims_compose_sample w p k : same w (compose_sample_action p k).
Proof. unfold compose_sample_action. sims. Qed.
Hint Resolve sims_compose_sample : sims.
Lemma sims_compose_ipfix w : same w compose_ipfix_action.
Proof. unfold compose_ipfix_action. sims. Qed.
Lemma sims_controller w len reason id : same w (execute_controller_action len reason id).
Proof. unfold execute_controller_action. rewrite (ps_packet Hps). sims. Qed.
Hint Resolve sims_compose_ipfix sims_controller : sims.

(** ** MPLS and time to live *)

Lemma sims_ext {A} w w' R (m1 m2 m1' m2' : xlate A) :
  (∀ c, m1 c = m1' c) → (∀ c, m2 c = m2' c) → sims w w' R m1' m2' → sims w w' R m1 m2.
Proof. intros H1 H2 H c1 c2 a d Hs. rewrite H1, H2. by apply H. Qed.

Lemma upd_same w x1 x2 f v :
  is_packet_field f = true → fixed W f → in_width (field_width f) v → frel w x1 x2 → frel w (upd f v x1) (upd f v x2).
Proof. intros Hp Hf Hv Hx. apply (frel_upd W o1 o2 w); [done|by apply (fr_same W o1 o2 M)|auto]. Qed.

Lemma upd_meta w x1 x2 f v :
  is_packet_field f = false → in_width (field_width f) v → frel w x1 x2 → frel w (upd f v x1) (upd f v x2).
Proof. intros Hp Hv Hx. apply (frel_upd W o1 o2 w); [done|by apply fr_meta|auto]. Qed.

Lemma upd_bits w x1 x2 f m v :
  kind f = K_bits → covers f m → covers f v → in_width (field_width f) v → frel false x1 x2 →
  frel w (upd f (Z.lor (Z.ldiff (x1 f) m) v) x1) (upd f (Z.lor (Z.ldiff (x2 f) m) v) x2).
Proof. intros Hk Hm Hv Hw Hx. eapply frel_upd; [exact Hx|by apply fr_bits|done]. Qed.

(** A field that is in the wildcards, named in the context or always. *)
Ltac fixed :=
  apply full_fixed; [first [assumption | apply M | match goal with H : ∀ f, f ∈ _ → _ |- _ => apply H; listed end]|done..].

Lemma mpls_lse_width ttl tc bos label : is_u32 (set_mpls_lse_values ttl tc bos label).
Proof.
  assert (Hs : ∀ m v x, is_u32 m → is_u32 x → is_u32 (Z.lor (and_not x m) (Z.land v m))).
  { intros m v x Hm Hx. apply lor_in_width; [done|by apply ldiff_in_width|]. rewrite Z.land_comm. by apply land_in_width. }
  unfold set_mpls_lse_values, set_mpls_lse_label, set_mpls_lse_bos, set_mpls_lse_tc, set_mpls_lse_ttl.
  repeat (apply Hs; [done|]). done.
Qed.

Lemma frel_width w x1 x2 f : frel w x1 x2 → in_width (field_width f) (x2 f).
Proof. intros Hx. apply Hx. Qed.

Lemma sims_mpls_push t : is_u16 t → same false (compose_mpls_push_action t).
Proof.
  intros Ht. unfold compose_mpls_push_action. apply (sims_bind_eq false false); [by apply sims_assert|grows|grows|intros _].
  apply sims_unwildcard; [grows|intros Hf]. apply sims_flow. intros x1 x2 Hx. feq.
  eapply sims_bind_eq; [|grows|grows|intros _].
  2: { apply sims_mod_flow. intros y1 y2 Hy. apply upd_same; [done|fixed|done|done]. }
  destruct (negb _).
  - apply sims_mod_flow. intros y1 y2 Hy. feq. apply upd_same; [done|fixed|by apply wrap_in_width|].
    apply upd_same; [done|fixed| |done]. apply ldiff_in_width; [done|]. by apply (frel_width _ _ _ F_mpls_lse Hy).
  - apply sims_wc_or; [done|grows|intros Hc]. apply sims_unwildcard; [grows|intros Hf']. feq.
    rewrite (frel_covers W o1 o2 false x1 x2 F_nw_tos IP_DSCP_MASK Hx) by done.
    apply sims_mod_flow. intros y1 y2 Hy. apply upd_same; [done|fixed|done|].
    apply upd_same; [done|fixed|apply mpls_lse_width|done].
Qed.

Definition pop_label (t : Z) (fl : flowf) : flowf :=
  if fl F_mpls_depth =? 0 then fl
  else
    let fl := upd F_mpls_lse 0 (upd F_mpls_depth (fl F_mpls_depth - 1) fl) in
    if fl F_mpls_depth =? 0 then upd F_dl_type t fl else fl.

Lemma mpls_pop_pops t c :
  compose_mpls_pop_action t c
  = (fl ← gets cx_flow; _ ← ovs_assert (eth_type_mpls (fl F_dl_type)); _ ← ovs_assert (negb (eth_type_mpls t));
     _ ← mod_wc (unwildcard [F_mpls_lse; F_mpls_depth]); mod_flow (pop_label t)) c.
Proof.
  unfold compose_mpls_pop_action, mbind, xlate_bind, gets, pop_label. destruct (eth_type_mpls (cx_flow c F_dl_type)); [|done].
  simpl. destruct (eth_type_mpls t); [done|]. simpl. destruct (Z.eqb_spec (cx_flow c F_mpls_depth) 0) as [E0|E0]; simpl;
    unfold mod_flow, modify; simpl; by rewrite ?(proj2 (Z.eqb_eq _ _) E0), ?(proj2 (Z.eqb_neq _ _) E0).
Qed.

Lemma sims_mpls_pop t : is_u16 t → same false (compose_mpls_pop_action t).
Proof.
  intros Ht. eapply sims_ext; [apply mpls_pop_pops..|]. apply sims_flow. intros x1 x2 Hx. feq.
  do 2 (eapply sims_bind_eq; [by apply sims_assert|grows|grows|intros _]).
  apply sims_unwildcard; [grows|intros Hf]. apply sims_mod_flow. intros y1 y2 Hy. unfold pop_label. cbv zeta.
  rewrite !(upd_ne F_mpls_lse F_mpls_depth), !upd_eq by done. feq.
  destruct (Z.eqb_spec (y2 F_mpls_depth) 0) as [|Hn]; [done|]. pose proof (frel_width _ _ _ F_mpls_depth Hy) as [? ?].
  assert (H' : frel false (upd F_mpls_lse 0 (upd F_mpls_depth (y2 F_mpls_depth - 1) y1))
                 (upd F_mpls_lse 0 (upd F_mpls_depth (y2 F_mpls_depth - 1) y2))).
  { apply upd_same; [done|fixed|done|]. apply upd_same; [done|fixed| |done]. unfold in_width. lia. }
  destruct (_ =? 0); [|done]. apply upd_same; [done|fixed|done|done].
Qed.

Lemma sims_dec_ttl ids : same false (compose_dec_ttl ids).
Proof.
  unfold compose_dec_ttl. apply sims_flow. intros x1 x2 Hx. unfold is_ip_any. feq. destruct (negb _); [sims|].
  apply sims_unwildcard; [grows|intros Hf]. feq. destruct (Z.ltb_spec 1 (x2 F_nw_ttl)); [|sims].
  eapply sims_bind_eq; [|grows|grows|intros _; sims]. apply sims_mod_flow. intros y1 y2 Hy.
  apply upd_same; [done|fixed| |done]. pose proof (frel_width _ _ _ F_nw_ttl Hx) as [? ?]. unfold in_width. lia.
Qed.

Lemma sims_set_ttl w x1 x2 ttl :
  frel false x1 x2 → covers F_mpls_lse MPLS_TTL_MASK → frel w (flow_set_mpls_ttl x1 ttl) (flow_set_mpls_ttl x2 ttl).
Proof.
  intros Hx Hc. apply upd_bits; [done|done| | |done].
  - unfold MegaflowRel.covers in *. rewrite <- Hc. bits.
  - rewrite Z.land_comm. by apply land_in_width.
Qed.

Lemma sims_set_mpls_ttl ttl : same false (compose_set_mpls_ttl_action ttl).
Proof.
  unfold compose_set_mpls_ttl_action. apply sims_flow. intros x1 x2 Hx. feq. destruct (negb _); [sims|].
  apply sims_wc_or; [done|grows|intros Hc]. eapply sims_bind_eq; [|grows|grows|intros _; sims].
  apply sims_mod_flow. intros y1 y2 Hy. by apply sims_set_ttl.
Qed.

Lemma full_covers f v : full f → in_width (field_width f) v → covers f v.
Proof.
  intros Hf Hv. unfold MegaflowRel.covers. rewrite Hf. pose proof (field_width_pos f). apply land_all_ones; [done|lia].
Qed.

Lemma sims_dec_mpls_ttl : same false compose_dec_mpls_ttl_action.
Proof.
  unfold compose_dec_mpls_ttl_action. apply sims_flow. intros x1 x2 Hx. cbv zeta.
  apply sims_unwildcard; [grows|intros Hf]. feq. destruct (negb _); [sims|]. destruct (1 <? _); [|sims].
  eapply sims_bind_eq; [|grows|grows|intros _; sims]. apply sims_mod_flow. intros y1 y2 Hy. apply sims_set_ttl; [done|].
  apply full_covers; [apply Hf; listed|done].
Qed.

(** ** Learning and other actions *)

Lemma sims_learn_begin w specs : Forall (spec_src_ok sf_maskable) specs → same w (learn_begin specs).
Proof.
  intros H. unfold learn_begin. eapply sims_bind_eq; [by apply sims_modify|grows|intros _; by apply grows_learn_mask|intros _].
  intros c1 c2 [] d (x & b & -> & Hx & Hb & Hw & Hc). unfold lift, mod_wc, modify, mbind, xlate_bind, gets.
  cbn [cx_wc set_flow set_base_flow]. destruct (learn_mask specs (cx_wc c1)) as [wc|] eqn:Em; [|done].
  intros [= <-] _. eexists _, _. split; [done|]. split; [|done]. exists x, b. split_and!; try done. simpl.
  by apply (W_learn_mask wc_grows sf_maskable _ _ _ H Em).
Qed.
Hint Resolve sims_learn_begin : sims.
Lemma sims_increment w spec : same w (xlate_increment_table_id_action spec).
Proof. unfold xlate_increment_table_id_action. sims. Qed.
Lemma sims_fin_timeout w i h : same w (xlate_fin_timeout i h).
Proof. unfold xlate_fin_timeout. sims. Qed.
Lemma sims_sample w p k d o : same w (xlate_sample_action p k d o).
Proof. unfold xlate_sample_action. sims. Qed.
Lemma sims_set_queue w q : same w (xlate_set_queue_action q).
Proof.
  unfold xlate_set_queue_action. sims. apply sims_mod_flow. intros x1 x2 Hx.
  apply upd_same; [done|fixed|by eapply ps_queue|done].
Qed.
Hint Resolve sims_mpls_push sims_mpls_pop sims_dec_ttl sims_set_mpls_ttl sims_dec_mpls_ttl sims_increment sims_fin_timeout sims_sample sims_set_queue : sims.

(** ** Output *)

(** An output normally restores the tag it removes.  Only a patch port lets
    other actions see the packet without it. *)
Context (Hvlan : full F_vlan_tci ∨ ∀ a p, xc_ports e_cfg !! a = Some p → xp_peer p = None).

Section actions.
Context (table_action : Z → Z → bool → xlate unit).
Context (Gta : ∀ i t m, grows (table_action i t m)) (Hta : ∀ i t m, is_u16 i → same false (table_action i t m)).
Hint Resolve Gta : grows.

Lemma set_fields_rel w l x1 x2 :
  Forall (λ p, in_width (field_width p.1) p.2 ∧ (is_packet_field p.1 = false ∨ is_packet_field p.1 = true ∧ fixed W p.1)) l →
  frel w x1 x2 → frel w (set_fields l x1) (set_fields l x2).
Proof.
  unfold set_fields. intros H. revert x1 x2. induction H as [|[f v] l [Hw Hf] _ IH]; intros x1 x2 Hx; [done|]. simpl.
  apply IH. destruct Hf as [?|[? ?]]; [by apply upd_meta|by apply upd_same].
Qed.

Lemma restore_fields_rel w fs x1 x2 y1 y2 :
  frel w x1 x2 → frel w y1 y2 →
  frel w (set_fields ((λ f, (f, x1 f)) <$> fs) y1) (set_fields ((λ f, (f, x2 f)) <$> fs) y2).
Proof.
  intros Hx. unfold set_fields. revert y1 y2. induction fs as [|f fs IH]; intros y1 y2 Hy; [done|]. simpl.
  apply IH. eapply frel_upd; [done|apply Hx|auto].
Qed.

Lemma peer_fields_rel x1 x2 i :
  is_u16 i → frel false x1 x2 →
  let l := [(F_in_port, i); (F_metadata, 0)] ++ ((λ f, (f, 0)) <$> tunnel_fields)
           ++ ((λ i, (F_reg i, 0)) <$> seq 0 FLOW_N_REGS) in
  frel false (set_fields l x1) (set_fields l x2).
Proof.
  intros Hi Hx l. apply set_fields_rel; [|done]. subst l. rewrite !Forall_app, !Forall_fmap. split_and!.
  - apply Forall_cons_2; [split; [done|right; split; [done|fixed]]|].
    apply Forall_cons_2; [split; [done|by left]|apply Forall_nil_2].
  - repeat (apply Forall_cons_2; [split; [done|by left]|]). apply Forall_nil_2.
  - apply Forall_true. intros n. simpl. split; [done|]. left. unfold is_packet_field, kind. by destruct (_ && _).
Qed.

(** A step whose output is dropped. *)
Lemma sims_drop_output m :
  grows (m : xlate unit) → same false m →
  same false (old ← gets id; _ ← m;
    modify (λ c, set_mirrors (cx_mirrors old) (set_base_flow (cx_base_flow old)
      (set_odp_actions (take (length (cx_odp_actions old)) (cx_odp_actions c)) c)))).
Proof.
  intros Gm Hm c1 c2 [] d Hs (old & c & [= <- <-] & H)%bind_ok Hw. apply bind_ok in H as ([] & c1' & H1 & [= <-]). simpl in Hw.
  destruct (Hm c1 c2 tt c1' Hs H1 Hw) as ([] & c2' & E2 & Hs' & _).
  unfold mbind, xlate_bind, gets, modify. rewrite E2. eexists _, _. split; [done|]. split; [|done].
  destruct Hs as (x & b & -> & Hx & Hb & _), Hs' as (x' & b' & -> & Hx' & _ & Hw' & Hc'). exists x', b. by split_and!.
Qed.

Lemma sims_receive_from_peer peer q : is_u16 (xp_ofp_port q) → same false (receive_from_peer table_action peer q).
Proof.
  intros Hq. unfold receive_from_peer. eapply sims_bind_eq; [|grows|grows|intros _].
  { apply sims_mod_flow. intros x1 x2. by apply peer_fields_rel. }
  sims_step. { apply sims_process_special. } case_match; [sims|]. sims_step; [sims|]. sims_step. sims_step; [sims|].
  case_match; [by apply Hta|]. apply sims_drop_output; [grows|by apply Hta].
Qed.

Lemma sims_set_flow w w' x1 x2 b :
  frel w' x1 x2 →
  sims w w' eq (modify (λ c, set_xbridge b (set_flow x1 c))) (modify (λ c, set_xbridge b (set_flow x2 c))).
Proof.
  intros Hx c1 c2 [] d (x & y & -> & Hfx & Hbb & Hw & Hc) [= <-] _. eexists _, _. split; [done|]. split; [|done].
  by exists x2, y.
Qed.

Lemma sims_output_to_peer p peer : same false (output_to_peer table_action p peer).
Proof.
  unfold output_to_peer. do 2 sims_step. sims_step; [sims|].
  sims_step; [apply sims_receive_from_peer; by eapply ps_port|]. sims_step; [by apply sims_set_flow|]. sims.
Qed.

Lemma sims_mod_wc_or w f v : in_width (field_width f) v → same w (mod_wc (wc_or f v)).
Proof.
  intros Hv c1 c2 [] d (x & b & -> & Hx & Hb & Hw & Hc) [= <-] _. eexists _, _. split; [done|]. split; [|done].
  exists x, b. split_and!; try done. simpl. by apply wc_or_ok.
Qed.

Lemma sims_output_port_plain w p n : same w (output_port_plain p n).
Proof.
  unfold output_port_plain. do 2 sims_step. sims_step; [sims_step; by apply sims_mod_wc_or|]. sims_step.
  rewrite !(ps_splinters Hps), Z.eqb_refl. sims.
Qed.

Lemma sims_output_to_datapath w a p n :
  xc_ports e_cfg !! a = Some p → same w (output_to_datapath a p n).
Proof.
  intros Ha. unfold output_to_datapath. sims_step. rewrite !(ps_dscp Hps a p _ Ha), (ps_tunnel Hps a p Ha).
  sims_step; [sims|]. sims_step; [apply sims_output_port_plain|]. sims_step; [sims|].
  apply sims_mod_flow. intros y1 y2 Hy. by apply restore_fields_rel.
Qed.

Lemma sims_compose_output w n stp : same w (compose_output_action__ table_action n stp).
Proof.
  unfold compose_output_action__. sims_step. case_match; [|sims]. sims_step. case_match; [sims|].
  sims_step; [case_match; sims|]. sims_step. rewrite (ps_mirrors Hps). sims_step; [sims|].
  case_match; [|by eapply sims_output_to_datapath]. apply sims_strict; [|apply sims_output_to_peer].
  destruct Hvlan as [?|Hnp]; [done|]. exfalso. naive_solver.
Qed.
Hint Resolve sims_compose_output : sims.

(** ** Normal forwarding *)

Lemma output_tci_bits u vid t :
  is_u16 t → in_width 12 vid → uc_use_priority_tags u = false →
  output_tci u vid t = if vid =? 0 then 0 else Z.lor (Z.ldiff t (Z.lor VLAN_VID_MASK VLAN_CFI)) (Z.lor vid VLAN_CFI).
Proof.
  intros Ht Hv Hu. unfold output_tci. rewrite Hu, orb_false_r. destruct (Z.eqb_spec vid 0) as [->|Hn]; [done|]. cbn [negb].
  assert (Z.lor vid (Z.land t VLAN_PCP_MASK) ≠ 0) as Hne by (intros [? _]%Z.lor_eq_0_iff; done).
  rewrite (proj2 (Z.eqb_neq _ _) Hne). cbn [negb].
  replace (Z.land t VLAN_PCP_MASK) with (Z.ldiff t (Z.lor VLAN_VID_MASK VLAN_CFI)); [bits|].
  rewrite <- (land_all_ones 16 t Ht) by done. change VLAN_PCP_MASK with (Z.ldiff (2 ^ 16 - 1) (Z.lor VLAN_VID_MASK VLAN_CFI)).
  bits.
Qed.

Lemma wc_covers_lor f v v' : covers f v → covers f v' → covers f (Z.lor v v').
Proof. unfold MegaflowRel.covers. intros H H'. rewrite Z.land_lor_distr_l. congruence. Qed.

Lemma covers_sub f v v' : covers f v → Z.land v' v = v' → covers f v'.
Proof. unfold MegaflowRel.covers. intros H <-. rewrite <- Z.land_assoc. congruence. Qed.

Lemma low_bits_mask vid : in_width 12 vid → Z.land vid (Z.lor VLAN_VID_MASK VLAN_CFI) = vid.
Proof.
  intros Hv. pose proof (land_all_ones 12 vid Hv ltac:(lia)) as Hl. change (2 ^ 12 - 1) with VLAN_VID_MASK in Hl.
  rewrite <- Hl at 1. rewrite <- Z.land_assoc. done.
Qed.

Lemma tag_rel u vid t1 t2 x1 x2 :
  frel false x1 x2 → fr W o1 o2 false F_vlan_tci t1 t2 → in_width 12 vid → uc_use_priority_tags u = false →
  covers F_vlan_tci (Z.lor VLAN_VID_MASK VLAN_CFI) →
  frel true (upd F_vlan_tci (output_tci u vid t1) x1) (upd F_vlan_tci (output_tci u vid t2) x2).
Proof.
  intros Hx Ht Hv Hu Hc. eapply frel_upd; [exact Hx| |done]. rewrite !output_tci_bits by (done || apply Ht).
  assert (Hcfi : covers F_vlan_tci VLAN_CFI) by (by apply (covers_sub _ _ _ Hc)).
  destruct (Z.eqb_spec vid 0) as [->|Hn].
  - split; [done|]. right. by split_and!.
  - apply fr_bits; [done|done|done| |].
    + apply wc_covers_lor; [|done]. apply (covers_sub _ _ _ Hc). by apply low_bits_mask.
    + apply lor_in_width; [done|by apply (in_width_mono 12)|done].
Qed.

Lemma output_vid_width u vlan : in_width 12 vlan → in_width 12 (output_vlan_to_vid u vlan).
Proof. intros H. unfold output_vlan_to_vid. repeat case_match; done. Qed.

Lemma sims_bond w bond vid :
  same w (r ← gets (λ c, sv_bond_choose_output_slave (cx_svc c) bond (cx_flow c) (cx_wc c) vid);
          let '(s, wc, ofport) := r in
          _ ← modify (λ c, set_svc s (set_wc wc c));
          mret (q ← ofport; _ ← xc_ports e_cfg !! q; Some q)).
Proof.
  intros c1 c2 a d (x & b & -> & Hx & Hb & Hw & Hc) (r & c & [= <- <-] & H)%bind_ok Hle.
  destruct (frel_ok _ _ _ _ _ _ Hx) as [H1 H2].
  pose proof (sv_bond_grows (cx_svc c1) bond (cx_flow c1) (cx_wc c1) vid) as Hg.
  pose proof (sv_bond_sound (cx_svc c1) bond (cx_flow c1) x (cx_wc c1) vid H1 H2 Hw) as Hsnd.
  unfold mbind, xlate_bind, gets, modify. cbn [cx_svc cx_flow cx_wc set_flow set_base_flow].
  destruct (sv_bond_choose_output_slave (cx_svc c1) bond (cx_flow c1) (cx_wc c1) vid) as [[s' wc] ofport]. simpl in Hg, Hsnd.
  injection H as <- <-. simpl in Hle. rewrite Hsnd by (eapply agree_mono; [exact Hle|by eapply frel_agree]).
  eexists _, _. split; [done|]. split; [|done]. exists x, b. split_and!; try done. simpl. by apply Hg.
Qed.

Lemma grows_bond bond vid :
  grows (r ← gets (λ c, sv_bond_choose_output_slave (cx_svc c) bond (cx_flow c) (cx_wc c) vid);
          let '(s, wc, ofport) := r in
          _ ← modify (λ c, set_svc s (set_wc wc c));
          mret (q ← ofport; _ ← xc_ports e_cfg !! q; Some q)).
Proof.
  apply grows_gets_bind. intros c b d. pose proof (sv_bond_grows (cx_svc c) bond (cx_flow c) (cx_wc c) vid) as Hg.
  destruct (sv_bond_choose_output_slave _ _ _ _ _) as [[s w] ofport]. simpl in Hg. by intros [= <- <-].
Qed.

Lemma sims_output_normal u vlan :
  in_width 12 vlan → covers F_vlan_tci (Z.lor VLAN_VID_MASK VLAN_CFI) → same false (output_normal table_action u vlan).
Proof.
  intros Hv Hc. unfold output_normal, compose_output_action. sims_step. cbv zeta. case_match; [sims|].
  eapply sims_bind_eq; [|case_match; [apply grows_bond|grows]|grows|intros p].
  { case_match; [apply sims_bond|sims]. }
  case_match; [|sims]. sims_step. apply sims_flow. intros x1 x2 Hx.
  eapply (sims_bind_eq false true); [|grows|grows|intros _].
  { apply sims_mod_flow. intros y1 y2 Hy.
    apply tag_rel; [done|apply Hx|by apply output_vid_width|by eapply ps_tags|done]. }
  eapply sims_bind_eq; [apply sims_compose_output|grows|grows|intros _].
  apply sims_mod_flow. intros y1 y2 Hy. eapply frel_upd; [exact Hy|apply Hx|auto].
Qed.
Hint Resolve sims_output_normal : sims.

Lemma sims_the_ml w : same w the_ml.
Proof. unfold the_ml. sims. Qed.
Hint Resolve sims_the_ml : sims.

Lemma sims_grat w : same w (decide_wc is_gratuitous_arp).
Proof.
  apply sims_decide; [|intros; apply (W_is_gratuitous_arp wc_grows sf_maskable)].
  intros x1 x2 wc Hx Hok. unfold is_gratuitous_arp. feq.
  destruct (negb _); [done|]. set (w1 := unwildcard [F_dl_dst] wc).
  assert (Hok1 : flow_ok w1) by (by apply unwildcard_ok). intros Hle.
  assert (H1 : wc_le w1 W).
  { eapply wc_le_trans_W; [|done|exact Hle]. repeat case_match; cbn [snd]; wc_grows. }
  revert Hle. decided H1. destruct (negb _); [done|]. set (w2 := unwildcard [F_nw_proto] w1).
  assert (Hok2 : flow_ok w2) by (by apply unwildcard_ok). intros Hle.
  assert (H2 : wc_le w2 W).
  { eapply wc_le_trans_W; [|done|exact Hle]. repeat case_match; cbn [snd]; wc_grows. }
  revert Hle. decided H2. destruct (_ =? ARP_OP_REPLY); [done|]. destruct (_ =? ARP_OP_REQUEST); [|done]. cbn [snd]. intros Hle.
  by decided Hle.
Qed.
Hint Resolve sims_grat : sims.

Lemma sims_put_ml w ml : same w (put_ml ml).
Proof. unfold put_ml. sims. Qed.
Hint Resolve sims_put_ml : sims.

(** MAC learning reads the source address, which is in the wildcards. *)
Lemma sims_update_learning_table vlan u : full F_dl_src → same false (update_learning_table vlan u).
Proof.
  intros Hs. unfold update_learning_table. destruct u as [u|]; [|sims]. unfold is_mac_learning_update_needed, update_learning_table__. sims.
Qed.
Hint Resolve sims_update_learning_table : sims.

Lemma sims_is_admissible i vlan : full F_dl_src → full F_dl_dst → same false (is_admissible i vlan).
Proof. intros Hs Hd. unfold is_admissible. sims. Qed.

Lemma sims_forward_normal u vlan :
  full F_dl_dst → in_width 12 vlan → covers F_vlan_tci (Z.lor VLAN_VID_MASK VLAN_CFI) →
  same false (forward_normal table_action u vlan).
Proof. intros Hd Hv Hc. unfold forward_normal, floods_to. sims. Qed.
Hint Resolve sims_is_admissible sims_forward_normal : sims.

Lemma input_vlan_width a u vid :
  xc_bundles e_cfg !! a = Some u → in_width 12 vid → in_width 12 (input_vid_to_vlan (xu_cfg u) vid).
Proof.
  intros Hu Hv. unfold input_vid_to_vlan. pose proof (ps_vlan Hps a u Hu) as Hw.
  assert (Hu16 : uc_vlan_mode (xu_cfg u) ≠ PORT_VLAN_TRUNK → in_width 12 (u16 (uc_vlan (xu_cfg u)))).
  { intros Hm. rewrite wrap_id; [by apply Hw|]. by apply (in_width_mono 12); [|apply Hw]. }
  destruct (uc_vlan_mode (xu_cfg u)); try (by apply Hu16); [done|destruct (_ =? 0); [by apply Hu16|done]..].
Qed.

Lemma sims_bundle_cfg_bind {B} w w' S b (k1 k2 : xbundle_cfg → xlate B) :
  (∀ u, (∀ vid, in_width 12 vid → in_width 12 (input_vid_to_vlan u vid)) → sims w w' S (k1 u) (k2 u)) →
  sims w w' S (u ← bundle_cfg b; k1 u) (u ← bundle_cfg b; k2 u).
Proof.
  intros H. destruct b as [b|]; cbn [bundle_cfg]; [|by apply (H ofpp_none_bundle)].
  intros c1 c2 a d. unfold bundle_at, lift, mbind, xlate_bind. destruct (xc_bundles e_cfg !! b) as [u|] eqn:Eu; [|done].
  apply (H (xu_cfg u)). intros vid. by apply (input_vlan_width b u).
Qed.

Lemma sims_normal : same false (xlate_normal table_action).
Proof.
  unfold xlate_normal. sims_step; [sims|]. sims_step. sims_step. sims_step. apply sims_flow. intros x1 x2 Hx. feq.
  unfold any_bit, vlan_tci_to_vid.
  match goal with Hc : MegaflowRel.covers _ _ _ |- _ => rename Hc into Hvc end.
  rewrite !(frel_covers W o1 o2 false x1 x2 F_vlan_tci VLAN_CFI Hx), !(frel_covers W o1 o2 false x1 x2 F_vlan_tci VLAN_VID_MASK Hx)
    by (by apply (covers_sub _ _ _ Hvc)).
  assert (Hvid : in_width 12 (Z.land (x2 F_vlan_tci) VLAN_VID_MASK)) by (rewrite Z.land_comm; by apply land_in_width).
  sims_step; [sims|]. case_match; [|sims]. case_match; [sims|]. case_match; [sims|].
  apply sims_bundle_cfg_bind. intros u Hw. pose proof (Hw _ Hvid). case_match; [sims|].
  match goal with H : ∀ f, f ∈ _ → _ |- _ => pose proof (H F_dl_src ltac:(listed)); pose proof (H F_dl_dst ltac:(listed)) end.
  sims.
Qed.
Hint Resolve sims_normal : sims.

(** ** Output actions *)

Lemma sims_in_port {B} w w' S (k1 k2 : Z → xlate B) :
  (∀ i, is_u16 i → sims w w' S (k1 i) (k2 i)) →
  sims w w' S (i ← gets (λ c, cx_flow c F_in_port); k1 i) (i ← gets (λ c, cx_flow c F_in_port); k2 i).
Proof.
  intros H. apply (sims_gets w w' (λ i j, i = j ∧ is_u16 j)); [|intros i j [-> ?]; by apply H].
  intros c1 c2 (x & b & -> & Hx & _). split; [|by apply (Hx F_in_port)]. apply (frel_full _ _ _ _ _ _ _ Hx), M.
Qed.

Lemma sims_flood all : same false (flood_packets table_action all).
Proof. unfold flood_packets, compose_output_action. sims. Qed.
Hint Resolve sims_flood : sims.

Lemma sims_output_action n len m : same false (xlate_output_action table_action n len m).
Proof.
  unfold xlate_output_action, compose_output_action. sims_step. sims_step; [sims|]. apply sims_in_port. intros i Hi.
  pose proof (λ t m, Hta i t m Hi). sims.
Qed.
Hint Resolve sims_output_action : sims.

Lemma sims_enqueue n q : same false (xlate_enqueue_action table_action n q).
Proof.
  unfold xlate_enqueue_action, compose_output_action. sims_step. sims_step. destruct (sv_queue_to_priority _ q) as [pr|] eqn:Eq; [|sims].
  case_match; [sims|]. cbv zeta. sims_step.
  { apply sims_mod_flow. intros y1 y2 Hy. apply upd_same; [done|fixed|by eapply ps_queue|done]. }
  sims_step; [sims|]. sims_step; [|sims]. apply sims_mod_flow. intros y1 y2 Hy.
  apply upd_same; [done|fixed| |done]. by eapply (frel_width _ _ _ F_skb_priority).
Qed.

Lemma sims_resubmit i t : is_u16 i → same false (xlate_ofpact_resubmit table_action i t).
Proof.
  intros Hi. unfold xlate_ofpact_resubmit. sims_step. sims_step. apply Hta. destruct (_ =? _); [|done].
  by eapply (frel_width _ _ _ F_in_port).
Qed.
Hint Resolve sims_enqueue sims_resubmit : sims.

(** ** Registers, the stack and hashing *)

(** A register or the metadata, and not a result of the egress tables. *)
Definition sf_reg (sf : mf_subfield) : Prop :=
  (sf_ofs sf + sf_n_bits sf ≤ mf_n_bits (sf_field sf))%nat
  ∧ match sf_field sf with MFF_REG _ | MFF_METADATA => True | _ => False end.

(** A subfield of a field stored alone. *)
Definition sf_plain (sf : mf_subfield) : Prop :=
  (sf_ofs sf + sf_n_bits sf ≤ mf_n_bits (sf_field sf))%nat ∧ mf_plain (sf_field sf) = true.

Lemma sf_reg_maskable sf : sf_reg sf → sf_maskable sf.
Proof. intros [Hr H]. split; [|done]. by destruct (sf_field sf). Qed.

Lemma sf_plain_maskable sf : sf_plain sf → sf_maskable sf.
Proof. intros [Hr H]. split; [|done]. by destruct (sf_field sf). Qed.

Lemma reg_field sf fl v :
  sf_reg sf → mf_get_value (sf_field sf) fl = fl (mf_flow_field (sf_field sf))
              ∧ mf_set_flow_value (sf_field sf) v fl = upd (mf_flow_field (sf_field sf)) v fl
              ∧ is_packet_field (mf_flow_field (sf_field sf)) = false
              ∧ field_width (mf_flow_field (sf_field sf)) = mf_width (sf_field sf).
Proof.
  intros [_ H]. destruct (sf_field sf); try done. split_and!; try done. simpl. unfold is_packet_field, kind. by destruct (_ && _).
Qed.

Lemma copy_width src so sf v n :
  Forall is_u8 src → (sf_ofs sf + n ≤ mf_n_bits (sf_field sf))%nat →
  in_width (mf_width (sf_field sf)) (get_be (bitwise_copy src so (mf_bytes (sf_field sf) v) (sf_ofs sf) n)).
Proof.
  intros Hs Hr. pose proof (mf_n_bits_bytes (sf_field sf)).
  destruct (bitwise_copy_spec src so (mf_bytes (sf_field sf) v) (sf_ofs sf) n Hs (mf_bytes_u8 _ _)) as (Hl & Hu & _).
  { rewrite length_mf_bytes. lia. }
  pose proof (get_be_width _ Hu) as Hw. by rewrite Hl, length_mf_bytes in Hw.
Qed.

Lemma meta_rel w x1 x2 f (G1 G2 : Z → Z) :
  frel w x1 x2 → is_packet_field f = false → (∀ v, G1 v = G2 v) →
  (∀ v, in_width (field_width f) v → in_width (field_width f) (G1 v)) →
  frel w (upd f (G1 (x1 f)) x1) (upd f (G2 (x2 f)) x2).
Proof.
  intros Hx Hp HG Hw. rewrite <- HG. eapply frel_upd; [exact Hx| |auto]. destruct (Hx f) as [(H1 & H2 & Ha) Hk].
  apply Hw in H1, H2. unfold is_packet_field in Hp. unfold fr. destruct (kind f) eqn:Ek; try done.
  - rewrite Hk in *. by split.
  - destruct Hk as [->|H0]; [split; [done|by left]|]. split; [|by right]. split_and!; [done..|]. by rewrite (H0 f Ek), !Z.land_0_r.
Qed.

Lemma reg_write_rel w sf v x1 x2 :
  sf_reg sf → frel w x1 x2 → frel w (mf_write_subfield_flow sf v x1) (mf_write_subfield_flow sf v x2).
Proof.
  intros Hs Hx. unfold mf_write_subfield_flow. destruct (reg_field sf x1 0 Hs) as (E1 & _ & Hp & Hw).
  destruct (reg_field sf x2 0 Hs) as (E2 & _). rewrite E1, E2.
  rewrite (proj1 (proj2 (reg_field sf x1 _ Hs))), (proj1 (proj2 (reg_field sf x2 _ Hs))).
  apply (meta_rel w x1 x2 _ (λ v', get_be (bitwise_copy (be_bytes 16 v) 0 (mf_bytes (sf_field sf) v') (sf_ofs sf) (sf_n_bits sf)))
           (λ v', get_be (bitwise_copy (be_bytes 16 v) 0 (mf_bytes (sf_field sf) v') (sf_ofs sf) (sf_n_bits sf)))); [done|done|done|].
  intros v' _. rewrite Hw. apply copy_width; [apply be_bytes_u8|apply Hs].
Qed.

Lemma plain_set mf v fl : mf_plain mf = true → mf_set_flow_value mf v fl = upd (mf_flow_field mf) v fl.
Proof. by destruct mf. Qed.

Lemma unwild_covers sf wc :
  sf_plain sf → flow_ok wc → wc_le (mf_unwild sf wc) W → covers (mf_flow_field (sf_field sf)) (bit_mask (sf_n_bits sf) (sf_ofs sf)).
Proof.
  intros [Hr Hp] Hwc Hle. specialize (Hle (mf_flow_field (sf_field sf))). unfold mf_unwild in Hle.
  rewrite mf_write_subfield_flow_value in Hle by done. rewrite plain_set, upd_eq in Hle by done.
  apply covers_bits. intros i Hi Hm. rewrite covers_bits in Hle. apply Hle; [done|]. revert Hm.
  rewrite <- (Z2Nat.id i) by done. rewrite testbit_bit_mask, testbit_bits_put, bool_decide_eq_true. intros Hm.
  rewrite decide_True by done. rewrite Z.testbit_ones_nonneg by lia. apply Z.ltb_lt.
  assert (mf_n_bits (sf_field sf) ≤ 128)%nat by (destruct (sf_field sf); cbn; lia). lia.
Qed.

Lemma bits_get_mask x ofs n : bits_get x ofs n = Z.shiftr (Z.land x (bit_mask n ofs)) (Z.of_nat ofs).
Proof.
  unfold bits_get, bit_mask. rewrite Z.shiftr_land, Z.shiftr_shiftl_l, Z.sub_diag, Z.shiftl_0_r by lia. done.
Qed.

Lemma read_rel w x1 x2 sf :
  frel w x1 x2 → sf_plain sf → covers (mf_flow_field (sf_field sf)) (bit_mask (sf_n_bits sf) (sf_ofs sf)) →
  bits_get (mf_get_value (sf_field sf) x1) (sf_ofs sf) (sf_n_bits sf)
  = bits_get (mf_get_value (sf_field sf) x2) (sf_ofs sf) (sf_n_bits sf).
Proof.
  intros Hx [Hr Hp] Hc. rewrite !plain_get by done. rewrite !bits_get_mask. by rewrite (frel_covers W o1 o2 w x1 x2 _ _ Hx Hc).
Qed.

(** A step that changes the flow and the wildcards. *)
Lemma sims_flow_wc w (f : flowf → flowf → flowf * flowf) :
  (∀ x1 x2 wc, frel w x1 x2 → flow_ok wc → wc_le (f x1 wc).2 W →
     (f x1 wc).2 = (f x2 wc).2 ∧ frel w (f x1 wc).1 (f x2 wc).1) →
  (∀ fl wc, wc_grows wc (f fl wc).2) →
  same w (modify (λ c, let '(fl, wc) := f (cx_flow c) (cx_wc c) in set_flow fl (set_wc wc c))).
Proof.
  intros H Hg c1 c2 [] d (x & b & -> & Hx & Hb & Hw & Hc) [= <-] Hle.
  eexists _, _. split; [done|]. split; [|done]. cbn [cx_flow cx_wc set_flow set_base_flow].
  specialize (H (cx_flow c1) x (cx_wc c1) Hx Hw). specialize (Hg (cx_flow c1) (cx_wc c1) Hw).
  destruct (f (cx_flow c1) (cx_wc c1)) as [fl wc], (f x (cx_wc c1)) as [fl' wc']. simpl in *. destruct (H Hle) as [-> Hf].
  exists fl', b. by split_and!; try apply Hg.
Qed.

Lemma sims_reg_move src dst :
  sf_plain src → sf_reg dst → sf_n_bits src = sf_n_bits dst →
  same false (modify (λ c, let '(fl, wc) := nxm_execute_reg_move dst src (cx_flow c) (cx_wc c) in set_flow fl (set_wc wc c))).
Proof.
  intros Hs Hd Hn. apply (sims_flow_wc false (nxm_execute_reg_move dst src)).
  - intros x1 x2 wc Hx Hw Hle. split; [done|]. unfold nxm_execute_reg_move in *. cbn [fst snd] in *.
    destruct (reg_field dst x1 0 Hd) as (E1 & _ & Hp & Hwd). destruct (reg_field dst x2 0 Hd) as (E2 & _). rewrite E1, E2.
    rewrite (proj1 (proj2 (reg_field dst x1 _ Hd))), (proj1 (proj2 (reg_field dst x2 _ Hd))).
    apply unwild_covers in Hle; [|done|by apply mf_unwild_le; [apply sf_reg_maskable..|]].
    destruct (frel_ok _ _ _ _ _ _ Hx) as [H1 H2]. pose proof (mf_n_bits_bytes (sf_field dst)). pose proof (proj1 Hd).
    apply (meta_rel false x1 x2 _
      (λ v, get_be (bitwise_copy (mf_bytes (sf_field src) (mf_get_value (sf_field src) x1)) (sf_ofs src)
                      (mf_bytes (sf_field dst) v) (sf_ofs dst) (sf_n_bits src)))
      (λ v, get_be (bitwise_copy (mf_bytes (sf_field src) (mf_get_value (sf_field src) x2)) (sf_ofs src)
                      (mf_bytes (sf_field dst) v) (sf_ofs dst) (sf_n_bits src)))); [done|done| |].
    + intros v. rewrite !bitwise_copy_number by (apply mf_bytes_u8 || (rewrite length_mf_bytes; lia)).
      rewrite !(mf_bytes_value (sf_field src)) by (by apply mf_get_value_width). rewrite <- !bits_put_get.
      by rewrite (read_rel false x1 x2 src Hx Hs Hle).
    + intros v _. rewrite Hwd. apply copy_width; [apply mf_bytes_u8|lia].
  - intros fl wc. simpl. etrans; [by apply (wc_rel_unwild (W:=wc_grows)), sf_reg_maskable|].
    by apply (wc_rel_unwild (W:=wc_grows)), sf_plain_maskable.
Qed.

Lemma sims_reg_load dst v : sf_reg dst → same false (mod_flow (nxm_execute_reg_load dst v)).
Proof. intros Hd. apply sims_mod_flow. intros x1 x2. by apply reg_write_rel. Qed.

Lemma sims_stack_push sf :
  sf_plain sf →
  same false (modify (λ c, let '(wc, st) := nxm_execute_stack_push sf (cx_flow c) (cx_wc c) (cx_stack c) in
                           set_stack st (set_wc wc c))).
Proof.
  intros Hs c1 c2 [] d (x & b & -> & Hx & Hb & Hw & Hc) [= <-] Hle. eexists _, _. split; [done|]. split; [|done].
  simpl in Hle. pose proof (unwild_covers sf _ Hs Hw Hle) as Hcov. destruct (frel_ok _ _ _ _ _ _ Hx) as [H1 H2].
  assert (mf_n_bits (sf_field sf) ≤ 128)%nat by (destruct (sf_field sf); cbn; lia). destruct (sf_plain_maskable sf Hs) as [Hm Hr].
  exists x, b. simpl. rewrite !mf_read_subfield_value by (done || lia). rewrite (read_rel false _ x sf Hx Hs Hcov).
  split_and!; try done. by apply mf_unwild_le.
Qed.

Lemma sims_stack_pop sf :
  sf_reg sf →
  same false (modify (λ c, let '(fl, wc, st) := nxm_execute_stack_pop sf (cx_flow c) (cx_wc c) (cx_stack c) in
                           set_stack st (set_flow fl (set_wc wc c)))).
Proof.
  intros Hs c1 c2 [] d (x & b & -> & Hx & Hb & Hw & Hc) [= <-] Hle. eexists _, _. split; [done|]. split; [|done].
  unfold nxm_execute_stack_pop in *. simpl in *. destruct (cx_stack c1) as [|v st]; [by exists x, b|].
  exists (mf_write_subfield_flow sf v x), b. split_and!; try done; [by apply reg_write_rel|].
  destruct (sf_reg_maskable sf Hs) as [Hm Hr]. by apply mf_unwild_le.
Qed.

Lemma hash_rel w x1 x2 wc fields basis :
  frel w x1 x2 → wc_le (flow_mask_hash_fields x1 wc fields) W →
  flow_hash_fields x1 fields basis = flow_hash_fields x2 fields basis.
Proof.
  intros Hx Hle. destruct (frel_ok _ _ _ _ _ _ Hx) as [H1 H2]. apply (flow_hash_masked _ _ wc); [done|done| |].
  - apply (frel_full _ _ _ _ _ _ _ Hx), M.
  - eapply agree_mono; [exact Hle|by eapply frel_agree].
Qed.

Lemma mask_rel w x1 x2 wc fields :
  frel w x1 x2 → flow_mask_hash_fields x1 wc fields = flow_mask_hash_fields x2 wc fields.
Proof. intros Hx. apply flow_mask_hash_fields_ext. apply (frel_full _ _ _ _ _ _ _ Hx), M. Qed.

Lemma sims_multipath mp :
  sf_reg (mp_dst mp) →
  same false (modify (λ c, let '(fl, wc) := multipath_execute mp (cx_flow c) (cx_wc c) in set_flow fl (set_wc wc c))).
Proof.
  intros Hd c1 c2 [] d (x & b & -> & Hx & Hb & Hw & Hc).
  unfold modify, multipath_execute, nxm_reg_load.
  cbn [cx_flow cx_wc set_flow set_base_flow]. destruct (flow_mask_hash_fields_grows (cx_flow c1) (cx_wc c1) (mp_fields mp) Hw) as [Hok _].
  destruct (sf_reg_maskable _ Hd) as [Hm Hr]. destruct (mf_unwild_le (mp_dst mp) _ Hm Hr Hok) as [Hok' Hle'].
  intros [= <-] Hle. cbn [cx_wc set_flow set_wc] in Hle.
  rewrite (hash_rel false (cx_flow c1) x (cx_wc c1) (mp_fields mp)) by (done || by etrans).
  eexists _, _. split; [done|]. split; [|done]. eexists _, b. simpl. rewrite <- (mask_rel false _ x _ _ Hx).
  split_and!; [done|by apply reg_write_rel|done..].
Qed.

(** A single slave is chosen whatever the hash. *)
Lemma hrw_one_slave slaves en h h' :
  (length slaves ≤ 1)%nat → fst <$> execute_hrw_loop slaves en h 0 None = fst <$> execute_hrw_loop slaves en h' 0 None.
Proof. destruct slaves as [|s [|? ?]]; simpl; [done| |lia]. by destruct (en s). Qed.

Lemma bundle_rel w x1 x2 b wc en :
  frel w x1 x2 → wc_le (bundle_execute b x1 wc en).2 W → bundle_execute b x1 wc en = bundle_execute b x2 wc en.
Proof.
  intros Hx. unfold bundle_execute, execute_hrw. destruct (bd_algorithm b); [done|]. cbn [snd].
  rewrite (mask_rel w x1 x2 _ _ Hx). destruct (Nat.ltb_spec 1 (length (bd_slaves b))).
  - rewrite <- (mask_rel w x1 x2 _ _ Hx). intros Hle. by rewrite (hash_rel w x1 x2 _ _ _ Hx Hle).
  - intros _. f_equal. f_equal. by apply hrw_one_slave.
Qed.

Lemma sims_bundle_action b :
  from_option sf_reg True (bd_dst b) → same false (xlate_bundle_action table_action b).
Proof.
  intros Hd. unfold xlate_bundle_action. sims_step.
  assert (Hk : ∀ r : Z * flowf, grows (match bd_dst b with
    | Some dst => modify (λ c, let '(fl, wc) := nxm_reg_load dst r.1 (cx_flow c) (cx_wc c) in set_flow fl (set_wc wc c))
    | None => xlate_output_action table_action r.1 0 false end)).
  { intros r. destruct (bd_dst b) as [dst|]; [|grows]. apply grows_modify. intros c. simpl.
    by apply (wc_rel_unwild (W:=wc_grows)), sf_reg_maskable. }
  intros c1 c2 [] d (x & y & -> & Hx & Hb & Hw & Hc) (r & c & [= <- <-] & H2)%bind_ok Hle.
  apply bind_ok in H2 as ([] & c & [= <-] & H2).
  pose proof (W_bundle_execute wc_grows sf_maskable b (cx_flow c1) (cx_wc c1) (slave_enabled_cb b0) Hw) as [Hok _].
  destruct (Hk _ _ _ _ H2 Hok) as [_ Hg]. simpl in Hg.
  pose proof (bundle_rel false (cx_flow c1) x b (cx_wc c1) (slave_enabled_cb b0) Hx ltac:(by etrans)) as Er.
  unfold mbind, xlate_bind, gets, mod_wc, modify. cbn [cx_flow cx_wc set_flow set_base_flow]. rewrite <- Er. clear Er Hk.
  revert H2 Hok Hg. generalize (bundle_execute b (cx_flow c1) (cx_wc c1) (slave_enabled_cb b0)). intros r H2 Hok Hg.
  assert (Hs : sim false (set_wc r.2 c1) (set_flow x (set_base_flow y (set_wc r.2 c1)))) by (by exists x, y).
  destruct (bd_dst b) as [dst|]; [|by apply (sims_output_action r.1 0 false _ _ _ _ Hs H2)].
  apply (sims_flow_wc false (nxm_reg_load dst r.1)) with (3 := Hs) (4 := H2); [| |done].
  - intros x1 x2 wc Hx' Hw' _. split; [done|]. by apply reg_write_rel.
  - intros fl wc. by apply (wc_rel_unwild (W:=wc_grows)), sf_reg_maskable.
Qed.

Lemma sims_output_reg src len :
  sf_reg src → kind (mf_flow_field (sf_field src)) = K_meta → same false (xlate_output_reg_action table_action src len).
Proof.
  intros Hs Hk. unfold xlate_output_reg_action. pose proof (sf_reg_maskable _ Hs) as Hm. apply sims_flow. intros x1 x2 Hx.
  assert (mf_get_subfield src x1 = mf_get_subfield src x2) as ->.
  { unfold mf_get_subfield. rewrite (proj1 (reg_field src x1 0 Hs)), (proj1 (reg_field src x2 0 Hs)).
    by rewrite (frel_meta W o1 o2 false x1 x2 _ Hx Hk). }
  cbv zeta. sims_step. apply (sims_mod_wc _ _ _ _ True); [intros wc; by apply (wc_rel_unwild (W:=wc_grows))|done|grows|sims].
Qed.
Hint Resolve sims_multipath sims_bundle_action sims_output_reg sims_reg_move sims_reg_load sims_stack_push sims_stack_pop : sims.

(** ** Learning *)

(** The sources of the specifications are in the wildcards, so that both runs
    learn the same. *)
Lemma learn_value_rel specs wc wc' w x1 x2 :
  Forall (spec_src_ok sf_plain) specs → flow_ok wc → learn_mask specs wc = Some wc' → wc_le wc' W → frel w x1 x2 →
  Forall (λ spec, learn_value spec x1 = learn_value spec x2) specs.
Proof.
  intros Hs Hw Hm Hle Hx. revert wc Hw Hm. induction Hs as [|spec specs Hs Hss IH]; intros wc Hw Hm; [constructor|].
  simpl in Hm. unfold spec_src_ok in Hs.
  destruct (ls_src_type spec) eqn:Et; [|constructor; [unfold learn_value; by rewrite Et|by eapply IH]].
  destruct (ls_src spec) as [src|] eqn:Esrc; [|done]. simpl in Hm. destruct (sf_plain_maskable src Hs) as [Hk Hr].
  destruct (mf_unwild_le src wc Hk Hr Hw) as [Hw1 _]. constructor; [|by eapply IH]. unfold learn_value. rewrite Et, Esrc. simpl. f_equal.
  assert (Hms : Forall (spec_src_ok sf_maskable) specs).
  { eapply Forall_impl; [exact Hss|]. intros sp. unfold spec_src_ok. repeat case_match; try done. apply sf_plain_maskable. }
  destruct (W_learn_mask wc_grows sf_maskable _ _ _ Hms Hm Hw1) as [_ Hg].
  pose proof (unwild_covers src wc Hs Hw ltac:(by etrans)) as Hc. destruct (frel_ok _ _ _ _ _ _ Hx).
  assert (mf_n_bits (sf_field src) ≤ 128)%nat by (destruct (sf_field src); cbn; lia).
  rewrite !mf_read_subfield_value by (done || lia). by apply (read_rel w).
Qed.

Lemma learn_specs_rel specs x1 x2 m acts :
  Forall (λ spec, learn_value spec x1 = learn_value spec x2) specs →
  learn_specs_execute specs x1 m acts = learn_specs_execute specs x2 m acts.
Proof.
  intros H. revert m acts. induction H as [|spec specs Hs _ IH]; intros m acts; [done|]. simpl. rewrite Hs.
  destruct (learn_value spec x2); [|done]. simpl. destruct (learn_spec_execute _ _ _ _) as [[m' acts']|]; [|done]. simpl. apply IH.
Qed.

(** A learning action, with the flow table modification that it makes. *)
Lemma sims_learning w specs (g : xlate_ctx → option ofputil_flow_mod) :
  Forall (spec_src_ok sf_maskable) specs → (xi_may_learn e_in = true → Forall (spec_src_ok sf_plain) specs) →
  (xi_may_learn e_in = true → ∀ c x b, Forall (λ spec, learn_value spec (cx_flow c) = learn_value spec x) specs →
     g (set_flow x (set_base_flow b c)) = g c) →
  same w (_ ← learn_begin specs; when (xi_may_learn e_in) (fm ← gets g; fm ← lift fm; flow_mod_step fm)).
Proof.
  intros Hs Hp Hg. destruct (xi_may_learn e_in); cbn [when]; [|sims]. specialize (Hp eq_refl). specialize (Hg eq_refl).
  intros c1 c2 [] d (x & b & -> & Hx & Hb & Hw & Hc). unfold learn_begin, lift, mod_wc, modify, mbind, xlate_bind, gets.
  cbn [cx_wc set_flow set_base_flow set_has_learn]. destruct (learn_mask specs (cx_wc c1)) as [wc|] eqn:Em; [|done].
  unfold mret, xlate_ret. set (d1 := set_wc wc (set_has_learn true c1)). intros H Hle.
  change (set_wc wc (set_has_learn true (set_flow x (set_base_flow b c1)))) with (set_flow x (set_base_flow b d1)).
  assert (Hwd : cx_wc d = wc). { destruct (g d1); [|done]. by injection H as <-. }
  rewrite Hg; [|rewrite Hwd in Hle; exact (learn_value_rel specs (cx_wc c1) wc w _ x Hp Hw Em Hle Hx)].
  destruct (g d1) as [fm|]; [|done]. injection H as <-. eexists _, _. split; [done|]. split; [|done]. exists x, b.
  split_and!; try done. simpl. by apply (W_learn_mask wc_grows sf_maskable _ _ _ Hs Em).
Qed.

Lemma sims_learn w l :
  Forall (spec_src_ok sf_maskable) (ln_specs l) → (xi_may_learn e_in = true → Forall (spec_src_ok sf_plain) (ln_specs l)) →
  same w (xlate_learn_action l).
Proof.
  intros Hs Hp. apply (sims_learning w (ln_specs l) (λ c, mjoin (learn_execute l (cx_flow c)))); [done..|].
  intros _ c x b Hv. unfold learn_execute. cbn [cx_flow set_flow]. by rewrite (learn_specs_rel _ (cx_flow c) x).
Qed.

(** No value for a nested specification is taken from this packet. *)
Definition spec_waits (spec : ofpact_learn_spec) : bool := 1 <=? ls_defer_count spec.
Fixpoint takes_no_value (a : ofpact) : bool :=
  match a with
  | OFPACT_LEARN_LEARN learn ofpacts => forallb spec_waits (ln_specs (ll_learn learn)) && forallb takes_no_value ofpacts
  | OFPACT_LEARN_DELETE learn => forallb spec_waits (ld_specs learn)
  | _ => true
  end.

Lemma change_specs_waits specs x1 x2 : forallb spec_waits specs = true → change_spec_values x1 specs = change_spec_values x2 specs.
Proof.
  unfold change_spec_values. induction specs as [|spec specs IH]; [done|]. simpl. intros [Hs Hss]%andb_true_iff. rewrite IH by done.
  unfold change_spec_value. unfold spec_waits in Hs. by rewrite Hs.
Qed.

Fixpoint defer_waits x1 x2 (a : ofpact) : takes_no_value a = true → defer_action x1 a = defer_action x2 a.
Proof.
  destruct a; try done; cbn [takes_no_value defer_action].
  - intros [Hs Ha]%andb_true_iff. rewrite (change_specs_waits _ x1 x2) by done.
    assert (Em : mapM (defer_action x1) ofpacts = mapM (defer_action x2) ofpacts); [|by rewrite Em].
    induction ofpacts as [|a ofpacts IH]; [done|]. simpl in *. apply andb_true_iff in Ha as [Ha Has].
    rewrite (defer_waits x1 x2 a Ha). by rewrite IH.
  - intros Hs. by rewrite (change_specs_waits _ x1 x2).
Qed.

Lemma do_deferral_waits x1 x2 acts : forallb takes_no_value acts = true → do_deferral x1 acts = do_deferral x2 acts.
Proof.
  unfold do_deferral. induction acts as [|a acts IH]; [done|]. simpl. intros [Ha Has]%andb_true_iff.
  by rewrite (defer_waits x1 x2), IH.
Qed.

Lemma sims_learn_learn w l acts :
  Forall (spec_src_ok sf_maskable) (ln_specs (ll_learn l)) →
  (xi_may_learn e_in = true → Forall (spec_src_ok sf_plain) (ln_specs (ll_learn l)) ∧ forallb takes_no_value acts = true) →
  same w (xlate_learn_learn_action l acts).
Proof.
  intros Hs Hp. apply (sims_learning w (ln_specs (ll_learn l))); [done|apply Hp|].
  intros Hm c x b Hv. unfold learn_learn_execute. cbn [cx_flow cx_table_id cx_counters set_flow set_base_flow].
  rewrite (learn_specs_rel _ (cx_flow c) x), (do_deferral_waits (cx_flow c) x); [done|by apply Hp|done].
Qed.

Lemma sims_learn_delete w l :
  Forall (spec_src_ok sf_maskable) (ld_specs l) → (xi_may_learn e_in = true → Forall (spec_src_ok sf_plain) (ld_specs l)) →
  same w (xlate_learn_delete_action l).
Proof.
  intros Hs Hp. apply (sims_learning w (ld_specs l)); [done..|].
  intros _ c x b Hv. unfold learn_delete_execute. cbn [cx_flow cx_table_id cx_counters set_flow set_base_flow].
  by rewrite (learn_specs_rel _ (cx_flow c) x).
Qed.
Hint Resolve sims_learn sims_learn_learn sims_learn_delete : sims.

(** ** Actions *)

(** Actions whose operands are in range, that write registers where they write
    a subfield, and read fields that are stored alone; and an action that
    learns flows, if the translation may learn, takes no value for a nested
    action from the packet. *)
Definition act_cacheable (a : ofpact) : Prop :=
  act_ok sf_maskable a
  ∧ match a with
    | OFPACT_OUTPUT port _ => is_u16 port
    | OFPACT_SET_VLAN_VID vid => in_width 12 vid
    | OFPACT_SET_VLAN_PCP pcp => in_width 3 pcp
    | OFPACT_SET_ETH_SRC mac | OFPACT_SET_ETH_DST mac => in_width 48 mac
    | OFPACT_SET_IPV4_SRC ip | OFPACT_SET_IPV4_DST ip => is_u32 ip
    | OFPACT_SET_IPV4_DSCP dscp => Z.land dscp IP_DSCP_MASK = dscp
    | OFPACT_SET_L4_SRC_PORT port | OFPACT_SET_L4_DST_PORT port => is_u16 port
    | OFPACT_RESUBMIT in_port _ => is_u16 in_port
    | OFPACT_SET_TUNNEL tun_id => in_width 64 tun_id
    | OFPACT_PUSH_MPLS t | OFPACT_POP_MPLS t => is_u16 t
    | OFPACT_REG_MOVE src dst => sf_plain src ∧ sf_reg dst ∧ sf_n_bits src = sf_n_bits dst
    | OFPACT_REG_LOAD dst _ | OFPACT_STACK_POP dst => sf_reg dst
    | OFPACT_STACK_PUSH src => sf_plain src
    | OFPACT_MULTIPATH mp => sf_reg (mp_dst mp)
    | OFPACT_BUNDLE bundle => from_option sf_reg True (bd_dst bundle)
    | OFPACT_OUTPUT_REG src _ => sf_reg src ∧ kind (mf_flow_field (sf_field src)) = K_meta
    | OFPACT_WRITE_METADATA metadata _ => in_width 64 metadata
    | OFPACT_LEARN learn => xi_may_learn e_in = true → Forall (spec_src_ok sf_plain) (ln_specs learn)
    | OFPACT_LEARN_LEARN learn ofpacts =>
        xi_may_learn e_in = true → Forall (spec_src_ok sf_plain) (ln_specs (ll_learn learn)) ∧ forallb takes_no_value ofpacts = true
    | OFPACT_LEARN_DELETE learn => xi_may_learn e_in = true → Forall (spec_src_ok sf_plain) (ld_specs learn)
    | _ => True
    end.

Lemma sims_go (m : xlate unit) : grows m → same false m → same false (_ ← m; mret false).
Proof. intros G H. sims. Qed.

Lemma sims_set_whole f (v : flowf → Z) :
  is_packet_field f = true → fixed W f →
  (∀ x1 x2, frel false x1 x2 → v x1 = v x2 ∧ in_width (field_width f) (v x2)) →
  same false (mod_flow (λ fl, upd f (v fl) fl)).
Proof.
  intros Hp Hf Hv. apply sims_mod_flow. intros x1 x2 Hx. destruct (Hv x1 x2 Hx) as [-> ?]. by apply upd_same.
Qed.

Lemma sims_pop_queue :
  same false (modify (λ c, set_flow (upd F_skb_priority (cx_orig_skb_priority c) (cx_flow c)) c)).
Proof.
  intros c1 c2 [] d (x & b & -> & Hx & Hb & Hw & Hc) [= <-] _. eexists _, _. split; [done|]. split; [|done].
  eexists _, b. split_and!; try done. simpl. apply upd_same; [done|fixed|apply Hc|done].
Qed.

Lemma sims_set_bits f (cond : flowf → bool) m v :
  kind f = K_bits → covers f m → covers f v → in_width (field_width f) v →
  (∀ x1 x2, frel false x1 x2 → cond x1 = cond x2) →
  same false (mod_flow (λ fl, upd f (if cond fl then Z.lor (Z.ldiff (fl f) m) v else fl f) fl)).
Proof.
  intros Hk Hm Hv Hw Hcond. apply sims_mod_flow. intros x1 x2 Hx. rewrite (Hcond x1 x2 Hx).
  destruct (cond x2); [by apply upd_bits|]. eapply frel_upd; [exact Hx|apply Hx|done].
Qed.

(** Sets a field that the action unwildcards. *)
Ltac fixed_port :=
  match goal with H : ∀ f, f ∈ _ → _ |- _ => split; [apply H; listed|intros _; apply H; listed] end.
Ltac set_whole :=
  unfold set_field_wc; sims_step; apply sims_set_whole; [done|first [fixed|fixed_port]|];
  let x1 := fresh "x1" in let x2 := fresh "x2" in let Hx := fresh "Hx" in
  intros x1 x2 Hx; unfold is_ip_any; feq; split; [done|];
  repeat case_match; first [done|by eapply frel_width].

Lemma pcp_bits pcp :
  in_width 3 pcp → u16 (Z.lor (Z.shiftl pcp VLAN_PCP_SHIFT) VLAN_CFI) = Z.lor (Z.land (Z.shiftl pcp VLAN_PCP_SHIFT) VLAN_PCP_MASK) VLAN_CFI.
Proof.
  intros [H0 H1]. change (2 ^ 3) with 8 in H1.
  assert (pcp = 0 ∨ pcp = 1 ∨ pcp = 2 ∨ pcp = 3 ∨ pcp = 4 ∨ pcp = 5 ∨ pcp = 6 ∨ pcp = 7) as Hc by lia.
  by destruct Hc as [->|[->|[->|[->|[->|[->|[->| ->]]]]]]].
Qed.

Lemma sims_do_action a : act_cacheable a → same false (do_xlate_action table_action a).
Proof.
  intros [Hok Ha]. destruct a; unfold do_xlate_action; simpl in Hok, Ha; destruct_and?; try (apply sims_go; [by grows|]);
    try by sims; try by set_whole.
  - unfold set_field_wc. sims_step. apply (sims_set_bits F_vlan_tci (λ _, true)); [done| | | |done].
    + by eapply covers_sub.
    + apply wc_covers_lor; [|by eapply covers_sub]. eapply covers_sub; [done|]. by apply low_bits_mask.
    + apply lor_in_width; [done|by apply (in_width_mono 12)|done].
  - unfold set_field_wc. sims_step. rewrite pcp_bits by done. apply (sims_set_bits F_vlan_tci (λ _, true)); [done| | | |done].
    + by eapply covers_sub.
    + apply wc_covers_lor; [|by eapply covers_sub]. eapply covers_sub; [done|]. rewrite <- Z.land_assoc. done.
    + apply lor_in_width; [done| |done]. rewrite Z.land_comm. by apply land_in_width.
  - unfold set_field_wc. sims_step. apply (sims_set_bits F_nw_tos (λ fl, fl F_dl_type =? ETH_TYPE_IP)); [done|done| | |].
    + by eapply covers_sub.
    + rewrite <- Ha, Z.land_comm. by apply land_in_width.
    + intros x1 x2 Hx. by feq.
  - by apply sims_reg_move.
  - by apply sims_stack_push.
  - by apply sims_stack_pop.
  - apply sims_mod_flow. intros. by apply upd_meta.
  - apply sims_pop_queue.
  - by apply sims_multipath.
  - apply sims_mod_flow. intros x1 x2 Hx. apply (meta_rel false x1 x2 F_metadata (λ v, Z.lor (Z.ldiff v mask0) (Z.land metadata mask0))
      (λ v, Z.lor (Z.ldiff v mask0) (Z.land metadata mask0))); try done.
    intros v Hv. apply lor_in_width; [done|by apply ldiff_in_width|by apply land_in_width].
  - sims_step. sims_step; [sims|]. apply sims_in_port. intros i Hi. by apply Hta.
Qed.

Lemma sims_to_egress st : is_u16 st → same false (to_egress table_action st).
Proof.
  intros Hst. unfold to_egress. eapply sims_bind_eq; [|solve [grows]|solve [grows]|intros _].
  - apply sims_mod_flow. intros. apply upd_meta; [done|by apply (in_width_mono 16)|done].
  - apply sims_in_port. intros i Hi. by apply Hta.
Qed.

Lemma sims_egress_action a : act_cacheable a → same false (do_xlate_egress_action table_action a).
Proof.
  intros [_ Ha]. unfold do_xlate_egress_action. destruct a; try (by apply sims_ret); by apply sims_to_egress.
Qed.
Hint Resolve sims_do_action sims_egress_action : sims.

Lemma cacheable_ok acts : Forall act_cacheable acts → Forall (act_ok sf_maskable) acts.
Proof. intros H. eapply Forall_impl; [exact H|]. by intros a [? _]. Qed.
Hint Resolve cacheable_ok : core.

Lemma sims_actions_loop acts done :
  Forall act_cacheable acts → same false (xlate_actions_loop table_action acts done).
Proof.
  intros H. revert done. induction H as [|a acts Ha Hacts IH]; intros done; simpl; [sims|].
  pose proof (proj1 Ha). sims_step. case_match; [sims|]. sims.
Qed.
Hint Resolve sims_actions_loop : sims.

Lemma sims_do_xlate_actions acts : Forall act_cacheable acts → same false (do_xlate_actions table_action acts).
Proof.
  intros H. pose proof (cacheable_ok _ H). unfold do_xlate_actions. sims_step; [sims|]. case_match; [|sims].
  sims_step. sims_step; [sims_step; by apply sims_to_egress|]. do 3 sims_step. apply sims_in_port. intros i Hi. by apply Hta.
Qed.

End actions.

(** ** Tables *)

(** Every rule that a lookup can give has such actions. *)
Definition rule_cacheable (r : rule_dpif) : Prop := Forall act_cacheable (rl_actions r).

Record rules_cacheable : Prop := {
  rc_lookup s o t fl w r : (sv_classifier_lookup s o t fl w).1 = Some r → rule_cacheable r;
  rc_drop_frags o : rule_cacheable (sv_drop_frags_rule o);
  rc_miss o : rule_cacheable (sv_miss_rule o);
  rc_no_packet_in o : rule_cacheable (sv_no_packet_in_rule o);
  rc_bridge o b : xc_bridges e_cfg !! o = Some b →
    rule_cacheable (bc_miss_rule (xb_cfg b)) ∧ rule_cacheable (bc_no_packet_in_rule (xb_cfg b))
}.
Context (Hrules : rules_cacheable).

(** The egress tables do not match on the results, or all that the
    comparisons read is in the wildcards. *)
Definition compared_fields : list field := [F_dl_src; F_dl_dst; F_nw_proto; F_nw_src; F_nw_dst; F_tp_src; F_tp_dst].
Context (Hegress : results_unread W ∨ ∀ f, f ∈ compared_fields → full f).

Lemma cacheable_rules_ok : rules_ok sf_maskable.
Proof.
  split.
  - intros s o t fl w r H. by eapply cacheable_ok, rc_lookup.
  - intros o. apply cacheable_ok, Hrules.
  - intros o. apply cacheable_ok, Hrules.
  - intros o. apply cacheable_ok, Hrules.
  - intros o b Hb. split; by eapply cacheable_ok, rc_bridge.
Qed.

Lemma agree_upd f v x1 x2 : agree W x1 x2 → agree W (upd f v x1) (upd f v x2).
Proof.
  intros H g. destruct (decide (g = f)) as [->|Hne]; [by rewrite !upd_eq|]. by rewrite !upd_ne.
Qed.

Lemma lookup_rel w x1 x2 o t s wc :
  frel w x1 x2 → flow_ok wc → wc_le (rule_dpif_lookup_in_table o t s x1 wc).2 W →
  rule_dpif_lookup_in_table o t s x1 wc = rule_dpif_lookup_in_table o t s x2 wc.
Proof.
  intros Hx Hwc. unfold rule_dpif_lookup_in_table. destruct (N_TABLES <=? t); [done|].
  set (wc' := wc_or F_nw_frag FLOW_NW_FRAG_MASK (unwildcard [F_dl_type] wc)).
  assert (Hwc' : flow_ok wc') by (apply wc_or_grows; [done|by apply unwildcard_ok]).
  assert (Hl : ∀ y1 y2, flow_ok y1 → flow_ok y2 → agree W y1 y2 →
    wc_le (sv_classifier_lookup s o t y1 wc').2 W → sv_classifier_lookup s o t y1 wc' = sv_classifier_lookup s o t y2 wc').
  { intros y1 y2 H1 H2 Ha Hle. symmetry. apply sv_lookup_sound; [done..|]. by eapply agree_mono. }
  assert (Hf : any_bit (x1 F_nw_frag) FLOW_NW_FRAG_ANY = any_bit (x2 F_nw_frag) FLOW_NW_FRAG_ANY).
  { unfold any_bit. rewrite (frel_covers W o1 o2 w x1 x2 F_nw_frag FLOW_NW_FRAG_ANY Hx); [done|].
    eapply covers_sub; [apply M|done]. }
  rewrite Hf. destruct (frel_ok _ _ _ _ _ _ Hx) as [H1 H2]. pose proof (frel_agree _ _ _ _ _ _ Hx) as Ha.
  destruct (sv_frag_handling o), (any_bit (x2 F_nw_frag) FLOW_NW_FRAG_ANY); try (by apply Hl); [|done].
  apply Hl; [by do 2 (apply upd_flow_ok; [|done])..|]. by do 2 apply agree_upd.
Qed.

Lemma sims_lookup_step i t : is_u16 i → same false (lookup_step i t).
Proof.
  intros Hi c1 c2 r d (x & b & -> & Hx & Hb & Hw & Hc) Hr Hle.
  assert (Hx' : frel false (upd F_in_port i (cx_flow c1)) (upd F_in_port i x)) by (apply upd_same; [done|fixed|done|done]).
  assert (Hd : cx_wc d = (rule_dpif_lookup_in_table (cx_xbridge c1) t (cx_svc c1) (upd F_in_port i (cx_flow c1)) (cx_wc c1)).2)
    by (by injection Hr as _ <-).
  rewrite Hd in Hle. pose proof (lookup_rel false _ _ (cx_xbridge c1) t (cx_svc c1) _ Hx' Hw Hle) as E2.
  pose proof (grows_lookup_step i t c1 r d Hr Hw) as [Hok _]. rewrite Hd in Hok. injection Hr as <- <-.
  eexists _, _. split; [done|]. cbn [cx_flow cx_wc cx_svc cx_xbridge set_flow set_base_flow]. rewrite <- E2. split; [|done].
  by exists x, b.
Qed.
Hint Resolve sims_lookup_step : sims.

Lemma sims_miss_step t m r : same false (miss_step t m r).
Proof. unfold miss_step. sims. Qed.
Hint Resolve sims_miss_step : sims.

Lemma egress_compare_unread fl f : kind f ≠ K_result → egress_compare fl f = fl f.
Proof.
  intros Hk. unfold egress_compare. assert (Hi : ∀ i, (2 ≤ i < 16)%nat → f ≠ F_reg i).
  { intros i Hi ->. apply Hk. unfold kind. by rewrite (proj2 (Nat.leb_le 2 i)), (proj2 (Nat.ltb_lt i 16)) by lia. }
  simpl. by rewrite !upd_ne by (apply Hi; lia).
Qed.

Lemma result_reg f : kind f = K_result → ∃ i, (i < 14)%nat ∧ f = F_reg (2 + i).
Proof.
  destruct f; try done. unfold kind. destruct (Nat.leb_spec 2 i), (Nat.ltb_spec i 16); try done. intros _.
  exists (i - 2)%nat. split; [lia|]. f_equal. lia.
Qed.

Lemma egress_compare_result fl i :
  (i < 14)%nat → egress_compare fl (F_reg (2 + i)) = (if nth i (egress_comparisons fl) false then 1 else 0).
Proof.
  intros Hi. unfold egress_compare. generalize (eq_refl (length (egress_comparisons fl))). unfold egress_comparisons at 1.
  cbn [length]. generalize (egress_comparisons fl). intros l Hl. do 14 (destruct l as [|? l]; [done|]). destruct l; [|done].
  do 14 (destruct i as [|i]; [by simpl; rewrite ?upd_ne, ?upd_eq by done|]). lia.
Qed.

Lemma egress_comparisons_rel x1 x2 :
  frel false x1 x2 → (∀ f, f ∈ compared_fields → full f) → Forall (λ i, x1 (F_reg i) = x2 (F_reg i)) (seq 7 9) →
  egress_comparisons x1 = egress_comparisons x2.
Proof.
  intros Hx Hf Hr. unfold egress_comparisons, SIMON_REG16_LO, SIMON_REG16_HI, SIMON_REG32, SIMON_REG8_LO, SIMON_REG.
  unfold compared_fields in Hf. feq. simpl in Hr. rewrite !Forall_cons in Hr. destruct_and? Hr.
  by repeat match goal with H : x1 (F_reg _) = _ |- _ => rewrite H; clear H end.
Qed.

Lemma egress_compare_rel x1 x2 : frel false x1 x2 → frel false (egress_compare x1) (egress_compare x2).
Proof.
  intros Hx f. destruct (decide (kind f = K_result)) as [Hk|Hk]; [|rewrite !egress_compare_unread by done; apply Hx].
  destruct (result_reg f Hk) as (i & Hi & ->). rewrite !egress_compare_result by done.
  assert (Hb : ∀ b : bool, in_width (field_width (F_reg (2 + i))) (if b then 1 else 0)) by (by intros []).
  assert (Hu : results_unread W ∨ egress_comparisons x1 = egress_comparisons x2).
  { destruct Hegress as [?|Hf]; [by left|].
    destruct (decide (Forall (λ i, x1 (F_reg i) = x2 (F_reg i)) (seq 7 9))) as [Hr|Hr]; [right; by apply egress_comparisons_rel|].
    left. apply not_Forall_Exists in Hr; [|apply _]. apply Exists_exists in Hr as (j & Hj & Hne). apply elem_of_seq in Hj.
    destruct (Hx (F_reg j)) as [_ Hkj]. unfold kind in Hkj.
    rewrite (proj2 (Nat.leb_le 2 j)), (proj2 (Nat.ltb_lt j 16)) in Hkj by lia. by destruct Hkj. }
  unfold fr. rewrite Hk. destruct Hu as [Hu| ->]; [|split; [split_and!; auto|by left]].
  split; [|by right]. split_and!; [auto..|]. by rewrite (Hu _ Hk), !Z.land_0_r.
Qed.

Lemma sims_table_enter i t m : is_u16 i → same false (table_enter i t m).
Proof.
  intros Hi. unfold table_enter. sims_step; [sims|]. sims_step; [|sims]. apply sims_when; [done|].
  apply sims_mod_flow, egress_compare_rel.
Qed.

Lemma lookup_cacheable o t s fl wc r : (rule_dpif_lookup_in_table o t s fl wc).1 = Some r → rule_cacheable r.
Proof.
  unfold rule_dpif_lookup_in_table. destruct (N_TABLES <=? t); [done|].
  destruct (sv_frag_handling o), (any_bit (fl F_nw_frag) FLOW_NW_FRAG_ANY); try by apply Hrules. intros [= <-]. apply Hrules.
Qed.

Lemma choose_miss_cacheable k r r' : rule_cacheable r → rule_cacheable r' → rule_cacheable (choose_miss_rule k r r').
Proof. unfold choose_miss_rule. by case_match. Qed.

Lemma table_enter_cacheable i t m : returns (from_option rule_cacheable True) (table_enter i t m).
Proof.
  intros c r d. unfold table_enter. intros ([] & c1 & _ & H)%bind_ok. apply bind_ok in H as ([] & c2 & _ & H).
  apply bind_ok in H as (r' & c3 & Hr & H). assert (r' = (rule_dpif_lookup_in_table (cx_xbridge c2) t (cx_svc c2)
    (upd F_in_port i (cx_flow c2)) (cx_wc c2)).1) as -> by (by injection Hr as <- _).
  clear Hr. revert H. unfold miss_step. destruct (_.1) as [r'|] eqn:El; [intros [= <- _]; by eapply lookup_cacheable|].
  destruct (_ && _); [|by intros [= <- _]]. intros (b & c4 & [_ Hb]%the_bridge_ok & H)%bind_ok.
  apply bind_ok in H as (fl & c5 & _ & [= <- _]). apply choose_miss_cacheable; by eapply rc_bridge.
Qed.

Lemma sims_recursively do_actions rule :
  grows (do_actions (rl_actions rule)) → same false (do_actions (rl_actions rule)) →
  same false (xlate_recursively do_actions rule).
Proof. intros G H. unfold xlate_recursively. sims. Qed.

Lemma sims_table_action_body do_actions next i t m :
  is_u16 i →
  (∀ rule, rule_cacheable rule → grows (do_actions (rl_actions rule)) ∧ same false (do_actions (rl_actions rule))) →
  (∀ t', grows (next i t' m)) → (∀ t', same false (next i t' m)) →
  same false (table_action_body do_actions next i t m).
Proof.
  intros Hi Hdo Gn Hn. unfold table_action_body. sims_step. apply sims_when; [done|]. sims_step.
  assert (Hr : ∀ rule, from_option rule_cacheable True rule →
    grows (match rule with Some rule => xlate_recursively do_actions rule | None => mret tt end)).
  { intros [rule|] Hr; [by apply grows_recursively, Hdo|grows]. }
  eapply sims_bind_returns; [by apply sims_table_enter|grows|apply table_enter_cacheable| |].
  - intros rule Hc. pose proof (Hr rule Hc). grows.
  - intros rule ? Hc <-. pose proof (Hr rule Hc). sims_step; [|sims].
    destruct rule as [rule|]; [|sims]. by apply sims_recursively; apply Hdo.
Qed.

Lemma sims_table_action_fuel depth i t m : is_u16 i → same false (xlate_table_action_fuel depth i t m).
Proof.
  revert i t m. induction depth as [|depth IH]; intros i t m Hi; [done|]. cbn [xlate_table_action_fuel].
  assert (Gta : ∀ i t m, grows (xlate_table_action_fuel depth i t m))
    by (intros; apply grows_table_action_fuel, cacheable_rules_ok).
  assert (Hdo : ∀ rule, rule_cacheable rule →
    grows (do_xlate_actions (xlate_table_action_fuel depth) (rl_actions rule))
    ∧ same false (do_xlate_actions (xlate_table_action_fuel depth) (rl_actions rule))).
  { intros rule Hr. split; [apply grows_do_xlate_actions; [done|by apply cacheable_ok]|by apply sims_do_xlate_actions]. }
  generalize (S (Z.to_nat (255 - t))). intros fuel. revert t.
  induction fuel as [|fuel IHf]; intros t; [done|]. cbn [table_chain].
  apply sims_table_action_body; [done|done| |done]. intros t'. apply (grows_table_chain cacheable_rules_ok).
  intros rule Hr. by apply grows_do_xlate_actions.
Qed.

(** ** The translation of a flow *)

Lemma sims_table_action i t m : is_u16 i → same false (xlate_table_action i t m).
Proof. apply sims_table_action_fuel. Qed.

Lemma grows_xlate_table_action i t m : grows (xlate_table_action i t m).
Proof. apply grows_table_action_fuel, cacheable_rules_ok. Qed.
Hint Resolve grows_xlate_table_action : grows.

(** Without sFlow nothing is sampled. *)
Lemma sims_add_sflow : same false add_sflow_action.
Proof.
  unfold add_sflow_action. eapply (sims_bind false false false (λ a b, a = false ∧ b = false)).
  - unfold compose_sflow_action. apply sims_bridge_bind. intros o b Hb. rewrite (ps_sflow Hps o b Hb). apply sims_flow.
    intros. by apply sims_ret.
  - unfold compose_sflow_action. grows.
  - grows.
  - intros ? ? [-> ->]. apply sims_modify; try done. by intros c [_ ?].
Qed.

Lemma sims_fix_sflow : same false fix_sflow_action.
Proof.
  intros c1 c2 [] d Hs Hr _. assert (Hu : cx_user_cookie_offset c1 = false) by (by destruct Hs as (? & ? & _ & _ & _ & _ & [? _])).
  revert Hr. unfold fix_sflow_action, mbind, xlate_bind, gets. rewrite Hu. intros [= <-]. exists tt, c2. split; [|done].
  destruct Hs as (x & b & -> & _). simpl. by rewrite Hu.
Qed.

Lemma in_band_rel x1 x2 :
  frel false x1 x2 → in_band_must_output_to_local_port x1 = in_band_must_output_to_local_port x2.
Proof.
  intros Hx. unfold in_band_must_output_to_local_port. feq.
  assert (Ht : ∀ f v, (f, v) ∈ unmasked_tests → kind f = K_whole → (x1 f =? v) = (x2 f =? v))
    by (intros; by apply (frel_test W o1 o2 M false)).
  by rewrite !Ht by (done || (unfold unmasked_tests; listed)).
Qed.

Lemma sims_xlate_packet tms i acts g1 g2 :
  Forall act_cacheable acts → sims false false eq (xlate_packet tms i acts g1) (xlate_packet tms i acts g2).
Proof.
  intros Ha. pose proof (cacheable_ok _ Ha) as Ha'. unfold xlate_packet.
  pose proof (sims_do_xlate_actions xlate_table_action grows_xlate_table_action sims_table_action acts Ha) as Hdo.
  pose proof sims_add_sflow as Hadd. pose proof sims_fix_sflow as Hfix.
  apply sims_bridge_bind. intros o b Hb. apply sims_get; [done|intros ob]. apply sims_flow. intros x1 x2 Hx.
  rewrite (ps_mirrors Hps), !(ps_splinters Hps), !Z.eqb_refl. cbn [when negb].
  sims_step; [sims|]. sims. rewrite (in_band_rel x0 x3) by done. sims_step.
  apply sims_compose_output; [apply grows_xlate_table_action|apply sims_table_action].
Qed.

Lemma grows_mirror_actions g : grows (add_mirror_actions xlate_table_action g).
Proof. grows. Qed.

Lemma grows_xlate_packet tms i acts g : Forall act_cacheable acts → grows (xlate_packet tms i acts g).
Proof. intros Ha%cacheable_ok. unfold xlate_packet, compose_output_action. grows. Qed.

(** The part after fragments are handled. *)
Definition xlate_rest (tms : bool) (b : xbridge) (acts : list ofpact) (orig_flow : flowf) : xlate unit :=
  flow ← gets cx_flow;
  let in_port := get_ofp_port e_cfg b (flow F_in_port) in
  special ← process_special in_port;
  match special with
  | Some reason => modify (set_slow (Some reason))
  | None => xlate_packet tms in_port acts orig_flow
  end.

Lemma grows_xlate_rest tms b acts g : Forall act_cacheable acts → grows (xlate_rest tms b acts g).
Proof. intros Ha. pose proof (λ i, grows_xlate_packet tms i acts g Ha). unfold xlate_rest. grows. Qed.

Lemma sims_xlate_rest tms b acts g1 g2 :
  Forall act_cacheable acts → sims false false eq (xlate_rest tms b acts g1) (xlate_rest tms b acts g2).
Proof.
  intros Ha. pose proof (λ i, grows_xlate_packet tms i acts g1 Ha). pose proof (λ i, sims_xlate_packet tms i acts g1 g2 Ha).
  unfold xlate_rest. sims.
Qed.

(** The initial lookup. *)
Context (Hacts : Forall act_cacheable (default [] (xi_ofpacts e_in))) (Hrule : from_option rule_cacheable True (xi_rule e_in)).

Lemma rule_lookup_rel w x1 x2 o s wc :
  frel w x1 x2 → flow_ok wc → wc_le (rule_dpif_lookup o s x1 wc).2 W →
  rule_dpif_lookup o s x1 wc = rule_dpif_lookup o s x2 wc.
Proof.
  intros Hx Hwc Hle. unfold rule_dpif_lookup. rewrite <- (lookup_rel w x1 x2 o 0 s wc); [by feq|done|done|].
  unfold rule_dpif_lookup in Hle. by destruct (rule_dpif_lookup_in_table _ _ _ _ _).
Qed.

Lemma rule_lookup_cacheable o s fl wc : rule_cacheable (rule_dpif_lookup o s fl wc).1.
Proof.
  unfold rule_dpif_lookup. pose proof (lookup_cacheable o 0 s fl wc) as H.
  destruct (rule_dpif_lookup_in_table o 0 s fl wc) as [[r|] w]; [by apply H|]. apply choose_miss_cacheable; apply Hrules.
Qed.

Definition rule_lookup : xlate (list ofpact) :=
  r ← gets (λ c, rule_dpif_lookup (cx_xbridge c) (cx_svc c) (cx_flow c) (cx_wc c));
  _ ← mod_wc (λ _, r.2);
  _ ← when (xi_resubmit_stats e_in) (mod_svc (λ s, sv_credit_stats s r.1));
  _ ← modify (set_rule (Some r.1));
  mret (rl_actions r.1).

Lemma rule_lookup_run c acts d :
  rule_lookup c = Ok (acts, d) →
  let r := rule_dpif_lookup (cx_xbridge c) (cx_svc c) (cx_flow c) (cx_wc c) in
  acts = rl_actions r.1
  ∧ d = set_rule (Some r.1) ((if xi_resubmit_stats e_in then λ c', set_svc (sv_credit_stats (cx_svc c) r.1) c' else id) (set_wc r.2 c)).
Proof. unfold rule_lookup. cbv zeta. destruct (xi_resubmit_stats e_in); by intros [= <- <-]. Qed.

Lemma rule_lookup_returns : returns (Forall act_cacheable) rule_lookup.
Proof. intros c acts d [-> _]%rule_lookup_run. apply rule_lookup_cacheable. Qed.

Lemma grows_rule_lookup : grows rule_lookup.
Proof.
  intros c acts d [_ ->]%rule_lookup_run. pose proof (W_rule_lookup wc_grows sf_maskable (cx_xbridge c) (cx_svc c) (cx_flow c) (cx_wc c)).
  by destruct (xi_resubmit_stats e_in).
Qed.

Lemma sims_rule_lookup : same false rule_lookup.
Proof.
  intros c1 c2 acts d Hs Hr Hle. pose proof (grows_rule_lookup c1 acts d Hr) as Hg. apply rule_lookup_run in Hr as [-> ->].
  destruct Hs as (x & b & -> & Hx & Hb & Hw & Hc). destruct (Hg Hw) as [Hok _]. revert Hle Hok. unfold rule_lookup.
  destruct (xi_resubmit_stats e_in); cbn [cx_wc set_rule set_svc set_wc id]; intros Hle Hok;
    (eexists _, _; split; [done|]); cbn [cx_flow cx_wc cx_svc cx_xbridge set_flow set_base_flow];
    rewrite <- (rule_lookup_rel false _ x _ _ _ Hx Hw Hle); (split; [|done]); by exists x, b.
Qed.

Lemma initial_rule_alt :
  initial_rule =
  (ofpacts ← match xi_ofpacts e_in, xi_rule e_in with
             | Some ofpacts, _ => mret ofpacts
             | None, Some rule => mret (rl_actions rule)
             | None, None => rule_lookup
             end;
   _ ← modify (λ c, set_fail_open (match cx_rule c with Some r => rl_fail_open r | None => false end) c);
   mret ofpacts).
Proof. done. Qed.

Lemma grows_initial_rule : grows initial_rule.
Proof. pose proof grows_rule_lookup. rewrite initial_rule_alt. grows. Qed.

Lemma sims_initial_rule : same false initial_rule.
Proof. pose proof grows_rule_lookup. pose proof sims_rule_lookup. rewrite initial_rule_alt. sims. Qed.

Lemma initial_rule_returns : returns (Forall act_cacheable) initial_rule.
Proof.
  intros c acts d. rewrite initial_rule_alt. intros (acts' & c' & H & ([] & c2 & _ & [= -> _])%bind_ok)%bind_ok. revert H.
  destruct (xi_ofpacts e_in) as [a|]; [by intros [= <- _]|]. destruct (xi_rule e_in) as [r|]; [by intros [= <- _]|].
  apply rule_lookup_returns.
Qed.

End sims.
