(* ===== verification/MegaflowTop.v ===== *)
(** * Megaflows are sound

    The datapath caches the actions of a translation under the wildcards that
    the translation returned, and applies them to every packet that agrees
    with the translated one on those bits.  [megaflow_sound] says that
    translating such a packet gives these actions, wildcards and side results
    too. *)
From stdpp Require Import gmap.
From S2P Require Import Prelude Util ByteOrder Hash Hmap HmapThms Bitmap MatchFields MetaFlow OdpActions NxActions.
From S2P Require Import TableCounters Learn Tunnel MacLearning Stp XlateConfig XlateConfigThms XlateCtx Xlate.
From S2P Require Import XlateThms XlateTop XlateGrows MegaflowRel Megaflow.

(** ** The flow is the only input that differs *)

Definition in_with_flow (fl : flowf) (i : xlate_in) : xlate_in :=
  XlateIn (xi_ofproto i) fl (xi_packet i) (xi_may_learn i) (xi_may_increment i) (xi_rule i) (xi_ofpacts i)
    (xi_tcp_flags i) (xi_resubmit_stats i).
Definition env_with_flow (fl : flowf) (E : xlate_env) : xlate_env :=
  XlateEnv (in_with_flow fl e_in) e_cfg e_tnl e_now.

Section env.
Context {Sv : xlate_services} (E : xlate_env) (fl : flowf).
Let E' : xlate_env := env_with_flow fl E.

Lemma do_xlate_actions_env : @do_xlate_actions Sv E' = @do_xlate_actions Sv E.
Proof. reflexivity. Qed.

Lemma table_chain_env : @table_chain Sv E' = @table_chain Sv E.
Proof. reflexivity. Qed.

Lemma table_action_fuel_env depth : @xlate_table_action_fuel Sv E' depth = @xlate_table_action_fuel Sv E depth.
Proof.
  induction depth as [|depth IH]; [done|]. cbn [xlate_table_action_fuel]. by rewrite IH, do_xlate_actions_env, table_chain_env.
Qed.

Lemma mirror_loop_env : @mirror_loop Sv E' = @mirror_loop Sv E.
Proof. reflexivity. Qed.

Lemma mirror_actions_env : @add_mirror_actions Sv E' = @add_mirror_actions Sv E.
Proof. unfold add_mirror_actions. rewrite mirror_loop_env. generalize (@mirror_loop Sv E). reflexivity. Qed.

Lemma xlate_packet_env : @xlate_packet Sv E' = @xlate_packet Sv E.
Proof.
  unfold xlate_packet. rewrite mirror_actions_env, do_xlate_actions_env. unfold xlate_table_action.
  rewrite table_action_fuel_env. generalize (@xlate_table_action_fuel Sv E 257), (@add_mirror_actions Sv E), (@do_xlate_actions Sv E).
  reflexivity.
Qed.

Lemma xlate_flow_env : @xlate_flow Sv E' = @xlate_flow Sv E.
Proof. unfold xlate_flow. rewrite xlate_packet_env. generalize (@xlate_packet Sv E). reflexivity. Qed.

End env.

Lemma run_bind {Sv : xlate_services} {A B} (m : xlate A) (k : A → xlate B) c a c' r :
  m c = Ok (a, c') → k a c' = r → (a ← m; k a) c = r.
Proof. unfold mbind, xlate_bind. by intros ->. Qed.

Lemma the_bridge_run {Sv : xlate_services} {E : xlate_env} c b :
  xc_bridges e_cfg !! cx_xbridge c = Some b → the_bridge c = Ok (b, c).
Proof. intros Hb. unfold the_bridge, bridge_at. eapply run_bind; [done|]. unfold lift. by rewrite Hb. Qed.

(** ** Fragments *)

(** A later fragment is translated without its transport ports. *)
Definition no_ports : flowf → flowf := set_fields [(F_tp_src, 0); (F_tp_dst, 0)].

Lemma no_ports_eq f fl : no_ports fl f = if decide (f = F_tp_src ∨ f = F_tp_dst) then 0 else fl f.
Proof.
  unfold no_ports, set_fields. simpl. destruct (decide (f = F_tp_dst)) as [->|H]; [by rewrite upd_eq|].
  rewrite upd_ne by done. destruct (decide (f = F_tp_src)) as [->|H']; [by rewrite upd_eq|].
  rewrite upd_ne by done. rewrite decide_False by tauto. done.
Qed.

Lemma no_ports_ok fl : flow_ok fl → flow_ok (no_ports fl).
Proof. intros H f. rewrite no_ports_eq. case_decide; [by destruct f|apply H]. Qed.

Section frag.
Context (W o1 o2 : flowf).

Lemma no_ports_megaflow : megaflow W o1 o2 → megaflow W (no_ports o1) (no_ports o2).
Proof.
  intros [H1 H2 H3 Ha Ht T1 T2 I1 I2 I3 I4]. split; try done; try by apply no_ports_ok.
  - intros f. rewrite !no_ports_eq. by case_decide.
  - unfold same_tests in *. eapply Forall_impl; [exact Ht|]. intros [f v]. simpl. rewrite !no_ports_eq. by case_decide.
Qed.

Lemma no_ports_alike f a1 a2 :
  alike W f a1 a2 → alike W f (if decide (f = F_tp_src ∨ f = F_tp_dst) then 0 else a1) (if decide (f = F_tp_src ∨ f = F_tp_dst) then 0 else a2).
Proof. intros H. case_decide; [|done]. split_and!; [by destruct f..|done]. Qed.

Lemma no_ports_frel w x1 x2 :
  frel W o1 o2 w x1 x2 → frel W (no_ports o1) (no_ports o2) w (no_ports x1) (no_ports x2).
Proof.
  intros Hx f. destruct (Hx f) as [Ha Hk]. unfold fr, tracked, unchanged in *. rewrite !no_ports_eq.
  split; [by apply no_ports_alike|]. destruct (kind f) eqn:E; case_decide as Hd; first [done|by right|by destruct Hd as [->| ->]].
Qed.

Lemma no_ports_brel b1 b2 : brel W o1 o2 b1 b2 → brel W (no_ports o1) (no_ports o2) (no_ports b1) (no_ports b2).
Proof.
  intros Hb f Hp. destruct (Hb f Hp) as [Ha Hk]. unfold unchanged in *. rewrite !no_ports_eq.
  split; [by apply no_ports_alike|]. case_decide; auto.
Qed.

Lemma frag_step_wc {Sv : xlate_services} {E : xlate_env} b c go d : frag_step b c = Ok (go, d) → cx_wc d = cx_wc c.
Proof.
  unfold frag_step, mbind, xlate_bind, gets. destruct (negb _); [|destruct (bc_frag (xb_cfg b)); try done]; by intros [= <- <-].
Qed.

Lemma frag_step_sim {Sv : xlate_services} {E : xlate_env} b c1 c2 go d1 :
  megaflow W o1 o2 → sim W o1 o2 false c1 c2 → frag_step b c1 = Ok (go, d1) →
  ∃ d2, frag_step b c2 = Ok (go, d2) ∧ ∃ o1' o2', megaflow W o1' o2' ∧ sim W o1' o2' false d1 d2.
Proof.
  intros M Hs. pose proof Hs as (x & y & -> & Hx & Hy & Hw & Hc). unfold frag_step, mbind, xlate_bind, gets.
  cbn [cx_flow set_flow set_base_flow].
  assert (Hf : any_bit (x F_nw_frag) FLOW_NW_FRAG_ANY = any_bit (cx_flow c1 F_nw_frag) FLOW_NW_FRAG_ANY).
  { unfold any_bit. rewrite (frel_covers W o1 o2 false _ x F_nw_frag FLOW_NW_FRAG_ANY Hx); [done|].
    eapply covers_sub; [apply M|done]. }
  rewrite Hf. destruct (negb _); [|destruct (bc_frag (xb_cfg b)); try done]; intros [= <- <-].
  1, 3, 4: eexists; split; [done|]; by exists o1, o2.
  eexists. split; [done|]. exists (no_ports o1), (no_ports o2). split; [by apply no_ports_megaflow|].
  exists (no_ports x), (no_ports y). split_and!; try done; [by apply no_ports_frel|by apply no_ports_brel].
Qed.
End frag.

(** ** The translation *)

Section sound.
Context {Sv : xlate_services} {Svok : xlate_services_ok Sv} {Svs : xlate_services_sound Sv} {E : xlate_env}.
Context (Hps : plain_switch) (Hrules : rules_cacheable).
Context (Hacts : Forall act_cacheable (default [] (xi_ofpacts e_in))) (Hrule : from_option rule_cacheable True (xi_rule e_in)).

(** Patch ports are sent the packet with its tag removed. *)
Definition tag_kept (W : flowf) : Prop := full W F_vlan_tci ∨ ∀ a p, xc_ports e_cfg !! a = Some p → xp_peer p = None.
Definition egress_kept (W : flowf) : Prop := results_unread W ∨ ∀ f, f ∈ compared_fields → full W f.

Lemma xlate_flow_alt tms :
  xlate_flow tms = (b ← the_bridge; ofpacts ← initial_rule; orig_flow ← gets cx_flow; go ← frag_step b;
                    _ ← when go (xlate_rest tms b ofpacts orig_flow); mret go).
Proof. done. Qed.

Lemma xlate_flow_sim W o1 o2 tms c1 c2 go d1 :
  megaflow W o1 o2 → tag_kept W → egress_kept W → sim W o1 o2 false c1 c2 →
  xlate_flow tms c1 = Ok (go, d1) → wc_le (cx_wc d1) W →
  ∃ x b, xlate_flow tms c2 = Ok (go, set_flow x (set_base_flow b d1)).
Proof.
  intros M Htag Hegr Hs. rewrite xlate_flow_alt.
  intros (b & c1' & [-> Hb]%the_bridge_ok & (acts & e1 & Hi & (g1 & ? & [= <- <-] & (go' & f1 & Hf & ([] & d & Hd & [= -> ->])%bind_ok)%bind_ok)%bind_ok)%bind_ok)%bind_ok Hle.
  pose proof (initial_rule_returns Hrules Hacts Hrule _ _ _ Hi) as Ha. pose proof (frag_step_wc _ _ _ _ Hf) as Hfw.
  assert (Hok : flow_ok (cx_wc c1)) by (by destruct Hs as (? & ? & ? & ? & ? & ? & ?)).
  destruct (grows_initial_rule Hacts Hrule _ _ _ Hi Hok) as [Hok1 _].
  destruct (grows_when go _ (grows_xlate_rest Hrules tms b acts (cx_flow e1) Ha) _ _ _ Hd) as [_ Hg]; [by rewrite Hfw|].
  rewrite Hfw in Hg.
  destruct (sims_initial_rule W o1 o2 M Hacts Hrule _ _ _ _ Hs Hi) as (? & e2 & Hi2 & Hs2 & <-); [by etrans|].
  destruct (frag_step_sim W o1 o2 b e1 e2 go f1 M Hs2 Hf) as (f2 & Hf2 & o1' & o2' & M' & Hs3).
  destruct (sims_when W o1' o2' false go go _ _ eq_refl
    (sims_xlate_rest W o1' o2' M' Hps Htag Hrules Hegr tms b acts (cx_flow e1) (cx_flow e2) Ha) _ _ _ _ Hs3 Hd Hle)
    as ([] & d2 & Hd2 & (x & y & -> & _) & _).
  destruct Hs as (x0 & y0 & -> & _). exists x, y. eapply run_bind; [by apply the_bridge_run|].
  eapply run_bind; [exact Hi2|]. eapply run_bind; [done|]. eapply run_bind; [exact Hf2|]. by eapply run_bind.
Qed.

Lemma grows_xlate_flow tms : grows (xlate_flow tms).
Proof.
  rewrite xlate_flow_alt. apply grows_bind; [grows|intros b].
  eapply grows_bind_returns; [by apply grows_initial_rule|by apply initial_rule_returns|]. intros acts Ha.
  apply grows_bind; [grows|intros fl]. apply grows_bind.
  - intros c go d H. by rewrite (frag_step_wc _ _ _ _ H).
  - intros go. apply grows_bind; [|grows]. by apply grows_when, grows_xlate_rest.
Qed.

End sound.

(** ** The initial context *)

Section init.
Context {Sv : xlate_services} {E : xlate_env}.

(** The wildcards that a translation starts with. *)
Definition init_wc (b : xbridge) (flow : flowf) : flowf :=
  let wc := wc_or F_nw_frag FLOW_NW_FRAG_MASK (unwildcard [F_in_port; F_skb_priority; F_dl_type] (λ _, 0)) in
  if bc_has_netflow (xb_cfg b) then netflow_mask_wc flow wc else wc.

Lemma init_wc_grows b flow :
  let wc := wc_or F_nw_frag FLOW_NW_FRAG_MASK (unwildcard [F_in_port; F_skb_priority; F_dl_type] (λ _, 0)) in
  flow_ok (init_wc b flow) ∧ wc_le wc (init_wc b flow).
Proof.
  intros wc. assert (Hw : flow_ok wc).
  { apply wc_or_ok; [|done]. apply unwildcard_ok. intros f. split; [done|]. pose proof (field_width_pos f). lia. }
  revert Hw. change (wc_grows wc (init_wc b flow)). unfold init_wc, netflow_mask_wc. fold wc.
  destruct (bc_has_netflow _); [|done]. destruct (negb _); wc_grows.
Qed.

Lemma init_ctx_plain b ml stps counters s :
  xi_flow e_in F_tun_dst = 0 →
  init_ctx b ml stps counters s =
  (true, Ctx (xi_flow e_in) (set_fields ((λ f, (f, 0)) <$> tunnel_fields) (xi_flow e_in)) 0 [] (xi_rule e_in) 0
           (xi_flow e_in F_skb_priority) 0 0 0 false false (xi_ofproto e_in) (init_wc b (xi_flow e_in)) None false false false
           false NF_OUT_DROP 0 [] ml stps counters [] s []).
Proof. intros H. unfold init_ctx, tnl_xlate_init, tnl_port_should_receive. by rewrite H. Qed.

(** A packet with the flow [fl'] hits the megaflow that the translation of
    [fl] installed with the wildcards [wc]: they agree on [wc].  Both packets
    come in without metadata of their own, and not through a tunnel. *)
Record served (wc fl fl' : flowf) : Prop := {
  sd_ok : flow_ok fl;
  sd_ok' : flow_ok fl';
  sd_agree : agree wc fl fl';
  sd_tests : same_tests fl fl';
  sd_tci : tci_ok (fl F_vlan_tci);
  sd_tci' : tci_ok (fl' F_vlan_tci);
  sd_metadata f : is_packet_field f = false → fl f = fl' f;
  sd_tunnel : fl F_tun_dst = 0
}.

Lemma le_full W f : flow_ok W → Z.land (all_ones f) (W f) = all_ones f → full W f.
Proof.
  intros Hok H. unfold full. rewrite <- H, Z.land_comm. symmetry. pose proof (field_width_pos f).
  apply land_all_ones; [apply Hok|lia].
Qed.

Lemma served_megaflow b W fl fl' :
  flow_ok W → wc_le (init_wc b fl) W → served W fl fl' → megaflow W fl fl'.
Proof.
  intros Hok Hle [H1 H2 Ha Ht T1 T2 Hm _]. destruct (init_wc_grows b fl) as [_ Hi].
  pose proof (transitivity Hi Hle) as Hw. assert (Hf : ∀ f, f ∈ [F_in_port; F_skb_priority; F_dl_type] → full W f).
  { intros f Hf. apply le_full; [done|]. specialize (Hw f). unfold wc_or in Hw. by rewrite upd_ne, unwildcard_in in Hw by set_solver. }
  split; try done; try (apply Hf; set_solver). by apply (wc_or_covers W F_nw_frag _ _ Hw).
Qed.

Lemma served_frel W fl fl' : megaflow W fl fl' → served W fl fl' → frel W fl fl' false fl fl'.
Proof. intros M Hs. apply (frel_refl W fl fl' M); intros f Hk; apply Hs; unfold is_packet_field; by rewrite Hk. Qed.

Lemma base_brel W fl fl' :
  megaflow W fl fl' →
  brel W fl fl' (set_fields ((λ f, (f, 0)) <$> tunnel_fields) fl) (set_fields ((λ f, (f, 0)) <$> tunnel_fields) fl').
Proof.
  intros M f Hp. assert (Hf : ∀ x, set_fields ((λ f, (f, 0)) <$> tunnel_fields) x f = x f).
  { intros x. unfold set_fields. simpl. by rewrite !upd_ne by (intros ->; done). }
  rewrite !Hf. split; [by apply unchanged_alike|by right].
Qed.

Lemma xlate_actions_run b ml stps counters s go d :
  xc_bridges e_cfg !! xi_ofproto e_in = Some b → (init_ctx b ml stps counters s).1 = true →
  xlate_flow true (init_ctx b ml stps counters s).2 = Ok (go, d) →
  xlate_actions ml stps counters s = Some (when go (mod_wc flow_wildcards_clear_non_packet) d).
Proof.
  intros Hb Ht Hd. unfold xlate_actions. rewrite Hb. cbn [mbind option_bind].
  destruct (init_ctx b ml stps counters s) as [tms c]. simpl in *. subst tms. f_equal. by eapply run_bind.
Qed.

End init.

Section theorem.
Context {Sv : xlate_services} {Svok : xlate_services_ok Sv} {Svs : xlate_services_sound Sv} {E : xlate_env}.

Lemma init_sim b W fl' ml stps counters s :
  megaflow W (xi_flow e_in) fl' → served W (xi_flow e_in) fl' →
  let r1 := init_ctx b ml stps counters s in
  let r2 := @init_ctx Sv (env_with_flow fl' E) b ml stps counters s in
  r1.1 = true ∧ r2.1 = true ∧ sim W (xi_flow e_in) fl' false r1.2 r2.2.
Proof.
  intros M Hs r1 r2. unfold r1, r2. rewrite init_ctx_plain by apply Hs. rewrite (@init_ctx_plain Sv (env_with_flow fl' E)).
  2: { simpl. rewrite <- (sd_metadata _ _ _ Hs) by done. apply Hs. }
  cbn [fst snd]. split_and!; [done..|].
  eexists _, _. split_and!; [|by apply served_frel|by apply base_brel|apply init_wc_grows|split; [done|by apply Hs]].
  pose proof (served_frel W _ _ M Hs) as Hx. unfold init_wc, netflow_mask_wc. cbn [xi_flow env_with_flow e_in in_with_flow].
  rewrite (frel_full _ _ _ _ _ _ F_dl_type Hx), (frel_full _ _ _ _ _ _ F_skb_priority Hx) by apply M. done.
Qed.

(** No lookup of the translation matches on a result of the egress tables. *)
Definition reads_no_results ml stps counters s : Prop :=
  ∀ b go d, let '(tms, c) := init_ctx b ml stps counters s in
  xc_bridges e_cfg !! xi_ofproto e_in = Some b → xlate_flow tms c = Ok (go, d) → results_unread (cx_wc d).

Lemma clear_packet wc f : is_packet_field f = true → flow_wildcards_clear_non_packet wc f = wc f.
Proof. intros Hp. apply clear_non_packet_other; [by intros ->|]. intros i ->. revert Hp. unfold is_packet_field, kind. by destruct (_ && _). Qed.

Lemma served_cleared wc W fl fl' :
  (∀ f, is_packet_field f = true → wc f = W f) → served wc fl fl' → served W fl fl'.
Proof.
  intros Hc [? ? Ha ? ? ? Hm ?]. split; try done. intros f. destruct (is_packet_field f) eqn:Hp; [|by rewrite Hm].
  by rewrite <- Hc.
Qed.


End theorem.

(** ** An example *)

(** Actions in the range of the example, which may be cached. *)
Definition ex_cacheable (a : ofpact) : bool :=
  match a with
  | OFPACT_OUTPUT port _ => bool_decide (is_u16 port)
  | OFPACT_SET_ETH_DST mac => bool_decide (in_width 48 mac)
  | OFPACT_DEC_TTL _ => true
  | _ => false
  end.

Lemma ex_cacheable_ok {E : xlate_env} a : ex_cacheable a = true → act_cacheable a.
Proof. destruct a; try done; intros H; (split; [done|]); try exact (bool_decide_eq_true_1 _ H); done. Qed.

Definition mg_services : xlate_services := ex_services_for ex_cacheable.

(** A router: packets without a tag for one address get a new destination and
    a smaller TTL. *)
Definition mg_flows : ex_tables :=
  [Entry 150 [(F_vlan_tci, 0); (F_nw_dst, 0x0a000001)] [OFPACT_SET_ETH_DST 5; OFPACT_DEC_TTL [0]; OFPACT_OUTPUT 2 0]].

(** TCP packets from different ports. *)
Definition mg_flow (tp_src : Z) : flowf :=
  set_fields [(F_nw_dst, 0x0a000001); (F_nw_proto, 6); (F_nw_ttl, 64); (F_tp_src, tp_src); (F_tp_dst, 80)] ex_ip_flow.
Definition mg_env (fl : flowf) : xlate_env := XlateEnv (XlateIn 10 fl None true false None None 0 false) ex_cfg [] 0.

Lemma mg_rules fl : rules_cacheable (Sv:=mg_services) (E:=mg_env fl).
Proof.
  split.
  - intros s o t x w r Hr. eapply Forall_impl; [exact (ex_lookup_actions _ _ _ _ _ _ Hr)|]. apply ex_cacheable_ok.
  - intros o. constructor.
  - intros o. constructor.
  - intros o. constructor.
  - intros o b Hb. destruct (ex_cfg_bridges o b Hb) as [E1 E2]. unfold rule_cacheable. rewrite E1, E2. split; constructor.
Qed.

Lemma empty_no_priority p q : forallb (λ l, (length l =? 0)%nat) (hm_buckets (xp_skb_priorities p)) = true → get_skb_priority p q = None.
Proof.
  intros H. rewrite List.forallb_forall in H. unfold get_skb_priority, hmap_for_each_in_bucket.
  assert (Hn : hmap_first_in_bucket (xp_skb_priorities p) (hash_int q 0) = []).
  { unfold hmap_first_in_bucket. destruct (hm_buckets _ !! _) as [l|] eqn:El; [|done].
    specialize (H l). destruct l; [done|]. discriminate H. eapply list_elem_of_In, list_elem_of_lookup_2, El. }
  by rewrite Hn.
Qed.

Lemma ex_cfg_ports a p :
  xc_ports ex_cfg !! a = Some p →
  pc_is_tunnel (xp_cfg p) = false ∧ forallb (λ l, (length l =? 0)%nat) (hm_buckets (xp_skb_priorities p)) = true ∧ is_u16 (xp_ofp_port p).
Proof.
  assert (Hall : map_Forall (λ _ p, pc_is_tunnel (xp_cfg p) = false
    ∧ forallb (λ l, (length l =? 0)%nat) (hm_buckets (xp_skb_priorities p)) = true ∧ is_u16 (xp_ofp_port p))
    (xc_ports ex_cfg)) by (apply (bool_decide_unpack _); by vm_compute). apply Hall.
Qed.

Lemma ex_cfg_bundles a u :
  xc_bundles ex_cfg !! a = Some u → uc_use_priority_tags (xu_cfg u) = false ∧ uc_vlan_mode (xu_cfg u) = PORT_VLAN_TRUNK.
Proof.
  assert (Hall : map_Forall (λ _ u, uc_use_priority_tags (xu_cfg u) = false ∧ 
     (match uc_vlan_mode (xu_cfg u) with PORT_VLAN_TRUNK => true | _ => false end) = true)
    (xc_bundles ex_cfg)) by (apply (bool_decide_unpack _); by vm_compute). intros Hu. destruct (Hall _ _ Hu) as [? H].
  split; [done|]. by destruct (uc_vlan_mode _).
Qed.

Lemma ex_cfg_sflow o b : xc_bridges ex_cfg !! o = Some b → bc_sflow (xb_cfg b) = None.
Proof.
  assert (Hall : map_Forall (λ _ b, bc_sflow (xb_cfg b) = None) (xc_bridges ex_cfg))
    by (apply (bool_decide_unpack _); by vm_compute). apply Hall.
Qed.

#[local] Opaque ex_cfg.

Lemma mg_plain fl : plain_switch (Sv:=mg_services) (E:=mg_env fl).
Proof.
  split; [done..| | | | | | |].
  - apply ex_cfg_sflow.
  - intros a p Hp. exact (proj1 (ex_cfg_ports a p Hp)).
  - intros a p q Hp. by apply empty_no_priority, (ex_cfg_ports a p).
  - intros a u Hu. exact (proj1 (ex_cfg_bundles a u Hu)).
  - intros a u Hu Hm. destruct (Hm (proj2 (ex_cfg_bundles a u Hu))).
  - intros a p Hp. by apply (ex_cfg_ports a p).
  - done.
Qed.

(** What the witness needs of the run. *)
Definition mg_run (fl : flowf) : option (res (unit * xlate_ctx)) :=
  xlate_actions (Sv:=mg_services) (E:=mg_env fl) ∅ ∅ init_counters mg_flows.

Definition mg_result (r : option (res (unit * xlate_ctx (Sv:=mg_services)))) : option (list odp_action * Z * Z) :=
  match r with Some (Ok (_, c)) => Some (cx_odp_actions c, cx_wc c F_vlan_tci, cx_wc c F_tp_src) | _ => None end.

Lemma mg_run_result :
  mg_result (mg_run (mg_flow 1000))
  = Some ([ODP_SET_ETHERNET 0 5; ODP_SET_IPV4 0 0x0a000001 6 0 63 0; ODP_OUTPUT 7], 0xffff, 0).
Proof. vm_compute. reflexivity. Qed.

Lemma mg_run_ok :
  ∃ c, mg_run (mg_flow 1000) = Some (Ok (tt, c)) ∧ cx_odp_actions c = [ODP_SET_ETHERNET 0 5; ODP_SET_IPV4 0 0x0a000001 6 0 63 0; ODP_OUTPUT 7]
       ∧ cx_wc c F_vlan_tci = 0xffff ∧ cx_wc c F_tp_src = 0.
Proof.
  pose proof mg_run_result as H. destruct (mg_run (mg_flow 1000)) as [[[[] c]| |]|]; [|done..]. injection H as H1 H2 H3.
  by exists c.
Qed.

Lemma mg_flow_ok p : is_u16 p → flow_ok (mg_flow p).
Proof.
  intros Hp. unfold mg_flow, set_fields. simpl. unfold ex_ip_flow.
  repeat (apply upd_flow_ok; [|done]). intros f. split; [done|]. pose proof (field_width_pos f). lia.
Qed.

Lemma mg_flow_other p q f : f ≠ F_tp_src → mg_flow p f = mg_flow q f.
Proof.
  intros Hf. unfold mg_flow, set_fields. simpl. destruct (decide (f = F_tp_dst)) as [->|Hd]; [done|].
  by rewrite !(upd_ne F_tp_dst), !(upd_ne F_tp_src).
Qed.

Lemma mg_served wc : wc F_tp_src = 0 → served wc (mg_flow 1000) (mg_flow 2000).
Proof.
  intros Hw. split; try by apply mg_flow_ok.
  - intros f. destruct (decide (f = F_tp_src)) as [->|Hf]; [by rewrite Hw, !Z.land_0_r|by rewrite (mg_flow_other 1000 2000)].
  - repeat constructor.
  - done.
  - done.
  - intros f Hf. apply mg_flow_other. by intros ->.
  - done.
Qed.

(** No result register is in the wildcards before they are cleared. *)
Definition mg_regs : bool :=
  match xc_bridges ex_cfg !! 10 with
  | Some b =>
      let '(tms, c) := init_ctx (Sv:=mg_services) (E:=mg_env (mg_flow 1000)) b ∅ ∅ init_counters mg_flows in
      match xlate_flow (Sv:=mg_services) (E:=mg_env (mg_flow 1000)) tms c with
      | Ok (_, d) => forallb (λ i, cx_wc d (F_reg (2 + i)) =? 0) (seq 0 14)
      | _ => false
      end
  | None => false
  end.

Lemma mg_regs_unread : mg_regs = true.
Proof. vm_compute. reflexivity. Qed.

Lemma mg_reads_no_results :
  reads_no_results (Sv:=mg_services) (E:=mg_env (mg_flow 1000)) ∅ ∅ init_counters mg_flows.
Proof.
  intros b go d. pose proof mg_regs_unread as H. unfold mg_regs in H. revert H.
  change (xc_bridges (@e_cfg (mg_env (mg_flow 1000))) !! xi_ofproto (@e_in (mg_env (mg_flow 1000)))) with (xc_bridges ex_cfg !! 10).
  destruct (xc_bridges ex_cfg !! 10) as [b'|]; [|intros H; discriminate H]. intros H.
  destruct (init_ctx (Sv:=mg_services) (E:=mg_env (mg_flow 1000)) b ∅ ∅ init_counters mg_flows) as [tms c] eqn:Ei. intros [= <-]. rewrite Ei in H. intros Hd. rewrite Hd in H.
  rewrite List.forallb_forall in H. intros f Hk. destruct (result_reg f Hk) as (i & Hi & ->). apply Z.eqb_eq, H, in_seq. lia.
Qed.

#[local] Opaque xlate_actions.

