(* ===== verification/XlateVlan.v ===== *)
(** * VLANs of bundles, and the registers of the egress tables

    What a bundle does to the VLAN of a packet that leaves through it and to
    one that enters through it fit together, and the comparisons made on entry
    to the egress tables say which original header fields the packet still
    has, except for the Ethernet source. *)
From S2P Require Import Prelude Util Bitwise Bitmap MatchFields MetaFlow OdpActions NxActions TableCounters Learn.
From S2P Require Import Tunnel MacLearning Stp XlateConfig XlateCtx Xlate.

(** ** VLANs *)

(** The VLAN of a bundle's configuration is a VLAN, or -1 on a trunk. *)
Definition vlan_cfg_ok (u : xbundle_cfg) : Prop :=
  match uc_vlan_mode u with PORT_VLAN_TRUNK => uc_vlan u = -1 | _ => 0 ≤ uc_vlan u < 4096 end.

(** VLAN 0 cannot be told from the native VLAN. *)
Definition vlan_expressible (u : xbundle_cfg) (vlan : Z) : Prop :=
  match uc_vlan_mode u with
  | PORT_VLAN_NATIVE_TAGGED | PORT_VLAN_NATIVE_UNTAGGED => vlan = 0 → uc_vlan u = 0
  | _ => True
  end.

Lemma u16_vlan v : 0 ≤ v < 4096 → u16 v = v.
Proof. intros Hv. apply (wrap_id 16). split; [lia|]. change (2 ^ 16) with 65536. lia. Qed.

Lemma output_tci_fields u vid tci :
  0 ≤ vid < 4096 → is_u16 tci →
  let out := output_tci u vid tci in
  is_u16 out ∧ vlan_tci_to_vid out = vid
  ∧ (vid ≠ 0 → vlan_tci_to_cfi out = true ∧ vlan_tci_to_pcp out = vlan_tci_to_pcp tci)
  ∧ (vid = 0 → uc_use_priority_tags u = false → out = 0).
Proof.
  intros Hv Ht. assert (Hw : in_width 12 vid) by done.
  assert (Hvid : Z.land vid VLAN_VID_MASK = vid) by (change VLAN_VID_MASK with (2 ^ 12 - 1); by apply land_all_ones).
  assert (Hpcp : ∀ i, 12 ≤ i → Z.testbit vid i = false) by (intros; by apply (testbit_high 12)).
  set (full := Z.lor (Z.lor vid (Z.land tci VLAN_PCP_MASK)) VLAN_CFI).
  assert (Hfull : is_u16 full ∧ vlan_tci_to_vid full = vid ∧ vlan_tci_to_cfi full = true
                  ∧ vlan_tci_to_pcp full = vlan_tci_to_pcp tci).
  { split_and!.
    - apply (lor_in_width 16); [done| |done]. apply (lor_in_width 16); [done|by apply (in_width_mono 12)|].
      rewrite Z.land_comm. by apply (land_in_width 16).
    - unfold vlan_tci_to_vid, full. rewrite !Z.land_lor_distr_l, Hvid, <- Z.land_assoc. simpl. by rewrite Z.land_0_r, !Z.lor_0_r.
    - unfold vlan_tci_to_cfi. apply negb_true_iff, Z.eqb_neq. intros E. apply (f_equal (λ z, Z.testbit z 12)) in E.
      unfold full in E. rewrite Z.land_spec, Z.lor_spec in E. simpl in E. by rewrite orb_true_r in E.
    - unfold vlan_tci_to_pcp, full. f_equal. rewrite !Z.land_lor_distr_l, <- Z.land_assoc. simpl.
      assert (Z.land vid VLAN_PCP_MASK = 0) as ->; [|by rewrite Z.lor_0_r].
      apply Z.bits_inj'. intros i Hi. rewrite Z.land_spec, Z.bits_0. destruct (decide (12 ≤ i)); [by rewrite Hpcp|].
      assert (Hi' : i ∈ seqZ 0 12) by (apply elem_of_seqZ; lia). rewrite andb_false_intro2; [done|].
      assert (Hall : Forall (λ i, Z.testbit VLAN_PCP_MASK i = false) (seqZ 0 12)) by (by repeat constructor).
      rewrite Forall_forall in Hall. by apply Hall. }
  destruct Hfull as (F1 & F2 & F3 & F4). unfold output_tci. cbv zeta. fold full.
  assert (H0 : vid = 0 ∨ negb (Z.lor vid (Z.land tci VLAN_PCP_MASK) =? 0) = true).
  { destruct (Z.eqb_spec (Z.lor vid (Z.land tci VLAN_PCP_MASK)) 0) as [E|]; [|by right]. left. by apply Z.lor_eq_0_l in E. }
  destruct (Z.eqb_spec vid 0) as [->|Hn]; simpl.
  - destruct (uc_use_priority_tags u); [|by split_and!]. destruct (negb _) eqn:En; [by split_and!|].
    apply negb_false_iff, Z.eqb_eq in En. rewrite En. by split_and!.
  - destruct H0 as [?|H0]; [done|rewrite H0; by split_and!].
Qed.

(** a bundle keeps VLANs apart.  A packet of a VLAN that the bundle
    carries leaves with a VID that a bundle with the same configuration lets in
    and maps to the same VLAN; the frame carries exactly that VID, with the
    packet's priority, or no tag if there is neither; an access port carries
    its own VLAN only. *)
Theorem vlan_roundtrip u vlan tci :
  vlan_cfg_ok u → 0 ≤ vlan < 4096 → is_u16 tci → xbundle_includes_vlan u vlan = true → vlan_expressible u vlan →
  let vid := output_vlan_to_vid u vlan in
  let out := output_tci u vid tci in
  0 ≤ vid < 4096 ∧ input_vid_is_valid vid u = true ∧ input_vid_to_vlan u vid = vlan
  ∧ vlan_tci_to_vid out = vid
  ∧ (vid ≠ 0 → vlan_tci_to_cfi out = true ∧ vlan_tci_to_pcp out = vlan_tci_to_pcp tci)
  ∧ (vid = 0 → uc_use_priority_tags u = false → out = 0)
  ∧ (uc_vlan_mode u = PORT_VLAN_ACCESS → vlan = uc_vlan u).
Proof.
  intros Hu Hv Ht Hi He vid out. assert (Hvid : 0 ≤ vid < 4096).
  { subst vid. unfold output_vlan_to_vid. destruct (uc_vlan_mode u); try destruct (_ =? _); lia. }
  destruct (output_tci_fields u vid tci Hvid Ht) as (_ & H1 & H2 & H3). split; [done|].
  assert (Hacc : uc_vlan_mode u = PORT_VLAN_ACCESS → vlan = uc_vlan u).
  { intros Em. unfold xbundle_includes_vlan, xbundle_trunks_vlan in Hi. rewrite Em, orb_false_r in Hi. by apply Z.eqb_eq. }
  assert (input_vid_is_valid vid u = true ∧ input_vid_to_vlan u vid = vlan) as [? ?]; [|by split_and!].
  subst vid. unfold input_vid_is_valid, input_vid_to_vlan, output_vlan_to_vid, vlan_cfg_ok, vlan_expressible in *.
  destruct (uc_vlan_mode u).
  - rewrite u16_vlan by done. split; [done|]. symmetry. by apply Hacc.
  - done.
  - rewrite Hi, orb_true_r. split; [done|]. destruct (Z.eqb_spec vlan 0) as [->|]; [|done]. rewrite He by done. done.
  - destruct (Z.eqb_spec vlan (uc_vlan u)) as [->|].
    + rewrite u16_vlan by done. done.
    + rewrite Hi, orb_true_r. split; [done|]. destruct (Z.eqb_spec vlan 0) as [->|]; [|done]. naive_solver.
Qed.

Lemma vlan_roundtrip_witness :
  let u := XbundleCfg None None PORT_VLAN_NATIVE_UNTAGGED 10 None false true in
  output_vlan_to_vid u 10 = 0 ∧ input_vid_to_vlan u 0 = 10 ∧ output_tci u 20 0xe000 = 0xf014
  ∧ input_vid_is_valid (output_vlan_to_vid u 20) u = true.
Proof.
  intros u. split; [done|]. split; [done|]. split; [done|].
  apply (vlan_roundtrip u 20 0xe000); by vm_compute.
Defined.

(** ** The registers *)

(** The registers hold the header fields of [o], as lib/simon.h lays them out. *)
Definition regs_hold (o fl : flowf) : Prop :=
  fl (F_reg 7) = o F_dl_type
  ∧ fl (F_reg 8) = Z.lor (Z.shiftl (Z.shiftr (o F_dl_src) 32) 16) (Z.shiftr (o F_dl_dst) 32)
  ∧ fl (F_reg 9) = u32 (o F_dl_src) ∧ fl (F_reg 10) = u32 (o F_dl_dst) ∧ fl (F_reg 11) = o F_nw_proto
  ∧ fl (F_reg 12) = o F_nw_src ∧ fl (F_reg 13) = o F_nw_dst ∧ fl (F_reg 14) = o F_tp_src ∧ fl (F_reg 15) = o F_tp_dst.

(** Register, original field, and field of the packet now. *)
Definition egress_results : list (nat * field * field) :=
  [(2%nat, F_dl_type, F_dl_type); (5%nat, F_dl_dst, F_dl_src); (6%nat, F_dl_dst, F_dl_dst);
   (7%nat, F_nw_proto, F_nw_proto); (8%nat, F_nw_src, F_nw_src); (9%nat, F_nw_src, F_nw_dst);
   (10%nat, F_nw_dst, F_nw_src); (11%nat, F_nw_dst, F_nw_dst); (12%nat, F_tp_src, F_tp_src);
   (13%nat, F_tp_src, F_tp_dst); (14%nat, F_tp_dst, F_tp_src); (15%nat, F_tp_dst, F_tp_dst)].

Lemma egress_compare_regs fl :
  (λ i, egress_compare fl (F_reg i)) <$> seq 2 14 = (λ b : bool, if b then 1 else 0) <$> egress_comparisons fl.
Proof.
  unfold egress_compare. assert (Hl : length (egress_comparisons fl) = 14%nat) by done. revert Hl.
  generalize (egress_comparisons fl). intros l Hl.
  do 14 (destruct l as [|? l]; [done|]). destruct l; [|done]. reflexivity.
Qed.

Lemma egress_compare_reg fl (k : nat) (b : bool) :
  egress_comparisons fl !! k = Some b → egress_compare fl (F_reg (2 + k)) = if b then 1 else 0.
Proof.
  intros Hb. pose proof (f_equal (lookup k) (egress_compare_regs fl)) as H.
  rewrite !list_lookup_fmap, Hb in H. assert (k < 14)%nat by (by apply lookup_lt_Some in Hb).
  rewrite lookup_seq_lt in H by done. by injection H.
Qed.

Lemma egress_compare_other fl f :
  (∀ i, (2 ≤ i ≤ 15)%nat → f ≠ F_reg i) → egress_compare fl f = fl f.
Proof.
  intros Hf. unfold egress_compare.
  assert (H : ∀ l fl, Forall (λ p : nat * bool, 2 ≤ p.1 ≤ 15)%nat l →
    foldl (λ fl '(i, b), upd (F_reg i) (if b : bool then 1 else 0) fl) fl l f = fl f).
  { induction l as [|[i b] l IH]; intros fl' Hl; [done|]. apply Forall_cons in Hl as [Hi Hl]. simpl.
    rewrite IH by done. apply upd_ne. by apply Hf. }
  apply H. by repeat constructor.
Qed.

Lemma low_bits w x : 0 ≤ w → in_width w x → Z.land x (2 ^ w - 1) = x.
Proof. intros. by apply land_all_ones. Qed.

(** The two halves of an Ethernet address. *)
Lemma mac_halves x : in_width 48 x → Z.lor (Z.shiftl (Z.shiftr x 32) 32) (u32 x) = x.
Proof.
  intros Hx. apply Z.bits_inj'. intros i Hi. rewrite Z.lor_spec, (testbit_wrap 32) by lia.
  destruct (decide (i < 32)).
  - rewrite Z.shiftl_spec_low by done. by rewrite (proj2 (Z.ltb_lt _ _)).
  - rewrite Z.shiftl_spec_high, Z.shiftr_spec by lia. rewrite (proj2 (Z.ltb_ge i 32)) by lia.
    replace (i - 32 + 32) with i by lia. by rewrite orb_false_r.
Qed.

Lemma shiftr_width_0 w x : 0 ≤ w → in_width w x → Z.shiftr x w = 0.
Proof. intros Hw Hx. rewrite Z.shiftr_div_pow2 by done. by apply Z.div_small. Qed.

Lemma reg8_low s d : 0 ≤ s → in_width 16 d → Z.land (Z.lor (Z.shiftl s 16) d) 0xffff = d.
Proof.
  intros Hs Hd. rewrite Z.land_lor_distr_l. change 0xffff with (2 ^ 16 - 1). rewrite (low_bits 16 d) by done.
  change (2 ^ 16 - 1) with (Z.ones 16). rewrite Z.land_ones by done. rewrite Z.shiftl_mul_pow2, Z.mod_mul by done. done.
Qed.

Lemma reg8_high s d :
  in_width 16 s → in_width 16 d → Z.shiftr (Z.land (Z.lor (Z.shiftl s 16) d) 0xffff0000) 8 = Z.shiftl s 8.
Proof.
  intros Hs Hd. apply Z.bits_inj'. intros i Hi. rewrite Z.shiftr_spec, Z.land_spec, Z.lor_spec, !Z.shiftl_spec by lia.
  change 0xffff0000 with (Z.shiftl (Z.ones 16) 16). rewrite Z.shiftl_spec by lia.
  replace (i + 8 - 16) with (i - 8) by lia. destruct (decide (i < 8)).
  - by rewrite !(Z.testbit_neg_r _ (i - 8)), andb_false_r by lia.
  - rewrite (testbit_high 16 d) by (done || lia). rewrite orb_false_r. destruct (decide (i - 8 < 16)).
    + rewrite Z.ones_spec_low by lia. apply andb_true_r.
    + by rewrite (testbit_high 16 s) by (done || lia).
Qed.

(** The registers as the comparison reads them: the high half of the Ethernet
    source is read 24 bits too far to the left. *)
Lemma regs_read o fl :
  flow_ok o → regs_hold o fl →
  let regs i := fl (F_reg i) in
  SIMON_REG16_LO regs 7 = o F_dl_type
  ∧ Z.lor (Z.shiftl (SIMON_REG16_LO regs 8) 32) (SIMON_REG32 regs 10) = o F_dl_dst
  ∧ Z.lor (Z.shiftl (SIMON_REG16_HI regs 8) 32) (SIMON_REG32 regs 9)
    = Z.lor (Z.shiftl (Z.shiftr (o F_dl_src) 32) 40) (u32 (o F_dl_src))
  ∧ SIMON_REG8_LO regs 11 = o F_nw_proto ∧ SIMON_REG32 regs 12 = o F_nw_src ∧ SIMON_REG32 regs 13 = o F_nw_dst
  ∧ SIMON_REG16_LO regs 14 = o F_tp_src ∧ SIMON_REG16_LO regs 15 = o F_tp_dst.
Proof.
  intros Ho (E7 & E8 & E9 & E10 & E11 & E12 & E13 & E14 & E15) regs.
  unfold SIMON_REG8_LO, SIMON_REG16_LO, SIMON_REG16_HI, SIMON_REG32, SIMON_REG, regs. rewrite !Z.shiftr_0_r.
  rewrite E7, E8, E9, E10, E11, E12, E13, E14, E15.
  assert (Hd : in_width 16 (Z.shiftr (o F_dl_dst) 32)) by (apply (shiftr_drops_width 16 32); [lia..|apply (Ho F_dl_dst)]).
  assert (Hs : in_width 16 (Z.shiftr (o F_dl_src) 32)) by (apply (shiftr_drops_width 16 32); [lia..|apply (Ho F_dl_src)]).
  split_and!.
  - apply (low_bits 16); [done|apply Ho].
  - rewrite reg8_low by (done || apply Hs). rewrite (low_bits 32 (u32 _)) by (done || by apply wrap_in_width).
    apply mac_halves, (Ho F_dl_dst).
  - rewrite reg8_high by done. rewrite (low_bits 32 (u32 _)) by (done || by apply wrap_in_width).
    by rewrite Z.shiftl_shiftl.
  - apply (low_bits 8); [done|apply Ho].
  - apply (low_bits 32); [done|apply Ho].
  - apply (low_bits 32); [done|apply Ho].
  - apply (low_bits 16); [done|apply Ho].
  - apply (low_bits 16); [done|apply Ho].
Qed.

(** on entry to the egress tables the registers tell what became of the
    packet.  When the registers hold the original header fields in the layout
    of lib/simon.h, each result register but two is 1 exactly if the original
    field equals the packet's field now, and everything but the result
    registers is unchanged. *)
Theorem egress_compare_correct o fl :
  flow_ok o → regs_hold o fl →
  (∀ f, (∀ i, (2 ≤ i ≤ 15)%nat → f ≠ F_reg i) → egress_compare fl f = fl f)
  ∧ Forall (λ '(i, f, g), egress_compare fl (F_reg i) = if o f =? fl g then 1 else 0) egress_results.
Proof.
  intros Ho Hr. split; [by apply egress_compare_other|].
  destruct (regs_read o fl Ho Hr) as (E1 & E2 & _ & E4 & E5 & E6 & E7 & E8).
  unfold egress_results. rewrite !Forall_cons, Forall_nil.
  rewrite <- E1, <- E2, <- E4, <- E5, <- E6, <- E7, <- E8. split_and!; try done.
  all: match goal with |- egress_compare _ (F_reg ?i) = _ => exact (egress_compare_reg fl (i - 2) _ eq_refl) end.
Qed.

(** An Ethernet source whose upper half is not zero never compares equal to
    itself. *)
Lemma egress_dl_src_misread o fl :
  flow_ok o → regs_hold o fl → fl F_dl_src = o F_dl_src → Z.shiftr (o F_dl_src) 32 ≠ 0 → egress_compare fl (F_reg 3) = 0.
Proof.
  intros Ho Hr Hsame Hne. destruct (regs_read o fl Ho Hr) as (_ & _ & E3 & _).
  rewrite (egress_compare_reg fl 1 _ eq_refl : egress_compare fl (F_reg 3) = _), E3, Hsame.
  rewrite (proj2 (Z.eqb_neq _ _)); [done|]. intros Heq. rewrite <- (mac_halves (o F_dl_src)) in Heq at 3 by apply (Ho F_dl_src).
  apply (f_equal (λ z, Z.shiftr z 32)) in Heq. rewrite !Z.shiftr_lor, !Z.shiftr_shiftl_l in Heq by lia.
  rewrite (shiftr_width_0 32 (u32 _)), !Z.lor_0_r, Z.shiftl_0_r, Z.shiftl_mul_pow2 in Heq by (lia || by apply wrap_in_width).
  nia.
Qed.

Lemma egress_compare_correct_witness :
  let o := upd F_tp_src 80 (upd F_nw_src 7 (λ _, 0)) in
  let fl := upd F_tp_src 443 (upd (F_reg 14) 80 (upd (F_reg 12) 7 (upd F_nw_src 7 (λ _, 0)))) in
  egress_compare fl F_tp_src = 443
  ∧ Forall (λ '(i, f, g), egress_compare fl (F_reg i) = if o f =? fl g then 1 else 0) egress_results.
Proof.
  intros o fl. destruct (egress_compare_correct o fl) as [Hf Hr].
  - unfold o. intros f. unfold upd. repeat case_decide; simplify_eq; first [done|by destruct f].
  - by repeat split.
  - split; [by rewrite Hf|done].
Defined.
