(* ===== verification/XlateDeviations.v ===== *)
(** * Where the translation deviates (ofproto/ofproto-dpif-xlate.c)

    Runs of the translator that differ from what its comments and the
    documentation of its callers promise.  The flow cache of the datapath
    needs that flows which agree on the fields of the returned wildcards
    translate to the same actions: a register load into a header field, the
    comparison on entry to the egress tables and the rewriting of IP headers
    depend on fields that they leave wildcarded.  A table action that finds a rule in table 0 runs the
    rest of the pipeline twice, and a large egress counter leads from the last
    egress table into the internal table. *)
From stdpp Require Import gmap.
From S2P Require Import Prelude Hmap MatchFields MetaFlow OdpActions NxActions TableCounters Learn XlateConfig.
From S2P Require Import XlateConfigThms XlateCtx Xlate XlateThms XlateTop.

(** ** The wildcards of a translation *)

Definition dev_env (fl : flowf) : xlate_env := XlateEnv (xlate_in_init 10 fl None 0 None) ex_cfg [] 0.

(** The actions for a flow and the mask of one field in the wildcards. *)
Definition dev_run (s : ex_tables) (fl : flowf) (f : field) : option (list odp_action * Z) :=
  match xlate_actions (Sv:=ex_services) (E:=dev_env fl) ∅ ∅ init_counters s with
  | Some (Ok (_, c)) => Some (cx_odp_actions c, cx_wc c f)
  | _ => None
  end.

(** Two IP packets that differ in one field only, for which the translation
    returns different actions, the first time without matching the field. *)
Definition cached_wrongly (s : ex_tables) (f : field) (v w : Z) : Prop :=
  ∃ acts acts' mask,
    dev_run s (upd f v ex_ip_flow) f = Some (acts, 0) ∧ dev_run s (upd f w ex_ip_flow) f = Some (acts', mask)
    ∧ acts ≠ acts'.

(** Loading the value that the Ethernet destination has already. *)
Lemma reg_load_cached_wrongly :
  cached_wrongly [Entry 150 [] [OFPACT_REG_LOAD (MfSubfield MFF_ETH_DST 0 48) 5; OFPACT_OUTPUT 2 0]] F_dl_dst 5 6.
Proof. do 3 eexists. split; [vm_compute; reflexivity|]. split; [vm_compute; reflexivity|]. done. Qed.

(** The comparison of the IP source with the original one, 0. *)
Lemma egress_compare_cached_wrongly :
  cached_wrongly [Entry 150 [] [OFPACT_OUTPUT 2 0]; Entry 200 [(F_reg 8, 1)] [OFPACT_OUTPUT 2 0]] F_nw_src 0 1.
Proof. do 3 eexists. split; [vm_compute; reflexivity|]. split; [vm_compute; reflexivity|]. done. Qed.

(** Rewriting the IP destination of a packet whose protocol is 0 does nothing,
    and does not match on the protocol. *)
Lemma nw_proto_cached_wrongly :
  cached_wrongly [Entry 150 [] [OFPACT_SET_IPV4_DST 5; OFPACT_OUTPUT 2 0]] F_nw_proto 0 6.
Proof. do 3 eexists. split; [vm_compute; reflexivity|]. split; [vm_compute; reflexivity|]. done. Qed.

(** Setting the source port of a TCP packet with both ports 0 does nothing, and
    does not match on the destination port. *)
Lemma tp_dst_cached_wrongly :
  let run tp_dst :=
    dev_run [Entry 150 [] [OFPACT_SET_L4_SRC_PORT 5; OFPACT_OUTPUT 2 0]] (upd F_tp_dst tp_dst (upd F_nw_proto 6 ex_ip_flow)) F_tp_dst in
  run 0 = Some ([ODP_OUTPUT 7], 0) ∧ run 80 = Some ([ODP_SET_TCP 5 80; ODP_OUTPUT 7], 0xffff).
Proof. split; vm_compute; reflexivity. Qed.

(** ** The pipeline *)

(** A table action that finds a rule in table 0 runs the rest of the pipeline
    for the rule and once more for itself: the packet is output twice. *)
Lemma table_zero_runs_twice :
  ex_result (Some (xlate_table_action (Sv:=ex_services) (E:=ex_env (Some [])) 9 0 true
    (set_svc (Sv:=ex_services) [Entry 0 [] []; Entry 150 [] [OFPACT_OUTPUT 2 0]] ex_ctx)))
  = Some ([ODP_OUTPUT 7; ODP_OUTPUT 7],
          [(0, 0); (1, 1); (1, 150); (2, 200); (0, 150); (1, 200)], init_counters).
Proof. vm_compute. reflexivity. Qed.

(** With a counter of 54 or more the last egress table leads to the table
    after the egress tables. *)
Lemma egress_overruns k : 54 ≤ tc_egress k → next_table 253 k = Some 254 ∧ TABLE_IS_EGRESS 254 = false.
Proof.
  intros Hk. split; [|done]. change (next_table 253 k) with (if 53 <? tc_egress k then Some 254 else None).
  by rewrite (proj2 (Z.ltb_lt 53 _)) by lia.
Qed.

(** ** Controller actions *)

(** An action to a controller after a patch port's peer has taken the packet
    as one of its protocols. *)
Lemma controller_aborts `{Sv : xlate_services} `{E : xlate_env} len reason id c r :
  cx_slow c = Some r → r ≠ SLOW_CONTROLLER → execute_controller_action len reason id c = Abort.
Proof.
  intros Hs Hr. unfold execute_controller_action, mbind, xlate_bind, gets. rewrite Hs.
  rewrite bool_decide_eq_false_2; [done|]. by intros [|[=]].
Qed.
